(* ===== verification/_CoqProject ===== *)
-Q . S2P
Prelude.v
RecyclingTrie.v
Types.v
PriceArith.v
Asset.v
SeqTracker.v
Accounts.v
AccountLmdb.v
Database.v
DbView.v
Offers.v
Clearing.v
Demand.v
SerialManager.v
Orderbook.v
OrderbookProps.v
Manager.v
Filtering.v
FilterProps.v
FilterExamples.v
Mempool.v
MempoolProps.v
HeaderMap.v
OrderbookLmdb.v
OrderbookPersist.v
BlockClearing.v
BlockAgreement.v
Examples.v
TxProcessor.v
TxAtomicity.v
BlockProducer.v
BlockAssembly.v
BlockValidator.v
ValidationEffects.v
ValidationProps.v
BlockValidation.v
BlockVerdict.v
BlockMerging.v
CommitmentTrie.v
DatabaseReload.v
Frames.v
BlockDecision.v
ModLog.v
ModLogProps.v
Engine.v
EngineProps.v
Vm.v
Rejection.v
Reload.v
NetworkLP.v
BitRow.v
ObjectiveRow.v
Simplex.v
MarketNetwork.v
TaxFree.v
TaxFreeSolution.v
SparseTableau.v
SparsePivot.v
SparseBuild.v
SparseSimplex.v
Feasibility.v
SerialAuction.v
SerialExperiment.v
TxExamples.v
BlockExamples.v
ValidationExamples.v
EngineExamples.v
