(* ===== verification/Prelude.v ===== *)
(** * SPEEDEX: a verification library

    SPEEDEX is a decentralised exchange that processes a block of transactions as
    an unordered set: accounts, reservations and new offers are kept so that the
    operations of one block commute, and all trades of a block happen at one
    vector of prices after its transactions.  This library models the deterministic
    core of the program as executable definitions and proves what makes it
    correct.  The paths below are under src/.

    ** The parts, and how they call each other

    A block is produced in four steps.  Transactions run against the accounts
    (memory_database) and put offers into per-thread buffers
    (orderbook/orderbook_manager_view); the new accounts and offers are committed;
    a price computation outside the model proposes prices and an amount of supply
    to activate per orderbook, and every orderbook clears its cheapest offers
    (orderbook); the commitments of every orderbook go into the header.  A
    validator runs the same transactions and then clears tentatively against the
    header's commitments, checks the market clearing conditions, and keeps or rolls
    back the result.  Independently, thunks bring the databases on disk up to date
    some rounds later.

    The files, in the order they depend on each other:
    - [Prelude]: results of code that throws, machine integers, Euclidean
      division, the list, map and loop lemmas the parts share.
    - [Types]: the XDR structures and enumerations (xdr).
    - [PriceArith]: utils/price.h and utils/fixed_point_value.h, at their width.
    - [Asset], [SeqTracker], [Accounts]: revertable_asset.h, sequence_tracker.cc,
      user_account.cc and account_vector.cc of memory_database.  [Asset] also
      models the compare-and-swap loop as a step relation over threads.
    - [AccountLmdb], [Database]: account_lmdb.cc and memory_database.cc of
      memory_database: creation, commit, rollback, persistence thunks and the
      commitment trie of all accounts.
    - [CommitmentTrie], [DatabaseReload]: the trie of account records as an invariant;
      genesis, writing and loading the whole database, and going back to the disk.
    - [DbView]: memory_database_view.cc: what one transaction sees of the accounts,
      buffered in production and directly in validation, behind the class
      [DatabaseView].
    - [Offers]: orderbook/utils.h: orderbook indices and trie keys.
    - [Clearing]: offer_clearing_logic.h, offer_clearing_params.cc and
      commitment_checker.cc of orderbook.
    - [Demand]: metadata.h and the price queries of orderbook/orderbook.cc.
    - [SerialManager]: orderbook/orderbook_manager_view.cc, the buffers and
      lookups of one thread, behind the class [MainManager].
    - [Orderbook], [OrderbookProps]: orderbook/orderbook.cc, one orderbook.
    - [Manager]: orderbook/orderbook_manager.cc, all orderbooks.
    - [OrderbookLmdb], [OrderbookPersist]: orderbook/lmdb.cc, the offers on disk.
    - [BlockClearing], [BlockAgreement]: the clearing passes of a whole block.
    - [HeaderMap]: header_hash/block_header_hash_map.cc, in memory and on disk.
    - [Filtering], [FilterProps]: filtering: which accounts' transactions of a block
      fit together.
    - [Mempool], [MempoolProps]: mempool: chunks, buffer, filter and cleaner.
    - [RecyclingTrie]: the per-thread tries that the filter and the log merge.
    - [TxProcessor], [TxAtomicity]: block_processing/serial_transaction_processor.cc.
    - [BlockProducer], [BlockAssembly]: block_processing/block_producer.cc: the
      worker threads that run the transactions of a block.
    - [BlockValidator]: block_processing/block_validator.cc and the replay of a
      trusted block.  [ValidationEffects] says what one transaction is allowed to
      do, [ValidationProps] what the workers do together, [BlockValidation],
      [BlockVerdict], [BlockMerging] and [BlockDecision] what the whole pass decides
      and leaves; [Frames] what no transaction and no clearing touches.
    - [ModLog], [ModLogProps]: modlog: the log of modified accounts, its hash, and the
      block of transactions it hands out.
    - [Engine], [EngineProps]: speedex/speedex_operation.cc and
      autorollback_validation_structures.cc: producing and validating a header.
    - [Vm]: speedex/vm/speedex_vm.cc and the phases of speedex_persistence.cc: what
      consensus calls.  [Rejection]: what a rejected block leaves behind.
    - [Reload]: speedex/reload_from_hotstuff.cc: replaying blocks from disk, up to the
      exception that ends the loading of a database.
    - [NetworkLP], [MarketNetwork]: no code, but what the linear programs of simplex
      share: tableaus over the incidence matrix of a graph, and the graph of a market.
    - [BitRow], [ObjectiveRow], [Simplex]: bitcompressed_row.cc, objective_row.h and the
      dense solver of simplex.cc; [TaxFree], [TaxFreeSolution]: the program that trades as
      much as possible, and reading its solution off the tableau.
    - [SparseTableau], [SparseSimplex], [Feasibility]: sparse.cc, the sparse solver of
      simplex.cc and solver.cc, which asks whether amounts can be traded at all;
      [SparsePivot] and [SparseBuild] are the lemmas on the tableau's two copies.
    - [SerialAuction], [SerialExperiment]: cda, the market the evaluation compares with:
      one orderbook that matches orders one at a time, and the two-sided market.
    - [Examples], [FilterExamples], [TxExamples], [BlockExamples],
      [ValidationExamples], [EngineExamples]: concrete runs at which the theorems
      apply.

    The state of a node is [Vm.SpeedexVM]: the structures of
    speedex_management_structures.h ([Engine.SpeedexManagementStructures]), the
    mempool, and the headers consensus decided or that wait for a decision.  [propose]
    composes [BlockProducer.build_block], [Engine.speedex_block_creation_logic] and
    [Engine.persist_critical_round_data]; [exec_block] composes
    [Engine.speedex_block_validation_logic] with the same persistence step.

    ** What is outside

    The merkle trie, LMDB, hashing and signatures are in git submodules or
    installed packages.  Each is a class of operations with the laws the code relies
    on: [OfferTrieIndex] for the offer tries, [MerkleTrie] for the commitment
    trie, [DeletableTrie] for the books of the serial market, [RecyclingTrie]
    and [LogTrie] for the tries of the filter and of the modification log, [LMDBInstance], [OrderbookDbi] and [HeaderDbi] for LMDB,
    [BlockHash] for the hash of a header.  [ClearingDBLaws] and
    [SerialAccountModificationLog] are what clearing needs of the accounts and of
    the log; [HeaderBlock] is what the header map needs of a header.  Every class
    has an instance, so that no theorem about it is empty.

    ** Conventions

    An integer is a [Z] whose wrap-around is written where the code computes it
    ([u64], [i32], ...); the [int] indices of [Demand.get_metadata] are plain numbers,
    the same up to [2^30] prices.  A function that can throw returns [result]; the string is
    the message.  A map or vector reached through a reference is passed and
    returned.  A parallel loop is an arbitrary partition of its range: the theorems
    that mention [batches] quantify over it.  Recursion is structural or on a fuel
    the definition computes itself (the number of records, of bits or of loop
    rounds), and the theorems are about the value returned, not about runs that
    happen to end.

    ** What the theorems show

    - Blocks: whatever the division over threads and the interleaving of whole
      transactions, at positive prices (the validator divides
      by the header's prices and does not check them), a validation that returns decides a block exactly, and it returns
      unless a cancellation names a pair that is not listed; an accepted header is the hash of the state the
      validator ends in; a validator accepts what a producer computed and ends in the
      same state; clearing never pays out more than it takes, per asset and over all
      orderbooks, within bounds on the volume the validator does not check; header
      checks are exact.
    - Rejected blocks: the old balances are restored, the accounts of the block stay,
      and after a skipped block number no block is accepted, valid ones and proposals
      throwing, as long as no round reaches the disk.
    - The log: its hash and the block it hands out do not depend on the threads, and
      the block is what they logged.
    - Transactions: a failed transaction leaves no trace; the only error that leaves
      the processor is that of a cancellation of a pair that is not listed (such a
      cancellation is not validated); a successful transaction conserves assets up to fees and the money printer, and a sequence number is
      used once.
    - Threads: whatever the interleaving of the threads that build a block, a
      transaction being one step, assets are conserved and no sequence number is
      accepted twice; the threads come to their end, unless such a cancellation throws;
      the block keeps its size limit unless two threads reserve space at
      the same time.
    - Before the block: the filter throws exactly when an account is missing, decides
      exactly on accounts that cancel no offer twice, and accepts only transactions
      that fit together; the mempool loses nothing.
    - Orderbooks: rollbacks restore (unless the partially executed offer was created in
      the block), listing assets preserves every offer, price queries agree with their
      sums over offers, and the database on disk is the offers in memory, when no offer
      is cancelled in the batch of rounds that creates it.
    - Restarts: loading the records of all accounts restores the state and its hash;
      the header map is the chain of headers through crashes and rollbacks.
    - Linear programs: every tableau a solver can reach is one of the market's network, so
      no entry, cost or value overflows and no pivot throws; where a solver stops, its
      answer is right; the sparse tableau keeps its two copies equal; two-bit rows
      compute with the numbers they stand for.
    - The serial market: an order takes what a reference matching says, and any run of
      offers conserves both assets, leaves no negative balance and no crossing offers.
    - Accounts: concurrent balance updates lose nothing, both sequence trackers
      implement one contract (the array tracker with gaps up to [2^23]), a tentative commitment is the next one, reload and
      rollback agree.
    - Arithmetic: bounds on the demand of an orderbook.
    - Some theorems show behaviour the code should not have (the rejected blocks
      above, the limits under which a block keeps its size, the orderbooks the
      feasibility solver leaves out).

    ** Not modelled

    Floating point code (price quality metrics, step sizes); the search for prices
    (tatonnement) and the linear program solved by an installed library, whose result
    is an argument of production and is checked by the modelled clearing test; the
    threads that run the phases of persistence (the phases are operations that may
    come at any later time); [AccountModificationEntry], a value type of the log the
    code does not select, and the list and column types of simplex that nothing uses;
    opening database files, parsing, hash records and printing; networking,
    configuration, the drivers of the experiments and the data generators.

    The simplex loops run for at most a given number of pivots: nothing in the code
    keeps pivots that leave the objective unchanged from going round in a circle, so
    the theorems say what every pivot does and what holds where the loop ends. *)
From Stdlib Require Import ZArith Lia Bool.
From stdpp Require Import base gmap list strings fin_maps.

#[global] Open Scope Z_scope.

(** ** Results of code that may throw

    [std::runtime_error] (and [vector::at]) terminate the enclosing C++ call;
    they are modelled by [Throw], every other outcome by [Ok]. *)
Inductive result (A : Type) : Type :=
| Ok (a : A)
| Throw (why : string).
Arguments Ok {A} a.
Arguments Throw {A} why%_string.

Definition result_bind {A B} (x : result A) (f : A -> result B) : result B :=
  match x with Ok a => f a | Throw why => Throw why end.

Declare Scope speedex_scope.
Delimit Scope speedex_scope with speedex.
Notation "'let*' p ':=' x 'in' k" :=
  (result_bind x (fun v => match v with p => k end))
  (at level 10, p pattern, x at level 100, k at level 200)
  : speedex_scope.
#[global] Open Scope speedex_scope.

Definition is_ok {A} (x : result A) : bool :=
  match x with Ok _ => true | Throw _ => false end.

Lemma result_bind_Ok {A B} (x : result A) (f : A -> result B) b :
  result_bind x f = Ok b <-> exists a, x = Ok a /\ f a = Ok b.
Proof.
  destruct x as [a|w]; simpl; split.
  - eauto.
  - by intros (a' & [= ->] & ?).
  - done.
  - by intros (a' & ? & _).
Qed.

(** A loop whose body may throw. *)
Fixpoint result_map {A B} (f : A -> result B) (l : list A) : result (list B) :=
  match l with
  | [] => Ok []
  | a :: l => let* b := f a in let* l' := result_map f l in Ok (b :: l')
  end.
Lemma result_map_Ok {A B} (f : A -> result B) l l' :
  result_map f l = Ok l' <-> Forall2 (fun a b => f a = Ok b) l l'.
Proof.
  revert l'. induction l as [|a l IH]; intros l'; simpl.
  - split; [by intros [= <-]|]. by inversion_clear 1.
  - rewrite result_bind_Ok. split.
    + intros (b & Hb & (l2 & Hl & [= <-])%result_bind_Ok). constructor; [done|by apply IH].
    + inversion_clear 1 as [|? b ? l2 Hb Hl]. exists b. split; [done|]. apply result_bind_Ok. exists l2.
      split; [by apply IH|done].
Qed.

Lemma result_map_total {A B} (f : A -> result B) l :
  (forall a, a ∈ l -> exists b, f a = Ok b) -> exists l', result_map f l = Ok l'.
Proof.
  induction l as [|a l IH]; intros Hl; [by exists []|]. destruct (Hl a) as [b Hb]; [by left|].
  destruct IH as [l' Hl']; [intros a' Ha'; apply Hl; by right|]. exists (b :: l'). simpl. by rewrite Hb, Hl'.
Qed.

(** ** Machine integers

    Fixed width integers are [Z] with the wrap-around of the C++ types written
    out; signed arithmetic wraps because the program is built with -fwrapv. *)
Definition u8 (z : Z) : Z := z mod 2 ^ 8.
Definition u16 (z : Z) : Z := z mod 2 ^ 16.
Definition u32 (z : Z) : Z := z mod 2 ^ 32.
Definition u64 (z : Z) : Z := z mod 2 ^ 64.
Definition u128 (z : Z) : Z := z mod 2 ^ 128.
Definition i32 (z : Z) : Z := (z + 2 ^ 31) mod 2 ^ 32 - 2 ^ 31.
Definition i64 (z : Z) : Z := (z + 2 ^ 63) mod 2 ^ 64 - 2 ^ 63.
Definition i128 (z : Z) : Z := (z + 2 ^ 127) mod 2 ^ 128 - 2 ^ 127.
Lemma i128_id z : - 2 ^ 127 <= z < 2 ^ 127 -> i128 z = z.
Proof. intros Hz. unfold i128. rewrite Z.mod_small by lia. lia. Qed.

Definition INT64_MAX : Z := 2 ^ 63 - 1.
Definition INT64_MIN : Z := - 2 ^ 63.
Definition UINT16_MAX : Z := 2 ^ 16 - 1.
Definition UINT64_MAX : Z := 2 ^ 64 - 1.
Definition UINT8_MAX : Z := 255.

Definition in_u64 (z : Z) : Prop := 0 <= z < 2 ^ 64.
Definition in_i64 (z : Z) : Prop := - 2 ^ 63 <= z < 2 ^ 63.
Definition in_u128 (z : Z) : Prop := 0 <= z < 2 ^ 128.

(** Linear arithmetic over the wrap-around operators. *)
Ltac unfold_int :=
  unfold u8, u16, u32, u64, u128, i32, i64, i128, INT64_MAX, INT64_MIN, UINT64_MAX,
    UINT16_MAX, UINT8_MAX, in_u64, in_i64, in_u128 in *.
Ltac zlia := unfold_int; Z.div_mod_to_equations; lia.

Lemma i32_id z : - 2 ^ 31 <= z < 2 ^ 31 -> i32 z = z.
Proof. intros. unfold i32. rewrite Z.mod_small by lia. lia. Qed.
Lemma u32_id z : 0 <= z < 2 ^ 32 -> u32 z = z.
Proof. intros. unfold u32. by apply Z.mod_small. Qed.
Lemma u64_range z : 0 <= u64 z < 2 ^ 64.
Proof. apply Z.mod_pos_bound; lia. Qed.
Lemma u64_id z : in_u64 z -> u64 z = z.
Proof. intros H; apply Z.mod_small, H. Qed.
Lemma u64_add_l a b : u64 (u64 a + b) = u64 (a + b).
Proof. apply Zplus_mod_idemp_l. Qed.
Lemma u128_range z : 0 <= u128 z < 2 ^ 128.
Proof. apply Z.mod_pos_bound; lia. Qed.
Lemma u128_id z : in_u128 z -> u128 z = z.
Proof. intros H; apply Z.mod_small, H. Qed.
Lemma i64_range z : - 2 ^ 63 <= i64 z < 2 ^ 63.
Proof. zlia. Qed.
Lemma i64_id z : in_i64 z -> i64 z = z.
Proof. zlia. Qed.
Lemma i64_eq_mod z : exists k, i64 z = z + k * 2 ^ 64.
Proof. exists (- ((z + 2 ^ 63) / 2 ^ 64)). zlia. Qed.
Lemma i64_cong a b k : a = b + k * 2 ^ 64 -> i64 a = i64 b.
Proof.
  intros ->. unfold i64. f_equal.
  replace (b + k * 2 ^ 64 + 2 ^ 63) with (b + 2 ^ 63 + k * 2 ^ 64) by lia.
  apply Z.mod_add. lia.
Qed.
Lemma i64_inj a b : i64 a = i64 b -> exists k, a = b + k * 2 ^ 64.
Proof.
  destruct (i64_eq_mod a) as [k ->], (i64_eq_mod b) as [k' ->].
  intros H. exists (k' - k). lia.
Qed.
Lemma i64_i64 a : i64 (i64 a) = i64 a.
Proof. apply i64_id, i64_range. Qed.
Lemma i64_add_l a b : i64 (i64 a + b) = i64 (a + b).
Proof. destruct (i64_eq_mod a) as [k ->]. apply (i64_cong _ _ k). lia. Qed.
Lemma i64_add_r a b : i64 (a + i64 b) = i64 (a + b).
Proof. destruct (i64_eq_mod b) as [k ->]. apply (i64_cong _ _ k). lia. Qed.
Lemma i64_sub_l a b : i64 (i64 a - b) = i64 (a - b).
Proof. destruct (i64_eq_mod a) as [k ->]. apply (i64_cong _ _ k). lia. Qed.
Lemma i64_sub_r a b : i64 (a - i64 b) = i64 (a - b).
Proof. destruct (i64_eq_mod b) as [k ->]. apply (i64_cong _ _ (- k)). lia. Qed.
Lemma i64_opp a : i64 (- i64 a) = i64 (- a).
Proof. destruct (i64_eq_mod a) as [k ->]. apply (i64_cong _ _ (- k)). lia. Qed.

Create Rewrite HintDb i64.
#[export] Hint Rewrite i64_i64 i64_add_l i64_add_r i64_sub_l i64_sub_r i64_opp : i64.

(** Decides equalities between wrapped expressions up to ring identities. *)
Ltac i64_solve :=
  autorewrite with i64; first [ reflexivity | f_equal; lia ].

(** The same with [i64] nested anywhere. *)
Ltac i64_lia := unfold i64 in *; Z.div_mod_to_equations; lia.

(** ** Sums over lists *)
Definition sum_list_Z (l : list Z) : Z := foldr Z.add 0 l.
Definition sum_by {A} (f : A -> Z) (l : list A) : Z := sum_list_Z (f <$> l).

Lemma sum_by_nil {A} (f : A -> Z) : sum_by f [] = 0.
Proof. reflexivity. Qed.
Lemma sum_by_cons {A} (f : A -> Z) a l : sum_by f (a :: l) = f a + sum_by f l.
Proof. reflexivity. Qed.
Lemma sum_by_app {A} (f : A -> Z) l1 l2 : sum_by f (l1 ++ l2) = sum_by f l1 + sum_by f l2.
Proof. induction l1 as [|a l1 IH]; simpl; rewrite ?sum_by_cons, ?sum_by_nil, ?IH; lia. Qed.
Lemma sum_by_nonneg {A} (f : A -> Z) l :
  Forall (fun a => 0 <= f a) l -> 0 <= sum_by f l.
Proof. induction 1; rewrite ?sum_by_cons, ?sum_by_nil; lia. Qed.
Lemma sum_by_Permutation {A} (f : A -> Z) l1 l2 :
  l1 ≡ₚ l2 -> sum_by f l1 = sum_by f l2.
Proof. induction 1; rewrite ?sum_by_cons in *; lia. Qed.
#[export] Instance sum_by_proper {A} (f : A -> Z) :
  Proper ((≡ₚ) ==> eq) (sum_by f).
Proof. intros l1 l2. apply sum_by_Permutation. Qed.
Lemma sum_by_le {A} (f g : A -> Z) l :
  Forall (fun a => f a <= g a) l -> sum_by f l <= sum_by g l.
Proof. induction 1; rewrite ?sum_by_cons, ?sum_by_nil; lia. Qed.
Lemma sum_by_ext {A} (f g : A -> Z) l :
  Forall (fun a => f a = g a) l -> sum_by f l = sum_by g l.
Proof. induction 1; rewrite ?sum_by_cons, ?sum_by_nil; lia. Qed.
Lemma sum_by_sub {A} (f g h : A -> Z) l :
  (forall a, a ∈ l -> f a - g a = h a) -> sum_by f l - sum_by g l = sum_by h l.
Proof.
  induction l as [|a l IH]; intros Hfg; [done|]. rewrite !sum_by_cons.
  rewrite <- IH by (intros b Hb; apply Hfg; by right). rewrite <- (Hfg a) by (by left). lia.
Qed.
Lemma sum_by_scale {A} (f : A -> Z) c l : sum_by (fun a => c * f a) l = c * sum_by f l.
Proof. induction l; rewrite ?sum_by_cons, ?sum_by_nil; lia. Qed.

Lemma sum_by_insert {A} (f : A -> Z) l k x y :
  l !! k = Some x -> sum_by f (<[k := y]> l) = sum_by f l - f x + f y.
Proof.
  revert k. induction l as [|z l IH]; intros [|k] Hk; simplify_eq/=; rewrite !sum_by_cons; [lia|].
  rewrite (IH k Hk). lia.
Qed.
Lemma sum_by_zero {A} (f : A -> Z) l : Forall (fun x => f x = 0) l -> sum_by f l = 0.
Proof. induction 1 as [|x l Hx Hl IH]; [done|]. by rewrite sum_by_cons, Hx, IH. Qed.

Lemma sum_by_elem_le {A} (f : A -> Z) l a :
  Forall (fun x => 0 <= f x) l -> a ∈ l -> f a <= sum_by f l.
Proof.
  intros Hl. induction Hl as [|x l Hx Hl IH]; intros Hin; [by apply elem_of_nil in Hin|].
  rewrite sum_by_cons. pose proof (sum_by_nonneg f l Hl).
  apply elem_of_cons in Hin as [->|Hin]; [lia|]. specialize (IH Hin). lia.
Qed.

(** Changing the function at one element of the list. *)
Lemma sum_by_point {A} `{EqDecision A} (f g : A -> Z) l a :
  NoDup l -> a ∈ l -> (forall b, b ∈ l -> b <> a -> g b = f b) -> sum_by g l = sum_by f l + (g a - f a).
Proof.
  intros Hnd. induction Hnd as [|x l Hx Hnd IH]; intros Hin Heq; [by apply elem_of_nil in Hin|].
  rewrite !sum_by_cons. apply elem_of_cons in Hin as [->|Hin].
  - enough (sum_by g l = sum_by f l) by lia. apply sum_by_ext, Forall_forall.
    intros b Hb. apply Heq; [by right|]. by intros ->.
  - rewrite IH; [|done|by intros; apply Heq; [right|]].
    rewrite (Heq x); [lia|by left|]. by intros ->.
Qed.

Lemma sum_by_fmap {A B} (f : B -> Z) (g : A -> B) l : sum_by f (g <$> l) = sum_by (fun a => f (g a)) l.
Proof. induction l; [done|]. rewrite fmap_cons, !sum_by_cons. lia. Qed.

(** Summing over the positions of a list. *)
Lemma sum_by_lookup {A} (f : A -> Z) (l : list A) :
  sum_by f l = sum_by (fun i => match l !! i with Some a => f a | None => 0 end) (seq 0 (length l)).
Proof.
  induction l as [|a l IH]; [done|]. cbn [length seq]. rewrite !sum_by_cons, IH. f_equal.
  by rewrite <- fmap_S_seq, sum_by_fmap.
Qed.

(** A superadditive function of a sum dominates the sum of its values. *)
Lemma sum_by_superadditive {A} (f : A -> Z) (g : Z -> Z) l :
  g 0 = 0 ->
  (forall a b, 0 <= a -> 0 <= b -> g a + g b <= g (a + b)) ->
  Forall (fun a => 0 <= f a) l ->
  sum_by (fun a => g (f a)) l <= g (sum_by f l).
Proof.
  intros Hg0 Hg. induction 1 as [|a l Ha Hl IH].
  - rewrite !sum_by_nil. lia.
  - rewrite !sum_by_cons.
    pose proof (Hg (f a) (sum_by f l) Ha (sum_by_nonneg _ _ Hl)). lia.
Qed.

(** Sums of wrapped values. *)
Lemma i64_sum {A} (f : A -> Z) l : i64 (sum_by (fun a => i64 (f a)) l) = i64 (sum_by f l).
Proof.
  induction l as [|a l IH]; [done|]. rewrite !sum_by_cons, i64_add_l.
  rewrite <- i64_add_r, IH. by rewrite i64_add_r.
Qed.

(** ** Floor division *)
Lemma div_superadditive a b c : 0 < c -> a / c + b / c <= (a + b) / c.
Proof.
  intros Hc. apply Z.div_le_lower_bound; [lia|].
  pose proof (Z.mul_div_le a c Hc). pose proof (Z.mul_div_le b c Hc). lia.
Qed.

Lemma div_split_mul v n d :
  0 < d -> (v / d) * n + ((v mod d) * n) / d = v * n / d.
Proof.
  intros Hd. rewrite (Z.div_mod v d) at 3 by lia.
  replace ((d * (v / d) + v mod d) * n) with ((v mod d) * n + (v / d * n) * d) by lia.
  rewrite Z.div_add by lia. lia.
Qed.

(** Rounding up: the value [(a + c - 1) / c] computed by "shift, then add one
    if any low bit was set". *)
Definition ceil_div (a c : Z) : Z := a / c + (if a mod c =? 0 then 0 else 1).

Lemma ceil_div_spec a c : 0 < c -> c * (ceil_div a c - 1) < a <= c * ceil_div a c.
Proof.
  intros Hc. unfold ceil_div. pose proof (Z.div_mod a c ltac:(lia)).
  pose proof (Z.mod_pos_bound a c Hc).
  destruct (Z.eqb_spec (a mod c) 0); nia.
Qed.

Lemma ceil_div_subadditive a b c :
  0 < c -> ceil_div (a + b) c <= ceil_div a c + ceil_div b c.
Proof.
  intros Hc. pose proof (ceil_div_spec a c Hc).
  pose proof (ceil_div_spec b c Hc). pose proof (ceil_div_spec (a + b) c Hc). nia.
Qed.

Lemma ceil_div_nonneg a c : 0 < c -> 0 <= a -> 0 <= ceil_div a c.
Proof. intros Hc Ha. pose proof (ceil_div_spec a c Hc). nia. Qed.

Lemma ceil_div_le a c : 1 <= c -> 0 <= a -> ceil_div a c <= a.
Proof. intros Hc Ha. pose proof (ceil_div_spec a c ltac:(lia)). nia. Qed.

Lemma ceil_div_mono a b c : 0 < c -> a <= b -> ceil_div a c <= ceil_div b c.
Proof.
  intros Hc Hab. pose proof (ceil_div_spec a c Hc). pose proof (ceil_div_spec b c Hc). nia.
Qed.

(** ** Bit operations as arithmetic *)
Lemma shiftl_mul a n : 0 <= n -> Z.shiftl a n = a * 2 ^ n.
Proof. intros. apply Z.shiftl_mul_pow2. done. Qed.
Lemma shiftr_div a n : 0 <= n -> Z.shiftr a n = a / 2 ^ n.
Proof. intros. apply Z.shiftr_div_pow2. done. Qed.
Lemma land_ones_mod a n : 0 <= n -> Z.land a (2 ^ n - 1) = a mod 2 ^ n.
Proof. intros. rewrite <- Z.land_ones by done. by rewrite Z.ones_equiv. Qed.

(** ** Lists used as arrays *)

(** [v[i]] on a [std::vector], with [v.at(i)]'s range check. *)
Definition vec_at {A} (l : list A) (i : Z) : result A :=
  match l !! Z.to_nat i with
  | Some a => if 0 <=? i then Ok a else Throw "vector::at"
  | None => Throw "vector::at"
  end.

Lemma vec_at_Ok {A} (l : list A) i a : vec_at l i = Ok a <-> l !! Z.to_nat i = Some a /\ 0 <= i.
Proof.
  unfold vec_at. destruct (l !! Z.to_nat i) as [b|]; [|split; [done|by intros [? _]]].
  destruct (Z.leb_spec 0 i); split; try done.
  - by intros [= ->].
  - by intros [[= ->] _].
  - intros [_ ?]. lia.
Qed.

(** [v[i] = f(v[i])] for an in-range index. *)
Definition vec_update {A} (f : A -> A) (i : nat) (l : list A) : list A := alter f i l.

Lemma foldl_app_assoc {A B} (f : B -> A -> B) b l1 l2 :
  foldl f b (l1 ++ l2) = foldl f (foldl f b l1) l2.
Proof. apply foldl_app. Qed.

(** An invariant of the step function is an invariant of the fold. *)
Lemma foldl_inv {A B} (P : B -> Prop) (f : B -> A -> B) l b :
  P b -> (forall b a, a ∈ l -> P b -> P (f b a)) -> P (foldl f b l).
Proof.
  revert b. induction l as [|a l IH]; simpl; intros b Hb Hf; [done|].
  apply IH; [apply Hf; [left|done]|]. intros b' a' Ha'. apply Hf. by right.
Qed.

(** ** Sums over finite maps *)
Section MapSum.
Context {K V : Type} `{Countable K}.
Implicit Types (f g : K -> V -> Z) (m : gmap K V).

Definition msum f m : Z := sum_by (fun p => f p.1 p.2) (map_to_list m).

Lemma msum_empty f : msum f ∅ = 0.
Proof. unfold msum. by rewrite map_to_list_empty. Qed.

Lemma msum_insert_new f m k v : m !! k = None -> msum f (<[k := v]> m) = f k v + msum f m.
Proof. intros Hk. unfold msum. by rewrite map_to_list_insert by done. Qed.

Lemma msum_delete f m k v : m !! k = Some v -> msum f (delete k m) = msum f m - f k v.
Proof.
  intros Hk. rewrite <- (insert_delete_id m k v Hk) at 2.
  rewrite msum_insert_new by apply lookup_delete_eq. lia.
Qed.

Lemma msum_insert f m k v :
  msum f (<[k := v]> m) = msum f m - default 0 (f k <$> m !! k) + f k v.
Proof.
  destruct (m !! k) as [w|] eqn:E; simpl.
  - rewrite <- insert_delete_eq, msum_insert_new by apply lookup_delete_eq.
    rewrite (msum_delete f m k w E). lia.
  - rewrite msum_insert_new by done. lia.
Qed.

Lemma msum_ext f g m : (forall k v, m !! k = Some v -> f k v = g k v) -> msum f m = msum g m.
Proof.
  intros Hfg. apply sum_by_ext, Forall_forall. intros [k v] Hkv%elem_of_map_to_list. by apply Hfg.
Qed.
End MapSum.
