(* ===== verification/RecyclingTrie.v ===== *)
(** * Per-thread tries that are merged into one

    The filter and the modification log let every thread collect entries by account
    in a trie of its own, and merge the tries afterwards.  The trie
    (mtt/trie/recycling_impl) is outside the repository: [RecyclingTrie] states that
    it is a map, and the merge is the documented one, key by key with the merge
    function the caller gives. *)
From stdpp Require Import base gmap list strings sorting.
From S2P Require Import Prelude.

Class RecyclingTrie (V TR : Type) := {
  rt_map : TR -> gmap Z V;
  rt_empty : TR;
  rt_get : TR -> Z -> option V;
  rt_set : TR -> Z -> V -> TR;
  (** the order of a traversal *)
  rt_keys : TR -> list Z;
  rt_map_empty : rt_map rt_empty = ∅;
  rt_get_map t k : rt_get t k = rt_map t !! k;
  rt_set_map t k v : rt_map (rt_set t k v) = <[k := v]> (rt_map t);
  rt_keys_nodup t : NoDup (rt_keys t);
  rt_keys_elem t k : k ∈ rt_keys t <-> is_Some (rt_map t !! k)
}.

Section Merge.
Context {V TR : Type} `{RecyclingTrie V TR}.
Variable value_merge : V -> V -> result V.

(** [insert<InsertFn>]: [new_value] for a key that is not there, then
    [value_insert]. *)
Definition rt_insert (new_value : Z -> V) (value_insert : V -> V) (t : TR) (k : Z) : TR :=
  rt_set t k (value_insert (default (new_value k) (rt_get t k))).

(** [batch_merge_in<MergeFn>]. *)
Definition merge_key (local : TR) (into : TR) (k : Z) : result TR :=
  match rt_get local k with
  | None => Ok into
  | Some from =>
      match rt_get into k with
      | None => Ok (rt_set into k from)
      | Some v => let* v := value_merge v from in Ok (rt_set into k v)
      end
  end.
Fixpoint merge_keys (keys : list Z) (local into : TR) : result TR :=
  match keys with
  | [] => Ok into
  | k :: keys => let* into := merge_key local into k in merge_keys keys local into
  end.
Fixpoint batch_merge_in (cache : list TR) (into : TR) : result TR :=
  match cache with
  | [] => Ok into
  | local :: cache => let* into := merge_keys (rt_keys local) local into in batch_merge_in cache into
  end.

(** ** What a merge collects

    [P k l v]: the value of key [k], if any, stands for the insertions [l]. *)
Section Collected.
Context {X : Type} (P : Z -> list X -> option V -> Prop).
Definition collects (l : list X) (t : TR) : Prop := forall k, P k l (rt_map t !! k).
Hypothesis merge_both : forall k l1 l2 v1 v2, P k l1 (Some v1) -> P k l2 (Some v2) ->
  exists v, value_merge v1 v2 = Ok v /\ P k (l1 ++ l2) (Some v).
Hypothesis merge_left : forall k l1 l2 o, P k l1 o -> P k l2 None -> P k (l1 ++ l2) o.
Hypothesis merge_right : forall k l1 l2 o, P k l1 None -> P k l2 o -> P k (l1 ++ l2) o.

Lemma merge_key_spec l1 l2 (local into : TR) k :
  P k l1 (rt_map into !! k) -> P k l2 (rt_map local !! k) ->
  exists into', merge_key local into k = Ok into' /\ P k (l1 ++ l2) (rt_map into' !! k) /\
    forall j, j <> k -> rt_map into' !! j = rt_map into !! j.
Proof using merge_both merge_left merge_right.
  intros E1 E2. unfold merge_key. rewrite !rt_get_map. destruct (rt_map local !! k) as [from|] eqn:Hf.
  2: { exists into. split; [done|]. split; [by apply merge_left|done]. }
  destruct (rt_map into !! k) as [v|] eqn:Hi.
  - destruct (merge_both k l1 l2 v from E1 E2) as (w & -> & Hw). exists (rt_set into k w).
    rewrite rt_set_map, lookup_insert_eq. split_and!; [done|done|]. intros j Hj. by rewrite lookup_insert_ne.
  - exists (rt_set into k from). rewrite rt_set_map, lookup_insert_eq. split_and!; [done|by apply merge_right|].
    intros j Hj. by rewrite lookup_insert_ne.
Qed.

Lemma merge_keys_spec l1 l2 (local : TR) keys into :
  NoDup keys -> collects l2 local ->
  (forall k, P k (if decide (k ∈ keys) then l1 else l1 ++ l2) (rt_map into !! k)) ->
  exists into', merge_keys keys local into = Ok into' /\ collects (l1 ++ l2) into'.
Proof using merge_both merge_left merge_right.
  intros Hnd Hloc. revert into. induction Hnd as [|k keys Hk Hnd IH]; intros into Hinto; simpl.
  - exists into. split; [done|]. intros k. specialize (Hinto k). rewrite decide_False in Hinto; [done|apply not_elem_of_nil].
  - pose proof (Hinto k) as Hik. rewrite decide_True in Hik by (by left).
    destruct (merge_key_spec l1 l2 local into k Hik (Hloc k)) as (into' & -> & He & Hother). simpl. apply IH.
    intros j. destruct (decide (j = k)) as [->|Hj]; [by rewrite decide_False|]. rewrite Hother by done.
    specialize (Hinto j). erewrite decide_ext; [exact Hinto|]. rewrite elem_of_cons. tauto.
Qed.

Lemma batch_merge_spec (parts : list (list X)) (cache : list TR) (into : TR) l :
  collects l into -> Forall2 collects parts cache ->
  exists merged, batch_merge_in cache into = Ok merged /\ collects (l ++ concat parts) merged.
Proof using merge_both merge_left merge_right.
  intros Hl Hc. revert into l Hl. induction Hc as [|part local parts cache Hp Hc IH]; intros into l Hl; simpl.
  { exists into. by rewrite app_nil_r. }
  destruct (merge_keys_spec l part local (rt_keys local) into) as (into' & -> & Hi); [apply rt_keys_nodup|done| |].
  - intros k. case_decide as Hk; [apply Hl|]. apply merge_left; [apply Hl|].
    specialize (Hp k). destruct (rt_map local !! k) eqn:E; [|done]. destruct Hk. apply rt_keys_elem. by rewrite E.
  - simpl. rewrite app_assoc. by apply IH.
Qed.
End Collected.
End Merge.

(** A trie that is its map, with its keys in ascending order. *)
#[global] Program Instance map_trie (V : Type) : RecyclingTrie V (gmap Z V) := {
  rt_map t := t;
  rt_empty := ∅;
  rt_get t k := t !! k;
  rt_set t k v := <[k := v]> t;
  rt_keys t := merge_sort Z.le (map_to_list t).*1
}.
Next Obligation. done. Qed.
Next Obligation. done. Qed.
Next Obligation. done. Qed.
Next Obligation. intros V t. rewrite merge_sort_Permutation. apply NoDup_fst_map_to_list. Qed.
Next Obligation.
  intros V t k. rewrite merge_sort_Permutation, list_elem_of_fmap. split.
  - intros ([k' v] & -> & Hin%elem_of_map_to_list). by exists v.
  - intros [v Hv]. exists (k, v). split; [done|]. by apply elem_of_map_to_list.
Qed.
