(* ===== verification/Types.v ===== *)
(** * Data types of the protocol (src/xdr/types.x, src/xdr/transaction.x)

    Identifiers, offers, operations and transactions as the XDR files declare
    them.  Fixed width integers are [Z]; opaque byte strings are lists of
    bytes.  An [OperationType] or [OfferType] outside the declared values is a
    constructor of its own, because the C++ code has branches for it. *)
From stdpp Require Import base gmap list strings countable.
From S2P Require Import Prelude.

Abbreviation AccountID := Z (only parsing).
Abbreviation AssetID := Z (only parsing).
Abbreviation Price := Z (only parsing).
Abbreviation PublicKey := (list Z) (only parsing).

(** ** Status codes (transaction.x, [TransactionProcessingStatus]) *)
Inductive TransactionProcessingStatus :=
| SUCCESS
| SOURCE_ACCOUNT_NEXIST
| INVALID_OPERATION_TYPE
| SEQ_NUM_TOO_LOW
| SEQ_NUM_TOO_HIGH
| SEQ_NUM_TEMP_IN_USE
| STARTING_BALANCE_TOO_LOW
| NEW_ACCOUNT_ALREADY_EXISTS
| NEW_ACCOUNT_TEMP_RESERVED
| INSUFFICIENT_BALANCE
| INVALID_TX_FORMAT
| INVALID_OFFER_CATEGORY
| INVALID_PRICE
| CANCEL_OFFER_TARGET_NEXIST
| RECIPIENT_ACCOUNT_NEXIST
| INVALID_PRINT_MONEY_AMOUNT
| INVALID_AMOUNT
| BAD_SIGNATURE
| FEE_BID_TOO_LOW.

#[export] Instance TransactionProcessingStatus_eq_dec : EqDecision TransactionProcessingStatus.
Proof. solve_decision. Defined.

(** ** Offers *)
Inductive OfferType := SELL | OTHER_TYPE (tag : Z).
#[export] Instance OfferType_eq_dec : EqDecision OfferType.
Proof. solve_decision. Defined.

Record OfferCategory := mkOfferCategory {
  sellAsset : Z;
  buyAsset : Z;
  type : OfferType
}.
#[export] Instance OfferCategory_eq_dec : EqDecision OfferCategory.
Proof. solve_decision. Defined.

Record Offer := mkOffer {
  category : OfferCategory;
  offerId : Z;
  owner : Z;
  amount : Z;
  minPrice : Z
}.
#[export] Instance Offer_eq_dec : EqDecision Offer.
Proof. solve_decision. Defined.

(** [offer.amount -= x] *)
Definition set_amount (o : Offer) (a : Z) : Offer :=
  mkOffer (category o) (offerId o) (owner o) a (minPrice o).

(** The value of [Offer()]: every field is zero. *)
Definition default_Offer : Offer := mkOffer (mkOfferCategory 0 0 SELL) 0 0 0 0.

(** ** Operations and transactions *)
Record CreateAccountOp := mkCreateAccountOp {
  startingBalance : Z;
  newAccountId : Z;
  newAccountPublicKey : PublicKey
}.
Record CreateSellOfferOp := mkCreateSellOfferOp {
  cso_category : OfferCategory;
  cso_amount : Z;
  cso_minPrice : Z
}.
Record CancelSellOfferOp := mkCancelSellOfferOp {
  can_category : OfferCategory;
  can_offerId : Z;
  can_minPrice : Z
}.
Record PaymentOp := mkPaymentOp {
  receiver : Z;
  pay_asset : Z;
  pay_amount : Z
}.
Record MoneyPrinterOp := mkMoneyPrinterOp {
  print_asset : Z;
  print_amount : Z
}.

Inductive Operation :=
| CREATE_ACCOUNT (op : CreateAccountOp)
| CREATE_SELL_OFFER (op : CreateSellOfferOp)
| CANCEL_SELL_OFFER (op : CancelSellOfferOp)
| PAYMENT (op : PaymentOp)
| MONEY_PRINTER (op : MoneyPrinterOp)
| OTHER_OPERATION (tag : Z).

Record TransactionMetadata := mkTransactionMetadata {
  sourceAccount : Z;
  sequenceNumber : Z
}.
Record Transaction := mkTransaction {
  metadata : TransactionMetadata;
  operations : list Operation;
  maxFee : Z
}.
Record SignedTransaction := mkSignedTransaction {
  transaction : Transaction;
  signature : list Z
}.

#[export] Instance CreateAccountOp_eq_dec : EqDecision CreateAccountOp.
Proof. solve_decision. Defined.
#[export] Instance CreateSellOfferOp_eq_dec : EqDecision CreateSellOfferOp.
Proof. solve_decision. Defined.
#[export] Instance CancelSellOfferOp_eq_dec : EqDecision CancelSellOfferOp.
Proof. solve_decision. Defined.
#[export] Instance PaymentOp_eq_dec : EqDecision PaymentOp.
Proof. solve_decision. Defined.
#[export] Instance MoneyPrinterOp_eq_dec : EqDecision MoneyPrinterOp.
Proof. solve_decision. Defined.
#[export] Instance Operation_eq_dec : EqDecision Operation.
Proof. solve_decision. Defined.
#[export] Instance TransactionMetadata_eq_dec : EqDecision TransactionMetadata.
Proof. solve_decision. Defined.
#[export] Instance Transaction_eq_dec : EqDecision Transaction.
Proof. solve_decision. Defined.
#[export] Instance SignedTransaction_eq_dec : EqDecision SignedTransaction.
Proof. solve_decision. Defined.

(** Constants of transaction.x. *)
Definition CREATE_ACCOUNT_MIN_STARTING_BALANCE : Z := 100.
Definition MAX_OPS_PER_TX : Z := 256.
Definition RESERVED_SEQUENCE_NUM_LOWBITS : Z := 255.
Definition BASE_FEE_PER_TX : Z := 10.
Definition FEE_PER_OP : Z := 5.

(** Account state commitments (src/xdr/database_commitments.x). *)
Record AssetCommitment := mkAssetCommitment {
  asset : Z;
  amount_available : Z
}.
Record AccountCommitment := mkAccountCommitment {
  ac_owner : Z;
  assets : list AssetCommitment;
  last_committed_id : Z;
  ac_pk : PublicKey
}.
#[export] Instance AssetCommitment_eq_dec : EqDecision AssetCommitment.
Proof. solve_decision. Defined.
#[export] Instance AccountCommitment_eq_dec : EqDecision AccountCommitment.
Proof. solve_decision. Defined.
