(* ===== verification/PriceArith.v ===== *)
(** * Fixed-point prices and amounts

    [Module Price] models src/utils/price.h and [Module FixedPrecision] the
    template of src/utils/fixed_point_value.h with its instance
    [FractionalAsset] (radix 10, 128 bits).  Every operation is written with
    the width of the C++ type it is computed in. *)
From stdpp Require Import base list strings.
From S2P Require Import Prelude Types.

Module Price.

Definition PRICE_RADIX : Z := 24.
Definition PRICE_BIT_LEN : Z := 2 * PRICE_RADIX.
Definition PRICE_BYTES : nat := 6.
Definition MAX_PRICE : Z := Z.shiftl 1 PRICE_BIT_LEN - 1.
Definition PRICE_ONE : Z := Z.shiftl 1 PRICE_RADIX.
Definition price_lowbits_mask : Z := 16777215.

(** The loop over [loc] writes byte [loc] with the bits at offset
    [8 * (PRICE_BYTES - loc - 1)]. *)
Definition write_price_big_endian (price : Price) : list Z :=
  (fun loc : nat =>
     Z.land (Z.shiftr price ((Z.of_nat PRICE_BYTES - Z.of_nat loc - 1) * 8)) 255)
  <$> seq 0 PRICE_BYTES.

(** The loop [p <<= 8; p += buf[loc]] over the first [PRICE_BYTES] bytes. *)
Definition read_price_big_endian (buf : list Z) : Price :=
  foldl (fun p b => u64 (u64 (Z.shiftl p 8) + b)) 0 (take PRICE_BYTES buf).

Definition impose_price_bounds (val : Z) : Price :=
  if MAX_PRICE <? val then MAX_PRICE
  else if val =? 0 then 1
  else u64 val.

Definition is_valid_price (price : Price) : bool :=
  (price <=? MAX_PRICE) && negb (price =? 0).

(** subtract 1/2^smooth_mult *)
Definition smooth_mult (price : Price) (mult : Z) : Price :=
  u64 (price - Z.shiftr price mult).

Definition a_over_b_leq_c (a b c : Price) : bool :=
  u128 (Z.shiftl a PRICE_RADIX) <=? u128 (b * c).

Definition a_over_b_lt_c (a b c : Price) : bool :=
  u128 (Z.shiftl a PRICE_RADIX) <? u128 (b * c).

(** The code does not check the divisor [b]; for 0 it divides by zero, here the
    quotient is 0. *)
Definition wide_multiply_val_by_a_over_b (value : Z) (a b : Price) : Z :=
  let modulo := u128 ((value / b) * a) in
  let remainder := u128 ((value mod b) * a) / b in
  u128 (modulo + remainder).

Definition safe_multiply_and_drop_lowbits
    (first second lowbits_to_drop : Z) : result Price :=
  if (lowbits_to_drop <? 64) || (196 <? lowbits_to_drop) then Throw "unimplemented"
  else
    let first_low := Z.land first UINT64_MAX in
    let first_high := Z.land (Z.shiftr first 64) UINT64_MAX in
    let second_low := Z.land second UINT64_MAX in
    let second_high := Z.land (Z.shiftr second 64) UINT64_MAX in
    let low_low := u128 (first_low * second_low) in
    let low_high := u128 (first_low * second_high) in
    let high_low := u128 (first_high * second_low) in
    let high_high := u128 (first_high * second_high) in
    let out0 := if lowbits_to_drop <? 128 then Z.shiftr low_low lowbits_to_drop else 0 in
    let lowhigh_offset := lowbits_to_drop - 64 in
    let out1 := u128 (out0 + u128 (Z.shiftr low_high lowhigh_offset
                                   + Z.shiftr high_low lowhigh_offset)) in
    let out :=
      if lowbits_to_drop <=? 128 then
        let used_lowbits := 128 - lowbits_to_drop in
        let used_highbits :=
          if used_lowbits <=? PRICE_BIT_LEN then PRICE_BIT_LEN - used_lowbits else 0 in
        let max_highbits := u64 (Z.shiftl 1 used_highbits) - 1 in
        let high_high := if max_highbits <? high_high then max_highbits else high_high in
        u128 (out1 + u128 (Z.shiftl high_high used_lowbits))
      else
        let highbits_offset := lowbits_to_drop - 128 in
        u128 (out1 + Z.shiftr high_high highbits_offset) in
    Ok (u64 (if MAX_PRICE <? out then MAX_PRICE else out)).

Definition round_up_price_times_amount (p_times_amount : Z) : Z :=
  if negb (Z.land p_times_amount price_lowbits_mask =? 0)
  then u64 (Z.shiftr p_times_amount PRICE_RADIX + 1)
  else u64 (Z.shiftr p_times_amount PRICE_RADIX).

(** ** Facts *)

Definition valid (p : Price) : Prop := 1 <= p <= MAX_PRICE.

Lemma MAX_PRICE_val : MAX_PRICE = 2 ^ 48 - 1.
Proof. reflexivity. Qed.

Lemma is_valid_price_spec p : 0 <= p -> is_valid_price p = true <-> valid p.
Proof.
  intros Hp. unfold is_valid_price, valid.
  rewrite andb_true_iff, negb_true_iff, Z.leb_le, Z.eqb_neq. lia.
Qed.

Lemma impose_price_bounds_valid v : 0 <= v -> valid (impose_price_bounds v).
Proof.
  intros Hv. unfold impose_price_bounds, valid. rewrite MAX_PRICE_val in *.
  destruct (Z.ltb_spec (2 ^ 48 - 1) v); [lia|].
  destruct (Z.eqb_spec v 0); [lia|]. rewrite u64_id by zlia. lia.
Qed.

Lemma valid_u64 p : valid p -> in_u64 p.
Proof. unfold valid. rewrite MAX_PRICE_val. zlia. Qed.

(** The 128 bit multiplication of a value by a ratio of prices is the exact
    floor whenever the value leaves room for one price. *)
Lemma wide_multiply_exact v a b :
  0 <= v < 2 ^ 80 -> 0 <= a < 2 ^ 48 -> 0 < b < 2 ^ 48 ->
  wide_multiply_val_by_a_over_b v a b = v * a / b.
Proof.
  intros Hv Ha Hb. unfold wide_multiply_val_by_a_over_b.
  assert (Hq : 0 <= v / b <= v) by (split; [apply Z.div_pos|apply Z.div_le_upper_bound]; nia).
  assert (Hr : 0 <= v mod b < b) by (apply Z.mod_pos_bound; lia).
  assert (Hm : 0 <= v / b * a < 2 ^ 128) by nia.
  assert (Hn : 0 <= v mod b * a < 2 ^ 128) by nia.
  rewrite (u128_id (v / b * a)), (u128_id (v mod b * a)) by done.
  rewrite div_split_mul by lia. apply u128_id.
  split; [apply Z.div_pos; nia|]. apply Z.div_lt_upper_bound; nia.
Qed.

Lemma wide_multiply_superadditive v w a b :
  0 <= v -> 0 <= w -> v + w < 2 ^ 80 -> 0 <= a < 2 ^ 48 -> 0 < b < 2 ^ 48 ->
  wide_multiply_val_by_a_over_b v a b + wide_multiply_val_by_a_over_b w a b
  <= wide_multiply_val_by_a_over_b (v + w) a b.
Proof.
  intros. rewrite !wide_multiply_exact by lia.
  rewrite Z.mul_add_distr_r. apply div_superadditive. lia.
Qed.

Lemma a_over_b_lt_c_spec a b c :
  valid a -> valid b -> valid c ->
  a_over_b_lt_c a b c = true <-> a * 2 ^ PRICE_RADIX < b * c.
Proof.
  unfold valid. rewrite MAX_PRICE_val. intros Ha Hb Hc. unfold a_over_b_lt_c.
  rewrite Z.ltb_lt, shiftl_mul by (unfold PRICE_RADIX; lia).
  rewrite (u128_id (a * _)), (u128_id (b * c)) by (unfold in_u128, PRICE_RADIX; nia).
  done.
Qed.

Lemma a_over_b_leq_c_spec a b c :
  valid a -> valid b -> valid c ->
  a_over_b_leq_c a b c = true <-> a * 2 ^ PRICE_RADIX <= b * c.
Proof.
  unfold valid. rewrite MAX_PRICE_val. intros Ha Hb Hc. unfold a_over_b_leq_c.
  rewrite Z.leb_le, shiftl_mul by (unfold PRICE_RADIX; lia).
  rewrite (u128_id (a * _)), (u128_id (b * c)) by (unfold in_u128, PRICE_RADIX; nia).
  done.
Qed.

Lemma round_up_price_times_amount_spec p :
  0 <= p < 2 ^ 87 -> round_up_price_times_amount p = ceil_div p (2 ^ 24).
Proof.
  intros Hp. unfold round_up_price_times_amount, ceil_div, price_lowbits_mask, PRICE_RADIX.
  change 16777215 with (2 ^ 24 - 1).
  rewrite land_ones_mod, shiftr_div by lia.
  assert (0 <= p / 2 ^ 24 < 2 ^ 63).
  { split; [apply Z.div_pos; lia|]. apply Z.div_lt_upper_bound; lia. }
  destruct (Z.eqb_spec (p mod 2 ^ 24) 0); simpl negb; cbv iota;
    rewrite ?Z.add_0_r; apply u64_id; unfold in_u64; lia.
Qed.

Lemma byte_split p k k8 :
  0 <= k -> k8 = k + 8 -> p / 2 ^ k = p / 2 ^ k8 * 256 + p / 2 ^ k mod 256.
Proof.
  intros Hk ->. rewrite Z.pow_add_r, <- Z.div_div by lia.
  change (2 ^ 8) with 256. rewrite (Z.div_mod (p / 2 ^ k) 256) at 1 by lia. lia.
Qed.

Lemma write_price_length p : length (write_price_big_endian p) = PRICE_BYTES.
Proof. reflexivity. Qed.

Lemma write_price_bytes p : Forall (fun b => 0 <= b < 256) (write_price_big_endian p).
Proof.
  unfold write_price_big_endian. apply Forall_fmap, Forall_forall.
  intros loc _. simpl. change 255 with (2 ^ 8 - 1). rewrite land_ones_mod by lia.
  apply Z.mod_pos_bound. lia.
Qed.

Lemma write_price_list p :
  write_price_big_endian p =
    [p / 2 ^ 40 mod 256; p / 2 ^ 32 mod 256; p / 2 ^ 24 mod 256;
     p / 2 ^ 16 mod 256; p / 2 ^ 8 mod 256; p mod 256].
Proof.
  assert (H : forall k, 0 <= k -> Z.land (Z.shiftr p k) 255 = p / 2 ^ k mod 256).
  { intros k Hk. change 255 with (2 ^ 8 - 1). by rewrite land_ones_mod, shiftr_div by lia. }
  change (write_price_big_endian p) with
    ((fun k => Z.land (Z.shiftr p k) 255) <$> [40; 32; 24; 16; 8; 0]).
  cbn [fmap list_fmap]. rewrite !H by lia. by rewrite Z.pow_0_r, Z.div_1_r.
Qed.

Lemma shift_in_byte a b : 0 <= a < 2 ^ 56 -> 0 <= b < 256 ->
  u64 (u64 (Z.shiftl a 8) + b) = a * 256 + b.
Proof.
  intros Ha Hb. rewrite shiftl_mul by lia. change (2 ^ 8) with 256.
  rewrite (u64_id (a * 256)), u64_id; unfold in_u64; lia.
Qed.

Lemma read_write_price p rest :
  0 <= p <= MAX_PRICE ->
  read_price_big_endian (write_price_big_endian p ++ rest) = p.
Proof.
  rewrite MAX_PRICE_val. intros Hp. unfold read_price_big_endian.
  rewrite take_app_length' by (rewrite write_price_length; done).
  rewrite write_price_list.
  assert (Hb : forall x, 0 <= x mod 256 < 256) by (intros; apply Z.mod_pos_bound; lia).
  pose proof (byte_split p 0 8 ltac:(lia) eq_refl) as E0. pose proof (byte_split p 8 16 ltac:(lia) eq_refl) as E8.
  pose proof (byte_split p 16 24 ltac:(lia) eq_refl) as E16. pose proof (byte_split p 24 32 ltac:(lia) eq_refl) as E24.
  pose proof (byte_split p 32 40 ltac:(lia) eq_refl) as E32. pose proof (byte_split p 40 48 ltac:(lia) eq_refl) as E40.
  assert (H48 : p / 2 ^ 48 = 0) by (apply Z.div_small; lia).
  assert (Hd : forall k, 0 <= k -> 0 <= p / 2 ^ k <= p).
  { intros k Hk. split; [apply Z.div_pos; lia|].
    apply Z.div_le_upper_bound; [lia|]. pose proof (Z.pow_pos_nonneg 2 k). nia. }
  rewrite Z.pow_0_r, Z.div_1_r in E0.
  cbn [foldl]. rewrite (shift_in_byte 0) by (auto; lia).
  rewrite Z.mul_0_l, Z.add_0_l. rewrite H48, Z.mul_0_l, Z.add_0_l in E40. rewrite <- E40.
  rewrite (shift_in_byte (p / 2 ^ 40)) by (auto; pose proof (Hd 40); lia). rewrite <- E32.
  rewrite (shift_in_byte (p / 2 ^ 32)) by (auto; pose proof (Hd 32); lia). rewrite <- E24.
  rewrite (shift_in_byte (p / 2 ^ 24)) by (auto; pose proof (Hd 24); lia). rewrite <- E16.
  rewrite (shift_in_byte (p / 2 ^ 16)) by (auto; pose proof (Hd 16); lia). rewrite <- E8.
  rewrite (shift_in_byte (p / 2 ^ 8)) by (auto; pose proof (Hd 8); lia). lia.
Qed.
End Price.

(** Fixed-point numbers over an unsigned type of [bits] bits; a value is its
    raw integer.  The template parameters are section variables. *)
Module FixedPrecision.
Section Template.
Variables radix bits : Z.

Definition wrap (z : Z) : Z := z mod 2 ^ bits.

Definition get_lowbits_mask (query_radix : Z) : Z :=
  wrap (wrap (Z.shiftl 1 query_radix) - 1).
Definition lowbits_mask : Z := get_lowbits_mask radix.

Definition from_raw (value : Z) : Z := wrap value.
Definition from_integral (value : Z) : Z := wrap (Z.shiftl (wrap value) radix).

Definition add (other_radix : Z) (value other : Z) : Z :=
  wrap (value + wrap (Z.shiftl other (radix - other_radix))).
Definition sub (other_radix : Z) (value other : Z) : Z :=
  wrap (value - wrap (Z.shiftl other (radix - other_radix))).
Definition mul (value other_value : Z) : Z := wrap (value * other_value).
Definition shift_right (value i : Z) : Z := Z.shiftr value i.

Definition floor (value : Z) : Z := Z.shiftr value radix.
Definition ceil (value : Z) : Z :=
  wrap (floor value + (if negb (Z.land value lowbits_mask =? 0) then 1 else 0)).

Definition tax_and_round (value tax_rate : Z) : Z :=
  let tax_lowbits_mask := get_lowbits_mask tax_rate in
  let tax := Z.shiftr value tax_rate in
  let tax := if negb (Z.land value tax_lowbits_mask =? 0) then wrap (tax + 1) else tax in
  Z.shiftr (wrap (value - tax)) radix.

Definition tax (value tax_rate : Z) : Z :=
  let tax_lowbits_mask := get_lowbits_mask tax_rate in
  let tax := Z.shiftr value tax_rate in
  let tax := if negb (Z.land value tax_lowbits_mask =? 0) then wrap (tax + 1) else tax in
  from_raw (wrap (value - tax)).
End Template.
End FixedPrecision.

(** [typedef FixedPrecision<10, unsigned __int128> FractionalAsset]. *)
Module FractionalAsset.
Definition radix : Z := 10.
Definition bits : Z := 128.

Definition from_raw : Z -> Z := FixedPrecision.from_raw bits.
Definition from_integral : Z -> Z := FixedPrecision.from_integral radix bits.
Definition add : Z -> Z -> Z := FixedPrecision.add radix bits radix.
Definition sub : Z -> Z -> Z := FixedPrecision.sub radix bits radix.
Definition mul : Z -> Z -> Z := FixedPrecision.mul bits.
Definition floor : Z -> Z := FixedPrecision.floor radix.
Definition ceil : Z -> Z := FixedPrecision.ceil radix bits.
Definition tax_and_round : Z -> Z -> Z := FixedPrecision.tax_and_round radix bits.
Definition tax : Z -> Z -> Z := FixedPrecision.tax bits.

Lemma add_id a b : 0 <= a -> 0 <= b -> a + b < 2 ^ 128 -> add a b = a + b.
Proof.
  intros. unfold add, FixedPrecision.add, FixedPrecision.wrap, radix, bits.
  rewrite Z.sub_diag, Z.shiftl_0_r, (Z.mod_small b), Z.mod_small; lia.
Qed.

Lemma add_mod a b : add a b = (a + b) mod 2 ^ 128.
Proof.
  unfold add, FixedPrecision.add, FixedPrecision.wrap, radix, bits.
  rewrite Z.sub_diag, Z.shiftl_0_r. apply Zplus_mod_idemp_r.
Qed.

Lemma from_integral_id v : 0 <= v < 2 ^ 118 -> from_integral v = v * 2 ^ 10.
Proof.
  intros Hv. unfold from_integral, FixedPrecision.from_integral, FixedPrecision.wrap, radix, bits.
  rewrite (Z.mod_small v), shiftl_mul, Z.mod_small; lia.
Qed.

Lemma from_raw_id v : 0 <= v < 2 ^ 128 -> from_raw v = v.
Proof. apply Z.mod_small. Qed.

Lemma floor_div v : floor v = v / 2 ^ 10.
Proof. apply shiftr_div. unfold radix. lia. Qed.

Lemma mask_land v t : 0 <= t < 128 ->
  Z.land v (FixedPrecision.get_lowbits_mask bits t) = v mod 2 ^ t.
Proof.
  intros Ht. unfold FixedPrecision.get_lowbits_mask, FixedPrecision.wrap, bits.
  assert (1 <= 2 ^ t < 2 ^ 128).
  { split; [apply (Z.pow_le_mono_r 2 0); lia|apply Z.pow_lt_mono_r; lia]. }
  rewrite shiftl_mul, Z.mul_1_l, (Z.mod_small (2 ^ t)), Z.mod_small by lia.
  apply land_ones_mod. lia.
Qed.

Lemma ceil_spec v : 0 <= v < 2 ^ 128 -> ceil v = ceil_div v (2 ^ 10).
Proof.
  intros Hv. unfold ceil, FixedPrecision.ceil, FixedPrecision.lowbits_mask.
  change (FixedPrecision.floor radix v) with (floor v). unfold radix.
  rewrite mask_land, floor_div by lia. unfold ceil_div, FixedPrecision.wrap, bits.
  assert (0 <= v / 2 ^ 10 < 2 ^ 118).
  { split; [apply Z.div_pos|apply Z.div_lt_upper_bound]; lia. }
  destruct (Z.eqb_spec (v mod 2 ^ 10) 0); simpl negb; cbv iota; apply Z.mod_small; lia.
Qed.

(** The tax actually charged on [v]: [v / 2^t], rounded up. *)
Lemma tax_amount v t :
  0 <= v < 2 ^ 128 -> 0 <= t < 128 ->
  (if negb (Z.land v (FixedPrecision.get_lowbits_mask bits t) =? 0)
   then FixedPrecision.wrap bits (Z.shiftr v t + 1) else Z.shiftr v t)
  = ceil_div v (2 ^ t).
Proof.
  intros Hv Ht. rewrite mask_land, shiftr_div by lia. unfold ceil_div.
  assert (Hp : 0 < 2 ^ t) by (apply Z.pow_pos_nonneg; lia).
  pose proof (ceil_div_le v (2 ^ t) ltac:(lia) ltac:(lia)) as Hle. unfold ceil_div in Hle.
  assert (0 <= v / 2 ^ t) by (apply Z.div_pos; lia).
  destruct (Z.eqb_spec (v mod 2 ^ t) 0); simpl negb; cbv iota; [lia|].
  apply Z.mod_small. unfold bits. lia.
Qed.

Lemma tax_and_round_spec v t :
  0 <= v < 2 ^ 128 -> 0 <= t < 128 ->
  tax_and_round v t = (v - ceil_div v (2 ^ t)) / 2 ^ 10.
Proof.
  intros Hv Ht. unfold tax_and_round, FixedPrecision.tax_and_round.
  rewrite tax_amount by done. unfold FixedPrecision.wrap.
  assert (Hp : 0 < 2 ^ t) by (apply Z.pow_pos_nonneg; lia).
  pose proof (ceil_div_le v (2 ^ t) ltac:(lia) ltac:(lia)).
  pose proof (ceil_div_nonneg v (2 ^ t) Hp ltac:(lia)).
  unfold bits, radix. rewrite Z.mod_small, shiftr_div by lia. done.
Qed.

Lemma tax_spec v t :
  0 <= v < 2 ^ 128 -> 0 <= t < 128 -> tax v t = v - ceil_div v (2 ^ t).
Proof.
  intros Hv Ht. unfold tax, FixedPrecision.tax, FixedPrecision.from_raw.
  rewrite tax_amount by done. unfold FixedPrecision.wrap.
  assert (Hp : 0 < 2 ^ t) by (apply Z.pow_pos_nonneg; lia).
  pose proof (ceil_div_le v (2 ^ t) ltac:(lia) ltac:(lia)).
  pose proof (ceil_div_nonneg v (2 ^ t) Hp ltac:(lia)).
  unfold bits. rewrite Z.mod_mod, Z.mod_small; lia.
Qed.

Lemma tax_and_round_bounds v t :
  0 <= v < 2 ^ 128 -> 0 <= t < 128 -> 0 <= tax_and_round v t <= v / 2 ^ 10.
Proof.
  intros Hv Ht. rewrite tax_and_round_spec by done.
  assert (Hp : 0 < 2 ^ t) by (apply Z.pow_pos_nonneg; lia).
  pose proof (ceil_div_le v (2 ^ t) ltac:(lia) ltac:(lia)).
  pose proof (ceil_div_nonneg v (2 ^ t) Hp ltac:(lia)).
  split; [apply Z.div_pos; lia|apply Z.div_le_mono; lia].
Qed.

Lemma tax_and_round_superadditive v w t :
  0 <= v -> 0 <= w -> v + w < 2 ^ 128 -> 0 <= t < 128 ->
  tax_and_round v t + tax_and_round w t <= tax_and_round (v + w) t.
Proof.
  intros Hv Hw Hvw Ht. rewrite !tax_and_round_spec by lia.
  etransitivity; [apply div_superadditive; lia|]. apply Z.div_le_mono; [lia|].
  pose proof (ceil_div_subadditive v w (2 ^ t) ltac:(apply Z.pow_pos_nonneg; lia)). lia.
Qed.

Lemma tax_and_round_mono v w t :
  0 <= v -> v <= w -> w < 2 ^ 128 -> 0 <= t < 128 ->
  tax_and_round v t <= tax_and_round w t.
Proof.
  intros Hv Hvw Hw Ht. replace w with (v + (w - v)) by lia.
  pose proof (tax_and_round_superadditive v (w - v) t Hv ltac:(lia) ltac:(lia) Ht).
  pose proof (tax_and_round_bounds (w - v) t ltac:(lia) Ht). lia.
Qed.
End FractionalAsset.

(** ** Properties *)
Module PriceProps.
Import Price.

(** The four partial products of the 128 x 128 bit multiplication. *)
Lemma split_product first second :
  0 <= first < 2 ^ 128 -> 0 <= second < 2 ^ 128 ->
  exists ll lh hl hh,
    u128 (Z.land first UINT64_MAX * Z.land second UINT64_MAX) = ll /\
    u128 (Z.land first UINT64_MAX * Z.land (Z.shiftr second 64) UINT64_MAX) = lh /\
    u128 (Z.land (Z.shiftr first 64) UINT64_MAX * Z.land second UINT64_MAX) = hl /\
    u128 (Z.land (Z.shiftr first 64) UINT64_MAX
          * Z.land (Z.shiftr second 64) UINT64_MAX) = hh /\
    0 <= ll < 2 ^ 128 /\ 0 <= lh < 2 ^ 128 /\ 0 <= hl < 2 ^ 128 /\ 0 <= hh < 2 ^ 128 /\
    first * second = ll + 2 ^ 64 * (lh + hl) + 2 ^ 128 * hh.
Proof.
  intros H1 H2. unfold UINT64_MAX. rewrite !land_ones_mod, !shiftr_div by lia.
  pose proof (Z.div_mod first (2 ^ 64) ltac:(lia)) as E1.
  pose proof (Z.div_mod second (2 ^ 64) ltac:(lia)) as E2.
  pose proof (Z.mod_pos_bound first (2 ^ 64) ltac:(lia)).
  pose proof (Z.mod_pos_bound second (2 ^ 64) ltac:(lia)).
  assert (0 <= first / 2 ^ 64 < 2 ^ 64).
  { split; [apply Z.div_pos|apply Z.div_lt_upper_bound]; lia. }
  assert (0 <= second / 2 ^ 64 < 2 ^ 64).
  { split; [apply Z.div_pos|apply Z.div_lt_upper_bound]; lia. }
  rewrite (Z.mod_small (first / _)), (Z.mod_small (second / _)) by lia.
  set (a := first mod 2 ^ 64) in *. set (b := first / 2 ^ 64) in *.
  set (c := second mod 2 ^ 64) in *. set (d := second / 2 ^ 64) in *.
  clearbody a b c d.
  exists (a * c), (a * d), (b * c), (b * d).
  rewrite !u128_id by (unfold in_u128; nia). repeat split; try nia.
Qed.

Lemma shiftr_bounds x s k : 0 <= x < 2 ^ 128 -> 0 <= k <= s -> 0 <= Z.shiftr x s < 2 ^ (128 - k) \/ 128 < k.
Proof.
  intros Hx Hk. destruct (Z.ltb_spec 128 k); [by right|left].
  rewrite shiftr_div by lia. assert (0 < 2 ^ s) by (apply Z.pow_pos_nonneg; lia).
  split; [apply Z.div_pos; lia|]. apply Z.div_lt_upper_bound; [lia|].
  rewrite <- Z.pow_add_r by lia. apply Z.lt_le_trans with (2 ^ 128); [lia|].
  apply Z.pow_le_mono_r; lia.
Qed.

(** Each discarded fraction costs less than one unit. *)
Lemma drop_lowbits_sum x y z q d :
  0 < d -> 0 <= x -> 0 <= y -> 0 <= z ->
  x / d + y / d + z / d + q <= (x + y + z + q * d) / d <= x / d + y / d + z / d + q + 2.
Proof.
  intros Hd Hx Hy Hz. rewrite Z.div_add by lia.
  pose proof (Z.div_mod x d ltac:(lia)). pose proof (Z.mod_pos_bound x d Hd).
  pose proof (Z.div_mod y d ltac:(lia)). pose proof (Z.mod_pos_bound y d Hd).
  pose proof (Z.div_mod z d ltac:(lia)). pose proof (Z.mod_pos_bound z d Hd).
  split.
  - apply Z.add_le_mono_r, Z.div_le_lower_bound; nia.
  - enough ((x + y + z) / d < x / d + y / d + z / d + 3) by lia.
    apply Z.div_lt_upper_bound; nia.
Qed.

Lemma shiftr_scaled x k d :
  0 <= k <= d -> Z.shiftr x (d - k) = x * 2 ^ k / 2 ^ d.
Proof.
  intros Hk. rewrite shiftr_div by lia.
  replace (2 ^ d) with (2 ^ (d - k) * 2 ^ k) by (rewrite <- Z.pow_add_r by lia; f_equal; lia).
  rewrite Z.div_mul_cancel_r; [done| |]; pose proof (Z.pow_pos_nonneg 2 (d - k));
    pose proof (Z.pow_pos_nonneg 2 k); lia.
Qed.

Lemma scaled_bound x k d e :
  0 <= x < 2 ^ 128 -> 0 <= k -> 0 <= e -> k + 128 <= d + e -> 0 <= x * 2 ^ k / 2 ^ d < 2 ^ e \/ d < 0.
Proof.
  intros Hx Hk He Hd. destruct (Z.ltb_spec d 0); [by right|left].
  assert (0 < 2 ^ d) by (apply Z.pow_pos_nonneg; lia).
  assert (0 < 2 ^ k) by (apply Z.pow_pos_nonneg; lia).
  split; [apply Z.div_pos; nia|]. apply Z.div_lt_upper_bound; [lia|].
  rewrite <- Z.pow_add_r by lia. apply Z.lt_le_trans with (2 ^ (128 + k)).
  - rewrite Z.pow_add_r by lia. nia.
  - apply Z.pow_le_mono_r; lia.
Qed.

(** The value before the cap at [MAX_PRICE], when at least 129 bits are
    dropped. *)
Lemma safe_multiply_high ll lh hl hh d :
  0 <= ll < 2 ^ 128 -> 0 <= lh < 2 ^ 128 -> 0 <= hl < 2 ^ 128 -> 0 <= hh < 2 ^ 128 ->
  128 < d ->
  let out := u128 (u128 (0 + u128 (Z.shiftr lh (d - 64) + Z.shiftr hl (d - 64)))
                   + Z.shiftr hh (d - 128)) in
  let exact := (ll + 2 ^ 64 * (lh + hl) + 2 ^ 128 * hh) / 2 ^ d in
  0 <= out <= exact /\ exact <= out + 3.
Proof.
  intros Hll Hlh Hhl Hhh Hd out exact. subst out exact.
  rewrite !shiftr_scaled by lia.
  assert (Hp : 0 < 2 ^ d) by (apply Z.pow_pos_nonneg; lia).
  destruct (scaled_bound lh 64 d 126) as [B1|?]; try lia.
  destruct (scaled_bound hl 64 d 126) as [B2|?]; try lia.
  destruct (scaled_bound hh 128 d 127) as [B3|?]; try lia.
  assert (E : ll / 2 ^ d = 0).
  { apply Z.div_small. split; [lia|]. apply Z.lt_le_trans with (2 ^ 128); [lia|].
    apply Z.pow_le_mono_r; lia. }
  rewrite Z.add_0_l, !(u128_id (_ / _ + _ / _)), (u128_id (_ + _)) by (unfold in_u128; lia).
  pose proof (drop_lowbits_sum (lh * 2 ^ 64) (hl * 2 ^ 64) (hh * 2 ^ 128) 0 (2 ^ d) Hp
    ltac:(lia) ltac:(lia) ltac:(lia)).
  pose proof (drop_lowbits_sum ll (lh * 2 ^ 64 + hl * 2 ^ 64 + hh * 2 ^ 128) 0 0 (2 ^ d) Hp
    ltac:(lia) ltac:(lia) ltac:(lia)) as H4.
  rewrite E, Z.div_0_l in H4 by lia.
  replace (ll + 2 ^ 64 * (lh + hl) + 2 ^ 128 * hh)
    with (ll + (lh * 2 ^ 64 + hl * 2 ^ 64 + hh * 2 ^ 128) + 0 + 0 * 2 ^ d) by lia.
  replace (lh * 2 ^ 64 + hl * 2 ^ 64 + hh * 2 ^ 128 + 0 * 2 ^ d)
    with (lh * 2 ^ 64 + hl * 2 ^ 64 + hh * 2 ^ 128) in * by lia.
  assert (ll + (lh * 2 ^ 64 + hl * 2 ^ 64 + hh * 2 ^ 128) + 0 + 0 * 2 ^ d
          < (lh * 2 ^ 64 + hl * 2 ^ 64 + hh * 2 ^ 128) + 2 ^ d) as Hlt.
  { apply Z.div_small_iff in E; lia. }
  split; [lia|].
  enough ((ll + (lh * 2 ^ 64 + hl * 2 ^ 64 + hh * 2 ^ 128) + 0 + 0 * 2 ^ d) / 2 ^ d
          <= (lh * 2 ^ 64 + hl * 2 ^ 64 + hh * 2 ^ 128) / 2 ^ d + 1) by lia.
  rewrite <- (Z.div_add _ 1) by lia. apply Z.div_le_mono; lia.
Qed.

Lemma safe_multiply_low ll lh hl hh d :
  0 <= ll < 2 ^ 128 -> 0 <= lh < 2 ^ 128 -> 0 <= hl < 2 ^ 128 -> 0 <= hh < 2 ^ 128 ->
  81 <= d <= 128 ->
  let u := 128 - d in
  let max_highbits := u64 (Z.shiftl 1 (PRICE_BIT_LEN - u)) - 1 in
  let hh' := if max_highbits <? hh then max_highbits else hh in
  let out0 := if d <? 128 then Z.shiftr ll d else 0 in
  let out := u128 (u128 (out0 + u128 (Z.shiftr lh (d - 64) + Z.shiftr hl (d - 64)))
                   + u128 (Z.shiftl hh' u)) in
  let exact := (ll + 2 ^ 64 * (lh + hl) + 2 ^ 128 * hh) / 2 ^ d in
  0 <= out <= exact /\ Z.min exact (2 ^ 48 - 2 ^ u) <= out + 2.
Proof.
  intros Hll Hlh Hhl Hhh Hd u mh hh' out0 out exact. subst out exact.
  rewrite !shiftr_scaled by lia.
  assert (Hp : 0 < 2 ^ d) by (apply Z.pow_pos_nonneg; lia).
  assert (Hpu : 1 <= 2 ^ u <= 2 ^ 47).
  { split; [apply (Z.pow_le_mono_r 2 0); lia|apply Z.pow_le_mono_r; lia]. }
  assert (Hpd : 2 ^ d * 2 ^ u = 2 ^ 128) by (rewrite <- Z.pow_add_r by lia; f_equal; lia).
  assert (Hmh : mh * 2 ^ u = 2 ^ 48 - 2 ^ u /\ 0 <= mh).
  { subst mh. unfold PRICE_BIT_LEN, PRICE_RADIX.
    assert (E : 2 ^ (2 * 24 - u) * 2 ^ u = 2 ^ 48)
      by (rewrite <- Z.pow_add_r by lia; f_equal; lia).
    rewrite shiftl_mul, Z.mul_1_l by lia.
    assert (1 <= 2 ^ (2 * 24 - u)) by (apply (Z.pow_le_mono_r 2 0); lia).
    rewrite u64_id by (unfold in_u64; nia). nia. }
  assert (E0 : out0 = ll / 2 ^ d).
  { subst out0. destruct (Z.ltb_spec d 128); [by rewrite shiftr_div by lia|].
    replace d with 128 by lia. symmetry. apply Z.div_small. lia. }
  destruct (scaled_bound ll 0 d 111) as [B0|?]; try lia.
  rewrite Z.pow_0_r, Z.mul_1_r in B0.
  destruct (scaled_bound lh 64 d 111) as [B1|?]; try lia.
  destruct (scaled_bound hl 64 d 111) as [B2|?]; try lia.
  rewrite E0, shiftl_mul by lia.
  assert (Hhh' : 0 <= hh' * 2 ^ u <= 2 ^ 48 - 2 ^ u /\ hh' * 2 ^ u <= hh * 2 ^ u /\
                 (hh' = hh \/ hh' * 2 ^ u = 2 ^ 48 - 2 ^ u)).
  { subst hh'. destruct (Z.ltb_spec mh hh); nia. }
  rewrite (u128_id (lh * 2 ^ 64 / 2 ^ d + hl * 2 ^ 64 / 2 ^ d)) by (unfold in_u128; lia).
  rewrite (u128_id (ll / 2 ^ d + _)), (u128_id (hh' * 2 ^ u)) by (unfold in_u128; lia).
  rewrite u128_id by (unfold in_u128; lia).
  pose proof (drop_lowbits_sum ll (lh * 2 ^ 64) (hl * 2 ^ 64) (hh * 2 ^ u) (2 ^ d) Hp
    ltac:(lia) ltac:(lia) ltac:(lia)) as H4.
  replace (ll + 2 ^ 64 * (lh + hl) + 2 ^ 128 * hh)
    with (ll + lh * 2 ^ 64 + hl * 2 ^ 64 + hh * 2 ^ u * 2 ^ d) by nia.
  destruct Hhh' as (H5 & H6 & [->|H7]); lia.
Qed.

(** for every shift the price computation can use ([step_radix + 24],
    at least 81), [safe_multiply_and_drop_lowbits] never throws, its result is
    a price bound ([MAX_PRICE] at most), it never exceeds the exact value
    [first * second / 2^d], and it is within 3 units of it until the value
    approaches the cap. *)
Lemma safe_multiply_approximates first second d :
  0 <= first < 2 ^ 128 -> 0 <= second < 2 ^ 128 -> 81 <= d <= 196 ->
  exists r, safe_multiply_and_drop_lowbits first second d = Ok r /\
    0 <= r <= MAX_PRICE /\
    r <= first * second / 2 ^ d /\
    Z.min (first * second / 2 ^ d) (2 ^ 48 - 2 ^ (128 - d)) - 3 <= r.
Proof.
  intros H1 H2 Hd. unfold safe_multiply_and_drop_lowbits.
  destruct (Z.ltb_spec d 64); [lia|]. destruct (Z.ltb_spec 196 d); [lia|]. simpl orb. cbv iota zeta.
  destruct (split_product first second H1 H2)
    as (ll & lh & hl & hh & -> & -> & -> & -> & Hll & Hlh & Hhl & Hhh & ->).
  eexists; split; [reflexivity|]. rewrite MAX_PRICE_val.
  destruct (Z.leb_spec d 128) as [Hle|Hgt].
  - destruct (Z.leb_spec (128 - d) PRICE_BIT_LEN) as [_|Hx];
      [|unfold PRICE_BIT_LEN, PRICE_RADIX in Hx; lia].
    pose proof (safe_multiply_low ll lh hl hh d Hll Hlh Hhl Hhh ltac:(lia)) as HL. cbv zeta in HL.
    assert (1 <= 2 ^ (128 - d)) by (apply (Z.pow_le_mono_r 2 0); lia).
    match goal with |- context [if _ <? ?o then _ else ?o] => set (out := o) in * end.
    destruct (Z.ltb_spec (2 ^ 48 - 1) out); rewrite u64_id by (unfold in_u64; lia); lia.
  - destruct (Z.ltb_spec d 128); [lia|].
    pose proof (safe_multiply_high ll lh hl hh d Hll Hlh Hhl Hhh Hgt) as HL. cbv zeta in HL.
    rewrite (Z.pow_neg_r 2 (128 - d)) by lia.
    match goal with |- context [if _ <? ?o then _ else ?o] => set (out := o) in * end.
    destruct (Z.ltb_spec (2 ^ 48 - 1) out); rewrite u64_id by (unfold in_u64; lia); lia.
Qed.

(** Outside that range the cap on the high product can lose it entirely:
    dropping 70 bits of [2^64 * 2^64] yields 0, not a saturated price. *)
Lemma safe_multiply_loses_high_bits :
  safe_multiply_and_drop_lowbits (2 ^ 64) (2 ^ 64) 70 = Ok 0 /\
  MAX_PRICE < 2 ^ 64 * 2 ^ 64 / 2 ^ 70.
Proof. split; [vm_compute; reflexivity|reflexivity]. Qed.

(** Serialising a valid price writes exactly six bytes, and reading
    them back (whatever follows in the buffer) returns the price. *)
Lemma price_bytes_roundtrip p rest :
  valid p ->
  length (write_price_big_endian p) = PRICE_BYTES /\
  Forall (fun b => 0 <= b < 256) (write_price_big_endian p) /\
  read_price_big_endian (write_price_big_endian p ++ rest) = p.
Proof.
  intros Hp. split; [apply write_price_length|split; [apply write_price_bytes|]].
  apply read_write_price. unfold valid in Hp. lia.
Qed.
End PriceProps.
