(* ===== verification/Asset.v ===== *)
(** * Revertable asset balances (src/memory_database/revertable_asset.h)

    One balance with a committed and an in-flight value.  The sequential
    operations are functions; [Module Concurrent] is the lock-free protocol of
    [conditional_transfer_available] (load, check, compare-and-exchange) as a
    step relation over a shared cell and a pool of threads. *)
From stdpp Require Import base list strings.
From S2P Require Import Prelude Types.

Module RevertableAsset.

Record t := mk { available : Z; committed_available : Z }.
#[export] Instance t_eq_dec : EqDecision t.
Proof. solve_decision. Defined.

(** [RevertableAsset()] and [RevertableAsset(amount)]. *)
Definition zero : t := mk 0 0.
Definition of_amount (amount : Z) : t := mk amount amount.

Definition escrow (a : t) (amount : Z) : t :=
  mk (i64 (available a - amount)) (committed_available a).

Definition transfer_available (a : t) (amount : Z) : t :=
  mk (i64 (available a + amount)) (committed_available a).

(** [__builtin_add_overflow_p(current, amount, (int64_t) 0)]. *)
Definition add_overflow_p (current amount : Z) : bool :=
  (current + amount <? INT64_MIN) || (INT64_MAX <? current + amount).

(** The test made on a loaded value before the exchange is attempted. *)
Definition withdrawal_allowed (current amount : Z) : bool :=
  negb (add_overflow_p current amount) && negb (current + amount <? 0).

(** The function as one thread runs it without interference: the exchange of
    the first iteration succeeds. *)
Definition conditional_transfer_available (a : t) (amount : Z) : t * bool :=
  if 0 <? amount then (transfer_available a amount, true)
  else if withdrawal_allowed (available a) amount
       then (mk (available a + amount) (committed_available a), true)
       else (a, false).

Definition conditional_escrow (a : t) (amount : Z) : t * bool :=
  if amount =? INT64_MIN then (a, false)
  else if 0 <? amount then conditional_transfer_available a (i64 (- amount))
  else (transfer_available a (i64 (- amount)), true).

Definition lookup_available_balance (a : t) : Z := available a.

(** [AssetCommitment::amount_available] is unsigned. *)
Definition produce_commitment (a : t) (asset : Z) : AssetCommitment :=
  mkAssetCommitment asset (u64 (committed_available a)).
Definition tentative_commitment (a : t) (asset : Z) : AssetCommitment :=
  mkAssetCommitment asset (u64 (available a)).

(** [commit] also returns the committed amount. *)
Definition commit (a : t) : t * Z := (mk (available a) (available a), available a).
Definition rollback (a : t) : t := mk (committed_available a) (committed_available a).
Definition in_valid_state (a : t) : bool := 0 <=? available a.

Definition wf (a : t) : Prop := in_i64 (available a) /\ in_i64 (committed_available a).

Lemma asset_transfer_wf a x : wf a -> wf (transfer_available a x).
Proof. intros [? ?]. split; [apply i64_range|done]. Qed.

Lemma asset_escrow_transfer a x : escrow a x = transfer_available a (- x).
Proof. unfold escrow, transfer_available. do 2 f_equal. Qed.

Lemma withdrawal_allowed_spec c x :
  in_i64 c -> x <= 0 -> withdrawal_allowed c x = true <-> 0 <= c + x.
Proof.
  intros Hc Hx. unfold withdrawal_allowed, add_overflow_p.
  rewrite andb_true_iff, !negb_true_iff, orb_false_iff, !Z.ltb_ge. zlia.
Qed.

(** The full behaviour of the sequential withdrawal: it succeeds exactly when
    funds suffice, and a success is a wrapped addition. *)
Lemma asset_conditional_transfer_spec a x :
  wf a ->
  conditional_transfer_available a x =
    if decide (0 < x \/ 0 <= available a + x)
    then (transfer_available a x, true) else (a, false).
Proof.
  intros [Ha Hc]. unfold conditional_transfer_available.
  destruct (Z.ltb_spec 0 x).
  - rewrite decide_True by lia. done.
  - destruct (withdrawal_allowed (available a) x) eqn:E.
    + apply withdrawal_allowed_spec in E; [|done|done]. rewrite decide_True by lia.
      unfold transfer_available. do 2 f_equal. rewrite i64_id; [done|]. zlia.
    + rewrite decide_False; [done|]. intros [?|Hge]; [lia|].
      apply (withdrawal_allowed_spec _ _ Ha) in Hge; [congruence|lia].
Qed.

Lemma asset_conditional_escrow_spec a x :
  wf a -> in_i64 x ->
  conditional_escrow a x =
    if decide (x <> INT64_MIN /\ (x <= 0 \/ x <= available a))
    then (transfer_available a (- x), true) else (a, false).
Proof.
  intros Hwf Hx. unfold conditional_escrow.
  destruct (Z.eqb_spec x INT64_MIN) as [->|Hn].
  { rewrite decide_False by tauto. done. }
  rewrite i64_id by zlia. destruct (Z.ltb_spec 0 x).
  - rewrite asset_conditional_transfer_spec by done.
    destruct (decide (0 < - x \/ 0 <= available a + - x)); destruct (decide _); try done; lia.
  - rewrite decide_True by lia. done.
Qed.
End RevertableAsset.

(** ** The lock-free protocol *)
Module Concurrent.
Import RevertableAsset.

(** A thread running [conditional_transfer_available(amount)]. *)
Inductive thread :=
| Running (amount : Z)                  (* at the top of the loop *)
| Loaded (amount current_available : Z) (* loaded and checked, before the exchange *)
| Finished (amount : Z) (res : bool).

(** The shared cell and the threads. *)
Record state := mkState { cell : Z; threads : list thread }.

Inductive step : state -> state -> Prop :=
| step_fetch_add v ts i amount :
    ts !! i = Some (Running amount) -> 0 < amount ->
    step (mkState v ts) (mkState (i64 (v + amount)) (<[i := Finished amount true]> ts))
| step_load_reject v ts i amount :
    ts !! i = Some (Running amount) -> amount <= 0 ->
    withdrawal_allowed v amount = false ->
    step (mkState v ts) (mkState v (<[i := Finished amount false]> ts))
| step_load v ts i amount :
    ts !! i = Some (Running amount) -> amount <= 0 ->
    withdrawal_allowed v amount = true ->
    step (mkState v ts) (mkState v (<[i := Loaded amount v]> ts))
| step_exchange v ts i amount :
    ts !! i = Some (Loaded amount v) ->
    step (mkState v ts) (mkState (i64 (v + amount)) (<[i := Finished amount true]> ts))
| step_exchange_fail v ts i amount current :
    (* another thread won, or the weak exchange failed spuriously *)
    ts !! i = Some (Loaded amount current) ->
    step (mkState v ts) (mkState v (<[i := Running amount]> ts)).

Inductive steps : state -> state -> Prop :=
| steps_refl s : steps s s
| steps_step s1 s2 s3 : step s1 s2 -> steps s2 s3 -> steps s1 s3.

(** What a thread has added to the cell so far. *)
Definition contribution (th : thread) : Z :=
  match th with Finished amount true => amount | _ => 0 end.
(** The deposits still to come. *)
Definition pending_deposit (th : thread) : Z :=
  match th with Running amount | Loaded amount _ => Z.max 0 amount | Finished _ _ => 0 end.

Definition total (f : thread -> Z) (ts : list thread) : Z := sum_by f ts.

Lemma total_insert f ts i x y :
  ts !! i = Some x -> total f (<[i := y]> ts) = total f ts - f x + f y.
Proof.
  unfold total. revert i. induction ts as [|z ts IH]; intros [|i] H; simplify_eq/=.
  - rewrite !sum_by_cons. lia.
  - rewrite !sum_by_cons, (IH i) by done. lia.
Qed.

(** A loaded thread holds a value for which the withdrawal was allowed. *)
Definition loaded_ok (th : thread) : Prop :=
  match th with
  | Loaded amount current => amount <= 0 /\ 0 <= current + amount
  | _ => True
  end.

Record inv (v0 : Z) (s : state) : Prop := {
  inv_nonneg : 0 <= cell s;
  inv_room : cell s + total pending_deposit (threads s) <= INT64_MAX;
  inv_exact : cell s = v0 + total contribution (threads s);
  inv_loaded : Forall loaded_ok (threads s)
}.

Lemma pending_nonneg ts : 0 <= total pending_deposit ts.
Proof. apply sum_by_nonneg, Forall_forall. intros [] _; simpl; lia. Qed.

Lemma loaded_insert ts i th : Forall loaded_ok ts -> loaded_ok th -> Forall loaded_ok (<[i := th]> ts).
Proof. intros. by apply Forall_insert. Qed.

Lemma step_inv v0 s s' : step s s' -> inv v0 s -> inv v0 s'.
Proof.
  intros Hs [Hn Hr He Hl].
  assert (Hin : in_i64 (cell s)).
  { pose proof (pending_nonneg (threads s)). zlia. }
  destruct Hs as [v ts i x Hi Hx|v ts i x Hi Hx Hw|v ts i x Hi Hx Hw|v ts i x Hi|v ts i x c Hi];
    simpl in *.
  - assert (Hroom : v + x <= INT64_MAX).
    { pose proof (total_insert pending_deposit ts i (Running x) (Finished x true) Hi) as E.
      pose proof (pending_nonneg (<[i:=Finished x true]> ts)). simpl in E. lia. }
    rewrite i64_id by zlia. constructor; simpl.
    + lia.
    + erewrite total_insert by eassumption. simpl. lia.
    + erewrite total_insert by eassumption. simpl. lia.
    + by apply loaded_insert.
  - constructor; simpl; [done| | |by apply loaded_insert];
      (erewrite total_insert by eassumption); simpl; lia.
  - apply withdrawal_allowed_spec in Hw; [|done|done].
    constructor; simpl; [done| | |by apply loaded_insert];
      (erewrite total_insert by eassumption); simpl; lia.
  - pose proof (Forall_lookup_1 _ _ _ _ Hl Hi) as [Hx Hge]. simpl in *.
    rewrite i64_id by zlia. constructor; simpl; [done| | |by apply loaded_insert];
      (erewrite total_insert by eassumption); simpl; lia.
  - constructor; simpl; [done| | |by apply loaded_insert];
      (erewrite total_insert by eassumption); simpl; lia.
Qed.

Lemma steps_inv v0 s s' : steps s s' -> inv v0 s -> inv v0 s'.
Proof. induction 1; eauto using step_inv. Qed.

Lemma contribution_initial amounts : total contribution (Running <$> amounts) = 0.
Proof. unfold total. induction amounts as [|a l IH]; [done|]. by rewrite fmap_cons, sum_by_cons, IH. Qed.

Lemma inv_initial v0 amounts :
  0 <= v0 -> v0 + sum_by (Z.max 0) amounts <= INT64_MAX ->
  inv v0 (mkState v0 (Running <$> amounts)).
Proof.
  intros H0 Hroom. constructor; simpl; [done| | |].
  - replace (total pending_deposit (Running <$> amounts)) with (sum_by (Z.max 0) amounts); [done|].
    clear. unfold total. induction amounts as [|a l IH]; [done|]. simpl. rewrite !sum_by_cons, IH. done.
  - rewrite contribution_initial. lia.
  - apply Forall_fmap, Forall_forall. done.
Qed.

(** C37: whatever the interleaving of any number of threads calling
    [conditional_transfer_available] on one balance (weak exchanges may fail
    spuriously), starting from a nonnegative balance whose deposits cannot
    overflow: the balance is never negative and is exactly the initial value
    plus the amounts of the calls that returned [true] (no update is lost or
    applied twice). *)
Theorem concurrent_balance_exact v0 amounts s :
  0 <= v0 -> v0 + sum_by (Z.max 0) amounts <= INT64_MAX ->
  steps (mkState v0 (Running <$> amounts)) s ->
  0 <= cell s /\ cell s = v0 + total contribution (threads s).
Proof.
  intros H0 Hr Hs. pose proof (steps_inv v0 _ _ Hs (inv_initial v0 amounts H0 Hr)) as [].
  done.
Qed.

(** Two withdrawals race: both load 10, one exchange wins, the other retries
    and is refused. *)
Definition race_end : state := mkState 3 [Finished (-7) true; Finished (-7) false].
Lemma race_steps : steps (mkState 10 (Running <$> [-7; -7])) race_end.
Proof.
  eapply steps_step; [apply (step_load 10 _ 0 (-7)); [reflexivity|lia|reflexivity]|].
  eapply steps_step; [apply (step_load 10 _ 1 (-7)); [reflexivity|lia|reflexivity]|].
  eapply steps_step; [apply (step_exchange 10 _ 0 (-7)); reflexivity|].
  eapply steps_step; [apply (step_exchange_fail _ _ 1 (-7) 10); reflexivity|].
  eapply steps_step; [apply (step_load_reject _ _ 1 (-7)); [reflexivity|lia|reflexivity]|].
  apply steps_refl.
Defined.

Lemma concurrent_balance_exact_witness :
  steps (mkState 10 (Running <$> [-7; -7])) race_end /\
  0 <= cell race_end /\ cell race_end = 10 + total contribution (threads race_end).
Proof.
  split; [exact race_steps|].
  apply (concurrent_balance_exact 10 [-7; -7]); [lia|vm_compute; discriminate|exact race_steps].
Defined.
End Concurrent.
