(* ===== verification/SeqTracker.v ===== *)
(** * Sequence number tracking (src/memory_database/sequence_tracker.h, .cc)

    [Module Spec]: the contract, a last committed id and an unbounded bit mask
    of the reserved offsets.  [Module UInt64SequenceTracker] and [Module
    BoundedSequenceTracker] are the two implementations selected by
    [SequenceTracker<MAX_SEQ_GAP>]; the class [SequenceTracker] is the interface
    [UserAccount] uses, and [SequenceTrackerRefines] what an implementation has
    to prove. *)
From stdpp Require Import base list strings.
From S2P Require Import Prelude Types.

(** [__builtin_clzll], undefined at 0. *)
Definition clzll (v : Z) : Z := 63 - Z.log2 v.

(** ** The interface *)
Class SequenceTracker (T : Type) := {
  st_init : Z -> T;
  st_set_last_committed_id : T -> Z -> T;
  st_produce_commitment : T -> Z;
  st_tentative_commitment : T -> Z;
  st_reserve_sequence_number : T -> Z -> T * TransactionProcessingStatus;
  st_release_sequence_number : T -> Z -> result T;
  st_commit_sequence_number : T -> Z -> T;
  st_commit : T -> T;
  st_rollback : T -> T
}.

(** ** The contract *)
Module Spec.
Record t := mk { last : Z; mask : Z }.

Definition offset (sequence_number last_committed_id : Z) : Z :=
  u64 (u64 (sequence_number - last_committed_id) / MAX_OPS_PER_TX - 1).

Definition increment (m : Z) : Z :=
  if m =? 0 then 0 else u64 ((Z.log2 m + 1) * MAX_OPS_PER_TX).

Section Gap.
Variable gap : Z.

Definition reserve (s : t) (n : Z) : t * TransactionProcessingStatus :=
  if n <=? last s then (s, SEQ_NUM_TOO_LOW)
  else let off := offset n (last s) in
       if gap <=? off then (s, SEQ_NUM_TOO_HIGH)
       else if Z.testbit (mask s) off then (s, SEQ_NUM_TEMP_IN_USE)
       else (mk (last s) (Z.lor (mask s) (2 ^ off)), SUCCESS).

Definition release (s : t) (n : Z) : result t :=
  if n <=? last s then Throw "cannot release invalid seq num!"
  else let off := offset n (last s) in
       if gap <=? off then Throw "cannot release too far forward seq num!"
       else Ok (mk (last s) (Z.ldiff (mask s) (2 ^ off))).
End Gap.

Definition tentative (s : t) : Z := u64 (last s + increment (mask s)).
Definition commit (s : t) : t := mk (tentative s) 0.
Definition rollback (s : t) : t := mk (last s) 0.

(** Every reserved offset stands for a representable sequence number. *)
Record wf (s : t) : Prop := {
  wf_last : 0 <= last s < 2 ^ 64;
  wf_mask : 0 <= mask s;
  wf_room : mask s <> 0 -> last s + 256 * (Z.log2 (mask s) + 1) < 2 ^ 64
}.

Lemma offset_cases n l :
  0 <= l < n -> n < 2 ^ 64 ->
  (n < l + 256 /\ offset n l = 2 ^ 64 - 1) \/
  (l + 256 <= n /\ 0 <= offset n l /\ l + 256 * (offset n l + 1) <= n < l + 256 * (offset n l + 2)).
Proof.
  intros Hl Hn. unfold offset, MAX_OPS_PER_TX. rewrite (u64_id (n - l)) by zlia.
  destruct (Z.ltb_spec n (l + 256)).
  - left. split; [done|]. rewrite Z.div_small by lia. reflexivity.
  - right. split; [done|]. pose proof (Z.div_mod (n - l) 256 ltac:(lia)).
    pose proof (Z.mod_pos_bound (n - l) 256 ltac:(lia)).
    assert (1 <= (n - l) / 256) by (apply Z.div_le_lower_bound; lia).
    assert ((n - l) / 256 < 2 ^ 64) by (apply Z.div_lt_upper_bound; lia).
    rewrite u64_id by zlia. lia.
Qed.

Lemma log2_lor_pow2 m k : 0 <= m -> 0 <= k -> Z.log2 (Z.lor m (2 ^ k)) = Z.max (Z.log2 m) k.
Proof.
  intros. rewrite Z.log2_lor, Z.log2_pow2; [done|lia..|]. apply Z.pow_nonneg. lia.
Qed.

Lemma lor_pow2_nonzero m k : 0 <= m -> 0 <= k -> Z.lor m (2 ^ k) <> 0.
Proof.
  intros Hm Hk E. assert (Z.testbit (Z.lor m (2 ^ k)) k = true) as H.
  { rewrite Z.lor_spec, Z.pow2_bits_true by done. apply orb_true_r. }
  by rewrite E, Z.testbit_0_l in H.
Qed.

Lemma reserve_wf gap s n s' r : 0 <= gap <= 2 ^ 63 ->
  wf s -> in_u64 n -> reserve gap s n = (s', r) -> wf s'.
Proof.
  intros Hgap [H1 H2 H3] Hn. unfold reserve.
  destruct (Z.leb_spec n (last s)); [by intros [= <- <-]|].
  destruct (Z.leb_spec gap (offset n (last s))); [by intros [= <- <-]|].
  destruct (Z.testbit _ _); intros [= <- <-]; [done|].
  destruct (offset_cases n (last s)) as [[? ?]|(? & ? & ?)]; unfold in_u64 in *; [lia..| |].
  { lia. }
  constructor; simpl; [done| |].
  - apply Z.lor_nonneg. split; [done|]. apply Z.pow_nonneg. lia.
  - intros _. rewrite log2_lor_pow2 by lia.
    destruct (decide (mask s = 0)) as [->|Hm]; [simpl; lia|]. specialize (H3 Hm). lia.
Qed.

Lemma log2_ldiff_le m x : 0 <= m -> Z.log2 (Z.ldiff m x) <= Z.log2 m.
Proof.
  intros Hm. apply Z.log2_le_mono.
  assert (0 <= Z.ldiff m x) by (apply Z.ldiff_nonneg; by left).
  rewrite <- (Z.lor_ldiff_and m x) at 2.
  assert (Z.land (Z.ldiff m x) (Z.land m x) = 0) as E2.
  { apply Z.bits_inj'. intros k Hk. rewrite !Z.land_spec, Z.ldiff_spec, Z.bits_0.
    destruct (Z.testbit m k), (Z.testbit x k); done. }
  rewrite <- Z.lxor_lor, <- Z.add_nocarry_lxor by done.
  assert (0 <= Z.land m x) by (apply Z.land_nonneg; by left). lia.
Qed.

Lemma release_wf gap s n s' : wf s -> release gap s n = Ok s' -> wf s'.
Proof.
  intros [H1 H2 H3]. unfold release.
  destruct (_ <=? _); [done|]. destruct (_ <=? _); [done|]. intros [= <-].
  constructor; simpl; [done|apply Z.ldiff_nonneg; by left|].
  intros Hne. destruct (decide (mask s = 0)) as [E|Hm].
  { rewrite E, Z.ldiff_0_l in Hne. done. }
  specialize (H3 Hm). pose proof (log2_ldiff_le (mask s) (2 ^ offset n (last s)) H2). lia.
Qed.

Lemma tentative_eq s : wf s ->
  tentative s = last s + (if mask s =? 0 then 0 else 256 * (Z.log2 (mask s) + 1)).
Proof.
  intros [H1 H2 H3]. unfold tentative, increment, MAX_OPS_PER_TX.
  destruct (Z.eqb_spec (mask s) 0); [rewrite u64_id by zlia; lia|].
  specialize (H3 n). pose proof (Z.log2_nonneg (mask s)).
  rewrite (u64_id (_ * 256)), u64_id by zlia. lia.
Qed.

Lemma commit_wf s : wf s -> wf (commit s).
Proof.
  intros Hwf. constructor; simpl; [|lia|done]. apply u64_range.
Qed.

Lemma rollback_wf s : wf s -> wf (rollback s).
Proof. intros []. by constructor. Qed.

Lemma release_reserve gap s s' n :
  0 <= mask s -> reserve gap s n = (s', SUCCESS) -> release gap s' n = Ok s.
Proof.
  intros Hm. unfold reserve, release.
  destruct (n <=? last s) eqn:E1; [done|].
  destruct (gap <=? offset n (last s)) eqn:E2; [done|].
  destruct (Z.testbit _ _) eqn:E3; [done|]. intros [= <-]. simpl. rewrite E1, E2.
  destruct s as [l m]; simpl in *. do 2 f_equal. apply Z.bits_inj'. intros k Hk.
  rewrite Z.ldiff_spec, Z.lor_spec. destruct (decide (k = offset n l)) as [->|Hne].
  - by rewrite E3, Z.pow2_bits_true.
  - rewrite Z.pow2_bits_false by done. by rewrite orb_false_r, andb_true_r.
Qed.

(** A number within 256 of the last committed id is never accepted. *)
Lemma reserve_rejects gap s n :
  0 <= gap <= 2 ^ 63 -> 0 <= last s -> n < 2 ^ 64 -> n < last s + 256 ->
  (reserve gap s n).2 = SEQ_NUM_TOO_LOW \/ (reserve gap s n).2 = SEQ_NUM_TOO_HIGH.
Proof.
  intros Hgap Hl Hn Hlt. unfold reserve.
  destruct (Z.leb_spec n (last s)); [by left|]. right.
  destruct (offset_cases n (last s)) as [[_ ->]|(? & _ & _)]; [lia..| |lia].
  destruct (Z.leb_spec gap (2 ^ 64 - 1)); [done|lia].
Qed.
End Spec.

(** ** Refinement: what an implementation with a given gap proves *)
Class SequenceTrackerRefines (T : Type) `{SequenceTracker T} := {
  st_gap : Z;
  st_wf : T -> Prop;
  st_abs : T -> Spec.t;
  st_gap_bound : 0 < st_gap <= 2 ^ 63;
  st_abs_mask : forall t, st_wf t -> 0 <= Spec.mask (st_abs t);
  st_abs_inj : forall t t', st_wf t -> st_wf t' -> st_abs t = st_abs t' -> t = t';
  st_init_refines : forall l, st_wf (st_init l) /\ st_abs (st_init l) = Spec.mk l 0;
  st_set_last_refines : forall t l, st_wf t ->
    st_wf (st_set_last_committed_id t l) /\
    st_abs (st_set_last_committed_id t l) = Spec.mk l (Spec.mask (st_abs t));
  st_produce_refines : forall t, st_produce_commitment t = Spec.last (st_abs t);
  st_tentative_refines : forall t, st_wf t ->
    st_tentative_commitment t = Spec.tentative (st_abs t);
  st_reserve_refines : forall t n, st_wf t -> in_u64 n -> in_u64 (Spec.last (st_abs t)) ->
    st_wf (st_reserve_sequence_number t n).1 /\
    (st_abs (st_reserve_sequence_number t n).1, (st_reserve_sequence_number t n).2)
      = Spec.reserve st_gap (st_abs t) n;
  st_release_refines : forall t n, st_wf t -> in_u64 n -> in_u64 (Spec.last (st_abs t)) ->
    match st_release_sequence_number t n, Spec.release st_gap (st_abs t) n with
    | Ok t', Ok s' => st_wf t' /\ st_abs t' = s'
    | Throw _, Throw _ => True
    | _, _ => False
    end;
  st_commit_number_refines : forall t n, st_commit_sequence_number t n = t;
  st_commit_refines : forall t, st_wf t ->
    st_wf (st_commit t) /\ st_abs (st_commit t) = Spec.commit (st_abs t);
  st_rollback_refines : forall t, st_wf t ->
    st_wf (st_rollback t) /\ st_abs (st_rollback t) = Spec.rollback (st_abs t)
}.

(** ** Single bits of a word *)
Lemma land_pow2_zero v k : 0 <= k -> (Z.land v (2 ^ k) =? 0) = negb (Z.testbit v k).
Proof.
  intros Hk. destruct (Z.testbit v k) eqn:E; simpl.
  - apply Z.eqb_neq. intros H. assert (Z.testbit (Z.land v (2 ^ k)) k = true) as Ht.
    { by rewrite Z.land_spec, E, Z.pow2_bits_true. }
    by rewrite H, Z.testbit_0_l in Ht.
  - apply Z.eqb_eq, Z.bits_inj'. intros i Hi. rewrite Z.land_spec, Z.bits_0.
    destruct (decide (i = k)) as [->|Hne]; [by rewrite E|].
    by rewrite Z.pow2_bits_false, andb_false_r.
Qed.

Lemma lor_pow2_set v k : 0 <= k -> Z.testbit v k = true -> Z.lor v (2 ^ k) = v.
Proof.
  intros Hk E. apply Z.bits_inj'. intros i Hi. rewrite Z.lor_spec.
  destruct (decide (i = k)) as [->|Hne]; [by rewrite E|].
  by rewrite Z.pow2_bits_false, orb_false_r.
Qed.

Lemma bit_above v n i : 0 <= v < 2 ^ n -> n <= i -> Z.testbit v i = false.
Proof.
  intros Hv Hi. destruct (decide (v = 0)) as [->|Hne]; [apply Z.bits_0|].
  apply Z.bits_above_log2; [lia|].
  destruct (Z.ltb_spec n 0); [rewrite Z.pow_neg_r in Hv by done; lia|].
  apply Z.lt_le_trans with n; [|done]. apply Z.log2_lt_pow2; lia.
Qed.

Lemma land_not_mask v k :
  0 <= v < 2 ^ 64 -> 0 <= k < 64 -> Z.land v (u64 (Z.lnot (2 ^ k))) = Z.ldiff v (2 ^ k).
Proof.
  intros Hv Hk. apply Z.bits_inj'. intros i Hi. rewrite Z.land_spec, Z.ldiff_spec.
  destruct (Z.ltb_spec i 64).
  - unfold u64. rewrite Z.mod_pow2_bits_low, Z.lnot_spec by lia. done.
  - by rewrite (bit_above v 64 i).
Qed.

Lemma pow2_word k : 0 <= k < 64 -> u64 (Z.shiftl 1 k) = 2 ^ k.
Proof.
  intros Hk. rewrite shiftl_mul, Z.mul_1_l by lia. apply u64_id. unfold in_u64.
  split; [apply Z.pow_nonneg; lia|apply Z.pow_lt_mono_r; lia].
Qed.

Lemma lor_word v k : 0 <= v < 2 ^ 64 -> 0 <= k < 64 -> 0 <= Z.lor v (2 ^ k) < 2 ^ 64.
Proof.
  intros Hv Hk. assert (0 <= 2 ^ k) by (apply Z.pow_nonneg; lia). split.
  { apply Z.lor_nonneg. lia. }
  destruct (decide (Z.lor v (2 ^ k) = 0)) as [->|Hne]; [lia|].
  apply Z.log2_lt_pow2; [assert (0 <= Z.lor v (2 ^ k)) by (apply Z.lor_nonneg; lia); lia|].
  rewrite Spec.log2_lor_pow2 by lia.
  destruct (decide (v = 0)) as [->|Hv0]; [simpl; lia|].
  assert (Z.log2 v < 64) by (apply Z.log2_lt_pow2; lia). lia.
Qed.

Lemma ldiff_word v x : 0 <= v < 2 ^ 64 -> 0 <= Z.ldiff v x < 2 ^ 64.
Proof.
  intros Hv. split; [apply Z.ldiff_nonneg; lia|].
  destruct (decide (Z.ldiff v x = 0)) as [->|Hne]; [lia|].
  assert (0 <= Z.ldiff v x) by (apply Z.ldiff_nonneg; lia).
  apply Z.log2_lt_pow2; [lia|]. pose proof (Spec.log2_ldiff_le v x ltac:(lia)).
  destruct (decide (v = 0)) as [->|Hv0]; [by rewrite Z.ldiff_0_l in Hne|].
  assert (Z.log2 v < 64) by (apply Z.log2_lt_pow2; lia). lia.
Qed.

(** ** One word (src/memory_database/sequence_tracker.cc) *)
Module UInt64SequenceTracker.
Record t := mk { last_committed_id : Z; sequence_number_vec : Z }.

(** Returned as [uint8_t]: out of range offsets become 255. *)
Definition uint64_get_seq_num_offset (sequence_number last_committed_id : Z) : Z :=
  let offset := u64 (u64 (sequence_number - last_committed_id) / MAX_OPS_PER_TX - 1) in
  if 64 <=? offset then 255 else u8 offset.

(** An [int] times the [uint32_t] constant. *)
Definition uint64_get_seq_num_increment (bv : Z) : Z :=
  if bv =? 0 then 0 else u32 ((64 - clzll bv) * MAX_OPS_PER_TX).

Definition init (last : Z) : t := mk last 0.
Definition set_last_committed_id (s : t) (id : Z) : t := mk id (sequence_number_vec s).
Definition produce_commitment (s : t) : Z := last_committed_id s.

Definition reserve_sequence_number (s : t) (sequence_number : Z) : t * TransactionProcessingStatus :=
  if sequence_number <=? last_committed_id s then (s, SEQ_NUM_TOO_LOW)
  else
    let offset := uint64_get_seq_num_offset sequence_number (last_committed_id s) in
    if 64 <=? offset then (s, SEQ_NUM_TOO_HIGH)
    else
      let bit_mask := u64 (Z.shiftl 1 offset) in
      let prev := sequence_number_vec s in
      let s' := mk (last_committed_id s) (Z.lor prev bit_mask) in
      if negb (Z.land prev bit_mask =? 0) then (s', SEQ_NUM_TEMP_IN_USE)
      else (s', SUCCESS).

Definition release_sequence_number (s : t) (sequence_number : Z) : result t :=
  if sequence_number <=? last_committed_id s then Throw "cannot release invalid seq num!"
  else
    let offset := uint64_get_seq_num_offset sequence_number (last_committed_id s) in
    if 64 <=? offset then Throw "cannot release too far forward seq num!"
    else
      let bit_mask := u64 (Z.lnot (u64 (Z.shiftl 1 offset))) in
      Ok (mk (last_committed_id s) (Z.land (sequence_number_vec s) bit_mask)).

Definition commit_sequence_number (s : t) (_ : Z) : t := s.

Definition tentative_commitment (s : t) : Z :=
  u64 (last_committed_id s + uint64_get_seq_num_increment (sequence_number_vec s)).

Definition commit (s : t) : t :=
  mk (u64 (last_committed_id s + uint64_get_seq_num_increment (sequence_number_vec s))) 0.

Definition rollback (s : t) : t := mk (last_committed_id s) 0.

#[global] Instance tracker : SequenceTracker t := {
  st_init := init;
  st_set_last_committed_id := set_last_committed_id;
  st_produce_commitment := produce_commitment;
  st_tentative_commitment := tentative_commitment;
  st_reserve_sequence_number := reserve_sequence_number;
  st_release_sequence_number := release_sequence_number;
  st_commit_sequence_number := commit_sequence_number;
  st_commit := commit;
  st_rollback := rollback
}.

Definition abs (s : t) : Spec.t := Spec.mk (last_committed_id s) (sequence_number_vec s).
Definition wf (s : t) : Prop := 0 <= sequence_number_vec s < 2 ^ 64.

Lemma increment_spec v : 0 <= v < 2 ^ 64 -> uint64_get_seq_num_increment v = Spec.increment v.
Proof.
  unfold uint64_get_seq_num_increment, Spec.increment, clzll, MAX_OPS_PER_TX. intros Hv.
  destruct (Z.eqb_spec v 0); [done|]. pose proof (Z.log2_nonneg v).
  assert (Z.log2 v < 64) by (apply Z.log2_lt_pow2; lia).
  rewrite u32_id, u64_id by (unfold in_u64; lia). lia.
Qed.

Lemma offset_spec n l : Spec.offset n l < 64 ->
  uint64_get_seq_num_offset n l = Spec.offset n l.
Proof.
  unfold uint64_get_seq_num_offset. change (u64 (u64 (n - l) / MAX_OPS_PER_TX - 1)) with (Spec.offset n l).
  intros H. destruct (Z.leb_spec 64 (Spec.offset n l)); [lia|].
  assert (0 <= Spec.offset n l) by apply u64_range. unfold u8. apply Z.mod_small. lia.
Qed.

Lemma offset_high n l : 64 <= Spec.offset n l -> uint64_get_seq_num_offset n l = 255.
Proof.
  unfold uint64_get_seq_num_offset. change (u64 (u64 (n - l) / MAX_OPS_PER_TX - 1)) with (Spec.offset n l).
  intros H. destruct (Z.leb_spec 64 (Spec.offset n l)); [done|lia].
Qed.

#[global] Program Instance refines : SequenceTrackerRefines t := {
  st_gap := 64;
  st_wf := wf;
  st_abs := abs
}.
Next Obligation. lia. Qed.
Next Obligation. intros s [? ?]. done. Qed.
Next Obligation. intros [] [] _ _ [= -> ->]. done. Qed.
Next Obligation. intros l. split; [split; simpl; lia|done]. Qed.
Next Obligation. intros s l H. done. Qed.
Next Obligation. done. Qed.
Next Obligation.
  intros [l v] Hwf. simpl. unfold tentative_commitment, Spec.tentative. simpl.
  by rewrite increment_spec.
Qed.
Next Obligation.
  intros [l v] n Hwf Hn Hl. unfold wf in *. simpl in *.
  unfold reserve_sequence_number, Spec.reserve. simpl.
  destruct (n <=? l); [done|].
  destruct (Z.leb_spec 64 (Spec.offset n l)) as [Hh|Hlo].
  { rewrite (offset_high n l Hh). done. }
  rewrite offset_spec by done. destruct (Z.leb_spec 64 (Spec.offset n l)); [lia|].
  assert (0 <= Spec.offset n l) by apply u64_range.
  rewrite pow2_word, land_pow2_zero, negb_involutive by lia.
  destruct (Z.testbit v (Spec.offset n l)) eqn:E; simpl.
  - unfold abs. simpl. rewrite lor_pow2_set by done. done.
  - split; [apply lor_word; lia|done].
Qed.
Next Obligation.
  intros [l v] n Hwf Hn Hl. unfold wf in *. simpl in *.
  unfold release_sequence_number, Spec.release. simpl.
  destruct (n <=? l); [done|].
  destruct (Z.leb_spec 64 (Spec.offset n l)) as [Hh|Hlo].
  { rewrite (offset_high n l Hh). done. }
  rewrite offset_spec by done. destruct (Z.leb_spec 64 (Spec.offset n l)); [lia|].
  assert (0 <= Spec.offset n l) by apply u64_range.
  rewrite pow2_word, land_not_mask by lia. simpl. split; [apply ldiff_word; lia|done].
Qed.
Next Obligation. done. Qed.
Next Obligation.
  intros [l v] Hwf. simpl. unfold wf. simpl. split; [lia|].
  unfold abs, commit, Spec.commit, Spec.tentative. simpl. by rewrite increment_spec.
Qed.
Next Obligation. intros [l v] Hwf. split; [split; simpl; lia|done]. Qed.
End UInt64SequenceTracker.

(** ** Arrays of 64-bit words as one bit mask *)
Definition word (w : Z) : Prop := 0 <= w < 2 ^ 64.

Fixpoint flatten (ws : list Z) : Z :=
  match ws with [] => 0 | w :: ws => w + 2 ^ 64 * flatten ws end.

Lemma flatten_nonneg ws : Forall word ws -> 0 <= flatten ws.
Proof. induction 1 as [|w ws [? ?]]; simpl; lia. Qed.

Lemma testbit_split w acc k :
  word w -> 0 <= acc -> 0 <= k ->
  Z.testbit (w + 2 ^ 64 * acc) k = if k <? 64 then Z.testbit w k else Z.testbit acc (k - 64).
Proof.
  intros Hw Ha Hk. rewrite (Z.mul_comm _ acc), <- Z.shiftl_mul_pow2 by lia.
  assert (E : Z.land w (Z.shiftl acc 64) = 0).
  { apply Z.bits_inj'. intros i Hi. rewrite Z.land_spec, Z.bits_0.
    destruct (Z.ltb_spec i 64).
    - rewrite Z.shiftl_spec_low by done. apply andb_false_r.
    - by rewrite (bit_above w 64 i Hw ltac:(lia)). }
  rewrite Z.add_nocarry_lxor, Z.lxor_lor, Z.lor_spec by done.
  destruct (Z.ltb_spec k 64).
  - rewrite Z.shiftl_spec_low by done. apply orb_false_r.
  - rewrite (bit_above w 64 k Hw ltac:(lia)). by rewrite Z.shiftl_spec by done.
Qed.

Lemma flatten_insert_bits ws i w k :
  Forall word ws -> word w -> (i < length ws)%nat -> 0 <= k ->
  Z.testbit (flatten (<[i := w]> ws)) k =
    if k / 64 =? Z.of_nat i then Z.testbit w (k mod 64) else Z.testbit (flatten ws) k.
Proof.
  intros Hws Hw. revert i k. induction Hws as [|x ws Hx Hws IH]; intros i k Hi Hk; simpl in *; [lia|].
  assert (Hdiv : 64 <= k -> (k - 64) / 64 = k / 64 - 1 /\ (k - 64) mod 64 = k mod 64).
  { intros. replace (k - 64) with (k + -1 * 64) by lia.
    rewrite Z.div_add, Z.mod_add by lia. lia. }
  pose proof (flatten_nonneg ws Hws).
  destruct i as [|i]; simpl.
  - rewrite !testbit_split by done. destruct (Z.ltb_spec k 64).
    + rewrite Z.div_small, Z.mod_small by lia. done.
    + assert (1 <= k / 64) by (apply Z.div_le_lower_bound; lia).
      destruct (Z.eqb_spec (k / 64) (Z.of_nat 0)); [lia|done].
  - rewrite !testbit_split; try done; [|apply flatten_nonneg, Forall_insert; done].
    destruct (Z.ltb_spec k 64).
    + rewrite Z.div_small by lia. destruct (Z.eqb_spec 0 (Z.of_nat (S i))); [lia|done].
    + destruct (Hdiv H0) as [E1 E2]. rewrite IH, E1, E2 by lia.
      destruct (Z.eqb_spec (k / 64 - 1) (Z.of_nat i)), (Z.eqb_spec (k / 64) (Z.of_nat (S i))); try done; lia.
Qed.

Lemma flatten_lookup_bit ws i w j :
  Forall word ws -> ws !! i = Some w -> 0 <= j < 64 ->
  Z.testbit (flatten ws) (64 * Z.of_nat i + j) = Z.testbit w j.
Proof.
  intros Hws Hi Hj. rewrite <- (list_insert_id ws i w Hi) at 1.
  rewrite flatten_insert_bits; [|done| |eapply lookup_lt_Some; eauto|lia].
  - replace (64 * Z.of_nat i + j) with (j + Z.of_nat i * 64) by lia.
    rewrite Z.div_add, Z.mod_add, Z.div_small, Z.mod_small, Z.add_0_l, Z.eqb_refl by lia. done.
  - by apply (Forall_lookup_1 _ _ _ _ Hws Hi).
Qed.

(** Setting or clearing one bit of one word. *)
Lemma flatten_set_bit ws i w j :
  Forall word ws -> ws !! i = Some w -> 0 <= j < 64 ->
  flatten (<[i := Z.lor w (2 ^ j)]> ws) = Z.lor (flatten ws) (2 ^ (64 * Z.of_nat i + j)).
Proof.
  intros Hws Hi Hj. pose proof (Forall_lookup_1 _ _ _ _ Hws Hi) as Hw.
  apply Z.bits_inj'. intros k Hk.
  rewrite flatten_insert_bits; [|done|by apply lor_word|eapply lookup_lt_Some; eauto|done].
  rewrite !Z.lor_spec, !Z.pow2_bits_eqb by lia.
  pose proof (Z.div_mod k 64 ltac:(lia)) as E. pose proof (Z.mod_pos_bound k 64 ltac:(lia)).
  destruct (Z.eqb_spec (k / 64) (Z.of_nat i)) as [Hq|Hq].
  - rewrite <- (flatten_lookup_bit ws i w (k mod 64)) by done.
    rewrite <- Hq, <- E. f_equal.
    destruct (Z.eqb_spec j (k mod 64)), (Z.eqb_spec (64 * (k / 64) + j) k); try done; lia.
  - destruct (Z.eqb_spec (64 * Z.of_nat i + j) k); [|by rewrite orb_false_r].
    destruct Hq. subst k. replace (64 * Z.of_nat i + j) with (j + Z.of_nat i * 64) by lia.
    rewrite Z.div_add, Z.div_small by lia. lia.
Qed.

Lemma flatten_clear_bit ws i w j :
  Forall word ws -> ws !! i = Some w -> 0 <= j < 64 ->
  flatten (<[i := Z.ldiff w (2 ^ j)]> ws) = Z.ldiff (flatten ws) (2 ^ (64 * Z.of_nat i + j)).
Proof.
  intros Hws Hi Hj. pose proof (Forall_lookup_1 _ _ _ _ Hws Hi) as Hw.
  apply Z.bits_inj'. intros k Hk.
  rewrite flatten_insert_bits; [|done|by apply ldiff_word|eapply lookup_lt_Some; eauto|done].
  rewrite !Z.ldiff_spec, !Z.pow2_bits_eqb by lia.
  pose proof (Z.div_mod k 64 ltac:(lia)) as E. pose proof (Z.mod_pos_bound k 64 ltac:(lia)).
  destruct (Z.eqb_spec (k / 64) (Z.of_nat i)) as [Hq|Hq].
  - rewrite <- (flatten_lookup_bit ws i w (k mod 64)) by done.
    rewrite <- Hq, <- E. do 2 f_equal.
    destruct (Z.eqb_spec j (k mod 64)), (Z.eqb_spec (64 * (k / 64) + j) k); try done; lia.
  - destruct (Z.eqb_spec (64 * Z.of_nat i + j) k); [|by rewrite andb_true_r].
    destruct Hq. subst k. replace (64 * Z.of_nat i + j) with (j + Z.of_nat i * 64) by lia.
    rewrite Z.div_add, Z.div_small by lia. lia.
Qed.

Lemma flatten_snoc ws w :
  Forall word ws ->
  flatten (ws ++ [w]) = flatten ws + 2 ^ (64 * Z.of_nat (length ws)) * w /\
  flatten ws < 2 ^ (64 * Z.of_nat (length ws)).
Proof.
  induction 1 as [|x ws Hx Hws [IH1 IH2]]; simpl; [lia|].
  rewrite IH1. replace (64 * Z.of_nat (S (length ws))) with (64 + 64 * Z.of_nat (length ws)) by lia.
  rewrite Z.pow_add_r by lia. unfold word in Hx. split; nia.
Qed.

Lemma log2_flatten_snoc ws w :
  Forall word ws -> 0 < w ->
  Z.log2 (flatten (ws ++ [w])) = 64 * Z.of_nat (length ws) + Z.log2 w.
Proof.
  intros Hws Hw. destruct (flatten_snoc ws w Hws) as [-> Hlt].
  pose proof (flatten_nonneg ws Hws) as H0. set (e := 64 * Z.of_nat (length ws)) in *.
  assert (0 <= e) by lia. assert (0 < 2 ^ e) by (apply Z.pow_pos_nonneg; lia).
  pose proof (Z.log2_spec w Hw) as [L1 L2]. pose proof (Z.log2_nonneg w).
  apply Z.log2_unique; [lia|]. split.
  - rewrite Z.pow_add_r by lia. nia.
  - replace (Z.succ (e + Z.log2 w)) with (e + Z.succ (Z.log2 w)) by lia.
    rewrite Z.pow_add_r by lia. nia.
Qed.

Lemma flatten_inj ws ws' :
  Forall word ws -> Forall word ws' -> length ws = length ws' -> flatten ws = flatten ws' -> ws = ws'.
Proof.
  intros H. revert ws'. induction H as [|w ws Hw Hws IH]; intros [|w' ws'] H' Hl E; try done.
  apply Forall_cons in H' as [Hw' Hws']. simpl in *. unfold word in *.
  f_equal; [lia|]. apply IH; [done|lia|lia].
Qed.

Lemma flatten_zeros n : flatten (replicate n 0) = 0.
Proof. induction n as [|n IH]; simpl; [done|]. rewrite IH. lia. Qed.

Lemma words_zeros n : Forall word (replicate n 0).
Proof. apply Forall_replicate. unfold word. lia. Qed.

(** ** Several words (src/memory_database/sequence_tracker.h) *)
Module BoundedSequenceTracker.
(** [MAX_SEQ_GAP] is the template argument. *)
Record t (MAX_SEQ_GAP : Z) := mk { last_committed_id : Z; sequence_number_vec : list Z }.
Arguments mk {MAX_SEQ_GAP}.
Arguments last_committed_id {MAX_SEQ_GAP}.
Arguments sequence_number_vec {MAX_SEQ_GAP}.

Definition NUM_WORDS (gap : Z) : nat := Z.to_nat (gap / 64 + 1).

Definition array_get_seq_num_offset (sequence_number last_committed_id : Z) : Z :=
  u64 (u64 (sequence_number - last_committed_id) / MAX_OPS_PER_TX - 1).

(** The loop from [i = n - 1] down to 0: [i] and the sum are [int32_t], the constant it
    is multiplied with is [uint32_t]. *)
Fixpoint increment_loop (n : nat) (bv : list Z) : Z :=
  match n with
  | O => 0
  | S i =>
      let val := default 0 (bv !! i) in
      if val =? 0 then increment_loop i bv
      else u32 (i32 (i32 (64 * Z.of_nat i) + (64 - clzll val)) * MAX_OPS_PER_TX)
  end.
Definition array_get_seq_num_increment (bv : list Z) : Z :=
  increment_loop (Z.to_nat (i32 (Z.of_nat (length bv) - 1) + 1)) bv.

Section Gap.
Context {gap : Z}.

Definition init (last : Z) : t gap := mk last (replicate (NUM_WORDS gap) 0).
Definition set_last_committed_id (s : t gap) (id : Z) : t gap := mk id (sequence_number_vec s).
Definition produce_commitment (s : t gap) : Z := last_committed_id s.

Definition reserve_sequence_number (s : t gap) (sequence_number : Z)
    : t gap * TransactionProcessingStatus :=
  if sequence_number <=? last_committed_id s then (s, SEQ_NUM_TOO_LOW)
  else
    let offset := array_get_seq_num_offset sequence_number (last_committed_id s) in
    if gap <=? offset then (s, SEQ_NUM_TOO_HIGH)
    else
      let word_offset := Z.to_nat (offset / 64) in
      let local_offset := offset mod 64 in
      let bit_mask := u64 (Z.shiftl 1 local_offset) in
      let prev := default 0 (sequence_number_vec s !! word_offset) in
      let s' := mk (last_committed_id s)
                   (<[word_offset := Z.lor prev bit_mask]> (sequence_number_vec s)) in
      if negb (Z.land prev bit_mask =? 0) then (s', SEQ_NUM_TEMP_IN_USE)
      else (s', SUCCESS).

Definition release_sequence_number (s : t gap) (sequence_number : Z) : result (t gap) :=
  if sequence_number <=? last_committed_id s then Throw "cannot release invalid seq num!"
  else
    let offset := array_get_seq_num_offset sequence_number (last_committed_id s) in
    if gap <=? offset then Throw "cannot release too far forward seq num!"
    else
      let word_offset := Z.to_nat (offset / 64) in
      let local_offset := offset mod 64 in
      let bit_mask := u64 (Z.lnot (u64 (Z.shiftl 1 local_offset))) in
      let prev := default 0 (sequence_number_vec s !! word_offset) in
      Ok (mk (last_committed_id s)
             (<[word_offset := Z.land prev bit_mask]> (sequence_number_vec s))).

Definition commit_sequence_number (s : t gap) (_ : Z) : t gap := s.

Definition tentative_commitment (s : t gap) : Z :=
  u64 (last_committed_id s + array_get_seq_num_increment (sequence_number_vec s)).

Definition commit (s : t gap) : t gap :=
  mk (u64 (last_committed_id s + array_get_seq_num_increment (sequence_number_vec s)))
     ((fun _ => 0) <$> sequence_number_vec s).

Definition rollback (s : t gap) : t gap :=
  mk (last_committed_id s) ((fun _ => 0) <$> sequence_number_vec s).

#[global] Instance tracker : SequenceTracker (t gap) := {
  st_init := init;
  st_set_last_committed_id := set_last_committed_id;
  st_produce_commitment := produce_commitment;
  st_tentative_commitment := tentative_commitment;
  st_reserve_sequence_number := reserve_sequence_number;
  st_release_sequence_number := release_sequence_number;
  st_commit_sequence_number := commit_sequence_number;
  st_commit := commit;
  st_rollback := rollback
}.

Definition abs (s : t gap) : Spec.t := Spec.mk (last_committed_id s) (flatten (sequence_number_vec s)).
Definition wf (s : t gap) : Prop :=
  Forall word (sequence_number_vec s) /\ length (sequence_number_vec s) = NUM_WORDS gap.
End Gap.

(** The gaps for which no increment is lost: the product of the last bit of
    [gap / 64 + 1] words fits in 32 bits. *)
Definition MAX_GAP : Z := 2 ^ 23.

Lemma increment_loop_spec n ws :
  Forall word ws -> (n <= length ws)%nat -> Z.of_nat n <= MAX_GAP / 64 + 1 ->
  increment_loop n ws = Spec.increment (flatten (take n ws)).
Proof.
  intros Hws. change (MAX_GAP / 64 + 1) with (2 ^ 17 + 1). induction n as [|i IH]; intros Hn Hmax; [done|].
  destruct (lookup_lt_is_Some_2 ws i ltac:(lia)) as [w Hw].
  rewrite (take_S_r _ _ _ Hw). cbn [increment_loop]. rewrite Hw. simpl.
  pose proof (Forall_lookup_1 _ _ _ _ Hws Hw) as [Hw0 Hw1].
  pose proof (Forall_take _ i _ Hws) as Ht.
  destruct (Z.eqb_spec w 0) as [->|Hne].
  - rewrite (proj1 (flatten_snoc _ 0 Ht)), Z.mul_0_r, Z.add_0_r. apply IH; lia.
  - unfold Spec.increment. assert (length (take i ws) = i) as El by (rewrite length_take; lia).
    destruct (flatten_snoc _ w Ht) as [Es _].
    assert (0 < 2 ^ (64 * Z.of_nat (length (take i ws)))) by (apply Z.pow_pos_nonneg; lia).
    pose proof (flatten_nonneg _ Ht).
    destruct (Z.eqb_spec (flatten (take i ws ++ [w])) 0); [nia|].
    rewrite log2_flatten_snoc, El by (done || lia). unfold clzll, MAX_OPS_PER_TX.
    pose proof (Z.log2_nonneg w). assert (Z.log2 w < 64) by (apply Z.log2_lt_pow2; lia).
    rewrite (i32_id (64 * _)), i32_id, u32_id, u64_id by (unfold in_u64; lia). lia.
Qed.

Lemma words_increment_spec gap ws :
  0 < gap <= MAX_GAP -> Forall word ws -> length ws = NUM_WORDS gap ->
  array_get_seq_num_increment ws = Spec.increment (flatten ws).
Proof.
  intros Hgap Hws Hl. unfold array_get_seq_num_increment, NUM_WORDS in *.
  assert (Hmax : gap / 64 <= MAX_GAP / 64) by (apply Z.div_le_mono; lia). change (MAX_GAP / 64) with (2 ^ 17) in Hmax.
  assert (0 <= gap / 64) by (apply Z.div_pos; lia).
  rewrite i32_id by lia. rewrite increment_loop_spec, take_ge; [done|lia|done|lia|].
  change (MAX_GAP / 64) with (2 ^ 17). lia.
Qed.

(** The word and the bit of an accepted offset. *)
Lemma offset_word gap (ws : list Z) off :
  0 <= off < gap -> length ws = NUM_WORDS gap -> Forall word ws ->
  exists w, ws !! Z.to_nat (off / 64) = Some w /\ word w /\ 0 <= off mod 64 < 64 /\
    64 * Z.of_nat (Z.to_nat (off / 64)) + off mod 64 = off.
Proof.
  intros Hoff Hl Hws. unfold NUM_WORDS in Hl.
  pose proof (Z.div_mod off 64 ltac:(lia)). pose proof (Z.mod_pos_bound off 64 ltac:(lia)).
  assert (0 <= off / 64) by (apply Z.div_pos; lia).
  assert (off / 64 <= gap / 64) by (apply Z.div_le_mono; lia).
  destruct (lookup_lt_is_Some_2 ws (Z.to_nat (off / 64)) ltac:(lia)) as [w Hw].
  exists w. repeat split; [done|by apply (Forall_lookup_1 _ _ _ _ Hws Hw)..|lia|lia|lia].
Qed.

Lemma zeroes_wf (ws : list Z) : (fun _ : Z => 0) <$> ws = replicate (length ws) 0.
Proof. induction ws as [|w ws IH]; simpl; [done|]. by rewrite <- IH. Qed.

Lemma reserve_refines gap (s : t gap) n :
  wf s ->
  wf (reserve_sequence_number s n).1 /\
  (abs (reserve_sequence_number s n).1, (reserve_sequence_number s n).2) = Spec.reserve gap (abs s) n.
Proof.
  destruct s as [l ws]. intros [Hws Hl]. unfold wf, abs, reserve_sequence_number, Spec.reserve in *. simpl in *.
  destruct (n <=? l); [done|].
  change (array_get_seq_num_offset n l) with (Spec.offset n l).
  destruct (Z.leb_spec gap (Spec.offset n l)) as [|Hlo]; [done|].
  assert (0 <= Spec.offset n l) as H0 by apply u64_range.
  destruct (offset_word gap ws (Spec.offset n l)) as (w & Hw & Hword & Hj & Eoff); [lia|done..|].
  rewrite Hw. simpl. rewrite pow2_word, land_pow2_zero, negb_involutive by lia.
  pose proof (flatten_lookup_bit ws _ w _ Hws Hw Hj) as Hbit. rewrite Eoff in Hbit. rewrite Hbit.
  assert (Forall word (<[Z.to_nat (Spec.offset n l / 64) := Z.lor w (2 ^ (Spec.offset n l mod 64))]> ws)).
  { apply Forall_insert; [done|]. by apply lor_word. }
  destruct (Z.testbit w (Spec.offset n l mod 64)) eqn:E; cbn [fst snd sequence_number_vec last_committed_id];
    rewrite (flatten_set_bit ws _ w _ Hws Hw Hj), Eoff, length_insert; split; try done.
  by rewrite lor_pow2_set by (done || congruence).
Qed.

Lemma release_refines gap (s : t gap) n :
  wf s ->
  match release_sequence_number s n, Spec.release gap (abs s) n with
  | Ok t', Ok s' => wf t' /\ abs t' = s'
  | Throw _, Throw _ => True
  | _, _ => False
  end.
Proof.
  destruct s as [l ws]. intros [Hws Hl]. unfold wf, abs, release_sequence_number, Spec.release in *. simpl in *.
  destruct (n <=? l); [done|].
  change (array_get_seq_num_offset n l) with (Spec.offset n l).
  destruct (Z.leb_spec gap (Spec.offset n l)) as [|Hlo]; [done|].
  assert (0 <= Spec.offset n l) as H0 by apply u64_range.
  destruct (offset_word gap ws (Spec.offset n l)) as (w & Hw & Hword & Hj & Eoff); [lia|done..|].
  rewrite Hw. simpl. rewrite pow2_word, land_not_mask by (done || lia).
  rewrite (flatten_clear_bit ws _ w _ Hws Hw Hj), Eoff, length_insert. split; [|done]. split; [|done].
  apply Forall_insert; [done|]. by apply ldiff_word.
Qed.

#[global] Program Instance refines (gap : Z) (Hgap : 0 < gap <= MAX_GAP) : SequenceTrackerRefines (t gap) := {
  st_gap := gap;
  st_wf := wf;
  st_abs := abs
}.
Next Obligation. intros gap Hgap. unfold MAX_GAP in Hgap. lia. Qed.
Next Obligation. intros gap _ s [H _]. by apply flatten_nonneg. Qed.
Next Obligation.
  intros gap _ [l ws] [l' ws'] [H1 L1] [H2 L2]. unfold abs. simpl in *. intros [= -> E].
  f_equal. apply flatten_inj; congruence.
Qed.
Next Obligation.
  intros gap _ l. unfold wf, abs. simpl. rewrite flatten_zeros, length_replicate.
  split; [split; [apply words_zeros|done]|done].
Qed.
Next Obligation. done. Qed.
Next Obligation. done. Qed.
Next Obligation.
  intros gap Hgap [l ws] [Hws Hl]. simpl in *. unfold tentative_commitment, Spec.tentative, abs. simpl.
  by rewrite (words_increment_spec gap).
Qed.
Next Obligation. intros gap _ s n Hwf _ _. by apply reserve_refines. Qed.
Next Obligation. intros gap _ s n Hwf _ _. by apply release_refines. Qed.
Next Obligation. done. Qed.
Next Obligation.
  intros gap Hgap [l ws] [Hws Hl]. unfold wf, abs, commit, Spec.commit, Spec.tentative. simpl in *.
  rewrite (words_increment_spec gap), zeroes_wf, flatten_zeros, length_replicate by done.
  split; [split; [apply words_zeros|done]|done].
Qed.
Next Obligation.
  intros gap _ [l ws] [Hws Hl]. unfold wf, abs, rollback, Spec.rollback. simpl in *.
  rewrite zeroes_wf, flatten_zeros, length_replicate.
  split; [split; [apply words_zeros|done]|done].
Qed.
End BoundedSequenceTracker.

(** ** Traces of tracker operations *)
Inductive tracker_op :=
| Reserve (n : Z)
| Release (n : Z)
| CommitNumber (n : Z)
| Commit
| Rollback.

Inductive tracker_obs :=
| Status (r : TransactionProcessingStatus)
| Done (tentative committed : Z)
| Thrown.

Definition op_in_u64 (o : tracker_op) : Prop :=
  match o with Reserve n | Release n | CommitNumber n => in_u64 n | _ => True end.

Section Traces.
Context {T : Type} `{SequenceTracker T}.

Definition tracker_step (t : T) (o : tracker_op) : result T :=
  match o with
  | Reserve n => Ok (st_reserve_sequence_number t n).1
  | Release n => st_release_sequence_number t n
  | CommitNumber n => Ok (st_commit_sequence_number t n)
  | Commit => Ok (st_commit t)
  | Rollback => Ok (st_rollback t)
  end.

Fixpoint tracker_run (t : T) (ops : list tracker_op) : result T :=
  match ops with
  | [] => Ok t
  | o :: ops => let* t' := tracker_step t o in tracker_run t' ops
  end.

(** Everything a caller can see; an exception ends the trace. *)
Fixpoint tracker_observe (t : T) (ops : list tracker_op) : list tracker_obs :=
  match ops with
  | [] => []
  | Reserve n :: ops =>
      let '(t', r) := st_reserve_sequence_number t n in Status r :: tracker_observe t' ops
  | o :: ops =>
      match tracker_step t o with
      | Ok t' => Done (st_tentative_commitment t') (st_produce_commitment t') :: tracker_observe t' ops
      | Throw _ => [Thrown]
      end
  end.
End Traces.

(** The contract as an implementation of the interface. *)
Definition spec_tracker (gap : Z) : SequenceTracker Spec.t := {|
  st_init l := Spec.mk l 0;
  st_set_last_committed_id s l := Spec.mk l (Spec.mask s);
  st_produce_commitment := Spec.last;
  st_tentative_commitment := Spec.tentative;
  st_reserve_sequence_number := Spec.reserve gap;
  st_release_sequence_number := Spec.release gap;
  st_commit_sequence_number s _ := s;
  st_commit := Spec.commit;
  st_rollback := Spec.rollback
|}.

Section SpecTraces.
Variable gap : Z.
Hypothesis Hgap : 0 <= gap <= 2 ^ 63.
Local Existing Instance spec_tracker.

Lemma spec_step_wf s o s' :
  Spec.wf s -> op_in_u64 o -> @tracker_step _ (spec_tracker gap) s o = Ok s' -> Spec.wf s'.
Proof.
  intros Hwf Ho. destruct o; simpl; intros E.
  - destruct (Spec.reserve gap s n) as [s1 r] eqn:R. injection E as <-. by eapply Spec.reserve_wf.
  - by eapply Spec.release_wf.
  - by injection E as <-.
  - injection E as <-. by apply Spec.commit_wf.
  - injection E as <-. by apply Spec.rollback_wf.
Qed.

(** Committing never lowers the committed id. *)
Lemma spec_step_last s o s' :
  Spec.wf s -> @tracker_step _ (spec_tracker gap) s o = Ok s' -> Spec.last s <= Spec.last s'.
Proof.
  intros Hwf. destruct o; simpl.
  - intros [= <-]. unfold Spec.reserve. by repeat case_match.
  - unfold Spec.release. by repeat case_match; intros; simplify_eq.
  - by intros [= <-].
  - intros [= <-]. simpl. rewrite Spec.tentative_eq by done. pose proof (Z.log2_nonneg (Spec.mask s)).
    destruct (_ =? 0); lia.
  - by intros [= <-].
Qed.

Lemma spec_run_last s ops s' :
  Spec.wf s -> Forall op_in_u64 ops -> @tracker_run _ (spec_tracker gap) s ops = Ok s' ->
  Spec.wf s' /\ Spec.last s <= Spec.last s'.
Proof.
  intros Hwf Hops. revert s Hwf. induction Hops as [|o ops Ho Hops IH]; intros s Hwf.
  - intros [= <-]. done.
  - cbn [tracker_run]. rewrite result_bind_Ok. intros (s1 & E1 & E2).
    destruct (IH s1) as [? ?]; [by eapply spec_step_wf|done|].
    split; [done|]. etrans; [by eapply spec_step_last|done].
Qed.

(** Operations that leave a reservation in place. *)
Definition keeps (s : Spec.t) (n : Z) (o : tracker_op) : Prop :=
  match o with
  | Release m => Spec.offset m (Spec.last s) <> Spec.offset n (Spec.last s)
  | Reserve _ | CommitNumber _ => True
  | Commit | Rollback => False
  end.

Lemma spec_step_keeps s n o s' :
  keeps s n o -> @tracker_step _ (spec_tracker gap) s o = Ok s' ->
  Spec.last s' = Spec.last s /\
  (Z.testbit (Spec.mask s) (Spec.offset n (Spec.last s)) = true ->
   Z.testbit (Spec.mask s') (Spec.offset n (Spec.last s)) = true).
Proof.
  assert (forall m, 0 <= Spec.offset m (Spec.last s)) as H0 by (intros; apply u64_range).
  destruct o; simpl; intros Hk E; try done.
  - injection E as <-. unfold Spec.reserve. repeat case_match; try done. simpl.
    split; [done|]. intros Hb. by rewrite Z.lor_spec, Hb.
  - unfold Spec.release in E. repeat case_match; simplify_eq. simpl.
    split; [done|]. intros Hb. by rewrite Z.ldiff_spec, Hb, Z.pow2_bits_false.
  - by injection E as <-.
Qed.

Lemma spec_run_keeps s n ops s' :
  Forall (keeps s n) ops -> @tracker_run _ (spec_tracker gap) s ops = Ok s' ->
  Z.testbit (Spec.mask s) (Spec.offset n (Spec.last s)) = true ->
  Spec.last s' = Spec.last s /\ Z.testbit (Spec.mask s') (Spec.offset n (Spec.last s)) = true.
Proof.
  intros Hk. assert (exists l, Spec.last s = l) as [l El] by eauto.
  revert s El Hk. induction ops as [|o ops IH]; intros s El Hk.
  - intros [= <-]. done.
  - apply Forall_cons in Hk as [Ho Hk]. cbn [tracker_run]. rewrite result_bind_Ok.
    intros (s1 & E1 & E2) Hb. destruct (spec_step_keeps _ _ _ _ Ho E1) as [El1 Hb1].
    destruct (IH s1) as [? ?]; [congruence| |done|rewrite El1; by apply Hb1|].
    + eapply Forall_impl; [exact Hk|]. intros [] ; simpl; by rewrite ?El1.
    + rewrite El1 in *. done.
Qed.

(** A reservation that survives until a commit moves the committed id to
    within one slot of the reserved number. *)
Lemma spec_commit_covers s n :
  Spec.wf s -> in_u64 n -> Spec.last s < n ->
  Z.testbit (Spec.mask s) (Spec.offset n (Spec.last s)) = true ->
  n < Spec.last (Spec.commit s) + 256.
Proof.
  intros Hwf Hn Hl Hb. simpl. rewrite Spec.tentative_eq by done.
  destruct Hwf as [H1 H2 H3].
  assert (Hm : Spec.mask s <> 0) by (intros E; by rewrite E, Z.bits_0 in Hb).
  destruct (Z.eqb_spec (Spec.mask s) 0); [done|]. unfold in_u64 in Hn.
  assert (Spec.offset n (Spec.last s) <= Z.log2 (Spec.mask s)).
  { destruct (Z.leb_spec (Spec.offset n (Spec.last s)) (Z.log2 (Spec.mask s))) as [|Hgt]; [done|].
    rewrite Z.bits_above_log2 in Hb by lia. done. }
  destruct (Spec.offset_cases n (Spec.last s)) as [[? ?]|(? & ? & ?)]; lia.
Qed.

Lemma spec_no_replay s n ops1 s1 ops2 s2 :
  Spec.wf s -> in_u64 n ->
  (Spec.reserve gap s n).2 = SUCCESS ->
  Forall (keeps s n) ops1 -> Forall op_in_u64 ops1 ->
  @tracker_run _ (spec_tracker gap) (Spec.reserve gap s n).1 ops1 = Ok s1 ->
  Forall op_in_u64 ops2 ->
  @tracker_run _ (spec_tracker gap) (Spec.commit s1) ops2 = Ok s2 ->
  (Spec.reserve gap s2 n).2 = SEQ_NUM_TOO_LOW \/ (Spec.reserve gap s2 n).2 = SEQ_NUM_TOO_HIGH.
Proof.
  intros Hwf Hn HS Hk H1 R1 H2 R2. destruct (Spec.reserve gap s n) as [s0 r] eqn:E. simpl in *. subst r.
  pose proof (Spec.reserve_wf gap s n s0 _ Hgap Hwf Hn E) as Hwf0.
  unfold Spec.reserve in E.
  destruct (Z.leb_spec n (Spec.last s)); [done|]. destruct (gap <=? _); [done|].
  destruct (Z.testbit _ _); [done|]. injection E as <-.
  destruct (spec_run_last _ _ _ Hwf0 H1 R1) as [Hwf1 _].
  assert (0 <= Spec.offset n (Spec.last s)) by apply u64_range.
  destruct (spec_run_keeps (Spec.mk (Spec.last s) (Z.lor (Spec.mask s) (2 ^ Spec.offset n (Spec.last s)))) n ops1 s1 Hk R1) as [El Hb].
  { simpl. by rewrite Z.lor_spec, Z.pow2_bits_true, orb_true_r. }
  simpl in El, Hb. pose proof (spec_commit_covers s1 n Hwf1 Hn) as Hc.
  rewrite El in Hc. specialize (Hc ltac:(done) Hb).
  destruct (spec_run_last _ _ _ (Spec.commit_wf _ Hwf1) H2 R2) as [Hwf2 Hle].
  destruct Hn, (Spec.wf_last _ Hwf2).
  apply Spec.reserve_rejects; lia.
Qed.
End SpecTraces.

(** ** Refinement lifts to traces *)
Section Refine.
Context {T : Type} `{SequenceTrackerRefines T}.

Lemma refine_step t o :
  st_wf t -> op_in_u64 o -> in_u64 (Spec.last (st_abs t)) ->
  match tracker_step t o, @tracker_step _ (spec_tracker st_gap) (st_abs t) o with
  | Ok t', Ok s' => st_wf t' /\ st_abs t' = s'
  | Throw _, Throw _ => True
  | _, _ => False
  end.
Proof.
  intros Hwf Ho Hl. destruct o; simpl.
  - destruct (st_reserve_refines t n Hwf Ho Hl) as [? <-]. done.
  - by apply st_release_refines.
  - by rewrite st_commit_number_refines.
  - by apply st_commit_refines.
  - by apply st_rollback_refines.
Qed.

Lemma refine_run t ops t' :
  st_wf t -> Spec.wf (st_abs t) -> Forall op_in_u64 ops -> tracker_run t ops = Ok t' ->
  st_wf t' /\ @tracker_run _ (spec_tracker st_gap) (st_abs t) ops = Ok (st_abs t').
Proof.
  pose proof st_gap_bound as Hg. intros Hwf Hs Hops. revert t Hwf Hs.
  induction Hops as [|o ops Ho Hops IH]; intros t Hwf Hs.
  - intros [= <-]. done.
  - cbn [tracker_run]. rewrite result_bind_Ok. intros (t1 & E1 & E2).
    pose proof (refine_step t o Hwf Ho (Spec.wf_last _ Hs)) as R. rewrite E1 in R.
    destruct (tracker_step (st_abs t) o) as [s1|] eqn:E3; [|done]. destruct R as [Hwf1 <-]. simpl.
    apply IH; [done| |done]. eapply (spec_step_wf st_gap); [lia|done|done|exact E3].
Qed.

Lemma refine_observe t ops :
  st_wf t -> Spec.wf (st_abs t) -> Forall op_in_u64 ops ->
  tracker_observe t ops = @tracker_observe _ (spec_tracker st_gap) (st_abs t) ops.
Proof.
  pose proof st_gap_bound as Hg. assert (Hg' : 0 <= st_gap <= 2 ^ 63) by lia.
  intros Hwf Hs Hops. revert t Hwf Hs.
  induction Hops as [|o ops Ho Hops IH]; intros t Hwf Hs; [done|].
  pose proof (refine_step t o Hwf Ho (Spec.wf_last _ Hs)) as R.
  pose proof (fun s1 => spec_step_wf st_gap Hg' (st_abs t) o s1 Hs Ho) as W.
  destruct o; cbn [tracker_observe].
  1: { pose proof (st_reserve_refines t n Hwf Ho (Spec.wf_last _ Hs)) as [? E].
       simpl in R. destruct R as [Hwf1 E1]. simpl. rewrite <- E. simpl.
       destruct (st_reserve_sequence_number t n) as [t1 r] eqn:Et. simpl in *. f_equal. apply IH; [done|].
       apply W. simpl. by rewrite <- E. }
  all: destruct (tracker_step t _) as [t1|?] eqn:E1, (tracker_step (st_abs t) _) as [s1|?] eqn:E2; try done.
  all: destruct R as [Hwf1 <-]; rewrite st_tentative_refines, st_produce_refines by done.
  all: f_equal; apply IH; [done|]; by apply W.
Qed.
End Refine.

(** ** Properties *)
Module SeqProps.

Definition in_range {T} `{SequenceTrackerRefines T} (t : T) : Prop := st_wf t /\ Spec.wf (st_abs t).

(** No replay: for either implementation of the tracker, once a sequence
    number has been reserved and the block that reserved it commits (any
    other reservations, releases of other slots and per-transaction commits
    may come in between), no later sequence of operations ever makes the
    tracker accept that number again. *)
Lemma sequence_number_never_replayed {T} `{SequenceTrackerRefines T} (t t1 t2 : T) n ops1 ops2 :
  in_range t -> in_u64 n ->
  (st_reserve_sequence_number t n).2 = SUCCESS ->
  Forall op_in_u64 ops1 -> Forall (keeps (st_abs t) n) ops1 ->
  tracker_run (st_reserve_sequence_number t n).1 ops1 = Ok t1 ->
  Forall op_in_u64 ops2 ->
  tracker_run (st_commit t1) ops2 = Ok t2 ->
  (st_reserve_sequence_number t2 n).2 = SEQ_NUM_TOO_LOW \/
  (st_reserve_sequence_number t2 n).2 = SEQ_NUM_TOO_HIGH.
Proof.
  intros [Hwf Hs] Hn HS H1 Hk R1 H2 R2. pose proof st_gap_bound as Hg.
  assert (Hg' : 0 <= st_gap <= 2 ^ 63) by lia.
  destruct (st_reserve_refines t n Hwf Hn (Spec.wf_last _ Hs)) as [Hwf0 E].
  pose proof (Spec.reserve_wf st_gap (st_abs t) n _ _ Hg' Hs Hn (eq_sym E)) as Hs0.
  destruct (refine_run _ _ _ Hwf0 Hs0 H1 R1) as [Hwf1 R1'].
  destruct (spec_run_last st_gap Hg' _ _ _ Hs0 H1 R1') as [Hs1 _].
  destruct (st_commit_refines t1 Hwf1) as [Hwfc Ec].
  assert (Spec.wf (st_abs (st_commit t1))) as Hsc by (rewrite Ec; by apply Spec.commit_wf).
  destruct (refine_run _ _ _ Hwfc Hsc H2 R2) as [Hwf2 R2'].
  destruct (spec_run_last st_gap Hg' _ _ _ Hsc H2 R2') as [Hs2 _].
  destruct (st_reserve_refines t2 n Hwf2 Hn (Spec.wf_last _ Hs2)) as [_ E2].
  assert ((Spec.reserve st_gap (st_abs t2) n).2 = (st_reserve_sequence_number t2 n).2) as <- by (by rewrite <- E2).
  rewrite Ec in R2'.
  eapply (spec_no_replay st_gap Hg' (st_abs t) n ops1 (st_abs t1) ops2); try done.
  - by rewrite <- E.
  - by rewrite <- E.
Qed.

(** C38.  Both trackers implement the contract: from any initial committed id,
    every trace of operations (reservations with their statuses, releases
    with their exceptions, tentative and real commits, rollbacks) shows a
    caller exactly what the abstract tracker with one unbounded bit mask
    shows: the one-word tracker with gap 64 and the array tracker with a gap of at
    most [2^23].  (The array tracker computes its increment in 32 bits, so with more
    than [2^24] offsets it would lose increments.) *)
Theorem trackers_refine_contract gap l ops :
  0 < gap <= BoundedSequenceTracker.MAX_GAP -> in_u64 l -> Forall op_in_u64 ops ->
  tracker_observe (UInt64SequenceTracker.init l) ops
    = @tracker_observe _ (spec_tracker 64) (Spec.mk l 0) ops /\
  tracker_observe (BoundedSequenceTracker.init (gap := gap) l) ops
    = @tracker_observe _ (spec_tracker gap) (Spec.mk l 0) ops.
Proof.
  intros Hgap Hl Hops. assert (Spec.wf (Spec.mk l 0)) by (by constructor).
  pose (R := BoundedSequenceTracker.refines gap Hgap). split.
  - destruct (st_init_refines (T := UInt64SequenceTracker.t) l) as [Hwf E].
    exact (refine_observe (T := UInt64SequenceTracker.t) _ ops Hwf ltac:(by rewrite E) Hops).
  - destruct (st_init_refines (T := BoundedSequenceTracker.t gap) l) as [Hwf E].
    pose proof (refine_observe (T := BoundedSequenceTracker.t gap) _ ops Hwf ltac:(by rewrite E) Hops) as O.
    rewrite E in O. exact O.
Qed.

Lemma trackers_refine_contract_witness :
  tracker_observe (BoundedSequenceTracker.init (gap := 100) 256) [Reserve (256 * 72); Commit]
    = [Status SUCCESS; Done (256 * 72) (256 * 72)] /\
  tracker_observe (UInt64SequenceTracker.init 256) [Reserve (256 * 72); Commit]
    = [Status SEQ_NUM_TOO_HIGH; Done 256 256].
Proof.
  destruct (trackers_refine_contract 100 256 [Reserve (256 * 72); Commit]) as [E1 E2];
    [unfold BoundedSequenceTracker.MAX_GAP; lia|unfold in_u64; lia|repeat constructor; unfold in_u64; simpl; lia|].
  split; [rewrite E2|rewrite E1]; reflexivity.
Defined.
End SeqProps.
