(* ===== verification/Accounts.v ===== *)
(** * Accounts (src/memory_database/user_account.h, .cc and account_vector.h, .cc)

    [Module UserAccount]: the asset vectors, the sequence tracker (through the
    class [SequenceTracker]) and every operation, with the equivalence [equiv]
    of accounts that differ only in unused slots of [uncommitted_assets].
    [Module AccountVector]: the row-structured vector of accounts, and its
    abstraction to a list. *)
From stdpp Require Import base gmap list strings.
From S2P Require Import Prelude Types Asset SeqTracker.

Module UserAccount.
Record t (T : Type) := mk {
  owned_assets : list RevertableAsset.t;
  uncommitted_assets : list RevertableAsset.t;
  seq_tracker : T;
  owner : Z;
  pk : PublicKey
}.
Arguments mk {T}.
Arguments owned_assets {T}.
Arguments uncommitted_assets {T}.
Arguments seq_tracker {T}.
Arguments owner {T}.
Arguments pk {T}.

Section Ops.
Context {T : Type} `{SequenceTracker T}.
Implicit Types a b : t T.

(** [UserAccount(owner, public_key)] and [UserAccount()]. *)
Definition new (owner : Z) (public_key : PublicKey) : t T :=
  mk [] [] (st_init 0) owner public_key.
Definition default_account : t T := mk [] [] (st_init UINT64_MAX) 0 (replicate 32 0).

Definition set_assets a (owned uncommitted : list RevertableAsset.t) : t T :=
  mk owned uncommitted (seq_tracker a) (owner a) (pk a).
Definition set_tracker a (s : T) : t T :=
  mk (owned_assets a) (uncommitted_assets a) s (owner a) (pk a).

Definition set_owner a (owner : Z) (pk : PublicKey) (last_committed_id : Z) : t T :=
  mk (owned_assets a) (uncommitted_assets a)
    (st_set_last_committed_id (seq_tracker a) last_committed_id) owner pk.

(** [while (asset >= owned_assets_size + uncommitted_assets.size())
    uncommitted_assets.emplace_back();] with fuel [asset + 1]. *)
Fixpoint grow_loop (fuel : nat) (owned_size asset : nat) (u : list RevertableAsset.t)
    : list RevertableAsset.t :=
  match fuel with
  | O => u
  | S fuel =>
      if decide (owned_size + length u <= asset)%nat
      then grow_loop fuel owned_size asset (u ++ [RevertableAsset.zero])
      else u
  end.

Definition operate_on_asset {R} a (asset amount : Z)
    (func : RevertableAsset.t -> Z -> RevertableAsset.t * R) : t T * R :=
  let asset := Z.to_nat asset in
  let owned_assets_size := length (owned_assets a) in
  if decide (owned_assets_size <= asset)%nat then
    let u := grow_loop (S asset) owned_assets_size asset (uncommitted_assets a) in
    let idx := (asset - owned_assets_size)%nat in
    let '(x, r) := func (default RevertableAsset.zero (u !! idx)) amount in
    (set_assets a (owned_assets a) (<[idx := x]> u), r)
  else
    let '(x, r) := func (default RevertableAsset.zero (owned_assets a !! asset)) amount in
    (set_assets a (<[asset := x]> (owned_assets a)) (uncommitted_assets a), r).

Definition transfer_available a (asset amount : Z) : t T :=
  (operate_on_asset a asset amount (fun x n => (RevertableAsset.transfer_available x n, tt))).1.
Definition escrow a (asset amount : Z) : t T :=
  (operate_on_asset a asset amount (fun x n => (RevertableAsset.escrow x n, tt))).1.
Definition conditional_transfer_available a (asset amount : Z) : t T * bool :=
  operate_on_asset a asset amount RevertableAsset.conditional_transfer_available.
Definition conditional_escrow a (asset amount : Z) : t T * bool :=
  operate_on_asset a asset amount RevertableAsset.conditional_escrow.

Definition lookup_available_balance a (asset : Z) : Z :=
  match owned_assets a !! Z.to_nat asset with
  | Some x => RevertableAsset.lookup_available_balance x
  | None => 0
  end.

Definition get_last_committed_seq_number a : Z := st_produce_commitment (seq_tracker a).

Definition reserve_sequence_number a (sequence_number : Z) : t T * TransactionProcessingStatus :=
  let '(s, r) := st_reserve_sequence_number (seq_tracker a) sequence_number in (set_tracker a s, r).
Definition release_sequence_number a (sequence_number : Z) : result (t T) :=
  let* s := st_release_sequence_number (seq_tracker a) sequence_number in Ok (set_tracker a s).
Definition commit_sequence_number a (sequence_number : Z) : t T :=
  set_tracker a (st_commit_sequence_number (seq_tracker a) sequence_number).

(** New assets are appended with their committed amount. *)
Definition commit a : t T :=
  mk (((fun x => (RevertableAsset.commit x).1) <$> owned_assets a) ++
      ((fun x => RevertableAsset.of_amount (RevertableAsset.commit x).2) <$> uncommitted_assets a))
     [] (st_commit (seq_tracker a)) (owner a) (pk a).

Definition rollback a : t T :=
  mk (RevertableAsset.rollback <$> owned_assets a) [] (st_rollback (seq_tracker a)) (owner a) (pk a).

Definition in_valid_state a : bool :=
  forallb RevertableAsset.in_valid_state (owned_assets a) &&
  forallb RevertableAsset.in_valid_state (uncommitted_assets a).

(** [for (uint8_t i = 0; i < v.size(); i++) output.assets.push_back(f(i, v[i]))]:
    [None] when the fuel runs out before the loop exits. *)
Fixpoint commitment_loop (fuel : nat) (i : Z) (f : Z -> RevertableAsset.t -> AssetCommitment)
    (v : list RevertableAsset.t) (out : list AssetCommitment) : option (list AssetCommitment) :=
  match v !! Z.to_nat i with
  | None => Some out
  | Some x =>
      match fuel with
      | O => None
      | S fuel => commitment_loop fuel (u8 (i + 1)) f v (out ++ [f i x])
      end
  end.

Definition produce_commitment (fuel : nat) a : option AccountCommitment :=
  l ← commitment_loop fuel 0 (fun i x => RevertableAsset.produce_commitment x i) (owned_assets a) [];
  Some (mkAccountCommitment (owner a) l (st_produce_commitment (seq_tracker a)) (pk a)).

Definition tentative_commitment (fuel : nat) a : option AccountCommitment :=
  l ← commitment_loop fuel 0 (fun i x => RevertableAsset.tentative_commitment x i) (owned_assets a) [];
  l ← commitment_loop fuel 0
        (fun i x => RevertableAsset.tentative_commitment x (u32 (i + Z.of_nat (length (owned_assets a)))))
        (uncommitted_assets a) l;
  Some (mkAccountCommitment (owner a) l (st_tentative_commitment (seq_tracker a)) (pk a)).

(** [while (owned_assets.size() < asset) owned_assets.emplace_back(0);] *)
Fixpoint pad_loop (fuel : nat) (asset : nat) (v : list RevertableAsset.t) : list RevertableAsset.t :=
  match fuel with
  | O => v
  | S fuel =>
      if decide (length v < asset)%nat
      then pad_loop fuel asset (v ++ [RevertableAsset.of_amount 0]) else v
  end.

Fixpoint load_assets (l : list AssetCommitment) (v : list RevertableAsset.t)
    : result (list RevertableAsset.t) :=
  match l with
  | [] => Ok v
  | c :: l =>
      if Types.asset c <? Z.of_nat (length v) then Throw "assets in commitment should be sorted"
      else
        let n := Z.to_nat (Types.asset c) in
        load_assets l (pad_loop n n v ++ [RevertableAsset.of_amount (i64 (amount_available c))])
  end.

(** [UserAccount(const AccountCommitment& commitment)] *)
Definition of_commitment (c : AccountCommitment) : result (t T) :=
  let* v := load_assets (assets c) [] in
  Ok (mk v [] (st_init (last_committed_id c)) (ac_owner c) (ac_pk c)).

(** ** Balances *)
Definition asset_of a (asset : nat) : RevertableAsset.t :=
  if decide (asset < length (owned_assets a))%nat
  then default RevertableAsset.zero (owned_assets a !! asset)
  else default RevertableAsset.zero (uncommitted_assets a !! (asset - length (owned_assets a))%nat).

Definition balance a (asset : Z) : Z := RevertableAsset.available (asset_of a (Z.to_nat asset)).

(** Accounts that differ only in trailing unused slots of
    [uncommitted_assets]: no operation before the next commit can tell
    them apart. *)
Record equiv a b : Prop := {
  equiv_owned : owned_assets a = owned_assets b;
  equiv_uncommitted i : default RevertableAsset.zero (uncommitted_assets a !! i)
                        = default RevertableAsset.zero (uncommitted_assets b !! i);
  equiv_tracker : seq_tracker a = seq_tracker b;
  equiv_owner : owner a = owner b;
  equiv_pk : pk a = pk b
}.

#[global] Instance account_equiv : Equiv (t T) := equiv.

#[global] Instance account_equivalence : Equivalence (≡@{t T}).
Proof.
  split.
  - intros a. by constructor.
  - intros a b []. by constructor.
  - intros a b c [] []. constructor; intros; etrans; eauto.
Qed.

Definition wf a : Prop :=
  Forall RevertableAsset.wf (owned_assets a) /\ Forall RevertableAsset.wf (uncommitted_assets a).

(** ** Lemmas *)
Lemma grow_loop_spec fuel n m u :
  (m < n + length u + fuel)%nat ->
  grow_loop fuel n m u = u ++ replicate (S m - n - length u) RevertableAsset.zero.
Proof.
  revert u. induction fuel as [|fuel IH]; intros u Hf; simpl.
  - replace (S m - n - length u)%nat with 0%nat by lia. by rewrite app_nil_r.
  - destruct (decide _).
    + rewrite IH, length_app by (rewrite length_app; simpl; lia). rewrite <- app_assoc. simpl.
      f_equal. change (RevertableAsset.zero :: ?l) with ([RevertableAsset.zero] ++ l).
      replace (S m - n - length u)%nat with (S (S m - n - (length u + 1)))%nat by lia. done.
    + replace (S m - n - length u)%nat with 0%nat by lia. by rewrite app_nil_r.
Qed.

Lemma grown_lookup u k i :
  default RevertableAsset.zero ((u ++ replicate k RevertableAsset.zero) !! i)
  = default RevertableAsset.zero (u !! i).
Proof.
  destruct (decide (i < length u)%nat).
  - by rewrite lookup_app_l by done.
  - rewrite lookup_app_r, (lookup_ge_None_2 u) by lia.
    destruct (replicate k _ !! _) eqn:E; [|done]. by apply lookup_replicate in E as [-> _].
Qed.

(** An operation on one asset changes that balance and nothing else. *)
Lemma operate_on_asset_spec {R} a asset amount (func : RevertableAsset.t -> Z -> RevertableAsset.t * R) :
  let '(a', r) := operate_on_asset a asset amount func in
  r = (func (asset_of a (Z.to_nat asset)) amount).2 /\
  (forall i, asset_of a' i =
    if decide (i = Z.to_nat asset) then (func (asset_of a (Z.to_nat asset)) amount).1 else asset_of a i) /\
  length (owned_assets a') = length (owned_assets a) /\
  seq_tracker a' = seq_tracker a /\ owner a' = owner a /\ pk a' = pk a.
Proof.
  unfold operate_on_asset, asset_of. set (n := Z.to_nat asset). set (k := length (owned_assets a)).
  destruct (decide (k <= n)%nat) as [Hle|Hlt].
  - rewrite grow_loop_spec by (unfold k in *; lia). fold k.
    destruct (decide (n < k)%nat); [lia|]. rewrite grown_lookup.
    destruct (func _ amount) as [x r] eqn:F. simpl.
    split; [done|]. split; [|done]. intros i. fold k.
    set (u := uncommitted_assets a ++ _).
    assert (Hlen : (n - k < length u)%nat).
    { unfold u. rewrite length_app, length_replicate. lia. }
    destruct (decide (i = n)) as [->|Hne].
    + destruct (decide (n < k)%nat); [lia|]. by rewrite list_lookup_insert_eq.
    + destruct (decide (i < k)%nat); [done|]. rewrite list_lookup_insert_ne by lia.
      apply grown_lookup.
  - destruct (decide (n < k)%nat); [|lia]. destruct (func _ amount) as [x r]. simpl.
    rewrite length_insert. fold k. split; [done|]. split; [|done]. intros i.
    destruct (decide (i = n)) as [->|Hne].
    + destruct (decide (n < k)%nat); [|lia]. by rewrite list_lookup_insert_eq.
    + destruct (decide (i < k)%nat); [|done]. by rewrite list_lookup_insert_ne by done.
Qed.

(** Equivalence through [asset_of]. *)
Lemma equiv_intro a b :
  length (owned_assets a) = length (owned_assets b) ->
  (forall i, asset_of a i = asset_of b i) ->
  seq_tracker a = seq_tracker b -> owner a = owner b -> pk a = pk b -> a ≡ b.
Proof.
  intros Hl Ha Ht Ho Hp. constructor; try done.
  - apply list_eq. intros i. specialize (Ha i). unfold asset_of in Ha. rewrite Hl in Ha.
    destruct (decide (i < _)%nat) as [Hi|Hi].
    + destruct (lookup_lt_is_Some_2 (owned_assets a) i ltac:(lia)) as [x Ex].
      destruct (lookup_lt_is_Some_2 (owned_assets b) i Hi) as [y Ey].
      rewrite Ex, Ey in *. simpl in Ha. congruence.
    + rewrite !lookup_ge_None_2 by lia. done.
  - intros i. specialize (Ha (i + length (owned_assets a))%nat). unfold asset_of in Ha.
    rewrite Hl in Ha. destruct (decide _); [lia|].
    by replace (i + length (owned_assets b) - length (owned_assets b))%nat with i in Ha by lia.
Qed.

Lemma equiv_asset_of a b i : a ≡ b -> asset_of a i = asset_of b i.
Proof. intros [E1 E2 _ _ _]. unfold asset_of. rewrite E1. destruct (decide _); [done|]. apply E2. Qed.

Lemma operate_equiv {R} a b asset amount (func : RevertableAsset.t -> Z -> RevertableAsset.t * R) :
  a ≡ b ->
  (operate_on_asset a asset amount func).1 ≡ (operate_on_asset b asset amount func).1 /\
  (operate_on_asset a asset amount func).2 = (operate_on_asset b asset amount func).2.
Proof.
  intros E. pose proof (operate_on_asset_spec a asset amount func) as Sa.
  pose proof (operate_on_asset_spec b asset amount func) as Sb.
  destruct (operate_on_asset a _ _ _) as [a' r], (operate_on_asset b _ _ _) as [b' r'].
  destruct Sa as (-> & Ha & La & Ta & Oa & Pa), Sb as (-> & Hb & Lb & Tb & Ob & Pb).
  pose proof E as [E1 _ E3 E4 E5]. simpl. rewrite (equiv_asset_of a b _ E). split; [|done].
  apply equiv_intro; [congruence| |congruence..].
  intros i. rewrite Ha, Hb, !(equiv_asset_of a b _ E). done.
Qed.

#[global] Instance transfer_available_proper :
  Proper ((≡) ==> (=) ==> (=) ==> (≡)) transfer_available.
Proof. intros a b E ? ? <- ? ? <-. by apply operate_equiv. Qed.
#[global] Instance escrow_proper : Proper ((≡) ==> (=) ==> (=) ==> (≡)) escrow.
Proof. intros a b E ? ? <- ? ? <-. by apply operate_equiv. Qed.

Lemma transfer_asset_of a k x i :
  asset_of (transfer_available a k x) i =
    if decide (i = Z.to_nat k) then RevertableAsset.transfer_available (asset_of a (Z.to_nat k)) x
    else asset_of a i.
Proof.
  unfold transfer_available. pose proof (operate_on_asset_spec a k x
    (fun y n => (RevertableAsset.transfer_available y n, tt))) as Sa.
  destruct (operate_on_asset _ _ _ _). apply Sa.
Qed.

Lemma transfer_frame a k x :
  length (owned_assets (transfer_available a k x)) = length (owned_assets a) /\
  seq_tracker (transfer_available a k x) = seq_tracker a /\
  owner (transfer_available a k x) = owner a /\ pk (transfer_available a k x) = pk a.
Proof.
  unfold transfer_available. pose proof (operate_on_asset_spec a k x
    (fun y n => (RevertableAsset.transfer_available y n, tt))) as Sa.
  destruct (operate_on_asset _ _ _ _). apply Sa.
Qed.

Lemma asset_wf a i : wf a -> RevertableAsset.wf (asset_of a i).
Proof.
  intros [H1 H2]. unfold asset_of. destruct (decide _).
  - destruct (owned_assets a !! i) eqn:E; [apply (Forall_lookup_1 _ _ _ _ H1 E)|by split].
  - destruct (uncommitted_assets a !! _) eqn:E; [apply (Forall_lookup_1 _ _ _ _ H2 E)|by split].
Qed.

(** [wf] seen through [asset_of]. *)
Lemma wf_asset_of a : wf a <-> forall i, RevertableAsset.wf (asset_of a i).
Proof.
  split; [intros; by apply asset_wf|]. intros Hi. split; apply Forall_lookup; intros i x Hx.
  - specialize (Hi i). unfold asset_of in Hi. rewrite Hx in Hi.
    apply lookup_lt_Some in Hx. by destruct (decide _).
  - specialize (Hi (i + length (owned_assets a))%nat). unfold asset_of in Hi.
    destruct (decide _); [lia|].
    replace (i + length (owned_assets a) - length (owned_assets a))%nat with i in Hi by lia.
    by rewrite Hx in Hi.
Qed.

Lemma transfer_wf a k x : wf a -> wf (transfer_available a k x).
Proof.
  rewrite !wf_asset_of. intros Hwf i. rewrite transfer_asset_of.
  destruct (decide _); [|done]. by apply RevertableAsset.asset_transfer_wf.
Qed.

Lemma balance_transfer a k x j : 0 <= k -> 0 <= j ->
  balance (transfer_available a k x) j = if decide (j = k) then i64 (balance a k + x) else balance a j.
Proof.
  intros. unfold balance. rewrite transfer_asset_of.
  destruct (decide (j = k)) as [->|Hne]; [by rewrite decide_True|].
  rewrite decide_False; [done|]. lia.
Qed.

Lemma balance_range a k : wf a -> in_i64 (balance a k).
Proof. intros Hwf. apply (asset_wf a (Z.to_nat k) Hwf). Qed.

Lemma balance_equiv a b k : a ≡ b -> balance a k = balance b k.
Proof. intros E. unfold balance. by rewrite (equiv_asset_of a b _ E). Qed.

(** Transfers to one account commute, merge and cancel. *)
Lemma transfer_comm a k1 x1 k2 x2 :
  transfer_available (transfer_available a k1 x1) k2 x2
  ≡ transfer_available (transfer_available a k2 x2) k1 x1.
Proof.
  apply equiv_intro; try (rewrite ?(proj1 (transfer_frame _ _ _)); done).
  2-4: destruct (transfer_frame a k1 x1) as (_ & ? & ? & ?), (transfer_frame a k2 x2) as (_ & ? & ? & ?),
      (transfer_frame (transfer_available a k1 x1) k2 x2) as (_ & ? & ? & ?),
      (transfer_frame (transfer_available a k2 x2) k1 x1) as (_ & ? & ? & ?); congruence.
  intros i. rewrite !transfer_asset_of.
  destruct (decide (i = Z.to_nat k2)), (decide (i = Z.to_nat k1)),
    (decide (Z.to_nat k2 = Z.to_nat k1)), (decide (Z.to_nat k1 = Z.to_nat k2)); try congruence; try done.
  unfold RevertableAsset.transfer_available. simpl.
  replace (Z.to_nat k1) with (Z.to_nat k2) by congruence. f_equal. i64_solve.
Qed.

Lemma transfer_merge a k x y :
  transfer_available (transfer_available a k x) k y ≡ transfer_available a k (x + y).
Proof.
  destruct (transfer_frame a k x) as (? & ? & ? & ?), (transfer_frame a k (x + y)) as (? & ? & ? & ?),
    (transfer_frame (transfer_available a k x) k y) as (? & ? & ? & ?).
  apply equiv_intro; [congruence| |congruence..].
  intros i. rewrite !transfer_asset_of. destruct (decide _); [|done]. rewrite decide_True by done.
  unfold RevertableAsset.transfer_available. simpl. f_equal. i64_solve.
Qed.

Lemma transfer_zero a k : wf a -> transfer_available a k 0 ≡ a.
Proof.
  intros Hwf. destruct (transfer_frame a k 0) as (? & ? & ? & ?).
  apply equiv_intro; try done. intros i. rewrite transfer_asset_of. destruct (decide _) as [->|]; [|done].
  destruct (asset_wf a (Z.to_nat k) Hwf) as [? _]. unfold RevertableAsset.transfer_available.
  destruct (asset_of a _). simpl in *. by rewrite Z.add_0_r, i64_id.
Qed.

Lemma transfer_inverse a k x : wf a ->
  transfer_available (transfer_available a k x) k (- x) ≡ a.
Proof. intros. rewrite transfer_merge, Z.add_opp_diag_r. by apply transfer_zero. Qed.

Lemma escrow_transfer a k x : escrow a k x = transfer_available a k (- x).
Proof. reflexivity. Qed.

(** A conditional transfer is a transfer or leaves the account as it was. *)
Lemma conditional_transfer_spec a k x : wf a ->
  let '(a', r) := conditional_transfer_available a k x in
  if decide (0 < x \/ 0 <= balance a k + x)
  then r = true /\ a' ≡ transfer_available a k x
  else r = false /\ a' ≡ a.
Proof.
  intros Hwf. unfold conditional_transfer_available.
  pose proof (operate_on_asset_spec a k x RevertableAsset.conditional_transfer_available) as Sa.
  destruct (operate_on_asset _ _ _ _) as [a' r]. destruct Sa as (-> & Ha & Hl & Ht & Ho & Hp).
  rewrite RevertableAsset.asset_conditional_transfer_spec in * by (by apply asset_wf).
  destruct (transfer_frame a k x) as (? & ? & ? & ?).
  fold (balance a k) in *. destruct (decide _); (split; [done|]);
    (apply equiv_intro; [congruence| |congruence..]); intros i; rewrite Ha; simpl;
    [by rewrite transfer_asset_of|]. by destruct (decide _) as [->|].
Qed.

Lemma conditional_escrow_spec a k x : wf a -> in_i64 x ->
  let '(a', r) := conditional_escrow a k x in
  if decide (x <> INT64_MIN /\ (x <= 0 \/ x <= balance a k))
  then r = true /\ a' ≡ transfer_available a k (- x)
  else r = false /\ a' ≡ a.
Proof.
  intros Hwf Hx. unfold conditional_escrow.
  pose proof (operate_on_asset_spec a k x RevertableAsset.conditional_escrow) as Sa.
  destruct (operate_on_asset _ _ _ _) as [a' r]. destruct Sa as (-> & Ha & Hl & Ht & Ho & Hp).
  rewrite RevertableAsset.asset_conditional_escrow_spec in * by (done || by apply asset_wf).
  destruct (transfer_frame a k (- x)) as (? & ? & ? & ?).
  fold (balance a k) in *. destruct (decide _); (split; [done|]);
    (apply equiv_intro; [congruence| |congruence..]); intros i; rewrite Ha; simpl;
    [by rewrite transfer_asset_of|]. by destruct (decide _) as [->|].
Qed.

(** ** Commitments *)
Lemma commitment_loop_spec fuel i f v out :
  (length v <= 255)%nat -> (i <= length v)%nat -> (length v - i <= fuel)%nat ->
  commitment_loop fuel (Z.of_nat i) f v out
    = Some (out ++ imap (fun k x => f (Z.of_nat (i + k)) x) (drop i v)).
Proof.
  revert i out. induction fuel as [|fuel IH]; intros i out Hv Hi Hf; simpl; rewrite Nat2Z.id.
  - rewrite lookup_ge_None_2 by lia. rewrite drop_ge by lia. by rewrite app_nil_r.
  - destruct (v !! i) as [x|] eqn:Ex.
    + apply lookup_lt_Some in Ex as Hlt.
      assert (u8 (Z.of_nat i + 1) = Z.of_nat (S i)) as -> by (unfold u8; rewrite Z.mod_small; lia).
      rewrite IH by lia. rewrite (drop_S v x i Ex). simpl. rewrite <- app_assoc. simpl. f_equal.
      do 2 f_equal; [f_equal; lia|]. apply imap_ext. intros. simpl. do 2 f_equal. lia.
    + apply lookup_ge_None_1 in Ex. rewrite drop_ge by lia. by rewrite app_nil_r.
Qed.

(** With 256 assets the 8-bit index wraps and the loop never exits. *)
Lemma commitment_loop_diverges fuel i f v out :
  (256 <= length v)%nat -> 0 <= i < 256 -> commitment_loop fuel i f v out = None.
Proof.
  intros Hv. revert i out. induction fuel as [|fuel IH]; intros i out Hi; simpl;
    destruct (lookup_lt_is_Some_2 v (Z.to_nat i) ltac:(lia)) as [x ->]; [done|].
  apply IH. unfold u8. apply Z.mod_pos_bound. lia.
Qed.

Lemma produce_commitment_spec fuel a :
  (length (owned_assets a) <= 255)%nat -> (length (owned_assets a) <= fuel)%nat ->
  produce_commitment fuel a =
    Some (mkAccountCommitment (owner a)
      (imap (fun k x => RevertableAsset.produce_commitment x (Z.of_nat k)) (owned_assets a))
      (st_produce_commitment (seq_tracker a)) (pk a)).
Proof.
  intros. unfold produce_commitment. change 0 with (Z.of_nat 0).
  rewrite commitment_loop_spec by lia. done.
Qed.

Lemma tentative_commitment_spec fuel a :
  (length (owned_assets a) <= 255)%nat -> (length (uncommitted_assets a) <= 255)%nat -> (255 <= fuel)%nat ->
  tentative_commitment fuel a =
    Some (mkAccountCommitment (owner a)
      (imap (fun k x => RevertableAsset.tentative_commitment x (Z.of_nat k))
         (owned_assets a ++ uncommitted_assets a))
      (st_tentative_commitment (seq_tracker a)) (pk a)).
Proof.
  intros. unfold tentative_commitment. change 0 with (Z.of_nat 0).
  rewrite commitment_loop_spec by lia. simpl.
  change 0 with (Z.of_nat 0). rewrite commitment_loop_spec by lia. simpl.
  do 2 f_equal. rewrite imap_app. f_equal. apply imap_ext. intros k x Hk.
  apply lookup_lt_Some in Hk. rewrite ?drop_0 in Hk. simpl.
  unfold u32. rewrite Z.mod_small by lia. f_equal. lia.
Qed.

Lemma pad_loop_id fuel n v : (n <= length v)%nat -> pad_loop fuel n v = v.
Proof. destruct fuel; simpl; [done|]. intros. by rewrite decide_False by lia. Qed.

Lemma load_assets_produce l v :
  Forall RevertableAsset.wf l ->
  load_assets (imap (fun k x => RevertableAsset.produce_commitment x (Z.of_nat (length v + k))) l) v
  = Ok (v ++ (RevertableAsset.rollback <$> l)).
Proof.
  intros Hl. revert v. induction Hl as [|x l Hx Hl IH]; intros v; simpl; [by rewrite app_nil_r|].
  rewrite Nat.add_0_r. destruct (Z.ltb_spec (Z.of_nat (length v)) (Z.of_nat (length v))); [lia|].
  rewrite Nat2Z.id, pad_loop_id by lia.
  set (y := RevertableAsset.of_amount _).
  assert (y = RevertableAsset.rollback x) as ->.
  { unfold y, RevertableAsset.of_amount, RevertableAsset.rollback. destruct Hx as [_ Hx].
    f_equal; rewrite <- (i64_id _ Hx) at 2; apply (i64_cong _ _ (- (RevertableAsset.committed_available x / 2 ^ 64)));
      unfold u64; rewrite Z.mod_eq by lia; lia. }
  specialize (IH (v ++ [RevertableAsset.rollback x])).
  rewrite (imap_ext _ (fun k x0 => RevertableAsset.produce_commitment x0
    (Z.of_nat (length (v ++ [RevertableAsset.rollback x]) + k)))).
  - rewrite IH, <- app_assoc. done.
  - intros. rewrite length_app. simpl. f_equal. lia.
Qed.

End Ops.
End UserAccount.

(** ** Properties of accounts *)
Module AccountProps.
Import UserAccount.

Section Props.
Context {T : Type} `{SequenceTrackerRefines T}.

Lemma commit_assets (a : t T) :
  owned_assets (commit a) =
    (fun x => (RevertableAsset.commit x).1) <$> (owned_assets a ++ uncommitted_assets a).
Proof. unfold commit. simpl. by rewrite fmap_app. Qed.

Lemma tentative_commit (a : t T) (fuel : nat) :
  st_wf (seq_tracker a) -> (255 <= fuel)%nat ->
  (length (owned_assets a ++ uncommitted_assets a) <= 255)%nat ->
  exists c, tentative_commitment fuel a = Some c /\ produce_commitment fuel (commit a) = Some c.
Proof.
  intros Ht Hf. rewrite length_app. intros Hn.
  eexists. split; [apply tentative_commitment_spec; lia|].
  rewrite produce_commitment_spec; rewrite commit_assets, ?length_fmap, ?length_app; [|lia..].
  do 2 f_equal.
  - rewrite imap_fmap. apply imap_ext. done.
  - simpl. rewrite st_tentative_refines, st_produce_refines by done.
    destruct (st_commit_refines (seq_tracker a) Ht) as [_ ->]. done.
Qed.

(** The record hashed for a proposed block is the record hashed once
    that block is committed: [tentative_commitment] before [commit] equals
    [produce_commitment] after it, sequence number included, whenever the
    account holds at most 255 assets; with 256 or more the 8-bit loop index
    of [produce_commitment] wraps and the call never returns. *)
Lemma tentative_is_next_commitment (a : t T) (fuel : nat) :
  st_wf (seq_tracker a) -> (255 <= fuel)%nat ->
  let n := length (owned_assets a ++ uncommitted_assets a) in
  ((n <= 255)%nat -> exists c,
     tentative_commitment fuel a = Some c /\ produce_commitment fuel (commit a) = Some c) /\
  ((256 <= n)%nat -> produce_commitment fuel (commit a) = None).
Proof.
  intros Ht Hf n. unfold n. split; [by apply tentative_commit|].
  rewrite length_app. intros Hn.
  unfold produce_commitment. rewrite commitment_loop_diverges; [done| |lia].
  rewrite commit_assets, length_fmap, length_app. lia.
Qed.

(** Crash recovery: an account rebuilt from its committed record is
    the account rolled back to that record: the in-flight balances and the
    in-flight sequence numbers are gone and nothing else is lost. *)
Lemma reload_is_rollback (a : t T) (fuel : nat) c :
  wf a -> st_wf (seq_tracker a) ->
  (length (owned_assets a) <= 255)%nat -> (255 <= fuel)%nat ->
  produce_commitment fuel a = Some c ->
  of_commitment c = Ok (rollback a).
Proof.
  intros [Hwf _] Ht Hl Hf. rewrite produce_commitment_spec by lia. intros [= <-].
  unfold of_commitment. simpl. pose proof (load_assets_produce (owned_assets a) [] Hwf) as E.
  simpl in E. rewrite E. simpl. unfold rollback. do 2 f_equal.
  destruct (st_init_refines (st_produce_commitment (seq_tracker a))) as [W1 E1].
  destruct (st_rollback_refines (seq_tracker a) Ht) as [W2 E2].
  apply st_abs_inj; [done..|]. rewrite E1, E2, st_produce_refines. done.
Qed.
End Props.

End AccountProps.

(** * The vector of accounts *)
Module AccountVector.
Definition ACCOUNTS_PER_ROW : Z := 65536.
Definition LOWBITS_MASK : Z := 65535.
Definition ROW_OFFSET_LSHIFT : Z := 16.

Section Vector.
(** [A] is [UserAccount] and [fresh] its default constructor. *)
Context {A : Type} (fresh : A).

(** A row: the array slots that were assigned, every other one holds
    [fresh]. *)
Record AccountVectorRow := mkRow { num_active_entries : Z; row : gmap Z A }.
Record t := mk { accounts : list AccountVectorRow; next_open_idx : nat; _size : Z }.

Definition empty_row : AccountVectorRow := mkRow 0 ∅.
Definition is_full (r : AccountVectorRow) : bool := num_active_entries r =? ACCOUNTS_PER_ROW.

Definition row_append (r : AccountVectorRow) (acct : A) : AccountVectorRow :=
  mkRow (num_active_entries r + 1) (<[num_active_entries r := acct]> (row r)).
Definition row_erase (r : AccountVectorRow) (num_to_erase : Z) : AccountVectorRow * Z :=
  let num_eraseable := Z.min num_to_erase (num_active_entries r) in
  (mkRow (num_active_entries r - num_eraseable) (row r), num_eraseable).
Definition row_get (r : AccountVectorRow) (idx : Z) : A := default fresh (row r !! idx).
Definition row_resize (r : AccountVectorRow) (sz : Z) : result (AccountVectorRow * Z) :=
  if ACCOUNTS_PER_ROW <? num_active_entries r then Throw "assigned past max"
  else
    let remaining := ACCOUNTS_PER_ROW - num_active_entries r in
    let num_addable := Z.min sz remaining in
    Ok (mkRow (num_active_entries r + num_addable) (row r), num_addable).

Definition empty : t := mk [empty_row] 0 0.

(** [if (is_full()) { next_open_idx++; if (accounts.size() == next_open_idx)
    accounts.push_back(...) }] *)
Definition advance (v : t) : t :=
  match accounts v !! next_open_idx v with
  | Some r =>
      if is_full r then
        let n := S (next_open_idx v) in
        mk (if decide (length (accounts v) = n) then accounts v ++ [empty_row] else accounts v)
           n (_size v)
      else v
  | None => v
  end.

Definition set_row (v : t) (r : AccountVectorRow) (sz : Z) : t :=
  mk (<[next_open_idx v := r]> (accounts v)) (next_open_idx v) sz.

Definition current (v : t) : AccountVectorRow := default empty_row (accounts v !! next_open_idx v).

Definition emplace_back (v : t) (acct : A) : t :=
  let v' := advance (set_row v (row_append (current v) acct) (_size v)) in
  mk (accounts v') (next_open_idx v') (u64 (_size v + 1)).

(** Erasing past the front decrements [next_open_idx] below zero. *)
Fixpoint erase_loop (n : nat) (rows : list AccountVectorRow) (num_to_erase : Z)
    : result (list AccountVectorRow * nat) :=
  if num_to_erase =? 0 then Ok (rows, n)
  else
    let '(r, erased) := row_erase (default empty_row (rows !! n)) num_to_erase in
    let rows := <[n := r]> rows in
    if 0 <? num_to_erase - erased then
      match n with
      | O => Throw "next_open_idx underflow"
      | S n => erase_loop n rows (num_to_erase - erased)
      end
    else Ok (rows, n).

Definition erase (v : t) (num_to_erase : Z) : result t :=
  let* p := erase_loop (next_open_idx v) (accounts v) num_to_erase in
  Ok (mk p.1 p.2 (u64 (_size v - num_to_erase))).

Definition get (v : t) (idx : Z) : A :=
  let offset := Z.shiftr idx ROW_OFFSET_LSHIFT in
  let row_idx := Z.land idx LOWBITS_MASK in
  row_get (default empty_row (accounts v !! Z.to_nat offset)) row_idx.

Fixpoint resize_loop (fuel : nat) (v : t) (num_to_add : Z) : result t :=
  if num_to_add =? 0 then Ok v
  else match fuel with
  | O => Throw "out of fuel"
  | S fuel =>
      let* p := row_resize (current v) num_to_add in
      let '(r, num_added) := p in
      let num_to_add := num_to_add - num_added in
      let v := set_row v r (u64 (_size v + num_added)) in
      if is_full r then resize_loop fuel (advance v) num_to_add
      else if num_to_add =? 0 then resize_loop fuel v num_to_add
      else Throw "resize error"
  end.

Definition resize (v : t) (sz : Z) : result t :=
  if sz <=? _size v then Ok v
  else
    let* v' := resize_loop (Z.to_nat (sz - _size v)) v (sz - _size v) in
    if sz =? _size v' then Ok v' else Throw "overall resize error".

(** ** The abstraction: the accounts at indices below [_size]. *)
Definition contents (v : t) : list A := get v ∘ Z.of_nat <$> seq 0 (Z.to_nat (_size v)).

(** Rows before [n] are full, the one at it has what is left of [total],
    the later ones are empty. *)
Definition row_count (n : nat) (total : Z) (i : nat) : Z :=
  if decide (i < n)%nat then ACCOUNTS_PER_ROW
  else if decide (i = n) then total - ACCOUNTS_PER_ROW * Z.of_nat n
  else 0.

Record shape (rows : list AccountVectorRow) (n : nat) (total room : Z) : Prop := {
  shape_rows i r : rows !! i = Some r -> num_active_entries r = row_count n total i;
  shape_next : (n < length rows)%nat;
  shape_room : ACCOUNTS_PER_ROW * Z.of_nat n <= total <= ACCOUNTS_PER_ROW * Z.of_nat n + room
}.

(** The invariant: the open row is not full. *)
Definition wf (v : t) : Prop :=
  shape (accounts v) (next_open_idx v) (_size v) (ACCOUNTS_PER_ROW - 1) /\ 0 <= _size v < 2 ^ 63.

(** Same array contents. *)
Definition same_slots (rows rows' : list AccountVectorRow) : Prop :=
  forall i, row (default empty_row (rows !! i)) = row (default empty_row (rows' !! i)).

#[local] Instance same_slots_preorder : PreOrder same_slots.
Proof. split; [by intros ? ?|]. intros x y z H1 H2 i. by rewrite H1. Qed.

Lemma same_slots_get v v' i : same_slots (accounts v) (accounts v') -> get v i = get v' i.
Proof. intros H. unfold get, row_get. by rewrite H. Qed.

Lemma same_slots_insert rows n r :
  row r = row (default empty_row (rows !! n)) -> same_slots rows (<[n := r]> rows).
Proof.
  intros E i. destruct (decide (i = n)) as [->|]; [|by rewrite list_lookup_insert_ne].
  destruct (decide (n < length rows)%nat).
  - by rewrite list_lookup_insert_eq.
  - by rewrite list_insert_ge by lia.
Qed.

Lemma shape_insert rows n total total' room room' r :
  shape rows n total room ->
  num_active_entries r = total' - ACCOUNTS_PER_ROW * Z.of_nat n ->
  ACCOUNTS_PER_ROW * Z.of_nat n <= total' <= ACCOUNTS_PER_ROW * Z.of_nat n + room' ->
  shape (<[n := r]> rows) n total' room'.
Proof.
  intros [H1 H2 H3] Hr Hroom. constructor; [|by rewrite length_insert|done].
  intros i x Hx. unfold row_count in *. destruct (decide (i = n)) as [->|Hne].
  - rewrite list_lookup_insert_eq in Hx by done. injection Hx as <-.
    rewrite decide_False by lia. done.
  - rewrite list_lookup_insert_ne in Hx by done. rewrite (H1 i x Hx).
    destruct (decide (i < n)%nat); [done|]. by destruct (decide (i = n)).
Qed.

Lemma shape_current rows n total room :
  shape rows n total room ->
  exists r, rows !! n = Some r /\ num_active_entries r = total - ACCOUNTS_PER_ROW * Z.of_nat n.
Proof.
  intros [H1 H2 _]. destruct (lookup_lt_is_Some_2 _ _ H2) as [r Hr]. exists r. split; [done|].
  rewrite (H1 n r Hr). unfold row_count. rewrite decide_False by lia. by rewrite decide_True.
Qed.

Lemma advance_spec v :
  shape (accounts v) (next_open_idx v) (_size v) ACCOUNTS_PER_ROW ->
  shape (accounts (advance v)) (next_open_idx (advance v)) (_size v) (ACCOUNTS_PER_ROW - 1) /\
  _size (advance v) = _size v /\ same_slots (accounts v) (accounts (advance v)).
Proof.
  intros Hs. destruct (shape_current _ _ _ _ Hs) as (r & Hr & Hc). destruct Hs as [H1 H2 H3].
  unfold advance. rewrite Hr. unfold is_full. rewrite Hc.
  destruct (Z.eqb_spec (_size v - ACCOUNTS_PER_ROW * Z.of_nat (next_open_idx v)) ACCOUNTS_PER_ROW) as [E|E].
  2: { split; [constructor; [done|done|lia]|done]. }
  simpl. set (n := next_open_idx v) in *.
  split_and!; [|done|].
  - constructor; [|destruct (decide _); rewrite ?length_app; simpl; lia|unfold ACCOUNTS_PER_ROW in *; lia].
    intros i x Hx. unfold row_count.
    assert (Hcases : accounts v !! i = Some x \/ (i = S n /\ x = empty_row)).
    { destruct (decide (length (accounts v) = S n)) as [El|El]; [|by left].
      apply lookup_app_Some in Hx as [Hx|[Hge Hx]]; [by left|right].
      apply list_lookup_singleton_Some in Hx as [? <-]. split; [lia|done]. }
    destruct Hcases as [Hi|[-> ->]].
    + rewrite (H1 i x Hi). unfold row_count.
      destruct (decide (i < n)%nat), (decide (i < S n)%nat), (decide (i = n)), (decide (i = S n)); lia.
    + rewrite decide_False by lia. rewrite decide_True by done. simpl. lia.
  - intros i. destruct (decide (length (accounts v) = S n)) as [El|El]; [|done].
    destruct (decide (i < length (accounts v))%nat); [by rewrite lookup_app_l|].
    rewrite (lookup_ge_None_2 (accounts v)) by lia. rewrite lookup_app_r by lia.
    by destruct (i - length (accounts v))%nat.
Qed.

Lemma get_split i :
  0 <= i -> Z.shiftr i ROW_OFFSET_LSHIFT = i / ACCOUNTS_PER_ROW /\ Z.land i LOWBITS_MASK = i mod ACCOUNTS_PER_ROW.
Proof.
  intros. split; [by apply shiftr_div|]. change LOWBITS_MASK with (2 ^ 16 - 1).
  by rewrite land_ones_mod.
Qed.

Lemma emplace_back_get v a i :
  wf v -> 0 <= i -> get (emplace_back v a) i = if decide (i = _size v) then a else get v i.
Proof.
  intros [Hs Hsz] Hi. destruct (shape_current _ _ _ _ Hs) as (r & Hr & Hc).
  pose proof (shape_room _ _ _ _ Hs) as Hroom. pose proof (shape_next _ _ _ _ Hs) as Hnext.
  unfold emplace_back.
  assert (Hslots : same_slots (<[next_open_idx v := row_append r a]> (accounts v))
    (accounts (advance (set_row v (row_append (current v) a) (_size v))))).
  { unfold current. rewrite Hr. simpl. unfold advance. simpl.
    rewrite list_lookup_insert_eq by done. destruct (is_full _); [|done]. simpl.
    rewrite length_insert. destruct (decide _) as [El|]; [|done]. intros j.
    destruct (decide (j < length (accounts v))%nat).
    - by rewrite lookup_app_l by (rewrite length_insert; lia).
    - rewrite lookup_ge_None_2, lookup_app_r by (rewrite length_insert; lia).
      by destruct (j - _)%nat. }
  unfold get at 1. unfold row_get. simpl. rewrite <- Hslots.
  unfold get, row_get. destruct (get_split i Hi) as [-> ->].
  pose proof (Z.div_mod i ACCOUNTS_PER_ROW) as Hdm. pose proof (Z.mod_pos_bound i ACCOUNTS_PER_ROW) as Hmb.
  assert (0 <= i / ACCOUNTS_PER_ROW) by (apply Z.div_pos; unfold ACCOUNTS_PER_ROW; lia).
  unfold ACCOUNTS_PER_ROW in *.
  destruct (decide (Z.to_nat (i / 65536) = next_open_idx v)) as [Eq|Ne].
  - rewrite Eq, list_lookup_insert_eq, Hr by done. simpl. rewrite Hc.
    destruct (decide (i = _size v)) as [E|E].
    + replace (i mod 65536) with (_size v - 65536 * Z.of_nat (next_open_idx v)) by lia.
      by rewrite lookup_insert_eq.
    + rewrite lookup_insert_ne by lia. done.
  - rewrite list_lookup_insert_ne by done. destruct (decide (i = _size v)) as [E|E]; [lia|done].
Qed.

Lemma emplace_back_wf v a : wf v -> _size v + 1 < 2 ^ 63 ->
  wf (emplace_back v a) /\ _size (emplace_back v a) = _size v + 1.
Proof.
  intros [Hs Hsz] Hlt. destruct (shape_current _ _ _ _ Hs) as (r & Hr & Hc).
  pose proof (shape_room _ _ _ _ Hs) as Hroom.
  destruct (advance_spec (mk (<[next_open_idx v := row_append r a]> (accounts v)) (next_open_idx v) (_size v + 1)))
    as (Ha & _ & _).
  { simpl. eapply shape_insert; [exact Hs|simpl; lia|lia]. }
  unfold emplace_back. set (v' := advance _).
  assert (accounts v' = accounts (advance (mk (<[next_open_idx v := row_append r a]> (accounts v)) (next_open_idx v) (_size v + 1)))
    /\ next_open_idx v' = next_open_idx (advance (mk (<[next_open_idx v := row_append r a]> (accounts v)) (next_open_idx v) (_size v + 1)))) as [-> ->].
  { unfold v', set_row, current, advance. rewrite Hr. simpl.
    rewrite list_lookup_insert_eq by apply Hs. by destruct (is_full _). }
  rewrite u64_id by zlia. split; [split; [exact Ha|simpl; lia]|done].
Qed.

Lemma erase_loop_spec n rows total room k :
  shape rows n total room -> room <= ACCOUNTS_PER_ROW -> (room < ACCOUNTS_PER_ROW \/ 0 < k) -> 0 <= k <= total ->
  exists rows' n', erase_loop n rows k = Ok (rows', n') /\
    shape rows' n' (total - k) (ACCOUNTS_PER_ROW - 1) /\ same_slots rows rows'.
Proof.
  revert rows total room k. induction n as [|n IH]; intros rows total room k Hs Hroom Hor Hk;
    destruct (shape_current _ _ _ _ Hs) as (r & Hr & Hc);
    pose proof (shape_room _ _ _ _ Hs) as Hb; pose proof (shape_rows _ _ _ _ Hs) as Hrows;
    cbn [erase_loop]; unfold row_erase; rewrite Hr; simpl default;
    (destruct (Z.eqb_spec k 0) as [->|Hk0];
      [exists rows; eexists; split; [reflexivity|split; [|reflexivity]];
       rewrite Z.sub_0_r; constructor; [apply Hs..|lia]|]).
  - destruct (Z.ltb_spec 0 (k - Z.min k (num_active_entries r))); [lia|].
    do 2 eexists. split; [reflexivity|]. split; [|apply same_slots_insert; by rewrite Hr].
    eapply shape_insert; [exact Hs|simpl; lia|lia].
  - destruct (Z.ltb_spec 0 (k - Z.min k (num_active_entries r))).
    + set (rows1 := <[S n := _]> rows).
      destruct (IH rows1 (ACCOUNTS_PER_ROW * Z.of_nat (S n)) ACCOUNTS_PER_ROW
        (k - Z.min k (num_active_entries r))) as (rows' & n' & E & Hs' & Hss).
      * constructor; [|unfold rows1; rewrite length_insert; apply shape_next in Hs; lia|lia].
        intros i x Hx. unfold rows1, row_count in *. destruct (decide (i = S n)) as [->|Hne].
        { rewrite list_lookup_insert_eq in Hx by apply Hs. injection Hx as <-. simpl.
          rewrite !decide_False by lia. lia. }
        rewrite list_lookup_insert_ne in Hx by done. rewrite (Hrows i x Hx).
        destruct (decide (i < S n)%nat), (decide (i < n)%nat), (decide (i = S n)), (decide (i = n)); lia.
      * lia.
      * lia.
      * unfold ACCOUNTS_PER_ROW in *. lia.
      * exists rows', n'. split; [exact E|]. split.
        { replace (total - k) with (ACCOUNTS_PER_ROW * Z.of_nat (S n) - (k - Z.min k (num_active_entries r))) by lia. done. }
        etrans; [|exact Hss]. apply same_slots_insert. by rewrite Hr.
    + do 2 eexists. split; [reflexivity|]. split; [|apply same_slots_insert; by rewrite Hr].
      eapply shape_insert; [exact Hs|simpl; lia|lia].
Qed.

Lemma resize_loop_spec fuel v k :
  wf v -> 0 <= k <= Z.of_nat fuel -> _size v + k < 2 ^ 63 ->
  exists v', resize_loop fuel v k = Ok v' /\ wf v' /\ _size v' = _size v + k /\
    same_slots (accounts v) (accounts v').
Proof.
  revert v k. induction fuel as [|fuel IH]; intros v k [Hs Hsz] Hk Hlt; cbn [resize_loop];
    (destruct (Z.eqb_spec k 0) as [->|Hk0]; [exists v; split; [done|]; split; [by split|]; split; [lia|done]|]); [lia|].
  destruct (shape_current _ _ _ _ Hs) as (r & Hr & Hc). pose proof (shape_room _ _ _ _ Hs) as Hb.
  unfold row_resize, current. rewrite Hr. simpl default.
  destruct (Z.ltb_spec ACCOUNTS_PER_ROW (num_active_entries r)); [lia|]. simpl result_bind.
  set (m := Z.min k (ACCOUNTS_PER_ROW - num_active_entries r)).
  assert (Hm : 1 <= m <= k) by lia.
  set (r' := mkRow _ _). rewrite u64_id by zlia.
  assert (Hs1 : shape (<[next_open_idx v := r']> (accounts v)) (next_open_idx v) (_size v + m) ACCOUNTS_PER_ROW).
  { eapply shape_insert; [exact Hs|simpl; lia|lia]. }
  assert (Hss : same_slots (accounts v) (<[next_open_idx v := r']> (accounts v))).
  { apply same_slots_insert. by rewrite Hr. }
  unfold is_full. simpl num_active_entries.
  destruct (Z.eqb_spec (num_active_entries r + m) ACCOUNTS_PER_ROW) as [Ef|Ef].
  - destruct (advance_spec (set_row v r' (_size v + m)) Hs1) as (Ha & Hz & Hss').
    destruct (IH (advance (set_row v r' (_size v + m))) (k - m)) as (v' & E & Hwf & Hsize & Hss'').
    + split; rewrite Hz; simpl; [exact Ha|lia].
    + lia.
    + rewrite Hz. simpl. lia.
    + exists v'. split; [exact E|]. split; [done|]. rewrite Hsize, Hz. simpl. split; [lia|].
      etrans; [exact Hss|]. etrans; [exact Hss'|exact Hss''].
  - assert (k - m = 0) as -> by lia. simpl. destruct fuel; simpl;
      (eexists; split; [reflexivity|]; simpl; split; [|split; [lia|exact Hss]];
       split; simpl; [|lia]; constructor; [apply Hs1..|lia]).
Qed.

Lemma contents_lookup v i : 0 <= _size v ->
  contents v !! i = if decide (Z.of_nat i < _size v) then Some (get v (Z.of_nat i)) else None.
Proof.
  intros H. unfold contents. rewrite list_lookup_fmap. destruct (decide _).
  - rewrite lookup_seq_lt by lia. done.
  - by rewrite lookup_seq_ge by lia.
Qed.

Lemma contents_length v : length (contents v) = Z.to_nat (_size v).
Proof. unfold contents. by rewrite length_fmap, length_seq. Qed.

End Vector.
End AccountVector.

Module AccountVectorProps.
Import AccountVector.

(** C39.  The row-structured vector is a growable array: under its invariant
    (full rows, one open row, empty rows) [emplace_back] appends, [erase]
    drops exactly the last [k] accounts (never throwing or underflowing when
    [k] is at most the size), [resize] keeps the prefix and reaches the
    requested size (its "resize error" exceptions are unreachable), [get]
    indexes the abstract list, and the invariant is preserved, across row
    boundaries. *)
Theorem account_vector_refines_list {A} (fresh : A) (v : t) (a : A) k sz :
  wf v -> 0 <= k <= _size v -> _size v <= sz < 2 ^ 63 - 1 ->
  wf (emplace_back v a) /\ contents fresh (emplace_back v a) = contents fresh v ++ [a] /\
  (exists v', erase v k = Ok v' /\ wf v' /\
     contents fresh v' = take (Z.to_nat (_size v - k)) (contents fresh v)) /\
  (exists v', resize v sz = Ok v' /\ wf v' /\ _size v' = sz /\
     take (Z.to_nat (_size v)) (contents fresh v') = contents fresh v) /\
  (forall i, 0 <= i < _size v -> contents fresh v !! Z.to_nat i = Some (get fresh v i)).
Proof.
  intros Hwf Hk Hsz. pose proof Hwf as [Hs Hr].
  destruct (emplace_back_wf v a Hwf ltac:(lia)) as [We Se].
  split; [done|]. split; [|split; [|split]].
  - apply list_eq. intros i. rewrite contents_lookup by lia. rewrite Se, emplace_back_get by (done || lia).
    destruct (decide (Z.of_nat i = _size v)) as [E|E].
    + rewrite decide_True, lookup_app_r by (rewrite ?contents_length; lia).
      rewrite contents_length. by replace (i - Z.to_nat (_size v))%nat with 0%nat by lia.
    + destruct (decide (Z.of_nat i < _size v)).
      * rewrite decide_True, lookup_app_l by (rewrite ?contents_length; lia).
        rewrite contents_lookup by lia. by rewrite decide_True.
      * rewrite decide_False, lookup_ge_None_2 by (rewrite ?length_app, ?contents_length; simpl; lia). done.
  - destruct (erase_loop_spec _ _ _ _ k Hs ltac:(unfold ACCOUNTS_PER_ROW; lia) ltac:(unfold ACCOUNTS_PER_ROW; lia) Hk)
      as (rows & n & E & Hs' & Hss).
    unfold erase. rewrite E. simpl. eexists. split; [reflexivity|]. rewrite u64_id by zlia.
    split; [split; [done|simpl; lia]|].
    apply list_eq. intros i. rewrite contents_lookup by (simpl; lia). simpl.
    destruct (decide _).
    + rewrite lookup_take_lt, contents_lookup by lia. rewrite decide_True by lia.
      f_equal. symmetry. by apply same_slots_get.
    + by rewrite lookup_take_ge by lia.
  - unfold resize. destruct (Z.leb_spec sz (_size v)).
    { exists v. split; [done|]. split; [done|]. split; [lia|]. apply take_ge. rewrite contents_length. lia. }
    destruct (resize_loop_spec (Z.to_nat (sz - _size v)) v (sz - _size v) Hwf) as (v' & E & Hwf' & Hz & Hss); [lia..|].
    rewrite E. simpl. destruct (Z.eqb_spec sz (_size v')); [|lia].
    exists v'. split; [done|]. split; [done|]. split; [done|].
    apply list_eq. intros i. rewrite contents_lookup by lia. destruct (decide _).
    + rewrite lookup_take_lt, contents_lookup by lia. rewrite decide_True by lia.
      f_equal. symmetry. by apply same_slots_get.
    + by rewrite lookup_take_ge by lia.
  - intros i Hi. rewrite contents_lookup by lia. rewrite decide_True by lia. by rewrite Z2Nat.id by lia.
Qed.

Lemma account_vector_refines_list_witness :
  contents 0 (emplace_back (emplace_back empty 7) 8) = [7; 8].
Proof.
  assert (W : wf (emplace_back (A := Z) empty 7)).
  { split; [|vm_compute; split; [discriminate|reflexivity]].
    constructor; [|vm_compute; lia|vm_compute; split; discriminate].
    intros [|i] r; [by intros [= <-]|done]. }
  destruct (account_vector_refines_list 0 (emplace_back empty 7) 8 1 2 W) as (_ & E & _);
    [vm_compute; split; discriminate|vm_compute; split; [discriminate|reflexivity]|].
  rewrite E. reflexivity.
Defined.
End AccountVectorProps.
