(* ===== verification/AccountLmdb.v ===== *)
(** * Persistence of accounts (src/memory_database/account_lmdb.h, .cc, thunk.h)

    The account store is split over [NUM_ACCOUNT_DB_SHARDS] LMDB instances by a
    keyed hash of the account id.  LMDB and libsodium's [crypto_shorthash] are
    outside the repository: the class [LMDBInstance] states the documented
    behaviour of a store with atomic write transactions, and [shorthash] is a
    variable.  Each shard has one worker; [persist_thunks] hands every worker
    the same list of thunks and waits for all of them, so the model runs the
    workers one after the other. *)
From stdpp Require Import base gmap list strings.
From S2P Require Import Prelude Types.

(** One LMDB environment: a map and a persisted round number. *)
Class LMDBInstance (L : Type) := {
  lmdb_get : L -> Z -> option AccountCommitment;
  lmdb_get_persisted_round_number : L -> Z;
  lmdb_commit_wtxn : L -> list (Z * AccountCommitment) -> Z -> L;
  (** The last [put] of a key is read back, other keys are unchanged. *)
  lmdb_get_commit l puts round k :
    lmdb_get (lmdb_commit_wtxn l puts round) k
      = foldl (fun acc p => if decide (p.1 = k) then Some p.2 else acc) (lmdb_get l k) puts;
  lmdb_round_commit l puts round :
    lmdb_get_persisted_round_number (lmdb_commit_wtxn l puts round) = round
}.

(** An entry whose value has not been assigned has an empty message. *)
Record ThunkKVPair := mkThunkKVPair { key : Z; msg : option AccountCommitment }.
Record DBPersistenceThunk := mkThunk { kvs : list ThunkKVPair; thunk_block_number : Z }.

Module AccountLMDB.
Definition NUM_ACCOUNT_DB_SHARDS : Z := 16.

Section Store.
Context {L : Type} `{LMDBInstance L}.
Variable shorthash : Z -> Z.

Record t := mk {
  shards : list L;
  min_persisted_round_number : Z;
  max_persisted_round_number : Z
}.

Definition get_shard (account : Z) : Z :=
  Z.shiftr (u64 (Z.land (u64 (shorthash account)) 0xFFFFFFFF * NUM_ACCOUNT_DB_SHARDS)) 32.

Definition owns_account (idx : nat) (account : Z) : bool := get_shard account =? Z.of_nat idx.

(** The inner loop of [exec_one_thunk]: the puts of one thunk on one shard. *)
Fixpoint put_kvs (idx : nat) (kvs : list ThunkKVPair) (wtx : list (Z * AccountCommitment))
    : result (list (Z * AccountCommitment)) :=
  match kvs with
  | [] => Ok wtx
  | kv :: kvs =>
      if negb (owns_account idx (key kv)) then put_kvs idx kvs wtx
      else match msg kv with
           | None => Throw "failed to accumulate value in persistence thunk"
           | Some m => put_kvs idx kvs (wtx ++ [(key kv, m)])
           end
  end.

Definition exec_one_thunk (idx : nat) (thunk : DBPersistenceThunk)
    (wtx : list (Z * AccountCommitment)) (current_block_number : Z)
    : result (list (Z * AccountCommitment) * Z) :=
  if (thunk_block_number thunk <? u64 (current_block_number + 1)) && negb (current_block_number =? 0)
  then Throw "can't persist blocks in wrong order!!!"
  else let* wtx := put_kvs idx (kvs thunk) wtx in Ok (wtx, thunk_block_number thunk).

Fixpoint exec_loop (idx : nat) (ignore_too_low : bool) (starting_persisted_number : Z)
    (thunks : list DBPersistenceThunk) (wtx : list (Z * AccountCommitment)) (current_block_number : Z)
    : result (list (Z * AccountCommitment) * Z) :=
  match thunks with
  | [] => Ok (wtx, current_block_number)
  | thunk :: thunks =>
      if ignore_too_low && (thunk_block_number thunk <=? starting_persisted_number) &&
         negb ((thunk_block_number thunk =? 0) && (starting_persisted_number =? 0))
      then exec_loop idx ignore_too_low starting_persisted_number thunks wtx current_block_number
      else
        let* p := exec_one_thunk idx thunk wtx current_block_number in
        exec_loop idx ignore_too_low starting_persisted_number thunks p.1 p.2
  end.

Definition exec_thunks (idx : nat) (shard : L) (thunks : list DBPersistenceThunk)
    (max_round_number : Z) (ignore_too_low : bool) : result L :=
  let starting := lmdb_get_persisted_round_number shard in
  let* p := exec_loop idx ignore_too_low starting thunks [] starting in
  if max_round_number <? p.2 then Throw "invalid persist max_round_number"
  else Ok (lmdb_commit_wtxn shard p.1 max_round_number).

(** Every worker, by shard index. *)
Fixpoint exec_workers (idx : nat) (shards : list L) (thunks : list DBPersistenceThunk)
    (max_round_number : Z) (ignore_too_low : bool) : result (list L) :=
  match shards with
  | [] => Ok []
  | shard :: shards =>
      let* s := exec_thunks idx shard thunks max_round_number ignore_too_low in
      let* l := exec_workers (S idx) shards thunks max_round_number ignore_too_low in
      Ok (s :: l)
  end.

Definition persist_thunks (db : t) (thunks : list DBPersistenceThunk) (max_round_number : Z)
    (ignore_too_low : bool) : result t :=
  let* shards := exec_workers 0 (shards db) thunks max_round_number ignore_too_low in
  Ok (mk shards (Z.max (min_persisted_round_number db) max_round_number)
                (Z.max (max_persisted_round_number db) max_round_number)).

Definition get_min_max_persisted_round_numbers_direct (shards : list L) : Z * Z :=
  foldl (fun acc shard =>
    let round := lmdb_get_persisted_round_number shard in
    (Z.min acc.1 round, Z.max acc.2 round)) (UINT64_MAX, 0) shards.

Definition create_db (shards : list L) : t := mk shards 0 0.
Definition open_db (shards : list L) : t :=
  let '(min_round, max_round) := get_min_max_persisted_round_numbers_direct shards in
  mk shards min_round max_round.

Definition get_min_max_persisted_round_numbers (db : t) : Z * Z :=
  (min_persisted_round_number db, max_persisted_round_number db).

Definition assert_snapshot_and_get_persisted_round_number (db : t) : result Z :=
  if negb (min_persisted_round_number db =? max_persisted_round_number db) then Throw "shorn read"
  else Ok (min_persisted_round_number db).

Definition get_persisted_round_number_by_account (db : t) (account : Z) : result Z :=
  let* shard := vec_at (shards db) (get_shard account) in
  Ok (lmdb_get_persisted_round_number shard).

(** [rtxn::get] *)
Definition rtxn_get (db : t) (account : Z) : result (option AccountCommitment) :=
  let* shard := vec_at (shards db) (get_shard account) in
  Ok (lmdb_get shard account).

(** ** What a block sequence writes for one account *)
Definition last_write (thunks : list DBPersistenceThunk) (account : Z)
    (old : option AccountCommitment) : option AccountCommitment :=
  foldl (fun acc kv => if decide (key kv = account) then msg kv else acc) old (thunks ≫= kvs).

(** Blocks in increasing order, all after the persisted round. *)
Fixpoint increasing (from : Z) (thunks : list DBPersistenceThunk) (max : Z) : Prop :=
  match thunks with
  | [] => from <= max
  | thunk :: thunks => from < thunk_block_number thunk /\ increasing (thunk_block_number thunk) thunks max
  end.

Definition assigned (thunks : list DBPersistenceThunk) : Prop :=
  Forall (fun kv => is_Some (msg kv)) (thunks ≫= kvs).

Lemma get_shard_range account : 0 <= get_shard account < NUM_ACCOUNT_DB_SHARDS.
Proof.
  unfold get_shard, NUM_ACCOUNT_DB_SHARDS. change 0xFFFFFFFF with (2 ^ 32 - 1).
  rewrite land_ones_mod, shiftr_div by lia.
  assert (0 < 2 ^ 32) as H32 by lia. generalize (Z.mod_pos_bound (u64 (shorthash account)) (2 ^ 32) H32).
  generalize (u64 (shorthash account) mod 2 ^ 32). intros m Hm.
  assert (u64 (m * 16) = m * 16) as -> by (apply Z.mod_small; lia).
  split; [apply Z.div_pos; lia|apply Z.div_lt_upper_bound; lia].
Qed.

#[local] Opaque get_shard.

(** Reading the puts of one shard back. *)
Definition read_puts (k : Z) (old : option AccountCommitment) (puts : list (Z * AccountCommitment)) :=
  foldl (fun acc p => if decide (p.1 = k) then Some p.2 else acc) old puts.

Lemma put_kvs_spec idx l wtx :
  Forall (fun kv => is_Some (msg kv)) l ->
  exists wtx', put_kvs idx l wtx = Ok wtx' /\
    forall k old, get_shard k = Z.of_nat idx ->
    read_puts k old wtx' =
      foldl (fun acc kv => if decide (key kv = k) then msg kv else acc) (read_puts k old wtx) l.
Proof.
  intros Hl. revert wtx. induction Hl as [|kv l [m Hm] Hl IH]; intros wtx; simpl; [by exists wtx|].
  unfold owns_account. destruct (Z.eqb_spec (get_shard (key kv)) (Z.of_nat idx)) as [E|E]; simpl.
  - rewrite Hm. destruct (IH (wtx ++ [(key kv, m)])) as (wtx' & -> & R). exists wtx'. split; [done|].
    intros k old Hk. rewrite (R k old Hk). unfold read_puts at 1. rewrite foldl_app. done.
  - destruct (IH wtx) as (wtx' & -> & R). exists wtx'. split; [done|]. intros k old Hk.
    rewrite (R k old Hk). destruct (decide (key kv = k)) as [Ek|]; [congruence|done].
Qed.

Lemma increasing_le thunks from max : increasing from thunks max -> from <= max.
Proof.
  revert from. induction thunks as [|y ths IH]; simpl; intros from; [done|].
  intros [? Hi]. specialize (IH _ Hi). lia.
Qed.

Lemma exec_loop_spec idx start thunks wtx cur max :
  assigned thunks -> increasing cur thunks max -> 0 <= cur -> max < 2 ^ 63 ->
  exists wtx' cur', exec_loop idx false start thunks wtx cur = Ok (wtx', cur') /\ cur' <= max /\
    forall k old, get_shard k = Z.of_nat idx ->
      read_puts k old wtx' = last_write thunks k (read_puts k old wtx).
Proof.
  intros Ha Hi Hc Hmax. revert wtx cur Hi Hc Ha. induction thunks as [|th ths IH]; intros wtx cur Hi Hc Ha.
  - exists wtx, cur. done.
  - destruct Hi as [Hlt Hi]. unfold assigned in Ha. rewrite bind_cons in Ha. apply Forall_app in Ha as [Ha1 Ha2].
    pose proof (increasing_le _ _ _ Hi).
    destruct (put_kvs_spec idx (kvs th) wtx Ha1) as (wtx1 & E1 & R1).
    destruct (IH wtx1 (thunk_block_number th)) as (wtx' & cur' & E2 & Hle & R2); [done|lia|done|].
    exists wtx', cur'. cbn [exec_loop andb]. unfold exec_one_thunk.
    rewrite u64_id by (unfold in_u64; lia).
    destruct (Z.ltb_spec (thunk_block_number th) (cur + 1)); [lia|]. simpl. rewrite E1. simpl.
    rewrite E2. split; [done|]. split; [done|]. intros k old Hk.
    rewrite R2, R1 by done. unfold last_write. rewrite bind_cons, foldl_app. done.
Qed.

Lemma exec_workers_spec idx l thunks max :
  assigned thunks -> max < 2 ^ 63 ->
  Forall (fun s => 0 <= lmdb_get_persisted_round_number s /\
                   increasing (lmdb_get_persisted_round_number s) thunks max) l ->
  exists l', exec_workers idx l thunks max false = Ok l' /\ length l' = length l /\
    Forall (fun s => lmdb_get_persisted_round_number s = max) l' /\
    forall j s k, l !! j = Some s -> get_shard k = Z.of_nat (idx + j) ->
      exists s', l' !! j = Some s' /\ lmdb_get s' k = last_write thunks k (lmdb_get s k).
Proof.
  intros Ha Hmax Hl. revert idx. induction Hl as [|s l [Hs0 Hs] Hl IH]; intros idx; simpl.
  - exists []. split; [done|]. split; [done|]. split; [constructor|]. done.
  - destruct (IH (S idx)) as (l' & -> & Hlen & Hr & Hget). unfold exec_thunks.
    destruct (exec_loop_spec idx (lmdb_get_persisted_round_number s) thunks [] _ max
      Ha Hs Hs0 Hmax) as (wtx & cur & -> & Hle & R).
    simpl. destruct (Z.ltb_spec max cur); [lia|]. simpl.
    eexists. split; [reflexivity|]. split; [simpl; lia|].
    split; [constructor; [apply lmdb_round_commit|done]|].
    intros [|j] s0 k Hj Hk; simpl in Hj.
    + injection Hj as <-. eexists. split; [reflexivity|]. rewrite lmdb_get_commit.
      rewrite Nat.add_0_r in Hk. exact (R k (lmdb_get s k) Hk).
    + apply (Hget j s0 k Hj). rewrite Hk. lia.
Qed.
End Store.
Arguments t : clear implicits.
End AccountLMDB.

(** ** Properties *)
Module AccountLMDBProps.
Import AccountLMDB.
#[local] Opaque get_shard.

(** Persisting a sequence of blocks: when the thunks are in increasing
    block order after what every shard holds, [persist_thunks] succeeds on
    every shard, afterwards all the shards agree on the persisted round
    ([assert_snapshot] cannot report a shorn read), and reading any account
    back gives exactly the last record the blocks wrote for it, or the old
    record when they wrote none, whatever shard the keyed hash assigns it
    to. *)
Lemma persist_thunks_reads_back {L} `{LMDBInstance L} (shorthash : Z -> Z) (db : t L) thunks max :
  length (shards db) = Z.to_nat NUM_ACCOUNT_DB_SHARDS ->
  assigned thunks -> max < 2 ^ 63 ->
  min_persisted_round_number db <= max -> max_persisted_round_number db <= max ->
  Forall (fun s => 0 <= lmdb_get_persisted_round_number s /\
                   increasing (lmdb_get_persisted_round_number s) thunks max) (shards db) ->
  exists db', persist_thunks shorthash db thunks max false = Ok db' /\
    assert_snapshot_and_get_persisted_round_number db' = Ok max /\
    (forall account, get_persisted_round_number_by_account shorthash db' account = Ok max) /\
    (forall account, exists old, rtxn_get shorthash db account = Ok old /\
       rtxn_get shorthash db' account = Ok (last_write thunks account old)).
Proof.
  intros Hlen Ha Hmax Hmin Hmx Hl.
  destruct (exec_workers_spec shorthash 0 (shards db) thunks max Ha Hmax Hl) as (l' & E & Hlen' & Hr & Hget).
  unfold persist_thunks. rewrite E. simpl. eexists. split; [reflexivity|].
  assert (Hat : forall l account, length l = Z.to_nat NUM_ACCOUNT_DB_SHARDS ->
    exists s : L, l !! Z.to_nat (get_shard shorthash account) = Some s /\
      vec_at l (get_shard shorthash account) = Ok s).
  { intros l a Hl'. pose proof (get_shard_range shorthash a) as R. unfold NUM_ACCOUNT_DB_SHARDS in *.
    destruct (lookup_lt_is_Some_2 l (Z.to_nat (get_shard shorthash a)) ltac:(lia)) as [s Hs].
    exists s. unfold vec_at. rewrite Hs. destruct (Z.leb_spec 0 (get_shard shorthash a)); [done|lia]. }
  split; [|split].
  - unfold assert_snapshot_and_get_persisted_round_number. simpl. rewrite !Z.max_r by done.
    by rewrite Z.eqb_refl.
  - intros a. destruct (Hat l' a ltac:(congruence)) as (s & Hs & Ev).
    unfold get_persisted_round_number_by_account. simpl. rewrite Ev. simpl. f_equal.
    exact (Forall_lookup_1 _ _ _ _ Hr Hs).
  - intros a. destruct (Hat (shards db) a Hlen) as (s & Hs & Ev).
    destruct (Hget _ s a Hs) as (s' & Hs' & G).
    { simpl. rewrite Z2Nat.id; [done|apply get_shard_range]. }
    destruct (Hat l' a ltac:(congruence)) as (s2 & Hs2 & Ev2).
    assert (s2 = s') as -> by congruence.
    exists (lmdb_get s a). unfold rtxn_get. simpl. rewrite Ev, Ev2. simpl. by rewrite G.
Qed.

(** A store that is a function and a round number. *)
#[global] Program Instance example_lmdb : LMDBInstance ((Z -> option AccountCommitment) * Z) := {
  lmdb_get l := l.1;
  lmdb_get_persisted_round_number l := l.2;
  lmdb_commit_wtxn l puts round :=
    (fun k => foldl (fun acc p => if decide (p.1 = k) then Some p.2 else acc) (l.1 k) puts, round)
}.
Next Obligation. done. Qed.
Next Obligation. done. Qed.

Definition record (n : Z) : AccountCommitment := mkAccountCommitment 5 [mkAssetCommitment 0 n] 256 [].
Definition example_db : t ((Z -> option AccountCommitment) * Z) :=
  create_db (replicate 16 (fun _ => None, 0)).

End AccountLMDBProps.
