(* ===== verification/Database.v ===== *)
(** * The account database (src/memory_database/memory_database.h, .cc)

    [MemoryDatabase]: the index from account ids to account slots, the accounts
    created in the current block, the reserved account ids, the Merkle trie of
    account records and the log of which blocks created how many accounts.

    A [UserAccount*] into the database is the index of its slot: rows of the
    account vector never move, and [AccountVectorProps] proves that the vector
    is the list used here.  The Merkle trie library is outside the repository;
    [MerkleTrie] states what its operations do to the map it stores, and that
    its root hash is a function of that map. *)
From stdpp Require Import base gmap list strings.
From S2P Require Import Prelude Types Asset SeqTracker Accounts AccountLmdb.

Class MerkleTrie (V TR : Type) := {
  trie_map : TR -> gmap Z V;
  trie_empty : TR;
  trie_insert : TR -> Z -> V -> TR;
  trie_perform_deletion : TR -> Z -> TR;
  trie_modify_value : TR -> Z -> (V -> V) -> TR;
  trie_hash : TR -> list Z;
  trie_map_empty : trie_map trie_empty = ∅;
  trie_map_insert t k v : trie_map (trie_insert t k v) = <[k := v]> (trie_map t);
  trie_map_deletion t k : trie_map (trie_perform_deletion t k) = delete k (trie_map t);
  trie_map_modify t k f v : trie_map t !! k = Some v ->
    trie_map (trie_modify_value t k f) = <[k := f v]> (trie_map t);
  trie_hash_map t1 t2 : trie_map t1 = trie_map t2 -> trie_hash t1 = trie_hash t2
}.

Record AccountCreationThunk := mkCreationThunk {
  current_block_number : Z;
  num_accounts_created : Z
}.

Module MemoryDatabase.
Definition NATIVE_ASSET : Z := 0.

Section DB.
Context {T : Type} `{SequenceTracker T}.
Context {TR : Type} `{MerkleTrie AccountCommitment TR}.
Context {L : Type} `{LMDBInstance L}.

Record t := mk {
  user_id_to_idx_map : gmap Z nat;
  reserved_account_ids : gset Z;
  database : list (UserAccount.t T);
  uncommitted_db : list (UserAccount.t T);
  commitment_trie : TR;
  account_lmdb_instance : AccountLMDB.t L;
  account_creation_thunks : list AccountCreationThunk
}.

Definition set_database (db : t) (l : list (UserAccount.t T)) : t :=
  mk (user_id_to_idx_map db) (reserved_account_ids db) l (uncommitted_db db) (commitment_trie db)
    (account_lmdb_instance db) (account_creation_thunks db).
Definition set_reserved (db : t) (r : gset Z) : t :=
  mk (user_id_to_idx_map db) r (database db) (uncommitted_db db) (commitment_trie db)
    (account_lmdb_instance db) (account_creation_thunks db).
Definition set_uncommitted (db : t) (l : list (UserAccount.t T)) : t :=
  mk (user_id_to_idx_map db) (reserved_account_ids db) (database db) l (commitment_trie db)
    (account_lmdb_instance db) (account_creation_thunks db).
Definition set_trie (db : t) (tr : TR) : t :=
  mk (user_id_to_idx_map db) (reserved_account_ids db) (database db) (uncommitted_db db) tr
    (account_lmdb_instance db) (account_creation_thunks db).

(** ** Operations through a pointer *)
Definition transfer_available (db : t) (user_index : nat) (asset_type change : Z) : t :=
  set_database db (alter (fun a => UserAccount.transfer_available a asset_type change) user_index (database db)).

Definition escrow (db : t) (user_index : nat) (asset_type change : Z) : t :=
  set_database db (alter (fun a => UserAccount.escrow a asset_type change) user_index (database db)).

(** Runs [f] on the account; a dangling index cannot be dereferenced. *)
Definition on_account {R} (db : t) (i : nat) (f : UserAccount.t T -> UserAccount.t T * R) : result (t * R) :=
  match database db !! i with
  | Some a => let '(a', r) := f a in Ok (set_database db (<[i := a']> (database db)), r)
  | None => Throw "dangling UserAccount pointer"
  end.

Definition conditional_transfer_available (db : t) (user_index : nat) (asset_type change : Z) : result (t * bool) :=
  on_account db user_index (fun a => UserAccount.conditional_transfer_available a asset_type change).
Definition conditional_escrow (db : t) (user_index : nat) (asset_type change : Z) : result (t * bool) :=
  on_account db user_index (fun a => UserAccount.conditional_escrow a asset_type change).
Definition reserve_sequence_number (db : t) (user_index : nat) (sequence_number : Z)
    : result (t * TransactionProcessingStatus) :=
  on_account db user_index (fun a => UserAccount.reserve_sequence_number a sequence_number).
Definition release_sequence_number (db : t) (user_index : nat) (sequence_number : Z) : result t :=
  match database db !! user_index with
  | Some a =>
      let* a' := UserAccount.release_sequence_number a sequence_number in
      Ok (set_database db (<[user_index := a']> (database db)))
  | None => Throw "dangling UserAccount pointer"
  end.
Definition commit_sequence_number (db : t) (user_index : nat) (sequence_number : Z) : t :=
  set_database db (alter (fun a => UserAccount.commit_sequence_number a sequence_number) user_index (database db)).

Definition lookup_available_balance (db : t) (user_index : nat) (asset_type : Z) : Z :=
  default 0 ((fun a => UserAccount.lookup_available_balance a asset_type) <$> database db !! user_index).
Definition get_last_committed_seq_number (db : t) (idx : nat) : option Z :=
  UserAccount.get_last_committed_seq_number <$> database db !! idx.

(** ** Accounts *)
Definition account_exists (db : t) (account : Z) : bool :=
  bool_decide (is_Some (user_id_to_idx_map db !! account)).
Definition lookup_user (db : t) (account : Z) : option nat := user_id_to_idx_map db !! account.
Definition get_pk_nolock (db : t) (account : Z) : option PublicKey :=
  i ← user_id_to_idx_map db !! account; UserAccount.pk <$> database db !! i.
Definition get_pk := get_pk_nolock.

Definition reserve_account_creation (db : t) (account : Z) : t * TransactionProcessingStatus :=
  match user_id_to_idx_map db !! account with
  | Some _ => (db, NEW_ACCOUNT_ALREADY_EXISTS)
  | None =>
      if decide (account ∈ reserved_account_ids db) then (db, NEW_ACCOUNT_TEMP_RESERVED)
      else (set_reserved db ({[account]} ∪ reserved_account_ids db), SUCCESS)
  end.
Definition release_account_creation (db : t) (account : Z) : t :=
  set_reserved db (reserved_account_ids db ∖ {[account]}).
Definition commit_account_creation (db : t) (account_id : Z) (account_data : UserAccount.t T) : t :=
  set_uncommitted db (uncommitted_db db ++ [account_data]).

Definition clear_internal_data_structures (db : t) : t :=
  set_reserved (set_uncommitted db []) ∅.

(** [produce_commitment()] of an account; a call that never returns (256 or
    more assets) is reported as a throw. *)
Definition account_commitment (a : UserAccount.t T) : result AccountCommitment :=
  match UserAccount.produce_commitment 255 a with
  | Some c => Ok c
  | None => Throw "produce_commitment does not return"
  end.
Definition tentative_account_commitment (a : UserAccount.t T) : result AccountCommitment :=
  match UserAccount.tentative_commitment 255 a with
  | Some c => Ok c
  | None => Throw "tentative_commitment does not return"
  end.

(** ** New accounts *)
Definition block_number_ok (db : t) (current_block_number' : Z) : bool :=
  let min_db_round := (AccountLMDB.get_min_max_persisted_round_numbers (account_lmdb_instance db)).1 in
  let mismatch :=
    match last (account_creation_thunks db) with
    | None => negb (u64 (min_db_round + 1) =? current_block_number')
    | Some th => negb (u64 (current_block_number th + 1) =? current_block_number')
    end in
  negb mismatch || ((current_block_number' =? 0) && (min_db_round =? 0)).

Definition commit_new_account (db : t) (uncommitted : UserAccount.t T) : result t :=
  let acct := UserAccount.commit uncommitted in
  let owner := UserAccount.owner acct in
  let* c := account_commitment acct in
  Ok (mk (<[owner := length (database db)]> (user_id_to_idx_map db))
         (reserved_account_ids db)
         (database db ++ [acct]) (uncommitted_db db)
         (trie_insert (commitment_trie db) owner c)
         (account_lmdb_instance db) (account_creation_thunks db)).

Fixpoint commit_new_accounts_loop (l : list (UserAccount.t T)) (db : t) : result t :=
  match l with
  | [] => Ok db
  | a :: l => let* db := commit_new_account db a in commit_new_accounts_loop l db
  end.

Definition push_thunk (db : t) (th : AccountCreationThunk) : t :=
  mk (user_id_to_idx_map db) (reserved_account_ids db) (database db) (uncommitted_db db) (commitment_trie db)
    (account_lmdb_instance db) (account_creation_thunks db ++ [th]).

Definition commit_new_accounts (db : t) (current_block_number : Z) : result t :=
  if negb (block_number_ok db current_block_number)
  then Throw "account creation thunks block number error"
  else
    let n := Z.of_nat (length (uncommitted_db db)) in
    let* db := commit_new_accounts_loop (uncommitted_db db) db in
    Ok (clear_internal_data_structures (push_thunk db (mkCreationThunk current_block_number n))).

(** Forget the accounts in slots [idx ..]: the index entry and the trie entry. *)
Definition forget_owner (db : t) (a : UserAccount.t T) : t :=
  mk (delete (UserAccount.owner a) (user_id_to_idx_map db)) (reserved_account_ids db) (database db)
    (uncommitted_db db) (trie_perform_deletion (commitment_trie db) (UserAccount.owner a))
    (account_lmdb_instance db) (account_creation_thunks db).

Definition undo_creation (db : t) (th : AccountCreationThunk) : result t :=
  let n := Z.to_nat (num_accounts_created th) in
  if decide (length (database db) < n)%nat then Throw "AccountVector::erase underflow"
  else
    let keep := (length (database db) - n)%nat in
    let db := foldl forget_owner db (drop keep (database db)) in
    Ok (set_database db (take keep (database db))).

Definition set_thunks (db : t) (ths : list AccountCreationThunk) : t :=
  mk (user_id_to_idx_map db) (reserved_account_ids db) (database db) (uncommitted_db db) (commitment_trie db)
    (account_lmdb_instance db) ths.

(** The loop over the thunks, erasing the ones it undoes. *)
Fixpoint rollback_loop (ths kept : list AccountCreationThunk) (block : Z) (db : t) : result t :=
  match ths with
  | [] => Ok (set_thunks db kept)
  | th :: ths =>
      if block <? current_block_number th then
        let* db := undo_creation db th in rollback_loop ths kept block db
      else rollback_loop ths (kept ++ [th]) block db
  end.

Definition rollback_new_accounts_ (db : t) (block : Z) : result t :=
  let* db := rollback_loop (account_creation_thunks db) [] block db in
  Ok (clear_internal_data_structures db).
Definition rollback_new_accounts := rollback_new_accounts_.

(** ** Values.  An [AccountModificationLog] is iterated by its keys. *)
Fixpoint commit_values (db : t) (dirty_accounts : list Z) : result t :=
  match dirty_accounts with
  | [] => Ok db
  | owner :: rest =>
      match lookup_user db owner with
      | Some i => commit_values (set_database db (alter UserAccount.commit i (database db))) rest
      | None => Throw "couldn't lookup new acct"
      end
  end.
Definition commit_all_values (db : t) : t := set_database db (UserAccount.commit <$> database db).
Definition rollback_values (db : t) : t := set_database db (UserAccount.rollback <$> database db).

Definition check_valid_state (db : t) (dirty_accounts : list Z) : bool :=
  forallb (fun owner =>
    match lookup_user db owner with
    | None => true
    | Some i => match database db !! i with Some a => UserAccount.in_valid_state a | None => true end
    end) dirty_accounts &&
  forallb UserAccount.in_valid_state (uncommitted_db db).

(** One key of [TentativeValueModifyLambda] / [ProduceValueModifyLambda]:
    [user_id_to_idx_map.at(owner)] throws when the account is absent. *)
Definition modify_trie_entry (commitment : UserAccount.t T -> result AccountCommitment)
    (db : t) (owner : Z) : result t :=
  match user_id_to_idx_map db !! owner with
  | None => Throw "map::at"
  | Some i =>
      match database db !! i with
      | None => Throw "dangling UserAccount pointer"
      | Some a =>
          let* c := commitment a in
          Ok (set_trie db (trie_modify_value (commitment_trie db) owner (fun _ => c)))
      end
  end.

Fixpoint modify_trie_entries (commitment : UserAccount.t T -> result AccountCommitment)
    (db : t) (log : list Z) : result t :=
  match log with
  | [] => Ok db
  | owner :: log =>
      let* db := modify_trie_entry commitment db owner in modify_trie_entries commitment db log
  end.

Definition tentative_produce_state_commitment (db : t) (log : list Z) : result (t * list Z) :=
  let* db := modify_trie_entries tentative_account_commitment db log in
  Ok (db, trie_hash (commitment_trie db)).
Definition set_trie_commitment_to_user_account_commits (db : t) (log : list Z) : result t :=
  modify_trie_entries account_commitment db log.
Definition rollback_produce_state_commitment := set_trie_commitment_to_user_account_commits.
Definition finalize_produce_state_commitment (db : t) : t := db.
Definition produce_state_commitment (db : t) (log : list Z) : result (t * list Z) :=
  let* db := set_trie_commitment_to_user_account_commits db log in
  Ok (db, trie_hash (commitment_trie db)).

(** ** Persistence *)
(** [KVAssignment::operator=] *)
Definition thunk_entry (db : t) (account : Z) : result ThunkKVPair :=
  match lookup_user db account with
  | None => Throw "can't commit invalid account"
  | Some i =>
      match database db !! i with
      | None => Throw "dangling UserAccount pointer"
      | Some a => let* c := account_commitment a in Ok (mkThunkKVPair account (Some c))
      end
  end.
Fixpoint thunk_entries (db : t) (log : list Z) : result (list ThunkKVPair) :=
  match log with
  | [] => Ok []
  | a :: log => let* e := thunk_entry db a in let* l := thunk_entries db log in Ok (e :: l)
  end.
Definition add_persistence_thunk (db : t) (current_block_number : Z) (log : list Z)
    (persistence_thunks : list DBPersistenceThunk) : result (list DBPersistenceThunk) :=
  let* l := thunk_entries db log in Ok (persistence_thunks ++ [mkThunk l current_block_number]).

(** [commit_persistence_thunks]: the thunks up to [max_round_number] are
    persisted and removed, with the account creation thunks. *)
Definition commit_persistence_thunks (shorthash : Z -> Z) (db : t) (persistence_thunks : list DBPersistenceThunk)
    (max_round_number : Z) : result (t * list DBPersistenceThunk) :=
  let thunks_to_commit :=
    List.filter (fun th => thunk_block_number th <=? max_round_number) persistence_thunks in
  let remaining :=
    List.filter (fun th => negb (thunk_block_number th <=? max_round_number)) persistence_thunks in
  let* lmdb := AccountLMDB.persist_thunks shorthash (account_lmdb_instance db) thunks_to_commit max_round_number false in
  Ok (mk (user_id_to_idx_map db) (reserved_account_ids db) (database db) (uncommitted_db db)
        (commitment_trie db) lmdb
        (List.filter (fun th => negb (current_block_number th <=? max_round_number)) (account_creation_thunks db)),
      remaining).

(** ** Invariants and lemmas *)

(** The index maps exactly the owners of the slots. *)
Definition index_wf (m : gmap Z nat) (l : list (UserAccount.t T)) : Prop :=
  forall id i, m !! id = Some i <-> exists a, l !! i = Some a /\ UserAccount.owner a = id.

Record wf (db : t) : Prop := {
  wf_index : index_wf (user_id_to_idx_map db) (database db);
  wf_trie : forall id, is_Some (trie_map (commitment_trie db) !! id) <->
                       is_Some (user_id_to_idx_map db !! id)
}.

Lemma index_wf_snoc m l a :
  index_wf m l -> m !! UserAccount.owner a = None ->
  index_wf (<[UserAccount.owner a := length l]> m) (l ++ [a]).
Proof.
  intros Hm Hnew id i. rewrite lookup_insert. case_decide as Hid.
  - subst id. split.
    + intros [= <-]. exists a. rewrite lookup_app_r, Nat.sub_diag by lia. done.
    + intros (b & [Hb|[Hge Hb]]%lookup_app_Some & Ho).
      * assert (is_Some (m !! UserAccount.owner a)) as [? ?] by (exists i; apply Hm; eauto). congruence.
      * apply list_lookup_singleton_Some in Hb as [? _]. f_equal. lia.
  - rewrite (Hm id i). split; intros (b & Hb & Ho); exists b; split; try done.
    + by apply lookup_app_l_Some.
    + apply lookup_app_Some in Hb as [Hb|[_ Hb]]; [done|].
      apply list_lookup_singleton_Some in Hb as [_ <-]. congruence.
Qed.

Lemma index_wf_fresh m l id : index_wf m l -> m !! id = None <-> id ∉ UserAccount.owner <$> l.
Proof.
  intros Hm. split.
  - intros Hn (a & -> & [i Hi]%list_elem_of_lookup)%list_elem_of_fmap.
    assert (m !! UserAccount.owner a = Some i) by (apply Hm; eauto). congruence.
  - intros Hn. destruct (m !! id) as [i|] eqn:E; [|done]. apply Hm in E as (a & Ha & <-).
    destruct Hn. apply list_elem_of_fmap. exists a. split; [done|]. by eapply list_elem_of_lookup_2.
Qed.

Lemma lookup_foldl_delete {V} (m : gmap Z V) (l : list (UserAccount.t T)) id :
  foldl (fun m a => delete (UserAccount.owner a) m) m l !! id =
    if decide (id ∈ UserAccount.owner <$> l) then None else m !! id.
Proof.
  revert m. induction l as [|a l IH]; intros m; cbn [foldl].
  - rewrite decide_False; [done|]. apply not_elem_of_nil.
  - rewrite IH, fmap_cons. destruct (decide (id ∈ UserAccount.owner <$> l)) as [Hin|Hin].
    + rewrite decide_True; [done|]. by apply elem_of_cons; right.
    + destruct (decide (id = UserAccount.owner a)) as [->|Hne].
      * rewrite decide_True, lookup_delete_eq by (apply elem_of_cons; by left). done.
      * rewrite decide_False, lookup_delete_ne; [done|done|].
        intros [?|?]%elem_of_cons; done.
Qed.

Lemma forget_owners db l :
  foldl forget_owner db l =
    mk (foldl (fun m a => delete (UserAccount.owner a) m) (user_id_to_idx_map db) l)
      (reserved_account_ids db) (database db) (uncommitted_db db)
      (foldl (fun tr a => trie_perform_deletion tr (UserAccount.owner a)) (commitment_trie db) l)
      (account_lmdb_instance db) (account_creation_thunks db).
Proof. revert db. induction l as [|a l IH]; intros []; simpl; [done|]. by rewrite IH. Qed.

Lemma trie_map_foldl_deletion tr (l : list (UserAccount.t T)) :
  trie_map (foldl (fun tr a => trie_perform_deletion tr (UserAccount.owner a)) tr l)
    = foldl (fun m a => delete (UserAccount.owner a) m) (trie_map tr) l.
Proof. revert tr. induction l as [|a l IH]; intros tr; simpl; [done|]. by rewrite IH, trie_map_deletion. Qed.

Definition created (ths : list AccountCreationThunk) : nat :=
  Z.to_nat (sum_by (fun th => Z.max 0 (num_accounts_created th)) ths).

Lemma created_cons th ths :
  created (th :: ths) = (Z.to_nat (num_accounts_created th) + created ths)%nat.
Proof.
  unfold created. rewrite sum_by_cons.
  assert (0 <= sum_by (fun th => Z.max 0 (num_accounts_created th)) ths).
  { apply sum_by_nonneg, Forall_forall. intros; lia. }
  lia.
Qed.

(** Undoing thunks forgets exactly the accounts in the slots it drops. *)
Lemma rollback_loop_undo ths kept block db :
  Forall (fun th => block < current_block_number th) ths ->
  (created ths <= length (database db))%nat ->
  let keep := (length (database db) - created ths)%nat in
  exists db', rollback_loop ths kept block db = Ok db' /\
    database db' = take keep (database db) /\
    account_creation_thunks db' = kept /\
    (forall id, user_id_to_idx_map db' !! id =
       if decide (id ∈ UserAccount.owner <$> drop keep (database db)) then None
       else user_id_to_idx_map db !! id) /\
    (forall id, trie_map (commitment_trie db') !! id =
       if decide (id ∈ UserAccount.owner <$> drop keep (database db)) then None
       else trie_map (commitment_trie db) !! id).
Proof.
  intros Hths. revert db. induction Hths as [|th ths Hth Hths IH]; intros db Hlen; cbn [rollback_loop].
  - eexists. split; [reflexivity|]. change (created []) with 0%nat. rewrite Nat.sub_0_r. simpl.
    rewrite firstn_all, drop_all. split; [done|]. split; [done|].
    split; intros id; (rewrite decide_False; [done|]; apply not_elem_of_nil).
  - rewrite created_cons in *. destruct (Z.ltb_spec block (current_block_number th)); [|lia].
    unfold undo_creation. destruct (decide _) as [|Hge]; [lia|]. cbn [result_bind].
    set (n := Z.to_nat (num_accounts_created th)) in *. rewrite forget_owners.
    unfold set_database. simpl.
    set (k1 := (length (database db) - n)%nat).
    match goal with |- exists db', rollback_loop _ _ _ ?d = _ /\ _ => set (db1 := d) end.
    destruct (IH db1) as (db' & -> & Hd & Ht & Hm & Htr).
    { unfold db1. simpl. rewrite length_take. lia. }
    assert (El : length (database db1) = k1) by (unfold db1; simpl; rewrite length_take; lia).
    rewrite El in *. exists db'. split; [done|].
    replace (length (database db) - (n + created ths))%nat with (k1 - created ths)%nat by lia.
    assert (Hin : forall id, id ∈ UserAccount.owner <$> drop (k1 - created ths) (database db) <->
      id ∈ UserAccount.owner <$> drop (k1 - created ths) (database db1) \/
      id ∈ UserAccount.owner <$> drop k1 (database db)).
    { intros id. rewrite <- elem_of_app, <- fmap_app. unfold db1. cbn [database].
      rewrite <- (take_drop k1 (database db)) at 1.
      rewrite drop_app_le by (rewrite length_take; lia). done. }
    split; [|split; [done|split; intros id; [rewrite Hm|rewrite Htr]]].
    + rewrite Hd. unfold db1. simpl. rewrite take_take. f_equal. lia.
    + specialize (Hin id).
      assert (user_id_to_idx_map db1 = foldl (fun m a => delete (UserAccount.owner a) m)
        (user_id_to_idx_map db) (drop k1 (database db))) as -> by done.
      rewrite lookup_foldl_delete.
      repeat case_decide; try done; tauto.
    + specialize (Hin id).
      assert (commitment_trie db1 = foldl (fun tr a => trie_perform_deletion tr (UserAccount.owner a))
        (commitment_trie db) (drop k1 (database db))) as -> by done.
      rewrite trie_map_foldl_deletion, lookup_foldl_delete.
      repeat case_decide; try done; tauto.
Qed.

Lemma rollback_loop_keep ths ths' kept block db :
  Forall (fun th => current_block_number th <= block) ths ->
  rollback_loop (ths ++ ths') kept block db = rollback_loop ths' (kept ++ ths) block db.
Proof.
  intros Hths. revert kept. induction Hths as [|th ths Hth Hths IH]; intros kept; simpl.
  - by rewrite app_nil_r.
  - destruct (Z.ltb_spec block (current_block_number th)); [lia|]. rewrite IH.
    by rewrite <- app_assoc.
Qed.

(** What committing a list of fresh accounts does. *)
Lemma commit_new_accounts_loop_spec l db db' :
  wf db -> NoDup (UserAccount.owner <$> l) ->
  (forall id, id ∈ UserAccount.owner <$> l -> user_id_to_idx_map db !! id = None) ->
  commit_new_accounts_loop l db = Ok db' ->
  wf db' /\ database db' = database db ++ (UserAccount.commit <$> l) /\
  account_creation_thunks db' = account_creation_thunks db /\
  account_lmdb_instance db' = account_lmdb_instance db /\
  (forall id, id ∉ UserAccount.owner <$> l ->
     user_id_to_idx_map db' !! id = user_id_to_idx_map db !! id /\
     trie_map (commitment_trie db') !! id = trie_map (commitment_trie db) !! id).
Proof.
  revert db. induction l as [|a l IH]; intros db Hwf Hnd Hfresh; simpl.
  - intros [= <-]. rewrite app_nil_r. done.
  - simpl in Hnd. apply NoDup_cons in Hnd as [Hna Hnd].
    rewrite result_bind_Ok. intros (db1 & E1 & E2).
    unfold commit_new_account in E1. apply result_bind_Ok in E1 as (c & _ & [= <-]).
    set (o := UserAccount.owner a) in *.
    change (UserAccount.owner (UserAccount.commit a)) with o in *.
    destruct Hwf as [Hi Ht].
    assert (Ho : user_id_to_idx_map db !! o = None) by (apply Hfresh, elem_of_cons; by left).
    match type of E2 with commit_new_accounts_loop _ ?d = _ => set (db1 := d) in E2 end.
    assert (Hwf1 : wf db1).
    { constructor; cbn [db1 user_id_to_idx_map database commitment_trie].
      - apply (index_wf_snoc _ _ (UserAccount.commit a)); done.
      - intros id. rewrite trie_map_insert, !lookup_insert.
        case_decide; [by split; eauto|]. apply Ht. }
    assert (Hf1 : forall id, id ∈ UserAccount.owner <$> l -> user_id_to_idx_map db1 !! id = None).
    { intros id Hid. cbn [db1 user_id_to_idx_map]. rewrite lookup_insert_ne.
      - apply Hfresh, elem_of_cons. by right.
      - intros ->. done. }
    destruct (IH db1 Hwf1 Hnd Hf1 E2) as (Hwf' & Hd & Hth & Hl & Hother).
    cbn [db1 database account_creation_thunks account_lmdb_instance user_id_to_idx_map commitment_trie] in *.
    rewrite <- app_assoc in Hd.
    split; [done|]. split; [done|]. split; [done|]. split; [done|].
    intros id [Hne Hid]%not_elem_of_cons. destruct (Hother id Hid) as [-> ->].
    rewrite trie_map_insert, !lookup_insert_ne by congruence. done.
Qed.

Lemma commit_new_accounts_spec db block db' :
  wf db -> NoDup (UserAccount.owner <$> uncommitted_db db) ->
  (forall id, id ∈ UserAccount.owner <$> uncommitted_db db -> user_id_to_idx_map db !! id = None) ->
  commit_new_accounts db block = Ok db' ->
  wf db' /\ database db' = database db ++ (UserAccount.commit <$> uncommitted_db db) /\
  account_creation_thunks db' = account_creation_thunks db ++
    [mkCreationThunk block (Z.of_nat (length (uncommitted_db db)))] /\
  account_lmdb_instance db' = account_lmdb_instance db /\
  uncommitted_db db' = [] /\ reserved_account_ids db' = ∅ /\
  (forall id, id ∉ UserAccount.owner <$> uncommitted_db db ->
     user_id_to_idx_map db' !! id = user_id_to_idx_map db !! id /\
     trie_map (commitment_trie db') !! id = trie_map (commitment_trie db) !! id).
Proof.
  intros Hwf Hnd Hf. unfold commit_new_accounts. destruct (negb _); [done|].
  rewrite result_bind_Ok. intros (db1 & E & [= <-]).
  destruct (commit_new_accounts_loop_spec _ _ _ Hwf Hnd Hf E) as ([Hi Ht] & Hd & Hth & Hl & Ho).
  simpl. rewrite Hth. split; [by constructor|]. done.
Qed.

(** A sequence of blocks, each with the accounts its transactions created. *)
Fixpoint run_blocks (db : t) (blocks : list (Z * list (UserAccount.t T))) : result t :=
  match blocks with
  | [] => Ok db
  | (block, accts) :: blocks =>
      let* db := commit_new_accounts (set_uncommitted db accts) block in run_blocks db blocks
  end.

Lemma run_blocks_spec blocks db db' :
  wf db ->
  NoDup (UserAccount.owner <$> (blocks ≫= snd)) ->
  (forall id, id ∈ UserAccount.owner <$> (blocks ≫= snd) -> user_id_to_idx_map db !! id = None) ->
  run_blocks db blocks = Ok db' ->
  exists ths, wf db' /\
  database db' = database db ++ (UserAccount.commit <$> (blocks ≫= snd)) /\
  account_creation_thunks db' = account_creation_thunks db ++ ths /\
  created ths = length (blocks ≫= snd) /\
  current_block_number <$> ths = blocks.*1 /\
  (forall id, id ∉ UserAccount.owner <$> (blocks ≫= snd) ->
     user_id_to_idx_map db' !! id = user_id_to_idx_map db !! id /\
     trie_map (commitment_trie db') !! id = trie_map (commitment_trie db) !! id).
Proof.
  revert db. induction blocks as [|[b l] blocks IH]; intros db Hwf Hnd Hf; cbn [run_blocks].
  - intros [= <-]. exists []. simpl. rewrite !app_nil_r. done.
  - rewrite result_bind_Ok. intros (db1 & E1 & E2).
    rewrite bind_cons in *. cbn [snd] in *. rewrite fmap_app in Hnd.
    setoid_rewrite fmap_app in Hf. apply NoDup_app in Hnd as (Hn1 & Hn12 & Hn2).
    destruct (commit_new_accounts_spec (set_uncommitted db l) b db1) as (Hwf1 & Hd1 & Ht1 & _ & _ & _ & Ho1);
      [by destruct Hwf; constructor|done|intros id Hid; apply Hf, elem_of_app; by left|done|].
    simpl in Hd1, Ht1, Ho1.
    destruct (IH db1 Hwf1 Hn2) as (ths & Hwf' & Hd & Ht & Hc & Hb & Ho); [|done|].
    { intros id Hid. rewrite (proj1 (Ho1 id ltac:(intros ?; by eapply Hn12))).
      apply Hf, elem_of_app. by right. }
    exists (mkCreationThunk b (Z.of_nat (length l)) :: ths). split; [done|].
    rewrite Hd, Hd1, (fmap_app UserAccount.commit), <- app_assoc. split; [done|].
    rewrite Ht, Ht1, <- app_assoc. split; [done|].
    rewrite created_cons, Hc, length_app. simpl. rewrite Nat2Z.id. split; [done|].
    split; [f_equal; exact Hb|]. intros id Hid. rewrite fmap_app in Hid. apply not_elem_of_app in Hid as [Hi1 Hi2].
    destruct (Ho id Hi2) as [-> ->]. by apply Ho1.
Qed.

End DB.
Arguments t : clear implicits.
End MemoryDatabase.

(** ** Properties *)
Module DatabaseProps.
Import MemoryDatabase.

Section Props.
Context {T : Type} `{SequenceTrackerRefines T}.
Context {TR : Type} `{MerkleTrie AccountCommitment TR}.
Context {L : Type} `{LMDBInstance L}.
Implicit Types db : t T TR L.

(** Rolling account creation back: after any number of blocks, each
    creating any number of accounts with fresh ids, [rollback_new_accounts]
    to an earlier block restores the account vector, the id index, the
    contents and the root hash of the state trie and the creation log, and
    leaves no reserved or uncommitted account behind. *)
Lemma rollback_restores_database db db1 blocks block :
  wf db ->
  NoDup (UserAccount.owner <$> (blocks ≫= snd)) ->
  (forall id, id ∈ UserAccount.owner <$> (blocks ≫= snd) -> user_id_to_idx_map db !! id = None) ->
  Forall (fun th => current_block_number th <= block) (account_creation_thunks db) ->
  Forall (fun b => block < b) (blocks.*1) ->
  run_blocks db blocks = Ok db1 ->
  exists db2, rollback_new_accounts db1 block = Ok db2 /\
    database db2 = database db /\
    user_id_to_idx_map db2 = user_id_to_idx_map db /\
    trie_map (commitment_trie db2) = trie_map (commitment_trie db) /\
    trie_hash (commitment_trie db2) = trie_hash (commitment_trie db) /\
    account_creation_thunks db2 = account_creation_thunks db /\
    reserved_account_ids db2 = ∅ /\ uncommitted_db db2 = [].
Proof.
  intros Hwf Hnd Hf Hold Hnew Hrun.
  destruct (run_blocks_spec blocks db db1 Hwf Hnd Hf Hrun) as (ths & Hwf1 & Hd & Ht & Hc & Hb & Ho).
  unfold rollback_new_accounts, rollback_new_accounts_.
  rewrite Ht, rollback_loop_keep by done. simpl app.
  destruct (rollback_loop_undo ths (account_creation_thunks db) block db1) as (db2 & -> & Hd2 & Ht2 & Hm2 & Htr2).
  { apply (Forall_fmap current_block_number (Z.lt block) ths). by rewrite Hb. }
  { rewrite Hd, Hc, length_app, length_fmap. lia. }
  assert (Hkeep : (length (database db1) - created ths)%nat = length (database db)).
  { rewrite Hd, Hc, length_app, length_fmap. lia. }
  rewrite Hkeep, Hd in *. rewrite drop_app_length, take_app_length in *.
  assert (Hown : UserAccount.owner <$> (UserAccount.commit <$> (blocks ≫= snd)) = UserAccount.owner <$> (blocks ≫= snd)).
  { rewrite <- list_fmap_compose. by apply list_fmap_ext. }
  rewrite Hown in *. eexists. split; [reflexivity|]. simpl.
  assert (Hmap : user_id_to_idx_map db2 = user_id_to_idx_map db).
  { apply map_eq. intros id. rewrite Hm2. case_decide as Hin; [by rewrite Hf|]. by apply Ho. }
  assert (Htrie : trie_map (commitment_trie db2) = trie_map (commitment_trie db)).
  { apply map_eq. intros id. rewrite Htr2. case_decide as Hin; [|by apply Ho].
    destruct (trie_map (commitment_trie db) !! id) eqn:E; [|done].
    assert (is_Some (user_id_to_idx_map db !! id)) as [? ?] by (apply Hwf; by rewrite E).
    rewrite Hf in *; done. }
  split_and!; try done. by apply trie_hash_map.
Qed.

Lemma commit_values_spec log db :
  wf db -> NoDup log -> (forall o, o ∈ log -> is_Some (user_id_to_idx_map db !! o)) ->
  exists db2, commit_values db log = Ok db2 /\
    user_id_to_idx_map db2 = user_id_to_idx_map db /\ commitment_trie db2 = commitment_trie db /\
    (forall i a, database db !! i = Some a ->
       database db2 !! i = Some (if decide (UserAccount.owner a ∈ log) then UserAccount.commit a else a)).
Proof.
  intros Hwf Hnd. revert db Hwf. induction Hnd as [|o log Ho Hnd IH]; intros db Hwf Hk; cbn [commit_values].
  - exists db. split; [done|]. split; [done|]. split; [done|]. intros i a Ha.
    rewrite decide_False; [done|]. apply not_elem_of_nil.
  - destruct (Hk o ltac:(apply elem_of_cons; by left)) as [i Hi]. unfold lookup_user. rewrite Hi.
    set (db1 := set_database db (alter UserAccount.commit i (database db))).
    assert (Hwf1 : wf db1).
    { destruct Hwf as [Hm Ht]. constructor; [|done]. intros id j.
      cbn [db1 set_database database user_id_to_idx_map]. rewrite (Hm id j).
      split; intros (a & Ha & Hown).
      - destruct (decide (i = j)) as [->|].
        + exists (UserAccount.commit a). rewrite list_lookup_alter_eq, Ha. done.
        + exists a. by rewrite list_lookup_alter_ne.
      - destruct (decide (i = j)) as [->|].
        + rewrite list_lookup_alter_eq in Ha. destruct (database db !! j) as [b|]; [|done].
          injection Ha as <-. by exists b.
        + rewrite list_lookup_alter_ne in Ha by done. by exists a. }
    destruct (IH db1 Hwf1) as (db2 & E & Em & Et & Hd).
    { intros o' Ho'. apply Hk, elem_of_cons. by right. }
    exists db2. split; [exact E|]. split; [done|]. split; [done|]. intros j a Ha.
    destruct Hwf as [Hm _]. apply Hm in Hi as (b & Hb & Hown).
    destruct (decide (i = j)) as [->|Hij].
    + assert (b = a) as -> by congruence.
      rewrite (Hd j (UserAccount.commit a)) by (cbn; by rewrite list_lookup_alter_eq, Ha).
      change (UserAccount.owner (UserAccount.commit a)) with (UserAccount.owner a).
      rewrite Hown, decide_False by done. rewrite decide_True; [done|]. apply elem_of_cons; by left.
    + rewrite (Hd j a) by (cbn; by rewrite list_lookup_alter_ne).
      assert (UserAccount.owner a <> o).
      { intros E1. assert (user_id_to_idx_map db !! o = Some j) by (apply Hm; eauto).
        assert (user_id_to_idx_map db !! o = Some i) by (apply Hm; eauto). congruence. }
      destruct (decide (UserAccount.owner a ∈ log)).
      * rewrite decide_True; [done|]. apply elem_of_cons; by right.
      * rewrite decide_False; [done|]. intros [?|?]%elem_of_cons; done.
Qed.

(** Two databases whose logged accounts are one commit apart. *)
Lemma modify_agree log (dbA dbB : t T TR L) :
  user_id_to_idx_map dbA = user_id_to_idx_map dbB ->
  trie_map (commitment_trie dbA) = trie_map (commitment_trie dbB) ->
  (forall o, o ∈ log -> is_Some (trie_map (commitment_trie dbA) !! o) /\ exists i a,
     user_id_to_idx_map dbA !! o = Some i /\ database dbA !! i = Some a /\
     database dbB !! i = Some (UserAccount.commit a) /\ st_wf (UserAccount.seq_tracker a) /\
     (length (UserAccount.owned_assets a ++ UserAccount.uncommitted_assets a) <= 255)%nat) ->
  exists dbA' dbB', modify_trie_entries tentative_account_commitment dbA log = Ok dbA' /\
    modify_trie_entries account_commitment dbB log = Ok dbB' /\
    trie_map (commitment_trie dbA') = trie_map (commitment_trie dbB').
Proof.
  revert dbA dbB. induction log as [|o log IH]; intros dbA dbB Hm Htr Hlog; simpl; [by eauto|].
  destruct (Hlog o ltac:(apply elem_of_cons; by left)) as ([v Hv] & i & a & Hi & Ha & Hb & Hw & Hlen).
  destruct (AccountProps.tentative_commit a 255 Hw ltac:(lia) Hlen) as (c & Ec & Ec').
  unfold modify_trie_entry. rewrite <- Hm, Hi, Ha, Hb. unfold tentative_account_commitment, account_commitment.
  rewrite Ec, Ec'. simpl. apply IH; [done| |].
  - simpl. rewrite (trie_map_modify _ o _ v Hv), (trie_map_modify _ o _ v) by (by rewrite <- Htr).
    by rewrite Htr.
  - intros o' Ho'. destruct (Hlog o' ltac:(apply elem_of_cons; by right)) as (Hs & Hrest).
    split; [|exact Hrest]. simpl. rewrite (trie_map_modify _ o _ v Hv).
    destruct (decide (o = o')) as [->|]; [by rewrite lookup_insert_eq|by rewrite lookup_insert_ne].
Qed.

(** C40.  Proposer and validator hash the same state: for the accounts in
    the modification log (whatever its order), the trie a validator
    produces from uncommitted balances with
    [tentative_produce_state_commitment] has the same contents and the same
    root hash as the one the proposer produces by committing the balances
    and calling [produce_state_commitment]. *)
Theorem tentative_hash_is_committed_hash db log :
  wf db -> NoDup log ->
  (forall o, o ∈ log -> exists i a, user_id_to_idx_map db !! o = Some i /\ database db !! i = Some a /\
     st_wf (UserAccount.seq_tracker a) /\
     (length (UserAccount.owned_assets a ++ UserAccount.uncommitted_assets a) <= 255)%nat) ->
  exists dbv dbc dbp h,
    tentative_produce_state_commitment db log = Ok (dbv, h) /\
    commit_values db log = Ok dbc /\
    produce_state_commitment dbc log = Ok (dbp, h) /\
    trie_map (commitment_trie dbv) = trie_map (commitment_trie dbp).
Proof.
  intros Hwf Hnd Hlog.
  destruct (commit_values_spec log db Hwf Hnd) as (dbc & Ec & Em & Et & Hd).
  { intros o Ho. destruct (Hlog o Ho) as (i & a & -> & _). eauto. }
  destruct (modify_agree log db dbc) as (dbv & dbp & Ev & Ep & E); [done|by rewrite Et| |].
  { intros o Ho. destruct (Hlog o Ho) as (i & a & Hi & Ha & Hw & Hlen).
    split; [apply Hwf; rewrite Hi; eauto|]. exists i, a. split_and!; try done.
    rewrite (Hd i a Ha). destruct Hwf as [Hm _]. apply Hm in Hi as (b & Hb & Hown).
    assert (b = a) as -> by congruence. by rewrite Hown, decide_True. }
  exists dbv, dbc, dbp, (trie_hash (commitment_trie dbp)).
  unfold tentative_produce_state_commitment, produce_state_commitment, set_trie_commitment_to_user_account_commits.
  rewrite Ev, Ep. simpl. rewrite (trie_hash_map _ _ E). done.
Qed.
End Props.

(** A trie that is its map, hashed by listing the owners' last ids. *)
#[global] Program Instance example_trie : MerkleTrie AccountCommitment (gmap Z AccountCommitment) := {
  trie_map t := t;
  trie_empty := ∅;
  trie_insert t k v := <[k := v]> t;
  trie_perform_deletion t k := delete k t;
  trie_modify_value t k f := alter f k t;
  trie_hash t := (fun p => p.1 + last_committed_id p.2) <$> map_to_list t
}.
Next Obligation. done. Qed.
Next Obligation. done. Qed.
Next Obligation. done. Qed.
Next Obligation.
  intros t k f v Hk. apply map_eq. intros j. destruct (decide (k = j)) as [->|].
  - rewrite lookup_alter_eq, lookup_insert_eq, Hk. done.
  - by rewrite lookup_alter_ne, lookup_insert_ne.
Qed.
Next Obligation. by intros ? ? ->. Qed.

Abbreviation example_t := (t UInt64SequenceTracker.t (gmap Z AccountCommitment) ((Z -> option AccountCommitment) * Z)).
Definition acct (owner avail : Z) : UserAccount.t UInt64SequenceTracker.t :=
  UserAccount.mk [RevertableAsset.mk avail 100] [] (UInt64SequenceTracker.mk 256 1) owner [].
Definition record (owner : Z) : AccountCommitment :=
  mkAccountCommitment owner [mkAssetCommitment 0 100] 256 [].
Definition example_db : example_t :=
  mk {[ 7 := 0%nat ]} ∅ [acct 7 90] [] {[ 7 := record 7 ]} AccountLMDBProps.example_db [].

Lemma example_wf : wf example_db.
Proof.
  constructor.
  - intros id [|i]; simpl; rewrite lookup_singleton; case_decide as E; split; try done.
    + intros _. exists (acct 7 90). by subst.
    + intros (a & [= <-] & Hown). by simpl in Hown.
    + by intros (a & ? & _).
    + by intros (a & ? & _).
  - intros id. simpl. rewrite !lookup_singleton. case_decide; split; intros [? ?]; eauto; done.
Qed.

Lemma tentative_hash_is_committed_hash_witness :
  exists dbv h, tentative_produce_state_commitment example_db [7] = Ok (dbv, h).
Proof.
  destruct (tentative_hash_is_committed_hash example_db [7]) as (dbv & dbc & dbp & h & E & _).
  - exact example_wf.
  - apply NoDup_singleton.
  - intros o ->%list_elem_of_singleton. exists 0%nat, (acct 7 90). split; [reflexivity|]. split; [reflexivity|].
    split; [split; simpl; lia|simpl; lia].
  - exists dbv, h. exact E.
Defined.
End DatabaseProps.
