(* ===== verification/DbView.v ===== *)
(** * Transaction-local views of the database
    (src/memory_database/memory_database_view.h, .cc)

    [UserAccountView] and [BufferedMemoryDatabaseView] (block production: credits
    are buffered, debits are applied at once and undone by [unwind]),
    [UnbufferedMemoryDatabaseView] (validation: everything is applied at once)
    and [LoadLMDBMemoryDatabaseView] (replay of blocks the store already
    holds).  The class [DatabaseView] is the interface the transaction
    processor uses.

    A view holds a reference to the main database, so every operation takes and
    returns the pair of the database and the view. *)
From stdpp Require Import base gmap list strings.
From S2P Require Import Prelude Types Asset SeqTracker Accounts AccountLmdb Database.

(** A [UserAccount*]: a slot of the database, or an account created in this
    view, which is identified by its id. *)
Inductive ptr := DbPtr (i : nat) | NewPtr (id : Z).
#[export] Instance ptr_eq_dec : EqDecision ptr.
Proof. solve_decision. Defined.

(** The interface of the views. *)
Class DatabaseView (D V : Type) := {
  dv_lookup_user : D -> V -> Z -> option ptr;
  dv_create_new_account : D -> V -> Z -> PublicKey -> result (D * V * TransactionProcessingStatus * option ptr);
  dv_reserve_sequence_number : D -> V -> ptr -> Z -> result (D * V * TransactionProcessingStatus);
  dv_escrow : D -> V -> ptr -> Z -> Z -> result (D * V * TransactionProcessingStatus);
  dv_transfer_available : D -> V -> ptr -> Z -> Z -> result (D * V * TransactionProcessingStatus);
  dv_commit : D -> V -> D
}.

Section Views.
Context {T : Type} `{SequenceTracker T}.
Context {TR : Type} `{MerkleTrie AccountCommitment TR}.
Context {L : Type} `{LMDBInstance L}.

Abbreviation DB := (MemoryDatabase.t T TR L).
Abbreviation account := (UserAccount.t T).

Definition status_of (ok : bool) : TransactionProcessingStatus :=
  if ok then SUCCESS else INSUFFICIENT_BALANCE.

(** ** One account *)
Record UserAccountView := mkUserAccountView {
  available_buffer : gmap Z Z;
  available_side_effects : gmap Z Z
}.
Definition empty_account_view : UserAccountView := mkUserAccountView ∅ ∅.

(** [m[asset]] with its default. *)
Definition at_asset (m : gmap Z Z) (asset : Z) : Z := default 0 (m !! asset).

(** [main_db.conditional_escrow(main, asset, amount)] and then the common end
    of both operations: record the withdrawal and store the buffer. *)
Definition withdrawn (v : UserAccountView) (asset new_buffer : Z) : UserAccountView :=
  mkUserAccountView (<[asset := 0]> (available_buffer v))
    (<[asset := i64 (at_asset (available_side_effects v) asset + new_buffer)]> (available_side_effects v)).
Definition buffered (v : UserAccountView) (asset new_buffer : Z) : UserAccountView :=
  mkUserAccountView (<[asset := new_buffer]> (available_buffer v)) (available_side_effects v).

Definition account_conditional_escrow (db : DB) (main : nat) (v : UserAccountView) (asset amount : Z)
    : result (DB * UserAccountView * TransactionProcessingStatus) :=
  if amount <? 0 then
    Ok (db, buffered v asset (i64 (at_asset (available_buffer v) asset - amount)), SUCCESS)
  else
    let current_available_buffer := at_asset (available_buffer v) asset in
    let new_buffer := i64 (current_available_buffer - amount) in
    if new_buffer <? 0 then
      let* p := MemoryDatabase.conditional_escrow db main asset (i64 (- new_buffer)) in
      if negb p.2 then Ok (p.1, buffered v asset current_available_buffer, INSUFFICIENT_BALANCE)
      else Ok (p.1, withdrawn v asset new_buffer, SUCCESS)
    else Ok (db, buffered v asset new_buffer, SUCCESS).

Definition account_transfer_available (db : DB) (main : nat) (v : UserAccountView) (asset amount : Z)
    : result (DB * UserAccountView * TransactionProcessingStatus) :=
  let current_buffer := at_asset (available_buffer v) asset in
  let new_buffer := i64 (current_buffer + amount) in
  if new_buffer <? 0 then
    let* p := MemoryDatabase.conditional_transfer_available db main asset new_buffer in
    if negb p.2 then Ok (p.1, buffered v asset current_buffer, INSUFFICIENT_BALANCE)
    else Ok (p.1, withdrawn v asset new_buffer, SUCCESS)
  else Ok (db, buffered v asset new_buffer, SUCCESS).

Definition account_lookup_available_balance (db : DB) (main : nat) (v : UserAccountView) (asset : Z) : Z :=
  i64 (MemoryDatabase.lookup_available_balance db main asset + at_asset (available_buffer v) asset).

(** The hash maps are iterated in some order; [foldl_transfers_perm] shows
    that the order does not matter. *)
Definition account_commit (db : DB) (main : nat) (v : UserAccountView) : DB :=
  foldl (fun db p => MemoryDatabase.transfer_available db main p.1 p.2) db (map_to_list (available_buffer v)).
Definition account_unwind (db : DB) (main : nat) (v : UserAccountView) : DB :=
  foldl (fun db p => MemoryDatabase.transfer_available db main p.1 (i64 (- p.2))) db
    (map_to_list (available_side_effects v)).

(** ** New accounts and sequence numbers *)
Record AccountCreationView := mkAccountCreationView {
  new_accounts : list (Z * account);   (* most recently created first *)
  temporary_idxs : gmap Z ptr;
  reservations : list (ptr * Z)
}.
Definition empty_creation_view : AccountCreationView := mkAccountCreationView [] ∅ [].

Fixpoint find_new (l : list (Z * account)) (id : Z) : option account :=
  match l with
  | [] => None
  | (id', a) :: l => if id =? id' then Some a else find_new l id
  end.
Fixpoint update_new (l : list (Z * account)) (id : Z) (a : account) : list (Z * account) :=
  match l with
  | [] => []
  | (id', a') :: l => if id =? id' then (id', a) :: l else (id', a') :: update_new l id a
  end.

Definition set_new_accounts (v : AccountCreationView) (l : list (Z * account)) : AccountCreationView :=
  mkAccountCreationView l (temporary_idxs v) (reservations v).

(** Runs a method of [UserAccount] through a pointer. *)
Definition on_ptr {R} (db : DB) (v : AccountCreationView) (p : ptr) (f : account -> account * R)
    : result (DB * AccountCreationView * R) :=
  match p with
  | DbPtr i => let* q := MemoryDatabase.on_account db i f in Ok (q.1, v, q.2)
  | NewPtr id =>
      match find_new (new_accounts v) id with
      | Some a =>
          let '(a', r) := f a in
          Ok (db, set_new_accounts v (update_new (new_accounts v) id a'), r)
      | None => Throw "dangling UserAccount pointer"
      end
  end.

Definition creation_lookup_user (db : DB) (v : AccountCreationView) (account : Z) : option ptr :=
  match MemoryDatabase.lookup_user db account with
  | Some i => Some (DbPtr i)
  | None => temporary_idxs v !! account
  end.

Definition create_new_account (db : DB) (v : AccountCreationView) (account : Z) (pk : PublicKey)
    : DB * AccountCreationView * TransactionProcessingStatus * option ptr :=
  let '(db', status) := MemoryDatabase.reserve_account_creation db account in
  if decide (status <> SUCCESS) then (db', v, status, None)
  else
    (db',
     mkAccountCreationView ((account, UserAccount.new account pk) :: new_accounts v)
       (match temporary_idxs v !! account with
        | Some _ => temporary_idxs v
        | None => <[account := NewPtr account]> (temporary_idxs v)
        end)
       (reservations v),
     SUCCESS, Some (NewPtr account)).

Definition creation_reserve_sequence_number (db : DB) (v : AccountCreationView) (idx : ptr) (sequence_number : Z)
    : result (DB * AccountCreationView * TransactionProcessingStatus) :=
  let* q := on_ptr db v idx (fun a => UserAccount.reserve_sequence_number a sequence_number) in
  let '(db, v, status) := q in
  if decide (status = SUCCESS)
  then Ok (db, mkAccountCreationView (new_accounts v) (temporary_idxs v) (reservations v ++ [(idx, sequence_number)]), status)
  else Ok (db, v, status).

(** After its account has been moved into the database, a pointer to a new
    account only reaches the moved-from shell. *)
Definition commit_reservation (db : DB) (r : ptr * Z) : DB :=
  match r.1 with
  | DbPtr i => MemoryDatabase.commit_sequence_number db i r.2
  | NewPtr _ => db
  end.
Definition creation_commit (db : DB) (v : AccountCreationView) : DB :=
  let db := foldl (fun db p => MemoryDatabase.commit_account_creation db p.1 p.2) db (new_accounts v) in
  foldl commit_reservation db (reservations v).

Fixpoint release_reservations (db : DB) (l : list (ptr * Z)) : result DB :=
  match l with
  | [] => Ok db
  | (DbPtr i, seqno) :: l =>
      let* db := MemoryDatabase.release_sequence_number db i seqno in release_reservations db l
  | (NewPtr _, _) :: l => release_reservations db l
  end.
Definition creation_unwind (db : DB) (v : AccountCreationView) : result DB :=
  let db := foldl (fun db p => MemoryDatabase.release_account_creation db p.1) db (new_accounts v) in
  release_reservations db (reservations v).

(** ** The buffered view *)
Record BufferedMemoryDatabaseView := mkBuffered {
  creation : AccountCreationView;
  accounts : gmap nat UserAccountView
}.
Definition empty_buffered : BufferedMemoryDatabaseView := mkBuffered empty_creation_view ∅.

Definition get_existing_account (v : BufferedMemoryDatabaseView) (i : nat) : UserAccountView :=
  default empty_account_view (accounts v !! i).

(** Both operations: accounts created in this view are operated on directly,
    existing ones through their [UserAccountView]. *)
Definition buffered_op
    (direct : account -> account * bool)
    (through : DB -> nat -> UserAccountView -> result (DB * UserAccountView * TransactionProcessingStatus))
    (db : DB) (v : BufferedMemoryDatabaseView) (p : ptr)
    : result (DB * BufferedMemoryDatabaseView * TransactionProcessingStatus) :=
  match p with
  | NewPtr _ =>
      let* q := on_ptr db (creation v) p direct in
      Ok (q.1.1, mkBuffered q.1.2 (accounts v), status_of q.2)
  | DbPtr i =>
      let* q := through db i (get_existing_account v i) in
      Ok (q.1.1, mkBuffered (creation v) (<[i := q.1.2]> (accounts v)), q.2)
  end.

Definition buffered_escrow (db : DB) (v : BufferedMemoryDatabaseView) (p : ptr) (asset amount : Z) :=
  buffered_op (fun a => UserAccount.conditional_escrow a asset amount)
    (fun db i w => account_conditional_escrow db i w asset amount) db v p.
Definition buffered_transfer_available (db : DB) (v : BufferedMemoryDatabaseView) (p : ptr) (asset amount : Z) :=
  buffered_op (fun a => UserAccount.conditional_transfer_available a asset amount)
    (fun db i w => account_transfer_available db i w asset amount) db v p.

Definition buffered_commit (db : DB) (v : BufferedMemoryDatabaseView) : DB :=
  let db := foldl (fun db p => account_commit db p.1 p.2) db (map_to_list (accounts v)) in
  creation_commit db (creation v).
Definition buffered_unwind (db : DB) (v : BufferedMemoryDatabaseView) : result DB :=
  let db := foldl (fun db p => account_unwind db p.1 p.2) db (map_to_list (accounts v)) in
  creation_unwind db (creation v).

#[global] Instance buffered_view : DatabaseView DB BufferedMemoryDatabaseView := {
  dv_lookup_user db v id := creation_lookup_user db (creation v) id;
  dv_create_new_account db v id pk :=
    let '(db, c, s, p) := create_new_account db (creation v) id pk in Ok (db, mkBuffered c (accounts v), s, p);
  dv_reserve_sequence_number db v p n :=
    let* q := creation_reserve_sequence_number db (creation v) p n in
    Ok (q.1.1, mkBuffered q.1.2 (accounts v), q.2);
  dv_escrow := buffered_escrow;
  dv_transfer_available := buffered_transfer_available;
  dv_commit := buffered_commit
}.

(** ** The unbuffered view *)
Record UnbufferedMemoryDatabaseView := mkUnbuffered { base : AccountCreationView }.
Definition empty_unbuffered : UnbufferedMemoryDatabaseView := mkUnbuffered empty_creation_view.

Definition unbuffered_op (f : account -> account) (db : DB) (v : UnbufferedMemoryDatabaseView) (p : ptr)
    : result (DB * UnbufferedMemoryDatabaseView * TransactionProcessingStatus) :=
  let* q := on_ptr db (base v) p (fun a => (f a, tt)) in
  Ok (q.1.1, mkUnbuffered q.1.2, SUCCESS).
Definition unbuffered_escrow db v p (asset amount : Z) :=
  unbuffered_op (fun a => UserAccount.escrow a asset amount) db v p.
Definition unbuffered_transfer_available db v p (asset amount : Z) :=
  unbuffered_op (fun a => UserAccount.transfer_available a asset amount) db v p.

#[global] Instance unbuffered_view : DatabaseView DB UnbufferedMemoryDatabaseView := {
  dv_lookup_user db v id := creation_lookup_user db (base v) id;
  dv_create_new_account db v id pk :=
    let '(db, c, s, p) := create_new_account db (base v) id pk in Ok (db, mkUnbuffered c, s, p);
  dv_reserve_sequence_number db v p n :=
    let* q := creation_reserve_sequence_number db (base v) p n in Ok (q.1.1, mkUnbuffered q.1.2, q.2);
  dv_escrow := unbuffered_escrow;
  dv_transfer_available := unbuffered_transfer_available;
  dv_commit db v := creation_commit db (base v)
}.

(** ** Replaying persisted blocks *)
Record LoadLMDBMemoryDatabaseView := mkLoadLMDB {
  base_view : UnbufferedMemoryDatabaseView;
  load_block_number : Z
}.

Section LoadLMDB.
Variable shorthash : Z -> Z.

Definition below_block (db : DB) (v : LoadLMDBMemoryDatabaseView) (id : Z) : result bool :=
  let* round := AccountLMDB.get_persisted_round_number_by_account shorthash
                  (MemoryDatabase.account_lmdb_instance db) id in
  Ok (round <? load_block_number v).

Definition get_owner (db : DB) (v : LoadLMDBMemoryDatabaseView) (p : ptr) : result Z :=
  match p with
  | DbPtr i => match MemoryDatabase.database db !! i with
               | Some a => Ok (UserAccount.owner a) | None => Throw "dangling UserAccount pointer" end
  | NewPtr id => match find_new (new_accounts (base (base_view v))) id with
                 | Some a => Ok (UserAccount.owner a) | None => Throw "dangling UserAccount pointer" end
  end.

Definition do_action (db : DB) (v : LoadLMDBMemoryDatabaseView) (p : ptr) : result bool :=
  let* id := get_owner db v p in below_block db v id.

Definition set_base (v : LoadLMDBMemoryDatabaseView) (b : UnbufferedMemoryDatabaseView) :=
  mkLoadLMDB b (load_block_number v).

Definition guarded (db : DB) (v : LoadLMDBMemoryDatabaseView) (p : ptr)
    (f : DB -> UnbufferedMemoryDatabaseView -> result (DB * UnbufferedMemoryDatabaseView * TransactionProcessingStatus))
    : result (DB * LoadLMDBMemoryDatabaseView * TransactionProcessingStatus) :=
  let* go := do_action db v p in
  if go : bool then
    let* q := f db (base_view v) in Ok (q.1.1, set_base v q.1.2, q.2)
  else Ok (db, v, SUCCESS).

Definition loadlmdb_view : DatabaseView DB LoadLMDBMemoryDatabaseView := {|
  dv_lookup_user db v id := dv_lookup_user db (base_view v) id;
  dv_create_new_account db v id pk :=
    let* go := below_block db v id in
    if go : bool then
      let* q := dv_create_new_account db (base_view v) id pk in
      let '(db, b, s, p) := q in Ok (db, set_base v b, s, p)
    else Ok (db, v, SUCCESS, dv_lookup_user db (base_view v) id);
  dv_reserve_sequence_number db v p n := guarded db v p (fun db b => dv_reserve_sequence_number db b p n);
  dv_escrow db v p asset amount := guarded db v p (fun db b => unbuffered_escrow db b p asset amount);
  dv_transfer_available db v p asset amount :=
    guarded db v p (fun db b => unbuffered_transfer_available db b p asset amount);
  dv_commit db v := dv_commit db (base_view v)
|}.
End LoadLMDB.
End Views.

(** * Lemmas *)

(** What a map of amounts by asset adds to asset slot [n]. *)
Definition asset_sum (m : gmap Z Z) (n : nat) : Z :=
  msum (fun k x => if decide (Z.to_nat k = n) then x else 0) m.

Lemma asset_sum_insert m k x n :
  asset_sum (<[k := x]> m) n = asset_sum m n + (if decide (Z.to_nat k = n) then x - at_asset m k else 0).
Proof.
  unfold asset_sum, at_asset. rewrite msum_insert. destruct (decide _); destruct (m !! k); simpl; lia.
Qed.

(** Updates of distinct slots of a list, in any order. *)
Lemma foldl_alter_lookup {A W} (f : W -> A -> A) (l : list (nat * W)) (xs : list A) j :
  NoDup l.*1 ->
  foldl (fun xs p => alter (f p.2) p.1 xs) xs l !! j =
    (fun x => match (list_to_map l : gmap nat W) !! j with Some w => f w x | None => x end) <$> xs !! j.
Proof.
  revert xs. induction l as [|[i w] l IH]; intros xs Hnd; simpl.
  - rewrite lookup_empty. by destruct (xs !! j).
  - apply NoDup_cons in Hnd as [Hi Hnd]. rewrite IH by done. simpl.
    destruct (decide (i = j)) as [->|Hne].
    + rewrite list_lookup_alter_eq, lookup_insert_eq.
      rewrite (not_elem_of_list_to_map_1 l j Hi). by destruct (xs !! j).
    + by rewrite list_lookup_alter_ne, lookup_insert_ne.
Qed.

Lemma foldl_alter_map_lookup {A W} (f : W -> A -> A) (m : gmap nat W) (xs : list A) j :
  foldl (fun xs p => alter (f p.2) p.1 xs) xs (map_to_list m) !! j =
    (fun x => match m !! j with Some w => f w x | None => x end) <$> xs !! j.
Proof. rewrite foldl_alter_lookup by apply NoDup_fst_map_to_list. by rewrite list_to_map_to_list. Qed.

Lemma alter_compose_list {A} (f g : A -> A) i (l : list A) : alter f i (alter g i l) = alter (fun x => f (g x)) i l.
Proof.
  apply list_eq. intros j. destruct (decide (i = j)) as [->|].
  - rewrite !list_lookup_alter_eq. by destruct (l !! j).
  - by rewrite !list_lookup_alter_ne.
Qed.

Lemma list_alter_id' {A} (f : A -> A) i (l : list A) : (forall x, f x = x) -> alter f i l = l.
Proof.
  intros Hf. apply list_eq. intros j. destruct (decide (i = j)) as [->|].
  - rewrite list_lookup_alter_eq. destruct (l !! j); simpl; [by rewrite Hf|done].
  - by rewrite list_lookup_alter_ne.
Qed.

Section ViewLemmas.
Context {T : Type} `{SequenceTrackerRefines T}.
Context {TR : Type} `{MerkleTrie AccountCommitment TR}.
Context {L : Type} `{LMDBInstance L}.

Abbreviation DB := (MemoryDatabase.t T TR L).
Abbreviation account := (UserAccount.t T).
Abbreviation View := (BufferedMemoryDatabaseView (T := T)).
Implicit Types (db : DB) (a b : account) (v : View).

(** ** Accounts up to a shift of the balances *)
Record acct_shift (d : nat -> Z) a b : Prop := {
  shift_length : length (UserAccount.owned_assets b) = length (UserAccount.owned_assets a);
  shift_owner : UserAccount.owner b = UserAccount.owner a;
  shift_pk : UserAccount.pk b = UserAccount.pk a;
  shift_asset n : UserAccount.asset_of b n = RevertableAsset.transfer_available (UserAccount.asset_of a n) (d n)
}.

Lemma transfer_cong (x : RevertableAsset.t) d e :
  i64 d = i64 e -> RevertableAsset.transfer_available x d = RevertableAsset.transfer_available x e.
Proof.
  intros E. unfold RevertableAsset.transfer_available. f_equal.
  rewrite <- (i64_add_r _ d), <- (i64_add_r _ e). by rewrite E.
Qed.

Lemma transfer_none (x : RevertableAsset.t) d :
  RevertableAsset.wf x -> i64 d = 0 -> RevertableAsset.transfer_available x d = x.
Proof.
  intros [Hx _] Hd. rewrite (transfer_cong x d 0) by (rewrite Hd; reflexivity).
  unfold RevertableAsset.transfer_available. destruct x; simpl in *. by rewrite Z.add_0_r, i64_id.
Qed.

Lemma shift_refl a d : UserAccount.wf a -> (forall n, i64 (d n) = 0) -> acct_shift d a a.
Proof.
  intros Hwf Hd. constructor; try done. intros n. rewrite transfer_none; [done| |done].
  by apply UserAccount.asset_wf.
Qed.

Lemma shift_trans d e a b c : acct_shift d a b -> acct_shift e b c -> acct_shift (fun n => d n + e n) a c.
Proof.
  intros [L1 O1 P1 A1] [L2 O2 P2 A2]. constructor; try congruence. intros n. rewrite A2, A1.
  unfold RevertableAsset.transfer_available. simpl. f_equal. i64_solve.
Qed.

Lemma shift_ext d e a b : (forall n, i64 (d n) = i64 (e n)) -> acct_shift d a b -> acct_shift e a b.
Proof.
  intros E [L1 O1 P1 A1]. constructor; try done. intros n. rewrite A1. by apply transfer_cong.
Qed.

Lemma shift_equiv d a b b' : b ≡ b' -> acct_shift d a b -> acct_shift d a b'.
Proof.
  intros E [L1 O1 P1 A1]. pose proof E as [E1 _ _ E4 E5].
  constructor; try congruence. intros n. by rewrite <- A1, (UserAccount.equiv_asset_of _ _ _ E).
Qed.

Lemma shift_wf d a b : UserAccount.wf a -> acct_shift d a b -> UserAccount.wf b.
Proof.
  rewrite !UserAccount.wf_asset_of. intros Hwf [_ _ _ A1] n. rewrite A1.
  by apply RevertableAsset.asset_transfer_wf.
Qed.

Lemma shift_transfer a k x :
  UserAccount.wf a ->
  acct_shift (fun n => if decide (Z.to_nat k = n) then x else 0) a (UserAccount.transfer_available a k x).
Proof.
  intros Hwf. destruct (UserAccount.transfer_frame a k x) as (? & ? & ? & ?). constructor; try done.
  intros n. rewrite UserAccount.transfer_asset_of.
  destruct (decide (n = Z.to_nat k)) as [->|]; [by rewrite decide_True|].
  rewrite decide_False by done. symmetry. apply transfer_none; [by apply UserAccount.asset_wf|reflexivity].
Qed.

Lemma shift_none d a b :
  UserAccount.wf a -> acct_shift d a b -> (forall n, i64 (d n) = 0) ->
  UserAccount.seq_tracker a = UserAccount.seq_tracker b -> a ≡ b.
Proof.
  intros Hwf [L1 O1 P1 A1] Hd Ht. apply UserAccount.equiv_intro; try congruence.
  intros n. rewrite A1, transfer_none; [done|by apply UserAccount.asset_wf|done].
Qed.

Lemma transfer_tracker a k x : UserAccount.seq_tracker (UserAccount.transfer_available a k x) = UserAccount.seq_tracker a.
Proof. apply UserAccount.transfer_frame. Qed.

(** A batch of transfers shifts each asset by the sum of its amounts, so the
    order of the batch is irrelevant. *)
Definition transfers a (l : list (Z * Z)) : account :=
  foldl (fun a p => UserAccount.transfer_available a p.1 p.2) a l.

Lemma transfers_shift a (l : list (Z * Z)) :
  UserAccount.wf a ->
  acct_shift (fun n => sum_by (fun p => if decide (Z.to_nat p.1 = n) then p.2 else 0) l) a (transfers a l) /\
  UserAccount.seq_tracker (transfers a l) = UserAccount.seq_tracker a.
Proof.
  revert a. induction l as [|[k x] l IH]; intros a Hwf.
  - split; [|done]. by apply shift_refl.
  - destruct (IH (UserAccount.transfer_available a k x)) as [IH1 IH2].
    { by apply UserAccount.transfer_wf. }
    split; [|unfold transfers in *; simpl; by rewrite IH2, transfer_tracker].
    refine (shift_ext _ _ _ _ _ (shift_trans _ _ _ _ _ (shift_transfer a k x Hwf) IH1)).
    intros n. rewrite sum_by_cons. done.
Qed.

Lemma foldl_transfers_perm a (l l' : list (Z * Z)) :
  UserAccount.wf a -> l ≡ₚ l' -> transfers a l ≡ transfers a l'.
Proof.
  intros Hwf Hp. destruct (transfers_shift a l Hwf) as [[L1 O1 P1 A1] T1].
  destruct (transfers_shift a l' Hwf) as [[L2 O2 P2 A2] T2].
  apply UserAccount.equiv_intro; try congruence. intros n. rewrite A1, A2. by rewrite Hp.
Qed.

(** ** What one account's view does to the database *)
Lemma database_account_commit db i w :
  account_commit db i w =
    MemoryDatabase.set_database db
      (alter (fun a => transfers a (map_to_list (available_buffer w))) i (MemoryDatabase.database db)).
Proof.
  unfold account_commit, transfers. generalize (map_to_list (available_buffer w)). intros l.
  revert db. induction l as [|p l IH]; intros db; simpl.
  - destruct db; simpl. unfold MemoryDatabase.set_database. simpl. by rewrite list_alter_id'.
  - rewrite IH. unfold MemoryDatabase.transfer_available, MemoryDatabase.set_database. simpl.
    f_equal. apply alter_compose_list.
Qed.

Definition undo_transfers a (l : list (Z * Z)) : account :=
  transfers a ((fun p => (p.1, i64 (- p.2))) <$> l).

Lemma database_account_unwind db i w :
  account_unwind db i w =
    MemoryDatabase.set_database db
      (alter (fun a => undo_transfers a (map_to_list (available_side_effects w))) i (MemoryDatabase.database db)).
Proof.
  unfold account_unwind, undo_transfers, transfers. generalize (map_to_list (available_side_effects w)). intros l.
  revert db. induction l as [|p l IH]; intros db; simpl.
  - destruct db; simpl. unfold MemoryDatabase.set_database. simpl. by rewrite list_alter_id'.
  - rewrite IH. unfold MemoryDatabase.transfer_available, MemoryDatabase.set_database. simpl.
    f_equal. apply alter_compose_list.
Qed.

Lemma undo_transfers_shift a (m : gmap Z Z) :
  UserAccount.wf a ->
  acct_shift (fun n => - asset_sum m n) a (undo_transfers a (map_to_list m)) /\
  UserAccount.seq_tracker (undo_transfers a (map_to_list m)) = UserAccount.seq_tracker a.
Proof.
  intros Hwf. unfold undo_transfers.
  destruct (transfers_shift a ((fun p => (p.1, i64 (- p.2))) <$> map_to_list m) Hwf) as [Hs Ht].
  split; [|done]. refine (shift_ext _ _ _ _ _ Hs). intros n. clear.
  unfold asset_sum, msum. generalize (map_to_list m). intros l.
  induction l as [|[k x] l IH]; [done|]. rewrite fmap_cons, !sum_by_cons. cbn [fst snd].
  destruct (decide _).
  - rewrite i64_add_l, <- i64_add_r, IH, i64_add_r. f_equal. lia.
  - rewrite !Z.add_0_l. done.
Qed.

Lemma transfers_map_shift a (m : gmap Z Z) :
  UserAccount.wf a ->
  acct_shift (asset_sum m) a (transfers a (map_to_list m)) /\
  UserAccount.seq_tracker (transfers a (map_to_list m)) = UserAccount.seq_tracker a.
Proof. intros Hwf. destruct (transfers_shift a (map_to_list m) Hwf). done. Qed.

(** ** One operation through an account view *)
Definition side (w : UserAccountView) : nat -> Z := asset_sum (available_side_effects w).
Definition buf (w : UserAccountView) : nat -> Z := asset_sum (available_buffer w).

(** The effect of an operation of amount [x] on asset [k] that returned
    [s]: the account moves by what the side effects record, and the side
    effects and the buffer together by [x] when it succeeded. *)
Record account_effect (k x : Z) (s : TransactionProcessingStatus) a (w : UserAccountView)
    a' (w' : UserAccountView) : Prop := {
  effect_account : acct_shift (fun n => side w' n - side w n) a a';
  effect_tracker : UserAccount.seq_tracker a' = UserAccount.seq_tracker a;
  effect_net n : i64 (side w' n + buf w' n) =
    i64 (side w n + buf w n + (if decide (s = SUCCESS /\ Z.to_nat k = n) then x else 0))
}.

Lemma on_account_ok {R} db i a (f : account -> account * R) :
  MemoryDatabase.database db !! i = Some a ->
  MemoryDatabase.on_account db i f =
    Ok (MemoryDatabase.set_database db (<[i := (f a).1]> (MemoryDatabase.database db)), (f a).2).
Proof. intros Ha. unfold MemoryDatabase.on_account. rewrite Ha. by destruct (f a). Qed.

Lemma set_database_id db i a :
  MemoryDatabase.database db !! i = Some a ->
  MemoryDatabase.set_database db (<[i := a]> (MemoryDatabase.database db)) = db.
Proof. intros Ha. destruct db. unfold MemoryDatabase.set_database. simpl in *. by rewrite list_insert_id. Qed.

Lemma equiv_tracker_shift d a b b' :
  b ≡ b' -> acct_shift d a b' -> UserAccount.seq_tracker b' = UserAccount.seq_tracker a ->
  acct_shift d a b /\ UserAccount.seq_tracker b = UserAccount.seq_tracker a.
Proof.
  intros E Hs Ht. split; [by eapply shift_equiv; [symmetry|]|]. rewrite <- Ht. by destruct E.
Qed.

Lemma buffered_effect k x s a w nb :
  UserAccount.wf a ->
  (s = SUCCESS -> i64 nb = i64 (at_asset (available_buffer w) k + x)) ->
  (s <> SUCCESS -> i64 nb = i64 (at_asset (available_buffer w) k)) ->
  forall a', a' ≡ a -> account_effect k x s a w a' (buffered w k nb).
Proof.
  intros Hwf Hs1 Hs2 a' Ea.
  destruct (equiv_tracker_shift (fun n => side (buffered w k nb) n - side w n) a a' a Ea) as [Hs Ht]; [|done|].
  { apply shift_refl; [done|]. intros n. unfold side. simpl. by rewrite Z.sub_diag. }
  constructor; [done|done|]. intros n. unfold side, buf. simpl. rewrite asset_sum_insert.
  destruct (decide (Z.to_nat k = n)) as [<-|Hne].
  - destruct (decide (s = SUCCESS)).
    + rewrite decide_True by done. specialize (Hs1 ltac:(done)). i64_lia.
    + rewrite decide_False by tauto. specialize (Hs2 ltac:(done)). i64_lia.
  - rewrite decide_False by tauto. f_equal. lia.
Qed.

Lemma withdrawn_effect k x a w nb :
  UserAccount.wf a -> i64 nb = i64 (at_asset (available_buffer w) k + x) ->
  forall a', a' ≡ UserAccount.transfer_available a k nb -> account_effect k x SUCCESS a w a' (withdrawn w k nb).
Proof.
  intros Hwf Hnb a' Ea.
  destruct (equiv_tracker_shift (fun n => side (withdrawn w k nb) n - side w n) a a' _ Ea) as [Hs Ht].
  { refine (shift_ext _ _ _ _ _ (shift_transfer a k nb Hwf)). intros n. unfold side. simpl.
    rewrite asset_sum_insert. destruct (decide _); [i64_lia|f_equal; lia]. }
  { apply transfer_tracker. }
  constructor; [done|done|]. intros n. unfold side, buf. simpl. rewrite !asset_sum_insert.
  destruct (decide (Z.to_nat k = n)) as [<-|Hne].
  - rewrite decide_True by done. i64_lia.
  - rewrite decide_False by tauto. f_equal. lia.
Qed.

Lemma account_transfer_effect db i a w k x :
  MemoryDatabase.database db !! i = Some a -> UserAccount.wf a ->
  exists a' w' s, account_transfer_available db i w k x
      = Ok (MemoryDatabase.set_database db (<[i := a']> (MemoryDatabase.database db)), w', s) /\
    account_effect k x s a w a' w'.
Proof.
  intros Ha Hwf. unfold account_transfer_available.
  set (cur := at_asset (available_buffer w) k). destruct (Z.ltb_spec (i64 (cur + x)) 0) as [Hneg|Hpos].
  - unfold MemoryDatabase.conditional_transfer_available. rewrite (on_account_ok _ _ _ _ Ha). simpl.
    pose proof (UserAccount.conditional_transfer_spec a k (i64 (cur + x)) Hwf) as Sp.
    destruct (UserAccount.conditional_transfer_available a k (i64 (cur + x))) as [a' r]. simpl.
    destruct (decide _); destruct Sp as [-> Ea]; simpl; do 3 eexists; (split; [reflexivity|]).
    + by apply withdrawn_effect; [done|rewrite i64_i64|].
    + by apply buffered_effect.
  - exists a, (buffered w k (i64 (cur + x))), SUCCESS. rewrite (set_database_id _ _ _ Ha).
    split; [done|]. apply buffered_effect; try done. intros _. by rewrite i64_i64.
Qed.

Lemma account_escrow_effect db i a w k x :
  MemoryDatabase.database db !! i = Some a -> UserAccount.wf a ->
  exists a' w' s, account_conditional_escrow db i w k x
      = Ok (MemoryDatabase.set_database db (<[i := a']> (MemoryDatabase.database db)), w', s) /\
    account_effect k (- x) s a w a' w'.
Proof.
  intros Ha Hwf. unfold account_conditional_escrow.
  set (cur := at_asset (available_buffer w) k). destruct (Z.ltb_spec x 0) as [Hx|Hx].
  { exists a, (buffered w k (i64 (cur - x))), SUCCESS. rewrite (set_database_id _ _ _ Ha).
    split; [done|]. apply buffered_effect; try done. intros _. rewrite i64_i64. f_equal. }
  destruct (Z.ltb_spec (i64 (cur - x)) 0) as [Hneg|Hpos].
  - unfold MemoryDatabase.conditional_escrow. rewrite (on_account_ok _ _ _ _ Ha). simpl.
    pose proof (UserAccount.conditional_escrow_spec a k (i64 (- i64 (cur - x))) Hwf ltac:(apply i64_range)) as Sp.
    destruct (UserAccount.conditional_escrow a k (i64 (- i64 (cur - x)))) as [a' r]. simpl.
    destruct (decide _) as [[Hmin _]|]; destruct Sp as [-> Ea]; simpl; do 3 eexists; (split; [reflexivity|]).
    + apply withdrawn_effect; [done|rewrite i64_i64; f_equal|].
      rewrite Ea. replace (- i64 (- i64 (cur - x))) with (i64 (cur - x)); [done|].
      pose proof (i64_range (cur - x)). rewrite (i64_id (- _)); [lia|].
      unfold in_i64, INT64_MIN in *. destruct (decide (i64 (cur - x) = - 2 ^ 63)) as [E|]; [|lia].
      rewrite E in Hmin. by destruct Hmin.
    + by apply buffered_effect.
  - exists a, (buffered w k (i64 (cur - x))), SUCCESS. rewrite (set_database_id _ _ _ Ha).
    split; [done|]. apply buffered_effect; try done. intros _. rewrite i64_i64. f_equal.
Qed.

(** ** The buffered view against the database it was opened on *)

(** Equal databases up to unused asset slots. *)
Record db_equiv db db' : Prop := {
  de_map : MemoryDatabase.user_id_to_idx_map db = MemoryDatabase.user_id_to_idx_map db';
  de_reserved : MemoryDatabase.reserved_account_ids db = MemoryDatabase.reserved_account_ids db';
  de_database : Forall2 (≡) (MemoryDatabase.database db) (MemoryDatabase.database db');
  de_uncommitted : MemoryDatabase.uncommitted_db db = MemoryDatabase.uncommitted_db db';
  de_trie : MemoryDatabase.commitment_trie db = MemoryDatabase.commitment_trie db';
  de_lmdb : MemoryDatabase.account_lmdb_instance db = MemoryDatabase.account_lmdb_instance db';
  de_thunks : MemoryDatabase.account_creation_thunks db = MemoryDatabase.account_creation_thunks db'
}.

(** What the views never touch before they commit. *)
Record same_frame db db' : Prop := {
  sf_map : MemoryDatabase.user_id_to_idx_map db' = MemoryDatabase.user_id_to_idx_map db;
  sf_uncommitted : MemoryDatabase.uncommitted_db db' = MemoryDatabase.uncommitted_db db;
  sf_trie : MemoryDatabase.commitment_trie db' = MemoryDatabase.commitment_trie db;
  sf_lmdb : MemoryDatabase.account_lmdb_instance db' = MemoryDatabase.account_lmdb_instance db;
  sf_thunks : MemoryDatabase.account_creation_thunks db' = MemoryDatabase.account_creation_thunks db
}.

Definition account_ok a : Prop :=
  UserAccount.wf a /\ st_wf (UserAccount.seq_tracker a) /\
  in_u64 (Spec.last (st_abs (UserAccount.seq_tracker a))) .
Definition db_ok db : Prop :=
  Forall account_ok (MemoryDatabase.database db) /\
  MemoryDatabase.index_wf (MemoryDatabase.user_id_to_idx_map db) (MemoryDatabase.database db).

(** At most one sequence number is reserved through one view. *)
Definition tracker_ok (rs : list (ptr * Z)) (i : nat) (s0 s : T) : Prop :=
  match rs with
  | [] => s = s0
  | [(p, n)] =>
      if decide (p = DbPtr i)
      then in_u64 n /\ s = (st_reserve_sequence_number s0 n).1 /\ (st_reserve_sequence_number s0 n).2 = SUCCESS
      else s = s0
  | _ => False
  end.

Definition side_at v i n : Z := side (get_existing_account v i) n.
Definition net_at v i n : Z := side_at v i n + buf (get_existing_account v i) n.

Record view_inv db0 db v : Prop := {
  vi_frame : same_frame db0 db;
  vi_length : length (MemoryDatabase.database db) = length (MemoryDatabase.database db0);
  vi_account i a0 : MemoryDatabase.database db0 !! i = Some a0 ->
    exists a, MemoryDatabase.database db !! i = Some a /\ acct_shift (side_at v i) a0 a /\
      tracker_ok (reservations (creation v)) i (UserAccount.seq_tracker a0) (UserAccount.seq_tracker a);
  vi_reservations : Forall (fun r => exists i, r.1 = DbPtr i /\ (i < length (MemoryDatabase.database db0))%nat)
    (reservations (creation v));
  vi_views : forall i, is_Some (accounts v !! i) -> (i < length (MemoryDatabase.database db0))%nat;
  vi_new_ids : NoDup ((new_accounts (creation v)).*1);
  vi_new_fresh id : id ∈ (new_accounts (creation v)).*1 -> (id ∉ MemoryDatabase.reserved_account_ids db0) /\
    MemoryDatabase.user_id_to_idx_map db0 !! id = None;
  vi_new_wf : Forall (fun p => UserAccount.wf p.2 /\ UserAccount.owner p.2 = p.1) (new_accounts (creation v));
  vi_temp id p : temporary_idxs (creation v) !! id = Some p ->
    p = NewPtr id /\ id ∈ (new_accounts (creation v)).*1;
  vi_reserved : MemoryDatabase.reserved_account_ids db =
    list_to_set ((new_accounts (creation v)).*1) ∪ MemoryDatabase.reserved_account_ids db0
}.

Lemma view_inv_empty db : db_ok db -> view_inv db db empty_buffered.
Proof.
  intros [Hok _]. constructor; simpl; try done.
  - intros i a Ha. exists a. split; [done|]. split; [|done].
    apply shift_refl; [|done]. by apply (Forall_lookup_1 _ _ _ _ Hok Ha).
  - intros i [? Hi]. by rewrite lookup_empty in Hi.
  - constructor.
  - intros id Hid%elem_of_nil. done.
  - by rewrite union_empty_l_L.
Qed.

Lemma get_existing_insert v i w j (c : AccountCreationView (T := T)) :
  get_existing_account (mkBuffered c (<[i := w]> (accounts v))) j =
    if decide (i = j) then w else get_existing_account v j.
Proof.
  unfold get_existing_account. simpl. destruct (decide (i = j)) as [->|].
  - by rewrite lookup_insert_eq.
  - by rewrite lookup_insert_ne.
Qed.

(** An operation on an existing account keeps the invariant and moves the
    net of that account and asset. *)
Lemma view_inv_db_op db0 db v i k x s a a' w' :
  db_ok db0 -> view_inv db0 db v ->
  MemoryDatabase.database db !! i = Some a ->
  account_effect k x s a (get_existing_account v i) a' w' ->
  view_inv db0 (MemoryDatabase.set_database db (<[i := a']> (MemoryDatabase.database db)))
    (mkBuffered (creation v) (<[i := w']> (accounts v))) /\
  forall j n, i64 (net_at (mkBuffered (creation v) (<[i := w']> (accounts v))) j n) =
    i64 (net_at v j n + (if decide (s = SUCCESS /\ i = j /\ Z.to_nat k = n) then x else 0)).
Proof.
  intros Hok [F Len A R V N1 N2 N3 Tmp Res] Ha [Es Et En]. split.
  - constructor; simpl; try done.
    + by destruct F.
    + by rewrite length_insert.
    + intros j b0 Hb0. destruct (A j b0 Hb0) as (b & Hb & Hs & Ht).
      destruct (decide (i = j)) as [->|Hne].
      * assert (b = a) as -> by congruence. exists a'.
        rewrite list_lookup_insert_eq by (by eapply lookup_lt_Some). split; [done|].
        rewrite Et. split; [|done]. refine (shift_ext _ _ _ _ _ (shift_trans _ _ _ _ _ Hs Es)).
        intros n. unfold side_at. rewrite get_existing_insert, decide_True by done. f_equal. lia.
      * exists b. rewrite list_lookup_insert_ne by done. split; [done|]. split; [|done].
        refine (shift_ext _ _ _ _ _ Hs). intros n. unfold side_at.
        by rewrite get_existing_insert, decide_False.
    + intros j Hj. destruct (decide (i = j)) as [->|Hne].
      * rewrite <- Len. by eapply lookup_lt_Some.
      * rewrite lookup_insert_ne in Hj by done. by apply V.
  - intros j n. unfold net_at, side_at. rewrite get_existing_insert.
    destruct (decide (i = j)) as [->|Hne].
    + rewrite En. f_equal. f_equal. destruct (decide _) as [?|Hd], (decide _) as [?|Hd']; try done; tauto.
    + rewrite (decide_False (P := _ /\ _)) by tauto. f_equal. lia.
Qed.

(** The committed balance of a pointer's target, modulo [2^64]: what the
    database would hold after [commit]. *)
Definition view_balance db0 v (p : ptr) (n : nat) : Z :=
  match p with
  | DbPtr i =>
      match MemoryDatabase.database db0 !! i with
      | Some a => i64 (RevertableAsset.available (UserAccount.asset_of a n) + net_at v i n)
      | None => 0
      end
  | NewPtr id =>
      match find_new (new_accounts (creation v)) id with
      | Some a => RevertableAsset.available (UserAccount.asset_of a n)
      | None => 0
      end
  end.

Definition valid_ptr db0 v (p : ptr) : Prop :=
  match p with
  | DbPtr i => (i < length (MemoryDatabase.database db0))%nat
  | NewPtr id => id ∈ (new_accounts (creation v)).*1
  end.

(** ** Accounts created in the view *)
Lemma find_new_elem (l : list (Z * account)) id :
  id ∈ l.*1 <-> exists a, find_new l id = Some a.
Proof.
  induction l as [|[id' a'] l IH]; simpl.
  - split; [by intros ?%elem_of_nil|by intros (? & ?)].
  - rewrite elem_of_cons, IH. destruct (Z.eqb_spec id id'); [|tauto].
    split; [by eauto|intros _; by left].
Qed.

Lemma update_new_fst (l : list (Z * account)) id a : (update_new l id a).*1 = l.*1.
Proof.
  induction l as [|[id' a'] l IH]; [done|]. cbn [update_new].
  destruct (id =? id'); [done|]. by rewrite !fmap_cons, IH.
Qed.

Lemma find_update_new (l : list (Z * account)) id id' a :
  id ∈ l.*1 ->
  find_new (update_new l id a) id' = if decide (id = id') then Some a else find_new l id'.
Proof.
  induction l as [|[i0 a0] l IH]; simpl; [by intros ?%elem_of_nil|]. intros Hin.
  destruct (Z.eqb_spec id i0) as [->|Hne]; simpl.
  - destruct (Z.eqb_spec id' i0) as [->|]; [by rewrite decide_True|]. rewrite decide_False; done.
  - apply elem_of_cons in Hin as [?|Hin]; [done|].
    destruct (Z.eqb_spec id' i0) as [->|]; [rewrite decide_False; done|]. by apply IH.
Qed.

Lemma find_new_Forall (P : Z * account -> Prop) (l : list (Z * account)) id a :
  Forall P l -> find_new l id = Some a -> P (id, a).
Proof.
  induction 1 as [|[i0 a0] l Hp Hl IH]; simpl; [done|].
  destruct (Z.eqb_spec id i0) as [->|]; [by intros [= <-]|done].
Qed.

Lemma update_new_Forall (P : Z * account -> Prop) (l : list (Z * account)) id a :
  Forall P l -> P (id, a) -> Forall P (update_new l id a).
Proof.
  induction 1 as [|[i0 a0] l Hp Hl IH]; simpl; [by constructor|]. intros Ha.
  destruct (Z.eqb_spec id i0) as [->|]; constructor; auto.
Qed.

Lemma view_inv_new_op db0 db v id a a' :
  view_inv db0 db v -> find_new (new_accounts (creation v)) id = Some a ->
  UserAccount.wf a' -> UserAccount.owner a' = UserAccount.owner a ->
  view_inv db0 db (mkBuffered (set_new_accounts (creation v) (update_new (new_accounts (creation v)) id a')) (accounts v)).
Proof.
  intros [F Len A R V N1 N2 N3 Tmp Res] Ha Hwf Ho. constructor; simpl; rewrite ?update_new_fst; try done.
  apply update_new_Forall; [done|]. simpl. split; [done|]. rewrite Ho.
  by apply (find_new_Forall _ _ _ _ N3 Ha).
Qed.

(** ** Specifications of the buffered operations *)

(** What an operation may change: the balance of [p]'s asset [k], by [x],
    when it returns [SUCCESS]. *)
Record moved db0 v v' (p : ptr) (k x : Z) (s : TransactionProcessingStatus) : Prop := {
  moved_balance q n : valid_ptr db0 v q -> view_balance db0 v' q n =
    i64 (view_balance db0 v q n + (if decide (s = SUCCESS /\ q = p /\ Z.to_nat k = n) then x else 0));
  moved_ids : (new_accounts (creation v')).*1 = (new_accounts (creation v)).*1;
  moved_reservations : reservations (creation v') = reservations (creation v)
}.

Definition new_wf v : Prop :=
  Forall (fun p => UserAccount.wf p.2 /\ UserAccount.owner p.2 = p.1) (new_accounts (creation v)).

Lemma view_balance_range db0 v q n : new_wf v -> in_i64 (view_balance db0 v q n).
Proof.
  intros Hn. unfold view_balance. destruct q as [i|id].
  - destruct (_ !! i); [apply i64_range|zlia].
  - destruct (find_new _ id) as [a|] eqn:E; [|zlia].
    destruct (find_new_Forall _ _ _ _ Hn E) as [Hwf _]. by apply (UserAccount.asset_wf a n).
Qed.

Lemma moved_db_op db0 v i k x s w' :
  new_wf v ->
  (forall j n, i64 (net_at (mkBuffered (creation v) (<[i := w']> (accounts v))) j n) =
    i64 (net_at v j n + (if decide (s = SUCCESS /\ i = j /\ Z.to_nat k = n) then x else 0))) ->
  moved db0 v (mkBuffered (creation v) (<[i := w']> (accounts v))) (DbPtr i) k x s.
Proof.
  intros Hn Hnet. constructor; [|done|done]. intros q n Hq. destruct q as [j|id]; simpl in *.
  - destruct (lookup_lt_is_Some_2 _ _ Hq) as [a ->]. specialize (Hnet j n).
    destruct (decide (s = SUCCESS /\ i = j /\ Z.to_nat k = n)) as [(? & <- & ?)|Hd].
    + rewrite decide_True by done. i64_lia.
    + rewrite decide_False by naive_solver. i64_lia.
  - rewrite decide_False by naive_solver. rewrite Z.add_0_r. symmetry. apply i64_id.
    apply (view_balance_range db0 v (NewPtr id) n Hn).
Qed.

(** A direct operation on an account created in the view. *)
Lemma view_new_op db0 db v id k x (f : account -> account * bool) :
  view_inv db0 db v -> id ∈ (new_accounts (creation v)).*1 ->
  (forall a, UserAccount.wf a -> let '(a', r) := f a in
     a' ≡ (if r then UserAccount.transfer_available a k x else a)) ->
  exists v' r, (let* q := on_ptr db (creation v) (NewPtr id) f in
      Ok (q.1.1, mkBuffered q.1.2 (accounts v), status_of q.2)) = Ok (db, v', status_of r) /\
    view_inv db0 db v' /\ moved db0 v v' (NewPtr id) k x (status_of r).
Proof.
  intros Hv Hid Hf. pose proof Hid as (a & Ha)%find_new_elem. simpl. rewrite Ha.
  pose proof (find_new_Forall _ _ _ _ (vi_new_wf _ _ _ Hv) Ha) as [Hwf Ho]. simpl in Ho.
  specialize (Hf a Hwf). destruct (f a) as [a' r]. simpl. do 2 eexists. split; [reflexivity|].
  assert (Hwf' : UserAccount.wf a').
  { rewrite UserAccount.wf_asset_of. intros n. rewrite (UserAccount.equiv_asset_of _ _ _ Hf).
    destruct r; apply UserAccount.asset_wf; [by apply UserAccount.transfer_wf|done]. }
  assert (Ho' : UserAccount.owner a' = UserAccount.owner a).
  { destruct Hf as [_ _ _ -> _]. destruct r; [apply UserAccount.transfer_frame|done]. }
  split; [by apply (view_inv_new_op db0 db v id a a')|].
  constructor; [|simpl; apply update_new_fst|done]. intros q n Hq. destruct q as [j|id']; simpl in *.
  - rewrite decide_False by naive_solver.
    destruct (_ !! j); [|by rewrite Z.add_0_r, i64_id by zlia].
    rewrite i64_add_l. f_equal. rewrite Z.add_0_r. done.
  - rewrite find_update_new by done. apply find_new_elem in Hq as (b & Hb).
    pose proof (find_new_Forall _ _ _ _ (vi_new_wf _ _ _ Hv) Hb) as [Hwfb _]. rewrite Hb.
    destruct (decide (id = id')) as [->|Hne].
    + assert (b = a) as -> by congruence. rewrite (UserAccount.equiv_asset_of _ _ _ Hf).
      destruct r; cbn [status_of].
      * rewrite UserAccount.transfer_asset_of.
        destruct (decide (n = Z.to_nat k)) as [->|].
        -- rewrite decide_True by done. done.
        -- rewrite decide_False by naive_solver. rewrite Z.add_0_r. symmetry. apply i64_id.
           by apply (UserAccount.asset_wf a n).
      * rewrite decide_False by naive_solver. rewrite Z.add_0_r. symmetry. apply i64_id.
        by apply (UserAccount.asset_wf a n).
    + rewrite decide_False by naive_solver. rewrite Z.add_0_r. symmetry. apply i64_id.
      by apply (UserAccount.asset_wf b n).
Qed.

Lemma db_account_wf db0 db v i : db_ok db0 -> view_inv db0 db v ->
  (i < length (MemoryDatabase.database db0))%nat ->
  exists a, MemoryDatabase.database db !! i = Some a /\ UserAccount.wf a.
Proof.
  intros [Hok _] Hv Hi. destruct (lookup_lt_is_Some_2 _ _ Hi) as [a0 Ha0].
  destruct (vi_account _ _ _ Hv i a0 Ha0) as (a & Ha & Hs & _). exists a. split; [done|].
  apply (shift_wf _ _ _ (proj1 (Forall_lookup_1 _ _ _ _ Hok Ha0)) Hs).
Qed.

Lemma buffered_transfer_spec db0 db v p k x :
  db_ok db0 -> view_inv db0 db v -> valid_ptr db0 v p ->
  exists db' v' s, buffered_transfer_available db v p k x = Ok (db', v', s) /\
    view_inv db0 db' v' /\ moved db0 v v' p k x s.
Proof.
  intros Hok Hv Hp. destruct p as [i|id].
  - destruct (db_account_wf db0 db v i Hok Hv Hp) as (a & Ha & Hwf).
    destruct (account_transfer_effect db i a (get_existing_account v i) k x Ha Hwf) as (a' & w' & s & E & Eff).
    unfold buffered_transfer_available, buffered_op. rewrite E. simpl. do 3 eexists. split; [reflexivity|].
    destruct (view_inv_db_op db0 db v i k x s a a' w' Hok Hv Ha Eff) as [Hv' Hnet].
    split; [done|]. apply moved_db_op; [apply Hv|done].
  - destruct (view_new_op db0 db v id k x (fun a => UserAccount.conditional_transfer_available a k x) Hv Hp)
      as (v' & r & E & Hv' & Hm).
    { intros a Hwf. pose proof (UserAccount.conditional_transfer_spec a k x Hwf) as Sp.
      destruct (UserAccount.conditional_transfer_available a k x) as [a' r].
      destruct (decide _); by destruct Sp as [-> ?]. }
    exists db, v', (status_of r). split; [exact E|done].
Qed.

Lemma buffered_escrow_spec db0 db v p k x :
  db_ok db0 -> view_inv db0 db v -> valid_ptr db0 v p -> in_i64 x ->
  exists db' v' s, buffered_escrow db v p k x = Ok (db', v', s) /\
    view_inv db0 db' v' /\ moved db0 v v' p k (- x) s.
Proof.
  intros Hok Hv Hp Hx. destruct p as [i|id].
  - destruct (db_account_wf db0 db v i Hok Hv Hp) as (a & Ha & Hwf).
    destruct (account_escrow_effect db i a (get_existing_account v i) k x Ha Hwf) as (a' & w' & s & E & Eff).
    unfold buffered_escrow, buffered_op. rewrite E. simpl. do 3 eexists. split; [reflexivity|].
    destruct (view_inv_db_op db0 db v i k (- x) s a a' w' Hok Hv Ha Eff) as [Hv' Hnet].
    split; [done|]. apply moved_db_op; [apply Hv|done].
  - destruct (view_new_op db0 db v id k (- x) (fun a => UserAccount.conditional_escrow a k x) Hv Hp)
      as (v' & r & E & Hv' & Hm).
    { intros a Hwf. pose proof (UserAccount.conditional_escrow_spec a k x Hwf Hx) as Sp.
      destruct (UserAccount.conditional_escrow a k x) as [a' r].
      destruct (decide _); by destruct Sp as [-> ?]. }
    exists db, v', (status_of r). split; [exact E|done].
Qed.

(** ** Lookups, new accounts and sequence numbers *)
Lemma lookup_user_valid db0 db v id p :
  db_ok db0 -> view_inv db0 db v -> creation_lookup_user db (creation v) id = Some p -> valid_ptr db0 v p.
Proof.
  intros [_ Hi] Hv. unfold creation_lookup_user, MemoryDatabase.lookup_user.
  rewrite (sf_map _ _ (vi_frame _ _ _ Hv)). destruct (_ !! id) as [i|] eqn:E.
  - intros [= <-]. apply Hi in E as (a & Ha & _). by eapply lookup_lt_Some.
  - intros Hp. by destruct (vi_temp _ _ _ Hv id p Hp) as [-> ?].
Qed.

Lemma new_account_wf id pk : UserAccount.wf (UserAccount.new id pk : account).
Proof. by split. Qed.

Lemma create_new_account_spec db0 db v id pk :
  db_ok db0 -> view_inv db0 db v ->
  exists db' c s p, create_new_account db (creation v) id pk = (db', c, s, p) /\
    let v' := mkBuffered c (accounts v) in
    view_inv db0 db' v' /\ reservations (creation v') = reservations (creation v) /\
    (forall q n, valid_ptr db0 v q -> view_balance db0 v' q n = view_balance db0 v q n) /\
    (s <> SUCCESS -> db' = db /\ v' = v) /\
    (s = SUCCESS -> p = Some (NewPtr id) /\
       (id ∉ (new_accounts (creation v)).*1) /\
       (new_accounts (creation v')).*1 = id :: (new_accounts (creation v)).*1 /\
       forall n, view_balance db0 v' (NewPtr id) n = 0).
Proof.
  intros Hok Hv. pose proof Hv as [F Len A R V N1 N2 N3 Tmp Res].
  unfold create_new_account, MemoryDatabase.reserve_account_creation. rewrite (sf_map _ _ F).
  destruct (MemoryDatabase.user_id_to_idx_map db0 !! id) as [i|] eqn:Em.
  { do 4 eexists. split; [reflexivity|]. simpl. destruct v; simpl in *. done. }
  destruct (decide (id ∈ MemoryDatabase.reserved_account_ids db)) as [Hr|Hr].
  { do 4 eexists. split; [reflexivity|]. simpl. destruct v; simpl in *. done. }
  do 4 eexists. split; [reflexivity|]. cbn zeta.
  rewrite Res in Hr. apply not_elem_of_union in Hr as [Hr1 Hr2].
  rewrite elem_of_list_to_set in Hr1.
  assert (Ht : temporary_idxs (creation v) !! id = None).
  { destruct (temporary_idxs _ !! id) as [p|] eqn:E; [|done]. by destruct (Tmp id p E). }
  rewrite Ht. split; [|split; [done|split; [|split; [done|]]]].
  - constructor; simpl; try done.
    + by destruct F.
    + by apply NoDup_cons.
    + intros id' [->|Hid]%elem_of_cons; [done|by apply N2].
    + constructor; [|done]. simpl. split; [apply new_account_wf|done].
    + intros id' p. destruct (decide (id = id')) as [->|Hne].
      * rewrite lookup_insert_eq. intros [= <-]. split; [done|]. apply elem_of_cons; by left.
      * rewrite lookup_insert_ne by done. intros Hp. destruct (Tmp id' p Hp) as [-> ?].
        split; [done|]. apply elem_of_cons; by right.
    + rewrite Res. set_solver.
  - intros [i|id'] n Hq; simpl in *; [done|].
    destruct (Z.eqb_spec id' id) as [->|]; [done|]. done.
  - intros _. split; [done|]. split; [done|]. split; [done|]. intros n. simpl. rewrite Z.eqb_refl. done.
Qed.

Lemma spec_reserve_failure gap s n : (Spec.reserve gap s n).2 <> SUCCESS -> (Spec.reserve gap s n).1 = s.
Proof. unfold Spec.reserve. by repeat case_match. Qed.

Lemma spec_reserve_last gap s n : Spec.last (Spec.reserve gap s n).1 = Spec.last s.
Proof. unfold Spec.reserve. by repeat case_match. Qed.

(** A refused reservation leaves the tracker unchanged. *)
Lemma tracker_reserve_failure (t : T) n :
  st_wf t -> in_u64 n -> in_u64 (Spec.last (st_abs t)) ->
  (st_reserve_sequence_number t n).2 <> SUCCESS -> (st_reserve_sequence_number t n).1 = t.
Proof.
  intros Hw Hn Hl. destruct (st_reserve_refines t n Hw Hn Hl) as [Hw' E].
  pose proof (spec_reserve_failure st_gap (st_abs t) n) as Hf. rewrite <- E in Hf. simpl in Hf.
  intros Hs. apply st_abs_inj; [done|done|]. by apply Hf.
Qed.

Lemma tracker_release_reserve (t : T) n :
  st_wf t -> in_u64 n -> in_u64 (Spec.last (st_abs t)) ->
  (st_reserve_sequence_number t n).2 = SUCCESS ->
  st_release_sequence_number (st_reserve_sequence_number t n).1 n = Ok t.
Proof.
  intros Hw Hn Hl Hs. destruct (st_reserve_refines t n Hw Hn Hl) as [Hw' E].
  rewrite Hs in E. symmetry in E.
  pose proof (Spec.release_reserve _ _ _ _ (st_abs_mask t Hw) E) as Er.
  assert (Hl' : in_u64 (Spec.last (st_abs (st_reserve_sequence_number t n).1))).
  { pose proof (spec_reserve_last st_gap (st_abs t) n) as El. rewrite E in El. simpl in El. by rewrite El. }
  pose proof (st_release_refines _ n Hw' Hn Hl') as Hr. rewrite Er in Hr.
  destruct (st_release_sequence_number _ n) as [t'|]; [|done]. destruct Hr as [Hw2 E2].
  f_equal. by apply st_abs_inj.
Qed.

Lemma reserve_spec db0 db v i n :
  db_ok db0 -> view_inv db0 db v -> (i < length (MemoryDatabase.database db0))%nat -> in_u64 n ->
  reservations (creation v) = [] ->
  exists db' c s, creation_reserve_sequence_number db (creation v) (DbPtr i) n = Ok (db', c, s) /\
    let v' := mkBuffered c (accounts v) in
    view_inv db0 db' v' /\
    new_accounts (creation v') = new_accounts (creation v) /\
    (forall q m, view_balance db0 v' q m = view_balance db0 v q m) /\
    reservations (creation v') = (if decide (s = SUCCESS) then [(DbPtr i, n)] else []).
Proof.
  intros Hok Hv Hi Hn Hrs. pose proof Hv as [F Len A R V N1 N2 N3 Tmp Res].
  destruct (lookup_lt_is_Some_2 _ _ Hi) as [a0 Ha0].
  destruct (A i a0 Ha0) as (a & Ha & Hs & Ht). rewrite Hrs in Ht. simpl in Ht.
  destruct (Forall_lookup_1 _ _ _ _ (proj1 Hok) Ha0) as (Hwf0 & Hw0 & Hl0).
  unfold creation_reserve_sequence_number. simpl. rewrite (on_account_ok _ _ _ _ Ha). cbn [result_bind fst snd].
  unfold UserAccount.reserve_sequence_number. rewrite Ht.
  pose proof (tracker_reserve_failure _ n Hw0 Hn Hl0) as Hfail.
  destruct (st_reserve_sequence_number (UserAccount.seq_tracker a0) n) as [s' r] eqn:Er. cbn [fst snd] in *.
  set (a' := UserAccount.set_tracker a s').
  assert (Hinv : forall rs, (rs = [] \/ rs = [(DbPtr i, n)]) ->
    tracker_ok rs i (UserAccount.seq_tracker a0) s' ->
    view_inv db0 (MemoryDatabase.set_database db (<[i := a']> (MemoryDatabase.database db)))
      (mkBuffered (mkAccountCreationView (new_accounts (creation v)) (temporary_idxs (creation v)) rs) (accounts v))).
  { intros rs Hcase Hok'. constructor; simpl; try done.
    - by destruct F.
    - by rewrite length_insert.
    - intros j b0 Hb0. destruct (decide (i = j)) as [->|Hne].
      + assert (b0 = a0) as -> by congruence. exists a'.
        rewrite list_lookup_insert_eq by (by eapply lookup_lt_Some). split; [done|]. split; [|done].
        destruct Hs as [S1 S2 S3 S4]. by constructor.
      + destruct (A j b0 Hb0) as (b & Hb & Hbs & Hbt). exists b. rewrite list_lookup_insert_ne by done.
        split; [done|]. split; [done|]. rewrite Hrs in Hbt. simpl in Hbt.
        destruct Hcase as [->| ->]; simpl; [done|]. rewrite decide_False by congruence. done.
    - destruct Hcase as [->| ->]; constructor; [by exists i|constructor]. }
  destruct (decide (r = SUCCESS)) as [->|Hr].
  - do 3 eexists. split; [reflexivity|]. cbn zeta. rewrite Hrs. split; [|done].
    apply Hinv; [by right|]. simpl. rewrite decide_True by done. by rewrite Er.
  - do 3 eexists. split; [reflexivity|]. cbn zeta. rewrite decide_False by done.
    split; [|split; [done|split; [done|done]]].
    specialize (Hinv [] ltac:(by left) ltac:(simpl; by apply Hfail)).
    destruct v as [[]]; simpl in *. rewrite Hrs. exact Hinv.
Qed.

(** ** Unwinding and committing *)
Lemma foldl_account_commit db (l : list (nat * UserAccountView)) :
  foldl (fun db p => account_commit db p.1 p.2) db l =
    MemoryDatabase.set_database db
      (foldl (fun xs p => alter (fun a => transfers a (map_to_list (available_buffer p.2))) p.1 xs)
        (MemoryDatabase.database db) l).
Proof.
  revert db. induction l as [|p l IH]; intros db; simpl; [by destruct db|].
  by rewrite IH, database_account_commit.
Qed.

Lemma foldl_account_unwind db (l : list (nat * UserAccountView)) :
  foldl (fun db p => account_unwind db p.1 p.2) db l =
    MemoryDatabase.set_database db
      (foldl (fun xs p => alter (fun a => undo_transfers a (map_to_list (available_side_effects p.2))) p.1 xs)
        (MemoryDatabase.database db) l).
Proof.
  revert db. induction l as [|p l IH]; intros db; simpl; [by destruct db|].
  by rewrite IH, database_account_unwind.
Qed.

Lemma foldl_release db (l : list (Z * account)) :
  foldl (fun db p => MemoryDatabase.release_account_creation db p.1) db l =
    MemoryDatabase.set_reserved db (MemoryDatabase.reserved_account_ids db ∖ list_to_set l.*1).
Proof.
  revert db. induction l as [|p l IH]; intros db; simpl.
  - destruct db. unfold MemoryDatabase.set_reserved. simpl. f_equal. set_solver.
  - rewrite IH. unfold MemoryDatabase.release_account_creation, MemoryDatabase.set_reserved. simpl.
    f_equal. set_solver.
Qed.

Lemma foldl_commit_creation db (l : list (Z * account)) :
  foldl (fun db p => MemoryDatabase.commit_account_creation db p.1 p.2) db l =
    MemoryDatabase.set_uncommitted db (MemoryDatabase.uncommitted_db db ++ l.*2).
Proof.
  revert db. induction l as [|p l IH]; intros db; simpl.
  - destruct db. unfold MemoryDatabase.set_uncommitted. simpl. by rewrite app_nil_r.
  - rewrite IH. unfold MemoryDatabase.commit_account_creation, MemoryDatabase.set_uncommitted. simpl.
    by rewrite <- app_assoc.
Qed.

Lemma set_tracker_id a : UserAccount.set_tracker a (UserAccount.seq_tracker a) = a.
Proof. by destruct a. Qed.

Lemma commit_reservations_id db (rs : list (ptr * Z)) : foldl commit_reservation db rs = db.
Proof.
  induction rs as [|[[i|id] n] rs IH] in db |- *; simpl; [done| |apply IH]. rewrite IH.
  unfold commit_reservation, MemoryDatabase.commit_sequence_number, MemoryDatabase.set_database. simpl.
  destruct db; simpl. f_equal. apply list_alter_id'. intros a.
  unfold UserAccount.commit_sequence_number. by rewrite st_commit_number_refines, set_tracker_id.
Qed.

(** Unwinding returns to the database the view was opened on. *)
Lemma buffered_unwind_spec db0 db v :
  db_ok db0 -> view_inv db0 db v ->
  exists db', buffered_unwind db v = Ok db' /\ db_equiv db0 db'.
Proof.
  intros Hok Hv. pose proof Hv as [F Len A R V N1 N2 N3 Tmp Res].
  unfold buffered_unwind, creation_unwind. rewrite foldl_account_unwind, foldl_release.
  set (xs := foldl _ (MemoryDatabase.database db) _).
  assert (Hxs : forall i a0, MemoryDatabase.database db0 !! i = Some a0 -> exists a, xs !! i = Some a /\
    acct_shift (fun _ => 0) a0 a /\
    tracker_ok (reservations (creation v)) i (UserAccount.seq_tracker a0) (UserAccount.seq_tracker a)).
  { intros i a0 Ha0. destruct (A i a0 Ha0) as (a & Ha & Hs & Ht). unfold xs.
    pose proof (proj1 (Forall_lookup_1 _ _ _ _ (proj1 Hok) Ha0)) as Hwf0.
    rewrite (foldl_alter_map_lookup (fun w a => undo_transfers a (map_to_list (available_side_effects w)))), Ha. simpl.
    eexists. split; [reflexivity|]. unfold side_at, get_existing_account in Hs.
    destruct (accounts v !! i) as [w|]; simpl in Hs.
    - destruct (undo_transfers_shift a (available_side_effects w) (shift_wf _ _ _ Hwf0 Hs)) as [Hu ->].
      split; [|done]. refine (shift_ext _ _ _ _ _ (shift_trans _ _ _ _ _ Hs Hu)).
      intros n. unfold side. f_equal. lia.
    - split; [|done]. by refine (shift_ext _ _ _ _ _ Hs). }
  assert (Hlen : length xs = length (MemoryDatabase.database db0)).
  { apply Nat.le_antisymm; apply Nat.nlt_ge; intros Hlt.
    - destruct (lookup_lt_is_Some_2 _ _ Hlt) as [y Hy].
      unfold xs in Hy. rewrite (foldl_alter_map_lookup (fun w a => undo_transfers a (map_to_list (available_side_effects w)))) in Hy.
      apply fmap_Some in Hy as (z & Hz & _). apply lookup_lt_Some in Hz. lia.
    - destruct (lookup_lt_is_Some_2 _ _ Hlt) as [y Hy].
      destruct (Hxs _ _ Hy) as (b & Hb & _). apply lookup_lt_Some in Hb. lia. }
  assert (Hres : MemoryDatabase.reserved_account_ids db ∖ list_to_set ((new_accounts (creation v)).*1)
    = MemoryDatabase.reserved_account_ids db0).
  { rewrite Res. apply set_eq. intros id. rewrite elem_of_difference, elem_of_union.
    split; [tauto|]. intros Hid. split; [by right|].
    intros Hid'%elem_of_list_to_set. by destruct (N2 id Hid'). }
  destruct F as [F1 F2 F3 F4 F5].
  assert (Hclose : forall ys, length ys = length xs ->
    (forall i a0, MemoryDatabase.database db0 !! i = Some a0 -> exists a, ys !! i = Some a /\ a0 ≡ a) ->
    db_equiv db0 (MemoryDatabase.set_database (MemoryDatabase.set_reserved (MemoryDatabase.set_database db xs)
      (MemoryDatabase.reserved_account_ids db ∖ list_to_set ((new_accounts (creation v)).*1))) ys)).
  { intros ys Hy Hall. constructor; simpl; try (by symmetry).
    apply Forall2_same_length_lookup_2; [congruence|]. intros i x y Hx Hy2.
    destruct (Hall i x Hx) as (y' & Hy' & E). by assert (y' = y) as <- by congruence. }
  assert (Hsame : forall i a0 a, MemoryDatabase.database db0 !! i = Some a0 -> acct_shift (fun _ => 0) a0 a ->
    UserAccount.seq_tracker a0 = UserAccount.seq_tracker a -> a0 ≡ a).
  { intros i a0 a Ha0 Hs Ht. apply (shift_none (fun _ => 0)); try done.
    apply (Forall_lookup_1 _ _ _ _ (proj1 Hok) Ha0). }
  destruct (reservations (creation v)) as [|[p n] [|]] eqn:Ers.
  - simpl. eexists. split; [reflexivity|]. specialize (Hclose xs eq_refl).
    destruct db; simpl in *. apply Hclose. intros i a0 Ha0.
    destruct (Hxs i a0 Ha0) as (a & Ha & Hs & Ht). exists a. split; [done|]. by apply (Hsame i).
  - apply Forall_cons in R as [(i & E & Hi) _]. simpl in E. subst p. simpl.
    destruct (lookup_lt_is_Some_2 _ _ Hi) as [a0 Ha0].
    destruct (Hxs i a0 Ha0) as (a & Ha & Hs & Ht). simpl in Ht. rewrite decide_True in Ht by done.
    destruct Ht as (Hn & Ht & Hst).
    destruct (Forall_lookup_1 _ _ _ _ (proj1 Hok) Ha0) as (Hwf0 & Hw0 & Hl0).
    unfold MemoryDatabase.release_sequence_number. simpl. rewrite Ha.
    unfold UserAccount.release_sequence_number. rewrite Ht, tracker_release_reserve by done. simpl.
    eexists. split; [reflexivity|]. apply Hclose; [by rewrite length_insert|].
    intros j b0 Hb0. destruct (decide (i = j)) as [->|Hne].
    + assert (b0 = a0) as -> by congruence. rewrite list_lookup_insert_eq by (by eapply lookup_lt_Some).
      eexists. split; [reflexivity|]. apply (Hsame j); [done| |done].
      destruct Hs as [S1 S2 S3 S4]. by constructor.
    + rewrite list_lookup_insert_ne by done. destruct (Hxs j b0 Hb0) as (b & Hb & Hbs & Hbt).
      exists b. split; [done|]. apply (Hsame j); [done|done|]. simpl in Hbt.
      by rewrite decide_False in Hbt by congruence.
  - exfalso. destruct (MemoryDatabase.database db0) as [|a0 rest] eqn:E0.
    + apply Forall_cons in R as [(i & _ & Hi) _]. simpl in Hi. lia.
    + destruct (A 0%nat a0 eq_refl) as (? & _ & _ & Ht). done.
Qed.

(** Committing applies the net of every account and publishes the new ones. *)
Record committed db0 v db' : Prop := {
  cm_map : MemoryDatabase.user_id_to_idx_map db' = MemoryDatabase.user_id_to_idx_map db0;
  cm_length : length (MemoryDatabase.database db') = length (MemoryDatabase.database db0);
  cm_account i a0 : MemoryDatabase.database db0 !! i = Some a0 ->
    exists a, MemoryDatabase.database db' !! i = Some a /\ acct_shift (net_at v i) a0 a /\
      tracker_ok (reservations (creation v)) i (UserAccount.seq_tracker a0) (UserAccount.seq_tracker a);
  cm_uncommitted : MemoryDatabase.uncommitted_db db' =
    MemoryDatabase.uncommitted_db db0 ++ (new_accounts (creation v)).*2
}.

Lemma buffered_commit_spec db0 db v :
  db_ok db0 -> view_inv db0 db v -> committed db0 v (buffered_commit db v).
Proof.
  intros Hok Hv. pose proof Hv as [F Len A R V N1 N2 N3 Tmp Res].
  unfold buffered_commit, creation_commit. rewrite commit_reservations_id, foldl_account_commit, foldl_commit_creation.
  set (xs := foldl _ (MemoryDatabase.database db) _).
  assert (Hl : forall i, xs !! i = (fun a => match accounts v !! i with
      | Some w => transfers a (map_to_list (available_buffer w)) | None => a end) <$> MemoryDatabase.database db !! i).
  { intros i. apply (foldl_alter_map_lookup (fun w a => transfers a (map_to_list (available_buffer w)))). }
  constructor; simpl.
  - apply F.
  - rewrite <- Len. apply Nat.le_antisymm; apply Nat.nlt_ge; intros Hlt.
    + destruct (lookup_lt_is_Some_2 _ _ Hlt) as [y Hy]. rewrite Hl in Hy.
      apply fmap_Some in Hy as (z & Hz & _). apply lookup_lt_Some in Hz. lia.
    + destruct (lookup_lt_is_Some_2 _ _ Hlt) as [y Hy]. specialize (Hl (length xs)). rewrite Hy in Hl.
      simpl in Hl. apply lookup_lt_Some in Hl. lia.
  - intros i a0 Ha0. destruct (A i a0 Ha0) as (a & Ha & Hs & Ht). rewrite Hl, Ha. simpl.
    pose proof (proj1 (Forall_lookup_1 _ _ _ _ (proj1 Hok) Ha0)) as Hwf0.
    eexists. split; [reflexivity|]. unfold net_at, side_at, get_existing_account in *.
    destruct (accounts v !! i) as [w|]; simpl in *.
    + destruct (transfers_map_shift a (available_buffer w) (shift_wf _ _ _ Hwf0 Hs)) as [Hu ->].
      split; [|done]. exact (shift_trans _ _ _ _ _ Hs Hu).
    + split; [|done]. by refine (shift_ext _ _ _ _ _ Hs).
  - by rewrite (sf_uncommitted _ _ F).
Qed.
End ViewLemmas.
