(* ===== verification/Offers.v ===== *)
(** * Offer categories, orderbook keys and the offer trie
    (src/orderbook/utils.h, typedefs.h, thunk.h)

    [Module Category]: the mapping between (sell asset, buy asset) pairs and
    orderbook indices.  [Module Key]: the byte keys of the orderbook tries.  The
    trie library and the byte-order helper of the utility library are outside
    the repository: [OfferTrie] and [BigEndian] state what the code relies
    on. *)
From stdpp Require Import base gmap list strings sorting.
From S2P Require Import Prelude Types PriceArith.

Module Category.
Definition NUM_OFFER_TYPES : Z := 1.

Definition map_type_to_int (type : OfferType) : result Z :=
  match type with
  | SELL => Ok 0
  | OTHER_TYPE _ => Throw "invalid offer type"
  end.
(** [static_cast<OfferType>(-1)] *)
Definition map_int_to_type (type : Z) : OfferType :=
  if type =? 0 then SELL else OTHER_TYPE (-1).

Definition category_to_idx (id : OfferCategory) (asset_count : Z) : result Z :=
  if (asset_count <=? sellAsset id) || (asset_count <=? buyAsset id)
  then Throw "invalid asset number"
  else
    let units_per_order_type := i32 (u32 (asset_count * (asset_count - 1))) in
    let idx_in_order_type :=
      i32 (u32 (sellAsset id * (asset_count - 1)
                + (buyAsset id - (if sellAsset id <? buyAsset id then 1 else 0)))) in
    let* t := map_type_to_int (type id) in
    Ok (i32 (units_per_order_type * t + idx_in_order_type)).

(** C++ division truncates; both operands are nonnegative here. *)
Definition category_from_idx (idx asset_count : Z) : OfferCategory :=
  let units_per_order_type := i32 (asset_count * (asset_count - 1)) in
  let type := map_int_to_type (Z.quot idx units_per_order_type) in
  let remainder := Z.rem idx units_per_order_type in
  let sell_asset := u32 (Z.quot remainder (asset_count - 1)) in
  let buy_asset := u32 (Z.rem remainder (asset_count - 1)) in
  let buy_asset := if sell_asset <=? buy_asset then u32 (buy_asset + 1) else buy_asset in
  mkOfferCategory sell_asset buy_asset type.

Definition validate_category_ (id : OfferCategory) (asset_count : Z) : bool :=
  if sellAsset id =? buyAsset id then false
  else if (asset_count <=? sellAsset id) || (asset_count <=? buyAsset id) then false
  else if decide (type id <> SELL) then false
  else true.

Definition get_num_orderbooks_by_asset_count (asset_count : Z) : Z :=
  u32 (NUM_OFFER_TYPES * u32 (asset_count * (asset_count - 1))).

(** The largest asset count whose orderbook count fits an [int]. *)
Definition MAX_INT_ASSETS : Z := 46341.

Definition nonneg (id : OfferCategory) : Prop := 0 <= sellAsset id /\ 0 <= buyAsset id.

(** The index of a category below the asset count: the value of the formula
    and the failures. *)
Lemma category_to_idx_spec id n :
  nonneg id -> n <= MAX_INT_ASSETS ->
  category_to_idx id n =
    if decide (sellAsset id < n /\ buyAsset id < n) then
      match type id with
      | SELL => Ok (sellAsset id * (n - 1) + (buyAsset id - (if sellAsset id <? buyAsset id then 1 else 0)))
      | OTHER_TYPE _ => Throw "invalid offer type"
      end
    else Throw "invalid asset number".
Proof.
  intros [Hs Hb] Hn. unfold MAX_INT_ASSETS, category_to_idx in *.
  destruct (Z.leb_spec n (sellAsset id)); simpl; [by rewrite decide_False by lia|].
  destruct (Z.leb_spec n (buyAsset id)); simpl; [by rewrite decide_False by lia|].
  rewrite decide_True by lia. destruct (type id); [|done]. simpl. f_equal.
  set (s := sellAsset id) in *. set (b := buyAsset id) in *.
  assert (0 <= n * (n - 1) < 2 ^ 31) by nia.
  assert (0 <= s * (n - 1) + (b - (if s <? b then 1 else 0)) < 2 ^ 31).
  { destruct (Z.ltb_spec s b); nia. }
  rewrite (u32_id (n * (n - 1))), (i32_id (n * (n - 1))) by lia.
  rewrite (u32_id (s * _ + _)), (i32_id (s * _ + _)) by lia. rewrite i32_id by lia. lia.
Qed.

Lemma validate_category_spec id n :
  validate_category_ id n = true <->
  sellAsset id <> buyAsset id /\ sellAsset id < n /\ buyAsset id < n /\ type id = SELL.
Proof.
  unfold validate_category_.
  destruct (Z.eqb_spec (sellAsset id) (buyAsset id)); [by split; [|intros (? & _)]|].
  destruct (Z.leb_spec n (sellAsset id)); simpl; [split; [done|lia]|].
  destruct (Z.leb_spec n (buyAsset id)); simpl; [split; [done|lia]|].
  destruct (decide (type id <> SELL)) as [Hty|Hty]; [split; [done|tauto]|].
  split; [|done]. intros _. split_and!; try done. by apply dec_stable.
Qed.

(** The quotient and remainder the inverse computes. *)
Lemma idx_split n s r : 0 <= s < n -> 0 <= r < n - 1 ->
  0 <= s * (n - 1) + r < n * (n - 1) /\
  Z.quot (s * (n - 1) + r) (n - 1) = s /\ Z.rem (s * (n - 1) + r) (n - 1) = r.
Proof.
  intros Hs Hr. assert (0 <= s * (n - 1) + r) by nia.
  split; [nia|]. rewrite Z.quot_div_nonneg, Z.rem_mod_nonneg by lia.
  rewrite Z.add_comm, Z.div_add, Z.mod_add, Z.div_small, Z.mod_small by lia. done.
Qed.

Lemma category_from_idx_spec n s r :
  2 <= n <= MAX_INT_ASSETS -> 0 <= s < n -> 0 <= r < n - 1 ->
  category_from_idx (s * (n - 1) + r) n = mkOfferCategory s (if s <=? r then r + 1 else r) SELL.
Proof.
  unfold MAX_INT_ASSETS. intros Hn Hs Hr. destruct (idx_split n s r Hs Hr) as (Hb & Hq & Hm).
  unfold category_from_idx. rewrite i32_id by nia.
  rewrite (Z.quot_small _ (n * (n - 1))), (Z.rem_small _ (n * (n - 1))) by lia.
  rewrite Hq, Hm, (u32_id s), (u32_id r) by lia.
  destruct (Z.leb_spec s r); [rewrite u32_id by lia|]; done.
Qed.

(** The index of a valid category, and back. *)
Lemma valid_category_idx n id :
  2 <= n <= MAX_INT_ASSETS -> nonneg id -> validate_category_ id n = true ->
  exists i, category_to_idx id n = Ok i /\ 0 <= i < n * (n - 1) /\ category_from_idx i n = id.
Proof.
  intros Hn. destruct id as [s b ty]. intros [Hs Hb] (Hsb & Hsn & Hbn & Hty)%validate_category_spec.
  simpl in *. subst ty. set (r := b - (if s <? b then 1 else 0)).
  assert (Hr : 0 <= r < n - 1) by (unfold r; destruct (Z.ltb_spec s b); lia).
  exists (s * (n - 1) + r). split; [|split].
  - rewrite category_to_idx_spec by (done || lia). simpl. by rewrite decide_True by lia.
  - by apply idx_split.
  - rewrite category_from_idx_spec by (done || lia). f_equal.
    unfold r. destruct (Z.ltb_spec s b); case_match; lia.
Qed.

(** The last asset twice: the only pair of assets below the count whose index lies
    behind the last orderbook. *)
Definition last_twice (id : OfferCategory) (n : Z) : Prop := sellAsset id = n - 1 /\ buyAsset id = n - 1.

(** Where the index of any other pair points, and when there is no index. *)
Lemma category_idx_in_range n id :
  2 <= n <= MAX_INT_ASSETS -> nonneg id -> ~ last_twice id n ->
  match category_to_idx id n with
  | Ok i => 0 <= i < n * (n - 1) /\ sellAsset (category_from_idx i n) = sellAsset id
  | Throw _ => validate_category_ id n = false
  end.
Proof.
  intros Hn Hnn Hl. pose proof Hnn as [Hs Hb]. rewrite category_to_idx_spec by (done || lia). unfold last_twice in Hl.
  assert (Hv : ~ (sellAsset id <> buyAsset id /\ sellAsset id < n /\ buyAsset id < n /\ type id = SELL) ->
    validate_category_ id n = false) by (intros Hno; apply not_true_is_false; by rewrite validate_category_spec).
  destruct (decide _) as [[Hsn Hbn]|Hno]; [|apply Hv; tauto].
  destruct (type id); [|apply Hv; by intros (_ & _ & _ & ?)].
  set (r := buyAsset id - (if sellAsset id <? buyAsset id then 1 else 0)).
  assert (Hr : 0 <= r < n - 1) by (unfold r; destruct (Z.ltb_spec (sellAsset id) (buyAsset id)); lia).
  split; [by apply idx_split|]. by rewrite category_from_idx_spec by (done || lia).
Qed.
Lemma valid_has_idx n id e :
  2 <= n <= MAX_INT_ASSETS -> nonneg id -> validate_category_ id n = true -> category_to_idx id n <> Throw e.
Proof. intros Hn Hnn Hv. by destruct (valid_category_idx n id Hn Hnn Hv) as (i & -> & _). Qed.

(** Every index below the count is the index of a valid category. *)
Lemma count_orderbooks n : 0 <= n <= MAX_INT_ASSETS -> get_num_orderbooks_by_asset_count n = n * (n - 1).
Proof.
  unfold get_num_orderbooks_by_asset_count, NUM_OFFER_TYPES, MAX_INT_ASSETS. intros Hn.
  assert (n = 0 \/ 0 < n) as [->|] by lia; [reflexivity|]. rewrite (u32_id (n * (n - 1))), u32_id by nia. lia.
Qed.

Lemma category_of_idx n i : 2 <= n <= MAX_INT_ASSETS -> 0 <= i < n * (n - 1) ->
  nonneg (category_from_idx i n) /\ validate_category_ (category_from_idx i n) n = true /\
  category_to_idx (category_from_idx i n) n = Ok i.
Proof.
  intros Hn Hi. set (s := i / (n - 1)). set (r := i mod (n - 1)).
  assert (Hr : 0 <= r < n - 1) by (apply Z.mod_pos_bound; lia).
  assert (Hs : 0 <= s < n).
  { split; [apply Z.div_pos; lia|apply Z.div_lt_upper_bound; nia]. }
  assert (Ei : i = s * (n - 1) + r) by (unfold s, r; pose proof (Z.div_mod i (n - 1)); lia).
  assert (Hnn : nonneg (category_from_idx i n)).
  { rewrite Ei, category_from_idx_spec by done. split; simpl; destruct (Z.leb_spec s r); lia. }
  split; [exact Hnn|]. rewrite Ei, category_from_idx_spec in * by done.
  split; [apply validate_category_spec; simpl; destruct (Z.leb_spec s r); repeat split; lia|].
  rewrite category_to_idx_spec; simpl; [|done|lia].
  rewrite decide_True by (destruct (Z.leb_spec s r); lia). f_equal.
  destruct (Z.leb_spec s r), (Z.ltb_spec s (r + 1)), (Z.ltb_spec s r); lia.
Qed.
End Category.

(** ** Keys *)
Abbreviation key := (list Z) (only parsing).

(** [utils::write_unsigned_big_endian] of a 64-bit and of a 128-bit value, and
    [utils::read_unsigned_big_endian] of the latter. *)
Class BigEndian := {
  write_u128_big_endian : Z -> list Z;
  read_u128_big_endian : list Z -> Z;
  u128_big_endian_length v : length (write_u128_big_endian v) = 16%nat;
  u128_big_endian_read v : 0 <= v < 2 ^ 128 -> read_u128_big_endian (write_u128_big_endian v) = v;
  u128_big_endian_range l : 0 <= read_u128_big_endian l < 2 ^ 128;
  write_unsigned_big_endian : Z -> list Z;
  big_endian_length v : length (write_unsigned_big_endian v) = 8%nat;
  big_endian_bytes v : Forall (fun b => 0 <= b < 256) (write_unsigned_big_endian v);
  big_endian_value v : 0 <= v < 2 ^ 64 ->
    foldl (fun acc b => acc * 256 + b) 0 (write_unsigned_big_endian v) = v
}.

(** The value of a byte string read big-endian. *)
Definition be_value (l : list Z) : Z := foldl (fun acc b => acc * 256 + b) 0 l.

(** [memcmp] of byte strings; all the keys compared have the same length, and
    a proper prefix is ordered first to make this a total order. *)
Fixpoint memcmp (l1 l2 : list Z) : comparison :=
  match l1, l2 with
  | x :: l1, y :: l2 => match x ?= y with Eq => memcmp l1 l2 | c => c end
  | [], [] => Eq
  | [], _ :: _ => Lt
  | _ :: _, [] => Gt
  end.

Module Key.
Definition ORDERBOOK_KEY_LEN : nat := 22.

Section Key.
Context `{BigEndian}.

Definition generate_orderbook_trie_key (minPrice owner offer_id : Z) : key :=
  Price.write_price_big_endian minPrice ++ write_unsigned_big_endian owner ++
  write_unsigned_big_endian offer_id.

Definition offer_key (o : Offer) : key :=
  generate_orderbook_trie_key (minPrice o) (owner o) (offerId o).

Lemma be_value_app l1 l2 : be_value (l1 ++ l2) = be_value l1 * 256 ^ Z.of_nat (length l2) + be_value l2.
Proof.
  unfold be_value. rewrite foldl_app. generalize (foldl (fun acc b => acc * 256 + b) 0 l1). intros a.
  assert (G : forall l x, foldl (fun acc b => acc * 256 + b) x l
    = x * 256 ^ Z.of_nat (length l) + foldl (fun acc b => acc * 256 + b) 0 l).
  { clear. induction l as [|b l IH]; intros x; simpl foldl; [simpl; lia|].
    rewrite IH, (IH (0 * 256 + b)). cbn [length]. rewrite Nat2Z.inj_succ, Z.pow_succ_r by lia. ring. }
  apply G.
Qed.

Lemma be_value_bounds l : Forall (fun b => 0 <= b < 256) l -> 0 <= be_value l < 256 ^ Z.of_nat (length l).
Proof.
  induction l as [|b l IH] using rev_ind; intros Hl; [done|].
  apply Forall_app in Hl as [Hl Hb]. apply Forall_cons in Hb as [Hb _]. specialize (IH Hl).
  rewrite be_value_app, length_app. simpl length. rewrite Nat2Z.inj_add, Z.pow_add_r by lia.
  change (be_value [b]) with b. change (256 ^ Z.of_nat 1) with 256. lia.
Qed.

(** Lexicographic order of byte strings is the order of their values. *)
Lemma memcmp_value l1 l2 :
  length l1 = length l2 ->
  Forall (fun b => 0 <= b < 256) l1 -> Forall (fun b => 0 <= b < 256) l2 ->
  memcmp l1 l2 = (be_value l1 ?= be_value l2).
Proof.
  revert l2. induction l1 as [|x l1 IH]; intros [|y l2] Hlen H1 H2; try done.
  apply Forall_cons in H1 as [Hx H1], H2 as [Hy H2]. injection Hlen as Hlen. simpl memcmp.
  change (x :: l1) with ([x] ++ l1). change (y :: l2) with ([y] ++ l2).
  rewrite !be_value_app. change (be_value [x]) with x. change (be_value [y]) with y.
  pose proof (be_value_bounds l1 H1) as B1. pose proof (be_value_bounds l2 H2) as B2.
  rewrite Hlen in B1. rewrite Hlen.
  set (P := 256 ^ Z.of_nat (length l2)) in *.
  destruct (Z.compare_spec x y) as [->|Hlt|Hgt].
  - rewrite (IH l2 Hlen H1 H2).
    destruct (Z.compare_spec (be_value l1) (be_value l2)); symmetry;
      [apply Z.compare_eq_iff|apply Z.compare_lt_iff|apply Z.compare_gt_iff]; lia.
  - symmetry. apply Z.compare_lt_iff. nia.
  - symmetry. apply Z.compare_gt_iff. nia.
Qed.

(** The price is read from the first six bytes. *)
Lemma read_price_be_value l :
  Forall (fun b => 0 <= b < 256) l -> Price.read_price_big_endian l = be_value (take 6 l).
Proof.
  intros Hb. apply Forall_take with (n := 6%nat) in Hb. unfold Price.read_price_big_endian, be_value.
  change Price.PRICE_BYTES with 6%nat. assert (Hlen : (length (take 6 l) <= 6)%nat) by (rewrite length_take; lia).
  revert Hb Hlen.
  generalize (take 6 l). clear. intros l Hb Hlen.
  assert (G : forall l a k, Forall (fun b => 0 <= b < 256) l -> (length l + k <= 6)%nat -> 0 <= a < 256 ^ Z.of_nat k ->
    foldl (fun p0 b => u64 (u64 (Z.shiftl p0 8) + b)) a l = foldl (fun acc b => acc * 256 + b) a l).
  { clear. induction l as [|b l IH]; intros a k Hb Hk Ha; [done|]. apply Forall_cons in Hb as [Hb0 Hb].
    simpl in Hk. cbn [foldl]. assert (256 ^ Z.of_nat k <= 256 ^ 5) by (apply Z.pow_le_mono_r; lia).
    rewrite Price.shift_in_byte by lia. apply (IH _ (S k)); [done|lia|].
    rewrite Nat2Z.inj_succ, Z.pow_succ_r by lia. lia. }
  apply (G l 0 0%nat); [done|lia|lia].
Qed.

Lemma be_value_price p : 0 <= p <= Price.MAX_PRICE -> be_value (Price.write_price_big_endian p) = p.
Proof.
  intros Hp. pose proof (Price.read_write_price p [] Hp) as R. rewrite app_nil_r, read_price_be_value in R.
  - by rewrite take_ge in R.
  - apply Price.write_price_bytes.
Qed.

Lemma key_length p o i : length (generate_orderbook_trie_key p o i) = ORDERBOOK_KEY_LEN.
Proof.
  unfold generate_orderbook_trie_key. rewrite !length_app, Price.write_price_length, !big_endian_length. done.
Qed.

Lemma key_bytes p o i : Forall (fun b => 0 <= b < 256) (generate_orderbook_trie_key p o i).
Proof.
  unfold generate_orderbook_trie_key. rewrite !Forall_app.
  split; [apply Price.write_price_bytes|split; apply big_endian_bytes].
Qed.

Lemma key_value p o i :
  0 <= p <= Price.MAX_PRICE -> in_u64 o -> in_u64 i ->
  be_value (generate_orderbook_trie_key p o i) = p * 2 ^ 128 + o * 2 ^ 64 + i.
Proof.
  intros Hp Ho Hi. unfold generate_orderbook_trie_key. rewrite !be_value_app, be_value_price by done.
  unfold be_value. rewrite !big_endian_value by done. rewrite length_app, !big_endian_length.
  change (256 ^ Z.of_nat (8 + 8)) with (2 ^ 128). change (256 ^ Z.of_nat 8) with (2 ^ 64). lia.
Qed.

Lemma key_inj p o i p' o' i' :
  0 <= p <= Price.MAX_PRICE -> in_u64 o -> in_u64 i ->
  0 <= p' <= Price.MAX_PRICE -> in_u64 o' -> in_u64 i' ->
  generate_orderbook_trie_key p o i = generate_orderbook_trie_key p' o' i' -> p = p' /\ o = o' /\ i = i'.
Proof.
  intros Hp Ho Hi Hp' Ho' Hi' E. apply (f_equal be_value) in E.
  rewrite !key_value in E by done. unfold in_u64 in *. lia.
Qed.
End Key.
End Key.

(** Big-endian bytes of a value, the concrete instance of the interface. *)
Fixpoint be_bytes (n : nat) (v : Z) : list Z :=
  match n with
  | O => []
  | S n => be_bytes n (v / 256) ++ [v mod 256]
  end.

Lemma be_bytes_length n v : length (be_bytes n v) = n.
Proof. revert v. induction n as [|n IH]; intros v; simpl; [done|]. rewrite length_app, IH. simpl. lia. Qed.
Lemma be_bytes_range n v : Forall (fun b => 0 <= b < 256) (be_bytes n v).
Proof.
  revert v. induction n as [|n IH]; intros v; simpl; [constructor|].
  apply Forall_app. split; [apply IH|]. repeat constructor; apply Z.mod_pos_bound; lia.
Qed.
Lemma be_bytes_value n v : 0 <= v < 256 ^ Z.of_nat n -> be_value (be_bytes n v) = v.
Proof.
  revert v. induction n as [|n IH]; intros v Hv; [simpl in *; unfold be_value; simpl; lia|].
  rewrite Nat2Z.inj_succ, Z.pow_succ_r in Hv by lia. cbn [be_bytes]. rewrite Key.be_value_app, IH.
  - change (be_value [v mod 256]) with (v mod 256). cbn [length]. change (256 ^ Z.of_nat 1) with 256.
    pose proof (Z.div_mod v 256). lia.
  - split; [apply Z.div_pos; lia|apply Z.div_lt_upper_bound; lia].
Qed.

#[global] Program Instance concrete_big_endian : BigEndian := {
  write_u128_big_endian := be_bytes 16;
  read_u128_big_endian l := be_value l mod 2 ^ 128;
  write_unsigned_big_endian := be_bytes 8
}.
Next Obligation. intros. apply be_bytes_length. Qed.
Next Obligation.
  intros v Hv. cbv beta. rewrite (be_bytes_value 16) by (change (256 ^ Z.of_nat 16) with (2 ^ 128); lia).
  by apply Z.mod_small.
Qed.
Next Obligation. intros. apply Z.mod_pos_bound. lia. Qed.
Next Obligation. intros. apply be_bytes_length. Qed.
Next Obligation. intros. apply be_bytes_range. Qed.
Next Obligation. intros v Hv. apply (be_bytes_value 8). change (256 ^ Z.of_nat 8) with (2 ^ 64). lia. Qed.

(** ** The offer trie *)

(** Keys in the order of the trie. *)
Definition key_le (a b : key * Offer) : Prop := memcmp a.1 b.1 <> Gt.
#[export] Instance key_le_dec : forall a b, Decision (key_le a b).
Proof. intros. unfold key_le. apply _. Defined.

(** What the orderbook code relies on of [trie::MerkleTrie] over offers with the
    deletable, rollback, size and endowment mixins: the map it stores, the keys
    marked for deletion, the keys inserted since the last commit point
    ([RollbackInsertFn]), and the effect of each call on the three. *)
Definition offers_endow (l : list (key * Offer)) : Z := sum_by (fun p => amount p.2) l.

Class OfferTrie (TR : Type) := {
  ot_map : TR -> gmap key Offer;
  ot_marked : TR -> gset key;
  ot_rollback : TR -> gset key;
  ot_empty : TR;
  ot_insert : TR -> key -> Offer -> TR;
  ot_rollback_insert : TR -> key -> Offer -> TR;
  ot_perform_deletion : TR -> key -> TR * option Offer;
  ot_mark_for_deletion : TR -> key -> TR * option Offer;
  ot_unmark_for_deletion : TR -> key -> TR * option Offer;
  (** deletes the marked keys, listing what was deleted *)
  ot_perform_marked_deletions : TR -> TR * list (key * Offer);
  ot_merge_in : TR -> TR -> TR;
  (** (the split-off part, what stays) *)
  ot_endow_split : TR -> Z -> TR * TR;
  ot_do_rollback : TR -> TR;
  ot_clear_rollback : TR -> TR;
  (** restores the shape of the trie after a split; no effect on its content *)
  ot_clean_singlechild_nodes : TR -> key -> TR;
  (** the offers in key order *)
  ot_entries : TR -> list (key * Offer);
  ot_size : TR -> Z;
  ot_endow : TR -> Z;
  ot_endow_lt_key : TR -> key -> Z;
  ot_lowest_key : TR -> option key;
  ot_hash : TR -> list Z;

  ot_marked_sub t : ot_marked t ⊆ dom (ot_map t);
  ot_rollback_sub t : ot_rollback t ⊆ dom (ot_map t);
  ot_empty_map : ot_map ot_empty = ∅;
  ot_insert_map t k o : ot_map (ot_insert t k o) = <[k := o]> (ot_map t);
  ot_insert_marked t k o : ot_map t !! k = None -> ot_marked (ot_insert t k o) = ot_marked t;
  ot_insert_rollback t k o : ot_map t !! k = None -> ot_rollback (ot_insert t k o) = ot_rollback t;
  ot_rollback_insert_map t k o : ot_map (ot_rollback_insert t k o) = <[k := o]> (ot_map t);
  ot_rollback_insert_marked t k o :
    ot_map t !! k = None -> ot_marked (ot_rollback_insert t k o) = ot_marked t;
  ot_rollback_insert_rollback t k o : ot_rollback (ot_rollback_insert t k o) = {[k]} ∪ ot_rollback t;
  ot_delete_map t k : ot_map (ot_perform_deletion t k).1 = delete k (ot_map t);
  ot_delete_marked t k : ot_marked (ot_perform_deletion t k).1 = ot_marked t ∖ {[k]};
  ot_delete_rollback t k : ot_rollback (ot_perform_deletion t k).1 = ot_rollback t ∖ {[k]};
  ot_delete_result t k : (ot_perform_deletion t k).2 = ot_map t !! k;
  ot_mark_map t k : ot_map (ot_mark_for_deletion t k).1 = ot_map t;
  ot_mark_rollback t k : ot_rollback (ot_mark_for_deletion t k).1 = ot_rollback t;
  ot_mark_result t k : (ot_mark_for_deletion t k).2 =
    if decide (k ∈ ot_marked t) then None else ot_map t !! k;
  ot_mark_marked t k : ot_marked (ot_mark_for_deletion t k).1 =
    match ot_map t !! k with Some _ => {[k]} ∪ ot_marked t | None => ot_marked t end;
  ot_unmark_map t k : ot_map (ot_unmark_for_deletion t k).1 = ot_map t;
  ot_unmark_marked t k : ot_marked (ot_unmark_for_deletion t k).1 = ot_marked t ∖ {[k]};
  ot_unmark_rollback t k : ot_rollback (ot_unmark_for_deletion t k).1 = ot_rollback t;
  ot_deletions_map t : ot_map (ot_perform_marked_deletions t).1 =
    filter (fun p => p.1 ∉ ot_marked t) (ot_map t);
  ot_deletions_marked t : ot_marked (ot_perform_marked_deletions t).1 = ∅;
  ot_deletions_rollback t : ot_rollback (ot_perform_marked_deletions t).1 = ot_rollback t ∖ ot_marked t;
  ot_deletions_list t : (ot_perform_marked_deletions t).2 ≡ₚ
    map_to_list (filter (fun p => p.1 ∈ ot_marked t) (ot_map t));
  ot_merge_map t t' : ot_map t ##ₘ ot_map t' -> ot_map (ot_merge_in t t') = ot_map t ∪ ot_map t';
  ot_merge_marked t t' : ot_map t ##ₘ ot_map t' -> ot_marked (ot_merge_in t t') = ot_marked t ∪ ot_marked t';
  ot_merge_rollback t t' :
    ot_map t ##ₘ ot_map t' -> ot_rollback (ot_merge_in t t') = ot_rollback t ∪ ot_rollback t';
  ot_do_rollback_map t : ot_map (ot_do_rollback t) = filter (fun p => p.1 ∉ ot_rollback t) (ot_map t);
  ot_do_rollback_marked t : ot_marked (ot_do_rollback t) = ot_marked t ∖ ot_rollback t;
  ot_do_rollback_rollback t : ot_rollback (ot_do_rollback t) = ∅;
  ot_clear_rollback_map t : ot_map (ot_clear_rollback t) = ot_map t;
  ot_clear_rollback_marked t : ot_marked (ot_clear_rollback t) = ot_marked t;
  ot_clear_rollback_rollback t : ot_rollback (ot_clear_rollback t) = ∅;
  ot_clear_rollback_hash t : ot_hash (ot_clear_rollback t) = ot_hash t;
  ot_clean_map t k : ot_map (ot_clean_singlechild_nodes t k) = ot_map t;
  ot_clean_marked t k : ot_marked (ot_clean_singlechild_nodes t k) = ot_marked t;
  ot_clean_rollback t k : ot_rollback (ot_clean_singlechild_nodes t k) = ot_rollback t;
  ot_entries_map t : ot_entries t ≡ₚ map_to_list (ot_map t);
  ot_entries_sorted t : StronglySorted key_le (ot_entries t);
  ot_size_entries t : ot_size t = Z.of_nat (length (ot_entries t));
  ot_endow_entries t : ot_endow t = offers_endow (ot_entries t);
  ot_endow_lt_entries t k :
    ot_endow_lt_key t k = offers_endow (filter (fun p => memcmp p.1 k = Lt) (ot_entries t));
  ot_lowest_entries t : ot_lowest_key t = fst <$> head (ot_entries t);
  (** [endow_split] removes the longest prefix whose amounts add up to at most
      the argument *)
  ot_split_entries t x : Forall (fun p => 0 < amount p.2) (ot_entries t) -> 0 <= x ->
    let '(low, rest) := ot_endow_split t x in
    ot_entries t = ot_entries low ++ ot_entries rest /\
    offers_endow (ot_entries low) <= x /\
    match ot_entries rest with
    | [] => True
    | p :: _ => x < offers_endow (ot_entries low) + amount p.2
    end;
  ot_split_marked t x :
    ot_marked (ot_endow_split t x).2 = ot_marked t ∩ dom (ot_map (ot_endow_split t x).2);
  ot_split_rollback t x :
    ot_rollback (ot_endow_split t x).2 = ot_rollback t ∩ dom (ot_map (ot_endow_split t x).2);
  ot_split_low_marked t x :
    ot_marked (ot_endow_split t x).1 = ot_marked t ∩ dom (ot_map (ot_endow_split t x).1);
  ot_split_low_rollback t x :
    ot_rollback (ot_endow_split t x).1 = ot_rollback t ∩ dom (ot_map (ot_endow_split t x).1)
}.

(** ** The order of the keys *)
Lemma memcmp_eq a b : memcmp a b = Eq <-> a = b.
Proof.
  revert b. induction a as [|x a IH]; intros [|y b]; simpl; try done.
  destruct (Z.compare_spec x y) as [->|Hlt|Hgt].
  - rewrite IH. split; [by intros ->|by intros [= ->]].
  - split; [done|]. intros [= -> _]. lia.
  - split; [done|]. intros [= -> _]. lia.
Qed.

Lemma memcmp_opp a b : memcmp b a = CompOpp (memcmp a b).
Proof.
  revert b. induction a as [|x a IH]; intros [|y b]; simpl; try done.
  rewrite (Z.compare_antisym x y). destruct (x ?= y); simpl; [apply IH|done|done].
Qed.

Lemma memcmp_trans a b c : memcmp a b <> Gt -> memcmp b c <> Gt -> memcmp a c <> Gt.
Proof.
  revert b c. induction a as [|x a IH]; intros [|y b] [|z c]; simpl; try done.
  destruct (Z.compare_spec x y), (Z.compare_spec y z); try done; subst.
  - rewrite Z.compare_refl. apply IH.
  - destruct (Z.compare_spec y z); [lia|done|lia].
  - destruct (Z.compare_spec x z); [lia|done|lia].
  - destruct (Z.compare_spec x z); [lia|done|lia].
Qed.

#[export] Instance key_le_trans : Transitive key_le.
Proof. intros a b c. apply memcmp_trans. Qed.
#[export] Instance key_le_total : Total key_le.
Proof.
  intros a b. unfold key_le. destruct (memcmp a.1 b.1) eqn:E; [by left|by left|right].
  by rewrite memcmp_opp, E.
Qed.
Lemma key_le_antisym a b : key_le a b -> key_le b a -> a.1 = b.1.
Proof.
  unfold key_le. intros H1 H2. rewrite memcmp_opp in H2. apply memcmp_eq.
  by destruct (memcmp a.1 b.1).
Qed.

(** ** A trie that is its map and its marks *)
Module MapTrie.
Record t := mk { offers : gmap key Offer; marks : gset key; rollbacks : gset key }.

Definition entries (m : gmap key Offer) : list (key * Offer) := merge_sort key_le (map_to_list m).
Definition marked (tr : t) : gset key := marks tr ∩ dom (offers tr).
Definition rolled (tr : t) : gset key := rollbacks tr ∩ dom (offers tr).

(** The number of entries whose amounts fit. *)
Fixpoint fit (l : list (key * Offer)) (x : Z) : nat :=
  match l with
  | [] => 0
  | p :: l => if amount p.2 <=? x then S (fit l (x - amount p.2)) else 0
  end.

Definition of_list (l : list (key * Offer)) (tr : t) : t := mk (list_to_map l) (marks tr) (rollbacks tr).

Lemma entries_nodup m : NoDup (entries m).*1.
Proof. unfold entries. rewrite merge_sort_Permutation. apply NoDup_fst_map_to_list. Qed.

(** A sorted list without repeated keys is the entry list of its map. *)
Lemma entries_of_sorted l : StronglySorted key_le l -> NoDup l.*1 -> entries (list_to_map l) = l.
Proof.
  intros Hs Hn. apply (StronglySorted_unique_strong key_le).
  - intros [k1 o1] [k2 o2] H1 H2 L1 L2. pose proof (key_le_antisym _ _ L1 L2) as E. simpl in E. subst k2.
    unfold entries in H1. rewrite merge_sort_Permutation in H1.
    apply elem_of_map_to_list in H1. apply elem_of_list_to_map in H2; [|done].
    by assert (o1 = o2) as -> by congruence.
  - apply StronglySorted_merge_sort; apply _.
  - done.
  - unfold entries. rewrite merge_sort_Permutation. by apply map_to_list_to_map.
Qed.

Lemma StronglySorted_take_drop (l : list (key * Offer)) n :
  StronglySorted key_le l -> StronglySorted key_le (take n l) /\ StronglySorted key_le (drop n l).
Proof.
  intros Hs. rewrite <- (take_drop n l) in Hs. split.
  - eapply StronglySorted_app_1_l; exact Hs.
  - eapply StronglySorted_app_1_r; exact Hs.
Qed.

Lemma fit_spec l x :
  Forall (fun p => 0 < amount p.2) l -> 0 <= x ->
  offers_endow (take (fit l x) l) <= x /\
  match drop (fit l x) l with [] => True | p :: _ => x < offers_endow (take (fit l x) l) + amount p.2 end.
Proof.
  intros Hl. revert x. induction Hl as [|p l Hp Hl IH]; intros x Hx; [done|]. cbn [fit].
  destruct (Z.leb_spec (amount p.2) x).
  - destruct (IH (x - amount p.2) ltac:(lia)) as [I1 I2]. unfold offers_endow in *. simpl.
    rewrite sum_by_cons. split; [lia|]. destruct (drop _ l); [done|]. lia.
  - simpl. unfold offers_endow. rewrite sum_by_nil. split; lia.
Qed.

(** [X] without the stale entry for [k] that a set kept beside the map may hold. *)
Definition unstale (X Xd : gset key) (k : key) : gset key := X ∖ {[k]} ∪ (Xd ∩ {[k]}).

Lemma insert_fresh_set (m : gmap key Offer) (X : gset key) k o :
  m !! k = None ->
  unstale X (X ∩ dom m) k ∩ dom (<[k := o]> m) = X ∩ dom m.
Proof. intros Hk%not_elem_of_dom. unfold unstale. rewrite dom_insert_L. set_solver. Qed.

Lemma dom_filter_out (m : gmap key Offer) (X : gset key) : dom (filter (fun p => p.1 ∉ X) m) = dom m ∖ X.
Proof.
  apply set_eq. intros k. rewrite elem_of_difference, !elem_of_dom. split.
  - intros [o Ho]. apply map_lookup_filter_Some in Ho as [Ho Hk]. split; [by exists o|done].
  - intros [[o Ho] Hk]. exists o. by apply map_lookup_filter_Some.
Qed.

Lemma sublist_dom (tr : t) l : l ⊆ entries (offers tr) -> dom (list_to_map l : gmap key Offer) ⊆ dom (offers tr).
Proof.
  intros Hl k Hk. apply elem_of_dom in Hk as [o Ho]. apply elem_of_list_to_map_2, Hl in Ho.
  apply elem_of_dom. exists o. apply elem_of_map_to_list.
  unfold entries in Ho. by rewrite merge_sort_Permutation in Ho.
Qed.
Lemma drop_dom (tr : t) n : dom (list_to_map (drop n (entries (offers tr))) : gmap key Offer) ⊆ dom (offers tr).
Proof. apply sublist_dom. intros p Hp. rewrite <- (take_drop n (entries (offers tr))). apply elem_of_app. by right. Qed.
Lemma take_dom (tr : t) n : dom (list_to_map (take n (entries (offers tr))) : gmap key Offer) ⊆ dom (offers tr).
Proof. apply sublist_dom. intros p Hp. rewrite <- (take_drop n (entries (offers tr))). apply elem_of_app. by left. Qed.

#[global] Program Instance trie : OfferTrie t := {
  ot_map := offers;
  ot_marked := marked;
  ot_rollback := rolled;
  ot_empty := mk ∅ ∅ ∅;
  ot_insert tr k o :=
    mk (<[k := o]> (offers tr)) (unstale (marks tr) (marked tr) k) (unstale (rollbacks tr) (rolled tr) k);
  ot_rollback_insert tr k o :=
    mk (<[k := o]> (offers tr)) (unstale (marks tr) (marked tr) k) ({[k]} ∪ rollbacks tr);
  ot_perform_deletion tr k := (mk (delete k (offers tr)) (marks tr) (rollbacks tr), offers tr !! k);
  ot_mark_for_deletion tr k :=
    (mk (offers tr) ({[k]} ∪ marks tr) (rollbacks tr),
     if decide (k ∈ marked tr) then None else offers tr !! k);
  ot_unmark_for_deletion tr k := (mk (offers tr) (marks tr ∖ {[k]}) (rollbacks tr), offers tr !! k);
  ot_perform_marked_deletions tr :=
    (mk (filter (fun p => p.1 ∉ marked tr) (offers tr)) ∅ (rollbacks tr ∖ marked tr),
     map_to_list (filter (fun p => p.1 ∈ marked tr) (offers tr)));
  ot_merge_in tr tr' :=
    mk (offers tr ∪ offers tr') (marked tr ∪ marked tr') (rolled tr ∪ rolled tr');
  ot_endow_split tr x :=
    let l := entries (offers tr) in
    (of_list (take (fit l x) l) tr, of_list (drop (fit l x) l) tr);
  ot_do_rollback tr := mk (filter (fun p => p.1 ∉ rolled tr) (offers tr)) (marks tr) ∅;
  ot_clear_rollback tr := mk (offers tr) (marks tr) ∅;
  ot_clean_singlechild_nodes tr k := tr;
  ot_entries tr := entries (offers tr);
  ot_size tr := Z.of_nat (length (entries (offers tr)));
  ot_endow tr := offers_endow (entries (offers tr));
  ot_endow_lt_key tr k := offers_endow (filter (fun p => memcmp p.1 k = Lt) (entries (offers tr)));
  ot_lowest_key tr := fst <$> head (entries (offers tr));
  ot_hash tr := (fun p => amount p.2) <$> entries (offers tr)
}.
Next Obligation. intros tr. unfold marked. set_solver. Qed.
Next Obligation. intros tr. unfold rolled. set_solver. Qed.
Next Obligation. done. Qed.
Next Obligation. done. Qed.
Next Obligation. intros tr k o Hk. apply insert_fresh_set, Hk. Qed.
Next Obligation. intros tr k o Hk. apply insert_fresh_set, Hk. Qed.
Next Obligation. done. Qed.
Next Obligation. intros tr k o Hk. apply insert_fresh_set, Hk. Qed.
Next Obligation. intros tr k o. unfold rolled. simpl. rewrite dom_insert_L. set_solver. Qed.
Next Obligation. done. Qed.
Next Obligation. intros tr k. unfold marked. simpl. rewrite dom_delete_L. set_solver. Qed.
Next Obligation. intros tr k. unfold rolled. simpl. rewrite dom_delete_L. set_solver. Qed.
Next Obligation. done. Qed.
Next Obligation. done. Qed.
Next Obligation. done. Qed.
Next Obligation. done. Qed.
Next Obligation.
  intros tr k. unfold marked. simpl. destruct (offers tr !! k) eqn:E.
  - apply elem_of_dom_2 in E. set_solver.
  - apply not_elem_of_dom in E. set_solver.
Qed.
Next Obligation. done. Qed.
Next Obligation. intros tr k. unfold marked. simpl. set_solver. Qed.
Next Obligation. done. Qed.
Next Obligation. done. Qed.
Next Obligation. intros tr. unfold marked. simpl. set_solver. Qed.
Next Obligation. intros tr. unfold rolled. simpl. rewrite dom_filter_out. set_solver. Qed.
Next Obligation. done. Qed.
Next Obligation. done. Qed.
Next Obligation. intros tr tr' _. unfold marked. simpl. rewrite dom_union_L. set_solver. Qed.
Next Obligation. intros tr tr' _. unfold rolled. simpl. rewrite dom_union_L. set_solver. Qed.
Next Obligation. done. Qed.
Next Obligation. intros tr. unfold marked. simpl. rewrite dom_filter_out. unfold rolled. set_solver. Qed.
Next Obligation. intros tr. unfold rolled. simpl. set_solver. Qed.
Next Obligation. done. Qed.
Next Obligation. done. Qed.
Next Obligation. intros tr. unfold rolled. simpl. set_solver. Qed.
Next Obligation. done. Qed.
Next Obligation. done. Qed.
Next Obligation. done. Qed.
Next Obligation. done. Qed.
Next Obligation. intros tr. apply merge_sort_Permutation. Qed.
Next Obligation. intros tr. apply StronglySorted_merge_sort; apply _. Qed.
Next Obligation. done. Qed.
Next Obligation. done. Qed.
Next Obligation. done. Qed.
Next Obligation. done. Qed.
Next Obligation.
  intros tr x Hp Hx. simpl.
  set (l := entries (offers tr)) in *. set (n := fit l x).
  assert (Hs : StronglySorted key_le l) by (apply StronglySorted_merge_sort; apply _).
  destruct (StronglySorted_take_drop l n Hs) as [S1 S2].
  pose proof (entries_nodup (offers tr)) as Hn. fold l in Hn.
  rewrite <- (take_drop n l), fmap_app in Hn. apply NoDup_app in Hn as (N1 & _ & N2).
  rewrite !entries_of_sorted by done. split; [by rewrite take_drop|]. by apply fit_spec.
Qed.
Next Obligation. intros tr x. unfold marked. simpl. pose proof (drop_dom tr (fit (entries (offers tr)) x)). set_solver. Qed.
Next Obligation. intros tr x. unfold rolled. simpl. pose proof (drop_dom tr (fit (entries (offers tr)) x)). set_solver. Qed.
Next Obligation. intros tr x. unfold marked. simpl. pose proof (take_dom tr (fit (entries (offers tr)) x)). set_solver. Qed.
Next Obligation. intros tr x. unfold rolled. simpl. pose proof (take_dom tr (fit (entries (offers tr)) x)). set_solver. Qed.
End MapTrie.

(** ** Properties *)
Module OfferProps.
Import Category.

(** For up to [MAX_INT_ASSETS] assets, [category_to_idx] and
    [category_from_idx] are inverse bijections between the categories that
    [validate_category_] accepts and the orderbook indices below
    [get_num_orderbooks_by_asset_count]. *)
Lemma category_index_bijection (n : Z) (Hn : 2 <= n <= MAX_INT_ASSETS) :
  (forall id, nonneg id -> validate_category_ id n = true ->
    exists i, category_to_idx id n = Ok i /\ 0 <= i < get_num_orderbooks_by_asset_count n /\
      category_from_idx i n = id) /\
  (forall i, 0 <= i < get_num_orderbooks_by_asset_count n ->
    validate_category_ (category_from_idx i n) n = true /\
    category_to_idx (category_from_idx i n) n = Ok i).
Proof.
  rewrite count_orderbooks by (unfold MAX_INT_ASSETS in *; lia). split.
  - intros id Hid Hv. by apply valid_category_idx.
  - intros i Hi. by apply category_of_idx.
Qed.

(** the byte keys of the orderbook tries are ordered (as [memcmp] orders
    them) by price first, then owner, then offer id, and a key is readable
    back as its price; so distinct offers have distinct keys. *)
Lemma orderbook_key_order `{BigEndian} (p o i p' o' i' : Z)
    (Hp : 0 <= p <= Price.MAX_PRICE) (Ho : in_u64 o) (Hi : in_u64 i)
    (Hp' : 0 <= p' <= Price.MAX_PRICE) (Ho' : in_u64 o') (Hi' : in_u64 i') :
  memcmp (Key.generate_orderbook_trie_key p o i) (Key.generate_orderbook_trie_key p' o' i') =
    match p ?= p' with
    | Eq => match o ?= o' with Eq => i ?= i' | c => c end
    | c => c
    end /\
  Price.read_price_big_endian (Key.generate_orderbook_trie_key p o i) = p.
Proof.
  split; [|by apply Price.read_write_price].
  rewrite Key.memcmp_value by (rewrite ?Key.key_length; done || apply Key.key_bytes).
  rewrite !Key.key_value by done. unfold in_u64 in *.
  destruct (Z.compare_spec p p') as [->|Hlt|Hgt].
  - destruct (Z.compare_spec o o') as [->|Hlt|Hgt].
    + destruct (Z.compare_spec i i') as [->|Hlt|Hgt];
        [apply Z.compare_refl|apply Z.compare_lt_iff|apply Z.compare_gt_iff]; lia.
    + apply Z.compare_lt_iff; lia.
    + apply Z.compare_gt_iff; lia.
  - apply Z.compare_lt_iff; lia.
  - apply Z.compare_gt_iff; lia.
Qed.

End OfferProps.
