(* ===== verification/Clearing.v ===== *)
(** * Clearing trades and checking that a clearing conserves every asset
    (src/orderbook/offer_clearing_logic.h, offer_clearing_params.h, .cc,
    commitment_checker.h, .cc)

    The payouts of fully and partially executed offers, the clearing test of
    block production ([ClearingParams::check_clearing]) and the tests a
    validator runs on the commitments of a block header
    ([OrderbookStateCommitmentChecker]). *)
From stdpp Require Import base gmap list strings.
From S2P Require Import Prelude Types PriceArith Offers.

(** ** offer_clearing_logic.h

    The database argument only receives the credit; [transfer_available] is the
    method called on it, with the asset and the amount (an [int64_t]). *)
Definition clear_offer_full {R} (transfer_available : Z -> Z -> R)
    (offer : Offer) (sellPrice buyPrice : Price) (tax_rate : Z) : R :=
  let amount := FractionalAsset.from_integral (amount offer) in
  let buy_amount_fractional :=
    FractionalAsset.from_raw (Price.wide_multiply_val_by_a_over_b amount sellPrice buyPrice) in
  transfer_available (buyAsset (category offer))
    (i64 (FractionalAsset.tax_and_round buy_amount_fractional tax_rate)).

(** Returns the result of the credit, [out_sell_amount] and [out_buy_amount]. *)
Definition clear_offer_partial {R} (transfer_available : Z -> Z -> R)
    (offer : Offer) (sellPrice buyPrice : Price) (tax_rate remaining_to_clear : Z) : R * Z * Z :=
  let buy_amount_fractional :=
    FractionalAsset.from_raw
      (Price.wide_multiply_val_by_a_over_b remaining_to_clear sellPrice buyPrice) in
  let out_buy_amount := i64 (FractionalAsset.tax_and_round buy_amount_fractional tax_rate) in
  let out_sell_amount := i64 (FractionalAsset.ceil remaining_to_clear) in
  (transfer_available (buyAsset (category offer)) out_buy_amount, out_sell_amount, out_buy_amount).

(** ** The clearing test *)

(** One iteration of the loop over the orderbooks: [supplies[sell] += ...;
    demands[buy] += ...]. *)
Definition clearing_step (num_assets : Z) (prices : list Price) (i supply_activated : Z)
    (acc : list Z * list Z) : result (list Z * list Z) :=
  let category := Category.category_from_idx i num_assets in
  let* sell_price := vec_at prices (sellAsset category) in
  let* buy_price := vec_at prices (buyAsset category) in
  let demanded := Price.wide_multiply_val_by_a_over_b supply_activated sell_price buy_price in
  Ok (alter (fun x => FractionalAsset.add x (FractionalAsset.from_integral (FractionalAsset.ceil supply_activated)))
        (Z.to_nat (sellAsset category)) acc.1,
      alter (fun x => FractionalAsset.add x (FractionalAsset.from_raw demanded))
        (Z.to_nat (buyAsset category)) acc.2).

Fixpoint clearing_loop (num_assets : Z) (prices : list Price) (i : Z) (supplies_activated : list Z)
    (acc : list Z * list Z) : result (list Z * list Z) :=
  match supplies_activated with
  | [] => Ok acc
  | s :: rest =>
      let* acc := clearing_step num_assets prices i s acc in
      clearing_loop num_assets prices (i + 1) rest acc
  end.

(** The second loop: [supplies[i] < taxed_demand] fails the test. *)
Definition asset_clears (tax_rate supply demand : Z) : bool :=
  negb (supply <? FractionalAsset.from_integral (FractionalAsset.tax_and_round demand tax_rate)).

Definition clearing_test (tax_rate : Z) (supplies_activated : list Z) (prices : list Price) : result bool :=
  let num_assets := length prices in
  let zero := replicate num_assets 0 in
  let* acc := clearing_loop (Z.of_nat num_assets) prices 0 supplies_activated (zero, zero) in
  Ok (forallb (fun p => asset_clears tax_rate p.1 p.2) (zip acc.1 acc.2)).

Record OrderbookClearingParams := mkOrderbookClearingParams { supply_activated : Z }.
Record ClearingParams := mkClearingParams {
  cp_tax_rate : Z;
  orderbook_params : list OrderbookClearingParams
}.

Definition ClearingParams_check_clearing (params : ClearingParams) (prices : list Price) : result bool :=
  clearing_test (cp_tax_rate params) (supply_activated <$> orderbook_params params) prices.

Definition get_null_clearing (tax_rate : Z) (num_orderbooks : nat) : ClearingParams :=
  mkClearingParams tax_rate (replicate num_orderbooks (mkOrderbookClearingParams 0)).

(** ** Commitments of a block header *)

(** The [activated_supply] of every orderbook, by index. *)
Abbreviation ValidationStatistics := (list Z) (only parsing).

Definition make_minimum_size (stats : ValidationStatistics) (sz : nat) : ValidationStatistics :=
  if (length stats <=? sz)%nat then stats ++ replicate (sz + 1 - length stats) 0 else stats.

(** [stats += other], with the growth loop. *)
Definition add_stats (stats other : ValidationStatistics) : ValidationStatistics :=
  let grown := stats ++ replicate (length other - length stats) 0 in
  imap (fun i x => match other !! i with Some y => FractionalAsset.add x y | None => x end) grown.

(** [activated_supplies[idx].activated_supply += x] *)
Definition activate (stats : ValidationStatistics) (idx : nat) (x : Z) : ValidationStatistics :=
  alter (fun s => FractionalAsset.add s x) idx stats.

Record SingleOrderbookStateCommitment := mkCommitment {
  rootHash : list Z;
  c_fractionalSupplyActivated : list Z;
  partialExecThresholdKey : key;
  thresholdKeyIsNull : Z;
  c_partialExecOfferActivationAmount : list Z
}.

Record OrderbookStateCommitmentChecker := mkChecker {
  commitments : list SingleOrderbookStateCommitment;
  prices : list Price;
  tax_rate : Z
}.

Section Checker.
Context `{BigEndian}.
Implicit Types c : SingleOrderbookStateCommitment.

Definition fractionalSupplyActivated c : Z :=
  FractionalAsset.from_raw (read_u128_big_endian (c_fractionalSupplyActivated c)).
Definition partialExecOfferActivationAmount c : Z :=
  FractionalAsset.from_raw (read_u128_big_endian (c_partialExecOfferActivationAmount c)).

Definition zero_key : key := replicate Key.ORDERBOOK_KEY_LEN 0.

Definition check_threshold_key c : bool :=
  match memcmp zero_key (partialExecThresholdKey c) with
  | Eq => thresholdKeyIsNull c =? 1
  | _ => thresholdKeyIsNull c =? 0
  end.

Definition check_clearing (checker : OrderbookStateCommitmentChecker) : result bool :=
  clearing_test (tax_rate checker) (fractionalSupplyActivated <$> commitments checker) (prices checker).

(** The loop of [check_stats] from orderbook [i] on. *)
Fixpoint check_stats_loop (stats : ValidationStatistics) (i : Z) (l : list SingleOrderbookStateCommitment)
    : result bool :=
  match l with
  | [] => Ok true
  | c :: l =>
      let* activated := vec_at stats i in
      if negb (FractionalAsset.add activated (partialExecOfferActivationAmount c) =? fractionalSupplyActivated c)
      then Ok false
      else if negb (check_threshold_key c) then Ok false
      else check_stats_loop stats (i + 1) l
  end.

(** Also returns the statistics, which it grows. *)
Definition check_stats (checker : OrderbookStateCommitmentChecker) (fully_cleared_stats : ValidationStatistics)
    : result (ValidationStatistics * bool) :=
  let stats := make_minimum_size fully_cleared_stats (length (commitments checker)) in
  let* ok := check_stats_loop stats 0 (commitments checker) in
  Ok (stats, ok).
End Checker.

(** * Lemmas *)

(** The sum over the orderbooks from index [i] on of a function of the
    orderbook's category and of its entry. *)
Fixpoint book_sum {A} (f : OfferCategory -> A -> Z) (n i : Z) (l : list A) : Z :=
  match l with
  | [] => 0
  | s :: l => f (Category.category_from_idx i n) s + book_sum f n (i + 1) l
  end.

(** An entry counted where the orderbook sells (buys) asset [a]. *)
Definition sells {A} (a : Z) (f : A -> Z) (c : OfferCategory) (s : A) : Z :=
  if sellAsset c =? a then f s else 0.
Definition buys {A} (a : Z) (f : OfferCategory -> A -> Z) (c : OfferCategory) (s : A) : Z :=
  if buyAsset c =? a then f c s else 0.

Lemma book_sum_le {A} (f g : OfferCategory -> A -> Z) n i (l : list A) :
  (forall c s, s ∈ l -> f c s <= g c s) -> book_sum f n i l <= book_sum g n i l.
Proof.
  revert i. induction l as [|s l IH]; intros i Hle; simpl; [lia|].
  pose proof (Hle (Category.category_from_idx i n) s ltac:(left)).
  specialize (IH (i + 1) ltac:(intros; apply Hle; by right)). lia.
Qed.

(** The same for every orderbook index the list covers. *)
Lemma book_sum_le_idx {A} (f g : OfferCategory -> A -> Z) n i (l : list A) :
  (forall k s, l !! k = Some s ->
    f (Category.category_from_idx (i + Z.of_nat k) n) s <= g (Category.category_from_idx (i + Z.of_nat k) n) s) ->
  book_sum f n i l <= book_sum g n i l.
Proof.
  revert i. induction l as [|s l IH]; intros i Hle; simpl; [lia|].
  pose proof (Hle 0%nat s eq_refl) as H0. rewrite Z.add_0_r in H0.
  enough (book_sum f n (i + 1) l <= book_sum g n (i + 1) l) by lia.
  apply IH. intros k t Hk. specialize (Hle (S k) t Hk).
  replace (i + Z.of_nat (S k)) with (i + 1 + Z.of_nat k) in Hle by lia. done.
Qed.

Lemma book_sum_nonneg {A} (f : OfferCategory -> A -> Z) n i (l : list A) :
  (forall c s, s ∈ l -> 0 <= f c s) -> 0 <= book_sum f n i l.
Proof.
  revert i. induction l as [|s l IH]; intros i Hle; simpl; [lia|].
  pose proof (Hle (Category.category_from_idx i n) s ltac:(left)).
  specialize (IH (i + 1) ltac:(intros; apply Hle; by right)). lia.
Qed.

Lemma book_sum_fmap {A B} (g : A -> B) (f : OfferCategory -> B -> Z) n i (l : list A) :
  book_sum f n i (g <$> l) = book_sum (fun c a => f c (g a)) n i l.
Proof. revert i. induction l as [|s l IH]; intros i; simpl; [done|]. by rewrite IH. Qed.

Lemma book_sum_scale {A} (f : OfferCategory -> A -> Z) k n i (l : list A) :
  book_sum (fun c s => k * f c s) n i l = k * book_sum f n i l.
Proof. revert i. induction l as [|s l IH]; intros i; simpl; [lia|]. rewrite IH. lia. Qed.

(** ** The loop of the clearing test *)
Definition price_at (prices : list Price) (k : Z) : Price := default 0 (prices !! Z.to_nat k).

Definition supply_part (s : Z) : Z := FractionalAsset.from_integral (FractionalAsset.ceil s).
Definition demand_raw (prices : list Price) (c : OfferCategory) (s : Z) : Z :=
  Price.wide_multiply_val_by_a_over_b s (price_at prices (sellAsset c)) (price_at prices (buyAsset c)).
Definition demand_part (prices : list Price) (c : OfferCategory) (s : Z) : Z :=
  FractionalAsset.from_raw (demand_raw prices c s).

Lemma category_from_idx_bounds n i :
  2 <= n <= Category.MAX_INT_ASSETS -> 0 <= i < n * (n - 1) ->
  0 <= sellAsset (Category.category_from_idx i n) < n /\ 0 <= buyAsset (Category.category_from_idx i n) < n /\
  sellAsset (Category.category_from_idx i n) <> buyAsset (Category.category_from_idx i n).
Proof.
  intros Hn Hi.
  assert (Hr : 0 <= i mod (n - 1) < n - 1) by (apply Z.mod_pos_bound; lia).
  assert (Hs : 0 <= i / (n - 1) < n).
  { split; [apply Z.div_pos; lia|apply Z.div_lt_upper_bound; nia]. }
  pose proof (Category.category_from_idx_spec n (i / (n - 1)) (i mod (n - 1)) Hn Hs Hr) as E.
  replace (i / (n - 1) * (n - 1) + i mod (n - 1)) with i in E by (pose proof (Z.div_mod i (n - 1)); lia).
  rewrite E. simpl. destruct (Z.leb_spec (i / (n - 1)) (i mod (n - 1))); lia.
Qed.

Lemma vec_at_price prices k : 0 <= k < Z.of_nat (length prices) -> vec_at prices k = Ok (price_at prices k).
Proof.
  intros Hk. unfold vec_at, price_at.
  destruct (lookup_lt_is_Some_2 prices (Z.to_nat k) ltac:(lia)) as [x ->]. simpl.
  by destruct (Z.leb_spec 0 k); [|lia].
Qed.

(** [alter] at asset [k], read at asset [a]. *)
Lemma alter_add_lookup (l : list Z) k a x y :
  0 <= k -> 0 <= a -> l !! Z.to_nat a = Some y -> in_u128 y ->
  alter (fun v => FractionalAsset.add v x) (Z.to_nat k) l !! Z.to_nat a =
    Some ((y + (if k =? a then x else 0)) mod 2 ^ 128).
Proof.
  intros Hk Ha Hy Hr. destruct (Z.eqb_spec k a) as [->|Hne].
  - by rewrite list_lookup_alter_eq, Hy, <- FractionalAsset.add_mod.
  - rewrite list_lookup_alter_ne by lia. rewrite Hy, Z.add_0_r, Z.mod_small by done. done.
Qed.

Lemma clearing_loop_spec n prices i l acc :
  n = Z.of_nat (length prices) -> 2 <= n <= Category.MAX_INT_ASSETS ->
  0 <= i -> i + Z.of_nat (length l) <= n * (n - 1) ->
  length acc.1 = length prices -> length acc.2 = length prices ->
  Forall in_u128 acc.1 -> Forall in_u128 acc.2 ->
  exists acc', clearing_loop n prices i l acc = Ok acc' /\
    length acc'.1 = length prices /\ length acc'.2 = length prices /\
    forall a x y, 0 <= a < n -> acc.1 !! Z.to_nat a = Some x -> acc.2 !! Z.to_nat a = Some y ->
      acc'.1 !! Z.to_nat a = Some ((x + book_sum (sells a supply_part) n i l) mod 2 ^ 128) /\
      acc'.2 !! Z.to_nat a = Some ((y + book_sum (buys a (demand_part prices)) n i l) mod 2 ^ 128).
Proof.
  intros En Hn. revert i acc. induction l as [|s l IH]; intros i acc Hi Hil L1 L2 F1 F2; simpl.
  { exists acc. split; [done|]. split; [done|]. split; [done|]. intros a x y Ha Hx Hy. rewrite !Z.add_0_r.
    rewrite !Z.mod_small; [done| |].
    - exact (Forall_lookup_1 _ _ _ _ F2 Hy).
    - exact (Forall_lookup_1 _ _ _ _ F1 Hx). }
  simpl length in Hil. rewrite Nat2Z.inj_succ in Hil.
  destruct (category_from_idx_bounds n i Hn ltac:(lia)) as (Bs & Bb & _).
  unfold clearing_step. rewrite !vec_at_price by lia. cbn [result_bind].
  set (c := Category.category_from_idx i n) in *.
  set (d := FractionalAsset.from_raw _). set (e := FractionalAsset.from_integral _).
  set (acc1 := (_, _)).
  assert (F : forall (l0 : list Z) k v, Forall in_u128 l0 ->
    Forall in_u128 (alter (fun x => FractionalAsset.add x v) k l0)).
  { intros l0 k v Hl0. apply Forall_alter; [done|]. intros x _ _. rewrite FractionalAsset.add_mod.
    apply Z.mod_pos_bound. lia. }
  destruct (IH (i + 1) acc1) as (acc' & E & L1' & L2' & Hall).
  - lia.
  - lia.
  - unfold acc1. simpl. by rewrite length_alter.
  - unfold acc1. simpl. by rewrite length_alter.
  - by apply F.
  - by apply F.
  - exists acc'. split; [done|]. split; [done|]. split; [done|]. intros a x y Ha Hx Hy.
    pose proof (Forall_lookup_1 _ _ _ _ F1 Hx) as Rx. pose proof (Forall_lookup_1 _ _ _ _ F2 Hy) as Ry.
    destruct (Hall a _ _ Ha (alter_add_lookup acc.1 (sellAsset c) a e x ltac:(lia) ltac:(lia) Hx Rx)
      (alter_add_lookup acc.2 (buyAsset c) a d y ltac:(lia) ltac:(lia) Hy Ry)) as [-> ->].
    rewrite !Z.add_mod_idemp_l by lia. unfold sells at 2, buys at 2.
    fold (supply_part s) in e. split; do 2 f_equal; unfold e, d, demand_part, demand_raw; lia.
Qed.

(** What a successful clearing test means: in every asset, the taxed demand is
    at most the integral supply. *)
Lemma clearing_test_sound t prices supplies a :
  2 <= Z.of_nat (length prices) <= Category.MAX_INT_ASSETS ->
  Z.of_nat (length supplies) <= Z.of_nat (length prices) * (Z.of_nat (length prices) - 1) ->
  clearing_test t supplies prices = Ok true ->
  0 <= a < Z.of_nat (length prices) ->
  FractionalAsset.from_integral
    (FractionalAsset.tax_and_round
      (book_sum (buys a (demand_part prices)) (Z.of_nat (length prices)) 0 supplies mod 2 ^ 128) t)
  <= book_sum (sells a supply_part) (Z.of_nat (length prices)) 0 supplies mod 2 ^ 128.
Proof.
  intros Hn Hl Ht Ha. unfold clearing_test in Ht.
  set (n := Z.of_nat (length prices)) in *.
  assert (Fz : Forall in_u128 (replicate (length prices) 0)).
  { apply Forall_replicate. unfold in_u128. lia. }
  destruct (clearing_loop_spec n prices 0 supplies
    (replicate (length prices) 0, replicate (length prices) 0)) as (acc & E & L1 & L2 & Hall);
    try done; try lia; try (simpl; by rewrite length_replicate).
  rewrite E in Ht. simpl in Ht. injection Ht as Ht.
  assert (Hz : replicate (length prices) 0 !! Z.to_nat a = Some 0) by (apply lookup_replicate_2; lia).
  destruct (Hall a 0 0 Ha Hz Hz) as [Ea Eb]. rewrite Z.add_0_l in Ea, Eb.
  apply Is_true_true in Ht. apply forallb_True in Ht. rewrite Forall_lookup in Ht.
  specialize (Ht (Z.to_nat a)). rewrite lookup_zip_with, Ea, Eb in Ht. simpl in Ht.
  specialize (Ht _ eq_refl). simpl in Ht. unfold asset_clears in Ht.
  apply Is_true_true, negb_true_iff, Z.ltb_ge in Ht. exact Ht.
Qed.

(** ** Payouts against supplies *)

(** What an orderbook of category [c] pays for a raw amount [s]. *)
Definition payout (prices : list Price) (t : Z) (c : OfferCategory) (s : Z) : Z :=
  FractionalAsset.tax_and_round (demand_part prices c s) t.

Definition prices_ok (prices : list Price) : Prop := Forall Price.valid prices.

Section Payouts.
Context (prices : list Price) (t : Z).
Context (Hp : prices_ok prices) (Ht : 0 <= t < 128).
Implicit Types c : OfferCategory.

Definition in_prices c : Prop :=
  0 <= sellAsset c < Z.of_nat (length prices) /\ 0 <= buyAsset c < Z.of_nat (length prices).

Lemma price_at_valid k : 0 <= k < Z.of_nat (length prices) -> 1 <= price_at prices k < 2 ^ 48.
Proof.
  intros Hk. unfold price_at.
  destruct (lookup_lt_is_Some_2 prices (Z.to_nat k) ltac:(lia)) as [x E]. rewrite E. simpl.
  pose proof (Forall_lookup_1 _ _ _ _ Hp E) as V. unfold Price.valid in V.
  rewrite Price.MAX_PRICE_val in V. lia.
Qed.

Lemma demand_part_bounds c s :
  in_prices c -> 0 <= s < 2 ^ 80 -> demand_part prices c s = demand_raw prices c s /\
    0 <= demand_raw prices c s <= s * (2 ^ 48 - 1).
Proof.
  intros [Hs Hb] Hr. pose proof (price_at_valid _ Hs). pose proof (price_at_valid _ Hb).
  assert (0 <= demand_raw prices c s <= s * (2 ^ 48 - 1)).
  { unfold demand_raw. rewrite Price.wide_multiply_exact by lia.
    split; [apply Z.div_pos; nia|]. apply Z.div_le_upper_bound; nia. }
  split; [|done]. unfold demand_part. apply FractionalAsset.from_raw_id. nia.
Qed.

Lemma demand_superadditive c v w :
  in_prices c -> 0 <= v -> 0 <= w -> v + w < 2 ^ 80 ->
  demand_part prices c v + demand_part prices c w <= demand_part prices c (v + w).
Proof.
  intros Hc Hv Hw Hvw. rewrite !(fun s H => proj1 (demand_part_bounds c s Hc H)) by lia.
  destruct Hc as [Hs Hb]. pose proof (price_at_valid _ Hs). pose proof (price_at_valid _ Hb).
  unfold demand_raw. apply Price.wide_multiply_superadditive; lia.
Qed.

Lemma payout_superadditive c v w :
  in_prices c -> 0 <= v -> 0 <= w -> v + w < 2 ^ 80 ->
  payout prices t c v + payout prices t c w <= payout prices t c (v + w).
Proof.
  intros Hc Hv Hw Hvw. unfold payout.
  destruct (demand_part_bounds c v Hc ltac:(lia)) as [Ev Bv].
  destruct (demand_part_bounds c w Hc ltac:(lia)) as [Ew Bw].
  destruct (demand_part_bounds c (v + w) Hc ltac:(lia)) as [Es Bs].
  pose proof (demand_superadditive c v w Hc Hv Hw Hvw).
  etransitivity; [apply FractionalAsset.tax_and_round_superadditive; lia|].
  apply FractionalAsset.tax_and_round_mono; lia.
Qed.

(** The payouts of parts add up to at most the payout of the whole. *)
Lemma payouts_le {A} c (f : A -> Z) (l : list A) p :
  in_prices c -> Forall (fun x => 0 <= f x) l -> 0 <= p -> sum_by f l + p < 2 ^ 80 ->
  sum_by (fun x => payout prices t c (f x)) l + payout prices t c p <= payout prices t c (sum_by f l + p).
Proof.
  intros Hc Hl Hp0. induction Hl as [|x l Hx Hl IH]; [rewrite !sum_by_nil, !Z.add_0_l; lia|].
  rewrite !sum_by_cons. intros Hs. pose proof (sum_by_nonneg f l Hl).
  pose proof (payout_superadditive c (f x) (sum_by f l + p) Hc Hx ltac:(lia) ltac:(lia)).
  specialize (IH ltac:(lia)). replace (f x + sum_by f l + p) with (f x + (sum_by f l + p)) by lia. lia.
Qed.

(** The same over the orderbooks that buy one asset. *)
Lemma book_payouts_le n i (a : Z) (l : list Z) :
  n = Z.of_nat (length prices) -> 2 <= n <= Category.MAX_INT_ASSETS ->
  0 <= i -> i + Z.of_nat (length l) <= n * (n - 1) ->
  Forall (fun s => 0 <= s) l -> sum_list_Z l < 2 ^ 80 ->
  0 <= book_sum (buys a (demand_part prices)) n i l <= sum_list_Z l * (2 ^ 48 - 1) /\
  book_sum (buys a (payout prices t)) n i l <=
    FractionalAsset.tax_and_round (book_sum (buys a (demand_part prices)) n i l) t.
Proof.
  intros En Hn. revert i. induction l as [|s l IH]; intros i Hi Hil Hl Hs; simpl.
  { split; [lia|]. unfold FractionalAsset.tax_and_round, FixedPrecision.tax_and_round.
    rewrite Z.shiftr_0_l, Z.land_0_l. simpl. unfold FixedPrecision.wrap. by rewrite Z.shiftr_0_l. }
  apply Forall_cons in Hl as [Hs0 Hl]. simpl in Hil, Hs. rewrite Nat2Z.inj_succ in Hil.
  assert (Hpos : 0 <= sum_list_Z l).
  { pose proof (sum_by_nonneg (fun x => x) l Hl) as Hnn. unfold sum_by in Hnn. by rewrite list_fmap_id in Hnn. }
  destruct (IH (i + 1) ltac:(lia) ltac:(lia) Hl ltac:(lia)) as [B I].
  destruct (category_from_idx_bounds n i Hn ltac:(lia)) as (Bs & Bb & _).
  set (c := Category.category_from_idx i n) in *.
  assert (Hc : in_prices c) by (unfold in_prices; lia).
  destruct (demand_part_bounds c s Hc ltac:(lia)) as [Ed Bd].
  change (buys a (demand_part prices) c s) with (if buyAsset c =? a then demand_part prices c s else 0).
  change (buys a (payout prices t) c s) with (if buyAsset c =? a then payout prices t c s else 0).
  destruct (buyAsset c =? a); [|split; [nia|by rewrite !Z.add_0_l]].
  split; [rewrite Ed; nia|]. unfold payout at 1.
  etransitivity; [apply Z.add_le_mono_l, I|].
  apply FractionalAsset.tax_and_round_superadditive; rewrite ?Ed; try lia.
Qed.
End Payouts.

(** ** Executions *)

(** What happens in one orderbook: offers that clear fully, and one offer that
    clears for a raw amount (zero when there is none). *)
Record execution := mkExecution {
  cleared : list Offer;
  partial_offer : Offer;
  partial_raw : Z
}.

(** The credit to holders of asset [a] made by a [transfer_available]. *)
Definition credit (a asset x : Z) : Z := if asset =? a then x else 0.

Section Executions.
Context (prices : list Price) (t : Z).
Implicit Types (c : OfferCategory) (e : execution).

Definition paid (a : Z) c e : Z :=
  let sp := price_at prices (sellAsset c) in
  let bp := price_at prices (buyAsset c) in
  sum_by (fun o => clear_offer_full (credit a) o sp bp t) (cleared e) +
  (clear_offer_partial (credit a) (partial_offer e) sp bp t (partial_raw e)).1.1.

(** The amounts taken out of the offers. *)
Definition sold c e : Z :=
  let sp := price_at prices (sellAsset c) in
  let bp := price_at prices (buyAsset c) in
  sum_by amount (cleared e) +
  (clear_offer_partial (credit 0) (partial_offer e) sp bp t (partial_raw e)).1.2.

(** The raw supply the execution activates. *)
Definition fully_cleared e : Z := sum_by (fun o => FractionalAsset.from_integral (amount o)) (cleared e).
Definition executed e : Z := fully_cleared e + partial_raw e.

Record execution_ok c e : Prop := {
  eo_cleared : Forall (fun o => category o = c /\ 0 < amount o < 2 ^ 63) (cleared e);
  eo_partial : category (partial_offer e) = c;
  eo_raw : 0 <= partial_raw e <= (2 ^ 63 - 1) * 2 ^ 10
}.

Lemma i64_le_self x : 0 <= x -> i64 x <= x.
Proof. intros Hx. unfold i64. pose proof (Z.mod_le (x + 2 ^ 63) (2 ^ 64)). lia. Qed.

Lemma fully_cleared_amounts c e : execution_ok c e -> fully_cleared e = 2 ^ 10 * sum_by amount (cleared e).
Proof.
  intros [Hc _ _]. unfold fully_cleared. rewrite <- sum_by_scale. apply sum_by_ext.
  eapply Forall_impl; [exact Hc|]. intros o [_ Ho]. cbv beta.
  rewrite FractionalAsset.from_integral_id by lia. lia.
Qed.

Lemma executed_nonneg c e : execution_ok c e -> 0 <= executed e.
Proof.
  intros He. pose proof (fully_cleared_amounts c e He) as E. destruct He as [Hc _ Hr].
  assert (0 <= sum_by amount (cleared e)).
  { apply sum_by_nonneg. eapply Forall_impl; [exact Hc|]. simpl. lia. }
  unfold executed. lia.
Qed.

Lemma sold_ceil c e : execution_ok c e -> executed e < 2 ^ 80 -> sold c e = FractionalAsset.ceil (executed e).
Proof.
  intros He Hs. pose proof (executed_nonneg c e He). rewrite FractionalAsset.ceil_spec by lia.
  pose proof (fully_cleared_amounts c e He) as E. destruct He as [Hc _ Hr].
  unfold sold, executed, clear_offer_partial in *. simpl fst. simpl snd. rewrite E.
  rewrite FractionalAsset.ceil_spec by lia.
  pose proof (ceil_div_spec (partial_raw e) (2 ^ 10) ltac:(lia)) as C1.
  pose proof (ceil_div_spec (2 ^ 10 * sum_by amount (cleared e) + partial_raw e) (2 ^ 10) ltac:(lia)) as C2.
  rewrite i64_id by (unfold in_i64; lia). lia.
Qed.

Context (Hp : prices_ok prices) (Ht : 0 <= t < 128).

Lemma paid_le a c e :
  in_prices prices c -> execution_ok c e -> executed e < 2 ^ 80 ->
  paid a c e <= buys a (fun c s => payout prices t c (executed s)) c e.
Proof.
  intros Hc He Hs. pose proof (fully_cleared_amounts c e He) as E. destruct He as [Ho Hpo Hr].
  unfold buys, paid, clear_offer_full, clear_offer_partial. simpl fst. rewrite Hpo. unfold credit at 2.
  assert (Hle : forall s, 0 <= s < 2 ^ 80 -> i64 (payout prices t c s) <= payout prices t c s).
  { intros s Hs'. apply i64_le_self. unfold payout.
    destruct (demand_part_bounds prices Hp c s Hc Hs') as [-> ?].
    apply FractionalAsset.tax_and_round_bounds; lia. }
  assert (Hnn : Forall (fun o => 0 <= FractionalAsset.from_integral (amount o)) (cleared e)).
  { eapply Forall_impl; [exact Ho|]. intros o [_ Hoa]. cbv beta. rewrite FractionalAsset.from_integral_id; lia. }
  pose proof (payouts_le prices t Hp Ht c (fun o => FractionalAsset.from_integral (amount o))
    (cleared e) (partial_raw e) Hc Hnn ltac:(lia) Hs) as Hsum.
  assert (Hnn2 : 0 <= fully_cleared e) by (apply sum_by_nonneg; exact Hnn).
  unfold executed in *.
  destruct (Z.eqb_spec (buyAsset c) a) as [Ea|Ea].
  - etransitivity; [|exact Hsum]. apply Z.add_le_mono; [|apply (Hle (partial_raw e)); lia].
    apply sum_by_le, Forall_forall. intros o Hin. rewrite Forall_forall in Ho. destruct (Ho o Hin) as [-> Hoa].
    unfold credit. rewrite (proj2 (Z.eqb_eq _ _) Ea). apply (Hle (FractionalAsset.from_integral (amount o))).
    rewrite FractionalAsset.from_integral_id; lia.
  - rewrite Z.add_0_r. transitivity (sum_by (fun _ : Offer => 0) (cleared e)).
    + apply sum_by_le, Forall_forall. intros o Hin. rewrite Forall_forall in Ho. destruct (Ho o Hin) as [-> _].
      unfold credit. by rewrite (proj2 (Z.eqb_neq _ _) Ea).
    + generalize (cleared e). clear. induction l as [|o l IH]; [by rewrite sum_by_nil|]. rewrite sum_by_cons. lia.
Qed.

(** What is sold of asset [a] in an orderbook. *)
Definition sold_of (a : Z) c e : Z := if sellAsset c =? a then sold c e else 0.

(** In a clearing that passes the test, no asset is paid out beyond what is
    taken out of the offers selling it. *)
Lemma clearing_conserves (execs : list execution) n a :
  n = Z.of_nat (length prices) -> 2 <= n <= Category.MAX_INT_ASSETS ->
  Z.of_nat (length execs) <= n * (n - 1) ->
  (forall k e, execs !! k = Some e -> execution_ok (Category.category_from_idx (Z.of_nat k) n) e) ->
  sum_by executed execs < 2 ^ 80 ->
  clearing_test t (executed <$> execs) prices = Ok true ->
  0 <= a < n ->
  book_sum (paid a) n 0 execs <= book_sum (sold_of a) n 0 execs.
Proof.
  intros En Hn Hl He Hs Hclear Ha.
  assert (Hnn : Forall (fun e => 0 <= executed e) execs).
  { apply Forall_lookup. intros k e Hk. eapply executed_nonneg, He, Hk. }
  assert (Hb : forall k e, execs !! k = Some e -> executed e < 2 ^ 80).
  { intros k e Hk. pose proof (sum_by_elem_le executed execs e Hnn (list_elem_of_lookup_2 _ _ _ Hk)). lia. }
  assert (Hc : forall k e, execs !! k = Some e -> in_prices prices (Category.category_from_idx (0 + Z.of_nat k) n)).
  { intros k e Hk. apply lookup_lt_Some in Hk.
    destruct (category_from_idx_bounds n (0 + Z.of_nat k) Hn ltac:(lia)) as (? & ? & _). unfold in_prices. lia. }
  destruct (book_payouts_le prices t Hp Ht n 0 a (executed <$> execs)) as [BD Hpay];
    try done; try lia; [by rewrite length_fmap|by apply Forall_fmap|].
  set (D := book_sum (buys a (demand_part prices)) n 0 (executed <$> execs)) in *.
  assert (HD : 0 <= D < 2 ^ 128) by (unfold sum_by in Hs; lia).
  assert (Hsell : book_sum (sells a supply_part) n 0 (executed <$> execs) <= 2 ^ 10 * book_sum (sold_of a) n 0 execs).
  { rewrite book_sum_fmap, <- book_sum_scale. apply book_sum_le_idx. intros k e Hk. unfold sells, sold_of.
    destruct (_ =? a); [|lia]. rewrite Z.add_0_l, (sold_ceil _ _ (He k e Hk) (Hb k e Hk)). unfold supply_part.
    pose proof (executed_nonneg _ _ (He k e Hk)) as H0. pose proof (Hb k e Hk).
    rewrite FractionalAsset.ceil_spec by lia.
    pose proof (ceil_div_spec (executed e) (2 ^ 10) ltac:(lia)). rewrite FractionalAsset.from_integral_id; lia. }
  assert (Hsell0 : 0 <= book_sum (sells a supply_part) n 0 (executed <$> execs)).
  { apply book_sum_nonneg. intros c s _. unfold sells, supply_part. destruct (_ =? a); [|done].
    apply Z.mod_pos_bound. done. }
  pose proof (clearing_test_sound t prices (executed <$> execs) a) as Hsound. rewrite <- En in Hsound.
  rewrite length_fmap in Hsound. specialize (Hsound Hn Hl Hclear Ha). fold D in Hsound.
  rewrite (Z.mod_small D) in Hsound by done.
  pose proof (FractionalAsset.tax_and_round_bounds D t HD Ht) as Htx.
  assert (D / 2 ^ 10 < 2 ^ 118) by (apply Z.div_lt_upper_bound; lia).
  rewrite FractionalAsset.from_integral_id in Hsound by lia.
  pose proof (Z.mod_le (book_sum (sells a supply_part) n 0 (executed <$> execs)) (2 ^ 128) Hsell0 ltac:(lia)).
  transitivity (book_sum (buys a (payout prices t)) n 0 (executed <$> execs)); [|lia].
  rewrite book_sum_fmap. apply book_sum_le_idx. intros k e Hk.
  apply (paid_le a _ e (Hc k e Hk)); [by apply (He k)|by eapply Hb].
Qed.
End Executions.

(** ** The statistics check *)
Lemma check_stats_loop_spec `{BigEndian} stats i l :
  check_stats_loop stats i l = Ok true -> 0 <= i ->
  forall k c, l !! k = Some c ->
    exists x, stats !! (Z.to_nat i + k)%nat = Some x /\
      FractionalAsset.add x (partialExecOfferActivationAmount c) = fractionalSupplyActivated c /\
      check_threshold_key c = true.
Proof.
  revert i. induction l as [|c0 l IH]; intros i Hok Hi k c Hk; [done|]. simpl in Hok.
  apply result_bind_Ok in Hok as (x & Hx & Hok).
  destruct (Z.eqb_spec (FractionalAsset.add x (partialExecOfferActivationAmount c0)) (fractionalSupplyActivated c0))
    as [E|]; [|done]. simpl in Hok. destruct (check_threshold_key c0) eqn:Et; [|done]. simpl in Hok.
  destruct k as [|k]; simpl in Hk.
  - injection Hk as <-. exists x. rewrite Nat.add_0_r. split; [|done].
    apply (vec_at_Ok (stats : list Z)) in Hx. apply Hx.
  - destruct (IH (i + 1) Hok ltac:(lia) k c Hk) as (y & Hy & Hrest). exists y.
    replace (Z.to_nat i + S k)%nat with (Z.to_nat (i + 1) + k)%nat by lia. done.
Qed.

Lemma make_minimum_size_lookup stats sz k x :
  (k < sz)%nat -> make_minimum_size stats sz !! k = Some x -> default 0 (stats !! k) = x.
Proof.
  intros Hk. unfold make_minimum_size. destruct (length stats <=? sz)%nat; [|by intros ->].
  destruct (stats !! k) as [y|] eqn:E; simpl.
  - rewrite lookup_app_l by (by eapply lookup_lt_Some). rewrite E. congruence.
  - apply lookup_ge_None in E. rewrite lookup_app_r by lia. intros Hx.
    apply lookup_replicate in Hx as [-> _]. done.
Qed.

Lemma make_minimum_size_default stats sz k :
  (k < sz)%nat -> make_minimum_size stats sz !! k = Some (default 0 (stats !! k)).
Proof.
  intros Hk.
  assert (Hlen : (sz <= length (make_minimum_size stats sz))%nat).
  { unfold make_minimum_size. destruct (Nat.leb_spec (length stats) sz); [|lia].
    rewrite length_app, length_replicate. lia. }
  destruct (lookup_lt_is_Some_2 (make_minimum_size stats sz) k ltac:(lia)) as [x Hx]. rewrite Hx.
  by rewrite (make_minimum_size_lookup _ _ _ _ Hk Hx).
Qed.

Lemma check_threshold_key_spec c :
  check_threshold_key c = true <->
  thresholdKeyIsNull c = (if decide (partialExecThresholdKey c = zero_key) then 1 else 0).
Proof.
  unfold check_threshold_key. destruct (memcmp _ _) eqn:E.
  - apply memcmp_eq in E. rewrite decide_True by done. by rewrite Z.eqb_eq.
  - rewrite decide_False; [by rewrite Z.eqb_eq|]. intros Ec. rewrite Ec in E.
    by rewrite (proj2 (memcmp_eq _ _) eq_refl) in E.
  - rewrite decide_False; [by rewrite Z.eqb_eq|]. intros Ec. rewrite Ec in E.
    by rewrite (proj2 (memcmp_eq _ _) eq_refl) in E.
Qed.

(** What one orderbook has to satisfy. *)
Definition accounted `{BigEndian} (activated : Z) c : Prop :=
  FractionalAsset.add activated (partialExecOfferActivationAmount c) = fractionalSupplyActivated c /\
  thresholdKeyIsNull c = (if decide (partialExecThresholdKey c = zero_key) then 1 else 0).

Lemma check_stats_loop_total `{BigEndian} (stats stats' : ValidationStatistics) l i :
  (forall k c, l !! k = Some c -> stats' !! (i + k)%nat = Some (default 0 (stats !! (i + k)%nat))) ->
  exists ok, check_stats_loop stats' (Z.of_nat i) l = Ok ok /\
    (ok = true <-> forall k c, l !! k = Some c -> accounted (default 0 (stats !! (i + k)%nat)) c).
Proof.
  revert i. induction l as [|c l IH]; intros i Hlook; simpl; [exists true; split; [done|by split]|].
  pose proof (Hlook 0%nat c eq_refl) as H0. rewrite Nat.add_0_r in H0.
  unfold vec_at. rewrite Nat2Z.id, H0.
  destruct (Z.leb_spec 0 (Z.of_nat i)); [|lia]. simpl.
  destruct (Z.eqb_spec (FractionalAsset.add (default 0 (stats !! i)) (partialExecOfferActivationAmount c))
    (fractionalSupplyActivated c)) as [E|E]; simpl;
    [destruct (check_threshold_key c) eqn:Et; simpl|].
  - destruct (IH (S i)) as (ok & Eok & Hok).
    { intros k c' Hk. replace (S i + k)%nat with (i + S k)%nat by lia. by apply (Hlook (S k) c'). }
    replace (Z.of_nat i + 1) with (Z.of_nat (S i)) by lia. exists ok. split; [done|]. rewrite Hok.
    split; intros Hall.
    + intros [|k] c' Hk; simpl in Hk.
      * injection Hk as <-. rewrite Nat.add_0_r. split; [done|by apply check_threshold_key_spec].
      * replace (i + S k)%nat with (S i + k)%nat by lia. by apply Hall.
    + intros k c' Hk. replace (S i + k)%nat with (i + S k)%nat by lia. by apply (Hall (S k)).
  - exists false. split; [done|]. split; [done|]. intros Hall.
    destruct (Hall 0%nat c eq_refl) as [_ Hk]. apply check_threshold_key_spec in Hk. congruence.
  - exists false. split; [done|]. split; [done|]. intros Hall.
    destruct (Hall 0%nat c eq_refl) as [Hk _]. rewrite Nat.add_0_r in Hk. done.
Qed.

(** ** Properties *)
Module ClearingProps.
(** C18: a block whose header passes [check_clearing] and whose executed trades
    pass [check_stats] pays out no asset beyond what its offers sold: summed
    over all orderbooks, the credits of [clear_offer_full] and
    [clear_offer_partial] in each asset are at most the amounts taken out of the
    offers selling that asset, whatever the rounding.  Two bounds are assumed that the
    validator does not check, next to prices from 1 to [2^48 - 1] and a tax exponent
    below 128: the partial activation of every orderbook is at most
    [2^63 - 1] units, and the whole executed volume is below [2^80] raw units
    ([2^70] units), which keeps the 128 bit products exact. *)
Theorem validated_block_conserves_assets `{BigEndian}
    (checker : OrderbookStateCommitmentChecker) (stats stats' : ValidationStatistics)
    (execs : list execution) (n a : Z)
    (En : n = Z.of_nat (length (prices checker))) (Hn : 2 <= n <= Category.MAX_INT_ASSETS)
    (Hp : prices_ok (prices checker)) (Ht : 0 <= tax_rate checker < 128)
    (Hlen : length execs = length (commitments checker))
    (Hbooks : Z.of_nat (length (commitments checker)) <= n * (n - 1))
    (Hexec : forall k e c, execs !! k = Some e -> commitments checker !! k = Some c ->
      execution_ok (Category.category_from_idx (Z.of_nat k) n) e /\
      default 0 (stats !! k) = fully_cleared e /\
      partialExecOfferActivationAmount c = partial_raw e)
    (Hvolume : sum_by executed execs < 2 ^ 80)
    (Hclearing : check_clearing checker = Ok true)
    (Hstats : check_stats checker stats = Ok (stats', true))
    (Ha : 0 <= a < n) :
  book_sum (paid (prices checker) (tax_rate checker) a) n 0 execs <=
  book_sum (sold_of (prices checker) (tax_rate checker) a) n 0 execs.
Proof.
  apply result_bind_Ok in Hstats as (ok & Hloop & [= _ ->]).
  assert (Hok : forall k e, execs !! k = Some e -> execution_ok (Category.category_from_idx (Z.of_nat k) n) e).
  { intros k e Hk. destruct (lookup_lt_is_Some_2 (commitments checker) k) as [c Hc].
    { rewrite <- Hlen. by eapply lookup_lt_Some. }
    by apply (Hexec k e c). }
  assert (Hnn : Forall (fun e => 0 <= executed e) execs).
  { apply Forall_lookup. intros k e Hk. eapply executed_nonneg, Hok, Hk. }
  assert (Esup : executed <$> execs = fractionalSupplyActivated <$> commitments checker).
  { apply list_eq_same_length with (n := length execs); [by rewrite length_fmap, Hlen|by rewrite length_fmap|].
    intros k x y _ Hx Hy. apply list_lookup_fmap_Some in Hx as (e & -> & He), Hy as (c & -> & Hc).
    destruct (Hexec k e c He Hc) as (Heo & Hst & Hpart).
    destruct (check_stats_loop_spec _ _ _ Hloop ltac:(lia) k c Hc) as (s & Hs & Hsum & _).
    apply make_minimum_size_lookup in Hs; [|by eapply lookup_lt_Some].
    change (Z.to_nat 0 + k)%nat with k in Hs. rewrite <- Hsum, <- Hs, Hst, Hpart. unfold executed.
    pose proof (sum_by_elem_le executed execs e Hnn (list_elem_of_lookup_2 _ _ _ He)) as Hle.
    unfold executed in Hle at 1.
    assert (0 <= fully_cleared e).
    { apply sum_by_nonneg. eapply Forall_impl; [exact (eo_cleared _ _ Heo)|]. intros o [_ Ho].
      rewrite FractionalAsset.from_integral_id; lia. }
    pose proof (eo_raw _ _ Heo). rewrite FractionalAsset.add_id; lia. }
  apply (clearing_conserves (prices checker) (tax_rate checker) Hp Ht); try done; [by rewrite Hlen|].
  rewrite Esup. exact Hclearing.
Qed.

(** Two assets at prices 2:1; one offer clears in full each way. *)
Definition example_offer (sell buy n : Z) : Offer := mkOffer (mkOfferCategory sell buy SELL) 256 7 n 1.
Definition example_commitment (n : Z) : SingleOrderbookStateCommitment :=
  mkCommitment [] (write_u128_big_endian (FractionalAsset.from_integral n)) zero_key 1 (write_u128_big_endian 0).
Definition example_checker : OrderbookStateCommitmentChecker :=
  mkChecker [example_commitment 100; example_commitment 200] [2 * Price.PRICE_ONE; Price.PRICE_ONE] 10.
Definition example_execs : list execution :=
  [mkExecution [example_offer 0 1 100] (example_offer 0 1 5) 0;
   mkExecution [example_offer 1 0 200] (example_offer 1 0 5) 0].
Definition example_stats : ValidationStatistics := [100 * 1024; 200 * 1024].

Lemma validated_block_conserves_assets_witness :
  check_clearing example_checker = Ok true /\
  book_sum (paid (prices example_checker) 10 1) 2 0 example_execs = 199 /\
  199 <= book_sum (sold_of (prices example_checker) 10 1) 2 0 example_execs.
Proof.
  assert (Hc : check_clearing example_checker = Ok true) by (vm_compute; reflexivity).
  split; [exact Hc|].
  assert (Hpaid : book_sum (paid (prices example_checker) 10 1) 2 0 example_execs = 199)
    by (vm_compute; reflexivity).
  split; [exact Hpaid|]. rewrite <- Hpaid.
  assert (Hexec : forall k e c, example_execs !! k = Some e -> commitments example_checker !! k = Some c ->
    execution_ok (Category.category_from_idx (Z.of_nat k) 2) e /\
    default 0 (example_stats !! k) = fully_cleared e /\
    partialExecOfferActivationAmount c = partial_raw e).
  { intros k e c He Hcm.
    destruct k as [|[|k]]; [| |discriminate He]; injection He as <-; injection Hcm as <-;
      (split; [|split; vm_compute; reflexivity]);
      (constructor; [repeat constructor|reflexivity|vm_compute; split; discriminate]). }
  apply (validated_block_conserves_assets example_checker example_stats
    (make_minimum_size example_stats 2) example_execs 2 1); [reflexivity| | | |reflexivity| |exact Hexec| |exact Hc| |].
  - unfold Category.MAX_INT_ASSETS. lia.
  - repeat constructor; vm_compute; discriminate.
  - vm_compute. split; [discriminate|reflexivity].
  - vm_compute. discriminate.
  - vm_compute. reflexivity.
  - vm_compute. reflexivity.
  - lia.
Defined.

(** C19: [check_stats] accepts exactly the statistics that account for every
    orderbook: each fully cleared amount plus the committed partial amount is
    the committed supply, and the null-key flag says whether the threshold key
    is zero. *)
Theorem check_stats_exact `{BigEndian} (checker : OrderbookStateCommitmentChecker) (stats : ValidationStatistics) :
  exists stats' ok, check_stats checker stats = Ok (stats', ok) /\
    (ok = true <-> forall k c, commitments checker !! k = Some c ->
      FractionalAsset.add (default 0 (stats !! k)) (partialExecOfferActivationAmount c)
        = fractionalSupplyActivated c /\
      thresholdKeyIsNull c = (if decide (partialExecThresholdKey c = zero_key) then 1 else 0)).
Proof.
  unfold check_stats.
  set (stats' := make_minimum_size stats (length (commitments checker))).
  assert (Hlook : forall k c, commitments checker !! k = Some c -> stats' !! k = Some (default 0 (stats !! k))).
  { intros k c Hc. apply lookup_lt_Some in Hc. apply make_minimum_size_default, Hc. }
  destruct (check_stats_loop_total stats stats' (commitments checker) 0) as (ok & Eok & Hok).
  { intros k c Hc. rewrite Nat.add_0_l. by apply (Hlook k c). }
  change (Z.of_nat 0) with 0 in Eok. rewrite Eok. exists stats', ok. split; [done|]. exact Hok.
Qed.
End ClearingProps.
