(* ===== verification/Demand.v ===== *)
(** * Supply and demand of one orderbook
    (src/orderbook/metadata.h, utils.h, and the price queries of
    src/orderbook/orderbook.h, orderbook.cc)

    After a commit an orderbook keeps an index of its offers by price, with
    the amounts accumulated; the price computation only uses the index: a
    binary search ([get_metadata]) and the volume formulas
    ([calculate_demands_and_supplies] and its variants). *)
From stdpp Require Import base gmap list strings sorting.
From S2P Require Import Prelude Types PriceArith Offers.

(** ** [EndowAccumulator]: 64 and 128 bit signed sums *)
Record EndowAccumulator := mkEndow { endow : Z; endow_times_price : Z }.

Definition zero_endow : EndowAccumulator := mkEndow 0 0.
Definition endow_of (price : Price) (amount : Z) : EndowAccumulator :=
  mkEndow (i64 amount) (i128 (amount * price)).
Definition endow_add (a b : EndowAccumulator) : EndowAccumulator :=
  mkEndow (i64 (endow a + endow b)) (i128 (endow_times_price a + endow_times_price b)).

(** The accumulated offers of a list of prices and amounts. *)
Definition endow_sum (l : list (Price * Z)) : EndowAccumulator :=
  foldr (fun p acc => endow_add (endow_of p.1 p.2) acc) zero_endow l.
Definition up_to (p : Price) (l : list (Price * Z)) : list (Price * Z) := filter (fun q => q.1 <= p) l.

(** The entries of [indexed_metadata]: a first entry without offers, then one
    entry per limit price, in increasing order, with the offers up to it. *)
Abbreviation Index := (list (Price * EndowAccumulator)) (only parsing).

Record index_of (idx : Index) (l : list (Price * Z)) : Prop := {
  ix_first e : idx !! 0%nat = Some e -> e.2 = zero_endow;
  ix_sorted i j e f : (1 <= i < j)%nat -> idx !! i = Some e -> idx !! j = Some f -> e.1 < f.1;
  ix_entry i e : (1 <= i)%nat -> idx !! i = Some e -> e.2 = endow_sum (up_to e.1 l);
  ix_cover p : p ∈ l -> exists i e, (1 <= i)%nat /\ idx !! i = Some e /\ e.1 = p.1
}.

(** [metadata_traversal] of the trie library. *)
Definition price_amounts (l : list (key * Offer)) : list (Price * Z) :=
  (fun p => (Price.read_price_big_endian p.1, amount p.2)) <$> l.

Class OfferTrieIndex (TR : Type) `{OfferTrie TR} := {
  ot_metadata_traversal : TR -> Index;
  ot_index_spec t : index_of (ot_metadata_traversal t) (price_amounts (ot_entries t))
}.

(** ** Binary search *)
Section Queries.
Implicit Types idx : Index.

(** The [int] variables of [get_metadata] are plain numbers here: they are the same up
    to [2^30] entries, a sum of two of them being below [2^31]. *)
Fixpoint get_metadata_loop (fuel : nat) idx (p : Price) (start end_ : Z) : result EndowAccumulator :=
  match fuel with
  | O => Throw "no fuel"
  | S fuel =>
      let mp := (end_ + start) / 2 in
      if end_ =? start then
        let* e := vec_at idx (end_ - 1) in Ok e.2
      else
        let* m := vec_at idx mp in
        if m.1 <=? p then get_metadata_loop fuel idx p (mp + 1) end_
        else get_metadata_loop fuel idx p start mp
  end.

Definition get_metadata idx (p : Price) : result EndowAccumulator :=
  let start := 1 in
  let end_ := Z.of_nat (length idx) - 1 in
  if end_ <=? 0 then Ok zero_endow
  else
    let* e := vec_at idx end_ in
    if e.1 <=? p then Ok e.2 else get_metadata_loop (length idx) idx p start end_.

(** The search of [max_feasible_smooth_mult]: the first price whose accumulated
    supply exceeds [amount], if any.  [start] and [end] are [size_t], their middle is
    stored in an [int]. *)
Fixpoint max_activated_loop (fuel : nat) idx (amount start end_ : Z) : result (option Price) :=
  match fuel with
  | O => Throw "no fuel"
  | S fuel =>
      let mp := i32 (u64 (end_ + start) / 2) in
      if end_ =? start then
        let* e := vec_at idx end_ in
        if amount <? endow e.2 then Ok (Some e.1)
        else if u64 (end_ + 1) =? Z.of_nat (length idx) then Ok None
        else let* f := vec_at idx (end_ + 1) in Ok (Some f.1)
      else
        let* m := vec_at idx mp in
        if endow m.2 <=? amount then max_activated_loop fuel idx amount (u64 (i32 (mp + 1))) end_
        else max_activated_loop fuel idx amount start (u64 mp)
  end.

Definition divide_prices (sell_price buy_price : Price) : Price :=
  let ratio := u128 (Z.shiftl sell_price 64) / buy_price in
  Z.land (Z.shiftr ratio (64 - Price.PRICE_RADIX)) UINT64_MAX.

(** [while (raw_difference <= (exact_exchange_rate >> out)) out++] *)
Fixpoint smooth_mult_loop (fuel : nat) (raw_difference exact_exchange_rate out : Z) : result Z :=
  match fuel with
  | O => Throw "no fuel"
  | S fuel =>
      if raw_difference <=? Z.shiftr exact_exchange_rate out
      then smooth_mult_loop fuel raw_difference exact_exchange_rate (u8 (out + 1))
      else Ok (if 0 <? out then out - 1 else 0)
  end.

Definition max_feasible_smooth_mult idx (category : OfferCategory) (amount : Z) (prices : list Price) : result Z :=
  let end_ := u64 (Z.of_nat (length idx) - 1) in
  let* sell_price := vec_at prices (sellAsset category) in
  let* buy_price := vec_at prices (buyAsset category) in
  let exact_exchange_rate := divide_prices sell_price buy_price in
  if end_ <=? 0 then Ok UINT8_MAX
  else
    let* e := vec_at idx end_ in
    if endow e.2 <? amount then Ok UINT8_MAX
    else
      let* q := max_activated_loop (length idx) idx amount 1 end_ in
      match q with
      | None => Ok UINT8_MAX
      | Some max_activated_price =>
          let raw_difference := u64 (exact_exchange_rate - max_activated_price) in
          if exact_exchange_rate <=? max_activated_price then Ok UINT8_MAX
          else smooth_mult_loop 65 raw_difference exact_exchange_rate 0
      end.

(** ** Execution prices *)
Definition get_execution_prices (sell_price buy_price : Price) (smooth_mult : Z) : Price * Price :=
  let ratio := u128 (Z.shiftl sell_price 64) / buy_price in
  let ratio := Z.shiftr ratio (64 - Price.PRICE_RADIX) in
  let upper_bound_price := Z.land ratio UINT64_MAX in
  let lower_bound_price :=
    if smooth_mult =? 0 then upper_bound_price
    else u64 (upper_bound_price - Z.shiftr upper_bound_price smooth_mult) in
  (lower_bound_price, upper_bound_price).

Definition get_supply_bounds idx (sell_price buy_price : Price) (smooth_mult : Z) : result (Z * Z) :=
  let '(lower_bound_price, upper_bound_price) := get_execution_prices sell_price buy_price smooth_mult in
  let* upper := get_metadata idx upper_bound_price in
  let* lower := get_metadata idx lower_bound_price in
  Ok (u64 (endow lower), u64 (endow upper)).

(** ** Volumes *)

(** [workspace[asset] += volume] *)
Definition add_volume (workspace : list Z) (asset volume : Z) : list Z :=
  alter (fun x => u128 (x + volume)) (Z.to_nat asset) workspace.

Definition wide_multiply_safe (endow_times_limit_price price : Z) : Z :=
  let upper := u128 (Z.shiftr endow_times_limit_price 64 * price) in
  let lower := u128 (Z.land endow_times_limit_price UINT64_MAX * price) in
  u128 (u128 (Z.shiftl upper (64 - Price.PRICE_RADIX)) + Z.shiftr lower Price.PRICE_RADIX).

Definition volume_times_price (sell_price buy_price : Price) (smooth_mult : Z)
    (metadata_partial metadata_full : EndowAccumulator) : result Z :=
  let full_exec_endow := u64 (endow metadata_full) in
  let partial_exec_endow := u64 (endow metadata_partial - full_exec_endow) in
  let full_exec_endow_times_price := u128 (endow_times_price metadata_full) in
  let partial_exec_endow_times_price := u128 (endow_times_price metadata_partial - full_exec_endow_times_price) in
  if endow_times_price metadata_partial <? endow_times_price metadata_full
  then Throw "This should absolutely never happen, and means indexed_metadata or binary search is broken (or maybe an overflow)"
  else
    let full_exec_trade_volume := u128 (full_exec_endow * sell_price) in
    if smooth_mult =? 0 then Ok full_exec_trade_volume
    else
      let part1 := u128 (sell_price * partial_exec_endow) in
      let part2 := wide_multiply_safe partial_exec_endow_times_price buy_price in
      if part1 <? part2 then Throw "arithmetic error"
      else Ok (u128 (full_exec_trade_volume + u128 (Z.shiftl (part1 - part2) smooth_mult))).

Definition calculate_demands_and_supplies_times_prices_from_metadata (category : OfferCategory)
    (prices : list Price) (demands supplies : list Z) (smooth_mult : Z)
    (metadata_partial metadata_full : EndowAccumulator) : result (list Z * list Z) :=
  let* sell_price := vec_at prices (sellAsset category) in
  let* buy_price := vec_at prices (buyAsset category) in
  let* total_trade_volume := volume_times_price sell_price buy_price smooth_mult metadata_partial metadata_full in
  Ok (add_volume demands (buyAsset category) total_trade_volume,
      add_volume supplies (sellAsset category) total_trade_volume).

(** The two metadata queries in front of both calculations. *)
Definition with_metadata {R} idx (category : OfferCategory) (prices : list Price) (smooth_mult : Z)
    (k : EndowAccumulator -> EndowAccumulator -> result R) : result R :=
  let* sell_price := vec_at prices (sellAsset category) in
  let* buy_price := vec_at prices (buyAsset category) in
  let '(full_exec_p, partial_exec_p) := get_execution_prices sell_price buy_price smooth_mult in
  let* metadata_partial := get_metadata idx partial_exec_p in
  let* metadata_full :=
    if smooth_mult =? 0 then Ok metadata_partial else get_metadata idx full_exec_p in
  k metadata_partial metadata_full.

Definition calculate_demands_and_supplies_times_prices idx (category : OfferCategory)
    (prices : list Price) (demands supplies : list Z) (smooth_mult : Z) : result (list Z * list Z) :=
  with_metadata idx category prices smooth_mult (fun metadata_partial metadata_full =>
    calculate_demands_and_supplies_times_prices_from_metadata category prices demands supplies smooth_mult
      metadata_partial metadata_full).

(** [partial_exec_endow << smooth_mult] is a 64 bit shift. *)
Definition partial_volumes (sell_price buy_price : Price) (smooth_mult partial_exec_endow partial_exec_endow_times_price : Z)
    : result (Z * Z) :=
  if smooth_mult =? 0 then Ok (0, 0)
  else
    let endow_over_epsilon := u64 (Z.shiftl partial_exec_endow smooth_mult) in
    let endow_times_price_over_epsilon := u128 (Z.shiftl partial_exec_endow_times_price smooth_mult) in
    let sell_wide_multiply_result :=
      Price.wide_multiply_val_by_a_over_b endow_times_price_over_epsilon buy_price sell_price in
    let scaled := u128 (Z.shiftl endow_over_epsilon Price.PRICE_RADIX) in
    if scaled <? sell_wide_multiply_result
    then Throw "this should not happen unless something has begun to overflow"
    else
      let buy_wide_multiply_result := Price.wide_multiply_val_by_a_over_b scaled sell_price buy_price in
      if buy_wide_multiply_result <? endow_times_price_over_epsilon
      then Throw "this should not happen unless something has begun to overflow"
      else Ok (scaled - sell_wide_multiply_result, buy_wide_multiply_result - endow_times_price_over_epsilon).

Definition calculate_demands_and_supplies_from_metadata (category : OfferCategory)
    (prices : list Price) (demands supplies : list Z) (smooth_mult : Z)
    (metadata_partial metadata_full : EndowAccumulator) : result (list Z * list Z) :=
  let* sell_price := vec_at prices (sellAsset category) in
  let* buy_price := vec_at prices (buyAsset category) in
  let full_exec_endow := u64 (endow metadata_full) in
  let partial_exec_endow := u64 (endow metadata_partial - full_exec_endow) in
  let full_exec_endow_times_price := u128 (endow_times_price metadata_full) in
  let partial_exec_endow_times_price := u128 (endow_times_price metadata_partial - full_exec_endow_times_price) in
  if endow_times_price metadata_partial <? endow_times_price metadata_full
  then Throw "This should absolutely never happen, and means indexed_metadata or binary search is broken (or maybe an overflow)"
  else
    let* partial := partial_volumes sell_price buy_price smooth_mult partial_exec_endow partial_exec_endow_times_price in
    let full := u128 (Z.shiftl full_exec_endow Price.PRICE_RADIX) in
    let full_sell_volume := u128 (partial.1 + full) in
    let full_buy_volume := u128 (partial.2 + Price.wide_multiply_val_by_a_over_b full sell_price buy_price) in
    Ok (add_volume demands (buyAsset category) full_buy_volume,
        add_volume supplies (sellAsset category) full_sell_volume).

(** The source repeats the body of the previous function. *)
Definition calculate_demands_and_supplies idx (category : OfferCategory)
    (prices : list Price) (demands supplies : list Z) (smooth_mult : Z) : result (list Z * list Z) :=
  with_metadata idx category prices smooth_mult (fun metadata_partial metadata_full =>
    calculate_demands_and_supplies_from_metadata category prices demands supplies smooth_mult
      metadata_partial metadata_full).
End Queries.

(** * Lemmas *)

(** ** Accumulated amounts *)
Lemma i128_add a b : i128 (i128 a + i128 b) = i128 (a + b).
Proof. unfold i128. Z.div_mod_to_equations. lia. Qed.
Definition amounts (l : list (Price * Z)) : Z := sum_by snd l.
Definition values (l : list (Price * Z)) : Z := sum_by (fun p => p.2 * p.1) l.

Lemma endow_sum_spec l : endow_sum l = mkEndow (i64 (amounts l)) (i128 (values l)).
Proof.
  induction l as [|[p x] l IH]; [done|]. cbn [endow_sum foldr]. fold (endow_sum l). rewrite IH.
  unfold endow_add, endow_of, amounts, values. cbn [endow endow_times_price fst snd].
  rewrite !sum_by_cons. cbn [fst snd]. rewrite i128_add. f_equal. i64_solve.
Qed.

Lemma up_to_amounts_le p p' l : Forall (fun q => 0 <= q.2) l -> p <= p' -> amounts (up_to p l) <= amounts (up_to p' l).
Proof.
  intros Hl Hp. unfold amounts, up_to. induction Hl as [|q l Hq Hl IH]; [done|].
  rewrite !filter_cons. repeat case_decide; rewrite ?sum_by_cons; lia.
Qed.

Lemma up_to_empty p l : (forall q, q ∈ l -> p < q.1) -> up_to p l = [].
Proof.
  intros Hl. unfold up_to. induction l as [|q l IH]; [done|]. rewrite filter_cons, decide_False.
  - apply IH. intros q' Hq'. apply Hl. by right.
  - specialize (Hl q ltac:(by left)). lia.
Qed.

Lemma up_to_ext p p' l : (forall q, q ∈ l -> q.1 <= p <-> q.1 <= p') -> up_to p l = up_to p' l.
Proof.
  intros Hl. unfold up_to. induction l as [|q l IH]; [done|].
  assert (E : filter (fun q => q.1 <= p) l = filter (fun q => q.1 <= p') l) by (apply IH; intros q' Hq'; apply Hl; by right).
  specialize (Hl q ltac:(by left)). rewrite !filter_cons. repeat case_decide; try lia; by rewrite E.
Qed.

(** ** The index *)
Section Index.
Context (idx : Index) (l : list (Price * Z)) (Hix : index_of idx l).

Lemma index_mono i j e f : (1 <= i <= j)%nat -> idx !! i = Some e -> idx !! j = Some f -> e.1 <= f.1.
Proof.
  intros [Hi Hij] He Hf. destruct (decide (i = j)) as [->|]; [by assert (e = f) as -> by congruence|].
  apply Z.lt_le_incl, (ix_sorted _ _ Hix i j); [lia|done|done].
Qed.

(** The entry before the first price above [p] holds the offers up to [p]. *)
Lemma index_up_to i e p :
  idx !! i = Some e -> ((1 <= i)%nat -> e.1 <= p) ->
  (forall j f, (i < j)%nat -> idx !! j = Some f -> p < f.1) ->
  e.2 = endow_sum (up_to p l).
Proof.
  intros He Hle Hgt. destruct i as [|i].
  - rewrite (ix_first _ _ Hix e He), up_to_empty; [done|]. intros q Hq. destruct (ix_cover _ _ Hix q Hq) as (j & f & Hj & Hf & E).
    rewrite <- E. by apply (Hgt j f ltac:(lia)).
  - rewrite (ix_entry _ _ Hix (S i) e ltac:(lia) He). f_equal. apply up_to_ext. intros q Hq. destruct (ix_cover _ _ Hix q Hq) as (j & f & Hj & Hf & <-).
    specialize (Hle ltac:(lia)). split; [lia|]. intros Hp.
    destruct (decide (j <= S i)%nat); [by apply (index_mono j (S i))|].
    specialize (Hgt j f ltac:(lia) Hf). lia.
Qed.

Lemma vec_at_lookup (i : Z) e : 0 <= i -> idx !! Z.to_nat i = Some e -> vec_at idx i = Ok e.
Proof. intros Hi He. by apply vec_at_Ok. Qed.

Lemma get_metadata_loop_spec fuel p start end_ :
  1 <= start <= end_ -> end_ < Z.of_nat (length idx) -> end_ - start < Z.of_nat fuel ->
  (forall j f, (1 <= j)%nat -> Z.of_nat j < start -> idx !! j = Some f -> f.1 <= p) ->
  (forall j f, end_ <= Z.of_nat j -> idx !! j = Some f -> p < f.1) ->
  get_metadata_loop fuel idx p start end_ = Ok (endow_sum (up_to p l)).
Proof.
  revert start end_. induction fuel as [|fuel IH]; intros start end_ Hs He Hfuel Hlo Hhi; [lia|].
  cbn [get_metadata_loop]. destruct (Z.eqb_spec end_ start) as [->|Hne].
  - destruct (lookup_lt_is_Some_2 idx (Z.to_nat (start - 1))) as [e Ee]; [lia|].
    rewrite (vec_at_lookup _ e) by (done || lia). cbn [result_bind]. f_equal.
    apply (index_up_to (Z.to_nat (start - 1)) e); [done| |].
    + intros Hi. apply (Hlo _ _ Hi); [lia|done].
    + intros j f Hj. apply Hhi. lia.
  - set (mp := (end_ + start) / 2). assert (Hmp : start <= mp < end_) by (unfold mp; Z.div_mod_to_equations; lia).
    destruct (lookup_lt_is_Some_2 idx (Z.to_nat mp)) as [m Em]; [lia|].
    rewrite (vec_at_lookup _ m) by (done || lia). cbn [result_bind].
    destruct (Z.leb_spec m.1 p); apply IH; try lia; try done.
    + intros j f Hj Hjm Hf. enough (f.1 <= m.1) by lia.
      apply (index_mono j (Z.to_nat mp)); [lia|done|done].
    + intros j f Hj Hf. enough (m.1 <= f.1) by lia.
      apply (index_mono (Z.to_nat mp) j); [lia|done|done].
Qed.

Lemma get_metadata_spec p : get_metadata idx p = Ok (endow_sum (up_to p l)).
Proof.
  unfold get_metadata. destruct (Z.leb_spec (Z.of_nat (length idx) - 1) 0) as [Hle|Hgt].
  - rewrite up_to_empty; [done|]. intros q Hq.
    destruct (ix_cover _ _ Hix q Hq) as (j & f & Hj & Hf & _). apply lookup_lt_Some in Hf. lia.
  - destruct (lookup_lt_is_Some_2 idx (Z.to_nat (Z.of_nat (length idx) - 1))) as [e Ee]; [lia|].
    rewrite (vec_at_lookup _ e) by (done || lia). cbn [result_bind].
    destruct (Z.leb_spec e.1 p).
    + f_equal. apply (index_up_to _ _ _ Ee); [done|]. intros j f Hj Hf. apply lookup_lt_Some in Hf. lia.
    + apply get_metadata_loop_spec; try lia.
      intros j f Hj Hf. pose proof (lookup_lt_Some _ _ _ Hf).
      assert (Ej : j = Z.to_nat (Z.of_nat (length idx) - 1)) by lia.
      rewrite Ej, Ee in Hf. by injection Hf as <-.
Qed.
End Index.

(** ** Execution prices *)

(** The exchange rate of a pair, rounded down to [PRICE_RADIX] bits. *)
Definition rate (sell_price buy_price : Price) : Price := sell_price * 2 ^ 24 / buy_price.

Lemma rate_range sp bp : Price.valid sp -> Price.valid bp -> sp < bp * 2 ^ 40 -> in_u64 (rate sp bp).
Proof.
  unfold Price.valid. rewrite Price.MAX_PRICE_val. intros Hs Hb Hr. unfold rate. split; [apply Z.div_pos; lia|].
  apply Z.div_lt_upper_bound; lia.
Qed.

Lemma ratio_bits sp bp : Price.valid sp -> Price.valid bp ->
  Z.shiftr (u128 (Z.shiftl sp 64) / bp) (64 - Price.PRICE_RADIX) = rate sp bp.
Proof.
  unfold Price.valid. rewrite Price.MAX_PRICE_val. intros Hs Hb. change (64 - Price.PRICE_RADIX) with 40.
  rewrite shiftl_mul, shiftr_div, u128_id by (unfold in_u128; lia).
  rewrite Z.div_div, (Z.mul_comm bp), <- Z.div_div by lia. unfold rate. f_equal.
  replace (sp * 2 ^ 64) with (sp * 2 ^ 24 * 2 ^ 40) by lia. rewrite Z.div_mul by lia. reflexivity.
Qed.

Lemma divide_prices_spec sp bp :
  Price.valid sp -> Price.valid bp -> sp < bp * 2 ^ 40 -> divide_prices sp bp = rate sp bp.
Proof.
  intros Hs Hb Hr. unfold divide_prices. rewrite ratio_bits by done. unfold UINT64_MAX. 
  rewrite land_ones_mod by lia. by apply u64_id, rate_range.
Qed.

(** The prices below which offers execute fully and above which they do not
    execute. *)
Definition lower_bound (r : Price) (smooth_mult : Z) : Price :=
  if smooth_mult =? 0 then r else r - Z.shiftr r smooth_mult.

Lemma lower_bound_le r mu : 0 <= r -> 0 <= mu -> 0 <= lower_bound r mu <= r.
Proof.
  intros Hr Hm. unfold lower_bound. destruct (_ =? 0); [lia|]. rewrite shiftr_div by lia.
  assert (0 <= r / 2 ^ mu) by (apply Z.div_pos; lia). pose proof (Z.pow_pos_nonneg 2 mu).
  assert (r / 2 ^ mu <= r) by (apply Z.div_le_upper_bound; nia). lia.
Qed.

Lemma get_execution_prices_spec sp bp mu :
  Price.valid sp -> Price.valid bp -> sp < bp * 2 ^ 40 -> 0 <= mu ->
  get_execution_prices sp bp mu = (lower_bound (rate sp bp) mu, rate sp bp).
Proof.
  intros Hs Hb Hr Hm. unfold get_execution_prices. rewrite ratio_bits by done.
  pose proof (rate_range sp bp Hs Hb Hr) as Hrt. unfold UINT64_MAX.
  rewrite land_ones_mod by lia. change (rate sp bp mod 2 ^ 64) with (u64 (rate sp bp)). rewrite (u64_id (rate sp bp)) by done.
  pose proof (lower_bound_le (rate sp bp) mu ltac:(apply Hrt) Hm) as Hlb. unfold lower_bound in *.
  destruct (mu =? 0); [done|]. rewrite u64_id; [done|]. unfold in_u64 in *. lia.
Qed.

(** ** Volumes *)
Lemma between_prices lb ub l :
  lb <= ub -> Forall (fun q => 0 <= q.1 /\ 0 <= q.2) l ->
  amounts (up_to lb l) <= amounts (up_to ub l) <= amounts l /\
  0 <= values (up_to lb l) <= values (up_to ub l) /\ 0 <= amounts (up_to lb l) /\
  values (up_to ub l) - values (up_to lb l) <= ub * (amounts (up_to ub l) - amounts (up_to lb l)).
Proof.
  intros Hb. unfold amounts, values, up_to. induction 1 as [|q l [Hq1 Hq2] Hl IH]; [unfold sum_by; simpl; lia|].
  rewrite !filter_cons. repeat case_decide; rewrite ?sum_by_cons; nia.
Qed.

Lemma values_bound p l :
  Forall (fun q => 0 <= q.1 /\ 0 <= q.2) l -> values (up_to p l) <= Z.max p 0 * amounts l.
Proof.
  unfold amounts, values, up_to. induction 1 as [|q l [Hq1 Hq2] Hl IH]; [unfold sum_by; simpl; lia|].
  rewrite filter_cons. case_decide; rewrite ?sum_by_cons; nia.
Qed.

Lemma wide_multiply_safe_exact x p :
  0 <= x < 2 ^ 128 -> 0 <= p < 2 ^ 64 -> x * p / 2 ^ 24 < 2 ^ 128 -> wide_multiply_safe x p = x * p / 2 ^ 24.
Proof.
  intros Hx Hp Hb. unfold wide_multiply_safe, UINT64_MAX. change (64 - Price.PRICE_RADIX) with 40.
  change Price.PRICE_RADIX with 24. rewrite land_ones_mod, shiftl_mul, !shiftr_div by lia.
  pose proof (Z.div_mod x (2 ^ 64) ltac:(lia)) as E. pose proof (Z.mod_pos_bound x (2 ^ 64) ltac:(lia)).
  set (h := x / 2 ^ 64) in *. set (lo := x mod 2 ^ 64) in *.
  assert (Hh : 0 <= h < 2 ^ 64) by (unfold h; split; [apply Z.div_pos|apply Z.div_lt_upper_bound]; lia).
  assert (Es : x * p / 2 ^ 24 = h * p * 2 ^ 40 + lo * p / 2 ^ 24).
  { rewrite E. replace ((2 ^ 64 * h + lo) * p) with (lo * p + h * p * 2 ^ 40 * 2 ^ 24) by lia.
    rewrite Z.div_add by lia. lia. }
  rewrite Es in Hb |- *. assert (0 <= lo * p / 2 ^ 24) by (apply Z.div_pos; nia).
  assert (0 <= h * p) by nia. assert (h * p < 2 ^ 128) by nia. assert (0 <= lo * p < 2 ^ 128) by nia.
  rewrite (u128_id (h * p)), (u128_id (lo * p)), (u128_id (h * p * 2 ^ 40)), u128_id by (unfold in_u128; lia). done.
Qed.

(** What the index holds below a bound. *)
Definition book_ok (l : list (Price * Z)) : Prop :=
  Forall (fun q => Price.valid q.1 /\ 0 <= q.2) l /\ amounts l < 2 ^ 63.

Lemma book_ok_nonneg l : book_ok l -> Forall (fun q => 0 <= q.1 /\ 0 <= q.2) l.
Proof. intros [Hl _]. eapply Forall_impl; [exact Hl|]. unfold Price.valid. intros q. lia. Qed.

Lemma values_total p l : book_ok l -> values (up_to p l) < 2 ^ 112.
Proof.
  intros Hb. pose proof (book_ok_nonneg l Hb) as Hn. destruct Hb as [Hl Ht].
  destruct (between_prices p (Z.max p Price.MAX_PRICE) l ltac:(lia) Hn) as (_ & [_ Hv] & _ & _).
  assert (E : up_to (Z.max p Price.MAX_PRICE) l = up_to Price.MAX_PRICE l).
  { apply up_to_ext. intros q Hq. rewrite Forall_forall in Hl. destruct (Hl q Hq) as [[] _]. lia. }
  rewrite E in Hv. pose proof (values_bound Price.MAX_PRICE l Hn) as Hm. rewrite Price.MAX_PRICE_val in *. nia.
Qed.

Lemma endow_up_to p l :
  book_ok l -> endow_sum (up_to p l) = mkEndow (amounts (up_to p l)) (values (up_to p l)) /\
    0 <= amounts (up_to p l) < 2 ^ 63 /\ 0 <= values (up_to p l).
Proof.
  intros Hb. pose proof (book_ok_nonneg l Hb) as Hn. pose proof (values_total p l Hb).
  destruct (between_prices p p l ltac:(lia) Hn) as (Ha & Hv & Ha0 & _). destruct Hb as [Hl Ht].
  rewrite endow_sum_spec, i64_id, i128_id by (unfold in_i64; lia). split; [done|lia].
Qed.

(** The volume, in units of price times amount. *)
Definition trade_volume (sp bp : Price) (mu : Z) (l : list (Price * Z)) : Z :=
  let lb := lower_bound (rate sp bp) mu in
  let partial := amounts (up_to (rate sp bp) l) - amounts (up_to lb l) in
  let partial_values := values (up_to (rate sp bp) l) - values (up_to lb l) in
  sp * amounts (up_to lb l) +
  (if mu =? 0 then 0 else (sp * partial - partial_values * bp / 2 ^ 24) * 2 ^ mu).

Lemma volume_times_price_spec sp bp mu l :
  Price.valid sp -> Price.valid bp -> sp < bp * 2 ^ 40 -> 0 <= mu <= 15 -> book_ok l ->
  volume_times_price sp bp mu (endow_sum (up_to (rate sp bp) l)) (endow_sum (up_to (lower_bound (rate sp bp) mu) l))
  = Ok (trade_volume sp bp mu l) /\ 0 <= trade_volume sp bp mu l < 2 ^ 127.
Proof.
  intros Hs Hb Hr Hm Hl. pose proof (rate_range sp bp Hs Hb Hr) as Hrt.
  pose proof (lower_bound_le (rate sp bp) mu ltac:(apply Hrt) ltac:(lia)) as Hlb.
  unfold trade_volume. set (ub := rate sp bp) in *. set (lb := lower_bound ub mu) in *.
  destruct (endow_up_to ub l Hl) as (-> & A1 & V1), (endow_up_to lb l Hl) as (-> & A2 & V2).
  destruct (between_prices lb ub l ltac:(lia) (book_ok_nonneg l Hl)) as ([A3 _] & [_ V3] & _ & Hd).
  pose proof (values_total ub l Hl) as V4.
  set (aF := amounts (up_to lb l)) in *. set (aP := amounts (up_to ub l)) in *.
  set (vF := values (up_to lb l)) in *. set (vP := values (up_to ub l)) in *.
  assert (Hub : ub * bp <= sp * 2 ^ 24).
  { unfold ub, rate. rewrite Z.mul_comm. apply Z.mul_div_le. unfold Price.valid in Hb. lia. }
  unfold Price.valid in Hs, Hb. rewrite Price.MAX_PRICE_val in Hs, Hb.
  assert (Hpart : (vP - vF) * bp / 2 ^ 24 <= sp * (aP - aF)).
  { apply Z.div_le_upper_bound; [lia|]. transitivity (ub * (aP - aF) * bp); nia. }
  assert (Hpart0 : 0 <= (vP - vF) * bp / 2 ^ 24) by (apply Z.div_pos; nia).
  unfold volume_times_price. cbn [endow endow_times_price].
  rewrite (u64_id aF), (u64_id (aP - aF)), (u128_id vF), (u128_id (vP - vF)) by (unfold in_u64, in_u128; lia).
  destruct (Z.ltb_spec vP vF); [lia|].
  assert (Hf : 0 <= aF * sp < 2 ^ 111) by nia. assert (Hp1 : 0 <= sp * (aP - aF) < 2 ^ 111) by nia.
  rewrite (u128_id (aF * sp)), (u128_id (sp * (aP - aF))) by (unfold in_u128; lia).
  destruct (Z.eqb_spec mu 0) as [E|E]; [split; [f_equal|]; lia|].
  rewrite wide_multiply_safe_exact by lia.
  destruct (Z.ltb_spec (sp * (aP - aF)) ((vP - vF) * bp / 2 ^ 24)); [lia|].
  set (d := sp * (aP - aF) - (vP - vF) * bp / 2 ^ 24) in *.
  assert (Hpow : 1 <= 2 ^ mu <= 2 ^ 15) by (split; [apply (Z.pow_le_mono_r 2 0)|apply Z.pow_le_mono_r]; lia).
  assert (Hd2 : 0 <= d * 2 ^ mu < 2 ^ 126) by nia.
  rewrite shiftl_mul, (u128_id (d * 2 ^ mu)), u128_id by (unfold in_u128; lia). split; [f_equal|]; lia.
Qed.

(** ** The largest feasible smoothing *)
Section Feasible.
Context (idx : Index) (l : list (Price * Z)) (Hix : index_of idx l) (Hl : book_ok l).

Lemma entry_endow i e : (1 <= i)%nat -> idx !! i = Some e -> endow e.2 = amounts (up_to e.1 l).
Proof. intros Hi He. rewrite (ix_entry _ _ Hix i e Hi He). by destruct (endow_up_to e.1 l Hl) as [-> _]. Qed.

(** The offers strictly below the price of entry [i + 1]. *)
Lemma below_entry i e amount :
  (1 <= i)%nat -> idx !! i = Some e -> 0 <= amount ->
  (forall j f, (1 <= j < i)%nat -> idx !! j = Some f -> endow f.2 <= amount) ->
  amounts (up_to (e.1 - 1) l) <= amount.
Proof.
  intros Hi He Ha Hlo. destruct (lookup_lt_is_Some_2 idx (i - 1)) as [f Hf]; [apply lookup_lt_Some in He; lia|].
  assert (E : f.2 = endow_sum (up_to (e.1 - 1) l)).
  { apply (index_up_to idx l Hix (i - 1) f); [done| |].
    - intros Hi'. pose proof (ix_sorted _ _ Hix (i - 1) i f e ltac:(lia) Hf He). lia.
    - intros j g Hj Hg. pose proof (index_mono idx l Hix i j e g ltac:(lia) He Hg). lia. }
  destruct (endow_up_to (e.1 - 1) l Hl) as [E' [_ _]]. rewrite E' in E.
  destruct (decide (i = 1)%nat) as [->|].
  - rewrite (ix_first _ _ Hix f Hf) in E. injection E as <- _. done.
  - specialize (Hlo (i - 1)%nat f ltac:(lia) Hf). by rewrite E in Hlo.
Qed.

Definition activated (amount : Z) (q : option Price) : Prop :=
  match q with
  | Some p => amounts (up_to (p - 1) l) <= amount < amounts (up_to p l)
  | None => amounts l <= amount
  end.

Lemma up_to_all p : (forall q, q ∈ l -> q.1 <= p) -> up_to p l = l.
Proof.
  clear Hix Hl. intros Hp. unfold up_to. induction l as [|q l' IH]; [done|]. rewrite filter_cons, decide_True.
  - f_equal. apply IH. intros q' Hq'. apply Hp. by right.
  - apply Hp. by left.
Qed.

Lemma last_entry i e :
  (1 <= i)%nat -> (S i = length idx)%nat -> idx !! i = Some e -> endow e.2 = amounts l.
Proof.
  intros Hi Hlen He. rewrite (entry_endow i e Hi He), up_to_all; [done|]. intros q Hq.
  destruct (ix_cover _ _ Hix q Hq) as (j & f & Hj & Hf & <-).
  pose proof (lookup_lt_Some _ _ _ Hf). by apply (index_mono idx l Hix j i); [lia| |].
Qed.

(** The [int] holds the middle of an index of at most [2^31] entries. *)
Lemma middle_int start end_ :
  1 <= start <= end_ -> end_ < 2 ^ 31 -> i32 (u64 (end_ + start) / 2) = (end_ + start) / 2.
Proof.
  intros Hs He. rewrite u64_id by (unfold in_u64; lia). apply i32_id. Z.div_mod_to_equations; lia.
Qed.

Lemma max_activated_spec fuel amount start end_ :
  Z.of_nat (length idx) <= 2 ^ 31 -> 0 <= amount -> 1 <= start <= end_ -> end_ < Z.of_nat (length idx) -> end_ - start < Z.of_nat fuel ->
  (forall j f, (1 <= j)%nat -> Z.of_nat j < start -> idx !! j = Some f -> endow f.2 <= amount) ->
  (end_ + 1 = Z.of_nat (length idx) \/ exists f, idx !! Z.to_nat end_ = Some f /\ amount < endow f.2) ->
  exists q, max_activated_loop fuel idx amount start end_ = Ok q /\ activated amount q.
Proof.
  intros Hlen Ha. revert start end_. induction fuel as [|fuel IH]; intros start end_ Hs He Hfuel Hlo Hhi; [lia|].
  cbn [max_activated_loop]. rewrite middle_int by lia. destruct (Z.eqb_spec end_ start) as [->|Hne].
  - destruct (lookup_lt_is_Some_2 idx (Z.to_nat start)) as [e Ee]; [lia|].
    rewrite (proj2 (vec_at_Ok _ _ e)) by (split; [done|lia]). cbn [result_bind].
    destruct (Z.ltb_spec amount (endow e.2)) as [Hlt|Hge].
    + exists (Some e.1). split; [done|]. simpl. split.
      * apply (below_entry (Z.to_nat start) e); try done; [lia|]. intros j f Hj. apply Hlo; lia.
      * by rewrite <- (entry_endow (Z.to_nat start) e) by (done || lia).
    + destruct Hhi as [Hlast|(f & Hf & Hfa)]; [|assert (f = e) as -> by congruence; lia].
      rewrite u64_id by (unfold in_u64; lia). destruct (Z.eqb_spec (start + 1) (Z.of_nat (length idx))); [|lia].
      exists None. split; [done|]. simpl. by rewrite <- (last_entry (Z.to_nat start) e) by (done || lia).
  - set (mp := (end_ + start) / 2). assert (Hmp : start <= mp < end_) by (unfold mp; Z.div_mod_to_equations; lia).
    destruct (lookup_lt_is_Some_2 idx (Z.to_nat mp)) as [m Em]; [lia|].
    rewrite (proj2 (vec_at_Ok _ _ m)) by (split; [done|lia]). cbn [result_bind].
    rewrite (i32_id (mp + 1)), (u64_id (mp + 1)), (u64_id mp) by (unfold in_u64; lia).
    destruct (Z.leb_spec (endow m.2) amount); apply IH; try lia; try done.
    + intros j f Hj Hjm Hf. rewrite (entry_endow j f Hj Hf).
      rewrite (entry_endow (Z.to_nat mp) m ltac:(lia) Em) in *. etransitivity; [|eassumption].
      apply up_to_amounts_le; [eapply Forall_impl; [apply Hl|simpl; lia]|].
      apply (index_mono idx l Hix j (Z.to_nat mp)); [lia|done|done].
    + right. by exists m.
Qed.
End Feasible.

(** The loop over the shift stops at the first that makes the rate too small. *)
Lemma smooth_mult_loop_spec fuel d r out :
  0 < d -> in_u64 r -> 0 <= out <= 64 -> 65 - out <= Z.of_nat fuel ->
  (forall k, 0 <= k < out -> d <= Z.shiftr r k) ->
  exists k, smooth_mult_loop fuel d r out = Ok (if 0 <? k then k - 1 else 0) /\ 0 <= k <= 64 /\
    Z.shiftr r k < d /\ forall k', 0 <= k' < k -> d <= Z.shiftr r k'.
Proof.
  intros Hd Hr. revert out. induction fuel as [|fuel IH]; intros out Ho Hf Hlo; [lia|].
  cbn [smooth_mult_loop]. destruct (Z.leb_spec d (Z.shiftr r out)) as [Hle|Hlt].
  - assert (out <> 64).
    { intros ->. rewrite shiftr_div, Z.div_small in Hle by (unfold in_u64 in Hr; lia). lia. }
    unfold u8. rewrite Z.mod_small by lia. apply IH; [lia|lia|].
    intros k Hk. destruct (decide (k = out)) as [->|]; [done|]. apply Hlo. lia.
  - by exists out.
Qed.

(** ** An index built from the list of offers *)
Module BuiltIndex.
Definition prices_of (l : list (Price * Z)) : list Price := merge_sort Z.le (remove_dups (fst <$> l)).
Definition build (l : list (Price * Z)) : Index :=
  (0, zero_endow) :: ((fun p => (p, endow_sum (up_to p l))) <$> prices_of l).

Lemma sorted_lookup (l : list Z) i j x y :
  StronglySorted Z.le l -> NoDup l -> (i < j)%nat -> l !! i = Some x -> l !! j = Some y -> x < y.
Proof.
  intros Hs Hn Hij Hi Hj. assert (Hne : x <> y).
  { intros ->. pose proof (NoDup_lookup _ _ _ _ Hn Hi Hj). lia. }
  enough (x <= y) by lia. clear Hne Hn. revert i j Hij Hi Hj. induction Hs as [|z l Hs IH Hz]; intros i j Hij Hi Hj; [done|].
  destruct j as [|j]; [lia|]. destruct i as [|i]; simpl in *.
  - injection Hi as ->. rewrite Forall_forall in Hz. apply Hz. by eapply list_elem_of_lookup_2.
  - apply (IH i j); [lia|done|done].
Qed.

Lemma prices_of_spec l : StronglySorted Z.le (prices_of l) /\ NoDup (prices_of l) /\
  (forall p, p ∈ prices_of l <-> p ∈ l.*1).
Proof.
  unfold prices_of. split; [|split].
  - apply StronglySorted_merge_sort; apply _.
  - rewrite merge_sort_Permutation. apply NoDup_remove_dups.
  - intros p. by rewrite merge_sort_Permutation, elem_of_remove_dups.
Qed.

Lemma build_spec l : index_of (build l) l.
Proof.
  destruct (prices_of_spec l) as (Hs & Hn & He). constructor.
  - by intros e [= <-].
  - intros [|i] [|j] e f Hij Hi Hj; try lia. simpl in Hi, Hj.
    apply list_lookup_fmap_Some in Hi as (x & -> & Hx), Hj as (y & -> & Hy). simpl.
    apply (sorted_lookup _ i j x y Hs Hn); [lia|done|done].
  - intros [|i] e Hi He'; [lia|]. simpl in He'. by apply list_lookup_fmap_Some in He' as (x & -> & _).
  - intros p Hp. assert (Hin : p.1 ∈ prices_of l) by (apply He, list_elem_of_fmap; by exists p).
    apply list_elem_of_lookup_1 in Hin as [i Hi]. exists (S i), (p.1, endow_sum (up_to p.1 l)).
    split; [lia|]. split; [|done]. simpl. by rewrite list_lookup_fmap, Hi.
Qed.

#[global] Program Instance index : OfferTrieIndex MapTrie.t := {
  ot_metadata_traversal t := build (price_amounts (ot_entries t))
}.
Next Obligation. intros t. apply build_spec. Qed.
End BuiltIndex.

(** ** Properties *)
Module DemandProps.

(** C35: for an orderbook with at most [2^63] units on offer, at valid prices
    whose ratio fits 64 bits and a smoothing of at most 15,
    [calculate_demands_and_supplies_times_prices] never reports an arithmetic
    error and adds to the demand for the bought asset and the supply of the
    sold asset one and the same volume: the full amount of the offers below the
    lower execution price, and of those up to the exchange rate the share their
    limit prices leave, exactly. *)
Theorem demand_query_exact (idx : Index) (l : list (Price * Z)) (category : OfferCategory) (prices : list Price)
    (demands supplies : list Z) (sp bp mu : Z) :
  index_of idx l -> book_ok l ->
  vec_at prices (sellAsset category) = Ok sp -> vec_at prices (buyAsset category) = Ok bp ->
  Price.valid sp -> Price.valid bp -> sp < bp * 2 ^ 40 -> 0 <= mu <= 15 ->
  calculate_demands_and_supplies_times_prices idx category prices demands supplies mu =
    Ok (add_volume demands (buyAsset category) (trade_volume sp bp mu l),
        add_volume supplies (sellAsset category) (trade_volume sp bp mu l)) /\
  0 <= trade_volume sp bp mu l < 2 ^ 127.
Proof.
  intros Hix Hl Hsp Hbp Hs Hb Hr Hm. destruct (volume_times_price_spec sp bp mu l Hs Hb Hr Hm Hl) as [Hv Hrange].
  split; [|exact Hrange]. unfold calculate_demands_and_supplies_times_prices, with_metadata.
  rewrite Hsp, Hbp. cbn [result_bind]. rewrite get_execution_prices_spec by (done || lia).
  rewrite (get_metadata_spec idx l Hix). cbn [result_bind].
  assert (E : (if mu =? 0 then Ok (endow_sum (up_to (rate sp bp) l))
               else get_metadata idx (lower_bound (rate sp bp) mu)) =
              Ok (endow_sum (up_to (lower_bound (rate sp bp) mu) l))).
  { rewrite (get_metadata_spec idx l Hix). unfold lower_bound. by destruct (mu =? 0). }
  rewrite E. cbn [result_bind]. unfold calculate_demands_and_supplies_times_prices_from_metadata.
  rewrite Hsp, Hbp. cbn [result_bind]. by rewrite Hv.
Qed.

Definition example_offers : list (Price * Z) :=
  [(Price.PRICE_ONE, 100); (Price.PRICE_ONE + 4194304, 40); (2 * Price.PRICE_ONE, 70)].
Lemma example_book : book_ok example_offers.
Proof. split; [|reflexivity]. repeat constructor; simpl; try lia; discriminate. Qed.

Lemma demand_query_exact_witness :
  calculate_demands_and_supplies_times_prices (BuiltIndex.build example_offers) (mkOfferCategory 0 1 SELL)
    [3 * Price.PRICE_ONE; 2 * Price.PRICE_ONE] [0; 0] [0; 0] 1 =
    Ok ([0; 4026531840], [4026531840; 0]).
Proof.
  destruct (demand_query_exact (BuiltIndex.build example_offers) example_offers (mkOfferCategory 0 1 SELL)
    [3 * Price.PRICE_ONE; 2 * Price.PRICE_ONE] [0; 0] [0; 0] (3 * Price.PRICE_ONE) (2 * Price.PRICE_ONE) 1
    (BuiltIndex.build_spec _) example_book eq_refl eq_refl) as [E _].
  - split; vm_compute; discriminate.
  - split; vm_compute; discriminate.
  - reflexivity.
  - lia.
  - rewrite E. vm_compute. reflexivity.
Defined.

(** C36: for a non-empty index of at most [2^31] entries, valid prices whose ratio is
    below [2^40] and at most [2^63] units on offer, [max_feasible_smooth_mult]
    terminates and returns the largest smoothing whose lower execution price the
    activated amount reaches: all offers with a limit price below
    [rate - (rate >> result)] fit in the amount, and, unless the result is the maximum
    255, those below [rate - (rate >> (result + 1))] do not. *)
Theorem max_feasible_smooth_mult_is_largest (idx : Index) (l : list (Price * Z)) (category : OfferCategory)
    (prices : list Price) (amount sp bp : Z) :
  index_of idx l -> idx <> [] -> Z.of_nat (length idx) <= 2 ^ 31 -> book_ok l -> 0 <= amount ->
  vec_at prices (sellAsset category) = Ok sp -> vec_at prices (buyAsset category) = Ok bp ->
  Price.valid sp -> Price.valid bp -> sp < bp * 2 ^ 40 ->
  exists mult, max_feasible_smooth_mult idx category amount prices = Ok mult /\ 0 <= mult <= 255 /\
    amounts (up_to (rate sp bp - Z.shiftr (rate sp bp) mult - 1) l) <= amount /\
    (mult <> 255 -> amount < amounts (up_to (rate sp bp - Z.shiftr (rate sp bp) (mult + 1) - 1) l)).
Proof.
  intros Hix Hne Hlen Hl Ha Hsp Hbp Hs Hb Hr. pose proof (rate_range sp bp Hs Hb Hr) as Hrt.
  unfold max_feasible_smooth_mult. rewrite Hsp, Hbp. cbn [result_bind]. rewrite divide_prices_spec by done.
  set (r := rate sp bp) in *. clearbody r.
  assert (Hmax : amounts (up_to (r - 1) l) <= amount -> exists mult, Ok UINT8_MAX = Ok mult /\ 0 <= mult <= 255 /\
    amounts (up_to (r - Z.shiftr r mult - 1) l) <= amount /\
    (mult <> 255 -> amount < amounts (up_to (r - Z.shiftr r (mult + 1) - 1) l))).
  { intros Hle. exists 255. split; [done|]. split; [lia|]. split; [|done].
    rewrite shiftr_div, Z.div_small by (unfold in_u64 in Hrt; lia). by rewrite Z.sub_0_r. }
  assert (Hall : forall p, amounts (up_to p l) <= amounts l).
  { intros p. apply (between_prices p p l); [lia|by apply book_ok_nonneg]. }
  assert (Hpos : (0 < length idx)%nat) by (destruct idx; [done|apply Nat.lt_0_succ]).
  rewrite u64_id by (unfold in_u64; lia).
  destruct (Z.leb_spec (Z.of_nat (length idx) - 1) 0).
  { apply Hmax. rewrite up_to_empty; [done|]. intros q Hq. destruct (ix_cover _ _ Hix q Hq) as (j & f & Hj & Hf & _).
    apply lookup_lt_Some in Hf. lia. }
  destruct (lookup_lt_is_Some_2 idx (Z.to_nat (Z.of_nat (length idx) - 1))) as [e Ee]; [lia|].
  rewrite (proj2 (vec_at_Ok _ _ e)) by (split; [done|lia]). cbn [result_bind].
  destruct (Z.ltb_spec (endow e.2) amount) as [Hlt|_].
  { apply Hmax. rewrite (last_entry idx l Hix Hl (Z.to_nat (Z.of_nat (length idx) - 1)) e ltac:(lia) ltac:(lia) Ee) in Hlt. specialize (Hall (r - 1)). lia. }
  destruct (max_activated_spec idx l Hix Hl (length idx) amount 1 (Z.of_nat (length idx) - 1) Hlen Ha) as (q & -> & Hq);
    [lia|lia|lia|intros; lia|by left; lia|].
  cbn [result_bind]. destruct q as [mp|]; simpl in Hq; [|apply Hmax; specialize (Hall (r - 1)); lia].
  assert (Hmono : forall p p', p <= p' -> amounts (up_to p l) <= amounts (up_to p' l)).
  { intros p p'. apply up_to_amounts_le. eapply Forall_impl; [apply book_ok_nonneg, Hl|simpl; tauto]. }
  assert (Hmp : 1 <= mp).
  { destruct (decide (1 <= mp)); [done|]. destruct Hq as [_ Hq]. rewrite up_to_empty in Hq; [unfold amounts, sum_by in Hq; simpl in Hq; lia|].
    intros p Hp. destruct Hl as [Hl _]. rewrite Forall_forall in Hl. destruct (Hl p Hp) as [[] _]. lia. }
  destruct (Z.leb_spec r mp); [apply Hmax; transitivity (amounts (up_to (mp - 1) l)); [apply Hmono|]; lia|].
  rewrite u64_id by (unfold in_u64 in *; lia).
  destruct (smooth_mult_loop_spec 65 (r - mp) r 0) as (k & -> & Hk & Hk1 & Hk2); try done; try lia.
  assert (k <> 0) by (intros ->; rewrite Z.shiftr_0_r in Hk1; lia).
  destruct (Z.ltb_spec 0 k); [|lia]. exists (k - 1). split; [done|]. split; [lia|]. split.
  - specialize (Hk2 (k - 1) ltac:(lia)). transitivity (amounts (up_to (mp - 1) l)); [apply Hmono; lia|lia].
  - intros _. replace (k - 1 + 1) with k by lia. eapply Z.lt_le_trans; [apply Hq|apply Hmono; lia].
Qed.

Lemma max_feasible_smooth_mult_is_largest_witness :
  exists mult, max_feasible_smooth_mult (BuiltIndex.build example_offers) (mkOfferCategory 0 1 SELL) 120
    [3 * Price.PRICE_ONE; 2 * Price.PRICE_ONE] = Ok mult /\ mult = 2.
Proof.
  destruct (max_feasible_smooth_mult_is_largest (BuiltIndex.build example_offers) example_offers
    (mkOfferCategory 0 1 SELL) [3 * Price.PRICE_ONE; 2 * Price.PRICE_ONE] 120 (3 * Price.PRICE_ONE)
    (2 * Price.PRICE_ONE) (BuiltIndex.build_spec _)) as (mult & E & _).
  - discriminate.
  - vm_compute. discriminate.
  - exact example_book.
  - discriminate.
  - reflexivity.
  - reflexivity.
  - split; vm_compute; discriminate.
  - split; vm_compute; discriminate.
  - reflexivity.
  - exists mult. split; [exact E|]. vm_compute in E. injection E as <-. reflexivity.
Defined.
End DemandProps.
