(* ===== verification/SerialManager.v ===== *)
(** * Per-thread offer buffers and the interfaces of the transaction processor
    (src/orderbook/orderbook_manager_view.h, .cc,
    src/block_processing/operation_metadata.h, src/stats/block_update_stats.h)

    [BaseSerialManager] buffers the offers one thread creates; its subclasses
    are the block production ([ProcessingSerialManager]) and the validation
    ([ValidatingSerialManager]) variants.  The class [MainManager] is what they
    need of the orderbook manager, which [OrderbookManager] and the replay view
    [LoadLMDBManagerView] provide; the class [SerialManager] is what the
    transaction processor needs of them. *)
From stdpp Require Import base gmap list strings.
From S2P Require Import Prelude Types PriceArith Offers Clearing Asset SeqTracker Accounts DbView.

(** ** Block statistics: 32 bit counters *)
Record BlockStateUpdateStats := mkStats {
  new_offer_count : Z;
  cancel_offer_count : Z;
  fully_clear_offer_count : Z;
  partial_clear_offer_count : Z;
  payment_count : Z;
  new_account_count : Z
}.
Definition zero_stats : BlockStateUpdateStats := mkStats 0 0 0 0 0 0.

Definition stats_add (s other : BlockStateUpdateStats) : BlockStateUpdateStats :=
  mkStats (u32 (new_offer_count s + new_offer_count other))
    (u32 (cancel_offer_count s + cancel_offer_count other))
    (u32 (fully_clear_offer_count s + fully_clear_offer_count other))
    (u32 (partial_clear_offer_count s + partial_clear_offer_count other))
    (u32 (payment_count s + payment_count other))
    (u32 (new_account_count s + new_account_count other)).

(** The increments of the operation handlers, as values to add. *)
Definition one_new_offer : BlockStateUpdateStats := mkStats 1 0 0 0 0 0.
Definition one_cancel : BlockStateUpdateStats := mkStats 0 1 0 0 0 0.
Definition one_payment : BlockStateUpdateStats := mkStats 0 0 0 0 1 0.
Definition one_new_account : BlockStateUpdateStats := mkStats 0 0 0 0 0 1.

(** ** The account modification log of one thread *)
Class SerialAccountModificationLog (LG : Type) := {
  log_self_modification : LG -> Z -> Z -> LG;
  (** tx owner, sequence number, modified account *)
  log_other_modification : LG -> Z -> Z -> Z -> LG;
  log_new_self_transaction : LG -> SignedTransaction -> LG
}.

(** A log that lists the modifications: account, author, sequence number. *)
#[global] Instance entry_log : SerialAccountModificationLog (list (Z * Z * Z)) := {
  log_self_modification lg owner id := (owner, owner, id) :: lg;
  log_other_modification lg author id account := (account, author, id) :: lg;
  log_new_self_transaction lg stx :=
    (sourceAccount (metadata (transaction stx)), sourceAccount (metadata (transaction stx)),
     sequenceNumber (metadata (transaction stx))) :: lg
}.

(** ** The state of one transaction *)
Record OperationMetadata (V : Type) := mkMetadata {
  tx_metadata : TransactionMetadata;
  source_account_idx : ptr;
  db_view : V;
  operation_id : Z;
  local_stats : BlockStateUpdateStats;
  was_committed_or_unwound : bool
}.
Arguments mkMetadata {V}.
Arguments tx_metadata {V}.
Arguments source_account_idx {V}.
Arguments db_view {V}.
Arguments operation_id {V}.
Arguments local_stats {V}.
Arguments was_committed_or_unwound {V}.

Definition new_metadata {V} (tx : TransactionMetadata) (source : ptr) (v : V) : OperationMetadata V :=
  mkMetadata tx source v 0 zero_stats false.
Definition set_view {V} (m : OperationMetadata V) (v : V) : OperationMetadata V :=
  mkMetadata (tx_metadata m) (source_account_idx m) v (operation_id m) (local_stats m) (was_committed_or_unwound m).
Definition set_operation_id {V} (m : OperationMetadata V) (id : Z) : OperationMetadata V :=
  mkMetadata (tx_metadata m) (source_account_idx m) (db_view m) id (local_stats m) (was_committed_or_unwound m).
Definition count {V} (m : OperationMetadata V) (s : BlockStateUpdateStats) : OperationMetadata V :=
  mkMetadata (tx_metadata m) (source_account_idx m) (db_view m) (operation_id m)
    (stats_add (local_stats m) s) (was_committed_or_unwound m).
Definition set_committed {V} (m : OperationMetadata V) : OperationMetadata V :=
  mkMetadata (tx_metadata m) (source_account_idx m) (db_view m) (operation_id m) (local_stats m) true.
Definition set_no_unwind {V} (m : OperationMetadata V) : OperationMetadata V := set_committed m.

(** [~OperationMetadata()]: throws unless one of the three methods ran. *)
Definition destroy {V} (m : OperationMetadata V) : result unit :=
  if was_committed_or_unwound m then Ok tt else Throw "OperationMetadata was not committed or unwound!".

(** ** The orderbook manager, as the buffers see it *)
Class MainManager (TR M : Type) := {
  mm_num_assets : M -> Z;
  mm_num_orderbooks : M -> Z;
  mm_look_up_idx : M -> OfferCategory -> result Z;
  mm_mark_for_deletion : M -> Z -> key -> result (M * option Offer);
  mm_unmark_for_deletion : M -> Z -> key -> result M;
  mm_add_offers : M -> Z -> TR -> result M
}.

(** ** What the transaction processor uses of a buffer *)
Class SerialManager (D V LG S : Type) := {
  sm_maintain_account_log : bool;
  sm_validate_category : S -> OfferCategory -> bool;
  sm_look_up_idx : S -> OfferCategory -> result Z;
  sm_add_offer : S -> Z -> Offer -> D -> OperationMetadata V -> LG -> result (S * D * OperationMetadata V * LG);
  sm_delete_offer : S -> Z -> Price -> Z -> Z -> result (S * option Offer);
  sm_undelete_offer : S -> Z -> Price -> Z -> Z -> result S;
  sm_unwind_add_offer : S -> Z -> Offer -> result S
}.

Section Buffers.
Context {TR : Type} `{OfferTrie TR}.
Context {M : Type} `{MainManager TR M}.
Context `{BigEndian}.

Record BaseSerialManager := mkSerial { main_manager : M; new_offers : list TR }.
Implicit Types s : BaseSerialManager.

Definition set_main s (m : M) : BaseSerialManager := mkSerial m (new_offers s).
Definition set_new_offers s (l : list TR) : BaseSerialManager := mkSerial (main_manager s) l.

(** [while (idx >= new_offers.size()) emplace_back()] for an [unsigned int]. *)
Definition ensure_suffient_new_offers_sz s (idx : Z) : BaseSerialManager :=
  let size := (Z.to_nat (u32 idx) + 1)%nat in
  set_new_offers s (new_offers s ++ replicate (size - length (new_offers s)) ot_empty).

Definition get_num_assets s : Z := u16 (mm_num_assets (main_manager s)).
Definition look_up_idx s (id : OfferCategory) : result Z := mm_look_up_idx (main_manager s) id.
Definition validate_category s (id : OfferCategory) : bool :=
  Category.validate_category_ id (mm_num_assets (main_manager s)).
Definition clear s : BaseSerialManager := set_new_offers s [].

(** [new_offers.at(idx)] changed by [f]. *)
Definition on_new_offers s (idx : Z) (f : TR -> TR) : result BaseSerialManager :=
  let* tr := vec_at (new_offers s) idx in
  Ok (set_new_offers s (<[Z.to_nat idx := f tr]> (new_offers s))).

Definition delete_offer s (idx min_price owner offer_id : Z) : result (BaseSerialManager * option Offer) :=
  let s := ensure_suffient_new_offers_sz s idx in
  let key_buf := Key.generate_orderbook_trie_key min_price owner offer_id in
  let* q := mm_mark_for_deletion (main_manager s) idx key_buf in
  Ok (set_main s q.1, q.2).

(** *** Merging into the main manager *)
Fixpoint merge_loop (m : M) (i : Z) (l : list TR) : result M :=
  match l with
  | [] => Ok m
  | tr :: l => let* m := mm_add_offers m i tr in merge_loop m (i + 1) l
  end.

Definition finish_merge s : result BaseSerialManager :=
  let new_offers_sz :=
    Nat.min (length (new_offers s)) (Z.to_nat (mm_num_orderbooks (main_manager s))) in
  let* m := merge_loop (main_manager s) 0 (take new_offers_sz (new_offers s)) in
  Ok (mkSerial m []).

(** The moved-from trie is left in an unspecified state; nothing reads it before
    [partial_finish_conclude], so it is modelled as empty. *)
Definition partial_finish s (idx : nat) : result BaseSerialManager :=
  match new_offers s !! idx with
  | Some tr =>
      let* m := mm_add_offers (main_manager s) (Z.of_nat idx) tr in
      Ok (mkSerial m (<[idx := ot_empty]> (new_offers s)))
  | None => Ok s
  end.
Definition partial_finish_conclude s : BaseSerialManager := clear s.

(** ** Block production *)
Section Processing.
Context {D V LG : Type}.

Definition processing_add_offer s (idx : Z) (offer : Offer) (db : D) (metadata : OperationMetadata V) (log : LG)
    : result (BaseSerialManager * D * OperationMetadata V * LG) :=
  let s := ensure_suffient_new_offers_sz s idx in
  let key_buf := Key.offer_key offer in
  let* b := on_new_offers s idx (fun tr => ot_insert tr key_buf offer) in
  Ok (b, db, metadata, log).

Definition undelete_offer s (idx min_price owner offer_id : Z) : result BaseSerialManager :=
  let key_buf := Key.generate_orderbook_trie_key min_price owner offer_id in
  let* m := mm_unmark_for_deletion (main_manager s) idx key_buf in
  Ok (set_main s m).

Definition unwind_add_offer s (idx : Z) (offer : Offer) : result BaseSerialManager :=
  let key_buf := Key.offer_key offer in
  on_new_offers s idx (fun tr => (ot_perform_deletion tr key_buf).1).

#[global] Instance ProcessingSerialManager : SerialManager D V LG BaseSerialManager := {
  sm_maintain_account_log := true;
  sm_validate_category := validate_category;
  sm_look_up_idx := look_up_idx;
  sm_add_offer := processing_add_offer;
  sm_delete_offer := delete_offer;
  sm_undelete_offer := undelete_offer;
  sm_unwind_add_offer := unwind_add_offer
}.
End Processing.

(** ** Validation *)
Section Validating.
Context {D V LG : Type} `{DatabaseView D V} `{SerialAccountModificationLog LG}.

Record ValidatingSerialManager := mkValidating {
  base_manager : BaseSerialManager;
  clearing_commitment : OrderbookStateCommitmentChecker;
  activated_supplies : list Z
}.
Implicit Types v : ValidatingSerialManager.

Definition set_base_manager v (b : BaseSerialManager) : ValidatingSerialManager :=
  mkValidating b (clearing_commitment v) (activated_supplies v).

Definition validating_ensure v (idx : Z) : ValidatingSerialManager :=
  mkValidating (ensure_suffient_new_offers_sz (base_manager v) idx) (clearing_commitment v)
    (make_minimum_size (activated_supplies v) (Z.to_nat (u32 idx))).

(** An offer that executes fully: it is cleared at once and its amount is
    logged as activated supply. *)
Definition clear_at_once v (idx : Z) (offer : Offer) (db : D) (metadata : OperationMetadata V) (log : LG)
    : result (ValidatingSerialManager * D * OperationMetadata V * LG) :=
  let checker := clearing_commitment v in
  let* sellPrice := vec_at (prices checker) (sellAsset (category offer)) in
  let* buyPrice := vec_at (prices checker) (buyAsset (category offer)) in
  let* q := clear_offer_full
      (fun asset amount => dv_transfer_available db (db_view metadata) (source_account_idx metadata) asset amount)
      offer sellPrice buyPrice (tax_rate checker) in
  let* _ := vec_at (activated_supplies v) idx in
  Ok (mkValidating (base_manager v) checker
        (activate (activated_supplies v) (Z.to_nat idx) (FractionalAsset.from_integral (amount offer))),
      q.1.1, set_view metadata q.1.2,
      log_self_modification log (sourceAccount (tx_metadata metadata)) (operation_id metadata)).

Definition validating_add_offer v (idx : Z) (offer : Offer) (db : D) (metadata : OperationMetadata V) (log : LG)
    : result (ValidatingSerialManager * D * OperationMetadata V * LG) :=
  let v := validating_ensure v idx in
  let key_buf := Key.offer_key offer in
  let* commitment := vec_at (commitments (clearing_commitment v)) idx in
  if thresholdKeyIsNull commitment =? 1 then clear_at_once v idx offer db metadata log
  else
    match memcmp (partialExecThresholdKey commitment) key_buf with
    | Gt => clear_at_once v idx offer db metadata log
    | _ =>
        let* b := on_new_offers (base_manager v) idx (fun tr => ot_rollback_insert tr key_buf offer) in
        Ok (set_base_manager v b, db, metadata, log)
    end.

Definition validating_delete_offer v (idx min_price owner offer_id : Z)
    : result (ValidatingSerialManager * option Offer) :=
  let* q := delete_offer (base_manager v) idx min_price owner offer_id in
  Ok (set_base_manager v q.1, q.2).

(** [partial_finish_conclude]: also adds the local statistics to the main ones. *)
Definition validating_partial_finish_conclude v (main_stats : list Z) : ValidatingSerialManager * list Z :=
  (set_base_manager v (partial_finish_conclude (base_manager v)), add_stats main_stats (activated_supplies v)).

Definition ValidatingManager (maintain_account_log : bool) : SerialManager D V LG ValidatingSerialManager := {|
  sm_maintain_account_log := maintain_account_log;
  sm_validate_category v := validate_category (base_manager v);
  sm_look_up_idx v := look_up_idx (base_manager v);
  sm_add_offer := validating_add_offer;
  sm_delete_offer := validating_delete_offer;
  sm_undelete_offer v _ _ _ _ := Ok v;
  sm_unwind_add_offer v _ _ := Ok v
|}.
End Validating.
End Buffers.

(** * Lemmas *)

(** Tries with the same content. *)
Record trie_eq {TR} `{OfferTrie TR} (t t' : TR) : Prop := {
  te_map : ot_map t' = ot_map t;
  te_marked : ot_marked t' = ot_marked t;
  te_rollback : ot_rollback t' = ot_rollback t
}.

#[global] Instance trie_eq_equivalence {TR} `{OfferTrie TR} : Equivalence (trie_eq (TR := TR)).
Proof.
  split.
  - by intros t.
  - intros t t' []. by constructor.
  - intros t1 t2 t3 [] []. constructor; congruence.
Qed.

(** The behaviour of the orderbook manager the processor relies on: an array of
    tries of committed offers, and a frame the calls leave alone. *)
Class MainManagerLaws (TR M : Type) `{OfferTrie TR} `{MainManager TR M} := {
  mm_books : M -> list TR;
  mm_set_books : M -> list TR -> M;
  mm_books_set m l : length l = length (mm_books m) -> mm_books (mm_set_books m l) = l;
  mm_set_set m l l' : length l = length (mm_books m) ->
    mm_set_books (mm_set_books m l) l' = mm_set_books m l';
  mm_set_id m : mm_set_books m (mm_books m) = m;
  mm_num_assets_set m l : mm_num_assets (mm_set_books m l) = mm_num_assets m;
  mm_look_up m id : mm_look_up_idx m id = Category.category_to_idx id (mm_num_assets m);
  mm_mark_spec m idx k t : 0 <= idx -> mm_books m !! Z.to_nat idx = Some t ->
    mm_mark_for_deletion m idx k =
      Ok (mm_set_books m (<[Z.to_nat idx := (ot_mark_for_deletion t k).1]> (mm_books m)),
          (ot_mark_for_deletion t k).2);
  mm_unmark_spec m idx k t : 0 <= idx -> mm_books m !! Z.to_nat idx = Some t ->
    mm_unmark_for_deletion m idx k =
      Ok (mm_set_books m (<[Z.to_nat idx := (ot_unmark_for_deletion t k).1]> (mm_books m)))
}.

(** The offers merged into the manager wait in a second trie per orderbook. *)
Class MainManagerMergeLaws (TR M : Type) `{MainManagerLaws TR M} := {
  mm_waiting : M -> list TR;
  mm_num_orderbooks_spec m : mm_num_orderbooks m = Category.get_num_orderbooks_by_asset_count (mm_num_assets m);
  mm_waiting_length m : length (mm_waiting m) = length (mm_books m);
  mm_waiting_set m l : length l = length (mm_books m) -> mm_waiting (mm_set_books m l) = mm_waiting m;
  mm_add_spec m idx tr t : 0 <= idx -> mm_waiting m !! Z.to_nat idx = Some t ->
    exists m', mm_add_offers m idx tr = Ok m' /\ mm_books m' = mm_books m /\ mm_num_assets m' = mm_num_assets m /\
      mm_waiting m' = <[Z.to_nat idx := ot_merge_in t tr]> (mm_waiting m)
}.

Ltac books_len :=
  rewrite ?length_insert; first [ done | by symmetry; eapply Forall2_length; eassumption | lia ].

Section BufferLemmas.
Context {TR : Type} `{OfferTrie TR} {M : Type} `{MainManager TR M} `{!MainManagerLaws TR M} `{BigEndian}.
Abbreviation Buffer := (BaseSerialManager (TR := TR) (M := M)).
Implicit Types (s : Buffer) (m : M).

(** One orderbook per valid category. *)
Definition manager_ok m : Prop :=
  2 <= mm_num_assets m <= Category.MAX_INT_ASSETS /\
  Z.of_nat (length (mm_books m)) = mm_num_assets m * (mm_num_assets m - 1).

Definition main_equiv m m' : Prop :=
  exists l, m' = mm_set_books m l /\ Forall2 trie_eq (mm_books m) l.

#[local] Instance main_equiv_preorder : PreOrder main_equiv.
Proof.
  split.
  - intros m. exists (mm_books m). by rewrite mm_set_id.
  - intros m1 m2 m3 (l & -> & Hl) (l' & -> & Hl'). exists l'. rewrite mm_set_set by books_len. split; [done|].
    rewrite mm_books_set in Hl' by books_len. by transitivity l.
Qed.

Lemma main_equiv_ok m m' : main_equiv m m' -> manager_ok m -> manager_ok m'.
Proof.
  intros (l & -> & Hl) [Hn Hlen]. unfold manager_ok. rewrite mm_num_assets_set, mm_books_set by books_len.
  by rewrite <- (Forall2_length _ _ _ Hl).
Qed.

Lemma main_equiv_num m m' : main_equiv m m' -> mm_num_assets m' = mm_num_assets m.
Proof. intros (l & -> & _). apply mm_num_assets_set. Qed.

Definition new_at s (n : nat) : TR := default ot_empty (new_offers s !! n).
Definition book_at s (n : nat) : TR := default ot_empty (mm_books (main_manager s) !! n).

(** [s'] holds the offers of [s]; its buffer array may have grown. *)
Record grown s s' : Prop := {
  gr_main : main_equiv (main_manager s) (main_manager s');
  gr_new n : trie_eq (new_at s n) (new_at s' n);
  gr_length : (length (new_offers s) <= length (new_offers s'))%nat
}.

#[global] Instance grown_preorder : PreOrder grown.
Proof.
  split.
  - intros s. constructor; reflexivity.
  - intros s1 s2 s3 [A1 A2 A3] [B1 B2 B3]. constructor; [|intros n|lia].
    + by transitivity (main_manager s2).
    + by transitivity (new_at s2 n).
Qed.

Lemma grown_book s s' n : grown s s' -> trie_eq (book_at s n) (book_at s' n).
Proof.
  intros [(l & E & Hl) _ _]. unfold book_at. rewrite E, mm_books_set by books_len.
  by destruct (proj1 (Forall2_lookup _ _ _) Hl n).
Qed.

(** *** The buffer array *)
Lemma new_at_ensure s idx n : new_at (ensure_suffient_new_offers_sz s idx) n = new_at s n.
Proof.
  unfold new_at, ensure_suffient_new_offers_sz. cbn [new_offers set_new_offers].
  destruct (decide (n < length (new_offers s))%nat).
  - by rewrite lookup_app_l.
  - rewrite lookup_app_r, (lookup_ge_None_2 (new_offers s)) by lia.
    destruct (replicate _ _ !! _) eqn:E; [|done]. by apply lookup_replicate in E as [-> _].
Qed.

Lemma ensure_length s idx : 0 <= idx < 2 ^ 31 ->
  (Z.to_nat idx < length (new_offers (ensure_suffient_new_offers_sz s idx)))%nat /\
  (length (new_offers s) <= length (new_offers (ensure_suffient_new_offers_sz s idx)))%nat.
Proof.
  intros Hi. unfold ensure_suffient_new_offers_sz. cbn [new_offers set_new_offers].
  rewrite length_app, length_replicate. unfold u32. rewrite Z.mod_small by lia. lia.
Qed.

Lemma ensure_grown s idx : grown s (ensure_suffient_new_offers_sz s idx).
Proof.
  constructor.
  - reflexivity.
  - intros n. by rewrite new_at_ensure.
  - unfold ensure_suffient_new_offers_sz. cbn [new_offers set_new_offers]. rewrite length_app. lia.
Qed.

Lemma on_new_offers_spec s idx f :
  0 <= idx -> (Z.to_nat idx < length (new_offers s))%nat ->
  exists s', on_new_offers s idx f = Ok s' /\ main_manager s' = main_manager s /\
    length (new_offers s') = length (new_offers s) /\
    forall n, new_at s' n = if decide (n = Z.to_nat idx) then f (new_at s n) else new_at s n.
Proof.
  intros Hi Hlt. destruct (lookup_lt_is_Some_2 _ _ Hlt) as [t Ht].
  unfold on_new_offers. rewrite (proj2 (vec_at_Ok _ _ t)) by done. cbn [result_bind].
  eexists. split; [reflexivity|]. split; [done|]. split; [apply length_insert|]. intros n.
  unfold new_at. cbn [new_offers set_new_offers]. destruct (decide (n = Z.to_nat idx)) as [->|].
  - by rewrite list_lookup_insert_eq, Ht.
  - by rewrite list_lookup_insert_ne.
Qed.

(** *** Creating an offer and undoing it *)
Lemma insert_delete_eq (t t1 : TR) k o :
  ot_map t !! k = None -> trie_eq (ot_insert t k o) t1 -> trie_eq t (ot_perform_deletion t1 k).1.
Proof.
  intros Hk [E1 E2 E3].
  assert (k ∉ ot_marked t) by (intros [o' ?]%ot_marked_sub%elem_of_dom; congruence).
  assert (k ∉ ot_rollback t) by (intros [o' ?]%ot_rollback_sub%elem_of_dom; congruence).
  constructor.
  - rewrite ot_delete_map, E1, ot_insert_map. by apply delete_insert_id.
  - rewrite ot_delete_marked, E2, ot_insert_marked by done. set_solver.
  - rewrite ot_delete_rollback, E3, ot_insert_rollback by done. set_solver.
Qed.

(** The state after an insertion at [idx]. *)
Record inserted s s' (idx : nat) (o : Offer) : Prop := {
  in_main : main_manager s' = main_manager s;
  in_new n : new_at s' n = if decide (n = idx) then ot_insert (new_at s n) (Key.offer_key o) o else new_at s n;
  in_length : (length (new_offers s) <= length (new_offers s'))%nat;
  in_idx : (idx < length (new_offers s'))%nat
}.

Lemma processing_add_offer_spec {D V LG} s idx o (db : D) (md : OperationMetadata V) (log : LG) :
  0 <= idx < 2 ^ 31 ->
  exists s', processing_add_offer s idx o db md log = Ok (s', db, md, log) /\ inserted s s' (Z.to_nat idx) o.
Proof.
  intros Hi. unfold processing_add_offer. destruct (ensure_length s idx Hi) as [Hlt Hle].
  destruct (on_new_offers_spec (ensure_suffient_new_offers_sz s idx) idx
    (fun tr => ot_insert tr (Key.offer_key o) o) ltac:(lia) Hlt) as (s' & -> & Em & El & En).
  cbn [result_bind]. exists s'. split; [done|]. constructor; [done| |lia|lia].
  intros n. rewrite En. by rewrite new_at_ensure.
Qed.

Lemma unwind_add_offer_spec s s' s2 idx o :
  0 <= idx < 2 ^ 31 -> inserted s s' (Z.to_nat idx) o ->
  ot_map (new_at s (Z.to_nat idx)) !! Key.offer_key o = None ->
  grown s' s2 -> exists s3, unwind_add_offer s2 idx o = Ok s3 /\ grown s s3.
Proof.
  intros Hi [Im In Il Ii] Hf [Gm Gn Gl]. unfold unwind_add_offer.
  destruct (on_new_offers_spec s2 idx (fun tr => (ot_perform_deletion tr (Key.offer_key o)).1))
    as (s3 & -> & Em & El & En); [lia|lia|].
  exists s3. split; [done|]. constructor.
  - rewrite Em, <- Im. exact Gm.
  - intros n. rewrite En. specialize (Gn n). rewrite In in Gn.
    destruct (decide (n = Z.to_nat idx)) as [->|]; [|done]. by apply insert_delete_eq with (o := o).
  - lia.
Qed.

(** *** Cancelling an offer and undoing it *)
Lemma mark_unmark_eq (t t1 : TR) k o :
  (ot_mark_for_deletion t k).2 = Some o -> trie_eq (ot_mark_for_deletion t k).1 t1 ->
  trie_eq t (ot_unmark_for_deletion t1 k).1.
Proof.
  rewrite ot_mark_result. destruct (decide (k ∈ ot_marked t)) as [|Hk]; [done|]. intros Ho [E1 E2 E3].
  constructor.
  - by rewrite ot_unmark_map, E1, ot_mark_map.
  - rewrite ot_unmark_marked, E2, ot_mark_marked, Ho. set_solver.
  - by rewrite ot_unmark_rollback, E3, ot_mark_rollback.
Qed.

Lemma mark_none_eq (t : TR) k : (ot_mark_for_deletion t k).2 = None -> trie_eq t (ot_mark_for_deletion t k).1.
Proof.
  rewrite ot_mark_result. intros Hn. constructor; [apply ot_mark_map| |apply ot_mark_rollback].
  rewrite ot_mark_marked. destruct (decide (k ∈ ot_marked t)); [|by rewrite Hn].
  destruct (_ !! k); [set_solver|done].
Qed.

(** The state after a mark at [idx]. *)
Record cancelled s s' (idx : nat) (k : key) (o : option Offer) : Prop := {
  ca_book n : book_at s' n = if decide (n = idx) then (ot_mark_for_deletion (book_at s n) k).1 else book_at s n;
  ca_result : o = (ot_mark_for_deletion (book_at s idx) k).2;
  ca_main : exists l, main_manager s' = mm_set_books (main_manager s) l /\
    length l = length (mm_books (main_manager s));
  ca_idx : (idx < length (mm_books (main_manager s)))%nat;
  ca_new n : new_at s' n = new_at s n;
  ca_length : (length (new_offers s) <= length (new_offers s'))%nat
}.

Lemma delete_offer_spec s idx p owner id :
  0 <= idx -> (Z.to_nat idx < length (mm_books (main_manager s)))%nat ->
  exists s' r, delete_offer s idx p owner id = Ok (s', r) /\
    cancelled s s' (Z.to_nat idx) (Key.generate_orderbook_trie_key p owner id) r.
Proof.
  intros Hi Hlt. destruct (lookup_lt_is_Some_2 _ _ Hlt) as [t Ht].
  unfold delete_offer. cbn [main_manager ensure_suffient_new_offers_sz set_new_offers].
  rewrite (mm_mark_spec _ _ _ t Hi Ht). cbn [result_bind]. do 2 eexists. split; [reflexivity|].
  assert (Eb : book_at s (Z.to_nat idx) = t) by (unfold book_at; by rewrite Ht).
  constructor.
  - intros n. unfold book_at. cbn. rewrite mm_books_set by books_len. destruct (decide (n = Z.to_nat idx)) as [->|].
    + by rewrite list_lookup_insert_eq, Ht.
    + by rewrite list_lookup_insert_ne.
  - by rewrite Eb.
  - eexists. split; [reflexivity|]. apply length_insert.
  - done.
  - intros n. exact (new_at_ensure s idx n).
  - apply (gr_length _ _ (ensure_grown s idx)).
Qed.

Lemma main_equiv_books s s' :
  (exists l, main_manager s' = mm_set_books (main_manager s) l /\ length l = length (mm_books (main_manager s))) ->
  (forall n, trie_eq (book_at s n) (book_at s' n)) -> main_equiv (main_manager s) (main_manager s').
Proof.
  intros (l & E & Hlen) Hb. exists l. split; [done|].
  apply Forall2_same_length_lookup_2; [done|]. intros n t t' Ht Ht'. specialize (Hb n).
  unfold book_at in Hb. by rewrite E, mm_books_set, Ht, Ht' in Hb.
Qed.

Lemma cancelled_none s s' idx k : cancelled s s' idx k None -> grown s s'.
Proof.
  intros [Cb Cr (l & Cm & Cl) Ci Cn Cle]. constructor; [|intros n; by rewrite Cn|done].
  apply main_equiv_books; [by exists l|]. intros n. rewrite Cb.
  destruct (decide (n = idx)) as [->|]; [|reflexivity]. by apply mark_none_eq.
Qed.

Lemma undelete_offer_spec s s' s2 idx p owner id o :
  0 <= idx -> cancelled s s' (Z.to_nat idx) (Key.generate_orderbook_trie_key p owner id) (Some o) ->
  grown s' s2 -> exists s3, undelete_offer s2 idx p owner id = Ok s3 /\ grown s s3.
Proof.
  intros Hi [Cb Cr (l & Cm & Cl) Ci Cn Cle] Hg. pose proof Hg as [(l2 & Gm & G2) Gn Gl].
  set (k := Key.generate_orderbook_trie_key p owner id) in *.
  rewrite Cm in Gm, G2. rewrite mm_books_set in G2 by books_len. rewrite mm_set_set in Gm by books_len.
  assert (Hl2 : length l2 = length (mm_books (main_manager s))) by (rewrite <- (Forall2_length _ _ _ G2); done).
  destruct (lookup_lt_is_Some_2 l2 (Z.to_nat idx)) as [t Ht]; [lia|].
  unfold undelete_offer. fold k. rewrite (mm_unmark_spec _ _ _ t Hi) by (rewrite Gm, mm_books_set by books_len; done).
  cbn [result_bind]. eexists. split; [reflexivity|].
  assert (Eb : forall n, book_at s2 n = default ot_empty (l2 !! n)).
  { intros n. unfold book_at. rewrite Gm, mm_books_set by books_len. done. }
  constructor; cbn.
  - match goal with |- main_equiv _ ?m => change m with (main_manager (set_main s2 m)) end.
    apply main_equiv_books.
    + cbn. rewrite Gm, mm_books_set, mm_set_set by books_len. eexists. split; [reflexivity|]. books_len.
    + intros n. unfold book_at at 2. cbn. rewrite mm_books_set, Gm, mm_books_set by books_len.
      pose proof (grown_book _ _ n Hg) as Hb. rewrite Cb, Eb in Hb.
      destruct (decide (n = Z.to_nat idx)) as [->|].
      * rewrite list_lookup_insert_eq by lia. cbn. rewrite Ht in Hb. cbn in Hb.
        apply (mark_unmark_eq _ _ _ o); [by symmetry|done].
      * by rewrite list_lookup_insert_ne.
  - intros n. rewrite <- Cn. apply Gn.
  - lia.
Qed.

(** *** The orderbook of a category *)
Lemma market_idx_spec s id :
  manager_ok (main_manager s) -> Category.nonneg id -> validate_category s id = true ->
  exists i, look_up_idx s id = Ok i /\ 0 <= i < 2 ^ 31 /\
    (Z.to_nat i < length (mm_books (main_manager s)))%nat /\
    Category.category_from_idx i (mm_num_assets (main_manager s)) = id.
Proof.
  intros [Hn Hlen] Hnn Hv.
  destruct (Category.valid_category_idx _ id Hn Hnn Hv) as (i & Ei & Hi & Eid).
  exists i. unfold look_up_idx. rewrite mm_look_up. unfold Category.MAX_INT_ASSETS in Hn.
  split; [done|]. split; [nia|]. split; [lia|done].
Qed.

(** A cancellation looks up the orderbook of a pair nobody validated. *)
Lemma cancel_idx_spec s id :
  manager_ok (main_manager s) -> Category.nonneg id -> ~ Category.last_twice id (mm_num_assets (main_manager s)) ->
  (exists e, Category.category_to_idx id (mm_num_assets (main_manager s)) = Throw e /\ look_up_idx s id = Throw e) \/
  exists i, look_up_idx s id = Ok i /\ 0 <= i < 2 ^ 31 /\ (Z.to_nat i < length (mm_books (main_manager s)))%nat /\
    sellAsset (Category.category_from_idx i (mm_num_assets (main_manager s))) = sellAsset id.
Proof.
  intros [Hn Hlen] Hnn Hl. pose proof (Category.category_idx_in_range _ id Hn Hnn Hl) as Hi.
  unfold look_up_idx. rewrite mm_look_up. destruct (Category.category_to_idx _ _) as [i|e]; [right|left; by exists e].
  exists i. unfold Category.MAX_INT_ASSETS in Hn. split; [done|]. split; [nia|]. split; [lia|apply Hi].
Qed.

(** *** The amounts on offer *)

(** The amounts of the offers of a trie that are not marked for deletion. *)
Definition live (t : TR) : Z := msum (fun k o => if decide (k ∈ ot_marked t) then 0 else amount o) (ot_map t).

Lemma live_eq t t' : trie_eq t t' -> live t' = live t.
Proof. intros [E1 E2 _]. unfold live. by rewrite E1, E2. Qed.

Lemma live_insert t k o : ot_map t !! k = None -> live (ot_insert t k o) = live t + amount o.
Proof.
  intros Hk. unfold live. rewrite ot_insert_map, ot_insert_marked by done.
  rewrite msum_insert_new by done.
  rewrite decide_False by (intros [o' ?]%ot_marked_sub%elem_of_dom; congruence). lia.
Qed.

Lemma live_mark t k o :
  (ot_mark_for_deletion t k).2 = Some o -> live (ot_mark_for_deletion t k).1 = live t - amount o.
Proof.
  rewrite ot_mark_result. destruct (decide (k ∈ ot_marked t)) as [|Hk]; [done|]. intros Ho.
  unfold live. rewrite ot_mark_map, ot_mark_marked, Ho.
  rewrite <- (insert_delete_id _ _ _ Ho) at 1 2. rewrite !msum_insert_new by apply lookup_delete_eq.
  rewrite decide_True, decide_False by set_solver.
  rewrite (msum_ext (fun k' o' => if decide (k' ∈ {[k]} ∪ ot_marked t) then 0 else amount o')
    (fun k' o' => if decide (k' ∈ ot_marked t) then 0 else amount o')); [lia|].
  intros k' o' Hk'. assert (k' <> k) by (intros ->; by rewrite lookup_delete_eq in Hk').
  apply decide_ext. set_solver.
Qed.

(** The amount of asset [a] locked in the open offers. *)
Definition offers_at s (a : Z) (i : nat) : Z :=
  if sellAsset (Category.category_from_idx (Z.of_nat i) (mm_num_assets (main_manager s))) =? a
  then live (book_at s i) + live (new_at s i) else 0.
Definition offers_total s (a : Z) : Z :=
  sum_by (offers_at s a) (seq 0 (length (mm_books (main_manager s)))).

Lemma grown_offers_total s s' a : grown s s' -> offers_total s' a = offers_total s a.
Proof.
  intros Hg. pose proof (gr_main _ _ Hg) as Hm. pose proof (main_equiv_num _ _ Hm) as En.
  assert (El : length (mm_books (main_manager s')) = length (mm_books (main_manager s))).
  { destruct Hm as (l & -> & Hl). rewrite mm_books_set by books_len. by rewrite <- (Forall2_length _ _ _ Hl). }
  unfold offers_total. rewrite El. apply sum_by_ext, Forall_forall. intros i _. unfold offers_at.
  rewrite En, (live_eq _ _ (grown_book _ _ i Hg)), (live_eq _ _ (gr_new _ _ Hg i)). done.
Qed.

Lemma inserted_offers_total s s' i o a :
  inserted s s' i o -> (i < length (mm_books (main_manager s)))%nat ->
  ot_map (new_at s i) !! Key.offer_key o = None ->
  offers_total s' a = offers_total s a +
    (if sellAsset (Category.category_from_idx (Z.of_nat i) (mm_num_assets (main_manager s))) =? a
     then amount o else 0).
Proof.
  intros [Em En _ _] Hi Hf. unfold offers_total. rewrite Em.
  rewrite (sum_by_point (offers_at s a) (offers_at s' a) _ i (NoDup_seq _ _)).
  - unfold offers_at. rewrite Em, En, decide_True by done. unfold book_at. rewrite Em.
    destruct (_ =? a); [|lia]. rewrite live_insert by done. lia.
  - apply elem_of_seq. lia.
  - intros j _ Hj. unfold offers_at. rewrite Em, En, decide_False by done. unfold book_at. by rewrite Em.
Qed.

Lemma cancelled_offers_total s s' i k o a :
  cancelled s s' i k (Some o) ->
  offers_total s' a = offers_total s a -
    (if sellAsset (Category.category_from_idx (Z.of_nat i) (mm_num_assets (main_manager s))) =? a
     then amount o else 0).
Proof.
  intros [Cb Cr (l & Cm & Cl) Ci Cn _]. unfold offers_total.
  rewrite Cm, mm_books_set, Cl by done. rewrite (sum_by_point (offers_at s a) (offers_at s' a) _ i (NoDup_seq _ _)).
  - unfold offers_at. rewrite Cm, mm_num_assets_set, Cb, Cn, decide_True by done.
    destruct (_ =? a); [|lia]. rewrite (live_mark _ _ o) by done. lia.
  - apply elem_of_seq. lia.
  - intros j _ Hj. unfold offers_at. by rewrite Cm, mm_num_assets_set, Cb, Cn, decide_False.
Qed.
End BufferLemmas.
