(* ===== verification/Orderbook.v ===== *)
(** * One orderbook: commit, clear, undo
    (src/orderbook/orderbook.h, orderbook.cc, thunk.h, and the list of thunks of
    src/orderbook/lmdb.h, lmdb.cc)

    An orderbook holds the open offers of one category.  Every block adds a
    thunk that records what the block did, for persistence and for undoing the
    block: [tentative_commit_for_validation], the clearing of block production
    ([process_clear_offers]) and of validation
    ([tentative_clear_offers_for_validation]), [undo_thunk] and its users. *)
From stdpp Require Import base gmap list strings sorting.
From S2P Require Import Prelude Types PriceArith Asset SeqTracker Accounts AccountLmdb Database Offers Clearing Demand DbView SerialManager.

(** ** What clearing needs of the account database *)
Class ClearingDB (D : Type) := {
  cdb_account : Type;
  cdb_lookup_user : D -> Z -> option cdb_account;
  cdb_transfer_available : D -> cdb_account -> Z -> Z -> D
}.

#[global] Instance MemoryDatabase_ClearingDB {T CT L} `{SequenceTracker T} `{MerkleTrie AccountCommitment CT}
    `{LMDBInstance L} : ClearingDB (MemoryDatabase.t T CT L) := {
  cdb_account := nat;
  cdb_lookup_user := MemoryDatabase.lookup_user;
  cdb_transfer_available := MemoryDatabase.transfer_available
}.

(** [NullDB]: one mock account, no effects. *)
Inductive NullDB : Set := null_db.
#[global] Instance NullDB_ClearingDB : ClearingDB NullDB := {
  cdb_account := unit;
  cdb_lookup_user _ _ := Some tt;
  cdb_transfer_available db _ _ _ := db
}.

Section Orderbook.
Context {TR : Type} `{OfferTrieIndex TR} `{BigEndian}.

(** ** Thunks *)

(** [exists_partial_exec] has no initial value: [None] until it is set. *)
Record Thunk := mkThunk {
  partial_exec_key : key;
  partial_exec_amount : Z;
  preexecute_partial_exec_offer : option Offer;
  uncommitted_offers_vec : list Offer;
  cleared_offers : TR;
  deleted_keys : list (key * Offer);
  exists_partial_exec : option bool;
  current_block_number : Z
}.
Implicit Types th : Thunk.

Definition new_thunk (block : Z) : Thunk := mkThunk zero_key (-1) None [] ot_empty [] None block.
Definition max_key : key := replicate Key.ORDERBOOK_KEY_LEN 255.

Definition set_no_partial_exec th : Thunk :=
  mkThunk max_key (partial_exec_amount th) (preexecute_partial_exec_offer th) (uncommitted_offers_vec th)
    (cleared_offers th) (deleted_keys th) (Some false) (current_block_number th).
Definition set_partial_exec (buf : key) (amount : Z) (offer : Offer) th : Thunk :=
  mkThunk buf amount (Some offer) (uncommitted_offers_vec th)
    (cleared_offers th) (deleted_keys th) (Some true) (current_block_number th).
Definition set_cleared_offers (t : TR) th : Thunk :=
  mkThunk (partial_exec_key th) (partial_exec_amount th) (preexecute_partial_exec_offer th)
    (uncommitted_offers_vec th) t (deleted_keys th) (exists_partial_exec th) (current_block_number th).
Definition set_committed_block (offers : list Offer) (deleted : list (key * Offer)) th : Thunk :=
  mkThunk (partial_exec_key th) (partial_exec_amount th) (preexecute_partial_exec_offer th)
    offers (cleared_offers th) deleted (exists_partial_exec th) (current_block_number th).

(** Reading the flag before it is set is undefined behaviour in the source. *)
Definition get_exists_partial_exec th : result bool :=
  match exists_partial_exec th with
  | Some b => Ok b
  | None => Throw "exists_partial_exec is uninitialized"
  end.

(** ** The state *)
Record t := mk {
  book_category : OfferCategory;
  committed_offers : TR;
  uncommitted_offers : TR;
  thunks : list Thunk;
  persisted_round_number : Z;
  indexed_metadata : list (Price * EndowAccumulator)
}.

Definition set_committed_offers (b : t) (tr : TR) : t :=
  mk (book_category b) tr (uncommitted_offers b) (thunks b) (persisted_round_number b) (indexed_metadata b).
Definition set_uncommitted_offers (b : t) (tr : TR) : t :=
  mk (book_category b) (committed_offers b) tr (thunks b) (persisted_round_number b) (indexed_metadata b).
Definition set_thunks (b : t) (l : list Thunk) : t :=
  mk (book_category b) (committed_offers b) (uncommitted_offers b) l (persisted_round_number b) (indexed_metadata b).
Definition generate_metadata_index (b : t) : t :=
  mk (book_category b) (committed_offers b) (uncommitted_offers b) (thunks b) (persisted_round_number b)
    (ot_metadata_traversal (committed_offers b)).

(** *** The list of thunks *)
Definition add_new_thunk (b : t) (block : Z) : result t :=
  let wrong_order :=
    match last (thunks b) with
    | Some th => block <? u64 (current_block_number th + 1)
    | None => false
    end in
  if wrong_order then Throw "thunks in the wrong order!"
  else Ok (set_thunks b (thunks b ++ [new_thunk block])).

Definition on_top_thunk (b : t) (f : Thunk -> Thunk) : result t :=
  match last (thunks b) with
  | Some th => Ok (set_thunks b (removelast (thunks b) ++ [f th]))
  | None => Throw "can't get top thunk when thunks.size() == 0"
  end.

Definition pop_top_thunk (b : t) : result t :=
  match last (thunks b) with
  | Some _ => Ok (set_thunks b (removelast (thunks b)))
  | None => Throw "can't pop_back from empty thunks list"
  end.

(** ** Offers *)
Definition add_offers (b : t) (offers : TR) : t :=
  set_uncommitted_offers b (ot_merge_in (uncommitted_offers b) offers).
Definition mark_for_deletion (b : t) (k : key) : t * option Offer :=
  let '(tr, o) := ot_mark_for_deletion (committed_offers b) k in (set_committed_offers b tr, o).
Definition unmark_for_deletion (b : t) (k : key) : t * option Offer :=
  let '(tr, o) := ot_unmark_for_deletion (committed_offers b) k in (set_committed_offers b tr, o).
Definition num_open_offers (b : t) : Z := ot_size (committed_offers b).

(** ** Committing a block *)
Definition tentative_commit_for_validation (b : t) (current_block_number : Z) : result t :=
  let* b := add_new_thunk b current_block_number in
  let '(tr, deleted) := ot_perform_marked_deletions (committed_offers b) in
  let* b := on_top_thunk b (set_committed_block (snd <$> ot_entries (uncommitted_offers b)) deleted) in
  Ok (set_uncommitted_offers (set_committed_offers b (ot_merge_in tr (uncommitted_offers b))) ot_empty).

Definition commit_for_production (b : t) (current_block_number : Z) : result t :=
  let* b := tentative_commit_for_validation b current_block_number in
  Ok (generate_metadata_index b).

Definition finalize_validation (b : t) : result t :=
  let b := set_committed_offers b (ot_clear_rollback (committed_offers b)) in
  if negb (ot_size (uncommitted_offers b) =? 0)
  then Throw "shouldn't have uncommitted_offers nonempty when calling finalize"
  else Ok b.

(** ** Undoing a block *)
Definition insert_all (tr : TR) (l : list (key * Offer)) : TR :=
  foldl (fun tr kv => ot_insert tr kv.1 kv.2) tr l.
Definition mark_all (tr : TR) (l : list Offer) : TR :=
  foldl (fun tr o => (ot_mark_for_deletion tr (Key.offer_key o)).1) tr l.

Definition undo_thunk (b : t) th : result t :=
  let tr := insert_all (committed_offers b) (deleted_keys th) in
  let cleared := ot_clean_singlechild_nodes (cleared_offers th) (partial_exec_key th) in
  let tr := ot_merge_in tr cleared in
  let tr := mark_all tr (uncommitted_offers_vec th) in
  let tr := (ot_perform_marked_deletions tr).1 in
  let* exists_partial := get_exists_partial_exec th in
  if exists_partial then
    match preexecute_partial_exec_offer th with
    | Some o => Ok (set_committed_offers b (ot_insert tr (partial_exec_key th) o))
    | None => Throw "preexecute_partial_exec_offer is not set"
    end
  else Ok (set_committed_offers b tr).

Definition clear_uncommitted_vec th : Thunk := set_committed_block [] (deleted_keys th) th.

Definition rollback_validation (b : t) : result t :=
  let b := set_committed_offers (set_uncommitted_offers b ot_empty) (ot_do_rollback (committed_offers b)) in
  let* b := on_top_thunk b clear_uncommitted_vec in
  match last (thunks b) with
  | None => Throw "can't get top thunk when thunks.size() == 0"
  | Some th => let* b := undo_thunk b th in pop_top_thunk b
  end.

(** The loop over the thunks, oldest first; [kept] are those it leaves. *)
Fixpoint rollback_thunks_loop (b : t) (current_block : Z) (kept l : list Thunk) : result t :=
  match l with
  | [] => Ok (set_thunks b kept)
  | th :: l =>
      if current_block <? current_block_number th
      then let* b := undo_thunk b th in rollback_thunks_loop b current_block kept l
      else rollback_thunks_loop b current_block (kept ++ [th]) l
  end.
Definition rollback_thunks (b : t) (current_block : Z) : result t :=
  if current_block <? persisted_round_number b then Throw "can't rollback persisted objects"
  else rollback_thunks_loop b current_block [] (thunks b).

(** ** Loading: the offers of the database, in cursor order *)
Fixpoint load_offers (tr : TR) (l : list Offer) : result TR :=
  match l with
  | [] => Ok tr
  | o :: l =>
      if amount o <=? 0 then Throw "invalid offer amount present in database!"
      else load_offers (ot_insert tr (Key.offer_key o) o) l
  end.
Definition load_lmdb_contents_to_memory (b : t) (contents : list Offer) : result t :=
  let* tr := load_offers (committed_offers b) contents in
  Ok (generate_metadata_index (set_committed_offers b tr)).

(** ** Clearing *)
Section Clear.
Context {D LG : Type} `{ClearingDB D} `{SerialAccountModificationLog LG}.

(** [CompleteClearingFunc], on the database and the log. *)
Definition complete_clearing (sellPrice buyPrice : Price) (tax_rate : Z) (offer : Offer) (q : D * LG)
    : result (D * LG) :=
  if Price.a_over_b_lt_c sellPrice buyPrice (minPrice offer) then Throw "Trying to clear an offer with bad price"
  else if amount offer =? 0 then Throw "offer amount was 0!"
  else
    match cdb_lookup_user q.1 (owner offer) with
    | None => Throw "Offer in manager from nonexistent account"
    | Some idx =>
        Ok (clear_offer_full (cdb_transfer_available q.1 idx) offer sellPrice buyPrice tax_rate,
            log_self_modification q.2 (owner offer) (offerId offer))
    end.

(** [trie.apply(func)] *)
Fixpoint apply_clearing (sellPrice buyPrice : Price) (tax_rate : Z) (l : list (key * Offer)) (q : D * LG)
    : result (D * LG) :=
  match l with
  | [] => Ok q
  | p :: l =>
      let* q := complete_clearing sellPrice buyPrice tax_rate p.2 q in
      apply_clearing sellPrice buyPrice tax_rate l q
  end.

Definition fully_cleared_count (n : Z) : BlockStateUpdateStats := mkStats 0 0 (u32 n) 0 0 0.
Definition one_partial_clear : BlockStateUpdateStats := mkStats 0 0 0 1 0 0.

Definition set_amount (o : Offer) (x : Z) : Offer :=
  mkOffer (category o) (offerId o) (owner o) x (minPrice o).

(** The commitment of the orderbook to its clearing. *)
Definition write_activated (c : SingleOrderbookStateCommitment) (x : Z) : SingleOrderbookStateCommitment :=
  mkCommitment (rootHash c) (write_u128_big_endian x) (partialExecThresholdKey c) (thresholdKeyIsNull c)
    (c_partialExecOfferActivationAmount c).
Definition write_partial (c : SingleOrderbookStateCommitment) (x : Z) : SingleOrderbookStateCommitment :=
  mkCommitment (rootHash c) (c_fractionalSupplyActivated c) (partialExecThresholdKey c) (thresholdKeyIsNull c)
    (write_u128_big_endian x).
Definition write_threshold (c : SingleOrderbookStateCommitment) (k : key) (null : Z) : SingleOrderbookStateCommitment :=
  mkCommitment (rootHash c) (c_fractionalSupplyActivated c) k null (c_partialExecOfferActivationAmount c).

(** *** Block production *)

(** The partially executed offer, after the others were cleared. *)
Definition clear_lowest_offer (b : t) (k : key) (sellPrice buyPrice : Price) (tax_rate remaining_to_clear : Z)
    (q : D * LG) (c : SingleOrderbookStateCommitment) (stats : BlockStateUpdateStats)
    : result (t * (D * LG) * SingleOrderbookStateCommitment * BlockStateUpdateStats) :=
  let '(tr, try_delete) := ot_perform_deletion (committed_offers b) k in
  match try_delete with
  | None => Throw "couldn't find partial exec offer!!!"
  | Some offer =>
      let log := log_self_modification q.2 (owner offer) (offerId offer) in
      match cdb_lookup_user q.1 (owner offer) with
      | None => Throw "(partialexec) Offer in manager from nonexistent account"
      | Some idx =>
          let '(db, sell_amount, buy_amount) :=
            clear_offer_partial (cdb_transfer_available q.1 idx) offer sellPrice buyPrice tax_rate remaining_to_clear in
          if u64 (amount offer) <? u64 sell_amount
          then Throw "should not have been partially clearing this offer"
          else
            let* b := on_top_thunk (set_committed_offers b tr) (set_partial_exec k sell_amount offer) in
            let c := write_threshold c k 0 in
            let offer := set_amount offer (u64 (amount offer - sell_amount)) in
            if 0 <? amount offer then
              Ok (set_committed_offers b (ot_insert tr k offer), (db, log), c, stats_add stats one_partial_clear)
            else if amount offer <? 0 then
              Throw "how on earth did partial_exec_offer.amount become less than 0"
            else Ok (b, (db, log), c, stats)
      end
  end.

Definition process_clear_offers (b : t) (params : OrderbookClearingParams) (prices : list Price) (tax_rate : Z)
    (q : D * LG) (c : SingleOrderbookStateCommitment) (stats : BlockStateUpdateStats)
    : result (t * (D * LG) * SingleOrderbookStateCommitment * BlockStateUpdateStats) :=
  let clear_amount := FractionalAsset.floor (supply_activated params) in
  if INT64_MAX <? clear_amount then Throw "trying to clear more than there should exist"
  else
    let c := write_activated c (supply_activated params) in
    let '(fully_cleared_trie, rest) := ot_endow_split (committed_offers b) clear_amount in
    let* sellPrice := vec_at prices (sellAsset (book_category b)) in
    let* buyPrice := vec_at prices (buyAsset (book_category b)) in
    let* q := apply_clearing sellPrice buyPrice tax_rate (ot_entries fully_cleared_trie) q in
    let stats := stats_add stats (fully_cleared_count (ot_size fully_cleared_trie)) in
    let remaining_to_clear :=
      FractionalAsset.sub (supply_activated params)
        (FractionalAsset.from_integral (i64 (ot_endow fully_cleared_trie))) in
    let* b := on_top_thunk (set_committed_offers b rest) (set_cleared_offers fully_cleared_trie) in
    let c := write_partial c remaining_to_clear in
    match ot_lowest_key rest with
    | None =>
        if negb (remaining_to_clear =? FractionalAsset.from_integral 0)
        then Throw "null partial_exec_key (lowest offer key) but remaining to clear is nonzero"
        else
          let* b := on_top_thunk b set_no_partial_exec in
          Ok (b, q, write_threshold c zero_key 1, stats)
    | Some k => clear_lowest_offer b k sellPrice buyPrice tax_rate remaining_to_clear q c stats
    end.

(** *** Validation *)

(** What validating the clearing of an orderbook changes. *)
Record clearing_state := mkClearing {
  cl_book : t;
  cl_db : D * LG;
  cl_activated : Z;
  cl_stats : BlockStateUpdateStats
}.
Definition with_book (s : clearing_state) (b : t) : clearing_state :=
  mkClearing b (cl_db s) (cl_activated s) (cl_stats s).
Definition log_offer (s : clearing_state) (o : Offer) : clearing_state :=
  mkClearing (cl_book s) ((cl_db s).1, log_self_modification (cl_db s).2 (owner o) (offerId o))
    (cl_activated s) (cl_stats s).

(** No offer has the threshold key: everything must clear. *)
Definition clear_everything (s : clearing_state) (sellPrice buyPrice : Price)
    (local_clearing_log : SingleOrderbookStateCommitment) (tax_rate : Z) : result (clearing_state * bool) :=
  match memcmp (partialExecThresholdKey local_clearing_log) zero_key with
  | Eq =>
      if negb (partialExecOfferActivationAmount local_clearing_log =? FractionalAsset.from_integral 0)
      then Ok (s, false)
      else
        let committed := committed_offers (cl_book s) in
        let activated :=
          FractionalAsset.add (cl_activated s) (FractionalAsset.from_integral (i64 (ot_endow committed))) in
        let* q := apply_clearing sellPrice buyPrice tax_rate (ot_entries committed) (cl_db s) in
        let stats := stats_add (cl_stats s) (fully_cleared_count (ot_size committed)) in
        let* b := on_top_thunk (cl_book s) (fun th => set_cleared_offers committed (set_no_partial_exec th)) in
        Ok (mkClearing (set_committed_offers b ot_empty) q activated stats, true)
  | _ => Ok (s, false)
  end.

(** The offer [partial_exec_offer] was taken out under the threshold key. *)
Definition clear_with_partial (s : clearing_state) (partial_exec_offer : Offer) (endow_below : Z)
    (sellPrice buyPrice : Price) (local_clearing_log : SingleOrderbookStateCommitment)
    (clearing_commitment_log : OrderbookStateCommitmentChecker) : result (clearing_state * bool) :=
  let k := partialExecThresholdKey local_clearing_log in
  let s := log_offer s partial_exec_offer in
  let put_back := set_committed_offers (cl_book s) (ot_insert (committed_offers (cl_book s)) k partial_exec_offer) in
  match cdb_lookup_user (cl_db s).1 (owner partial_exec_offer) with
  | None => Ok (with_book s put_back, false)
  | Some db_idx =>
      let* sp := vec_at (prices clearing_commitment_log) (sellAsset (category partial_exec_offer)) in
      let* bp := vec_at (prices clearing_commitment_log) (buyAsset (category partial_exec_offer)) in
      let '(db, sell_amount, buy_amount) :=
        clear_offer_partial (cdb_transfer_available (cl_db s).1 db_idx) partial_exec_offer sp bp
          (tax_rate clearing_commitment_log) (partialExecOfferActivationAmount local_clearing_log) in
      let s := mkClearing (cl_book s) (db, (cl_db s).2) (cl_activated s) (cl_stats s) in
      if u64 (amount partial_exec_offer) <? u64 sell_amount then Ok (with_book s put_back, false)
      else
        let* b := on_top_thunk (cl_book s) (set_partial_exec k sell_amount partial_exec_offer) in
        let '(cleared, rest) := ot_endow_split (committed_offers b) endow_below in
        let* b := on_top_thunk (set_committed_offers b rest) (set_cleared_offers cleared) in
        let* q := apply_clearing sellPrice buyPrice (tax_rate clearing_commitment_log) (ot_entries cleared) (cl_db s) in
        let stats := stats_add (cl_stats s) (fully_cleared_count (ot_size cleared)) in
        let offer := set_amount partial_exec_offer (u64 (amount partial_exec_offer - sell_amount)) in
        if amount offer =? 0 then Ok (mkClearing b q (cl_activated s) stats, true)
        else
          Ok (mkClearing (set_committed_offers b (ot_insert rest k offer)) q (cl_activated s)
                (stats_add stats one_partial_clear), true)
  end.

Definition tentative_clear_offers_for_validation (b : t) (q : D * LG) (activated_supply : Z)
    (local_clearing_log : SingleOrderbookStateCommitment)
    (clearing_commitment_log : OrderbookStateCommitmentChecker) (stats : BlockStateUpdateStats)
    : result (clearing_state * bool) :=
  let k := partialExecThresholdKey local_clearing_log in
  let endow_below := i64 (ot_endow_lt_key (committed_offers b) k) in
  let activated := FractionalAsset.add activated_supply (FractionalAsset.from_integral endow_below) in
  let* sellPrice := vec_at (prices clearing_commitment_log) (sellAsset (book_category b)) in
  let* buyPrice := vec_at (prices clearing_commitment_log) (buyAsset (book_category b)) in
  let '(tr, partial_exec_offer_opt) := ot_perform_deletion (committed_offers b) k in
  let s := mkClearing (set_committed_offers b tr) q activated stats in
  match partial_exec_offer_opt with
  | None => clear_everything s sellPrice buyPrice local_clearing_log (tax_rate clearing_commitment_log)
  | Some offer =>
      clear_with_partial s offer endow_below sellPrice buyPrice local_clearing_log clearing_commitment_log
  end.
End Clear.
End Orderbook.

(** * Lemmas *)

(** ** Lists of entries *)
Lemma sorted_entries_eq (l l' : list (key * Offer)) :
  StronglySorted key_le l -> StronglySorted key_le l' -> NoDup l.*1 -> l ≡ₚ l' -> l = l'.
Proof.
  intros Hs Hs' Hn Hp. apply (StronglySorted_unique_strong key_le); try done.
  intros [k1 o1] [k2 o2] H1 H2 L1 L2. pose proof (key_le_antisym _ _ L1 L2) as E. simpl in E. subst k2.
  rewrite <- Hp in H2. apply elem_of_list_to_map_1 in H1, H2; [|done|done]. by simplify_eq.
Qed.

Lemma offers_endow_app l l' : offers_endow (l ++ l') = offers_endow l + offers_endow l'.
Proof. exact (sum_by_app _ l l'). Qed.
Lemma offers_endow_cons p l : offers_endow (p :: l) = amount p.2 + offers_endow l.
Proof. exact (sum_by_cons (fun p : key * Offer => amount p.2) p l). Qed.
Lemma offers_endow_nonneg l : Forall (fun p => 0 < amount p.2) l -> 0 <= offers_endow l.
Proof. intros Hl. apply sum_by_nonneg. eapply Forall_impl; [exact Hl|]. simpl. lia. Qed.

(** The longest prefix whose amounts fit is unique. *)
Lemma prefix_unique (low rest low' rest' : list (key * Offer)) :
  Forall (fun p => 0 < amount p.2) (low ++ rest) -> low ++ rest = low' ++ rest' ->
  offers_endow low' <= offers_endow low ->
  match rest' with [] => True | p :: _ => offers_endow low < offers_endow low' + amount p.2 end ->
  low' = low /\ rest' = rest.
Proof.
  revert low'. induction low as [|p low IH]; intros low' Hpos E Hle Hnext; simpl in *.
  - destruct low' as [|p' low']; [done|]. subst rest. rewrite offers_endow_cons in Hle.
    apply Forall_cons in Hpos as [Hp Hpos]. apply Forall_app in Hpos as [Hpos _].
    pose proof (offers_endow_nonneg _ Hpos). unfold offers_endow at 2 in Hle. rewrite sum_by_nil in Hle. lia.
  - apply Forall_cons in Hpos as [Hp Hpos]. destruct low' as [|p' low']; simpl in *.
    + subst rest'. apply Forall_app in Hpos as [Hpos _]. pose proof (offers_endow_nonneg _ Hpos).
      rewrite offers_endow_cons in Hnext. unfold offers_endow at 2 in Hnext. rewrite sum_by_nil in Hnext. lia.
    + injection E as -> E. rewrite !offers_endow_cons in Hle, Hnext.
      destruct (IH low' Hpos E) as [-> ->]; [lia| |done]. destruct rest'; [done|lia].
Qed.

Lemma sorted_app_lt (low rest : list (key * Offer)) p q :
  StronglySorted key_le (low ++ q :: rest) -> NoDup (low ++ q :: rest).*1 -> p ∈ low -> memcmp p.1 q.1 = Lt.
Proof.
  intros Hs Hn Hp. assert (Hle : key_le p q) by (eapply (StronglySorted_app_1_elem_of key_le); [exact Hs|done|by left]).
  unfold key_le in Hle. destruct (memcmp p.1 q.1) eqn:E; [|done|done].
  apply memcmp_eq in E. rewrite fmap_app in Hn. apply NoDup_app in Hn as (_ & Hd & _).
  destruct (Hd p.1); [by apply list_elem_of_fmap_2|]. rewrite E. simpl. by left.
Qed.

(** The entries below the key of [q]. *)
Lemma filter_below (low rest : list (key * Offer)) q `{!forall p : key * Offer, Decision (memcmp p.1 q.1 = Lt)} :
  StronglySorted key_le (low ++ q :: rest) -> NoDup (low ++ q :: rest).*1 ->
  filter (fun p => memcmp p.1 q.1 = Lt) (low ++ q :: rest) = low.
Proof.
  intros Hs Hn. rewrite filter_app.
  assert (E1 : filter (fun p => memcmp p.1 q.1 = Lt) low = low).
  { assert (Hlow : Forall (fun p => memcmp p.1 q.1 = Lt) low).
    { apply Forall_forall. intros p Hp. by eapply sorted_app_lt. }
    clear Hs Hn. induction Hlow as [|p low Hp _ IH]; [done|]. rewrite filter_cons, decide_True by done. f_equal. exact IH. }
  assert (E2 : filter (fun p => memcmp p.1 q.1 = Lt) (q :: rest) = []).
  { apply (StronglySorted_app_1_r key_le) in Hs.
    assert (Hrest : Forall (fun p => memcmp p.1 q.1 <> Lt) (q :: rest)).
    { apply Forall_forall. intros p Hp E.
      assert (Hle : key_le q p).
      { apply elem_of_cons in Hp as [->|Hp].
        - unfold key_le. by rewrite (proj2 (memcmp_eq _ _) eq_refl).
        - inversion_clear Hs as [|? ? _ Hall]. rewrite Forall_forall in Hall. by apply Hall. }
      unfold key_le in Hle. rewrite memcmp_opp, E in Hle. done. }
    clear Hs Hn. induction Hrest as [|p l Hp _ IH]; [done|]. rewrite filter_cons, decide_False by done. exact IH. }
  etransitivity; [exact (f_equal2 app E1 E2)|apply app_nil_r].
Qed.

Section Tries.
Context {TR : Type} `{OfferTrie TR}.
Implicit Types t : TR.

Lemma ot_entries_nodup t : NoDup (ot_entries t).*1.
Proof. rewrite ot_entries_map. apply NoDup_fst_map_to_list. Qed.

Lemma entries_ext t t' : ot_map t = ot_map t' -> ot_entries t = ot_entries t'.
Proof.
  intros E. apply sorted_entries_eq; [apply ot_entries_sorted|apply ot_entries_sorted|apply ot_entries_nodup|].
  by rewrite !ot_entries_map, E.
Qed.

Lemma map_entries t : ot_map t = list_to_map (ot_entries t).
Proof.
  rewrite <- (list_to_map_to_list (ot_map t)). apply list_to_map_proper; [|by rewrite ot_entries_map].
  apply NoDup_fst_map_to_list.
Qed.

Lemma entries_elem t k o : (k, o) ∈ ot_entries t <-> ot_map t !! k = Some o.
Proof. rewrite ot_entries_map. apply elem_of_map_to_list. Qed.

(** A list that is sorted and has the right map is the entry list. *)
Lemma entries_of t l : StronglySorted key_le l -> NoDup l.*1 -> ot_map t = list_to_map l -> ot_entries t = l.
Proof.
  intros Hs Hn E. apply sorted_entries_eq; [apply ot_entries_sorted|done|apply ot_entries_nodup|].
  rewrite ot_entries_map, E. by apply map_to_list_to_map.
Qed.

(** Taking out the entry in the middle. *)
Lemma entries_delete t k o low rest :
  ot_entries t = low ++ (k, o) :: rest -> ot_entries (ot_perform_deletion t k).1 = low ++ rest.
Proof.
  intros E. pose proof (ot_entries_nodup t) as Hn. pose proof (ot_entries_sorted t) as Hs. rewrite E in Hn, Hs.
  rewrite fmap_app, fmap_cons in Hn. simpl in Hn.
  assert (Hk : k ∉ low.*1 ++ rest.*1).
  { rewrite <- (Permutation_middle low.*1 rest.*1 k) in Hn. by apply NoDup_cons in Hn as [? _]. }
  apply entries_of.
  - clear -Hs. induction low as [|p low IH]; simpl in *; [by inversion Hs|].
    inversion_clear Hs as [|? ? Hs' Hall]. constructor; [by apply IH|].
    apply Forall_app in Hall as [H1 H2]. apply Forall_cons in H2 as [_ H2]. by apply Forall_app.
  - rewrite fmap_app. rewrite <- (Permutation_middle low.*1 rest.*1 k) in Hn. by apply NoDup_cons in Hn as [_ ?].
  - rewrite ot_delete_map, map_entries, E, !list_to_map_app. cbn [list_to_map foldr uncurry fst snd].
    rewrite delete_union. f_equal.
    + apply delete_id, not_elem_of_list_to_map. set_solver.
    + rewrite delete_insert_id; [done|]. apply not_elem_of_list_to_map. set_solver.
Qed.
End Tries.

(** ** Payments *)
Class ClearingDBLaws (D : Type) `{ClearingDB D} := {
  cdb_equiv : D -> D -> Prop;
  cdb_equiv_equivalence : Equivalence cdb_equiv;
  cdb_lookup_transfer d a k x id : cdb_lookup_user (cdb_transfer_available d a k x) id = cdb_lookup_user d id;
  cdb_transfer_proper d d' a k x :
    cdb_equiv d d' -> cdb_equiv (cdb_transfer_available d a k x) (cdb_transfer_available d' a k x);
  cdb_transfer_comm d a k x a' k' x' :
    cdb_equiv (cdb_transfer_available (cdb_transfer_available d a k x) a' k' x')
              (cdb_transfer_available (cdb_transfer_available d a' k' x') a k x)
}.
#[global] Existing Instance cdb_equiv_equivalence.

Section Payments.
Context {D : Type} `{ClearingDBLaws D} {LG : Type} `{SerialAccountModificationLog LG}.

(** A credit to the owner of an offer. *)
Record payment := mkPayment { payee : Z; pay_in : Z; pay_units : Z }.
Definition pay (d : D) (p : payment) : D :=
  match cdb_lookup_user d (payee p) with
  | Some a => cdb_transfer_available d a (pay_in p) (pay_units p)
  | None => d
  end.

Lemma pay_lookup d p id : cdb_lookup_user (pay d p) id = cdb_lookup_user d id.
Proof. unfold pay. destruct (cdb_lookup_user d (payee p)); [apply cdb_lookup_transfer|done]. Qed.
Lemma pays_lookup d l id : cdb_lookup_user (foldl pay d l) id = cdb_lookup_user d id.
Proof. revert d. induction l as [|p l IH]; intros d; simpl; [done|]. by rewrite IH, pay_lookup. Qed.

Lemma pay_comm d p p' : cdb_equiv (pay (pay d p) p') (pay (pay d p') p).
Proof.
  unfold pay at 1 3. rewrite !pay_lookup. unfold pay.
  destruct (cdb_lookup_user d (payee p)), (cdb_lookup_user d (payee p')); try reflexivity.
  apply cdb_transfer_comm.
Qed.

(** Payments agree on what accounts exist only through the database they start
    from, so equivalence is kept together with the lookups. *)
Definition same_users d d' : Prop := cdb_equiv d d' /\ forall id, cdb_lookup_user d id = cdb_lookup_user d' id.

Lemma pay_proper d d' p : same_users d d' -> same_users (pay d p) (pay d' p).
Proof.
  intros [He Hl]. split; [|intros id; by rewrite !pay_lookup].
  unfold pay. rewrite Hl. destruct (cdb_lookup_user d' (payee p)); [by apply cdb_transfer_proper|done].
Qed.

Lemma pays_proper d d' l : same_users d d' -> same_users (foldl pay d l) (foldl pay d' l).
Proof. revert d d'. induction l as [|p l IH]; intros d d' Hd; simpl; [done|]. by apply IH, pay_proper. Qed.

(** The order of the payments does not matter. *)
Lemma pay_first d p l : same_users (foldl pay (pay d p) l) (pay (foldl pay d l) p).
Proof.
  revert d. induction l as [|p' l IH]; intros d; simpl; [by split|].
  destruct (pays_proper (pay (pay d p) p') (pay (pay d p') p) l) as [E1 E2].
  { split; [apply pay_comm|]. intros id. by rewrite !pay_lookup. }
  destruct (IH (pay d p')) as [E3 E4]. split; [by transitivity (foldl pay (pay (pay d p') p) l)|].
  intros id. by rewrite E2, E4.
Qed.

(** What a fully cleared offer is paid. *)
Definition full_payment (sp bp t : Z) (o : Offer) : payment :=
  clear_offer_full (mkPayment (owner o)) o sp bp t.
Definition partial_payment (sp bp t remaining : Z) (o : Offer) : payment :=
  (clear_offer_partial (mkPayment (owner o)) o sp bp t remaining).1.1.
Definition full_payments (sp bp t : Z) (l : list (key * Offer)) : list payment :=
  (fun p => full_payment sp bp t p.2) <$> l.
Definition log_all (lg : LG) (l : list (key * Offer)) : LG :=
  foldl (fun lg p => log_self_modification lg (owner p.2) (offerId p.2)) lg l.

Definition clearable (d : D) (sp bp : Z) (o : Offer) : Prop :=
  Price.a_over_b_lt_c sp bp (minPrice o) = false /\ amount o <> 0 /\ is_Some (cdb_lookup_user d (owner o)).

Lemma full_payment_pay d a sp bp t o :
  cdb_lookup_user d (owner o) = Some a ->
  clear_offer_full (cdb_transfer_available d a) o sp bp t = pay d (full_payment sp bp t o).
Proof. intros E. unfold full_payment, clear_offer_full, pay. cbn [payee pay_in pay_units]. by rewrite E. Qed.

Lemma partial_payment_pay d a sp bp t r o :
  cdb_lookup_user d (owner o) = Some a ->
  clear_offer_partial (cdb_transfer_available d a) o sp bp t r =
    (pay d (partial_payment sp bp t r o), i64 (FractionalAsset.ceil r), pay_units (partial_payment sp bp t r o)).
Proof. intros E. unfold partial_payment, clear_offer_partial, pay. cbn [payee pay_in pay_units fst]. by rewrite E. Qed.

Lemma complete_clearing_Ok sp bp t o (q q' : D * LG) :
  complete_clearing sp bp t o q = Ok q' <->
  clearable q.1 sp bp o /\ q' = (pay q.1 (full_payment sp bp t o), log_self_modification q.2 (owner o) (offerId o)).
Proof.
  unfold complete_clearing, clearable. destruct (Price.a_over_b_lt_c _ _ _); [by split; [|intros [[] _]]|].
  destruct (Z.eqb_spec (amount o) 0); [by split; [|intros [(_ & ? & _) _]]|].
  destruct (cdb_lookup_user q.1 (owner o)) as [a|] eqn:E.
  - rewrite (full_payment_pay _ a) by done. split; [intros [= <-]; split; [|done]|by intros [_ ->]]. split_and!; try done.
  - split; [done|]. by intros [(_ & _ & [? ?]) _].
Qed.

Lemma apply_clearing_Ok sp bp t l (q q' : D * LG) :
  apply_clearing sp bp t l q = Ok q' <->
  Forall (fun p => clearable q.1 sp bp p.2) l /\
  q' = (foldl pay q.1 (full_payments sp bp t l), log_all q.2 l).
Proof.
  revert q. induction l as [|p l IH]; intros q; cbn [apply_clearing full_payments fmap list_fmap foldl log_all].
  - destruct q. split; [by intros [= <-]|]. by intros [_ ->].
  - split.
    + intros (q1 & [Hc ->]%complete_clearing_Ok & [Hl ->]%IH)%result_bind_Ok. cbn [fst snd] in *. split; [|done].
      constructor; [done|]. eapply Forall_impl; [exact Hl|]. unfold clearable. cbn beta. intros p'. by rewrite pay_lookup.
    + intros [[Hc Hl]%Forall_cons ->]. apply result_bind_Ok. eexists. split; [by apply complete_clearing_Ok|].
      apply IH. cbn [fst snd]. split; [|done].
      eapply Forall_impl; [exact Hl|]. unfold clearable. cbn beta. intros p'. by rewrite pay_lookup.
Qed.
End Payments.

(** ** What a clearing does to an orderbook *)

(** [l] cleared for the raw supply [S]: [low] executes fully, [partial] for the
    raw amount [r], and [rest] stays. *)
Record split_by (S : Z) (l low : list (key * Offer)) (partial : option (key * Offer)) (rest : list (key * Offer))
    (r : Z) : Prop := {
  sb_entries : l = low ++ option_list partial ++ rest;
  sb_none : partial = None -> rest = [] /\ r = 0;
  sb_supply : S = offers_endow low * 2 ^ 10 + r;
  sb_raw : 0 <= r;
  sb_fits k o : partial = Some (k, o) -> r <= amount o * 2 ^ 10
}.

Definition book_positive (l : list (key * Offer)) : Prop :=
  Forall (fun p => 0 < amount p.2) l /\ offers_endow l < 2 ^ 63.

(** What is left of the partially executed offer after selling [sell]. *)
Definition left_over (k : key) (o : Offer) (sell : Z) (m : gmap key Offer) : gmap key Offer :=
  if 0 <? amount o - sell then <[k := set_amount o (amount o - sell)]> m else m.
Definition book_after (partial : option (key * Offer)) (rest : list (key * Offer)) (r : Z) : gmap key Offer :=
  match partial with
  | None => ∅
  | Some (k, o) => left_over k o (FractionalAsset.ceil r) (list_to_map rest)
  end.
Definition stats_after (low : list (key * Offer)) (partial : option (key * Offer)) (r : Z)
    (stats : BlockStateUpdateStats) : BlockStateUpdateStats :=
  let stats := stats_add stats (fully_cleared_count (Z.of_nat (length low))) in
  match partial with
  | Some (k, o) => if 0 <? amount o - FractionalAsset.ceil r then stats_add stats one_partial_clear else stats
  | None => stats
  end.
Definition thunk_after {TR} (partial : option (key * Offer)) (r : Z) (cleared : TR) (th : Thunk (TR := TR))
    : Thunk (TR := TR) :=
  match partial with
  | None => set_no_partial_exec (set_cleared_offers cleared th)
  | Some (k, o) => set_partial_exec k (FractionalAsset.ceil r) o (set_cleared_offers cleared th)
  end.

Section Outcome.
Context {TR : Type} `{OfferTrieIndex TR} `{BigEndian} {D : Type} `{ClearingDBLaws D}
  {LG : Type} `{SerialAccountModificationLog LG}.
Abbreviation Book := (Orderbook.t (TR := TR)).
Implicit Types (d : D) (o : Offer) (l : list (key * Offer)).

Definition partial_pays (d : D) (sp bp t r : Z) (partial : option (key * Offer)) : D :=
  match partial with Some (_, o) => pay d (partial_payment sp bp t r o) | None => d end.

Lemma offers_endow_bounds l low rest :
  book_positive l -> l = low ++ rest -> 0 <= offers_endow low <= offers_endow l /\ offers_endow l < 2 ^ 63.
Proof.
  intros [Hp Ht] ->. apply Forall_app in Hp as [P1 P2]. rewrite offers_endow_app in *.
  pose proof (offers_endow_nonneg _ P1). pose proof (offers_endow_nonneg _ P2). lia.
Qed.

(** A raw amount below [x] whole units rounds up to at most [x]. *)
Lemma ceil_fits r x : 0 <= r -> r <= x * 2 ^ 10 -> x < 2 ^ 63 -> 0 <= FractionalAsset.ceil r <= x.
Proof.
  intros Hr Hx Hb. rewrite FractionalAsset.ceil_spec by lia. pose proof (ceil_div_spec r (2 ^ 10) ltac:(lia)). lia.
Qed.

Lemma split_by_partial S l low k o rest r :
  book_positive l -> split_by S l low (Some (k, o)) rest r ->
  0 < amount o < 2 ^ 63 /\ 0 <= FractionalAsset.ceil r <= amount o.
Proof.
  intros [Hp Ht] [E _ _ Hr Hf]. specialize (Hf k o eq_refl). rewrite E in Hp, Ht. simpl in Hp, Ht.
  apply Forall_app in Hp as [P1 P2]. apply Forall_cons in P2 as [Ho P2]. simpl in Ho.
  rewrite offers_endow_app, offers_endow_cons in Ht. simpl in Ht.
  pose proof (offers_endow_nonneg _ P1). pose proof (offers_endow_nonneg _ P2).
  split; [lia|]. apply ceil_fits; lia.
Qed.

(** The split of block production. *)
Lemma production_split (tr : TR) S low rest :
  book_positive (ot_entries tr) -> 0 <= S ->
  ot_endow_split tr (FractionalAsset.floor S) = (low, rest) ->
  ot_entries tr = ot_entries low ++ ot_entries rest /\ 0 <= offers_endow (ot_entries low) < 2 ^ 63 /\
  offers_endow (ot_entries low) * 2 ^ 10 <= S /\
  forall p q, ot_entries rest = p :: q -> S < (offers_endow (ot_entries low) + amount p.2) * 2 ^ 10.
Proof.
  intros Hb HS Es. pose proof (ot_split_entries tr (FractionalAsset.floor S) (proj1 Hb)) as Hsp.
  rewrite FractionalAsset.floor_div in *. rewrite Es in Hsp. destruct Hsp as (E & Hle & Hnext); [apply Z.div_pos; lia|].
  destruct (offers_endow_bounds _ _ _ Hb E) as [B1 B2]. split; [done|]. split; [lia|].
  pose proof (Z.mul_div_le S (2 ^ 10) ltac:(lia)). split; [lia|]. intros p q Ep. rewrite Ep in Hnext.
  pose proof (Z.mul_succ_div_gt S (2 ^ 10) ltac:(lia)). lia.
Qed.

Lemma remaining_value S x : 0 <= x < 2 ^ 63 -> x * 2 ^ 10 <= S -> S < 2 ^ 128 ->
  FractionalAsset.sub S (FractionalAsset.from_integral (i64 x)) = S - x * 2 ^ 10.
Proof.
  intros Hx Hle HS. rewrite i64_id by (unfold in_i64; lia). rewrite FractionalAsset.from_integral_id by lia.
  unfold FractionalAsset.sub, FixedPrecision.sub, FixedPrecision.wrap, FractionalAsset.radix, FractionalAsset.bits.
  rewrite Z.sub_diag, Z.shiftl_0_r, (Z.mod_small (x * 2 ^ 10)), Z.mod_small by lia. done.
Qed.

Lemma on_top_twice (b b1 : Book) f g :
  on_top_thunk b f = Ok b1 -> on_top_thunk b1 g = on_top_thunk b (fun th => g (f th)).
Proof.
  unfold on_top_thunk. destruct (last (thunks b)) as [th|] eqn:E; [|done]. intros [= <-].
  cbn [set_thunks thunks]. rewrite last_snoc, List.removelast_last. done.
Qed.

Lemma on_top_thunk_Ok (b b' : Book) f :
  on_top_thunk b f = Ok b' -> exists th, last (thunks b) = Some th /\ b' = set_thunks b (removelast (thunks b) ++ [f th]).
Proof. unfold on_top_thunk. destruct (last (thunks b)) as [th|]; [|done]. intros [= <-]. by exists th. Qed.

Abbreviation keys_of l := (dom (list_to_map l : gmap key Offer)).

(** The orderbook after the clearing, and the thunk that records it. *)
Record cleared_book (b b' : Book) (low : list (key * Offer)) (partial : option (key * Offer))
    (rest : list (key * Offer)) (r : Z) : Prop := {
  cb_map : ot_map (committed_offers b') = book_after partial rest r;
  cb_marked : ot_marked (committed_offers b) = ∅ -> ot_marked (committed_offers b') = ∅;
  cb_rollback : ot_rollback (committed_offers b') = ot_rollback (committed_offers b) ∩ keys_of rest;
  cb_thunk : exists th cleared, last (thunks b) = Some th /\
    thunks b' = removelast (thunks b) ++ [thunk_after partial r cleared th] /\
    ot_entries cleared = low /\ (ot_marked (committed_offers b) = ∅ -> ot_marked cleared = ∅) /\
    ot_rollback cleared = ot_rollback (committed_offers b) ∩ keys_of low;
  cb_category : book_category b' = book_category b;
  cb_uncommitted : uncommitted_offers b' = uncommitted_offers b;
  cb_persisted : persisted_round_number b' = persisted_round_number b;
  cb_index : indexed_metadata b' = indexed_metadata b
}.

(** The trie that is left when the partially executed offer is put back. *)
Lemma left_over_trie (tr : TR) k o rest sell :
  ot_entries tr = rest -> k ∉ rest.*1 ->
  let tr' := if 0 <? amount o - sell then ot_insert tr k (set_amount o (amount o - sell)) else tr in
  ot_map tr' = left_over k o sell (list_to_map rest) /\ (ot_marked tr = ∅ -> ot_marked tr' = ∅) /\
  ot_rollback tr' = ot_rollback tr.
Proof.
  intros E Hk. pose proof (map_entries tr) as Em. rewrite E in Em.
  assert (Hn : ot_map tr !! k = None) by (rewrite Em; by apply not_elem_of_list_to_map).
  cbn zeta. unfold left_over. rewrite <- Em. destruct (0 <? _); [|done].
  by rewrite ot_insert_map, ot_insert_marked, ot_insert_rollback.
Qed.

Lemma rest_nodup (tr : TR) low k o rest :
  ot_entries tr = low ++ (k, o) :: rest -> NoDup rest.*1 /\ (k ∉ rest.*1) /\ (k ∉ low.*1).
Proof.
  intros E. pose proof (ot_entries_nodup tr) as Hn. rewrite E, fmap_app, fmap_cons in Hn.
  apply NoDup_app in Hn as (_ & Hd & Hn). apply NoDup_cons in Hn as [? ?]. split; [done|]. split; [done|].
  intros Hk. apply (Hd k Hk). by left.
Qed.

(** Taking the partially executed offer out of the part that is left. *)
Lemma delete_head (tr rest0 : TR) low k o rest :
  ot_entries tr = low ++ (k, o) :: rest -> ot_entries rest0 = (k, o) :: rest ->
  ot_rollback rest0 = ot_rollback tr ∩ dom (ot_map rest0) ->
  ot_entries (ot_perform_deletion rest0 k).1 = rest /\
  ot_rollback (ot_perform_deletion rest0 k).1 = ot_rollback tr ∩ keys_of rest /\
  (ot_perform_deletion rest0 k).2 = Some o.
Proof.
  intros E E0 Er. destruct (rest_nodup tr low k o rest E) as (_ & Hk & _).
  split; [by apply (entries_delete rest0 k o [] rest)|]. split.
  - rewrite ot_delete_rollback, Er, (map_entries rest0), E0. cbn [list_to_map foldr uncurry fst snd].
    rewrite dom_insert_L. assert (k ∉ keys_of rest) by (rewrite dom_list_to_map_L, elem_of_list_to_set; done). set_solver.
  - rewrite ot_delete_result. apply entries_elem. rewrite E0. by left.
Qed.

(** ** Block production *)

(** The commitment the producer writes. *)
Definition commitment_after (c : SingleOrderbookStateCommitment) (S : Z) (partial : option (key * Offer)) (r : Z)
    : SingleOrderbookStateCommitment :=
  match partial with
  | Some (k, _) => write_threshold (write_partial (write_activated c S) r) k 0
  | None => write_threshold (write_partial (write_activated c S) r) zero_key 1
  end.

Record production (b b' : Book) (S sp bp t : Z) (q q' : D * LG) c c' stats stats' low partial rest r : Prop := {
  po_split : split_by S (ot_entries (committed_offers b)) low partial rest r;
  po_clearable : Forall (fun p => clearable q.1 sp bp p.2) low;
  po_partial k o : partial = Some (k, o) -> is_Some (cdb_lookup_user q.1 (owner o));
  po_db : q'.1 = partial_pays (foldl pay q.1 (full_payments sp bp t low)) sp bp t r partial;
  po_book : cleared_book b b' low partial rest r;
  po_commitment : c' = commitment_after c S partial r;
  po_stats : stats' = stats_after low partial r stats
}.

Lemma clear_lowest_spec (b b0 b' : Book) S k o low rest r cleared th sp bp t (q q0 q' : D * LG) c c' stats stats' :
  let l := ot_entries (committed_offers b) in
  book_positive l -> split_by S l low (Some (k, o)) rest r ->
  ot_entries cleared = low -> (ot_marked (committed_offers b) = ∅ -> ot_marked cleared = ∅) ->
  ot_rollback cleared = ot_rollback (committed_offers b) ∩ keys_of low ->
  ot_entries (committed_offers b0) = (k, o) :: rest ->
  ot_rollback (committed_offers b0) = ot_rollback (committed_offers b) ∩ dom (ot_map (committed_offers b0)) ->
  (ot_marked (committed_offers b) = ∅ -> ot_marked (committed_offers b0) = ∅) ->
  last (thunks b) = Some th ->
  b0 = set_thunks (set_committed_offers b (committed_offers b0)) (removelast (thunks b) ++ [set_cleared_offers cleared th]) ->
  Forall (fun p => clearable q.1 sp bp p.2) low ->
  q0 = (foldl pay q.1 (full_payments sp bp t low), log_all q.2 low) ->
  clear_lowest_offer b0 k sp bp t r q0 (write_partial (write_activated c S) r)
    (stats_add stats (fully_cleared_count (Z.of_nat (length low)))) = Ok (b', q', c', stats') ->
  production b b' S sp bp t q q' c c' stats stats' low (Some (k, o)) rest r.
Proof.
  intros l Hb Hsp Ecl Mcl Rcl E0 R0 M0 Eth Eb0 Hcl -> Hrun.
  destruct (split_by_partial _ _ _ _ _ _ _ Hb Hsp) as [Ho Hceil].
  pose proof (sb_entries _ _ _ _ _ _ Hsp) as El. cbn [option_list app] in El.
  destruct (delete_head (committed_offers b) (committed_offers b0) low k o rest El E0 R0) as (E1 & R1 & D1).
  destruct (rest_nodup (committed_offers b) low k o rest El) as (_ & Hk & _).
  unfold clear_lowest_offer in Hrun. destruct (ot_perform_deletion (committed_offers b0) k) as [tr1 del] eqn:Edel.
  cbn [fst snd] in *. subst del.
  assert (M1 : ot_marked (committed_offers b) = ∅ -> ot_marked tr1 = ∅).
  { intros Hm. replace tr1 with (ot_perform_deletion (committed_offers b0) k).1 by (by rewrite Edel).
    rewrite ot_delete_marked, M0 by done. set_solver. }
  rewrite pays_lookup in Hrun. destruct (cdb_lookup_user q.1 (owner o)) as [a|] eqn:Ea; [|done].
  rewrite (partial_payment_pay _ a) in Hrun by (by rewrite pays_lookup).
  destruct (Z.ltb_spec (u64 (amount o)) (u64 (i64 (FractionalAsset.ceil r)))) as [Hlt|_]; [done|].
  rewrite i64_id in Hrun by (unfold in_i64; lia).
  apply result_bind_Ok in Hrun as (b1 & (th1 & Eth1 & ->)%on_top_thunk_Ok & Hrun).
  rewrite Eb0 in Eth1. cbn [set_committed_offers set_thunks thunks] in Eth1. rewrite last_snoc in Eth1.
  injection Eth1 as <-.
  assert (Hbook : forall tr2, ot_map tr2 = left_over k o (FractionalAsset.ceil r) (list_to_map rest) ->
    (ot_marked tr1 = ∅ -> ot_marked tr2 = ∅) -> ot_rollback tr2 = ot_rollback tr1 ->
    cleared_book b (set_committed_offers (set_thunks (set_committed_offers b0 tr1) (removelast (thunks (set_committed_offers b0 tr1))
      ++ [set_partial_exec k (FractionalAsset.ceil r) o (set_cleared_offers cleared th)])) tr2) low (Some (k, o)) rest r).
  { intros tr2 Hm2 Mk2 Rb2. rewrite Eb0. constructor; cbn [set_committed_offers set_thunks committed_offers thunks]; try done.
    - auto.
    - by rewrite Rb2.
    - exists th, cleared. split; [done|]. split; [|done]. rewrite List.removelast_last. done. }
  destruct (left_over_trie tr1 k o rest (FractionalAsset.ceil r) E1 Hk) as (Lm & Lk & Lr). cbn zeta in Lm, Lk, Lr.
  cbn [amount set_amount] in Hrun. rewrite u64_id in Hrun by (unfold in_u64; lia).
  destruct (0 <? amount o - FractionalAsset.ceil r) eqn:Eleft.
  - injection Hrun as <- <- <- <-. constructor; try done.
    + by intros ? ? [= <- <-].
    + by apply Hbook.
    + unfold stats_after. by rewrite Eleft.
  - destruct (Z.ltb_spec (amount o - FractionalAsset.ceil r) 0); [lia|].
    injection Hrun as <- <- <- <-. constructor; try done.
    + by intros ? ? [= <- <-].
    + by apply (Hbook tr1).
    + unfold stats_after. by rewrite Eleft.
Qed.

Lemma production_spec (b b' : Book) S prices t (q q' : D * LG) c c' stats stats' :
  book_positive (ot_entries (committed_offers b)) -> in_u128 S ->
  process_clear_offers b (mkOrderbookClearingParams S) prices t q c stats = Ok (b', q', c', stats') ->
  exists sp bp low partial rest r,
    vec_at prices (sellAsset (book_category b)) = Ok sp /\ vec_at prices (buyAsset (book_category b)) = Ok bp /\
    production b b' S sp bp t q q' c c' stats stats' low partial rest r.
Proof.
  intros Hb HS Hrun. unfold process_clear_offers in Hrun. cbn [supply_activated] in Hrun.
  destruct (INT64_MAX <? FractionalAsset.floor S); [done|].
  destruct (ot_endow_split (committed_offers b) (FractionalAsset.floor S)) as [lowt restt] eqn:Es.
  destruct (production_split (committed_offers b) S lowt restt Hb ltac:(unfold in_u128 in HS; lia) Es) as (E & Hlow & Hle & Hnext).
  pose proof (ot_split_marked (committed_offers b) (FractionalAsset.floor S)) as Mr.
  pose proof (ot_split_rollback (committed_offers b) (FractionalAsset.floor S)) as Rr.
  pose proof (ot_split_low_marked (committed_offers b) (FractionalAsset.floor S)) as Ml.
  pose proof (ot_split_low_rollback (committed_offers b) (FractionalAsset.floor S)) as Rl.
  rewrite Es in Mr, Rr, Ml, Rl. cbn [fst snd] in Mr, Rr, Ml, Rl. rewrite (map_entries lowt) in Rl.
  apply result_bind_Ok in Hrun as (sp & Esp & Hrun). apply result_bind_Ok in Hrun as (bp & Ebp & Hrun).
  apply result_bind_Ok in Hrun as (q1 & [Hcl ->]%apply_clearing_Ok & Hrun).
  rewrite ot_endow_entries, ot_size_entries, remaining_value in Hrun by (unfold in_u128 in HS; lia).
  set (r := S - offers_endow (ot_entries lowt) * 2 ^ 10) in *.
  apply result_bind_Ok in Hrun as (b1 & Eb1 & Hrun).
  pose proof (on_top_thunk_Ok _ _ _ Eb1) as (th & Eth & Hb1).
  exists sp, bp, (ot_entries lowt), (head (ot_entries restt)), (tail (ot_entries restt)), r.
  split; [done|]. split; [done|]. rewrite ot_lowest_entries in Hrun.
  destruct (ot_entries restt) as [|[k o] rest] eqn:Erest; cbn [head fmap option_fmap option_map fst tail] in *.
  - destruct (Z.eqb_spec r (FractionalAsset.from_integral 0)) as [Er|]; [|done]. cbn [negb] in Hrun.
    change (FractionalAsset.from_integral 0) with 0 in Er.
    apply result_bind_Ok in Hrun as (b2 & Eb2 & Hrun). rewrite (on_top_twice _ _ _ _ Eb1) in Eb2.
    apply on_top_thunk_Ok in Eb2 as (th2 & Eth2 & ->).
    cbn [set_committed_offers thunks] in Eth2, Eth. rewrite Eth in Eth2. injection Eth2 as <-.
    injection Hrun as <- <- <- <-. constructor; try done.
    + constructor; try done; [unfold r; lia|lia].
    + constructor; cbn [set_thunks set_committed_offers committed_offers thunks]; try done.
      * rewrite map_entries, Erest. done.
      * intros Hm. rewrite Mr, Hm. set_solver.
      * rewrite Rr, map_entries, Erest. done.
      * exists th, lowt. split; [done|]. split; [done|]. split; [done|]. split; [|done].
        intros Hm. rewrite Ml, Hm. set_solver.
  - cbn [set_committed_offers thunks] in Eth.
    apply (clear_lowest_spec b b1 b' S k o (ot_entries lowt) rest r lowt th sp bp t q
      (foldl pay q.1 (full_payments sp bp t (ot_entries lowt)), log_all q.2 (ot_entries lowt)) q' c c' stats stats'); try done.
    + constructor; try done; [unfold r; lia|unfold r; lia|]. intros ? ? [= <- <-].
      pose proof (Hnext (k, o) rest eq_refl) as Hx. cbn [snd] in Hx. unfold r. lia.
    + intros Hm. rewrite Ml, Hm. set_solver.
    + by rewrite Hb1.
    + rewrite Hb1. exact Rr.
    + intros Hm. rewrite Hb1. cbn [set_thunks set_committed_offers committed_offers]. rewrite Mr, Hm. set_solver.
    + by rewrite Hb1.
Qed.

(** ** Validation *)

(** The offers of one orderbook as the transaction processor creates them. *)
Definition offer_wf (c : OfferCategory) (p : key * Offer) : Prop :=
  p.1 = Key.offer_key p.2 /\ category p.2 = c /\ 0 < amount p.2 /\ Price.valid (minPrice p.2) /\
  in_u64 (owner p.2) /\ in_u64 (offerId p.2).
Definition offers_wf (c : OfferCategory) (l : list (key * Offer)) : Prop :=
  Forall (offer_wf c) l /\ offers_endow l < 2 ^ 63.

Lemma offers_wf_positive c l : offers_wf c l -> book_positive l.
Proof. intros [Hl Ht]. split; [|done]. eapply Forall_impl; [exact Hl|]. by intros p (_ & _ & ? & _). Qed.

Lemma zero_key_value : be_value zero_key = 0.
Proof. reflexivity. Qed.

Lemma offer_key_positive c p : offer_wf c p -> memcmp p.1 zero_key = Gt.
Proof.
  intros (-> & _ & _ & Hp & Ho & Hi). unfold Price.valid in Hp. unfold Key.offer_key.
  rewrite Key.memcmp_value; [|by rewrite Key.key_length|apply Key.key_bytes|by repeat constructor; lia].
  rewrite zero_key_value, Key.key_value by (done || lia). unfold in_u64 in *. apply Z.compare_gt_iff. lia.
Qed.

Lemma zero_key_fresh c l : Forall (offer_wf c) l -> zero_key ∉ l.*1.
Proof.
  intros Hl (p & E & Hp)%list_elem_of_fmap. rewrite Forall_forall in Hl. pose proof (offer_key_positive c p (Hl p Hp)) as Hk.
  rewrite <- E in Hk. by rewrite (proj2 (memcmp_eq _ _) eq_refl) in Hk.
Qed.

Lemma none_below_zero c l `{!forall p : key * Offer, Decision (memcmp p.1 zero_key = Lt)} : Forall (offer_wf c) l -> filter (fun p => memcmp p.1 zero_key = Lt) l = [].
Proof.
  induction 1 as [|p l Hp Hl IH]; [done|]. rewrite filter_cons, decide_False; [exact IH|].
  by rewrite (offer_key_positive c p Hp).
Qed.

(** The commitment read back. *)
Lemma commitment_amount c S partial r :
  in_u128 r -> partialExecOfferActivationAmount (commitment_after c S partial r) = r.
Proof.
  intros Hr. unfold partialExecOfferActivationAmount, commitment_after.
  destruct partial as [[k o]|]; cbn; rewrite u128_big_endian_read by done; by apply FractionalAsset.from_raw_id.
Qed.
Lemma commitment_supply c S partial r :
  in_u128 S -> fractionalSupplyActivated (commitment_after c S partial r) = S.
Proof.
  intros HS. unfold fractionalSupplyActivated, commitment_after.
  destruct partial as [[k o]|]; cbn; rewrite u128_big_endian_read by done; by apply FractionalAsset.from_raw_id.
Qed.

(** The commitment names the partially executed offer and its raw amount. *)
Definition commits_to (c : SingleOrderbookStateCommitment) (partial : option (key * Offer)) (r : Z) : Prop :=
  partialExecThresholdKey c = match partial with Some (k, _) => k | None => zero_key end /\
  partialExecOfferActivationAmount c = r.

Lemma commitment_after_commits c S partial r : in_u128 r -> commits_to (commitment_after c S partial r) partial r.
Proof. intros Hr. split; [by destruct partial as [[]|]|by apply commitment_amount]. Qed.

(** The second split finds what the producer cleared. *)
Lemma validation_split (tr : TR) low rest :
  ot_entries tr = low ++ rest -> Forall (fun p => 0 < amount p.2) (low ++ rest) ->
  let '(cleared, kept) := ot_endow_split tr (offers_endow low) in
  ot_entries cleared = low /\ ot_entries kept = rest.
Proof.
  intros E Hpos. pose proof (ot_split_entries tr (offers_endow low)) as Hsp. rewrite E in Hsp. specialize (Hsp Hpos).
  destruct (ot_endow_split tr (offers_endow low)) as [cleared kept].
  destruct Hsp as (E2 & Hle & Hnext); [apply offers_endow_nonneg; by apply Forall_app in Hpos as [? _]|].
  destruct (prefix_unique low rest (ot_entries cleared) (ot_entries kept) Hpos E2 Hle Hnext) as [-> ->]. done.
Qed.

Lemma clear_everything_spec (bv : Book) (th : Thunk) S sp bp c t act stats (q : D * LG) low :
  let l := ot_entries (committed_offers bv) in commits_to c None 0 ->
  offers_wf (book_category bv) l -> split_by S l low None [] 0 -> last (thunks bv) = Some th ->
  Forall (fun p => clearable q.1 sp bp p.2) low ->
  exists s, clear_everything (mkClearing bv q act stats) sp bp c t = Ok (s, true) /\
    cleared_book bv (cl_book s) low None [] 0 /\
    (cl_db s).1 = foldl pay q.1 (full_payments sp bp t low) /\
    cl_activated s = FractionalAsset.add act (FractionalAsset.from_integral (offers_endow low)) /\
    cl_stats s = stats_after low None 0 stats.
Proof.
  intros l [Ek Er] Hwf Hsp Eth Hcl. pose proof (sb_entries _ _ _ _ _ _ Hsp) as El. rewrite app_nil_r in El.
  destruct (offers_endow_bounds l low [] (offers_wf_positive _ _ Hwf)) as [B1 B2]; [by rewrite app_nil_r|].
  unfold clear_everything. rewrite Ek, Er, (proj2 (memcmp_eq _ _) eq_refl). change (0 =? FractionalAsset.from_integral 0) with true. cbn [negb].
  cbn [cl_book cl_activated cl_db cl_stats]. rewrite ot_endow_entries, ot_size_entries. fold l. rewrite El in B1, B2 |- *.
  rewrite i64_id by (unfold in_i64; lia).
  rewrite (proj2 (apply_clearing_Ok sp bp t low q _) (conj Hcl eq_refl)). cbn [result_bind].
  unfold on_top_thunk. rewrite Eth. cbn [result_bind]. eexists. split; [reflexivity|]. split; [|done].
  constructor; cbn [cl_book set_committed_offers set_thunks committed_offers thunks]; try done.
  - apply ot_empty_map.
  - intros _. apply set_eq. intros k. split; [|done]. intros Hk%ot_marked_sub. by rewrite ot_empty_map in Hk.
  - apply set_eq. intros k. split; [|set_solver]. intros Hk%ot_rollback_sub. by rewrite ot_empty_map in Hk.
  - exists th, (committed_offers bv). split; [done|]. split; [done|]. split; [done|]. split; [done|].
    rewrite <- El. unfold l. rewrite <- map_entries. pose proof (ot_rollback_sub (committed_offers bv)). set_solver.
Qed.

Lemma clear_with_partial_spec (bv b1 : Book) (th : Thunk) S sp bp c act stats (q : D * LG) k o low rest r
    (checker : OrderbookStateCommitmentChecker) :
  let l := ot_entries (committed_offers bv) in commits_to c (Some (k, o)) r ->
  offers_wf (book_category bv) l -> split_by S l low (Some (k, o)) rest r -> last (thunks bv) = Some th ->
  vec_at (prices checker) (sellAsset (book_category bv)) = Ok sp ->
  vec_at (prices checker) (buyAsset (book_category bv)) = Ok bp ->
  Forall (fun p => clearable q.1 sp bp p.2) low -> is_Some (cdb_lookup_user q.1 (owner o)) ->
  b1 = set_committed_offers bv (ot_perform_deletion (committed_offers bv) k).1 ->
  exists s, clear_with_partial (mkClearing b1 q act stats) o (offers_endow low) sp bp
      c checker = Ok (s, true) /\
    cleared_book bv (cl_book s) low (Some (k, o)) rest r /\
    (cl_db s).1 = foldl pay (pay q.1 (partial_payment sp bp (tax_rate checker) r o))
      (full_payments sp bp (tax_rate checker) low) /\
    cl_activated s = act /\ cl_stats s = stats_after low (Some (k, o)) r stats.
Proof.
  intros l [Ekey Er] Hwf Hsp Eth Esp Ebp Hcl [a Ea] ->.
  pose proof (offers_wf_positive _ _ Hwf) as Hb. destruct (split_by_partial _ _ _ _ _ _ _ Hb Hsp) as [Ho Hceil].
  pose proof (sb_entries _ _ _ _ _ _ Hsp) as El. cbn [option_list app] in El. unfold l in El.
  destruct (rest_nodup (committed_offers bv) low k o rest El) as (_ & Hk & Hkl).
  pose proof (entries_delete (committed_offers bv) k o low rest El) as E1.
  set (tr1 := (ot_perform_deletion (committed_offers bv) k).1) in *.
  assert (R1 : ot_rollback tr1 = ot_rollback (committed_offers bv) ∖ {[k]}) by apply ot_delete_rollback.
  assert (M1 : ot_marked (committed_offers bv) = ∅ -> ot_marked tr1 = ∅).
  { intros Hm. unfold tr1. rewrite ot_delete_marked, Hm. set_solver. }
  assert (Ecat : category o = book_category bv).
  { destruct Hwf as [Hwf _]. rewrite Forall_forall in Hwf.
    destruct (Hwf (k, o)) as (_ & ? & _); [|done]. unfold l. rewrite El. apply elem_of_app. right. by left. }
  unfold clear_with_partial. cbn [log_offer cl_db cl_book cl_activated cl_stats fst snd]. rewrite Ea, Ecat, Esp, Ebp.
  cbn [result_bind]. rewrite Er, Ekey, (partial_payment_pay _ a) by done.
  rewrite i64_id by (unfold in_i64; lia). rewrite !u64_id by (unfold in_u64; lia).
  destruct (Z.ltb_spec (amount o) (FractionalAsset.ceil r)); [lia|].
  pose proof (validation_split tr1 low rest E1) as Hspl.
  pose proof (ot_split_marked tr1 (offers_endow low)) as Mr. pose proof (ot_split_rollback tr1 (offers_endow low)) as Rr.
  pose proof (ot_split_low_marked tr1 (offers_endow low)) as Ml.
  pose proof (ot_split_low_rollback tr1 (offers_endow low)) as Rl.
  unfold on_top_thunk. cbn [set_committed_offers set_thunks thunks committed_offers]. rewrite Eth.
  cbn [result_bind set_committed_offers set_thunks thunks committed_offers].
  destruct (ot_endow_split tr1 (offers_endow low)) as [cleared kept] eqn:Es. cbn [fst snd] in Mr, Rr, Ml, Rl.
  destruct Hspl as [Ec Ek].
  { destruct Hb as [Hb _]. unfold l in Hb. rewrite El in Hb. apply Forall_app in Hb as [P1 P2].
    apply Forall_cons in P2 as [_ P2]. by apply Forall_app. }
  cbn [set_committed_offers set_thunks thunks]. rewrite last_snoc. cbn [result_bind]. rewrite Ec, ot_size_entries, Ec.
  assert (Hcl' : Forall (fun p => clearable (pay q.1 (partial_payment sp bp (tax_rate checker) r o)) sp bp p.2) low).
  { eapply Forall_impl; [exact Hcl|]. unfold clearable. cbn beta. intros p. by rewrite pay_lookup. }
  erewrite (proj2 (apply_clearing_Ok sp bp (tax_rate checker) low _ _)) by (split; [exact Hcl'|reflexivity]).
  cbn [result_bind fst snd]. rewrite (map_entries cleared), Ec in Rl. rewrite (map_entries kept), Ek in Rr.
  destruct (left_over_trie kept k o rest (FractionalAsset.ceil r) Ek Hk) as (Lm & Lk & Lr). cbn zeta in Lm, Lk, Lr.
  cbn [amount set_amount].
  assert (Hbook : forall tr2, ot_map tr2 = left_over k o (FractionalAsset.ceil r) (list_to_map rest) ->
    (ot_marked kept = ∅ -> ot_marked tr2 = ∅) -> ot_rollback tr2 = ot_rollback kept ->
    cleared_book bv (mk (book_category bv) tr2 (uncommitted_offers bv)
      (removelast (removelast (thunks bv) ++ [set_partial_exec k (FractionalAsset.ceil r) o th]) ++
        [set_cleared_offers cleared (set_partial_exec k (FractionalAsset.ceil r) o th)])
      (persisted_round_number bv) (indexed_metadata bv)) low (Some (k, o)) rest r).
  { assert (Hkr : k ∉ keys_of rest) by (rewrite dom_list_to_map_L, elem_of_list_to_set; done).
    assert (Hkl' : k ∉ keys_of low) by (rewrite dom_list_to_map_L, elem_of_list_to_set; done).
    intros tr2 Hm2 Mk2 Rb2. constructor; cbn [committed_offers thunks]; try done.
    - intros Hm. apply Mk2. rewrite Mr, M1 by done. set_solver.
    - rewrite Rb2, Rr, R1. set_solver.
    - exists th, cleared. split; [done|]. rewrite List.removelast_last. split; [done|]. split; [done|]. split.
      + intros Hm. rewrite Ml, M1 by done. set_solver.
      + rewrite Rl, R1. set_solver. }
  destruct (Z.eqb_spec (amount o - FractionalAsset.ceil r) 0) as [Ez|Ez].
  - eexists. split; [reflexivity|]. cbn [cl_book cl_db cl_activated cl_stats fst]. split; [|split; [done|split; [done|]]].
    + apply (Hbook kept); [|done|done]. rewrite (map_entries kept), Ek. unfold left_over. by rewrite Ez.
    + unfold stats_after. by rewrite Ez.
  - assert (Epos : (0 <? amount o - FractionalAsset.ceil r) = true) by (apply Z.ltb_lt; lia). rewrite Epos in Lm, Lk, Lr.
    eexists. split; [reflexivity|]. cbn [cl_book cl_db cl_activated cl_stats fst]. split; [|split; [done|split; [done|]]].
    + by apply Hbook.
    + unfold stats_after. by rewrite Epos.
Qed.

(** A book with the same content, up to a mark on an absent key. *)
Lemma cleared_book_same (b b1 b' : Book) low partial rest r :
  ot_map (committed_offers b1) = ot_map (committed_offers b) ->
  ot_marked (committed_offers b1) ⊆ ot_marked (committed_offers b) ->
  ot_rollback (committed_offers b1) ∩ keys_of rest = ot_rollback (committed_offers b) ∩ keys_of rest ->
  ot_rollback (committed_offers b1) ∩ keys_of low = ot_rollback (committed_offers b) ∩ keys_of low ->
  b1 = set_committed_offers b (committed_offers b1) ->
  cleared_book b1 b' low partial rest r -> cleared_book b b' low partial rest r.
Proof.
  intros Em Mk Rr Rl Eb [A1 A2 A3 A4 A5 A6 A7 A8]. rewrite Eb in A4, A5, A6, A7, A8.
  cbn [set_committed_offers committed_offers thunks book_category uncommitted_offers persisted_round_number
    indexed_metadata] in *.
  assert (Hm : ot_marked (committed_offers b) = ∅ -> ot_marked (committed_offers b1) = ∅) by set_solver.
  constructor; try done.
  - auto.
  - by rewrite A3.
  - destruct A4 as (th & cleared & T1 & T2 & T3 & T4 & T5). exists th, cleared.
    split_and!; [done|done|done|by intros ?; apply T4, Hm|by rewrite T5].
Qed.

(** A validator that sees the commitment of a clearing accepts it and ends up
    with the same orderbook. *)
Lemma validation_spec (bv : Book) (th : Thunk) S sp bp c act stats (q : D * LG) low partial rest r
    (checker : OrderbookStateCommitmentChecker) :
  let l := ot_entries (committed_offers bv) in commits_to c partial r ->
  offers_wf (book_category bv) l -> split_by S l low partial rest r -> last (thunks bv) = Some th ->
  vec_at (prices checker) (sellAsset (book_category bv)) = Ok sp ->
  vec_at (prices checker) (buyAsset (book_category bv)) = Ok bp ->
  Forall (fun p => clearable q.1 sp bp p.2) low ->
  (forall k o, partial = Some (k, o) -> is_Some (cdb_lookup_user q.1 (owner o))) ->
  exists s, tentative_clear_offers_for_validation bv q act c checker stats = Ok (s, true) /\
    cleared_book bv (cl_book s) low partial rest r /\
    (cl_db s).1 = foldl pay (partial_pays q.1 sp bp (tax_rate checker) r partial)
      (full_payments sp bp (tax_rate checker) low) /\
    cl_activated s = FractionalAsset.add act (FractionalAsset.from_integral (offers_endow low)) /\
    cl_stats s = stats_after low partial r stats.
Proof.
  intros l Hcom Hwf Hsp Eth Esp Ebp Hcl Hpart. pose proof (offers_wf_positive _ _ Hwf) as Hb.
  pose proof (sb_entries _ _ _ _ _ _ Hsp) as El.
  destruct (offers_endow_bounds l low (option_list partial ++ rest) Hb El) as [B1 B2].
  unfold tentative_clear_offers_for_validation. rewrite Esp, Ebp. cbn [result_bind]. rewrite ot_endow_lt_entries.
  fold l. rewrite (proj1 Hcom). destruct partial as [[k o]|]; cbn [option_list app] in El.
  -     pose proof (ot_entries_sorted (committed_offers bv)) as Hs. pose proof (ot_entries_nodup (committed_offers bv)) as Hn.
    fold l in Hs, Hn. rewrite El in Hs, Hn.
    rewrite El. change (fun p : key * Offer => memcmp p.1 k = Lt) with (fun p : key * Offer => memcmp p.1 (k, o).1 = Lt).
    rewrite (filter_below low rest (k, o)), i64_id by (done || unfold in_i64; lia).
    assert (Hk : (ot_perform_deletion (committed_offers bv) k).2 = Some o).
    { rewrite ot_delete_result. apply entries_elem. fold l. rewrite El. apply elem_of_app. right. by left. }
    destruct (ot_perform_deletion (committed_offers bv) k) as [tr del] eqn:Ed. cbn [snd] in Hk. subst del.
    apply (clear_with_partial_spec bv _ th S sp bp c _ stats q k o low rest r checker); try done.
    + by apply (Hpart k).
    + by rewrite Ed.
  - destruct (sb_none _ _ _ _ _ _ Hsp eq_refl) as [-> ->].
    rewrite (none_below_zero (book_category bv)) by apply Hwf.
    change (i64 (offers_endow [])) with 0. rewrite (FractionalAsset.from_integral_id 0) by lia.
    assert (Hz : ot_map (committed_offers bv) !! zero_key = None).
    { rewrite map_entries. apply not_elem_of_list_to_map. by apply (zero_key_fresh (book_category bv)), Hwf. }
    assert (Hdel : (ot_perform_deletion (committed_offers bv) zero_key).2 = None) by (by rewrite ot_delete_result).
    destruct (ot_perform_deletion (committed_offers bv) zero_key) as [tr del] eqn:Ed. cbn [snd] in Hdel. subst del.
    assert (Em : ot_map tr = ot_map (committed_offers bv)).
    { replace tr with (ot_perform_deletion (committed_offers bv) zero_key).1 by (by rewrite Ed).
      rewrite ot_delete_map. by apply delete_id. }
    assert (Ee : ot_entries tr = l) by (by apply entries_ext).
    set (b1 := set_committed_offers bv tr).
    destruct (clear_everything_spec b1 th S sp bp c (tax_rate checker) (FractionalAsset.add act 0) stats q low)
      as (s & E & Hc & Hdb & Hact & Hst); try done.
    + by rewrite <- Ee in Hwf.
    + by rewrite <- Ee in Hsp.
    + exists s. split; [exact E|]. split; [|split; [done|split; [|done]]].
      * apply (cleared_book_same bv b1); try done; cbn [b1 set_committed_offers committed_offers];
          replace tr with (ot_perform_deletion (committed_offers bv) zero_key).1 by (by rewrite Ed).
        -- rewrite ot_delete_marked. set_solver.
        -- set_solver.
        -- rewrite ot_delete_rollback. assert (zero_key ∉ keys_of low); [|set_solver].
           rewrite dom_list_to_map_L, elem_of_list_to_set. rewrite app_nil_r in El. rewrite <- El.
           by apply (zero_key_fresh (book_category bv)), Hwf.
      * rewrite Hact, !FractionalAsset.add_mod. rewrite Z.add_0_r. apply Zplus_mod_idemp_l.
Qed.

(** ** What an accepted clearing did *)
Lemma entries_split (tr : TR) k o :
  ot_map tr !! k = Some o -> exists low rest, ot_entries tr = low ++ (k, o) :: rest.
Proof. intros Hk%entries_elem. by apply list_elem_of_split in Hk. Qed.

Lemma apply_clearing_clearable sp bp t l (q q0 q' : D * LG) :
  apply_clearing sp bp t l q0 = Ok q' -> (forall id, cdb_lookup_user q0.1 id = cdb_lookup_user q.1 id) ->
  Forall (fun p => clearable q.1 sp bp p.2) l.
Proof.
  intros [Hc _]%apply_clearing_Ok Hl. eapply Forall_impl; [exact Hc|]. unfold clearable. cbn beta. intros p.
  by rewrite Hl.
Qed.

Record accepted (bv : Book) (q : D * LG) c sp bp low partial rest r : Prop := {
  ac_commits : commits_to c partial r;
  ac_split : split_by (offers_endow low * 2 ^ 10 + r) (ot_entries (committed_offers bv)) low partial rest r;
  ac_clearable : Forall (fun p => clearable q.1 sp bp p.2) low;
  ac_partial k o : partial = Some (k, o) -> is_Some (cdb_lookup_user q.1 (owner o))
}.

Lemma accepted_everything (bv b1 : Book) q act stats sp bp c t s :
  ot_entries (committed_offers b1) = ot_entries (committed_offers bv) ->
  clear_everything (mkClearing b1 q act stats) sp bp c t = Ok (s, true) ->
  accepted bv q c sp bp (ot_entries (committed_offers bv)) None [] 0.
Proof.
  intros E Hrun. unfold clear_everything in Hrun. destruct (memcmp _ _) eqn:Ek; try done.
  destruct (Z.eqb_spec (partialExecOfferActivationAmount c) (FractionalAsset.from_integral 0)) as [Er|]; [|done].
  cbn [negb cl_book cl_db] in Hrun. apply result_bind_Ok in Hrun as (q1 & Ha & _). rewrite E in Ha. constructor.
  - split; [by apply memcmp_eq in Ek|exact Er].
  - constructor; [by rewrite !app_nil_r|done|done|done|done].
  - by eapply apply_clearing_clearable.
  - done.
Qed.

Lemma accepted_partial (bv : Book) q act stats sp bp c checker s k o low rest tr :
  let l := ot_entries (committed_offers bv) in
  offers_wf (book_category bv) l -> l = low ++ (k, o) :: rest ->
  tr = (ot_perform_deletion (committed_offers bv) k).1 ->
  partialExecThresholdKey c = k -> 0 <= partialExecOfferActivationAmount c < 2 ^ 73 ->
  clear_with_partial (mkClearing (set_committed_offers bv tr) q act stats) o (offers_endow low) sp bp c checker
    = Ok (s, true) ->
  accepted bv q c sp bp low (Some (k, o)) rest (partialExecOfferActivationAmount c).
Proof.
  intros l Hwf El -> Ek Hr Hrun. pose proof (offers_wf_positive _ _ Hwf) as Hb.
  destruct (offers_endow_bounds l low ((k, o) :: rest) Hb El) as [B1 B2]. rewrite El, offers_endow_app, offers_endow_cons in B2.
  assert (Hpos : Forall (fun p => 0 < amount p.2) (low ++ (k, o) :: rest)) by (rewrite <- El; apply Hb).
  pose proof Hpos as Hpos'. apply Forall_app in Hpos' as [_ [Ho Hrest]%Forall_cons]. cbn [snd] in Ho, B2.
  pose proof (offers_endow_nonneg _ Hrest).
  assert (Hpos2 : Forall (fun p => 0 < amount p.2) (low ++ rest)).
  { apply Forall_app in Hpos as [? _]. by apply Forall_app. }
  pose proof (entries_delete (committed_offers bv) k o low rest El) as E1.
  unfold clear_with_partial in Hrun. cbn [log_offer cl_db cl_book cl_activated cl_stats fst snd] in Hrun.
  destruct (cdb_lookup_user q.1 (owner o)) as [a|] eqn:Ea; [|done].
  apply result_bind_Ok in Hrun as (sp' & _ & Hrun). apply result_bind_Ok in Hrun as (bp' & _ & Hrun).
  rewrite (partial_payment_pay _ a) in Hrun by done.
  assert (Hc : 0 <= FractionalAsset.ceil (partialExecOfferActivationAmount c) <= 2 ^ 63).
  { rewrite FractionalAsset.ceil_spec by lia.
    pose proof (ceil_div_spec (partialExecOfferActivationAmount c) (2 ^ 10) ltac:(lia)). lia. }
  destruct (Z.ltb_spec (u64 (amount o)) (u64 (i64 (FractionalAsset.ceil (partialExecOfferActivationAmount c))))) as [|Hle];
    [done|].
  assert (Hfit : FractionalAsset.ceil (partialExecOfferActivationAmount c) <= amount o) by zlia.
  apply result_bind_Ok in Hrun as (b1 & (th1 & Eth1 & ->)%on_top_thunk_Ok & Hrun).
  cbn [set_committed_offers set_thunks committed_offers] in Hrun.
  pose proof (validation_split _ low rest E1 Hpos2) as Hsp.
  destruct (ot_endow_split _ (offers_endow low)) as [cleared kept]. destruct Hsp as [Ec _].
  apply result_bind_Ok in Hrun as (b2 & _ & Hrun). apply result_bind_Ok in Hrun as (q1 & Ha & _). rewrite Ec in Ha.
  constructor.
  - done.
  - constructor; [exact El|done|done|lia|]. intros ? ? [= <- <-]. rewrite FractionalAsset.ceil_spec in Hfit by lia.
    pose proof (ceil_div_spec (partialExecOfferActivationAmount c) (2 ^ 10) ltac:(lia)). lia.
  - eapply apply_clearing_clearable; [exact Ha|]. intros id. apply pay_lookup.
  - intros ? ? [= <- <-]. by rewrite Ea.
Qed.

(** Every accepted clearing fits [validation_spec]. *)
Lemma accepted_spec (bv : Book) (q : D * LG) act c checker stats s :
  offers_wf (book_category bv) (ot_entries (committed_offers bv)) ->
  0 <= partialExecOfferActivationAmount c < 2 ^ 73 ->
  tentative_clear_offers_for_validation bv q act c checker stats = Ok (s, true) ->
  exists sp bp low partial rest r,
    vec_at (prices checker) (sellAsset (book_category bv)) = Ok sp /\
    vec_at (prices checker) (buyAsset (book_category bv)) = Ok bp /\
    accepted bv q c sp bp low partial rest r.
Proof.
  intros Hwf Hr Hrun. pose proof (offers_wf_positive _ _ Hwf) as Hb.
  unfold tentative_clear_offers_for_validation in Hrun. set (k := partialExecThresholdKey c) in *.
  apply result_bind_Ok in Hrun as (sp & Esp & Hrun). apply result_bind_Ok in Hrun as (bp & Ebp & Hrun).
  pose proof (ot_delete_result (committed_offers bv) k) as Hdel.
  destruct (ot_perform_deletion (committed_offers bv) k) as [tr del] eqn:Ed. cbn [snd] in Hdel.
  assert (Etr : tr = (ot_perform_deletion (committed_offers bv) k).1) by (by rewrite Ed).
  exists sp, bp. destruct del as [o|].
  - symmetry in Hdel. destruct (entries_split _ _ _ Hdel) as (low & rest & El).
    exists low, (Some (k, o)), rest, (partialExecOfferActivationAmount c). split; [done|]. split; [done|].
    pose proof (ot_entries_sorted (committed_offers bv)) as Hs. pose proof (ot_entries_nodup (committed_offers bv)) as Hn.
    destruct (offers_endow_bounds _ low ((k, o) :: rest) Hb El) as [B1 B2].
    rewrite ot_endow_lt_entries in Hrun. rewrite El in Hs, Hn. rewrite El in Hrun.
    change (fun p : key * Offer => memcmp p.1 k = Lt) with (fun p : key * Offer => memcmp p.1 (k, o).1 = Lt) in Hrun.
    rewrite (filter_below low rest (k, o)), i64_id in Hrun by (done || unfold in_i64; lia).
    by eapply accepted_partial.
  - exists (ot_entries (committed_offers bv)), None, [], 0. split; [done|]. split; [done|].
    eapply (accepted_everything bv); [|exact Hrun]. cbn [set_committed_offers committed_offers].
    apply entries_ext. rewrite Etr, ot_delete_map. by apply delete_id.
Qed.
End Outcome.
