(* ===== verification/OrderbookProps.v ===== *)
(** * Orderbooks: producers, validators and rollback agree

    The account database under clearing (its payments commute), what undoing a
    thunk restores, and the properties of Orderbook.v: a validator accepts the
    commitment of a producer and reaches the same orderbook, and rolling a
    block back restores the orderbook before the block. *)
From stdpp Require Import base gmap list strings sorting.
From S2P Require Import Prelude Types PriceArith Asset SeqTracker Accounts AccountLmdb Database Offers Clearing Demand DbView SerialManager Orderbook.

(** ** Payments on the account database *)
Section MemoryPayments.
Context {T : Type} `{SequenceTrackerRefines T} {CT : Type} `{MerkleTrie AccountCommitment CT} {L : Type} `{LMDBInstance L}.
Abbreviation DB := (MemoryDatabase.t T CT L).
Implicit Types db : DB.

#[export] Instance db_equiv_equivalence : Equivalence (db_equiv (T := T) (TR := CT) (L := L)).
Proof.
  split.
  - intros db. by constructor.
  - intros db db' [E1 E2 E3 E4 E5 E6 E7]. by constructor.
  - intros d1 d2 d3 [A1 A2 A3 A4 A5 A6 A7] [B1 B2 B3 B4 B5 B6 B7]. constructor; try congruence.
    by transitivity (MemoryDatabase.database d2).
Qed.

Lemma set_database_equiv db db' xs ys :
  db_equiv db db' -> Forall2 (≡) xs ys ->
  db_equiv (MemoryDatabase.set_database db xs) (MemoryDatabase.set_database db' ys).
Proof. intros [] ?. by constructor. Qed.

Lemma transfer_swap (a : UserAccount.t T) k x k' x' :
  UserAccount.transfer_available (UserAccount.transfer_available a k x) k' x' ≡
  UserAccount.transfer_available (UserAccount.transfer_available a k' x') k x.
Proof.
  destruct (UserAccount.transfer_frame a k x) as (E1 & E2 & E3 & E4), (UserAccount.transfer_frame a k' x') as (F1 & F2 & F3 & F4).
  destruct (UserAccount.transfer_frame (UserAccount.transfer_available a k x) k' x') as (G1 & G2 & G3 & G4),
    (UserAccount.transfer_frame (UserAccount.transfer_available a k' x') k x) as (I1 & I2 & I3 & I4).
  apply UserAccount.equiv_intro; try congruence. intros n. rewrite !UserAccount.transfer_asset_of.
  generalize (Z.to_nat k) as p, (Z.to_nat k') as q. intros p q.
  repeat case_decide; subst; try done. unfold RevertableAsset.transfer_available. f_equal. cbn [RevertableAsset.available].
  rewrite !i64_add_l. f_equal. lia.
Qed.

#[export] Program Instance MemoryDatabase_payments : ClearingDBLaws DB := {
  cdb_equiv := db_equiv;
  cdb_equiv_equivalence := db_equiv_equivalence
}.
Next Obligation. done. Qed.
Next Obligation.
  intros db db' i k x E. apply set_database_equiv; [done|]. destruct E as [_ _ E _ _ _ _].
  apply Forall2_alter; [done|]. intros a b _ _ Hab. by rewrite Hab.
Qed.
Next Obligation.
  intros db i k x j k' x'. cbn [cdb_transfer_available MemoryDatabase_ClearingDB]. unfold MemoryDatabase.transfer_available.
  cbn [MemoryDatabase.database MemoryDatabase.set_database].
  apply (set_database_equiv db db); [reflexivity|]. destruct (decide (i = j)) as [->|Hne].
  - rewrite !alter_compose_list. apply Forall2_alter; [reflexivity|]. intros a b Ha Hb _.
    rewrite Ha in Hb. injection Hb as <-. apply transfer_swap.
  - rewrite list_alter_alter_ne by done. reflexivity.
Qed.
End MemoryPayments.

(** ** What undoing a thunk restores *)
Section Undo.
Context {TR : Type} `{OfferTrieIndex TR} `{BigEndian}.
Abbreviation Book := (Orderbook.t (TR := TR)).
Implicit Types (m : gmap key Offer) (tr : TR).

Lemma insert_all_spec tr (l : list (key * Offer)) :
  NoDup l.*1 -> (forall k, k ∈ l.*1 -> ot_map tr !! k = None) ->
  ot_map (insert_all tr l) = list_to_map l ∪ ot_map tr /\ ot_marked (insert_all tr l) = ot_marked tr /\
  ot_rollback (insert_all tr l) = ot_rollback tr.
Proof.
  revert tr. induction l as [|[k o] l IH]; intros tr Hn Hf; [split_and!; [cbn; by rewrite map_empty_union|done|done]|].
  cbn [fmap list_fmap fst] in Hn, Hf. apply NoDup_cons in Hn as [Hk Hn].
  assert (Hnone : ot_map tr !! k = None) by (apply Hf; by left).
  destruct (IH (ot_insert tr k o) Hn) as (E1 & E2 & E3).
  { intros k' Hk'. rewrite ot_insert_map, lookup_insert_ne by (by intros ->). apply Hf. by right. }
  unfold insert_all in *. cbn [foldl fst snd]. rewrite E1, E2, E3, ot_insert_map, ot_insert_marked, ot_insert_rollback by done.
  split; [|done]. cbn [list_to_map foldr uncurry fst snd].
  rewrite <- insert_union_r by (by apply not_elem_of_list_to_map). by rewrite insert_union_l.
Qed.

Definition keys_of_offers (l : list Offer) : gset key := list_to_set (Key.offer_key <$> l).

Lemma mark_all_spec tr (l : list Offer) :
  ot_map (mark_all tr l) = ot_map tr /\
  ot_marked (mark_all tr l) = ot_marked tr ∪ (keys_of_offers l ∩ dom (ot_map tr)).
Proof.
  revert tr. induction l as [|o l IH]; intros tr; [split; [done|]; unfold keys_of_offers; set_solver|].
  destruct (IH (ot_mark_for_deletion tr (Key.offer_key o)).1) as [E1 E2].
  unfold mark_all in *. cbn [foldl]. rewrite E1, E2, ot_mark_map, ot_mark_marked. split; [done|].
  unfold keys_of_offers. cbn [fmap list_fmap list_to_set].
  destruct (ot_map tr !! Key.offer_key o) eqn:Eo.
  - apply elem_of_dom_2 in Eo. set_solver.
  - apply not_elem_of_dom in Eo. set_solver.
Qed.

Definition put (partial : option (key * Offer)) m : gmap key Offer :=
  match partial with Some (k, o) => <[k := o]> m | None => m end.
Abbreviation without m ks := (filter (fun p => p.1 ∉ ks) m).

Lemma undo_thunk_spec (b : Book) th cleared partial r :
  ot_marked (committed_offers b) = ∅ -> ot_marked cleared = ∅ ->
  NoDup (deleted_keys th).*1 ->
  (forall k, k ∈ (deleted_keys th).*1 -> ot_map (committed_offers b) !! k = None) ->
  (list_to_map (deleted_keys th) ∪ ot_map (committed_offers b)) ##ₘ ot_map cleared ->
  exists b', undo_thunk b (thunk_after partial r cleared th) = Ok b' /\
    b' = set_committed_offers b (committed_offers b') /\
    ot_map (committed_offers b') =
      put partial (without (list_to_map (deleted_keys th) ∪ ot_map (committed_offers b) ∪ ot_map cleared)
        (keys_of_offers (uncommitted_offers_vec th))).
Proof.
  intros Mb Mc Hn Hf Hd. destruct (insert_all_spec (committed_offers b) (deleted_keys th) Hn Hf) as (E1 & E2 & _).
  unfold undo_thunk.
  assert (Ed : deleted_keys (thunk_after partial r cleared th) = deleted_keys th) by (by destruct partial as [[]|]).
  assert (Ec : cleared_offers (thunk_after partial r cleared th) = cleared) by (by destruct partial as [[]|]).
  assert (Ev : uncommitted_offers_vec (thunk_after partial r cleared th) = uncommitted_offers_vec th)
    by (by destruct partial as [[]|]).
  rewrite Ed, Ec, Ev. set (k0 := partial_exec_key _). set (t1 := insert_all _ _) in *.
  assert (Hdis : ot_map t1 ##ₘ ot_map (ot_clean_singlechild_nodes cleared k0)) by (by rewrite E1, ot_clean_map).
  set (t2 := ot_merge_in _ _).
  assert (F1 : ot_map t2 = list_to_map (deleted_keys th) ∪ ot_map (committed_offers b) ∪ ot_map cleared).
  { unfold t2. by rewrite ot_merge_map, E1, ot_clean_map. }
  assert (F2 : ot_marked t2 = ∅).
  { unfold t2. rewrite ot_merge_marked, E2, Mb, ot_clean_marked, Mc by done. set_solver. }
  destruct (mark_all_spec t2 (uncommitted_offers_vec th)) as [G1 G2].
  assert (Em : ot_map (ot_perform_marked_deletions (mark_all t2 (uncommitted_offers_vec th))).1 =
    without (ot_map t2) (keys_of_offers (uncommitted_offers_vec th))).
  { rewrite ot_deletions_map, G1, G2, F2, union_empty_l_L. apply map_filter_ext. intros k o Hk. cbn [fst].
    apply elem_of_dom_2 in Hk. set_solver. }
  rewrite F1 in Em. destruct partial as [[k o]|]; cbn; eexists; (split; [reflexivity|]); split; try done; cbn [put].
  cbn [set_committed_offers committed_offers]. by rewrite ot_insert_map, Em.
Qed.

Abbreviation map_of l := (list_to_map l : gmap key Offer).

(** The part of the book that is cleared and the part that stays. *)
Lemma clearing_partition l low partial rest r S :
  split_by S l low partial rest r -> NoDup l.*1 ->
  forall k, map_of l !! k =
    match partial with
    | Some (k', o) => if decide (k = k') then Some o else (map_of low ∪ map_of rest) !! k
    | None => (map_of low ∪ map_of rest) !! k
    end.
Proof.
  intros [-> Hnone _ _ _] Hn k. destruct partial as [[k' o]|]; cbn [option_list app] in *.
  - rewrite list_to_map_app. change (option_list (Some (k', o)) ++ rest) with ((k', o) :: rest) in *. rewrite list_to_map_cons. case_decide as Ek.
    + subst k. rewrite fmap_app in Hn. apply NoDup_app in Hn as (_ & Hd & _).
      rewrite lookup_union_r; [by rewrite lookup_insert_eq|]. apply not_elem_of_list_to_map. intros Hk.
      apply (Hd k' Hk). by left.
    + rewrite !lookup_union. by rewrite lookup_insert_ne.
  - destruct (Hnone eq_refl) as [-> _]. rewrite !app_nil_r, list_to_map_nil. by rewrite map_union_empty.
Qed.

Lemma book_after_lookup l low partial rest r S k :
  split_by S l low partial rest r -> NoDup l.*1 ->
  (forall o, partial <> Some (k, o)) ->
  (book_after partial rest r ∪ map_of low) !! k = map_of l !! k.
Proof.
  intros Hsp Hn Hne. rewrite (clearing_partition l low partial rest r S Hsp Hn k).
  assert (Hd : map_of low ##ₘ map_of rest).
  { destruct Hsp as [-> _ _ _ _]. rewrite fmap_app in Hn. apply NoDup_app in Hn as (_ & Hn & _).
    apply map_disjoint_spec. intros k' x y Hx Hy. apply elem_of_list_to_map_2 in Hx, Hy.
    apply (Hn k'); [by apply (list_elem_of_fmap_2 fst) in Hx|].
    rewrite fmap_app. apply elem_of_app. right. by apply (list_elem_of_fmap_2 fst) in Hy. }
  destruct partial as [[k' o]|]; cbn [book_after].
  - rewrite decide_False by (intros ->; by apply (Hne o)). rewrite (map_union_comm (map_of low)) by done.
    rewrite !lookup_union. f_equal. unfold left_over. destruct (0 <? _); [|done].
    rewrite lookup_insert_ne; [done|]. intros ->. by apply (Hne o).
  - destruct (sb_none _ _ _ _ _ _ Hsp eq_refl) as [-> _]. by rewrite list_to_map_nil, map_empty_union, map_union_empty.
Qed.

(** *** The thunk of a block *)

(** The offers the transactions of a block created, as the orderbook buffers
    them until the commit. *)
Record new_offers_ok (b : Book) : Prop := {
  no_keys k o : ot_map (uncommitted_offers b) !! k = Some o -> k = Key.offer_key o;
  no_fresh : ot_map (committed_offers b) ##ₘ ot_map (uncommitted_offers b);
  no_marks : ot_marked (uncommitted_offers b) = ∅
}.

Record committed_block (b b1 : Book) (blk : Z) (deleted : list (key * Offer)) : Prop := {
  ck_map : ot_map (committed_offers b1) =
    without (ot_map (committed_offers b)) (ot_marked (committed_offers b)) ∪ ot_map (uncommitted_offers b);
  ck_marked : ot_marked (committed_offers b1) = ∅;
  ck_rollback : ot_rollback (committed_offers b1) =
    ot_rollback (committed_offers b) ∖ ot_marked (committed_offers b) ∪ ot_rollback (uncommitted_offers b);
  ck_deleted : deleted ≡ₚ
    map_to_list (filter (fun p => p.1 ∈ ot_marked (committed_offers b)) (ot_map (committed_offers b)));
  ck_thunks : thunks b1 = thunks b ++
    [set_committed_block (snd <$> ot_entries (uncommitted_offers b)) deleted (new_thunk blk)];
  ck_uncommitted : uncommitted_offers b1 = ot_empty;
  ck_category : book_category b1 = book_category b;
  ck_persisted : persisted_round_number b1 = persisted_round_number b
}.

Lemma tentative_commit_spec (b b1 : Book) blk :
  new_offers_ok b -> tentative_commit_for_validation b blk = Ok b1 -> exists deleted, committed_block b b1 blk deleted.
Proof.
  intros [_ Hf Hm] Hrun. unfold tentative_commit_for_validation, add_new_thunk in Hrun.
  destruct (match last (thunks b) with Some th => _ | None => false end); [done|]. cbn [result_bind] in Hrun.
  cbn [set_thunks committed_offers] in Hrun.
  pose proof (ot_deletions_map (committed_offers b)) as D1. pose proof (ot_deletions_marked (committed_offers b)) as D2.
  pose proof (ot_deletions_rollback (committed_offers b)) as D3. pose proof (ot_deletions_list (committed_offers b)) as D4.
  destruct (ot_perform_marked_deletions (committed_offers b)) as [tr deleted]. cbn [fst snd] in D1, D2, D3, D4.
  unfold on_top_thunk in Hrun. cbn [thunks set_thunks] in Hrun. rewrite last_snoc, List.removelast_last in Hrun.
  injection Hrun as <-. exists deleted.
  assert (Hd : ot_map tr ##ₘ ot_map (uncommitted_offers b)).
  { rewrite D1. eapply map_disjoint_weaken_l; [exact Hf|apply map_filter_subseteq]. }
  constructor; cbn [committed_offers uncommitted_offers thunks set_uncommitted_offers set_committed_offers set_thunks
    book_category persisted_round_number]; try done.
  - by rewrite ot_merge_map, D1.
  - rewrite ot_merge_marked, D2, Hm by done. set_solver.
  - by rewrite ot_merge_rollback, D3.
Qed.

Lemma keys_of_new_offers (tr : TR) :
  (forall k o, ot_map tr !! k = Some o -> k = Key.offer_key o) ->
  keys_of_offers (snd <$> ot_entries tr) = dom (ot_map tr).
Proof.
  intros Hk. apply set_eq. intros k. unfold keys_of_offers. rewrite elem_of_list_to_set. split.
  - intros (o & -> & ([k' o'] & -> & Hp)%list_elem_of_fmap)%list_elem_of_fmap. apply entries_elem in Hp. cbn [snd].
    rewrite <- (Hk _ _ Hp). by eapply elem_of_dom_2.
  - intros [o Ho]%elem_of_dom. rewrite (Hk _ _ Ho). apply list_elem_of_fmap_2. apply entries_elem in Ho.
    by apply (list_elem_of_fmap_2 snd) in Ho.
Qed.

Lemma deleted_nodup b b1 blk deleted : committed_block b b1 blk deleted -> NoDup deleted.*1.
Proof. intros C. rewrite (ck_deleted _ _ _ _ C). apply NoDup_fst_map_to_list. Qed.

Lemma deleted_lookup b b1 blk deleted k :
  committed_block b b1 blk deleted ->
  map_of deleted !! k = if decide (k ∈ ot_marked (committed_offers b)) then ot_map (committed_offers b) !! k else None.
Proof.
  intros C. rewrite (list_to_map_proper (M := gmap key) _ _ (deleted_nodup _ _ _ _ C) (ck_deleted _ _ _ _ C)), list_to_map_to_list.
  destruct (decide _) as [Hk|Hk].
  - destruct (ot_map (committed_offers b) !! k) as [o|] eqn:E.
    + by apply map_lookup_filter_Some_2.
    + apply map_lookup_filter_None_2. by left.
  - apply map_lookup_filter_None_2. right. intros o _. exact Hk.
Qed.

(** *** The clearing splits the book *)
Lemma clearing_keys l low partial rest r S k :
  split_by S l low partial rest r -> NoDup l.*1 ->
  (is_Some (book_after partial rest r !! k) -> k ∈ l.*1 /\ k ∉ low.*1) /\ (k ∈ low.*1 -> k ∈ l.*1).
Proof.
  intros [-> _ _ _ _] Hn. rewrite !fmap_app in *. apply NoDup_app in Hn as (_ & Hd & _). split.
  - intros Hk. assert (Hin : k ∈ (option_list partial).*1 ++ rest.*1).
    { destruct partial as [[k' o]|]; [|by destruct Hk]. cbn [book_after] in Hk. unfold left_over in Hk.
      destruct (decide (k = k')) as [->|Hne]; [by left|]. right.
      assert (Hr : is_Some (map_of rest !! k)) by (destruct (0 <? _); by rewrite ?lookup_insert_ne in Hk).
      destruct Hr as [o' Ho']. apply elem_of_list_to_map_2 in Ho'. by apply (list_elem_of_fmap_2 fst) in Ho'. }
    split; [apply elem_of_app; by right|]. intros Hl. by apply (Hd k).
  - intros Hk. apply elem_of_app. by left.
Qed.

Lemma map_of_lookup l k : k ∈ l.*1 <-> is_Some (map_of l !! k).
Proof.
  split; [|intros [o Ho]; apply elem_of_list_to_map_2 in Ho; by apply (list_elem_of_fmap_2 fst) in Ho].
  intros Hk. destruct (map_of l !! k) eqn:E; [done|]. by apply not_elem_of_list_to_map in E.
Qed.

Section Block.
Variables (b b1 : Book) (blk S r : Z) (deleted low rest : list (key * Offer)) (partial : option (key * Offer)).
Hypothesis Hnew : new_offers_ok b.
Hypothesis Hcommit : committed_block b b1 blk deleted.
Hypothesis Hsplit : split_by S (ot_entries (committed_offers b1)) low partial rest r.
Hypothesis Hold : forall k o, partial = Some (k, o) -> ot_map (uncommitted_offers b) !! k = None.
Let before := ot_map (committed_offers b).
Let created := ot_map (uncommitted_offers b).
Let after := book_after partial rest r.

Lemma committed_lookup k :
  ot_map (committed_offers b1) !! k =
    match created !! k with
    | Some o => Some o
    | None => if decide (k ∈ ot_marked (committed_offers b)) then None else before !! k
    end.
Proof using Hnew Hcommit.
  rewrite (ck_map _ _ _ _ Hcommit). unfold created, before.
  destruct (ot_map (uncommitted_offers b) !! k) as [o|] eqn:E.
  - rewrite lookup_union_r; [done|]. apply map_lookup_filter_None_2. left.
    by apply (map_disjoint_Some_r _ _ _ _ (no_fresh _ Hnew) E).
  - rewrite lookup_union_l by done. destruct (decide _) as [Hk|Hk].
    + apply map_lookup_filter_None_2. right. intros o _. cbn [fst]. tauto.
    + destruct (ot_map (committed_offers b) !! k) eqn:E2; [by apply map_lookup_filter_Some_2|].
      apply map_lookup_filter_None_2. by left.
Qed.

Lemma block_lookup k : (forall o, partial <> Some (k, o)) ->
  (map_of deleted ∪ after ∪ map_of low) !! k = match created !! k with Some o => Some o | None => before !! k end.
Proof using Hnew Hcommit Hsplit.
  intros Hne. rewrite <- (map_union_assoc (map_of deleted)), lookup_union. unfold after.
  rewrite (book_after_lookup _ _ _ _ _ _ _ Hsplit (ot_entries_nodup _) Hne), <- map_entries.
  rewrite committed_lookup, (deleted_lookup _ _ _ _ _ Hcommit). fold before.
  destruct (created !! k) as [o|] eqn:E; [|by case_decide; destruct (before !! k)].
  unfold before. rewrite (map_disjoint_Some_r _ _ _ _ (no_fresh _ Hnew) E). by case_decide.
Qed.

Lemma partial_before k o : partial = Some (k, o) -> before !! k = Some o.
Proof using Hnew Hcommit Hsplit Hold.
  intros Ep. pose proof (clearing_partition _ _ _ _ _ _ Hsplit (ot_entries_nodup _) k) as E.
  rewrite Ep, decide_True, <- map_entries, committed_lookup in E by done. unfold created in E. rewrite (Hold k o Ep) in E.
  by case_decide.
Qed.

Lemma deleted_absent k : k ∈ deleted.*1 -> k ∉ (ot_entries (committed_offers b1)).*1.
Proof using Hnew Hcommit.
  intros Hk. rewrite !map_of_lookup in *. rewrite (deleted_lookup _ _ _ _ _ Hcommit) in Hk.
  rewrite <- map_entries, committed_lookup.
  destruct (decide (k ∈ ot_marked (committed_offers b))) as [Hm|Hm]; [|by destruct Hk]. destruct Hk as [o Ho].
  unfold created. rewrite (map_disjoint_Some_l _ _ _ _ (no_fresh _ Hnew) Ho). by intros [? ?].
Qed.

Lemma put_restores (m : gmap key Offer) :
  (forall k, (forall o, partial <> Some (k, o)) -> m !! k = before !! k) -> put partial m = before.
Proof using Hnew Hcommit Hsplit Hold.
  intros Hm. apply map_eq. intros k. destruct (decide ((fst <$> partial) = Some k)) as [Ep|Hne].
  - apply fmap_Some in Ep as ([k' o] & E & Ek). cbn [fst] in Ek. subst k'. rewrite (partial_before k o E), E.
    cbn [put]. apply lookup_insert_eq.
  - assert (Hne' : forall o, partial <> Some (k, o)) by (intros o E; by rewrite E in Hne).
    rewrite <- (Hm k Hne'). destruct partial as [[k' o]|]; [|done]. cbn [put]. apply lookup_insert_ne.
    intros ->. by apply (Hne' o).
Qed.

(** Production: the created offers are deleted by their keys. *)
Lemma production_undone : put partial (without (map_of deleted ∪ after ∪ map_of low) (dom created)) = before.
Proof using Hnew Hcommit Hsplit Hold.
  apply put_restores. intros k Hne. pose proof (block_lookup k Hne) as Hb.
  destruct (created !! k) as [o|] eqn:E.
  - assert (Hk : k ∈ dom created) by (by eapply elem_of_dom_2).
    unfold before. rewrite (map_disjoint_Some_r _ _ _ _ (no_fresh _ Hnew) E).
    apply map_lookup_filter_None_2. right. intros o' _. cbn [fst]. tauto.
  - assert (Hk : k ∉ dom created) by (by apply not_elem_of_dom). rewrite <- Hb.
    destruct ((map_of deleted ∪ after ∪ map_of low) !! k) eqn:E2; [by apply map_lookup_filter_Some_2|].
    apply map_lookup_filter_None_2. by left.
Qed.

(** Validation: they are removed by their rollback marks, before the cleared
    offers come back. *)
Lemma validation_undone :
  (forall k, created !! k <> None -> k ∉ low.*1) ->
  put partial (map_of deleted ∪ without after (dom created ∩ dom (map_of rest)) ∪ map_of low) = before.
Proof using Hnew Hcommit Hsplit Hold.
  intros Hlow. apply put_restores. intros k Hne. pose proof (block_lookup k Hne) as Hb.
  destruct (created !! k) as [o|] eqn:E.
  - unfold before. rewrite (map_disjoint_Some_r _ _ _ _ (no_fresh _ Hnew) E).
    rewrite !lookup_union, (deleted_lookup _ _ _ _ _ Hcommit), (map_disjoint_Some_r _ _ _ _ (no_fresh _ Hnew) E).
    assert (E1 : map_of low !! k = None) by (apply not_elem_of_list_to_map, Hlow; by rewrite E).
    assert (E2 : without after (dom created ∩ dom (map_of rest)) !! k = None).
    { apply map_lookup_filter_None_2. destruct (after !! k) as [o'|] eqn:Ea; [right|by left].
      intros o2 _. cbn [fst]. intros Hk. apply Hk, elem_of_intersection. split; [by eapply elem_of_dom_2|].
      apply elem_of_dom. unfold after in Ea. destruct partial as [[k' o3]|]; [|done]. cbn [book_after] in Ea.
      unfold left_over in Ea. destruct (0 <? _); [|done]. rewrite lookup_insert_ne in Ea; [done|].
      intros ->. by apply (Hne o3). }
    rewrite E1, E2. by case_decide.
  - assert (Ef : without after (dom created ∩ dom (map_of rest)) !! k = after !! k).
    { destruct (after !! k) as [o'|] eqn:Ea; [|by apply map_lookup_filter_None_2; left].
      apply map_lookup_filter_Some_2; [done|]. cbn [fst]. rewrite elem_of_intersection, elem_of_dom, E. by intros [[] _]. }
    by rewrite <- Hb, !lookup_union, Ef.
Qed.
End Block.

(** *** Undoing the thunk of a block, whatever was removed from it first *)
Lemma undo_block (b b1 b2 : Book) (blk S r : Z) (deleted low rest : list (key * Offer)) (partial : option (key * Offer)) (cleared tr : TR) (th : Thunk (TR := TR)) (X : gset key) :
  new_offers_ok b -> committed_block b b1 blk deleted ->
  split_by S (ot_entries (committed_offers b1)) low partial rest r ->
  ot_marked tr = ∅ -> ot_map tr = without (book_after partial rest r) X ->
  ot_entries cleared = low -> ot_marked cleared = ∅ -> deleted_keys th = deleted ->
  exists b', undo_thunk (set_committed_offers b2 tr) (thunk_after partial r cleared th) = Ok b' /\
    b' = set_committed_offers b2 (committed_offers b') /\
    ot_map (committed_offers b') =
      put partial (without (map_of deleted ∪ without (book_after partial rest r) X ∪ map_of low)
        (keys_of_offers (uncommitted_offers_vec th))).
Proof.
  intros Hnew Hck Hsp Mt Et Ec Mc <-. pose proof (ot_entries_nodup (committed_offers b1)) as Hn.
  assert (Hsub : forall k, is_Some (without (book_after partial rest r) X !! k) -> is_Some (book_after partial rest r !! k)).
  { intros k [o Ho]. apply map_lookup_filter_Some in Ho as [Ho _]. by exists o. }
  destruct (undo_thunk_spec (set_committed_offers b2 tr) th cleared partial r) as (b' & E & Eb & Em);
    cbn [set_committed_offers committed_offers] in *; rewrite ?Et; try done.
  - by eapply deleted_nodup.
  - intros k Hk. destruct (without (book_after partial rest r) X !! k) eqn:Ek; [|done]. exfalso.
    eapply (deleted_absent b b1); [done|done|exact Hk|].
    destruct (clearing_keys _ _ _ _ _ _ k Hsp Hn) as [Hc _]. apply Hc, Hsub. by rewrite Ek.
  - rewrite map_entries, Ec. apply map_disjoint_spec. intros k x y Hx Hy. apply lookup_union_Some_raw in Hx.
    assert (Hl : k ∈ low.*1) by (apply map_of_lookup; by exists y).
    destruct Hx as [Hx|[_ Hx]].
    + eapply (deleted_absent b b1); [done|done|apply map_of_lookup; by exists x|].
      destruct (clearing_keys _ _ _ _ _ _ k Hsp Hn) as [_ Hc]. by apply Hc.
    + destruct (clearing_keys _ _ _ _ _ _ k Hsp Hn) as [Hc _]. destruct Hc as [_ Hc]; [|by apply Hc].
      apply Hsub. by exists x.
  - exists b'. rewrite Et in Em. rewrite (map_entries cleared), Ec in Em. done.
Qed.

Lemma rollback_thunks_keep (b : Book) cur (kept l l' : list (Thunk (TR := TR))) :
  Forall (fun th : Thunk (TR := TR) => current_block_number th <= cur) l ->
  rollback_thunks_loop b cur kept (l ++ l') = rollback_thunks_loop b cur (kept ++ l) l'.
Proof.
  intros Hl. revert kept. induction Hl as [|th l Hth Hl IH]; intros kept; [by rewrite app_nil_r|].
  cbn [app rollback_thunks_loop]. destruct (Z.ltb_spec cur (current_block_number th)); [lia|].
  by rewrite IH, <- app_assoc.
Qed.
End Undo.

(** ** Payments in any order *)
Section AnyOrder.
Context {D : Type} `{ClearingDBLaws D}.

#[export] Instance same_users_equivalence : Equivalence (same_users (D := D)).
Proof.
  split.
  - intros d. by split.
  - intros d d' [E1 E2]. by split.
  - intros d1 d2 d3 [A1 A2] [B1 B2]. split; [by transitivity d2|]. intros id. by rewrite A2.
Qed.

Lemma pays_perm (d : D) l l' : l ≡ₚ l' -> same_users (foldl pay d l) (foldl pay d l').
Proof.
  intros Hp. revert d. induction Hp as [|p l l' _ IH|p p' l|l1 l2 l3 _ IH1 _ IH2]; intros d; cbn [foldl].
  - reflexivity.
  - apply IH.
  - apply pays_proper. split; [apply pay_comm|]. intros id. by rewrite !pay_lookup.
  - etransitivity; [apply IH1|apply IH2].
Qed.
End AnyOrder.

Lemma sorted_filter (l : list (key * Offer)) (P : key * Offer -> Prop) `{!forall p, Decision (P p)} :
  StronglySorted key_le l -> StronglySorted key_le (filter P l).
Proof.
  induction 1 as [|p l _ IH Hp]; [constructor|]. rewrite filter_cons. destruct (decide (P p)); [|exact IH].
  constructor; [exact IH|]. apply Forall_forall. intros q [_ Hq]%list_elem_of_filter.
  rewrite Forall_forall in Hp. by apply Hp.
Qed.

Lemma filter_keep {A} (P : A -> Prop) `{!forall x, Decision (P x)} (l : list A) :
  (forall x, x ∈ l -> P x) -> filter P l = l.
Proof.
  induction l as [|x l IH]; intros Hl; [done|]. rewrite filter_cons, decide_True by (apply Hl; by left).
  f_equal. apply IH. intros y Hy. apply Hl. by right.
Qed.

(** ** A producer and a validator *)
Section Validators.
Context {TR : Type} `{OfferTrieIndex TR} `{BigEndian}.
Abbreviation Book := (Orderbook.t (TR := TR)).

(** What a validator's orderbook is to a producer's: the offers [new] the block
    created below the threshold key cleared while its transactions were
    validated, and never entered the validator's orderbook. *)
Record validator_book (b bv : Book) (c : SingleOrderbookStateCommitment) (new : list (key * Offer)) : Prop := {
  vb_new p : p ∈ new -> ot_map (committed_offers b) !! p.1 = Some p.2 /\
    (thresholdKeyIsNull c = 1 \/ memcmp (partialExecThresholdKey c) p.1 = Gt);
  vb_nodup : NoDup new.*1;
  vb_map : ot_map (committed_offers bv) =
    filter (fun p => p.1 ∉ new.*1) (ot_map (committed_offers b));
  vb_category : book_category bv = book_category b;
  vb_thunks : thunks bv <> []
}.

Lemma validator_entries b bv c new : validator_book b bv c new ->
  ot_entries (committed_offers bv) = filter (fun p => p.1 ∉ new.*1) (ot_entries (committed_offers b)).
Proof.
  intros V. apply sorted_entries_eq; [apply ot_entries_sorted|apply sorted_filter, ot_entries_sorted|apply ot_entries_nodup|].
  apply NoDup_Permutation.
  - apply (NoDup_fmap_1 fst), ot_entries_nodup.
  - apply NoDup_filter, (NoDup_fmap_1 fst), ot_entries_nodup.
  - intros [k o]. rewrite entries_elem, (vb_map _ _ _ _ V), list_elem_of_filter, entries_elem, map_lookup_filter_Some.
    cbn [fst]. tauto.
Qed.

(** The offers cleared at once are a part of those the producer clears. *)
Lemma validator_split b bv c new S low partial rest r :
  validator_book b bv c new -> split_by S (ot_entries (committed_offers b)) low partial rest r ->
  partialExecThresholdKey c = match partial with Some (k, _) => k | None => zero_key end ->
  (thresholdKeyIsNull c = 1 -> partial = None) ->
  low ≡ₚ new ++ filter (fun p => p.1 ∉ new.*1) low /\
  split_by (offers_endow (filter (fun p => p.1 ∉ new.*1) low) * 2 ^ 10 + r) (ot_entries (committed_offers bv))
    (filter (fun p => p.1 ∉ new.*1) low) partial rest r.
Proof.
  intros V Hsp Ethr Hnull. pose proof Hsp as [El Hnone _ Hr Hfit].
  pose proof (ot_entries_sorted (committed_offers b)) as Hs. pose proof (ot_entries_nodup (committed_offers b)) as Hn.
  assert (Hlow : forall p, p ∈ new -> p ∈ low).
  { intros p Hp. destruct (vb_new _ _ _ _ V p Hp) as [Hin Hbelow]. destruct p as [k o]. cbn [fst snd] in *.
    apply entries_elem in Hin. rewrite El in Hin, Hs, Hn. destruct partial as [[k' o']|]; cbn [option_list app] in *.
    - destruct Hbelow as [Hc|Hlt]; [by apply Hnull in Hc|]. rewrite Ethr in Hlt.
      apply elem_of_app in Hin as [|Hin]; [done|]. exfalso.
      assert (Hle : key_le (k', o') (k, o)).
      { apply elem_of_cons in Hin as [[= -> ->]|Hin]; [unfold key_le; by rewrite (proj2 (memcmp_eq _ _) eq_refl)|].
        apply (StronglySorted_app_1_r key_le) in Hs. inversion_clear Hs as [|? ? _ Hall].
        rewrite Forall_forall in Hall. by apply Hall. }
      by apply Hle.
    - destruct (Hnone eq_refl) as [-> _]. by rewrite !app_nil_r in Hin. }
  assert (Hndl : NoDup low) by (rewrite El in Hn; apply (NoDup_fmap_1 fst) in Hn; by apply NoDup_app in Hn as (? & _)).
  assert (Hnew : NoDup new) by (apply (NoDup_fmap_1 fst), (vb_nodup _ _ _ _ V)).
  assert (Hkey : forall p, p ∈ ot_entries (committed_offers b) -> p.1 ∈ new.*1 -> p ∈ new).
  { intros [k o] Hp ([k' o'] & Ek & Hq)%list_elem_of_fmap. cbn [fst] in Ek. subst k'.
    destruct (vb_new _ _ _ _ V _ Hq) as [Hin _]. cbn [fst snd] in Hin. apply entries_elem in Hp. congruence. }
  assert (Hperm : low ≡ₚ new ++ filter (fun p => p.1 ∉ new.*1) low).
  { apply NoDup_Permutation; [done| |].
    - apply NoDup_app. split; [done|]. split; [|by apply NoDup_filter].
      intros p Hp [Hk _]%list_elem_of_filter. by apply Hk, list_elem_of_fmap_2.
    - intros p. rewrite elem_of_app, list_elem_of_filter. split.
      + intros Hp. destruct (decide (p.1 ∈ new.*1)) as [Hk|Hk]; [left|by right].
        apply Hkey; [|done]. rewrite El. apply elem_of_app. by left.
      + intros [Hp|[_ Hp]]; [by apply Hlow|done]. }
  split; [done|]. constructor; [|done|done|done|done].
  rewrite (validator_entries _ _ _ _ V), El, !filter_app. f_equal.
  rewrite <- filter_app. apply filter_keep.
  intros p Hp Hk. assert (Hp' : p ∈ new) by (apply Hkey; [rewrite El; apply elem_of_app; by right|done]).
  apply Hlow in Hp'. rewrite El in Hn. apply (NoDup_fmap_1 fst), NoDup_app in Hn as (_ & Hd & _). by apply (Hd p).
Qed.

(** One orderbook cleared by a producer and by a validator. *)
Context {D : Type} `{ClearingDBLaws D} {LG : Type} `{SerialAccountModificationLog LG}.

Lemma partial_pays_list (d : D) sp bp t r (partial : option (key * Offer)) :
  partial_pays d sp bp t r partial =
  foldl pay d (option_list ((fun p => partial_payment sp bp t r p.2) <$> partial)).
Proof. by destruct partial as [[k o]|]. Qed.

(** The payments of an orderbook that is cleared. *)
Definition book_pays (sp bp t : Z) (low : list (key * Offer)) (partial : option (key * Offer)) (r : Z) : list payment :=
  full_payments sp bp t low ++ option_list ((fun p => partial_payment sp bp t r p.2) <$> partial).

Lemma production_pays (b b' : Book) S sp bp t (q q' : D * LG) c c' stats stats' low partial rest r :
  production b b' S sp bp t q q' c c' stats stats' low partial rest r -> q'.1 = foldl pay q.1 (book_pays sp bp t low partial r).
Proof. intros P. by rewrite (po_db _ _ _ _ _ _ _ _ _ _ _ _ _ _ _ _ P), partial_pays_list, <- foldl_app. Qed.

Lemma commitment_after_null c S partial r : thresholdKeyIsNull (commitment_after c S partial r) = 1 -> partial = None.
Proof. by destruct partial as [[]|]. Qed.

Lemma commitment_after_key c S (l : list (key * Offer)) cat low partial rest r :
  Forall (offer_wf cat) l -> split_by S l low partial rest r -> check_threshold_key (commitment_after c S partial r) = true.
Proof.
  intros Hwf [El _ _ _ _]. unfold check_threshold_key.
  destruct partial as [[k o]|]; cbn [commitment_after partialExecThresholdKey write_threshold thresholdKeyIsNull]; [|reflexivity].
  assert (Hk : memcmp k zero_key = Gt).
  { apply (offer_key_positive cat (k, o)). rewrite Forall_forall in Hwf. apply Hwf. rewrite El. set_solver. }
  by rewrite memcmp_opp, Hk.
Qed.

(** A validator's run on one orderbook, for any account database that knows the
    same accounts: accepted, with offers [om] left and payments [pv] made. *)
Definition accepts (checker : OrderbookStateCommitmentChecker) (d : D) (bv : Orderbook.t) (act : Z)
    (c : SingleOrderbookStateCommitment) (om : gmap key Offer) (pv : list payment) : Prop :=
  forall (qv : D * LG) statsv, (forall id, cdb_lookup_user qv.1 id = cdb_lookup_user d id) ->
  exists s, tentative_clear_offers_for_validation bv qv act c checker statsv = Ok (s, true) /\
    ot_map (committed_offers (cl_book s)) = om /\ (cl_db s).1 = foldl pay qv.1 pv /\
    FractionalAsset.add (cl_activated s) (partialExecOfferActivationAmount c) = fractionalSupplyActivated c.

Lemma validator_clears (b b' bv : Book) S sp bp prices t (q q' : D * LG) c c' stats stats' low partial rest r new
    (checker : OrderbookStateCommitmentChecker) :
  offers_wf (book_category b) (ot_entries (committed_offers b)) -> in_u128 S ->
  production b b' S sp bp t q q' c c' stats stats' low partial rest r -> validator_book b bv c' new ->
  Clearing.prices checker = prices -> Clearing.tax_rate checker = t ->
  vec_at prices (sellAsset (book_category b)) = Ok sp -> vec_at prices (buyAsset (book_category b)) = Ok bp ->
  exists pv, book_pays sp bp t low partial r ≡ₚ full_payments sp bp t new ++ pv /\ check_threshold_key c' = true /\
    accepts checker q.1 bv (FractionalAsset.from_integral (offers_endow new)) c' (ot_map (committed_offers b')) pv.
Proof.
  intros Hwf HS [Hsp Hcl Hpart Hdb Hbook -> Hst] V Ep Et Esp Ebp. pose proof (offers_wf_positive _ _ Hwf) as Hb.
  pose proof Hsp as [El Hnone ES Hr Hfit]. destruct (offers_endow_bounds _ low (option_list partial ++ rest) Hb El) as [Blow Bl].
  assert (Hr128 : in_u128 r) by (unfold in_u128 in *; lia).
  destruct (validator_split b bv _ new S low partial rest r V Hsp) as [Hperm Hspv];
    [by destruct partial as [[]|]|apply commitment_after_null|].
  set (lowv := filter _ low) in *.
  assert (Hendow : offers_endow low = offers_endow new + offers_endow lowv).
  { unfold offers_endow. rewrite (sum_by_Permutation _ _ _ Hperm). apply sum_by_app. }
  destruct (last (thunks bv)) as [th|] eqn:Eth; [|by apply last_None in Eth; destruct (vb_thunks _ _ _ _ V)].
  assert (Hsub : forall P : key * Offer -> Prop, Forall P low -> Forall P new /\ Forall P lowv).
  { intros P HP. rewrite Hperm in HP. by apply Forall_app in HP. }
  assert (Hwfv : offers_wf (book_category bv) (ot_entries (committed_offers bv))).
  { rewrite (vb_category _ _ _ _ V). destruct Hwf as [Hwf Hlt]. split.
    - rewrite (validator_entries _ _ _ _ V). apply Forall_forall. intros p [_ Hp]%list_elem_of_filter.
      rewrite Forall_forall in Hwf. by apply Hwf.
    - rewrite El, !offers_endow_app in Hlt. rewrite (sb_entries _ _ _ _ _ _ Hspv), !offers_endow_app.
      destruct Hb as [Hpos _]. rewrite El in Hpos. apply Forall_app in Hpos as [Hpos _].
      pose proof (offers_endow_nonneg _ (proj1 (Hsub _ Hpos))). lia. }
  assert (Hpos : 0 <= offers_endow new /\ 0 <= offers_endow lowv).
  { destruct Hb as [Hpos _]. rewrite El in Hpos. apply Forall_app in Hpos as [Hpos _].
    split; apply offers_endow_nonneg, (Hsub _ Hpos). }
  exists (option_list ((fun p => partial_payment sp bp t r p.2) <$> partial) ++ full_payments sp bp t lowv).
  split; [|split; [by eapply commitment_after_key; [apply Hwf|exact Hsp]|]].
  { unfold book_pays, full_payments. rewrite Hperm, fmap_app, <- app_assoc. apply Permutation_app_head, Permutation_app_comm. }
  intros qv statsv Hl.
  destruct (validation_spec bv th _ sp bp (commitment_after c S partial r) (FractionalAsset.from_integral (offers_endow new))
    statsv qv lowv partial rest r checker (commitment_after_commits c S partial r Hr128) Hwfv Hspv)
    as (s & Hs & Hbv & Edb & Eact & _); rewrite ?(vb_category _ _ _ _ V), ?Ep; try done.
  { eapply Forall_impl; [exact (proj2 (Hsub _ Hcl))|]. unfold clearable. cbn beta. intros p. by rewrite Hl. }
  { intros k o Ek. rewrite Hl. by apply (Hpart k). }
  exists s. split; [exact Hs|]. split; [by rewrite (cb_map _ _ _ _ _ _ Hbook), (cb_map _ _ _ _ _ _ Hbv)|].
  split; [by rewrite Edb, partial_pays_list, foldl_app, Et|].
  rewrite Eact, commitment_amount, commitment_supply, !FractionalAsset.from_integral_id by (done || lia).
  unfold in_u128 in *. rewrite (FractionalAsset.add_id (offers_endow new * 2 ^ 10)) by lia.
  rewrite FractionalAsset.add_id by lia. lia.
Qed.
End Validators.

(** ** A producer and a validator *)
Module OrderbookProps.
Section Agreement.
Context {TR : Type} `{OfferTrieIndex TR} `{BigEndian} {D : Type} `{ClearingDBLaws D}
  {LG : Type} `{SerialAccountModificationLog LG}.
Abbreviation Book := (Orderbook.t (TR := TR)).

(** C20: what a producer commits to, a validator accepts.  Let
    [process_clear_offers] clear an orderbook for the supply [S].  A validator
    cleared the created offers below the threshold key while it validated their
    transactions: they are not in its orderbook, their owners were paid, and the
    activated supply counts them.  Then the validator accepts the commitment the
    producer wrote and ends with the same offers, the same account database
    (although the payments came in another order), and statistics that pass
    [check_stats]. *)
Theorem validator_accepts_production (b bv b' : Book) S prices t sp bp (q q' qv : D * LG) c c' stats stats' statsv new
    (checker : OrderbookStateCommitmentChecker) :
  offers_wf (book_category b) (ot_entries (committed_offers b)) -> in_u128 S ->
  process_clear_offers b (mkOrderbookClearingParams S) prices t q c stats = Ok (b', q', c', stats') ->
  vec_at prices (sellAsset (book_category b)) = Ok sp -> vec_at prices (buyAsset (book_category b)) = Ok bp ->
  validator_book b bv c' new -> same_users qv.1 (foldl pay q.1 (full_payments sp bp t new)) ->
  Clearing.prices checker = prices -> Clearing.tax_rate checker = t ->
  exists s, tentative_clear_offers_for_validation bv qv (FractionalAsset.from_integral (offers_endow new)) c' checker
      statsv = Ok (s, true) /\
    ot_map (committed_offers (cl_book s)) = ot_map (committed_offers b') /\
    same_users (cl_db s).1 q'.1 /\
    FractionalAsset.add (cl_activated s) (partialExecOfferActivationAmount c') = fractionalSupplyActivated c' /\
    check_threshold_key c' = true.
Proof.
  intros Hwf HS Hrun Esp Ebp V Hq Ep Et.
  destruct (production_spec b b' S prices t q q' c c' stats stats' (offers_wf_positive _ _ Hwf) HS Hrun)
    as (sp' & bp' & low & partial & rest & r & Esp' & Ebp' & Hpr).
  rewrite Esp in Esp'. rewrite Ebp in Ebp'. injection Esp' as <-. injection Ebp' as <-.
  destruct (validator_clears b b' bv S sp bp prices t q q' c c' stats stats' low partial rest r new checker
    Hwf HS Hpr V Ep Et Esp Ebp) as (pv & Hperm & Hkey & Hacc).
  destruct (Hacc qv statsv) as (s & Hs & Hm & Edb & Hact).
  { intros id. rewrite (proj2 Hq). apply pays_lookup. }
  exists s. split; [exact Hs|]. split; [exact Hm|]. split; [|by split].
  rewrite Edb, (production_pays _ _ _ _ _ _ _ _ _ _ _ _ _ _ _ _ Hpr). etransitivity; [by apply pays_proper|].
  symmetry. etransitivity; [by apply pays_perm|]. by rewrite foldl_app.
Qed.

(** C21: rolling back a produced block restores the orderbook.  After
    [commit_for_production] and [process_clear_offers] of block [blk],
    [rollback_thunks] to any block before it puts back the cancelled, cleared and
    partially executed offers, removes the created ones, and leaves the thunks
    of the earlier blocks; provided the partially executed offer was not created
    in the block itself. *)
Theorem rollback_restores_orderbook (b b1 b2 : Book) S prices t (q q' : D * LG) c c' stats stats' blk cur :
  new_offers_ok b -> book_positive (ot_entries (committed_offers b1)) -> in_u128 S ->
  commit_for_production b blk = Ok b1 ->
  process_clear_offers b1 (mkOrderbookClearingParams S) prices t q c stats = Ok (b2, q', c', stats') ->
  (forall th, last (thunks b2) = Some th -> exists_partial_exec th = Some true ->
    ot_map (uncommitted_offers b) !! partial_exec_key th = None) ->
  Forall (fun th => current_block_number th <= cur) (thunks b) -> persisted_round_number b <= cur < blk ->
  exists b3, rollback_thunks b2 cur = Ok b3 /\
    ot_map (committed_offers b3) = ot_map (committed_offers b) /\ thunks b3 = thunks b /\
    uncommitted_offers b3 = ot_empty.
Proof.
  intros Hnew Hb HS Hc Hp Hold Hth Hcur.
  apply result_bind_Ok in Hc as (b1' & Hc & [= <-]). destruct (tentative_commit_spec b b1' blk Hnew Hc) as [del Hck].
  destruct (production_spec _ _ _ _ _ _ _ _ _ _ _ Hb HS Hp) as (sp & bp & low & partial & rest & r & _ & _ & [Hsp _ _ _ Hbk _ _]).
  cbn [generate_metadata_index committed_offers] in Hsp. pose proof Hbk as [Em Mk _ (th & cleared & Eth & Ets & Ecl & Mcl & _) _ Eu Epr _].
  cbn [generate_metadata_index committed_offers thunks uncommitted_offers persisted_round_number] in *.
  rewrite (ck_thunks _ _ _ _ Hck), last_snoc in Eth. injection Eth as Eth. rewrite (ck_thunks _ _ _ _ Hck), List.removelast_last in Ets.
  assert (Hold' : forall k o, partial = Some (k, o) -> ot_map (uncommitted_offers b) !! k = None).
  { intros k o ->. apply (Hold (thunk_after (Some (k, o)) r cleared th)); [|done]. by rewrite Ets, last_snoc. }
  destruct (undo_block b b1' b2 blk S r del low rest partial cleared (committed_offers b2) th ∅ Hnew Hck Hsp)
    as (b3 & Eun & Eb3 & Em3); try done.
  { by apply Mk, (ck_marked _ _ _ _ Hck). }
  { rewrite Em. symmetry. apply map_filter_id. set_solver. }
  { by apply Mcl, (ck_marked _ _ _ _ Hck). }
  { by rewrite <- Eth. }
  assert (E2 : set_committed_offers b2 (committed_offers b2) = b2) by (by destruct b2). rewrite E2 in Eun.
  exists (set_thunks b3 (thunks b)). unfold rollback_thunks. rewrite Epr, (ck_persisted _ _ _ _ Hck).
  destruct (Z.ltb_spec cur (persisted_round_number b)); [lia|]. rewrite Ets, rollback_thunks_keep by done.
  cbn [rollback_thunks_loop app].
  assert (Eblk : current_block_number (thunk_after partial r cleared th) = blk).
  { rewrite <- Eth. by destruct partial as [[]|]. }
  rewrite Eblk. destruct (Z.ltb_spec cur blk); [|lia]. rewrite Eun. cbn [result_bind]. split; [done|].
  cbn [set_thunks committed_offers thunks uncommitted_offers]. split; [|split; [done|]].
  - rewrite Em3. rewrite <- Eth. cbn [set_committed_block uncommitted_offers_vec].
    rewrite keys_of_new_offers by apply (no_keys _ Hnew).
    rewrite (map_filter_id _ (book_after partial rest r)) by set_solver. by eapply production_undone.
  - rewrite Eb3. cbn [set_committed_offers uncommitted_offers]. by rewrite Eu, (ck_uncommitted _ _ _ _ Hck).
Qed.

(** rolling back a validated block restores the orderbook.  After
    [tentative_commit_for_validation] and an accepted
    [tentative_clear_offers_for_validation], [rollback_validation] puts back what
    the block cancelled, cleared and partially executed, removes what it created,
    and pops its thunk; for offers created with their rollback mark and above the
    threshold key, as [ValidatingSerialManager::add_offer] inserts them. *)
Lemma rollback_validation_restores_orderbook (b b1 : Book) (q : D * LG) act c checker stats blk s :
  new_offers_ok b -> offers_wf (book_category b1) (ot_entries (committed_offers b1)) ->
  ot_rollback (committed_offers b) = ∅ -> ot_rollback (uncommitted_offers b) = dom (ot_map (uncommitted_offers b)) ->
  (forall k o, ot_map (uncommitted_offers b) !! k = Some o ->
    partialExecThresholdKey c <> zero_key /\ memcmp (partialExecThresholdKey c) k = Lt) ->
  0 <= partialExecOfferActivationAmount c < 2 ^ 73 ->
  tentative_commit_for_validation b blk = Ok b1 ->
  tentative_clear_offers_for_validation b1 q act c checker stats = Ok (s, true) ->
  exists b3, rollback_validation (cl_book s) = Ok b3 /\
    ot_map (committed_offers b3) = ot_map (committed_offers b) /\ thunks b3 = thunks b /\
    uncommitted_offers b3 = ot_empty.
Proof.
  intros Hnew Hwf Hr0 Hru Habove Hact Hc Hv. destruct (tentative_commit_spec b b1 blk Hnew Hc) as [del Hck].
  destruct (accepted_spec b1 q act c checker stats s Hwf Hact Hv) as (sp & bp & low & partial & rest & r & Esp & Ebp & Hac).
  pose proof (ck_thunks _ _ _ _ Hck) as Eth. set (th := set_committed_block _ _ _) in Eth.
  destruct (validation_spec b1 th _ sp bp c act stats q low partial rest r checker (ac_commits _ _ _ _ _ _ _ _ _ Hac) Hwf
    (ac_split _ _ _ _ _ _ _ _ _ Hac)) as (s' & Es & Hbk & _); try (by apply Hac); [by rewrite Eth, last_snoc|done|done|].
  rewrite Hv in Es. injection Es as <-.
  pose proof Hbk as [Em Mk Rk (th' & cleared & Eth' & Ets & Ecl & Mcl & Rcl) _ Eu _ _].
  rewrite Eth, last_snoc in Eth'. injection Eth' as <-. rewrite Eth, List.removelast_last in Ets.
  rewrite (ck_rollback _ _ _ _ Hck), Hr0, Hru in Rk, Rcl.
  assert (Ed : ∅ ∖ ot_marked (committed_offers b) ∪ dom (ot_map (uncommitted_offers b)) = dom (ot_map (uncommitted_offers b)))
    by set_solver. rewrite Ed in Rk, Rcl.
  set (b2 := cl_book s) in *. destruct (ac_commits _ _ _ _ _ _ _ _ _ Hac) as [Ethr _].
  pose proof (ac_split _ _ _ _ _ _ _ _ _ Hac) as Hsp. pose proof (ot_entries_sorted (committed_offers b1)) as Hso.
  pose proof (ot_entries_nodup (committed_offers b1)) as Hn.
  assert (Hold : forall k o, partial = Some (k, o) -> ot_map (uncommitted_offers b) !! k = None).
  { intros k o ->. destruct (ot_map (uncommitted_offers b) !! k) eqn:E; [|done].
    destruct (Habove _ _ E) as [_ Hlt]. rewrite Ethr, (proj2 (memcmp_eq _ _) eq_refl) in Hlt. done. }
  assert (Hlow : forall k, ot_map (uncommitted_offers b) !! k <> None -> k ∉ low.*1).
  { intros k Hk (p & -> & Hp)%list_elem_of_fmap. destruct (ot_map (uncommitted_offers b) !! p.1) eqn:E; [|done].
    destruct (Habove _ _ E) as [Hz Hlt]. destruct partial as [[k' o']|]; [|by rewrite Ethr in Hz].
    rewrite (sb_entries _ _ _ _ _ _ Hsp) in Hso, Hn. cbn [option_list app] in Hso, Hn.
    pose proof (sorted_app_lt low rest p (k', o') Hso Hn Hp) as Hlt'. cbn [fst] in Hlt'.
    rewrite Ethr, memcmp_opp, Hlt' in Hlt. done. }
  set (tr := ot_do_rollback (committed_offers b2)).
  destruct (undo_block b b1 b2 blk _ r del low rest partial cleared tr (clear_uncommitted_vec th)
    (dom (ot_map (uncommitted_offers b)) ∩ dom (list_to_map rest : gmap key Offer)) Hnew Hck Hsp) as (b3 & Eun & Eb3 & Em3); try done.
  { unfold tr. rewrite ot_do_rollback_marked, Mk by apply (ck_marked _ _ _ _ Hck). set_solver. }
  { unfold tr. by rewrite ot_do_rollback_map, Em, Rk. }
  { by apply Mcl, (ck_marked _ _ _ _ Hck). }
  assert (Ecv : clear_uncommitted_vec (thunk_after partial r cleared th) = thunk_after partial r cleared (clear_uncommitted_vec th))
    by (by destruct partial as [[]|]).
  unfold rollback_validation, on_top_thunk. fold tr. cbn [set_committed_offers set_uncommitted_offers thunks].
  rewrite Ets, last_snoc, List.removelast_last. cbn [result_bind set_thunks thunks]. rewrite last_snoc, Ecv.
  match goal with |- context [undo_thunk ?b' ?t] => assert (E : undo_thunk b' t = Ok (set_committed_offers b' (committed_offers b3))) end.
  { revert Eun. unfold undo_thunk. cbn [set_committed_offers set_thunks committed_offers]. destruct (get_exists_partial_exec _) as [e|];
      [|done]. cbn [result_bind]. destruct e; [destruct (preexecute_partial_exec_offer _); [|done]|]; by intros [= <-]. }
  rewrite E. cbn [result_bind]. unfold pop_top_thunk. cbn [set_committed_offers set_thunks thunks]. rewrite last_snoc, List.removelast_last.
  eexists. split; [reflexivity|]. cbn [set_thunks set_committed_offers committed_offers thunks uncommitted_offers].
  split; [|done]. rewrite Em3. cbn [clear_uncommitted_vec set_committed_block uncommitted_offers_vec keys_of_offers fmap list_fmap list_to_set].
  rewrite map_filter_id by (unfold keys_of_offers; set_solver). by eapply validation_undone.
Qed.
End Agreement.

(** An orderbook selling asset 0 for asset 1, with two offers of the account of
    the example database. *)
Definition example_category : OfferCategory := mkOfferCategory 0 1 SELL.
Definition example_offer (id n price : Z) : Offer := mkOffer example_category id 7 n price.
Definition book_of (l : list Offer) (blk : Z) : Orderbook.t (TR := MapTrie.t) :=
  mk example_category (insert_all ot_empty ((fun o => (Key.offer_key o, o)) <$> l)) ot_empty [new_thunk blk] 0 [].
Definition example_offers : list Offer :=
  [example_offer 256 100 Price.PRICE_ONE; example_offer 512 50 (Price.PRICE_ONE + 1)].
Definition empty_commitment : SingleOrderbookStateCommitment :=
  mkCommitment [] (write_u128_big_endian 0) zero_key 0 (write_u128_big_endian 0).
Definition example_state : DatabaseProps.example_t * list (Z * Z * Z) := (DatabaseProps.example_db, []).

(** The block creates a cheap third offer; the validator cleared it at once. *)
Definition cheap_offer : Offer := example_offer 768 30 (Price.PRICE_ONE - 1).
Definition example_prices : list Price := [2 * Price.PRICE_ONE; Price.PRICE_ONE].
Definition cheap_entries : list (key * Offer) := [(Key.offer_key cheap_offer, cheap_offer)].
Definition paid_state : DatabaseProps.example_t * list (Z * Z * Z) :=
  (foldl pay example_state.1 (full_payments (2 * Price.PRICE_ONE) Price.PRICE_ONE 10 cheap_entries), []).
Definition producer_book : Orderbook.t (TR := MapTrie.t) := book_of (example_offers ++ [cheap_offer]) 1.

Lemma validator_accepts_production_witness :
  exists b' q' c' stats' s, process_clear_offers producer_book (mkOrderbookClearingParams (120 * 1024 + 7))
      example_prices 10 example_state empty_commitment zero_stats = Ok (b', q', c', stats') /\
    tentative_clear_offers_for_validation (book_of example_offers 1) paid_state
      (FractionalAsset.from_integral (offers_endow cheap_entries)) c' (mkChecker [c'] example_prices 10) zero_stats = Ok (s, true).
Proof.
  destruct (process_clear_offers producer_book (mkOrderbookClearingParams (120 * 1024 + 7))
    example_prices 10 example_state empty_commitment zero_stats)
    as [[[[b' q'] c'] stats']|] eqn:E; [|vm_compute in E; discriminate].
  destruct (validator_accepts_production producer_book (book_of example_offers 1) b' (120 * 1024 + 7) example_prices 10
    (2 * Price.PRICE_ONE) Price.PRICE_ONE example_state q' paid_state empty_commitment c' zero_stats stats' zero_stats
    cheap_entries (mkChecker [c'] example_prices 10)) as (s & Es & _).
  - split; [|vm_compute; reflexivity]. apply (bool_decide_unpack _). vm_compute. exact I.
  - vm_compute. split; [discriminate|reflexivity].
  - exact E.
  - reflexivity.
  - reflexivity.
  - vm_compute in E. injection E as <- <- <- <-. constructor.
    + intros p ->%list_elem_of_singleton. split; [vm_compute; reflexivity|right; vm_compute; reflexivity].
    + apply NoDup_singleton.
    + apply (bool_decide_unpack _). vm_compute. exact I.
    + reflexivity.
    + discriminate.
  - split; reflexivity.
  - reflexivity.
  - reflexivity.
  - exists b', q', c', stats', s. split; [reflexivity|exact Es].
Defined.

(** A block that cancels the second offer and creates a third, more expensive
    one; 60 units clear. *)
Definition created_offer : Offer := example_offer 768 30 (2 * Price.PRICE_ONE).
Definition example_block : Orderbook.t (TR := MapTrie.t) :=
  mk example_category
    (ot_mark_for_deletion (committed_offers (book_of example_offers 0)) (Key.offer_key (example_offer 512 50 (Price.PRICE_ONE + 1)))).1
    (ot_rollback_insert ot_empty (Key.offer_key created_offer) created_offer) [] 0 [].

Lemma example_block_ok : new_offers_ok example_block.
Proof.
  constructor.
  - intros k o Hk. assert (Hall : map_Forall (fun k o => k = Key.offer_key o) (ot_map (uncommitted_offers example_block))).
    { apply (bool_decide_unpack _). vm_compute. exact I. }
    exact (Hall k o Hk).
  - apply (bool_decide_unpack _). vm_compute. exact I.
  - apply (bool_decide_unpack _). vm_compute. exact I.
Qed.

Lemma rollback_restores_orderbook_witness :
  exists b1 b2 q' c' stats' b3, commit_for_production example_block 1 = Ok b1 /\
    process_clear_offers b1 (mkOrderbookClearingParams (60 * 1024 + 5)) example_prices 10 example_state
      empty_commitment zero_stats = Ok (b2, q', c', stats') /\
    rollback_thunks b2 0 = Ok b3 /\ ot_map (committed_offers b3) = ot_map (committed_offers example_block).
Proof.
  destruct (commit_for_production example_block 1) as [b1|] eqn:E1; [|vm_compute in E1; discriminate].
  destruct (process_clear_offers b1 (mkOrderbookClearingParams (60 * 1024 + 5)) example_prices 10 example_state
    empty_commitment zero_stats) as [[[[b2 q'] c'] stats']|] eqn:E2;
    [|exfalso; vm_compute in E1; injection E1 as <-; vm_compute in E2; discriminate].
  destruct (rollback_restores_orderbook example_block b1 b2 (60 * 1024 + 5) example_prices 10 example_state q'
    empty_commitment c' zero_stats stats' 1 0) as (b3 & E3 & Em & _).
  - exact example_block_ok.
  - clear E2. vm_compute in E1. injection E1 as <-. split; [|vm_compute; reflexivity].
    apply (bool_decide_unpack _). vm_compute. exact I.
  - vm_compute. split; [discriminate|reflexivity].
  - exact E1.
  - exact E2.
  - intros th Eth _. vm_compute in E1. injection E1 as <-. vm_compute in E2. injection E2 as <- <- <- <-.
    injection Eth as <-. vm_compute. reflexivity.
  - constructor.
  - vm_compute. split; [discriminate|reflexivity].
  - exists b1, b2, q', c', stats', b3. split; [reflexivity|]. split; [exact E2|]. split; [exact E3|exact Em].
Defined.

(** The commitment of a block that clears 60 units of the first offer. *)
Definition example_header : SingleOrderbookStateCommitment :=
  mkCommitment [] (write_u128_big_endian (60 * 1024)) (Key.offer_key (example_offer 256 100 Price.PRICE_ONE)) 0
    (write_u128_big_endian (60 * 1024)).

(** *** Limits of the rollbacks *)

(** the side condition of [rollback_restores_orderbook] is needed.  A block
    that creates the only offer of an orderbook and clears nothing has that offer
    as its threshold offer; [rollback_thunks] deletes it with the other created
    offers and then inserts the saved copy, so the offer is in the orderbook after
    its block was rolled back. *)
Definition one_created (o : Offer) : Orderbook.t (TR := MapTrie.t) :=
  mk example_category ot_empty (ot_rollback_insert ot_empty (Key.offer_key o) o) [] 0 [].
Lemma rollback_keeps_created_threshold_offer :
  exists b1 b2 q' c' stats' b3, commit_for_production (one_created created_offer) 1 = Ok b1 /\
    process_clear_offers b1 (mkOrderbookClearingParams 0) example_prices 10 example_state
      empty_commitment zero_stats = Ok (b2, q', c', stats') /\
    rollback_thunks b2 0 = Ok b3 /\
    ot_map (committed_offers (one_created created_offer)) = ∅ /\
    ot_map (committed_offers b3) = {[ Key.offer_key created_offer := created_offer ]}.
Proof. do 6 eexists. do 4 (split; [vm_compute; reflexivity|]). vm_compute. reflexivity. Qed.

(** Nor does [rollback_validation] undo a header whose threshold key is zero
    but not flagged as null.  [tentative_clear_offers_for_validation] accepts it,
    clears an offer the block created, [check_threshold_key] then rejects the
    block, and the rollback inserts the cleared offer together with the old ones. *)
Definition unflagged_header : SingleOrderbookStateCommitment :=
  mkCommitment [] (write_u128_big_endian (30 * 1024)) zero_key 0 (write_u128_big_endian 0).
Lemma rollback_validation_keeps_cleared_created_offer :
  exists b1 s b3, tentative_commit_for_validation (one_created (example_offer 768 30 Price.PRICE_ONE)) 1 = Ok b1 /\
    tentative_clear_offers_for_validation b1 example_state 0 unflagged_header
      (mkChecker [unflagged_header] example_prices 10) zero_stats = Ok (s, true) /\
    check_threshold_key unflagged_header = false /\
    rollback_validation (cl_book s) = Ok b3 /\
    ot_map (committed_offers b3) =
      {[ Key.offer_key (example_offer 768 30 Price.PRICE_ONE) := example_offer 768 30 Price.PRICE_ONE ]}.
Proof. do 3 eexists. do 4 (split; [vm_compute; reflexivity|]). vm_compute. reflexivity. Qed.

(** the bound on the activation amount is needed: it is a 118 bit amount in
    the header, but its ceiling is stored in 64 bits.  The header below activates
    [2 ^ 64] units of an offer of 100 units; the validator computes 0 units sold,
    accepts, and credits the owner with the whole proceeds, wrapped to 64 bits. *)
Definition oversized_header : SingleOrderbookStateCommitment :=
  mkCommitment [] (write_u128_big_endian 0) (Key.offer_key (example_offer 256 100 Price.PRICE_ONE)) 0
    (write_u128_big_endian (2 ^ 74)).
Lemma oversized_activation_accepted :
  exists s, tentative_clear_offers_for_validation (book_of example_offers 1) example_state 0 oversized_header
      (mkChecker [oversized_header] [Price.PRICE_ONE; 3 * Price.PRICE_ONE] 2) zero_stats = Ok (s, true) /\
    ot_map (committed_offers (cl_book s)) = ot_map (committed_offers (book_of example_offers 1)) /\
    MemoryDatabase.lookup_available_balance (MemoryDatabase.commit_all_values (cl_db s).1) 0 1 = 4611686018427387903.
Proof. eexists. do 2 (split; [vm_compute; reflexivity|]). vm_compute. reflexivity. Qed.
End OrderbookProps.
