(* ===== verification/Manager.v ===== *)
(** * The orderbook manager
    (src/orderbook/orderbook_manager.h, orderbook_manager.cc, and
    LoadLMDBManagerView of orderbook_manager_view.h, .cc)

    One orderbook per ordered pair of assets, the operations mapped over them,
    and the two passes that clear a block, over the batches in which
    [tbb::parallel_reduce] splits the orderbooks.  The calls of a [generic_map]
    touch one orderbook each, so the parallel loop is the map. *)
From stdpp Require Import base gmap list strings sorting.
From S2P Require Import Prelude Types PriceArith Asset SeqTracker Accounts AccountLmdb Database Offers Clearing Demand DbView SerialManager Orderbook OrderbookProps.

Section Manager.
Context {TR : Type} `{OfferTrieIndex TR} `{BigEndian}.
Abbreviation Book := (Orderbook.t (TR := TR)).

(** [lmdb_round] and [lmdb_num_orderbooks] are the round and the range of the
    one LMDB environment all orderbooks share. *)
Record OrderbookManager := mkManager {
  orderbooks : list Book;
  num_assets : Z;
  lmdb_round : Z;
  lmdb_num_orderbooks : nat
}.
Implicit Types m : OrderbookManager.

Definition set_orderbooks m (l : list Book) : OrderbookManager :=
  mkManager l (num_assets m) (lmdb_round m) (lmdb_num_orderbooks m).
Definition get_num_orderbooks m : Z := Category.get_num_orderbooks_by_asset_count (num_assets m).
Definition manager_look_up_idx m (id : OfferCategory) : result Z := Category.category_to_idx id (num_assets m).
Definition manager_validate_category m (id : OfferCategory) : bool := Category.validate_category_ id (num_assets m).

(** [emplace_back(category, lmdb)] *)
Definition new_orderbook m (category : OfferCategory) : Book :=
  Orderbook.mk category ot_empty ot_empty [] (lmdb_round m) [].

(** The orderbook that gets index [i]: moved from its old index, or new. *)
Definition moved_orderbook m (new_asset_count i : Z) : result Book :=
  let category := Category.category_from_idx i new_asset_count in
  if (buyAsset category <? num_assets m) && (sellAsset category <? num_assets m) then
    let* old_idx := Category.category_to_idx category (num_assets m) in
    vec_at (orderbooks m) old_idx
  else Ok (new_orderbook m category).

Definition increase_num_traded_assets m (new_asset_count : Z) : result OrderbookManager :=
  if new_asset_count <? num_assets m then Throw "Cannot decrease number of assets"
  else
    let new_orderbooks_count := Category.get_num_orderbooks_by_asset_count new_asset_count in
    let* l := result_map (fun i => moved_orderbook m new_asset_count (Z.of_nat i)) (seq 0 (Z.to_nat new_orderbooks_count)) in
    Ok (mkManager l new_asset_count (lmdb_round m) (lmdb_num_orderbooks m)).

(** The constructor; the LMDB environment starts empty. *)
Definition new_manager (num_new_assets : Z) : result OrderbookManager :=
  increase_num_traded_assets
    (mkManager [] 0 0 (Z.to_nat (Category.get_num_orderbooks_by_asset_count num_new_assets))) num_new_assets.

(** ** Operations of every orderbook *)
Definition generic_map (f : Book -> result Book) m : result OrderbookManager :=
  let* l := result_map f (orderbooks m) in Ok (set_orderbooks m l).

Definition generic_map_loading (f : Book -> Z -> result Book) m (current_block_number : Z) : result OrderbookManager :=
  if lmdb_round m <? current_block_number then
    let* l := result_map (fun b => f b current_block_number) (take (lmdb_num_orderbooks m) (orderbooks m)) in
    Ok (set_orderbooks m (l ++ drop (lmdb_num_orderbooks m) (orderbooks m)))
  else Ok m.

Definition manager_commit_for_production m (blk : Z) := generic_map (fun b => commit_for_production b blk) m.
Definition commit_for_validation m (blk : Z) := generic_map (fun b => tentative_commit_for_validation b blk) m.
Definition manager_rollback_thunks m (blk : Z) := generic_map (fun b => rollback_thunks b blk) m.
Definition manager_finalize_validation m := generic_map finalize_validation m.
Definition manager_rollback_validation m := generic_map rollback_validation m.
Definition generate_metadata_indices m := generic_map (fun b => Ok (generate_metadata_index b)) m.
Definition commit_for_loading m (blk : Z) := generic_map_loading tentative_commit_for_validation m blk.
(** [finalize_validation_for_loading] ignores the block number. *)
Definition finalize_for_loading m (blk : Z) := generic_map_loading (fun b _ => finalize_validation b) m blk.

(** [contents]: what the cursor of each orderbook's database lists. *)
Definition manager_load_lmdb_contents_to_memory m (contents : OfferCategory -> list Offer) :=
  generic_map (fun b => load_lmdb_contents_to_memory b (contents (book_category b))) m.

Definition get_min_persisted_round_number m : Z :=
  foldl (fun acc b => Z.min acc (persisted_round_number b)) UINT64_MAX (orderbooks m).
Definition get_max_persisted_round_number m : Z :=
  foldl (fun acc b => Z.max acc (persisted_round_number b)) 0 (orderbooks m).
Definition manager_num_open_offers m : Z := foldl (fun acc b => u64 (acc + num_open_offers b)) 0 (orderbooks m).

Definition set_root_hash (c : SingleOrderbookStateCommitment) (h : list Z) : SingleOrderbookStateCommitment :=
  mkCommitment h (c_fractionalSupplyActivated c) (partialExecThresholdKey c) (thresholdKeyIsNull c)
    (c_partialExecOfferActivationAmount c).
(** [clearing_details[i]] must exist for every orderbook. *)
Definition hash m (clearing_details : list SingleOrderbookStateCommitment)
    : result (list SingleOrderbookStateCommitment) :=
  if (length clearing_details <? length (orderbooks m))%nat then Throw "clearing_details is too short"
  else Ok (imap (fun i c => match orderbooks m !! i with
                            | Some b => set_root_hash c (ot_hash (committed_offers b))
                            | None => c
                            end) clearing_details).

(** ** Single orderbooks, by index; an index outside the vector is undefined *)
Definition on_orderbook {R} m (idx : Z) (f : Book -> Book * R) : result (OrderbookManager * R) :=
  let* b := vec_at (orderbooks m) idx in
  Ok (set_orderbooks m (<[Z.to_nat idx := (f b).1]> (orderbooks m)), (f b).2).
Definition manager_add_offers m (idx : Z) (trie : TR) : result OrderbookManager :=
  let* q := on_orderbook m idx (fun b => (add_offers b trie, tt)) in Ok q.1.
Definition manager_mark_for_deletion m (idx : Z) (k : key) : result (OrderbookManager * option Offer) :=
  on_orderbook m idx (fun b => mark_for_deletion b k).
Definition manager_unmark_for_deletion m (idx : Z) (k : key) : result OrderbookManager :=
  let* q := on_orderbook m idx (fun b => unmark_for_deletion b k) in Ok q.1.

#[global] Instance OrderbookManager_main : MainManager TR OrderbookManager := {
  mm_num_assets := num_assets;
  mm_num_orderbooks := get_num_orderbooks;
  mm_look_up_idx := manager_look_up_idx;
  mm_mark_for_deletion := manager_mark_for_deletion;
  mm_unmark_for_deletion := manager_unmark_for_deletion;
  mm_add_offers := manager_add_offers
}.

(** *** Replaying a block whose orderbooks may be on disk already *)
Record LoadLMDBManagerView := mkLoadView { lv_block_number : Z; lv_manager : OrderbookManager }.
Implicit Types v : LoadLMDBManagerView.
Definition set_lv_manager v m : LoadLMDBManagerView := mkLoadView (lv_block_number v) m.

(** [Offer()] *)
Definition default_offer : Offer := mkOffer (mkOfferCategory 0 0 SELL) 0 0 0 0.

(** Only orderbooks persisted before the block are touched. *)
Definition when_behind {R} v (idx : Z) (f : OrderbookManager -> result (OrderbookManager * R)) (skipped : R)
    : result (LoadLMDBManagerView * R) :=
  let* b := vec_at (orderbooks (lv_manager v)) idx in
  if persisted_round_number b <? lv_block_number v then
    let* q := f (lv_manager v) in Ok (set_lv_manager v q.1, q.2)
  else Ok (v, skipped).

#[global] Instance LoadLMDB_main : MainManager TR LoadLMDBManagerView := {
  mm_num_assets v := num_assets (lv_manager v);
  mm_num_orderbooks v := get_num_orderbooks (lv_manager v);
  mm_look_up_idx v := manager_look_up_idx (lv_manager v);
  mm_mark_for_deletion v idx k :=
    when_behind v idx (fun m => manager_mark_for_deletion m idx k) (Some default_offer);
  mm_unmark_for_deletion v idx k :=
    let* q := when_behind v idx (fun m => let* r := manager_unmark_for_deletion m idx k in Ok (r, tt)) tt in Ok q.1;
  mm_add_offers v idx tr :=
    let* q := when_behind v idx (fun m => let* r := manager_add_offers m idx tr in Ok (r, tt)) tt in Ok q.1
}.

(** ** Clearing a block *)
Section Clearing.
Context {D LG : Type} `{ClearingDB D} `{SerialAccountModificationLog LG}.

(** [get_max_feasible_smooth_mult]: indices of the vector of parameters are not
    checked in the source. *)
Fixpoint max_smooth_mult_loop (l : list Book) (i : Z) (params : ClearingParams) (prices : list Price) (max : Z) : result Z :=
  match l with
  | [] => Ok max
  | b :: l =>
      let* p := vec_at (orderbook_params params) i in
      let* candidate := max_feasible_smooth_mult (indexed_metadata b) (book_category b)
        (i64 (FractionalAsset.ceil (supply_activated p))) prices in
      max_smooth_mult_loop l (i + 1) params prices (Z.min max candidate)
  end.
Definition get_max_feasible_smooth_mult m (params : ClearingParams) (prices : list Price) : result Z :=
  max_smooth_mult_loop (orderbooks m) 0 params prices UINT8_MAX.

(** [OrderbookStateCommitment::resize] appends zeroed commitments. *)
Definition zero_commitment : SingleOrderbookStateCommitment :=
  mkCommitment (replicate 32 0) (replicate 16 0) zero_key 0 (replicate 16 0).
Definition resize (l : list SingleOrderbookStateCommitment) (n : nat) : list SingleOrderbookStateCommitment :=
  take n l ++ replicate (n - length l) zero_commitment.

Record production_state := mkProduction {
  ps_books : list Book;
  ps_db : D * LG;
  ps_details : list SingleOrderbookStateCommitment;
  ps_stats : BlockStateUpdateStats
}.

(** [ClearOffersForProductionData::operator()] on one batch of indices. *)
Fixpoint production_range (params : ClearingParams) (prices : list Price) (s : production_state) (r : list nat)
    : result production_state :=
  match r with
  | [] => Ok s
  | i :: r =>
      let* b := vec_at (ps_books s) (Z.of_nat i) in
      let* p := vec_at (orderbook_params params) (Z.of_nat i) in
      let* c := vec_at (ps_details s) (Z.of_nat i) in
      let* q := process_clear_offers b p prices (cp_tax_rate params) (ps_db s) c (ps_stats s) in
      production_range params prices
        (mkProduction (<[i := q.1.1.1]> (ps_books s)) q.1.1.2 (<[i := q.1.2]> (ps_details s)) q.2) r
  end.

(** Each batch counts from zero; [join] adds the counts up. *)
Fixpoint production_batches (params : ClearingParams) (prices : list Price) (s : production_state) (batches : list (list nat))
    : result production_state :=
  match batches with
  | [] => Ok s
  | r :: batches =>
      let* s' := production_range params prices (mkProduction (ps_books s) (ps_db s) (ps_details s) zero_stats) r in
      production_batches params prices
        (mkProduction (ps_books s') (ps_db s') (ps_details s') (stats_add (ps_stats s) (ps_stats s'))) batches
  end.

Definition clear_offers_for_production m (params : ClearingParams) (prices : list Price) (q : D * LG)
    (clearing_details_out : list SingleOrderbookStateCommitment) (stats : BlockStateUpdateStats) (batches : list (list nat))
    : result (OrderbookManager * production_state) :=
  let details := resize clearing_details_out (length (orderbooks m)) in
  let* s := production_batches params prices (mkProduction (orderbooks m) q details stats) batches in
  Ok (set_orderbooks m (ps_books s), s).

Record validation_state := mkValidation {
  vs_books : list Book;
  vs_db : D * LG;
  vs_validation_stats : ValidationStatistics;
  vs_stats : BlockStateUpdateStats;
  vs_failure : bool
}.

(** [TentativeClearOffersForValidationData::operator()]: a failure ends the
    batch, not the others. *)
Fixpoint validation_range (checker : OrderbookStateCommitmentChecker) (s : validation_state) (r : list nat)
    : result validation_state :=
  match r with
  | [] => Ok s
  | i :: r =>
      let* b := vec_at (vs_books s) (Z.of_nat i) in
      let* a := vec_at (vs_validation_stats s) (Z.of_nat i) in
      let* c := vec_at (commitments checker) (Z.of_nat i) in
      let* q := tentative_clear_offers_for_validation b (vs_db s) a c checker (vs_stats s) in
      let s := mkValidation (<[i := cl_book q.1]> (vs_books s)) (cl_db q.1)
        (<[i := cl_activated q.1]> (vs_validation_stats s)) (cl_stats q.1) (vs_failure s || negb q.2) in
      if q.2 then validation_range checker s r else Ok s
  end.

Fixpoint validation_batches (checker : OrderbookStateCommitmentChecker) (s : validation_state) (batches : list (list nat))
    : result validation_state :=
  match batches with
  | [] => Ok s
  | r :: batches =>
      let* s' := validation_range checker
        (mkValidation (vs_books s) (vs_db s) (vs_validation_stats s) zero_stats (vs_failure s)) r in
      validation_batches checker
        (mkValidation (vs_books s') (vs_db s') (vs_validation_stats s') (stats_add (vs_stats s) (vs_stats s')) (vs_failure s'))
        batches
  end.

Definition manager_tentative_clear_offers_for_validation m (q : D * LG) (validation_statistics : ValidationStatistics)
    (checker : OrderbookStateCommitmentChecker) (stats : BlockStateUpdateStats) (batches : list (list nat))
    : result (OrderbookManager * validation_state * bool) :=
  let vs := make_minimum_size validation_statistics (length (orderbooks m)) in
  let* s := validation_batches checker (mkValidation (orderbooks m) q vs stats false) batches in
  Ok (set_orderbooks m (vs_books s), s, negb (vs_failure s)).

(** [clear_offers_for_data_loading]: the test of [res] is the source's. *)
Fixpoint loading_range (checker : OrderbookStateCommitmentChecker) (blk : Z) (s : validation_state) (r : list nat)
    : result validation_state :=
  match r with
  | [] => Ok s
  | i :: r =>
      let* b := vec_at (vs_books s) (Z.of_nat i) in
      if persisted_round_number b <? blk then
        let* a := vec_at (vs_validation_stats s) (Z.of_nat i) in
        let* c := vec_at (commitments checker) (Z.of_nat i) in
        let* q := tentative_clear_offers_for_validation b (vs_db s) a c checker (vs_stats s) in
        let s := mkValidation (<[i := cl_book q.1]> (vs_books s)) (cl_db q.1)
          (<[i := cl_activated q.1]> (vs_validation_stats s)) (cl_stats q.1) (vs_failure s || q.2) in
        if q.2 then Ok s else loading_range checker blk s r
      else loading_range checker blk s r
  end.
Fixpoint loading_batches (checker : OrderbookStateCommitmentChecker) (blk : Z) (s : validation_state) (batches : list (list nat))
    : result validation_state :=
  match batches with
  | [] => Ok s
  | r :: batches => let* s := loading_range checker blk s r in loading_batches checker blk s batches
  end.
Definition clear_offers_for_data_loading m (q : D * LG) (validation_statistics : ValidationStatistics)
    (checker : OrderbookStateCommitmentChecker) (blk : Z) (batches : list (list nat))
    : result (OrderbookManager * validation_state) :=
  let vs := make_minimum_size validation_statistics (length (orderbooks m)) in
  let* s := loading_batches checker blk (mkValidation (orderbooks m) q vs zero_stats false) batches in
  if vs_failure s then Throw "failed to load block!" else Ok (set_orderbooks m (vs_books s), s).
End Clearing.

(** * Lemmas *)
Lemma length_resize l n : length (resize l n) = n.
Proof. unfold resize. rewrite length_app, length_replicate, length_take. lia. Qed.

Lemma set_committed_insert (bs : list Book) i b tr :
  bs !! i = Some b ->
  zip_with set_committed_offers bs (<[i := tr]> (committed_offers <$> bs)) = <[i := set_committed_offers b tr]> bs.
Proof.
  revert i. induction bs as [|b' bs IH]; intros [|i] Hb; try done.
  - injection Hb as ->. cbn [fmap list_fmap insert list_insert zip_with]. f_equal. clear IH.
    induction bs as [|b' bs IH]; [done|]. cbn [fmap list_fmap zip_with]. f_equal; [by destruct b'|exact IH].
  - cbn [fmap list_fmap insert list_insert zip_with]. f_equal; [by destruct b'|]. by apply IH.
Qed.

(** Changing the committed offers of one orderbook. *)
Lemma on_orderbook_committed {R} m idx (g : TR -> TR * R) t :
  0 <= idx -> (committed_offers <$> orderbooks m) !! Z.to_nat idx = Some t ->
  on_orderbook m idx (fun b => let '(tr, r) := g (committed_offers b) in (set_committed_offers b tr, r)) =
    Ok (set_orderbooks m (zip_with set_committed_offers (orderbooks m)
          (<[Z.to_nat idx := (g t).1]> (committed_offers <$> orderbooks m))), (g t).2).
Proof.
  intros Hi Ht. apply list_lookup_fmap_Some in Ht as (b & -> & Hb). unfold on_orderbook.
  rewrite (proj2 (vec_at_Ok _ _ b)) by done. cbn [result_bind].
  rewrite (set_committed_insert _ _ b) by done. by destruct (g (committed_offers b)).
Qed.

#[global] Program Instance OrderbookManager_laws : MainManagerLaws TR OrderbookManager := {
  mm_books m := committed_offers <$> orderbooks m;
  mm_set_books m l := set_orderbooks m (zip_with set_committed_offers (orderbooks m) l)
}.
Next Obligation.
  intros m l Hl. cbn [set_orderbooks orderbooks] in *. rewrite length_fmap in Hl.
  apply list_eq_same_length with (n := length l); [done|rewrite length_fmap, length_zip_with; lia|].
  intros i x y _ Hx Hy. apply list_lookup_fmap_Some in Hx as (b & -> & Hb).
  apply lookup_zip_with_Some in Hb as (b' & t & -> & _ & Ht). cbn [committed_offers set_committed_offers]. congruence.
Qed.
Next Obligation.
  intros m l l' Hl. unfold set_orderbooks. cbn [orderbooks num_assets lmdb_round lmdb_num_orderbooks] in *. f_equal.
  rewrite length_fmap in Hl. revert l l' Hl. induction (orderbooks m) as [|b bs IH]; intros [|t l] l' Hl; try done.
  destruct l' as [|t' l']; [done|]. cbn [zip_with]. f_equal. apply IH. by injection Hl.
Qed.
Next Obligation.
  intros [bs n r k]. unfold set_orderbooks. cbn [orderbooks num_assets lmdb_round lmdb_num_orderbooks]. f_equal.
  induction bs as [|b bs IH]; [done|]. cbn [fmap list_fmap zip_with]. f_equal; [by destruct b|exact IH].
Qed.
Next Obligation. done. Qed.
Next Obligation. done. Qed.
Next Obligation.
  intros m idx k t Hi Ht. exact (on_orderbook_committed m idx (fun tr => ot_mark_for_deletion tr k) t Hi Ht).
Qed.
Next Obligation.
  intros m idx k t Hi Ht. cbn [mm_unmark_for_deletion OrderbookManager_main]. unfold manager_unmark_for_deletion.
  unfold unmark_for_deletion. by rewrite (on_orderbook_committed m idx (fun tr => ot_unmark_for_deletion tr k) t Hi Ht).
Qed.

#[global] Program Instance OrderbookManager_merge_laws : MainManagerMergeLaws TR OrderbookManager := {
  mm_waiting m := uncommitted_offers <$> orderbooks m
}.
Next Obligation. done. Qed.
Next Obligation. intros m. cbn. by rewrite !length_fmap. Qed.
Next Obligation.
  intros m l Hl. cbn [set_orderbooks orderbooks mm_set_books mm_books OrderbookManager_laws] in *. rewrite length_fmap in Hl.
  revert l Hl. induction (orderbooks m) as [|b bs IH]; intros [|t l] Hl; try done. cbn [zip_with fmap list_fmap].
  f_equal. apply IH. by injection Hl.
Qed.
Next Obligation.
  intros m idx tr t Hi Ht. apply list_lookup_fmap_Some in Ht as (b & -> & Hb).
  cbn [mm_add_offers OrderbookManager_main]. unfold manager_add_offers, on_orderbook.
  rewrite (proj2 (vec_at_Ok _ _ b)) by done. cbn [result_bind fst snd]. eexists. split; [reflexivity|].
  cbn [mm_books OrderbookManager_laws set_orderbooks orderbooks]. rewrite !list_fmap_insert. split_and!; [|done|done].
  apply list_insert_id. by rewrite list_lookup_fmap, Hb.
Qed.

(** One orderbook per category, at the index of the category. *)
Record manager_wf m : Prop := {
  mw_assets : 0 <= num_assets m <= Category.MAX_INT_ASSETS;
  mw_length : Z.of_nat (length (orderbooks m)) = num_assets m * (num_assets m - 1);
  mw_category i b : orderbooks m !! i = Some b ->
    book_category b = Category.category_from_idx (Z.of_nat i) (num_assets m)
}.

(** *** Listing new assets *)
Definition has_category m (c : OfferCategory) : bool := (buyAsset c <? num_assets m) && (sellAsset c <? num_assets m).

Lemma moved_orderbook_spec m n i : manager_wf m -> 2 <= n <= Category.MAX_INT_ASSETS -> 0 <= i < n * (n - 1) ->
  let c := Category.category_from_idx i n in
  exists b, moved_orderbook m n i = Ok b /\ book_category b = c /\
    if has_category m c then
      exists j, manager_look_up_idx m c = Ok j /\ orderbooks m !! Z.to_nat j = Some b
    else b = new_orderbook m c.
Proof.
  intros W Hn Hi c. destruct (Category.category_of_idx n i Hn Hi) as (Hnn & Hv & _). fold c in Hnn, Hv.
  apply Category.validate_category_spec in Hv as (Hne & _ & _ & Hty). destruct Hnn as [Hs Hb].
  unfold moved_orderbook. fold c. fold (has_category m c). destruct (has_category m c) eqn:Eh.
  - unfold has_category in Eh. apply andb_true_iff in Eh as [Eb%Z.ltb_lt Es%Z.ltb_lt].
    pose proof (mw_assets _ W) as HN. assert (HN2 : 2 <= num_assets m) by lia.
    destruct (Category.valid_category_idx (num_assets m) c ltac:(lia) ltac:(done)) as (j & Ej & Hj & Ec).
    { by apply Category.validate_category_spec. }
    rewrite Ej. cbn [result_bind]. pose proof (mw_length _ W) as Hlen.
    destruct (lookup_lt_is_Some_2 (orderbooks m) (Z.to_nat j)) as [b Hjb]; [lia|]. exists b.
    split; [apply vec_at_Ok; split; [done|lia]|]. split; [|by exists j].
    rewrite (mw_category _ W _ _ Hjb), Z2Nat.id by lia. exact Ec.
  - by eexists.
Qed.

(** C22: listing assets keeps the orderbooks.  For a well formed manager,
    [increase_num_traded_assets] to a count that fits the index type succeeds and
    gives a well formed manager in which every category of two old assets has its
    old orderbook, with its offers and thunks, at its new index, and every other
    category a new empty one. *)
Theorem new_assets_keep_orderbooks m n :
  manager_wf m -> num_assets m <= n -> 2 <= n <= Category.MAX_INT_ASSETS ->
  exists m', increase_num_traded_assets m n = Ok m' /\ manager_wf m' /\ num_assets m' = n /\
    forall c, Category.nonneg c -> manager_validate_category m' c = true ->
    exists i b, manager_look_up_idx m' c = Ok i /\ orderbooks m' !! Z.to_nat i = Some b /\
      if has_category m c then exists j, manager_look_up_idx m c = Ok j /\ orderbooks m !! Z.to_nat j = Some b
      else b = new_orderbook m c.
Proof.
  intros W Hle Hn. unfold increase_num_traded_assets. destruct (Z.ltb_spec n (num_assets m)); [lia|].
  rewrite Category.count_orderbooks by lia. set (N := Z.to_nat (n * (n - 1))). assert (HN : Z.of_nat N = n * (n - 1)) by (unfold N; nia).
  destruct (result_map_total (fun i => moved_orderbook m n (Z.of_nat i)) (seq 0 N)) as [l Hl].
  { intros i Hi%elem_of_seq. destruct (moved_orderbook_spec m n (Z.of_nat i) W Hn) as (b & Hb & _); [lia|]. by exists b. }
  rewrite Hl. cbn [result_bind]. eexists. split; [reflexivity|]. apply result_map_Ok in Hl.
  pose proof (Forall2_length _ _ _ Hl) as Hlen. rewrite length_seq in Hlen.
  assert (Hlook : forall i b, l !! i = Some b -> Z.of_nat i < n * (n - 1) /\ moved_orderbook m n (Z.of_nat i) = Ok b).
  { intros i b Hb. pose proof (lookup_lt_Some _ _ _ Hb). split; [lia|].
    assert (Hs : seq 0 N !! i = Some i) by (apply lookup_seq; lia). exact (Forall2_lookup_lr _ _ _ _ _ _ Hl Hs Hb). }
  split; [|split; [done|]].
  - constructor; cbn [num_assets orderbooks]; [lia|lia|]. intros i b Hb. destruct (Hlook i b Hb) as [Hi Hm].
    destruct (moved_orderbook_spec m n (Z.of_nat i) W Hn ltac:(lia)) as (b' & Hb' & Ec & _). congruence.
  - intros c Hc Hv. cbn [num_assets orderbooks] in *.
    destruct (Category.valid_category_idx n c Hn Hc Hv) as (i & Ei & Hi & Eic).
    destruct (lookup_lt_is_Some_2 l (Z.to_nat i)) as [b Hb]; [lia|]. exists i, b. split; [done|]. split; [done|].
    destruct (Hlook _ _ Hb) as [_ Hm]. destruct (moved_orderbook_spec m n i W Hn ltac:(lia)) as (b' & Hb' & _ & Hcase).
    rewrite Z2Nat.id in Hm by lia. rewrite Hm in Hb'. injection Hb' as <-. by rewrite Eic in Hcase.
Qed.
End Manager.
