(* ===== verification/Filtering.v ===== *)
(** * The transaction filter (src/filtering/account_filter_entry.h, .cc,
      filter_log.h, .cc)

    Before a block is executed, the filter groups its transactions by account and
    drops the accounts whose transactions could not all be applied: two different
    transactions with one sequence number, or more of an asset than is available.
    Threads collect their ranges into local logs, which are merged before every
    account is checked once.

    The trie of entries is outside the repository; [RecyclingTrie] states that it
    is a map. *)
From stdpp Require Import base gmap list strings sorting.
From S2P Require Import Prelude RecyclingTrie Types Asset SeqTracker Accounts AccountLmdb Database.

(** [std::map]: iteration in the order of the keys. *)
Definition first_le {A} (a b : Z * A) : Prop := a.1 <= b.1.
#[global] Instance first_le_dec {A} (a b : Z * A) : Decision (first_le a b) := Z_le_dec a.1 b.1.
Definition ascending {A} (m : gmap Z A) : list (Z * A) := merge_sort first_le (map_to_list m).

Inductive FilterResult :=
| VALID_NO_TXS
| VALID_HAS_TXS
| MISSING_REQUIREMENT
| INVALID_DUPLICATE
| ACCOUNT_NEXIST
| OVERFLOW_REQ.
#[global] Instance FilterResult_eq_dec : EqDecision FilterResult.
Proof. solve_decision. Defined.

(** The values of the enumeration. *)
Definition result_code (r : FilterResult) : Z :=
  match r with
  | VALID_NO_TXS => 0
  | VALID_HAS_TXS => 1
  | MISSING_REQUIREMENT => -1
  | INVALID_DUPLICATE => -2
  | ACCOUNT_NEXIST => -3
  | OVERFLOW_REQ => -4
  end.

(** ** Accounts created by the transactions of a block *)
Module AccountCreationFilter.
(** [created_counts], a map to uint32_t *)
Definition t := gmap Z Z.
Definition is_valid_account_creation (f : t) (account : Z) : bool :=
  match f !! account with
  | None => true
  | Some n => n =? 1
  end.
Definition log_account_creation (f : t) (src : Z) : t := <[src := u32 (default 0 (f !! src) + 1)]> f.
Definition check_valid_tx (f : t) (tx : SignedTransaction) : bool :=
  forallb (fun op =>
    match op with
    | CREATE_ACCOUNT op => is_valid_account_creation f (newAccountId op)
    | _ => true
    end) (operations (transaction tx)).
Definition clear (f : t) : t := ∅.
End AccountCreationFilter.

(** ** The entry of one account *)
Module AccountFilterEntry.
Record t := mk {
  account : Z;
  min_seq_no : Z;
  initialized : bool;
  reqs_computed : bool;
  txs : gmap Z SignedTransaction;
  required_assets : gmap Z Z;
  consumed_cancel_ids : gset Z;
  found_bad_duplicate : bool;
  found_invalid_reqs : bool;
  found_account_nexist : bool;
  overflow_req : bool;
  double_cancel : bool;
  checked_reqs_cached : bool
}.
Implicit Types e : t.

Definition found_error e : bool :=
  found_bad_duplicate e || found_invalid_reqs e || found_account_nexist e || overflow_req e || double_cancel e.

Definition new (a : Z) : t := mk a UINT64_MAX true false ∅ ∅ ∅ false false false false false false.

Definition set_min_seq_no e n : t :=
  mk (account e) n (initialized e) (reqs_computed e) (txs e) (required_assets e) (consumed_cancel_ids e)
    (found_bad_duplicate e) (found_invalid_reqs e) (found_account_nexist e) (overflow_req e) (double_cancel e)
    (checked_reqs_cached e).
Definition set_txs e l : t :=
  mk (account e) (min_seq_no e) (initialized e) (reqs_computed e) l (required_assets e) (consumed_cancel_ids e)
    (found_bad_duplicate e) (found_invalid_reqs e) (found_account_nexist e) (overflow_req e) (double_cancel e)
    (checked_reqs_cached e).
Definition set_initialized e : t :=
  mk (account e) (min_seq_no e) true (reqs_computed e) (txs e) (required_assets e) (consumed_cancel_ids e)
    (found_bad_duplicate e) (found_invalid_reqs e) (found_account_nexist e) (overflow_req e) (double_cancel e)
    (checked_reqs_cached e).
Definition set_reqs_computed e : t :=
  mk (account e) (min_seq_no e) (initialized e) true (txs e) (required_assets e) (consumed_cancel_ids e)
    (found_bad_duplicate e) (found_invalid_reqs e) (found_account_nexist e) (overflow_req e) (double_cancel e)
    (checked_reqs_cached e).
Definition set_required e r : t :=
  mk (account e) (min_seq_no e) (initialized e) (reqs_computed e) (txs e) r (consumed_cancel_ids e)
    (found_bad_duplicate e) (found_invalid_reqs e) (found_account_nexist e) (overflow_req e) (double_cancel e)
    (checked_reqs_cached e).
Definition set_cancel_ids e c : t :=
  mk (account e) (min_seq_no e) (initialized e) (reqs_computed e) (txs e) (required_assets e) c
    (found_bad_duplicate e) (found_invalid_reqs e) (found_account_nexist e) (overflow_req e) (double_cancel e)
    (checked_reqs_cached e).
Definition set_errors e dup inv nex ovf dbl checked : t :=
  mk (account e) (min_seq_no e) (initialized e) (reqs_computed e) (txs e) (required_assets e)
    (consumed_cancel_ids e) dup inv nex ovf dbl checked.

Definition log_reqs_invalid e : t :=
  set_errors e (found_bad_duplicate e) true (found_account_nexist e) (overflow_req e) (double_cancel e) true.
Definition log_reqs_checked e : t :=
  set_errors e (found_bad_duplicate e) (found_invalid_reqs e) (found_account_nexist e) (overflow_req e)
    (double_cancel e) true.
Definition log_invalid_account e : t :=
  set_errors e (found_bad_duplicate e) (found_invalid_reqs e) true (overflow_req e) (double_cancel e)
    (checked_reqs_cached e).
Definition log_bad_duplicate e : t :=
  set_errors e true (found_invalid_reqs e) (found_account_nexist e) (overflow_req e) (double_cancel e)
    (checked_reqs_cached e).
Definition log_overflow_req e : t :=
  set_errors e (found_bad_duplicate e) (found_invalid_reqs e) (found_account_nexist e) true (double_cancel e)
    (checked_reqs_cached e).
Definition log_double_cancel e : t :=
  set_errors e (found_bad_duplicate e) (found_invalid_reqs e) (found_account_nexist e) (overflow_req e) true
    (checked_reqs_cached e).

Definition assert_initialized e : result unit := if initialized e then Ok tt else Throw "uninit".

Definition add_req e (asset amount : Z) : t :=
  if amount <? 0 then e
  else if found_error e then e
  else
    let r := default 0 (required_assets e !! asset) in
    if INT64_MAX <? amount + r
    then log_overflow_req (set_required e (<[asset := INT64_MAX]> (required_assets e)))
    else set_required e (<[asset := r + amount]> (required_assets e)).

Definition add_cancel_id e (id : Z) : t :=
  if decide (id ∈ consumed_cancel_ids e) then log_double_cancel e
  else set_cancel_ids e ({[id]} ∪ consumed_cancel_ids e).

(** *** What the transactions of the account need *)
Definition op_reqs e (f : AccountCreationFilter.t) (op : Operation) : result (t * AccountCreationFilter.t) :=
  match op with
  | CREATE_ACCOUNT op =>
      Ok (add_req e MemoryDatabase.NATIVE_ASSET (startingBalance op),
          AccountCreationFilter.log_account_creation f (newAccountId op))
  | CREATE_SELL_OFFER op => Ok (add_req e (sellAsset (cso_category op)) (cso_amount op), f)
  | CANCEL_SELL_OFFER op => Ok (add_cancel_id e (can_offerId op), f)
  | PAYMENT op => Ok (add_req e (pay_asset op) (pay_amount op), f)
  | MONEY_PRINTER _ => Ok (e, f)
  | OTHER_OPERATION _ => Throw "filtering unknown optype"
  end.
Fixpoint ops_reqs (ops : list Operation) e (f : AccountCreationFilter.t) : result (t * AccountCreationFilter.t) :=
  match ops with
  | [] => Ok (e, f)
  | op :: ops => let* q := op_reqs e f op in ops_reqs ops q.1 q.2
  end.
Fixpoint txs_reqs (l : list (Z * SignedTransaction)) e (f : AccountCreationFilter.t)
    : result (t * AccountCreationFilter.t) :=
  match l with
  | [] => Ok (e, f)
  | kv :: l =>
      let* q := ops_reqs (operations (transaction kv.2)) e f in
      txs_reqs l (add_req q.1 MemoryDatabase.NATIVE_ASSET (maxFee (transaction kv.2))) q.2
  end.
Definition compute_reqs e (f : AccountCreationFilter.t) : result (t * AccountCreationFilter.t) :=
  if reqs_computed e then Throw "double compute reqs"
  else
    let* q := txs_reqs (ascending (txs e)) e f in
    Ok (set_reqs_computed q.1, q.2).

(** *** Merging the logs of two threads *)

(** The entries left in [other.txs] after [txs.merge(other.txs)]. *)
Fixpoint check_merged (l : list (Z * SignedTransaction)) e : result t :=
  match l with
  | [] => Ok e
  | kv :: l =>
      match txs e !! kv.1 with
      | None => Throw "error in map merge"
      | Some tx => if decide (tx = kv.2) then check_merged l e else Ok (log_bad_duplicate e)
      end
  end.
Definition merge_in e (other : t) : result t :=
  let e := set_min_seq_no e (Z.min (min_seq_no e) (min_seq_no other)) in
  let e := set_errors e (found_bad_duplicate e || found_bad_duplicate other)
    (found_invalid_reqs e || found_invalid_reqs other) (found_account_nexist e || found_account_nexist other)
    (overflow_req e || overflow_req other) (double_cancel e) (checked_reqs_cached e) in
  if found_error e then Ok e
  else
    let* _ := assert_initialized other in
    if initialized e && negb (account other =? account e) then Throw "invalid merge"
    else
      let e := set_initialized e in
      if reqs_computed other || reqs_computed e then Throw "improper merge"
      else if checked_reqs_cached e then Throw "improper merge in post check"
      else
        let left := filter (fun kv => is_Some (txs e !! kv.1)) (txs other) in
        check_merged (ascending left) (set_txs e (txs e ∪ txs other)).

Definition check_valid e : result FilterResult :=
  if negb (checked_reqs_cached e) then Throw "check before computing valid or not"
  else Ok
    (if found_bad_duplicate e then INVALID_DUPLICATE
     else if found_account_nexist e then ACCOUNT_NEXIST
     else if found_invalid_reqs e then MISSING_REQUIREMENT
     else if overflow_req e then OVERFLOW_REQ
     else VALID_HAS_TXS).

Section Accounts.
Context {T : Type} `{SequenceTracker T} {TR : Type} `{MerkleTrie AccountCommitment TR} {L : Type} `{LMDBInstance L}.
Abbreviation DB := (MemoryDatabase.t T TR L).
Implicit Types db : DB.

(** [db.lookup_user], dereferenced *)
Definition find_account db (a : Z) : option (UserAccount.t T) :=
  i ← MemoryDatabase.lookup_user db a; MemoryDatabase.database db !! i.

Definition insert_tx e (tx : SignedTransaction) : t :=
  let seqno := sequenceNumber (metadata (transaction tx)) in
  if seqno <=? min_seq_no e then e
  else
    match txs e !! seqno with
    | Some tx_old => if decide (tx_old = tx) then e else log_bad_duplicate e
    | None => set_txs e (<[seqno := tx]> (txs e))
    end.
Definition add_tx e (tx : SignedTransaction) db : t :=
  if found_error e then e
  else if min_seq_no e =? UINT64_MAX then
    match find_account db (account e) with
    | None => log_reqs_invalid e
    | Some acc => insert_tx (set_min_seq_no e (UserAccount.get_last_committed_seq_number acc)) tx
    end
  else insert_tx e tx.

Fixpoint requirements_met (l : list (Z * Z)) (acc : UserAccount.t T) e : t :=
  match l with
  | [] => log_reqs_checked e
  | kv :: l =>
      if UserAccount.lookup_available_balance acc kv.1 <? kv.2 then log_reqs_invalid e
      else requirements_met l acc e
  end.
Definition compute_validity e db (f : AccountCreationFilter.t) : result (t * AccountCreationFilter.t) :=
  if checked_reqs_cached e then Throw "double check valid"
  else if found_error e then Ok (log_reqs_checked e, f)
  else
    let* _ := assert_initialized e in
    let* q := compute_reqs e f in
    match find_account db (account e) with
    | None => Ok (log_invalid_account q.1, q.2)
    | Some acc => Ok (requirements_met (ascending (required_assets q.1)) acc q.1, q.2)
    end.
End Accounts.
End AccountFilterEntry.
Abbreviation Entry := AccountFilterEntry.t.

(** ** The filter of a block *)
Module FilterLog.
Section Log.
Context {T : Type} `{SequenceTracker T} {TR : Type} `{MerkleTrie AccountCommitment TR} {L : Type} `{LMDBInstance L}.
Context {FT : Type} `{RecyclingTrie Entry FT}.
Abbreviation DB := (MemoryDatabase.t T TR L).
Implicit Types db : DB.

Record t := mk { entries : FT; accounts : AccountCreationFilter.t }.

(** [insert<AccountFilterInsertFn>]. *)
Definition insert_tx db (local_log : FT) (tx : SignedTransaction) : FT :=
  rt_insert AccountFilterEntry.new (fun e => AccountFilterEntry.add_tx e tx db) local_log
    (sourceAccount (metadata (transaction tx))).

(** The ranges one thread processed. *)
Definition local_log db (txs : list SignedTransaction) : FT := foldl (insert_tx db) rt_empty txs.

(** [entries.parallel_apply(validate_lambda)]; the entries share [accounts]. *)
Fixpoint validate_keys (keys : list Z) db (lg : t) : result t :=
  match keys with
  | [] => Ok lg
  | a :: keys =>
      match rt_get (entries lg) a with
      | None => validate_keys keys db lg
      | Some e =>
          let* q := AccountFilterEntry.compute_validity e db (accounts lg) in
          validate_keys keys db (mk (rt_set (entries lg) a q.1) q.2)
      end
  end.

(** [batches]: the transactions each thread took. *)
Definition add_txs (lg : t) (batches : list (list SignedTransaction)) db : result t :=
  let* merged := batch_merge_in AccountFilterEntry.merge_in (local_log db <$> batches) (entries lg) in
  validate_keys (rt_keys merged) db (mk merged (accounts lg)).

Definition check_valid_account (lg : t) (account : Z) : result FilterResult :=
  match rt_get (entries lg) account with
  | None => Ok VALID_NO_TXS
  | Some e => AccountFilterEntry.check_valid e
  end.
Definition check_valid_tx (lg : t) (tx : SignedTransaction) : result bool :=
  let* filter_res := check_valid_account lg (sourceAccount (metadata (transaction tx))) in
  if result_code filter_res <? 0 then Ok false
  else Ok (AccountCreationFilter.check_valid_tx (accounts lg) tx).
Definition clear (lg : t) : t := mk rt_empty (AccountCreationFilter.clear (accounts lg)).
End Log.
End FilterLog.
