(* ===== verification/FilterProps.v ===== *)
(** * What the transaction filter decides

    [FilterLog.add_txs] in any division of the transactions over threads: which
    entry an account ends with, when the filter lets its transactions through, and
    that accepted transactions do not get in each other's way. *)
From stdpp Require Import base gmap list strings sorting.
From S2P Require Import Prelude RecyclingTrie Types Asset SeqTracker Accounts AccountLmdb Database Filtering.
Import AccountFilterEntry.

(** ** Ascending iteration *)
#[local] Instance first_le_total {A} : Total (first_le (A := A)).
Proof. intros a b. unfold first_le. lia. Qed.
Lemma ascending_permutation {A} (m : gmap Z A) : ascending m ≡ₚ map_to_list m.
Proof. apply merge_sort_Permutation. Qed.
Lemma ascending_elem {A} (m : gmap Z A) k v : (k, v) ∈ ascending m <-> m !! k = Some v.
Proof. rewrite ascending_permutation. apply elem_of_map_to_list. Qed.
Lemma ascending_values_nodup {A} (m : gmap Z A) (key : A -> Z) :
  map_Forall (fun k v => key v = k) m -> NoDup (ascending m).*2.
Proof.
  intros Hk. rewrite ascending_permutation. apply NoDup_fmap_2_strong; [|apply NoDup_map_to_list].
  intros [k1 v1] [k2 v2] H1%elem_of_map_to_list H2%elem_of_map_to_list Hv. simpl in Hv. subst v2.
  f_equal. by rewrite <- (Hk _ _ H1), <- (Hk _ _ H2).
Qed.

(** ** The specification: what the accepted transactions of an account need *)
Definition source (tx : SignedTransaction) : Z := sourceAccount (metadata (transaction tx)).
Definition seqno (tx : SignedTransaction) : Z := sequenceNumber (metadata (transaction tx)).

Definition op_need (asset : Z) (op : Operation) : Z :=
  match op with
  | CREATE_ACCOUNT op => if decide (asset = MemoryDatabase.NATIVE_ASSET) then Z.max 0 (startingBalance op) else 0
  | CREATE_SELL_OFFER op => if decide (asset = sellAsset (cso_category op)) then Z.max 0 (cso_amount op) else 0
  | PAYMENT op => if decide (asset = pay_asset op) then Z.max 0 (pay_amount op) else 0
  | _ => 0
  end.
Definition tx_need (asset : Z) (tx : SignedTransaction) : Z :=
  sum_by (op_need asset) (operations (transaction tx))
  + if decide (asset = MemoryDatabase.NATIVE_ASSET) then Z.max 0 (maxFee (transaction tx)) else 0.

Definition op_cancels (op : Operation) : option Z :=
  match op with CANCEL_SELL_OFFER op => Some (can_offerId op) | _ => None end.
Definition op_creates (op : Operation) : option Z :=
  match op with CREATE_ACCOUNT op => Some (newAccountId op) | _ => None end.
Definition tx_cancels (tx : SignedTransaction) : list Z := omap op_cancels (operations (transaction tx)).
Definition tx_creates (tx : SignedTransaction) : list Z := omap op_creates (operations (transaction tx)).

Definition known_op (op : Operation) : Prop := match op with OTHER_OPERATION _ => False | _ => True end.
Definition known_ops (tx : SignedTransaction) : Prop := Forall known_op (operations (transaction tx)).

(** The transactions of [l] that the account [a] has not committed yet. *)
Definition pending (a c : Z) (l : list SignedTransaction) (tx : SignedTransaction) : Prop :=
  tx ∈ l /\ source tx = a /\ c < seqno tx.
Definition conflicting a c l : Prop :=
  exists tx1 tx2, pending a c l tx1 /\ pending a c l tx2 /\ seqno tx1 = seqno tx2 /\ tx1 <> tx2.
(** One transaction per sequence number. *)
Definition kept a c l (m : gmap Z SignedTransaction) : Prop :=
  forall n tx, m !! n = Some tx <-> pending a c l tx /\ seqno tx = n.

Record collected (a c : Z) (l : list SignedTransaction) (e : Entry) : Prop := {
  co_account : account e = a;
  co_initialized : initialized e = true;
  co_reqs : reqs_computed e = false;
  co_required : required_assets e = ∅;
  co_cancelled : consumed_cancel_ids e = ∅;
  co_invalid : found_invalid_reqs e = false;
  co_nexist : found_account_nexist e = false;
  co_overflow : overflow_req e = false;
  co_double : double_cancel e = false;
  co_checked : checked_reqs_cached e = false;
  co_min : min_seq_no e = UINT64_MAX \/ min_seq_no e = c;
  co_txs : if found_bad_duplicate e then conflicting a c l else kept a c l (txs e)
}.

Lemma pending_mono a c l1 l2 tx : l1 ⊆ l2 -> pending a c l1 tx -> pending a c l2 tx.
Proof. intros Hl (? & ? & ?). split_and!; auto. Qed.
Lemma conflicting_mono a c l1 l2 : l1 ⊆ l2 -> conflicting a c l1 -> conflicting a c l2.
Proof. intros Hl (t1 & t2 & H1 & H2 & ?). exists t1, t2. split_and!; eauto using pending_mono; tauto. Qed.
Lemma kept_consistent a c l m : kept a c l m -> ~ conflicting a c l.
Proof.
  intros Hk (t1 & t2 & H1 & H2 & En & Hne). apply Hne.
  assert (E1 : m !! seqno t1 = Some t1) by (by apply Hk). assert (E2 : m !! seqno t1 = Some t2) by (by apply Hk). congruence.
Qed.
Lemma collected_clean a c l e : collected a c l e -> found_error e = found_bad_duplicate e.
Proof. intros [????? H1 H2 H3 H4 ???]. unfold found_error. rewrite H1, H2, H3, H4. by rewrite !orb_false_r. Qed.

Lemma collected_new a c : collected a c [] (new a).
Proof.
  constructor; try done; [by left|]. intros n tx. split; [done|]. intros [(H & _) _]. by apply not_elem_of_nil in H.
Qed.

(** ** Collecting the transactions of an account *)
Section Collect.
Context {T : Type} `{SequenceTracker T} {TR : Type} `{MerkleTrie AccountCommitment TR} {L : Type} `{LMDBInstance L}.
Context {FT : Type} `{RecyclingTrie Entry FT}.
Abbreviation DB := (MemoryDatabase.t T TR L).
Implicit Types (db : DB) (tx : SignedTransaction) (l : list SignedTransaction) (e : Entry).

Definition committed (acc : UserAccount.t T) : Z := UserAccount.get_last_committed_seq_number acc.

Lemma insert_tx_collected a c l e tx :
  collected a c l e -> found_bad_duplicate e = false -> min_seq_no e = c -> source tx = a ->
  collected a c (l ++ [tx]) (insert_tx e tx).
Proof.
  intros C Hd Hm Ha. pose proof (co_txs _ _ _ _ C) as Hk. rewrite Hd in Hk. unfold kept in Hk. unfold insert_tx. fold (seqno tx). rewrite Hm.
  assert (Hl : l ⊆ l ++ [tx]) by (intros ? ?; apply elem_of_app; by left).
  destruct (Z.leb_spec (seqno tx) c) as [Hle|Hlt].
  { destruct C. constructor; try done. rewrite Hd. intros n t. rewrite Hk. split; intros [Hp En]; (split; [|done]).
    - by eapply pending_mono.
    - destruct Hp as ([Hin| ->%list_elem_of_singleton]%elem_of_app & ? & ?); [done|lia]. }
  destruct (txs e !! seqno tx) as [old|] eqn:E.
  - destruct (decide (old = tx)) as [->|Hne].
    + destruct C. constructor; try done. rewrite Hd. intros n t. rewrite Hk. split; intros [Hp En]; (split; [|done]).
      * by eapply pending_mono.
      * destruct Hp as ([Hin| ->%list_elem_of_singleton]%elem_of_app & ? & ?); [done|]. by apply Hk in E as [Hp _].
    + destruct C. constructor; try done. simpl. apply Hk in E as [Hp En]. exists old, tx. split_and!; try done.
      * by eapply pending_mono.
      * split_and!; try done. apply elem_of_app. right. by apply list_elem_of_singleton.
  - destruct C. constructor; try done. simpl. rewrite Hd. intros n t. rewrite lookup_insert_Some, Hk. split.
    + intros [[<- <-]|[Hne [Hp En]]].
      * split; [|done]. split_and!; try done. apply elem_of_app. right. by apply list_elem_of_singleton.
      * split; [by eapply pending_mono|done].
    + intros [([Hin| ->%list_elem_of_singleton]%elem_of_app & Hs & Hf) <-]; [right|by left].
      assert (Hp : txs e !! seqno t = Some t) by (by apply Hk). split; [|done]. intros En. rewrite En in E. congruence.
Qed.

Lemma add_tx_collected db a acc l e tx :
  find_account db a = Some acc -> source tx = a -> collected a (committed acc) l e ->
  collected a (committed acc) (l ++ [tx]) (add_tx e tx db).
Proof.
  intros Ha Hs C. unfold add_tx. rewrite (collected_clean _ _ _ _ C).
  destruct (found_bad_duplicate e) eqn:Hd.
  { destruct C as [????????? ? ? Ht]. constructor; try done. rewrite Hd in *. eapply conflicting_mono; [|done].
    intros ? ?; apply elem_of_app; by left. }
  rewrite (co_account _ _ _ _ C), Ha. destruct (Z.eqb_spec (min_seq_no e) UINT64_MAX) as [Hm|Hm].
  - apply insert_tx_collected; [|done..]. destruct C. constructor; try done. by right.
  - apply insert_tx_collected; [done..| |done]. destruct (co_min _ _ _ _ C); [done|done].
Qed.

(** An account that does not exist ends with the flags of a checked entry. *)
Definition missing e : Prop := found_invalid_reqs e = true /\ checked_reqs_cached e = true.
Lemma missing_found e : missing e -> found_error e = true.
Proof. intros [Hi _]. unfold found_error. rewrite Hi. by rewrite !orb_true_r. Qed.
Lemma add_tx_missing db e tx : missing e -> missing (add_tx e tx db).
Proof. intros M. unfold add_tx. by rewrite missing_found. Qed.

(** The entry of [a] in a log of the transactions [l]. *)
Definition entry_of db l (a : Z) (o : option Entry) : Prop :=
  match o with
  | None => forall tx, tx ∈ l -> source tx <> a
  | Some e =>
      (exists tx, tx ∈ l /\ source tx = a) /\
      match find_account db a with
      | Some acc => collected a (committed acc) l e
      | None => missing e
      end
  end.
Definition log_of db l (tr : FT) : Prop := forall a, entry_of db l a (rt_map tr !! a).

Lemma collected_ext a c l1 l2 e :
  (forall tx, source tx = a -> tx ∈ l1 <-> tx ∈ l2) -> collected a c l1 e -> collected a c l2 e.
Proof.
  intros Hl C. assert (Hp : forall tx, pending a c l1 tx <-> pending a c l2 tx).
  { intros tx. unfold pending. split; intros (Hin & Hs & Hc); (split; [by apply (Hl tx Hs)|done]). }
  destruct C as [?????????? ? Ht]. constructor; try done. destruct (found_bad_duplicate e).
  - destruct Ht as (t1 & t2 & Hp1 & Hp2 & ?). exists t1, t2. by rewrite <- !Hp.
  - unfold kept in Ht. intros n tx. by rewrite Ht, Hp.
Qed.
Lemma entry_of_ext db l1 l2 a o :
  (forall tx, source tx = a -> tx ∈ l1 <-> tx ∈ l2) -> entry_of db l1 a o -> entry_of db l2 a o.
Proof.
  intros Hl. destruct o as [e|]; simpl.
  - intros [(tx & Hin & Hs) He]. split; [exists tx; split; [by apply Hl|done]|].
    destruct (find_account db a); [|done]. by eapply collected_ext.
  - intros Hn tx Hin Hs. by apply (Hn tx); [apply Hl|].
Qed.

Lemma insert_tx_log db l tr tx : log_of db l tr -> log_of db (l ++ [tx]) (FilterLog.insert_tx db tr tx).
Proof.
  intros Hl a. unfold FilterLog.insert_tx, rt_insert. fold (source tx). rewrite rt_set_map, rt_get_map.
  destruct (decide (a = source tx)) as [->|Hne].
  2:{ rewrite lookup_insert_ne by done. apply (entry_of_ext db l), Hl. intros t Ht. rewrite elem_of_app, list_elem_of_singleton.
      split; [by left|]. intros [?| ->]; congruence. }
  rewrite lookup_insert_eq. specialize (Hl (source tx)). split.
  { exists tx. split; [apply elem_of_app; right; by apply list_elem_of_singleton|done]. }
  destruct (rt_map tr !! source tx) as [e|]; simpl in *.
  - destruct Hl as [_ He]. destruct (find_account db (source tx)) as [acc|] eqn:Ha; [by apply add_tx_collected|by apply add_tx_missing].
  - destruct (find_account db (source tx)) as [acc|] eqn:Ha.
    + apply (collected_ext _ _ ([] ++ [tx])); [|by apply add_tx_collected, collected_new]. intros t Ht. simpl.
      rewrite elem_of_app. split; [by right|]. intros [?|?]; [by destruct (Hl t)|done].
    + unfold add_tx. simpl. rewrite Ha. done.
Qed.
Lemma local_log_spec db l : log_of db l (FilterLog.local_log db l).
Proof.
  unfold FilterLog.local_log. induction l as [|tx l IH] using rev_ind.
  - intros a. simpl. rewrite rt_map_empty, lookup_empty. simpl. intros tx Hin. by apply not_elem_of_nil in Hin.
  - rewrite foldl_app. by apply insert_tx_log.
Qed.

(** ** Merging *)
Lemma check_merged_spec (left : list (Z * SignedTransaction)) e :
  (forall kv, kv ∈ left -> is_Some (txs e !! kv.1)) ->
  check_merged left e =
    Ok (if decide (Forall (fun kv => txs e !! kv.1 = Some kv.2) left) then e else log_bad_duplicate e).
Proof.
  induction left as [|kv left IH]; intros Hl; cbn [check_merged]; [by rewrite decide_True by constructor|].
  destruct (Hl kv) as [tx Htx]; [by left|]. rewrite Htx. destruct (decide (tx = kv.2)) as [->|Hne].
  - rewrite IH by (intros; apply Hl; by right). f_equal. apply decide_ext. rewrite Forall_cons. tauto.
  - rewrite decide_False; [done|]. rewrite Forall_cons. intros [? _]. congruence.
Qed.

Lemma union_kept a c l1 l2 m1 m2 :
  kept a c l1 m1 -> kept a c l2 m2 ->
  Forall (fun kv => (m1 ∪ m2) !! kv.1 = Some kv.2) (ascending (filter (fun kv => is_Some (m1 !! kv.1)) m2)) ->
  kept a c (l1 ++ l2) (m1 ∪ m2).
Proof.
  unfold kept. intros Ka Kb Hall n tx. rewrite lookup_union_Some_raw, Ka, Kb. split.
  - intros [[Hp En]|[_ [Hp En]]]; (split; [|done]); (eapply pending_mono; [|done]); intros ? ?; apply elem_of_app; tauto.
  - intros [(Hin & Hs & Hc) En]. destruct (m1 !! n) as [tx1|] eqn:E1.
    + left. apply elem_of_app in Hin as [Hin|Hin]; [done|].
      assert (E2 : m2 !! n = Some tx) by (by apply Kb). rewrite Forall_forall in Hall.
      specialize (Hall (n, tx)). rewrite ascending_elem, map_lookup_filter_Some in Hall.
      specialize (Hall (conj E2 (ex_intro _ _ E1))). simpl in Hall.
      rewrite (lookup_union_Some_l _ _ _ _ E1) in Hall. injection Hall as ->. by apply Ka in E1.
    + right. split; [done|]. apply elem_of_app in Hin as [Hin|Hin]; [|done].
      assert (m1 !! n = Some tx) by (by apply Ka). congruence.
Qed.

Lemma union_conflict a c l1 l2 m1 m2 :
  kept a c l1 m1 -> kept a c l2 m2 ->
  ~ Forall (fun kv => (m1 ∪ m2) !! kv.1 = Some kv.2) (ascending (filter (fun kv => is_Some (m1 !! kv.1)) m2)) ->
  conflicting a c (l1 ++ l2).
Proof.
  unfold kept. intros Ka Kb Hall. apply not_Forall_Exists in Hall; [|intros ?; apply option_eq_dec].
  apply Exists_exists in Hall as ([n tx2] & Hin & Hne). apply ascending_elem, map_lookup_filter_Some in Hin as [E2 [tx1 E1]].
  simpl in *. rewrite (lookup_union_Some_l _ _ _ _ E1) in Hne. apply Ka in E1 as [P1 N1]. apply Kb in E2 as [P2 N2].
  exists tx1, tx2. split_and!; [| |congruence|congruence]; (eapply pending_mono; [|done]); intros ? ?; apply elem_of_app; tauto.
Qed.

Lemma merge_collected a c l1 l2 e1 e2 :
  collected a c l1 e1 -> collected a c l2 e2 -> exists e, merge_in e1 e2 = Ok e /\ collected a c (l1 ++ l2) e.
Proof.
  intros C1 C2. pose proof (co_txs _ _ _ _ C1) as K1. pose proof (co_txs _ _ _ _ C2) as K2.
  assert (Hl1 : l1 ⊆ l1 ++ l2) by (intros ? ?; apply elem_of_app; by left).
  assert (Hl2 : l2 ⊆ l1 ++ l2) by (intros ? ?; apply elem_of_app; by right).
  assert (Hm : Z.min (min_seq_no e1) (min_seq_no e2) = UINT64_MAX \/ Z.min (min_seq_no e1) (min_seq_no e2) = c).
  { destruct (co_min _ _ _ _ C1) as [-> | ->], (co_min _ _ _ _ C2) as [-> | ->]; lia. }
  unfold merge_in, found_error. simpl.
  destruct C1 as [A1 I1 R1 Q1 S1 V1 N1 O1 D1 X1 _ _], C2 as [A2 I2 R2 Q2 S2 V2 N2 O2 D2 X2 _ _].
  rewrite V1, V2, N1, N2, O1, O2, D1, X1, I1, R1, R2, A1, A2, Z.eqb_refl. unfold assert_initialized. rewrite I2. simpl.
  destruct (found_bad_duplicate e1) eqn:B1; simpl; rewrite ?B1 in *.
  { eexists. split; [done|]. constructor; try done. exact (conflicting_mono _ _ _ _ Hl1 K1). }
  destruct (found_bad_duplicate e2) eqn:B2; simpl; rewrite ?B2 in *.
  { eexists. split; [done|]. constructor; try done. exact (conflicting_mono _ _ _ _ Hl2 K2). }
  rewrite check_merged_spec; simpl.
  - eexists. split; [done|]. case_decide as Hall; constructor; try done; simpl.
    + by apply union_kept.
    + by eapply union_conflict.
  - intros [n tx] Hin. apply ascending_elem, map_lookup_filter_Some in Hin as [_ [tx1 E1]]. simpl in *.
    exists tx1. by apply lookup_union_Some_l.
Qed.
Lemma merge_missing e1 e2 : missing e1 -> missing e2 -> exists e, merge_in e1 e2 = Ok e /\ missing e.
Proof.
  intros [V1 X1] [V2 X2]. unfold merge_in, found_error. simpl. rewrite V1, V2. simpl. rewrite !orb_true_r. simpl.
  eexists. split; [done|]. by split.
Qed.

Lemma merge_entries db a l1 l2 e1 e2 :
  entry_of db l1 a (Some e1) -> entry_of db l2 a (Some e2) ->
  exists e, merge_in e1 e2 = Ok e /\ entry_of db (l1 ++ l2) a (Some e).
Proof.
  intros [(tx1 & Hin1 & Hs1) E1] [(tx2 & Hin2 & Hs2) E2].
  assert (Hin : exists tx, tx ∈ l1 ++ l2 /\ source tx = a) by (exists tx1; split; [apply elem_of_app; by left|done]).
  destruct (find_account db a) as [acc|] eqn:Ha.
  - destruct (merge_collected _ _ _ _ _ _ E1 E2) as (e' & -> & Ce). exists e'. split; [done|]. split; [done|by rewrite Ha].
  - destruct (merge_missing _ _ E1 E2) as (e' & -> & Ce). exists e'. split; [done|]. split; [done|by rewrite Ha].
Qed.
Lemma merge_entry_left db a l1 l2 o : entry_of db l1 a o -> entry_of db l2 a None -> entry_of db (l1 ++ l2) a o.
Proof.
  intros E1 E2. eapply entry_of_ext; [|exact E1]. intros tx Hs. rewrite elem_of_app. split; [by left|].
  intros [?|?]; [done|by destruct (E2 tx)].
Qed.
Lemma merge_entry_right db a l1 l2 o : entry_of db l1 a None -> entry_of db l2 a o -> entry_of db (l1 ++ l2) a o.
Proof.
  intros E1 E2. eapply entry_of_ext; [|exact E2]. intros tx Hs. rewrite elem_of_app. split; [by right|].
  intros [?|?]; [by destruct (E1 tx)|done].
Qed.

Lemma merged_log db (batches : list (list SignedTransaction)) l (into : FT) :
  rt_map into = ∅ -> concat batches ≡ₚ l ->
  exists merged, batch_merge_in merge_in (FilterLog.local_log db <$> batches) into = Ok merged /\ log_of db l merged.
Proof.
  intros He Hp.
  destruct (batch_merge_spec merge_in (fun k l => entry_of db l k) (fun k l1 l2 => merge_entries db k l1 l2)
    (fun k l1 l2 => merge_entry_left db k l1 l2) (fun k l1 l2 => merge_entry_right db k l1 l2)
    batches (FilterLog.local_log db <$> batches) into []) as (merged & Hm & Hl).
  - intros a. rewrite He, lookup_empty. intros tx Hin. by apply not_elem_of_nil in Hin.
  - apply Forall2_fmap_r, Forall_Forall2_diag, Forall_forall. intros b _ a. apply local_log_spec.
  - exists merged. split; [done|]. intros a. eapply entry_of_ext; [|apply Hl]. intros tx _. by rewrite Hp.
Qed.
End Collect.

(** ** Requirements *)

(** [e] is [e0] after the requirements [g] and the cancellations [cs]. *)
Record counted (e0 e : Entry) (g : Z -> Z) (cs : list Z) : Prop := {
  cn_account : account e = account e0;
  cn_txs : txs e = txs e0;
  cn_reqs : reqs_computed e = false;
  cn_duplicate : found_bad_duplicate e = false;
  cn_invalid : found_invalid_reqs e = false;
  cn_nexist : found_account_nexist e = false;
  cn_double : double_cancel e = false;
  cn_checked : checked_reqs_cached e = false;
  cn_cancelled : consumed_cancel_ids e = list_to_set cs;
  cn_required :
    if overflow_req e then exists asset, INT64_MAX < g asset
    else forall asset, default 0 (required_assets e !! asset) = g asset /\ 0 <= g asset <= INT64_MAX
}.

Lemma counted_ext e0 e g g' cs : (forall x, g x = g' x) -> counted e0 e g cs -> counted e0 e g' cs.
Proof.
  intros Hg [????????? Hr]. constructor; try done. destruct (overflow_req e).
  - destruct Hr as [x Hx]. exists x. by rewrite <- Hg.
  - intros x. by rewrite <- Hg.
Qed.

Definition at_point (asset amount x : Z) : Z := if decide (x = asset) then Z.max 0 amount else 0.

Lemma add_req_counted e0 e g cs asset amount :
  counted e0 e g cs -> counted e0 (add_req e asset amount) (fun x => g x + at_point asset amount x) cs.
Proof.
  intros C. unfold add_req. destruct (Z.ltb_spec amount 0) as [Hneg|Hpos].
  { eapply counted_ext; [|exact C]. intros x. unfold at_point. case_decide; lia. }
  destruct C as [??? D V N B X K Hr]. assert (Hp : forall x, 0 <= at_point asset amount x) by (intros; unfold at_point; case_decide; lia).
  unfold found_error. rewrite D, V, N, B. simpl. rewrite orb_false_r. destruct (overflow_req e) eqn:O.
  { constructor; try done. rewrite O. destruct Hr as [x Hx]. exists x. specialize (Hp x). lia. }
  destruct (Hr asset) as [Ha Hb]. rewrite Ha. destruct (Z.ltb_spec INT64_MAX (amount + g asset)).
  - constructor; try done. simpl. exists asset. unfold at_point. rewrite decide_True by done. lia.
  - constructor; try done. simpl. rewrite O. intros x. destruct (Hr x) as [Hx Hy]. unfold at_point. case_decide as Hd.
    + subst x. rewrite lookup_insert_eq. simpl. lia.
    + rewrite lookup_insert_ne by done. lia.
Qed.
Lemma add_cancel_counted e0 e g cs id :
  counted e0 e g cs -> id ∉ cs -> counted e0 (add_cancel_id e id) g (cs ++ [id]).
Proof.
  intros [????????? Hr] Hid. unfold add_cancel_id. rewrite decide_False by set_solver.
  constructor; try done. simpl. rewrite list_to_set_app_L. set_solver.
Qed.

Lemma op_reqs_counted e0 e g cs f op :
  counted e0 e g cs -> known_op op -> NoDup (cs ++ option_list (op_cancels op)) ->
  exists e' f', op_reqs e f op = Ok (e', f') /\
    counted e0 e' (fun x => g x + op_need x op) (cs ++ option_list (op_cancels op)).
Proof.
  intros C Hk Hnd. destruct op as [op|op|op|op|op|]; simpl in *; [..|done]; eexists _, _; (split; [reflexivity|]);
    rewrite ?app_nil_r.
  1,2,4: eapply counted_ext; [|by apply add_req_counted]; intros x; unfold at_point; by repeat case_decide.
  - eapply counted_ext; [|apply add_cancel_counted; [exact C|]]; [intros x; lia|].
    apply NoDup_app in Hnd as (_ & Hd & _). intros Hin. apply (Hd _ Hin). by left.
  - eapply counted_ext; [|exact C]. intros x. lia.
Qed.
Lemma ops_reqs_counted e0 ops e g cs f :
  counted e0 e g cs -> Forall known_op ops -> NoDup (cs ++ omap op_cancels ops) ->
  exists e' f', ops_reqs ops e f = Ok (e', f') /\
    counted e0 e' (fun x => g x + sum_by (op_need x) ops) (cs ++ omap op_cancels ops).
Proof.
  revert e g cs f. induction ops as [|op ops IH]; intros e g cs f C Hk Hnd; cbn [ops_reqs].
  { exists e, f. simpl. rewrite app_nil_r. split; [done|]. eapply counted_ext; [|exact C]. intros x. rewrite sum_by_nil. lia. }
  apply Forall_cons in Hk as [Hop Hk].
  assert (Eo : omap op_cancels (op :: ops) = option_list (op_cancels op) ++ omap op_cancels ops).
  { cbn [omap list_omap]. by destruct (op_cancels op). }
  rewrite Eo, app_assoc in *.
  destruct (op_reqs_counted _ _ _ _ f op C Hop) as (e1 & f1 & -> & C1); [by apply NoDup_app in Hnd as [? _]|]. simpl.
  destruct (IH e1 _ _ f1 C1 Hk Hnd) as (e2 & f2 & -> & C2). exists e2, f2. split; [done|].
  eapply counted_ext; [|exact C2]. intros x. rewrite sum_by_cons. simpl. lia.
Qed.
Lemma txs_reqs_counted e0 (l : list (Z * SignedTransaction)) e g cs f :
  counted e0 e g cs -> Forall known_ops l.*2 -> NoDup (cs ++ (l.*2 ≫= tx_cancels)) ->
  exists e' f', txs_reqs l e f = Ok (e', f') /\
    counted e0 e' (fun x => g x + sum_by (tx_need x) l.*2) (cs ++ (l.*2 ≫= tx_cancels)).
Proof.
  revert e g cs f. induction l as [|[n tx] l IH]; intros e g cs f C Hk Hnd; cbn [txs_reqs].
  { exists e, f. simpl. rewrite app_nil_r. split; [done|]. eapply counted_ext; [|exact C]. intros x. rewrite sum_by_nil. lia. }
  rewrite fmap_cons in *. apply Forall_cons in Hk as [Htx Hk]. cbn [mbind list_bind snd] in *. rewrite app_assoc in *.
  destruct (ops_reqs_counted e0 _ _ _ _ f C Htx) as (e1 & f1 & -> & C1); [by apply NoDup_app in Hnd as [? _]|]. simpl.
  destruct (IH _ _ _ f1 (add_req_counted _ _ _ _ MemoryDatabase.NATIVE_ASSET (maxFee (transaction tx)) C1) Hk Hnd)
    as (e2 & f2 & -> & C2). exists e2, f2. split; [done|].
  eapply counted_ext; [|exact C2]. intros x. rewrite sum_by_cons. cbn [snd].
  assert (En : tx_need x tx = sum_by (op_need x) (operations (transaction tx))
    + at_point MemoryDatabase.NATIVE_ASSET (maxFee (transaction tx)) x) by done. lia.
Qed.

(** ** Created accounts *)
Definition count_of (f : AccountCreationFilter.t) (n : Z) : Z := default 0 (f !! n).
Definition occurrences (n : Z) (l : list Z) : Z := sum_by (fun m => if decide (m = n) then 1 else 0) l.

Lemma occurrences_app n l1 l2 : occurrences n (l1 ++ l2) = occurrences n l1 + occurrences n l2.
Proof. apply sum_by_app. Qed.
Lemma occurrences_nonneg n l : 0 <= occurrences n l.
Proof. apply sum_by_nonneg, Forall_true. intros a. case_decide; lia. Qed.
Lemma occurrences_elem n l : n ∈ l -> 1 <= occurrences n l.
Proof.
  intros Hin. etrans; [|apply (sum_by_elem_le (fun m => if decide (m = n) then 1 else 0) l n)]; [by rewrite decide_True| |done].
  apply Forall_true. intros a. case_decide; lia.
Qed.
Lemma occurrences_length n l : occurrences n l <= Z.of_nat (length l).
Proof.
  unfold occurrences. induction l as [|a l IH]; [by rewrite sum_by_nil|]. rewrite sum_by_cons. simpl length. case_decide; lia.
Qed.

Lemma occurrences_submseteq n l1 l2 : l1 ⊆+ l2 -> occurrences n l1 <= occurrences n l2.
Proof.
  intros [k ->]%submseteq_Permutation. rewrite occurrences_app. pose proof (occurrences_nonneg n k). lia.
Qed.
Lemma occurrences_nodup l : (forall n, n ∈ l -> occurrences n l <= 1) -> NoDup l.
Proof.
  induction l as [|a l IH]; intros Hl; constructor.
  - intros Ha. specialize (Hl a (list_elem_of_here _ _)). pose proof (occurrences_elem a l Ha).
    unfold occurrences in *. rewrite sum_by_cons, decide_True in Hl by done. lia.
  - apply IH. intros n Hn. specialize (Hl n (list_elem_of_further _ _ _ Hn)). unfold occurrences in *.
    rewrite sum_by_cons in Hl. case_decide; lia.
Qed.

(** [f'] is [f] after the creations [l]. *)
Definition created (f f' : AccountCreationFilter.t) (l : list Z) : Prop :=
  forall n, u32 (count_of f' n) = u32 (count_of f n + occurrences n l) /\ (n ∈ l -> is_Some (f' !! n)) /\
    (is_Some (f !! n) -> is_Some (f' !! n)) /\
    (u32 (count_of f n) = count_of f n -> u32 (count_of f' n) = count_of f' n).
Lemma created_nil f : created f f [].
Proof.
  intros n. split_and!; [f_equal; unfold occurrences; rewrite sum_by_nil; lia|by intros ?%not_elem_of_nil|done|done].
Qed.
Lemma created_trans f1 f2 f3 l1 l2 : created f1 f2 l1 -> created f2 f3 l2 -> created f1 f3 (l1 ++ l2).
Proof.
  intros C1 C2 n. destruct (C1 n) as (E1 & I1 & S1 & R1), (C2 n) as (E2 & I2 & S2 & R2).
  split_and!; [|rewrite elem_of_app; tauto|tauto|tauto].
  rewrite E2, occurrences_app. unfold u32 in *. rewrite <- Zplus_mod_idemp_l, E1, Zplus_mod_idemp_l. f_equal. lia.
Qed.
Lemma created_log f a : created f (AccountCreationFilter.log_account_creation f a) [a].
Proof.
  intros n. unfold AccountCreationFilter.log_account_creation, count_of, occurrences, AccountCreationFilter.t in *.
  rewrite sum_by_cons, sum_by_nil. destruct (decide (a = n)) as [->|Hne].
  - rewrite lookup_insert_eq. simpl. unfold u32. rewrite Zmod_mod. split_and!; [by rewrite Z.add_0_r|eauto|eauto|done].
  - rewrite lookup_insert_ne by done. split_and!; [f_equal; lia| |done|done]. intros ->%list_elem_of_singleton. done.
Qed.
Lemma created_count f' l n :
  created ∅ f' l -> Z.of_nat (length l) < 2 ^ 32 -> count_of f' n = occurrences n l.
Proof.
  intros C Hl. destruct (C n) as (E & _ & _ & R). assert (E0 : count_of ∅ n = 0) by reflexivity. rewrite E0 in *.
  rewrite <- R by done. rewrite E. apply Z.mod_small.
  pose proof (occurrences_nonneg n l). pose proof (occurrences_length n l). lia.
Qed.

Lemma op_reqs_created e f op : known_op op ->
  exists e' f', op_reqs e f op = Ok (e', f') /\ created f f' (option_list (op_creates op)).
Proof.
  intros Hk. destruct op; simpl in *; try done; eexists _, _; (split; [reflexivity|]); try apply created_nil. apply created_log.
Qed.
Lemma ops_reqs_created ops e f : Forall known_op ops ->
  exists e' f', ops_reqs ops e f = Ok (e', f') /\ created f f' (omap op_creates ops).
Proof.
  revert e f. induction ops as [|op ops IH]; intros e f Hk; cbn [ops_reqs].
  { exists e, f. split; [done|apply created_nil]. }
  apply Forall_cons in Hk as [Hop Hk]. destruct (op_reqs_created e f op Hop) as (e1 & f1 & -> & C1). cbn [result_bind fst snd].
  destruct (IH e1 f1 Hk) as (e2 & f2 & -> & C2). exists e2, f2. split; [done|].
  assert (Eo : omap op_creates (op :: ops) = option_list (op_creates op) ++ omap op_creates ops).
  { cbn [omap list_omap]. by destruct (op_creates op). }
  rewrite Eo. by eapply created_trans.
Qed.
Lemma txs_reqs_created (l : list (Z * SignedTransaction)) e f : Forall known_ops l.*2 ->
  exists e' f', txs_reqs l e f = Ok (e', f') /\ created f f' (l.*2 ≫= tx_creates).
Proof.
  revert e f. induction l as [|[n tx] l IH]; intros e f Hk; cbn [txs_reqs].
  { exists e, f. split; [done|apply created_nil]. }
  rewrite fmap_cons in Hk. apply Forall_cons in Hk as [Htx Hk]. cbn [snd].
  destruct (ops_reqs_created (operations (transaction tx)) e f Htx) as (e1 & f1 & -> & C1). cbn [result_bind fst snd].
  destruct (IH (add_req e1 MemoryDatabase.NATIVE_ASSET (maxFee (transaction tx))) f1 Hk) as (e2 & f2 & -> & C2).
  exists e2, f2. split; [done|]. simpl. by eapply created_trans.
Qed.

(** ** Checking one account *)
Section Check.
Context {T : Type} `{SequenceTracker T} {TR : Type} `{MerkleTrie AccountCommitment TR} {L : Type} `{LMDBInstance L}.
Context {FT : Type} `{RecyclingTrie Entry FT}.
Abbreviation DB := (MemoryDatabase.t T TR L).
Implicit Types (acc : UserAccount.t T) (db : DB) (tx : SignedTransaction) (l : list SignedTransaction) (e : Entry).

(** The transactions [compute_reqs] visits. *)
Definition visited e : list SignedTransaction := if found_bad_duplicate e then [] else (ascending (txs e)).*2.

Lemma visited_pending a c l e tx : collected a c l e -> tx ∈ visited e -> pending a c l tx.
Proof.
  intros C Hin. pose proof (co_txs _ _ _ _ C) as Hk. unfold visited in Hin.
  destruct (found_bad_duplicate e); [by apply not_elem_of_nil in Hin|].
  apply list_elem_of_fmap in Hin as ([n t] & -> & Hin). apply ascending_elem, Hk in Hin. tauto.
Qed.
Lemma pending_visited a c l e tx :
  collected a c l e -> found_bad_duplicate e = false -> pending a c l tx -> tx ∈ visited e.
Proof.
  intros C Hd Hp. pose proof (co_txs _ _ _ _ C) as Hk. unfold visited. rewrite Hd in *.
  apply list_elem_of_fmap. exists (seqno tx, tx). split; [done|]. by apply ascending_elem, Hk.
Qed.
Lemma visited_nodup a c l e : collected a c l e -> NoDup (visited e).
Proof.
  intros C. pose proof (co_txs _ _ _ _ C) as Hk. unfold visited. destruct (found_bad_duplicate e); [constructor|].
  apply (ascending_values_nodup _ seqno). intros n tx Hn. by apply Hk in Hn as [_ ?].
Qed.
Lemma visited_known a c l e : collected a c l e -> Forall known_ops l -> Forall known_ops (visited e).
Proof.
  intros C Hk. apply Forall_forall. intros tx Hin. eapply Forall_forall in Hk; [exact Hk|].
  by eapply visited_pending in Hin as [? _].
Qed.

Lemma compute_validity_created db a acc l e f :
  find_account db a = Some acc -> collected a (committed acc) l e -> Forall known_ops l ->
  exists e' f', compute_validity e db f = Ok (e', f') /\ created f f' (visited e ≫= tx_creates).
Proof.
  intros Ha C Hk. pose proof (visited_known _ _ _ _ C Hk) as Hv. unfold compute_validity, compute_reqs, visited in *.
  rewrite (co_checked _ _ _ _ C), (collected_clean _ _ _ _ C), (co_reqs _ _ _ _ C), (co_account _ _ _ _ C), Ha.
  unfold assert_initialized. rewrite (co_initialized _ _ _ _ C).
  destruct (found_bad_duplicate e). { eexists _, _. split; [done|apply created_nil]. }
  destruct (txs_reqs_created _ e f Hv) as (e1 & f1 & -> & Hc). cbn [result_bind fst snd]. by eexists _, _.
Qed.

Lemma requirements_met_spec (l : list (Z * Z)) acc e :
  requirements_met l acc e =
    if decide (Forall (fun kv => kv.2 <= UserAccount.lookup_available_balance acc kv.1) l)
    then log_reqs_checked e else log_reqs_invalid e.
Proof.
  induction l as [|kv l IH]; cbn [requirements_met]; [by rewrite decide_True by constructor|].
  destruct (Z.ltb_spec (UserAccount.lookup_available_balance acc kv.1) kv.2).
  - rewrite decide_False; [done|]. rewrite Forall_cons. lia.
  - rewrite IH. apply decide_ext. rewrite Forall_cons. tauto.
Qed.

(** Everything the transactions need is available. *)
Definition covered (acc : UserAccount.t T) (l : list SignedTransaction) : Prop :=
  forall asset, sum_by (tx_need asset) l <= UserAccount.lookup_available_balance acc asset.

Definition balances_ok (acc : UserAccount.t T) : Prop :=
  forall asset, 0 <= UserAccount.lookup_available_balance acc asset <= INT64_MAX.

Lemma counted_start a c l e : collected a c l e -> found_bad_duplicate e = false -> counted e e (fun _ => 0) [].
Proof.
  intros [????? ? ? Ho ? ? ? _] Hd. constructor; try done. rewrite Ho. intros x.
  assert (Er : required_assets e = ∅) by done. rewrite Er, lookup_empty. simpl. unfold INT64_MAX. lia.
Qed.

Lemma required_met e0 e1 g cs acc :
  counted e0 e1 g cs -> balances_ok acc -> overflow_req e1 = false ->
  Forall (fun kv => kv.2 <= UserAccount.lookup_available_balance acc kv.1) (ascending (required_assets e1)) <->
  forall x, g x <= UserAccount.lookup_available_balance acc x.
Proof.
  intros C Hb Ho. pose proof (cn_required _ _ _ _ C) as Hr. rewrite Ho in Hr. rewrite Forall_forall. split.
  - intros Hall x. destruct (Hr x) as [Hx _]. destruct (required_assets e1 !! x) as [r|] eqn:E; simpl in Hx.
    + subst r. apply (Hall (x, g x)). by apply ascending_elem.
    + rewrite <- Hx. apply Hb.
  - intros Hall [x r] Hin%ascending_elem. simpl. destruct (Hr x) as [Hx _]. rewrite Hin in Hx. simpl in Hx. rewrite Hx. apply Hall.
Qed.

(** The verdict on an account. *)
Lemma compute_validity_verdict db a acc l e f :
  find_account db a = Some acc -> balances_ok acc -> collected a (committed acc) l e -> Forall known_ops l ->
  NoDup (visited e ≫= tx_cancels) ->
  exists e' f' r, compute_validity e db f = Ok (e', f') /\ check_valid e' = Ok r /\
    (r = VALID_HAS_TXS <-> found_bad_duplicate e = false /\ covered acc (visited e)) /\ r <> VALID_NO_TXS.
Proof.
  intros Ha Hb C Hk Hnd. pose proof (visited_known _ _ _ _ C Hk) as Hv. unfold compute_validity, compute_reqs, visited in *.
  rewrite (co_checked _ _ _ _ C), (collected_clean _ _ _ _ C), (co_reqs _ _ _ _ C), (co_account _ _ _ _ C), Ha.
  unfold assert_initialized. rewrite (co_initialized _ _ _ _ C).
  destruct (found_bad_duplicate e) eqn:Hd.
  { eexists _, _, INVALID_DUPLICATE. split; [done|]. unfold check_valid. simpl. rewrite Hd. split_and!; [done| |done].
    split; [done|]. by intros [? _]. }
  destruct (txs_reqs_counted e _ e (fun _ => 0) [] f (counted_start _ _ _ _ C Hd) Hv Hnd) as (e1 & f1 & -> & C1).
  cbn [result_bind fst snd]. rewrite requirements_met_spec. set (g := fun x => 0 + sum_by (tx_need x) _) in C1.
  assert (Hcov : covered acc (ascending (txs e)).*2 <-> forall x, g x <= UserAccount.lookup_available_balance acc x) by done.
  pose proof (cn_duplicate _ _ _ _ C1) as D1. pose proof (cn_nexist _ _ _ _ C1) as N1. pose proof (cn_invalid _ _ _ _ C1) as V1.
  change (required_assets (set_reqs_computed e1)) with (required_assets e1).
  destruct (overflow_req e1) eqn:Ho.
  - assert (Hno : ~ forall x, g x <= UserAccount.lookup_available_balance acc x).
    { pose proof (cn_required _ _ _ _ C1) as Hr. rewrite Ho in Hr. destruct Hr as [x Hx]. intros Hall. specialize (Hall x).
      destruct (Hb x). lia. }
    case_decide; eexists _, _, _; (split; [reflexivity|]); unfold check_valid; simpl; rewrite ?D1, ?N1, ?V1, ?Ho; simpl;
      (split; [reflexivity|]);
      (split; [|discriminate]); (split; [discriminate|]); intros [_ Hcv]; destruct Hno; by apply Hcov.
  - pose proof (required_met _ _ _ _ _ C1 Hb Ho) as Hm.
    case_decide as Hd'; eexists _, _, _; (split; [reflexivity|]); unfold check_valid; simpl; rewrite ?D1, ?N1, ?V1, ?Ho;
      simpl; (split; [reflexivity|]); (split; [|discriminate]).
    + split; [|done]. intros _. split; [done|]. by apply Hcov, Hm.
    + split; [discriminate|]. intros [_ Hcv]. destruct Hd'. by apply Hm, Hcov.
Qed.

(** ** Checking all accounts *)
Definition visited_in (tr : FT) (a : Z) : list SignedTransaction := default [] (visited <$> rt_map tr !! a).

Definition account_ok db tx : Prop := exists acc, find_account db (source tx) = Some acc /\ balances_ok acc.
Definition filterable db l : Prop := Forall (fun tx => account_ok db tx /\ known_ops tx) l.

Lemma filterable_known db l : filterable db l -> Forall known_ops l.
Proof. intros Hf. eapply Forall_impl; [exact Hf|]. by intros tx [_ ?]. Qed.
Lemma log_entry db l (tr : FT) a e :
  filterable db l -> log_of db l tr -> rt_map tr !! a = Some e ->
  exists acc, find_account db a = Some acc /\ balances_ok acc /\ collected a (committed acc) l e.
Proof.
  intros Hf Hl He. specialize (Hl a). rewrite He in Hl. destruct Hl as [(tx & Hin & <-) He'].
  eapply Forall_forall in Hf as [(acc & Ha & Hb) _]; [|exact Hin]. rewrite Ha in He'. eauto.
Qed.

Lemma validate_keys_spec db l keys (lg : FilterLog.t (FT := FT)) :
  NoDup keys -> Forall known_ops l ->
  (forall a, a ∈ keys -> exists e acc, rt_map (FilterLog.entries lg) !! a = Some e /\
    find_account db a = Some acc /\ collected a (committed acc) l e) ->
  exists lg', FilterLog.validate_keys keys db lg = Ok lg' /\
    (forall a, a ∉ keys -> rt_map (FilterLog.entries lg') !! a = rt_map (FilterLog.entries lg) !! a) /\
    (forall a e, a ∈ keys -> rt_map (FilterLog.entries lg) !! a = Some e ->
      exists e' f f', rt_map (FilterLog.entries lg') !! a = Some e' /\ compute_validity e db f = Ok (e', f')) /\
    created (FilterLog.accounts lg) (FilterLog.accounts lg')
      (keys ≫= (fun a => visited_in (FilterLog.entries lg) a ≫= tx_creates)).
Proof.
  intros Hnd Hk. revert lg. induction Hnd as [|a keys Ha Hnd IH]; intros lg Hkeys; cbn [FilterLog.validate_keys].
  { exists lg. split_and!; [done|done| |apply created_nil]. by intros a e ?%not_elem_of_nil. }
  destruct (Hkeys a) as (e & acc & He & Hacc & C); [by left|]. rewrite rt_get_map, He.
  destruct (compute_validity_created db a acc l e (FilterLog.accounts lg) Hacc C Hk) as (e1 & f1 & Hv & Hc). rewrite Hv.
  cbn [result_bind fst snd]. set (lg1 := FilterLog.mk _ _).
  assert (Hsame : forall b, b ∈ keys -> rt_map (FilterLog.entries lg1) !! b = rt_map (FilterLog.entries lg) !! b).
  { intros b Hb. simpl. rewrite rt_set_map, lookup_insert_ne; [done|]. by intros ->. }
  destruct (IH lg1) as (lg' & -> & Hout & Hin & Hcr).
  { intros b Hb. rewrite Hsame by done. apply Hkeys. by right. }
  exists lg'. split_and!; [done| | |].
  - intros b [Hne Hb]%not_elem_of_cons. rewrite Hout by done. simpl. by rewrite rt_set_map, lookup_insert_ne.
  - intros b e' [->|Hb]%elem_of_cons Hbe.
    + assert (e' = e) by congruence. subst e'. exists e1, (FilterLog.accounts lg), f1. split; [|done].
      rewrite Hout by done. simpl. by rewrite rt_set_map, lookup_insert_eq.
    + rewrite <- Hsame in Hbe by done. eauto.
  - cbn [mbind list_bind]. eapply created_trans.
    + unfold visited_in. rewrite He. exact Hc.
    + assert (Eb : (keys ≫= (fun a => visited_in (FilterLog.entries lg1) a ≫= tx_creates))
        = (keys ≫= (fun a => visited_in (FilterLog.entries lg) a ≫= tx_creates))).
      { clear -Hsame. induction keys as [|b keys IH]; [done|]. cbn [mbind list_bind]. rewrite IH by (intros; apply Hsame; by right).
        unfold visited_in. by rewrite Hsame by by left. }
      rewrite <- Eb. exact Hcr.
Qed.

Lemma add_txs_spec db l batches (lg : FilterLog.t (FT := FT)) :
  filterable db l -> rt_map (FilterLog.entries lg) = ∅ -> concat batches ≡ₚ l ->
  exists merged lg', log_of db l merged /\ FilterLog.add_txs lg batches db = Ok lg' /\
    (forall a, rt_map merged !! a = None -> rt_map (FilterLog.entries lg') !! a = None) /\
    (forall a e, rt_map merged !! a = Some e ->
      exists e' f f', rt_map (FilterLog.entries lg') !! a = Some e' /\ compute_validity e db f = Ok (e', f')) /\
    created (FilterLog.accounts lg) (FilterLog.accounts lg') (rt_keys merged ≫= (fun a => visited_in merged a ≫= tx_creates)).
Proof.
  intros Hf He Hp. destruct (merged_log db batches l (FilterLog.entries lg) He Hp) as (merged & Hm & Hl).
  unfold FilterLog.add_txs. rewrite Hm. cbn [result_bind].
  destruct (validate_keys_spec db l (rt_keys merged) (FilterLog.mk merged (FilterLog.accounts lg))) as (lg' & Hv & Hout & Hin & Hc).
  - apply rt_keys_nodup.
  - by eapply filterable_known.
  - intros a [e Hae]%rt_keys_elem. destruct (log_entry _ _ _ _ _ Hf Hl Hae) as (acc & Ha & _ & C). eauto.
  - exists merged, lg'. split_and!; [done|done| | |done].
    + intros a Ha. rewrite Hout; [done|]. rewrite rt_keys_elem, Ha. by intros [? ?].
    + intros a e Hae. apply Hin; [|done]. apply rt_keys_elem. eauto.
Qed.

(** An entry that is checked already stops the validation. *)
Lemma validate_keys_checked db keys (lg : FilterLog.t (FT := FT)) a e :
  NoDup keys -> a ∈ keys -> rt_map (FilterLog.entries lg) !! a = Some e -> checked_reqs_cached e = true ->
  is_ok (FilterLog.validate_keys keys db lg) = false.
Proof.
  intros Hnd Hin He Hc. revert lg He. induction Hnd as [|b keys Hb Hnd IH]; intros lg He; [by apply not_elem_of_nil in Hin|].
  cbn [FilterLog.validate_keys]. rewrite rt_get_map. apply elem_of_cons in Hin as [->|Hin].
  - rewrite He. unfold compute_validity. by rewrite Hc.
  - destruct (rt_map (FilterLog.entries lg) !! b) as [e'|]; [|by apply IH].
    destruct (compute_validity e' db (FilterLog.accounts lg)) as [q|]; [|done]. cbn [result_bind]. apply IH; [done|].
    simpl. rewrite rt_set_map, lookup_insert_ne; [done|]. by intros ->.
Qed.

(** The transactions of [a] that are not committed, each once. *)
Definition to_process (a c : Z) l : list SignedTransaction :=
  remove_dups (filter (fun tx => source tx = a /\ c < seqno tx) l).
Lemma to_process_elem a c l tx : tx ∈ to_process a c l <-> pending a c l tx.
Proof. unfold to_process, pending. rewrite elem_of_remove_dups, list_elem_of_filter. tauto. Qed.

Lemma visited_to_process a c l e :
  collected a c l e -> found_bad_duplicate e = false -> visited e ≡ₚ to_process a c l.
Proof.
  intros C Hd. apply NoDup_Permutation; [by eapply visited_nodup|apply NoDup_remove_dups|]. intros tx.
  rewrite to_process_elem. split; [by eapply visited_pending|by eapply pending_visited].
Qed.
Lemma duplicate_numbers a c l e :
  collected a c l e -> found_bad_duplicate e = false <-> NoDup (seqno <$> to_process a c l).
Proof.
  intros C. pose proof (co_txs _ _ _ _ C) as Hk. split.
  - intros Hd. rewrite <- (visited_to_process _ _ _ _ C Hd). apply NoDup_fmap_2_strong; [|by eapply visited_nodup].
    intros t1 t2 Hin1 Hin2 En. rewrite Hd in Hk. destruct (decide (t1 = t2)) as [|Hne]; [done|].
    destruct (kept_consistent _ _ _ _ Hk). exists t1, t2. split_and!; try done; by eapply visited_pending.
  - intros Hn. destruct (found_bad_duplicate e); [|done]. destruct Hk as (t1 & t2 & Hp1 & Hp2 & En & Hne).
    apply to_process_elem, list_elem_of_lookup in Hp1 as [i Hi]. apply to_process_elem, list_elem_of_lookup in Hp2 as [j Hj].
    assert (i = j); [|congruence]. eapply (NoDup_lookup (seqno <$> to_process a c l)); [done| |].
    + by rewrite list_lookup_fmap, Hi.
    + rewrite list_lookup_fmap, Hj. simpl. by rewrite En.
Qed.
(** All the transactions the filter visited. *)
Definition all_visited (tr : FT) : list SignedTransaction := rt_keys tr ≫= visited_in tr.
Lemma all_visited_pending db l (tr : FT) tx :
  filterable db l -> log_of db l tr -> tx ∈ all_visited tr -> exists e, tx ∈ l /\ rt_map tr !! source tx = Some e /\ tx ∈ visited e.
Proof.
  intros Hf Hl (a & Hin & Ha)%list_elem_of_bind. unfold visited_in in Hin.
  destruct (rt_map tr !! a) as [e|] eqn:He; [|by apply not_elem_of_nil in Hin]. simpl in Hin.
  destruct (log_entry _ _ _ _ _ Hf Hl He) as (acc & _ & _ & C). destruct (visited_pending _ _ _ _ _ C Hin) as (Hl' & <- & _). eauto.
Qed.
Lemma all_visited_nodup db l (tr : FT) : filterable db l -> log_of db l tr -> NoDup (all_visited tr).
Proof.
  intros Hf Hl. unfold all_visited. pose proof (rt_keys_nodup tr) as Hnd. induction Hnd as [|a keys Ha Hnd IH]; [constructor|].
  cbn [mbind list_bind]. apply NoDup_app. split_and!; [| |exact IH].
  - unfold visited_in. destruct (rt_map tr !! a) as [e|] eqn:He; [|constructor]. simpl.
    destruct (log_entry _ _ _ _ _ Hf Hl He) as (acc & _ & _ & C). by eapply visited_nodup.
  - intros tx H1' (b & H2' & Hb)%list_elem_of_bind. unfold visited_in in *.
    destruct (rt_map tr !! a) as [e1|] eqn:E1; [|by apply not_elem_of_nil in H1'].
    destruct (rt_map tr !! b) as [e2|] eqn:E2; [|by apply not_elem_of_nil in H2']. simpl in *.
    destruct (log_entry _ _ _ _ _ Hf Hl E1) as (acc1 & _ & _ & C1), (log_entry _ _ _ _ _ Hf Hl E2) as (acc2 & _ & _ & C2).
    destruct (visited_pending _ _ _ _ _ C1 H1') as (_ & S1 & _), (visited_pending _ _ _ _ _ C2 H2') as (_ & S2 & _). congruence.
Qed.

Lemma covered_permutation acc l1 l2 : l1 ≡ₚ l2 -> covered acc l1 <-> covered acc l2.
Proof. intros Hp. unfold covered. split; intros Hc x; [rewrite <- Hp|rewrite Hp]; apply Hc. Qed.

Lemma bind_all_visited (tr : FT) :
  (rt_keys tr ≫= (fun a => visited_in tr a ≫= tx_creates)) = (all_visited tr ≫= tx_creates).
Proof. unfold all_visited. generalize (rt_keys tr). intros keys. induction keys as [|a keys IH]; [done|].
  cbn [mbind list_bind]. by rewrite bind_app, IH. Qed.

(** An accepted transaction was visited, and its creations are counted once. *)
Lemma accepted_visited db l (merged : FT) (lg' : FilterLog.t (FT := FT)) tx acc :
  filterable db l -> log_of db l merged ->
  (forall a e, rt_map merged !! a = Some e ->
    exists e' f f', rt_map (FilterLog.entries lg') !! a = Some e' /\ compute_validity e db f = Ok (e', f')) ->
  find_account db (source tx) = Some acc -> tx ∈ to_process (source tx) (committed acc) l ->
  FilterLog.check_valid_tx lg' tx = Ok true ->
  tx ∈ all_visited merged /\ AccountCreationFilter.check_valid_tx (FilterLog.accounts lg') tx = true.
Proof.
  intros Hf Hl Hsome Ha Hp%to_process_elem. unfold FilterLog.check_valid_tx, FilterLog.check_valid_account. fold (source tx).
  rewrite rt_get_map. pose proof (Hl (source tx)) as Hlog. destruct (rt_map merged !! source tx) as [e|] eqn:He.
  2:{ destruct Hp as [Hin _]. by destruct (Hlog tx Hin). }
  destruct (log_entry _ _ _ _ _ Hf Hl He) as (acc' & Ha' & _ & C). assert (acc' = acc) by congruence. subst acc'.
  destruct (Hsome _ e He) as (e' & f & f' & -> & Hv). intros Hok%result_bind_Ok. destruct Hok as (r & Hr & Hok).
  destruct (found_bad_duplicate e) eqn:Hd.
  { unfold compute_validity in Hv. rewrite (co_checked _ _ _ _ C), (collected_clean _ _ _ _ C), Hd in Hv. injection Hv as <- _.
    unfold check_valid in Hr. simpl in Hr. rewrite Hd in Hr. injection Hr as <-. done. }
  split.
  - apply list_elem_of_bind. exists (source tx). unfold visited_in. rewrite He. simpl. split; [by eapply pending_visited|].
    apply rt_keys_elem. eauto.
  - destruct (result_code r <? 0); congruence.
Qed.
Lemma created_once (f : AccountCreationFilter.t) tx n :
  AccountCreationFilter.check_valid_tx f tx = true -> n ∈ tx_creates tx -> is_Some (f !! n) -> count_of f n = 1.
Proof.
  intros Hc (op & Hin & Hn)%list_elem_of_omap [k Hk]. unfold AccountCreationFilter.check_valid_tx in Hc.
  rewrite forallb_forall in Hc. specialize (Hc op). rewrite <- list_elem_of_In in Hc. specialize (Hc Hin).
  destruct op; simplify_eq/=. unfold AccountCreationFilter.is_valid_account_creation in Hc. unfold count_of.
  rewrite Hk in *. simpl. by apply Z.eqb_eq in Hc.
Qed.
Lemma visited_number db l (tr : FT) tx1 tx2 :
  filterable db l -> log_of db l tr -> tx1 ∈ all_visited tr -> tx2 ∈ all_visited tr ->
  source tx1 = source tx2 -> seqno tx1 = seqno tx2 -> tx1 = tx2.
Proof.
  intros Hf Hl H1' H2' Hs En. destruct (all_visited_pending _ _ _ _ Hf Hl H1') as (e & _ & He1 & Hv1).
  destruct (all_visited_pending _ _ _ _ Hf Hl H2') as (e2 & _ & He2 & Hv2). rewrite <- Hs, He1 in He2. injection He2 as <-.
  destruct (log_entry _ _ _ _ _ Hf Hl He1) as (acc & _ & _ & C). pose proof (co_txs _ _ _ _ C) as Hk.
  pose proof (visited_pending _ _ _ _ _ C Hv1). pose proof (visited_pending _ _ _ _ _ C Hv2).
  unfold visited in Hv1. destruct (found_bad_duplicate e); [by apply not_elem_of_nil in Hv1|].
  destruct (decide (tx1 = tx2)) as [|Hne]; [done|]. destruct (kept_consistent _ _ _ _ Hk). exists tx1, tx2. by split_and!.
Qed.
End Check.

Module FilterTheorems.
Section Main.
Context {T : Type} `{SequenceTracker T} {TR : Type} `{MerkleTrie AccountCommitment TR} {L : Type} `{LMDBInstance L}.
Context {FT : Type} `{RecyclingTrie Entry FT}.
Abbreviation DB := (MemoryDatabase.t T TR L).

(** A transaction of an account that does not exist makes the filter throw,
    whatever else the block contains and however it is divided. *)
Lemma missing_account_aborts_filter (db : DB) (lg : FilterLog.t (FT := FT)) batches tx :
  tx ∈ concat batches -> find_account db (source tx) = None -> rt_map (FilterLog.entries lg) = ∅ ->
  is_ok (FilterLog.add_txs lg batches db) = false.
Proof.
  intros Hin Ha He. destruct (merged_log db batches (concat batches) (FilterLog.entries lg) He) as (merged & Hm & Hl); [done|].
  unfold FilterLog.add_txs. rewrite Hm. cbn [result_bind]. specialize (Hl (source tx)).
  destruct (rt_map merged !! source tx) as [e|] eqn:Hae; [|by destruct (Hl tx Hin)].
  destruct Hl as [_ Hmiss]. rewrite Ha in Hmiss. destruct Hmiss as [_ Hc].
  eapply validate_keys_checked; [apply rt_keys_nodup| |exact Hae|exact Hc]. apply rt_keys_elem. eauto.
Qed.

(** What the entries of the block are checked against: modelled operations, and
    balances that are valid amounts. *)
Definition checkable (db : DB) (l : list SignedTransaction) : Prop :=
  Forall (fun tx => known_ops tx /\ forall acc, find_account db (source tx) = Some acc -> balances_ok acc) l.

(** C32: the filter decides.  However the transactions are divided over the
    threads, [add_txs] returns if and only if all their accounts exist (otherwise it
    throws).  Then an account that cancels no offer id twice in its pending
    transactions passes if and only if these have distinct sequence numbers and
    together need, of every asset, no more than is available; repeated copies of a
    transaction count once.  Nothing is said of an account that cancels an offer id
    twice: the filter stops adding up its requirements there. *)
Theorem filter_decision_exact (db : DB) (lg : FilterLog.t (FT := FT)) batches l :
  checkable db l -> rt_map (FilterLog.entries lg) = ∅ -> concat batches ≡ₚ l ->
  (is_ok (FilterLog.add_txs lg batches db) = true <-> Forall (fun tx => is_Some (find_account db (source tx))) l) /\
  forall lg', FilterLog.add_txs lg batches db = Ok lg' -> forall a,
    (Forall (fun tx => source tx <> a) l -> FilterLog.check_valid_account lg' a = Ok VALID_NO_TXS) /\
    forall acc, ~ Forall (fun tx => source tx <> a) l -> find_account db a = Some acc ->
      let p := to_process a (committed acc) l in NoDup (p ≫= tx_cancels) ->
      exists r, FilterLog.check_valid_account lg' a = Ok r /\ r <> VALID_NO_TXS /\
        (r = VALID_HAS_TXS <-> NoDup (seqno <$> p) /\ covered acc p).
Proof.
  intros Hck He Hp.
  assert (Hex : is_ok (FilterLog.add_txs lg batches db) = true -> Forall (fun tx => is_Some (find_account db (source tx))) l).
  { intros Hok. apply Forall_forall. intros tx Hin. destruct (find_account db (source tx)) eqn:Ea; [by eexists|].
    rewrite (missing_account_aborts_filter db lg batches tx) in Hok; [done|by rewrite Hp|done|done]. }
  assert (Hfil : Forall (fun tx => is_Some (find_account db (source tx))) l -> filterable db l).
  { intros Ha. apply Forall_forall. intros tx Hin. rewrite Forall_forall in Ha. destruct (Ha tx Hin) as [acc Eacc].
    unfold checkable in Hck. rewrite Forall_forall in Hck. destruct (Hck tx Hin) as [Hk Hb]. split; [|done]. exists acc. split; [done|by apply Hb]. }
  split.
  { split; [done|]. intros Ha. by destruct (add_txs_spec db l batches lg (Hfil Ha) He Hp) as (merged & lg' & _ & -> & _). }
  intros lg' Eadd. assert (Hf : filterable db l) by (apply Hfil, Hex; by rewrite Eadd).
  destruct (add_txs_spec db l batches lg Hf He Hp) as (merged & lg2 & Hl & Hadd & Hnone & Hsome & _).
  assert (lg2 = lg') as -> by congruence. intros a. unfold FilterLog.check_valid_account. rewrite rt_get_map. split.
  - intros Hno. rewrite Hnone; [done|]. specialize (Hl a). destruct (rt_map merged !! a); [|done].
    destruct Hl as [(tx & Hin & Hs) _]. eapply Forall_forall in Hno; [done|done].
  - intros acc Hhas Ha Hnd. destruct (rt_map merged !! a) as [e|] eqn:Hae.
    2:{ destruct Hhas. specialize (Hl a). rewrite Hae in Hl. apply Forall_forall. exact Hl. }
    destruct (log_entry _ _ _ _ _ Hf Hl Hae) as (acc' & Ha' & Hb & C). assert (acc' = acc) by congruence. subst acc'.
    destruct (Hsome a e Hae) as (e' & f & f' & -> & Hv).
    destruct (compute_validity_verdict db a acc l e f Ha Hb C (filterable_known _ _ Hf)) as (e2 & f2 & r & Hv2 & Hr & Hiff & Hne).
    + unfold visited. destruct (found_bad_duplicate e) eqn:Hd; [constructor|]. pose proof (visited_to_process _ _ _ _ C Hd) as Hvis.
      unfold visited in Hvis. rewrite Hd in Hvis. by rewrite Hvis.
    + exists r. assert (e2 = e') by congruence. subst e2. split_and!; [done..|]. rewrite Hiff, (duplicate_numbers _ _ _ _ C).
      split; intros [Hn Hc]; (split; [done|]); pose proof (proj2 (duplicate_numbers _ _ _ _ C) Hn) as Hd;
        apply (covered_permutation _ _ _ (visited_to_process _ _ _ _ C Hd)), Hc.
Qed.

(** transactions that pass the filter do not get in each other's way: two
    pending transactions of the block that both pass carry different sequence
    numbers when they have one source account, create no account in common, and
    neither creates an account twice. *)
Lemma accepted_transactions_compatible (db : DB) (lg : FilterLog.t (FT := FT)) batches l :
  filterable db l -> rt_map (FilterLog.entries lg) = ∅ -> FilterLog.accounts lg = ∅ -> concat batches ≡ₚ l ->
  Z.of_nat (length (l ≫= tx_creates)) < 2 ^ 32 ->
  exists lg', FilterLog.add_txs lg batches db = Ok lg' /\
    forall tx1 tx2 acc1 acc2,
      find_account db (source tx1) = Some acc1 -> find_account db (source tx2) = Some acc2 ->
      tx1 ∈ to_process (source tx1) (committed acc1) l -> tx2 ∈ to_process (source tx2) (committed acc2) l ->
      FilterLog.check_valid_tx lg' tx1 = Ok true -> FilterLog.check_valid_tx lg' tx2 = Ok true -> tx1 <> tx2 ->
      (source tx1 = source tx2 -> seqno tx1 <> seqno tx2) /\
      (forall n, n ∈ tx_creates tx1 -> n ∉ tx_creates tx2) /\ NoDup (tx_creates tx1).
Proof.
  intros Hf He Hacc Hp Hlen. destruct (add_txs_spec db l batches lg Hf He Hp) as (merged & lg' & Hl & Hadd & _ & Hsome & Hc).
  exists lg'. split; [done|]. intros tx1 tx2 acc1 acc2 Ha1 Ha2 Hp1 Hp2 Hv1 Hv2 Hne. rewrite Hacc, bind_all_visited in Hc.
  destruct (accepted_visited _ _ _ _ _ _ Hf Hl Hsome Ha1 Hp1 Hv1) as [Hin1 Hcr1].
  destruct (accepted_visited _ _ _ _ _ _ Hf Hl Hsome Ha2 Hp2 Hv2) as [Hin2 _].
  assert (Hsub : (all_visited merged ≫= tx_creates) ⊆+ (l ≫= tx_creates)).
  { apply bind_submseteq, NoDup_submseteq; [by eapply all_visited_nodup|]. intros tx Htx.
    by destruct (all_visited_pending _ _ _ _ Hf Hl Htx) as (_ & ? & _). }
  assert (Hone : forall n, n ∈ tx_creates tx1 -> occurrences n (all_visited merged ≫= tx_creates) = 1).
  { intros n Hn. rewrite <- (created_count _ _ n Hc) by (apply submseteq_length in Hsub; lia).
    apply (created_once _ _ _ Hcr1 Hn). destruct (Hc n) as (_ & Hi & _). apply Hi, list_elem_of_bind. eauto. }
  split_and!.
  - intros Hs En. apply Hne. by eapply visited_number.
  - intros n Hn1 Hn2. specialize (Hone n Hn1). destruct (proj1 (elem_of_Permutation _ _) Hin1) as [rest Hr].
    rewrite Hr in Hone, Hin2. cbn [mbind list_bind] in Hone. rewrite occurrences_app in Hone.
    apply elem_of_cons in Hin2 as [->|Hin2]; [done|].
    pose proof (occurrences_elem n _ Hn1). assert (n ∈ rest ≫= tx_creates) as Hn by (apply list_elem_of_bind; eauto).
    pose proof (occurrences_elem n _ Hn). lia.
  - apply occurrences_nodup. intros n Hn. rewrite <- (Hone n Hn). apply occurrences_submseteq.
    destruct (proj1 (elem_of_Permutation _ _) Hin1) as [rest ->]. cbn [mbind list_bind]. by apply submseteq_inserts_r.
Qed.
End Main.
End FilterTheorems.
