(* ===== verification/FilterExamples.v ===== *)
(** * Concrete blocks for the transaction filter

    The theorems about [FilterLog] on the example database: one account that owns
    90 units of the native asset and has committed the sequence number 256. *)
From stdpp Require Import base gmap list strings sorting.
From S2P Require Import Prelude RecyclingTrie Types Asset SeqTracker Accounts AccountLmdb Database Filtering FilterProps.
Import AccountFilterEntry FilterTheorems.

Definition sent (n fee : Z) (ops : list Operation) : SignedTransaction :=
  mkSignedTransaction (mkTransaction (mkTransactionMetadata 7 n) ops fee) [].
Definition opens (n account balance : Z) : SignedTransaction := sent n 10 [CREATE_ACCOUNT (mkCreateAccountOp balance account [])].
Definition tx_a := opens 512 8 30.
Definition tx_b := opens 768 9 40.

Definition empty_filter : FilterLog.t (FT := gmap Z Entry) := FilterLog.mk ∅ ∅.
Definition filtered (batches : list (list SignedTransaction)) :=
  FilterLog.add_txs empty_filter batches DatabaseProps.example_db.

Lemma example_account_ok : balances_ok (DatabaseProps.acct 7 90).
Proof.
  intros asset. unfold UserAccount.lookup_available_balance. cbn [UserAccount.owned_assets DatabaseProps.acct].
  destruct (Z.to_nat asset) as [|[|n]]; vm_compute; split; discriminate.
Qed.
Lemma example_filterable l :
  Forall (fun tx => source tx = 7 /\ known_ops tx) l -> filterable DatabaseProps.example_db l.
Proof.
  intros Hl. eapply Forall_impl; [exact Hl|]. intros tx [Hs Hk]. split; [|exact Hk]. exists (DatabaseProps.acct 7 90).
  rewrite Hs. split; [reflexivity|apply example_account_ok].
Qed.
Lemma opens_filterable : filterable DatabaseProps.example_db [tx_a; tx_b; tx_a].
Proof. apply example_filterable. repeat constructor. Qed.

Lemma filterable_checkable (db : DatabaseProps.example_t) l : filterable db l -> checkable db l.
Proof.
  intros Hf. eapply Forall_impl; [exact Hf|]. intros tx [(acc & Ea & Hb) Hk]. split; [done|]. intros acc' Ea'. by simplify_eq.
Qed.

Lemma filter_decision_exact_witness :
  exists lg, filtered [[tx_a]; [tx_b; tx_a]] = Ok lg /\ FilterLog.check_valid_account lg 7 = Ok VALID_HAS_TXS.
Proof.
  destruct (filter_decision_exact DatabaseProps.example_db empty_filter [[tx_a]; [tx_b; tx_a]] [tx_a; tx_b; tx_a]) as [Hok Hlg].
  - exact (filterable_checkable _ _ opens_filterable).
  - reflexivity.
  - reflexivity.
  - destruct (filtered [[tx_a]; [tx_b; tx_a]]) as [lg|] eqn:E; [|vm_compute in E; discriminate].
    exists lg. split; [reflexivity|]. destruct (Hlg lg E 7) as [_ H7].
    destruct (H7 (DatabaseProps.acct 7 90)) as (r & Hr & _ & Hiff).
    + intros Hno. apply Forall_cons in Hno as [Hno _]. by apply Hno.
    + reflexivity.
    + apply (bool_decide_unpack _). vm_compute. exact I.
    + rewrite Hr. f_equal. apply Hiff. split; [apply (bool_decide_unpack _); vm_compute; exact I|]. intros asset.
      unfold UserAccount.lookup_available_balance. destruct (decide (asset = 0)) as [->|Hne]; [vm_compute; discriminate|].
      assert (Ep : to_process 7 (committed (DatabaseProps.acct 7 90)) [tx_a; tx_b; tx_a] = [tx_b; tx_a]) by (vm_compute; reflexivity).
      rewrite Ep, !sum_by_cons, sum_by_nil. unfold tx_need, MemoryDatabase.NATIVE_ASSET. rewrite !decide_False by exact Hne.
      cbn [tx_a tx_b opens sent transaction operations]. rewrite !sum_by_cons, !sum_by_nil. cbn [op_need].
      unfold MemoryDatabase.NATIVE_ASSET. rewrite !decide_False by exact Hne. apply (example_account_ok asset).
Defined.

(** an account that cancels one offer id twice passes the filter, whatever
    its later operations need: the second cancellation stops the accounting of
    requirements, and no verdict reports it. *)
Lemma double_cancel_hides_requirements :
  let cancel := CANCEL_SELL_OFFER (mkCancelSellOfferOp (mkOfferCategory 0 1 SELL) 5 1) in
  let tx := sent 512 10 [cancel; cancel; PAYMENT (mkPaymentOp 7 0 1000)] in
  (let* lg := filtered [[tx]] in FilterLog.check_valid_account lg 7) = Ok VALID_HAS_TXS /\
  UserAccount.lookup_available_balance (DatabaseProps.acct 7 90) 0 < tx_need 0 tx.
Proof. split; vm_compute; reflexivity. Qed.
