(* ===== verification/Mempool.v ===== *)
(** * The mempool (src/mempool/mempool.h, .cc, mempool_transaction_filter.h, .cc,
      mempool_cleaner.cc)

    Transactions wait in chunks.  New ones go to a buffer of chunks that is pushed
    to the mempool between blocks; block production marks the transactions of a
    chunk that are done, and the cleaner removes them and joins small chunks.  The
    loops overwrite the slot they remove with the last one. *)
From stdpp Require Import base gmap list strings.
From S2P Require Import Prelude Types Asset SeqTracker Accounts AccountLmdb Database.

Module MempoolChunk.
Record t := mk { txs : list SignedTransaction; confirmed_txs_to_remove : list bool }.
Implicit Types c : t.

Definition of_txs (l : list SignedTransaction) : t := mk l [].
Definition size c : Z := Z.of_nat (length (txs c)).

(** [v[i] = v.back(); v.pop_back();] *)
Definition swap_out {A} (v : list A) (i : nat) : option (list A) :=
  x ← last v; if decide (i < length v)%nat then Some (take (length v - 1) (<[i := x]> v)) else None.

(** The loop over the flags: state, index and number removed so far; the flags left
    to visit are at most the fuel. *)
Fixpoint remove_loop (fuel : nat) c (i : nat) (num_removed : Z) : result (t * Z) :=
  match fuel, confirmed_txs_to_remove c !! i with
  | S fuel, Some true =>
      match swap_out (confirmed_txs_to_remove c) i, swap_out (txs c) i with
      | Some flags, Some l => remove_loop fuel (mk l flags) i (num_removed + 1)
      | _, _ => Throw "no such transaction"
      end
  | S fuel, Some false => remove_loop fuel c (S i) num_removed
  | _, _ => Ok (c, num_removed)
  end.
Definition remove_confirmed_txs c : result (t * Z) := remove_loop (length (confirmed_txs_to_remove c)) c 0 0.

Definition set_confirmed_txs c (bitmap : list bool) : result t :=
  if decide (length bitmap = length (txs c)) then Ok (mk (txs c) bitmap) else Throw "size mismatch: bitmap vs txs".
Definition clear_confirmed_txs_bitmap c : t := mk (txs c) [].

Definition join c (other : t) : t :=
  mk (txs c ++ txs other) (confirmed_txs_to_remove c ++ confirmed_txs_to_remove other).

Section Filter.
Variable check_transaction : SignedTransaction -> bool.
Fixpoint filter_loop (fuel : nat) c (i : nat) (num_removed : Z) : t * Z :=
  match fuel, txs c !! i with
  | S fuel, Some tx =>
      if check_transaction tx then
        match swap_out (txs c) i with
        | Some l => filter_loop fuel (mk l (confirmed_txs_to_remove c)) i (num_removed + 1)
        | None => (c, num_removed)
        end
      else filter_loop fuel c (S i) num_removed
  | _, _ => (c, num_removed)
  end.
Definition filter c : t * Z := filter_loop (length (txs c)) c 0 0.
End Filter.
End MempoolChunk.
Abbreviation Chunk := MempoolChunk.t.

(** ** Transactions that can no longer be accepted *)
Section TransactionFilter.
Context {T : Type} `{SequenceTracker T} {TR : Type} `{MerkleTrie AccountCommitment TR} {L : Type} `{LMDBInstance L}.

(** True to remove. *)
Definition check_transaction (db : MemoryDatabase.t T TR L) (tx : SignedTransaction) : bool :=
  match MemoryDatabase.lookup_user db (sourceAccount (metadata (transaction tx))) with
  | None => false
  | Some idx =>
      match MemoryDatabase.get_last_committed_seq_number db idx with
      | Some last_committed_seq_num => sequenceNumber (metadata (transaction tx)) <=? last_committed_seq_num
      | None => false
      end
  end.
End TransactionFilter.

Module Mempool.
Record t := mk {
  mempool : list Chunk;
  buffered_mempool : list Chunk;
  mempool_size : Z;
  buffer_size : Z;
  TARGET_CHUNK_SIZE : Z;
  MAX_MEMPOOL_SIZE : Z
}.
Implicit Types m : t.

Definition new (target max : Z) : t := mk [] [] 0 0 target max.
Definition set_mempool m (l : list Chunk) : t :=
  mk l (buffered_mempool m) (mempool_size m) (buffer_size m) (TARGET_CHUNK_SIZE m) (MAX_MEMPOOL_SIZE m).
Definition size m : Z := mempool_size m.
Definition total_size m : Z := u64 (buffer_size m + size m).
Definition num_chunks m : nat := length (mempool m).
Definition log_tx_removal m (removed_count : Z) : t :=
  mk (mempool m) (buffered_mempool m) (u64 (mempool_size m - removed_count)) (buffer_size m)
    (TARGET_CHUNK_SIZE m) (MAX_MEMPOOL_SIZE m).

Definition add_to_mempool_buffer_nolock m (chunk : list SignedTransaction) : t :=
  mk (mempool m) (buffered_mempool m ++ [MempoolChunk.of_txs chunk]) (mempool_size m)
    (u64 (buffer_size m + Z.of_nat (length chunk))) (TARGET_CHUNK_SIZE m) (MAX_MEMPOOL_SIZE m).

(** Chunk [i] holds the transactions from [i * TARGET_CHUNK_SIZE] on; the loop runs
    once more than there are full chunks. *)
Definition chunk_at m (txs : list SignedTransaction) (i : nat) : list SignedTransaction :=
  let target := Z.to_nat (TARGET_CHUNK_SIZE m) in
  let min_idx := (i * target)%nat in
  let max_idx := Nat.min (length txs) ((i + 1) * target) in
  take (max_idx - min_idx) (drop min_idx txs).
Definition chunkify_and_add_to_mempool_buffer m (txs : list SignedTransaction) : result t :=
  if TARGET_CHUNK_SIZE m =? 0 then Throw "division by zero"
  else
    let n := (length txs / Z.to_nat (TARGET_CHUNK_SIZE m))%nat in
    Ok (foldl (fun m i => add_to_mempool_buffer_nolock m (chunk_at m txs i)) m (seq 0 (S n))).

Fixpoint push_loop (buffered : list Chunk) m : t :=
  match buffered with
  | [] => m
  | front :: rest =>
      let cur_sz := mempool_size m in
      let m := mk (mempool m ++ [front]) rest (u64 (mempool_size m + MempoolChunk.size front))
        (u64 (buffer_size m - MempoolChunk.size front)) (TARGET_CHUNK_SIZE m) (MAX_MEMPOOL_SIZE m) in
      if MAX_MEMPOOL_SIZE m <? cur_sz then m else push_loop rest m
  end.
Definition push_mempool_buffer_to_mempool m : t := push_loop (buffered_mempool m) m.

(** Every round drops a chunk or moves [i] on. *)
Fixpoint join_loop (fuel : nat) (target : Z) (l : list Chunk) (i : nat) : list Chunk :=
  match fuel, l !! i, l !! S i with
  | S fuel, Some a, Some b =>
      if MempoolChunk.size a + MempoolChunk.size b <? target then
        match last l with
        | Some back => join_loop fuel target (take (length l - 1) (<[S i := back]> (<[i := MempoolChunk.join a b]> l))) i
        | None => l
        end
      else join_loop fuel target l (S i)
  | _, _, _ => l
  end.
Definition join_small_chunks m : t :=
  set_mempool m (join_loop (length (mempool m)) (TARGET_CHUNK_SIZE m) (mempool m) 0).

(** The ranges of the parallel loop only share the counter. *)
Fixpoint remove_all (l : list Chunk) : result (list Chunk * Z) :=
  match l with
  | [] => Ok ([], 0)
  | c :: l =>
      let* q := MempoolChunk.remove_confirmed_txs c in
      let* r := remove_all l in
      Ok (q.1 :: r.1, q.2 + r.2)
  end.
Definition remove_confirmed_txs m : result t :=
  let* q := remove_all (mempool m) in
  Ok (log_tx_removal (set_mempool m q.1) q.2).

Fixpoint drop_loop (l : list Chunk) (num_to_drop dropped : Z) : list Chunk * Z :=
  match l with
  | [] => ([], dropped)
  | c :: rest => if dropped <? num_to_drop then drop_loop rest num_to_drop (dropped + MempoolChunk.size c) else (l, dropped)
  end.
Definition drop_txs m (num_to_drop : Z) : t :=
  let '(l, dropped) := drop_loop (mempool m) num_to_drop 0 in log_tx_removal (set_mempool m l) dropped.

(** One pass of the filter thread; [cancelled] is what the threads read of
    [cancel_background_filter], chunk by chunk. *)
Fixpoint filter_chunks (check : SignedTransaction -> bool) (l : list Chunk) (cancelled : list bool) : list Chunk * Z :=
  match l with
  | [] => ([], 0)
  | c :: l =>
      let q := if default false (head cancelled) then (c, 0) else MempoolChunk.filter check c in
      let r := filter_chunks check l (tail cancelled) in
      (q.1 :: r.1, q.2 + r.2)
  end.
Definition filter_pass (check : SignedTransaction -> bool) m (cancelled : list bool) : t :=
  let q := filter_chunks check (mempool m) cancelled in log_tx_removal (set_mempool m q.1) q.2.

(** [MempoolCleaner::run], one round. *)
Definition clean m : result t := let* cleaned := remove_confirmed_txs m in Ok (join_small_chunks cleaned).

(** [mempool[i].set_confirmed_txs(bitmap)] *)
Definition mark m (i : nat) (bitmap : list bool) : result t :=
  match mempool m !! i with
  | Some c => let* c := MempoolChunk.set_confirmed_txs c bitmap in Ok (set_mempool m (<[i := c]> (mempool m)))
  | None => Throw "vector::at"
  end.
End Mempool.
