(* ===== verification/MempoolProps.v ===== *)
(** * The mempool keeps its transactions

    What each operation does to the transactions in the mempool, that the two
    counters are exact, and that cleaning leaves no two neighbours that should have
    been joined. *)
From stdpp Require Import base gmap list strings.
From S2P Require Import Prelude Types Asset SeqTracker Accounts AccountLmdb Database Mempool.
Import MempoolChunk(mk, txs, confirmed_txs_to_remove, swap_out, remove_loop, filter_loop, join).

(** ** Removing by overwriting *)
Lemma swap_out_snoc {A} (v : list A) x i :
  (i <= length v)%nat -> swap_out (v ++ [x]) i = Some (<[i := x]> v).
Proof.
  intros Hi. unfold swap_out. rewrite last_snoc. cbn [mbind option_bind]. rewrite length_app. simpl length.
  rewrite decide_True by lia. f_equal. replace (length v + 1 - 1)%nat with (length v) by lia.
  destruct (decide (i = length v)) as [->|].
  - rewrite (list_insert_ge v) by lia. rewrite insert_app_r_alt by lia. by rewrite take_app_length.
  - rewrite insert_app_l by lia. by rewrite take_app_length' by (by rewrite length_insert).
Qed.
Lemma snoc_inv {A} (v : list A) i : (i < length v)%nat -> exists v' x, v = v' ++ [x] /\ (i <= length v')%nat.
Proof.
  intros Hi. destruct (exists_last (l := v)) as (v' & x & ->); [by intros ->; simpl in Hi; lia|].
  exists v', x. split; [done|]. rewrite length_app in Hi. simpl in Hi. lia.
Qed.
Lemma swap_out_spec {A} (v : list A) i y :
  v !! i = Some y -> exists l, swap_out v i = Some l /\ v ≡ₚ y :: l /\ length v = S (length l) /\
    forall j, (j < i)%nat -> l !! j = v !! j.
Proof.
  intros Hy. destruct (snoc_inv v i) as (v' & x & -> & Hi); [by eapply lookup_lt_Some|].
  exists (<[i := x]> v'). rewrite swap_out_snoc by done. rewrite length_app, length_insert. split_and!; [done| |simpl; lia|].
  - destruct (decide (i = length v')) as [->|].
    + rewrite list_lookup_middle in Hy by done. injection Hy as ->. rewrite list_insert_ge by lia. by rewrite (comm (++)).
    + rewrite lookup_app_l in Hy by lia. rewrite insert_take_drop by lia. rewrite <- (take_drop_middle v' i y Hy) at 1.
      rewrite (comm (++) _ [x]). simpl. rewrite <- !Permutation_middle. apply perm_swap.
  - intros j Hj. rewrite list_lookup_insert_ne by lia. by rewrite lookup_app_l by lia.
Qed.
Lemma swap_out_zip {A B} (v : list A) (w : list B) i l k :
  length v = length w -> (i < length v)%nat -> swap_out v i = Some l -> swap_out w i = Some k ->
  swap_out (zip v w) i = Some (zip l k).
Proof.
  intros Hlen Hi. destruct (snoc_inv v i Hi) as (v' & x & -> & Hv). rewrite Hlen in Hi.
  destruct (snoc_inv w i Hi) as (w' & y & -> & Hw). rewrite !swap_out_snoc by done. intros [= <-] [= <-].
  rewrite !length_app in Hlen. simpl in Hlen. rewrite zip_with_app by lia. simpl. rewrite swap_out_snoc.
  - f_equal. apply insert_zip_with.
  - rewrite length_zip_with. lia.
Qed.

(** The transactions whose flag is [b]. *)
Definition with_flag (b : bool) (l : list SignedTransaction) (flags : list bool) : list SignedTransaction :=
  fst <$> filter (fun p => p.2 = b) (zip l flags).

Lemma with_flag_swap b l flags i l' flags' tx f :
  length l = length flags -> l !! i = Some tx -> flags !! i = Some f ->
  swap_out l i = Some l' -> swap_out flags i = Some flags' ->
  with_flag b l flags ≡ₚ (if decide (f = b) then [tx] else []) ++ with_flag b l' flags'.
Proof.
  intros Hlen Htx Hf Hl Hk. pose proof (lookup_lt_Some _ _ _ Htx) as Hi.
  pose proof (swap_out_zip _ _ _ _ _ Hlen Hi Hl Hk) as Hz.
  destruct (swap_out_spec (zip l flags) i (tx, f)) as (z & Hz' & Hp & _).
  { rewrite lookup_zip_with, Htx, Hf. done. }
  assert (z = zip l' flags') by congruence. subst z. unfold with_flag. rewrite Hp, filter_cons. simpl.
  by destruct (decide (f = b)).
Qed.

(** Flags in step with the transactions. *)
Definition marked (c : Chunk) : Prop := length (confirmed_txs_to_remove c) = length (txs c).

Lemma with_flag_all b l flags :
  length flags = length l -> Forall (eq b) flags -> with_flag b l flags = l.
Proof.
  revert flags. induction l as [|tx l IH]; intros [|f flags] Hl Hf; try done. apply Forall_cons in Hf as [-> Hf].
  unfold with_flag in *. simpl. rewrite filter_cons_True by done. simpl. f_equal. apply IH; [simpl in Hl; lia|done].
Qed.
Lemma with_flag_split l flags : length flags = length l -> with_flag true l flags ++ with_flag false l flags ≡ₚ l.
Proof.
  revert flags. induction l as [|tx l IH]; intros [|f flags] Hl; try done. simpl in Hl. specialize (IH flags ltac:(lia)).
  unfold with_flag in *. simpl. rewrite !filter_cons. simpl. destruct f; simpl; [by rewrite IH|]. by rewrite <- Permutation_middle, IH.
Qed.
Lemma no_flags c : marked c -> Forall (eq false) (confirmed_txs_to_remove c) ->
  with_flag true (txs c) (confirmed_txs_to_remove c) = [] /\ with_flag false (txs c) (confirmed_txs_to_remove c) = txs c.
Proof.
  intros Hm Hall. pose proof (with_flag_split _ _ Hm) as Hs. rewrite (with_flag_all false) in Hs |- * by done.
  split; [|done]. apply Permutation_length in Hs. rewrite length_app in Hs. apply nil_length_inv. lia.
Qed.
Lemma flags_below c i : marked c -> (length (txs c) <= i)%nat ->
  (forall j, (j < i)%nat -> (j < length (txs c))%nat -> confirmed_txs_to_remove c !! j = Some false) ->
  Forall (eq false) (confirmed_txs_to_remove c).
Proof.
  intros Hm Hi Hpre. apply Forall_lookup. intros j f Hj. pose proof (lookup_lt_Some _ _ _ Hj). rewrite Hm in *.
  rewrite Hpre in Hj by lia. by injection Hj as <-.
Qed.
Lemma remove_loop_spec fuel c i n :
  marked c -> (length (txs c) - i <= fuel)%nat ->
  (forall j, (j < i)%nat -> (j < length (txs c))%nat -> confirmed_txs_to_remove c !! j = Some false) ->
  exists c', remove_loop fuel c i n = Ok (c', n + Z.of_nat (length (with_flag true (txs c) (confirmed_txs_to_remove c)))) /\
    Forall (eq false) (confirmed_txs_to_remove c') /\ txs c' ≡ₚ with_flag false (txs c) (confirmed_txs_to_remove c).
Proof.
  revert c i n. induction fuel as [|fuel IH]; intros c i n Hm Hfuel Hpre; cbn [remove_loop].
  - pose proof (flags_below c i Hm ltac:(lia) Hpre) as Hall. destruct (no_flags c Hm Hall) as [-> ->].
    exists c. rewrite Z.add_0_r. done.
  - destruct (confirmed_txs_to_remove c !! i) as [f|] eqn:Hf.
    + destruct (lookup_lt_is_Some_2 (txs c) i) as [tx Htx]; [rewrite <- Hm; by eapply lookup_lt_Some|]. destruct f.
      * destruct (swap_out_spec _ _ _ Hf) as (flags & Ef & _ & Lf & Pf), (swap_out_spec _ _ _ Htx) as (l & El & _ & Ll & _).
        rewrite Ef, El. pose proof (with_flag_swap true _ _ _ _ _ _ _ (eq_sym Hm) Htx Hf El Ef) as Wt.
        pose proof (with_flag_swap false _ _ _ _ _ _ _ (eq_sym Hm) Htx Hf El Ef) as Wf. simpl in Wt, Wf.
        destruct (IH (mk l flags) i (n + 1)) as (c' & E & Hall & Hp).
        { unfold marked in *. simpl. lia. }
        { simpl. lia. }
        { intros j Hj Hlt. simpl in *. rewrite Pf by done. apply Hpre; lia. }
        exists c'. rewrite E. simpl in *. split_and!; [|done|by rewrite Wf]. rewrite Wt. simpl. f_equal. f_equal. lia.
      * destruct (IH c (S i) n) as (c' & E & Hrest); [done|lia| |by exists c'].
        intros j Hj Hlt. destruct (decide (j = i)) as [->|]; [done|]. apply Hpre; lia.
    + apply lookup_ge_None in Hf. rewrite Hm in Hf. pose proof (flags_below c i Hm Hf Hpre) as Hall.
      destruct (no_flags c Hm Hall) as [-> ->]. exists c. rewrite Z.add_0_r. done.
Qed.

(** ** Chunks outside of block production, and chunks that were marked *)
Definition idle (c : Chunk) : Prop := Forall (eq false) (confirmed_txs_to_remove c).
Definition ready (c : Chunk) : Prop := marked c \/ idle c.
Definition kept (c : Chunk) : list SignedTransaction :=
  if decide (idle c) then txs c else with_flag false (txs c) (confirmed_txs_to_remove c).

Lemma idle_remove fuel c i n : idle c -> remove_loop fuel c i n = Ok (c, n).
Proof.
  intros Hi. revert i. induction fuel as [|fuel IH]; intros i; [done|]. cbn [remove_loop].
  destruct (confirmed_txs_to_remove c !! i) as [f|] eqn:Hf; [|done].
  pose proof (Forall_lookup_1 _ _ _ _ Hi Hf) as <-. apply IH.
Qed.
Lemma remove_spec c : ready c ->
  exists c', MempoolChunk.remove_confirmed_txs c = Ok (c', Z.of_nat (length (txs c) - length (txs c'))) /\
    (length (txs c') <= length (txs c))%nat /\ idle c' /\ txs c' ≡ₚ kept c.
Proof.
  intros Hr. unfold MempoolChunk.remove_confirmed_txs, kept. destruct (decide (idle c)) as [Hi|Hi].
  - exists c. rewrite idle_remove by done. by rewrite Nat.sub_diag.
  - destruct Hr as [Hm|]; [|done].
    destruct (remove_loop_spec (length (confirmed_txs_to_remove c)) c 0 0 Hm) as (c' & -> & Hi' & Hp); [rewrite Hm; lia|lia|].
    pose proof (Permutation_length (with_flag_split _ _ Hm)) as Hs. rewrite length_app in Hs.
    pose proof (Permutation_length Hp). exists c'. split_and!; [|lia|done|done]. f_equal. f_equal. lia.
Qed.

Lemma filter_all {A} (P : A -> Prop) `{forall x, Decision (P x)} (l : list A) : Forall P l -> filter P l = l.
Proof. induction 1 as [|x l Hx Hl IH]; [done|]. by rewrite filter_cons_True, IH. Qed.

Section Filter.
Variable check : SignedTransaction -> bool.
Lemma filter_loop_spec fuel c i n :
  (length (txs c) - i <= fuel)%nat -> (forall j tx, (j < i)%nat -> txs c !! j = Some tx -> check tx = false) ->
  exists c', filter_loop check fuel c i n = (c', n + Z.of_nat (length (txs c) - length (txs c'))) /\
    (length (txs c') <= length (txs c))%nat /\ confirmed_txs_to_remove c' = confirmed_txs_to_remove c /\
    txs c' ≡ₚ filter (fun tx => check tx = false) (txs c).
Proof.
  assert (Hdone : forall c i, (length (txs c) <= i)%nat ->
    (forall j tx, (j < i)%nat -> txs c !! j = Some tx -> check tx = false) -> filter (fun tx => check tx = false) (txs c) = txs c).
  { intros c' k Hk Hpre. apply filter_all, Forall_lookup. intros j tx Hj. eapply Hpre; [|done].
    apply lookup_lt_Some in Hj. lia. }
  revert c i n. induction fuel as [|fuel IH]; intros c i n Hfuel Hpre; cbn [filter_loop].
  - exists c. rewrite (Hdone c i) by (done || lia). rewrite Nat.sub_diag, Z.add_0_r. done.
  - destruct (txs c !! i) as [tx|] eqn:Htx.
    2:{ apply lookup_ge_None in Htx. exists c. rewrite (Hdone c i) by (done || lia). rewrite Nat.sub_diag, Z.add_0_r. done. }
    destruct (check tx) eqn:Hc.
    + destruct (swap_out_spec _ _ _ Htx) as (l & El & Pl & Ll & Hsame). rewrite El.
      destruct (IH (mk l (confirmed_txs_to_remove c)) i (n + 1)) as (c' & -> & Hlen & Hflags & Hp).
      { simpl. lia. }
      { intros j tx' Hj Htx'. simpl in Htx'. rewrite Hsame in Htx' by done. by eapply Hpre. }
      simpl in *. exists c'. split_and!; [f_equal; lia|lia|done|]. rewrite Hp, Pl, filter_cons_False by congruence. done.
    + destruct (IH c (S i) n) as (c' & -> & Hrest); [lia| |by exists c'].
      intros j tx' Hj Htx'. destruct (decide (j = i)) as [->|]; [congruence|]. apply (Hpre j); [lia|done].
Qed.
Lemma filter_spec c :
  exists c', MempoolChunk.filter check c = (c', Z.of_nat (length (txs c) - length (txs c'))) /\
    (length (txs c') <= length (txs c))%nat /\ confirmed_txs_to_remove c' = confirmed_txs_to_remove c /\
    txs c' ≡ₚ filter (fun tx => check tx = false) (txs c).
Proof. destruct (filter_loop_spec (length (txs c)) c 0 0) as (c' & E & H); [lia|lia|]. exists c'. split; [exact E|done]. Qed.
End Filter.

(** ** Joining small chunks *)
Definition all_txs (l : list Chunk) : list SignedTransaction := l ≫= txs.
#[local] Instance all_txs_proper : Proper ((≡ₚ) ==> (≡ₚ)) all_txs.
Proof. intros l1 l2 Hl. unfold all_txs. by rewrite Hl. Qed.
Definition neighbours_ok (target : Z) (l : list Chunk) : Prop :=
  forall i a b, l !! i = Some a -> l !! S i = Some b -> target <= MempoolChunk.size a + MempoolChunk.size b.

Lemma join_step l i a b back :
  l !! i = Some a -> l !! S i = Some b -> last l = Some back ->
  let l' := take (length l - 1) (<[S i := back]> (<[i := join a b]> l)) in
  all_txs l' ≡ₚ all_txs l /\ length l = S (length l') /\ (Forall idle l -> Forall idle l') /\
  l' !! i = Some (join a b) /\ forall j, (j < i)%nat -> l' !! j = l !! j.
Proof.
  intros Ha Hb Hl. set (l1 := <[i := join a b]> l). pose proof (lookup_lt_Some _ _ _ Hb) as Hlt.
  assert (Hb1 : l1 !! S i = Some b) by (unfold l1; by rewrite list_lookup_insert_ne by lia).
  destruct (swap_out_spec l1 (S i) b Hb1) as (l' & El & Pl & Ll & Hsame).
  assert (Hlast : last l1 = last l).
  { rewrite !last_lookup. unfold l1. rewrite length_insert. apply list_lookup_insert_ne. lia. }
  unfold swap_out in El. rewrite Hlast, Hl in El. cbn [mbind option_bind] in El. rewrite decide_True in El by (by eapply lookup_lt_Some).
  unfold l1 in El, Ll. rewrite length_insert in El, Ll. injection El as El. fold l1 in El. cbn zeta. fold l1. rewrite El.
  assert (Hl1 : l1 !! i = Some (join a b)) by (unfold l1; rewrite list_lookup_insert_eq by lia; done).
  assert (Hi1 : Forall idle l -> Forall idle l1).
  { intros Hi. apply Forall_insert; [done|]. apply Forall_app. split; by eapply (Forall_lookup_1 idle). }
  split_and!; [|done| | |].
  - apply (Permutation_app_inv_l (txs b)). transitivity (all_txs l1).
    + rewrite Pl. done.
    + unfold l1. rewrite insert_take_drop by lia. rewrite <- (take_drop_middle l i a Ha) at 3.
      unfold all_txs. rewrite !bind_app. cbn [mbind list_bind join txs]. rewrite <- !(assoc (++)).
      rewrite (Permutation_app_swap_app (txs b)). apply Permutation_app_head, Permutation_app_swap_app.
  - intros Hi. specialize (Hi1 Hi). rewrite Pl in Hi1. by apply Forall_cons in Hi1 as [_ ?].
  - rewrite Hsame by lia. done.
  - intros j Hj. rewrite Hsame by lia. unfold l1. by rewrite list_lookup_insert_ne by lia.
Qed.

Lemma join_loop_spec fuel target l i :
  (length l - i <= fuel)%nat ->
  (forall j a b, (j < i)%nat -> l !! j = Some a -> l !! S j = Some b -> target <= MempoolChunk.size a + MempoolChunk.size b) ->
  all_txs (Mempool.join_loop fuel target l i) ≡ₚ all_txs l /\
  (Forall idle l -> Forall idle (Mempool.join_loop fuel target l i)) /\
  neighbours_ok target (Mempool.join_loop fuel target l i).
Proof.
  revert l i. induction fuel as [|fuel IH]; intros l i Hfuel Hpre; cbn [Mempool.join_loop].
  - split_and!; [done|done|]. intros j a b Ha Hb. apply (Hpre j); [|done..]. apply lookup_lt_Some in Hb. lia.
  - destruct (l !! i) as [a|] eqn:Ha; [destruct (l !! S i) as [b|] eqn:Hb|].
    + destruct (Z.ltb_spec (MempoolChunk.size a + MempoolChunk.size b) target) as [Hlt|Hge].
      * destruct (last l) as [back|] eqn:Hl; [|by apply last_None in Hl as ->].
        destruct (join_step l i a b back Ha Hb Hl) as (Hp & Hlen & Hidle & Hi & Hsame).
        set (l' := take _ _) in *. destruct (IH l' i) as (Hp' & Hidle' & Hn); [lia| |].
        -- intros j x y Hj Hx Hy. rewrite Hsame in Hx by done. destruct (decide (S j = i)) as [<-|].
           ++ rewrite Hi in Hy. injection Hy as <-. specialize (Hpre j x a Hj Hx Ha). unfold MempoolChunk.size in *.
              simpl. rewrite length_app. lia.
           ++ rewrite Hsame in Hy by lia. by apply (Hpre j).
        -- split_and!; [by rewrite Hp'|by auto|done].
      * apply IH; [lia|]. intros j x y Hj Hx Hy. destruct (decide (j = i)) as [->|]; [congruence|]. apply (Hpre j); [lia|done..].
    + split_and!; [done|done|]. intros j x y Hx Hy. apply (Hpre j); [|done..]. apply lookup_lt_Some in Hy.
      apply lookup_ge_None in Hb. lia.
    + split_and!; [done|done|]. intros j x y Hx Hy. apply (Hpre j); [|done..]. apply lookup_lt_Some in Hy.
      apply lookup_ge_None in Ha. lia.
Qed.

(** ** Counters *)
Definition total (l : list Chunk) : Z := Z.of_nat (length (all_txs l)).
Lemma total_cons c l : total (c :: l) = MempoolChunk.size c + total l.
Proof. unfold total, all_txs. cbn [mbind list_bind]. rewrite length_app. unfold MempoolChunk.size. lia. Qed.
Lemma total_app l1 l2 : total (l1 ++ l2) = total l1 + total l2.
Proof. unfold total, all_txs. rewrite bind_app, length_app. lia. Qed.
Lemma u64_eq a b k : a = b + k * 2 ^ 64 -> u64 a = u64 b.
Proof. intros ->. unfold u64. by rewrite Z.mod_add. Qed.
Lemma u64_sub_l a b : u64 (u64 a - b) = u64 (a - b).
Proof. unfold u64. apply Zminus_mod_idemp_l. Qed.

Record mempool_ok (m : Mempool.t) : Prop := {
  mo_size : Mempool.mempool_size m = u64 (total (Mempool.mempool m));
  mo_buffer : Mempool.buffer_size m = u64 (total (Mempool.buffered_mempool m));
  mo_idle : Forall idle (Mempool.mempool m);
  mo_buffer_idle : Forall idle (Mempool.buffered_mempool m)
}.
Definition waiting (m : Mempool.t) : list SignedTransaction :=
  all_txs (Mempool.mempool m) ++ all_txs (Mempool.buffered_mempool m).

Lemma remove_all_spec l : Forall ready l ->
  exists l', Mempool.remove_all l = Ok (l', total l - total l') /\ Forall idle l' /\ all_txs l' ≡ₚ (l ≫= kept).
Proof.
  induction 1 as [|c l Hc Hl IH]; cbn [Mempool.remove_all].
  - exists []. done.
  - destruct (remove_spec c Hc) as (c' & -> & Hlen & Hi & Hp), IH as (l' & -> & Hi' & Hp'). cbn [result_bind fst snd].
    exists (c' :: l'). split_and!; [|by constructor|].
    + rewrite !total_cons. unfold MempoolChunk.size. f_equal. f_equal. lia.
    + unfold all_txs in *. cbn [mbind list_bind]. by rewrite Hp, Hp'.
Qed.

(** Cleaning: the marked transactions go, the others stay, and small neighbours
    are joined. *)
Lemma clean_spec m :
  Forall ready (Mempool.mempool m) ->
  exists m', Mempool.clean m = Ok m' /\ all_txs (Mempool.mempool m') ≡ₚ (Mempool.mempool m ≫= kept) /\
    Mempool.buffered_mempool m' = Mempool.buffered_mempool m /\ Mempool.buffer_size m' = Mempool.buffer_size m /\
    Forall idle (Mempool.mempool m') /\ neighbours_ok (Mempool.TARGET_CHUNK_SIZE m) (Mempool.mempool m') /\
    (Mempool.mempool_size m = u64 (total (Mempool.mempool m)) -> Mempool.mempool_size m' = u64 (total (Mempool.mempool m'))).
Proof.
  intros Hr. unfold Mempool.clean, Mempool.remove_confirmed_txs.
  destruct (remove_all_spec _ Hr) as (l' & -> & Hi & Hp). cbn [result_bind fst snd].
  eexists. split; [reflexivity|]. unfold Mempool.join_small_chunks. cbn.
  destruct (join_loop_spec (length l') (Mempool.TARGET_CHUNK_SIZE m) l' 0) as (Hp' & Hi' & Hn); [lia|lia|].
  split_and!; [by rewrite Hp'|done|done|by apply Hi'|done|]. intros ->. rewrite u64_sub_l. unfold total at 4. rewrite Hp'.
  fold (total l'). f_equal. lia.
Qed.

Lemma clean_target m m' : Mempool.clean m = Ok m' -> Mempool.TARGET_CHUNK_SIZE m' = Mempool.TARGET_CHUNK_SIZE m.
Proof.
  unfold Mempool.clean, Mempool.remove_confirmed_txs. intros (m1 & (q & _ & [= <-])%result_bind_Ok & [= <-])%result_bind_Ok. done.
Qed.

Lemma filter_chunks_spec check l cancelled : Forall idle l ->
  exists l' gone, Mempool.filter_chunks check l cancelled = (l', total l - total l') /\ Forall idle l' /\
    all_txs l ≡ₚ all_txs l' ++ gone /\ Forall (fun tx => check tx = true) gone.
Proof.
  intros Hl. revert cancelled. induction Hl as [|c l Hc Hl IH]; intros cancelled; cbn [Mempool.filter_chunks].
  - by exists [], [].
  - destruct (IH (tail cancelled)) as (l' & gone & -> & Hi & Hp & Hg). cbn [fst snd].
    destruct (default false (head cancelled)).
    + exists (c :: l'), gone. cbn [fst snd]. split_and!; [f_equal; rewrite !total_cons; lia|by constructor| |done].
      unfold all_txs in *. cbn [mbind list_bind]. rewrite Hp. by rewrite (assoc (++)).
    + destruct (filter_spec check c) as (c' & -> & Hlen & Hflags & Hpc). cbn [fst snd].
      exists (c' :: l'), (filter (fun tx => check tx = true) (txs c) ++ gone). split_and!.
      * f_equal. rewrite !total_cons. unfold MempoolChunk.size. lia.
      * constructor; [|done]. unfold idle. by rewrite Hflags.
      * unfold all_txs in *. cbn [mbind list_bind]. rewrite Hp, Hpc.
        rewrite <- (filter_app_complement (fun tx => check tx = true) (txs c)) at 1.
        rewrite (list_filter_iff (fun x => ~ check x = true) (fun tx => check tx = false)) by (intros x; destruct (check x); split; congruence).
        rewrite <- !(assoc (++)). rewrite (Permutation_app_swap_app (filter (fun tx => check tx = true) (txs c))).
        apply Permutation_app_head. apply Permutation_app_swap_app.
      * apply Forall_app. split; [|done]. apply Forall_forall. intros tx Hin. by apply list_elem_of_filter in Hin as [? _].
Qed.

(** ** Adding, pushing and dropping *)
Lemma chunk_at_spec m l k :
  (seq 0 k ≫= Mempool.chunk_at m l) = take (k * Z.to_nat (Mempool.TARGET_CHUNK_SIZE m)) l.
Proof.
  induction k as [|k IH]; [done|]. rewrite seq_S, bind_app, IH. cbn [mbind list_bind]. rewrite app_nil_r, Nat.add_0_l.
  unfold Mempool.chunk_at. set (t := Z.to_nat _). replace (S k * t)%nat with (k * t + t)%nat by lia.
  rewrite <- take_take_drop. f_equal. destruct (decide (k * t + t <= length l)%nat) as [Hle|Hgt].
  - f_equal. lia.
  - rewrite !take_ge; [done| |]; rewrite length_drop; lia.
Qed.
Lemma add_buffer_fold m l ns :
  exists m', foldl (fun m i => Mempool.add_to_mempool_buffer_nolock m (Mempool.chunk_at m l i)) m ns = m' /\
    Mempool.mempool m' = Mempool.mempool m /\ Mempool.mempool_size m' = Mempool.mempool_size m /\
    Mempool.TARGET_CHUNK_SIZE m' = Mempool.TARGET_CHUNK_SIZE m /\ Mempool.MAX_MEMPOOL_SIZE m' = Mempool.MAX_MEMPOOL_SIZE m /\
    Mempool.buffered_mempool m' = Mempool.buffered_mempool m ++ (MempoolChunk.of_txs <$> (Mempool.chunk_at m l <$> ns)) /\
    (Mempool.buffer_size m = u64 (total (Mempool.buffered_mempool m)) ->
     Mempool.buffer_size m' = u64 (total (Mempool.buffered_mempool m'))).
Proof.
  revert m. induction ns as [|i ns IH]; intros m; cbn [foldl].
  - exists m. simpl. rewrite app_nil_r. split_and!; done.
  - set (m1 := Mempool.add_to_mempool_buffer_nolock m (Mempool.chunk_at m l i)).
    destruct (IH m1) as (m' & -> & E1 & E2 & E3 & E4 & E5 & E6). exists m'.
    split_and!; [done|done|done|done|done| |].
    + rewrite E5. unfold m1 at 1. simpl. rewrite <- (assoc (++)). done.
    + intros Hb. apply E6. unfold m1. simpl. rewrite Hb, u64_add_l, total_app, total_cons. f_equal. unfold MempoolChunk.size, total. simpl. lia.
Qed.
Lemma all_txs_of_txs ls : all_txs (MempoolChunk.of_txs <$> ls) = concat ls.
Proof. unfold all_txs. induction ls as [|l ls IH]; [done|]. rewrite fmap_cons, bind_cons, IH. done. Qed.
Lemma concat_fmap_bind {A B} (f : A -> list B) l : concat (f <$> l) = (l ≫= f).
Proof. induction l as [|a l IH]; [done|]. rewrite fmap_cons, bind_cons, <- IH. done. Qed.

Lemma chunkify_spec m l :
  mempool_ok m -> 0 < Mempool.TARGET_CHUNK_SIZE m ->
  exists m', Mempool.chunkify_and_add_to_mempool_buffer m l = Ok m' /\ mempool_ok m' /\
    Mempool.TARGET_CHUNK_SIZE m' = Mempool.TARGET_CHUNK_SIZE m /\ waiting m' = waiting m ++ l.
Proof.
  intros [O1 O2 O3 O4] Ht. unfold Mempool.chunkify_and_add_to_mempool_buffer.
  destruct (Z.eqb_spec (Mempool.TARGET_CHUNK_SIZE m) 0); [lia|]. set (t := Z.to_nat _).
  destruct (add_buffer_fold m l (seq 0 (S (length l / t)))) as (m' & -> & E1 & E2 & E3 & E4 & E5 & E6).
  exists m'. split_and!; [done| |done|].
  - constructor; rewrite ?E1, ?E2; [done|by apply E6|done|]. rewrite E5. apply Forall_app. split; [done|].
    apply Forall_fmap, Forall_true. intros x. constructor.
  - unfold waiting. rewrite E1, E5. unfold all_txs at 2. rewrite bind_app. fold (all_txs (Mempool.buffered_mempool m)).
    rewrite <- (assoc (++)). do 2 f_equal. fold (all_txs (MempoolChunk.of_txs <$> (Mempool.chunk_at m l <$> seq 0 (S (length l / t))))).
    rewrite all_txs_of_txs, concat_fmap_bind, chunk_at_spec. apply take_ge. fold t.
    pose proof (Nat.mul_succ_div_gt (length l) t). lia.
Qed.

Lemma push_spec m :
  mempool_ok m -> mempool_ok (Mempool.push_mempool_buffer_to_mempool m) /\
    Mempool.TARGET_CHUNK_SIZE (Mempool.push_mempool_buffer_to_mempool m) = Mempool.TARGET_CHUNK_SIZE m /\
    waiting (Mempool.push_mempool_buffer_to_mempool m) = waiting m.
Proof.
  unfold Mempool.push_mempool_buffer_to_mempool. intros Hm. remember (Mempool.buffered_mempool m) as buffered eqn:E.
  revert m Hm E. induction buffered as [|front rest IH]; intros m Hm E; cbn [Mempool.push_loop]; [done|].
  set (m1 := Mempool.mk _ _ _ _ _ _). assert (H1 : mempool_ok m1 /\ waiting m1 = waiting m).
  { destruct Hm as [O1 O2 O3 O4]. rewrite <- E in *. split.
    - apply Forall_cons in O4 as [Of Or]. constructor; simpl; [| |by apply Forall_app; split; [|constructor]|done].
      + rewrite O1, u64_add_l, total_app, total_cons. f_equal. unfold total at 3. simpl. lia.
      + rewrite O2, u64_sub_l, total_cons. f_equal. lia.
    - unfold waiting. rewrite <- E. simpl. unfold all_txs. rewrite bind_app. cbn [mbind list_bind]. by rewrite app_nil_r, <- (assoc (++)). }
  destruct H1 as [H1 Hw]. destruct (_ <? _); [done|]. destruct (IH m1 H1 eq_refl) as (? & ? & Hw'). by rewrite <- Hw.
Qed.

Lemma drop_spec m n :
  mempool_ok m -> exists gone, mempool_ok (Mempool.drop_txs m n) /\
    Mempool.TARGET_CHUNK_SIZE (Mempool.drop_txs m n) = Mempool.TARGET_CHUNK_SIZE m /\
    waiting m = gone ++ waiting (Mempool.drop_txs m n).
Proof.
  intros [O1 O2 O3 O4]. unfold Mempool.drop_txs.
  assert (Hl : forall l d, exists gone rest, Mempool.drop_loop l n d = (rest, d + total gone) /\ l = gone ++ rest).
  { induction l as [|c l IH]; intros d; cbn [Mempool.drop_loop].
    - exists [], []. unfold total. simpl. by rewrite Z.add_0_r.
    - destruct (d <? n); [|exists [], (c :: l); unfold total; simpl; by rewrite Z.add_0_r].
      destruct (IH (d + MempoolChunk.size c)) as (gone & rest & -> & ->). exists (c :: gone), rest.
      split; [|done]. f_equal. rewrite total_cons. lia. }
  destruct (Hl (Mempool.mempool m) 0) as (gone & rest & -> & E). exists (all_txs gone). split_and!.
  - rewrite E in O1, O3. apply Forall_app in O3 as [_ O3]. constructor; simpl; [|done..].
    rewrite O1, u64_sub_l, total_app. f_equal. lia.
  - done.
  - unfold waiting. simpl. rewrite E. unfold all_txs. by rewrite bind_app, (assoc (++)).
Qed.

(** ** Histories of the mempool *)
Inductive event :=
| Added (l : list SignedTransaction)
| Pushed
(** One pass with [check_transaction] against the database of the moment. *)
| Filtered (check : SignedTransaction -> bool) (cancelled : list bool)
(** A block was produced: the bitmaps it set, then one cleaning. *)
| Produced (marks : list (nat * list bool))
| Dropped (n : Z).

Fixpoint mark_all (marks : list (nat * list bool)) (m : Mempool.t) : result Mempool.t :=
  match marks with
  | [] => Ok m
  | p :: marks => let* q := Mempool.mark m p.1 p.2 in mark_all marks q
  end.
Definition apply_event (e : event) (m : Mempool.t) : result Mempool.t :=
  match e with
  | Added l => Mempool.chunkify_and_add_to_mempool_buffer m l
  | Pushed => Ok (Mempool.push_mempool_buffer_to_mempool m)
  | Filtered check cancelled => Ok (Mempool.filter_pass check m cancelled)
  | Produced marks => let* q := mark_all marks m in Mempool.clean q
  | Dropped n => Ok (Mempool.drop_txs m n)
  end.
Fixpoint run (events : list event) (m : Mempool.t) : result Mempool.t :=
  match events with
  | [] => Ok m
  | e :: events => let* q := apply_event e m in run events q
  end.

Definition added (e : event) : list SignedTransaction := match e with Added l => l | _ => [] end.

Definition flagged (c : Chunk) : list SignedTransaction :=
  if decide (idle c) then [] else with_flag true (txs c) (confirmed_txs_to_remove c).
(** What an event may remove. *)
Definition may_remove (e : event) (m : Mempool.t) (gone : list SignedTransaction) : Prop :=
  match e with
  | Added _ | Pushed => gone = []
  | Filtered check _ => Forall (fun tx => check tx = true) gone
  | Produced marks => exists m1, mark_all marks m = Ok m1 /\ gone ≡ₚ (Mempool.mempool m1 ≫= flagged)
  | Dropped _ => exists rest, waiting m = gone ++ rest
  end.

Lemma kept_flagged c : ready c -> txs c ≡ₚ kept c ++ flagged c.
Proof.
  unfold kept, flagged. intros [Hm|Hi]; case_decide; rewrite ?app_nil_r; try done.
  rewrite (comm (++)). by rewrite with_flag_split.
Qed.
Lemma kept_flagged_all l : Forall ready l -> all_txs l ≡ₚ (l ≫= kept) ++ (l ≫= flagged).
Proof.
  unfold all_txs. induction 1 as [|c l Hc Hl IH]; [done|]. rewrite !bind_cons, IH, (kept_flagged c Hc).
  rewrite <- !(assoc (++)). apply Permutation_app_head. by rewrite (Permutation_app_swap_app (flagged c)).
Qed.

Lemma mark_spec m i bitmap m' :
  Forall ready (Mempool.mempool m) -> Mempool.mark m i bitmap = Ok m' ->
  Forall ready (Mempool.mempool m') /\ all_txs (Mempool.mempool m') = all_txs (Mempool.mempool m) /\
  Mempool.buffered_mempool m' = Mempool.buffered_mempool m /\ Mempool.mempool_size m' = Mempool.mempool_size m /\
  Mempool.buffer_size m' = Mempool.buffer_size m /\ Mempool.TARGET_CHUNK_SIZE m' = Mempool.TARGET_CHUNK_SIZE m.
Proof.
  unfold Mempool.mark, MempoolChunk.set_confirmed_txs. intros Hr. destruct (Mempool.mempool m !! i) as [c|] eqn:Hi; [|done].
  destruct (decide _) as [Hl|]; [|done]. cbn [result_bind]. intros [= <-]. cbn. split_and!; try done.
  - apply Forall_insert; [done|]. by left.
  - unfold all_txs. rewrite insert_take_drop by (by eapply lookup_lt_Some). rewrite <- (take_drop_middle _ i c Hi) at 3.
    by rewrite !bind_app, !bind_cons.
Qed.
Lemma mark_chunks_spec marks m m' :
  Forall ready (Mempool.mempool m) -> mark_all marks m = Ok m' ->
  Forall ready (Mempool.mempool m') /\ all_txs (Mempool.mempool m') = all_txs (Mempool.mempool m) /\
  Mempool.buffered_mempool m' = Mempool.buffered_mempool m /\ Mempool.mempool_size m' = Mempool.mempool_size m /\
  Mempool.buffer_size m' = Mempool.buffer_size m /\ Mempool.TARGET_CHUNK_SIZE m' = Mempool.TARGET_CHUNK_SIZE m.
Proof.
  revert m. induction marks as [|p marks IH]; intros m Hr; cbn [mark_all]; [by intros [= <-]|].
  intros (m1 & E1 & E2)%result_bind_Ok. destruct (mark_spec _ _ _ _ Hr E1) as (R1 & A1 & B1 & C1 & D1 & F1).
  destruct (IH m1 R1 E2) as (R2 & A2 & B2 & C2 & D2 & F2). split_and!; congruence.
Qed.

Lemma apply_event_spec e m m' :
  mempool_ok m -> 0 < Mempool.TARGET_CHUNK_SIZE m -> apply_event e m = Ok m' ->
  mempool_ok m' /\ Mempool.TARGET_CHUNK_SIZE m' = Mempool.TARGET_CHUNK_SIZE m /\
  exists gone, waiting m ++ added e ≡ₚ waiting m' ++ gone /\ may_remove e m gone.
Proof.
  intros Hm Ht. destruct e as [l| |check cancelled|marks|n]; simpl.
  - destruct (chunkify_spec m l Hm Ht) as (m1 & E & H1 & H2 & Hw). rewrite E. intros [= <-]. split_and!; [done|done|].
    exists []. by rewrite Hw, app_nil_r.
  - intros [= <-]. destruct (push_spec m Hm) as (H1 & H2 & Hw). split_and!; [done|done|]. exists []. by rewrite Hw.
  - intros [= <-]. destruct Hm as [O1 O2 O3 O4]. unfold Mempool.filter_pass.
    destruct (filter_chunks_spec check (Mempool.mempool m) cancelled O3) as (l' & gone & -> & Hi & Hp & Hg). cbn [fst snd].
    split_and!; [|done|].
    + constructor; simpl; [|done..]. rewrite O1, u64_sub_l. f_equal. lia.
    + exists gone. split; [|done]. unfold waiting. simpl. rewrite app_nil_r, Hp. rewrite <- !(assoc (++)).
      apply Permutation_app_head, Permutation_app_comm.
  - intros (m1 & E1 & E2)%result_bind_Ok. destruct Hm as [O1 O2 O3 O4].
    assert (Hr : Forall ready (Mempool.mempool m)) by (eapply Forall_impl; [exact O3|]; by right).
    destruct (mark_chunks_spec _ _ _ Hr E1) as (R1 & A1 & B1 & C1 & D1 & F1).
    destruct (clean_spec m1 R1) as (m2 & E & Hp & Hb & Hbs & Hi & _ & Hs). assert (m2 = m') by congruence. subst m2.
    assert (Ht1 : total (Mempool.mempool m1) = total (Mempool.mempool m)) by (unfold total; by rewrite A1).
    split_and!.
    + constructor; [|by rewrite Hbs, D1, Hb, B1|done|by rewrite Hb, B1]. apply Hs. by rewrite C1, O1, Ht1.
    + rewrite <- F1. by eapply clean_target.
    + exists (Mempool.mempool m1 ≫= flagged). split; [|by exists m1]. unfold waiting. rewrite app_nil_r, Hb, B1, Hp, <- A1.
      rewrite (kept_flagged_all _ R1). rewrite <- !(assoc (++)). apply Permutation_app_head, Permutation_app_comm.
  - intros [= <-]. destruct (drop_spec m n Hm) as (gone & H1 & H2 & Hw). split_and!; [done|done|]. exists gone.
    rewrite app_nil_r, Hw. split; [apply Permutation_app_comm|by eexists].
Qed.
Lemma run_ok events m m' :
  mempool_ok m -> 0 < Mempool.TARGET_CHUNK_SIZE m -> run events m = Ok m' ->
  mempool_ok m' /\ 0 < Mempool.TARGET_CHUNK_SIZE m'.
Proof.
  revert m. induction events as [|e events IH]; intros m Hm Ht; simpl; [by intros [= <-]|].
  intros (m1 & E1 & E2)%result_bind_Ok. destruct (apply_event_spec e m m1 Hm Ht E1) as (H1 & H2 & _). apply (IH m1); [done|lia|done].
Qed.
Lemma new_ok target max : mempool_ok (Mempool.new target max).
Proof. constructor; try done; constructor. Qed.

Module MempoolTheorems.
(** C33: the mempool loses and invents no transaction.  After any history, in
    which blocks were produced, transactions were added, pushed, filtered and
    dropped, the counters are the numbers of transactions; and whatever happens
    next, the transactions that wait are those that waited and those that were
    added, less exactly the ones a block marked, the filter rejected or the caller
    dropped. *)
Theorem mempool_keeps_transactions target max events e m m' :
  0 < target -> run events (Mempool.new target max) = Ok m -> apply_event e m = Ok m' ->
  Mempool.size m' = u64 (total (Mempool.mempool m')) /\ Mempool.total_size m' = u64 (Z.of_nat (length (waiting m'))) /\
  exists gone, waiting m ++ added e ≡ₚ waiting m' ++ gone /\ may_remove e m gone.
Proof.
  intros Ht Hrun He. destruct (run_ok events _ m (new_ok target max) Ht Hrun) as [Hm Htm].
  destruct (apply_event_spec e m m' Hm Htm He) as ([O1 O2 _ _] & _ & Hgone). split_and!; [done| |done].
  unfold Mempool.total_size, Mempool.size. rewrite O1, O2, u64_add_l, Z.add_comm, u64_add_l.
  unfold waiting. rewrite length_app. unfold total. f_equal. lia.
Qed.

(** C34: the cleaner ends, with the marked transactions gone, the others kept, no
    mark left, and no two neighbouring chunks that together are smaller than the
    target size. *)
Theorem cleaning_joins_small_chunks m :
  Forall ready (Mempool.mempool m) ->
  exists m', Mempool.clean m = Ok m' /\ all_txs (Mempool.mempool m') ≡ₚ (Mempool.mempool m ≫= kept) /\
    Forall idle (Mempool.mempool m') /\ neighbours_ok (Mempool.TARGET_CHUNK_SIZE m) (Mempool.mempool m').
Proof.
  intros Hr. destruct (clean_spec m Hr) as (m' & E & Hp & _ & _ & Hi & Hn & _). by exists m'.
Qed.

(** *** A concrete history *)
Definition tx (n : Z) : SignedTransaction := mkSignedTransaction (mkTransaction (mkTransactionMetadata 7 n) [] 10) [].
Definition stale (t : SignedTransaction) : bool := sequenceNumber (metadata (transaction t)) <=? 1.
Definition history : list event := [Added [tx 1; tx 2; tx 3]; Pushed; Filtered stale [false; true]].

Lemma mempool_keeps_transactions_witness :
  exists m m', run history (Mempool.new 2 100) = Ok m /\
    apply_event (Produced [(0%nat, [true]); (1%nat, [false])]) m = Ok m' /\ Mempool.total_size m' = 1.
Proof.
  destruct (run history (Mempool.new 2 100)) as [m|] eqn:E; [|vm_compute in E; discriminate].
  destruct (apply_event (Produced [(0%nat, [true]); (1%nat, [false])]) m) as [m'|] eqn:E'.
  - destruct (mempool_keeps_transactions 2 100 history (Produced [(0%nat, [true]); (1%nat, [false])]) m m') as (_ & Hs & _).
    + lia.
    + exact E.
    + exact E'.
    + exists m, m'. split; [reflexivity|]. split; [exact E'|]. rewrite Hs. vm_compute in E. injection E as <-. vm_compute in E'.
      injection E' as <-. reflexivity.
  - vm_compute in E. injection E as <-. vm_compute in E'. discriminate.
Defined.

Definition two_chunks : Mempool.t :=
  Mempool.mk [mk [tx 1; tx 2] [true; false]; mk [tx 3] []] [] 3 0 10 100.
Lemma cleaning_joins_small_chunks_witness :
  exists m', Mempool.clean two_chunks = Ok m' /\ all_txs (Mempool.mempool m') ≡ₚ [tx 2; tx 3].
Proof.
  destruct (cleaning_joins_small_chunks two_chunks) as (m' & E & Hp & _).
  - apply Forall_cons. split; [left; reflexivity|]. apply Forall_cons. split; [right; constructor|constructor].
  - exists m'. split; [exact E|]. rewrite Hp. reflexivity.
Defined.
End MempoolTheorems.
