(* ===== verification/HeaderMap.v ===== *)
(** * The map of block header hashes
    (src/header_hash/block_header_hash_map.h, .cc, src/lmdb/lmdb_loading.h)

    A trie from block numbers to header hashes, in memory, and its copy on disk.
    After block [n] it holds the blocks 1 to [n]; the disk is at an earlier round.
    The trie, LMDB and the hash function are outside the repository. *)
From stdpp Require Import base gmap list strings.
From S2P Require Import Prelude Types Offers AccountLmdb Database.

Record BlockHeaderHashValue := mkHeaderValue { header_hash : list Z; validation_success : Z }.

(** The XDR type [Block]: its number, and the hash of its encoding. *)
Class HeaderBlock (B : Type) := {
  blockNumber : B -> Z;
  hash_xdr : B -> list Z;
  blockNumber_range b : in_u64 (blockNumber b)
}.

(** The database: keys of 8 bytes, and a cursor over all entries. *)
Class HeaderDbi (W : Type) := {
  hd_map : W -> gmap (list Z) BlockHeaderHashValue;
  hd_entries : W -> list (list Z * BlockHeaderHashValue);
  hd_persisted_round_number : W -> Z;
  hd_commit_wtxn : W -> list (list Z * BlockHeaderHashValue) -> Z -> W;
  hd_entries_map w : hd_entries w ≡ₚ map_to_list (hd_map w);
  hd_commit_map w puts n : hd_map (hd_commit_wtxn w puts n) = foldl (fun m p => <[p.1 := p.2]> m) (hd_map w) puts;
  hd_commit_round w puts n : hd_persisted_round_number (hd_commit_wtxn w puts n) = n
}.

Module BlockHeaderHashMap.
Section Map.
Context {TR : Type} `{MerkleTrie BlockHeaderHashValue TR} {W : Type} `{HeaderDbi W} {B : Type} `{HeaderBlock B} `{BigEndian}.

Record t := mk {
  block_map : TR;
  (** [None] before [open_lmdb] *)
  lmdb_instance : option W;
  last_committed_block_number : Z
}.
Implicit Types m : t.
Definition BlockHeaderHashMap : t := mk trie_empty None 0.

Definition set_block_map m (tr : TR) : t := mk tr (lmdb_instance m) (last_committed_block_number m).
Definition get_persisted_round_number m : Z := match lmdb_instance m with Some w => hd_persisted_round_number w | None => 0 end.

Definition hash m : list Z := trie_hash (block_map m).

Definition insert m (block : B) (res : bool) : result t :=
  let block_number := blockNumber block in
  if block_number =? 0 then Throw "should never insert genesis hash!"
  else if negb (block_number =? u64 (last_committed_block_number m + 1)) then Throw "inserting wrong block number"
  else
    let value := mkHeaderValue (hash_xdr block) (if res then 1 else 0) in
    Ok (mk (trie_insert (block_map m) block_number value) (lmdb_instance m) block_number).

(** The loop of [persist_lmdb] over the rounds [i], [i+1], ...: the puts. *)
Fixpoint persist_loop (fuel : nat) (m : t) (i current_block_number : Z) (wtx : list (list Z * BlockHeaderHashValue))
    : result (list (list Z * BlockHeaderHashValue)) :=
  match fuel with
  | O => Throw "no fuel"
  | S fuel =>
      if negb (i <=? current_block_number) then Ok wtx
      else if i =? 0 then persist_loop fuel m (u64 (i + 1)) current_block_number wtx
      else match trie_map (block_map m) !! i with
           | None => Throw "did not find hash in hash_map!"
           | Some v => persist_loop fuel m (u64 (i + 1)) current_block_number (wtx ++ [(write_unsigned_big_endian i, v)])
           end
  end.
Definition rounds (from to : Z) : nat := Z.to_nat (to - from) + 2.

Definition persist_lmdb m (current_block_number : Z) : result t :=
  match lmdb_instance m with
  | None => Ok m
  | Some w =>
      let persisted_round_number := hd_persisted_round_number w in
      let* wtx := persist_loop (rounds persisted_round_number current_block_number) m persisted_round_number current_block_number [] in
      Ok (mk (block_map m) (Some (hd_commit_wtxn w wtx current_block_number)) (last_committed_block_number m))
  end.

(** [perform_deletion] says whether the key was there. *)
Fixpoint rollback_loop (fuel : nat) (tr : TR) (i last : Z) : result TR :=
  match fuel with
  | O => Throw "no fuel"
  | S fuel =>
      if negb (i <=? last) then Ok tr
      else if i =? 0 then rollback_loop fuel tr (u64 (i + 1)) last
      else match trie_map tr !! i with
           | None => Throw "error when deleting from header hash map"
           | Some _ => rollback_loop fuel (trie_perform_deletion tr i) (u64 (i + 1)) last
           end
  end.

Definition rollback_to_committed_round m (committed_block_number : Z) : result t :=
  if committed_block_number <? get_persisted_round_number m then Throw "can't rollback beyond lmdb persist"
  else
    let* tr := rollback_loop (rounds committed_block_number (last_committed_block_number m)) (block_map m)
                 (u64 (committed_block_number + 1)) (last_committed_block_number m) in
    Ok (mk tr (lmdb_instance m) committed_block_number).

(** The entries the cursor visits; [read_unsigned_big_endian] of 8 bytes. *)
Fixpoint load_entries (tr : TR) (persisted_round_number : Z) (l : list (list Z * BlockHeaderHashValue)) : result TR :=
  match l with
  | [] => Ok tr
  | kv :: l =>
      let round_number := be_value kv.1 in
      if persisted_round_number <? round_number then Throw "lmdb contains round idx beyond committed max"
      else load_entries (trie_insert tr round_number kv.2) persisted_round_number l
  end.
Definition load_lmdb_contents_to_memory m : result t :=
  match lmdb_instance m with
  | None => Throw "the database is not open"
  | Some w =>
      let* tr := load_entries (block_map m) (hd_persisted_round_number w) (hd_entries w) in
      Ok (mk tr (Some w) (hd_persisted_round_number w))
  end.

Definition get m (round_number : Z) : result (option BlockHeaderHashValue) :=
  if get_persisted_round_number m <? round_number then Ok None
  else match trie_map (block_map m) !! round_number with
       | None => Throw "failed to load hash that lmdb should have"
       | Some v => Ok (Some v)
       end.

(** [LoadLMDBHeaderMap]: replaying blocks the disk may already have. *)
Record LoadLMDBHeaderMap := mkLoadHeaderMap { wrapped : t; do_operations : bool }.
Definition new_LoadLMDBHeaderMap (current_block_number : Z) m : LoadLMDBHeaderMap :=
  mkLoadHeaderMap m (get_persisted_round_number m <? current_block_number).
Definition insert_for_loading (v : LoadLMDBHeaderMap) (block : B) (validation_success : bool) : result LoadLMDBHeaderMap :=
  if do_operations v then let* q := insert (wrapped v) block validation_success in Ok (mkLoadHeaderMap q (do_operations v))
  else Ok v.
End Map.
Arguments t : clear implicits.
End BlockHeaderHashMap.

(** * The chain of headers *)
(** The map after puts that agree on every key. *)
Lemma foldl_puts `{Countable K} {V} (l : list (K * V)) (d : gmap K V) k :
  (forall v v', (k, v) ∈ l -> (k, v') ∈ l -> v = v') ->
  (forall v, (k, v) ∈ l -> foldl (fun acc q => <[q.1 := q.2]> acc) d l !! k = Some v) /\
  ((forall v, (k, v) ∉ l) -> foldl (fun acc q => <[q.1 := q.2]> acc) d l !! k = d !! k).
Proof.
  intros Hf. induction l as [|[k0 v0] l IH] using rev_ind; [split; [by intros v ?%elem_of_nil|done]|].
  rewrite foldl_app. cbn [foldl fst snd]. setoid_rewrite elem_of_app in Hf. setoid_rewrite list_elem_of_singleton in Hf.
  destruct IH as [IH1 IH2]; [intros; apply Hf; by left|]. setoid_rewrite elem_of_app. setoid_rewrite list_elem_of_singleton.
  destruct (decide (k0 = k)) as [->|Hne].
  - rewrite lookup_insert_eq. split.
    + intros v [Hv|[= ->]]; [|done]. f_equal. apply Hf; [by right|by left].
    + intros Hno. destruct (Hno v0). by right.
  - rewrite lookup_insert_ne by done. split; [intros v [Hv|[= ->]]; [by apply IH1|done]|].
    intros Hno. apply IH2. intros v Hv. apply (Hno v). by left.
Qed.

Module HeaderMapProps.
Import BlockHeaderHashMap.
Section Props.
Context {TR : Type} `{MerkleTrie BlockHeaderHashValue TR} {W : Type} `{HeaderDbi W} {B : Type} `{HeaderBlock B} `{BigEndian}.
Abbreviation Map := (BlockHeaderHashMap.t TR W).
Implicit Types (m : Map) (hs : list BlockHeaderHashValue).

Lemma be_inj a b : in_u64 a -> in_u64 b -> write_unsigned_big_endian a = write_unsigned_big_endian b -> a = b.
Proof. intros Ha Hb E. rewrite <- (big_endian_value a Ha), <- (big_endian_value b Hb). by rewrite E. Qed.

(** The header of block [n] of a chain that starts with block 1. *)
Definition header_at hs (n : Z) : option BlockHeaderHashValue := if 0 <? n then hs !! Z.to_nat (n - 1) else None.
Lemma header_at_take hs p n : 0 <= p -> header_at (take (Z.to_nat p) hs) n = if n <=? p then header_at hs n else None.
Proof.
  intros Hp. unfold header_at. destruct (Z.ltb_spec 0 n); [|by destruct (n <=? p)]. destruct (Z.leb_spec n p).
  - apply lookup_take_lt. lia.
  - apply lookup_take_ge. lia.
Qed.
Lemma header_at_some hs n : is_Some (header_at hs n) <-> 0 < n <= Z.of_nat (length hs).
Proof.
  unfold header_at. destruct (Z.ltb_spec 0 n); [|split; [by intros []|lia]]. rewrite lookup_lt_is_Some. lia.
Qed.

(** Memory holds the chain [hs], the disk its first [p] headers. *)
Record represents hs (p : Z) m : Prop := {
  rp_bounds : 0 <= p <= Z.of_nat (length hs);
  rp_length : Z.of_nat (length hs) < 2 ^ 64 - 1;
  rp_memory n : trie_map (block_map m) !! n = header_at hs n;
  rp_last : last_committed_block_number m = Z.of_nat (length hs);
  rp_disk : exists w, lmdb_instance m = Some w /\ hd_persisted_round_number w = p /\
    (forall n, in_u64 n -> hd_map w !! write_unsigned_big_endian n = header_at (take (Z.to_nat p) hs) n) /\
    (forall k, is_Some (hd_map w !! k) -> exists n, in_u64 n /\ k = write_unsigned_big_endian n)
}.

Lemma represents_persisted hs p m : represents hs p m -> get_persisted_round_number m = p.
Proof. intros [_ _ _ _ (w & Ew & Ep & _)]. unfold get_persisted_round_number. by rewrite Ew. Qed.

(** ** One operation *)
Lemma insert_spec hs p m b res :
  represents hs p m -> blockNumber b = Z.of_nat (length hs) + 1 -> blockNumber b < 2 ^ 64 - 1 ->
  exists m', insert m b res = Ok m' /\ represents (hs ++ [mkHeaderValue (hash_xdr b) (if res then 1 else 0)]) p m'.
Proof.
  intros [R1 R2 R3 R4 (w & Ew & Ep & Ed & Ek)] Hb Hmax. unfold insert. rewrite R4, u64_id by (unfold in_u64; lia).
  rewrite (proj2 (Z.eqb_neq _ 0)) by lia. rewrite (proj2 (Z.eqb_eq (blockNumber b) _)) by done. cbn [negb].
  eexists. split; [reflexivity|]. constructor; cbn [block_map lmdb_instance last_committed_block_number]; rewrite ?length_app; cbn [length]; try lia.
  - intros n. rewrite trie_map_insert, Hb. unfold header_at. destruct (decide (n = Z.of_nat (length hs) + 1)) as [->|Hne].
    + rewrite lookup_insert_eq. destruct (Z.ltb_spec 0 (Z.of_nat (length hs) + 1)); [|lia].
      rewrite lookup_app_r by lia. by replace (Z.to_nat _ - length hs)%nat with 0%nat by lia.
    + rewrite lookup_insert_ne, R3 by done. unfold header_at. destruct (Z.ltb_spec 0 n); [|done].
      destruct (decide (n <= Z.of_nat (length hs))); [by rewrite lookup_app_l by lia|].
      rewrite !lookup_ge_None_2; [done| |lia]. rewrite length_app. cbn. lia.
  - exists w. split_and!; [done|done| |done]. intros n Hn. rewrite (Ed n Hn). by rewrite take_app_le by lia.
Qed.

Lemma persist_loop_spec hs p m c : represents hs p m -> c <= Z.of_nat (length hs) ->
  forall fuel i wtx, 0 <= i <= c + 1 -> (Z.to_nat (c + 1 - i) < fuel)%nat ->
  exists l, persist_loop fuel m i c wtx = Ok (wtx ++ l) /\
    forall n v, (n, v) ∈ l <-> exists j, n = write_unsigned_big_endian j /\ i <= j <= c /\ header_at hs j = Some v.
Proof.
  intros [R1 R2 R3 R4 _] Hc. induction fuel as [|fuel IH]; intros i wtx Hi Hf; [lia|]. cbn [persist_loop].
  destruct (Z.leb_spec i c); cbn [negb].
  2: { exists []. rewrite app_nil_r. split; [done|]. intros n v. split; [by intros ?%elem_of_nil|]. intros (j & _ & ? & _). lia. }
  rewrite u64_id by (unfold in_u64; lia). destruct (Z.eqb_spec i 0) as [->|Hne].
  - destruct (IH (0 + 1) wtx) as (l & El & Hl); [lia|lia|]. exists l. split; [done|]. intros n v. rewrite Hl.
    split; intros (j & E & Hj & Hv); exists j; (split_and!; [done| |lia|done]); [lia|].
    destruct (decide (j = 0)) as [->|]; [|lia]. by unfold header_at in Hv.
  - rewrite R3. destruct (proj2 (header_at_some hs i)) as [v Hv]; [lia|]. rewrite Hv.
    destruct (IH (i + 1) (wtx ++ [(write_unsigned_big_endian i, v)])) as (l & El & Hl); [lia|lia|].
    exists ((write_unsigned_big_endian i, v) :: l). rewrite El, <- app_assoc. split; [done|]. intros n v'.
    rewrite elem_of_cons, Hl. split.
    + intros [[= -> ->]|(j & E & Hj & Hv')]; [by exists i; split_and!; [|lia|lia|]|exists j; split_and!; [done|lia|lia|done]].
    + intros (j & E & Hj & Hv'). destruct (decide (j = i)) as [->|]; [left; congruence|]. right. exists j. split_and!; [done|lia|lia|done].
Qed.

Lemma persist_spec hs p m c : represents hs p m -> p <= c <= Z.of_nat (length hs) ->
  exists m', persist_lmdb m c = Ok m' /\ represents hs c m'.
Proof.
  intros Hr Hc. pose proof Hr as [R1 R2 R3 R4 (w & Ew & Ep & Ed & Ek)]. unfold persist_lmdb, rounds. rewrite Ew, Ep.
  destruct (persist_loop_spec hs p m c Hr ltac:(lia) (Z.to_nat (c - p) + 2) p []) as (l & -> & Hl); [lia|lia|].
  cbn [result_bind app]. eexists. split; [reflexivity|]. constructor; cbn [block_map lmdb_instance last_committed_block_number]; try done; [lia|].
  assert (Huniq : forall n v v', in_u64 n -> (write_unsigned_big_endian n, v) ∈ l -> (write_unsigned_big_endian n, v') ∈ l -> v = v').
  { intros n v v' Hn (j & E & Hj & Hv)%Hl (j' & E' & Hj' & Hv')%Hl.
    apply be_inj in E; [|done|unfold in_u64; lia]. apply be_inj in E'; [|done|unfold in_u64; lia]. congruence. }
  exists (hd_commit_wtxn w l c). split; [done|]. split; [apply hd_commit_round|]. split.
  - intros n Hn. rewrite hd_commit_map, header_at_take by lia.
    destruct (foldl_puts l (hd_map w) (write_unsigned_big_endian n) (fun v v' => Huniq n v v' Hn)) as [Hin Hout].
    destruct (decide (p <= n <= c)) as [Hnc|Hnc].
    + rewrite (proj2 (Z.leb_le n c)) by lia. destruct (header_at hs n) as [v|] eqn:Ev.
      * apply Hin, Hl. by exists n.
      * rewrite Hout; [rewrite (Ed n Hn), header_at_take, Ev by lia; by destruct (n <=? p)|].
        intros v (j & E & Hj & Hv)%Hl. apply be_inj in E as <-; [congruence|done|unfold in_u64; lia].
    + rewrite Hout; [rewrite (Ed n Hn), header_at_take by lia; by destruct (Z.leb_spec n p), (Z.leb_spec n c); try lia|].
      intros v (j & E & Hj & Hv)%Hl. apply be_inj in E as <-; [lia|done|unfold in_u64; lia].
  - intros k. rewrite hd_commit_map. destruct (decide (Exists (fun q => q.1 = k) l)) as [He|He].
    + apply Exists_exists in He as ([k' v] & (j & -> & Hj & Hv)%Hl & <-). intros _. exists j. split; [unfold in_u64; lia|done].
    + assert (Hno : forall v, (k, v) ∉ l) by (intros v Hv; apply He, Exists_exists; by exists (k, v)).
      destruct (foldl_puts l (hd_map w) k) as [_ Hout]; [intros v v' Hv; by destruct (Hno v)|]. rewrite (Hout Hno). apply Ek.
Qed.

Lemma rollback_loop_spec hs c last : 0 <= c -> c <= last -> last = Z.of_nat (length hs) -> last < 2 ^ 64 - 1 ->
  forall fuel i tr, c < i <= last + 1 -> (Z.to_nat (last + 1 - i) < fuel)%nat ->
  (forall n, trie_map tr !! n = if (n <=? c) || (i <=? n) then header_at hs n else None) ->
  exists tr', rollback_loop fuel tr i last = Ok tr' /\ forall n, trie_map tr' !! n = if n <=? c then header_at hs n else None.
Proof.
  intros H0c Hcl Hlast Hmax. induction fuel as [|fuel IH]; intros i tr Hi Hf Htr; [lia|]. cbn [rollback_loop].
  destruct (Z.leb_spec i last); cbn [negb].
  2: { exists tr. split; [done|]. intros n. rewrite Htr. destruct (Z.leb_spec n c); cbn [orb]; [done|].
       destruct (Z.leb_spec i n); [|done]. destruct (header_at hs n) eqn:E; [|done].
       assert (0 < n <= Z.of_nat (length hs)) by (apply header_at_some; by eexists). lia. }
  rewrite (proj2 (Z.eqb_neq i 0)), u64_id by (unfold in_u64; lia). rewrite Htr.
  rewrite (proj2 (Z.leb_le i i)), orb_true_r by lia. destruct (proj2 (header_at_some hs i)) as [v ->]; [lia|].
  apply IH; [lia|lia|]. intros n. rewrite trie_map_deletion. destruct (decide (i = n)) as [<-|Hne].
  - rewrite lookup_delete_eq. destruct (Z.leb_spec i c), (Z.leb_spec (i + 1) i); try lia. done.
  - rewrite lookup_delete_ne, Htr by done. destruct (Z.leb_spec n c), (Z.leb_spec i n), (Z.leb_spec (i + 1) n); try lia; done.
Qed.

Lemma rollback_spec hs p m c : represents hs p m -> p <= c <= Z.of_nat (length hs) ->
  exists m', rollback_to_committed_round m c = Ok m' /\ represents (take (Z.to_nat c) hs) p m'.
Proof.
  intros Hr Hc. pose proof Hr as [R1 R2 R3 R4 (w & Ew & Ep & Ed & Ek)]. unfold rollback_to_committed_round, rounds.
  rewrite (represents_persisted _ _ _ Hr), (proj2 (Z.ltb_ge c p)), R4, u64_id by (unfold in_u64; lia).
  destruct (rollback_loop_spec hs c (Z.of_nat (length hs)) ltac:(lia) ltac:(lia) eq_refl R2
    (Z.to_nat (Z.of_nat (length hs) - c) + 2) (c + 1) (block_map m)) as (tr & -> & Htr); [lia|lia| |].
  { intros n. rewrite R3. destruct (Z.leb_spec n c), (Z.leb_spec (c + 1) n); try lia; done. }
  cbn [result_bind]. eexists. split; [reflexivity|].
  constructor; cbn [block_map lmdb_instance last_committed_block_number]; rewrite ?length_take; try lia.
  - intros n. rewrite Htr, header_at_take by lia. done.
  - exists w. split_and!; [done|done| |done]. intros n Hn. rewrite (Ed n Hn), take_take. by rewrite Nat.min_l by lia.
Qed.

(** Memory is lost; the disk is read into a new map. *)
Definition reload m : result Map := load_lmdb_contents_to_memory (mk trie_empty (lmdb_instance m) 0).

Lemma load_entries_spec p l tr :
  Forall (fun q => be_value q.1 <= p) l ->
  exists tr', load_entries tr p l = Ok tr' /\
    trie_map tr' = foldl (fun acc q => <[q.1 := q.2]> acc) (trie_map tr) ((fun q => (be_value q.1, q.2)) <$> l).
Proof.
  intros Hl. revert tr. induction Hl as [|[k v] l Hk Hl IH]; intros tr; cbn [load_entries]; [by exists tr|].
  cbn [fst snd] in *. rewrite (proj2 (Z.ltb_ge p _)) by done. destruct (IH (trie_insert tr (be_value k) v)) as (tr' & -> & Htr).
  exists tr'. split; [done|]. rewrite Htr, trie_map_insert. done.
Qed.

Lemma reload_spec hs p m : represents hs p m -> exists m', reload m = Ok m' /\ represents (take (Z.to_nat p) hs) p m'.
Proof.
  intros [R1 R2 R3 R4 (w & Ew & Ep & Ed & Ek)]. unfold reload, load_lmdb_contents_to_memory. cbn [lmdb_instance block_map].
  rewrite Ew, Ep.
  assert (Hentry : forall k v, (k, v) ∈ hd_entries w ->
    exists n, in_u64 n /\ k = write_unsigned_big_endian n /\ header_at (take (Z.to_nat p) hs) n = Some v).
  { intros k v Hin. rewrite hd_entries_map in Hin. apply elem_of_map_to_list in Hin.
    destruct (Ek k) as (n & Hn & ->); [by eexists|]. exists n. split_and!; [done|done|]. by rewrite <- Ed. }
  assert (Hbe : forall n, in_u64 n -> be_value (write_unsigned_big_endian n) = n) by (intros n; apply big_endian_value).
  destruct (load_entries_spec p (hd_entries w) trie_empty) as (tr & -> & Htr).
  { apply Forall_forall. intros [k v] (n & Hn & -> & Hv)%Hentry. cbn [fst]. rewrite (Hbe n Hn). rewrite header_at_take in Hv by lia.
    destruct (Z.leb_spec n p); [done|discriminate]. }
  cbn [result_bind]. eexists. split; [reflexivity|].
  constructor; cbn [block_map lmdb_instance last_committed_block_number]; rewrite ?length_take; try lia.
  - intros n. rewrite Htr, trie_map_empty.
    assert (Hin : forall v, (n, v) ∈ (fun q : list Z * _ => (be_value q.1, q.2)) <$> hd_entries w -> header_at (take (Z.to_nat p) hs) n = Some v).
    { intros v ([k v'] & [= -> ->] & Hin)%list_elem_of_fmap. destruct (Hentry k v' Hin) as (j & Hj & -> & Hv). cbn [fst].
      by rewrite (Hbe j Hj). }
    destruct (foldl_puts ((fun q => (be_value q.1, q.2)) <$> hd_entries w) ∅ n) as [F1 F2].
    { intros v v' Hv Hv'. apply Hin in Hv, Hv'. congruence. }
    destruct (header_at (take (Z.to_nat p) hs) n) as [v|] eqn:E.
    + apply F1. assert (Hn : in_u64 n).
      { assert (Hb : 0 < n <= Z.of_nat (length (take (Z.to_nat p) hs))) by (apply header_at_some; by eexists).
        rewrite length_take in Hb. unfold in_u64. lia. }
      apply list_elem_of_fmap. exists (write_unsigned_big_endian n, v). cbn [fst snd]. rewrite (Hbe n Hn). split; [done|].
      rewrite hd_entries_map. apply elem_of_map_to_list. by rewrite (Ed n Hn).
    + rewrite F2; [by rewrite lookup_empty|]. intros v Hv. apply Hin in Hv. done.
  - exists w. split_and!; [done|done| |done]. intros n Hn. rewrite (Ed n Hn), take_take. by rewrite Nat.min_id.
Qed.

Lemma get_spec hs p m n : represents hs p m -> 0 < n -> get m n = Ok (header_at (take (Z.to_nat p) hs) n).
Proof.
  intros Hr Hn. pose proof Hr as [R1 R2 R3 R4 _]. unfold get. rewrite (represents_persisted _ _ _ Hr), R3, header_at_take by lia.
  destruct (Z.ltb_spec p n), (Z.leb_spec n p); try lia; [done|].
  by destruct (proj2 (header_at_some hs n)) as [v ->]; [lia|].
Qed.

(** ** Any history *)
Inductive header_op :=
| InsertBlock (b : B) (res : bool)
| Persist (current_block_number : Z)
| Rollback (committed_block_number : Z)
| Reload.
Definition exec m (op : header_op) : result Map :=
  match op with
  | InsertBlock b res => insert m b res
  | Persist c => persist_lmdb m c
  | Rollback c => rollback_to_committed_round m c
  | Reload => reload m
  end.
Fixpoint run m (ops : list header_op) : result Map :=
  match ops with [] => Ok m | op :: ops => let* q := exec m op in run q ops end.

(** The contract: a chain of headers and how much of it is on disk. *)
Definition chain_step (s : list BlockHeaderHashValue * Z) (op : header_op) : option (list BlockHeaderHashValue * Z) :=
  let '(hs, p) := s in
  let len := Z.of_nat (length hs) in
  match op with
  | InsertBlock b res =>
      if (blockNumber b =? len + 1) && (blockNumber b <? 2 ^ 64 - 1)
      then Some (hs ++ [mkHeaderValue (hash_xdr b) (if res then 1 else 0)], p) else None
  | Persist c => if (p <=? c) && (c <=? len) then Some (hs, c) else None
  | Rollback c => if (p <=? c) && (c <=? len) then Some (take (Z.to_nat c) hs, p) else None
  | Reload => Some (take (Z.to_nat p) hs, p)
  end.
Fixpoint chain_run (s : list BlockHeaderHashValue * Z) (ops : list header_op) : option (list BlockHeaderHashValue * Z) :=
  match ops with [] => Some s | op :: ops => s' ← chain_step s op; chain_run s' ops end.

Lemma exec_spec hs p m op hs' p' :
  represents hs p m -> chain_step (hs, p) op = Some (hs', p') -> exists m', exec m op = Ok m' /\ represents hs' p' m'.
Proof.
  intros Hr. destruct op as [b res|c|c|]; cbn [chain_step exec].
  - destruct (Z.eqb_spec (blockNumber b) (Z.of_nat (length hs) + 1)), (Z.ltb_spec (blockNumber b) (2 ^ 64 - 1)); try done.
    intros [= <- <-]. by apply insert_spec.
  - destruct (Z.leb_spec p c), (Z.leb_spec c (Z.of_nat (length hs))); try done. intros [= <- <-]. by eapply persist_spec.
  - destruct (Z.leb_spec p c), (Z.leb_spec c (Z.of_nat (length hs))); try done. intros [= <- <-]. by apply rollback_spec.
  - intros [= <- <-]. by apply reload_spec.
Qed.
Lemma run_spec ops hs p m hs' p' :
  represents hs p m -> chain_run (hs, p) ops = Some (hs', p') -> exists m', run m ops = Ok m' /\ represents hs' p' m'.
Proof.
  revert hs p m. induction ops as [|op ops IH]; intros hs p m Hr; cbn [chain_run run]; [intros [= <- <-]; by exists m|].
  destruct (chain_step (hs, p) op) as [[hs1 p1]|] eqn:E; [|done]. cbn [mbind option_bind]. intros Hrun.
  destruct (exec_spec _ _ _ _ _ _ Hr E) as (m1 & -> & Hr1). by eapply IH.
Qed.

(** C31.  The header map is a chain.  Through any history of insertions, partial
    persistence, rollbacks and crashes with a reload from disk that keeps to the
    contract, no operation throws, memory holds exactly the headers of the chain, [get]
    answers with those on disk, and the hash only depends on the chain: a replica
    with another history of the same chain has the same hash. *)
Theorem header_map_is_chain ops ops' hs p hs0 p0 m m0 hs' p' p'' :
  represents hs p m -> represents hs0 p0 m0 ->
  chain_run (hs, p) ops = Some (hs', p') -> chain_run (hs0, p0) ops' = Some (hs', p'') ->
  exists m1 m2, run m ops = Ok m1 /\ run m0 ops' = Ok m2 /\
    (forall n, trie_map (block_map m1) !! n = header_at hs' n) /\
    (forall n, 0 < n -> get m1 n = Ok (if n <=? p' then header_at hs' n else None)) /\
    hash m1 = hash m2.
Proof.
  intros Hr Hr0 Hrun Hrun0. destruct (run_spec _ _ _ _ _ _ Hr Hrun) as (m1 & E1 & R1).
  destruct (run_spec _ _ _ _ _ _ Hr0 Hrun0) as (m2 & E2 & R2). exists m1, m2. split_and!; [done|done|apply R1| |].
  - intros n Hn. rewrite (get_spec _ _ _ _ R1 Hn), header_at_take; [done|]. apply (rp_bounds _ _ _ R1).
  - apply trie_hash_map, map_eq. intros n. by rewrite (rp_memory _ _ _ R1), (rp_memory _ _ _ R2).
Qed.

(** ** A rollback to a later block *)
Lemma persist_loop_missing m k c : trie_map (block_map m) !! k = None -> k <> 0 -> k <= c -> c < 2 ^ 64 - 1 ->
  forall fuel i wtx, 0 <= i <= k -> (Z.to_nat (c + 1 - i) < fuel)%nat ->
  persist_loop fuel m i c wtx = Throw "did not find hash in hash_map!".
Proof.
  intros Hk Hk0 Hkc Hc. induction fuel as [|fuel IH]; intros i wtx Hi Hf; [lia|]. cbn [persist_loop].
  rewrite (proj2 (Z.leb_le i c)) by lia. cbn [negb]. rewrite u64_id by (unfold in_u64; lia).
  destruct (Z.eqb_spec i 0) as [->|Hne]; [apply IH; lia|]. destruct (decide (i = k)) as [->|Hik]; [by rewrite Hk|].
  destruct (trie_map (block_map m) !! i); [apply IH; lia|done].
Qed.

(** Rolling back to a block after the last one is not refused: the map then
    counts blocks it never saw, accepts the block after the gap, and from then on
    cannot be persisted. *)
Lemma forward_rollback_breaks_chain hs p m c b :
  represents hs p m -> Z.of_nat (length hs) < c -> blockNumber b = c + 1 -> blockNumber b < 2 ^ 64 - 1 ->
  exists m1 m2, rollback_to_committed_round m c = Ok m1 /\ last_committed_block_number m1 = c /\
    trie_map (block_map m1) = trie_map (block_map m) /\ insert m1 b true = Ok m2 /\
    persist_lmdb m2 (c + 1) = Throw "did not find hash in hash_map!".
Proof.
  intros Hr Hc Hb Hmax. pose proof Hr as [R1 R2 R3 R4 (w & Ew & Ep & _)]. unfold rollback_to_committed_round, rounds.
  rewrite (represents_persisted _ _ _ Hr), (proj2 (Z.ltb_ge c p)), R4, u64_id by (unfold in_u64; lia).
  replace (Z.to_nat (Z.of_nat (length hs) - c) + 2)%nat with 2%nat by lia. cbn [rollback_loop].
  rewrite (proj2 (Z.leb_gt (c + 1) _)) by lia. cbn [negb result_bind].
  exists (mk (block_map m) (lmdb_instance m) c). unfold insert. cbn [last_committed_block_number block_map lmdb_instance].
  rewrite u64_id by (unfold in_u64; lia). rewrite (proj2 (Z.eqb_neq (blockNumber b) 0)), (proj2 (Z.eqb_eq (blockNumber b) (c + 1))) by lia.
  eexists. split_and!; [reflexivity|reflexivity|reflexivity|reflexivity|].
  unfold persist_lmdb. cbn [lmdb_instance block_map]. rewrite Ew, Ep.
  rewrite (persist_loop_missing _ (Z.of_nat (length hs) + 1)); [done| |lia|lia|lia|lia|unfold rounds; lia].
  cbn [block_map]. rewrite trie_map_insert, lookup_insert_ne, R3 by lia. unfold header_at.
  destruct (0 <? _); [|done]. apply lookup_ge_None_2. lia.
Qed.
End Props.

(** *** Example *)
#[global] Program Instance example_header_dbi : HeaderDbi (gmap (list Z) BlockHeaderHashValue * Z) := {
  hd_map w := w.1;
  hd_entries w := map_to_list w.1;
  hd_persisted_round_number w := w.2;
  hd_commit_wtxn w puts n := (foldl (fun acc q => <[q.1 := q.2]> acc) w.1 puts, n)
}.
Solve All Obligations with done.
#[global] Program Instance example_header_block : HeaderBlock (Z * Z) := {
  blockNumber b := u64 b.1;
  hash_xdr b := [b.1; b.2]
}.
Next Obligation. intros b. apply u64_range. Qed.
#[global] Program Instance example_header_trie : MerkleTrie BlockHeaderHashValue (gmap Z BlockHeaderHashValue) := {
  trie_map t := t;
  trie_empty := ∅;
  trie_insert t k v := <[k := v]> t;
  trie_perform_deletion t k := delete k t;
  trie_modify_value t k f := alter f k t;
  trie_hash t := concat ((fun q => q.1 :: header_hash q.2) <$> map_to_list t)
}.
Next Obligation. done. Qed.
Next Obligation. done. Qed.
Next Obligation. done. Qed.
Next Obligation.
  intros t k f v Hk. apply map_eq. intros j. destruct (decide (k = j)) as [<-|].
  - by rewrite lookup_alter_eq, lookup_insert_eq, Hk.
  - by rewrite lookup_alter_ne, lookup_insert_ne.
Qed.
Next Obligation. by intros t1 t2 ->. Qed.

Definition example_map : t (gmap Z BlockHeaderHashValue) (gmap (list Z) BlockHeaderHashValue * Z) := mk ∅ (Some (∅, 0)) 0.
Lemma example_represents : represents [] 0 example_map.
Proof.
  constructor; cbn; try lia.
  - intros n. rewrite lookup_empty. unfold header_at. by destruct (0 <? n).
  - exists (∅, 0). split_and!; [done|done| |].
    + intros n _. cbn. rewrite lookup_empty. unfold header_at. by destruct (0 <? n).
    + intros k [v Hv]. cbn in Hv. by rewrite lookup_empty in Hv.
Qed.
(** A crash after block 2 was inserted but only block 1 persisted. *)
Definition crashing : list (header_op (B := Z * Z)) :=
  [InsertBlock (1, 10) true; Persist 1; InsertBlock (2, 20) true; Reload; InsertBlock (2, 21) false; Persist 2].
Definition straight : list (header_op (B := Z * Z)) := [InsertBlock (1, 10) true; InsertBlock (2, 21) false].

Lemma header_map_is_chain_witness :
  represents [] 0 example_map /\
  exists m1 m2, run example_map crashing = Ok m1 /\ run example_map straight = Ok m2 /\ hash m1 = hash m2.
Proof.
  split; [apply example_represents|].
  destruct (header_map_is_chain crashing straight [] 0 [] 0 example_map example_map
    [mkHeaderValue [1; 10] 1; mkHeaderValue [2; 21] 0] 2 0 example_represents example_represents)
    as (m1 & m2 & E1 & E2 & _ & _ & Eh); [reflexivity|reflexivity|]. by exists m1, m2.
Defined.

End HeaderMapProps.
