(* ===== verification/OrderbookLmdb.v ===== *)
(** * Persisting the offers of an orderbook
    (src/orderbook/lmdb.h, lmdb.cc; persist_lmdb of orderbook.cc and
    orderbook_manager.cc)

    [write_thunks] brings the database of one orderbook from its persisted round
    to a later one, from the thunks of the rounds between, without replaying the
    rounds one by one.  LMDB is outside the repository: [OrderbookDbi] is an
    ordered key-value store inside a write transaction, with the cursor steps the
    code uses. *)
From stdpp Require Import base gmap list strings sorting.
From S2P Require Import Prelude Types PriceArith Asset SeqTracker Accounts AccountLmdb Database Offers Clearing Demand DbView SerialManager Orderbook OrderbookProps Manager.

(** [operator<] of the key prefixes *)
Definition key_lt (a b : key) : bool := match memcmp a b with Lt => true | _ => false end.

(** What LMDB documents of the calls: [del] says whether the key was there,
    [MDB_SET_RANGE] finds the least key not below its argument, [MDB_LAST] the
    last key, and [--cursor] the greatest key below the cursor. *)
Class OrderbookDbi (W : Type) := {
  dbi_map : W -> gmap key Offer;
  dbi_get : W -> key -> option Offer;
  dbi_put : W -> key -> Offer -> W;
  dbi_del : W -> key -> W * bool;
  cursor_set_range : W -> key -> option key;
  cursor_last : W -> option key;
  cursor_prev : W -> key -> option key;
  dbi_get_map w k : dbi_get w k = dbi_map w !! k;
  dbi_put_map w k o : dbi_map (dbi_put w k o) = <[k := o]> (dbi_map w);
  dbi_del_map w k : dbi_map (dbi_del w k).1 = delete k (dbi_map w);
  dbi_del_found w k : (dbi_del w k).2 = bool_decide (is_Some (dbi_map w !! k));
  cursor_set_range_some w k k' : cursor_set_range w k = Some k' ->
    is_Some (dbi_map w !! k') /\ key_lt k' k = false /\
    forall j, is_Some (dbi_map w !! j) -> key_lt j k' = true -> key_lt j k = true;
  cursor_set_range_none w k : cursor_set_range w k = None ->
    forall j, is_Some (dbi_map w !! j) -> key_lt j k = true;
  cursor_last_some w k : cursor_last w = Some k ->
    is_Some (dbi_map w !! k) /\ forall j, is_Some (dbi_map w !! j) -> key_lt k j = false;
  cursor_last_none w : cursor_last w = None -> dbi_map w = ∅;
  cursor_prev_some w k k' : cursor_prev w k = Some k' ->
    is_Some (dbi_map w !! k') /\ key_lt k' k = true /\
    forall j, is_Some (dbi_map w !! j) -> key_lt j k = true -> key_lt k' j = false;
  cursor_prev_none w k : cursor_prev w k = None ->
    forall j, is_Some (dbi_map w !! j) -> key_lt j k = false
}.

Section Write.
Context {TR : Type} `{OfferTrieIndex TR} `{BigEndian} {W : Type} `{OrderbookDbi W}.
Abbreviation Book := (Orderbook.t (TR := TR)).
Abbreviation Thunk := (Orderbook.Thunk (TR := TR)).
Implicit Types (th : Thunk) (key_buf : key).

(** The thunks up to the round, taken out of the list, and the others. *)
Definition take_thunks (l : list Thunk) (current_block_number : Z) : list Thunk * list Thunk :=
  (filter (fun th => Orderbook.current_block_number th <= current_block_number) l,
   filter (fun th => ~ (Orderbook.current_block_number th <= current_block_number)) l).

(** ** Phase 1: cancelled offers, and the highest threshold key *)
Fixpoint delete_keys (l : list (key * Offer)) (w : W) (later : gset key) : W * gset key :=
  match l with
  | [] => (w, later)
  | kv :: l =>
      let '(w, found) := dbi_del w kv.1 in
      delete_keys l w (if found then later else {[kv.1]} ∪ later)
  end.

Record key_scan := mkScan { sc_disk : W; sc_later : gset key; sc_key : key; sc_set : bool }.

Fixpoint phase1 (ths : list Thunk) (s : key_scan) : result key_scan :=
  match ths with
  | [] => Ok s
  | th :: ths =>
      let '(w, later) := delete_keys (deleted_keys th) (sc_disk s) (sc_later s) in
      let* e := get_exists_partial_exec th in
      if e : bool then
        let k := if key_lt (sc_key s) (partial_exec_key th) then partial_exec_key th else sc_key s in
        phase1 ths (mkScan w later k true)
      else phase1 ths (mkScan w later (sc_key s) (sc_set s))
  end.

(** ** Phase 2: everything below it has cleared *)

(** [while (cursor) { cursor.del(); --cursor; }] *)
Fixpoint delete_down (fuel : nat) (w : W) (cursor : option key) : W :=
  match fuel, cursor with
  | S fuel, Some k => delete_down fuel (dbi_del w k).1 (cursor_prev w k)
  | _, _ => w
  end.

Definition phase2 (s : key_scan) : W :=
  let w := sc_disk s in
  let cursor := cursor_set_range w (sc_key s) in
  let start :=
    match sc_set s, cursor with
    | true, Some k => cursor_prev w k
    | _, _ => cursor_last w
    end in
  delete_down (size (dbi_map w)) w start.

(** ** Phase 3: new offers, newest round first *)

(** One round's offers from the highest key down; the loop ends at the first one
    that is not written. *)
Fixpoint put_offers (l : list Offer) key_buf (later : gset key) (w : W) : result W :=
  match l with
  | [] => Ok w
  | cur_offer :: l =>
      let min_exec_price := Price.read_price_big_endian key_buf in
      if amount cur_offer =? 0 then Throw "tried to persist an amount 0 offer!"
      else if min_exec_price <=? minPrice cur_offer then
        let offer_key_buf := Key.offer_key cur_offer in
        let db_put := (min_exec_price <? minPrice cur_offer) || negb (key_lt offer_key_buf key_buf) in
        let db_put := if decide (offer_key_buf ∈ later) then false else db_put in
        if db_put then put_offers l key_buf later (dbi_put w offer_key_buf cur_offer) else Ok w
      else Ok w
  end.

(** [ths]: the thunks from the newest to the oldest. *)
Fixpoint phase3 (ths : list Thunk) key_buf (later : gset key) (w : W) : result W :=
  match ths with
  | [] => Ok w
  | th :: ths =>
      let key_buf := if key_lt key_buf (partial_exec_key th) then partial_exec_key th else key_buf in
      let* w := put_offers (reverse (uncommitted_offers_vec th)) key_buf later w in
      phase3 ths key_buf later w
  end.

(** ** Phase 4: the partial executions *)
Definition partial_execution th (w : W) : result W :=
  match dbi_get w (partial_exec_key th) with
  | None => Ok w
  | Some partial_exec_offer =>
      if partial_exec_amount th <? 0 then Throw "invalid thunks[i].partial_exec_amount"
      else if u64 (amount partial_exec_offer) <? u64 (partial_exec_amount th)
      then Throw "can't have partial exec offer.amount < thunk[i].partial_exec_amount"
      else
        let left := u64 (amount partial_exec_offer - partial_exec_amount th) in
        if left <? 0 then Throw "invalid partial exec offer leftover amount"
        else if 0 <? left then Ok (dbi_put w (partial_exec_key th) (set_amount partial_exec_offer left))
        else Ok (dbi_del w (partial_exec_key th)).1
  end.
Fixpoint phase4 (ths : list Thunk) (w : W) : result W :=
  match ths with
  | [] => Ok w
  | th :: ths =>
      let* e := get_exists_partial_exec th in
      let* w := if e : bool then partial_execution th w else Ok w in
      phase4 ths w
  end.

(** ** Phase 5: partially executed offers that a later round cleared *)
Definition cleared_later (k : key) (future : list Thunk) (w : W) : W :=
  foldl (fun w th => if key_lt k (partial_exec_key th) then (dbi_del w k).1 else w) w future.
Fixpoint phase5 (ths : list Thunk) (w : W) : result W :=
  match ths with
  | [] => Ok w
  | th :: future =>
      let* e := get_exists_partial_exec th in
      phase5 future (if e : bool then cleared_later (partial_exec_key th) future w else w)
  end.

(** [persisted] is the persisted round of the database. *)
Definition write_relevant (persisted : Z) (relevant_thunks : list Thunk) (w : W) : result W :=
  match relevant_thunks with
  | [] => Ok w
  | th0 :: _ =>
      if Orderbook.current_block_number th0 <? u64 (persisted + 1) then Throw "too small current_block_number"
      else
        let* s := phase1 relevant_thunks (mkScan w ∅ zero_key false) in
        let w := phase2 s in
        let* w := phase3 (reverse relevant_thunks) zero_key (sc_later s) w in
        let* w := phase4 relevant_thunks w in
        phase5 relevant_thunks w
  end.

Definition write_thunks (b : Book) (current_block_number : Z) (w : W) : result (Book * W) :=
  let '(relevant_thunks, others) := take_thunks (thunks b) current_block_number in
  let* w := write_relevant (persisted_round_number b) relevant_thunks w in
  Ok (set_thunks b others, w).

(** [Orderbook::persist_lmdb], for an open database. *)
Definition persist_lmdb (b : Book) (current_block_number : Z) (w : W) : result (Book * W) :=
  write_thunks b current_block_number w.

(** ** All orderbooks, in one transaction of the shared environment *)
Fixpoint persist_range (l : list Book) (ws : list W) (current_block_number : Z) : result (list Book * list W) :=
  match l, ws with
  | b :: l, w :: ws =>
      let* q := persist_lmdb b current_block_number w in
      let* qs := persist_range l ws current_block_number in
      Ok (q.1 :: qs.1, q.2 :: qs.2)
  | _, _ => Ok ([], [])
  end.

(** [commit_wtxn] sets the round of the environment. *)
Definition set_persisted_round (b : Book) (round : Z) : Book :=
  Orderbook.mk (book_category b) (committed_offers b) (uncommitted_offers b) (thunks b) round (indexed_metadata b).
Definition commit_wtxn (m : OrderbookManager (TR := TR)) (round : Z) : OrderbookManager :=
  mkManager ((fun b => set_persisted_round b round) <$> orderbooks m) (num_assets m) round (lmdb_num_orderbooks m).

Definition manager_persist_lmdb (m : OrderbookManager (TR := TR)) (ws : list W) (current_block_number : Z)
    : result (OrderbookManager * list W) :=
  let n := lmdb_num_orderbooks m in
  let* q := persist_range (take n (orderbooks m)) ws current_block_number in
  Ok (commit_wtxn (set_orderbooks m (q.1 ++ drop n (orderbooks m))) current_block_number, q.2).

Definition persist_lmdb_for_loading (m : OrderbookManager (TR := TR)) (ws : list W) (current_block_number : Z)
    : result (OrderbookManager * list W) :=
  if lmdb_round m <? current_block_number then manager_persist_lmdb m ws current_block_number else Ok (m, ws).
End Write.
