(* ===== verification/OrderbookPersist.v ===== *)
(** * The database of an orderbook holds the offers in memory

    What the blocks did one after the other ([apply_thunk]) against what
    [write_thunks] does for all of them at once, and the orderbook itself: after
    a block is cleared and persisted, its database holds its offers. *)
From stdpp Require Import base gmap list strings sorting.
From S2P Require Import Prelude Types PriceArith Asset SeqTracker Accounts AccountLmdb Database Offers Clearing Demand DbView SerialManager Orderbook OrderbookProps Manager OrderbookLmdb.

(** ** The order of keys *)
Definition key_ok (k : key) : Prop := length k = Key.ORDERBOOK_KEY_LEN /\ Forall (fun b => 0 <= b < 256) k.

Lemma key_lt_irrefl k : key_lt k k = false.
Proof. unfold key_lt. by rewrite (proj2 (memcmp_eq k k) eq_refl). Qed.

Lemma key_lt_false a b : key_lt a b = false <-> memcmp b a <> Gt.
Proof. unfold key_lt. rewrite (memcmp_opp a b). by destruct (memcmp a b). Qed.

Lemma key_le_lt_trans a b c : key_lt b a = false -> key_lt b c = true -> key_lt a c = true.
Proof.
  intros Hab Hbc. destruct (key_lt a c) eqn:E; [done|]. apply key_lt_false in E, Hab.
  assert (Hcb : memcmp c b <> Gt) by (by eapply memcmp_trans).
  apply key_lt_false in Hcb. congruence.
Qed.
Lemma key_lt_le_trans a b c : key_lt a b = true -> key_lt c b = false -> key_lt a c = true.
Proof.
  intros Hab Hbc. destruct (key_lt a c) eqn:E; [done|]. apply key_lt_false in E, Hbc.
  assert (Hba : key_lt a b = false) by (apply key_lt_false; by eapply memcmp_trans).
  congruence.
Qed.
Lemma key_lt_antisym a b : key_lt a b = false -> key_lt b a = false -> a = b.
Proof.
  rewrite !key_lt_false. intros H1 H2. apply memcmp_eq. rewrite (memcmp_opp a b) in H1. by destruct (memcmp a b).
Qed.
Lemma key_lt_asym a b : key_lt a b = true -> key_lt b a = false.
Proof. unfold key_lt. rewrite (memcmp_opp a b). by destruct (memcmp a b). Qed.

Lemma key_lt_zero k : key_ok k -> key_lt k zero_key = false.
Proof.
  intros [Hl Hb]. unfold key_lt. rewrite Key.memcmp_value; [|by rewrite Hl|done|by apply Forall_replicate].
  pose proof (Key.be_value_bounds k Hb). change (be_value zero_key) with 0.
  destruct (Z.compare_spec (be_value k) 0); [done|lia|done].
Qed.

(** The price test before the key test of [put_offers] changes nothing. *)
Lemma price_test `{BigEndian} (o : Offer) k :
  key_ok k -> 0 <= minPrice o <= Price.MAX_PRICE ->
  (Price.read_price_big_endian k <=? minPrice o) &&
    ((Price.read_price_big_endian k <? minPrice o) || negb (key_lt (Key.offer_key o) k)) =
  negb (key_lt (Key.offer_key o) k).
Proof.
  intros [Hl Hb] Hp. unfold Key.offer_key, Key.generate_orderbook_trie_key. set (tail := write_unsigned_big_endian (owner o) ++ write_unsigned_big_endian (offerId o)).
  assert (Ht : length tail = 16%nat) by (unfold tail; rewrite length_app, !big_endian_length; done).
  assert (Hbt : Forall (fun b => 0 <= b < 256) tail) by (apply Forall_app; split; apply big_endian_bytes).
  unfold key_lt. rewrite Key.memcmp_value; [|rewrite length_app, Price.write_price_length, Ht, Hl; done| |done].
  2: { apply Forall_app. split; [apply Price.write_price_bytes|done]. }
  rewrite Key.be_value_app, Key.be_value_price, Ht by done. rewrite Key.read_price_be_value by done.
  assert (Ek : be_value k = be_value (take 6 k) * 256 ^ 16 + be_value (drop 6 k)).
  { rewrite <- (take_drop 6 k) at 1. by rewrite Key.be_value_app, length_drop, Hl. }
  rewrite Ek. change (256 ^ Z.of_nat 16) with (256 ^ 16).
  pose proof (Key.be_value_bounds tail Hbt) as B1. pose proof (Key.be_value_bounds (drop 6 k) (Forall_drop _ _ _ Hb)) as B2.
  rewrite Ht in B1. rewrite length_drop, Hl in B2.
  change (256 ^ Z.of_nat (Key.ORDERBOOK_KEY_LEN - 6)) with (256 ^ 16) in B2. change (256 ^ Z.of_nat 16) with (256 ^ 16) in B1.
  set (p := be_value (take 6 k)) in *. set (P := 256 ^ 16) in *.
  destruct (Z.leb_spec p (minPrice o)), (Z.ltb_spec p (minPrice o)); try lia; cbn [andb orb]; try done.
  - destruct (Z.compare_spec (minPrice o * P + be_value tail) (p * P + be_value (drop 6 k))); [done|nia|done].
  - destruct (Z.compare_spec (minPrice o * P + be_value tail) (p * P + be_value (drop 6 k))); [nia|done|nia].
Qed.

Section Persist.
Context {TR : Type} `{OfferTrieIndex TR} `{BigEndian}.
Abbreviation Book := (Orderbook.t (TR := TR)).
Abbreviation Thunk := (Orderbook.Thunk (TR := TR)).
Implicit Types (th : Thunk) (m : gmap key Offer) (ths : list Thunk).

(** The offers whose key satisfies [P]. *)
Definition keep (P : key -> Prop) `{forall k, Decision (P k)} m : gmap key Offer := filter (fun p => P p.1) m.

Lemma keep_lookup (P : key -> Prop) `{forall k, Decision (P k)} m k :
  keep P m !! k = if decide (P k) then m !! k else None.
Proof.
  unfold keep. destruct (decide (P k)) as [Hk|Hk].
  - destruct (m !! k) eqn:E; [by apply map_lookup_filter_Some|]. apply map_lookup_filter_None. by left.
  - apply map_lookup_filter_None. right. intros o _. exact Hk.
Qed.

(** ** One block after the other *)
Definition deleted_of th : gset key := list_to_set (deleted_keys th).*1.
Definition created_list th : list (key * Offer) := (fun o => (Key.offer_key o, o)) <$> uncommitted_offers_vec th.
Definition created_of th : gmap key Offer := list_to_map (created_list th).

(** What is left of the threshold offer. *)
Definition left_of th (o : Offer) : option Offer :=
  if 0 <? amount o - partial_exec_amount th then Some (set_amount o (amount o - partial_exec_amount th)) else None.
Definition reduce th m : gmap key Offer := partial_alter (fun mo => mo ≫= left_of th) (partial_exec_key th) m.

(** The offers before the clearing of the block, and after it. *)
Definition offered th m : gmap key Offer := keep (fun k => k ∉ deleted_of th) m ∪ created_of th.
Definition apply_thunk m th : gmap key Offer :=
  match exists_partial_exec th with
  | Some true => reduce th (keep (fun k => key_lt k (partial_exec_key th) = false) (offered th m))
  | _ => ∅
  end.

(** What a block's thunk says of the offers [m] the block started from. *)
Record thunk_ok m th : Prop := {
  tk_sorted : StronglySorted key_le (created_list th);
  tk_created : Forall (fun o => 0 < amount o < 2 ^ 63 /\ 0 <= minPrice o <= Price.MAX_PRICE) (uncommitted_offers_vec th);
  tk_nodup : NoDup (created_list th).*1;
  tk_deleted : deleted_of th ⊆ dom m;
  tk_partial : exists_partial_exec th = Some true -> key_ok (partial_exec_key th) /\
    exists o, offered th m !! partial_exec_key th = Some o /\ 0 <= partial_exec_amount th <= amount o /\ amount o < 2 ^ 63;
  tk_none : exists_partial_exec th = Some false ->
    partial_exec_key th = max_key /\ Forall (fun o => key_lt (Key.offer_key o) max_key = true) (uncommitted_offers_vec th);
  tk_set : is_Some (exists_partial_exec th)
}.
Fixpoint thunks_ok m ths : Prop :=
  match ths with [] => True | th :: ths => thunk_ok m th /\ thunks_ok (apply_thunk m th) ths end.

(** ** All blocks at once *)
Definition above ths (k : key) : Prop := Forall (fun th => key_lt k (partial_exec_key th) = false) ths.
#[local] Instance above_dec ths k : Decision (above ths k) := _.

Definition deleted_in ths : gset key := union_list (deleted_of <$> ths).
Definition created_in ths : list (key * Offer) := ths ≫= created_list.

(** The created offers that no later threshold clears. *)
Fixpoint new_of ths : gmap key Offer :=
  match ths with
  | [] => ∅
  | th :: ths' => keep (above ths) (created_of th) ∪ new_of ths'
  end.
(** The database after the first three phases. *)
Definition base m ths : gmap key Offer :=
  keep (above ths) (keep (fun k => k ∉ deleted_in ths) m) ∪ new_of ths.

(** What keeps the thunks of a batch apart: offers have fresh keys, and no offer
    is cancelled in the batch that creates it. *)
Record batch_ok m ths : Prop := {
  bo_fresh : NoDup (created_in ths).*1;
  bo_new k : k ∈ (created_in ths).*1 -> m !! k = None;
  bo_kept k : k ∈ (created_in ths).*1 -> k ∉ deleted_in ths
}.

Lemma created_of_elem th k : is_Some (created_of th !! k) <-> k ∈ (created_list th).*1.
Proof. symmetry. apply map_of_lookup. Qed.

Lemma deleted_in_cons th ths : deleted_in (th :: ths) = deleted_of th ∪ deleted_in ths.
Proof. done. Qed.
Lemma above_cons th ths k : above (th :: ths) k <-> key_lt k (partial_exec_key th) = false /\ above ths k.
Proof. unfold above. by rewrite Forall_cons. Qed.

Lemma reduce_lookup th m k :
  reduce th m !! k = if decide (k = partial_exec_key th) then m !! k ≫= left_of th else m !! k.
Proof.
  unfold reduce. destruct (decide _) as [->|Hne]; [by rewrite lookup_partial_alter_eq|by rewrite lookup_partial_alter_ne].
Qed.

Lemma base_lookup m ths k :
  base m ths !! k = match (if decide (above ths k /\ k ∉ deleted_in ths) then m !! k else None) with
                    | Some o => Some o | None => new_of ths !! k end.
Proof.
  unfold base. rewrite lookup_union, !keep_lookup.
  destruct (decide (above ths k)), (decide (k ∉ deleted_in ths)); [rewrite decide_True by done|rewrite decide_False by tauto..];
    try destruct (m !! k); destruct (new_of ths !! k); done.
Qed.

Lemma new_of_elem ths k : is_Some (new_of ths !! k) -> k ∈ (created_in ths).*1.
Proof.
  induction ths as [|th ths IH]; cbn [new_of]; [by intros []|]. rewrite lookup_union, keep_lookup.
  intros Hk. unfold created_in. cbn [mbind list_bind]. rewrite fmap_app. apply elem_of_app.
  destruct (decide (above (th :: ths) k)); [destruct (created_of th !! k) eqn:E|].
  - left. apply created_of_elem. by rewrite E.
  - right. apply IH. by destruct (new_of ths !! k).
  - right. apply IH. by destruct (new_of ths !! k).
Qed.

Lemma offered_lookup th m k :
  offered th m !! k = match (if decide (k ∉ deleted_of th) then m !! k else None) with
                      | Some o => Some o | None => created_of th !! k end.
Proof.
  unfold offered. rewrite lookup_union, keep_lookup. destruct (decide (k ∉ deleted_of th)).
  - by destruct (m !! k), (created_of th !! k).
  - by destruct (created_of th !! k).
Qed.

(** The oldest block of the batch: what it leaves, if nothing later clears it. *)
Lemma base_cons m th ths k :
  batch_ok m (th :: ths) ->
  base m (th :: ths) !! k =
    match (if decide (above (th :: ths) k /\ k ∉ deleted_in ths) then offered th m !! k else None) with
    | Some o => Some o | None => new_of ths !! k end.
Proof.
  intros [_ _ Hkept]. rewrite base_lookup, offered_lookup. cbn [new_of]. rewrite lookup_union, keep_lookup.
  assert (Hc : k ∈ deleted_in (th :: ths) -> created_of th !! k = None).
  { intros Hk. destruct (created_of th !! k) eqn:E; [|done]. exfalso. apply (Hkept k); [|done]. unfold created_in.
    cbn [mbind list_bind]. rewrite fmap_app. apply elem_of_app. left. apply created_of_elem. by rewrite E. }
  rewrite deleted_in_cons in *. destruct (decide (above (th :: ths) k)) as [Ha|Ha].
  - destruct (decide (k ∈ deleted_in ths)) as [Hd|Hd].
    + rewrite !decide_False by set_solver. rewrite Hc by set_solver. by destruct (new_of ths !! k).
    + rewrite (decide_True (P := above _ _ /\ k ∉ deleted_in ths)) by done.
      destruct (decide (k ∈ deleted_of th)) as [Hd'|Hd'].
      * rewrite !decide_False by set_solver. rewrite Hc by set_solver. by destruct (new_of ths !! k).
      * rewrite !decide_True by set_solver. destruct (m !! k); [done|].
        by destruct (created_of th !! k), (new_of ths !! k).
  - rewrite !decide_False by tauto. by destruct (new_of ths !! k).
Qed.

Lemma offered_fresh m th ths k :
  batch_ok m (th :: ths) -> is_Some (offered th m !! k) -> k ∉ (created_in ths).*1.
Proof.
  intros [Hf Hn _] Hk Hin. unfold created_in in *. cbn [mbind list_bind] in *. rewrite fmap_app in *.
  apply NoDup_app in Hf as (_ & Hd & _). rewrite offered_lookup, Hn in Hk by (apply elem_of_app; by right).
  assert (Hc : is_Some (created_of th !! k)) by (by destruct (decide _)). apply created_of_elem in Hc. by apply (Hd k).
Qed.

Lemma base_step m th ths :
  thunk_ok m th -> exists_partial_exec th = Some true -> batch_ok m (th :: ths) ->
  reduce th (base m (th :: ths)) = base (apply_thunk m th) ths.
Proof.
  intros T Ep B. destruct (tk_partial _ _ T Ep) as (_ & o & Eo & _).
  assert (Hpk : new_of ths !! partial_exec_key th = None).
  { destruct (new_of ths !! partial_exec_key th) eqn:E; [|done]. exfalso.
    apply (offered_fresh m th ths (partial_exec_key th) B); [by rewrite Eo|]. apply new_of_elem. by rewrite E. }
  apply map_eq. intros k. rewrite reduce_lookup, (base_cons m th ths k B), base_lookup.
  unfold apply_thunk. rewrite Ep, reduce_lookup, keep_lookup. destruct (decide (k = partial_exec_key th)) as [->|Hne].
  - rewrite Hpk, Eo, key_lt_irrefl, (decide_True (P := false = false)) by done.
    destruct (decide (above ths (partial_exec_key th) /\ partial_exec_key th ∉ deleted_in ths)) as [Ha|Ha].
    + rewrite decide_True; [cbn; by destruct (left_of th o)|]. rewrite above_cons, key_lt_irrefl. tauto.
    + rewrite decide_False; [done|]. rewrite above_cons, key_lt_irrefl. tauto.
  - destruct (decide (above (th :: ths) k /\ k ∉ deleted_in ths)) as [Ha|Ha]; rewrite above_cons in Ha.
    + rewrite !decide_True by tauto. done.
    + destruct (decide (above ths k /\ k ∉ deleted_in ths)); [|done]. by rewrite decide_False by tauto.
Qed.

Lemma batch_ok_step m th ths :
  thunk_ok m th -> batch_ok m (th :: ths) -> batch_ok (apply_thunk m th) ths.
Proof.
  intros T B. pose proof B as [Hf Hn Hk]. unfold created_in in *. cbn [mbind list_bind] in *. rewrite fmap_app in *.
  constructor.
  - by apply NoDup_app in Hf as (_ & _ & ?).
  - intros k Hin. assert (Ho : offered th m !! k = None).
    { destruct (offered th m !! k) eqn:E; [|done]. exfalso. apply (offered_fresh m th ths k B); [by rewrite E|done]. }
    unfold apply_thunk. destruct (exists_partial_exec th) as [[]|]; [|done..]. rewrite reduce_lookup, keep_lookup, Ho.
    by repeat case_decide.
  - intros k Hin. specialize (Hk k). rewrite deleted_in_cons in Hk. intros Hd. apply Hk; [|set_solver]. apply elem_of_app. by right.
Qed.

(** ** The phases *)
Context {W : Type} `{OrderbookDbi W}.
Implicit Types (w : W).

(** The larger of two keys bounds what both bound. *)
Lemma key_max a b k : key_lt k (if key_lt a b then b else a) = false <-> key_lt k a = false /\ key_lt k b = false.
Proof.
  destruct (key_lt a b) eqn:E; split; try tauto; intros Hk; (split; [|done]) || (split; [done|]).
  - destruct (key_lt k a) eqn:Ea; [|done]. rewrite (key_le_lt_trans k a b) in Hk; [done|by apply key_lt_asym|done].
  - destruct (key_lt k b) eqn:Eb; [|done]. rewrite (key_lt_le_trans k b a) in Hk; done.
Qed.

(** *** Phase 1 *)
Lemma delete_keys_spec l w later :
  (forall k, dbi_map (delete_keys l w later).1 !! k = if decide (k ∈ l.*1) then None else dbi_map w !! k) /\
  (delete_keys l w later).2 ⊆ later ∪ list_to_set l.*1.
Proof.
  revert w later. induction l as [|[k0 o0] l IH]; intros w later; cbn [delete_keys fst].
  { split; [|set_solver]. intros k. by rewrite decide_False by apply not_elem_of_nil. }
  pose proof (dbi_del_map w k0) as Em. destruct (dbi_del w k0) as [w' found]. cbn [fst] in Em.
  destruct (IH w' (if found then later else {[k0]} ∪ later)) as [I1 I2]. split.
  - intros k. rewrite I1, Em. cbn [fmap list_fmap fst]. destruct (decide (k ∈ l.*1)) as [Hk|Hk].
    + rewrite decide_True by (by right). done.
    + destruct (decide (k = k0)) as [->|Hne]; [rewrite decide_True by (by left); by apply lookup_delete_eq|].
      rewrite decide_False by (by intros [?|?]%elem_of_cons). by apply lookup_delete_ne.
  - cbn [fmap list_fmap fst list_to_set]. destruct found; set_solver.
Qed.

Lemma phase1_spec ths e s :
  Forall (fun th => exists_partial_exec th = Some e) ths ->
  exists s', phase1 ths s = Ok s' /\
    (forall k, dbi_map (sc_disk s') !! k = if decide (k ∈ deleted_in ths) then None else dbi_map (sc_disk s) !! k) /\
    sc_later s' ⊆ sc_later s ∪ deleted_in ths /\
    sc_set s' = (sc_set s || (e && negb (bool_decide (ths = [])))) /\
    (e = true -> forall k, key_lt k (sc_key s') = false <-> key_lt k (sc_key s) = false /\ above ths k).
Proof.
  revert s. induction ths as [|th ths IH]; intros s Hp; cbn [phase1].
  { exists s. split; [done|]. split; [intros k; by rewrite decide_False by apply not_elem_of_empty|]. split; [set_solver|].
    split; [by rewrite bool_decide_true, andb_false_r, orb_false_r|]. intros _ k. unfold above. split; [by split|by intros [? _]]. }
  apply Forall_cons in Hp as [Ep Hp].
  destruct (delete_keys_spec (deleted_keys th) (sc_disk s) (sc_later s)) as [D1 D2].
  destruct (delete_keys _ _ _) as [w later]. cbn [fst snd] in D1, D2.
  assert (D3 : later ⊆ sc_later s ∪ deleted_of th) by exact D2. clear D2. unfold get_exists_partial_exec. rewrite Ep. cbn [result_bind].
  assert (Hd : forall s' kb, (forall k, dbi_map (sc_disk s') !! k = if decide (k ∈ deleted_in ths) then None else
      dbi_map (sc_disk (mkScan w later kb true)) !! k) ->
    forall k, dbi_map (sc_disk s') !! k = if decide (k ∈ deleted_in (th :: ths)) then None else dbi_map (sc_disk s) !! k).
  { intros s' kb Hs k. rewrite Hs, deleted_in_cons. cbn [sc_disk]. rewrite D1.
    assert (El : k ∈ deleted_of th <-> k ∈ (deleted_keys th).*1) by apply elem_of_list_to_set.
    destruct (decide (k ∈ deleted_in ths)); [by rewrite decide_True by (apply elem_of_union; by right)|].
    destruct (decide (k ∈ (deleted_keys th).*1)); [rewrite decide_True by (apply elem_of_union; left; by apply El)|
      rewrite decide_False by (rewrite elem_of_union, El; tauto)]; done. }
  assert (Hb : bool_decide (th :: ths = []) = false) by (by apply bool_decide_eq_false).
  destruct e.
  - set (kb := if key_lt _ _ then _ else _). destruct (IH (mkScan w later kb true) Hp) as (s' & -> & I1 & I2 & I3 & I4).
    exists s'. split; [done|]. split; [by apply (Hd s' kb)|]. cbn [sc_later sc_set sc_key] in *. rewrite deleted_in_cons.
    split; [clear -I2 D3; set_solver|]. split; [by rewrite I3, Hb, orb_true_r|].
    intros _ k. rewrite I4, above_cons by done. unfold kb. rewrite key_max. tauto.
  - destruct (IH (mkScan w later (sc_key s) (sc_set s)) Hp) as (s' & -> & I1 & I2 & I3 & I4).
    exists s'. split; [done|]. split; [by apply (Hd s' (sc_key s))|]. cbn [sc_later sc_set sc_key] in *. rewrite deleted_in_cons.
    split; [clear -I2 D3; set_solver|]. split; [by rewrite I3|done].
Qed.

(** *** Phase 2 *)
Lemma delete_down_spec fuel w k :
  is_Some (dbi_map w !! k) -> (size (keep (fun j => key_lt k j = false) (dbi_map w)) <= fuel)%nat ->
  dbi_map (delete_down fuel w (Some k)) = keep (fun j => key_lt k j = true) (dbi_map w).
Proof.
  revert w k. induction fuel as [|fuel IH]; intros w k [o Ho] Hf.
  - exfalso. apply Nat.le_0_r, map_size_empty_inv in Hf. assert (E : keep (fun j => key_lt k j = false) (dbi_map w) !! k = Some o).
    { rewrite keep_lookup, decide_True by apply key_lt_irrefl. done. }
    rewrite Hf in E. done.
  - cbn [delete_down]. destruct (cursor_prev w k) as [k'|] eqn:Ep.
    + destruct (cursor_prev_some w k k' Ep) as (Hk' & Hlt & Hmax).
      assert (Hne : k' <> k) by (intros ->; by rewrite key_lt_irrefl in Hlt).
      assert (Heq : forall j, is_Some (dbi_map w !! j) -> j <> k -> key_lt k' j = key_lt k j).
      { intros j Hj Hjk. destruct (key_lt k j) eqn:E.
        - by apply (key_lt_le_trans k' k j) in Hlt; [|apply key_lt_asym].
        - apply Hmax; [done|]. destruct (key_lt j k) eqn:E'; [done|]. by destruct Hjk; apply key_lt_antisym. }
      rewrite (IH (dbi_del w k).1 k').
      * apply map_eq. intros j. rewrite !keep_lookup, dbi_del_map. destruct (decide (j = k)) as [->|Hjk].
        { rewrite lookup_delete_eq, key_lt_irrefl, (decide_False (P := false = true)) by done. by case_decide. }
        rewrite lookup_delete_ne by done. destruct (dbi_map w !! j) eqn:Ej; [|by repeat case_decide].
        by rewrite (Heq j) by (done || by rewrite Ej).
      * by rewrite dbi_del_map, lookup_delete_ne by done.
      * assert (Es : keep (fun j => key_lt k' j = false) (dbi_map (dbi_del w k).1) =
          delete k (keep (fun j => key_lt k j = false) (dbi_map w))).
        { apply map_eq. intros j. rewrite keep_lookup, dbi_del_map. destruct (decide (j = k)) as [->|Hjk].
          - rewrite !lookup_delete_eq. by case_decide.
          - rewrite !lookup_delete_ne, keep_lookup by done. destruct (dbi_map w !! j) eqn:Ej; [|by repeat case_decide].
            by rewrite (Heq j) by (done || by rewrite Ej). }
        rewrite Es. rewrite (map_size_delete_Some (M := gmap key)); [lia|].
        exists o. by rewrite keep_lookup, decide_True by apply key_lt_irrefl.
    + assert (E : delete_down fuel (dbi_del w k).1 None = (dbi_del w k).1) by (by destruct fuel). rewrite E, dbi_del_map.
      apply map_eq. intros j. rewrite keep_lookup. destruct (decide (j = k)) as [->|Hjk].
      { by rewrite lookup_delete_eq, key_lt_irrefl. }
      rewrite lookup_delete_ne by done. destruct (dbi_map w !! j) eqn:Ej; [|by case_decide].
      rewrite decide_True; [done|]. pose proof (cursor_prev_none w k Ep j ltac:(by rewrite Ej)) as Hj.
      destruct (key_lt k j) eqn:Ekj; [done|]. by destruct Hjk; apply key_lt_antisym.
Qed.

Lemma delete_all_below fuel w k kb :
  (size (dbi_map w) <= fuel)%nat -> is_Some (dbi_map w !! k) ->
  (forall j, is_Some (dbi_map w !! j) -> key_lt k j = negb (key_lt j kb)) ->
  dbi_map (delete_down fuel w (Some k)) = keep (fun j => key_lt j kb = false) (dbi_map w).
Proof.
  intros Hf Hk Hj. rewrite delete_down_spec; [|done|].
  - apply map_eq. intros j. rewrite !keep_lookup. destruct (dbi_map w !! j) eqn:E; [|by repeat case_decide].
    rewrite (Hj j) by (by rewrite E). by destruct (key_lt j kb).
  - etransitivity; [|exact Hf]. apply map_size_filter.
Qed.

Lemma phase2_set s :
  sc_set s = true ->
  dbi_map (phase2 s) = keep (fun j => key_lt j (sc_key s) = false) (dbi_map (sc_disk s)).
Proof.
  intros Es. unfold phase2. rewrite Es. set (w := sc_disk s). set (kb := sc_key s).
  assert (Hnone : forall c, c = None -> (forall j, is_Some (dbi_map w !! j) -> key_lt j kb = false) ->
    dbi_map (delete_down (size (dbi_map w)) w c) = keep (fun j => key_lt j kb = false) (dbi_map w)).
  { intros c -> Hj. assert (E : forall n, delete_down n w None = w) by (by intros []). rewrite E. symmetry.
    apply map_filter_id. intros j o Ho. cbn [fst]. apply Hj. by rewrite Ho. }
  destruct (cursor_set_range w kb) as [k|] eqn:Er.
  - destruct (cursor_set_range_some w kb k Er) as (Hk & Hge & Hmin).
    assert (Heq : forall j, is_Some (dbi_map w !! j) -> key_lt j k = key_lt j kb).
    { intros j Hj. destruct (key_lt j k) eqn:E; [by symmetry; apply Hmin|]. destruct (key_lt j kb) eqn:E'; [|done].
      assert (key_lt j k = true); [|congruence]. by eapply key_lt_le_trans. }
    destruct (cursor_prev w k) as [k'|] eqn:Ep.
    + destruct (cursor_prev_some w k k' Ep) as (Hk' & Hlt & Hmax). apply delete_all_below; [done|done|].
      intros j Hj. rewrite <- Heq by done. destruct (key_lt j k) eqn:E; cbn [negb]; [by apply Hmax|].
      by apply (key_lt_le_trans k' k j).
    + apply Hnone; [done|]. intros j Hj. rewrite <- Heq by done. by apply (cursor_prev_none w k).
  - pose proof (cursor_set_range_none w kb Er) as Hall. destruct (cursor_last w) as [k|] eqn:El.
    + destruct (cursor_last_some w k El) as (Hk & Hmax). apply delete_all_below; [done|done|].
      intros j Hj. by rewrite (Hall j Hj), (Hmax j Hj).
    + apply Hnone; [done|]. intros j Hj. rewrite (cursor_last_none w El) in Hj. by destruct Hj.
Qed.

Lemma phase2_unset s : sc_set s = false -> dbi_map (phase2 s) = ∅.
Proof.
  intros Es. unfold phase2. rewrite Es. set (w := sc_disk s).
  assert (E0 : (if cursor_set_range w (sc_key s) then cursor_last w else cursor_last w) = cursor_last w)
    by (by destruct (cursor_set_range w (sc_key s))).
  destruct (cursor_last w) as [k|] eqn:El.
  - destruct (cursor_last_some w k El) as (Hk & Hmax). rewrite delete_down_spec; [|done|].
    + apply map_eq. intros j. rewrite keep_lookup, lookup_empty. destruct (dbi_map w !! j) eqn:E; [|by case_decide].
      rewrite (Hmax j) by (by rewrite E). done.
    + apply map_size_filter.
  - assert (E : forall n, delete_down n w None = w) by (by intros []). rewrite E. by apply cursor_last_none.
Qed.

(** *** Phase 3 *)
Definition pairs (l : list Offer) : list (key * Offer) := (fun o => (Key.offer_key o, o)) <$> l.

Lemma put_offers_spec l kb later w :
  key_ok kb -> Forall (fun o => 0 < amount o < 2 ^ 63 /\ 0 <= minPrice o <= Price.MAX_PRICE) l ->
  StronglySorted (fun p q => key_le q p) (pairs l) -> NoDup (pairs l).*1 -> (forall k, k ∈ (pairs l).*1 -> k ∉ later) ->
  exists w', put_offers l kb later w = Ok w' /\
    dbi_map w' = keep (fun k => key_lt k kb = false) (list_to_map (pairs l)) ∪ dbi_map w.
Proof.
  intros Hkb Hwf. revert w. induction Hwf as [|o l [Ha Hp] Hwf IH]; intros w Hs Hn Hl; cbn [put_offers].
  { exists w. split; [done|]. apply map_eq. intros k. rewrite lookup_union, keep_lookup.
    change ((list_to_map (pairs []) : gmap key Offer) !! k) with (@None Offer). case_decide; by destruct (dbi_map w !! k). }
  destruct (Z.eqb_spec (amount o) 0); [lia|].
  change (pairs (o :: l)) with ((Key.offer_key o, o) :: pairs l) in *. cbn [fmap list_fmap fst list_to_map foldr uncurry snd] in *.
  inversion_clear Hs as [|? ? Hs' Hall]. apply NoDup_cons in Hn as [Hk Hn].
  assert (Hlk : Key.offer_key o ∉ later) by (apply Hl; by left). pose proof (price_test o kb Hkb Hp) as Ht.
  assert (Hstop : key_lt (Key.offer_key o) kb = true -> exists w', Ok w = Ok w' /\ dbi_map w' =
    keep (fun k => key_lt k kb = false) (<[Key.offer_key o := o]> (list_to_map (pairs l))) ∪ dbi_map w).
  { intros Hlt. exists w. split; [done|]. apply map_eq. intros k. rewrite lookup_union, keep_lookup.
    destruct (decide (key_lt k kb = false)) as [Hge|]; [|by destruct (dbi_map w !! k)].
    rewrite lookup_insert_ne by (intros <-; congruence).
    destruct (list_to_map (pairs l) !! k) as [o'|] eqn:E; [|by destruct (dbi_map w !! k)]. exfalso.
    apply elem_of_list_to_map_2 in E. rewrite Forall_forall in Hall. specialize (Hall _ E). unfold key_le in Hall. cbn [fst] in Hall.
    assert (Hle : key_lt (Key.offer_key o) k = false) by (by apply key_lt_false). 
    rewrite (key_le_lt_trans k (Key.offer_key o) kb) in Hge; done. }
  destruct (Price.read_price_big_endian kb <=? minPrice o); cbn [andb] in Ht.
  - rewrite decide_False, Ht by done. destruct (key_lt (Key.offer_key o) kb) eqn:Elt; cbn [negb]; [by apply Hstop|].
    destruct (IH (dbi_put w (Key.offer_key o) o)) as (w' & -> & Em); [done|done|intros k Hk'; apply Hl; by right|].
    exists w'. split; [done|]. rewrite Em, dbi_put_map. apply map_eq. intros k. rewrite !lookup_union, !keep_lookup.
    destruct (decide (k = Key.offer_key o)) as [->|Hne].
    + rewrite Elt, !decide_True, !lookup_insert_eq by done. rewrite (not_elem_of_list_to_map_1 _ _ Hk). by destruct (dbi_map w !! _).
    + by rewrite !lookup_insert_ne by done.
  - apply Hstop. by destruct (key_lt (Key.offer_key o) kb).
Qed.

Lemma StronglySorted_reverse {A} (R : A -> A -> Prop) (l : list A) :
  StronglySorted R l -> StronglySorted (fun x y => R y x) (reverse l).
Proof.
  induction 1 as [|x l Hs IH Hall]; [constructor|]. rewrite reverse_cons. apply StronglySorted_app_2; [|done|by repeat constructor].
  intros y z Hy ->%list_elem_of_singleton. rewrite Forall_forall in Hall. by apply Hall, elem_of_reverse.
Qed.

Lemma pairs_reverse l : pairs (reverse l) = reverse (pairs l).
Proof. apply fmap_reverse. Qed.

(** The key that bounds the offers of the oldest of [ths]. *)
Definition top (ths : list Thunk) : key :=
  foldr (fun th kb => if key_lt kb (partial_exec_key th) then partial_exec_key th else kb) zero_key ths.

Lemma top_above ths k : key_ok k -> key_lt k (top ths) = false <-> above ths k.
Proof.
  intros Hk. induction ths as [|th ths IH]; cbn [top foldr]; [split; [by constructor|intros _; by apply key_lt_zero]|].
  fold (top ths). rewrite key_max, above_cons, IH. tauto.
Qed.

Lemma zero_key_ok : key_ok zero_key.
Proof. split; [done|]. by apply Forall_replicate. Qed.
Lemma offer_key_ok o : key_ok (Key.offer_key o).
Proof. unfold Key.offer_key. split; [exact (Key.key_length _ _ _)|exact (Key.key_bytes _ _ _)]. Qed.
Lemma top_ok ths : Forall (fun th => key_ok (partial_exec_key th)) ths -> key_ok (top ths).
Proof. induction 1 as [|th ths]; [apply zero_key_ok|]. cbn [top foldr]. by destruct (key_lt _ _). Qed.

Lemma phase3_snoc ths th kb later w :
  phase3 (reverse ths ++ [th]) kb later w =
    let* disk := phase3 (reverse ths) kb later w in
    put_offers (reverse (uncommitted_offers_vec th))
      (foldl (fun kb th => if key_lt kb (partial_exec_key th) then partial_exec_key th else kb) kb (reverse ths ++ [th])) later disk.
Proof.
  generalize (reverse ths) as l. intros l. revert kb w. induction l as [|th' l IH]; intros kb w; cbn [app phase3 foldl].
  - cbn [result_bind]. by destruct (put_offers _ _ _ _).
  - destruct (put_offers (reverse (uncommitted_offers_vec th')) _ later w) as [w1|]; cbn [result_bind]; [apply IH|done].
Qed.

Lemma top_reverse ths :
  foldl (fun kb th => if key_lt kb (partial_exec_key th) then partial_exec_key th else kb) zero_key (reverse ths) = top ths.
Proof.
  unfold top. induction ths as [|th ths IH]; [done|]. by rewrite reverse_cons, foldl_app, IH.
Qed.

(** What phases 3 to 5 need of one thunk. *)
Record thunk_wf (th : Thunk) : Prop := {
  tw_sorted : StronglySorted key_le (created_list th);
  tw_created : Forall (fun o => 0 < amount o < 2 ^ 63 /\ 0 <= minPrice o <= Price.MAX_PRICE) (uncommitted_offers_vec th);
  tw_nodup : NoDup (created_list th).*1;
  tw_key : key_ok (partial_exec_key th)
}.

Lemma phase3_spec ths later w :
  Forall thunk_wf ths -> (forall k, k ∈ (created_in ths).*1 -> k ∉ later) ->
  exists w', phase3 (reverse ths) zero_key later w = Ok w' /\ dbi_map w' = new_of ths ∪ dbi_map w.
Proof.
  induction 1 as [|th ths [Hs Hc Hn Hk] Hwf IH]; intros Hl.
  { exists w. split; [done|]. cbn [new_of]. by rewrite (left_id_L ∅ (∪)). }
  unfold created_in in Hl, IH. cbn [mbind list_bind] in Hl. setoid_rewrite fmap_app in Hl. setoid_rewrite elem_of_app in Hl.
  destruct IH as (w1 & E1 & M1); [intros k Hk'; apply Hl; by right|].
  rewrite reverse_cons, phase3_snoc, E1. cbn [result_bind]. rewrite <- reverse_cons, top_reverse.
  destruct (put_offers_spec (reverse (uncommitted_offers_vec th)) (top (th :: ths)) later w1) as (w2 & E2 & M2).
  - apply top_ok. constructor; [done|]. eapply Forall_impl; [exact Hwf|]. by intros th' [].
  - by apply Forall_reverse.
  - rewrite pairs_reverse. by apply StronglySorted_reverse in Hs.
  - rewrite pairs_reverse, fmap_reverse. by rewrite reverse_Permutation.
  - intros k. rewrite pairs_reverse, fmap_reverse, elem_of_reverse. intros Hk'. apply Hl. by left.
  - exists w2. split; [done|]. rewrite M2, M1, map_union_assoc. f_equal. cbn [new_of]. f_equal.
    rewrite pairs_reverse. apply map_eq. intros k. rewrite !keep_lookup. unfold created_of.
    rewrite (list_to_map_proper (M := gmap key) (reverse (pairs (uncommitted_offers_vec th))) (created_list th));
      [|by rewrite reverse_Permutation|apply reverse_Permutation].
    destruct (list_to_map (created_list th) !! k) eqn:E; [|by repeat case_decide].
    apply elem_of_list_to_map_2 in E. apply list_elem_of_fmap in E as (o' & [= -> ->] & _).
    pose proof (top_above (th :: ths) (Key.offer_key o') (offer_key_ok o')) as Ht. repeat case_decide; tauto.
Qed.

(** *** Phases 4 and 5 *)
Lemma partial_execution_spec th w :
  (forall o, dbi_map w !! partial_exec_key th = Some o -> 0 <= partial_exec_amount th <= amount o /\ amount o < 2 ^ 63) ->
  exists w', partial_execution th w = Ok w' /\ dbi_map w' = reduce th (dbi_map w).
Proof.
  intros Ho. unfold partial_execution, reduce. rewrite dbi_get_map.
  destruct (dbi_map w !! partial_exec_key th) as [o|] eqn:E.
  - destruct (Ho o eq_refl) as [Ha Hb]. destruct (Z.ltb_spec (partial_exec_amount th) 0); [lia|].
    rewrite !u64_id by (unfold in_u64; lia). destruct (Z.ltb_spec (amount o) (partial_exec_amount th)); [lia|].
    destruct (Z.ltb_spec (amount o - partial_exec_amount th) 0); [lia|].
    unfold left_of. destruct (Z.ltb_spec 0 (amount o - partial_exec_amount th)); eexists; (split; [reflexivity|]).
    + rewrite dbi_put_map. apply map_eq. intros k. destruct (decide (k = partial_exec_key th)) as [->|Hne].
      * rewrite lookup_insert_eq, lookup_partial_alter_eq, E. cbn. by destruct (Z.ltb_spec 0 (amount o - partial_exec_amount th)); [|lia].
      * by rewrite lookup_insert_ne, lookup_partial_alter_ne by done.
    + rewrite dbi_del_map. apply map_eq. intros k. destruct (decide (k = partial_exec_key th)) as [->|Hne].
      * rewrite lookup_delete_eq, lookup_partial_alter_eq, E. cbn. by destruct (Z.ltb_spec 0 (amount o - partial_exec_amount th)); [lia|].
      * by rewrite lookup_delete_ne, lookup_partial_alter_ne by done.
  - exists w. split; [done|]. apply map_eq. intros k. destruct (decide (k = partial_exec_key th)) as [->|Hne].
    + by rewrite lookup_partial_alter_eq, E.
    + by rewrite lookup_partial_alter_ne by done.
Qed.

Lemma phase4_spec m ths w :
  thunks_ok m ths -> Forall (fun th => exists_partial_exec th = Some true) ths -> batch_ok m ths -> dbi_map w = base m ths ->
  exists w', phase4 ths w = Ok w' /\ dbi_map w' = foldl apply_thunk m ths.
Proof.
  revert m w. induction ths as [|th ths IH]; intros m w T Hp B E; cbn [phase4 foldl].
  - exists w. split; [done|]. rewrite E. apply map_eq. intros k. rewrite base_lookup, decide_True; [by destruct (m !! k)|].
    split; [constructor|apply not_elem_of_empty].
  - destruct T as [T Ts]. apply Forall_cons in Hp as [Ep Hp]. unfold get_exists_partial_exec. rewrite Ep. cbn [result_bind].
    destruct (tk_partial _ _ T Ep) as (_ & o & Eo & Ha & Hb).
    destruct (partial_execution_spec th w) as (w' & -> & Ew').
    + intros o'. rewrite E, (base_cons _ _ _ _ B), Eo. destruct (decide _); [by intros [= <-]|].
      intros Hn. exfalso. apply (offered_fresh m th ths (partial_exec_key th) B); [by rewrite Eo|].
      apply new_of_elem. by rewrite Hn.
    + cbn [result_bind]. apply IH; [done|done|by apply batch_ok_step|]. by rewrite Ew', E, base_step.
Qed.

Lemma absent_stays m ths k : m !! k = None -> k ∉ (created_in ths).*1 -> foldl apply_thunk m ths !! k = None.
Proof.
  revert m. induction ths as [|th ths IH]; intros m Hm Hk; [done|]. cbn [foldl].
  unfold created_in in Hk, IH. cbn [mbind list_bind] in Hk. rewrite fmap_app, not_elem_of_app in Hk. destruct Hk as [Hk1 Hk2].
  apply IH; [|done]. unfold apply_thunk. destruct (exists_partial_exec th) as [[]|]; [|done..].
  rewrite reduce_lookup, keep_lookup, offered_lookup, Hm.
  assert (E : created_of th !! k = None) by (by apply not_elem_of_list_to_map_1). rewrite E. by repeat case_decide.
Qed.

Lemma cleared_later_absent m ths k th :
  th ∈ ths -> exists_partial_exec th = Some true -> key_lt k (partial_exec_key th) = true -> k ∉ (created_in ths).*1 ->
  foldl apply_thunk m ths !! k = None.
Proof.
  revert m. induction ths as [|th' ths IH]; intros m Hth Ep Hlt Hk; [by apply not_elem_of_nil in Hth|]. cbn [foldl].
  unfold created_in in Hk, IH. cbn [mbind list_bind] in Hk. rewrite fmap_app, not_elem_of_app in Hk. destruct Hk as [Hk1 Hk2].
  apply elem_of_cons in Hth as [<-|Hth]; [|by apply IH]. apply absent_stays; [|done].
  unfold apply_thunk. rewrite Ep, reduce_lookup, keep_lookup, (decide_False (P := key_lt _ _ = false)) by congruence.
  by case_decide.
Qed.

Lemma cleared_later_spec k future w :
  (forall th, th ∈ future -> key_lt k (partial_exec_key th) = true -> dbi_map w !! k = None) ->
  dbi_map (cleared_later k future w) = dbi_map w.
Proof.
  unfold cleared_later. revert w. induction future as [|th future IH]; intros w Hw; [done|]. cbn [foldl].
  destruct (key_lt k (partial_exec_key th)) eqn:E.
  - assert (Hk : dbi_map w !! k = None) by (apply (Hw th); [by left|done]).
    rewrite IH; [by rewrite dbi_del_map, delete_id|]. intros th' _ _. by rewrite dbi_del_map, delete_id.
  - apply IH. intros th' Hth'. apply Hw. by right.
Qed.

Lemma phase5_spec m ths w :
  thunks_ok m ths -> Forall (fun th => exists_partial_exec th = Some true) ths -> batch_ok m ths ->
  dbi_map w = foldl apply_thunk m ths -> exists w', phase5 ths w = Ok w' /\ dbi_map w' = foldl apply_thunk m ths.
Proof.
  revert m w. induction ths as [|th ths IH]; intros m w T Hp B E; cbn [phase5]; [by exists w|].
  destruct T as [T Ts]. apply Forall_cons in Hp as [Ep Hp]. unfold get_exists_partial_exec. rewrite Ep. cbn [result_bind foldl] in *.
  apply (IH (apply_thunk m th)); [done|done|by apply batch_ok_step|]. rewrite cleared_later_spec; [done|].
  intros th' Hth' Hlt. rewrite E. rewrite Forall_forall in Hp. apply (cleared_later_absent _ _ _ th'); [done|by apply Hp|done|].
  destruct (tk_partial _ _ T Ep) as (_ & o & Eo & _). apply (offered_fresh m th ths _ B). by rewrite Eo.
Qed.

(** Blocks that cleared everything leave nothing. *)
Lemma nothing_left ths m e :
  Forall (fun th => exists_partial_exec th = Some e) ths -> ths <> [] -> e = false -> foldl apply_thunk m ths = ∅.
Proof.
  intros Hp Hne ->. destruct ths as [|th ths] using rev_ind; [done|]. apply Forall_app in Hp as [_ Hp].
  apply Forall_cons in Hp as [Ep _]. rewrite foldl_app. cbn [foldl]. unfold apply_thunk. by rewrite Ep.
Qed.

Lemma phases_none ths w :
  Forall (fun th => exists_partial_exec th = Some false) ths -> phase4 ths w = Ok w /\ phase5 ths w = Ok w.
Proof.
  induction 1 as [|th ths Ep Hp [IH1 IH2]]; [done|]. cbn [phase4 phase5]. unfold get_exists_partial_exec. rewrite Ep.
  by cbn [result_bind].
Qed.

Lemma max_key_ok : key_ok max_key.
Proof. split; [done|]. apply Forall_replicate. lia. Qed.

Lemma thunk_ok_wf m th : thunk_ok m th -> thunk_wf th.
Proof.
  intros T. constructor; [apply T|apply T|apply T|]. destruct (tk_set _ _ T) as [[] Ep].
  - exact (proj1 (tk_partial _ _ T Ep)).
  - rewrite (proj1 (tk_none _ _ T Ep)). apply max_key_ok.
Qed.
Lemma thunks_ok_wf m ths : thunks_ok m ths -> Forall thunk_wf ths.
Proof.
  revert m. induction ths as [|th ths IH]; intros m T; [constructor|]. destruct T as [T Ts].
  constructor; [by eapply thunk_ok_wf|by eapply IH].
Qed.

Lemma new_of_none m ths :
  thunks_ok m ths -> Forall (fun th => exists_partial_exec th = Some false) ths -> new_of ths = ∅.
Proof.
  revert m. induction ths as [|th ths IH]; intros m T Hp; [done|]. destruct T as [T Ts]. apply Forall_cons in Hp as [Ep Hp].
  cbn [new_of]. rewrite (IH _ Ts Hp), map_union_empty. apply map_eq. intros k. rewrite keep_lookup, lookup_empty.
  destruct (decide _) as [Ha|]; [|done]. apply above_cons in Ha as [Ha _]. destruct (tk_none _ _ T Ep) as [Ek Hlt].
  destruct (created_of th !! k) eqn:E; [|done]. apply elem_of_list_to_map_2, list_elem_of_fmap in E as (o' & [= -> ->] & Ho).
  rewrite Forall_forall in Hlt. specialize (Hlt _ Ho). congruence.
Qed.

(** ** The whole transaction *)
Lemma write_relevant_spec persisted ths e w :
  map_Forall (fun k _ => key_ok k) (dbi_map w) -> thunks_ok (dbi_map w) ths -> batch_ok (dbi_map w) ths ->
  Forall (fun th => exists_partial_exec th = Some e) ths ->
  Forall (fun th => u64 (persisted + 1) <= Orderbook.current_block_number th) ths ->
  exists w', write_relevant persisted ths w = Ok w' /\ dbi_map w' = foldl apply_thunk (dbi_map w) ths.
Proof.
  intros Hk T B Hp Hblk. destruct ths as [|th0 ths0] eqn:Et; [by exists w|]. cbn [write_relevant].
  apply Forall_cons in Hblk as [Hblk _]. destruct (Z.ltb_spec (Orderbook.current_block_number th0) (u64 (persisted + 1))); [lia|].
  rewrite <- Et in *. destruct (phase1_spec ths e (mkScan w ∅ zero_key false) Hp) as (s & -> & P1 & P2 & P3 & P4).
  cbn [result_bind sc_disk sc_later sc_set sc_key] in *.
  assert (Eset : sc_set s = e) by (rewrite P3, Et; by destruct e).
  destruct (phase3_spec ths (sc_later s) (phase2 s) (thunks_ok_wf _ _ T)) as (w3 & -> & M3).
  { intros k Hin Hl. apply (bo_kept _ _ B k Hin). apply P2, elem_of_union in Hl as [Hl|Hl]; [by apply not_elem_of_empty in Hl|done]. }
  cbn [result_bind]. destruct e.
  - assert (Eb : dbi_map w3 = base (dbi_map w) ths).
    { rewrite M3, (phase2_set s Eset). apply map_eq. intros k. rewrite lookup_union, base_lookup, keep_lookup, P1.
      assert (Hnew : is_Some (new_of ths !! k) -> dbi_map w !! k = None) by (intros Hn; by apply (bo_new _ _ B), new_of_elem).
      assert (Hab : forall o, dbi_map w !! k = Some o -> (key_lt k (sc_key s) = false <-> above ths k)).
      { intros o Ho. rewrite (P4 eq_refl k). split; [tauto|]. split; [|done]. apply key_lt_zero. exact (Hk k o Ho). }
      destruct (dbi_map w !! k) as [o|] eqn:Ew.
      - destruct (new_of ths !! k) as [x|]; [by discriminate Hnew|]. specialize (Hab o eq_refl).
        repeat case_decide; tauto || done.
      - destruct (new_of ths !! k); by repeat case_decide. }
    destruct (phase4_spec (dbi_map w) ths w3 T Hp B Eb) as (w4 & -> & M4). cbn [result_bind].
    by apply phase5_spec.
  - destruct (phases_none ths w3 Hp) as [-> E5]. cbn [result_bind]. rewrite E5. exists w3. split; [done|].
    rewrite M3, (phase2_unset s Eset), (new_of_none _ _ T Hp), (nothing_left ths _ false Hp); [done|by rewrite Et|done].
Qed.

(** ** The blocks of an orderbook *)
Lemma created_list_entries (tr : TR) (th : Thunk) :
  uncommitted_offers_vec th = snd <$> ot_entries tr ->
  (forall k o, ot_map tr !! k = Some o -> k = Key.offer_key o) -> created_list th = ot_entries tr.
Proof.
  intros E Hk. unfold created_list. rewrite E, <- list_fmap_compose.
  assert (Hall : Forall (fun p : key * Offer => p.1 = Key.offer_key p.2) (ot_entries tr)).
  { apply Forall_forall. intros [k o] Hp. apply entries_elem in Hp. by apply Hk. }
  clear E Hk. induction Hall as [|[k o] l E _ IH]; [done|]. rewrite fmap_cons, IH. cbn [compose snd fst] in *. unfold compose. cbn. by rewrite E.
Qed.

Lemma map_of_entries (tr : TR) : list_to_map (ot_entries tr) = ot_map tr.
Proof.
  rewrite (list_to_map_proper (M := gmap key) _ (map_to_list (ot_map tr)));
    [apply list_to_map_to_list|apply ot_entries_nodup|apply ot_entries_map].
Qed.

(** A key that is not the largest is below it. *)
Lemma key_lt_max k : key_ok k -> k <> max_key -> key_lt k max_key = true.
Proof.
  intros [Hl Hb] Hne. destruct (key_lt k max_key) eqn:E; [done|]. exfalso. apply key_lt_false in E.
  destruct max_key_ok as [Hl' Hb']. rewrite Key.memcmp_value in E by congruence.
  pose proof (Key.be_value_bounds k Hb) as B. rewrite Hl in B. change (256 ^ Z.of_nat Key.ORDERBOOK_KEY_LEN) with (be_value max_key + 1) in B.
  apply Hne, memcmp_eq. rewrite Key.memcmp_value by congruence. apply Z.compare_eq_iff.
  destruct (Z.compare_spec (be_value max_key) (be_value k)); [done|lia|done].
Qed.

Section Block.
Context (b b1 b2 : Book) (blk S r : Z) (del low rest : list (key * Offer)) (partial : option (key * Offer)).
Context (Hnew : new_offers_ok b) (Hck : committed_block b b1 blk del)
  (Hwf : offers_wf (book_category b1) (ot_entries (committed_offers b1)))
  (Hmax : ot_map (committed_offers b1) !! max_key = None)
  (Hsp : split_by S (ot_entries (committed_offers b1)) low partial rest r)
  (Hcb : cleared_book b1 b2 low partial rest r).

Lemma block_thunk :
  exists th, thunks b2 = thunks b ++ [th] /\ Orderbook.current_block_number th = blk /\
    uncommitted_offers_vec th = snd <$> ot_entries (uncommitted_offers b) /\ deleted_keys th = del /\
    match partial with
    | Some (k, o) => exists_partial_exec th = Some true /\ partial_exec_key th = k /\ partial_exec_amount th = FractionalAsset.ceil r
    | None => exists_partial_exec th = Some false /\ partial_exec_key th = max_key
    end.
Proof using Hck Hsp Hcb.
  destruct (cb_thunk _ _ _ _ _ _ Hcb) as (th & cleared & Eth & Ets & _).
  rewrite (ck_thunks _ _ _ _ Hck), last_snoc in Eth. injection Eth as Eth.
  rewrite (ck_thunks _ _ _ _ Hck), List.removelast_last in Ets. exists (thunk_after partial r cleared th).
  split; [exact Ets|]. subst th. by destruct partial as [[k o]|].
Qed.

Lemma created_in_block k o : ot_map (uncommitted_offers b) !! k = Some o ->
  k = Key.offer_key o /\ ot_map (committed_offers b1) !! k = Some o /\ 0 < amount o < 2 ^ 63 /\ 0 <= minPrice o <= Price.MAX_PRICE.
Proof using Hnew Hck Hwf.
  intros Ho. split; [by apply (no_keys _ Hnew)|].
  assert (Hd : ot_map (committed_offers b1) !! k = Some o).
  { rewrite (ck_map _ _ _ _ Hck). apply lookup_union_Some_r; [|done].
    eapply map_disjoint_weaken_l; [apply Hnew|apply map_filter_subseteq]. }
  split; [done|]. apply entries_elem in Hd. destruct Hwf as [Hall Hlt]. pose proof (proj1 (Forall_forall _ _) Hall _ Hd) as (_ & _ & Hp & Hv & _).
  unfold Price.valid in Hv. cbn [snd] in *. split; [|lia]. split; [done|].
  assert (Hle : amount o <= offers_endow (ot_entries (committed_offers b1))); [|lia].
  apply (sum_by_elem_le (fun p : key * Offer => amount p.2) _ (k, o)); [|done].
  eapply Forall_impl; [exact Hall|]. intros p (_ & _ & ? & _). lia.
Qed.

Lemma offered_block th :
  uncommitted_offers_vec th = snd <$> ot_entries (uncommitted_offers b) -> deleted_keys th = del ->
  offered th (ot_map (committed_offers b)) = ot_map (committed_offers b1).
Proof using Hnew Hck.
  intros Eu Ed. rewrite (ck_map _ _ _ _ Hck). unfold offered, created_of.
  rewrite (created_list_entries (uncommitted_offers b) th Eu (no_keys _ Hnew)), map_of_entries. f_equal.
  apply map_filter_ext. intros k o Hk. cbn [fst]. unfold deleted_of. rewrite elem_of_list_to_set, Ed, (map_of_lookup del k).
  rewrite (deleted_lookup b b1 blk del k Hck), Hk. destruct (decide (k ∈ ot_marked (committed_offers b))) as [Hm|Hm].
  - split; [intros Hn; by destruct Hn|done].
  - split; [done|by intros _ []].
Qed.

Lemma block_thunk_ok th :
  uncommitted_offers_vec th = snd <$> ot_entries (uncommitted_offers b) -> deleted_keys th = del ->
  match partial with
  | Some (k, o) => exists_partial_exec th = Some true /\ partial_exec_key th = k /\ partial_exec_amount th = FractionalAsset.ceil r
  | None => exists_partial_exec th = Some false /\ partial_exec_key th = max_key
  end -> thunk_ok (ot_map (committed_offers b)) th.
Proof using All.
  intros Eu Ed Ep. pose proof (created_list_entries (uncommitted_offers b) th Eu (no_keys _ Hnew)) as Ec.
  assert (Hc : forall o, o ∈ uncommitted_offers_vec th -> exists k, ot_map (uncommitted_offers b) !! k = Some o).
  { intros o. rewrite Eu. intros ([k o'] & -> & Hp)%list_elem_of_fmap. apply entries_elem in Hp. by exists k. }
  constructor.
  - rewrite Ec. apply ot_entries_sorted.
  - apply Forall_forall. intros o Ho. destruct (Hc o Ho) as [k Hk]. by apply (created_in_block k).
  - rewrite Ec. apply ot_entries_nodup.
  - intros k. unfold deleted_of. rewrite elem_of_list_to_set, Ed, (map_of_lookup del k), (deleted_lookup b b1 blk del k Hck).
    rewrite elem_of_dom. destruct (decide _); [done|by intros []].
  - intros Et. destruct partial as [[k o]|]; [|by rewrite (proj1 Ep) in Et]. destruct Ep as (_ & -> & ->).
    destruct (split_by_partial _ _ _ _ _ _ _ (offers_wf_positive _ _ Hwf) Hsp) as [Ho Hceil].
    assert (Hin : (k, o) ∈ ot_entries (committed_offers b1)).
    { rewrite (sb_entries _ _ _ _ _ _ Hsp). apply elem_of_app. right. by left. }
    split.
    + destruct Hwf as [Hall _]. rewrite Forall_forall in Hall. destruct (Hall _ Hin) as (Ek & _). cbn [fst snd] in Ek.
      rewrite Ek. apply offer_key_ok.
    + exists o. rewrite (offered_block th Eu Ed). apply entries_elem in Hin. split; [done|lia].
  - intros Et. destruct partial as [[k o]|]; [by rewrite (proj1 Ep) in Et|]. split; [apply Ep|].
    apply Forall_forall. intros o Ho. destruct (Hc o Ho) as [k Hk]. destruct (created_in_block k o Hk) as (-> & Hk1 & _).
    apply key_lt_max; [apply offer_key_ok|]. intros E. by rewrite E, Hmax in Hk1.
  - by destruct partial as [[k o]|]; rewrite (proj1 Ep).
Qed.

Lemma block_applied th :
  uncommitted_offers_vec th = snd <$> ot_entries (uncommitted_offers b) -> deleted_keys th = del ->
  match partial with
  | Some (k, o) => exists_partial_exec th = Some true /\ partial_exec_key th = k /\ partial_exec_amount th = FractionalAsset.ceil r
  | None => exists_partial_exec th = Some false /\ partial_exec_key th = max_key
  end -> apply_thunk (ot_map (committed_offers b)) th = ot_map (committed_offers b2).
Proof using All.
  intros Eu Ed Ep. rewrite (cb_map _ _ _ _ _ _ Hcb). unfold apply_thunk. destruct partial as [[k o]|]; [|by rewrite (proj1 Ep)].
  destruct Ep as (-> & Ek & Ea). rewrite (offered_block th Eu Ed). cbn [book_after].
  pose proof (sb_entries _ _ _ _ _ _ Hsp) as El. cbn [option_list app] in El.
  destruct (rest_nodup (committed_offers b1) low k o rest El) as (Hn & Hk & _).
  pose proof (ot_entries_sorted (committed_offers b1)) as Hs. pose proof (ot_entries_nodup (committed_offers b1)) as Hnd.
  assert (Ekeep : keep (fun j => key_lt j (partial_exec_key th) = false) (ot_map (committed_offers b1)) = <[k := o]> (list_to_map rest)).
  { assert (E1 : (list_to_map (option_list (Some (k, o))) : gmap key Offer) = {[k := o]}) by done.
    rewrite Ek, <- map_of_entries, El in *. apply map_eq. intros j. rewrite keep_lookup, !list_to_map_app, E1, !lookup_union.
    assert (Hlow : forall x, (list_to_map low : gmap key Offer) !! j = Some x -> key_lt j k = true).
    { intros x Hx. apply elem_of_list_to_map_2 in Hx. unfold key_lt.
      pose proof (sorted_app_lt low rest (j, x) (k, o) Hs Hnd Hx) as Hlt. cbn [fst] in Hlt. by rewrite Hlt. }
    assert (Hrest : forall x, (list_to_map rest : gmap key Offer) !! j = Some x -> key_lt j k = false).
    { intros x Hx. apply elem_of_list_to_map_2 in Hx. apply StronglySorted_app_1_r in Hs. inversion_clear Hs as [|? ? _ Hall].
      rewrite Forall_forall in Hall. apply key_lt_false. by apply (Hall (j, x)). }
    destruct (decide (j = k)) as [->|Hne].
    - rewrite key_lt_irrefl, decide_True, lookup_insert_eq by done. destruct (list_to_map low !! k) eqn:E.
      + specialize (Hlow _ eq_refl). by rewrite key_lt_irrefl in Hlow.
      + rewrite lookup_singleton_eq. by destruct (list_to_map rest !! k).
    - rewrite lookup_insert_ne, lookup_singleton_ne by done.
      destruct (list_to_map low !! j) eqn:Elow, (list_to_map rest !! j) eqn:Erest;
        try specialize (Hlow _ eq_refl); try specialize (Hrest _ eq_refl); try congruence;
        [rewrite decide_False by congruence|rewrite decide_True by done|by case_decide]; done. }
  rewrite Ekeep. apply map_eq. intros j. rewrite reduce_lookup, Ek. unfold left_over, left_of. rewrite Ea.
  destruct (decide (j = k)) as [->|Hne].
  - rewrite lookup_insert_eq. cbn [mbind option_bind]. destruct (0 <? _); [by rewrite lookup_insert_eq|].
    symmetry. by apply not_elem_of_list_to_map_1.
  - rewrite lookup_insert_ne by done. destruct (0 <? _); [by rewrite lookup_insert_ne|done].
Qed.
End Block.

Section Steps.
Context {D : Type} `{ClearingDBLaws D} {LG : Type} `{SerialAccountModificationLog LG}.

(** What the caller of a block guarantees: new offers under their keys, well
    formed offers, and none with the largest key. *)
Definition block_start (b b1 : Book) : Prop :=
  new_offers_ok b /\ offers_wf (book_category b1) (ot_entries (committed_offers b1)) /\
  ot_map (committed_offers b1) !! max_key = None.

(** What happens to an orderbook: transactions create and cancel offers, and
    blocks are produced or validated. *)
Inductive book_step : Book -> Book -> Prop :=
| step_add_offers b tr : book_step b (add_offers b tr)
| step_mark b k : book_step b (mark_for_deletion b k).1
| step_unmark b k : book_step b (unmark_for_deletion b k).1
| step_produced b b1 b2 blk S prices t (q q' : D * LG) c c' stats stats' :
    block_start b b1 -> in_u128 S -> commit_for_production b blk = Ok b1 ->
    process_clear_offers b1 (mkOrderbookClearingParams S) prices t q c stats = Ok (b2, q', c', stats') -> book_step b b2
| step_validated b b1 b2 blk (q : D * LG) act c checker stats s :
    block_start b b1 -> 0 <= partialExecOfferActivationAmount c < 2 ^ 73 ->
    tentative_commit_for_validation b blk = Ok b1 ->
    tentative_clear_offers_for_validation b1 q act c checker stats = Ok (s, true) ->
    finalize_validation (cl_book s) = Ok b2 -> book_step b b2.

(** The thunks lead from the offers in the database to those in memory. *)
Definition behind m (b : Book) : Prop := thunks_ok m (thunks b) /\ foldl apply_thunk m (thunks b) = ot_map (committed_offers b).

Lemma thunks_ok_snoc m ths th : thunks_ok m ths -> thunk_ok (foldl apply_thunk m ths) th -> thunks_ok m (ths ++ [th]).
Proof.
  revert m. induction ths as [|th' ths IH]; intros m; cbn [app thunks_ok foldl]; [by split|]. intros [T Ts] Hth. split; [done|by apply IH].
Qed.

Lemma accepted_cleared (b : Book) (q : D * LG) act c checker stats s :
  offers_wf (book_category b) (ot_entries (committed_offers b)) -> thunks b <> [] ->
  0 <= partialExecOfferActivationAmount c < 2 ^ 73 ->
  tentative_clear_offers_for_validation b q act c checker stats = Ok (s, true) ->
  exists S low partial rest r, split_by S (ot_entries (committed_offers b)) low partial rest r /\
    cleared_book b (cl_book s) low partial rest r.
Proof.
  intros Hwf Hne Hact Hv. destruct (accepted_spec b q act c checker stats s Hwf Hact Hv) as (sp & bp & low & partial & rest & r & Esp & Ebp & Hac).
  destruct (last (thunks b)) as [th|] eqn:Eth; [|by apply last_None in Eth].
  destruct (validation_spec b th _ sp bp c act stats q low partial rest r checker (ac_commits _ _ _ _ _ _ _ _ _ Hac) Hwf
    (ac_split _ _ _ _ _ _ _ _ _ Hac)) as (s' & Es & Hbk & _); try (by apply Hac); [done..|].
  rewrite Hv in Es. injection Es as <-. exists (offers_endow low * 2 ^ 10 + r), low, partial, rest, r. split; [apply Hac|done].
Qed.

Lemma behind_block m (b b1 b2 : Book) blk S low partial rest r :
  block_start b b1 -> (exists b1', tentative_commit_for_validation b blk = Ok b1' /\ committed_offers b1 = committed_offers b1' /\
    thunks b1 = thunks b1' /\ book_category b1 = book_category b1' /\ uncommitted_offers b1 = uncommitted_offers b1' /\
    persisted_round_number b1 = persisted_round_number b1') ->
  split_by S (ot_entries (committed_offers b1)) low partial rest r -> cleared_book b1 b2 low partial rest r ->
  behind m b -> behind m b2.
Proof.
  intros (Hnew & Hwf & Hmax) (b1' & Hc & E1 & E2 & E3 & E4 & E5) Hsp Hcb [T E].
  destruct (tentative_commit_spec b b1' blk Hnew Hc) as [del Hck'].
  assert (Hck : committed_block b b1 blk del) by (destruct Hck'; constructor; congruence).
  destruct (block_thunk b b1 b2 blk S r del low rest partial Hck Hsp Hcb) as (th & Ets & _ & Eu & Ed & Ep).
  unfold behind. rewrite Ets, foldl_app, E. cbn [foldl]. split.
  - apply thunks_ok_snoc; [done|]. rewrite E. by apply (block_thunk_ok b b1 b2 blk S r del low rest partial).
  - by apply (block_applied b b1 b2 blk S r del low rest partial).
Qed.

Lemma behind_step m (b b' : Book) : book_step b b' -> behind m b -> behind m b'.
Proof.
  intros Hs Hb. destruct Hs as [b tr|b k|b k|b b1 b2 blk S prices t q q' c c' stats stats' Hst HS Hc Hp|b b1 b2 blk q act c checker stats s Hst Hact Hc Hv Hf].
  - exact Hb.
  - unfold mark_for_deletion. pose proof (ot_mark_map (committed_offers b) k) as E.
    destruct (ot_mark_for_deletion _ k) as [tr o]. cbn [fst] in *. destruct Hb as [T Eb]. split; [done|]. cbn. by rewrite E.
  - unfold unmark_for_deletion. pose proof (ot_unmark_map (committed_offers b) k) as E.
    destruct (ot_unmark_for_deletion _ k) as [tr o]. cbn [fst] in *. destruct Hb as [T Eb]. split; [done|]. cbn. by rewrite E.
  - destruct (production_spec b1 b2 S prices t q q' c c' stats stats' (offers_wf_positive _ _ (proj1 (proj2 Hst))) HS Hp)
      as (sp & bp & low & partial & rest & r & _ & _ & Hpr).
    apply result_bind_Ok in Hc as (b1' & Hc & [= <-]).
    apply (behind_block m b (generate_metadata_index b1') b2 blk S low partial rest r); try done; [by exists b1'|apply Hpr|apply Hpr].
  - destruct (tentative_commit_spec b b1 blk (proj1 Hst) Hc) as [del Hck].
    destruct (accepted_cleared b1 q act c checker stats s (proj1 (proj2 Hst))) as (S & low & partial & rest & r & Hsp & Hcb);
      [|done|done|].
    { rewrite (ck_thunks _ _ _ _ Hck). by destruct (thunks b). }
    assert (Hb2 : behind m (cl_book s)) by (apply (behind_block m b b1 _ blk S low partial rest r); try done; by exists b1).
    unfold finalize_validation in Hf. destruct (negb _); [done|]. injection Hf as <-. destruct Hb2 as [T Eb]. split; [done|].
    cbn [set_committed_offers committed_offers thunks]. by rewrite ot_clear_rollback_map.
Qed.

Lemma take_all (l : list Thunk) blk :
  Forall (fun th => Orderbook.current_block_number th <= blk) l -> take_thunks l blk = (l, []).
Proof.
  intros Hl. unfold take_thunks. f_equal.
  - apply filter_keep. rewrite Forall_forall in Hl. exact Hl.
  - induction Hl as [|th l Hth Hl IH]; [done|]. rewrite filter_cons_False by tauto. exact IH.
Qed.
End Steps.
End Persist.

(** ** A database that is its map *)
Module MapDbi.
Definition keys (m : gmap key Offer) : list key := (MapTrie.entries m).*1.

Lemma keys_elem m k : k ∈ keys m <-> is_Some (m !! k).
Proof.
  unfold keys. rewrite list_elem_of_fmap. split.
  - intros ([k' o] & -> & Hp). unfold MapTrie.entries in Hp. rewrite merge_sort_Permutation in Hp.
    apply elem_of_map_to_list in Hp. by exists o.
  - intros [o Ho]. exists (k, o). split; [done|]. unfold MapTrie.entries. rewrite merge_sort_Permutation. by apply elem_of_map_to_list.
Qed.

Lemma keys_sorted m : StronglySorted (fun a b => key_lt b a = false) (keys m).
Proof.
  unfold keys. assert (Hs : StronglySorted key_le (MapTrie.entries m)) by (apply StronglySorted_merge_sort; apply _).
  induction Hs as [|p l Hs IH Hall]; [constructor|]. cbn [fmap list_fmap]. constructor; [exact IH|].
  apply Forall_fmap. eapply Forall_impl; [exact Hall|]. intros q Hq. by apply key_lt_false.
Qed.

Definition below (k : key) (j : key) : bool := key_lt j k.
Definition last_of (l : list key) : option key := last l.

Lemma filter_sorted (f : key -> bool) l :
  StronglySorted (fun a b => key_lt b a = false) l -> StronglySorted (fun a b => key_lt b a = false) (List.filter f l).
Proof.
  induction 1 as [|k l Hs IH Hall]; [constructor|]. cbn [List.filter]. destruct (f k); [|done]. constructor; [done|].
  rewrite Forall_forall in *. intros x [Hx _]%list_elem_of_In%List.filter_In. by apply Hall, list_elem_of_In.
Qed.

Lemma filter_elem (f : key -> bool) l k : k ∈ List.filter f l <-> k ∈ l /\ f k = true.
Proof. by rewrite !list_elem_of_In, List.filter_In. Qed.

Lemma last_max l k : StronglySorted (fun a b => key_lt b a = false) l -> last l = Some k ->
  k ∈ l /\ forall j, j ∈ l -> key_lt k j = false.
Proof.
  intros Hs Hl. apply last_Some in Hl as [l' ->]. split; [apply elem_of_app; right; by left|].
  intros j [Hj| ->%list_elem_of_singleton]%elem_of_app; [|apply key_lt_irrefl].
  by apply (StronglySorted_app_1_elem_of _ l' [k] j k Hs); [|left].
Qed.

Lemma head_min l k : StronglySorted (fun a b => key_lt b a = false) l -> head l = Some k ->
  k ∈ l /\ forall j, j ∈ l -> key_lt j k = false.
Proof.
  intros Hs Hl. destruct l as [|k' l]; [done|]. injection Hl as ->. inversion_clear Hs as [|? ? _ Hall]. split; [by left|].
  intros j [->|Hj]%elem_of_cons; [apply key_lt_irrefl|]. rewrite Forall_forall in Hall. by apply Hall.
Qed.

#[global] Program Instance dbi : OrderbookDbi (gmap key Offer) := {
  dbi_map m := m;
  dbi_get m k := m !! k;
  dbi_put m k o := <[k := o]> m;
  dbi_del m k := (delete k m, bool_decide (is_Some (m !! k)));
  cursor_set_range m k := head (List.filter (fun j => negb (key_lt j k)) (keys m));
  cursor_last m := last (keys m);
  cursor_prev m k := last (List.filter (below k) (keys m))
}.
Next Obligation. done. Qed.
Next Obligation. done. Qed.
Next Obligation. done. Qed.
Next Obligation. done. Qed.
Next Obligation.
  intros m k k' Hh. destruct (head_min _ _ (filter_sorted _ _ (keys_sorted m)) Hh) as [Hin Hmin].
  apply filter_elem in Hin as [Hk Hge]. split; [by apply keys_elem|]. split; [by destruct (key_lt k' k)|].
  intros j Hj Hlt. destruct (key_lt j k) eqn:E; [done|]. rewrite (Hmin j) in Hlt; [done|].
  apply filter_elem. split; [by apply keys_elem|]. by rewrite E.
Qed.
Next Obligation.
  intros m k Hh j Hj%keys_elem. destruct (key_lt j k) eqn:E; [done|]. apply head_None in Hh.
  assert (Hin : j ∈ List.filter (fun j => negb (key_lt j k)) (keys m)) by (apply filter_elem; by rewrite E).
  rewrite Hh in Hin. by apply not_elem_of_nil in Hin.
Qed.
Next Obligation.
  intros m k Hl. destruct (last_max _ _ (keys_sorted m) Hl) as [Hin Hmax]. split; [by apply keys_elem|].
  intros j Hj. by apply Hmax, keys_elem.
Qed.
Next Obligation.
  intros m Hl. apply last_None in Hl. apply map_eq. intros k. rewrite lookup_empty. destruct (m !! k) eqn:E; [|done].
  assert (Hk : k ∈ keys m) by (apply keys_elem; by rewrite E). rewrite Hl in Hk. by apply not_elem_of_nil in Hk.
Qed.
Next Obligation.
  intros m k k' Hl. destruct (last_max _ _ (filter_sorted _ _ (keys_sorted m)) Hl) as [Hin Hmax].
  apply filter_elem in Hin as [Hk Hlt]. split; [by apply keys_elem|]. split; [done|].
  intros j Hj Hlt'. apply Hmax, filter_elem. split; [by apply keys_elem|done].
Qed.
Next Obligation.
  intros m k Hl j Hj%keys_elem. apply last_None in Hl. destruct (key_lt j k) eqn:E; [|done].
  assert (Hin : j ∈ List.filter (below k) (keys m)) by (by apply filter_elem). rewrite Hl in Hin. by apply not_elem_of_nil in Hin.
Qed.
End MapDbi.

Module PersistProps.
(** C9: after any history of an orderbook, the database holds its offers.
    Transactions create and cancel offers and blocks are produced or validated in
    any number since the last persisted round; [persist_lmdb] then writes, from
    the thunks alone, exactly the offers in memory, forgets the thunks, and does
    not throw.  The conditions are on the rounds that are written together: every
    thunk has a partially executed offer or none has, created offers have fresh keys,
    and no offer is cancelled in the batch that creates it ([batch_ok]; with such a
    cancellation the database loses or keeps an offer wrongly, as
    [batch_loses_created_offer] shows). *)
Theorem persisted_orderbook_is_memory {TR} `{OfferTrieIndex TR} `{BigEndian} {W} `{OrderbookDbi W} {D} `{ClearingDBLaws D}
    {LG} `{SerialAccountModificationLog LG} (b0 b : Orderbook.t (TR := TR)) (w : W) blk e :
  rtc (book_step (D := D) (LG := LG)) b0 b -> thunks b0 = [] ->
  dbi_map w = ot_map (committed_offers b0) -> map_Forall (fun k _ => key_ok k) (dbi_map w) ->
  batch_ok (dbi_map w) (thunks b) -> Forall (fun th => exists_partial_exec th = Some e) (thunks b) ->
  Forall (fun th => u64 (persisted_round_number b + 1) <= Orderbook.current_block_number th <= blk) (thunks b) ->
  exists b' w', persist_lmdb b blk w = Ok (b', w') /\ dbi_map w' = ot_map (committed_offers b) /\
    thunks b' = [] /\ committed_offers b' = committed_offers b.
Proof.
  intros Hrun Et Ew Hk B Hp Hblk. assert (Hb : behind (dbi_map w) b).
  { assert (H0b : behind (dbi_map w) b0) by (split; rewrite Et; done). clear Et Ew B Hp Hblk.
    induction Hrun as [|b0 b1 b Hs _ IH]; [done|]. by apply IH, (behind_step _ b0). }
  destruct Hb as [T E]. unfold persist_lmdb, write_thunks. rewrite take_all by (eapply Forall_impl; [exact Hblk|]; by intros th [_ ?]).
  destruct (write_relevant_spec (persisted_round_number b) (thunks b) e w Hk T B Hp) as (w' & -> & Ew').
  { eapply Forall_impl; [exact Hblk|]. by intros th [? _]. }
  exists (set_thunks b []), w'. split; [done|]. split; [by rewrite Ew', E|done].
Qed.
End PersistProps.
