(* ===== verification/BlockClearing.v ===== *)
(** * Clearing a whole block

    The two passes of the orderbook manager over all orderbooks, in whatever
    batches and order the parallel reductions run them: what a production pass
    does to every orderbook, that it pays out no asset beyond what the offers
    sold, and that a validation pass accepts its commitments. *)
From stdpp Require Import base gmap list strings sorting.
From S2P Require Import Prelude Types PriceArith Asset SeqTracker Accounts AccountLmdb Database Offers Clearing Demand DbView SerialManager Orderbook OrderbookProps Manager.

Section Blocks.
Context {TR : Type} `{OfferTrieIndex TR} `{BigEndian} {D : Type} `{ClearingDBLaws D}
  {LG : Type} `{SerialAccountModificationLog LG}.
Abbreviation Book := (Orderbook.t (TR := TR)).
Abbreviation Manager := (OrderbookManager (TR := TR)).
Abbreviation PState := (production_state (TR := TR) (D := D) (LG := LG)).
Abbreviation VState := (validation_state (TR := TR) (D := D) (LG := LG)).
Implicit Types (d : D).

(** Databases that know the same accounts. *)
Definition same_lookups d d' : Prop := forall id, cdb_lookup_user d' id = cdb_lookup_user d id.

(** ** One orderbook *)
Record cleared_one (params : ClearingParams) (prices : list Price) d (i : nat) (b b' : Book) c c' (pays : list payment)
    (e : execution) : Prop := mkClearedOne {
  c1_run : exists S sp bp q q' stats stats' low partial rest r,
    orderbook_params params !! i = Some (mkOrderbookClearingParams S) /\ in_u128 S /\ same_lookups d q.1 /\
    vec_at prices (sellAsset (book_category b)) = Ok sp /\ vec_at prices (buyAsset (book_category b)) = Ok bp /\
    production (LG := LG) b b' S sp bp (cp_tax_rate params) q q' c c' stats stats' low partial rest r /\
    pays = book_pays sp bp (cp_tax_rate params) low partial r /\
    e = mkExecution (snd <$> low) (default (mkOffer (book_category b) 0 0 0 0) (snd <$> partial)) r
}.

(** ** A pass over a list of orderbooks *)
Record cleared_all (params : ClearingParams) (prices : list Price) d (s s' : PState) (l : list nat)
    (pays : nat -> list payment) (execs : nat -> execution) : Prop := {
  cl_paid : (ps_db s').1 = foldl pay (ps_db s).1 (l ≫= pays);
  cl_each i : i ∈ l -> exists b b' c c', ps_books s !! i = Some b /\ ps_books s' !! i = Some b' /\
    ps_details s !! i = Some c /\ ps_details s' !! i = Some c' /\
    cleared_one params prices d i b b' c c' (pays i) (execs i);
  cl_other i : i ∉ l -> ps_books s' !! i = ps_books s !! i /\ ps_details s' !! i = ps_details s !! i
}.

Lemma cleared_all_nil params prices d s : cleared_all params prices d s s [] (fun _ => []) (fun _ => mkExecution [] (mkOffer (mkOfferCategory 0 0 SELL) 0 0 0 0) 0).
Proof. constructor; [done|by intros i ?%not_elem_of_nil|done]. Qed.

Lemma bind_ext_elem {A B} (f g : A -> list B) (l : list A) : (forall x, x ∈ l -> f x = g x) -> l ≫= f = l ≫= g.
Proof.
  induction l as [|x l IH]; intros Hfg; [done|]. cbn [mbind list_bind]. rewrite (Hfg x) by (by left).
  f_equal. apply IH. intros y Hy. apply Hfg. by right.
Qed.

Lemma cleared_all_app params prices d s s1 s2 l1 l2 p1 p2 e1 e2 :
  NoDup (l1 ++ l2) -> cleared_all params prices d s s1 l1 p1 e1 -> cleared_all params prices d s1 s2 l2 p2 e2 ->
  cleared_all params prices d s s2 (l1 ++ l2) (fun i => if decide (i ∈ l1) then p1 i else p2 i)
    (fun i => if decide (i ∈ l1) then e1 i else e2 i).
Proof.
  intros (N1 & Hd & N2)%NoDup_app [A1 A2 A3] [B1 B2 B3]. constructor.
  - rewrite B1, A1, bind_app, foldl_app. f_equal; [f_equal|].
    + apply bind_ext_elem. intros i Hi. by rewrite decide_True.
    + apply bind_ext_elem. intros i Hi. rewrite decide_False; [done|]. intros Hi'. by apply (Hd i).
  - intros i Hi. destruct (decide (i ∈ l1)) as [Hi1|Hi1].
    + destruct (A2 i Hi1) as (b & b' & c & c' & E1 & E2 & E3 & E4 & Hc). exists b, b', c, c'.
      destruct (B3 i (Hd i Hi1)) as [F1 F2]. by rewrite F1, F2.
    + apply elem_of_app in Hi as [|Hi]; [done|]. destruct (B2 i Hi) as (b & b' & c & c' & E1 & E2 & E3 & E4 & Hc).
      destruct (A3 i Hi1) as [F1 F2]. exists b, b', c, c'. by rewrite <- F1, <- F2.
  - intros i [Hi1 Hi2]%not_elem_of_app. destruct (A3 i Hi1), (B3 i Hi2). split; congruence.
Qed.

(** What a pass needs of the orderbooks and parameters it starts from. *)
Definition books_ready (params : ClearingParams) (books : list Book) (l : list nat) : Prop :=
  forall i b p, i ∈ l -> books !! i = Some b -> orderbook_params params !! i = Some p ->
    book_positive (ot_entries (committed_offers b)) /\ in_u128 (supply_activated p).

Lemma vec_at_nat {A} (l : list A) (i : nat) a : vec_at l (Z.of_nat i) = Ok a <-> l !! i = Some a.
Proof. rewrite vec_at_Ok, Nat2Z.id. split; [tauto|]. intros ?. split; [done|lia]. Qed.

Lemma books_ready_insert params (books : list Book) i b l :
  i ∉ l -> books_ready params books l -> books_ready params (<[i := b]> books) l.
Proof. intros Hi Hr j b' p Hj Hb. rewrite list_lookup_insert_ne in Hb by (by intros ->). by apply Hr. Qed.

Lemma production_range_spec params prices d (s s' : PState) l :
  NoDup l -> books_ready params (ps_books s) l -> same_lookups d (ps_db s).1 ->
  production_range params prices s l = Ok s' ->
  exists pays execs, cleared_all params prices d s s' l pays execs.
Proof.
  revert s. induction l as [|i l IH]; intros s Hn Hr Hl Hrun; cbn [production_range] in Hrun.
  - injection Hrun as <-. do 2 eexists. apply cleared_all_nil.
  - apply NoDup_cons in Hn as [Hi Hn].
    apply result_bind_Ok in Hrun as (b & Eb%vec_at_nat & Hrun). apply result_bind_Ok in Hrun as ([S] & Ep%vec_at_nat & Hrun).
    apply result_bind_Ok in Hrun as (c & Ec%vec_at_nat & Hrun). apply result_bind_Ok in Hrun as ([[[b' q'] c'] st'] & Eq & Hrun).
    cbn [fst snd] in Hrun. destruct (Hr i b _ ltac:(by left) Eb Ep) as [Hb HS]. cbn [supply_activated] in HS.
    destruct (production_spec _ _ _ _ _ _ _ _ _ _ _ Hb HS Eq) as (sp & bp & low & partial & rest & r & Esp & Ebp & Hpr).
    pose proof (production_pays _ _ _ _ _ _ _ _ _ _ _ _ _ _ _ _ Hpr) as Epay.
    set (s1 := mkProduction _ _ _ _) in Hrun.
    destruct (IH s1) as (pays & execs & Hall); [done|..|done|].
    { unfold s1. cbn [ps_books]. apply books_ready_insert; [done|]. intros j b2 p Hj. apply Hr. by right. }
    { unfold s1, same_lookups. cbn [ps_db]. intros id. by rewrite Epay, pays_lookup. }
    do 2 eexists. change (i :: l) with ([i] ++ l). eapply cleared_all_app; [|clear Hall|exact Hall].
    { apply NoDup_cons. by split. }
    apply (Build_cleared_all _ _ _ _ _ _ (fun _ => book_pays sp bp (cp_tax_rate params) low partial r)
      (fun _ => mkExecution (snd <$> low) (default (mkOffer (book_category b) 0 0 0 0) (snd <$> partial)) r)).
    + cbn [mbind list_bind]. by rewrite app_nil_r.
    + intros j ->%list_elem_of_singleton. exists b, b', c, c'. unfold s1. cbn [ps_books ps_details].
      split; [done|]. split; [apply list_lookup_insert_eq; by eapply lookup_lt_Some|]. split; [done|].
      split; [apply list_lookup_insert_eq; by eapply lookup_lt_Some|]. constructor.
      exists S, sp, bp, (ps_db s), q', (ps_stats s), st', low, partial, rest, r. by split_and!.
    + intros j Hj. rewrite list_elem_of_singleton in Hj. unfold s1. cbn [ps_books ps_details].
      by rewrite !list_lookup_insert_ne.
Qed.

Lemma books_ready_other params prices d (s s' : PState) l1 l2 pays execs :
  NoDup (l1 ++ l2) -> cleared_all params prices d s s' l1 pays execs ->
  books_ready params (ps_books s) (l1 ++ l2) -> books_ready params (ps_books s') l2.
Proof.
  intros (_ & Hd & _)%NoDup_app [_ _ Ho] Hr i b p Hi Hb.
  rewrite (proj1 (Ho i (fun Hi' => Hd i Hi' Hi))) in Hb. apply Hr; [|done]. apply elem_of_app. by right.
Qed.

Lemma production_batches_spec params prices d (s s' : PState) batches :
  NoDup (concat batches) -> books_ready params (ps_books s) (concat batches) -> same_lookups d (ps_db s).1 ->
  production_batches params prices s batches = Ok s' ->
  exists pays execs, cleared_all params prices d s s' (concat batches) pays execs.
Proof.
  revert s. induction batches as [|l batches IH]; intros s Hn Hr Hl Hrun; cbn [production_batches concat] in *.
  - injection Hrun as <-. do 2 eexists. apply cleared_all_nil.
  - apply result_bind_Ok in Hrun as (s1 & E1 & Hrun).
    destruct (production_range_spec params prices d (mkProduction (ps_books s) (ps_db s) (ps_details s) zero_stats) s1 l)
      as (p1 & e1 & A1); [by apply NoDup_app in Hn as (? & _)| |done|done|].
    { intros i b p Hi. apply Hr. apply elem_of_app. by left. }
    assert (A1' : cleared_all params prices d s s1 l p1 e1) by (by destruct A1; constructor).
    destruct (IH (mkProduction (ps_books s1) (ps_db s1) (ps_details s1) (stats_add (ps_stats s) (ps_stats s1))))
      as (p2 & e2 & A2); [by apply NoDup_app in Hn as (_ & _ & ?)| | |done|].
    { eapply (books_ready_other _ _ _ s s1); [exact Hn|exact A1'|exact Hr]. }
    { unfold same_lookups. cbn [ps_db]. intros id. by rewrite (cl_paid _ _ _ _ _ _ _ _ A1'), pays_lookup. }
    do 2 eexists. eapply cleared_all_app; [exact Hn|exact A1'|]. destruct A2 as [B1 B2 B3]. by constructor.
Qed.

(** ** The amounts *)

(** The units of asset [a] a list of payments credits. *)
Definition paid_in (a : Z) (l : list payment) : Z := sum_by (fun p => if pay_in p =? a then pay_units p else 0) l.
(** The units of asset [a] on offer. *)
Definition on_offer (a : Z) (books : list Book) : Z :=
  sum_by (fun b => if sellAsset (book_category b) =? a then offers_endow (ot_entries (committed_offers b)) else 0) books.

Lemma paid_in_app a l l' : paid_in a (l ++ l') = paid_in a l + paid_in a l'.
Proof. apply sum_by_app. Qed.

Lemma paid_in_bind a (l : list nat) (f : nat -> list payment) : paid_in a (l ≫= f) = sum_by (fun i => paid_in a (f i)) l.
Proof.
  induction l as [|i l IH]; [done|]. cbn [mbind list_bind]. by rewrite paid_in_app, sum_by_cons, <- IH.
Qed.

(** *** One orderbook *)
Lemma endow_of_map (tr : TR) (l : list (key * Offer)) :
  NoDup l.*1 -> ot_map tr = list_to_map l -> offers_endow (ot_entries tr) = offers_endow l.
Proof.
  intros Hn Em. unfold offers_endow. apply sum_by_Permutation. by rewrite ot_entries_map, Em, map_to_list_to_map.
Qed.

(** What leaves the orderbook is what the executed offers sold. *)
Lemma cleared_endow (b b' : Book) low partial rest r S :
  book_positive (ot_entries (committed_offers b)) -> split_by S (ot_entries (committed_offers b)) low partial rest r ->
  cleared_book b b' low partial rest r ->
  offers_endow (ot_entries (committed_offers b)) - offers_endow (ot_entries (committed_offers b')) =
    offers_endow low + (if partial then FractionalAsset.ceil r else 0).
Proof.
  intros Hb Hsp Hc. pose proof Hsp as [El Hnone _ Hr _]. pose proof (cb_map _ _ _ _ _ _ Hc) as Em.
  destruct partial as [[k o]|]; cbn [option_list app book_after] in *.
  - destruct (split_by_partial _ _ _ _ _ _ _ Hb Hsp) as [Ho Hceil].
    destruct (rest_nodup (committed_offers b) low k o rest El) as (Hn & Hk & _). rewrite El, offers_endow_app.
    change (option_list (Some (k, o)) ++ rest) with ((k, o) :: rest). rewrite offers_endow_cons.
    unfold left_over in Em. cbn [snd]. destruct (Z.ltb_spec 0 (amount o - FractionalAsset.ceil r)).
    + rewrite (endow_of_map _ ((k, set_amount o (amount o - FractionalAsset.ceil r)) :: rest)); [|by apply NoDup_cons|done].
      rewrite offers_endow_cons. cbn [snd set_amount amount]. lia.
    + rewrite (endow_of_map _ rest) by done. lia.
  - destruct (Hnone eq_refl) as [-> ->]. rewrite El, !offers_endow_app, (endow_of_map _ []) by (done || constructor).
    change (offers_endow (option_list None)) with 0. change (offers_endow []) with 0. lia.
Qed.

Lemma cleared_one_amounts params prices d i (b b' : Book) c c' pays e a :
  offers_wf (book_category b) (ot_entries (committed_offers b)) -> prices_ok prices -> 0 <= cp_tax_rate params < 128 ->
  in_prices prices (book_category b) ->
  cleared_one params prices d i b b' c c' pays e ->
  execution_ok (book_category b) e /\ book_category b' = book_category b /\
  orderbook_params params !! i = Some (mkOrderbookClearingParams (executed e)) /\
  paid_in a pays = paid prices (cp_tax_rate params) a (book_category b) e /\
  offers_endow (ot_entries (committed_offers b)) - offers_endow (ot_entries (committed_offers b')) =
    sold prices (cp_tax_rate params) (book_category b) e.
Proof.
  intros Hwf Hp Ht Hin [(S & sp & bp & q & q' & stats & stats' & low & partial & rest & r & EP & HS & Hl & Esp & Ebp & Hpr & -> & ->)].
  pose proof (offers_wf_positive _ _ Hwf) as Hb. pose proof (po_split _ _ _ _ _ _ _ _ _ _ _ _ _ _ _ _ Hpr) as Hsp.
  pose proof (po_book _ _ _ _ _ _ _ _ _ _ _ _ _ _ _ _ Hpr) as Hbk. pose proof Hsp as [El Hnone ES Hr Hfit].
  destruct (offers_endow_bounds _ low (option_list partial ++ rest) Hb El) as [Blow Bl].
  rewrite vec_at_price in Esp, Ebp by (unfold in_prices in Hin; lia). injection Esp as <-. injection Ebp as <-.
  assert (Hlow : Forall (fun o => category o = book_category b /\ 0 < amount o < 2 ^ 63) (snd <$> low)).
  { apply Forall_forall. intros o (p & -> & Hp')%list_elem_of_fmap. destruct Hwf as [Hwf _]. rewrite Forall_forall in Hwf.
    destruct (Hwf p) as (_ & Ec & Hpos & _); [rewrite El; apply elem_of_app; by left|]. split; [done|]. split; [done|].
    assert (Hle : amount p.2 <= offers_endow low); [|lia].
    apply (sum_by_elem_le (fun p : key * Offer => amount p.2)); [|done]. apply Forall_forall. intros p2 Hp2.
    destruct (Hwf p2) as (_ & _ & ? & _); [rewrite El; apply elem_of_app; by left|]. lia. }
  assert (Hpart : forall p, partial = Some p -> category p.2 = book_category b).
  { intros p ->. destruct Hwf as [Hwf _]. rewrite Forall_forall in Hwf. apply (Hwf p). rewrite El. set_solver. }
  assert (Hr' : r <= (2 ^ 63 - 1) * 2 ^ 10 /\ 0 <= FractionalAsset.ceil r < 2 ^ 63).
  { destruct partial as [[k o]|]; [|destruct (Hnone eq_refl) as [_ ->]; split; [lia|vm_compute; split; [discriminate|reflexivity]]].
    destruct (split_by_partial _ _ _ _ _ _ _ Hb Hsp) as [Ho Hceil]. specialize (Hfit k o eq_refl). split; lia. }
  assert (Hok : execution_ok (book_category b)
    (mkExecution (snd <$> low) (default (mkOffer (book_category b) 0 0 0 0) (snd <$> partial)) r)).
  { constructor; cbn [cleared partial_offer partial_raw]; [done| |lia]. destruct partial as [p|]; [|done]. cbn. by apply Hpart. }
  assert (Hsum : sum_by amount (snd <$> low) = offers_endow low) by apply sum_by_fmap.
  split; [exact Hok|]. split; [apply (cb_category _ _ _ _ _ _ Hbk)|]. split; [|split].
  - rewrite EP. do 2 f_equal. unfold executed. rewrite (fully_cleared_amounts _ _ Hok). cbn [cleared partial_raw]. rewrite Hsum. lia.
  - unfold book_pays, paid. rewrite paid_in_app. cbn [cleared partial_offer partial_raw]. f_equal.
    + unfold paid_in, full_payments. rewrite !sum_by_fmap. apply sum_by_ext, Forall_forall. done.
    + destruct partial as [[k o]|].
      * unfold paid_in. change (option_list _) with [partial_payment (price_at prices (sellAsset (book_category b)))
          (price_at prices (buyAsset (book_category b))) (cp_tax_rate params) r o]. rewrite sum_by_cons, sum_by_nil, Z.add_0_r. done.
      * destruct (Hnone eq_refl) as [_ ->]. unfold paid_in, clear_offer_partial, credit. change (option_list _) with (@nil payment). rewrite sum_by_nil.
        cbn [fst]. pose proof (price_at_valid prices Hp (sellAsset (book_category b)) (proj1 Hin)).
        pose proof (price_at_valid prices Hp (buyAsset (book_category b)) (proj2 Hin)).
        rewrite Price.wide_multiply_exact, Z.mul_0_l, Zdiv_0_l by lia. change (FractionalAsset.from_raw 0) with 0.
        pose proof (FractionalAsset.tax_and_round_bounds 0 (cp_tax_rate params) ltac:(lia) Ht) as Hb0.
        change (0 / 2 ^ 10) with 0 in Hb0. replace (FractionalAsset.tax_and_round 0 (cp_tax_rate params)) with 0 by lia.
        by destruct (_ =? a).
  - rewrite (cleared_endow b b' low partial rest r S Hb Hsp Hbk). unfold sold, clear_offer_partial. cbn [fst snd cleared partial_raw].
    rewrite Hsum, i64_id by (unfold in_i64; lia). destruct partial as [p|]; [done|]. by destruct (Hnone eq_refl) as [_ ->].
Qed.

Lemma book_sum_seq {A} (f : OfferCategory -> A -> Z) (g : nat -> A) n k N :
  book_sum f n (Z.of_nat k) (g <$> seq k N) = sum_by (fun i => f (Category.category_from_idx (Z.of_nat i) n) (g i)) (seq k N).
Proof.
  revert k. induction N as [|N IH]; intros k; [done|]. cbn [seq fmap list_fmap book_sum]. rewrite sum_by_cons. f_equal.
  rewrite <- IH. f_equal. lia.
Qed.

(** What the caller of a production pass provides. *)
Record production_ready (m : Manager) (params : ClearingParams) (prices : list Price) (batches : list (list nat)) : Prop := {
  pr_manager : manager_wf m;
  pr_assets : 2 <= num_assets m;
  pr_prices : num_assets m = Z.of_nat (length prices);
  pr_valid : prices_ok prices;
  pr_tax : 0 <= cp_tax_rate params < 128;
  pr_params : length (orderbook_params params) = length (orderbooks m);
  pr_supply : Forall (fun p => in_u128 (supply_activated p)) (orderbook_params params);
  pr_offers b : b ∈ orderbooks m -> offers_wf (book_category b) (ot_entries (committed_offers b));
  pr_batches : concat batches ≡ₚ seq 0 (length (orderbooks m))
}.

Lemma book_in_prices (m : Manager) params prices batches i b :
  production_ready m params prices batches -> orderbooks m !! i = Some b ->
  book_category b = Category.category_from_idx (Z.of_nat i) (num_assets m) /\ in_prices prices (book_category b).
Proof.
  intros R Hb. pose proof (mw_category _ (pr_manager _ _ _ _ R) _ _ Hb) as Ecat. split; [done|]. rewrite Ecat.
  pose proof (lookup_lt_Some _ _ _ Hb). pose proof (mw_length _ (pr_manager _ _ _ _ R)). pose proof (mw_assets _ (pr_manager _ _ _ _ R)).
  pose proof (pr_assets _ _ _ _ R). pose proof (pr_prices _ _ _ _ R).
  destruct (category_from_idx_bounds (num_assets m) (Z.of_nat i)) as (? & ? & _); [lia|lia|]. unfold in_prices. lia.
Qed.

(** A pass leaves lists of the length it found. *)
Lemma length_kept {A} (l l' : list A) (v : list nat) :
  (forall i, i ∈ v -> is_Some (l !! i) /\ is_Some (l' !! i)) -> (forall i, i ∉ v -> l' !! i = l !! i) -> length l' = length l.
Proof.
  intros Hin Hout. assert (Hs : forall i, is_Some (l' !! i) <-> is_Some (l !! i)).
  { intros i. destruct (decide (i ∈ v)) as [Hi|Hi]; [by destruct (Hin i Hi)|by rewrite Hout]. }
  setoid_rewrite lookup_lt_is_Some in Hs. apply Nat.le_antisymm; apply Nat.le_ngt; intros Hlt; apply Hs in Hlt; lia.
Qed.

(** The pass over all orderbooks. *)
Lemma production_pass_spec (m m' : Manager) params prices (q : D * LG) details stats batches s :
  production_ready m params prices batches ->
  clear_offers_for_production m params prices q details stats batches = Ok (m', s) ->
  exists pays execs, (ps_db s).1 = foldl pay q.1 (concat batches ≫= pays) /\
    length (orderbooks m') = length (orderbooks m) /\ length (ps_details s) = length (orderbooks m) /\
    forall i, (i < length (orderbooks m))%nat -> exists b b' c c', orderbooks m !! i = Some b /\
      orderbooks m' !! i = Some b' /\ ps_details s !! i = Some c' /\
      cleared_one params prices q.1 i b b' c c' (pays i) (execs i).
Proof.
  intros R Hrun. pose proof (pr_batches _ _ _ _ R) as Hperm. set (N := length (orderbooks m)) in *.
  assert (Hnd : NoDup (concat batches)) by (rewrite Hperm; apply NoDup_seq).
  apply result_bind_Ok in Hrun as (s' & Hrun & [= <- <-]).
  destruct (production_batches_spec params prices q.1 (mkProduction (orderbooks m) q (resize details N) stats) s' batches Hnd)
    as (pays & execs & [Cp Ce Co]); [|by intros id|exact Hrun|].
  { intros i b p _ Hb Hpi. split; [by eapply offers_wf_positive, (pr_offers _ _ _ _ R), list_elem_of_lookup_2|].
    by apply (Forall_lookup_1 _ _ _ _ (pr_supply _ _ _ _ R) Hpi). }
  cbn [ps_db ps_books ps_details set_orderbooks orderbooks] in *. exists pays, execs. split; [exact Cp|].
  split; [|split].
  - apply (length_kept (orderbooks m) (ps_books s') (concat batches)); [|apply Co].
    intros i Hi. destruct (Ce i Hi) as (b & b' & c & c' & -> & -> & _). by split.
  - transitivity (length (resize details N)); [|apply length_resize].
    apply (length_kept _ (ps_details s') (concat batches)); [|apply Co].
    intros i Hi. destruct (Ce i Hi) as (b & b' & c & c' & _ & _ & -> & -> & _). by split.
  - intros i Hi. destruct (Ce i) as (b & b' & c & c' & Eb & Eb' & _ & Ec' & Hc); [rewrite Hperm; apply elem_of_seq; lia|].
    by exists b, b', c, c'.
Qed.

(** The units of an asset in a pass, summed over the orderbooks. *)
Lemma pass_amounts (m m' : Manager) params prices (q : D * LG) (s : PState) batches pays execs a :
  production_ready m params prices batches -> length (orderbooks m') = length (orderbooks m) ->
  (forall i, (i < length (orderbooks m))%nat -> exists b b' c c', orderbooks m !! i = Some b /\
      orderbooks m' !! i = Some b' /\ ps_details s !! i = Some c' /\
      cleared_one params prices q.1 i b b' c c' (pays i) (execs i)) ->
  paid_in a (concat batches ≫= pays) =
    sum_by (fun i => paid prices (cp_tax_rate params) a (Category.category_from_idx (Z.of_nat i) (num_assets m)) (execs i))
      (seq 0 (length (orderbooks m))) /\
  on_offer a (orderbooks m) - on_offer a (orderbooks m') =
    sum_by (fun i => sold_of prices (cp_tax_rate params) a (Category.category_from_idx (Z.of_nat i) (num_assets m)) (execs i))
      (seq 0 (length (orderbooks m))).
Proof.
  intros R Hlen Hall. assert (Hone : forall i, i ∈ seq 0 (length (orderbooks m)) -> exists b b', orderbooks m !! i = Some b /\
    orderbooks m' !! i = Some b' /\ book_category b = Category.category_from_idx (Z.of_nat i) (num_assets m) /\
    book_category b' = book_category b /\
    paid_in a (pays i) = paid prices (cp_tax_rate params) a (book_category b) (execs i) /\
    offers_endow (ot_entries (committed_offers b)) - offers_endow (ot_entries (committed_offers b')) =
      sold prices (cp_tax_rate params) (book_category b) (execs i)).
  { intros i Hi%elem_of_seq. destruct (Hall i ltac:(lia)) as (b & b' & c & c' & Eb & Eb' & _ & Hc).
    destruct (book_in_prices m params prices batches i b R Eb) as [Ecat Hin].
    destruct (cleared_one_amounts params prices q.1 i b b' c c' (pays i) (execs i) a) as (_ & A2 & _ & A4 & A5); try done;
      try apply R; [by eapply list_elem_of_lookup_2|]. by exists b, b'. }
  split.
  - rewrite paid_in_bind, (pr_batches _ _ _ _ R). apply sum_by_ext, Forall_forall. intros i Hi.
    by destruct (Hone i Hi) as (b & b' & _ & _ & <- & _ & E & _).
  - unfold on_offer. rewrite (sum_by_lookup _ (orderbooks m)), (sum_by_lookup _ (orderbooks m')), Hlen.
    apply sum_by_sub. intros i Hi. destruct (Hone i Hi) as (b & b' & Eb & Eb' & Ecat & Ecat' & _ & E).
    rewrite Eb, Eb', Ecat', <- Ecat. unfold sold_of. destruct (_ =? a); [exact E|done].
Qed.

(** C8: producing a block creates no asset.  When the parameters pass
    [check_clearing], [clear_offers_for_production], in whatever batches and
    order it visits the orderbooks, changes the account database only by
    payments to owners of offers, and for every asset these payments and what is
    still on offer afterwards are at most what was on offer before. *)
Theorem block_production_conserves_assets (m m' : Manager) params prices (q : D * LG) details stats batches s :
  production_ready m params prices batches ->
  sum_by supply_activated (orderbook_params params) < 2 ^ 80 ->
  ClearingParams_check_clearing params prices = Ok true ->
  clear_offers_for_production m params prices q details stats batches = Ok (m', s) ->
  exists pays, (ps_db s).1 = foldl pay q.1 pays /\
    forall a, 0 <= a < num_assets m -> paid_in a pays + on_offer a (orderbooks m') <= on_offer a (orderbooks m).
Proof.
  intros R Hvol Hcheck Hrun. destruct (production_pass_spec m m' params prices q details stats batches s R Hrun)
    as (pays & execs & Cp & Elen & _ & Hall). exists (concat batches ≫= pays). split; [exact Cp|]. intros a Ha.
  set (L := execs <$> seq 0 (length (orderbooks m))).
  assert (HLk : forall k e, L !! k = Some e -> exists b, orderbooks m !! k = Some b /\ e = execs k /\ execution_ok (book_category b) e /\
    book_category b = Category.category_from_idx (Z.of_nat k) (num_assets m) /\
    orderbook_params params !! k = Some (mkOrderbookClearingParams (executed e))).
  { intros k e (x & -> & Hx)%list_lookup_fmap_Some. apply lookup_seq in Hx as [-> Hk]. rewrite Nat.add_0_l.
    destruct (Hall k Hk) as (b & b' & c & c' & Eb & _ & _ & Hc). destruct (book_in_prices m params prices batches k b R Eb) as [Ecat Hin].
    destruct (cleared_one_amounts params prices q.1 k b b' c c' (pays k) (execs k) 0) as (A1 & _ & A3 & _); try done;
      try apply R; [by eapply list_elem_of_lookup_2|]. by exists b. }
  assert (Eparams : executed <$> L = supply_activated <$> orderbook_params params).
  { apply list_eq_same_length with (n := length (orderbooks m)); [by rewrite length_fmap, (pr_params _ _ _ _ R)|by unfold L; rewrite !length_fmap, length_seq|].
    intros k x y _ (e & -> & He)%list_lookup_fmap_Some (p & -> & Hpk)%list_lookup_fmap_Some.
    destruct (HLk _ _ He) as (b & _ & _ & _ & _ & Epk). rewrite Epk in Hpk. by injection Hpk as <-. }
  destruct (pass_amounts m m' params prices q s batches pays execs a R Elen Hall) as [E1 E2].
  assert (Hc : paid_in a (concat batches ≫= pays) <= on_offer a (orderbooks m) - on_offer a (orderbooks m')); [|lia].
  rewrite E1, E2, <- !(book_sum_seq _ _ (num_assets m) 0). fold L.
  apply (clearing_conserves prices (cp_tax_rate params)); try apply R; try done.
  - pose proof (mw_assets _ (pr_manager _ _ _ _ R)). pose proof (pr_assets _ _ _ _ R). lia.
  - pose proof (mw_length _ (pr_manager _ _ _ _ R)). unfold L. rewrite length_fmap, length_seq. lia.
  - intros k e Hk. by destruct (HLk k e Hk) as (b & _ & _ & ? & <- & _).
  - change (sum_by executed L) with (sum_list_Z (executed <$> L)). by rewrite Eparams.
  - by rewrite Eparams.
Qed.
End Blocks.
