(* ===== verification/BlockAgreement.v ===== *)
(** * A validator clears the block a producer cleared

    The pass of [tentative_clear_offers_for_validation] over all orderbooks, run
    on the commitments a production pass wrote: every orderbook is accepted, in
    whatever batches, and the validator ends where the producer ended. *)
From stdpp Require Import base gmap list strings sorting.
From S2P Require Import Prelude Types PriceArith Asset SeqTracker Accounts AccountLmdb Database Offers Clearing Demand DbView SerialManager Orderbook OrderbookProps Manager BlockClearing.

Section Agreement.
Context {TR : Type} `{OfferTrieIndex TR} `{BigEndian} {D : Type} `{ClearingDBLaws D}
  {LG : Type} `{SerialAccountModificationLog LG}.
Abbreviation Book := (Orderbook.t (TR := TR)).
Abbreviation Manager := (OrderbookManager (TR := TR)).
Abbreviation PState := (production_state (TR := TR) (D := D) (LG := LG)).
Abbreviation VState := (validation_state (TR := TR) (D := D) (LG := LG)).
Implicit Types (d : D).

(** ** The pass of a validator *)
Section Pass.
Context (checker : OrderbookStateCommitmentChecker) (d : D) (om : nat -> gmap key Offer) (pv : nat -> list payment).

(** Orderbook [i] is ready to be accepted. *)
Definition acceptable (s : VState) (i : nat) : Prop :=
  exists b a c, vs_books s !! i = Some b /\ vs_validation_stats s !! i = Some a /\ commitments checker !! i = Some c /\
    accepts (LG := LG) checker d b a c (om i) (pv i).
(** Orderbook [i] is cleared and accounted for. *)
Definition accepted_at (s : VState) (i : nat) : Prop :=
  exists b a c, vs_books s !! i = Some b /\ vs_validation_stats s !! i = Some a /\ commitments checker !! i = Some c /\
    ot_map (committed_offers b) = om i /\
    FractionalAsset.add a (partialExecOfferActivationAmount c) = fractionalSupplyActivated c.

Record validated (s s' : VState) (l : list nat) : Prop := {
  vd_paid : (vs_db s').1 = foldl pay (vs_db s).1 (l ≫= pv);
  vd_each i : i ∈ l -> accepted_at s' i;
  vd_other i : i ∉ l -> vs_books s' !! i = vs_books s !! i /\ vs_validation_stats s' !! i = vs_validation_stats s !! i;
  vd_failure : vs_failure s' = vs_failure s
}.

Lemma validated_nil s s' :
  vs_db s' = vs_db s -> vs_books s' = vs_books s -> vs_validation_stats s' = vs_validation_stats s ->
  vs_failure s' = vs_failure s -> validated s s' [].
Proof. intros E1 E2 E3 E4. constructor; [by rewrite E1|by intros i ?%not_elem_of_nil|by rewrite E2, E3|done]. Qed.

Lemma validated_app s s1 s2 l1 l2 :
  NoDup (l1 ++ l2) -> validated s s1 l1 -> validated s1 s2 l2 -> validated s s2 (l1 ++ l2).
Proof.
  intros (N1 & Hd & N2)%NoDup_app [A1 A2 A3 A4] [B1 B2 B3 B4]. constructor; [| | |congruence].
  - by rewrite B1, A1, bind_app, foldl_app.
  - intros i [Hi|Hi]%elem_of_app; [|by apply B2]. destruct (A2 i Hi) as (b & a & c & ? & ? & ?).
    exists b, a, c. destruct (B3 i (Hd i Hi)) as [-> ->]. done.
  - intros i [Hi1 Hi2]%not_elem_of_app. destruct (A3 i Hi1), (B3 i Hi2). split; congruence.
Qed.

(** A pass leaves the orderbooks it has not visited acceptable. *)
Lemma validated_acceptable s s' l i : validated s s' l -> i ∉ l -> acceptable s i -> acceptable s' i.
Proof.
  intros [_ _ Ho _] Hi (b & a & c & ? & ? & ?). exists b, a, c. destruct (Ho i Hi) as [-> ->]. done.
Qed.

Lemma validated_lookups s s' l : validated s s' l -> same_lookups d (vs_db s).1 -> same_lookups d (vs_db s').1.
Proof. intros [E _ _ _] Hl id. rewrite E, pays_lookup. apply Hl. Qed.

Lemma validation_range_spec s l :
  NoDup l -> same_lookups d (vs_db s).1 -> (forall i, i ∈ l -> acceptable s i) ->
  exists s', validation_range checker s l = Ok s' /\ validated s s' l.
Proof.
  revert s. induction l as [|i l IH]; intros s Hn Hl Hr; cbn [validation_range].
  - exists s. split; [done|]. by apply validated_nil.
  - pose proof Hn as [Hi Hn']%NoDup_cons. destruct (Hr i ltac:(by left)) as (b & a & c & Eb & Ea & Ec & Hacc).
    rewrite (proj2 (vec_at_nat _ _ _) Eb), (proj2 (vec_at_nat _ _ _) Ea), (proj2 (vec_at_nat _ _ _) Ec). cbn [result_bind].
    destruct (Hacc (vs_db s) (vs_stats s) Hl) as (cl & Ecl & Em & Ed & Eact). rewrite Ecl. cbn [result_bind fst snd negb].
    rewrite orb_false_r. set (s1 := mkValidation _ _ _ _ _).
    assert (A : validated s s1 [i]).
    { constructor; unfold s1; cbn [vs_db vs_books vs_validation_stats vs_failure]; [|intros j ->%list_elem_of_singleton|intros j Hj|done].
      - cbn [mbind list_bind]. by rewrite app_nil_r.
      - exists (cl_book cl), (cl_activated cl), c. cbn [vs_books vs_validation_stats].
        rewrite !list_lookup_insert_eq by (by eapply lookup_lt_Some). done.
      - rewrite list_elem_of_singleton in Hj. by rewrite !list_lookup_insert_ne. }
    destruct (IH s1 Hn') as (s' & Hs' & A').
    { by apply (validated_lookups s s1 [i]). }
    { intros j Hj. apply (validated_acceptable s s1 [i]); [done| |apply Hr; by right].
      rewrite list_elem_of_singleton. by intros ->. }
    exists s'. split; [exact Hs'|]. by apply (validated_app s s1 s' [i] l).
Qed.

Lemma validation_batches_spec s batches :
  NoDup (concat batches) -> same_lookups d (vs_db s).1 -> (forall i, i ∈ concat batches -> acceptable s i) ->
  exists s', validation_batches checker s batches = Ok s' /\ validated s s' (concat batches).
Proof.
  revert s. induction batches as [|l batches IH]; intros s Hn Hl Hr; cbn [validation_batches concat].
  - exists s. split; [done|]. by apply validated_nil.
  - cbn [concat] in Hn, Hr. pose proof Hn as (N1 & Hd & N2)%NoDup_app.
    set (s0 := mkValidation (vs_books s) (vs_db s) (vs_validation_stats s) zero_stats (vs_failure s)).
    destruct (validation_range_spec s0 l N1 Hl) as (s1 & E1 & A1).
    { intros i Hi. apply (Hr i). apply elem_of_app. by left. }
    rewrite E1. cbn [result_bind].
    assert (A1' : validated s s1 l) by (destruct A1; by constructor).
    set (s2 := mkValidation _ _ _ _ _). assert (A2 : validated s s2 l) by (destruct A1'; by constructor).
    destruct (IH s2 N2) as (s' & E' & A').
    { by apply (validated_lookups s s2 l). }
    { intros i Hi. apply (validated_acceptable s s2 l); [done|intros Hi'; by apply (Hd i)|].
      apply Hr. apply elem_of_app. by right. }
    exists s'. split; [exact E'|]. by apply (validated_app s s2).
Qed.
End Pass.

(** ** The validator of a produced block *)

(** The offers of every orderbook that the validator cleared while it validated
    the transactions that create them. *)
Definition created_payments (prices : list Price) (t n : Z) (new : nat -> list (key * Offer)) (i : nat) : list payment :=
  let c := Category.category_from_idx (Z.of_nat i) n in
  full_payments (price_at prices (sellAsset c)) (price_at prices (buyAsset c)) t (new i).

(** A validator with the producer's offers, less the created ones below the
    threshold keys, which it paid for and counted. *)
Record validator_ready (m mv : Manager) (params : ClearingParams) (prices : list Price) (q qv : D * LG) (s : PState)
    (checker : OrderbookStateCommitmentChecker) (vstats : ValidationStatistics) (new : nat -> list (key * Offer)) : Prop := {
  vr_commitments : commitments checker = ps_details s;
  vr_prices : Clearing.prices checker = prices;
  vr_tax : Clearing.tax_rate checker = cp_tax_rate params;
  vr_length : length (orderbooks mv) = length (orderbooks m);
  vr_book i b bv c : orderbooks m !! i = Some b -> orderbooks mv !! i = Some bv -> ps_details s !! i = Some c ->
    validator_book b bv c (new i);
  vr_stats i : (i < length (orderbooks m))%nat ->
    default 0 (vstats !! i) = FractionalAsset.from_integral (offers_endow (new i));
  vr_users : same_users qv.1 (foldl pay q.1
    (seq 0 (length (orderbooks m)) ≫= created_payments prices (cp_tax_rate params) (num_assets m) new))
}.

(** One orderbook of the pass. *)
Lemma cleared_accepted params prices (d : D) i (b b' bv : Book) c c' pays e new checker n :
  offers_wf (book_category b) (ot_entries (committed_offers b)) -> in_prices prices (book_category b) ->
  book_category b = Category.category_from_idx (Z.of_nat i) n ->
  cleared_one (LG := LG) params prices d i b b' c c' pays e -> validator_book b bv c' (new i) ->
  Clearing.prices checker = prices -> Clearing.tax_rate checker = cp_tax_rate params ->
  exists pv, pays ≡ₚ created_payments prices (cp_tax_rate params) n new i ++ pv /\ check_threshold_key c' = true /\
    accepts (LG := LG) checker d bv (FractionalAsset.from_integral (offers_endow (new i))) c'
      (ot_map (committed_offers b')) pv /\
    exists S, orderbook_params params !! i = Some (mkOrderbookClearingParams S) /\ fractionalSupplyActivated c' = S.
Proof.
  intros Hwf Hin Ecat [(S & sp & bp & q & q' & st & st' & low & partial & rest & r & EP & HS & Hl & Esp & Ebp & Hpr & -> & _)] V Ep Et.
  destruct (validator_clears b b' bv S sp bp prices (cp_tax_rate params) q q' c c' st st' low partial rest r (new i) checker
    Hwf HS Hpr V Ep Et Esp Ebp) as (pv & Hperm & Hkey & Hacc). exists pv.
  rewrite vec_at_price in Esp, Ebp by (unfold in_prices in Hin; lia). injection Esp as <-. injection Ebp as <-.
  split; [unfold created_payments; by rewrite <- Ecat|]. split; [done|]. split.
  - intros qv statsv Hq. apply Hacc. intros id. by rewrite Hq, Hl.
  - exists S. split; [done|]. rewrite (po_commitment _ _ _ _ _ _ _ _ _ _ _ _ _ _ _ _ Hpr). by apply commitment_supply.
Qed.

(** A choice over the orderbooks of a pass. *)
Lemma choose_below {A} (N : nat) (dflt : A) (P : nat -> A -> Prop) :
  (forall i, (i < N)%nat -> exists x, P i x) -> exists f, forall i, (i < N)%nat -> P i (f i).
Proof.
  induction N as [|N IH]; intros Hex; [exists (fun _ => dflt); intros i Hi; lia|].
  destruct IH as [f Hf]; [intros i Hi; apply Hex; lia|]. destruct (Hex N ltac:(lia)) as [x Hx].
  exists (fun i => if decide (i = N) then x else f i). intros i Hi. destruct (decide (i = N)) as [->|]; [done|]. apply Hf. lia.
Qed.

Lemma bind_permutation {A B} (f g h : A -> list B) (l : list A) :
  (forall x, x ∈ l -> f x ≡ₚ g x ++ h x) -> l ≫= f ≡ₚ (l ≫= g) ++ (l ≫= h).
Proof.
  induction l as [|x l IH]; intros Hf; [done|]. cbn [mbind list_bind]. rewrite (Hf x) by (by left).
  rewrite IH by (intros; apply Hf; by right). rewrite <- !app_assoc. apply Permutation_app_head.
  rewrite !app_assoc. apply Permutation_app_tail, Permutation_app_comm.
Qed.

Lemma bind_Permutation_list {A B} (f : A -> list B) (l l' : list A) : l ≡ₚ l' -> l ≫= f ≡ₚ l' ≫= f.
Proof.
  induction 1; cbn [mbind list_bind]; [done|by apply Permutation_app_head| |by etransitivity].
  rewrite !app_assoc. apply Permutation_app_tail, Permutation_app_comm.
Qed.

(** What the validator finds at one orderbook of the produced block: the offers
    [om] and payments [pv] it ends with. *)
Definition produced_at (m m' mv : Manager) params prices d (s : PState) checker new (pays : nat -> list payment) (i : nat)
    (pv : list payment) : Prop :=
  exists b' bv c S, orderbooks m' !! i = Some b' /\ orderbooks mv !! i = Some bv /\ ps_details s !! i = Some c /\
    pays i ≡ₚ created_payments prices (cp_tax_rate params) (num_assets m) new i ++ pv /\ check_threshold_key c = true /\
    accepts (LG := LG) checker d bv (FractionalAsset.from_integral (offers_endow (new i))) c (ot_map (committed_offers b')) pv /\
    orderbook_params params !! i = Some (mkOrderbookClearingParams S) /\ fractionalSupplyActivated c = S.

Section Block.
Context (m m' mv : Manager) (params : ClearingParams) (prices : list Price) (q qv : D * LG) (batches : list (list nat))
  (s : PState) (checker : OrderbookStateCommitmentChecker) (vstats : ValidationStatistics)
  (new : nat -> list (key * Offer)) (pays : nat -> list payment).
Context (R : production_ready m params prices batches) (V : validator_ready m mv params prices q qv s checker vstats new).
Let N := length (orderbooks m).

Lemma produced_acceptable (execs : nat -> execution) :
  (forall i, (i < N)%nat -> exists b b' c c', orderbooks m !! i = Some b /\ orderbooks m' !! i = Some b' /\
    ps_details s !! i = Some c' /\ cleared_one (LG := LG) params prices q.1 i b b' c c' (pays i) (execs i)) ->
  exists pv, forall i, (i < N)%nat -> produced_at m m' mv params prices q.1 s checker new pays i (pv i).
Proof using R V.
  intros Hall. apply (choose_below N []). intros i Hi. destruct (Hall i Hi) as (b & b' & c & c' & Eb & Eb' & Ec' & Hc).
  pose proof (vr_length _ _ _ _ _ _ _ _ _ _ V). destruct (lookup_lt_is_Some_2 (orderbooks mv) i) as [bv Ebv]; [lia|].
  destruct (book_in_prices m params prices batches i b R Eb) as [Ecat Hin].
  destruct (cleared_accepted params prices q.1 i b b' bv c c' (pays i) (execs i) new checker (num_assets m)
    (pr_offers _ _ _ _ R b (list_elem_of_lookup_2 _ _ _ Eb)) Hin Ecat Hc) as (pv & ? & ? & ? & S & ? & ?);
    [by apply (vr_book _ _ _ _ _ _ _ _ _ _ V i)|apply V|apply V|].
  by exists pv, b', bv, c', S.
Qed.

Lemma check_stats_agrees (vs : ValidationStatistics) :
  length (ps_details s) = N ->
  (forall i, (i < N)%nat -> exists a c, vs !! i = Some a /\ ps_details s !! i = Some c /\ check_threshold_key c = true /\
    FractionalAsset.add a (partialExecOfferActivationAmount c) = fractionalSupplyActivated c) ->
  exists st, check_stats checker vs = Ok (st, true).
Proof using V.
  intros Hlen Hat. unfold check_stats. rewrite (vr_commitments _ _ _ _ _ _ _ _ _ _ V). set (st := make_minimum_size _ _).
  destruct (check_stats_loop_total vs st (ps_details s) 0) as (ok & Eok & Hok).
  { intros k c Hc. apply lookup_lt_Some in Hc. rewrite Nat.add_0_l. by apply make_minimum_size_default. }
  change (Z.of_nat 0) with 0 in Eok. rewrite Eok. cbn [result_bind]. exists st.
  assert (ok = true) as ->; [|done]. apply Hok. intros k c Hc. rewrite Nat.add_0_l.
  destruct (Hat k) as (a & c' & Ea & Ec & Hkey & Eadd); [rewrite <- Hlen; by eapply lookup_lt_Some|].
  rewrite Ea. rewrite Hc in Ec. injection Ec as <-. split; [exact Eadd|by apply check_threshold_key_spec].
Qed.

Lemma check_clearing_agrees :
  length (ps_details s) = N ->
  (forall i, (i < N)%nat -> exists c S, ps_details s !! i = Some c /\
    orderbook_params params !! i = Some (mkOrderbookClearingParams S) /\ fractionalSupplyActivated c = S) ->
  check_clearing checker = ClearingParams_check_clearing params prices.
Proof using R V.
  intros Hlen Hat. unfold check_clearing, ClearingParams_check_clearing.
  rewrite (vr_prices _ _ _ _ _ _ _ _ _ _ V), (vr_tax _ _ _ _ _ _ _ _ _ _ V), (vr_commitments _ _ _ _ _ _ _ _ _ _ V).
  f_equal. apply list_eq_same_length with (n := N); [by rewrite length_fmap, (pr_params _ _ _ _ R)|by rewrite length_fmap|].
  intros k x y Hk (c & -> & Hc)%list_lookup_fmap_Some (p & -> & Hp)%list_lookup_fmap_Some.
  destruct (Hat k Hk) as (c' & S & Ec & ES & <-). rewrite ES in Hp. injection Hp as <-. cbn [supply_activated]. congruence.
Qed.

(** The payments of the two passes are the same, in another order. *)
Lemma payments_agree (pv : nat -> list payment) batchesv :
  concat batchesv ≡ₚ seq 0 N ->
  (forall i, (i < N)%nat -> produced_at m m' mv params prices q.1 s checker new pays i (pv i)) ->
  same_users (foldl pay qv.1 (concat batchesv ≫= pv)) (foldl pay q.1 (concat batches ≫= pays)).
Proof using R V.
  intros Hpv Hat. rewrite (pays_perm _ _ _ (bind_Permutation_list pv _ _ Hpv)),
    (pays_perm _ _ _ (bind_Permutation_list pays _ _ (pr_batches _ _ _ _ R))). fold N.
  etransitivity; [apply pays_proper, V|]. fold N. rewrite <- foldl_app. symmetry. apply pays_perm, bind_permutation.
  intros i Hi%elem_of_seq. destruct (Hat i ltac:(lia)) as (b' & bv & c & S & _ & _ & _ & Hperm & _). exact Hperm.
Qed.
End Block.

(** C7: validators accept the blocks that producers produce.  Let
    [clear_offers_for_production] clear every orderbook, and let a validator hold
    the same offers and accounts, less the created offers that it cleared on
    creation.  Then [tentative_clear_offers_for_validation] on the producer's
    commitments accepts, whatever batches and orders the two runs used, with the
    producer's offers in every orderbook and the producer's account database, and
    both checks of the header agree: [check_stats] passes, and [check_clearing]
    of the commitments is [check_clearing] of the parameters. *)
Theorem block_validation_accepts_production (m m' mv : Manager) params prices (q qv : D * LG) details stats statsv batches
    batchesv s checker vstats new :
  production_ready m params prices batches ->
  clear_offers_for_production m params prices q details stats batches = Ok (m', s) ->
  validator_ready m mv params prices q qv s checker vstats new -> concat batchesv ≡ₚ seq 0 (length (orderbooks m)) ->
  exists mv' sv, manager_tentative_clear_offers_for_validation mv qv vstats checker statsv batchesv = Ok (mv', sv, true) /\
    ((fun b => ot_map (committed_offers b)) <$> orderbooks mv') = ((fun b => ot_map (committed_offers b)) <$> orderbooks m') /\
    same_users (vs_db sv).1 (ps_db s).1 /\
    (exists st, check_stats checker (vs_validation_stats sv) = Ok (st, true)) /\
    check_clearing checker = ClearingParams_check_clearing params prices.
Proof.
  intros R Hrun V Hpv. destruct (production_pass_spec m m' params prices q details stats batches s R Hrun)
    as (pays & execs & Cp & Elen & Edet & Hall).
  destruct (produced_acceptable m m' mv params prices q qv batches s checker vstats new pays R V execs Hall) as [pv Hpvs].
  set (N := length (orderbooks m)) in *. pose proof (vr_length _ _ _ _ _ _ _ _ _ _ V) as Elv.
  set (om := fun i => default ∅ ((fun b => ot_map (committed_offers b)) <$> orderbooks m' !! i)).
  unfold manager_tentative_clear_offers_for_validation. set (s0 := mkValidation (orderbooks mv) qv _ statsv false).
  destruct (validation_batches_spec checker q.1 om pv s0 batchesv) as (sv & Esv & [D1 D2 D3 D4]).
  { rewrite Hpv. apply NoDup_seq. }
  { intros id. cbn [s0 vs_db]. rewrite (proj2 (vr_users _ _ _ _ _ _ _ _ _ _ V)). apply pays_lookup. }
  { intros i Hi. rewrite Hpv in Hi. apply elem_of_seq in Hi.
    destruct (Hpvs i ltac:(lia)) as (b' & bv & c' & S & Eb' & Ebv & Ec' & _ & _ & Hacc & _).
    exists bv, (FractionalAsset.from_integral (offers_endow (new i))), c'. unfold s0, om. cbn [vs_books vs_validation_stats].
    rewrite (vr_commitments _ _ _ _ _ _ _ _ _ _ V), Eb'. split; [done|]. split; [|by split].
    rewrite make_minimum_size_default by lia. by rewrite (vr_stats _ _ _ _ _ _ _ _ _ _ V) by lia. }
  assert (Hat : forall i, (i < N)%nat -> accepted_at checker om sv i).
  { intros i Hi. apply D2. rewrite Hpv. apply elem_of_seq. lia. }
  rewrite Esv. cbn [result_bind]. do 2 eexists. rewrite D4. cbn [s0 vs_failure negb]. split; [reflexivity|].
  split; [|split; [rewrite D1, Cp; by apply (payments_agree m m' mv params prices q qv batches s checker vstats new)|split]].
  - cbn [set_orderbooks orderbooks]. apply list_eq. intros i. rewrite !list_lookup_fmap.
    destruct (decide (i < N)%nat) as [Hi|Hi].
    + destruct (Hat i Hi) as (b & a & c & Eb & _ & _ & Em & _). destruct (Hpvs i Hi) as (b' & _ & _ & _ & Eb' & _).
      rewrite Eb. cbn [fmap option_fmap option_map]. rewrite Em. unfold om. by rewrite Eb'.
    + destruct (D3 i) as [-> _]; [rewrite Hpv, elem_of_seq; lia|]. cbn [s0 vs_books].
      rewrite (lookup_ge_None_2 (orderbooks mv)), (lookup_ge_None_2 (orderbooks m')) by lia. done.
  - apply (check_stats_agrees m mv params prices q qv s checker vstats new V _ Edet). intros i Hi.
    destruct (Hat i Hi) as (b & a & c & _ & Ea & Ec & _ & Eadd). rewrite (vr_commitments _ _ _ _ _ _ _ _ _ _ V) in Ec.
    destruct (Hpvs i Hi) as (b' & bv & c' & S & _ & _ & Ec' & _ & Hkey & _). exists a, c. split_and!; congruence.
  - apply (check_clearing_agrees m mv params prices q qv batches s checker vstats new R V Edet). intros i Hi.
    destruct (Hpvs i Hi) as (b' & bv & c' & S & _ & _ & Ec' & _ & _ & _ & ES & Ef). by exists c', S.
Qed.
End Agreement.
