(* ===== verification/Examples.v ===== *)
(** * Concrete runs

    The block properties on a two asset market: the hypotheses of the theorems
    about the orderbook manager and the transaction processor evaluated on
    concrete states. *)
From stdpp Require Import base gmap list strings sorting.
From S2P Require Import Prelude Types PriceArith Asset SeqTracker Accounts AccountLmdb Database Offers Clearing Demand DbView SerialManager Orderbook OrderbookProps Manager OrderbookLmdb OrderbookPersist BlockClearing BlockAgreement.
Import OrderbookProps.

(** Orderbook 0 sells asset 0 for asset 1, orderbook 1 the other way. *)
Definition back_category : OfferCategory := mkOfferCategory 1 0 SELL.
Definition back_offer (id n price : Z) : Offer := mkOffer back_category id 7 n price.
Definition back_book : Orderbook.t (TR := MapTrie.t) :=
  let o := back_offer 256 300 (Price.PRICE_ONE / 4) in
  mk back_category (insert_all ot_empty [(Key.offer_key o, o)]) ot_empty [new_thunk 1] 0 [].
Definition market (b : Orderbook.t (TR := MapTrie.t)) : OrderbookManager (TR := MapTrie.t) :=
  mkManager [b; back_book] 2 0 2.

Lemma market_wf b : book_category b = example_category -> manager_wf (market b).
Proof.
  intros E. constructor; cbn [market num_assets orderbooks].
  - unfold Category.MAX_INT_ASSETS. lia.
  - reflexivity.
  - intros [|[|i]] b' Hb; [|..|discriminate Hb]; injection Hb as <-; [rewrite E|]; reflexivity.
Qed.

Lemma new_assets_keep_orderbooks_witness :
  exists m', increase_num_traded_assets (market producer_book) 3 = Ok m' /\ manager_wf m' /\
    exists i b, manager_look_up_idx m' example_category = Ok i /\ orderbooks m' !! Z.to_nat i = Some b.
Proof.
  destruct (new_assets_keep_orderbooks (market producer_book) 3) as (m' & E & W & En & Hc).
  - apply market_wf. reflexivity.
  - vm_compute. discriminate.
  - unfold Category.MAX_INT_ASSETS. lia.
  - exists m'. split; [exact E|]. split; [exact W|]. destruct (Hc example_category) as (i & b & Ei & Eb & _).
    + vm_compute. split; discriminate.
    + unfold manager_validate_category. rewrite En. vm_compute. reflexivity.
    + exists i, b. split; [exact Ei|exact Eb].
Defined.

(** ** One block *)
Definition block_params : ClearingParams :=
  mkClearingParams 10 [mkOrderbookClearingParams (120 * 1024 + 7); mkOrderbookClearingParams (240 * 1024 + 14)].

Lemma block_ready batches : concat batches ≡ₚ [0; 1]%nat -> production_ready (market producer_book) block_params example_prices batches.
Proof.
  intros Hb. constructor; [by apply market_wf|vm_compute; discriminate|reflexivity|..|exact Hb].
  - repeat constructor; vm_compute; discriminate.
  - vm_compute. split; [discriminate|reflexivity].
  - reflexivity.
  - apply (bool_decide_unpack _). vm_compute. exact I.
  - intros b [->|[->|[]%not_elem_of_nil]%elem_of_cons]%elem_of_cons; (split; [|vm_compute; reflexivity]);
      apply (bool_decide_unpack _); vm_compute; exact I.
Qed.

Definition run_block (batches : list (list nat)) :=
  clear_offers_for_production (market producer_book) block_params example_prices example_state [] zero_stats batches.

Lemma block_production_conserves_assets_witness :
  exists m' s pays, run_block [[1]; [0]]%nat = Ok (m', s) /\ (ps_db s).1 = foldl pay example_state.1 pays /\
    paid_in 1 pays + on_offer 1 (orderbooks m') <= on_offer 1 (orderbooks (market producer_book)).
Proof.
  destruct (run_block [[1]; [0]]%nat) as [[m' s]|] eqn:E; [|vm_compute in E; discriminate].
  destruct (block_production_conserves_assets (market producer_book) m' block_params example_prices example_state []
    zero_stats [[1]; [0]]%nat s) as (pays & Ep & Hc).
  - apply block_ready, Permutation_swap.
  - vm_compute. reflexivity.
  - vm_compute. reflexivity.
  - exact E.
  - exists m', s, pays. split; [reflexivity|]. split; [exact Ep|]. apply Hc. vm_compute. split; [discriminate|reflexivity].
Defined.

(** The validator holds the old offers and has cleared the cheap one. *)
Definition created_offers (i : nat) : list (key * Offer) := match i with 0%nat => cheap_entries | _ => [] end.

Lemma block_validation_accepts_production_witness :
  exists m' s mv' sv, run_block [[1]; [0]]%nat = Ok (m', s) /\
    manager_tentative_clear_offers_for_validation (market (book_of example_offers 1)) paid_state
      [FractionalAsset.from_integral 30] (mkChecker (ps_details s) example_prices 10) zero_stats [[0]; [1]]%nat
      = Ok (mv', sv, true).
Proof.
  destruct (run_block [[1]; [0]]%nat) as [[m' s]|] eqn:E; [|vm_compute in E; discriminate].
  destruct (block_validation_accepts_production (market producer_book) m' (market (book_of example_offers 1)) block_params
    example_prices example_state paid_state [] zero_stats zero_stats [[1]; [0]]%nat [[0]; [1]]%nat s
    (mkChecker (ps_details s) example_prices 10) [FractionalAsset.from_integral 30] created_offers) as (mv' & sv & Ev & _).
  - apply block_ready, Permutation_swap.
  - exact E.
  - constructor; [reflexivity|reflexivity|reflexivity|reflexivity|..].
    + intros i b bv c Hb Hbv Hc. vm_compute in E. injection E as <- <-.
      destruct i as [|[|i]]; [| |discriminate Hb]; injection Hb as <-; injection Hbv as <-; injection Hc as <-; constructor.
      * intros p ->%list_elem_of_singleton. split; [vm_compute; reflexivity|right; vm_compute; reflexivity].
      * apply NoDup_singleton.
      * apply (bool_decide_unpack _). vm_compute. exact I.
      * reflexivity.
      * discriminate.
      * intros p []%not_elem_of_nil.
      * constructor.
      * apply (bool_decide_unpack _). vm_compute. exact I.
      * reflexivity.
      * discriminate.
    + intros i Hi. destruct i as [|[|i]]; [vm_compute; reflexivity|vm_compute; reflexivity|cbn in Hi; lia].
    + split; reflexivity.
  - reflexivity.
  - exists m', s, mv', sv. split; [reflexivity|exact Ev].
Defined.

(** ** Persisting an orderbook *)
Definition old_book (l : list Offer) : Orderbook.t (TR := MapTrie.t) :=
  mk example_category (insert_all ot_empty ((fun o => (Key.offer_key o, o)) <$> l)) ot_empty [] 0 [].
Definition with_new (b : Orderbook.t (TR := MapTrie.t)) (l : list Offer) : Orderbook.t (TR := MapTrie.t) :=
  add_offers b (insert_all ot_empty ((fun o => (Key.offer_key o, o)) <$> l)).
Definition commit_block (b : Orderbook.t (TR := MapTrie.t)) (blk : Z) := commit_for_production b blk.
Definition clear_block (b : Orderbook.t (TR := MapTrie.t)) (S : Z) :=
  process_clear_offers b (mkOrderbookClearingParams S) example_prices 10 example_state empty_commitment zero_stats.
(** One block that clears the supply [S]. *)
Definition produce (b : Orderbook.t (TR := MapTrie.t)) (blk S : Z) : result (Orderbook.t (TR := MapTrie.t)) :=
  let* b := commit_block b blk in let* q := clear_block b S in Ok q.1.1.1.

Lemma produce_step b b' blk S :
  bool_decide (map_Forall (fun k o => k = Key.offer_key o) (ot_map (uncommitted_offers b))) = true ->
  bool_decide (ot_map (committed_offers b) ##ₘ ot_map (uncommitted_offers b)) = true ->
  bool_decide (ot_marked (uncommitted_offers b) = ∅) = true ->
  match commit_block b blk with
  | Ok b1 => bool_decide (offers_wf (book_category b1) (ot_entries (committed_offers b1))) &&
             bool_decide (ot_map (committed_offers b1) !! max_key = None)
  | Throw _ => true
  end = true -> in_u128 S -> produce b blk S = Ok b' ->
  book_step (D := DatabaseProps.example_t) (LG := list (Z * Z * Z)) b b'.
Proof.
  intros Hk Hd Hm Hwf HS Hrun. unfold produce in Hrun. destruct (commit_block b blk) as [b1|] eqn:E1; [|done]. cbn [result_bind] in Hrun.
  destruct (clear_block b1 S) as [[[[b2 q'] c'] st']|] eqn:E2; [|done]. injection Hrun as <-.
  apply andb_true_iff in Hwf as [Hwf Hmax]. apply bool_decide_eq_true in Hk, Hd, Hm, Hwf, Hmax.
  eapply step_produced; [|exact HS|exact E1|exact E2]. split; [|by split]. constructor; [exact Hk|exact Hd|exact Hm].
Qed.

(** Two blocks: the first creates an offer and sells 60 units, the second sells
    30 more of the same offer. *)
Definition history : result (Orderbook.t (TR := MapTrie.t)) :=
  let* b := produce (with_new (old_book example_offers) [created_offer]) 1 (60 * 1024 + 5) in produce b 2 (30 * 1024).

Lemma persisted_orderbook_is_memory_witness :
  exists b b' w', history = Ok b /\ persist_lmdb b 2 (ot_map (committed_offers (old_book example_offers))) = Ok (b', w') /\
    w' = ot_map (committed_offers b).
Proof.
  destruct history as [b|] eqn:E; [|vm_compute in E; discriminate].
  destruct (PersistProps.persisted_orderbook_is_memory (D := DatabaseProps.example_t) (LG := list (Z * Z * Z))
    (old_book example_offers) b (ot_map (committed_offers (old_book example_offers))) 2 true) as (b' & w' & Er & Ew & _).
  - unfold history in E. destruct (produce (with_new (old_book example_offers) [created_offer]) 1 (60 * 1024 + 5)) as [b1|] eqn:E1;
      [|discriminate E]. cbn [result_bind] in E.
    eapply rtc_l; [apply (step_add_offers (old_book example_offers))|].
    eapply rtc_l; [|apply rtc_once].
    + eapply produce_step; [..|exact E1]; try (vm_compute; reflexivity). vm_compute. split; [discriminate|reflexivity].
    + eapply produce_step; [..|exact E]; try (vm_compute in E1; injection E1 as <-; vm_compute; reflexivity).
      vm_compute. split; [discriminate|reflexivity].
  - reflexivity.
  - reflexivity.
  - apply map_Forall_lookup. intros k o Ho. assert (Hall : map_Forall (fun (k : key) (_ : Offer) => key_ok k)
      (ot_map (committed_offers (old_book example_offers)))); [|exact (Hall k o Ho)].
    apply (bool_decide_unpack _). vm_compute. exact I.
  - vm_compute in E. injection E as <-. constructor.
    + apply (bool_decide_unpack _). vm_compute. exact I.
    + intros k ->%list_elem_of_singleton. vm_compute. reflexivity.
    + intros k ->%list_elem_of_singleton. apply (bool_decide_unpack _). vm_compute. exact I.
  - vm_compute in E. injection E as <-. repeat constructor.
  - vm_compute in E. injection E as <-. repeat constructor; vm_compute; discriminate.
  - exists b, b', w'. split; [reflexivity|]. split; [exact Er|exact Ew].
Defined.

(** The first condition on a batch is needed.  The database holds one offer;
    block 1 clears it, so nothing is left in the orderbook and its thunk has no
    partially executed offer; block 2 creates a cheaper offer and executes none of
    it.  [write_thunks] deletes only the keys below the threshold key of block 2,
    so the offer that block 1 cleared is in the database after the transaction. *)
Definition expensive_offer : Offer := example_offer 256 50 (2 * Price.PRICE_ONE).
Lemma batch_keeps_cleared_offer :
  exists b b' w', (let* b := produce (old_book [expensive_offer]) 1 (50 * 1024) in
      produce (with_new b [cheap_offer]) 2 0) = Ok b /\
    persist_lmdb b 2 (ot_map (committed_offers (old_book [expensive_offer]))) = Ok (b', w') /\
    ot_map (committed_offers b) = {[ Key.offer_key cheap_offer := cheap_offer ]} /\
    w' !! Key.offer_key expensive_offer = Some expensive_offer.
Proof. do 3 eexists. do 3 (split; [vm_compute; reflexivity|]). vm_compute. reflexivity. Qed.

(** and so is the condition on cancelled offers.  Block 1 creates a cheap and
    an expensive offer, block 2 cancels the expensive one.  Phase 3 of
    [write_thunks] meets the cancelled offer first, and the [else] branch that
    skips it ends the loop over the block's offers: the cheap offer, which is open,
    is not written. *)
Definition two_created : Orderbook.t (TR := MapTrie.t) := with_new (old_book []) [cheap_offer; expensive_offer].
Lemma batch_loses_created_offer :
  exists b b' w', (let* b := produce two_created 1 0 in
      produce (mark_for_deletion b (Key.offer_key expensive_offer)).1 2 0) = Ok b /\
    persist_lmdb b 2 (ot_map (committed_offers (old_book []))) = Ok (b', w') /\
    ot_map (committed_offers b) = {[ Key.offer_key cheap_offer := cheap_offer ]} /\ w' = ∅.
Proof. do 3 eexists. do 3 (split; [vm_compute; reflexivity|]). vm_compute. reflexivity. Qed.
