(* ===== verification/TxProcessor.v ===== *)
(** * Processing and validating transactions
    (src/block_processing/serial_transaction_processor.h, .cc)

    [SerialTransactionHandler]: one handler per operation, over any database
    view and any offer buffer.  [process_transaction] (block production) runs
    them on the buffered view and undoes a failed transaction;
    [validate_transaction] runs them on an unbuffered view. *)
From stdpp Require Import base gmap list strings.
From S2P Require Import Prelude Types PriceArith Offers Clearing Asset SeqTracker Accounts AccountLmdb Database DbView SerialManager.

Definition check_tx_format_parameters (tx : Transaction) : bool :=
  Z.land (sequenceNumber (metadata tx)) RESERVED_SEQUENCE_NUM_LOWBITS =? 0.

Definition fee_required (tx_op_count : Z) : Z := u32 (BASE_FEE_PER_TX + FEE_PER_OP * tx_op_count).

Definition is_valid_amount (amount : Z) : bool :=
  let max_amount := Z.shiftl 1 (63 - 15) in
  (0 <? amount) && (amount <=? max_amount).

(** ** The operation handlers *)
Section Handler.
Context {D V LG S : Type} `{DatabaseView D V} `{SerialAccountModificationLog LG}.
Context (SM : SerialManager D V LG S).

(** What a handler reads and writes: the offer buffer, the database, the
    metadata of the transaction (with its view) and the log. *)
Record handler := mkHandler {
  hs_manager : S;
  hs_db : D;
  hs_metadata : OperationMetadata V;
  hs_log : LG
}.
Implicit Types h : handler.

Definition outcome : Type := handler * TransactionProcessingStatus.

(** [if (status != SUCCESS) return status;] *)
Definition and_then (x : result outcome) (k : handler -> result outcome) : result outcome :=
  let* q := x in
  if decide (q.2 = SUCCESS) then k q.1 else Ok q.

Definition set_manager h (s : S) : handler := mkHandler s (hs_db h) (hs_metadata h) (hs_log h).
Definition set_db h (d : D) (v : V) : handler :=
  mkHandler (hs_manager h) d (set_view (hs_metadata h) v) (hs_log h).
Definition counted h (s : BlockStateUpdateStats) : handler :=
  mkHandler (hs_manager h) (hs_db h) (count (hs_metadata h) s) (hs_log h).

Definition view_transfer_available h (account : ptr) (asset amount : Z) : result outcome :=
  let* q := dv_transfer_available (hs_db h) (db_view (hs_metadata h)) account asset amount in
  Ok (set_db h q.1.1 q.1.2, q.2).
Definition view_escrow h (account : ptr) (asset amount : Z) : result outcome :=
  let* q := dv_escrow (hs_db h) (db_view (hs_metadata h)) account asset amount in
  Ok (set_db h q.1.1 q.1.2, q.2).

Definition source h : ptr := source_account_idx (hs_metadata h).

Definition process_create_account h (op : CreateAccountOp) : result outcome :=
  if startingBalance op <? CREATE_ACCOUNT_MIN_STARTING_BALANCE then Ok (h, STARTING_BALANCE_TOO_LOW)
  else
    let* q := dv_create_new_account (hs_db h) (db_view (hs_metadata h)) (newAccountId op) (newAccountPublicKey op) in
    let '(d, v, status, new_account_idx) := q in
    and_then (Ok (set_db h d v, status)) (fun h =>
    and_then (view_transfer_available h (source h) MemoryDatabase.NATIVE_ASSET (i64 (- startingBalance op))) (fun h =>
    if negb (is_valid_amount (startingBalance op)) then Ok (h, INVALID_AMOUNT)
    else
      match new_account_idx with
      | None => Throw "null UserAccount pointer"
      | Some idx =>
          and_then (view_transfer_available h idx MemoryDatabase.NATIVE_ASSET (startingBalance op)) (fun h =>
          Ok (counted h one_new_account, SUCCESS))
      end)).

Definition make_offer (op : CreateSellOfferOp) (metadata : OperationMetadata V) : Offer :=
  mkOffer (cso_category op) (operation_id metadata) (sourceAccount (tx_metadata metadata))
    (cso_amount op) (cso_minPrice op).

Definition process_create_sell_offer h (op : CreateSellOfferOp) : result outcome :=
  if negb (sm_validate_category (hs_manager h) (cso_category op)) then Ok (h, INVALID_OFFER_CATEGORY)
  else if negb (Price.is_valid_price (cso_minPrice op)) then Ok (h, INVALID_PRICE)
  else if negb (is_valid_amount (cso_amount op)) then Ok (h, INVALID_AMOUNT)
  else
    let* market_idx := sm_look_up_idx (hs_manager h) (cso_category op) in
    let to_add := make_offer op (hs_metadata h) in
    let* q := sm_add_offer (hs_manager h) market_idx to_add (hs_db h) (hs_metadata h) (hs_log h) in
    let '(s, d, m, lg) := q in
    let h := mkHandler s d m lg in
    let* r := view_escrow h (source h) (sellAsset (cso_category op)) (cso_amount op) in
    if decide (r.2 = SUCCESS) then Ok (counted r.1 one_new_offer, SUCCESS)
    else
      let* s := sm_unwind_add_offer (hs_manager r.1) market_idx to_add in
      Ok (set_manager r.1 s, r.2).

Definition process_cancel_sell_offer h (op : CancelSellOfferOp) : result outcome :=
  let* market_idx := sm_look_up_idx (hs_manager h) (can_category op) in
  let owner := sourceAccount (tx_metadata (hs_metadata h)) in
  let* found := sm_delete_offer (hs_manager h) market_idx (can_minPrice op) owner (can_offerId op) in
  let h := set_manager h found.1 in
  match found.2 with
  | Some found_offer =>
      let* r := view_escrow h (source h) (sellAsset (can_category op)) (i64 (- amount found_offer)) in
      if decide (r.2 = SUCCESS) then Ok (counted r.1 one_cancel, SUCCESS)
      else
        let* s := sm_undelete_offer (hs_manager r.1) market_idx (can_minPrice op) owner (can_offerId op) in
        Ok (set_manager r.1 s, r.2)
  | None => Ok (h, CANCEL_OFFER_TARGET_NEXIST)
  end.

Definition process_payment h (op : PaymentOp) : result outcome :=
  let target_account_idx := dv_lookup_user (hs_db h) (db_view (hs_metadata h)) (receiver op) in
  if negb (is_valid_amount (pay_amount op)) then Ok (h, INVALID_AMOUNT)
  else
    match target_account_idx with
    | None => Ok (h, RECIPIENT_ACCOUNT_NEXIST)
    | Some target =>
        and_then (view_transfer_available h (source h) (pay_asset op) (i64 (- pay_amount op))) (fun h =>
        and_then (view_transfer_available h target (pay_asset op) (pay_amount op)) (fun h =>
        Ok (counted h one_payment, SUCCESS)))
    end.

Definition process_money_printer h (op : MoneyPrinterOp) : result outcome :=
  if print_amount op <? 0 then Ok (h, INVALID_PRINT_MONEY_AMOUNT)
  else view_transfer_available h (source h) (print_asset op) (print_amount op).

(** The switch on the operation type. *)
Definition process_operation h (op : Operation) : result outcome :=
  match op with
  | CREATE_ACCOUNT op => process_create_account h op
  | CREATE_SELL_OFFER op => process_create_sell_offer h op
  | CANCEL_SELL_OFFER op => process_cancel_sell_offer h op
  | PAYMENT op => process_payment h op
  | MONEY_PRINTER op => process_money_printer h op
  | OTHER_OPERATION _ => Ok (h, INVALID_OPERATION_TYPE)
  end.

(** The loop from operation [i] on: stops at the first failure, and returns how
    many operations succeeded. *)
Definition with_operation_id h (i : nat) : handler :=
  mkHandler (hs_manager h) (hs_db h)
    (set_operation_id (hs_metadata h) (u64 (sequenceNumber (tx_metadata (hs_metadata h)) + Z.of_nat i)))
    (hs_log h).
Fixpoint process_operations h (i : nat) (ops : list Operation) : result (outcome * nat) :=
  match ops with
  | [] => Ok (h, SUCCESS, i)
  | op :: ops =>
      let* q := process_operation (with_operation_id h i) op in
      if decide (q.2 = SUCCESS) then process_operations q.1 (i + 1) ops else Ok (q, i)
  end.

(** ** The log of modified accounts *)
Fixpoint log_operations (log : LG) (tx : Transaction) (i : nat) (ops : list Operation) : result LG :=
  match ops with
  | [] => Ok log
  | op :: ops =>
      let op_seq_number := u64 (sequenceNumber (metadata tx) + Z.of_nat i) in
      let* log :=
        match op with
        | CREATE_ACCOUNT op =>
            Ok (log_other_modification log (sourceAccount (metadata tx)) op_seq_number (newAccountId op))
        | PAYMENT op => Ok (log_other_modification log (sourceAccount (metadata tx)) op_seq_number (receiver op))
        | CREATE_SELL_OFFER _ | CANCEL_SELL_OFFER _ | MONEY_PRINTER _ => Ok log
        | OTHER_OPERATION _ => Throw "invalid op type "
        end in
      log_operations log tx (i + 1) ops
  end.

Definition log_modified_accounts (log : LG) (signed_tx : SignedTransaction) : result LG :=
  if sm_maintain_account_log (SerialManager := SM) then
    log_operations (log_new_self_transaction log signed_tx) (transaction signed_tx) 0
      (operations (transaction signed_tx))
  else Ok log.

(** ** Unwinding (block production) *)
Definition unwind_operation (s : S) (tx : Transaction) (op_id : Z) (op : Operation) : result S :=
  match op with
  | CREATE_ACCOUNT _ | PAYMENT _ | MONEY_PRINTER _ => Ok s
  | CREATE_SELL_OFFER op =>
      let* market_idx := sm_look_up_idx s (cso_category op) in
      let to_remove :=
        mkOffer (cso_category op) op_id (sourceAccount (metadata tx)) (cso_amount op) (cso_minPrice op) in
      sm_unwind_add_offer s market_idx to_remove
  | CANCEL_SELL_OFFER op =>
      let* market_idx := sm_look_up_idx s (can_category op) in
      sm_undelete_offer s market_idx (can_minPrice op) (sourceAccount (metadata tx)) (can_offerId op)
  | OTHER_OPERATION _ => Throw "cannot unwind unknown op type"
  end.

(** The loop over [op_idx = n - 1, ..., 0]. *)
Fixpoint unwind_operations (s : S) (tx : Transaction) (n : nat) : result S :=
  match n with
  | O => Ok s
  | Datatypes.S op_idx =>
      match operations tx !! op_idx with
      | None => Throw "operations[op_idx]"
      | Some op =>
          let* s := unwind_operation s tx (u64 (sequenceNumber (metadata tx) + Z.of_nat op_idx)) op in
          unwind_operations s tx op_idx
      end
  end.
End Handler.

(** ** Transactions *)
Section Processor.
Context {T : Type} `{SequenceTracker T}.
Context {CT : Type} `{MerkleTrie AccountCommitment CT}.
Context {L : Type} `{LMDBInstance L}.
Context {LG : Type} `{SerialAccountModificationLog LG}.

Abbreviation DB := (MemoryDatabase.t T CT L).

(** [sig_check] of src/crypto, a call into libsodium, and the configuration. *)
Variable sig_check : Transaction -> list Z -> PublicKey -> bool.
Variable check_sigs : bool.

Definition account_pk (db : DB) (i : nat) : result PublicKey :=
  match MemoryDatabase.database db !! i with
  | Some a => Ok (UserAccount.pk a)
  | None => Throw "dangling UserAccount pointer"
  end.

Definition signature_ok (db : DB) (i : nat) (signed_tx : SignedTransaction) : result bool :=
  if check_sigs then
    let* pk := account_pk db i in
    Ok (sig_check (transaction signed_tx) (signature signed_tx) pk)
  else Ok true.

Section Production.
Context {TR : Type} `{OfferTrie TR} {M : Type} `{MainManager TR M} `{BigEndian}.
Abbreviation Buffer := (BaseSerialManager (TR := TR) (M := M)).
Abbreviation View := (BufferedMemoryDatabaseView (T := T)).
Abbreviation PSM := (ProcessingSerialManager (D := DB) (V := View) (LG := LG)).

(** The tail of [unwind_transaction]: its own metadata is only used for ids. *)
Definition unwind_transaction (s : Buffer) (db : DB) (tx : Transaction) (last_valid_op : nat) : result Buffer :=
  match MemoryDatabase.lookup_user db (sourceAccount (metadata tx)) with
  | None => Throw "can't unwind tx from nonexistnet acct"
  | Some _ => unwind_operations PSM s tx last_valid_op
  end.

(** [op_metadata.unwind()] followed by the destructor. *)
Definition unwind_metadata (db : DB) (m : OperationMetadata View) : result DB :=
  let* db := buffered_unwind db (db_view m) in
  let* _ := destroy (set_committed m) in
  Ok db.
Definition commit_metadata (db : DB) (m : OperationMetadata View) (stats : BlockStateUpdateStats)
    : DB * OperationMetadata View * BlockStateUpdateStats :=
  (dv_commit db (db_view m), set_committed m, stats_add stats (local_stats m)).

Definition process_transaction (s : Buffer) (db : DB) (signed_tx : SignedTransaction)
    (stats : BlockStateUpdateStats) (serial_account_log : LG)
    : result (Buffer * DB * BlockStateUpdateStats * LG * TransactionProcessingStatus) :=
  let tx := transaction signed_tx in
  let tx_op_count := Z.of_nat (length (operations tx)) in
  if negb (check_tx_format_parameters tx) then Ok (s, db, stats, serial_account_log, INVALID_TX_FORMAT) else
  let fee_req := fee_required tx_op_count in
  if maxFee tx <? fee_req then Ok (s, db, stats, serial_account_log, FEE_BID_TOO_LOW) else
  match MemoryDatabase.lookup_user db (sourceAccount (metadata tx)) with
  | None => Ok (s, db, stats, serial_account_log, SOURCE_ACCOUNT_NEXIST)
  | Some source_account_idx =>
      let* sig_ok := signature_ok db source_account_idx signed_tx in
      if negb sig_ok then Ok (s, db, stats, serial_account_log, BAD_SIGNATURE) else
      let op_metadata := new_metadata (metadata tx) (DbPtr source_account_idx) (empty_buffered (T := T)) in
      let* q := dv_reserve_sequence_number db (db_view op_metadata) (DbPtr source_account_idx)
                  (sequenceNumber (metadata tx)) in
      let '(db, v, seq_num_status) := q in
      let op_metadata := set_view op_metadata v in
      if decide (seq_num_status <> SUCCESS) then
        let* db := unwind_metadata db op_metadata in
        Ok (s, db, stats, serial_account_log, seq_num_status)
      else
      let* q := dv_transfer_available db (db_view op_metadata) (DbPtr source_account_idx)
                  MemoryDatabase.NATIVE_ASSET (i64 (- fee_req)) in
      let '(db, v, fee_status) := q in
      let op_metadata := set_view op_metadata v in
      if decide (fee_status <> SUCCESS) then
        let* db := unwind_metadata db op_metadata in
        Ok (s, db, stats, serial_account_log, fee_status)
      else
      let* q := process_operations PSM (mkHandler s db op_metadata serial_account_log) 0 (operations tx) in
      let '(h, status, done) := q in
      if decide (status <> SUCCESS) then
        let* s := unwind_transaction (hs_manager h) (hs_db h) tx done in
        let* db := unwind_metadata (hs_db h) (hs_metadata h) in
        Ok (s, db, stats, hs_log h, status)
      else
        let '(db, m, stats) := commit_metadata (hs_db h) (hs_metadata h) stats in
        let* lg := log_modified_accounts PSM (hs_log h) signed_tx in
        let* _ := destroy m in
        Ok (hs_manager h, db, stats, lg, SUCCESS)
  end.
End Production.

(** ** Validation, on any view [v] and any buffer *)
Section Validation.
Context {V S : Type} `{DatabaseView DB V}.
Context (SM : SerialManager DB V LG S).

(** On failure nothing is undone here: the changed state is returned with [false]. *)
Definition validate_transaction (v : V) (s : S) (db : DB) (signed_tx : SignedTransaction)
    (stats : BlockStateUpdateStats) (serial_account_log : LG)
    : result (S * DB * BlockStateUpdateStats * LG * bool) :=
  let tx := transaction signed_tx in
  let tx_op_count := Z.of_nat (length (operations tx)) in
  if negb (check_tx_format_parameters tx) then Ok (s, db, stats, serial_account_log, false) else
  match MemoryDatabase.lookup_user db (sourceAccount (metadata tx)) with
  | None => Ok (s, db, stats, serial_account_log, false)
  | Some source_account_idx =>
      let fee_req := fee_required tx_op_count in
      if maxFee tx <? fee_req then Ok (s, db, stats, serial_account_log, false) else
      let* sig_ok := signature_ok db source_account_idx signed_tx in
      if negb sig_ok then Ok (s, db, stats, serial_account_log, false) else
      let op_metadata := set_no_unwind (new_metadata (metadata tx) (DbPtr source_account_idx) v) in
      let* q := dv_reserve_sequence_number db (db_view op_metadata) (DbPtr source_account_idx)
                  (sequenceNumber (metadata tx)) in
      let '(db, v, id_status) := q in
      let op_metadata := set_view op_metadata v in
      if decide (id_status <> SUCCESS) then Ok (s, db, stats, serial_account_log, false) else
      let* q := dv_transfer_available db (db_view op_metadata) (DbPtr source_account_idx)
                  MemoryDatabase.NATIVE_ASSET (i64 (- fee_req)) in
      let '(db, v, fee_status) := q in
      let op_metadata := set_view op_metadata v in
      if decide (fee_status <> SUCCESS) then Ok (s, db, stats, serial_account_log, false) else
      let* q := process_operations SM (mkHandler s db op_metadata serial_account_log) 0 (operations tx) in
      let '(h, status, _) := q in
      if decide (status <> SUCCESS) then Ok (hs_manager h, hs_db h, stats, hs_log h, false)
      else
        let* lg := log_modified_accounts SM (hs_log h) signed_tx in
        let* _ := destroy (hs_metadata h) in
        Ok (hs_manager h, dv_commit (hs_db h) (db_view (hs_metadata h)),
            stats_add stats (local_stats (hs_metadata h)), lg, true)
  end.
End Validation.
End Processor.
