(* ===== verification/TxAtomicity.v ===== *)
(** * Failed transactions leave no trace, successful ones conserve assets

    The operation handlers of TxProcessor.v run on the buffered view
    (DbView.v) and the block production buffer (SerialManager.v).  Every handler
    is total, describes what it moves, and is undone by [unwind_operation];
    from this the behaviour of [process_transaction] follows. *)
From stdpp Require Import base gmap list strings.
From S2P Require Import Prelude Types PriceArith Offers Clearing Asset SeqTracker Accounts AccountLmdb Database DbView SerialManager TxProcessor.

Section Atomicity.
Context {T : Type} `{SequenceTrackerRefines T}.
Context {CT : Type} `{MerkleTrie AccountCommitment CT}.
Context {L : Type} `{LMDBInstance L}.
Context {LG : Type} `{SerialAccountModificationLog LG}.
Context {TR : Type} `{OfferTrie TR} {M : Type} `{MainManager TR M} `{!MainManagerLaws TR M} `{BigEndian}.

Abbreviation DB := (MemoryDatabase.t T CT L).
Abbreviation View := (BufferedMemoryDatabaseView (T := T)).
Abbreviation Buffer := (BaseSerialManager (TR := TR) (M := M)).
Abbreviation PSM := (ProcessingSerialManager (D := DB) (V := View) (LG := LG)).
Abbreviation Handler := (handler (D := DB) (V := View) (LG := LG) (S := Buffer)).

(** ** Totals over the accounts of a view *)
Definition ptrs (db0 : DB) (v : View) : list ptr :=
  (DbPtr <$> seq 0 (length (MemoryDatabase.database db0))) ++ (NewPtr <$> (new_accounts (creation v)).*1).

Definition view_total (db0 : DB) (v : View) (a : nat) : Z :=
  sum_by (fun p => view_balance db0 v p a) (ptrs db0 v).

Lemma ptrs_valid db0 v p : p ∈ ptrs db0 v <-> valid_ptr db0 v p.
Proof.
  unfold ptrs. rewrite elem_of_app, !list_elem_of_fmap. destruct p as [i|id]; simpl.
  - split; [|intros Hi; left; exists i; split; [done|by apply elem_of_seq; lia]].
    intros [(j & [= ->] & Hj%elem_of_seq)|(? & ? & _)]; [lia|done].
  - split; [|intros Hi; right; by exists id]. by intros [(? & ? & _)|(j & [= ->] & Hj)].
Qed.

Lemma ptrs_nodup db0 v : NoDup (new_accounts (creation v)).*1 -> NoDup (ptrs db0 v).
Proof.
  intros Hn. apply NoDup_app. split_and!.
  - apply NoDup_fmap_2; [|apply NoDup_seq]. by intros i j [= ->].
  - intros p Hp Hp'. apply list_elem_of_fmap in Hp as (? & -> & _), Hp' as (? & [=] & _).
  - apply NoDup_fmap_2; [|done]. by intros i j [= ->].
Qed.

(** An operation on one pointer changes the totals by what it moved. *)
Lemma moved_total db0 v v' p k x s a :
  NoDup (new_accounts (creation v)).*1 -> valid_ptr db0 v p -> moved db0 v v' p k x s ->
  i64 (view_total db0 v' a) = i64 (view_total db0 v a + (if decide (s = SUCCESS /\ Z.to_nat k = a) then x else 0)).
Proof.
  intros Hn Hp [Mb Mi _]. unfold view_total.
  assert (Ep : ptrs db0 v' = ptrs db0 v) by (unfold ptrs; by rewrite Mi). rewrite Ep.
  set (g q := view_balance db0 v q a + (if decide (s = SUCCESS /\ q = p /\ Z.to_nat k = a) then x else 0)).
  assert (Hg : sum_by (fun q => view_balance db0 v' q a) (ptrs db0 v) = sum_by (fun q => i64 (g q)) (ptrs db0 v)).
  { apply sum_by_ext, Forall_forall. intros q Hq%ptrs_valid. by apply Mb. }
  rewrite Hg, i64_sum. f_equal.
  rewrite (sum_by_point (fun q => view_balance db0 v q a) g _ p (ptrs_nodup _ _ Hn)).
  - unfold g. destruct (decide (s = SUCCESS /\ Z.to_nat k = a)) as [Hd|Hd].
    + rewrite decide_True by tauto. lia.
    + rewrite decide_False by tauto. lia.
  - by apply ptrs_valid.
  - intros q _ Hne. unfold g. rewrite decide_False by tauto. lia.
Qed.

(** ** One step of a handler *)
Section Steps.
Context (db0 : DB) (Hdb0 : db_ok db0) (rs : list (ptr * Z)).
Implicit Types h : Handler.

Definition view_of h : View := db_view (hs_metadata h).

Record hinv h : Prop := {
  hi_view : view_inv db0 (hs_db h) (view_of h);
  hi_source : valid_ptr db0 (view_of h) (source h);
  hi_reservations : reservations (creation (view_of h)) = rs;
  hi_manager : manager_ok (main_manager (hs_manager h))
}.

(** The metadata fields no operation changes. *)
Definition same_tx (m m' : OperationMetadata View) : Prop :=
  tx_metadata m' = tx_metadata m /\ source_account_idx m' = source_account_idx m /\
  operation_id m' = operation_id m.

(** A step that leaves the offers alone and moves [δ] in total. *)
Record hstep h h' (δ : nat -> Z) : Prop := {
  st_inv : hinv h';
  st_log : hs_log h' = hs_log h;
  st_tx : same_tx (hs_metadata h) (hs_metadata h');
  st_manager : hs_manager h' = hs_manager h;
  st_valid p : valid_ptr db0 (view_of h) p -> valid_ptr db0 (view_of h') p;
  st_total a : i64 (view_total db0 (view_of h') a) = i64 (view_total db0 (view_of h) a + δ a)
}.

Lemma hstep_trans h1 h2 h3 δ ε : hstep h1 h2 δ -> hstep h2 h3 ε -> hstep h1 h3 (fun a => δ a + ε a).
Proof.
  intros [A1 A2 A3 A4 A5 A6] [B1 B2 B3 B4 B5 B6]. constructor; try done; try congruence.
  - destruct A3 as (? & ? & ?), B3 as (? & ? & ?). split_and!; congruence.
  - auto.
  - intros a. rewrite B6, <- i64_add_l, A6, i64_add_l. f_equal. lia.
Qed.

Lemma hstep_ext h h' δ ε : (forall a, i64 (δ a) = i64 (ε a)) -> hstep h h' δ -> hstep h h' ε.
Proof.
  intros E [A1 A2 A3 A4 A5 A6]. constructor; try done. intros a. rewrite A6.
  by rewrite <- i64_add_r, E, i64_add_r.
Qed.

Lemma hstep_counted h s : hinv h -> hstep h (counted h s) (fun _ => 0).
Proof. intros []. constructor; try done. intros a. by rewrite Z.add_0_r. Qed.

Lemma hstep_refl h : hinv h -> hstep h h (fun _ => 0).
Proof. intros Hh. constructor; try done. intros a. by rewrite Z.add_0_r. Qed.

(** What a move adds to the totals. *)
Definition delta (s : TransactionProcessingStatus) (k x : Z) : nat -> Z :=
  fun a => if decide (s = SUCCESS /\ Z.to_nat k = a) then x else 0.

Lemma hstep_moved h db' v' p k x s :
  hinv h -> view_inv db0 db' v' -> valid_ptr db0 (view_of h) p -> moved db0 (view_of h) v' p k x s ->
  hstep h (set_db h db' v') (delta s k x).
Proof.
  intros [Iv Is Ir Im] Hv Hp Hm.
  assert (Hval : forall q, valid_ptr db0 (view_of h) q -> valid_ptr db0 v' q).
  { intros [i|id]; [done|]. cbn [valid_ptr]. by rewrite (moved_ids _ _ _ _ _ _ _ Hm). }
  constructor; try done; [constructor; [done|by apply Hval|by rewrite <- Ir; apply Hm|done]|].
  intros a. apply (moved_total db0 (view_of h) v' p k x s a); [apply Iv|done|done].
Qed.

Lemma view_transfer_spec h p k x :
  hinv h -> valid_ptr db0 (view_of h) p ->
  exists h' s, view_transfer_available h p k x = Ok (h', s) /\ hstep h h' (delta s k x).
Proof.
  intros Hh Hp. destruct (buffered_transfer_spec db0 (hs_db h) (view_of h) p k x Hdb0 (hi_view _ Hh) Hp)
    as (db' & v' & s & E & Hv & Hm).
  unfold view_transfer_available. cbn [dv_transfer_available buffered_view]. unfold view_of in E. rewrite E.
  do 2 eexists. split; [reflexivity|]. by apply (hstep_moved h db' v' p).
Qed.

Lemma view_escrow_spec h p k x :
  hinv h -> valid_ptr db0 (view_of h) p -> in_i64 x ->
  exists h' s, view_escrow h p k x = Ok (h', s) /\ hstep h h' (delta s k (- x)).
Proof.
  intros Hh Hp Hx. destruct (buffered_escrow_spec db0 (hs_db h) (view_of h) p k x Hdb0 (hi_view _ Hh) Hp Hx)
    as (db' & v' & s & E & Hv & Hm).
  unfold view_escrow. cbn [dv_escrow buffered_view]. unfold view_of in E. rewrite E.
  do 2 eexists. split; [reflexivity|]. by apply (hstep_moved h db' v' p).
Qed.

Lemma create_account_spec h id pk :
  hinv h ->
  exists db' v' s p, dv_create_new_account (hs_db h) (view_of h) id pk = Ok (db', v', s, p) /\
    hstep h (set_db h db' v') (fun _ => 0) /\
    (s = SUCCESS -> p = Some (NewPtr id) /\ valid_ptr db0 v' (NewPtr id)).
Proof.
  intros [Iv Is Ir Im]. destruct (create_new_account_spec db0 (hs_db h) (view_of h) id pk Hdb0 Iv)
    as (db' & c & s & p & E & Hv & Hr & Hb & Hfail & Hok).
  cbn [dv_create_new_account buffered_view]. rewrite E. do 4 eexists. split; [reflexivity|].
  set (v' := mkBuffered c (accounts (view_of h))) in *.
  destruct (decide (s = SUCCESS)) as [Hs|Hs].
  - destruct (Hok Hs) as (Ep & Hnew & Hids & Hzero).
    assert (Hval : forall q, valid_ptr db0 (view_of h) q -> valid_ptr db0 v' q).
    { intros [i|j]; [done|]. cbn [valid_ptr]. rewrite Hids. intros Hj. apply elem_of_cons. by right. }
    split; [|intros _; split; [done|cbn [valid_ptr]; rewrite Hids; by apply elem_of_cons; left]].
    constructor; try done; [constructor; [done|by apply Hval|by rewrite <- Ir; apply Hr|done]|]. intros a. f_equal. rewrite Z.add_0_r.
    unfold view_total, ptrs. cbn [view_of hs_metadata set_db db_view set_view]. rewrite Hids. fold v'.
    rewrite fmap_cons, !sum_by_app, sum_by_cons, Hzero.
    rewrite (sum_by_ext (fun p => view_balance db0 v' p a) (fun p => view_balance db0 (view_of h) p a)).
    2: { apply Forall_forall. intros q Hq. apply Hb, ptrs_valid, elem_of_app. by left. }
    rewrite (sum_by_ext (fun p => view_balance db0 v' p a) (fun p => view_balance db0 (view_of h) p a)
      (NewPtr <$> _)).
    2: { apply Forall_forall. intros q Hq. apply Hb, ptrs_valid, elem_of_app. by right. }
    lia.
  - destruct (Hfail Hs) as [-> Ev]. split; [|done]. fold v' in Ev. rewrite Ev.
    constructor; try done. intros a. by rewrite Z.add_0_r.
Qed.

(** ** What a handler does: undoable, and accounted for *)
Context (tx : Transaction) (Howner : in_u64 (sourceAccount (metadata tx))).

(** The key of an offer the transaction's account creates with id [id]. *)
Definition own_key (p id : Z) : Offers.key := Key.generate_orderbook_trie_key p (sourceAccount (metadata tx)) id.
Definition own_at (k : Offers.key) (id : Z) : Prop := exists p, 0 <= p <= Price.MAX_PRICE /\ k = own_key p id.
Definition fresh_id (s : Buffer) (id : Z) : Prop :=
  forall n p, 0 <= p <= Price.MAX_PRICE -> ot_map (new_at s n) !! own_key p id = None.

(** What the types of the XDR fields guarantee.  [process_operation] does not
    validate the pair a cancellation names: naming the last asset twice, it would
    read behind the last orderbook, which is left out here. *)
Definition op_ok (num_assets : Z) (op : Operation) : Prop :=
  match op with
  | CREATE_ACCOUNT op => in_i64 (startingBalance op)
  | CREATE_SELL_OFFER op => Category.nonneg (cso_category op) /\ in_i64 (cso_amount op) /\ 0 <= cso_minPrice op
  | CANCEL_SELL_OFFER op =>
      Category.nonneg (can_category op) /\ ~ Category.last_twice (can_category op) num_assets
  | PAYMENT op => 0 <= pay_asset op /\ in_i64 (pay_amount op)
  | MONEY_PRINTER op => 0 <= print_asset op /\ in_i64 (print_amount op)
  | OTHER_OPERATION _ => True
  end.

(** The error with which a cancellation leaves the processor: its pair is not one
    of two listed assets, or not of the type [SELL]. *)
Definition cancel_error (num_assets : Z) (op : Operation) (e : string) : Prop :=
  match op with
  | CANCEL_SELL_OFFER op => Category.category_to_idx (can_category op) num_assets = Throw e
  | _ => False
  end.
Definition tx_error (num_assets : Z) (ops : list Operation) (e : string) : Prop :=
  Exists (fun op => cancel_error num_assets op e) ops.
(** The cancellations for which there is no such error. *)
Definition cancel_listed (num_assets : Z) (op : Operation) : Prop :=
  match op with
  | CANCEL_SELL_OFFER op => Category.validate_category_ (can_category op) num_assets = true
  | _ => True
  end.

Lemma cancel_listed_ok num_assets op e :
  2 <= num_assets <= Category.MAX_INT_ASSETS -> op_ok num_assets op -> cancel_listed num_assets op ->
  ~ cancel_error num_assets op e.
Proof. destruct op; cbn [op_ok cancel_listed cancel_error]; try tauto. intros Hn [Hnn _] Hv. by apply Category.valid_has_idx. Qed.
Lemma cancels_listed_ok num_assets ops e :
  2 <= num_assets <= Category.MAX_INT_ASSETS -> Forall (op_ok num_assets) ops -> Forall (cancel_listed num_assets) ops ->
  ~ tx_error num_assets ops e.
Proof.
  intros Hn Hok Hl (op & Hin & He)%Exists_exists. rewrite Forall_forall in Hok. rewrite Forall_forall in Hl.
  by eapply cancel_listed_ok; [| |by apply Hl|]; [|by apply Hok|].
Qed.

(** The amount of asset [a] a successful operation creates. *)
Definition printed (op : Operation) (a : Z) : Z :=
  match op with
  | MONEY_PRINTER op => if print_asset op =? a then print_amount op else 0
  | _ => 0
  end.

Definition total h (a : Z) : Z := view_total db0 (view_of h) (Z.to_nat a) + offers_total (hs_manager h) a.

Record op_done h op h' (st : TransactionProcessingStatus) : Prop := {
  od_inv : hinv h';
  od_log : hs_log h' = hs_log h;
  od_tx : same_tx (hs_metadata h) (hs_metadata h');
  od_num : mm_num_assets (main_manager (hs_manager h')) = mm_num_assets (main_manager (hs_manager h));
  od_fail : st <> SUCCESS -> grown (hs_manager h) (hs_manager h');
  od_unwind : st = SUCCESS -> forall s2, grown (hs_manager h') s2 ->
    exists s3, unwind_operation PSM s2 tx (operation_id (hs_metadata h)) op = Ok s3 /\ grown (hs_manager h) s3;
  od_keys n k o : ot_map (new_at (hs_manager h') n) !! k = Some o ->
    ot_map (new_at (hs_manager h) n) !! k = Some o \/ own_at k (operation_id (hs_metadata h));
  od_total : st = SUCCESS -> forall a, 0 <= a -> i64 (total h' a) = i64 (total h a + printed op a)
}.

(** Handlers that leave the offers alone. *)
Lemma done_view h op h' st δ :
  hstep h h' δ ->
  (forall s2, unwind_operation PSM s2 tx (operation_id (hs_metadata h)) op = Ok s2) ->
  (st = SUCCESS -> forall a, 0 <= a -> i64 (δ (Z.to_nat a)) = i64 (printed op a)) ->
  op_done h op h' st.
Proof.
  intros [A1 A2 A3 A4 A5 A6] Hu Ht. constructor; try done; rewrite ?A4; try done.
  - intros _ s2 Hg. exists s2. by split; [apply Hu|].
  - intros n k o. by left.
  - intros Hs a Ha. unfold total. rewrite A4, <- i64_add_l, A6, i64_add_l.
    specialize (Ht Hs a Ha). i64_lia.
Qed.

(** A failure before the offers were touched. *)
Lemma done_fail h op h' st δ : hstep h h' δ -> st <> SUCCESS -> op_done h op h' st.
Proof.
  intros [A1 A2 A3 A4 A5 A6] Hs. constructor; try done; rewrite A4; try done. intros n k o. by left.
Qed.

Lemma and_then_ok h s (k : Handler -> result (Handler * TransactionProcessingStatus)) :
  and_then (Ok (h, s)) k = if decide (s = SUCCESS) then k h else Ok (h, s).
Proof. done. Qed.

Ltac on_failure := do 2 eexists; split; [reflexivity|]; eapply done_fail; [eassumption|discriminate || done].

Lemma process_create_account_spec h op :
  hinv h -> in_i64 (startingBalance op) ->
  exists h' st, process_create_account h op = Ok (h', st) /\ op_done h (CREATE_ACCOUNT op) h' st.
Proof.
  intros Hh Hb. pose proof (hstep_refl h Hh) as P0. unfold process_create_account.
  destruct (startingBalance op <? _); [on_failure|].
  destruct (create_account_spec h (newAccountId op) (newAccountPublicKey op) Hh) as (d & v & s & p & E & P1 & Hok).
  unfold view_of in E. rewrite E. cbn [result_bind]. rewrite and_then_ok.
  destruct (decide (s = SUCCESS)) as [Hs|Hs]; [|on_failure]. destruct (Hok Hs) as [-> Hp].
  set (h1 := set_db h d v) in *. pose proof (st_inv _ _ _ P1) as I1.
  destruct (view_transfer_spec h1 (source h1) MemoryDatabase.NATIVE_ASSET (i64 (- startingBalance op)) I1
    (hi_source _ I1)) as (h2 & s2 & E2 & P2). rewrite E2, and_then_ok.
  pose proof (hstep_trans _ _ _ _ _ P1 P2) as P12.
  destruct (decide (s2 = SUCCESS)) as [->|Hs2]; [|on_failure].
  destruct (is_valid_amount (startingBalance op)); cbn [negb]; [|on_failure].
  pose proof (st_inv _ _ _ P2) as I2.
  destruct (view_transfer_spec h2 (NewPtr (newAccountId op)) MemoryDatabase.NATIVE_ASSET (startingBalance op) I2)
    as (h3 & s3 & E3 & P3); [by apply (st_valid _ _ _ P2)|]. rewrite E3, and_then_ok.
  pose proof (hstep_trans _ _ _ _ _ P12 P3) as P13.
  destruct (decide (s3 = SUCCESS)) as [->|Hs3]; [|on_failure].
  do 2 eexists. split; [reflexivity|].
  apply (done_view _ _ _ _ _ (hstep_trans _ _ _ _ _ P13 (hstep_counted h3 one_new_account (st_inv _ _ _ P3))));
    [done|]. intros _ a _. unfold delta, printed. repeat case_decide; try tauto; i64_lia.
Qed.

Lemma process_payment_spec h op :
  hinv h -> 0 <= pay_asset op ->
  exists h' st, process_payment h op = Ok (h', st) /\ op_done h (PAYMENT op) h' st.
Proof.
  intros Hh Hk. pose proof (hstep_refl h Hh) as P0. unfold process_payment.
  destruct (is_valid_amount (pay_amount op)); cbn [negb]; [|on_failure].
  cbn [dv_lookup_user buffered_view]. fold (view_of h).
  destruct (creation_lookup_user (hs_db h) (creation (view_of h)) (receiver op)) as [p|] eqn:El; [|on_failure].
  pose proof (lookup_user_valid _ _ _ _ _ Hdb0 (hi_view _ Hh) El) as Hp.
  destruct (view_transfer_spec h (source h) (pay_asset op) (i64 (- pay_amount op)) Hh (hi_source _ Hh))
    as (h1 & s1 & E1 & P1). rewrite E1, and_then_ok.
  destruct (decide (s1 = SUCCESS)) as [->|Hs1]; [|on_failure].
  pose proof (st_inv _ _ _ P1) as I1.
  destruct (view_transfer_spec h1 p (pay_asset op) (pay_amount op) I1) as (h2 & s2 & E2 & P2);
    [by apply (st_valid _ _ _ P1)|]. rewrite E2, and_then_ok.
  pose proof (hstep_trans _ _ _ _ _ P1 P2) as P12.
  destruct (decide (s2 = SUCCESS)) as [->|Hs2]; [|on_failure].
  do 2 eexists. split; [reflexivity|].
  apply (done_view _ _ _ _ _ (hstep_trans _ _ _ _ _ P12 (hstep_counted h2 one_payment (st_inv _ _ _ P2))));
    [done|]. intros _ a _. unfold delta, printed. repeat case_decide; try tauto; i64_lia.
Qed.

Lemma process_money_printer_spec h op :
  hinv h -> 0 <= print_asset op ->
  exists h' st, process_money_printer h op = Ok (h', st) /\ op_done h (MONEY_PRINTER op) h' st.
Proof.
  intros Hh Hk. pose proof (hstep_refl h Hh) as P0. unfold process_money_printer.
  destruct (print_amount op <? 0); [on_failure|].
  destruct (view_transfer_spec h (source h) (print_asset op) (print_amount op) Hh (hi_source _ Hh))
    as (h1 & s1 & E1 & P1). rewrite E1. do 2 eexists. split; [reflexivity|].
  apply (done_view _ _ _ _ _ P1); [done|]. intros -> a Ha. unfold delta, printed.
  destruct (Z.eqb_spec (print_asset op) a) as [->|Hne].
  - by rewrite decide_True.
  - rewrite decide_False; [done|]. intros [_ ?]. lia.
Qed.

(** ** Handlers that change the offers *)
Lemma fresh_grown s s' id : grown s s' -> fresh_id s id -> fresh_id s' id.
Proof. intros Hg Hf n p Hp. rewrite (te_map _ _ (gr_new _ _ Hg n)). by apply Hf. Qed.

Lemma hinv_set_manager h s : hinv h -> manager_ok (main_manager s) -> hinv (set_manager h s).
Proof. by intros [] ?. Qed.

Lemma look_up_grown s s' id : main_equiv (main_manager s) (main_manager s') -> look_up_idx s' id = look_up_idx s id.
Proof. intros Hm. unfold look_up_idx. by rewrite !mm_look_up, (main_equiv_num _ _ Hm). Qed.

Lemma own_key_inj p id p' id' :
  0 <= p <= Price.MAX_PRICE -> 0 <= p' <= Price.MAX_PRICE -> in_u64 id -> in_u64 id' ->
  own_key p id = own_key p' id' -> id = id'.
Proof.
  intros Hp Hp' Hi Hi' E.
  destruct (Key.key_inj _ _ _ _ _ _ Hp Howner Hi Hp' Howner Hi' E) as (_ & _ & Eid). exact Eid.
Qed.

Lemma keys_inserted (s s' : Buffer) n o m (k : Offers.key) x :
  inserted s s' n o -> owner o = sourceAccount (metadata tx) -> 0 <= minPrice o <= Price.MAX_PRICE ->
  ot_map (new_at s' m) !! k = Some x -> ot_map (new_at s m) !! k = Some x \/ own_at k (offerId o).
Proof.
  intros [_ In _ _] Ho Hp. rewrite In. destruct (decide (m = n)) as [->|]; [|by left].
  rewrite ot_insert_map, lookup_insert_Some. intros [[<- _]|[_ ?]]; [right|by left].
  exists (minPrice o). split; [done|]. unfold Key.offer_key. by rewrite Ho.
Qed.
Lemma fresh_done h op h' st id :
  op_done h op h' st -> in_u64 (operation_id (hs_metadata h)) -> in_u64 id -> id <> operation_id (hs_metadata h) ->
  fresh_id (hs_manager h) id -> fresh_id (hs_manager h') id.
Proof.
  intros D Hid Hid' Hne Hf n p Hp. destruct (ot_map (new_at (hs_manager h') n) !! own_key p id) as [o|] eqn:E; [|done].
  destruct (od_keys _ _ _ _ D _ _ _ E) as [E'|(q & Hq & Ek)]; [by rewrite Hf in E'|].
  destruct Hne. exact (own_key_inj _ _ _ _ Hp Hq Hid' Hid Ek).
Qed.

(** The view part of both handlers: the escrow, and the totals around it. *)
Lemma escrow_step h s x k :
  hinv h -> manager_ok (main_manager s) -> in_i64 x ->
  exists h2 st, view_escrow (set_manager h s) (source h) k x = Ok (h2, st) /\
    hstep (set_manager h s) h2 (delta st k (- x)).
Proof.
  intros Hh Hm Hx. pose proof (hinv_set_manager h s Hh Hm) as Hh1.
  exact (view_escrow_spec (set_manager h s) (source h) k x Hh1 (hi_source _ Hh1) Hx).
Qed.

(** Success: the buffer went from [hs_manager h] to [s], the view moved [x]. *)
Lemma done_success h op s h2 st k x c :
  hstep (set_manager h s) h2 (delta st k x) -> st = SUCCESS -> 0 <= k ->
  mm_num_assets (main_manager s) = mm_num_assets (main_manager (hs_manager h)) ->
  (forall s2, grown s s2 -> exists s3,
    unwind_operation PSM s2 tx (operation_id (hs_metadata h)) op = Ok s3 /\ grown (hs_manager h) s3) ->
  (forall n k o, ot_map (new_at s n) !! k = Some o ->
    ot_map (new_at (hs_manager h) n) !! k = Some o \/ own_at k (operation_id (hs_metadata h))) ->
  (forall a, offers_total s a = offers_total (hs_manager h) a - (if k =? a then x else 0)) ->
  (forall a, printed op a = 0) ->
  op_done h op (counted h2 c) st.
Proof.
  intros [Si Sl St Sm Sv Ss] -> Hk Hnum Hun Hfr Htot Hpr. cbn [set_manager hs_manager hs_log hs_metadata] in *.
  constructor; cbn [counted hs_manager hs_log]; rewrite ?Sm; try done.
  - by destruct Si.
  - intros _ a Ha. unfold total. cbn [counted hs_manager]. rewrite Sm, Hpr, Htot.
    specialize (Ss (Z.to_nat a)). change (view_of (set_manager h s)) with (view_of h) in Ss.
    change (view_of (counted h2 c)) with (view_of h2). rewrite <- i64_add_l, Ss, i64_add_l. unfold delta. f_equal.
    destruct (Z.eqb_spec k a) as [->|].
    + rewrite decide_True by done. lia.
    + rewrite decide_False by (intros [_ ?]; lia). lia.
Qed.

(** Failure: the buffer was put back. *)
Lemma done_restored h op s h2 s3 st δ :
  hinv h -> hstep (set_manager h s) h2 δ -> st <> SUCCESS -> grown (hs_manager h) s3 ->
  op_done h op (set_manager h2 s3) st.
Proof.
  intros Hh [Si Sl St Sm Sv Ss] Hst Hg. pose proof (gr_main _ _ Hg) as Hm.
  cbn [set_manager hs_manager hs_log hs_metadata] in *.
  constructor; cbn [set_manager hs_manager hs_log]; try done.
  - apply hinv_set_manager; [done|]. apply (main_equiv_ok _ _ Hm), Hh.
  - by apply main_equiv_num.
  - intros n k' o. rewrite (te_map _ _ (gr_new _ _ Hg n)). by left.
Qed.

Lemma process_create_sell_offer_spec h op :
  hinv h -> tx_metadata (hs_metadata h) = metadata tx ->
  Category.nonneg (cso_category op) -> in_i64 (cso_amount op) -> 0 <= cso_minPrice op ->
  in_u64 (operation_id (hs_metadata h)) -> fresh_id (hs_manager h) (operation_id (hs_metadata h)) ->
  exists h' st, process_create_sell_offer PSM h op = Ok (h', st) /\ op_done h (CREATE_SELL_OFFER op) h' st.
Proof.
  intros Hh Etx Hnn Hamt Hprice Hid Hfresh. pose proof (hstep_refl h Hh) as P0.
  unfold process_create_sell_offer. cbn [sm_validate_category sm_look_up_idx sm_add_offer ProcessingSerialManager].
  destruct (validate_category (hs_manager h) (cso_category op)) eqn:Ev; cbn [negb]; [|on_failure].
  destruct (Price.is_valid_price (cso_minPrice op)) eqn:Epr; cbn [negb]; [|on_failure].
  destruct (is_valid_amount (cso_amount op)); cbn [negb]; [|on_failure].
  apply Price.is_valid_price_spec in Epr; [|done].
  assert (Hpr : 0 <= cso_minPrice op <= Price.MAX_PRICE) by (unfold Price.valid in Epr; lia).
  destruct (market_idx_spec (hs_manager h) _ (hi_manager _ Hh) Hnn Ev) as (i & Ei & Hi & Hlt & Ecat).
  rewrite Ei. cbn [result_bind]. set (o := make_offer op (hs_metadata h)).
  assert (Eo : o = mkOffer (cso_category op) (operation_id (hs_metadata h)) (sourceAccount (metadata tx))
    (cso_amount op) (cso_minPrice op)) by (unfold o, make_offer; by rewrite Etx).
  destruct (processing_add_offer_spec (hs_manager h) i o (hs_db h) (hs_metadata h) (hs_log h) Hi) as (s1 & -> & Hin).
  cbn [result_bind].
  assert (Hfo : ot_map (new_at (hs_manager h) (Z.to_nat i)) !! Key.offer_key o = None).
  { rewrite Eo. by apply Hfresh. }
  destruct (escrow_step h s1 (cso_amount op) (sellAsset (cso_category op)) Hh) as (h2 & st & E & Hst);
    [rewrite (in_main _ _ _ _ Hin); apply Hh|done|].
  change (mkHandler s1 (hs_db h) (hs_metadata h) (hs_log h)) with (set_manager h s1).
  change (source (set_manager h s1)) with (source h). rewrite E. cbn [result_bind fst snd].
  destruct (decide (st = SUCCESS)) as [Es|Es].
  - do 2 eexists. split; [reflexivity|].
    apply (done_success h _ s1 h2 SUCCESS (sellAsset (cso_category op)) (- cso_amount op)); try done.
    + by rewrite <- Es.
    + apply Hnn.
    + by rewrite (in_main _ _ _ _ Hin).
    + intros s2 Hg. unfold unwind_operation. cbn [sm_look_up_idx sm_unwind_add_offer ProcessingSerialManager].
      rewrite (look_up_grown s1 s2) by apply Hg. unfold look_up_idx in *. rewrite (in_main _ _ _ _ Hin), Ei.
      cbn [result_bind]. rewrite <- Eo. by apply (unwind_add_offer_spec (hs_manager h) s1).
    + intros n k x Hx. pose proof (keys_inserted _ _ _ _ n k x Hin) as Hk. rewrite Eo in Hk. by apply Hk.
    + intros a. rewrite (inserted_offers_total _ _ _ _ a Hin Hlt Hfo).
      rewrite Z2Nat.id, Ecat by lia. rewrite Eo. cbn [amount]. destruct (_ =? a); lia.
  - rewrite (st_manager _ _ _ Hst). cbn [sm_unwind_add_offer ProcessingSerialManager set_manager hs_manager].
    destruct (unwind_add_offer_spec (hs_manager h) s1 s1 i o Hi Hin Hfo) as (s3 & -> & Hg); [reflexivity|].
    cbn [result_bind]. do 2 eexists. split; [reflexivity|]. by apply (done_restored h _ s1 h2 s3 st _ Hh Hst).
Qed.

Lemma process_cancel_sell_offer_spec h op :
  let num := mm_num_assets (main_manager (hs_manager h)) in
  hinv h -> tx_metadata (hs_metadata h) = metadata tx -> op_ok num (CANCEL_SELL_OFFER op) ->
  (exists h' st, process_cancel_sell_offer PSM h op = Ok (h', st) /\ op_done h (CANCEL_SELL_OFFER op) h' st) \/
  exists e, process_cancel_sell_offer PSM h op = Throw e /\ cancel_error num (CANCEL_SELL_OFFER op) e.
Proof.
  intros num Hh Etx [Hnn Hlast]. unfold process_cancel_sell_offer.
  cbn [sm_delete_offer sm_look_up_idx ProcessingSerialManager].
  destruct (cancel_idx_spec (hs_manager h) _ (hi_manager _ Hh) Hnn Hlast) as [(e & Ee & ->)|(i & Ei & Hi & Hlt & Ecat)].
  { right. by exists e. }
  left. rewrite Ei, Etx. cbn [result_bind].
  destruct (delete_offer_spec (hs_manager h) i (can_minPrice op) (sourceAccount (metadata tx)) (can_offerId op)
    ltac:(lia) Hlt) as (s1 & r & -> & Hca).
  cbn [result_bind fst snd].
  destruct (ca_main _ _ _ _ _ Hca) as (l & Em & El).
  assert (Hm1 : manager_ok (main_manager s1)).
  { destruct (hi_manager _ Hh) as [? ?]. unfold manager_ok. rewrite Em, mm_num_assets_set, mm_books_set by done. by rewrite El. }
  destruct r as [o|].
  - destruct (escrow_step h s1 (i64 (- amount o)) (sellAsset (can_category op)) Hh Hm1 (i64_range _))
      as (h2 & st & E & Hst).
    change (source (set_manager h s1)) with (source h). rewrite E. cbn [result_bind fst snd].
    destruct (decide (st = SUCCESS)) as [Es|Es].
    + do 2 eexists. split; [reflexivity|].
      apply (done_success h _ s1 h2 SUCCESS (sellAsset (can_category op)) (amount o)); try done.
      * rewrite <- Es. refine (hstep_ext _ _ _ _ _ Hst). intros a. unfold delta. case_decide; i64_lia.
      * apply Hnn.
      * by rewrite Em, mm_num_assets_set.
      * intros s2 Hg. unfold unwind_operation. cbn [sm_look_up_idx sm_undelete_offer ProcessingSerialManager].
        rewrite (look_up_grown s1 s2) by apply Hg. unfold look_up_idx in *.
        rewrite Em, mm_look_up, mm_num_assets_set, <- mm_look_up, Ei. cbn [result_bind].
        by apply (undelete_offer_spec (hs_manager h) s1 s2 i _ _ _ o ltac:(lia)).
      * intros n k x. rewrite (ca_new _ _ _ _ _ Hca). by left.
      * intros a. rewrite (cancelled_offers_total _ _ _ _ _ a Hca). by rewrite Z2Nat.id, Ecat by lia.
    + rewrite (st_manager _ _ _ Hst). cbn [sm_undelete_offer ProcessingSerialManager set_manager hs_manager].
      destruct (undelete_offer_spec (hs_manager h) s1 s1 i _ _ _ o ltac:(lia) Hca) as (s3 & -> & Hg); [reflexivity|].
      cbn [result_bind]. do 2 eexists. split; [reflexivity|]. by apply (done_restored h _ s1 h2 s3 st _ Hh Hst).
  - do 2 eexists. split; [reflexivity|].
    apply (done_restored h _ s1 (set_manager h s1) s1 _ (fun _ => 0) Hh); [|done|by apply cancelled_none in Hca].
    apply hstep_refl, hinv_set_manager; done.
Qed.

(** Every handler is described by [op_done], or left with the error of a cancellation. *)
Lemma process_operation_spec h op :
  hinv h -> tx_metadata (hs_metadata h) = metadata tx ->
  op_ok (mm_num_assets (main_manager (hs_manager h))) op ->
  in_u64 (operation_id (hs_metadata h)) -> fresh_id (hs_manager h) (operation_id (hs_metadata h)) ->
  (exists h' st, process_operation PSM h op = Ok (h', st) /\ op_done h op h' st) \/
  exists e, process_operation PSM h op = Throw e /\ cancel_error (mm_num_assets (main_manager (hs_manager h))) op e.
Proof.
  intros Hh Etx Hop Hid Hf. destruct op as [op|op|op|op|op|tag]; cbn [process_operation op_ok] in *.
  3: by apply process_cancel_sell_offer_spec.
  all: left.
  - by apply process_create_account_spec.
  - destruct Hop as (? & ? & ?). by apply process_create_sell_offer_spec.
  - apply process_payment_spec; tauto.
  - apply process_money_printer_spec; tauto.
  - pose proof (hstep_refl h Hh) as P0. on_failure.
Qed.
(** ** The loop over the operations *)
Definition op_id (i : nat) : Z := u64 (sequenceNumber (metadata tx) + Z.of_nat i).

Lemma op_id_range i : in_u64 (op_id i).
Proof. apply u64_range. Qed.

Lemma op_id_inj i j : Z.of_nat i < 2 ^ 32 -> Z.of_nat j < 2 ^ 32 -> op_id i = op_id j -> i = j.
Proof.
  unfold op_id, u64. intros Hi Hj E.
  apply (f_equal (fun x => (x - sequenceNumber (metadata tx)) mod 2 ^ 64)) in E.
  rewrite !Zminus_mod_idemp_l, !Z.add_simpl_l, !Z.mod_small in E by lia. lia.
Qed.

(** What a run of the loop from operation [i] on did, when it stopped after [n]. *)
Record run_done h (i : nat) (ops : list Operation) h' (st : TransactionProcessingStatus) (n : nat) : Prop := {
  rd_inv : hinv h';
  rd_log : hs_log h' = hs_log h;
  rd_tx : tx_metadata (hs_metadata h') = tx_metadata (hs_metadata h);
  rd_source : source_account_idx (hs_metadata h') = source_account_idx (hs_metadata h);
  rd_count : (i <= n)%nat;
  rd_num : mm_num_assets (main_manager (hs_manager h')) = mm_num_assets (main_manager (hs_manager h));
  rd_keys m k o : ot_map (new_at (hs_manager h') m) !! k = Some o ->
    ot_map (new_at (hs_manager h) m) !! k = Some o \/ exists j, (i <= j < length (operations tx))%nat /\ own_at k (op_id j);
  rd_unwind s2 : grown (hs_manager h') s2 ->
    exists s3, unwind_operations PSM s2 tx n = unwind_operations PSM s3 tx i /\ grown (hs_manager h) s3;
  rd_total : st = SUCCESS -> forall a, 0 <= a ->
    i64 (total h' a) = i64 (total h a + sum_by (fun op => printed op a) ops);
  rd_known : st = SUCCESS -> Forall (fun op => forall t, op <> OTHER_OPERATION t) ops
}.

Lemma run_done_nil h i : hinv h -> run_done h i [] h SUCCESS i.
Proof.
  intros Hh. constructor; try done.
  - intros m k o. by left.
  - intros s2 Hg. by exists s2.
  - intros _ a _. by rewrite sum_by_nil, Z.add_0_r.
Qed.

Lemma with_operation_id_inv h i : hinv h -> hinv (with_operation_id h i).
Proof. by intros []. Qed.

Lemma run_done_fail h i op ops h' st :
  operations tx !! i = Some op -> tx_metadata (hs_metadata h) = metadata tx ->
  hinv h -> op_done (with_operation_id h i) op h' st -> st <> SUCCESS -> run_done h i (op :: ops) h' st i.
Proof.
  intros Hop Etx Hh [D1 D2 (D3 & D3' & _) D4 D5 D6 D7 D8] Hs. constructor; try done.
  { intros m k o Ho. destruct (D7 _ _ _ Ho) as [?|Hk]; [by left|right]. exists i.
    cbn [with_operation_id hs_metadata operation_id set_operation_id] in Hk. rewrite Etx in Hk.
    split; [|done]. pose proof (lookup_lt_Some _ _ _ Hop). lia. }
  intros s2 Hg. exists s2. split; [done|]. transitivity (hs_manager h'); [by apply D5|done].
Qed.

Lemma run_done_step h i op ops h1 h' st n :
  operations tx !! i = Some op -> tx_metadata (hs_metadata h) = metadata tx ->
  process_operation PSM (with_operation_id h i) op = Ok (h1, SUCCESS) ->
  op_done (with_operation_id h i) op h1 SUCCESS -> run_done h1 (i + 1) ops h' st n ->
  run_done h i (op :: ops) h' st n.
Proof.
  intros Hop Etx Erun [D1 D2 (D3 & D3' & _) D4 D5 D6 D7 D8] [R1 R2 R3 R3' R4 Rn Rk R5 R6 R7].
  constructor; try done; try lia.
  - by rewrite R2, D2.
  - by rewrite R3, D3.
  - by rewrite R3', D3'.
  - by rewrite Rn, D4.
  - intros m k o Ho. destruct (Rk _ _ _ Ho) as [Ho1|(j & Hj & Hk)]; [|right; exists j; split; [lia|done]].
    destruct (D7 _ _ _ Ho1) as [?|Hk]; [by left|right]. exists i.
    cbn [with_operation_id hs_metadata operation_id set_operation_id] in Hk. rewrite Etx in Hk.
    split; [|done]. pose proof (lookup_lt_Some _ _ _ Hop). lia.
  - intros s2 Hg. destruct (R5 s2 Hg) as (s3 & -> & Hg3).
    replace (i + 1)%nat with (Datatypes.S i) by lia. cbn [unwind_operations]. rewrite Hop.
    destruct (D6 eq_refl s3 Hg3) as (s4 & E4 & Hg4).
    cbn [with_operation_id hs_metadata operation_id set_operation_id] in E4. rewrite Etx in E4. rewrite E4.
    cbn [result_bind]. by exists s4.
  - intros Hs a Ha. rewrite (R6 Hs a Ha), <- i64_add_l, (D8 eq_refl a Ha), i64_add_l, sum_by_cons.
    f_equal. change (total (with_operation_id h i) a) with (total h a). lia.
  - intros Hs. constructor; [|by apply R7]. intros t ->. cbn [process_operation] in Erun. discriminate.
Qed.

Lemma process_operations_spec i ops h :
  Z.of_nat (length (operations tx)) < 2 ^ 32 -> ops = drop i (operations tx) ->
  hinv h -> tx_metadata (hs_metadata h) = metadata tx ->
  Forall (op_ok (mm_num_assets (main_manager (hs_manager h)))) ops ->
  (forall j, (i <= j)%nat -> (j < length (operations tx))%nat -> fresh_id (hs_manager h) (op_id j)) ->
  (exists h' st n, process_operations PSM h i ops = Ok (h', st, n) /\ run_done h i ops h' st n) \/
  exists e, process_operations PSM h i ops = Throw e /\ tx_error (mm_num_assets (main_manager (hs_manager h))) ops e.
Proof.
  intros Hlen. revert i h. induction ops as [|op ops IH]; intros i h Eops Hh Etx Hok Hf.
  { left. do 3 eexists. split; [reflexivity|by apply run_done_nil]. }
  assert (Hop : operations tx !! i = Some op).
  { replace i with (i + 0)%nat by lia. by rewrite <- lookup_drop, <- Eops. }
  pose proof (lookup_lt_Some _ _ _ Hop) as Hi. inversion_clear Hok as [|? ? Hok1 Hok2].
  cbn [process_operations].
  destruct (process_operation_spec (with_operation_id h i) op) as [(h1 & st & E & Hd)|(e & E & He)].
  { by apply with_operation_id_inv. }
  { exact Etx. }
  { exact Hok1. }
  { apply u64_range. }
  { cbn [with_operation_id hs_metadata operation_id set_operation_id hs_manager]. rewrite Etx. by apply Hf. }
  2: { right. exists e. rewrite E. split; [done|]. by apply Exists_cons_hd. }
  rewrite E. cbn [result_bind fst snd]. destruct (decide (st = SUCCESS)) as [->|Hs].
  2: { left. do 3 eexists. split; [reflexivity|]. by eapply run_done_fail. }
  destruct (IH (i + 1)%nat h1) as [(h' & st' & n & E' & Hr)|(e & E' & He)].
  - apply (f_equal (drop 1)) in Eops. by rewrite drop_drop in Eops.
  - apply Hd.
  - destruct (od_tx _ _ _ _ Hd) as (-> & _). exact Etx.
  - by rewrite (od_num _ _ _ _ Hd).
  - intros j Hj Hj'. apply (fresh_done _ _ _ _ _ Hd); [apply u64_range|apply op_id_range| |apply Hf; lia].
    cbn [with_operation_id hs_metadata operation_id set_operation_id]. rewrite Etx. intros Ej%op_id_inj; lia.
  - left. rewrite E'. do 3 eexists. split; [reflexivity|]. by eapply run_done_step.
  - right. exists e. split; [done|]. apply Exists_cons_tl. by rewrite (od_num _ _ _ _ Hd) in He.
Qed.
End Steps.

(** ** Totals over a database *)
Implicit Types (db : DB) (v : View).
Definition asset_units (n : nat) (a : UserAccount.t T) : Z := RevertableAsset.available (UserAccount.asset_of a n).
Definition db_total db (n : nat) : Z :=
  sum_by (asset_units n) (MemoryDatabase.database db ++ MemoryDatabase.uncommitted_db db).

Lemma view_total_split db0 v n :
  view_total db0 v n =
    sum_by (fun i => view_balance db0 v (DbPtr i) n) (seq 0 (length (MemoryDatabase.database db0))) +
    sum_by (fun id => view_balance db0 v (NewPtr id) n) (new_accounts (creation v)).*1.
Proof. unfold view_total, ptrs. by rewrite sum_by_app, !sum_by_fmap. Qed.

Lemma new_accounts_total db0 v n :
  NoDup (new_accounts (creation v)).*1 ->
  sum_by (fun id => view_balance db0 v (NewPtr id) n) (new_accounts (creation v)).*1 =
    sum_by (asset_units n) (new_accounts (creation v)).*2.
Proof.
  cbn [view_balance]. generalize (new_accounts (creation v)) as l.
  induction l as [|[id a] l IH]; [done|]. rewrite !fmap_cons, NoDup_cons. intros [Hid Hn].
  rewrite !sum_by_cons, <- IH by done. cbn [find_new fst snd]. rewrite Z.eqb_refl. f_equal.
  apply sum_by_ext, Forall_forall. intros id' Hin. cbn [find_new].
  destruct (Z.eqb_spec id' id) as [->|]; done.
Qed.

Lemma committed_total db0 db v db' n :
  view_inv db0 db v -> committed db0 v db' ->
  db_total db' n = view_total db0 v n + sum_by (asset_units n) (MemoryDatabase.uncommitted_db db0).
Proof.
  intros Hv [_ Cl Ca Cu]. unfold db_total. rewrite Cu, !sum_by_app, view_total_split, new_accounts_total by apply Hv.
  rewrite (sum_by_lookup _ (MemoryDatabase.database db')), Cl.
  rewrite (sum_by_ext _ (fun i => view_balance db0 v (DbPtr i) n)); [lia|].
  apply Forall_forall. intros i Hi%elem_of_seq. destruct (lookup_lt_is_Some_2 (MemoryDatabase.database db0) i) as [a0 E0];
    [lia|]. destruct (Ca i a0 E0) as (a & -> & Hs & _). cbn [view_balance]. rewrite E0.
  unfold asset_units. by rewrite (shift_asset _ _ _ Hs).
Qed.

Lemma view_total_empty db n :
  db_ok db -> view_total db empty_buffered n = sum_by (asset_units n) (MemoryDatabase.database db).
Proof.
  intros [Hok _]. rewrite view_total_split. cbn [empty_buffered creation empty_creation_view new_accounts fmap list_fmap].
  rewrite sum_by_nil, Z.add_0_r, (sum_by_lookup _ (MemoryDatabase.database db)).
  apply sum_by_ext, Forall_forall. intros i _. cbn [view_balance].
  destruct (_ !! i) as [a|] eqn:E; [|done].
  destruct (Forall_lookup_1 _ _ _ _ Hok E) as [Hwf _]. unfold asset_units.
  replace (net_at empty_buffered i n) with 0 by done. rewrite Z.add_0_r. apply i64_id.
  by apply (UserAccount.asset_wf a n).
Qed.

Lemma db_equiv_refl db : db_equiv db db.
Proof. by constructor. Qed.

(** ** The beginning of a transaction: sequence number and fee *)
Lemma lookup_user_account db id i :
  db_ok db -> MemoryDatabase.lookup_user db id = Some i ->
  exists a, MemoryDatabase.database db !! i = Some a.
Proof. intros [_ Hw] El. destruct (proj1 (Hw id i) El) as (a & Ha & _). by exists a. Qed.

Lemma reserve_empty_spec db i n :
  db_ok db -> (i < length (MemoryDatabase.database db))%nat -> in_u64 n ->
  exists db1 v1 st, dv_reserve_sequence_number db (empty_buffered (T := T)) (DbPtr i) n = Ok (db1, v1, st) /\
    view_inv db db1 v1 /\ (forall a, view_total db v1 a = view_total db empty_buffered a) /\
    reservations (creation v1) = (if decide (st = SUCCESS) then [(DbPtr i, n)] else []).
Proof.
  intros Hok Hi Hn. destruct (reserve_spec db db empty_buffered i n Hok (view_inv_empty _ Hok) Hi Hn eq_refl)
    as (db1 & c & st & E & Hv & Hnew & Hbal & Hres).
  cbn [dv_reserve_sequence_number buffered_view]. rewrite E. cbn [result_bind].
  do 3 eexists. split; [reflexivity|]. split; [exact Hv|]. split; [|exact Hres].
  intros a. rewrite !view_total_split. cbn [fst snd]. rewrite Hnew. f_equal; apply sum_by_ext, Forall_forall; intros; apply Hbal.
Qed.

Lemma unwind_metadata_spec db0 db (m : OperationMetadata View) :
  db_ok db0 -> view_inv db0 db (db_view m) ->
  exists db', unwind_metadata db m = Ok db' /\ db_equiv db0 db'.
Proof.
  intros Hok Hv. destruct (buffered_unwind_spec db0 db (db_view m) Hok Hv) as (db' & E & He).
  unfold unwind_metadata. rewrite E. cbn. by exists db'.
Qed.

Lemma log_operations_ok tx (lg : LG) i ops :
  Forall (fun op => forall t, op <> OTHER_OPERATION t) ops -> exists lg', log_operations lg tx i ops = Ok lg'.
Proof.
  intros Hk. revert lg i. induction Hk as [|op ops Hop Hops IH]; intros lg i; [by exists lg|].
  cbn [log_operations]. destruct op as [|op|op| |op|t]; try (by destruct (Hop t)); cbn [result_bind]; apply IH.
Qed.

(** ** Whole transactions *)
Section Transactions.
Variable sig_check : Transaction -> list Z -> PublicKey -> bool.
Variable check_sigs : bool.
Implicit Types (s : Buffer) (tx : Transaction) (lg : LG) (stats : BlockStateUpdateStats).

(** The source account exists and can still reserve the sequence number. *)
Definition accepts_number db tx : Prop :=
  exists i acct, MemoryDatabase.lookup_user db (sourceAccount (metadata tx)) = Some i /\
    MemoryDatabase.database db !! i = Some acct /\
    (st_reserve_sequence_number (UserAccount.seq_tracker acct) (sequenceNumber (metadata tx))).2 = SUCCESS.

(** What the caller guarantees: a well formed database and orderbook manager,
    the bounds of the XDR types, and that this thread has not yet buffered an
    offer with one of the transaction's ids, unless the transaction is refused
    before its operations run. *)
Record tx_ready s db tx : Prop := {
  tr_db : db_ok db;
  tr_manager : manager_ok (main_manager s);
  tr_owner : in_u64 (sourceAccount (metadata tx));
  tr_seq : in_u64 (sequenceNumber (metadata tx));
  tr_length : Z.of_nat (length (operations tx)) <= MAX_OPS_PER_TX;
  tr_ops : Forall (op_ok (mm_num_assets (main_manager s))) (operations tx);
  tr_fresh i : (i < length (operations tx))%nat -> check_tx_format_parameters tx = true -> accepts_number db tx ->
    fresh_id tx s (op_id tx i)
}.

Definition fee tx : Z := fee_required (Z.of_nat (length (operations tx))).

(** All units of an asset: on accounts, and locked in open offers. *)
Definition all_units s db (a : Z) : Z := db_total db (Z.to_nat a) + offers_total s a.

(** The effect of a successful transaction on the totals: what the money
    printer created, minus the fee. *)
Definition net_printed tx (a : Z) : Z :=
  sum_by (fun op => printed op a) (operations tx) - (if a =? MemoryDatabase.NATIVE_ASSET then fee tx else 0).

(** The accounts after a transaction that reserved at most one number. *)
Definition accounts_next db db' (reserved : option (nat * Z)) : Prop :=
  MemoryDatabase.user_id_to_idx_map db' = MemoryDatabase.user_id_to_idx_map db /\
  length (MemoryDatabase.database db') = length (MemoryDatabase.database db) /\
  forall j acct, MemoryDatabase.database db !! j = Some acct ->
    exists acct', MemoryDatabase.database db' !! j = Some acct' /\ UserAccount.owner acct' = UserAccount.owner acct /\
      (UserAccount.wf acct -> UserAccount.wf acct') /\
      UserAccount.seq_tracker acct' =
        match reserved with
        | Some (i, n) => if decide (i = j) then (st_reserve_sequence_number (UserAccount.seq_tracker acct) n).1
                         else UserAccount.seq_tracker acct
        | None => UserAccount.seq_tracker acct
        end.

(** What a transaction may put into the buffer of its thread. *)
Definition own_keys_only tx s s' : Prop :=
  forall m k o, ot_map (new_at s' m) !! k = Some o ->
    ot_map (new_at s m) !! k = Some o \/ exists j, (j < length (operations tx))%nat /\ own_at tx k (op_id tx j).

Record tx_succeeded s db tx s' db' : Prop := {
  su_total a : 0 <= a -> i64 (all_units s' db' a) = i64 (all_units s db a + net_printed tx a);
  su_map : MemoryDatabase.user_id_to_idx_map db' = MemoryDatabase.user_id_to_idx_map db;
  su_reserved : exists i acct acct',
    MemoryDatabase.lookup_user db (sourceAccount (metadata tx)) = Some i /\
    MemoryDatabase.database db !! i = Some acct /\ MemoryDatabase.database db' !! i = Some acct' /\
    (st_reserve_sequence_number (UserAccount.seq_tracker acct) (sequenceNumber (metadata tx))).2 = SUCCESS /\
    UserAccount.seq_tracker acct' =
      (st_reserve_sequence_number (UserAccount.seq_tracker acct) (sequenceNumber (metadata tx))).1;
  su_next : exists i, MemoryDatabase.lookup_user db (sourceAccount (metadata tx)) = Some i /\
    accounts_next db db' (Some (i, sequenceNumber (metadata tx)));
  su_manager : manager_ok (main_manager s');
  su_num : mm_num_assets (main_manager s') = mm_num_assets (main_manager s);
  su_keys : own_keys_only tx s s';
  su_accepts : check_tx_format_parameters tx = true /\ accepts_number db tx
}.

Definition tx_outcome s db tx stats lg s' db' stats' lg' (st : TransactionProcessingStatus) : Prop :=
  if decide (st = SUCCESS) then tx_succeeded s db tx s' db'
  else grown s s' /\ db_equiv db db' /\ stats' = stats /\ lg' = lg.

Lemma outcome_fail s db tx stats lg s' db' st :
  st <> SUCCESS -> grown s s' -> db_equiv db db' -> tx_outcome s db tx stats lg s' db' stats lg st.
Proof. intros Hs Hg He. unfold tx_outcome. by rewrite decide_False. Qed.

(** The state when the operations start. *)
Lemma charged_spec s db tx i db1 v1 lg :
  tx_ready s db tx -> (i < length (MemoryDatabase.database db))%nat ->
  view_inv db db1 v1 -> (forall a, view_total db v1 a = view_total db empty_buffered a) ->
  reservations (creation v1) = [(DbPtr i, sequenceNumber (metadata tx))] ->
  exists db2 v2 st, dv_transfer_available db1 v1 (DbPtr i) MemoryDatabase.NATIVE_ASSET (i64 (- fee tx)) = Ok (db2, v2, st) /\
    view_inv db db2 v2 /\
    let h := mkHandler s db2 (set_view (new_metadata (metadata tx) (DbPtr i) v1) v2) lg in
    (st = SUCCESS -> hinv db [(DbPtr i, sequenceNumber (metadata tx))] h /\
      forall a, 0 <= a -> i64 (view_total db v2 (Z.to_nat a)) =
        i64 (view_total db empty_buffered (Z.to_nat a) - (if a =? MemoryDatabase.NATIVE_ASSET then fee tx else 0))).
Proof.
  intros R Hi Hv Ht Hr.
  destruct (buffered_transfer_spec db db1 v1 (DbPtr i) MemoryDatabase.NATIVE_ASSET (i64 (- fee tx)) (tr_db _ _ _ R) Hv Hi)
    as (db2 & v2 & st & E & Hv2 & Hm).
  cbn [dv_transfer_available buffered_view]. do 3 eexists. split; [exact E|]. split; [done|]. cbn zeta. intros ->.
  split; [constructor|].
  - exact Hv2.
  - exact Hi.
  - by rewrite <- Hr, <- (moved_reservations _ _ _ _ _ _ _ Hm).
  - apply R.
  - intros a Ha. rewrite (moved_total db v1 v2 (DbPtr i) _ _ _ _ (vi_new_ids _ _ _ Hv) Hi Hm), Ht.
    unfold MemoryDatabase.NATIVE_ASSET. destruct (Z.eqb_spec a 0) as [->|].
    + rewrite decide_True by done. i64_solve.
    + rewrite decide_False by (intros [_ ?]; lia). reflexivity.
Qed.

(** The operations of a charged transaction, up to the commit or the unwinding. *)
Lemma operations_spec s db tx i db2 v1 v2 lg :
  tx_ready s db tx -> check_tx_format_parameters tx = true -> accepts_number db tx ->
  let h := mkHandler s db2 (set_view (new_metadata (metadata tx) (DbPtr i) v1) v2) lg in
  let rs := [(DbPtr i, sequenceNumber (metadata tx))] in
  hinv db rs h ->
  (exists h' st n, process_operations PSM h 0 (operations tx) = Ok (h', st, n) /\
    run_done db rs tx h 0 (operations tx) h' st n) \/
  exists e, process_operations PSM h 0 (operations tx) = Throw e /\
    tx_error (mm_num_assets (main_manager s)) (operations tx) e.
Proof.
  intros [Rdb Rm Ro Rs Rl Rops Rf] Hfmt Hacc h rs Hh.
  apply (process_operations_spec db Rdb rs tx Ro); try done.
  - unfold MAX_OPS_PER_TX in Rl. lia.
  - intros j _ Hj. by apply Rf.
Qed.

(** A failed run is unwound. *)
Lemma unwind_spec s db tx rs h h' st n i :
  tx_ready s db tx -> hs_manager h = s -> MemoryDatabase.lookup_user db (sourceAccount (metadata tx)) = Some i ->
  run_done db rs tx h 0 (operations tx) h' st n ->
  exists s', unwind_transaction (LG := LG) (hs_manager h') (hs_db h') tx n = Ok s' /\ grown s s'.
Proof.
  intros R <- El Hr. destruct (rd_unwind _ _ _ _ _ _ _ _ _ Hr (hs_manager h')) as (s3 & E & Hg); [reflexivity|].
  exists s3. split; [|done]. unfold unwind_transaction, MemoryDatabase.lookup_user.
  rewrite (sf_map _ _ (vi_frame _ _ _ (hi_view _ _ _ (rd_inv _ _ _ _ _ _ _ _ _ Hr)))).
  unfold MemoryDatabase.lookup_user in El. rewrite El. exact E.
Qed.

Lemma balance_law V' U O' V O P D f :
  i64 (V' + O') = i64 (V + O + P) -> i64 V = i64 (D - f) -> i64 (V' + U + O') = i64 (D + U + O + (P - f)).
Proof.
  intros Ht Hf. replace (V' + U + O') with (V' + O' + U) by lia. rewrite <- i64_add_l, Ht, i64_add_l.
  replace (V + O + P + U) with (V + (O + P + U)) by lia. rewrite <- i64_add_l, Hf, i64_add_l. f_equal. lia.
Qed.

(** A successful run is committed. *)
Lemma commit_spec s db tx db2 v1 v2 lg i h' n :
  tx_ready s db tx -> check_tx_format_parameters tx = true -> accepts_number db tx ->
  MemoryDatabase.lookup_user db (sourceAccount (metadata tx)) = Some i ->
  let h := mkHandler s db2 (set_view (new_metadata (metadata tx) (DbPtr i) v1) v2) lg in
  let rs := [(DbPtr i, sequenceNumber (metadata tx))] in
  (forall a, 0 <= a -> i64 (view_total db v2 (Z.to_nat a)) =
     i64 (view_total db empty_buffered (Z.to_nat a) - (if a =? MemoryDatabase.NATIVE_ASSET then fee tx else 0))) ->
  run_done db rs tx h 0 (operations tx) h' SUCCESS n ->
  tx_succeeded s db tx (hs_manager h') (buffered_commit (hs_db h') (db_view (hs_metadata h'))).
Proof.
  intros R Hfmt Hacc El h rs Hfee Hr. pose proof (rd_inv _ _ _ _ _ _ _ _ _ Hr) as [Iv _ Irs _].
  pose proof (buffered_commit_spec db _ _ (tr_db _ _ _ R) Iv) as Hc. constructor.
  - intros a Ha. unfold all_units. rewrite (committed_total _ _ _ _ _ Iv Hc).
    pose proof (rd_total _ _ _ _ _ _ _ _ _ Hr eq_refl a Ha) as Ht. unfold total in Ht. cbn [h hs_manager] in Ht.
    change (view_of h) with v2 in Ht. specialize (Hfee a Ha).
    rewrite view_total_empty in Hfee by apply R. unfold db_total, net_printed. rewrite sum_by_app.
    set (U := sum_by (asset_units (Z.to_nat a)) (MemoryDatabase.uncommitted_db db)) in *.
    fold (view_of h').
    match type of Ht with i64 (?V' + ?O') = i64 (?V + ?O + ?P) => match type of Hfee with _ = i64 (?D - ?f) =>
      rewrite (balance_law V' U O' V O P D f Ht Hfee); f_equal; lia end end.
  - apply (cm_map _ _ _ Hc).
  - destruct (lookup_user_account db _ i (tr_db _ _ _ R) El) as [acct Ha].
    destruct (cm_account _ _ _ Hc i acct Ha) as (acct' & Ha' & _ & Ht).
    rewrite Irs in Ht.
    cbn [rs tracker_ok] in Ht. rewrite decide_True in Ht by done. destruct Ht as (_ & Et & Es).
    by exists i, acct, acct'.
  - exists i. split; [done|]. split_and!; [apply (cm_map _ _ _ Hc)|apply (cm_length _ _ _ Hc)|].
    intros j a0 Ha0. destruct (cm_account _ _ _ Hc j a0 Ha0) as (a & Ha & Hs & Ht). rewrite Irs in Ht.
    exists a. split_and!; [done|by apply Hs|by intros Hwf; eapply shift_wf|]. cbn [rs tracker_ok] in Ht.
    destruct (decide (i = j)) as [->|Hne]; [rewrite decide_True in Ht by done; tauto|].
    by rewrite decide_False in Ht by congruence.
  - apply (hi_manager _ _ _ (rd_inv _ _ _ _ _ _ _ _ _ Hr)).
  - apply (rd_num _ _ _ _ _ _ _ _ _ Hr).
  - intros m k o Ho. destruct (rd_keys _ _ _ _ _ _ _ _ _ Hr _ _ _ Ho) as [?|(j & Hj & ?)]; [by left|right].
    exists j. split; [lia|done].
  - done.
Qed.

(** [process_transaction] fails without a trace, succeeds as a whole, or is left
    with the error of a cancellation. *)
Definition returns_outcome s db tx stats lg
    (r : result (BaseSerialManager (TR := TR) (M := M) * DB * BlockStateUpdateStats * LG * TransactionProcessingStatus)) : Prop :=
  exists s' db' stats' lg' st, r = Ok (s', db', stats', lg', st) /\ tx_outcome s db tx stats lg s' db' stats' lg' st.

Lemma process_transaction_spec s db stx stats lg :
  tx_ready s db (transaction stx) ->
  returns_outcome s db (transaction stx) stats lg (process_transaction sig_check check_sigs s db stx stats lg) \/
  exists e, process_transaction sig_check check_sigs s db stx stats lg = Throw e /\
    tx_error (mm_num_assets (main_manager s)) (operations (transaction stx)) e.
Proof.
  intros R. set (tx := transaction stx) in *. unfold process_transaction. fold tx.
  assert (Hfail : forall (P : Prop) st, st <> SUCCESS -> returns_outcome s db tx stats lg (Ok (s, db, stats, lg, st)) \/ P).
  { intros P st Hst. left. do 5 eexists. split; [reflexivity|]. by apply outcome_fail; [|reflexivity|apply db_equiv_refl]. }
  destruct (check_tx_format_parameters tx) eqn:Hfmt; cbn [negb]; [|by apply Hfail].
  fold (fee tx). destruct (maxFee tx <? fee tx); [by apply Hfail|].
  destruct (MemoryDatabase.lookup_user db (sourceAccount (metadata tx))) as [i|] eqn:El; [|by apply Hfail].
  destruct (lookup_user_account db _ i (tr_db _ _ _ R) El) as [acct Ha].
  pose proof (lookup_lt_Some _ _ _ Ha) as Hi.
  assert (Hsig : exists b, signature_ok sig_check check_sigs db i stx = Ok b).
  { unfold signature_ok, account_pk. rewrite Ha. destruct check_sigs; by eexists. }
  destruct Hsig as [b ->]. cbn [result_bind]. destruct b; cbn [negb]; [|by apply Hfail].
  destruct (reserve_empty_spec db i (sequenceNumber (metadata tx)) (tr_db _ _ _ R) Hi (tr_seq _ _ _ R))
    as (db1 & v1 & st1 & E1 & Hv1 & Ht1 & Hr1).
  cbn [db_view new_metadata]. rewrite E1. cbn [result_bind].
  destruct (decide (st1 <> SUCCESS)) as [Hs1|Hs1].
  { destruct (unwind_metadata_spec db db1 (set_view (new_metadata (metadata tx) (DbPtr i) empty_buffered) v1)
      (tr_db _ _ _ R) Hv1) as (db' & -> & He). cbn [result_bind]. left. do 5 eexists. split; [reflexivity|].
    by apply outcome_fail. }
  apply dec_stable in Hs1. subst st1. rewrite decide_True in Hr1 by done.
  assert (Hacc : accepts_number db tx).
  { exists i, acct. split_and!; [done|done|]. destruct (vi_account _ _ _ Hv1 i acct Ha) as (? & _ & _ & Ht).
    rewrite Hr1 in Ht. cbn [tracker_ok] in Ht. rewrite decide_True in Ht by done. tauto. }
  destruct (charged_spec s db tx i db1 v1 lg R Hi Hv1 Ht1 Hr1) as (db2 & v2 & st2 & E2 & Hv2 & Hch).
  cbn [db_view set_view]. rewrite E2. cbn [result_bind].
  destruct (decide (st2 <> SUCCESS)) as [Hs2|Hs2].
  { destruct (unwind_metadata_spec db db2 (set_view (new_metadata (metadata tx) (DbPtr i) v1) v2)
      (tr_db _ _ _ R) Hv2) as (db' & Eu & He). unfold set_view, new_metadata in Eu |- *. cbn in Eu |- *.
    rewrite Eu. cbn [result_bind]. left. do 5 eexists. split; [reflexivity|]. by apply outcome_fail. }
  apply dec_stable in Hs2. destruct (Hch Hs2) as [Hh Hfee].
  pose proof (operations_spec s db tx i db2 v1 v2 lg R Hfmt Hacc Hh) as Hops.
  change (set_view (set_view (new_metadata (metadata tx) (DbPtr i) empty_buffered) v1) v2)
    with (set_view (new_metadata (metadata tx) (DbPtr i) v1) v2).
  destruct Hops as [(h' & st & n & -> & Hr)|(e & -> & He)]; [left|right; by exists e].
  cbn [result_bind]. destruct (decide (st <> SUCCESS)) as [Hs|Hs].
  - destruct (unwind_spec s db tx _ (mkHandler s db2 _ lg) h' st n i R eq_refl El Hr) as (s' & -> & Hg).
    destruct (unwind_metadata_spec db (hs_db h') (hs_metadata h') (tr_db _ _ _ R)
      (hi_view _ _ _ (rd_inv _ _ _ _ _ _ _ _ _ Hr))) as (db' & -> & He).
    cbn [result_bind]. do 5 eexists. split; [reflexivity|].
    rewrite (rd_log _ _ _ _ _ _ _ _ _ Hr). by apply outcome_fail.
  - apply dec_stable in Hs. subst st. cbn [commit_metadata]. unfold log_modified_accounts.
    cbn [sm_maintain_account_log ProcessingSerialManager].
    destruct (log_operations_ok tx (log_new_self_transaction (hs_log h') stx) 0 (operations tx)
      (rd_known _ _ _ _ _ _ _ _ _ Hr eq_refl)) as (lg' & El').
    fold tx. rewrite El'. cbn [result_bind destroy set_committed was_committed_or_unwound].
    do 5 eexists. split; [reflexivity|]. unfold tx_outcome. rewrite decide_True by done.
    by apply (commit_spec s db tx db2 v1 v2 lg i h' n).
Qed.

(** ** Sequence numbers *)
Lemma tracker_reserve_twice (t : T) n :
  st_wf t -> in_u64 n -> in_u64 (Spec.last (st_abs t)) ->
  (st_reserve_sequence_number t n).2 = SUCCESS ->
  (st_reserve_sequence_number (st_reserve_sequence_number t n).1 n).2 = SEQ_NUM_TEMP_IN_USE.
Proof.
  intros Hw Hn Hl Hs. destruct (st_reserve_refines t n Hw Hn Hl) as [Hw' E].
  rewrite Hs in E. set (t' := (st_reserve_sequence_number t n).1) in *.
  destruct (st_reserve_refines t' n Hw' Hn) as [_ E2].
  { pose proof (spec_reserve_last st_gap (st_abs t) n) as El. rewrite <- E in El. cbn [fst] in El. by rewrite El. }
  apply (f_equal snd) in E2. cbn [snd] in E2. rewrite E2. clear E2.
  unfold Spec.reserve in E |- *. destruct (n <=? Spec.last (st_abs t)) eqn:E1; [done|].
  set (off := Spec.offset n (Spec.last (st_abs t))) in *.
  destruct (st_gap <=? off) eqn:E2; [done|]. destruct (Z.testbit (Spec.mask (st_abs t)) off) eqn:E3; [done|].
  injection E as ->. cbn [Spec.last Spec.mask]. fold off. rewrite E1, E2.
  assert (0 <= off) by apply u64_range. rewrite Z.lor_spec, Z.pow2_bits_true by done. by rewrite orb_true_r.
Qed.

Lemma refused_reservation_fails s db stx stats lg i acct r :
  MemoryDatabase.lookup_user db (sourceAccount (metadata (transaction stx))) = Some i ->
  MemoryDatabase.database db !! i = Some acct ->
  (st_reserve_sequence_number (UserAccount.seq_tracker acct) (sequenceNumber (metadata (transaction stx)))).2 <> SUCCESS ->
  process_transaction sig_check check_sigs s db stx stats lg = Ok r -> r.2 <> SUCCESS.
Proof.
  intros El Ha Hs. unfold process_transaction. rewrite El.
  destruct (negb _); [by intros [= <-]|]. destruct (_ <? _); [by intros [= <-]|].
  destruct (signature_ok _ _ _ _ _) as [b|]; [|done]. cbn [result_bind]. destruct (negb b); [by intros [= <-]|].
  cbn [dv_reserve_sequence_number buffered_view db_view new_metadata empty_buffered creation].
  unfold creation_reserve_sequence_number, on_ptr, MemoryDatabase.on_account. rewrite Ha. cbn [result_bind].
  unfold UserAccount.reserve_sequence_number.
  destruct (st_reserve_sequence_number _ _) as [t' st] eqn:Er. cbn [snd] in Hs.
  cbn [result_bind fst snd]. rewrite decide_False by done. cbn [result_bind fst snd]. rewrite decide_True by done.
  match goal with |- context [unwind_metadata ?d ?m] => destruct (unwind_metadata d m) end; [|done].
  cbn [result_bind]. by intros [= <-].
Qed.


(** C13.  An accepted transaction conserves every asset: over the accounts and
    the open offers together the amount changes exactly by what the money
    printer created and by the fee, in 64 bit arithmetic. *)
Theorem successful_transaction_conserves_assets s db stx stats lg s' db' stats' lg' a :
  tx_ready s db (transaction stx) -> 0 <= a ->
  process_transaction sig_check check_sigs s db stx stats lg = Ok (s', db', stats', lg', SUCCESS) ->
  i64 (all_units s' db' a) = i64 (all_units s db a + net_printed (transaction stx) a).
Proof.
  intros R Ha E. destruct (process_transaction_spec s db stx stats lg R) as [(?&?&?&?&st & E' & Ho)|(e & E' & _)]; [|congruence].
  rewrite E in E'. injection E' as <- <- <- <- <-. unfold tx_outcome in Ho. rewrite decide_True in Ho by done.
  by apply Ho.
Qed.

(** C14.  A sequence number is accepted once: after a transaction succeeded, no
    transaction of the same account with the same sequence number succeeds on
    the resulting database, whatever else it contains. *)
Theorem sequence_number_is_accepted_once s db stx stats lg s' db' stats' lg' s2 stx2 stats2 lg2 s3 db3 stats3 lg3 st :
  tx_ready s db (transaction stx) ->
  process_transaction sig_check check_sigs s db stx stats lg = Ok (s', db', stats', lg', SUCCESS) ->
  metadata (transaction stx2) = metadata (transaction stx) ->
  process_transaction sig_check check_sigs s2 db' stx2 stats2 lg2 = Ok (s3, db3, stats3, lg3, st) ->
  st <> SUCCESS.
Proof.
  intros R E Em E2. destruct (process_transaction_spec s db stx stats lg R) as [(?&?&?&?&st' & E' & Ho)|(e & E' & _)]; [|congruence].
  rewrite E in E'. injection E' as <- <- <- <- <-. unfold tx_outcome in Ho. rewrite decide_True in Ho by done.
  destruct Ho as [_ Hmap (i & acct & acct' & El & Ha & Ha' & Hs & Et) _ _ _ _ _].
  destruct (Forall_lookup_1 _ _ _ _ (proj1 (tr_db _ _ _ R)) Ha) as (_ & Hw & Hl).
  eapply (refused_reservation_fails s2 db' stx2 stats2 lg2 i acct' (s3, db3, stats3, lg3, st)); [|exact Ha'| |exact E2].
  - unfold MemoryDatabase.lookup_user in *. by rewrite Hmap, Em.
  - rewrite Em, Et, tracker_reserve_twice; [done|done|apply R|done|done].
Qed.
End Transactions.
End Atomicity.
