(* ===== verification/BlockProducer.v ===== *)
(** * Assembling a block (src/block_processing/block_producer.cc)

    Worker threads share the accounts, the orderbooks, the mempool and two atomic
    counters; each has a transaction processor with a buffer of new offers.  A
    thread takes chunks of the mempool, reserves space for a chunk in the block,
    runs its transactions and returns the space it did not use.

    [thread_step] is one step of [BlockProductionReduce::operator()]: one atomic
    operation on a counter, or one transaction.  Operations of two transactions
    are not interleaved: what they share is reserved with compare-and-swap
    ([Asset.Concurrent], [SeqTracker]). *)
From stdpp Require Import base gmap list strings relations.
From S2P Require Import Prelude Types PriceArith Offers Clearing Asset SeqTracker Accounts AccountLmdb Database Mempool DbView SerialManager TxProcessor.

(** Whether a transaction with this status leaves the mempool. *)
Definition delete_tx_from_mempool (status : TransactionProcessingStatus) : bool :=
  match status with
  | SUCCESS => true
  | SEQ_NUM_TOO_HIGH | SEQ_NUM_TEMP_IN_USE | NEW_ACCOUNT_TEMP_RESERVED => false
  | INSUFFICIENT_BALANCE | CANCEL_OFFER_TARGET_NEXIST => true
  | _ => true
  end.

Section Producer.
Context {T : Type} `{SequenceTracker T} {CT : Type} `{MerkleTrie AccountCommitment CT} {L : Type} `{LMDBInstance L}.
Context {LG : Type} `{SerialAccountModificationLog LG}.
Context {TR : Type} `{OfferTrie TR} {M : Type} `{MainManager TR M} `{BigEndian}.
Variable sig_check : Transaction -> list Z -> PublicKey -> bool.
Variable check_sigs : bool.
Abbreviation DB := (MemoryDatabase.t T CT L).
Abbreviation Buffer := (BaseSerialManager (TR := TR) (M := M)).

(** What the threads share. *)
Record Shared := mkShared {
  sh_main : M;
  sh_db : DB;
  remaining_block_space : Z;
  total_block_size : Z;
  sh_mempool : list Chunk
}.

(** Where a thread is in the loop body. *)
Inductive pc :=
| Fetch
(** after [fetch_sub], which returned [remaining_space] *)
| Reserved (i : nat) (remaining_space : Z)
| Running (i : nat) (chunk_sz : Z) (j : nat) (bitmap : list bool) (elts_added_to_block : Z)
(** after [set_confirmed_txs] *)
| Confirmed (chunk_sz elts_added_to_block : Z)
(** after the last [fetch_add], which returned [post_check] *)
| Counted (elts_added_to_block post_check : Z).

Record Thread := mkThread {
  th_ranges : list (list nat);
  th_pc : pc;
  th_new_offers : list TR;
  th_stats : BlockStateUpdateStats;
  th_log : LG
}.
Implicit Types (sh : Shared) (th : Thread).

Definition set_space sh (z : Z) : Shared :=
  mkShared (sh_main sh) (sh_db sh) z (total_block_size sh) (sh_mempool sh).
Definition set_total sh (z : Z) : Shared :=
  mkShared (sh_main sh) (sh_db sh) (remaining_block_space sh) z (sh_mempool sh).
Definition set_chunks sh (l : list Chunk) : Shared :=
  mkShared (sh_main sh) (sh_db sh) (remaining_block_space sh) (total_block_size sh) l.
Definition goto th (p : pc) : Thread := mkThread (th_ranges th) p (th_new_offers th) (th_stats th) (th_log th).
Definition set_ranges th (l : list (list nat)) : Thread := mkThread l Fetch (th_new_offers th) (th_stats th) (th_log th).

(** [return]: the thread goes on with its next range. *)
Definition leave_range th : Thread := set_ranges th (tail (th_ranges th)).
(** The next chunk of the range. *)
Definition next_chunk th : Thread :=
  set_ranges th (match th_ranges th with r :: rs => tail r :: rs | [] => [] end).

(** What processing transaction [j] of chunk [i] gives. *)
Definition run_tx sh th (i j : nat)
    : result (Buffer * DB * BlockStateUpdateStats * LG * TransactionProcessingStatus) :=
  match sh_mempool sh !! i with
  | None => Throw "vector::at"
  | Some chunk =>
      match MempoolChunk.txs chunk !! j with
      | None => Throw "no such transaction"
      | Some stx =>
          process_transaction sig_check check_sigs (mkSerial (sh_main sh) (th_new_offers th)) (sh_db sh) stx
            (th_stats th) (th_log th)
      end
  end.

Definition thread_step sh th : result (Shared * Thread) :=
  match th_pc th with
  | Fetch =>
      match th_ranges th with
      | [] => Ok (sh, th)
      | [] :: rs => Ok (sh, leave_range th)
      | (i :: _) :: _ =>
          match sh_mempool sh !! i with
          | None => Throw "vector::at"
          | Some chunk =>
              Ok (set_space sh (i64 (remaining_block_space sh - MempoolChunk.size chunk)),
                  goto th (Reserved i (remaining_block_space sh)))
          end
      end
  | Reserved i remaining_space =>
      match sh_mempool sh !! i with
      | None => Throw "vector::at"
      | Some chunk =>
          let chunk_sz := MempoolChunk.size chunk in
          let bitmap := replicate (length (MempoolChunk.txs chunk)) false in
          if remaining_space <? chunk_sz then
            let sh := set_space sh (i64 (remaining_block_space sh + i64 (chunk_sz - remaining_space))) in
            if remaining_space <=? 0 then Ok (sh, leave_range th)
            else Ok (sh, goto th (Running i remaining_space 0 bitmap 0))
          else Ok (sh, goto th (Running i chunk_sz 0 bitmap 0))
      end
  | Running i chunk_sz j bitmap elts =>
      if Z.of_nat j <? chunk_sz then
        let* q := run_tx sh th i j in
        let '(s, db, stats, lg, status) := q in
        let success := bool_decide (status = SUCCESS) in
        let bitmap := if success || delete_tx_from_mempool status then <[j := true]> bitmap else bitmap in
        let elts := if success then elts + 1 else elts in
        Ok (mkShared (main_manager s) db (remaining_block_space sh) (total_block_size sh) (sh_mempool sh),
            mkThread (th_ranges th) (Running i chunk_sz (S j) bitmap elts) (new_offers s) stats lg)
      else
        match sh_mempool sh !! i with
        | None => Throw "vector::at"
        | Some chunk =>
            let* c := MempoolChunk.set_confirmed_txs chunk bitmap in
            Ok (set_chunks sh (<[i := c]> (sh_mempool sh)), goto th (Confirmed chunk_sz elts))
        end
  | Confirmed chunk_sz elts =>
      Ok (set_space sh (i64 (remaining_block_space sh + i64 (chunk_sz - elts))),
          goto th (Counted elts (remaining_block_space sh)))
  | Counted elts post_check =>
      let sh := set_total sh (u64 (total_block_size sh + elts)) in
      if post_check <=? 0 then Ok (sh, leave_range th) else Ok (sh, next_chunk th)
  end.

(** ** All threads *)
Definition State : Type := Shared * list Thread.
Definition finished th : bool := match th_ranges th, th_pc th with [], Fetch => true | _, _ => false end.

(** One step of thread [k]. *)
Definition step_thread (k : nat) (st : State) : result State :=
  match st.2 !! k with
  | None => Ok st
  | Some th => let* q := thread_step st.1 th in Ok (q.1, <[k := q.2]> st.2)
  end.
Fixpoint run_schedule (sched : list nat) (st : State) : result State :=
  match sched with
  | [] => Ok st
  | k :: sched => let* q := step_thread k st in run_schedule sched q
  end.

Definition new_thread (lg : LG) (ranges : list (list nat)) : Thread := mkThread ranges Fetch [] zero_stats lg.

(** ** Merging the buffers: every orderbook takes the offers of every processor *)
Fixpoint finish_orderbook (m : M) (ths : list Thread) (i : nat) : result (M * list Thread) :=
  match ths with
  | [] => Ok (m, [])
  | th :: ths =>
      let* s := partial_finish (mkSerial m (th_new_offers th)) i in
      let* q := finish_orderbook (main_manager s) ths i in
      Ok (q.1, mkThread (th_ranges th) (th_pc th) (new_offers s) (th_stats th) (th_log th) :: q.2)
  end.
Fixpoint finish_orderbooks (m : M) (ths : list Thread) (is_ : list nat) : result (M * list Thread) :=
  match is_ with
  | [] => Ok (m, ths)
  | i :: is_ => let* q := finish_orderbook m ths i in finish_orderbooks q.1 q.2 is_
  end.

(** [build_block]: [sched] is how the threads run, [ranges] how the chunks were
    divided; the threads must come to their end.  The result has the threads' logs,
    which the caller's log merges. *)
Definition build_block (m : M) (db : DB) (chunks : list Chunk) (max_block_size mod_log_size : Z) (lg : LG)
    (ranges : list (list (list nat))) (sched : list nat) (state_update_stats : BlockStateUpdateStats)
    : result (M * DB * list LG * list Chunk * BlockStateUpdateStats * Z) :=
  if negb (mod_log_size =? 0) then Throw "forgot to clear mod log"
  else
    let* st := run_schedule sched (mkShared m db max_block_size 0 chunks, new_thread lg <$> ranges) in
    if forallb finished st.2 then
      let* q := finish_orderbooks (sh_main st.1) st.2 (seq 0 (Z.to_nat (mm_num_orderbooks m))) in
      Ok (q.1, sh_db st.1, th_log <$> q.2, sh_mempool st.1, foldl (fun s th => stats_add s (th_stats th)) state_update_stats q.2,
          total_block_size st.1)
    else Throw "the threads are still running".
End Producer.
