(* ===== verification/BlockAssembly.v ===== *)
(** * Assembling a block conserves assets

    Whatever the interleaving of the worker threads of [build_block]: no step
    throws, the accounts, orderbooks and buffers together change by what the
    accepted transactions printed and paid, no sequence number is accepted twice,
    and the block size counts the accepted transactions. *)
From stdpp Require Import base gmap list strings relations.
From S2P Require Import Prelude Types PriceArith Offers Clearing Asset SeqTracker Accounts AccountLmdb Database Mempool DbView SerialManager TxProcessor TxAtomicity BlockProducer.

(** ** One transaction after another *)
Section Sequence.
Context {T : Type} `{SequenceTrackerRefines T}.
Context {CT : Type} `{MerkleTrie AccountCommitment CT} {L : Type} `{LMDBInstance L}.
Abbreviation DB := (MemoryDatabase.t T CT L).
Implicit Types (db : DB) (acct : UserAccount.t T).

Lemma tracker_stays_refused (t : T) n n' :
  st_wf t -> in_u64 n -> in_u64 n' -> in_u64 (Spec.last (st_abs t)) ->
  (st_reserve_sequence_number t n).2 <> SUCCESS ->
  (st_reserve_sequence_number (st_reserve_sequence_number t n').1 n).2 <> SUCCESS.
Proof.
  intros Hw Hn Hn' Hl Hs. destruct (st_reserve_refines t n Hw Hn Hl) as [_ E].
  apply (f_equal snd) in E. cbn [snd] in E. rewrite E in Hs. clear E.
  destruct (st_reserve_refines t n' Hw Hn' Hl) as [Hw' E']. pose proof (spec_reserve_last st_gap (st_abs t) n') as El.
  rewrite <- E' in El. cbn [fst] in El.
  destruct (st_reserve_refines (st_reserve_sequence_number t n').1 n Hw' Hn) as [_ E2]; [by rewrite El|].
  apply (f_equal snd) in E2. cbn [snd] in E2. rewrite E2. clear E2.
  apply (f_equal fst) in E'. cbn [fst] in E'. rewrite E'. clear - Hs. revert Hs.
  generalize (st_abs t). intros [l m]. unfold Spec.reserve. cbn zeta. cbn [Spec.last Spec.mask].
  destruct (n <=? l) eqn:E1, (n' <=? l), (st_gap <=? Spec.offset n' l), (Z.testbit m (Spec.offset n' l)),
    (st_gap <=? Spec.offset n l) eqn:E2, (Z.testbit m (Spec.offset n l)) eqn:E3;
    cbn [fst snd Spec.last Spec.mask]; rewrite E1, ?E2, ?Z.lor_spec, ?E3; done.
Qed.

Lemma accounts_next_ok db db' r :
  db_ok db -> accounts_next db db' r -> (forall i n, r = Some (i, n) -> in_u64 n) -> db_ok db'.
Proof.
  intros [Hok Hidx] (Em & El & Hnext) Hr. split.
  - apply Forall_lookup. intros j a' Ha'. destruct (lookup_lt_is_Some_2 (MemoryDatabase.database db) j) as [a Ha].
    { rewrite <- El. by eapply lookup_lt_Some. }
    destruct (Hnext j a Ha) as (a2 & Ha2 & _ & Hwf & Ht). assert (a2 = a') by congruence. subst a2.
    destruct (Forall_lookup_1 _ _ _ _ Hok Ha) as (W1 & W2 & W3). split; [by apply Hwf|]. rewrite Ht.
    destruct r as [[i n]|]; [|done]. destruct (decide (i = j)); [|done].
    destruct (st_reserve_refines (UserAccount.seq_tracker a) n W2 (Hr _ _ eq_refl) W3) as [W2' E]. split; [done|].
    pose proof (spec_reserve_last st_gap (st_abs (UserAccount.seq_tracker a)) n) as E3. rewrite <- E in E3. cbn [fst] in E3. by rewrite E3.
  - intros id i. rewrite Em, (Hidx id i). split; intros (a & Ha & Ho).
    + destruct (Hnext i a Ha) as (a' & Ha' & Ho' & _). exists a'. split; [done|]. by rewrite Ho'.
    + destruct (lookup_lt_is_Some_2 (MemoryDatabase.database db) i) as [a0 Ha0]; [rewrite <- El; by eapply lookup_lt_Some|].
      destruct (Hnext i a0 Ha0) as (a' & Ha' & Ho' & _). exists a0. split; [done|]. assert (a' = a) as -> by congruence. by rewrite <- Ho'.
Qed.

Lemma db_equiv_next db db' : db_equiv db db' -> accounts_next db db' None.
Proof.
  intros [E1 _ E3 _ _ _ _]. split_and!; [done|by rewrite (Forall2_length _ _ _ E3)|]. intros j a Ha.
  destruct (Forall2_lookup_l _ _ _ _ _ E3 Ha) as (a' & Ha' & He). exists a'. destruct He as [Q1 Q2 Q3 Q4 Q5].
  split_and!; [done|done| |done]. rewrite !UserAccount.wf_asset_of. intros Hwf n.
  rewrite <- (UserAccount.equiv_asset_of a a' n); [done|]. by constructor.
Qed.
Lemma db_equiv_total db db' n : db_equiv db db' -> db_total db' n = db_total db n.
Proof.
  intros [_ _ E3 E4 _ _ _]. unfold db_total. rewrite !sum_by_app, E4. f_equal. induction E3 as [|a a' l l' Ha _ IH]; [done|].
  rewrite !sum_by_cons, IH. f_equal. unfold asset_units. by rewrite (UserAccount.equiv_asset_of a a' n Ha).
Qed.

(** The number of the owner can no longer be reserved. *)
Definition refused db (owner n : Z) : Prop :=
  exists i acct, MemoryDatabase.lookup_user db owner = Some i /\ MemoryDatabase.database db !! i = Some acct /\
    (st_reserve_sequence_number (UserAccount.seq_tracker acct) n).2 <> SUCCESS.
Lemma refused_next db db' r owner n :
  db_ok db -> in_u64 n -> accounts_next db db' r -> (forall i n', r = Some (i, n') -> in_u64 n') ->
  refused db owner n -> refused db' owner n.
Proof.
  intros [Hok _] Hn (Em & El & Hnext) Hr (i & a & Hi & Ha & Hs). destruct (Hnext i a Ha) as (a' & Ha' & _ & _ & Ht).
  destruct (Forall_lookup_1 _ _ _ _ Hok Ha) as (W1 & W2 & W3). exists i, a'. split_and!; [|done|].
  - unfold MemoryDatabase.lookup_user in *. by rewrite Em.
  - rewrite Ht. destruct r as [[j n']|]; [|done]. destruct (decide (j = i)); [|done].
    apply tracker_stays_refused; [done|done|by eapply Hr|done|done].
Qed.
Lemma refused_not_accepted db tx :
  refused db (sourceAccount (metadata tx)) (sequenceNumber (metadata tx)) -> ~ accepts_number db tx.
Proof. intros (i & a & Hi & Ha & Hs) (j & b & Hj & Hb & Hs'). assert (i = j) by congruence. subst j. assert (a = b) by congruence. by subst b. Qed.
End Sequence.

(** ** Units in orderbooks and buffers *)
Section Units.
Context {TR : Type} `{OfferTrie TR} {M : Type} `{MainManager TR M} `{!MainManagerLaws TR M}.

Definition tries_units (n : Z) (l : list TR) (a : Z) : Z :=
  sum_by (fun i => if sellAsset (Category.category_from_idx (Z.of_nat i) n) =? a then live (default ot_empty (l !! i)) else 0)
    (seq 0 (Z.to_nat (n * (n - 1)))).

Lemma offers_total_split (s : BaseSerialManager (TR := TR) (M := M)) a :
  manager_ok (main_manager s) ->
  offers_total s a = tries_units (mm_num_assets (main_manager s)) (mm_books (main_manager s)) a
    + tries_units (mm_num_assets (main_manager s)) (new_offers s) a.
Proof.
  intros [_ Hlen]. unfold offers_total, tries_units. rewrite <- Hlen, Nat2Z.id.
  induction (seq 0 _) as [|i l IH]; [done|]. rewrite !sum_by_cons, IH. unfold offers_at, book_at, new_at.
  destruct (_ =? a); lia.
Qed.
Lemma tries_units_empty n a : tries_units n [] a = 0.
Proof.
  unfold tries_units. induction (seq 0 _) as [|i l IH]; [done|]. rewrite sum_by_cons, IH, lookup_nil. cbn [default].
  unfold live. rewrite ot_empty_map, msum_empty. by destruct (_ =? a).
Qed.
End Units.

(** Transactions with aligned sequence numbers have different operation ids. *)
Lemma aligned_ids a b (i j : nat) :
  in_u64 a -> in_u64 b -> Z.land a RESERVED_SEQUENCE_NUM_LOWBITS = 0 -> Z.land b RESERVED_SEQUENCE_NUM_LOWBITS = 0 ->
  (i < 256)%nat -> (j < 256)%nat -> u64 (a + Z.of_nat i) = u64 (b + Z.of_nat j) -> a = b.
Proof.
  change RESERVED_SEQUENCE_NUM_LOWBITS with (Z.ones 8). rewrite !Z.land_ones by lia.
  intros Ha Hb Ea Eb Hi Hj. unfold in_u64 in *. change (2 ^ 8) with 256 in *.
  pose proof (Z.div_mod a 256 ltac:(lia)). pose proof (Z.div_mod b 256 ltac:(lia)).
  rewrite !u64_id by (unfold in_u64; lia). lia.
Qed.

(** ** Any interleaving *)
Section Assembly.
Context {T : Type} `{SequenceTrackerRefines T}.
Context {CT : Type} `{MerkleTrie AccountCommitment CT} {L : Type} `{LMDBInstance L}.
Context {LG : Type} `{SerialAccountModificationLog LG}.
Context {TR : Type} `{OfferTrie TR} {M : Type} `{MainManager TR M} `{!MainManagerLaws TR M} `{BigEndian}.
Variable sig_check : Transaction -> list Z -> PublicKey -> bool.
Variable check_sigs : bool.
Abbreviation DB := (MemoryDatabase.t T CT L).
Abbreviation Shared := (BlockProducer.Shared (T := T) (CT := CT) (L := L) (M := M)).
Abbreviation Thread := (BlockProducer.Thread (LG := LG) (TR := TR)).
Abbreviation State := (BlockProducer.State (T := T) (CT := CT) (L := L) (LG := LG) (TR := TR) (M := M)).
Abbreviation step := (thread_step sig_check check_sigs).
Implicit Types (sh : Shared) (th : Thread) (db : DB) (stx : SignedTransaction).

Definition tx_number stx : Z * Z :=
  (sourceAccount (metadata (transaction stx)), sequenceNumber (metadata (transaction stx))).
(** The bounds of the XDR types. *)
Record tx_bounds (num_assets : Z) stx : Prop := {
  tb_owner : in_u64 (tx_number stx).1;
  tb_seq : in_u64 (tx_number stx).2;
  tb_length : Z.of_nat (length (operations (transaction stx))) <= MAX_OPS_PER_TX;
  tb_ops : Forall (op_ok num_assets) (operations (transaction stx))
}.

(** The key of an offer of a transaction that was accepted. *)
Definition claimed db (k : Offers.key) : Prop :=
  exists owner n p (j : nat), in_u64 owner /\ in_u64 n /\ 0 <= p <= Price.MAX_PRICE /\ (j < 256)%nat /\
    Z.land n RESERVED_SEQUENCE_NUM_LOWBITS = 0 /\ refused db owner n /\
    k = Key.generate_orderbook_trie_key p owner (u64 (n + Z.of_nat j)).
Definition buffer_claimed db (l : list TR) : Prop :=
  forall m k o, ot_map (default ot_empty (l !! m)) !! k = Some o -> claimed db k.

Lemma claimed_next db db' r k :
  db_ok db -> accounts_next db db' r -> (forall i n', r = Some (i, n') -> in_u64 n') -> claimed db k -> claimed db' k.
Proof.
  intros Hok Hn Hr (owner & n & p & j & Ho & Hs & Hp & Hj & Ha & Href & ->). exists owner, n, p, j.
  split_and!; try done; try apply Hp. by eapply refused_next.
Qed.

(** The offers a thread holds do not get in the way of a new transaction. *)
Lemma claimed_ready m db l num stx :
  db_ok db -> manager_ok m -> mm_num_assets m = num -> tx_bounds num stx -> buffer_claimed db l ->
  tx_ready (mkSerial m l) db (transaction stx).
Proof.
  intros Hdb Hm Hnum [B1 B2 B3 B4] Hl. constructor; [done|done|done|done|done|by cbn; rewrite Hnum|].
  intros i Hi Hf Hacc n p Hp. destruct (ot_map _ !! _) as [o|] eqn:E; [exfalso|done].
  destruct (Hl n _ o E) as (owner & q & p' & j & Ho & Hs & Hp' & Hj & Ha & Href & Ek).
  unfold own_key, op_id in Ek. destruct (Key.key_inj _ _ _ _ _ _ Hp B1 (u64_range _) Hp' Ho (u64_range _) Ek) as (_ & E1 & E2).
  apply aligned_ids in E2; [|done|done|by apply Z.eqb_eq in Hf|done|unfold MAX_OPS_PER_TX in B3; lia|done].
  rewrite <- E1, <- E2 in Href. exact (refused_not_accepted db (transaction stx) Href Hacc).
Qed.

(** What a transaction does, accepted or not, to everything but the log and the
    statistics. *)
Record processed (num : Z) m l db stx (s' : BaseSerialManager (TR := TR) (M := M)) db' (st : TransactionProcessingStatus) : Prop := {
  pr_db : db_ok db';
  pr_manager : manager_ok (main_manager s');
  pr_num : mm_num_assets (main_manager s') = num;
  pr_next : exists r, accounts_next db db' r /\ forall i n', r = Some (i, n') -> in_u64 n';
  pr_keys : buffer_claimed db' (new_offers s');
  pr_units a : 0 <= a ->
    i64 (all_units s' db' a) =
      i64 (all_units (mkSerial m l) db a + (if decide (st = SUCCESS) then net_printed (transaction stx) a else 0));
  pr_accepted : st = SUCCESS ->
    accepts_number db (transaction stx) /\ refused db' (tx_number stx).1 (tx_number stx).2
}.

Lemma succeeded_processed num m l db stx s' db' :
  db_ok db -> mm_num_assets m = num -> tx_bounds num stx -> buffer_claimed db l ->
  tx_succeeded (mkSerial m l) db (transaction stx) s' db' -> processed num m l db stx s' db' SUCCESS.
Proof.
  intros Hdb Hnum Hb Hl [S1 S2 S3 (i & Ei & S4) S5 S6 S7 [S8 S9]].
  assert (Hr : forall j n', Some (i, sequenceNumber (metadata (transaction stx))) = Some (j, n') -> in_u64 n').
  { intros j n' [= <- <-]. apply (tb_seq _ _ Hb). }
  assert (Href : refused db' (tx_number stx).1 (tx_number stx).2).
  { destruct S3 as (j & a & a' & Ej & Ea & Ea' & Es & Et). exists j, a'. split_and!; [|done|].
    - unfold MemoryDatabase.lookup_user in *. by rewrite S2.
    - destruct (Forall_lookup_1 _ _ _ _ (proj1 Hdb) Ea) as (_ & W2 & W3).
      change (sequenceNumber (metadata (transaction stx))) with (tx_number stx).2 in *.
      rewrite Et, tracker_reserve_twice; [done|done|apply (tb_seq _ _ Hb)|done|done]. }
  constructor; [by eapply accounts_next_ok|done|by rewrite S6| |  | |done].
  - eexists. by split.
  - intros n k o Ho. destruct (S7 n k o Ho) as [Ho'|(j & Hj & p & Hp & ->)].
    + eapply claimed_next; [exact Hdb|exact S4|exact Hr|]. by eapply Hl.
    + exists (tx_number stx).1, (tx_number stx).2, p, j. split_and!; try apply Hb; try apply Hp; try done.
      * pose proof (tb_length _ _ Hb). unfold MAX_OPS_PER_TX in *. lia.
      * by apply Z.eqb_eq in S8.
  - intros a Ha. rewrite S1 by done. by rewrite decide_True.
Qed.

Lemma failed_processed num m l db stx s' db' st :
  db_ok db -> manager_ok m -> mm_num_assets m = num -> buffer_claimed db l ->
  st <> SUCCESS -> grown (mkSerial m l) s' -> db_equiv db db' -> processed num m l db stx s' db' st.
Proof.
  intros Hdb Hm Hnum Hl Hs Hg He. pose proof (db_equiv_next _ _ He) as Hn.
  assert (Hr : forall i n', None = Some (i, n') :> option (nat * Z) -> in_u64 n') by done.
  pose proof (gr_main _ _ Hg) as Hmm.
  constructor.
  - by eapply accounts_next_ok.
  - by eapply main_equiv_ok.
  - by rewrite (main_equiv_num _ _ Hmm).
  - eexists. by split.
  - intros n k o Ho. eapply claimed_next; [exact Hdb|exact Hn|exact Hr|].
    pose proof (te_map _ _ (gr_new _ _ Hg n)) as E. unfold new_at in E. rewrite E in Ho. by eapply (Hl n k).
  - intros a _. rewrite decide_False by done. unfold all_units. by rewrite (db_equiv_total _ _ _ He), (grown_offers_total _ _ _ Hg), Z.add_0_r.
  - done.
Qed.

Lemma transaction_processed num m l db stx stats lg :
  db_ok db -> manager_ok m -> mm_num_assets m = num -> tx_bounds num stx -> buffer_claimed db l ->
  (exists s' db' stats' lg' st,
    process_transaction sig_check check_sigs (mkSerial m l) db stx stats lg = Ok (s', db', stats', lg', st) /\
    processed num m l db stx s' db' st) \/
  exists e, process_transaction sig_check check_sigs (mkSerial m l) db stx stats lg = Throw e /\
    tx_error num (operations (transaction stx)) e.
Proof.
  intros Hdb Hm Hnum Hb Hl.
  destruct (process_transaction_spec sig_check check_sigs (mkSerial m l) db stx stats lg)
    as [(s' & db' & stats' & lg' & st & E & Ho)|(e & E & He)].
  { by eapply claimed_ready. }
  2: { right. exists e. split; [exact E|]. cbn [main_manager] in He. by rewrite Hnum in He. }
  left. do 5 eexists. split; [exact E|]. unfold tx_outcome in Ho. destruct (decide (st = SUCCESS)) as [->|Hs].
  - by apply succeeded_processed.
  - destruct Ho as (Hg & He & _). by apply failed_processed.
Qed.

(** ** The invariant of the threads *)
Section Block.
Variables (num : Z) (chunks : list (list SignedTransaction)) (units0 : Z -> Z).
Hypothesis chunks_ok : Forall (Forall (tx_bounds num)) chunks.

Definition pending th : Z :=
  match th_pc th with Running _ _ _ _ elts | Confirmed _ elts | Counted elts _ => elts | _ => 0 end.

Definition thread_ok th : Prop :=
  Forall (Forall (fun i => (i < length chunks)%nat)) (th_ranges th) /\
  match th_pc th with
  | Reserved i _ => (i < length chunks)%nat
  | Running i chunk_sz _ bitmap _ =>
      exists l, chunks !! i = Some l /\ chunk_sz <= Z.of_nat (length l) /\ length bitmap = length l
  | _ => True
  end.

(** All units of asset [a]: on accounts, in orderbooks and in the buffers. *)
Definition block_units sh (ths : list Thread) (a : Z) : Z :=
  db_total (sh_db sh) (Z.to_nat a) + tries_units num (mm_books (sh_main sh)) a +
  sum_by (fun th => tries_units num (th_new_offers th) a) ths.

(** After accepting the transactions [acc]. *)
Record block_inv (acc : list SignedTransaction) sh (ths : list Thread) : Prop := {
  bi_db : db_ok (sh_db sh);
  bi_manager : manager_ok (sh_main sh);
  bi_num : mm_num_assets (sh_main sh) = num;
  bi_chunks : MempoolChunk.txs <$> sh_mempool sh = chunks;
  bi_threads : Forall thread_ok ths;
  bi_keys : Forall (fun th => buffer_claimed (sh_db sh) (th_new_offers th)) ths;
  bi_units a : 0 <= a ->
    i64 (block_units sh ths a) = i64 (units0 a + sum_by (fun stx => net_printed (transaction stx) a) acc);
  bi_refused : Forall (fun stx => tx_bounds num stx /\ refused (sh_db sh) (tx_number stx).1 (tx_number stx).2) acc;
  bi_nodup : NoDup (tx_number <$> acc);
  bi_count : u64 (total_block_size sh + sum_by pending ths) = u64 (Z.of_nat (length acc))
}.

(** Steps that run no transaction. *)
Lemma quiet_step acc sh ths k th sh' th' :
  block_inv acc sh ths -> ths !! k = Some th ->
  sh_main sh' = sh_main sh -> sh_db sh' = sh_db sh ->
  MempoolChunk.txs <$> sh_mempool sh' = MempoolChunk.txs <$> sh_mempool sh ->
  th_new_offers th' = th_new_offers th -> thread_ok th' ->
  u64 (total_block_size sh' + pending th') = u64 (total_block_size sh + pending th) ->
  block_inv acc sh' (<[k := th']> ths).
Proof.
  intros [] Hk Em Ed Ec En Hok Ep. pose proof (Forall_lookup_1 _ _ _ _ bi_keys0 Hk) as Hkey.
  constructor; rewrite ?Em, ?Ed, ?Ec; try done.
  - by apply Forall_insert.
  - apply Forall_insert; [done|]. by rewrite En.
  - intros a Ha. rewrite <- bi_units0 by done. f_equal. unfold block_units. rewrite Em, Ed, (sum_by_insert _ _ _ _ _ Hk), En. lia.
  - rewrite <- bi_count0, (sum_by_insert _ _ _ _ _ Hk).
    replace (total_block_size sh' + (sum_by pending ths - pending th + pending th'))
      with (total_block_size sh' + pending th' + (sum_by pending ths - pending th)) by lia.
    rewrite <- u64_add_l, Ep, u64_add_l. f_equal. lia.
Qed.

Definition accepted_txs stx (st : TransactionProcessingStatus) : list SignedTransaction :=
  if decide (st = SUCCESS) then [stx] else [].

(** The step of a thread that runs a transaction. *)
Lemma processed_step acc sh ths k th stx s db st p ranges stats lg :
  block_inv acc sh ths -> ths !! k = Some th -> tx_bounds num stx ->
  processed num (sh_main sh) (th_new_offers th) (sh_db sh) stx s db st ->
  let th' := mkThread ranges p (new_offers s) stats lg in
  thread_ok th' -> pending th' = pending th + Z.of_nat (length (accepted_txs stx st)) ->
  block_inv (acc ++ accepted_txs stx st)
    (mkShared (main_manager s) db (remaining_block_space sh) (total_block_size sh) (sh_mempool sh)) (<[k := th']> ths).
Proof.
  intros [] Hk Hb [Q1 Q2 Q3 (r & Hn & Hr) Q5 Q6 Q7] th' Hok Hp.
  assert (Hkeep : forall x, tx_bounds num x /\ refused (sh_db sh) (tx_number x).1 (tx_number x).2 ->
    tx_bounds num x /\ refused db (tx_number x).1 (tx_number x).2).
  { intros x [Hx Hx']. split; [done|]. exact (refused_next _ _ r _ _ bi_db0 (tb_seq _ _ Hx) Hn Hr Hx'). }
  constructor; cbn [sh_db sh_main sh_mempool total_block_size]; try done.
  - by apply Forall_insert.
  - apply Forall_insert; [|done]. eapply Forall_impl; [exact bi_keys0|]. intros x Hx m q o Ho.
    exact (claimed_next _ _ r _ bi_db0 Hn Hr (Hx m q o Ho)).
  - intros a Ha. specialize (Q6 a Ha). specialize (bi_units0 a Ha).
    unfold all_units in Q6. rewrite !offers_total_split in Q6 by done.
    cbn [main_manager new_offers] in Q6. rewrite Q3, bi_num0 in Q6.
    unfold block_units in *. cbn [sh_db sh_main]. rewrite (sum_by_insert _ _ _ _ _ Hk), sum_by_app. cbn [th' th_new_offers].
    assert (Eacc : sum_by (fun x => net_printed (transaction x) a) (accepted_txs stx st) =
      if decide (st = SUCCESS) then net_printed (transaction stx) a else 0).
    { unfold accepted_txs. case_decide; [by rewrite sum_by_cons, sum_by_nil, Z.add_0_r|done]. }
    rewrite Eacc, (Z.add_assoc (units0 a)), <- (i64_add_l (units0 a + _)), <- bi_units0, i64_add_l.
    destruct (i64_inj _ _ Q6) as [q Eq]. apply (i64_cong _ _ q). lia.
  - apply Forall_app. split; [by eapply Forall_impl|]. unfold accepted_txs. case_decide; [|done].
    apply Forall_singleton. split; [done|]. by apply Q7.
  - rewrite fmap_app. apply NoDup_app. split_and!; [done| |].
    + intros x Hx Hx'. unfold accepted_txs in Hx'. case_decide as Hs; [|by apply elem_of_nil in Hx'].
      apply list_elem_of_singleton in Hx' as ->. apply list_elem_of_fmap in Hx as (y & Ey & Hy).
      rewrite Forall_forall in bi_refused0. destruct (bi_refused0 y Hy) as [_ Href]. rewrite <- Ey in Href.
      exact (refused_not_accepted (sh_db sh) (transaction stx) Href (proj1 (Q7 Hs))).
    + unfold accepted_txs. case_decide; [apply NoDup_singleton|apply NoDup_nil_2].
  - rewrite (sum_by_insert _ _ _ _ _ Hk), Hp, length_app, Nat2Z.inj_add.
    replace (total_block_size sh + _) with (total_block_size sh + sum_by pending ths + Z.of_nat (length (accepted_txs stx st))) by lia.
    by rewrite <- u64_add_l, bi_count0, u64_add_l.
Qed.

(** *** The steps *)
(** The transaction the next step of the thread runs. *)
Definition next_tx sh th : option SignedTransaction :=
  match th_pc th with
  | Running i chunk_sz j _ _ =>
      if Z.of_nat j <? chunk_sz then c ← sh_mempool sh !! i; MempoolChunk.txs c !! j else None
  | _ => None
  end.
(** The transaction the next step accepts. *)
Definition accepted_in sh th : list SignedTransaction :=
  match next_tx sh th with
  | Some stx =>
      match process_transaction sig_check check_sigs (mkSerial (sh_main sh) (th_new_offers th)) (sh_db sh) stx
              (th_stats th) (th_log th) with
      | Ok q => accepted_txs stx q.2
      | Throw _ => []
      end
  | None => []
  end.

Lemma chunk_at_index acc sh ths i l :
  block_inv acc sh ths -> chunks !! i = Some l -> exists c, sh_mempool sh !! i = Some c /\ MempoolChunk.txs c = l.
Proof.
  intros Hi Hl. rewrite <- (bi_chunks _ _ _ Hi), list_lookup_fmap in Hl.
  destruct (sh_mempool sh !! i) as [c|]; [|done]. injection Hl as Hl. by exists c.
Qed.

Lemma chunk_before acc sh ths i :
  block_inv acc sh ths -> (i < length chunks)%nat ->
  exists c, sh_mempool sh !! i = Some c /\ chunks !! i = Some (MempoolChunk.txs c).
Proof.
  intros Hi [l Hl]%lookup_lt_is_Some_2. destruct (chunk_at_index _ _ _ _ _ Hi Hl) as (c & Hc & <-). by exists c.
Qed.

Lemma leave_range_ok th :
  Forall (Forall (fun i => (i < length chunks)%nat)) (th_ranges th) -> thread_ok (leave_range th).
Proof. intros Hr. split; [|done]. cbn. by destruct Hr. Qed.
Lemma next_chunk_ok th :
  Forall (Forall (fun i => (i < length chunks)%nat)) (th_ranges th) -> thread_ok (next_chunk th).
Proof.
  intros Hr. split; [|done]. unfold next_chunk. cbn. destruct Hr as [|r rs Hr1 Hr2]; constructor; [|done]. by destruct Hr1.
Qed.

(** The error of a step that ran a transaction of the memory pool. *)
Definition pool_error (e : string) : Prop :=
  exists l stx, l ∈ chunks /\ stx ∈ l /\ tx_error num (operations (transaction stx)) e.

(** A step that runs a transaction. *)
Lemma running_step acc sh ths k th i chunk_sz j bitmap elts :
  block_inv acc sh ths -> ths !! k = Some th -> th_pc th = Running i chunk_sz j bitmap elts -> Z.of_nat j < chunk_sz ->
  (exists sh' th', step sh th = Ok (sh', th') /\ block_inv (acc ++ accepted_in sh th) sh' (<[k := th']> ths)) \/
  exists e, step sh th = Throw e /\ pool_error e.
Proof.
  intros Hi Hk Hpc Hj. destruct (Forall_lookup_1 _ _ _ _ (bi_threads _ _ _ Hi) Hk) as [Hr Hok].
  rewrite Hpc in Hok. destruct Hok as (l & Hl & Hsz & Hbit). destruct (chunk_at_index _ _ _ _ _ Hi Hl) as (c & Hc & Hcl).
  destruct (lookup_lt_is_Some_2 l j) as [stx Hstx]; [lia|].
  assert (Hb : tx_bounds num stx).
  { eapply (Forall_lookup_1 _ l); [|exact Hstx]. by eapply (Forall_lookup_1 _ chunks). }
  pose proof (Forall_lookup_1 _ _ _ _ (bi_keys _ _ _ Hi) Hk) as Hkey.
  destruct (transaction_processed num (sh_main sh) (th_new_offers th) (sh_db sh) stx (th_stats th) (th_log th)
    (bi_db _ _ _ Hi) (bi_manager _ _ _ Hi) (bi_num _ _ _ Hi) Hb Hkey) as [(s & db & stats & lg & st & E & Hp)|(e & E & He)].
  all: apply Z.ltb_lt in Hj as Hjb; rewrite <- Hcl in Hstx; unfold accepted_in, next_tx, thread_step, run_tx.
  all: rewrite Hpc, Hjb, Hc; cbn [mbind option_bind]; rewrite Hstx, E; cbn [result_bind snd fst].
  2: { right. exists e. split; [done|]. exists l, stx. rewrite Hcl in Hstx.
       split_and!; [by eapply list_elem_of_lookup_2|by eapply list_elem_of_lookup_2|done]. }
  left. do 2 eexists. split; [reflexivity|]. eapply processed_step; try done.
  - split; [done|]. exists l. split_and!; [done|done|]. by destruct (_ || _); rewrite ?length_insert.
  - unfold pending. rewrite Hpc. cbn [th_pc]. unfold accepted_txs. case_decide as Hs.
    + rewrite bool_decide_true by done. cbn [length]. lia.
    + rewrite bool_decide_false by done. cbn [length]. lia.
Qed.

Lemma thread_step_inv acc sh ths k th :
  block_inv acc sh ths -> ths !! k = Some th ->
  (exists sh' th', step sh th = Ok (sh', th') /\ block_inv (acc ++ accepted_in sh th) sh' (<[k := th']> ths)) \/
  exists e, step sh th = Throw e /\ pool_error e.
Proof.
  intros Hi Hk. destruct (th_pc th) as [|i rem|i chunk_sz j bitmap elts|chunk_sz elts|elts post] eqn:Hpc.
  3: destruct (decide (Z.of_nat j < chunk_sz)) as [Hj|Hj]; [by eapply running_step|].
  all: left.
  all: assert (Hno : accepted_in sh th = []) by (unfold accepted_in, next_tx; rewrite Hpc, ?(proj2 (Z.ltb_ge _ _)) by lia; done).
  all: rewrite Hno, app_nil_r; destruct (Forall_lookup_1 _ _ _ _ (bi_threads _ _ _ Hi) Hk) as [Hr Hok]; rewrite Hpc in Hok.
  all: unfold thread_step; rewrite Hpc.
  - destruct (th_ranges th) as [|[|i r] rs] eqn:Er; [| |].
    + do 2 eexists. split; [reflexivity|]. by rewrite list_insert_id.
    + do 2 eexists. split; [reflexivity|]. eapply quiet_step; try done.
      * apply leave_range_ok. by rewrite Er.
      * unfold pending. by rewrite Hpc.
    + apply Forall_cons in Hr as Hr'. destruct Hr' as [[Hin _]%Forall_cons _].
      destruct (chunk_before _ _ _ i Hi Hin) as (c & Hc & _). rewrite Hc. do 2 eexists. split; [reflexivity|].
      eapply quiet_step; try done; [by split; [cbn; rewrite Er|]|]. unfold pending. by rewrite Hpc.
  - destruct (chunk_before _ _ _ i Hi Hok) as (c & Hc & Hl). rewrite Hc. unfold MempoolChunk.size.
    destruct (Z.ltb_spec rem (Z.of_nat (length (MempoolChunk.txs c)))); [destruct (Z.leb_spec rem 0)|];
      (do 2 eexists; split; [reflexivity|]; eapply quiet_step; try done;
       [|unfold pending; by rewrite Hpc]).
    + by apply leave_range_ok.
    + split; [done|]. exists (MempoolChunk.txs c). split_and!; [done|lia|by rewrite length_replicate].
    + split; [done|]. exists (MempoolChunk.txs c). split_and!; [done|lia|by rewrite length_replicate].
  - rewrite (proj2 (Z.ltb_ge _ _)) by lia. destruct Hok as (l & Hl & _ & Hbit).
    destruct (chunk_at_index _ _ _ _ _ Hi Hl) as (c & Hc & Hcl). rewrite Hc. unfold MempoolChunk.set_confirmed_txs.
    rewrite decide_True by (by rewrite Hcl). cbn [result_bind]. do 2 eexists. split; [reflexivity|].
    eapply quiet_step; try done.
    + cbn. rewrite list_fmap_insert. cbn. by rewrite list_insert_id by (by rewrite list_lookup_fmap, Hc).
    + unfold pending. by rewrite Hpc.
  - do 2 eexists. split; [reflexivity|]. eapply quiet_step; try done. unfold pending. by rewrite Hpc.
  - assert (Hcnt : u64 (u64 (total_block_size sh + elts) + 0) = u64 (total_block_size sh + pending th)).
    { unfold pending. rewrite Hpc, u64_add_l. f_equal. lia. }
    destruct (post <=? 0); (do 2 eexists; split; [reflexivity|]); eapply quiet_step; try done.
    + by apply leave_range_ok.
    + by apply next_chunk_ok.
Qed.

(** *** How much a thread still has to do *)
Definition chunk_len (i : nat) : nat := length (default [] (chunks !! i)).
Definition range_work (r : list nat) : nat := 1 + sum_list_with (fun i => chunk_len i + 5)%nat r.
Definition ranges_work (rs : list (list nat)) : nat := sum_list_with range_work rs.
(** The steps left, at most. *)
Definition work th : nat :=
  let rest := ranges_work (th_ranges (next_chunk th)) in
  match th_pc th with
  | Fetch => ranges_work (th_ranges th)
  | Reserved i _ => chunk_len i + 4 + rest
  | Running _ chunk_sz j _ _ => Z.to_nat (chunk_sz - Z.of_nat j) + 3 + rest
  | Confirmed _ _ => 2 + rest
  | Counted _ _ => 1 + rest
  end.

Lemma work_leave th : (ranges_work (th_ranges (leave_range th)) <= ranges_work (th_ranges (next_chunk th)))%nat.
Proof. unfold next_chunk, leave_range. cbn. destruct (th_ranges th) as [|r rs]; cbn; lia. Qed.

Lemma work_finished th : work th = 0%nat -> finished th = true.
Proof.
  unfold work, finished. destruct (th_pc th); try lia. destruct (th_ranges th); [done|]. cbn. lia.
Qed.

Lemma work_decreases acc sh ths k th sh' th' :
  block_inv acc sh ths -> ths !! k = Some th -> step sh th = Ok (sh', th') -> (work th' <= work th - 1)%nat.
Proof.
  intros Hi Hk. pose proof (work_leave th) as Hleave. unfold thread_step.
  destruct (th_pc th) as [|i rem|i chunk_sz j bitmap elts|chunk_sz elts|elts post] eqn:Hpc.
  - destruct (th_ranges th) as [|[|i r] rs] eqn:Er.
    + intros [= <- <-]. unfold work. rewrite Hpc, Er. cbn. lia.
    + intros [= <- <-]. unfold work. rewrite Hpc. cbn. rewrite Er. cbn. lia.
    + destruct (sh_mempool sh !! i); [|done]. intros [= <- <-]. unfold work, next_chunk. rewrite Hpc. cbn. rewrite Er. cbn. lia.
  - destruct (Forall_lookup_1 _ _ _ _ (bi_threads _ _ _ Hi) Hk) as [_ Hok]. rewrite Hpc in Hok.
    destruct (chunk_before _ _ _ i Hi Hok) as (c & -> & Hc). unfold MempoolChunk.size.
    assert (El : chunk_len i = length (MempoolChunk.txs c)) by (unfold chunk_len; by rewrite Hc).
    destruct (Z.ltb_spec rem (Z.of_nat (length (MempoolChunk.txs c)))); [destruct (rem <=? 0)|];
      intros [= <- <-]; unfold work; rewrite Hpc; cbn in *; lia.
  - destruct (Z.ltb_spec (Z.of_nat j) chunk_sz).
    + unfold run_tx. destruct (sh_mempool sh !! i) as [c|]; [|done]. destruct (MempoolChunk.txs c !! j); [|done].
      destruct (process_transaction _ _ _ _ _ _ _) as [[[[[s0 db0] stats0] lg0] st0]|]; [|done]. cbn [result_bind].
      intros [= <- <-]. unfold work. rewrite Hpc. cbn in *. lia.
    + destruct (sh_mempool sh !! i) as [c|]; [|done]. destruct (MempoolChunk.set_confirmed_txs c bitmap); [|done].
      cbn [result_bind]. intros [= <- <-]. unfold work. rewrite Hpc. cbn in *. lia.
  - intros [= <- <-]. unfold work. rewrite Hpc. cbn in *. lia.
  - destruct (post <=? 0); intros [= <- <-]; unfold work; rewrite Hpc; cbn in *; lia.
Qed.

(** *** Schedules *)
Abbreviation runs := (run_schedule sig_check check_sigs).

(** The transactions a schedule accepts, in order. *)
Fixpoint accepted (sched : list nat) (st : State) : list SignedTransaction :=
  match sched with
  | [] => []
  | k :: sched =>
      match st.2 !! k with Some th => accepted_in st.1 th | None => [] end ++
      match step_thread sig_check check_sigs k st with Ok st' => accepted sched st' | Throw _ => [] end
  end.

Definition turns (k : nat) (sched : list nat) : nat := count_occ Nat.eq_dec sched k.

Lemma run_inv sched acc sh ths :
  block_inv acc sh ths ->
  (exists sh' ths', runs sched (sh, ths) = Ok (sh', ths') /\
    block_inv (acc ++ accepted sched (sh, ths)) sh' ths' /\ length ths' = length ths /\
    forall k th, ths !! k = Some th -> exists th', ths' !! k = Some th' /\ (work th' <= work th - turns k sched)%nat) \/
  exists e, runs sched (sh, ths) = Throw e /\ pool_error e.
Proof.
  revert acc sh ths. induction sched as [|k sched IH]; intros acc sh ths Hi.
  { left. exists sh, ths. split_and!; [done|by rewrite app_nil_r|done|]. intros k th Hk. exists th. cbn. split; [done|lia]. }
  cbn [run_schedule accepted]. unfold step_thread. cbn [fst snd].
  destruct (ths !! k) as [th|] eqn:Hk.
  - destruct (thread_step_inv _ _ _ _ _ Hi Hk) as [(sh1 & th1 & E & Hi1)|(e & E & He)]; rewrite E; cbn [result_bind fst snd];
      [|right; by exists e].
    pose proof (work_decreases _ _ _ _ _ _ _ Hi Hk E) as Hw.
    destruct (IH _ _ _ Hi1) as [(sh' & ths' & E' & Hi' & Hlen & Hwork)|He]; [left|by right]. exists sh', ths'.
    rewrite length_insert in Hlen. split_and!; [done|by rewrite app_assoc|done|].
    intros k' th2 Hk'. unfold turns. cbn [count_occ]. destruct (Nat.eq_dec k k') as [<-|Hne].
    + assert (th2 = th) as -> by congruence. destruct (Hwork k th1) as (th' & Hth' & Hle).
      { apply list_lookup_insert_eq. by eapply lookup_lt_Some. }
      exists th'. split; [done|]. unfold turns in Hle. lia.
    + destruct (Hwork k' th2) as (th' & Hth' & Hle); [by rewrite list_lookup_insert_ne|]. by exists th'.
  - cbn [result_bind app]. destruct (IH _ _ _ Hi) as [(sh' & ths' & E' & Hi' & Hlen & Hwork)|He]; [left|by right].
    exists sh', ths'. split_and!; try done. intros k' th2 Hk'. unfold turns. cbn [count_occ].
    destruct (Nat.eq_dec k k') as [<-|]; [congruence|]. by apply Hwork.
Qed.

(** *** The block size limit *)
Variable max_block_size : Z.
Hypothesis max_ok : 0 <= max_block_size < 2 ^ 62.
Hypothesis lengths_ok : Forall (fun l => Z.of_nat (length l) < 2 ^ 62) chunks.

(** Between the two operations that reserve space. *)
Definition reserving th : bool := match th_pc th with Reserved _ _ => true | _ => false end.
(** At no time two threads are: the schedules under which the limit is kept. *)
Fixpoint one_reserves (sched : list nat) (st : State) : bool :=
  match sched with
  | [] => true
  | k :: sched =>
      match step_thread sig_check check_sigs k st with
      | Ok st' => (length (List.filter reserving st'.2) <=? 1)%nat && one_reserves sched st'
      | Throw _ => true
      end
  end.

(** The space a thread has taken from the counter and not returned. *)
Definition held th : Z :=
  match th_pc th with
  | Fetch => 0
  | Reserved i _ => Z.of_nat (chunk_len i)
  | Running _ chunk_sz _ _ _ => chunk_sz
  | Confirmed chunk_sz _ => chunk_sz
  | Counted elts _ => elts
  end.
Definition within th : Prop :=
  match th_pc th with
  | Fetch => True
  | Reserved _ rem => 0 <= rem
  | Running _ chunk_sz j _ elts => 0 <= elts <= Z.of_nat j /\ Z.of_nat j <= chunk_sz
  | Confirmed chunk_sz elts => 0 <= elts <= chunk_sz
  | Counted elts _ => 0 <= elts
  end.
(** What the counter may be below zero while a thread reserves. *)
Definition owed th : Z := match th_pc th with Reserved i rem => Z.max 0 (Z.of_nat (chunk_len i) - rem) | _ => 0 end.

Record limit_inv sh (ths : list Thread) : Prop := {
  li_within : Forall within ths;
  li_space : remaining_block_space sh + sum_by held ths + total_block_size sh = max_block_size;
  li_owed : 0 <= remaining_block_space sh + sum_by owed ths;
  li_total : 0 <= total_block_size sh
}.

Lemma owed_held ths : Forall within ths -> sum_by owed ths <= sum_by held ths.
Proof.
  induction 1 as [|th l Hth Hl IH]; [done|]. rewrite !sum_by_cons. enough (owed th <= held th) by lia.
  revert Hth. unfold within, owed, held. destruct (th_pc th); lia.
Qed.

Lemma held_share ths k th :
  Forall within ths -> ths !! k = Some th -> held th - owed th <= sum_by held ths - sum_by owed ths.
Proof.
  intros Hw Hk. rewrite (sum_by_sub held owed (fun x => held x - owed x)) by done.
  apply (sum_by_elem_le (fun x => held x - owed x)); [|by eapply list_elem_of_lookup_2].
  eapply Forall_impl; [exact Hw|]. intros x. unfold within, held, owed. destruct (th_pc x); lia.
Qed.

Lemma chunk_len_bound i : Z.of_nat (chunk_len i) < 2 ^ 62.
Proof. unfold chunk_len. destruct (chunks !! i) as [l|] eqn:E; [exact (Forall_lookup_1 _ _ _ _ lengths_ok E)|done]. Qed.

Lemma owed_none ths : List.filter reserving ths = [] -> sum_by owed ths = 0.
Proof.
  induction ths as [|th l IH]; [done|]. cbn [List.filter]. rewrite sum_by_cons.
  destruct (reserving th) eqn:E; [done|]. intros Hn. rewrite IH by done.
  revert E. unfold reserving, owed. by destruct (th_pc th).
Qed.
Lemma owed_alone ths k th :
  (length (List.filter reserving ths) <= 1)%nat -> ths !! k = Some th -> reserving th = true ->
  sum_by owed ths = owed th.
Proof.
  revert k. induction ths as [|x l IH]; intros [|k] Hlen Hk Hr; simplify_eq/=; rewrite sum_by_cons.
  - rewrite Hr in Hlen. cbn in Hlen. rewrite owed_none; [lia|]. destruct (List.filter _ l); [done|cbn in Hlen; lia].
  - destruct (reserving x) eqn:E.
    + cbn in Hlen. assert (Hin : th ∈ List.filter reserving l).
      { apply list_elem_of_In, List.filter_In. split; [|done]. by eapply list_elem_of_In, list_elem_of_lookup_2. }
      destruct (List.filter _ l); [by apply elem_of_nil in Hin|cbn in Hlen; lia].
    + rewrite (IH k) by done. revert E. unfold reserving, owed. by destruct (th_pc x).
Qed.
Lemma owed_bound ths :
  (length (List.filter reserving ths) <= 1)%nat -> Forall within ths -> 0 <= sum_by owed ths < 2 ^ 62.
Proof.
  intros Hlen Hw. destruct (List.filter reserving ths) as [|th l] eqn:E; [by rewrite owed_none|].
  assert (Hin : th ∈ List.filter reserving ths) by (rewrite E; apply list_elem_of_here).
  apply list_elem_of_In, List.filter_In in Hin as [Hin Hr]. apply list_elem_of_In, list_elem_of_lookup in Hin as [k Hk].
  rewrite <- E in Hlen. rewrite (owed_alone _ _ _ Hlen Hk Hr). pose proof (Forall_lookup_1 _ _ _ _ Hw Hk) as Hth.
  revert Hth. unfold within, owed. destruct (th_pc th) as [|i rem| | |]; try lia. pose proof (chunk_len_bound i). lia.
Qed.

(** A step that keeps the sum of counter, held space and block size. *)
Lemma limit_step sh ths k th sh' th' h o h' o' :
  limit_inv sh ths -> ths !! k = Some th -> held th = h -> owed th = o -> held th' = h' -> owed th' = o' ->
  within th' -> 0 <= total_block_size sh' ->
  remaining_block_space sh' + h' + total_block_size sh' = remaining_block_space sh + h + total_block_size sh ->
  0 <= remaining_block_space sh' + (sum_by owed ths - o + o') ->
  limit_inv sh' (<[k := th']> ths).
Proof.
  intros [] Hk <- <- <- <- Hw Ht Hs Ho.
  constructor; [by apply Forall_insert| | |done]; rewrite (sum_by_insert _ _ _ _ _ Hk); lia.
Qed.
Ltac limit_by h o h' o' :=
  eapply (limit_step _ _ _ _ _ _ h o h' o');
  [ eassumption | eassumption
  | unfold held; by match goal with E : th_pc _ = _ |- _ => rewrite E end
  | unfold owed; by match goal with E : th_pc _ = _ |- _ => rewrite E end
  | reflexivity | reflexivity | .. ];
  try done; unfold within; cbn; try case_bool_decide; lia.

Lemma insert_reserving ths k th th' :
  ths !! k = Some th -> reserving th = false -> reserving th' = true ->
  (length (List.filter reserving (<[k := th']> ths)) <= 1)%nat -> sum_by owed ths = 0.
Proof.
  intros Hk Hr Hr' Hlen. pose proof (lookup_lt_Some _ _ _ Hk) as Hlt.
  pose proof (owed_alone _ k th' Hlen (list_lookup_insert_eq _ _ _ Hlt) Hr') as E.
  rewrite (sum_by_insert _ _ _ _ _ Hk) in E. assert (owed th = 0); [|lia].
  revert Hr. unfold reserving, owed. by destruct (th_pc th).
Qed.

Lemma limit_inv_step acc sh ths k th sh' th' :
  block_inv acc sh ths -> limit_inv sh ths -> ths !! k = Some th ->
  (length (List.filter reserving ths) <= 1)%nat ->
  (length (List.filter reserving (<[k := th']> ths)) <= 1)%nat ->
  step sh th = Ok (sh', th') -> limit_inv sh' (<[k := th']> ths).
Proof.
  intros Hi Hl Hk Hone Hone' E.
  pose proof (owed_bound ths Hone (li_within _ _ Hl)) as Hob. pose proof (owed_held ths (li_within _ _ Hl)) as Hoh.
  pose proof (Forall_lookup_1 _ _ _ _ (li_within _ _ Hl) Hk) as Hw.
  pose proof (li_space _ _ Hl) as Hsp. pose proof (li_owed _ _ Hl) as How. pose proof (li_total _ _ Hl) as Htot.
  destruct (Forall_lookup_1 _ _ _ _ (bi_threads _ _ _ Hi) Hk) as [Hr Hok].
  pose proof (held_share ths k th (li_within _ _ Hl) Hk) as Hth. unfold within in Hw. unfold held at 1, owed at 1 in Hth.
  revert E. unfold thread_step.
  destruct (th_pc th) as [|i rem|i chunk_sz j bitmap elts|chunk_sz elts|elts post] eqn:Hpc.
  - destruct (th_ranges th) as [|[|i r] rs] eqn:Er.
    + intros [= <- <-]. by rewrite list_insert_id.
    + intros [= <- <-]. limit_by 0 0 0 0.
    + apply Forall_cons in Hr as [[Hin _]%Forall_cons _]. destruct (chunk_before _ _ _ i Hi Hin) as (c & -> & Hc).
      assert (El : MempoolChunk.size c = Z.of_nat (chunk_len i)) by (unfold chunk_len; by rewrite Hc).
      pose proof (chunk_len_bound i). intros [= <- <-].
      assert (Hnone : sum_by owed ths = 0) by (eapply insert_reserving; [exact Hk| | |exact Hone']; unfold reserving; by rewrite ?Hpc).
      rewrite El, i64_id by (unfold in_i64; lia).
      limit_by 0 0 (Z.of_nat (chunk_len i)) (Z.max 0 (Z.of_nat (chunk_len i) - remaining_block_space sh)).
  - destruct (chunk_before _ _ _ i Hi Hok) as (c & -> & Hc).
    assert (El : MempoolChunk.size c = Z.of_nat (chunk_len i)) by (unfold chunk_len; by rewrite Hc).
    pose proof (chunk_len_bound i). assert (Hal : sum_by owed ths = Z.max 0 (Z.of_nat (chunk_len i) - rem)).
    { rewrite (owed_alone ths k th); [unfold owed; by rewrite Hpc|exact Hone|exact Hk|]. unfold reserving. by rewrite Hpc. }
    rewrite El. cbn zeta. destruct (Z.ltb_spec rem (Z.of_nat (chunk_len i))).
    + rewrite (i64_id (_ - rem)), i64_id by (unfold in_i64; lia).
      destruct (Z.leb_spec rem 0); intros [= <- <-].
      * limit_by (Z.of_nat (chunk_len i)) (Z.max 0 (Z.of_nat (chunk_len i) - rem)) 0 0.
      * limit_by (Z.of_nat (chunk_len i)) (Z.max 0 (Z.of_nat (chunk_len i) - rem)) rem 0.
    + intros [= <- <-]. limit_by (Z.of_nat (chunk_len i)) (Z.max 0 (Z.of_nat (chunk_len i) - rem)) (Z.of_nat (chunk_len i)) 0.
  - destruct (Z.ltb_spec (Z.of_nat j) chunk_sz).
    + destruct (run_tx _ _ _ _ _ _) as [[[[[s0 db0] stats0] lg0] st0]|]; [|done]. cbn [result_bind].
      intros [= <- <-]. limit_by chunk_sz 0 chunk_sz 0.
    + destruct (sh_mempool sh !! i) as [c|]; [|done]. destruct (MempoolChunk.set_confirmed_txs c bitmap); [|done].
      cbn [result_bind]. intros [= <- <-]. limit_by chunk_sz 0 chunk_sz 0.
  - intros [= <- <-].
    rewrite (i64_id (chunk_sz - elts)), i64_id by (unfold in_i64; lia). limit_by chunk_sz 0 elts 0.
  - destruct (post <=? 0); intros [= <- <-]; rewrite u64_id by (unfold in_u64; lia); limit_by elts 0 0 0.
Qed.

Lemma limit_run sched acc sh ths :
  block_inv acc sh ths -> limit_inv sh ths -> (length (List.filter reserving ths) <= 1)%nat ->
  one_reserves sched (sh, ths) = true ->
  forall st', runs sched (sh, ths) = Ok st' -> total_block_size st'.1 <= max_block_size.
Proof.
  revert acc sh ths. induction sched as [|k sched IH]; intros acc sh ths Hi Hl Hone Hex st'; cbn [run_schedule].
  { intros [= <-]. cbn. pose proof (owed_held ths (li_within _ _ Hl)). destruct Hl. lia. }
  cbn [one_reserves] in Hex. unfold step_thread in *. cbn [fst snd] in *.
  destruct (ths !! k) as [th|] eqn:Hk.
  - destruct (thread_step_inv _ _ _ _ _ Hi Hk) as [(sh1 & th1 & E & Hi1)|(e & E & _)]; rewrite E in *; [|done]. cbn [result_bind fst snd] in *.
    apply andb_true_iff in Hex as [Hone'%Nat.leb_le Hex]. eapply IH; [exact Hi1| |exact Hone'|exact Hex].
    by eapply limit_inv_step.
  - cbn [result_bind] in *. apply andb_true_iff in Hex as [_ Hex]. by eapply IH.
Qed.
End Block.

(** ** The start of a block *)
Record block_ready (m : M) db (chunks : list Chunk) (ranges : list (list (list nat))) : Prop := {
  br_db : db_ok db;
  br_manager : manager_ok m;
  br_txs : Forall (fun c => Forall (tx_bounds (mm_num_assets m)) (MempoolChunk.txs c)) chunks;
  br_ranges : Forall (Forall (Forall (fun i => (i < length chunks)%nat))) ranges
}.
Definition block_start (m : M) db (chunks : list Chunk) (max_block_size : Z) (lg : LG) (ranges : list (list (list nat))) : State :=
  (mkShared m db max_block_size 0 chunks, new_thread lg <$> ranges).

Lemma ready_chunks m db chunks ranges :
  block_ready m db chunks ranges -> Forall (Forall (tx_bounds (mm_num_assets m))) (MempoolChunk.txs <$> chunks).
Proof. intros Hr. apply Forall_fmap, Hr. Qed.

Lemma start_inv m db chunks max lg ranges :
  block_ready m db chunks ranges ->
  let st := block_start m db chunks max lg ranges in
  block_inv (mm_num_assets m) (MempoolChunk.txs <$> chunks)
    (fun a => db_total db (Z.to_nat a) + tries_units (mm_num_assets m) (mm_books m) a) [] st.1 st.2.
Proof.
  intros [B1 B2 B3 B4] st.
  assert (Hnew : Forall (fun th => exists r, r ∈ ranges /\ th = new_thread lg r) st.2).
  { apply Forall_forall. intros th (r & -> & Hr)%list_elem_of_fmap. by exists r. }
  constructor; try done.
  - eapply Forall_impl; [exact Hnew|]. intros th (r & Hr & ->). split; [|done]. cbn. rewrite length_fmap.
    rewrite Forall_forall in B4. by apply B4.
  - eapply Forall_impl; [exact Hnew|]. intros th (r & Hr & ->) n k o.
    cbn [new_thread th_new_offers]. rewrite lookup_nil. cbn [default]. by rewrite ot_empty_map, lookup_empty.
  - intros a Ha. f_equal. unfold block_units. cbn [st block_start fst snd sh_db sh_main].
    rewrite sum_by_nil, sum_by_zero; [done|]. eapply Forall_impl; [exact Hnew|]. intros th (r & _ & ->). apply tries_units_empty.
  - apply NoDup_nil_2.
  - cbn [st block_start fst snd total_block_size]. rewrite sum_by_zero; [done|]. eapply Forall_impl; [exact Hnew|]. by intros th (r & _ & ->).
Qed.

Lemma start_limit chunks m db txs max lg ranges :
  0 <= max -> let st := block_start m db txs max lg ranges in
  limit_inv chunks max st.1 st.2 /\ List.filter reserving st.2 = [].
Proof.
  intros Hmax st. cbn [st block_start fst snd]. split; [constructor|].
  - apply Forall_fmap, Forall_true. done.
  - cbn [remaining_block_space total_block_size]. rewrite sum_by_fmap, sum_by_zero; [lia|]. by apply Forall_true.
  - cbn [remaining_block_space]. rewrite sum_by_fmap, sum_by_zero; [lia|]. by apply Forall_true.
  - done.
  - by induction ranges.
Qed.

(** The pairs the cancellations of the pool name are listed. *)
Definition cancels_listed (num_assets : Z) (chunks : list Chunk) : Prop :=
  Forall (fun c => Forall (fun stx => Forall (cancel_listed num_assets) (operations (transaction stx))) (MempoolChunk.txs c)) chunks.
Lemma listed_no_pool_error m db chunks ranges e :
  block_ready m db chunks ranges -> cancels_listed (mm_num_assets m) chunks ->
  ~ pool_error (mm_num_assets m) (MempoolChunk.txs <$> chunks) e.
Proof.
  intros [_ [Hn _] B3 _] Hl (l & stx & (c & -> & Hc)%list_elem_of_fmap & Hstx & He). revert He.
  apply list_elem_of_lookup in Hc as [i Hi], Hstx as [j Hj].
  apply cancels_listed_ok; [done| |].
  - apply (Forall_lookup_1 _ _ _ _ (Forall_lookup_1 _ _ _ _ B3 Hi) Hj).
  - apply (Forall_lookup_1 _ _ _ _ (Forall_lookup_1 _ _ _ _ Hl Hi) Hj).
Qed.


(** C16.  Block production terminates without an exception when the cancellations of
    the memory pool name listed pairs: as soon as the scheduler has given every
    thread as many steps as its ranges of chunks need, all threads have come to their
    end. *)
Theorem block_assembly_terminates m db chunks max lg ranges sched :
  block_ready m db chunks ranges -> cancels_listed (mm_num_assets m) chunks ->
  (forall k r, ranges !! k = Some r -> (ranges_work (MempoolChunk.txs <$> chunks) r <= turns k sched)%nat) ->
  exists sh ths, run_schedule sig_check check_sigs sched (block_start m db chunks max lg ranges) = Ok (sh, ths) /\
    length ths = length ranges /\ forallb finished ths = true.
Proof.
  intros Hr Hl Hfair. pose proof (start_inv m db chunks max lg ranges Hr) as Hi.
  destruct (run_inv _ _ _ (ready_chunks _ _ _ _ Hr) sched _ _ _ Hi) as [(sh & ths & E & _ & Hlen & Hw)|(e & _ & He)];
    [|by destruct (listed_no_pool_error _ _ _ _ e Hr Hl)].
  cbn [block_start snd] in Hlen, Hw. rewrite length_fmap in Hlen.
  exists sh, ths. split_and!; [exact E|exact Hlen|]. apply forallb_forall. intros th Hth%list_elem_of_In.
  apply list_elem_of_lookup in Hth as [k Hk]. destruct (lookup_lt_is_Some_2 ranges k) as [r Hrk].
  { rewrite <- Hlen. by eapply lookup_lt_Some. }
  destruct (Hw k (new_thread lg r)) as (th' & Hth' & Hle); [by rewrite list_lookup_fmap, Hrk|].
  assert (th' = th) as -> by congruence. specialize (Hfair k r Hrk).
  apply (work_finished (MempoolChunk.txs <$> chunks)). change (work _ (new_thread lg r)) with (ranges_work (MempoolChunk.txs <$> chunks) r) in Hle. lia.
Qed.

(** C17.  As long as no two threads reserve block space at the same time, the
    block does not exceed its limit. *)
Theorem block_size_is_limited m db chunks max lg ranges sched st' :
  block_ready m db chunks ranges -> 0 <= max < 2 ^ 62 ->
  Forall (fun c => MempoolChunk.size c < 2 ^ 62) chunks ->
  one_reserves sched (block_start m db chunks max lg ranges) = true ->
  run_schedule sig_check check_sigs sched (block_start m db chunks max lg ranges) = Ok st' ->
  total_block_size st'.1 <= max.
Proof.
  intros Hr Hmax Hlen Hex E. pose proof (start_inv m db chunks max lg ranges Hr) as Hi.
  destruct (start_limit (MempoolChunk.txs <$> chunks) m db chunks max lg ranges (proj1 Hmax)) as [Hl Hnone].
  assert (Hlen' : Forall (fun l => Z.of_nat (length l) < 2 ^ 62) (MempoolChunk.txs <$> chunks)) by by apply Forall_fmap.
  eapply (limit_run _ _ _ (ready_chunks _ _ _ _ Hr) max Hmax Hlen' sched _ _ _ Hi Hl); [|exact Hex|exact E].
  rewrite Hnone. cbn. lia.
Qed.
End Assembly.
