(* ===== verification/BlockValidator.v ===== *)
(** * Validating the transactions of a block (src/block_processing/block_validator.cc)

    Worker threads validate ranges of the block; each has a buffer of new offers
    and the supply it activated.  A worker stops a range at the first item that
    fails and skips its later ranges.  When no item failed, the buffers are merged
    and the accounts the block modified are checked.

    One step of [worker_step] is one transaction, or one step of the loops around
    it.  Items are the entries of an [AccountModificationBlock] (all transactions
    of one account, run to the end even after a failure) or single transactions. *)
From stdpp Require Import base gmap list strings.
From S2P Require Import Prelude Types PriceArith Offers Clearing Asset SeqTracker Accounts AccountLmdb Database DbView SerialManager TxProcessor.

(** The accounts with an entry in the log: what [parallel_iterate_over_log] visits. *)
Class ModifiedAccounts (LG : Type) `{SerialAccountModificationLog LG} := {
  log_accounts : LG -> gset Z;
  log_accounts_self lg owner id : log_accounts (log_self_modification lg owner id) = {[owner]} ∪ log_accounts lg;
  log_accounts_other lg author id account :
    log_accounts (log_other_modification lg author id account) = {[account]} ∪ log_accounts lg;
  log_accounts_tx lg stx :
    log_accounts (log_new_self_transaction lg stx) = {[sourceAccount (metadata (transaction stx))]} ∪ log_accounts lg
}.
#[global] Program Instance entry_log_accounts : ModifiedAccounts (list (Z * Z * Z)) := {
  log_accounts l := list_to_set ((fun e => e.1.1) <$> l)
}.
Solve All Obligations with done.

Section Validator.
Context {T : Type} `{SequenceTracker T} {CT : Type} `{MerkleTrie AccountCommitment CT} {L : Type} `{LMDBInstance L}.
Context {LG : Type} `{ModifiedAccounts LG}.
Context {TR : Type} `{OfferTrie TR} {M : Type} `{MainManager TR M} `{BigEndian}.
Variable sig_check : Transaction -> list Z -> PublicKey -> bool.
Variable check_sigs : bool.
Variable clearing_commitment : OrderbookStateCommitmentChecker.
Abbreviation DB := (MemoryDatabase.t T CT L).
Abbreviation View := (UnbufferedMemoryDatabaseView (T := T)).
Abbreviation Buffer := (ValidatingSerialManager (TR := TR) (M := M)).
Abbreviation VSM := (ValidatingManager (TR := TR) (M := M) (D := DB) (V := View) (LG := LG) true).

(** ** One worker *)
Record Shared := mkShared { sh_main : M; sh_db : DB }.

Record Worker := mkWorker {
  (** ranges of items; the first item may have been started *)
  wk_ranges : list (list (list SignedTransaction));
  (** [success] of the current item, [temp_valid] of the current range *)
  wk_success : bool;
  wk_temp_valid : bool;
  wk_valid : bool;
  wk_new_offers : list TR;
  wk_supplies : list Z;
  wk_stats : BlockStateUpdateStats;
  wk_log : LG
}.
Implicit Types (sh : Shared) (w : Worker).

Definition goto w (ranges : list (list (list SignedTransaction))) (success temp_valid valid : bool) : Worker :=
  mkWorker ranges success temp_valid valid (wk_new_offers w) (wk_supplies w) (wk_stats w) (wk_log w).

(** [tx_validator.validate_transaction]. *)
Definition run_tx sh w (stx : SignedTransaction) : result (Buffer * DB * BlockStateUpdateStats * LG * bool) :=
  validate_transaction sig_check check_sigs VSM empty_unbuffered
    (mkValidating (mkSerial (sh_main sh) (wk_new_offers w)) clearing_commitment (wk_supplies w))
    (sh_db sh) stx (wk_stats w) (wk_log w).

Definition worker_step sh w : result (Shared * Worker) :=
  match wk_ranges w with
  | [] => Ok (sh, w)
  | range :: ranges =>
      if negb (wk_valid w) then Ok (sh, goto w ranges true true (wk_valid w))
      else
        match range with
        | [] => Ok (sh, goto w ranges true true (wk_valid w && wk_temp_valid w))
        | [] :: items =>
            if wk_success w then Ok (sh, goto w (items :: ranges) true (wk_temp_valid w) (wk_valid w))
            else Ok (sh, goto w ([] :: ranges) true false (wk_valid w))
        | (stx :: txs) :: items =>
            let* q := run_tx sh w stx in
            let '(s, db, stats, lg, success) := q in
            Ok (mkShared (main_manager (base_manager s)) db,
                mkWorker ((txs :: items) :: ranges) (wk_success w && success) (wk_temp_valid w) (wk_valid w)
                  (new_offers (base_manager s)) (activated_supplies s) stats lg)
        end
  end.

(** ** All workers *)
Definition State : Type := Shared * list Worker.
Definition worker_finished w : bool := match wk_ranges w with [] => true | _ => false end.
Definition step_worker (k : nat) (st : State) : result State :=
  match st.2 !! k with
  | None => Ok st
  | Some w => let* q := worker_step st.1 w in Ok (q.1, <[k := q.2]> st.2)
  end.
Fixpoint run_workers (sched : list nat) (st : State) : result State :=
  match sched with
  | [] => Ok st
  | k :: sched => let* q := step_worker k st in run_workers sched q
  end.
Definition new_worker (lg : LG) (ranges : list (list (list SignedTransaction))) : Worker :=
  mkWorker ranges true true true [] [] zero_stats lg.

Fixpoint merge_orderbook (m : M) (ws : list Worker) (i : nat) : result (M * list Worker) :=
  match ws with
  | [] => Ok (m, [])
  | w :: ws =>
      let* s := partial_finish (mkSerial m (wk_new_offers w)) i in
      let* q := merge_orderbook (main_manager s) ws i in
      Ok (q.1, mkWorker (wk_ranges w) (wk_success w) (wk_temp_valid w) (wk_valid w) (new_offers s) (wk_supplies w)
                 (wk_stats w) (wk_log w) :: q.2)
  end.
Fixpoint merge_orderbooks (m : M) (ws : list Worker) (is_ : list nat) : result (M * list Worker) :=
  match is_ with
  | [] => Ok (m, ws)
  | i :: is_ => let* q := merge_orderbook m ws i in merge_orderbooks q.1 q.2 is_
  end.

(** The accounts in the merged log. *)
Definition dirty_accounts (ws : list Worker) : list Z := elements (⋃ ((fun w => log_accounts (wk_log w)) <$> ws)).

(** [validate_transaction_block_]: [ranges] is how the block was divided, [sched]
    how the workers ran; they must come to their end.  The result has the logs of the
    workers, which the caller's log holds and, unless a worker failed, merges. *)
Definition validate_transaction_block_ (m : M) (db : DB) (mod_log_size : Z) (lg : LG)
    (ranges : list (list (list (list SignedTransaction)))) (sched : list nat) (main_stats : list Z)
    (stats : BlockStateUpdateStats) : result (M * DB * list LG * list Z * BlockStateUpdateStats * bool) :=
  if negb (mod_log_size =? 0) then Throw "forgot to clear mod log"
  else
    let* st := run_workers sched (mkShared m db, new_worker lg <$> ranges) in
    if negb (forallb worker_finished st.2) then Throw "the workers are still running"
    else if negb (forallb wk_valid st.2) then Ok (sh_main st.1, sh_db st.1, wk_log <$> st.2, main_stats, stats, false)
    else
      let* q := merge_orderbooks (sh_main st.1) st.2 (seq 0 (Z.to_nat (mm_num_orderbooks m))) in
      let main_stats := foldl (fun s w => add_stats s (wk_supplies w)) main_stats q.2 in
      let stats := foldl (fun s w => stats_add s (wk_stats w)) stats st.2 in
      Ok (q.1, sh_db st.1, wk_log <$> q.2, main_stats, stats,
          MemoryDatabase.check_valid_state (sh_db st.1) (dirty_accounts q.2)).

(** The items of the two formats. *)
Definition list_items (data : list SignedTransaction) : list (list SignedTransaction) := (fun stx => [stx]) <$> data.

(** ** Replaying a block the databases may already hold *)
Section Replay.
Variable shorthash : Z -> Z.
Variable current_round_number : Z.
Abbreviation ReplayView := (LoadLMDBMemoryDatabaseView (T := T)).
#[local] Instance replay_view : DatabaseView DB ReplayView := loadlmdb_view shorthash.
Abbreviation RSM := (ValidatingManager (TR := TR) (M := M) (D := DB) (V := ReplayView) (LG := LG) false).

(** The results of the transactions are ignored: the block was accepted before. *)
Fixpoint replay_txs (s : Buffer) (db : DB) (txs : list SignedTransaction) (stats : BlockStateUpdateStats) (lg : LG)
    : result (Buffer * DB * LG) :=
  match txs with
  | [] => Ok (s, db, lg)
  | stx :: txs =>
      let* q := validate_transaction sig_check check_sigs RSM (mkLoadLMDB empty_unbuffered current_round_number) s db stx
                  stats lg in
      let '(s, db, stats, lg, _) := q in
      replay_txs s db txs stats lg
  end.
(** One range, by a validator of its own; its log stays in the cache of the main one. *)
Definition replay_range (m : M) (db : DB) (txs : list SignedTransaction) (lg : LG) : result (M * DB * LG) :=
  let* q := replay_txs (mkValidating (mkSerial m []) clearing_commitment []) db txs zero_stats lg in
  let* s := finish_merge (base_manager q.1.1) in
  Ok (main_manager s, q.1.2, q.2).
Fixpoint replay_trusted_block (m : M) (db : DB) (ranges : list (list SignedTransaction)) (lg : LG) : result (M * DB * list LG) :=
  match ranges with
  | [] => Ok (m, db, [])
  | r :: ranges =>
      let* q := replay_range m db r lg in
      let* q' := replay_trusted_block q.1.1 q.1.2 ranges lg in
      Ok (q'.1, q.2 :: q'.2)
  end.
End Replay.
End Validator.
