(* ===== verification/ValidationEffects.v ===== *)
(** * What a valid transaction does

    Validation applies every operation to the shared state at once.  [tx_effect]
    computes, from the committed accounts and offers alone, whether the operations of
    a transaction are valid and everything they do: amounts moved, accounts created,
    offers cancelled, buffered or executed at once.  [validate_transaction_spec]
    shows that the code does exactly that, so that the effect of a transaction does not
    depend on the transactions around it. *)
From stdpp Require Import base gmap list strings.
From S2P Require Import Prelude Types PriceArith Offers Clearing Asset SeqTracker Accounts AccountLmdb Database DbView SerialManager TxProcessor TxAtomicity BlockValidator.

Record Effect := mkEffect {
  moves : list (ptr * Z * Z);
  created : list (Z * PublicKey);
  cancelled_keys : list (nat * Offers.key);
  added : list (nat * Offer);
  executed : list (nat * Offer)
}.
Implicit Types e : Effect.
Definition no_effect : Effect := mkEffect [] [] [] [] [].
Definition add_move (p : ptr) (k x : Z) e : Effect :=
  mkEffect ((p, k, x) :: moves e) (created e) (cancelled_keys e) (added e) (executed e).
Definition add_created (id : Z) (pk : PublicKey) e : Effect :=
  mkEffect (moves e) ((id, pk) :: created e) (cancelled_keys e) (added e) (executed e).
Definition add_cancelled (n : nat) (k : Offers.key) e : Effect :=
  mkEffect (moves e) (created e) ((n, k) :: cancelled_keys e) (added e) (executed e).
Definition add_added (n : nat) (o : Offer) e : Effect :=
  mkEffect (moves e) (created e) (cancelled_keys e) (added e ++ [(n, o)]) (executed e).
Definition add_executed (n : nat) (o : Offer) e : Effect :=
  mkEffect (moves e) (created e) (cancelled_keys e) (added e) (executed e ++ [(n, o)]).

(** What reaches asset slot [n] of an account. *)
Definition moved_to e (p : ptr) (n : nat) : Z :=
  sum_by (fun m => if decide (m.1.1 = p /\ Z.to_nat m.1.2 = n) then m.2 else 0) (moves e).
(** A buffer with the added offers of orderbook [n]. *)
Definition put_added `{BigEndian} (n : nat) (l : list (nat * Offer)) (m : gmap Offers.key Offer) : gmap Offers.key Offer :=
  foldl (fun m p => if decide (p.1 = n) then <[Key.offer_key p.2 := p.2]> m else m) m l.
(** The supply of orderbook [n] after the executed offers. *)
Definition put_executed (n : nat) (l : list (nat * Offer)) (z : Z) : Z :=
  foldl (fun z p => if decide (p.1 = n) then FractionalAsset.add z (FractionalAsset.from_integral (amount p.2)) else z) z l.
Definition keys_at (n : nat) (l : list (nat * Offers.key)) : gset Offers.key :=
  list_to_set (snd <$> filter (fun p => p.1 = n) l).
Definition stat_at (l : list Z) (n : nat) : Z := default 0 (l !! n).

Lemma keys_at_cons n m k l : keys_at n ((m, k) :: l) = if decide (m = n) then {[k]} ∪ keys_at n l else keys_at n l.
Proof. unfold keys_at. rewrite filter_cons. cbn [fst]. by destruct (decide (m = n)). Qed.

Section Effects.
Context {T : Type} `{SequenceTrackerRefines T}.
Context {CT : Type} `{MerkleTrie AccountCommitment CT}.
Context {L : Type} `{LMDBInstance L}.
Context {LG : Type} `{ModifiedAccounts LG}.
Context {TR : Type} `{OfferTrie TR} {M : Type} `{MainManager TR M} `{!MainManagerLaws TR M} `{BigEndian}.
Variable sig_check : Transaction -> list Z -> PublicKey -> bool.
Variable check_sigs : bool.
Variable checker : OrderbookStateCommitmentChecker.
Abbreviation DB := (MemoryDatabase.t T CT L).
Abbreviation account := (UserAccount.t T).
Abbreviation View := (UnbufferedMemoryDatabaseView (T := T)).
Abbreviation Buffer := (ValidatingSerialManager (TR := TR) (M := M)).
Abbreviation VSM := (ValidatingManager (TR := TR) (M := M) (D := DB) (V := View) (LG := LG) true).
Abbreviation Handler := (handler (D := DB) (V := View) (LG := LG) (S := Buffer)).
Implicit Types (db : DB) (m : M) (h : Handler).

(** ** The effect of an operation *)
(** [validating_add_offer]: an offer below the threshold key executes at once. *)
Definition executes (c : SingleOrderbookStateCommitment) (o : Offer) : bool :=
  (thresholdKeyIsNull c =? 1) || match memcmp (partialExecThresholdKey c) (Key.offer_key o) with Gt => true | _ => false end.
Definition proceeds (o : Offer) : option Z :=
  sp ← prices checker !! Z.to_nat (sellAsset (category o));
  bp ← prices checker !! Z.to_nat (buyAsset (category o));
  Some (clear_offer_full (fun _ x => x) o sp bp (tax_rate checker)).

Definition sell_effect (i : nat) (idx : Z) (o : Offer) e : option Effect :=
  c ← commitments checker !! Z.to_nat idx;
  if executes c o then
    x ← proceeds o;
    Some (add_move (DbPtr i) (sellAsset (category o)) (- amount o)
      (add_move (DbPtr i) (buyAsset (category o)) x (add_executed (Z.to_nat idx) o e)))
  else Some (add_move (DbPtr i) (sellAsset (category o)) (- amount o) (add_added (Z.to_nat idx) o e)).

Definition cancel_effect m (i : nat) (idx : Z) (sell : Z) (k : Offers.key) e : option Effect :=
  t ← mm_books m !! Z.to_nat idx;
  o ← ot_map t !! k;
  if decide (k ∈ ot_marked t \/ (Z.to_nat idx, k) ∈ cancelled_keys e) then None
  else Some (add_move (DbPtr i) sell (- i64 (- amount o)) (add_cancelled (Z.to_nat idx) k e)).

Definition create_effect db (i : nat) (op : CreateAccountOp) e : option Effect :=
  if (startingBalance op <? CREATE_ACCOUNT_MIN_STARTING_BALANCE) || negb (is_valid_amount (startingBalance op))
    || bool_decide (is_Some (MemoryDatabase.lookup_user db (newAccountId op)))
    || bool_decide (newAccountId op ∈ MemoryDatabase.reserved_account_ids db \/ newAccountId op ∈ (created e).*1)
  then None
  else Some (add_move (NewPtr (newAccountId op)) MemoryDatabase.NATIVE_ASSET (startingBalance op)
        (add_move (DbPtr i) MemoryDatabase.NATIVE_ASSET (i64 (- startingBalance op))
          (add_created (newAccountId op) (newAccountPublicKey op) e))).

(** [find_user]: existing accounts, and those the transaction created. *)
Definition find_user db e (id : Z) : option ptr :=
  match MemoryDatabase.lookup_user db id with
  | Some j => Some (DbPtr j)
  | None => if decide (id ∈ (created e).*1) then Some (NewPtr id) else None
  end.

Definition op_effect db m (i : nat) (owner id : Z) (op : Operation) e : option Effect :=
  match op with
  | CREATE_ACCOUNT op => create_effect db i op e
  | CREATE_SELL_OFFER op =>
      if Category.validate_category_ (cso_category op) (mm_num_assets m) && Price.is_valid_price (cso_minPrice op)
         && is_valid_amount (cso_amount op)
      then match Category.category_to_idx (cso_category op) (mm_num_assets m) with
           | Ok idx => sell_effect i idx (mkOffer (cso_category op) id owner (cso_amount op) (cso_minPrice op)) e
           | Throw _ => None
           end
      else None
  | CANCEL_SELL_OFFER op =>
      match Category.category_to_idx (can_category op) (mm_num_assets m) with
      | Ok idx => cancel_effect m i idx (sellAsset (can_category op))
                    (Key.generate_orderbook_trie_key (can_minPrice op) owner (can_offerId op)) e
      | Throw _ => None
      end
  | PAYMENT op =>
      if is_valid_amount (pay_amount op) then
        p ← find_user db e (receiver op);
        Some (add_move p (pay_asset op) (pay_amount op) (add_move (DbPtr i) (pay_asset op) (i64 (- pay_amount op)) e))
      else None
  | MONEY_PRINTER op =>
      if print_amount op <? 0 then None else Some (add_move (DbPtr i) (print_asset op) (print_amount op) e)
  | OTHER_OPERATION _ => None
  end.

Fixpoint ops_effect db m (i : nat) (md : TransactionMetadata) (j : nat) (ops : list Operation) e : option Effect :=
  match ops with
  | [] => Some e
  | op :: ops =>
      e ← op_effect db m i (sourceAccount md) (u64 (sequenceNumber md + Z.of_nat j)) op e;
      ops_effect db m i md (j + 1) ops e
  end.

(** The effect of a transaction, leaving its sequence number aside. *)
Definition tx_effect db m (stx : SignedTransaction) : option Effect :=
  let tx := transaction stx in
  let fee := fee_required (Z.of_nat (length (operations tx))) in
  if negb (check_tx_format_parameters tx) || (maxFee tx <? fee) then None
  else
    i ← MemoryDatabase.lookup_user db (sourceAccount (metadata tx));
    match signature_ok sig_check check_sigs db i stx with
    | Ok true =>
        ops_effect db m i (metadata tx) 0 (operations tx)
          (add_move (DbPtr i) MemoryDatabase.NATIVE_ASSET (i64 (- fee)) no_effect)
    | _ => None
    end.

(** ** The effect of a block *)
Definition effects db m (l : list SignedTransaction) : list Effect := omap (tx_effect db m) l.
Definition moved_by (es : list Effect) (p : ptr) (n : nat) : Z := sum_by (fun e => moved_to e p n) es.
Definition created_by (es : list Effect) : list Z := es ≫= fun e => (created e).*1.
Definition cancelled_by (es : list Effect) : list (nat * Offers.key) := es ≫= cancelled_keys.
Definition added_by (es : list Effect) : list (nat * Offer) := es ≫= added.
Definition executed_by (es : list Effect) : list (nat * Offer) := es ≫= executed.

(** The sequence number a transaction reserves: the account, and the offset of the
    number in its tracker. *)
Definition number_slot db (stx : SignedTransaction) : option (nat * Z) :=
  i ← MemoryDatabase.lookup_user db (sourceAccount (metadata (transaction stx)));
  a ← MemoryDatabase.database db !! i;
  Some (i, Spec.offset (sequenceNumber (metadata (transaction stx))) (Spec.last (st_abs (UserAccount.seq_tracker a)))).

(** Every transaction is valid on the committed state, and no two of them reserve the
    same sequence number, create the same account or cancel the same offer. *)
Record block_valid db m (l : list SignedTransaction) : Prop := {
  bv_effects : Forall (fun stx => is_Some (tx_effect db m stx)) l;
  bv_numbers : Forall (fun stx => accepts_number db (transaction stx)) l;
  bv_slots : NoDup (number_slot db <$> l);
  bv_created : NoDup (created_by (effects db m l));
  bv_cancelled : NoDup (cancelled_by (effects db m l))
}.

(** No balance is negative after the block. *)
Record balances_valid db m (l : list SignedTransaction) : Prop := {
  blv_accounts i a n : MemoryDatabase.database db !! i = Some a ->
    0 <= i64 (RevertableAsset.available (UserAccount.asset_of a n) + moved_by (effects db m l) (DbPtr i) n);
  blv_created e id n : e ∈ effects db m l -> id ∈ (created e).*1 -> 0 <= i64 (moved_to e (NewPtr id) n)
}.

#[global] Instance block_valid_proper db m : Proper ((≡ₚ) ==> iff) (block_valid db m).
Proof.
  enough (Hp : forall l l', l ≡ₚ l' -> block_valid db m l -> block_valid db m l').
  { intros l l' E. split; apply Hp; [done|by symmetry]. }
  intros l l' E [B1 B2 B3 B4 B5].
  constructor; unfold created_by, cancelled_by, effects in *; by rewrite <- E.
Qed.
#[global] Instance balances_valid_proper db m : Proper ((≡ₚ) ==> iff) (balances_valid db m).
Proof.
  enough (Hp : forall l l', l ≡ₚ l' -> balances_valid db m l -> balances_valid db m l').
  { intros l l' E. split; apply Hp; [done|by symmetry]. }
  intros l l' E [B1 B2]. assert (Ee : effects db m l ≡ₚ effects db m l') by (unfold effects; by rewrite E).
  constructor; [|intros e id n; rewrite <- Ee; apply B2]. intros i a n Ha. unfold moved_by. rewrite <- Ee. by apply B1.
Qed.
Lemma block_valid_app db m l l' : block_valid db m (l ++ l') -> block_valid db m l.
Proof.
  intros [B1 B2 B3 B4 B5]. unfold created_by, cancelled_by, effects in *.
  rewrite fmap_app in B3. rewrite omap_app, bind_app in B4. rewrite omap_app, bind_app in B5.
  apply Forall_app in B1 as [B1 _], B2 as [B2 _]. apply NoDup_app in B3 as [B3 _], B4 as [B4 _], B5 as [B5 _].
  by constructor.
Qed.
Lemma effects_snoc db m l stx e : tx_effect db m stx = Some e -> effects db m (l ++ [stx]) = effects db m l ++ [e].
Proof. intros E. unfold effects. rewrite omap_app. cbn. by rewrite E. Qed.
Lemma created_by_snoc es e : created_by (es ++ [e]) = created_by es ++ (created e).*1.
Proof. unfold created_by. rewrite bind_app. cbn. by rewrite app_nil_r. Qed.
Lemma cancelled_by_snoc es e : cancelled_by (es ++ [e]) = cancelled_by es ++ cancelled_keys e.
Proof. unfold cancelled_by. rewrite bind_app. cbn. by rewrite app_nil_r. Qed.
Lemma moved_by_snoc es e p n : moved_by (es ++ [e]) p n = moved_by es p n + moved_to e p n.
Proof. unfold moved_by. rewrite sum_by_app, sum_by_cons, sum_by_nil. lia. Qed.
End Effects.
