(* ===== verification/ValidationProps.v ===== *)
(** * Validating one transaction

    The handlers on the unbuffered view and the validation buffer compute exactly
    the effect of ValidationEffects.v. *)
From stdpp Require Import base gmap list strings.
From S2P Require Import Prelude Types PriceArith Offers Clearing Asset SeqTracker Accounts AccountLmdb Database DbView SerialManager TxProcessor TxAtomicity BlockAssembly BlockValidator ValidationEffects.

Section Handlers.
Context {T : Type} `{SequenceTrackerRefines T}.
Context {CT : Type} `{MerkleTrie AccountCommitment CT}.
Context {L : Type} `{LMDBInstance L}.
Context {LG : Type} `{ModifiedAccounts LG}.
Context {TR : Type} `{OfferTrie TR} {M : Type} `{MainManager TR M} `{!MainManagerLaws TR M} `{BigEndian}.
Variable sig_check : Transaction -> list Z -> PublicKey -> bool.
Variable check_sigs : bool.
Variable checker : OrderbookStateCommitmentChecker.
Abbreviation DB := (MemoryDatabase.t T CT L).
Abbreviation account := (UserAccount.t T).
Abbreviation View := (UnbufferedMemoryDatabaseView (T := T)).
Abbreviation Buffer := (ValidatingSerialManager (TR := TR) (M := M)).
Abbreviation VSM := (ValidatingManager (TR := TR) (M := M) (D := DB) (V := View) (LG := LG) true).
Abbreviation Handler := (handler (D := DB) (V := View) (LG := LG) (S := Buffer)).
Implicit Types (db : DB) (m : M) (h : Handler) (a : account) (e : Effect) (v : View) (s : Buffer).

(** ** Accounts under an effect *)
Section Transaction.
Context (db1 : DB) (s1 : Buffer) (lg1 : LG) (i : nat) (md : TransactionMetadata).
Context (Hdb1 : db_ok db1) (Hi : (i < length (MemoryDatabase.database db1))%nat).

Definition start_tracker (j : nat) a : T :=
  if decide (i = j) then (st_reserve_sequence_number (UserAccount.seq_tracker a) (sequenceNumber md)).1
  else UserAccount.seq_tracker a.
Definition valid_target e (p : ptr) : Prop :=
  match p with DbPtr j => (j < length (MemoryDatabase.database db1))%nat | NewPtr id => id ∈ (created e).*1 end.

(** The accounts of the database and the view after [e]. *)
Record accounts_after e db v : Prop := {
  aa_frame : same_frame db1 db;
  aa_length : length (MemoryDatabase.database db) = length (MemoryDatabase.database db1);
  aa_account j a1 : MemoryDatabase.database db1 !! j = Some a1 ->
    exists a, MemoryDatabase.database db !! j = Some a /\ acct_shift (moved_to e (DbPtr j)) a1 a /\
      UserAccount.seq_tracker a = start_tracker j a1;
  aa_reserved : MemoryDatabase.reserved_account_ids db =
    list_to_set (created e).*1 ∪ MemoryDatabase.reserved_account_ids db1;
  aa_nodup : NoDup (created e).*1;
  aa_ids : (new_accounts (base v)).*1 = (created e).*1;
  aa_new id pk : (id, pk) ∈ created e ->
    exists a, find_new (new_accounts (base v)) id = Some a /\
      acct_shift (moved_to e (NewPtr id)) (UserAccount.new id pk) a /\
      UserAccount.seq_tracker a = UserAccount.seq_tracker (UserAccount.new id pk : account);
  aa_temp id : temporary_idxs (base v) !! id = if decide (id ∈ (created e).*1) then Some (NewPtr id) else None;
  aa_fresh id : id ∈ (created e).*1 ->
    MemoryDatabase.user_id_to_idx_map db1 !! id = None /\ (id ∉ MemoryDatabase.reserved_account_ids db1);
  aa_moves : Forall (fun q => valid_target e q.1.1) (moves e);
  aa_reservations : reservations (base v) = [(DbPtr i, sequenceNumber md)]
}.

Lemma moved_to_add p k x e q n :
  moved_to (add_move p k x e) q n = moved_to e q n + (if decide (p = q /\ Z.to_nat k = n) then x else 0).
Proof. unfold moved_to. cbn [moves add_move]. rewrite sum_by_cons. cbn. lia. Qed.

Lemma moved_to_none e p n : Forall (fun q => valid_target e q.1.1) (moves e) -> ~ valid_target e p -> moved_to e p n = 0.
Proof.
  intros Hm Hp. unfold moved_to. apply sum_by_zero. eapply Forall_impl; [exact Hm|].
  intros [[q k] x] Hq. cbn in *. rewrite decide_False; [done|]. intros [-> _]. done.
Qed.

Lemma shift_extend d a b k x p q e :
  acct_shift (moved_to e q) d a -> UserAccount.wf a ->
  b = (if decide (p = q) then UserAccount.transfer_available a k x else a) ->
  acct_shift (moved_to (add_move p k x e) q) d b /\ UserAccount.seq_tracker b = UserAccount.seq_tracker a.
Proof.
  intros Hs Hw ->. destruct (decide (p = q)) as [->|Hne].
  - split; [|apply transfer_tracker]. refine (shift_ext _ _ _ _ _ (shift_trans _ _ _ _ _ Hs (shift_transfer a k x Hw))).
    intros n. rewrite moved_to_add. f_equal. f_equal. repeat case_decide; tauto.
  - split; [|done]. refine (shift_ext _ _ _ _ _ Hs). intros n. rewrite moved_to_add, decide_False by naive_solver. by rewrite Z.add_0_r.
Qed.

(** A transfer through the unbuffered view. *)
Lemma unbuffered_spec e db v p k x :
  accounts_after e db v -> valid_target e p ->
  exists db' v', unbuffered_transfer_available db v p k x = Ok (db', v', SUCCESS) /\
    accounts_after (add_move p k x e) db' v'.
Proof.
  intros [A1 A2 A3 A4 A5 A6 A7 A8 A9 A10 A11] Hp.
  assert (Hm : Forall (fun q => valid_target (add_move p k x e) q.1.1) (moves (add_move p k x e))) by by constructor.
  unfold unbuffered_transfer_available, unbuffered_op. destruct p as [j|id]; cbn [on_ptr].
  - destruct (lookup_lt_is_Some_2 _ _ Hp) as [a1 Ha1]. destruct (A3 j a1 Ha1) as (a & Ha & Hs & Ht).
    rewrite (on_account_ok _ _ _ _ Ha). cbn [result_bind fst snd]. do 2 eexists. split; [reflexivity|].
    pose proof (Forall_lookup_1 _ _ _ _ (proj1 Hdb1) Ha1) as (Hw1 & _ & _).
    pose proof (shift_wf _ _ _ Hw1 Hs) as Hw.
    constructor; cbn; try done; [by destruct A1|by rewrite length_insert|].
    intros j' b1 Hb1. destruct (decide (j = j')) as [<-|Hne].
    + assert (b1 = a1) as -> by congruence. eexists. split; [apply list_lookup_insert_eq; by eapply lookup_lt_Some|].
        destruct (shift_extend a1 a (UserAccount.transfer_available a k x) k x (DbPtr j) (DbPtr j) e Hs Hw) as [E1 E2];
          [by rewrite decide_True|]. split; [exact E1|]. by rewrite E2.
    + destruct (A3 j' b1 Hb1) as (b & Hb & Hbs & Hbt). exists b. rewrite list_lookup_insert_ne by done. split; [done|].
        pose proof (Forall_lookup_1 _ _ _ _ (proj1 Hdb1) Hb1) as (Hw1' & _ & _).
        destruct (shift_extend b1 b b k x (DbPtr j) (DbPtr j') e Hbs (shift_wf _ _ _ Hw1' Hbs)) as [E1 E2];
          [by rewrite decide_False by congruence|]. by split.
  - pose proof Hp as Hp'. cbn in Hp'. apply list_elem_of_fmap in Hp' as ([id0 pk] & -> & Hin). cbn [fst] in *.
    destruct (A7 id0 pk Hin) as (a & Ha & Hs & Ht). rewrite Ha. cbn [result_bind fst snd].
    do 2 eexists. split; [reflexivity|].
    constructor; cbn [base set_new_accounts new_accounts temporary_idxs reservations created moves add_move]; try done.
    + by rewrite update_new_fst.
    + intros id pk' Hid. rewrite find_update_new by (rewrite A6; by apply (list_elem_of_fmap_2 fst) in Hin).
      destruct (A7 id pk' Hid) as (b & Hb & Hbs & Hbt). pose proof (shift_wf _ _ _ (new_account_wf id pk') Hbs) as Hwb.
      destruct (decide (id0 = id)) as [->|Hne].
      * assert (b = a) as -> by congruence. eexists. split; [reflexivity|].
        destruct (shift_extend (UserAccount.new id pk') a (UserAccount.transfer_available a k x) k x (NewPtr id) (NewPtr id) e Hbs Hwb)
          as [E1 E2]; [by rewrite decide_True|]. split; [exact E1|]. by rewrite E2.
      * exists b. split; [done|].
        destruct (shift_extend (UserAccount.new id pk') b b k x (NewPtr id0) (NewPtr id) e Hbs Hwb) as [E1 E2];
          [by rewrite decide_False by congruence|]. by split.
Qed.

Lemma escrow_spec e db v p k x :
  accounts_after e db v -> valid_target e p ->
  exists db' v', unbuffered_escrow db v p k x = Ok (db', v', SUCCESS) /\ accounts_after (add_move p k (- x) e) db' v'.
Proof. exact (unbuffered_spec e db v p k (- x)). Qed.

Lemma creation_spec e db v id pk :
  accounts_after e db v ->
  exists db' c st p, create_new_account db (base v) id pk = (db', c, st, p) /\
    if decide (is_Some (MemoryDatabase.lookup_user db1 id) \/
               (id ∈ MemoryDatabase.reserved_account_ids db1 \/ id ∈ (created e).*1))
    then st <> SUCCESS /\ db' = db /\ c = base v
    else st = SUCCESS /\ p = Some (NewPtr id) /\ accounts_after (add_created id pk e) db' (mkUnbuffered c).
Proof.
  intros [A1 A2 A3 A4 A5 A6 A7 A8 A9 A10 A11].
  unfold create_new_account, MemoryDatabase.reserve_account_creation, MemoryDatabase.lookup_user. rewrite (sf_map _ _ A1).
  destruct (MemoryDatabase.user_id_to_idx_map db1 !! id) as [j|] eqn:Em.
  { do 4 eexists. split; [reflexivity|]. rewrite decide_True; [done|left; by eexists]. }
  destruct (decide (id ∈ MemoryDatabase.reserved_account_ids db)) as [Hr|Hr].
  { do 4 eexists. split; [reflexivity|]. rewrite decide_True; [done|right]. rewrite A4 in Hr. set_solver. }
  do 4 eexists. split; [reflexivity|]. rewrite A4 in Hr.
  assert (Hnew : id ∉ (created e).*1) by set_solver.
  rewrite decide_False. 2: { intros [[? ?]|Hin]; [done|]. set_solver. }
  split; [done|]. split; [done|]. rewrite (A8 id), decide_False by done.
  constructor; cbn [base new_accounts temporary_idxs reservations created moves add_created fmap list_fmap fst]; try done.
  - by destruct A1.
  - cbn. rewrite A4. set_solver.
  - by apply NoDup_cons.
  - by rewrite <- A6.
  - intros id' pk' Hid. cbn [find_new]. apply elem_of_cons in Hid as [[= -> ->]|Hid].
    + rewrite Z.eqb_refl. eexists. split; [reflexivity|]. split; [|done]. apply shift_refl; [apply new_account_wf|].
      intros n. change (i64 (moved_to e (NewPtr id) n) = 0). by rewrite (moved_to_none e (NewPtr id) n A10 Hnew).
    + destruct (Z.eqb_spec id' id) as [->|]; [by apply (list_elem_of_fmap_2 fst) in Hid|]. by apply A7.
  - intros id'. destruct (decide (id' = id)) as [->|Hne].
    + rewrite lookup_insert_eq, decide_True; [done|]. apply elem_of_cons. by left.
    + rewrite lookup_insert_ne, A8 by done. apply decide_ext. rewrite elem_of_cons. naive_solver.
  - intros id' [->|Hid]%elem_of_cons; [|by apply A9]. split; [done|]. set_solver.
  - eapply Forall_impl; [exact A10|]. intros [[q k] x]. cbn. destruct q; [done|]. cbn. intros. apply elem_of_cons. by right.
Qed.

Lemma lookup_spec e db v id :
  accounts_after e db v -> creation_lookup_user db (base v) id = find_user db1 e id.
Proof.
  intros [A1 A2 A3 A4 A5 A6 A7 A8 A9 A10 A11]. unfold creation_lookup_user, find_user, MemoryDatabase.lookup_user.
  by rewrite (sf_map _ _ A1), A8.
Qed.
Lemma find_user_valid e id p : find_user db1 e id = Some p -> valid_target e p.
Proof.
  unfold find_user. destruct (MemoryDatabase.lookup_user db1 id) as [j|] eqn:E.
  - intros [= <-]. destruct (lookup_user_account db1 id j Hdb1 E) as [a Ha]. by eapply lookup_lt_Some.
  - case_decide; [|done]. by intros [= <-].
Qed.

(** ** The buffer under an effect *)
Abbreviation m1 := (main_manager (base_manager s1)).
Record buffer_after e s : Prop := {
  ba_main : exists l, main_manager (base_manager s) = mm_set_books m1 l /\ length l = length (mm_books m1) /\
    forall n t1, mm_books m1 !! n = Some t1 -> exists t, l !! n = Some t /\ ot_map t = ot_map t1 /\
      ot_rollback t = ot_rollback t1 /\ ot_marked t = keys_at n (cancelled_keys e) ∪ ot_marked t1;
  ba_new n : ot_map (new_at (base_manager s) n) = put_added n (added e) (ot_map (new_at (base_manager s1) n));
  ba_supplies n : stat_at (activated_supplies s) n = put_executed n (executed e) (stat_at (activated_supplies s1) n);
  ba_checker : clearing_commitment s = checker
}.

Lemma buffer_after_num e s : buffer_after e s -> mm_num_assets (main_manager (base_manager s)) = mm_num_assets m1.
Proof. intros [(l & -> & _) _ _ _]. apply mm_num_assets_set. Qed.
Lemma buffer_after_books e s :
  buffer_after e s -> length (mm_books (main_manager (base_manager s))) = length (mm_books m1).
Proof. intros [(l & -> & Hl & _) _ _ _]. by rewrite mm_books_set. Qed.
Lemma buffer_after_ok e s : buffer_after e s -> manager_ok m1 -> manager_ok (main_manager (base_manager s)).
Proof. intros Hs [Hn Hl]. split; rewrite (buffer_after_num _ _ Hs); [done|]. by rewrite (buffer_after_books _ _ Hs). Qed.

(** ** The state of a handler *)
Record running e h : Prop := {
  ru_accounts : accounts_after e (hs_db h) (db_view (hs_metadata h));
  ru_buffer : buffer_after e (hs_manager h);
  ru_md : tx_metadata (hs_metadata h) = md;
  ru_source : source_account_idx (hs_metadata h) = DbPtr i;
  ru_done : was_committed_or_unwound (hs_metadata h) = true;
  ru_log : log_accounts lg1 ⊆ log_accounts (hs_log h)
}.

(** The sizes of the header's commitment. *)
Record checker_ok (num : Z) : Prop := {
  ck_commitments : Z.of_nat (length (commitments checker)) = num * (num - 1);
  ck_prices : Z.of_nat (length (prices checker)) = num
}.
Context (Hm1 : manager_ok m1) (Hck : checker_ok (mm_num_assets m1)).

Lemma source_valid e : valid_target e (DbPtr i).
Proof. exact Hi. Qed.

Lemma running_db e h db v :
  running e h -> accounts_after e db v -> running e (set_db h db v).
Proof. intros [] Ha. by constructor. Qed.

Lemma running_transfer e h p k x :
  running e h -> valid_target e p ->
  exists h', view_transfer_available h p k x = Ok (h', SUCCESS) /\ running (add_move p k x e) h' /\ hs_manager h' = hs_manager h.
Proof.
  intros [R1 R2 R3 R4 R5 R6] Hp. destruct (unbuffered_spec e (hs_db h) (db_view (hs_metadata h)) p k x R1 Hp) as (d & v & E & Ha).
  unfold view_transfer_available. cbn [dv_transfer_available unbuffered_view]. rewrite E. cbn [result_bind fst snd].
  eexists. split; [reflexivity|]. split; [|done]. constructor; try done. by destruct R2.
Qed.
Lemma running_escrow e h p k x :
  running e h -> valid_target e p ->
  exists h', view_escrow h p k x = Ok (h', SUCCESS) /\ running (add_move p k (- x) e) h' /\ hs_manager h' = hs_manager h.
Proof. exact (running_transfer e h p k (- x)). Qed.
Lemma running_counted e h st : running e h -> running e (counted h st).
Proof. by intros []. Qed.

Lemma stat_at_make_minimum l sz n : stat_at (make_minimum_size l sz) n = stat_at l n.
Proof.
  unfold stat_at, make_minimum_size. destruct (length l <=? sz)%nat; [|done]. destruct (decide (n < length l)%nat).
  - by rewrite lookup_app_l.
  - rewrite lookup_app_r, (lookup_ge_None_2 l) by lia. destruct (replicate _ _ !! _) eqn:E; [|done].
    by apply lookup_replicate in E as [-> _].
Qed.
Lemma make_minimum_long l sz : (sz < length (make_minimum_size l sz))%nat.
Proof. unfold make_minimum_size. destruct (Nat.leb_spec (length l) sz); [|lia]. rewrite length_app, length_replicate. lia. Qed.
Lemma stat_at_activate l n x j :
  (n < length l)%nat -> stat_at (activate l n x) j = if decide (n = j) then FractionalAsset.add (stat_at l j) x else stat_at l j.
Proof.
  intros Hn. unfold stat_at, activate. destruct (decide (n = j)) as [<-|].
  - rewrite list_lookup_alter_eq. destruct (lookup_lt_is_Some_2 _ _ Hn) as [y ->]. done.
  - by rewrite list_lookup_alter_ne.
Qed.

Lemma put_added_snoc n l j o mp :
  put_added n (l ++ [(j, o)]) mp = if decide (j = n) then <[Key.offer_key o := o]> (put_added n l mp) else put_added n l mp.
Proof. unfold put_added. rewrite foldl_app. cbn [foldl fst snd]. reflexivity. Qed.
Lemma put_executed_snoc n l j o z :
  put_executed n (l ++ [(j, o)]) z =
    if decide (j = n) then FractionalAsset.add (put_executed n l z) (FractionalAsset.from_integral (amount o)) else put_executed n l z.
Proof. unfold put_executed. rewrite foldl_app. reflexivity. Qed.

Lemma ensure_buffer e s idx : buffer_after e s -> buffer_after e (validating_ensure s idx).
Proof.
  intros [B1 B2 B3 B4]. constructor; try done.
  - intros n. cbn [base_manager validating_ensure]. by rewrite new_at_ensure.
  - intros n. cbn [activated_supplies validating_ensure]. by rewrite stat_at_make_minimum.
Qed.

(** An offer that executes at once. *)
Lemma clear_at_once_spec e h s idx o sp bp :
  running e h -> buffer_after e s -> 0 <= idx -> (Z.to_nat idx < length (activated_supplies s))%nat ->
  0 <= sellAsset (category o) -> 0 <= buyAsset (category o) ->
  prices checker !! Z.to_nat (sellAsset (category o)) = Some sp ->
  prices checker !! Z.to_nat (buyAsset (category o)) = Some bp ->
  exists s' d md' lg,
    clear_at_once s idx o (hs_db h) (hs_metadata h) (hs_log h) = Ok (s', d, md', lg) /\
    running (add_move (DbPtr i) (buyAsset (category o)) (clear_offer_full (fun _ x => x) o sp bp (tax_rate checker))
      (add_executed (Z.to_nat idx) o e)) (mkHandler s' d md' lg).
Proof.
  intros [R1 R2 R3 R4 R5 R6] [B1 B2 B3 B4] Hidx Hlen Hsa Hba Hsp Hbp. unfold clear_at_once. rewrite B4.
  rewrite (proj2 (vec_at_Ok _ _ sp)) by done. cbn [result_bind].
  rewrite (proj2 (vec_at_Ok _ _ bp)) by done. cbn [result_bind].
  unfold clear_offer_full at 1. set (x := i64 _). rewrite R4.
  destruct (unbuffered_spec e (hs_db h) (db_view (hs_metadata h)) (DbPtr i) (buyAsset (category o)) x R1 (source_valid e))
    as (d & v & E & Ha).
  cbn [dv_transfer_available unbuffered_view]. rewrite E. cbn [result_bind fst snd].
  destruct (lookup_lt_is_Some_2 _ _ Hlen) as [z Hz]. rewrite (proj2 (vec_at_Ok _ _ z)) by done. cbn [result_bind].
  do 4 eexists. split; [reflexivity|]. constructor; try done; cbn [hs_manager hs_db hs_metadata hs_log].
  - by destruct Ha.
  - constructor; try done. intros n. cbn [activated_supplies executed add_move add_executed].
    rewrite stat_at_activate, put_executed_snoc, B3 by done. done.
  - rewrite log_accounts_self. set_solver.
Qed.

Lemma category_prices id :
  Category.nonneg id -> Category.validate_category_ id (mm_num_assets m1) = true ->
  0 <= sellAsset id /\ 0 <= buyAsset id /\
  is_Some (prices checker !! Z.to_nat (sellAsset id)) /\ is_Some (prices checker !! Z.to_nat (buyAsset id)).
Proof.
  intros Hnn (_ & H1' & H2' & _)%Category.validate_category_spec.
  destruct Hnn, Hck as [_ Hp]. split_and!; [done|done|apply lookup_lt_is_Some_2; lia..].
Qed.

(** An offer that was put into the buffer. *)
Lemma buffered_offer_spec e h s idx o :
  running e h -> buffer_after e s -> 0 <= idx -> (Z.to_nat idx < length (new_offers (base_manager s)))%nat ->
  exists b, on_new_offers (base_manager s) idx (fun tr => ot_rollback_insert tr (Key.offer_key o) o) = Ok b /\
    running (add_added (Z.to_nat idx) o e) (set_manager h (set_base_manager s b)).
Proof.
  intros [R1 R2 R3 R4 R5 R6] [B1 B2 B3 B4] Hidx Hlen.
  destruct (on_new_offers_spec (base_manager s) idx (fun tr => ot_rollback_insert tr (Key.offer_key o) o) Hidx Hlen)
    as (b & -> & Em & _ & En).
  exists b. split; [done|]. constructor; try done; cbn [hs_manager set_manager].
  - by destruct R1.
  - constructor; cbn [base_manager set_base_manager activated_supplies clearing_commitment cancelled_keys added executed add_added];
      try done; [by rewrite Em|].
    intros n. rewrite En, put_added_snoc, <- B2. destruct (decide (n = Z.to_nat idx)) as [->|Hne].
    + rewrite decide_True by done. by rewrite ot_rollback_insert_map.
    + by rewrite decide_False by done.
Qed.

Lemma add_offer_spec e h idx o :
  running e h -> Category.nonneg (category o) -> Category.validate_category_ (category o) (mm_num_assets m1) = true ->
  0 <= idx < 2 ^ 31 -> (Z.to_nat idx < length (mm_books m1))%nat ->
  exists s' d md' lg e',
    validating_add_offer (hs_manager h) idx o (hs_db h) (hs_metadata h) (hs_log h) = Ok (s', d, md', lg) /\
    running e' (mkHandler s' d md' lg) /\
    sell_effect checker i idx o e = Some (add_move (DbPtr i) (sellAsset (category o)) (- amount o) e').
Proof.
  intros Hr Hnn Hv Hidx Hlt. pose proof (ru_buffer _ _ Hr) as Hb. unfold validating_add_offer, sell_effect.
  pose proof (ensure_buffer e _ idx Hb) as Hs. set (s := validating_ensure (hs_manager h) idx) in *.
  change (clearing_commitment s) with (clearing_commitment (hs_manager h)). rewrite (ba_checker _ _ Hb).
  destruct (lookup_lt_is_Some_2 (commitments checker) (Z.to_nat idx)) as [c Hc].
  { destruct Hck as [Hcl _], Hm1 as [_ Hl]. lia. }
  rewrite (proj2 (vec_at_Ok (commitments checker) idx c)) by (split; [done|lia]). rewrite Hc. cbn [result_bind mbind option_bind].
  destruct (category_prices _ Hnn Hv) as (Hsa & Hba & [sp Hsp] & [bp Hbp]).
  assert (Hsup : (Z.to_nat idx < length (activated_supplies s))%nat).
  { cbn [s validating_ensure activated_supplies]. unfold u32. rewrite Z.mod_small by lia. apply make_minimum_long. }
  destruct (clear_at_once_spec e h s idx o sp bp Hr Hs ltac:(lia) Hsup Hsa Hba Hsp Hbp) as (s' & d & md' & lg & E & Hr').
  destruct (ensure_length (base_manager (hs_manager h)) idx Hidx) as [Hlen _].
  destruct (buffered_offer_spec e h s idx o Hr Hs ltac:(lia) Hlen) as (b & Eb & Hrb).
  unfold executes, proceeds. rewrite Hsp, Hbp. cbn [mbind option_bind].
  destruct (thresholdKeyIsNull c =? 1); [|destruct (memcmp _ _)]; cbn [orb].
  all: try (exists s', d, md', lg; eexists; split; [exact E|]; split; [exact Hr'|done]).
  all: rewrite Eb; cbn [result_bind]; do 5 eexists; split; [reflexivity|]; split; [|done]; by destruct h.
Qed.

(** A cancellation. *)
Lemma cancel_offer_spec e h idx p owner id :
  running e h -> 0 <= idx -> (Z.to_nat idx < length (mm_books m1))%nat ->
  let k := Key.generate_orderbook_trie_key p owner id in
  exists s' r, validating_delete_offer (hs_manager h) idx p owner id = Ok (s', r) /\
    match r with
    | Some o => (exists t, mm_books m1 !! Z.to_nat idx = Some t /\ ot_map t !! k = Some o /\
        ~ (k ∈ ot_marked t \/ (Z.to_nat idx, k) ∈ cancelled_keys e)) /\
        running (add_cancelled (Z.to_nat idx) k e) (set_manager h s')
    | None => running e (set_manager h s') /\
        forall t o, mm_books m1 !! Z.to_nat idx = Some t -> ot_map t !! k = Some o ->
        k ∈ ot_marked t \/ (Z.to_nat idx, k) ∈ cancelled_keys e
    end.
Proof.
  intros [R1 R2 R3 R4 R5 R6] Hidx Hlt k. pose proof R2 as [(l & Em & Hl & Hbooks) B2 B3 B4].
  destruct (delete_offer_spec (base_manager (hs_manager h)) idx p owner id Hidx) as (b & r & E & [Cb Cr Cm Ci Cn Cl]).
  { by rewrite (buffer_after_books _ _ R2). }
  unfold validating_delete_offer. rewrite E. cbn [result_bind fst snd]. do 2 eexists. split; [reflexivity|].
  destruct (lookup_lt_is_Some_2 _ _ Hlt) as [t1 Ht1]. destruct (Hbooks _ t1 Ht1) as (t & Ht & Em1 & Er1 & Ek1).
  assert (Hbook : book_at (base_manager (hs_manager h)) (Z.to_nat idx) = t).
  { unfold book_at. rewrite Em, mm_books_set, Ht by done. done. }
  rewrite Hbook in Cr. fold k in Cr, Cb. rewrite ot_mark_result, Ek1, Em1 in Cr.
  assert (Hin : k ∈ keys_at (Z.to_nat idx) (cancelled_keys e) ∪ ot_marked t1 <->
    k ∈ ot_marked t1 \/ (Z.to_nat idx, k) ∈ cancelled_keys e).
  { rewrite elem_of_union. unfold keys_at. rewrite elem_of_list_to_set, list_elem_of_fmap.
    setoid_rewrite list_elem_of_filter. split.
    - intros [([n k'] & Ek & En & Hin)|?]; [right|by left]. cbn in *. by subst.
    - intros [?|Hin]; [by right|left]. by exists (Z.to_nat idx, k). }
  assert (Hafter : forall e', cancelled_keys e' = cancelled_keys e \/ cancelled_keys e' = (Z.to_nat idx, k) :: cancelled_keys e ->
    added e' = added e -> executed e' = executed e ->
    keys_at (Z.to_nat idx) (cancelled_keys e') ∪ ot_marked t1 = ot_marked (ot_mark_for_deletion t k).1 ->
    buffer_after e' (set_base_manager (hs_manager h) b)).
  { intros e' Hc' Ha' He' Hk'.
    constructor; cbn [base_manager set_base_manager activated_supplies clearing_commitment]; rewrite ?Ha', ?He'; try done;
      [|intros n; by rewrite Cn].
    destruct Cm as (l' & Em' & Hl'). exists l'. rewrite Em', Em, mm_set_set by done. split; [done|].
    rewrite (buffer_after_books _ _ R2) in Hl'. split; [done|].
    intros n t2 Ht2. destruct (Hbooks n t2 Ht2) as (t' & Ht' & Q1 & Q2 & Q3).
    destruct (lookup_lt_is_Some_2 l' n) as [t'' Ht'']; [rewrite Hl'; by eapply lookup_lt_Some|]. exists t''. split; [done|].
    specialize (Cb n). unfold book_at in Cb. rewrite Em', Em, mm_set_set, !mm_books_set, Ht'', Ht' in Cb by done.
    assert (Cb' : t'' = if decide (n = Z.to_nat idx) then (ot_mark_for_deletion t' k).1 else t') by exact Cb.
    rewrite Cb'. destruct (decide (n = Z.to_nat idx)) as [->|Hne].
    - assert (t2 = t1) as -> by congruence. assert (t' = t) as -> by congruence.
      rewrite ot_mark_map, ot_mark_rollback, <- Hk'. split_and!; done.
    - split_and!; [done|done|]. rewrite Q3. f_equal. destruct Hc' as [->| ->]; [done|]. by rewrite keys_at_cons, decide_False by done. }
  rewrite ot_mark_marked, Em1, Ek1 in Hafter.
  destruct (decide (k ∈ _ ∪ _)) as [Hd|Hd].
  { subst r. split.
    - constructor; try done; cbn [hs_manager set_manager]. apply Hafter; [by left|done|done|]. destruct (_ !! k); [set_solver|done].
    - intros t2 o Ht2 Ho. assert (t2 = t1) as -> by congruence. by apply Hin. }
  rewrite Hin in Hd. subst r. destruct (ot_map t1 !! k) as [o|] eqn:Eo.
  2: { split; [|intros t2 o Ht2 Ho; assert (t2 = t1) as -> by congruence; congruence].
    constructor; try done; cbn [hs_manager set_manager]. apply Hafter; [by left|done..]. }
  split; [by exists t1|]. constructor; try done; cbn [hs_manager set_manager]; [by destruct R1|].
  apply Hafter; [by right|done|done|]. cbn [cancelled_keys add_cancelled].
  rewrite keys_at_cons, decide_True by done. by rewrite assoc_L by apply _.
Qed.

(** ** The handlers *)
Definition op_outcome h' (st : TransactionProcessingStatus) (r : option Effect) : Prop :=
  match r with Some e' => st = SUCCESS /\ running e' h' | None => st <> SUCCESS /\ exists e', running e' h' end.

Lemma and_then_success h' (k : Handler -> result (Handler * TransactionProcessingStatus)) :
  and_then (Ok (h', SUCCESS)) k = k h'.
Proof. done. Qed.

Lemma create_account_run e h op :
  running e h ->
  exists h' st, process_create_account h op = Ok (h', st) /\ op_outcome h' st (create_effect db1 i op e).
Proof.
  intros Hr. unfold process_create_account, create_effect.
  assert (Hno : exists e', running e' h) by by exists e.
  destruct (startingBalance op <? _); [by do 2 eexists|]. cbn [orb].
  cbn [dv_create_new_account unbuffered_view].
  destruct (creation_spec e (hs_db h) (db_view (hs_metadata h)) (newAccountId op) (newAccountPublicKey op) (ru_accounts _ _ Hr))
    as (d & c & st & p & -> & Hc). cbn [result_bind fst snd].
  destruct (decide _) as [Hd|Hd].
  - destruct Hc as (Hs & -> & ->). unfold and_then. cbn [result_bind fst snd]. rewrite decide_False by done.
    do 2 eexists. split; [reflexivity|]. rewrite <- orb_assoc, <- bool_decide_or, bool_decide_true, orb_true_r by done.
    split; [done|]. exists e. apply running_db; [done|].
    pose proof (ru_accounts _ _ Hr) as Ha. by destruct (db_view (hs_metadata h)).
  - destruct Hc as (-> & -> & Ha). rewrite and_then_success.
    rewrite <- (orb_assoc (negb _)), <- bool_decide_or, bool_decide_false, orb_false_r by done.
    assert (Hr1 : running (add_created (newAccountId op) (newAccountPublicKey op) e) (set_db h d (mkUnbuffered c))).
    { destruct Hr as [R1 R2 R3 R4 R5 R6]. constructor; try done. by destruct R2. }
    set (h1 := set_db h d (mkUnbuffered c)) in *. unfold source. rewrite (ru_source _ _ Hr1).
    destruct (running_transfer _ h1 (DbPtr i) MemoryDatabase.NATIVE_ASSET (i64 (- startingBalance op)) Hr1 (source_valid _))
      as (h2 & -> & Hr2 & _). rewrite and_then_success.
    destruct (is_valid_amount (startingBalance op)); cbn [negb orb]; [|do 2 eexists; split; [reflexivity|]; split; [done|]; by eexists].
    destruct (running_transfer _ h2 (NewPtr (newAccountId op)) MemoryDatabase.NATIVE_ASSET (startingBalance op) Hr2)
      as (h3 & -> & Hr3 & _); [apply elem_of_cons; by left|]. rewrite and_then_success.
    do 2 eexists. split; [reflexivity|]. split; [done|]. by apply running_counted.
Qed.

Lemma payment_run e h op :
  running e h ->
  exists h' st, process_payment h op = Ok (h', st) /\
    op_outcome h' st (op_effect checker db1 m1 i (sourceAccount md) (operation_id (hs_metadata h)) (PAYMENT op) e).
Proof.
  intros Hr. assert (Hno : exists e', running e' h) by (by exists e). unfold process_payment. cbn [op_effect dv_lookup_user unbuffered_view].
  rewrite (lookup_spec e _ _ _ (ru_accounts _ _ Hr)).
  destruct (is_valid_amount (pay_amount op)); cbn [negb]; [|by do 2 eexists].
  destruct (find_user db1 e (receiver op)) as [p|] eqn:Ep; cbn [mbind option_bind]; [|by do 2 eexists].
  unfold source. rewrite (ru_source _ _ Hr).
  destruct (running_transfer e h (DbPtr i) (pay_asset op) (i64 (- pay_amount op)) Hr (source_valid _)) as (h2 & -> & Hr2 & _).
  rewrite and_then_success.
  destruct (running_transfer _ h2 p (pay_asset op) (pay_amount op) Hr2) as (h3 & -> & Hr3 & _).
  { pose proof (find_user_valid _ _ _ Ep) as Hp. by destruct p. }
  rewrite and_then_success. do 2 eexists. split; [reflexivity|]. split; [done|]. by apply running_counted.
Qed.

Lemma sell_offer_run e h op :
  running e h -> op_ok (mm_num_assets m1) (CREATE_SELL_OFFER op) ->
  exists h' st, process_create_sell_offer VSM h op = Ok (h', st) /\
    op_outcome h' st (op_effect checker db1 m1 i (sourceAccount md) (operation_id (hs_metadata h)) (CREATE_SELL_OFFER op) e).
Proof.
  intros Hr (Hnn & _ & _). assert (Hno : exists e', running e' h) by (by exists e). pose proof (ru_buffer _ _ Hr) as Hb. unfold process_create_sell_offer.
  cbn [op_effect sm_validate_category sm_look_up_idx sm_add_offer ValidatingManager].
  unfold validate_category. rewrite (buffer_after_num _ _ Hb).
  destruct (Category.validate_category_ _ _) eqn:Hv; cbn [negb andb]; [|by do 2 eexists].
  destruct (Price.is_valid_price _); cbn [negb andb]; [|by do 2 eexists].
  destruct (is_valid_amount _); cbn [negb andb]; [|by do 2 eexists].
  destruct (market_idx_spec (base_manager (hs_manager h)) (cso_category op) (buffer_after_ok _ _ Hb Hm1) Hnn)
    as (idx & El & Hidx & Hlt & _). { unfold validate_category. by rewrite (buffer_after_num _ _ Hb). }
  rewrite (buffer_after_books _ _ Hb) in Hlt.
  unfold look_up_idx in El |- *. rewrite mm_look_up, (buffer_after_num _ _ Hb) in El. rewrite mm_look_up, (buffer_after_num _ _ Hb), El.
  cbn [result_bind]. unfold make_offer. rewrite (ru_md _ _ Hr).
  set (o := mkOffer _ _ _ _ _).
  destruct (add_offer_spec e h idx o Hr Hnn Hv Hidx Hlt) as (s' & d & md' & lg & e' & E & Hr1 & Ee).
  rewrite E. cbn [result_bind fst snd]. set (h1 := mkHandler s' d md' lg) in *.
  unfold source. rewrite (ru_source _ _ Hr1).
  destruct (running_escrow e' h1 (DbPtr i) (sellAsset (cso_category op)) (cso_amount op) Hr1 (source_valid _)) as (h2 & E2 & Hr2 & _).
  rewrite E2. cbn [result_bind fst snd]. rewrite decide_True by done. do 2 eexists. split; [reflexivity|].
  rewrite Ee. split; [done|]. by apply running_counted.
Qed.

Lemma cancel_offer_run e h op :
  running e h -> op_ok (mm_num_assets m1) (CANCEL_SELL_OFFER op) ->
  (exists h' st, process_cancel_sell_offer VSM h op = Ok (h', st) /\
    op_outcome h' st (op_effect checker db1 m1 i (sourceAccount md) (operation_id (hs_metadata h)) (CANCEL_SELL_OFFER op) e)) \/
  exists er, process_cancel_sell_offer VSM h op = Throw er /\ cancel_error (mm_num_assets m1) (CANCEL_SELL_OFFER op) er.
Proof.
  intros Hr [Hnn Hlast]. pose proof (ru_buffer _ _ Hr) as Hb. unfold process_cancel_sell_offer.
  cbn [op_effect sm_look_up_idx sm_delete_offer ValidatingManager cancel_error].
  destruct (cancel_idx_spec (base_manager (hs_manager h)) (can_category op) (buffer_after_ok _ _ Hb Hm1) Hnn)
    as [(er & Ee & ->)|(idx & El & Hidx & Hlt & _)]; [by rewrite (buffer_after_num _ _ Hb)| |].
  { right. exists er. by rewrite (buffer_after_num _ _ Hb) in Ee. }
  left. rewrite (buffer_after_books _ _ Hb) in Hlt.
  unfold look_up_idx in El |- *. rewrite mm_look_up, (buffer_after_num _ _ Hb) in El. rewrite mm_look_up, (buffer_after_num _ _ Hb), El.
  cbn [result_bind]. rewrite (ru_md _ _ Hr). unfold cancel_effect.
  destruct (cancel_offer_spec e h idx (can_minPrice op) (sourceAccount md) (can_offerId op) Hr ltac:(lia) Hlt) as (s' & r & E & Hres).
  rewrite E. cbn [result_bind fst snd].
  set (k := Key.generate_orderbook_trie_key _ _ _) in *. destruct r as [o|].
  - destruct Hres as [(t & Ht & Ho & Hnot) Hr1]. rewrite Ht. cbn [mbind option_bind]. rewrite Ho. cbn [mbind option_bind].
    rewrite decide_False by done. set (h1 := set_manager h s') in *. unfold source. rewrite (ru_source _ _ Hr1).
    destruct (running_escrow _ h1 (DbPtr i) (sellAsset (can_category op)) (i64 (- amount o)) Hr1 (source_valid _)) as (h2 & E2 & Hr2 & _).
    rewrite E2. cbn [result_bind fst snd]. rewrite decide_True by done. do 2 eexists. split; [reflexivity|].
    split; [done|]. by apply running_counted.
  - destruct Hres as [Hr1 Hres]. do 2 eexists. split; [reflexivity|]. destruct (mm_books m1 !! Z.to_nat idx) as [t|] eqn:Ht; cbn [mbind option_bind]; [|by split; [|exists e]].
    destruct (ot_map t !! k) as [o|] eqn:Ho; cbn [mbind option_bind]; [|by split; [|exists e]].
    rewrite decide_True; [by split; [|exists e]|]. by apply (Hres t o).
Qed.

Lemma operation_run e h op :
  running e h -> op_ok (mm_num_assets m1) op ->
  (exists h' st, process_operation VSM h op = Ok (h', st) /\
    op_outcome h' st (op_effect checker db1 m1 i (sourceAccount md) (operation_id (hs_metadata h)) op e)) \/
  exists er, process_operation VSM h op = Throw er /\ cancel_error (mm_num_assets m1) op er.
Proof.
  intros Hr Hop. assert (Hno : exists e', running e' h) by (by exists e). destruct op as [op|op|op|op|op|t]; cbn [process_operation].
  3: by apply cancel_offer_run.
  all: left.
  - by apply create_account_run.
  - by apply sell_offer_run.
  - by apply payment_run.
  - unfold process_money_printer. cbn [op_effect]. destruct (print_amount op <? 0); [by do 2 eexists|].
    unfold source. rewrite (ru_source _ _ Hr).
    destruct (running_transfer e h (DbPtr i) (print_asset op) (print_amount op) Hr (source_valid _)) as (h2 & -> & Hr2 & _).
    do 2 eexists. split; [reflexivity|]. by split.
  - by do 2 eexists.
Qed.

Lemma operations_run j ops e h :
  running e h -> Forall (op_ok (mm_num_assets m1)) ops ->
  (exists h' st n, process_operations VSM h j ops = Ok (h', st, n) /\
    op_outcome h' st (ops_effect checker db1 m1 i md j ops e)) \/
  exists er, process_operations VSM h j ops = Throw er /\ tx_error (mm_num_assets m1) ops er.
Proof.
  intros Hr Hops. revert j e h Hr. induction Hops as [|op ops Hop Hops IH]; intros j e h Hr; cbn [process_operations ops_effect].
  { left. do 3 eexists. by split. }
  assert (Hr1 : running e (with_operation_id h j)) by by destruct Hr.
  destruct (operation_run e (with_operation_id h j) op Hr1 Hop) as [(h1 & st & E & Ho)|(er & E & He)]; rewrite E; cbn [result_bind fst snd];
    [|right; exists er; split; [done|by apply Exists_cons_hd]].
  cbn [with_operation_id hs_metadata operation_id set_operation_id] in Ho. rewrite (ru_md _ _ Hr) in Ho.
  destruct (op_effect _ _ _ _ _ _ _ _) as [e'|]; cbn [mbind option_bind].
  - destruct Ho as [-> Hr']. rewrite decide_True by done.
    destruct (IH (j + 1)%nat e' h1 Hr') as [?|(er & Ee & He)]; [by left|right]. exists er. split; [done|by apply Exists_cons_tl].
  - destruct Ho as [Hs Hr']. rewrite decide_False by done. left. by do 3 eexists.
Qed.
End Transaction.

(** ** Whole transactions *)
(** The account [c] after the effect [e] that created it. *)
Definition created_account e (c : Z * PublicKey) a : Prop :=
  acct_shift (moved_to e (NewPtr c.1)) (UserAccount.new c.1 c.2) a /\
  UserAccount.seq_tracker a = UserAccount.seq_tracker (UserAccount.new c.1 c.2 : account).
(** The state after a transaction of account [i] with effect [e]. *)
Record tx_applied (i : nat) (n : Z) e db1 s1 (lg1 : LG) db' s' (lg' : LG) : Prop := {
  ta_map : MemoryDatabase.user_id_to_idx_map db' = MemoryDatabase.user_id_to_idx_map db1;
  ta_length : length (MemoryDatabase.database db') = length (MemoryDatabase.database db1);
  ta_account j a1 : MemoryDatabase.database db1 !! j = Some a1 ->
    exists a, MemoryDatabase.database db' !! j = Some a /\ acct_shift (moved_to e (DbPtr j)) a1 a /\
      UserAccount.seq_tracker a =
        if decide (i = j) then (st_reserve_sequence_number (UserAccount.seq_tracker a1) n).1 else UserAccount.seq_tracker a1;
  ta_reserved : MemoryDatabase.reserved_account_ids db' =
    list_to_set (created e).*1 ∪ MemoryDatabase.reserved_account_ids db1;
  ta_nodup : NoDup (created e).*1;
  ta_fresh id : id ∈ (created e).*1 ->
    MemoryDatabase.user_id_to_idx_map db1 !! id = None /\ (id ∉ MemoryDatabase.reserved_account_ids db1);
  ta_uncommitted : exists l, MemoryDatabase.uncommitted_db db' = MemoryDatabase.uncommitted_db db1 ++ l /\
    Forall2 (fun a c => created_account e c a) l (created e);
  ta_buffer : buffer_after s1 e s';
  ta_log : log_accounts lg1 ⊆ log_accounts lg'
}.

Lemma new_accounts_shifted e (l : list (Z * account)) :
  NoDup l.*1 -> l.*1 = (created e).*1 ->
  (forall id pk, (id, pk) ∈ created e -> exists a, find_new l id = Some a /\ created_account e (id, pk) a) ->
  Forall2 (fun a c => created_account e c a) l.*2 (created e).
Proof.
  generalize (created_account e) as P. generalize (created e) as cs. intros cs P. revert cs.
  induction l as [|[id a] l IH]; intros [|[id' pk] cs] Hn Hids Hc; cbn in Hids; try discriminate; [constructor|].
  cbn in Hn |- *. injection Hids as -> Hids. apply NoDup_cons in Hn as [Hid Hn].
  constructor.
  - destruct (Hc id' pk) as (b & Hb & Hs); [apply elem_of_cons; by left|]. cbn [find_new] in Hb. rewrite Z.eqb_refl in Hb.
    by injection Hb as ->.
  - apply IH; [done|done|]. intros id pk' Hin. destruct (Hc id pk') as (b & Hb & Hs); [apply elem_of_cons; by right|].
    cbn [find_new] in Hb. destruct (Z.eqb_spec id id') as [->|]; [|by exists b].
    destruct Hid. rewrite Hids. by apply (list_elem_of_fmap_2 fst) in Hin.
Qed.

Lemma commit_applied db1 s1 lg1 i md e h :
  db_ok db1 -> running db1 s1 lg1 i md e h ->
  tx_applied i (sequenceNumber md) e db1 s1 lg1 (dv_commit (hs_db h) (db_view (hs_metadata h))) (hs_manager h) (hs_log h).
Proof.
  intros Hdb [[A1 A2 A3 A4 A5 A6 A7 A8 A9 A10 A11] R2 R3 R4 R5 R6].
  cbn [dv_commit unbuffered_view]. unfold creation_commit. rewrite commit_reservations_id, foldl_commit_creation.
  constructor; try done; cbn.
  - apply (sf_map _ _ A1).
  - rewrite (sf_uncommitted _ _ A1). eexists. split; [reflexivity|]. apply new_accounts_shifted; [by rewrite A6|exact A6|].
    intros id pk Hin. destruct (A7 id pk Hin) as (a & Ha & Hs). by exists a.
Qed.

Lemma ops_effect_known db m i md j ops e e' :
  ops_effect checker db m i md j ops e = Some e' -> Forall (fun op => forall t, op <> OTHER_OPERATION t) ops.
Proof.
  revert j e. induction ops as [|op ops IH]; intros j e; [constructor|]. cbn [ops_effect].
  destruct (op_effect _ _ _ _ _ _ _ _) as [e1|] eqn:E; [|done]. intros Hs. constructor; [|by eapply IH].
  intros t ->. cbn in E. discriminate.
Qed.

(** The accounts a transaction pays are its source and its receivers, and both are
    logged. *)
Definition logged_target db (i : nat) (ids : gset Z) (p : ptr) : Prop :=
  match p with DbPtr j => j = i \/ exists id, MemoryDatabase.lookup_user db id = Some j /\ id ∈ ids | NewPtr _ => True end.
Definition receivers (ops : list Operation) : gset Z :=
  list_to_set (omap (fun op => match op with PAYMENT op => Some (receiver op) | _ => None end) ops).

Lemma op_effect_targets db m i owner id op e e' ids :
  op_effect checker db m i owner id op e = Some e' -> receivers [op] ⊆ ids ->
  Forall (fun q => logged_target db i ids q.1.1) (moves e) -> Forall (fun q => logged_target db i ids q.1.1) (moves e').
Proof.
  intros E Hids He. assert (Hsrc : logged_target db i ids (DbPtr i)) by by left.
  destruct op as [op|op|op|op|op|t]; cbn [op_effect] in E.
  - unfold create_effect in E. destruct (_ || _); [done|]. injection E as <-. by repeat constructor.
  - destruct (_ && _); [|done]. destruct (Category.category_to_idx _ _); [|done]. unfold sell_effect in E.
    destruct (commitments checker !! _); [|done]. cbn [mbind option_bind] in E. destruct (executes _ _).
    + destruct (proceeds _ _); [|done]. injection E as <-. by repeat constructor.
    + injection E as <-. by repeat constructor.
  - destruct (Category.category_to_idx _ _); [|done]. unfold cancel_effect in E.
    destruct (mm_books m !! _) as [t|]; [|done]. cbn [mbind option_bind] in E. destruct (ot_map t !! _); [|done].
    cbn [mbind option_bind] in E. case_decide; [done|]. injection E as <-. by repeat constructor.
  - destruct (is_valid_amount _); [|done]. destruct (find_user db e (receiver op)) as [p|] eqn:Ep; [|done].
    injection E as <-. constructor; [|by constructor]. cbn [fst]. revert Ep. unfold find_user.
    destruct (MemoryDatabase.lookup_user db (receiver op)) as [j|] eqn:El; [intros [= <-]; right; exists (receiver op)|].
    + split; [done|]. apply Hids. unfold receivers. cbn. set_solver.
    + case_decide; [|done]. by intros [= <-].
  - destruct (_ <? _); [done|]. injection E as <-. by constructor.
  - done.
Qed.

Lemma ops_effect_targets db m i md j ops e e' ids :
  ops_effect checker db m i md j ops e = Some e' -> receivers ops ⊆ ids ->
  Forall (fun q => logged_target db i ids q.1.1) (moves e) -> Forall (fun q => logged_target db i ids q.1.1) (moves e').
Proof.
  revert j e. induction ops as [|op ops IH]; intros j e; cbn [ops_effect]; [by intros [= ->]|].
  destruct (op_effect _ _ _ _ _ _ _ _) as [e1|] eqn:E; [|done]. cbn [mbind option_bind]. intros E' Hids He.
  assert (Hr : receivers (op :: ops) = receivers [op] ∪ receivers ops).
  { unfold receivers. cbn. destruct op; cbn; set_solver. }
  rewrite Hr in Hids. eapply IH; [exact E'|set_solver|]. eapply op_effect_targets; [exact E|set_solver|done].
Qed.

Lemma log_operations_accounts tx (lg lg' : LG) j ops :
  log_operations lg tx j ops = Ok lg' -> log_accounts lg ∪ receivers ops ⊆ log_accounts lg'.
Proof.
  revert lg j. induction ops as [|op ops IH]; intros lg j; cbn [log_operations].
  { intros [= ->]. unfold receivers. cbn. set_solver. }
  destruct op; cbn [result_bind]; try done; intros E; apply IH in E; rewrite ?log_accounts_other in E; unfold receivers in *; cbn; set_solver.
Qed.

(** What every run leaves intact, also one that fails. *)
Record still_sound db1 s1 db' s' : Prop := {
  ss_db : db_ok db';
  ss_manager : manager_ok (main_manager (base_manager s'));
  ss_num : mm_num_assets (main_manager (base_manager s')) = mm_num_assets (main_manager (base_manager s1));
  ss_checker : clearing_commitment s' = checker
}.
Lemma running_sound db1 s1 lg1 i md e h db' :
  db_ok db1 -> manager_ok (main_manager (base_manager s1)) -> in_u64 (sequenceNumber md) -> running db1 s1 lg1 i md e h ->
  MemoryDatabase.user_id_to_idx_map db' = MemoryDatabase.user_id_to_idx_map (hs_db h) ->
  MemoryDatabase.database db' = MemoryDatabase.database (hs_db h) -> still_sound db1 s1 db' (hs_manager h).
Proof.
  intros Hdb Hm Hn [[A1 A2 A3 _ _ _ _ _ _ _ _] R2 _ _ _ _] Em Ed. constructor.
  - apply (accounts_next_ok db1 db' (Some (i, sequenceNumber md)) Hdb); [|by intros ? ? [= <- <-]].
    split_and!; [by rewrite Em, (sf_map _ _ A1)|by rewrite Ed|]. intros j a Ha. destruct (A3 j a Ha) as (b & Hb & Hs & Ht).
    exists b. rewrite Ed. split_and!; [done|apply Hs|intros Hw; by apply (shift_wf _ _ _ Hw Hs)|exact Ht].
  - by apply (buffer_after_ok _ _ _ R2).
  - by apply (buffer_after_num _ _ _ R2).
  - apply R2.
Qed.
Lemma unchanged_sound db s : db_ok db -> manager_ok (main_manager (base_manager s)) -> clearing_commitment s = checker ->
  still_sound db s db s.
Proof. by constructor. Qed.

Lemma set_database_same db i a b :
  MemoryDatabase.database db !! i = Some a -> b = a ->
  MemoryDatabase.set_database db (<[i := b]> (MemoryDatabase.database db)) = db.
Proof. intros Ha ->. rewrite list_insert_id by done. by destruct db. Qed.

(** The handler when the operations start. *)
Lemma reserved_running db1 s1 (lg1 : LG) i md :
  db_ok db1 -> (i < length (MemoryDatabase.database db1))%nat -> in_u64 (sequenceNumber md) ->
  clearing_commitment s1 = checker ->
  exists db c st, creation_reserve_sequence_number db1 (base empty_unbuffered) (DbPtr i) (sequenceNumber md) = Ok (db, c, st) /\
    (forall a, MemoryDatabase.database db1 !! i = Some a ->
      st = (st_reserve_sequence_number (UserAccount.seq_tracker a) (sequenceNumber md)).2) /\
    (st <> SUCCESS -> db = db1) /\
    (st = SUCCESS -> running db1 s1 lg1 i md no_effect
      (mkHandler s1 db (set_view (set_no_unwind (new_metadata md (DbPtr i) empty_unbuffered)) (mkUnbuffered c)) lg1)).
Proof.
  intros Hdb Hi Hn Hck. destruct (lookup_lt_is_Some_2 _ _ Hi) as [a Ha].
  destruct (Forall_lookup_1 _ _ _ _ (proj1 Hdb) Ha) as (Hw & Hst & Hl).
  pose proof (tracker_reserve_failure _ _ Hst Hn Hl) as Hfail.
  unfold creation_reserve_sequence_number. cbn [on_ptr]. rewrite (on_account_ok _ _ _ _ Ha). cbn [result_bind fst snd].
  unfold UserAccount.reserve_sequence_number.
  destruct (st_reserve_sequence_number _ _) as [t st] eqn:Et. cbn [fst snd].
  destruct (decide (st = SUCCESS)) as [->|Hs].
  2: { do 3 eexists. split; [reflexivity|]. split; [intros a' Ha'; assert (a' = a) as -> by congruence; by rewrite Et|].
       split; [|done]. intros _. cbn [fst snd] in Hfail. rewrite (Hfail Hs). apply (set_database_same db1 i a); [done|by destruct a]. }
  do 3 eexists. split; [reflexivity|]. split; [intros a' Ha'; assert (a' = a) as -> by congruence; by rewrite Et|].
  split; [done|]. intros _. constructor; try done; cbn [hs_db hs_metadata hs_manager db_view set_view].
  - constructor; cbn; try done; try apply NoDup_nil_2; [by rewrite length_insert| |by rewrite union_empty_l_L| |].
    + intros j a1 Ha1. pose proof (Forall_lookup_1 _ _ _ _ (proj1 Hdb) Ha1) as (Hw1 & _ & _).
      destruct (decide (i = j)) as [<-|Hne].
      * assert (a1 = a) as -> by congruence. eexists. split; [apply list_lookup_insert_eq; by eapply lookup_lt_Some|].
        unfold start_tracker. rewrite decide_True, Et by done. split; [|done].
        destruct (shift_refl a (moved_to no_effect (DbPtr i)) Hw (fun _ => eq_refl)). by constructor.
      * exists a1. rewrite list_lookup_insert_ne by done. unfold start_tracker. rewrite decide_False by done.
        split; [done|]. split; [|done]. by apply shift_refl.
    + by intros id pk ?%elem_of_nil.
    + by intros id ?%elem_of_nil.
  - constructor; try done. exists (mm_books (main_manager (base_manager s1))). rewrite mm_set_id. split; [done|]. split; [done|].
    intros n t1 Ht1. exists t1. split_and!; try done.
    change (keys_at n (cancelled_keys no_effect)) with (∅ : gset Offers.key). by rewrite union_empty_l_L.
Qed.

Definition tx_result (stx : SignedTransaction) db1 s1 (lg1 : LG) s' db' (lg' : LG) (b : bool) : Prop :=
  if b then exists i e, MemoryDatabase.lookup_user db1 (tx_number stx).1 = Some i /\
      tx_effect sig_check check_sigs checker db1 (main_manager (base_manager s1)) stx = Some e /\
      accepts_number db1 (transaction stx) /\ tx_applied i (tx_number stx).2 e db1 s1 lg1 db' s' lg' /\
      (tx_number stx).1 ∈ log_accounts lg' /\
      Forall (fun q => logged_target db1 i (log_accounts lg') q.1.1) (moves e)
  else forall e, tx_effect sig_check check_sigs checker db1 (main_manager (base_manager s1)) stx = Some e ->
      ~ accepts_number db1 (transaction stx).

(** [validate_transaction] succeeds exactly when the transaction has an effect and its
    number can be reserved, and then the state changes by that effect; it throws at
    most the error of a cancellation. *)
Definition returns_result (stx : SignedTransaction) db1 s1 (lg1 : LG)
    (r : result (Buffer * DB * BlockStateUpdateStats * LG * bool)) : Prop :=
  exists s' db' stats' lg' b, r = Ok (s', db', stats', lg', b) /\
    still_sound db1 s1 db' s' /\ tx_result stx db1 s1 lg1 s' db' lg' b.

Lemma validate_transaction_spec db1 s1 (lg1 : LG) stx stats :
  db_ok db1 -> manager_ok (main_manager (base_manager s1)) -> checker_ok (mm_num_assets (main_manager (base_manager s1))) ->
  clearing_commitment s1 = checker -> tx_bounds (mm_num_assets (main_manager (base_manager s1))) stx ->
  let r := validate_transaction sig_check check_sigs VSM empty_unbuffered s1 db1 stx stats lg1 in
  returns_result stx db1 s1 lg1 r \/
  exists er, r = Throw er /\ tx_error (mm_num_assets (main_manager (base_manager s1))) (operations (transaction stx)) er.
Proof.
  intros Hdb Hm Hck Hc [B1 B2 B3 B4] r. pose proof (unchanged_sound db1 s1 Hdb Hm Hc) as Hsame. subst r.
  unfold returns_result, validate_transaction, tx_result, tx_effect, tx_number in *. set (tx := transaction stx) in *.
  cbn [fst snd] in *.
  destruct (check_tx_format_parameters tx); cbn [negb orb]; [|by (left; do 5 eexists; split; [reflexivity|]; split)].
  destruct (MemoryDatabase.lookup_user db1 (sourceAccount (metadata tx))) as [i|] eqn:El; cbn [mbind option_bind].
  2: { left. do 5 eexists. split; [reflexivity|]. split; [done|]. intros e. by destruct (_ <? _). }
  destruct (maxFee tx <? _); [by (left; do 5 eexists; split; [reflexivity|]; split)|].
  destruct (lookup_user_account db1 _ i Hdb El) as [a Ha]. pose proof (lookup_lt_Some _ _ _ Ha) as Hi.
  assert (Hsig : exists b, signature_ok sig_check check_sigs db1 i stx = Ok b).
  { unfold signature_ok, account_pk. rewrite Ha. destruct check_sigs; by eexists. }
  destruct Hsig as [b Hsig]. rewrite Hsig. cbn [result_bind]. destruct b; cbn [negb]; [|by (left; do 5 eexists; split; [reflexivity|]; split)].
  destruct (reserved_running db1 s1 lg1 i (metadata tx) Hdb Hi B2 Hc) as (db2 & c & st & E & Hst & Hfail & Hr).
  cbn [dv_reserve_sequence_number unbuffered_view db_view set_no_unwind set_committed new_metadata]. rewrite E. cbn [result_bind fst snd].
  specialize (Hst a Ha). destruct (decide (st <> SUCCESS)) as [Hs|Hs].
  { left. do 5 eexists. split; [reflexivity|]. rewrite (Hfail Hs). split; [done|].
    intros e _ (j & b & Hj & Hb & Hacc). assert (j = i) as -> by congruence. assert (b = a) as -> by congruence. congruence. }
  apply dec_stable in Hs. specialize (Hr Hs).
  assert (Hacc : accepts_number db1 tx) by (exists i, a; split_and!; [done|done|congruence]).
  destruct (running_transfer db1 s1 lg1 i (metadata tx) Hdb Hi no_effect _ (DbPtr i) MemoryDatabase.NATIVE_ASSET
    (i64 (- fee_required (Z.of_nat (length (operations tx))))) Hr Hi) as (h2 & E2 & Hr2 & _).
  unfold view_transfer_available in E2. cbn [hs_db hs_metadata db_view set_view] in E2 |- *.
  destruct (dv_transfer_available db2 _ (DbPtr i) _ _) as [[[d3 v3] st3]|] eqn:E3; [|done].
  cbn [result_bind fst snd] in E2 |- *. injection E2 as <- ->. cbn beta iota.
  destruct (decide (SUCCESS <> SUCCESS)) as [Hx|_]; [by destruct Hx|].
  destruct (operations_run db1 s1 lg1 i (metadata tx) Hdb Hi Hm Hck 0 (operations tx) _ _ Hr2 B4) as [(h' & st' & n & E4 & Ho)|(er & E4 & He)].
  all: unfold set_db in E4; cbn [hs_db hs_metadata hs_manager hs_log] in E4.
  all: match type of E4 with process_operations _ ?x _ _ = _ => match goal with |- context [process_operations _ ?y _ _] => change y with x end end.
  all: rewrite E4; cbn [result_bind].
  2: { right. by exists er. }
  left. destruct (ops_effect _ _ _ _ _ _ _ _) as [e|] eqn:Ee.
  2: { destruct Ho as [Hs' [e' Hr']]. destruct (decide (st' <> SUCCESS)); [|done]. do 5 eexists. split; [reflexivity|].
       split; [|done]. by eapply running_sound. }
  destruct Ho as [-> Hr']. cbn beta iota. destruct (decide (SUCCESS <> SUCCESS)) as [Hx|_]; [by destruct Hx|].
  unfold log_modified_accounts. cbn [sm_maintain_account_log ValidatingManager].
  destruct (log_operations_ok tx (log_new_self_transaction (hs_log h') stx) 0 (operations tx) (ops_effect_known _ _ _ _ _ _ _ _ Ee))
    as (lg' & El'). fold tx. rewrite El'. cbn [result_bind]. unfold destroy. rewrite (ru_done _ _ _ _ _ _ _ Hr'). cbn [result_bind].
  do 5 eexists. split; [reflexivity|]. apply log_operations_accounts in El'. rewrite log_accounts_tx in El'. fold tx in El'.
  split.
  { eapply running_sound; [done|done|exact B2|exact Hr'| |]; cbn [dv_commit unbuffered_view]; unfold creation_commit;
      by rewrite commit_reservations_id, foldl_commit_creation. }
  exists i, e. split_and!; [done|done|done| |set_solver|].
  - destruct (commit_applied _ _ _ _ _ _ _ Hdb Hr') as [T1 T2 T3 T4 T5 T6 T7 T8 T9]. constructor; try done. set_solver.
  - eapply ops_effect_targets; [exact Ee|set_solver|]. constructor; [by left|constructor].
Qed.
End Handlers.
