(* ===== verification/BlockValidation.v ===== *)
(** * Validating a block

    A transaction that runs after others of the block is judged as if it ran alone
    on the committed state, unless it takes a sequence number, creates an account or
    cancels an offer that one of them already took, created or cancelled.  So the
    workers of BlockValidator.v decide [block_valid], in any division of the
    block and any interleaving. *)
From stdpp Require Import base gmap list strings.
From S2P Require Import Prelude Types PriceArith Offers Clearing Asset SeqTracker Accounts AccountLmdb Database DbView SerialManager TxProcessor TxAtomicity BlockAssembly BlockValidator ValidationEffects ValidationProps.

(** ** The state after some transactions of the block *)
Section Applied.
Context {T : Type} `{SequenceTrackerRefines T}.
Context {CT : Type} `{MerkleTrie AccountCommitment CT}.
Context {L : Type} `{LMDBInstance L}.
Context {LG : Type} `{ModifiedAccounts LG}.
Context {TR : Type} `{OfferTrie TR} {M : Type} `{MainManager TR M} `{!MainManagerLaws TR M} `{BigEndian}.
Variable sig_check : Transaction -> list Z -> PublicKey -> bool.
Variable check_sigs : bool.
Variable checker : OrderbookStateCommitmentChecker.
Abbreviation DB := (MemoryDatabase.t T CT L).
Abbreviation account := (UserAccount.t T).
Implicit Types (db : DB) (m : M) (a : account) (e : Effect).
Variables (db0 : DB) (m0 : M).
Abbreviation tx_effect0 := (tx_effect sig_check check_sigs checker db0 m0).
Abbreviation effects0 := (effects sig_check check_sigs checker db0 m0).
Abbreviation block_valid0 := (block_valid sig_check check_sigs checker db0 m0).

Definition tracker_after (slots : list (option (nat * Z))) (j : nat) (t0 t : T) : Prop :=
  Spec.last (st_abs t) = Spec.last (st_abs t0) /\
  forall k, 0 <= k -> Z.testbit (Spec.mask (st_abs t)) k =
    Z.testbit (Spec.mask (st_abs t0)) k || bool_decide (Some (j, k) ∈ slots).

Definition book_after (keys : list (nat * Offers.key)) (n : nat) (t0 t : TR) : Prop :=
  ot_map t = ot_map t0 /\ ot_rollback t = ot_rollback t0 /\ ot_marked t = keys_at n keys ∪ ot_marked t0.

(** Every created account, with the effect that created it. *)
Definition creations_of (es : list Effect) : list (Effect * (Z * PublicKey)) := es ≫= fun e => pair e <$> created e.

Record applied (acc : list SignedTransaction) m db : Prop := {
  ap_valid : block_valid0 acc;
  ap_map : MemoryDatabase.user_id_to_idx_map db = MemoryDatabase.user_id_to_idx_map db0;
  ap_length : length (MemoryDatabase.database db) = length (MemoryDatabase.database db0);
  ap_account j a0 : MemoryDatabase.database db0 !! j = Some a0 ->
    exists a, MemoryDatabase.database db !! j = Some a /\ acct_shift (moved_by (effects0 acc) (DbPtr j)) a0 a /\
      tracker_after (number_slot db0 <$> acc) j (UserAccount.seq_tracker a0) (UserAccount.seq_tracker a);
  ap_reserved : MemoryDatabase.reserved_account_ids db =
    list_to_set (created_by (effects0 acc)) ∪ MemoryDatabase.reserved_account_ids db0;
  ap_uncommitted : exists l ps, MemoryDatabase.uncommitted_db db = MemoryDatabase.uncommitted_db db0 ++ l /\
    Forall2 (fun a p => created_account p.1 p.2 a) l ps /\
    ps ≡ₚ creations_of (effects0 acc);
  ap_books : exists l, m = mm_set_books m0 l /\ length l = length (mm_books m0) /\
    forall n t0, mm_books m0 !! n = Some t0 ->
      exists t, l !! n = Some t /\ book_after (cancelled_by (effects0 acc)) n t0 t
}.

(** What was applied does not depend on the order. *)
#[global] Instance applied_proper : Proper ((≡ₚ) ==> (=) ==> (=) ==> iff) applied.
Proof.
  enough (Hp : forall acc acc' m db, acc ≡ₚ acc' -> applied acc m db -> applied acc' m db).
  { intros acc acc' E m ? <- db ? <-. split; apply Hp; [done|by symmetry]. }
  intros acc acc' m db E [A1 A2 A3 A4 A5 A6 A7].
  assert (Ee : effects0 acc ≡ₚ effects0 acc') by (unfold effects; by rewrite E).
  constructor; try done.
  - by rewrite <- E.
  - intros j a0 Ha0. destruct (A4 j a0 Ha0) as (a & Ha & Hs & Hl & Hk). exists a. split; [done|]. split; [|split; [done|]].
    + refine (shift_ext _ _ _ _ _ Hs). intros n. unfold moved_by. by rewrite Ee.
    + intros k Hk0. rewrite (Hk k Hk0). f_equal. apply bool_decide_ext. by rewrite E.
  - rewrite A5. unfold created_by. by rewrite Ee.
  - destruct A6 as (l & ps & E1 & E2 & E3). exists l, ps. split_and!; [done|done|]. unfold creations_of in *. by rewrite <- Ee.
  - destruct A7 as (l & E1 & E2 & Hb). exists l. split_and!; [done|done|]. intros n t0 Ht0.
    destruct (Hb n t0 Ht0) as (t & Ht & Q1 & Q2 & Q3). exists t. split; [done|]. split_and!; [done|done|]. rewrite Q3.
    unfold cancelled_by, keys_at. by rewrite Ee.
Qed.

Lemma applied_start : db_ok db0 -> applied [] m0 db0.
Proof.
  intros Hdb. constructor; try done.
  - constructor; first [apply NoDup_nil_2|by constructor].
  - intros j a0 Ha. exists a0. split; [done|]. split; [|split; [done|]].
    + destruct (Forall_lookup_1 _ _ _ _ (proj1 Hdb) Ha) as (Hw & _). by apply shift_refl.
    + intros k _. by rewrite bool_decide_false, orb_false_r by apply not_elem_of_nil.
  - cbn. by rewrite union_empty_l_L.
  - exists [], []. by rewrite app_nil_r.
  - exists (mm_books m0). rewrite mm_set_id. split_and!; [done|done|]. intros n t0 Ht. exists t0. split; [done|].
    split; [done|]. split; [done|]. unfold keys_at. cbn. by rewrite union_empty_l_L.
Qed.

(** ** A sequence number after others were taken *)
Lemma tracker_after_wf slots j (t0 t : T) : tracker_after slots j t0 t -> in_u64 (Spec.last (st_abs t0)) -> in_u64 (Spec.last (st_abs t)).
Proof. by intros [-> _]. Qed.

Lemma reserve_after slots j (t0 t : T) n :
  st_wf t0 -> st_wf t -> in_u64 n -> in_u64 (Spec.last (st_abs t0)) -> tracker_after slots j t0 t ->
  let slot := Some (j, Spec.offset n (Spec.last (st_abs t0))) in
  ((st_reserve_sequence_number t n).2 = SUCCESS <-> (st_reserve_sequence_number t0 n).2 = SUCCESS /\ slot ∉ slots) /\
  ((st_reserve_sequence_number t n).2 = SUCCESS ->
    tracker_after (slots ++ [slot]) j t0 (st_reserve_sequence_number t n).1).
Proof.
  intros W0 W Hn Hl [El Em] slot. set (off := Spec.offset n (Spec.last (st_abs t0))) in *.
  assert (Hoff : 0 <= off) by (unfold off, Spec.offset, u64; apply Z.mod_pos_bound; lia).
  destruct (st_reserve_refines t0 n W0 Hn Hl) as [_ E0]. destruct (st_reserve_refines t n W Hn) as [_ E]; [by rewrite El|].
  apply (f_equal snd) in E0 as E02. apply (f_equal snd) in E as E2. apply (f_equal fst) in E as E1. cbn [fst snd] in E02, E1, E2.
  rewrite E02, E2. unfold tracker_after. rewrite E1. clear E E0 E1 E2 E02. unfold Spec.reserve. rewrite El. fold off.
  rewrite (Em off Hoff). destruct (n <=? _); cbn [fst snd]; [by split; [split; [|intros []]|]|].
  destruct (st_gap <=? off); cbn [fst snd]; [by split; [split; [|intros []]|]|].
  destruct (Z.testbit (Spec.mask (st_abs t0)) off); cbn [orb fst snd]; [by split; [split; [|intros []]|]|].
  destruct (decide (slot ∈ slots)) as [Hin|Hin].
  - rewrite bool_decide_true by done. cbn [fst snd]. split; [|done]. by split; [|intros []].
  - rewrite bool_decide_false by done. cbn [fst snd Spec.last Spec.mask]. split; [done|]. intros _. split; [done|].
    intros k Hk. rewrite Z.lor_spec, (Em k Hk), Z.pow2_bits_eqb by done. rewrite <- orb_assoc. f_equal.
    destruct (Z.eqb_spec off k) as [<-|Hne].
    + rewrite orb_true_r. symmetry. apply bool_decide_true, elem_of_app. right. by apply list_elem_of_singleton.
    + rewrite orb_false_r. apply bool_decide_ext. rewrite elem_of_app, list_elem_of_singleton. unfold slot. split; [by left|].
      intros [?|[= ?]]; [done|congruence].
Qed.

Lemma tracker_after_other slots j (t0 t : T) slot :
  (forall k, slot <> Some (j, k)) -> tracker_after slots j t0 t -> tracker_after (slots ++ [slot]) j t0 t.
Proof.
  intros Hs [El Em]. split; [done|]. intros k Hk. rewrite (Em k Hk). f_equal. apply bool_decide_ext.
  rewrite elem_of_app, list_elem_of_singleton. split; [by left|]. intros [?|E]; [done|]. by destruct (Hs k).
Qed.

(** ** An operation after others of the block *)
Definition compatible (acc : list SignedTransaction) e : Prop :=
  (forall id, id ∈ (created e).*1 -> id ∉ created_by (effects0 acc)) /\
  (forall k, k ∈ cancelled_keys e -> k ∉ cancelled_by (effects0 acc)).

Lemma keys_at_spec n k (l : list (nat * Offers.key)) : k ∈ keys_at n l <-> (n, k) ∈ l.
Proof.
  unfold keys_at. rewrite elem_of_list_to_set, list_elem_of_fmap. setoid_rewrite list_elem_of_filter. split.
  - by intros ([n' k'] & -> & <- & Hin).
  - intros Hin. by exists (n, k).
Qed.

Section After.
Context (acc : list SignedTransaction) (m : M) (db : DB) (Ha : applied acc m db).

Lemma after_lookup id : MemoryDatabase.lookup_user db id = MemoryDatabase.lookup_user db0 id.
Proof. unfold MemoryDatabase.lookup_user. by rewrite (ap_map _ _ _ Ha). Qed.
Lemma after_num_assets : mm_num_assets m = mm_num_assets m0.
Proof. destruct (ap_books _ _ _ Ha) as (l & -> & _). apply mm_num_assets_set. Qed.

Lemma create_after i op e e' : compatible acc e ->
  create_effect db i op e = Some e' <-> create_effect db0 i op e = Some e' /\ compatible acc e'.
Proof.
  intros [Hc Hk]. unfold create_effect. rewrite after_lookup, (ap_reserved _ _ _ Ha).
  destruct (_ <? _); cbn [orb]; [by split; [|intros []]|]. destruct (negb _); cbn [orb]; [by split; [|intros []]|].
  destruct (bool_decide (is_Some _)); cbn [orb]; [by split; [|intros []]|].
  set (id := newAccountId op). destruct (decide (id ∈ created_by (effects0 acc))) as [Hin|Hin].
  - rewrite bool_decide_true by (left; set_solver). split; [done|]. intros [E [Hc' _]]. revert E.
    destruct (bool_decide _); [done|]. intros [= <-]. destruct (Hc' id); [|done]. cbn. by apply list_elem_of_here.
  - rewrite (bool_decide_ext _ (id ∈ MemoryDatabase.reserved_account_ids db0 \/ id ∈ (created e).*1)) by set_solver.
    destruct (bool_decide _); [by split; [|intros []]|]. split; [|by intros []].
    intros [= <-]. split; [done|]. split; [|done]. intros id' [->|?]%elem_of_cons; [done|by apply Hc].
Qed.

Lemma cancel_after i idx sell k e e' : compatible acc e ->
  cancel_effect m i idx sell k e = Some e' <-> cancel_effect m0 i idx sell k e = Some e' /\ compatible acc e'.
Proof.
  intros [Hc Hk]. unfold cancel_effect. destruct (ap_books _ _ _ Ha) as (l & -> & Hl & Hb).
  rewrite mm_books_set by done. set (n := Z.to_nat idx).
  destruct (mm_books m0 !! n) as [t0|] eqn:E0.
  2: { rewrite lookup_ge_None_2 by (rewrite Hl; by apply lookup_ge_None). by split; [|intros []]. }
  destruct (Hb n t0 E0) as (t & -> & Et1 & _ & Et3). cbn [mbind option_bind]. rewrite Et1, Et3.
  destruct (ot_map t0 !! k) as [o|]; cbn [mbind option_bind]; [|by split; [|intros []]].
  destruct (decide ((n, k) ∈ cancelled_by (effects0 acc))) as [Hin|Hin].
  - rewrite decide_True by (left; rewrite elem_of_union, keys_at_spec; by left). split; [done|]. intros [E [_ Hk']]. revert E.
    case_decide; [done|]. intros [= <-]. destruct (Hk' (n, k)); [|done]. cbn. by apply list_elem_of_here.
  - rewrite (decide_ext _ (k ∈ ot_marked t0 \/ (n, k) ∈ cancelled_keys e)) by (rewrite elem_of_union, keys_at_spec; tauto).
    case_decide; [by split; [|intros []]|]. split; [|by intros []]. intros [= <-]. split; [done|]. split; [done|].
    intros k' [->|?]%elem_of_cons; [done|by apply Hk].
Qed.

Lemma find_user_after e id : find_user db e id = find_user db0 e id.
Proof. unfold find_user. by rewrite after_lookup. Qed.

Lemma op_after i owner id op e e' : compatible acc e ->
  op_effect checker db m i owner id op e = Some e' <->
  op_effect checker db0 m0 i owner id op e = Some e' /\ compatible acc e'.
Proof.
  intros Hc. assert (Hsame : forall r : option Effect, (forall e', r = Some e' ->
    created e' = created e /\ cancelled_keys e' = cancelled_keys e) -> r = Some e' <-> r = Some e' /\ compatible acc e').
  { intros r Hr. split; [|by intros []]. intros E. split; [done|]. destruct (Hr _ E) as [E1 E2]. unfold compatible. by rewrite E1, E2. }
  destruct op as [op|op|op|op|op|t]; cbn [op_effect]; rewrite ?after_num_assets.
  - by apply create_after.
  - apply Hsame. intros e1. destruct (_ && _); [|done]. destruct (Category.category_to_idx _ _); [|done]. unfold sell_effect.
    destruct (commitments checker !! _); [|done]. cbn [mbind option_bind]. destruct (executes _ _); [|by intros [= <-]].
    destruct (proceeds _ _); [|done]. by intros [= <-].
  - destruct (Category.category_to_idx _ _); [|by split; [|intros []]]. by apply cancel_after.
  - rewrite find_user_after. apply Hsame. intros e1. destruct (is_valid_amount _); [|done]. destruct (find_user _ _ _); [|done].
    by intros [= <-].
  - apply Hsame. intros e1. destruct (_ <? _); [done|]. by intros [= <-].
  - by split; [|intros []].
Qed.

End After.

(** Effects only grow, and never create an account or cancel an offer twice. *)
Record effect_grows e e' : Prop := {
  eg_created : (created e).*1 ⊆ (created e').*1;
  eg_cancelled : cancelled_keys e ⊆ cancelled_keys e';
  eg_nodup : NoDup (cancelled_keys e) -> NoDup (cancelled_keys e')
}.
#[local] Instance effect_grows_preorder : PreOrder effect_grows.
Proof.
  split; [by constructor|]. intros e1 e2 e3 [A1 A2 A3] [B1 B2 B3]. constructor; [set_solver|set_solver|auto].
Qed.
Lemma op_effect_grows db m i owner id op e e' : op_effect checker db m i owner id op e = Some e' -> effect_grows e e'.
Proof.
  destruct op as [op|op|op|op|op|t]; cbn [op_effect].
  - unfold create_effect. destruct (_ || _); [done|]. intros [= <-]. constructor; cbn; [set_solver|done|done].
  - destruct (_ && _); [|done]. destruct (Category.category_to_idx _ _); [|done]. unfold sell_effect.
    destruct (commitments checker !! _); [|done]. cbn [mbind option_bind]. destruct (executes _ _); [|by intros [= <-]].
    destruct (proceeds _ _); [|done]. by intros [= <-].
  - destruct (Category.category_to_idx _ _); [|done]. unfold cancel_effect.
    destruct (mm_books m !! _) as [t|]; [|done]. cbn [mbind option_bind]. destruct (ot_map t !! _); [|done].
    cbn [mbind option_bind]. case_decide as Hd; [done|]. intros [= <-]. constructor; cbn; [done|set_solver|].
    intros Hnd. apply NoDup_cons. split; [|done]. intros ?. apply Hd. by right.
  - destruct (is_valid_amount _); [|done]. destruct (find_user _ _ _); [|done]. by intros [= <-].
  - destruct (_ <? _); [done|]. by intros [= <-].
  - done.
Qed.
Lemma ops_effect_grows db m i md j ops e e' : ops_effect checker db m i md j ops e = Some e' -> effect_grows e e'.
Proof.
  revert j e. induction ops as [|op ops IH]; intros j e; cbn [ops_effect]; [by intros [= ->]|].
  destruct (op_effect _ _ _ _ _ _ _ _) as [e1|] eqn:E; [|done]. cbn [mbind option_bind]. intros E'.
  transitivity e1; [by eapply op_effect_grows|by eapply IH].
Qed.

Section AfterTx.
Context (acc : list SignedTransaction) (m : M) (db : DB) (Ha : applied acc m db).

Lemma ops_after i md j ops e e' : compatible acc e ->
  ops_effect checker db m i md j ops e = Some e' <->
  ops_effect checker db0 m0 i md j ops e = Some e' /\ compatible acc e'.
Proof.
  revert j e. induction ops as [|op ops IH]; intros j e Hc; cbn [ops_effect].
  { split; [by intros [= <-]|by intros []]. }
  set (id := u64 _). pose proof (op_after acc m db Ha i (sourceAccount md) id op e) as Hop.
  destruct (op_effect checker db m i (sourceAccount md) id op e) as [e1|] eqn:E; cbn [mbind option_bind].
  - destruct (proj1 (Hop e1 Hc) eq_refl) as [E0 Hc1]. rewrite E0. cbn [mbind option_bind]. by apply IH.
  - split; [done|]. destruct (op_effect checker db0 m0 i (sourceAccount md) id op e) as [e1|] eqn:E0; [|by intros []].
    cbn [mbind option_bind]. intros [E' [C1 C2]]. destruct (ops_effect_grows _ _ _ _ _ _ _ _ E') as [G1 G2 _].
    assert (Hc1 : compatible acc e1) by (split; intros x Hx; [apply C1|apply C2]; by apply G1 || by apply G2).
    discriminate (proj2 (Hop e1 Hc) (conj eq_refl Hc1)).
Qed.

Lemma after_pk i : account_pk db i = account_pk db0 i.
Proof.
  unfold account_pk. destruct (MemoryDatabase.database db0 !! i) as [a0|] eqn:E0.
  - destruct (ap_account _ _ _ Ha i a0 E0) as (a & -> & [_ _ Hpk _] & _). by rewrite Hpk.
  - rewrite lookup_ge_None_2; [done|]. rewrite (ap_length _ _ _ Ha). by apply lookup_ge_None.
Qed.

Lemma tx_after stx e : tx_effect sig_check check_sigs checker db m stx = Some e <-> tx_effect0 stx = Some e /\ compatible acc e.
Proof.
  unfold tx_effect. destruct (_ || _); [by split; [|intros []]|]. rewrite (after_lookup acc m db Ha).
  destruct (MemoryDatabase.lookup_user db0 _) as [i|]; cbn [mbind option_bind]; [|by split; [|intros []]].
  unfold signature_ok. rewrite after_pk. destruct (if check_sigs then _ else _) as [[]|]; [|by split; [|intros []]..].
  apply ops_after. by split; intros ? ?%elem_of_nil.
Qed.
End AfterTx.

(** ** One more transaction *)
Context (Hdb0 : db_ok db0).

Lemma number_slot_spec stx i a0 :
  MemoryDatabase.lookup_user db0 (tx_number stx).1 = Some i -> MemoryDatabase.database db0 !! i = Some a0 ->
  number_slot db0 stx = Some (i, Spec.offset (tx_number stx).2 (Spec.last (st_abs (UserAccount.seq_tracker a0)))).
Proof. unfold tx_number. cbn [fst snd]. intros Hi Ha. unfold number_slot. rewrite Hi. cbn [mbind option_bind]. by rewrite Ha. Qed.

Lemma accepts_after acc m db stx :
  applied acc m db -> db_ok db -> in_u64 (tx_number stx).2 ->
  accepts_number db (transaction stx) <-> accepts_number db0 (transaction stx) /\ number_slot db0 stx ∉ number_slot db0 <$> acc.
Proof.
  intros Ha Hdb Hn. unfold accepts_number. setoid_rewrite (after_lookup acc m db Ha).
  assert (Hreserve : forall i a0 a, MemoryDatabase.database db0 !! i = Some a0 -> MemoryDatabase.database db !! i = Some a ->
    MemoryDatabase.lookup_user db0 (tx_number stx).1 = Some i ->
    (st_reserve_sequence_number (UserAccount.seq_tracker a) (tx_number stx).2).2 = SUCCESS <->
    (st_reserve_sequence_number (UserAccount.seq_tracker a0) (tx_number stx).2).2 = SUCCESS /\
    number_slot db0 stx ∉ number_slot db0 <$> acc).
  { intros i a0 a E0 E Hi. destruct (ap_account _ _ _ Ha i a0 E0) as (a' & Ea' & _ & Ht). assert (a' = a) as -> by congruence.
    rewrite (number_slot_spec stx i a0) by done. destruct (Forall_lookup_1 _ _ _ _ (proj1 Hdb0) E0) as (_ & W0 & L0).
    destruct (Forall_lookup_1 _ _ _ _ (proj1 Hdb) E) as (_ & W1 & _).
    apply (reserve_after (number_slot db0 <$> acc) i _ _ (tx_number stx).2 W0 W1 Hn L0 Ht). }
  split.
  - intros (i & a & Hi & E & Hs). destruct (lookup_lt_is_Some_2 (MemoryDatabase.database db0) i) as [a0 E0].
    { rewrite <- (ap_length _ _ _ Ha). by eapply lookup_lt_Some. }
    destruct (proj1 (Hreserve i a0 a E0 E Hi) Hs) as [Hs0 Hslot]. split; [|done]. by exists i, a0.
  - intros [(i & a0 & Hi & E0 & Hs) Hslot]. destruct (ap_account _ _ _ Ha i a0 E0) as (a & E & _). exists i, a.
    split_and!; [done|done|]. by apply (Hreserve i a0 a E0 E Hi).
Qed.

Lemma tx_effect_nodup stx e : tx_effect0 stx = Some e -> NoDup (cancelled_keys e).
Proof.
  unfold tx_effect. destruct (_ || _); [done|]. destruct (MemoryDatabase.lookup_user db0 _) as [i|]; [|done].
  cbn [mbind option_bind]. destruct (signature_ok _ _ _ _ _) as [[]|]; [|done..]. intros E.
  apply (eg_nodup _ _ (ops_effect_grows _ _ _ _ _ _ _ _ E)). apply NoDup_nil_2.
Qed.

(** [block_valid] of one more transaction, from what its run checks. *)
Lemma block_valid_snoc acc stx e :
  block_valid0 acc -> tx_effect0 stx = Some e -> NoDup (created e).*1 ->
  block_valid0 (acc ++ [stx]) <->
    compatible acc e /\ accepts_number db0 (transaction stx) /\ number_slot db0 stx ∉ number_slot db0 <$> acc.
Proof.
  intros [B1 B2 B3 B4 B5] Ee Hnd. pose proof (tx_effect_nodup stx e Ee) as Hnk. split.
  - intros [C1 C2 C3 C4 C5]. rewrite fmap_app in C3. rewrite (effects_snoc _ _ _ _ _ _ _ _ Ee) in C4, C5.
    rewrite created_by_snoc in C4. rewrite cancelled_by_snoc in C5.
    apply NoDup_app in C3 as (_ & C3 & _), C4 as (_ & C4 & _), C5 as (_ & C5 & _).
    apply Forall_app in C2 as [_ C2]. split_and!; [split|by inversion C2|].
    + intros id Hid Hin. by apply (C4 id).
    + intros k Hk Hin. by apply (C5 k).
    + intros Hin. apply (C3 _ Hin). by apply list_elem_of_here.
  - intros ([C1 C2] & Hn & Hs). constructor.
    + apply Forall_app. split; [done|]. by repeat constructor.
    + apply Forall_app. split; [done|]. by repeat constructor.
    + rewrite fmap_app. apply NoDup_app. split_and!; [done| |by apply NoDup_singleton].
      intros x Hx ->%list_elem_of_singleton. done.
    + rewrite (effects_snoc _ _ _ _ _ _ _ _ Ee), created_by_snoc. apply NoDup_app. split_and!; [done| |done].
      intros id Hin Hid. by apply (C1 id).
    + rewrite (effects_snoc _ _ _ _ _ _ _ _ Ee), cancelled_by_snoc. apply NoDup_app. split_and!; [done| |done].
      intros k Hin Hk. by apply (C2 k).
Qed.

(** The sizes the model of the run keeps apart: the shared state and one buffer. *)
Abbreviation Buffer := (ValidatingSerialManager (TR := TR) (M := M)).
Abbreviation shared_manager s := (main_manager (base_manager s)).
Implicit Types (s : Buffer).

Lemma applied_account acc s1 db1 (lg1 : LG) stx i e db' s' lg' j a0 :
  applied acc (shared_manager s1) db1 -> db_ok db1 -> in_u64 (tx_number stx).2 ->
  MemoryDatabase.lookup_user db0 (tx_number stx).1 = Some i -> tx_effect0 stx = Some e ->
  accepts_number db1 (transaction stx) -> tx_applied checker i (tx_number stx).2 e db1 s1 lg1 db' s' lg' ->
  MemoryDatabase.database db0 !! j = Some a0 ->
  exists a, MemoryDatabase.database db' !! j = Some a /\
    acct_shift (moved_by (effects0 (acc ++ [stx])) (DbPtr j)) a0 a /\
    tracker_after (number_slot db0 <$> acc ++ [stx]) j (UserAccount.seq_tracker a0) (UserAccount.seq_tracker a).
Proof.
  intros Ha Hdb Hn Hi Ee Hacc Ht E0. destruct (ap_account _ _ _ Ha j a0 E0) as (a1 & E1 & Hs1 & Htr).
  destruct (ta_account _ _ _ _ _ _ _ _ _ _ Ht j a1 E1) as (a & E & Hs & Etr). exists a. split; [done|]. split.
  - refine (shift_ext _ _ _ _ _ (shift_trans _ _ _ _ _ Hs1 Hs)). intros n.
    by rewrite (effects_snoc _ _ _ _ _ _ _ _ Ee), moved_by_snoc.
  - rewrite fmap_app. cbn [fmap list_fmap]. rewrite Etr.
    destruct (Forall_lookup_1 _ _ _ _ (proj1 Hdb0) E0) as (_ & W0 & L0).
    destruct (Forall_lookup_1 _ _ _ _ (proj1 Hdb) E1) as (_ & W1 & _). destruct (decide (i = j)) as [->|Hne].
    + rewrite (number_slot_spec stx j a0) by done.
      apply (reserve_after (number_slot db0 <$> acc) j _ _ (tx_number stx).2 W0 W1 Hn L0 Htr).
      destruct Hacc as (i' & a' & Hi' & Ea' & Hs'). rewrite (after_lookup acc _ db1 Ha) in Hi'.
      assert (i' = j) as -> by (unfold tx_number in Hi; cbn [fst] in Hi; congruence). assert (a' = a1) as -> by congruence. exact Hs'.
    + apply tracker_after_other; [|done]. intros k. unfold number_slot. unfold tx_number in Hi. cbn [fst] in Hi. rewrite Hi.
      cbn [mbind option_bind]. destruct (MemoryDatabase.database db0 !! i); [|done]. cbn [mbind option_bind]. congruence.
Qed.

Lemma applied_step acc s1 db1 (lg1 : LG) stx s' db' lg' b :
  applied acc (shared_manager s1) db1 -> db_ok db1 -> in_u64 (tx_number stx).2 ->
  tx_result sig_check check_sigs checker stx db1 s1 lg1 s' db' lg' b ->
  if b then applied (acc ++ [stx]) (shared_manager s') db' /\
    exists i e, MemoryDatabase.lookup_user db0 (tx_number stx).1 = Some i /\ tx_effect0 stx = Some e /\
      buffer_after checker s1 e s' /\ log_accounts lg1 ⊆ log_accounts lg' /\ (tx_number stx).1 ∈ log_accounts lg' /\
      Forall (fun q => logged_target db0 i (log_accounts lg') q.1.1) (moves e)
  else ~ block_valid0 (acc ++ [stx]).
Proof.
  intros Ha Hdb Hn Hr. destruct b; cbn [tx_result] in Hr.
  - destruct Hr as (i & e & Hi & Ee & Hacc & Ht & Hself & Hlog). rewrite (after_lookup acc _ db1 Ha) in Hi.
    apply (tx_after acc _ db1 Ha) in Ee as [Ee Hc]. pose proof (proj1 (accepts_after acc _ db1 stx Ha Hdb Hn) Hacc) as [Hacc0 Hslot].
    assert (Hv : block_valid0 (acc ++ [stx])).
    { apply (block_valid_snoc acc stx e (ap_valid _ _ _ Ha) Ee (ta_nodup _ _ _ _ _ _ _ _ _ _ Ht)). by split_and!. }
    assert (Hlog0 : Forall (fun q => logged_target db0 i (log_accounts lg') q.1.1) (moves e)).
    { eapply Forall_impl; [exact Hlog|]. intros [[[j|id] k] x]; [|done]. intros [Hj|(id & Hid & Hin)]; [by left|].
      right. exists id. by rewrite <- (after_lookup acc _ db1 Ha). }
    split; [|exists i, e; split_and!; [done|done|by destruct Ht|by destruct Ht|done|done]].
    pose proof (fun j a0 => applied_account acc s1 db1 lg1 stx i e db' s' lg' j a0 Ha Hdb Hn Hi Ee Hacc Ht) as Haccount.
    destruct Ht as [T1 T2 T3 T4 T5 T6 T7 T8 T9]. rewrite (effects_snoc _ _ _ _ _ _ _ _ Ee) in Haccount.
    constructor; rewrite ?(effects_snoc _ _ _ _ _ _ _ _ Ee).
    + exact Hv.
    + rewrite T1. apply Ha.
    + rewrite T2. apply Ha.
    + exact Haccount.
    + rewrite T4, (ap_reserved _ _ _ Ha), created_by_snoc, list_to_set_app_L. set_solver.
    + destruct T7 as (l & El & Hl). destruct (ap_uncommitted _ _ _ Ha) as (l0 & ps & El0 & Hl0 & Hps).
      exists (l0 ++ l), (ps ++ (pair e <$> created e)). rewrite El, El0, app_assoc. split; [done|]. split.
      * apply Forall2_app; [done|]. by apply Forall2_fmap_r.
      * unfold creations_of. rewrite bind_app. cbn. by rewrite app_nil_r, Hps.
    + destruct (ap_books _ _ _ Ha) as (l & El & Hll & Hb). destruct T8 as [(l' & El' & Hl' & Hb') _ _ _].
      exists l'. rewrite El', El, mm_set_set by done. rewrite El, mm_books_set in Hl', Hb' by done. split; [done|].
      split; [by rewrite Hl'|]. intros n t0 Et0. destruct (Hb n t0 Et0) as (t & Et & Q1 & Q2 & Q3).
      destruct (Hb' n t Et) as (t' & Et' & R1 & R2 & R3). exists t'. split; [done|]. split_and!; [congruence|congruence|].
      rewrite R3, Q3, cancelled_by_snoc. apply set_eq. intros k. rewrite !elem_of_union, !keys_at_spec, elem_of_app. tauto.
  - intros Hv. pose proof (bv_effects _ _ _ _ _ _ Hv) as [_ [[e Ee] _]%Forall_cons]%Forall_app.
    assert (Hnd : NoDup (created e).*1).
    { pose proof (bv_created _ _ _ _ _ _ Hv) as Hc. rewrite (effects_snoc _ _ _ _ _ _ _ _ Ee), created_by_snoc in Hc.
      by apply NoDup_app in Hc as (_ & _ & ?). }
    destruct (proj1 (block_valid_snoc acc stx e (ap_valid _ _ _ Ha) Ee Hnd) Hv) as (Hc & Hacc & Hslot).
    apply (Hr e); [by apply (tx_after acc _ db1 Ha)|]. by apply (accepts_after acc _ db1 stx Ha Hdb Hn).
Qed.
End Applied.
