(* ===== verification/BlockVerdict.v ===== *)
(** * The verdict on a block

    The workers of [validate_transaction_block_] run to their end, in any
    interleaving, unless a cancellation of the block names a pair that is not listed
    and its error leaves the processor; at the end no worker found a failure exactly when the block is
    [block_valid]; then the buffers hold the block's new offers and the statistics
    the supply it executed, and the log the accounts it modified, so that the final
    check sees every balance the block changed. *)
From stdpp Require Import base gmap list strings.
From S2P Require Import Prelude Types PriceArith Offers Clearing Asset SeqTracker Accounts AccountLmdb Database DbView SerialManager TxProcessor TxAtomicity BlockAssembly BlockValidator ValidationEffects ValidationProps BlockValidation.

Section Verdict.
Context {T : Type} `{SequenceTrackerRefines T}.
Context {CT : Type} `{MerkleTrie AccountCommitment CT}.
Context {L : Type} `{LMDBInstance L}.
Context {LG : Type} `{ModifiedAccounts LG}.
Context {TR : Type} `{OfferTrie TR} {M : Type} `{MainManager TR M} `{!MainManagerLaws TR M} `{BigEndian}.
Variable sig_check : Transaction -> list Z -> PublicKey -> bool.
Variable check_sigs : bool.
Variable checker : OrderbookStateCommitmentChecker.
Abbreviation DB := (MemoryDatabase.t T CT L).
Abbreviation Worker := (BlockValidator.Worker (LG := LG) (TR := TR)).
Abbreviation Shared := (BlockValidator.Shared (T := T) (CT := CT) (L := L) (M := M)).
Abbreviation step := (worker_step sig_check check_sigs checker).
Variables (db0 : DB) (m0 : M).
Hypothesis db0_ok : db_ok db0.
Hypothesis m0_ok : manager_ok m0.
Hypothesis checker_sizes : checker_ok checker (mm_num_assets m0).
Abbreviation effects0 := (effects sig_check check_sigs checker db0 m0).
Abbreviation block_valid0 := (block_valid sig_check check_sigs checker db0 m0).
Abbreviation applied0 := (applied sig_check check_sigs checker db0 m0).
Implicit Types (w : Worker) (sh : Shared) (mine acc : list SignedTransaction).

(** ** One worker *)
Definition unvalidated w : list SignedTransaction := concat (concat (wk_ranges w)).
Definition within_bounds w : Prop := Forall (tx_bounds (mm_num_assets m0)) (unvalidated w).
(** An error of a cancellation in one of the transactions. *)
Definition txs_error (l : list SignedTransaction) (e : string) : Prop :=
  Exists (fun stx => tx_error (mm_num_assets m0) (operations (transaction stx)) e) l.
Lemma txs_error_first w stx l e :
  unvalidated w = stx :: l -> tx_error (mm_num_assets m0) (operations (transaction stx)) e -> txs_error (unvalidated w) e.
Proof. intros -> He. by apply Exists_cons_hd. Qed.

Record sound sh : Prop := {
  so_db : db_ok (sh_db sh);
  so_manager : manager_ok (sh_main sh);
  so_num : mm_num_assets (sh_main sh) = mm_num_assets m0
}.

(** A worker that found no failure and validated [mine]. *)
Record clean mine w : Prop := {
  cl_success : wk_success w = true;
  cl_temp : wk_temp_valid w = true;
  cl_ok : wk_valid w = true;
  cl_new n : ot_map (default ot_empty (wk_new_offers w !! n)) = put_added n (added_by (effects0 mine)) ∅;
  cl_supplies n : stat_at (wk_supplies w) n = put_executed n (executed_by (effects0 mine)) 0;
  cl_log j n : moved_by (effects0 mine) (DbPtr j) n <> 0 ->
    exists id, MemoryDatabase.lookup_user db0 id = Some j /\ id ∈ log_accounts (wk_log w)
}.
(** A worker that will end with [wk_valid] false. *)
Definition dirty w : Prop :=
  wk_valid w = false \/
  (wk_ranges w <> [] /\ wk_temp_valid w = false) \/
  (wk_success w = false /\ exists txs items ranges, wk_ranges w = (txs :: items) :: ranges).

Lemma put_added_app n l l' m : put_added n (l ++ l') m = put_added n l' (put_added n l m).
Proof. apply foldl_app. Qed.
Lemma put_executed_app n l l' z : put_executed n (l ++ l') z = put_executed n l' (put_executed n l z).
Proof. apply foldl_app. Qed.

(** What moves an account's balance is in the log. *)
Lemma moved_to_logged i ids e j n :
  Forall (fun q => logged_target db0 i ids q.1.1) (moves e) -> moved_to e (DbPtr j) n <> 0 ->
  logged_target db0 i ids (DbPtr j).
Proof.
  intros Hm Hne. assert (Hdec : Exists (fun q => q.1.1 = DbPtr j) (moves e)).
  { destruct (decide (Exists (fun q : ptr * Z * Z => q.1.1 = DbPtr j) (moves e))) as [|Hno]; [done|]. destruct Hne.
    apply sum_by_zero, Forall_forall. intros q Hq. rewrite decide_False; [done|]. intros [Eq _]. apply Hno, Exists_exists. by exists q. }
  apply Exists_exists in Hdec as (q & Hq & <-). rewrite Forall_forall in Hm. exact (Hm q Hq).
Qed.

Lemma clean_tx acc mine sh w stx :
  applied0 acc (sh_main sh) (sh_db sh) -> sound sh -> clean mine w -> tx_bounds (mm_num_assets m0) stx ->
  (exists s db stats lg b, run_tx sig_check check_sigs checker sh w stx = Ok (s, db, stats, lg, b) /\
    sound (mkShared (main_manager (base_manager s)) db) /\
    if b then applied0 (acc ++ [stx]) (main_manager (base_manager s)) db /\
      forall ranges, clean (mine ++ [stx])
        (mkWorker ranges true true true (new_offers (base_manager s)) (activated_supplies s) stats lg)
    else ~ block_valid0 (acc ++ [stx])) \/
  exists e, run_tx sig_check check_sigs checker sh w stx = Throw e /\
    tx_error (mm_num_assets m0) (operations (transaction stx)) e.
Proof.
  intros Ha [S1 S2 S3] [C1 C2 C3 C4 C5 C6] Hb. rewrite <- S3 in Hb.
  set (s1 := mkValidating (mkSerial (sh_main sh) (wk_new_offers w)) checker (wk_supplies w)).
  assert (Hck : checker_ok checker (mm_num_assets (main_manager (base_manager s1)))) by (cbn; by rewrite S3).
  destruct (validate_transaction_spec sig_check check_sigs checker (sh_db sh) s1 (wk_log w) stx (wk_stats w) S1 S2 Hck eq_refl Hb)
    as [(s & db & stats & lg & b & E & [Q1 Q2 Q3 Q4] & Hr)|(er & E & He)].
  2: { right. exists er. split; [exact E|]. cbn in He. by rewrite S3 in He. }
  left. do 5 eexists. split; [exact E|]. split; [constructor; cbn; [done|done|by rewrite Q3]|].
  pose proof (applied_step sig_check check_sigs checker db0 m0 db0_ok acc s1 (sh_db sh) (wk_log w) stx s db lg b Ha S1 (tb_seq _ _ Hb) Hr) as Hs.
  destruct b; [|done]. destruct Hs as (Ha' & i & e & Hi & Ee & [_ B2 B3 _] & Hl1 & Hl2 & Hl3). split; [done|].
  intros ranges. pose proof (effects_snoc sig_check check_sigs checker db0 m0 mine stx e Ee) as Es.
  constructor; cbn [wk_success wk_temp_valid wk_valid wk_new_offers wk_supplies wk_log]; try done; rewrite ?Es.
  - intros n. specialize (B2 n). unfold new_at in B2. rewrite B2. cbn [base_manager s1 new_offers]. rewrite C4.
    unfold added_by. rewrite bind_app. cbn [mbind list_bind]. by rewrite app_nil_r, put_added_app.
  - intros n. rewrite (B3 n). cbn [s1 activated_supplies]. rewrite C5. unfold executed_by. rewrite bind_app. cbn [mbind list_bind].
    by rewrite app_nil_r, put_executed_app.
  - intros j n. rewrite moved_by_snoc. intros Hne. destruct (decide (moved_by (effects0 mine) (DbPtr j) n = 0)) as [E0|Hne0].
    + destruct (moved_to_logged i (log_accounts lg) e j n Hl3) as [->|Hid]; [lia| |done]. by exists (tx_number stx).1.
    + destruct (C6 j n Hne0) as (id & Hid & Hin). exists id. set_solver.
Qed.

(** Any step is sound, takes transactions from the front, and keeps a failure. *)
Lemma any_step sh w :
  sound sh -> within_bounds w ->
  (exists sh' w', step sh w = Ok (sh', w') /\ sound sh' /\ (exists d, unvalidated w = d ++ unvalidated w') /\ (dirty w -> dirty w')) \/
  exists e, step sh w = Throw e /\ txs_error (unvalidated w) e.
Proof.
  intros Hs Hb. unfold worker_step, dirty, unvalidated in *. destruct (wk_ranges w) as [|range ranges] eqn:Er.
  { left. do 2 eexists. split; [reflexivity|]. split; [done|]. rewrite Er. split; [by exists []|done]. }
  destruct (wk_valid w) eqn:Ev; cbn [negb andb].
  2: { left. do 2 eexists. split; [reflexivity|]. split; [done|]. split; [exists (concat range)|by left].
       cbn [goto wk_ranges concat]. by rewrite concat_app. }
  destruct range as [|[|stx txs] items].
  - left. do 2 eexists. split; [reflexivity|]. split; [done|]. cbn [goto wk_ranges wk_valid wk_temp_valid wk_success concat app].
    split; [by exists []|]. intros [?|[[_ ->]|(_ & txs & items & rs & ?)]]; [done|by left|done].
  - left. destruct (wk_success w) eqn:Esu; do 2 eexists; (split; [reflexivity|]); (split; [done|]);
      cbn [goto wk_ranges wk_valid wk_temp_valid wk_success concat app].
    + split; [by exists []|]. intros [?|[[_ ->]|[? _]]]; [done|by right; left|done].
    + split; [exists (concat items); by rewrite concat_app|]. intros _. by right; left.
  - unfold within_bounds, unvalidated in Hb. rewrite Er in Hb. cbn [concat app] in Hb. pose proof (proj1 (Forall_cons_1 _ _ _ Hb)) as Hstx.
    destruct Hs as [S1 S2 S3]. rewrite <- S3 in Hstx.
    set (s1 := mkValidating (mkSerial (sh_main sh) (wk_new_offers w)) checker (wk_supplies w)).
    assert (Hck : checker_ok checker (mm_num_assets (main_manager (base_manager s1)))) by (cbn; by rewrite S3).
    destruct (validate_transaction_spec sig_check check_sigs checker (sh_db sh) s1 (wk_log w) stx (wk_stats w) S1 S2 Hck eq_refl Hstx)
      as [(s & db & stats & lg & b & E & [Q1 Q2 Q3 Q4] & _)|(er & E & He)].
    2: { right. exists er. change (run_tx sig_check check_sigs checker sh w stx = Throw er) in E. rewrite E.
         split; [done|]. cbn in He. rewrite S3 in He. by apply Exists_cons_hd. }
    left. change (run_tx sig_check check_sigs checker sh w stx = Ok (s, db, stats, lg, b)) in E. rewrite E. cbn [result_bind].
    do 2 eexists. split; [reflexivity|]. split; [constructor; cbn; [done|done|by rewrite Q3]|].
    cbn [wk_ranges wk_valid wk_temp_valid wk_success]. split; [by exists [stx]|].
    intros [?|[[_ ->]|[-> _]]]; [done|by right; left|]. right; right. split; [done|]. by do 3 eexists.
Qed.

(** A step of a worker without failures, after [acc]. *)
Lemma clean_step acc mine sh w :
  applied0 acc (sh_main sh) (sh_db sh) -> sound sh -> clean mine w -> within_bounds w ->
  (exists sh' w' d, step sh w = Ok (sh', w') /\ sound sh' /\ unvalidated w = d ++ unvalidated w' /\
    ((applied0 (acc ++ d) (sh_main sh') (sh_db sh') /\ clean (mine ++ d) w') \/ (~ block_valid0 (acc ++ d) /\ dirty w'))) \/
  exists e, step sh w = Throw e /\ txs_error (unvalidated w) e.
Proof.
  intros Ha Hs Hc Hb. pose proof Hc as [C1 C2 C3 C4 C5 C6]. unfold worker_step. destruct (wk_ranges w) as [|range ranges] eqn:Er.
  { left. exists sh, w, []. rewrite !app_nil_r. split_and!; [done|done|done|by left]. }
  rewrite C3. cbn [negb andb].
  assert (Hgoto : forall r, concat (concat r) = unvalidated w -> exists sh' w' d, Ok (sh, goto w r true true true) = Ok (sh', w') /\
    sound sh' /\ unvalidated w = d ++ unvalidated w' /\
    ((applied0 (acc ++ d) (sh_main sh') (sh_db sh') /\ clean (mine ++ d) w') \/ (~ block_valid0 (acc ++ d) /\ dirty w'))).
  { intros r Eq. exists sh, (goto w r true true true), []. rewrite !app_nil_r. split_and!; [done|done|by rewrite <- Eq|]. left. by split. }
  destruct range as [|[|stx txs] items].
  - left. rewrite C2. apply Hgoto. unfold unvalidated. by rewrite Er.
  - left. rewrite C1, C2. apply Hgoto. unfold unvalidated. by rewrite Er.
  - assert (Eu : unvalidated w = [stx] ++ concat (concat ((txs :: items) :: ranges))) by (unfold unvalidated; by rewrite Er).
    unfold within_bounds in Hb. rewrite Eu in Hb. apply Forall_app in Hb as [[Hstx _]%Forall_cons _].
    destruct (clean_tx acc mine sh w stx Ha Hs Hc Hstx) as [(s & db & stats & lg & b & E & Hs' & Hres)|(er & E & He)]; rewrite E.
    2: { right. exists er. split; [done|]. by eapply txs_error_first. }
    left. cbn [result_bind]. rewrite C1, C2. do 2 eexists. exists [stx]. split; [reflexivity|]. split; [done|]. split; [exact Eu|].
    destruct b; cbn [andb]; [left; split; [apply Hres|apply Hres]|right; split; [done|]].
    right; right. split; [done|]. by do 3 eexists.
Qed.

(** ** How much a worker still has to do *)
Definition range_steps (range : list (list SignedTransaction)) : nat := 1 + sum_list_with (fun item => 1 + length item)%nat range.
Definition ranges_steps (ranges : list (list (list SignedTransaction))) : nat := sum_list_with range_steps ranges.

Lemma worker_step_decreases sh w sh' w' :
  step sh w = Ok (sh', w') -> (ranges_steps (wk_ranges w') <= ranges_steps (wk_ranges w) - 1)%nat.
Proof.
  unfold worker_step. destruct (wk_ranges w) as [|range ranges] eqn:Er; [intros [= _ <-]; rewrite Er; cbn; lia|].
  destruct (negb (wk_valid w)); [intros [= _ <-]; cbn; lia|].
  destruct range as [|[|stx txs] items]; [intros [= _ <-]; cbn; lia|destruct (wk_success w); intros [= _ <-]; cbn; lia|].
  destruct (run_tx _ _ _ _ _ _) as [[[[[s db] stats] lg] b]|]; cbn [result_bind]; [|done]. intros [= _ <-]. cbn. lia.
Qed.
Lemma worker_finished_steps w : ranges_steps (wk_ranges w) = 0%nat -> worker_finished w = true.
Proof. unfold worker_finished. destruct (wk_ranges w); [done|]. cbn. lia. Qed.

(** ** All workers *)
Variable block : list SignedTransaction.
Implicit Types (ws : list Worker).

Definition all_clean sh ws : Prop :=
  exists acc mines, applied0 acc (sh_main sh) (sh_db sh) /\ Forall2 clean mines ws /\ acc ≡ₚ concat mines /\
    acc ++ concat (unvalidated <$> ws) ≡ₚ block.
Definition rejected ws : Prop := ~ block_valid0 block /\ Exists dirty ws.
Record block_inv sh ws : Prop := {
  vi_sound : sound sh;
  vi_bounds : Forall within_bounds ws;
  vi_pending : Forall (fun w => Forall (fun stx => stx ∈ block) (unvalidated w)) ws;
  vi_state : all_clean sh ws \/ rejected ws
}.

Lemma concat_step {A B} (f : A -> list B) l k x y d :
  l !! k = Some x -> f x = d ++ f y -> concat (f <$> l) ≡ₚ d ++ concat (f <$> <[k := y]> l).
Proof.
  revert k. induction l as [|z l IH]; intros [|k] Hk Hf; simplify_eq/=.
  - by rewrite Hf, app_assoc.
  - rewrite (IH k Hk Hf), !app_assoc. f_equiv. apply Permutation_app_comm.
Qed.
Lemma concat_grow {A} (l : list (list A)) k x d : l !! k = Some x -> concat (<[k := x ++ d]> l) ≡ₚ concat l ++ d.
Proof.
  revert k. induction l as [|z l IH]; intros [|k] Hk; simplify_eq/=.
  - rewrite <- !app_assoc. f_equiv. apply Permutation_app_comm.
  - by rewrite (IH k Hk), app_assoc.
Qed.

Lemma block_step sh ws k w :
  block_inv sh ws -> ws !! k = Some w ->
  (exists sh' w', step sh w = Ok (sh', w') /\ block_inv sh' (<[k := w']> ws)) \/
  exists e, step sh w = Throw e /\ txs_error block e.
Proof.
  intros [Hs Hb Hin Hst] Hk. pose proof (Forall_lookup_1 _ _ _ _ Hb Hk) as Hbw.
  pose proof (Forall_lookup_1 _ _ _ _ Hin Hk) as Hinw. cbn beta in Hinw.
  assert (Hbounds : forall d w', unvalidated w = d ++ unvalidated w' -> Forall within_bounds (<[k := w']> ws)).
  { intros d w' Eu. apply Forall_insert; [done|]. unfold within_bounds in *. rewrite Eu in Hbw. by apply Forall_app in Hbw as [_ ?]. }
  assert (Hpend : forall d w', unvalidated w = d ++ unvalidated w' ->
    Forall (fun w => Forall (fun stx => stx ∈ block) (unvalidated w)) (<[k := w']> ws)).
  { intros d w' Eu. apply Forall_insert; [done|]. rewrite Eu in Hinw. by apply Forall_app in Hinw as [_ ?]. }
  assert (Herr : forall e, txs_error (unvalidated w) e -> txs_error block e).
  { intros e (stx & Hstx & He)%Exists_exists. apply Exists_exists. exists stx. split; [|done]. rewrite Forall_forall in Hinw. by apply Hinw. }
  destruct Hst as [(acc & mines & Ha & Hc & Hp & Hblock)|[Hv Hd]].
  - destruct (Forall2_lookup_r _ _ _ _ _ Hc Hk) as (mine & Hm & Hcw).
    destruct (clean_step acc mine sh w Ha Hs Hcw Hbw) as [(sh' & w' & d & E & Hs' & Eu & Hres)|(er & E & He)];
      [left|right; exists er; split; [done|by apply Herr]].
    exists sh', w'. split; [done|]. constructor; [done|by eapply Hbounds|by eapply Hpend|].
    pose proof (concat_step unvalidated ws k w w' d Hk Eu) as Ep. rewrite Ep, app_assoc in Hblock.
    destruct Hres as [[Ha' Hc']|[Hv Hd]]; [left|right].
    + exists (acc ++ d), (<[k := mine ++ d]> mines). split_and!; [done|by apply Forall2_insert| |done].
      by rewrite (concat_grow _ _ _ _ Hm), Hp.
    + split; [|apply Exists_exists; exists w'; split; [|done]].
      * intros Hbv. apply Hv. rewrite <- Hblock in Hbv. by eapply block_valid_app.
      * apply list_elem_of_lookup. exists k. apply list_lookup_insert_eq. by eapply lookup_lt_Some.
  - destruct (any_step sh w Hs Hbw) as [(sh' & w' & E & Hs' & (d & Eu) & Hd')|(er & E & He)];
      [left|right; exists er; split; [done|by apply Herr]].
    exists sh', w'. split; [done|]. constructor; [done|by eapply Hbounds|by eapply Hpend|]. right. split; [done|]. apply Exists_exists in Hd as (x & Hx & Hdx).
    apply list_elem_of_lookup in Hx as [i Hi]. apply Exists_exists. destruct (decide (i = k)) as [->|Hne].
    + assert (x = w) as -> by congruence. exists w'. split; [|by apply Hd'].
      apply list_elem_of_lookup. exists k. apply list_lookup_insert_eq. by eapply lookup_lt_Some.
    + exists x. split; [|done]. apply list_elem_of_lookup. exists i. by rewrite list_lookup_insert_ne.
Qed.

Lemma block_run sched sh ws :
  block_inv sh ws ->
  (exists sh' ws', run_workers sig_check check_sigs checker sched (sh, ws) = Ok (sh', ws') /\ block_inv sh' ws' /\
    length ws' = length ws /\
    forall k w, ws !! k = Some w -> exists w', ws' !! k = Some w' /\
      (ranges_steps (wk_ranges w') <= ranges_steps (wk_ranges w) - turns k sched)%nat) \/
  exists e, run_workers sig_check check_sigs checker sched (sh, ws) = Throw e /\ txs_error block e.
Proof.
  revert sh ws. induction sched as [|k sched IH]; intros sh ws Hi.
  { left. exists sh, ws. split_and!; [done|done|done|]. intros k w Hk. exists w. cbn. split; [done|lia]. }
  cbn [run_workers]. unfold step_worker. cbn [fst snd]. destruct (ws !! k) as [w|] eqn:Hk.
  - destruct (block_step sh ws k w Hi Hk) as [(sh1 & w1 & E & Hi1)|(er & E & He)]; rewrite E; cbn [result_bind fst snd];
      [|right; by exists er].
    pose proof (worker_step_decreases _ _ _ _ E) as Hw.
    destruct (IH _ _ Hi1) as [(sh' & ws' & E' & Hi' & Hlen & Hwork)|He]; [left|by right]. exists sh', ws'. rewrite length_insert in Hlen.
    split_and!; [done|done|done|]. intros k' w2 Hk'. unfold turns in *. cbn [count_occ]. destruct (Nat.eq_dec k k') as [<-|Hne].
    + assert (w2 = w) as -> by congruence. destruct (Hwork k w1) as (w' & Hw' & Hle).
      { apply list_lookup_insert_eq. by eapply lookup_lt_Some. }
      exists w'. split; [done|]. lia.
    + apply Hwork. by rewrite list_lookup_insert_ne.
  - cbn [result_bind]. destruct (IH _ _ Hi) as [(sh' & ws' & E' & Hi' & Hlen & Hwork)|He]; [left|by right].
    exists sh', ws'. split_and!; try done.
    intros k' w2 Hk'. unfold turns. cbn [count_occ]. destruct (Nat.eq_dec k k') as [<-|]; [congruence|]. by apply Hwork.
Qed.

(** At the end of all workers. *)
Lemma finished_verdict sh ws :
  block_inv sh ws -> forallb worker_finished ws = true ->
  if forallb wk_valid ws then
    block_valid0 block /\ applied0 block (sh_main sh) (sh_db sh) /\ sound sh /\
    exists mines, Forall2 clean mines ws /\ concat mines ≡ₚ block
  else ~ block_valid0 block.
Proof.
  intros [Hs _ _ Hst] Hf. assert (Hnil : forall w, w ∈ ws -> wk_ranges w = []).
  { intros w Hw. rewrite forallb_forall in Hf. specialize (Hf w (proj1 (list_elem_of_In _ _) Hw)). unfold worker_finished in Hf.
    by destruct (wk_ranges w). }
  destruct Hst as [(acc & mines & Ha & Hc & Hp & Hblock)|[Hv Hd]].
  - assert (Hun : concat (unvalidated <$> ws) = []).
    { clear - Hnil. induction ws as [|w ws IH]; [done|]. cbn. rewrite IH by (intros; apply Hnil; set_solver).
      unfold unvalidated. by rewrite Hnil by set_solver. }
    rewrite Hun, app_nil_r in Hblock.
    rewrite (proj2 (forallb_forall wk_valid ws)).
    2: { intros w Hw%list_elem_of_In. apply list_elem_of_lookup in Hw as [k Hk].
         by destruct (Forall2_lookup_r _ _ _ _ _ Hc Hk) as (mine & _ & []). }
    rewrite Hblock in Ha. split_and!; [by apply Ha|done|done|]. exists mines. split; [done|]. by rewrite <- Hp.
  - destruct (forallb wk_valid ws) eqn:Ef; [|done]. apply Exists_exists in Hd as (w & Hw & Hd).
    rewrite forallb_forall in Ef. specialize (Ef w (proj1 (list_elem_of_In _ _) Hw)).
    destruct Hd as [Hd|[[Hd _]|(_ & txs & items & rs & Hd)]]; [congruence|by rewrite Hnil in Hd|by rewrite Hnil in Hd].
Qed.
End Verdict.
