(* ===== verification/BlockMerging.v ===== *)
(** * Merging the buffers of a valid block

    The offers of a valid block have different keys, so the buffers of the workers are
    merged without loss into the waiting offers of the orderbooks, and the executed
    supplies add up, whatever worker found them. *)
From stdpp Require Import base gmap list strings.
From S2P Require Import Prelude Types PriceArith Offers Clearing Asset SeqTracker Accounts AccountLmdb Database DbView SerialManager TxProcessor TxAtomicity BlockAssembly BlockValidator ValidationEffects ValidationProps BlockValidation BlockVerdict.

(** ** Tries with the added offers *)
Section Added.
Context `{BigEndian}.
Definition added_keys (l : list (nat * Offer)) : list Offers.key := (fun p => Key.offer_key p.2) <$> l.

Lemma put_added_spec n l k o : NoDup (added_keys l) ->
  put_added n l ∅ !! k = Some o <-> (n, o) ∈ l /\ Key.offer_key o = k.
Proof.
  induction l as [|[j p] l IH] using rev_ind; intros Hnd.
  { cbn. rewrite lookup_empty. split; [done|]. by intros [?%elem_of_nil _]. }
  unfold added_keys in Hnd. rewrite fmap_app in Hnd. apply NoDup_app in Hnd as (Hnd & Hnew & _).
  rewrite put_added_snoc, elem_of_app, list_elem_of_singleton. destruct (decide (j = n)) as [->|Hne].
  - destruct (decide (Key.offer_key p = k)) as [<-|Hk].
    + rewrite lookup_insert_eq. split; [by intros [= <-]; split; [right|]|]. intros [[Hin|[= ->]] Ek]; [|done].
      destruct (Hnew (Key.offer_key p)); [|by apply list_elem_of_here]. rewrite <- Ek.
      by apply (list_elem_of_fmap_2 (fun p => Key.offer_key p.2)) in Hin.
    + rewrite lookup_insert_ne by done. rewrite IH by done. split; [by intros []; split; [left|]|].
      by intros [[?|[= ->]] ?].
  - rewrite IH by done. split; [by intros []; split; [left|]|]. by intros [[?|[= <- ?]] ?].
Qed.
Lemma put_added_perm n l l' : l ≡ₚ l' -> NoDup (added_keys l) -> put_added n l ∅ = put_added n l' ∅.
Proof.
  intros E Hnd. apply map_eq. intros k. apply option_eq. intros o. rewrite !put_added_spec, E; [done| |done].
  unfold added_keys in *. by rewrite <- E.
Qed.
Lemma put_added_union n l l' : NoDup (added_keys (l ++ l')) ->
  put_added n l ∅ ##ₘ put_added n l' ∅ /\ put_added n l ∅ ∪ put_added n l' ∅ = put_added n (l ++ l') ∅.
Proof.
  intros Hnd. pose proof Hnd as Hnd'. unfold added_keys in Hnd'. rewrite fmap_app in Hnd'. apply NoDup_app in Hnd' as (H1' & H2' & H3').
  assert (Hd : put_added n l ∅ ##ₘ put_added n l' ∅).
  { apply map_disjoint_spec. intros k o o' Ho Ho'. apply put_added_spec in Ho as [Ho <-], Ho' as [Ho' Ek]; [|done..].
    apply (list_elem_of_fmap_2 (fun p => Key.offer_key p.2)) in Ho, Ho'. cbn [snd] in *. apply (H2' _ Ho). by rewrite <- Ek. }
  split; [done|]. apply map_eq. intros k. apply option_eq. intros o.
  rewrite lookup_union_Some, !put_added_spec, elem_of_app by done. tauto.
Qed.
End Added.

Section Merging.
Context {T : Type} `{SequenceTrackerRefines T}.
Context {CT : Type} `{MerkleTrie AccountCommitment CT}.
Context {L : Type} `{LMDBInstance L}.
Context {LG : Type} `{ModifiedAccounts LG}.
Context {TR : Type} `{OfferTrie TR} {M : Type} `{MainManager TR M} `{!MainManagerLaws TR M} `{!MainManagerMergeLaws TR M} `{BigEndian}.
Variable sig_check : Transaction -> list Z -> PublicKey -> bool.
Variable check_sigs : bool.
Variable checker : OrderbookStateCommitmentChecker.
Abbreviation DB := (MemoryDatabase.t T CT L).
Abbreviation Worker := (BlockValidator.Worker (LG := LG) (TR := TR)).
Implicit Types (db : DB) (m : M) (w : Worker) (e : Effect) (ws : list Worker).

(** ** The keys of the offers a transaction adds *)
Lemma op_effect_added db m i owner id op e e' :
  op_effect checker db m i owner id op e = Some e' -> op_ok (mm_num_assets m) op ->
  added e' = added e \/ exists n o p, added e' = added e ++ [(n, o)] /\ 0 <= p <= Price.MAX_PRICE /\
    Key.offer_key o = Key.generate_orderbook_trie_key p owner id.
Proof.
  intros E Hop. destruct op as [op|op|op|op|op|t]; cbn [op_effect] in E.
  - unfold create_effect in E. destruct (_ || _); [done|]. injection E as <-. by left.
  - destruct Hop as (_ & _ & Hp).
    destruct (Category.validate_category_ _ _ && Price.is_valid_price _) eqn:Ev; [|done]. cbn [andb] in E.
    destruct (is_valid_amount _); [|done]. destruct (Category.category_to_idx _ _); [|done]. unfold sell_effect in E.
    destruct (commitments checker !! _); [|done]. cbn [mbind option_bind] in E. destruct (executes _ _).
    + destruct (proceeds _ _); [|done]. injection E as <-. by left.
    + injection E as <-. right. do 2 eexists. exists (cso_minPrice op). split; [reflexivity|]. split; [|reflexivity].
      apply andb_true_iff in Ev as [_ Ev]. unfold Price.is_valid_price in Ev. apply andb_true_iff in Ev as [Ev%Z.leb_le _]. lia.
  - destruct (Category.category_to_idx _ _); [|done]. unfold cancel_effect in E.
    destruct (mm_books m !! _) as [t|]; [|done]. cbn [mbind option_bind] in E. destruct (ot_map t !! _); [|done].
    cbn [mbind option_bind] in E. case_decide; [done|]. injection E as <-. by left.
  - destruct (is_valid_amount _); [|done]. destruct (find_user _ _ _); [|done]. injection E as <-. by left.
  - destruct (_ <? _); [done|]. injection E as <-. by left.
  - done.
Qed.

(** The key of the [k]-th operation of the transaction [owner], [n]. *)
Definition op_key (owner n : Z) (lo hi : nat) (k : Offers.key) : Prop :=
  exists p (j : nat), (lo <= j < hi)%nat /\ 0 <= p <= Price.MAX_PRICE /\
    k = Key.generate_orderbook_trie_key p owner (u64 (n + Z.of_nat j)).
Lemma op_key_weaken owner n lo hi lo' hi' k : (lo' <= lo)%nat -> (hi <= hi')%nat -> op_key owner n lo hi k -> op_key owner n lo' hi' k.
Proof. intros Hlo Hhi (p & j & Hj & Hp & ->). exists p, j. split; [lia|done]. Qed.

Lemma ops_effect_added db m i md j ops e e' :
  ops_effect checker db m i md j ops e = Some e' -> Forall (op_ok (mm_num_assets m)) ops ->
  in_u64 (sourceAccount md) -> (j + length ops <= 256)%nat ->
  exists l, added e' = added e ++ l /\ NoDup (added_keys l) /\
    Forall (op_key (sourceAccount md) (sequenceNumber md) j (j + length ops)) (added_keys l).
Proof.
  intros E Hops Ho. revert j e E. induction Hops as [|op ops Hop Hops IH]; intros j e; cbn [ops_effect length].
  { intros [= <-] _. exists []. rewrite app_nil_r. split_and!; [done|apply NoDup_nil_2|done]. }
  set (id := u64 _). destruct (op_effect _ _ _ _ _ _ _ _) as [e1|] eqn:E1; [|done]. cbn [mbind option_bind]. intros E Hj.
  destruct (IH (j + 1)%nat e1 E ltac:(lia)) as (l & El & Hnd & Hk).
  assert (Hk' : Forall (op_key (sourceAccount md) (sequenceNumber md) j (j + S (length ops))) (added_keys l)).
  { eapply Forall_impl; [exact Hk|]. intros k. apply op_key_weaken; lia. }
  destruct (op_effect_added _ _ _ _ _ _ _ _ E1 Hop) as [Ea|(n & o & p & Ea & Hp & Ek)]; rewrite Ea in El.
  - by exists l.
  - exists ((n, o) :: l). rewrite <- app_assoc in El. split; [exact El|]. unfold added_keys in *. cbn [fmap list_fmap snd].
    split; [|apply Forall_cons; split; [|done]; exists p, j; split_and!; [lia|lia|lia|lia|exact Ek]].
    apply NoDup_cons. split; [|done]. intros Hin. rewrite Forall_forall in Hk.
    destruct (Hk _ Hin) as (p' & j' & Hj' & Hp' & Ek'). rewrite Ek in Ek'.
    apply Key.key_inj in Ek' as (_ & _ & Eid); [|done|done|apply u64_range|done|done|apply u64_range].
    unfold id in Eid. assert (Hjj : Z.of_nat j <> Z.of_nat j') by lia. clear - Eid Hjj Hj Hj'. unfold u64 in Eid.
    apply Hjj. pose proof (Z.div_mod (sequenceNumber md + Z.of_nat j) (2 ^ 64) ltac:(lia)).
    pose proof (Z.div_mod (sequenceNumber md + Z.of_nat j') (2 ^ 64) ltac:(lia)). nia.
Qed.

Section Keys.
Variables (db0 : DB) (m0 : M).
Hypothesis db0_ok : db_ok db0.
Abbreviation tx_effect0 := (tx_effect sig_check check_sigs checker db0 m0).
Abbreviation effects0 := (effects sig_check check_sigs checker db0 m0).
Abbreviation block_valid0 := (block_valid sig_check check_sigs checker db0 m0).

Lemma tx_effect_added stx e :
  tx_effect0 stx = Some e -> tx_bounds (mm_num_assets m0) stx ->
  NoDup (added_keys (added e)) /\ Forall (op_key (tx_number stx).1 (tx_number stx).2 0 256) (added_keys (added e)) /\
  Z.land (tx_number stx).2 RESERVED_SEQUENCE_NUM_LOWBITS = 0.
Proof.
  intros E [B1 B2 B3 B4]. unfold MAX_OPS_PER_TX in B3. unfold tx_effect in E.
  destruct (check_tx_format_parameters (transaction stx)) eqn:Ef; cbn [negb orb] in E; [|done]. apply Z.eqb_eq in Ef.
  destruct (_ <? _); [done|]. destruct (MemoryDatabase.lookup_user db0 _) as [i|]; [|done]. cbn [mbind option_bind] in E.
  destruct (signature_ok _ _ _ _ _) as [[]|]; [|done..].
  destruct (ops_effect_added _ _ _ _ _ _ _ _ E B4 B1 ltac:(lia)) as (l & El & Hnd & Hk). cbn in El. rewrite El.
  split_and!; [done| |exact Ef]. eapply Forall_impl; [exact Hk|]. intros k. apply op_key_weaken; lia.
Qed.

Lemma block_added_keys l : block_valid0 l -> Forall (tx_bounds (mm_num_assets m0)) l -> NoDup (added_keys (added_by (effects0 l))).
Proof.
  intros [B1 _ B3 _ _] Hb. induction Hb as [|x l Hx Hb IH]; [apply NoDup_nil_2|].
  apply Forall_cons in B1 as [[e Ee] B1]. cbn [fmap list_fmap] in B3. apply NoDup_cons in B3 as [Hslot B3].
  unfold effects, added_by, added_keys in *. cbn [omap list_omap]. rewrite Ee. cbn [mbind list_bind]. rewrite fmap_app.
  destruct (tx_effect_added x e Ee Hx) as (Hnd & Hk & Hal). apply NoDup_app. split_and!; [done| |by apply IH].
  intros k Hin Hin'. apply list_elem_of_fmap in Hin' as (p & -> & (e' & Hp & He')%list_elem_of_bind).
  apply list_elem_of_omap in He' as (y & Hy & Ey). rewrite Forall_forall in Hb. specialize (Hb y Hy).
  destruct (tx_effect_added y e' Ey Hb) as (_ & Hk' & Hal'). rewrite Forall_forall in Hk, Hk'.
  destruct (Hk _ Hin) as (q & j & Hj & Hq & Eq). destruct (Hk' (Key.offer_key p.2)) as (q' & j' & Hj' & Hq' & Eq').
  { by apply (list_elem_of_fmap_2 (fun p => Key.offer_key p.2)). }
  rewrite Eq in Eq'. apply Key.key_inj in Eq' as (_ & Eo & Eid); [|done|apply Hx|apply u64_range|done|apply Hb|apply u64_range].
  apply aligned_ids in Eid; [|apply Hx|apply Hb|done|done|lia|lia]. apply Hslot, list_elem_of_fmap. exists y. split; [|done].
  unfold number_slot. unfold tx_number in Eo, Eid. cbn [fst snd] in Eo, Eid. by rewrite Eo, Eid.
Qed.
End Keys.

(** ** One orderbook *)
(** What merging leaves of a worker. *)
Definition same_results w w' : Prop := wk_log w' = wk_log w /\ wk_supplies w' = wk_supplies w.
Definition new_of w (n : nat) : gmap Offers.key Offer := ot_map (default ot_empty (wk_new_offers w !! n)).

Lemma merge_orderbook_spec (i : nat) m t l0 ls ws :
  mm_waiting m !! i = Some t -> ot_map t = put_added i l0 ∅ -> Forall2 (fun l w => new_of w i = put_added i l ∅) ls ws ->
  NoDup (added_keys (l0 ++ concat ls)) ->
  exists m' ws' t', merge_orderbook m ws i = Ok (m', ws') /\ mm_books m' = mm_books m /\
    mm_num_assets m' = mm_num_assets m /\ mm_waiting m' = <[i := t']> (mm_waiting m) /\
    ot_map t' = put_added i (l0 ++ concat ls) ∅ /\
    Forall2 (fun w w' => same_results w w' /\ forall n, n <> i -> new_of w' n = new_of w n) ws ws'.
Proof.
  intros Ht Hm Hws. revert m t l0 Ht Hm. induction Hws as [|l w ls ws Hw Hws IH]; intros m t l0 Ht Hm Hnd; cbn [merge_orderbook].
  { exists m, [], t. cbn [concat] in *. rewrite app_nil_r, list_insert_id by done. by split_and!. }
  cbn [concat] in *. rewrite app_assoc in Hnd |- *.
  pose proof Hnd as Hnd'. unfold added_keys in Hnd'. rewrite fmap_app in Hnd'. apply NoDup_app in Hnd' as (Hnd1 & _ & _).
  destruct (put_added_union i l0 l Hnd1) as [Hdis Hun].
  assert (Hstep : exists m1 t1 wn, partial_finish (mkSerial m (wk_new_offers w)) i = Ok (mkSerial m1 wn) /\
      mm_books m1 = mm_books m /\ mm_num_assets m1 = mm_num_assets m /\ mm_waiting m1 = <[i := t1]> (mm_waiting m) /\
      ot_map t1 = put_added i (l0 ++ l) ∅ /\ forall n, n <> i -> default ot_empty (wn !! n) = default ot_empty (wk_new_offers w !! n)).
  { unfold partial_finish, new_of in *. cbn [new_offers main_manager]. destruct (wk_new_offers w !! i) as [tr|] eqn:Etr.
    - change (ot_map tr = put_added i l ∅) in Hw. destruct (mm_add_spec m (Z.of_nat i) tr t) as (m1 & -> & E1 & E2 & E3); [lia|by rewrite Nat2Z.id|].
      cbn [result_bind]. exists m1, (ot_merge_in t tr), (<[i := ot_empty]> (wk_new_offers w)). rewrite Nat2Z.id in E3.
      split_and!; [done|done|done|done| |].
      + by rewrite ot_merge_map, Hm, Hw by (by rewrite Hm, Hw).
      + intros n Hn. by rewrite list_lookup_insert_ne.
    - exists m, t, (wk_new_offers w). cbn [result_bind]. rewrite list_insert_id by done. split_and!; try done.
      change (ot_map ot_empty = put_added i l ∅) in Hw. rewrite ot_empty_map in Hw. by rewrite Hm, <- Hun, <- Hw, (right_id_L ∅ (∪)). }
  destruct Hstep as (m1 & t1 & wn & E & E1 & E2 & E3 & E4 & E5).
  rewrite E. cbn [result_bind main_manager new_offers].
  destruct (IH m1 t1 (l0 ++ l)) as (m' & ws' & t' & -> & F1 & F2 & F3 & F4 & F5); [|done|done|].
  { rewrite E3. apply list_lookup_insert_eq. by eapply lookup_lt_Some. }
  cbn [result_bind fst snd]. do 2 eexists. exists t'. split; [reflexivity|].
  split_and!; [congruence|congruence|by rewrite F3, E3, list_insert_insert_eq|done|].
  constructor; [|done]. split; [done|]. intros n Hn. unfold new_of. cbn [wk_new_offers]. by rewrite E5.
Qed.

(** ** All orderbooks *)
Lemma merge_orderbooks_spec (is_ : list nat) m ls ws :
  NoDup is_ -> Forall (fun i => exists t, mm_waiting m !! i = Some t /\ ot_map t = ∅) is_ ->
  (forall i, i ∈ is_ -> Forall2 (fun l w => new_of w i = put_added i l ∅) ls ws) ->
  NoDup (added_keys (concat ls)) ->
  exists m' ws', merge_orderbooks m ws is_ = Ok (m', ws') /\ mm_books m' = mm_books m /\
    length (mm_waiting m') = length (mm_waiting m) /\ Forall2 same_results ws ws' /\
    forall i, if decide (i ∈ is_) then exists t, mm_waiting m' !! i = Some t /\ ot_map t = put_added i (concat ls) ∅
              else mm_waiting m' !! i = mm_waiting m !! i.
Proof.
  intros Hnd Hw Hnew Hk. revert m ws Hw Hnew. induction Hnd as [|i is_ Hi Hnd IH]; intros m ws Hw Hnew; cbn [merge_orderbooks].
  { exists m, ws. split_and!; [done|done|done|clear; induction ws; by constructor|]. intros i. by rewrite decide_False by apply not_elem_of_nil. }
  apply Forall_cons in Hw as [(t & Ht & Hm) Hw].
  destruct (merge_orderbook_spec i m t [] ls ws Ht Hm) as (m1 & ws1 & t1 & -> & E1 & E2 & E3 & E4 & E5); [|done|].
  { apply Hnew. apply list_elem_of_here. }
  cbn [result_bind fst snd app] in *. destruct (IH m1 ws1) as (m' & ws' & -> & F1 & F2 & F3 & F4).
  { apply Forall_forall. intros i' Hi'. rewrite Forall_forall in Hw. destruct (Hw i' Hi') as (t' & Ht' & Hm').
    exists t'. rewrite E3, list_lookup_insert_ne; [done|]. intros ->. done. }
  { intros i' Hi'. specialize (Hnew i' ltac:(apply elem_of_cons; by right)). apply Forall2_same_length_lookup.
    pose proof (Forall2_length _ _ _ Hnew). pose proof (Forall2_length _ _ _ E5). split; [lia|].
    intros j l w1 Hl Hw1. destruct (Forall2_lookup_r _ _ _ _ _ E5 Hw1) as (w & Hjw & _ & Hsame).
    rewrite Hsame by (intros ->; done). exact (Forall2_lookup_lr _ _ _ _ _ _ Hnew Hl Hjw). }
  exists m', ws'. split_and!; [done|congruence|by rewrite F2, E3, length_insert| |].
  - clear - E5 F3. revert ws' F3. induction E5 as [|w w1 ws ws1 [[Q1 Q2] _] E5 IH]; intros ws' F3; inversion F3 as [|? w2 ? ws2 [R1 R2] F3']; [constructor|].
    subst. constructor; [split; congruence|by apply IH].
  - intros i'. specialize (F4 i'). destruct (decide (i' ∈ is_)) as [Hin|Hin].
    + rewrite decide_True by (apply elem_of_cons; by right). done.
    + destruct (decide (i' = i)) as [->|Hne].
      * rewrite decide_True by apply list_elem_of_here. exists t1. rewrite F4, E3. split; [|done].
        apply list_lookup_insert_eq. by eapply lookup_lt_Some.
      * rewrite decide_False by (intros [?|?]%elem_of_cons; done). rewrite F4, E3. by apply list_lookup_insert_ne.
Qed.
End Merging.
