(* ===== verification/CommitmentTrie.v ===== *)
(** * The commitment trie is current

    The header commits to the accounts through the Merkle trie of their records.
    [trie_current]: the trie holds the record of the committed values of every account
    that can have one.  Transactions and clearing keep it, because they only touch
    uncommitted values; so do creating accounts and committing a block. *)
From stdpp Require Import base gmap list strings.
From S2P Require Import Prelude Types PriceArith Asset SeqTracker Accounts AccountLmdb Database Offers Clearing DbView SerialManager TxProcessor TxAtomicity BlockValidator ValidationEffects ValidationProps BlockValidation.

(** ** The commitment trie *)
Section Trie.
Context {T : Type} `{SequenceTrackerRefines T} {CT : Type} `{MerkleTrie AccountCommitment CT} {L : Type} `{LMDBInstance L}.
Abbreviation DB := (MemoryDatabase.t T CT L).
Abbreviation account := (UserAccount.t T).
Implicit Types (d : DB).
Import MemoryDatabase.

Lemma modify_entries_spec com log d d' :
  wf d -> modify_trie_entries com d log = Ok d' ->
  exists tr, d' = set_trie d tr /\ (forall id, is_Some (trie_map tr !! id) <-> is_Some (trie_map (commitment_trie d) !! id)) /\
    (forall id, id ∉ log -> trie_map tr !! id = trie_map (commitment_trie d) !! id) /\
    forall o, o ∈ log -> exists i a c, user_id_to_idx_map d !! o = Some i /\ database d !! i = Some a /\ com a = Ok c /\
      trie_map tr !! o = Some c.
Proof.
  revert d. induction log as [|o log IH]; intros d [Hi Ht] E; cbn [modify_trie_entries] in E.
  - injection E as <-. exists (commitment_trie d). split_and!; [by destruct d|done|done|by intros o ?%elem_of_nil].
  - apply result_bind_Ok in E as (d1 & E1 & E). unfold modify_trie_entry in E1.
    destruct (user_id_to_idx_map d !! o) as [i|] eqn:Eo; [|done]. destruct (database d !! i) as [a|] eqn:Ea; [|done].
    apply result_bind_Ok in E1 as (c & Ec & [= <-]).
    destruct (proj2 (Ht o)) as [v Hv]; [by rewrite Eo|]. set (tr1 := trie_modify_value _ _ _) in E.
    assert (Etr : trie_map tr1 = <[o := c]> (trie_map (commitment_trie d))) by by apply (trie_map_modify _ o (fun _ => c) v).
    assert (Hdom : forall id, is_Some (trie_map tr1 !! id) <-> is_Some (trie_map (commitment_trie d) !! id)).
    { intros id. rewrite Etr, lookup_insert. case_decide as Hid; [|done]. subst. rewrite Hv. by split; eauto. }
    destruct (IH (set_trie d tr1)) as (tr & -> & D1 & D2 & D3); [|done|].
    { constructor; [done|]. intros id. cbn. rewrite Hdom. apply Ht. }
    cbn [set_trie commitment_trie user_id_to_idx_map database] in *. exists tr. split_and!; [done| | |].
    + intros id. by rewrite D1.
    + intros id [Hne Hid]%not_elem_of_cons. by rewrite D2, Etr, lookup_insert_ne.
    + intros o' [->|Ho]%elem_of_cons; [|by apply D3]. destruct (decide (o ∈ log)) as [Hin|Hin].
      * destruct (D3 o Hin) as (i' & a' & c' & ?). by exists i', a', c'.
      * exists i, a, c. split_and!; [done|done|done|]. by rewrite D2, Etr, lookup_insert_eq.
Qed.

Lemma account_index_wf d d' : user_id_to_idx_map d' = user_id_to_idx_map d -> commitment_trie d' = commitment_trie d ->
  UserAccount.owner <$> database d' = UserAccount.owner <$> database d -> wf d -> wf d'.
Proof.
  intros Em Et El [Hi Ht]. constructor; [|by rewrite Em, Et]. intros id i. rewrite Em, (Hi id i).
  assert (Ei : (UserAccount.owner <$> database d') !! i = (UserAccount.owner <$> database d) !! i) by by rewrite El.
  rewrite !list_lookup_fmap in Ei. destruct (database d' !! i) as [a'|], (database d !! i) as [a|]; try done.
  - injection Ei as Eo. split; intros (b & [= <-] & Hb); eexists; (split; [done|]); congruence.
Qed.

(** *** Records of accounts *)
Definition record_of (a : account) : AccountCommitment :=
  mkAccountCommitment (UserAccount.owner a) (imap (fun k x => RevertableAsset.produce_commitment x (Z.of_nat k)) (UserAccount.owned_assets a))
    (st_produce_commitment (UserAccount.seq_tracker a)) (UserAccount.pk a).
(** An account with 256 or more assets has no record. *)
Definition recordable (a : account) : Prop := (length (UserAccount.owned_assets a) <= 255)%nat.
Lemma account_commitment_record a : recordable a -> account_commitment a = Ok (record_of a).
Proof. intros Ha. unfold account_commitment. by rewrite UserAccount.produce_commitment_spec. Qed.

(** Accounts with the same committed values. *)
Record same_record (a b : account) : Prop := {
  sr_owner : UserAccount.owner b = UserAccount.owner a;
  sr_pk : UserAccount.pk b = UserAccount.pk a;
  sr_number : st_produce_commitment (UserAccount.seq_tracker b) = st_produce_commitment (UserAccount.seq_tracker a);
  sr_length : length (UserAccount.owned_assets b) = length (UserAccount.owned_assets a);
  sr_committed n : RevertableAsset.committed_available (UserAccount.asset_of b n) = RevertableAsset.committed_available (UserAccount.asset_of a n)
}.
#[export] Instance same_record_preorder : PreOrder same_record.
Proof. split; [by constructor|]. intros a b c [A1 A2 A3 A4 A5] [B1 B2 B3 B4 B5]. constructor; [congruence..|]. intros n. by rewrite B5. Qed.
Lemma same_record_recordable a b : same_record a b -> recordable b <-> recordable a.
Proof. intros [_ _ _ El _]. unfold recordable. by rewrite El. Qed.
Lemma record_of_same a b : same_record a b -> record_of b = record_of a.
Proof.
  intros [Eo Ep En El Ec]. unfold record_of. rewrite Eo, Ep, En. f_equal. apply list_eq. intros k. rewrite !list_lookup_imap.
  specialize (Ec k). unfold UserAccount.asset_of in Ec. rewrite El in Ec.
  destruct (decide (k < length (UserAccount.owned_assets a))%nat) as [Hk|Hk].
  - destruct (lookup_lt_is_Some_2 (UserAccount.owned_assets a) k Hk) as [x Hx]. rewrite <- El in Hk.
    destruct (lookup_lt_is_Some_2 (UserAccount.owned_assets b) k Hk) as [y Hy]. rewrite Hx, Hy in *. cbn in Ec |- *.
    unfold RevertableAsset.produce_commitment. by rewrite Ec.
  - rewrite !lookup_ge_None_2 by lia. done.
Qed.
Lemma transfer_same_record a k x : same_record a (UserAccount.transfer_available a k x).
Proof.
  destruct (UserAccount.transfer_frame a k x) as (El & Et & Eo & Ep). constructor; [done|done|by rewrite Et|done|].
  intros n. rewrite UserAccount.transfer_asset_of. by destruct (decide _) as [->|].
Qed.
Lemma shift_same_record change a b : acct_shift change a b ->
  st_produce_commitment (UserAccount.seq_tracker b) = st_produce_commitment (UserAccount.seq_tracker a) -> same_record a b.
Proof. intros [L1 O1 P1 A1] En. constructor; [done..|]. intros n. by rewrite A1. Qed.

(** *** Databases *)
Definition trie_current d : Prop := forall id i a, user_id_to_idx_map d !! id = Some i -> database d !! i = Some a ->
  recordable a -> trie_map (commitment_trie d) !! id = Some (record_of a).
Definition trackers_wf d : Prop := Forall (fun a : account => st_wf (UserAccount.seq_tracker a)) (database d).

(** The same accounts, with the same committed values. *)
Record same_committed d d' : Prop := {
  sc_map : user_id_to_idx_map d' = user_id_to_idx_map d;
  sc_trie : commitment_trie d' = commitment_trie d;
  sc_accounts : Forall2 same_record (database d) (database d')
}.
#[export] Instance same_committed_preorder : PreOrder same_committed.
Proof.
  split; [by constructor|]. intros d1 d2 d3 [A1 A2 A3] [B1 B2 B3]. constructor; [congruence..|]. by etransitivity.
Qed.
Lemma same_committed_wf d d' : same_committed d d' -> wf d -> wf d'.
Proof.
  intros [Em Et Hf] [Hi Ht]. constructor; [|by rewrite Em, Et]. intros id i. rewrite Em, (Hi id i). split; intros (a & Ha & Eo).
  - destruct (Forall2_lookup_l _ _ _ _ _ Hf Ha) as (b & Hb & Hs). exists b. by rewrite (sr_owner _ _ Hs).
  - destruct (Forall2_lookup_r _ _ _ _ _ Hf Ha) as (b & Hb & Hs). exists b. by rewrite <- (sr_owner _ _ Hs).
Qed.
Lemma same_committed_current d d' : same_committed d d' -> trie_current d -> trie_current d'.
Proof.
  intros [Em Et Hf] Hc id i a Hi Ha Hr. rewrite Em in Hi. rewrite Et. destruct (Forall2_lookup_r _ _ _ _ _ Hf Ha) as (b & Hb & Hs).
  rewrite (record_of_same _ _ Hs). apply (Hc id i b Hi Hb). by apply (same_record_recordable _ _ Hs).
Qed.

(** What paying an account keeps. *)
Definition paid_keeps d d' : Prop := same_committed d d' /\ (trackers_wf d -> trackers_wf d') /\
  uncommitted_db d' = uncommitted_db d /\ reserved_account_ids d' = reserved_account_ids d /\
  account_creation_thunks d' = account_creation_thunks d.
#[export] Instance paid_keeps_preorder : PreOrder paid_keeps.
Proof.
  split; [by intros d; split_and!|]. intros d1 d2 d3 (A1 & A2 & A3 & A4 & A5) (B1 & B2 & B3 & B4 & B5).
  split_and!; [by etransitivity|by auto|congruence..].
Qed.
Lemma transfer_keeps_committed d a k x : paid_keeps d (transfer_available d a k x).
Proof.
  split_and!; [|intros Hw|done..].
  - constructor; [done|done|]. cbn. apply Forall2_same_length_lookup. rewrite length_alter. split; [done|]. intros i b c Hb Hc.
    destruct (decide (a = i)) as [->|Hne]; [|rewrite list_lookup_alter_ne in Hc by done; by assert (b = c) as -> by congruence].
    rewrite list_lookup_alter_eq, Hb in Hc. injection Hc as <-. apply transfer_same_record.
  - apply Forall_lookup_2. intros i b Hb. cbn in Hb. destruct (decide (a = i)) as [->|Hne].
    + rewrite list_lookup_alter_eq in Hb. destruct (database d !! i) as [b0|] eqn:E; [|done]. injection Hb as <-.
      destruct (UserAccount.transfer_frame b0 k x) as (_ & -> & _). apply (Forall_lookup_1 _ _ _ _ Hw E).
    + rewrite list_lookup_alter_ne in Hb by done. apply (Forall_lookup_1 _ _ _ _ Hw Hb).
Qed.

(** Committing the accounts in the log: nothing else changes. *)
Lemma commit_values_frame log d d' : commit_values d log = Ok d' ->
  UserAccount.owner <$> database d' = UserAccount.owner <$> database d /\ (trackers_wf d -> trackers_wf d') /\
  uncommitted_db d' = uncommitted_db d /\ reserved_account_ids d' = reserved_account_ids d.
Proof.
  revert d. induction log as [|o log IH]; intros d E; cbn [commit_values] in E; [by injection E as <-|].
  destruct (lookup_user d o) as [i|]; [|done]. destruct (IH _ E) as (-> & Ht & -> & ->). cbn [set_database database]. split_and!; [| |done|done].
  - apply list_eq. intros j. rewrite !list_lookup_fmap. destruct (decide (i = j)) as [->|Hne]; [|by rewrite list_lookup_alter_ne].
    rewrite list_lookup_alter_eq. by destruct (database d !! j).
  - intros Hw. apply Ht. apply Forall_alter; [done|]. intros a _ Ha. cbn. by destruct (st_commit_refines _ Ha).
Qed.

(** A block's log is hashed into the trie and then committed. *)
Lemma committed_current d d1 h d2 log :
  wf d -> trackers_wf d -> trie_current d -> NoDup log ->
  tentative_produce_state_commitment d log = Ok (d1, h) -> commit_values d1 log = Ok d2 ->
  wf d2 /\ trackers_wf d2 /\ trie_current d2 /\ h = trie_hash (commitment_trie d2) /\
  uncommitted_db d2 = uncommitted_db d /\ reserved_account_ids d2 = reserved_account_ids d.
Proof.
  intros Hwf Htr Hcur Hn E1 E2. unfold tentative_produce_state_commitment in E1. apply result_bind_Ok in E1 as (d1' & Em & [= -> <-]).
  destruct (modify_entries_spec _ _ _ _ Hwf Em) as (tr & -> & D1 & D2 & D3). cbn [set_trie commitment_trie] in *.
  assert (Hwf1 : wf (set_trie d tr)).
  { destruct Hwf as [Hi Ht]. constructor; [done|]. intros id. cbn. rewrite D1. apply Ht. }
  destruct (DatabaseProps.commit_values_spec log (set_trie d tr) Hwf1 Hn) as (d2' & E & Em2 & Et2 & Hd2).
  { intros o Ho. destruct (D3 o Ho) as (i & a & c & Hi & _). by exists i. }
  assert (d2' = d2) as -> by congruence. destruct (commit_values_frame _ _ _ E2) as (Eo & Hw & Eu & Er).
  cbn [set_trie commitment_trie user_id_to_idx_map database] in *.
  split; [by apply (account_index_wf (set_trie d tr))|]. split; [by apply Hw|]. split; [|by rewrite Et2].
  intros id i a Hi Ha Hrec. rewrite Em2 in Hi. rewrite Et2. pose proof Hi as Hi'. destruct Hwf as [Hidx _].
  apply Hidx in Hi' as (b & Hb & Hown). rewrite (Hd2 i b Hb), Hown in Ha. destruct (decide (id ∈ log)) as [Hin|Hin]; injection Ha as <-.
  - destruct (D3 id Hin) as (i' & b' & c & Hi' & Hb' & Hc & ->). assert (i' = i) as -> by congruence. assert (b' = b) as -> by congruence.
    unfold recordable in Hrec. rewrite AccountProps.commit_assets, length_fmap in Hrec.
    destruct (AccountProps.tentative_commit b 255 (Forall_lookup_1 _ _ _ _ Htr Hb) ltac:(lia) Hrec) as (c' & Ec & Ep).
    unfold tentative_account_commitment in Hc. rewrite Ec in Hc. injection Hc as <-.
    rewrite UserAccount.produce_commitment_spec in Ep by (rewrite AccountProps.commit_assets, length_fmap; lia). by injection Ep as <-.
  - rewrite D2 by done. by apply (Hcur id i b).
Qed.

(** Creating accounts. *)
Lemma new_accounts_current l d d' :
  wf d -> NoDup (UserAccount.owner <$> l) -> (forall id, id ∈ UserAccount.owner <$> l -> user_id_to_idx_map d !! id = None) ->
  Forall (fun a : account => st_wf (UserAccount.seq_tracker a)) l -> trackers_wf d -> trie_current d ->
  commit_new_accounts_loop l d = Ok d' -> trackers_wf d' /\ trie_current d'.
Proof.
  revert d. induction l as [|a l IH]; intros d Hwf Hnd Hfresh Hl Htr Hcur; cbn [commit_new_accounts_loop]; [by intros [= <-]|].
  rewrite result_bind_Ok. intros (d1 & E1 & E2). inversion_clear Hl as [|? ? Ha Hl'].
  assert (Hone : commit_new_accounts_loop [a] d = Ok d1) by (cbn; by rewrite E1).
  rewrite fmap_cons in Hnd, Hfresh. apply NoDup_cons in Hnd as [Hna Hnd].
  assert (Hfa : user_id_to_idx_map d !! UserAccount.owner a = None) by (apply Hfresh; by left).
  destruct (commit_new_accounts_loop_spec [a] d d1 Hwf) as (Hwf1 & Hd1 & _ & _ & Ho1);
    [apply NoDup_singleton|intros id ->%list_elem_of_singleton; exact Hfa|exact Hone|].
  assert (Htr1 : trackers_wf d1).
  { unfold trackers_wf. rewrite Hd1. apply Forall_app. split; [done|]. constructor; [|done]. cbn. by destruct (st_commit_refines _ Ha). }
  apply (IH d1); try done.
  - intros id Hid. rewrite (proj1 (Ho1 id ltac:(intros ->%list_elem_of_singleton; done))). apply Hfresh. by right.
  - unfold commit_new_account in E1. apply result_bind_Ok in E1 as (c & Ec & [= <-]). intros id i b. cbn.
    rewrite trie_map_insert. rewrite !lookup_insert. case_decide as Hid.
    + intros [= <-] Hb Hrec. rewrite lookup_app_r, Nat.sub_diag in Hb by done. injection Hb as <-.
      rewrite account_commitment_record in Ec by done. by injection Ec as <-.
    + intros Hi Hb. pose proof Hi as Hi'. apply (wf_index _ Hwf) in Hi' as (b' & Hb' & _). rewrite lookup_app_l in Hb by by eapply lookup_lt_Some.
      by apply (Hcur id i b).
Qed.
Lemma commit_new_accounts_current d block d' :
  wf d -> NoDup (UserAccount.owner <$> uncommitted_db d) ->
  (forall id, id ∈ UserAccount.owner <$> uncommitted_db d -> user_id_to_idx_map d !! id = None) ->
  Forall (fun a : account => st_wf (UserAccount.seq_tracker a)) (uncommitted_db d) -> trackers_wf d -> trie_current d ->
  commit_new_accounts d block = Ok d' ->
  wf d' /\ trackers_wf d' /\ trie_current d' /\ uncommitted_db d' = [] /\ reserved_account_ids d' = ∅.
Proof.
  intros Hwf Hn Hf Hl Htr Hcur E. destruct (commit_new_accounts_spec _ _ _ Hwf Hn Hf E) as (Hwf' & _ & _ & _ & Eu & Er & _).
  split; [done|]. unfold commit_new_accounts in E. destruct (negb _); [done|]. apply result_bind_Ok in E as (d1 & E & [= <-]).
  by destruct (new_accounts_current _ _ _ Hwf Hn Hf Hl Htr Hcur E).
Qed.
End Trie.

(** ** The transactions of a block *)
Section Transactions.
Context {T : Type} `{SequenceTrackerRefines T}.
Context {CT : Type} `{MerkleTrie AccountCommitment CT} {L : Type} `{LMDBInstance L}.
Context {TR : Type} `{OfferTrie TR} {M : Type} `{MainManager TR M} `{!MainManagerLaws TR M} `{BigEndian}.
Variable sig_check : Transaction -> list Z -> PublicKey -> bool.
Variable check_sigs : bool.
Variable checker : OrderbookStateCommitmentChecker.
Abbreviation DB := (MemoryDatabase.t T CT L).
Abbreviation account := (UserAccount.t T).
Implicit Types (db : DB) (m : M) (e : Effect).

Definition fresh_ids db e : Prop := forall id, id ∈ (created e).*1 -> MemoryDatabase.lookup_user db id = None.
Lemma op_creates_fresh db m i owner n op e e' :
  op_effect checker db m i owner n op e = Some e' -> fresh_ids db e -> fresh_ids db e'.
Proof.
  unfold fresh_ids. destruct op as [op|op|op|op|op|t]; cbn [op_effect].
  - unfold create_effect. destruct (_ || _) eqn:Eb; [done|]. intros [= <-] He id. cbn. intros [->|?]%elem_of_cons; [|by apply He].
    apply orb_false_iff in Eb as [Eb _]. apply orb_false_iff in Eb as [_ Eb]. rewrite bool_decide_eq_false in Eb.
    destruct (MemoryDatabase.lookup_user db _); [|done]. by destruct Eb.
  - destruct (_ && _); [|done]. destruct (Category.category_to_idx _ _); [|done]. unfold sell_effect.
    destruct (commitments checker !! _); [|done]. cbn [mbind option_bind]. destruct (executes _ _); [|by intros [= <-]].
    destruct (proceeds _ _); [|done]. by intros [= <-].
  - destruct (Category.category_to_idx _ _); [|done]. unfold cancel_effect.
    destruct (mm_books m !! _) as [t|]; [|done]. cbn [mbind option_bind]. destruct (ot_map t !! _); [|done].
    cbn [mbind option_bind]. case_decide as Hd; [done|]. by intros [= <-].
  - destruct (is_valid_amount _); [|done]. destruct (find_user _ _ _); [|done]. by intros [= <-].
  - destruct (_ <? _); [done|]. by intros [= <-].
  - done.
Qed.
Lemma tx_creates_fresh db m stx e : tx_effect sig_check check_sigs checker db m stx = Some e -> fresh_ids db e.
Proof.
  unfold tx_effect. destruct (_ || _); [done|]. destruct (MemoryDatabase.lookup_user db _) as [i|]; [|done]. cbn [mbind option_bind].
  destruct (signature_ok _ _ _ _ _) as [[]|]; try done.
  assert (Hs : fresh_ids db (add_move (DbPtr i) MemoryDatabase.NATIVE_ASSET (i64 (- fee_required (Z.of_nat (length (operations (transaction stx)))))) no_effect))
    by (intros id; cbn; by intros ?%elem_of_nil).
  revert Hs. generalize (add_move (DbPtr i) MemoryDatabase.NATIVE_ASSET (i64 (- fee_required (Z.of_nat (length (operations (transaction stx)))))) no_effect) as e0.
  generalize 0%nat as j. induction (operations (transaction stx)) as [|op ops IH]; intros j e0 Hs; cbn [ops_effect]; [by intros [= <-]|].
  destruct (op_effect _ _ _ _ _ _ _ _) as [e1|] eqn:E; [|done]. cbn [mbind option_bind]. apply IH. by eapply op_creates_fresh.
Qed.

(** Transactions leave committed values alone, and the accounts they create are new. *)
Lemma applied_committed l m db m1 db1 :
  db_ok db -> MemoryDatabase.uncommitted_db db = [] -> applied sig_check check_sigs checker db m l m1 db1 -> db_ok db1 ->
  MemoryDatabase.commitment_trie db1 = MemoryDatabase.commitment_trie db ->
  same_committed db db1 /\ trackers_wf db1 /\ NoDup (UserAccount.owner <$> MemoryDatabase.uncommitted_db db1) /\
  (forall id, id ∈ UserAccount.owner <$> MemoryDatabase.uncommitted_db db1 -> MemoryDatabase.user_id_to_idx_map db1 !! id = None) /\
  Forall (fun a : account => st_wf (UserAccount.seq_tracker a)) (MemoryDatabase.uncommitted_db db1).
Proof.
  intros Hok Hu [A1 A2 A3 A4 _ A6 _] Hok1 Et. destruct A6 as (ls & ps & Eu & Hls & Hps). rewrite Hu in Eu. cbn in Eu.
  assert (Eo : UserAccount.owner <$> ls = ps.*2.*1).
  { clear Eu Hps. induction Hls as [|a [e [id pk]] ls ps [Hs _] Hls IH]; [done|]. cbn. rewrite IH. f_equal. apply (shift_owner _ _ _ Hs). }
  assert (Hcr : ps.*2.*1 ≡ₚ created_by (effects sig_check check_sigs checker db m l)).
  { rewrite Hps. unfold creations_of, created_by. generalize (effects sig_check check_sigs checker db m l) as es.
    induction es as [|e es IH]; [done|]. cbn [mbind list_bind]. rewrite !fmap_app, IH. f_equiv. induction (created e) as [|c cs IHc]; [done|]. cbn. by rewrite IHc. }
  rewrite Eu, Eo. split_and!.
  - constructor; [done|done|]. apply Forall2_same_length_lookup. split; [done|]. intros i a b Ha Hb.
    destruct (A4 i a Ha) as (b' & Hb' & Hs & Hl & _). assert (b' = b) as -> by congruence.
    apply (shift_same_record _ _ _ Hs). by rewrite !st_produce_refines, Hl.
  - eapply Forall_impl; [apply Hok1|]. by intros a (_ & ? & _).
  - rewrite Hcr. apply A1.
  - intros id. rewrite Hcr, A2. intros (e & Hid & He)%list_elem_of_bind. apply list_elem_of_omap in He as (stx & _ & He).
    by apply (tx_creates_fresh _ _ _ _ He).
  - apply Forall_forall. intros a Ha. apply list_elem_of_lookup in Ha as [k Hk].
    destruct (Forall2_lookup_l _ _ _ _ _ Hls Hk) as (p & _ & _ & ->). cbn. apply st_init_refines.
Qed.
End Transactions.
