(* ===== verification/DatabaseReload.v ===== *)
(** * The account database and the disk (src/memory_database/memory_database.cc)

    Creating the database from a genesis list, writing it out as a whole, loading it
    after a restart, and going back to the persisted round while running. *)
From stdpp Require Import base gmap list strings.
From S2P Require Import Prelude Types PriceArith Asset SeqTracker Accounts AccountLmdb Database Offers DbView TxAtomicity BlockValidation CommitmentTrie.

Record MemoryDatabaseGenesisData := mkGenesis { id_list : list Z; pk_list : list PublicKey }.

Module DatabaseReload.
Import MemoryDatabase.
Section Reload.
Context {T : Type} `{SequenceTracker T} {CT : Type} `{MerkleTrie AccountCommitment CT} {L : Type} `{LMDBInstance L}.
Abbreviation DB := (MemoryDatabase.t T CT L).
Abbreviation account := (UserAccount.t T).
Variable shorthash : Z -> Z.

Definition set_index (d : DB) (m : gmap Z nat) : DB :=
  mk m (reserved_account_ids d) (database d) (uncommitted_db d) (commitment_trie d) (account_lmdb_instance d) (account_creation_thunks d).
Definition set_lmdb (d : DB) (l : AccountLMDB.t L) : DB :=
  mk (user_id_to_idx_map d) (reserved_account_ids d) (database d) (uncommitted_db d) (commitment_trie d) l (account_creation_thunks d).
(** [std::map::emplace] and [merge] keep an entry that is there. *)
Definition emplace (m : gmap Z nat) (id : Z) (i : nat) : gmap Z nat :=
  match m !! id with Some _ => m | None => <[id := i]> m end.

(** ** Genesis *)
(** [insert_lambda] for the account in slot [next_idx]. *)
Definition install_account (account_init_lambda : account -> account) (d : DB) (next_idx : nat) (id : Z) (pk : PublicKey) : result DB :=
  match database d !! next_idx with
  | None => Throw "dangling UserAccount pointer"
  | Some a =>
      let acct := account_init_lambda (UserAccount.set_owner a id pk 0) in
      let* c := account_commitment acct in
      Ok (set_trie (set_index (set_database d (<[next_idx := acct]> (database d))) (emplace (user_id_to_idx_map d) id next_idx))
            (trie_insert (commitment_trie d) id c))
  end.
Fixpoint install_accounts (account_init_lambda : account -> account) (d : DB) (next_idx : nat) (ids : list Z) (pks : list PublicKey)
    : result DB :=
  match ids, pks with
  | id :: ids, pk :: pks =>
      let* d := install_account account_init_lambda d next_idx id pk in install_accounts account_init_lambda d (S next_idx) ids pks
  | [], _ => Ok d
  | _, [] => Throw "vector index out of range"
  end.
(** The ranges of the parallel loop write different accounts. *)
Definition install_initial_accounts_and_commit (d : DB) (genesis_data : MemoryDatabaseGenesisData) (account_init_lambda : account -> account)
    : result DB :=
  if negb (length (database d) =? 0)%nat then Throw "database reinitialization attempted"
  else install_accounts account_init_lambda (set_database d (replicate (length (id_list genesis_data)) UserAccount.default_account)) 0
         (id_list genesis_data) (pk_list genesis_data).
(** The accounts of [init_clean]: [default_amount] of every asset, committed. *)
Definition genesis_account (num_assets : nat) (default_amount : Z) (user_account : account) : account :=
  UserAccount.commit (foldl (fun a i => UserAccount.transfer_available a (Z.of_nat i) default_amount) user_account (seq 0 num_assets)).

(** ** Writing everything *)
Fixpoint account_entries (l : list account) : result (list ThunkKVPair) :=
  match l with
  | [] => Ok []
  | a :: l => let* c := account_commitment a in let* q := account_entries l in Ok (mkThunkKVPair (UserAccount.owner a) (Some c) :: q)
  end.
Definition persist_lmdb (d : DB) (current_block_number : Z) : result DB :=
  let* kvs := account_entries (database d) in
  let* l := AccountLMDB.persist_thunks shorthash (account_lmdb_instance d) [mkThunk kvs current_block_number] current_block_number true in
  Ok (set_lmdb d l).

(** ** Loading everything *)
(** [_produce_state_commitment]: every account's record goes into the trie. *)
Fixpoint produce_records (l : list account) (tr : CT) : result CT :=
  match l with
  | [] => Ok tr
  | a :: l => let* c := account_commitment a in produce_records l (trie_insert tr (UserAccount.owner a) c)
  end.
Definition _produce_state_commitment (d : DB) : result (DB * list Z) :=
  let* tr := produce_records (database d) (commitment_trie d) in Ok (set_trie d tr, trie_hash tr).

(** What one cursor visits. *)
Fixpoint load_entries (l : list (Z * AccountCommitment)) (d : DB) : result DB :=
  match l with
  | [] => Ok d
  | (account_owner, commitment) :: l =>
      if negb (account_owner =? ac_owner commitment) then Throw "key read error"
      else
        let* acct := UserAccount.of_commitment commitment in
        load_entries l (set_index (set_database d (database d ++ [acct]))
          (emplace (user_id_to_idx_map d) (ac_owner commitment) (length (database d))))
  end.
(** [contents]: what the cursors of the shards list. *)
Definition load_lmdb_contents_to_memory (d : DB) (contents : list (list (Z * AccountCommitment))) : result DB :=
  let* d := load_entries (concat contents) d in
  let* q := _produce_state_commitment d in Ok q.1.

(** ** Going back to the persisted round *)
(** One entry of a thunk: the account is read back from the disk. *)
Definition reload_entry (d : DB) (kv : ThunkKVPair) : result DB :=
  let* res := AccountLMDB.rtxn_get shorthash (account_lmdb_instance d) (AccountLmdb.key kv) in
  match res with
  | None => Ok d
  | Some commitment =>
      match user_id_to_idx_map d !! AccountLmdb.key kv with
      | None => Throw "invalid lookup to user_id_to_idx_map!"
      | Some i => let* a := UserAccount.of_commitment commitment in Ok (set_database d (<[i := a]> (database d)))
      end
  end.
Fixpoint reload_entries (l : list ThunkKVPair) (d : DB) : result DB :=
  match l with [] => Ok d | kv :: l => let* d := reload_entry d kv in reload_entries l d end.
(** The thunks, the last one first. *)
Fixpoint reload_thunks (l : list DBPersistenceThunk) (expected_persisted_round_number : Z) (d : DB) : result DB :=
  match l with
  | [] => Ok d
  | th :: l =>
      let* d := if expected_persisted_round_number <? thunk_block_number th then reload_entries (kvs th) d else Ok d in
      reload_thunks l expected_persisted_round_number d
  end.
Definition clear_persistence_thunks_and_reload (d : DB) (persistence_thunks : list DBPersistenceThunk) (expected_persisted_round_number : Z)
    : result (DB * list DBPersistenceThunk) :=
  let* r := AccountLMDB.assert_snapshot_and_get_persisted_round_number (account_lmdb_instance d) in
  if negb (expected_persisted_round_number =? r) then Throw "mismatch between expected round in db and actual persisted round in db"
  else
    let* d := rollback_new_accounts_ d expected_persisted_round_number in
    let* d := reload_thunks (reverse persistence_thunks) expected_persisted_round_number d in
    Ok (d, []).
End Reload.
End DatabaseReload.

(** ** Properties *)
Module ReloadProps.
Import MemoryDatabase DatabaseReload.
Section Props.
Context {T : Type} `{SequenceTrackerRefines T} {CT : Type} `{MerkleTrie AccountCommitment CT} {L : Type} `{LMDBInstance L}.
Abbreviation DB := (MemoryDatabase.t T CT L).
Abbreviation account := (UserAccount.t T).
Variable shorthash : Z -> Z.
Implicit Types (d : DB).

Definition storable (a : account) : Prop := UserAccount.wf a /\ st_wf (UserAccount.seq_tracker a) /\ recordable a.
Lemma record_reloads a : storable a -> UserAccount.of_commitment (record_of a) = Ok (UserAccount.rollback a).
Proof.
  intros (Hw & Ht & Hr). apply (AccountProps.reload_is_rollback a 255); [done|done|done|lia|].
  by apply UserAccount.produce_commitment_spec.
Qed.
Lemma rollback_same_record a : st_wf (UserAccount.seq_tracker a) -> record_of (UserAccount.rollback a) = record_of a.
Proof.
  intros Ht. unfold record_of. cbn [UserAccount.rollback UserAccount.owned_assets UserAccount.owner UserAccount.pk UserAccount.seq_tracker].
  rewrite !st_produce_refines. destruct (st_rollback_refines _ Ht) as [_ ->]. f_equal. rewrite imap_fmap. by apply imap_ext.
Qed.

(** *** The cursor *)
Definition entry_of (a : account) : Z * AccountCommitment := (UserAccount.owner a, record_of a).
Lemma load_accounts_spec l d : Forall storable l -> NoDup (UserAccount.owner <$> l) ->
  (forall a, a ∈ l -> user_id_to_idx_map d !! UserAccount.owner a = None) ->
  index_wf (user_id_to_idx_map d) (database d) ->
  exists m, load_entries (entry_of <$> l) d = Ok (set_index (set_database d (database d ++ (UserAccount.rollback <$> l))) m) /\
    index_wf m (database d ++ (UserAccount.rollback <$> l)).
Proof.
  revert d. induction l as [|a l IH]; intros d Hl Hn Hf Hi.
  { exists (user_id_to_idx_map d). cbn. rewrite app_nil_r. split; [by destruct d|done]. }
  inversion_clear Hl as [|? ? Ha Hl']. rewrite (fmap_cons entry_of). rewrite (fmap_cons UserAccount.owner) in Hn.
  apply NoDup_cons in Hn as [Hna Hn]. cbn [entry_of load_entries].
  change (ac_owner (record_of a)) with (UserAccount.owner a). rewrite Z.eqb_refl. cbn [negb].
  rewrite (record_reloads a Ha). cbn [result_bind]. unfold emplace. rewrite (Hf a) by (by left).
  set (d1 := set_index _ _).
  destruct (IH d1) as (m & E & Hm); [done|done| | |].
  - intros b Hb. cbn. rewrite lookup_insert_ne; [apply Hf; by right|]. intros Eo. apply Hna. rewrite Eo. by apply list_elem_of_fmap_2.
  - change (index_wf (<[UserAccount.owner (UserAccount.rollback a) := length (database d)]> (user_id_to_idx_map d))
      (database d ++ [UserAccount.rollback a])). apply index_wf_snoc; [done|]. apply (Hf a). by left.
  - exists m. cbn [d1 set_index set_database database] in E, Hm. rewrite <- app_assoc in E. rewrite <- app_assoc in Hm.
    rewrite (fmap_cons UserAccount.rollback). split; [exact E|exact Hm].
Qed.

(** *** The trie *)
Lemma produce_records_spec l tr : Forall recordable l -> NoDup (UserAccount.owner <$> l) ->
  exists tr', produce_records l tr = Ok tr' /\
    (forall a, a ∈ l -> trie_map tr' !! UserAccount.owner a = Some (record_of a)) /\
    (forall id, id ∉ UserAccount.owner <$> l -> trie_map tr' !! id = trie_map tr !! id).
Proof.
  revert tr. induction l as [|a l IH]; intros tr Hl Hn; cbn [produce_records].
  { exists tr. split_and!; [done|by intros a ?%elem_of_nil|done]. }
  inversion_clear Hl as [|? ? Ha Hl']. rewrite (fmap_cons UserAccount.owner) in Hn. setoid_rewrite (fmap_cons UserAccount.owner).
  apply NoDup_cons in Hn as [Hna Hn]. rewrite (account_commitment_record a Ha). cbn [result_bind].
  destruct (IH (trie_insert tr (UserAccount.owner a) (record_of a)) Hl' Hn) as (tr' & E & H1' & H2'). exists tr'. split_and!; [done| |].
  - intros b [->|Hb]%elem_of_cons; [|by apply H1']. by rewrite H2', trie_map_insert, lookup_insert_eq.
  - intros id [Hne Hid]%not_elem_of_cons. by rewrite H2', trie_map_insert, lookup_insert_ne.
Qed.

Lemma owners_nodup d : MemoryDatabase.wf d -> NoDup (UserAccount.owner <$> database d).
Proof.
  intros [Hi _]. apply NoDup_alt. intros i j id Ei Ej.
  rewrite list_lookup_fmap in Ei. rewrite list_lookup_fmap in Ej.
  destruct (database d !! i) as [a|] eqn:Ea; [|done]. destruct (database d !! j) as [b|] eqn:Eb; [|done].
  injection Ei as Ei. injection Ej as Ej. assert (user_id_to_idx_map d !! id = Some i) by (apply Hi; eauto).
  assert (user_id_to_idx_map d !! id = Some j) by (apply Hi; eauto). congruence.
Qed.

(** A database in which nothing was loaded yet. *)
Definition unloaded d : Prop := user_id_to_idx_map d = ∅ /\ database d = [] /\ trie_map (commitment_trie d) = ∅.

(** C30.  A restart restores the state.  When the disk holds the record of every account, in
    any shards and any order, loading it gives every account with its committed
    balances and sequence number, an index and a trie that fit them, and the root hash
    from before. *)
Theorem restart_restores_state d d0 contents :
  MemoryDatabase.wf d -> trie_current d -> Forall storable (database d) -> unloaded d0 ->
  concat contents ≡ₚ entry_of <$> database d ->
  exists d', load_lmdb_contents_to_memory d0 contents = Ok d' /\
    database d' ≡ₚ UserAccount.rollback <$> database d /\
    MemoryDatabase.wf d' /\ trackers_wf d' /\ trie_current d' /\
    trie_hash (commitment_trie d') = trie_hash (commitment_trie d).
Proof.
  intros Hwf Hcur Hst (E0 & E1 & E2) Hc. apply Permutation_map_inv in Hc as (l & Ec & Hl).
  assert (Hst' : Forall storable l) by (by rewrite <- Hl).
  assert (Hn : NoDup (UserAccount.owner <$> l)) by (rewrite <- Hl; by apply owners_nodup).
  unfold load_lmdb_contents_to_memory. change (map entry_of l) with (entry_of <$> l) in Ec. rewrite Ec.
  destruct (load_accounts_spec l d0 Hst' Hn) as (m & -> & Hm).
  { intros a _. by rewrite E0. }
  { rewrite E0, E1. intros id i. by split; [|intros (? & ? & _)]. }
  cbn [result_bind]. unfold _produce_state_commitment. cbn [set_index set_database database commitment_trie] in *. rewrite E1 in *. cbn [app] in *.
  assert (Eo : UserAccount.owner <$> (UserAccount.rollback <$> l) = UserAccount.owner <$> l).
  { rewrite <- list_fmap_compose. by apply list_fmap_ext. }
  destruct (produce_records_spec (UserAccount.rollback <$> l) (commitment_trie d0)) as (tr & -> & T1 & T2).
  { apply Forall_fmap. eapply Forall_impl; [exact Hst'|]. intros a (_ & _ & Hr). unfold recordable in *. cbn. by rewrite length_fmap. }
  { by rewrite Eo. }
  assert (Hrec : forall a, a ∈ l -> trie_map tr !! UserAccount.owner a = Some (record_of a)).
  { intros a Ha. specialize (T1 (UserAccount.rollback a) ltac:(by apply list_elem_of_fmap_2)).
    rewrite rollback_same_record in T1; [exact T1|]. rewrite Forall_forall in Hst'. by apply Hst'. }
  assert (Hno : forall id, id ∉ UserAccount.owner <$> l -> trie_map tr !! id = None).
  { intros id Hid. by rewrite T2, E2, ?lookup_empty by (by rewrite Eo). }
  cbn [result_bind]. eexists. split; [reflexivity|]. cbn [fst set_trie set_index set_database database commitment_trie user_id_to_idx_map].
  assert (Htr : trie_map tr = trie_map (commitment_trie d)).
  { apply map_eq. intros id. destruct (decide (id ∈ UserAccount.owner <$> l)) as [Hid|Hid].
    - apply list_elem_of_fmap in Hid as (a & -> & Ha). rewrite (Hrec a Ha). symmetry.
      rewrite <- Hl in Ha. apply list_elem_of_lookup in Ha as [i Hi]. destruct Hwf as [Hidx _].
      apply (Hcur _ i a); [apply Hidx; by exists a|done|]. by apply (Forall_lookup_1 _ _ _ _ Hst Hi).
    - rewrite (Hno id Hid). destruct (trie_map (commitment_trie d) !! id) as [c|] eqn:E; [|done]. exfalso. apply Hid.
      destruct Hwf as [Hidx Htd]. destruct (proj1 (Htd id)) as [i Hi]; [by eexists|]. apply Hidx in Hi as (a & Ha & <-).
      apply list_elem_of_fmap_2. rewrite <- Hl. by eapply list_elem_of_lookup_2. }
  split_and!.
  - by rewrite Hl.
  - constructor; [done|]. intros id. cbn. split.
    + intros Hs. destruct (decide (id ∈ UserAccount.owner <$> l)) as [Hid|Hid]; [|by rewrite Hno in Hs by done; destruct Hs].
      rewrite <- Eo in Hid. apply list_elem_of_fmap in Hid as (a & -> & Ha). apply list_elem_of_lookup in Ha as [i Hi].
      exists i. apply Hm. by exists a.
    + intros [i Hi]. apply Hm in Hi as (a & Ha & <-). rewrite (T1 a); [by eexists|]. by eapply list_elem_of_lookup_2.
  - apply Forall_fmap. eapply Forall_impl; [exact Hst'|]. intros a (_ & Ht & _). cbn. by destruct (st_rollback_refines _ Ht).
  - intros id i a Hi Ha _. cbn in *. apply Hm in Hi as (b & Hb & <-). assert (b = a) as -> by congruence. apply T1.
    by eapply list_elem_of_lookup_2.
  - by apply trie_hash_map.
Qed.
(** *** Going back *)
Lemma index_wf_take m (l : list account) k : index_wf m l ->
  index_wf (foldl (fun m a => delete (UserAccount.owner a) m) m (drop k l)) (take k l).
Proof.
  intros Hi id i. rewrite lookup_foldl_delete. case_decide as Hid.
  - split; [done|]. intros (a & [Ha Hk]%lookup_take_Some & Eo). apply list_elem_of_fmap in Hid as (b & -> & Hb).
    apply list_elem_of_lookup in Hb as [j Hj]. rewrite lookup_drop in Hj.
    assert (m !! UserAccount.owner b = Some i) by (apply Hi; eauto).
    assert (m !! UserAccount.owner b = Some (k + j)%nat) by (apply Hi; eauto). assert (i = (k + j)%nat) by congruence. lia.
  - rewrite (Hi id i). split; intros (a & Ha & Eo); exists a; (split; [|done]).
    + apply lookup_take_Some. split; [done|]. destruct (decide (i < k)%nat) as [|Hge]; [done|]. exfalso. apply Hid. rewrite <- Eo.
      apply list_elem_of_fmap_2. apply list_elem_of_lookup. exists (i - k)%nat. rewrite lookup_drop. by replace (k + (i - k))%nat with i by lia.
    + by apply lookup_take_Some in Ha as [Ha _].
Qed.

(** What undoing the creation of accounts keeps of those that stay. *)
Record survivors (d d' : DB) : Prop := {
  sv_index : index_wf (user_id_to_idx_map d') (database d');
  sv_lmdb : account_lmdb_instance d' = account_lmdb_instance d;
  sv_old id i : user_id_to_idx_map d' !! id = Some i -> user_id_to_idx_map d !! id = Some i;
  sv_trie id i : user_id_to_idx_map d' !! id = Some i -> trie_map (commitment_trie d') !! id = trie_map (commitment_trie d) !! id
}.
Lemma rollback_survivors ths kept block d d' :
  index_wf (user_id_to_idx_map d) (database d) -> rollback_loop ths kept block d = Ok d' -> survivors d d'.
Proof.
  revert kept d. induction ths as [|th ths IH]; intros kept d Hi E; cbn [rollback_loop] in E; [by injection E as <-|].
  destruct (_ <? _); [|by apply (IH _ _ Hi) in E]. apply result_bind_Ok in E as (d1 & E1 & E). unfold undo_creation in E1.
  destruct (decide _); [done|]. injection E1 as <-. rewrite forget_owners in E.
  apply IH in E; [|by apply index_wf_take]. destruct E as [S1 S2 S3 S4].
  cbn [account_lmdb_instance set_database commitment_trie user_id_to_idx_map] in *.
  assert (Hin : forall id i, user_id_to_idx_map d' !! id = Some i -> user_id_to_idx_map d !! id = Some i /\
    id ∉ UserAccount.owner <$> drop (length (database d) - Z.to_nat (num_accounts_created th)) (database d)).
  { intros id i Hid. apply S3 in Hid. rewrite lookup_foldl_delete in Hid. by case_decide. }
  constructor; [done|done|intros id i Hid; by apply Hin|]. intros id i Hid.
  rewrite (S4 id i Hid), trie_map_foldl_deletion, lookup_foldl_delete. rewrite decide_False; [done|]. by apply (Hin id i).
Qed.

(** Reading accounts back changes only their slots. *)
Lemma reload_entry_spec d kv d' : reload_entry shorthash d kv = Ok d' ->
  user_id_to_idx_map d' = user_id_to_idx_map d /\ commitment_trie d' = commitment_trie d /\
  account_lmdb_instance d' = account_lmdb_instance d /\
  (database d' = database d /\ AccountLMDB.rtxn_get shorthash (account_lmdb_instance d) (AccountLmdb.key kv) = Ok None \/
   exists c i a, AccountLMDB.rtxn_get shorthash (account_lmdb_instance d) (AccountLmdb.key kv) = Ok (Some c) /\
     user_id_to_idx_map d !! AccountLmdb.key kv = Some i /\ UserAccount.of_commitment c = Ok a /\ database d' = <[i := a]> (database d)).
Proof.
  unfold reload_entry. intros E. apply result_bind_Ok in E as ([c|] & Ec & E); [|injection E as <-; split_and!; [done|done|done|by left]].
  destruct (user_id_to_idx_map d !! AccountLmdb.key kv) as [i|] eqn:Ei; [|done]. apply result_bind_Ok in E as (a & Ea & [= <-]).
  split_and!; [done|done|done|]. right. by exists c, i, a.
Qed.

Lemma reload_thunks_index l r d d' : reload_thunks shorthash l r d = Ok d' -> user_id_to_idx_map d' = user_id_to_idx_map d.
Proof.
  revert d. induction l as [|th l IH]; intros d E; cbn [reload_thunks] in E; [by injection E as <-|].
  apply result_bind_Ok in E as (d1 & E1 & E). rewrite (IH _ E). destruct (_ <? _); [|by injection E1 as <-]. clear E IH.
  revert d E1. induction (kvs th) as [|kv l' IH]; intros d E; cbn [reload_entries] in E; [by injection E as <-|].
  apply result_bind_Ok in E as (d2 & E2 & E). rewrite (IH _ E). by destruct (reload_entry_spec _ _ _ E2) as (-> & _).
Qed.

Section Account.
Context (id : Z) (c : AccountCommitment) (a : account) (i : nat).
Hypothesis loads : UserAccount.of_commitment c = Ok a.
(** The account has a slot of its own and its record is on the disk. *)
Record on_disk d : Prop := {
  od_slot : user_id_to_idx_map d !! id = Some i;
  od_own id' : user_id_to_idx_map d !! id' = Some i -> id' = id;
  od_length : (i < length (database d))%nat;
  od_disk : AccountLMDB.rtxn_get shorthash (account_lmdb_instance d) id = Ok (Some c)
}.
Lemma reload_entry_account d kv d' : on_disk d -> reload_entry shorthash d kv = Ok d' ->
  on_disk d' /\ commitment_trie d' = commitment_trie d /\ user_id_to_idx_map d' = user_id_to_idx_map d /\
  (AccountLmdb.key kv = id -> database d' !! i = Some a) /\ (database d !! i = Some a -> database d' !! i = Some a).
Proof using loads.
  intros [O1 O2 O3 O4] E. destruct (reload_entry_spec _ _ _ E) as (Em & Et & El & Hd).
  destruct Hd as [[Ed Hn]|(c' & j & b & Ec & Ej & Eb & Ed)].
  - split; [|split_and!; [done|done| |by rewrite Ed]]. { constructor; rewrite ?Em, ?Ed, ?El; done. }
    intros Ek. rewrite Ek, O4 in Hn. done.
  - split; [|split_and!; [done|done| |]].
    + constructor; rewrite ?Em, ?El, ?Ed, ?length_insert; done.
    + intros Ek. rewrite Ek in *. assert (c' = c) as -> by congruence. assert (b = a) as -> by congruence. assert (j = i) as -> by congruence.
      rewrite Ed. by apply list_lookup_insert_eq.
    + intros Ha. rewrite Ed. destruct (decide (j = i)) as [->|Hne]; [|by rewrite list_lookup_insert_ne].
      assert (Ek : AccountLmdb.key kv = id) by by apply O2. rewrite Ek in Ec. assert (c' = c) as -> by congruence.
      assert (b = a) as -> by congruence. by apply list_lookup_insert_eq.
Qed.
Lemma reload_entries_account l d d' : on_disk d -> reload_entries shorthash l d = Ok d' ->
  on_disk d' /\ commitment_trie d' = commitment_trie d /\ user_id_to_idx_map d' = user_id_to_idx_map d /\
  (id ∈ AccountLmdb.key <$> l -> database d' !! i = Some a) /\ (database d !! i = Some a -> database d' !! i = Some a).
Proof using loads.
  revert d. induction l as [|kv l IH]; intros d Ho E; cbn [reload_entries] in E.
  { injection E as <-. split_and!; try done. by intros ?%elem_of_nil. }
  apply result_bind_Ok in E as (d1 & E1 & E). destruct (reload_entry_account _ _ _ Ho E1) as (Ho1 & A1 & A2 & A3 & A4).
  destruct (IH _ Ho1 E) as (Ho' & B1 & B2 & B3 & B4). split_and!; [done|congruence|congruence| |by auto].
  rewrite fmap_cons. intros [Ek|Hin]%elem_of_cons; [|by apply B3]. apply B4, A3. by symmetry.
Qed.
Lemma reload_thunks_account l r d d' : on_disk d -> reload_thunks shorthash l r d = Ok d' ->
  on_disk d' /\ commitment_trie d' = commitment_trie d /\ user_id_to_idx_map d' = user_id_to_idx_map d /\
  (Exists (fun th => r < thunk_block_number th /\ id ∈ AccountLmdb.key <$> kvs th) l -> database d' !! i = Some a) /\
  (database d !! i = Some a -> database d' !! i = Some a).
Proof using loads.
  revert d. induction l as [|th l IH]; intros d Ho E; cbn [reload_thunks] in E.
  { injection E as <-. split_and!; try done. by intros ?%Exists_nil. }
  apply result_bind_Ok in E as (d1 & E1 & E).
  assert (on_disk d1 /\ commitment_trie d1 = commitment_trie d /\ user_id_to_idx_map d1 = user_id_to_idx_map d /\
    (r < thunk_block_number th /\ id ∈ AccountLmdb.key <$> kvs th -> database d1 !! i = Some a) /\
    (database d !! i = Some a -> database d1 !! i = Some a)) as (Ho1 & A1 & A2 & A3 & A4).
  { destruct (Z.ltb_spec r (thunk_block_number th)).
    - destruct (reload_entries_account _ _ _ Ho E1) as (? & ? & ? & A3 & ?). split_and!; try done. intros [_ Hin]. by apply A3.
    - injection E1 as <-. split_and!; try done. intros [? _]. lia. }
  destruct (IH _ Ho1 E) as (Ho' & B1 & B2 & B3 & B4). split_and!; [done|congruence|congruence| |by auto].
  intros [Hth|Hl]%Exists_cons; [by apply B4, A3|by apply B3].
Qed.
End Account.

(** Going back restores accounts but not their records.  Every account that was
    modified since the persisted round gets the values on disk again, but the record in
    the commitment trie stays the one of the undone blocks: when the two differ, the
    root hash no longer commits to the accounts. *)
Lemma rewind_leaves_trie_stale d thunks r d' thunks' id i c a :
  MemoryDatabase.wf d -> clear_persistence_thunks_and_reload shorthash d thunks r = Ok (d', thunks') ->
  user_id_to_idx_map d' !! id = Some i ->
  Exists (fun th => r < thunk_block_number th /\ id ∈ AccountLmdb.key <$> kvs th) thunks ->
  AccountLMDB.rtxn_get shorthash (account_lmdb_instance d) id = Ok (Some c) -> UserAccount.of_commitment c = Ok a ->
  database d' !! i = Some a /\ trie_map (commitment_trie d') !! id = trie_map (commitment_trie d) !! id /\
  (recordable a -> trie_map (commitment_trie d) !! id <> Some (record_of a) -> ~ trie_current d').
Proof.
  intros [Hi _] E Hid Hth Hdisk Ha. unfold clear_persistence_thunks_and_reload in E. apply result_bind_Ok in E as (r0 & _ & E).
  destruct (negb _); [done|]. apply result_bind_Ok in E as (d1 & E1 & E). apply result_bind_Ok in E as (d2 & E2 & [= <- <-]).
  unfold rollback_new_accounts_ in E1. apply result_bind_Ok in E1 as (d0 & E0 & [= <-]).
  destruct (rollback_survivors _ _ _ _ _ Hi E0) as [S1 S2 S3 S4].
  set (d1 := clear_internal_data_structures d0) in *.
  assert (Em : user_id_to_idx_map d2 = user_id_to_idx_map d1) by (by eapply reload_thunks_index).
  rewrite Em in Hid. change (user_id_to_idx_map d1) with (user_id_to_idx_map d0) in Hid.
  destruct (reload_thunks_account id c a i Ha (reverse thunks) r d1 d2) as (_ & Et & _ & Hr & _); [|done|].
  { constructor; [done| | |by cbn; rewrite S2].
    - intros id' Hid'. apply S1 in Hid as (b & Hb & <-), Hid' as (b' & Hb' & <-). congruence.
    - apply S1 in Hid as (b & Hb & _). by eapply lookup_lt_Some. }
  assert (Hd : database d2 !! i = Some a).
  { apply Hr. apply Exists_exists in Hth as (th & Hin & Hth). apply Exists_exists. exists th. split; [by apply elem_of_reverse|done]. }
  assert (Htr : trie_map (commitment_trie d2) !! id = trie_map (commitment_trie d) !! id) by (rewrite Et; by apply (S4 id i)).
  split_and!; [done|done|]. intros Hrec Hne Hcur. apply Hne. rewrite <- Htr. apply (Hcur id i a); [|done|done]. by rewrite Em.
Qed.
End Props.
End ReloadProps.
