(* ===== verification/Frames.v ===== *)
(** * What transactions and clearing never touch

    Handlers reach the database only through a view, and clearing only through
    [transfer_available]: a projection of the database that those operations keep is
    the same after a whole transaction, a run of the workers or a clearing pass. *)
From stdpp Require Import base gmap list strings.
From S2P Require Import Prelude Types PriceArith Offers Clearing Asset SeqTracker Accounts AccountLmdb Database DbView SerialManager TxProcessor Demand Orderbook Manager Mempool BlockProducer BlockValidator.

(** Opens a computation that returned. *)
Ltac ok_inv :=
  repeat match goal with
  | E : Ok _ = Ok _ |- _ => injection E; clear E; intros; subst
  | E : Throw _ = Ok _ |- _ => discriminate E
  | E : result_bind _ _ = Ok _ |- _ =>
      let r := fresh "r" in let F := fresh "E" in apply result_bind_Ok in E as (r & F & E)
  | E : (match ?x with _ => _ end) = Ok _ |- _ => destruct x eqn:?
  end.

(** ** Transactions *)
Section Handlers.
Context {D V LG S : Type} `{DatabaseView D V} `{SerialAccountModificationLog LG} (SM : SerialManager D V LG S).
Context {X : Type} (f : D -> X).

Record view_keeps : Prop := {
  vk_create d v id pk d' v' s p : dv_create_new_account d v id pk = Ok (d', v', s, p) -> f d' = f d;
  vk_reserve d v p n d' v' s : dv_reserve_sequence_number d v p n = Ok (d', v', s) -> f d' = f d;
  vk_escrow d v p a x d' v' s : dv_escrow d v p a x = Ok (d', v', s) -> f d' = f d;
  vk_transfer d v p a x d' v' s : dv_transfer_available d v p a x = Ok (d', v', s) -> f d' = f d;
  vk_commit d v : f (dv_commit d v) = f d
}.
Hypothesis keeps : view_keeps.
Hypothesis add_keeps : forall s i o d m lg s' d' m' lg', sm_add_offer s i o d m lg = Ok (s', d', m', lg') -> f d' = f d.

Implicit Types h : handler (D := D) (V := V) (LG := LG) (S := S).

Lemma view_transfer_keeps h p a x q : view_transfer_available h p a x = Ok q -> f (hs_db q.1) = f (hs_db h).
Proof using keeps. unfold view_transfer_available. intros E. ok_inv. destruct r as [[d v] s]. by apply (vk_transfer keeps) in E0. Qed.
Lemma view_escrow_keeps h p a x q : view_escrow h p a x = Ok q -> f (hs_db q.1) = f (hs_db h).
Proof using keeps. unfold view_escrow. intros E. ok_inv. destruct r as [[d v] s]. by apply (vk_escrow keeps) in E0. Qed.
Lemma and_then_keeps (d : D) x k q :
  and_then x k = Ok q -> (forall q, x = Ok q -> f (hs_db q.1) = f d) -> (forall h q, k h = Ok q -> f (hs_db q.1) = f (hs_db h)) ->
  f (hs_db q.1) = f d.
Proof using.
  unfold and_then. intros E Hx Hk. apply result_bind_Ok in E as (r & Er & E). destruct (decide _).
  - rewrite (Hk _ _ E). by apply Hx.
  - injection E as <-. by apply Hx.
Qed.

Lemma process_operation_keeps h op q : process_operation SM h op = Ok q -> f (hs_db q.1) = f (hs_db h).
Proof using keeps add_keeps.
  intros E. destruct op; cbn [process_operation] in E.
  - unfold process_create_account in E. destruct (_ <? _); [by ok_inv|]. apply result_bind_Ok in E as ([[[d v] s] p] & Ec & E).
    apply (vk_create keeps) in Ec. cbn [and_then] in E. refine (and_then_keeps (hs_db h) _ _ _ E _ _).
    { intros q' Eq. by ok_inv. }
    clear E. intros h1 q1 E. refine (and_then_keeps (hs_db h1) _ _ _ E (view_transfer_keeps _ _ _ _) _).
    clear E. intros h2 q2 E. destruct (negb _); [by ok_inv|]. destruct p; [|done].
    refine (and_then_keeps (hs_db h2) _ _ _ E (view_transfer_keeps _ _ _ _) _). clear E. intros h3 q3 E. by ok_inv.
  - unfold process_create_sell_offer in E. ok_inv; try done.
    all: match goal with A : sm_add_offer _ _ _ _ _ _ = Ok _ |- _ => apply add_keeps in A end.
    all: match goal with A : view_escrow _ _ _ _ = Ok _ |- _ => apply view_escrow_keeps in A end; cbn in *; congruence.
  - unfold process_cancel_sell_offer in E. ok_inv; try done.
    all: match goal with A : view_escrow _ _ _ _ = Ok _ |- _ => apply view_escrow_keeps in A end; cbn in *; congruence.
  - unfold process_payment in E. destruct (negb _); [by ok_inv|]. destruct (dv_lookup_user _ _ _); [|by ok_inv].
    refine (and_then_keeps (hs_db h) _ _ _ E (view_transfer_keeps _ _ _ _) _).
    clear E. intros h1 q1 E. refine (and_then_keeps (hs_db h1) _ _ _ E (view_transfer_keeps _ _ _ _) _).
    clear E. intros h2 q2 E. by ok_inv.
  - unfold process_money_printer in E. destruct (_ <? _); [by ok_inv|]. by apply view_transfer_keeps in E.
  - by ok_inv.
Qed.

Lemma process_operations_keeps ops h i q : process_operations SM h i ops = Ok q -> f (hs_db q.1.1) = f (hs_db h).
Proof using keeps add_keeps.
  revert h i. induction ops as [|op ops IH]; intros h i E; cbn [process_operations] in E; [by ok_inv|].
  apply result_bind_Ok in E as (r & Er & E). apply process_operation_keeps in Er. destruct (decide _).
  - apply IH in E. rewrite E, Er. done.
  - by ok_inv.
Qed.
End Handlers.

(** ** What only blocks change: the commitment trie, the disk, the log of created
    accounts *)
Section Database.
Context {T : Type} `{SequenceTracker T} {CT : Type} `{MerkleTrie AccountCommitment CT} {L : Type} `{LMDBInstance L}.
Context {LG : Type} `{ModifiedAccounts LG}.
Context {TR : Type} `{OfferTrie TR} {M : Type} `{MainManager TR M} `{BigEndian}.
Variable sig_check : Transaction -> list Z -> PublicKey -> bool.
Variable check_sigs : bool.
Variable checker : OrderbookStateCommitmentChecker.
Abbreviation DB := (MemoryDatabase.t T CT L).
Abbreviation View := (UnbufferedMemoryDatabaseView (T := T)).
Abbreviation Buffer := (ValidatingSerialManager (TR := TR) (M := M)).
Abbreviation VSM := (ValidatingManager (TR := TR) (M := M) (D := DB) (V := View) (LG := LG) true).
Implicit Types (d : DB).

Definition block_frame d : CT * AccountLMDB.t L * list AccountCreationThunk :=
  (MemoryDatabase.commitment_trie d, MemoryDatabase.account_lmdb_instance d, MemoryDatabase.account_creation_thunks d).

Lemma on_ptr_frame {R} d v p (g : UserAccount.t T -> UserAccount.t T * R) q : on_ptr d v p g = Ok q -> block_frame q.1.1 = block_frame d.
Proof.
  destruct p as [i|id]; cbn [on_ptr].
  - unfold MemoryDatabase.on_account. intros E. by ok_inv.
  - intros E. by ok_inv.
Qed.
Lemma create_frame d v id pk : block_frame (create_new_account d v id pk).1.1.1 = block_frame d.
Proof. unfold create_new_account, MemoryDatabase.reserve_account_creation. by repeat case_match; simplify_eq/=. Qed.
Lemma creation_commit_frame d v : block_frame (creation_commit d v) = block_frame d.
Proof.
  unfold creation_commit. set (d1 := foldl _ d _).
  assert (E1 : block_frame d1 = block_frame d).
  { unfold d1. clear d1. generalize (new_accounts v) as l. intros l. revert d. induction l as [|a l IH]; intros d; [done|]. cbn [foldl]. by rewrite IH. }
  rewrite <- E1. clearbody d1. clear E1 d. generalize (reservations v) as l. intros l. revert d1. induction l as [|[p n] l IH]; intros d1; [done|].
  cbn [foldl]. rewrite IH. by destruct p.
Qed.

Lemma unbuffered_keeps : view_keeps (D := DB) (V := View) block_frame.
Proof.
  constructor.
  - intros d v id pk d' v' s p E. cbn in E. pose proof (create_frame d (base v) id pk) as Ef.
    destruct (create_new_account d (base v) id pk) as [[[d1 c] s1] p1]. by injection E as <- _ _ _.
  - intros d v p n d' v' s E. cbn in E. unfold creation_reserve_sequence_number in E.
    ok_inv; match goal with A : on_ptr _ _ _ _ = Ok _ |- _ => by apply on_ptr_frame in A end.
  - intros d v p a x d' v' s E. cbn in E. unfold unbuffered_escrow, unbuffered_op in E. ok_inv. by apply on_ptr_frame in E0.
  - intros d v p a x d' v' s E. cbn in E. unfold unbuffered_transfer_available, unbuffered_op in E. ok_inv. by apply on_ptr_frame in E0.
  - intros d v. apply creation_commit_frame.
Qed.

Lemma clear_at_once_frame (s : Buffer) i o d (m : OperationMetadata View) (lg : LG) s' d' m' lg' :
  clear_at_once s i o d m lg = Ok (s', d', m', lg') -> block_frame d' = block_frame d.
Proof.
  unfold clear_at_once, clear_offer_full. intros E. ok_inv.
  match goal with A : dv_transfer_available _ _ _ _ _ = Ok ?r |- _ => destruct r as [[d1 v1] s1]; apply (vk_transfer _ unbuffered_keeps) in A end.
  done.
Qed.
Lemma validating_add_frame (s : Buffer) i o d m lg s' d' m' lg' :
  sm_add_offer (SerialManager := VSM) s i o d m lg = Ok (s', d', m', lg') -> block_frame d' = block_frame d.
Proof.
  cbn [sm_add_offer ValidatingManager]. unfold validating_add_offer. intros E. ok_inv; try done; by apply clear_at_once_frame in E.
Qed.

Lemma validate_transaction_frame (v : View) (s : Buffer) d stx stats lg q :
  validate_transaction sig_check check_sigs VSM v s d stx stats lg = Ok q -> block_frame q.1.1.1.2 = block_frame d.
Proof.
  unfold validate_transaction. intros E. ok_inv; try done.
  all: repeat match goal with
    | A : dv_reserve_sequence_number _ _ _ _ = Ok _ |- _ => apply (vk_reserve _ unbuffered_keeps) in A
    | A : dv_transfer_available _ _ _ _ _ = Ok _ |- _ => apply (vk_transfer _ unbuffered_keeps) in A
    | A : process_operations _ _ _ _ = Ok _ |- _ =>
        apply (process_operations_keeps VSM block_frame unbuffered_keeps validating_add_frame) in A
    end.
  all: cbn in *; rewrite ?creation_commit_frame; congruence.
Qed.

Lemma worker_step_frame sh w q :
  worker_step sig_check check_sigs checker sh w = Ok q -> block_frame (sh_db q.1) = block_frame (sh_db (M := M) sh).
Proof.
  unfold worker_step, run_tx. intros E. ok_inv; try done.
  match goal with A : validate_transaction _ _ _ _ _ _ _ _ _ = Ok _ |- _ => by apply validate_transaction_frame in A end.
Qed.
Lemma run_workers_frame sched (st st' : State (M := M) (LG := LG) (TR := TR)) :
  run_workers sig_check check_sigs checker sched st = Ok st' -> block_frame (sh_db st'.1) = block_frame (sh_db st.1).
Proof.
  revert st. induction sched as [|k sched IH]; intros st E; cbn [run_workers] in E; [by ok_inv|].
  apply result_bind_Ok in E as (st1 & E1 & E). rewrite (IH _ E). unfold step_worker in E1. ok_inv; [|done].
  cbn. by eapply worker_step_frame.
Qed.

Lemma validation_frame m d size lg ranges sched main_stats stats q :
  validate_transaction_block_ sig_check check_sigs checker m d size lg ranges sched main_stats stats = Ok q ->
  block_frame q.1.1.1.1.2 = block_frame d.
Proof.
  unfold validate_transaction_block_. intros E. destruct (negb _); [done|]. apply result_bind_Ok in E as (st & Er & E).
  apply run_workers_frame in Er. ok_inv; done.
Qed.
End Database.

(** ** Production *)
Section Production.
Context {T : Type} `{SequenceTracker T} {CT : Type} `{MerkleTrie AccountCommitment CT} {L : Type} `{LMDBInstance L}.
Context {LG : Type} `{SerialAccountModificationLog LG}.
Context {TR : Type} `{OfferTrie TR} {M : Type} `{MainManager TR M} `{BigEndian}.
Variable sig_check : Transaction -> list Z -> PublicKey -> bool.
Variable check_sigs : bool.
Abbreviation DB := (MemoryDatabase.t T CT L).
Abbreviation View := (BufferedMemoryDatabaseView (T := T)).
Abbreviation Buffer := (BaseSerialManager (TR := TR) (M := M)).
Abbreviation PSM := (ProcessingSerialManager (TR := TR) (M := M) (D := DB) (V := View) (LG := LG)).
Implicit Types (d : DB).

Lemma foldl_frame {A} (g : DB -> A -> DB) l d : (forall d a, block_frame (g d a) = block_frame d) -> block_frame (foldl g d l) = block_frame d.
Proof. intros Hg. revert d. induction l as [|a l IH]; intros d; [done|]. cbn [foldl]. by rewrite IH, Hg. Qed.
Lemma on_account_frame {R} d i (g : UserAccount.t T -> UserAccount.t T * R) q :
  MemoryDatabase.on_account d i g = Ok q -> block_frame q.1 = block_frame d.
Proof. unfold MemoryDatabase.on_account. intros E. by ok_inv. Qed.
Lemma through_frame {R} d i (g : UserAccount.t T -> UserAccount.t T * bool) (k : DB * bool -> R) (h : R -> DB) q :
  (let* p := MemoryDatabase.on_account d i g in Ok (k p)) = Ok q -> (forall p, h (k p) = p.1) -> block_frame (h q) = block_frame d.
Proof. intros E Hh. apply result_bind_Ok in E as (p & Ep & [= <-]). rewrite Hh. by apply on_account_frame in Ep. Qed.

Lemma buffered_op_frame direct through d (v : View) p q :
  (forall d i w q, through d i w = Ok q -> block_frame q.1.1 = block_frame d) ->
  buffered_op direct through d v p = Ok q -> block_frame q.1.1 = block_frame d.
Proof.
  intros Ht E. destruct p; cbn [buffered_op] in E; apply result_bind_Ok in E as (r & Er & [= <-]); cbn.
  - by apply Ht in Er.
  - by apply on_ptr_frame in Er.
Qed.
Lemma account_transfer_frame d i w k x q : account_transfer_available d i w k x = Ok q -> block_frame q.1.1 = block_frame d.
Proof.
  unfold account_transfer_available, MemoryDatabase.conditional_transfer_available. intros E. ok_inv; try done;
    match goal with A : MemoryDatabase.on_account _ _ _ = Ok _ |- _ => by apply on_account_frame in A end.
Qed.
Lemma account_escrow_frame d i w k x q : account_conditional_escrow d i w k x = Ok q -> block_frame q.1.1 = block_frame d.
Proof.
  unfold account_conditional_escrow, MemoryDatabase.conditional_escrow. intros E. ok_inv; try done;
    match goal with A : MemoryDatabase.on_account _ _ _ = Ok _ |- _ => by apply on_account_frame in A end.
Qed.
Lemma buffered_keeps : view_keeps (D := DB) (V := View) block_frame.
Proof.
  constructor.
  - intros d v id pk d' v' s p E. cbn in E. pose proof (create_frame d (creation v) id pk) as Ef.
    destruct (create_new_account d (creation v) id pk) as [[[d1 c] s1] p1]. by injection E as <- _ _ _.
  - intros d v p n d' v' s E. cbn in E. unfold creation_reserve_sequence_number in E.
    ok_inv; match goal with A : on_ptr _ _ _ _ = Ok _ |- _ => by apply on_ptr_frame in A end.
  - intros d v p a x d' v' s E. by apply (buffered_op_frame _ _ d v p _ (fun d i w q => account_escrow_frame d i w a x q)) in E.
  - intros d v p a x d' v' s E. by apply (buffered_op_frame _ _ d v p _ (fun d i w q => account_transfer_frame d i w a x q)) in E.
  - intros d v. cbn. unfold buffered_commit. rewrite creation_commit_frame. apply foldl_frame. intros d0 p. apply foldl_frame. done.
Qed.
Lemma unwind_frame d (v : View) d' : buffered_unwind d v = Ok d' -> block_frame d' = block_frame d.
Proof.
  unfold buffered_unwind, creation_unwind. set (d1 := foldl _ d _). intros E.
  assert (E1 : block_frame d1 = block_frame d) by (apply foldl_frame; intros d0 p; by apply foldl_frame).
  set (d2 := foldl _ d1 _) in E. assert (E2 : block_frame d2 = block_frame d1) by by apply foldl_frame.
  rewrite <- E1, <- E2. clearbody d2. clear E1 E2. revert d2 E. induction (reservations (creation v)) as [|[[i|id] n] l IH]; intros d2 E;
    cbn [release_reservations] in E; [by ok_inv| |by apply IH].
  apply result_bind_Ok in E as (d3 & E3 & E). rewrite (IH _ E). unfold MemoryDatabase.release_sequence_number in E3. by ok_inv.
Qed.
Lemma processing_add_frame (s : Buffer) i o d (m : OperationMetadata View) (lg : LG) s' d' m' lg' :
  sm_add_offer (SerialManager := PSM) s i o d m lg = Ok (s', d', m', lg') -> block_frame d' = block_frame d.
Proof. cbn [sm_add_offer ProcessingSerialManager]. unfold processing_add_offer. intros E. by ok_inv. Qed.

Lemma process_transaction_frame (s : Buffer) d stx stats (lg : LG) q :
  process_transaction sig_check check_sigs s d stx stats lg = Ok q -> block_frame q.1.1.1.2 = block_frame d.
Proof.
  unfold process_transaction, unwind_metadata. intros E. ok_inv; try done.
  all: repeat match goal with
    | A : dv_reserve_sequence_number _ _ _ _ = Ok _ |- _ => apply (vk_reserve _ buffered_keeps) in A
    | A : dv_transfer_available _ _ _ _ _ = Ok _ |- _ => apply (vk_transfer _ buffered_keeps) in A
    | A : buffered_unwind _ _ = Ok _ |- _ => apply unwind_frame in A
    | A : process_operations _ _ _ _ = Ok _ |- _ =>
        apply (process_operations_keeps PSM block_frame buffered_keeps processing_add_frame) in A
    | A : commit_metadata _ _ _ = _ |- _ => unfold commit_metadata in A; injection A as <- <- <-
    end.
  all: cbn in *; first [congruence|etransitivity; [apply (vk_commit _ buffered_keeps)|congruence]].
Qed.
Lemma thread_step_frame (sh : BlockProducer.Shared (T := T) (CT := CT) (L := L) (M := M)) (th : Thread (LG := LG) (TR := TR)) q : thread_step sig_check check_sigs sh th = Ok q -> block_frame (BlockProducer.sh_db q.1) = block_frame (BlockProducer.sh_db sh).
Proof.
  unfold thread_step, BlockProducer.run_tx. intros E. ok_inv; try done.
  match goal with A : process_transaction _ _ _ _ _ _ _ = Ok _ |- _ => by apply process_transaction_frame in A end.
Qed.
Lemma run_schedule_frame sched (st st' : BlockProducer.State (T := T) (CT := CT) (L := L) (LG := LG) (TR := TR) (M := M)) : run_schedule sig_check check_sigs sched st = Ok st' -> block_frame (BlockProducer.sh_db st'.1) = block_frame (BlockProducer.sh_db st.1).
Proof.
  revert st. induction sched as [|k sched IH]; intros st E; cbn [run_schedule] in E; [by ok_inv|].
  apply result_bind_Ok in E as (st1 & E1 & E). rewrite (IH _ E). unfold step_thread in E1. ok_inv; [|done].
  cbn. by eapply thread_step_frame.
Qed.
Lemma production_frame (m : M) d chunks max size (lg : LG) ranges sched stats q :
  build_block sig_check check_sigs m d chunks max size lg ranges sched stats = Ok q -> block_frame q.1.1.1.1.2 = block_frame d.
Proof.
  unfold build_block. intros E. destruct (negb _); [done|]. apply result_bind_Ok in E as (st & Er & E).
  apply run_schedule_frame in Er. by ok_inv.
Qed.
End Production.

(** ** Clearing *)
Section Clearing.
Context {TR : Type} `{OfferTrieIndex TR} `{BigEndian} {D : Type} `{ClearingDB D} {LG : Type} `{SerialAccountModificationLog LG}.
Context (R : relation D) `{!PreOrder R}.
Hypothesis transfer_keeps : forall d a k x, R d (cdb_transfer_available d a k x).
Abbreviation Book := (Orderbook.t (TR := TR)).
Implicit Types (q : D * LG).

Lemma full_keeps (d : D) a o sp bp t : R d (clear_offer_full (cdb_transfer_available d a) o sp bp t).
Proof using transfer_keeps. apply transfer_keeps. Qed.
Lemma partial_keeps (d : D) a o sp bp t rem : R d (clear_offer_partial (cdb_transfer_available d a) o sp bp t rem).1.1.
Proof using transfer_keeps. apply transfer_keeps. Qed.

Lemma apply_clearing_keeps sp bp t l q q' : apply_clearing sp bp t l q = Ok q' -> R q.1 q'.1.
Proof using All.
  revert q. induction l as [|p l IH]; intros q E; cbn [apply_clearing] in E; [by ok_inv|].
  apply result_bind_Ok in E as (q1 & E1 & E). etransitivity; [|exact (IH _ E)]. unfold complete_clearing in E1. ok_inv.
  apply full_keeps.
Qed.
Lemma tentative_clear_keeps (b : Book) q a c checker stats s :
  tentative_clear_offers_for_validation b q a c checker stats = Ok s -> R q.1 (cl_db s.1).1.
Proof using All.
  unfold tentative_clear_offers_for_validation, clear_everything, clear_with_partial. intros E. ok_inv; try done.
  all: repeat match goal with A : apply_clearing _ _ _ _ _ = Ok _ |- _ => apply apply_clearing_keeps in A end.
  all: repeat match goal with A : clear_offer_partial (cdb_transfer_available ?d ?p) ?o ?sp ?bp ?t ?x = (?d', _, _) |- _ =>
    let K := fresh "K" in pose proof (partial_keeps d p o sp bp t x) as K; rewrite A in K; clear A end.
  all: cbn in *; done || by etransitivity.
Qed.
Lemma validation_range_keeps checker (s s' : validation_state (TR := TR) (D := D) (LG := LG)) r :
  validation_range checker s r = Ok s' -> R (vs_db s).1 (vs_db s').1.
Proof using All.
  revert s. induction r as [|i r IH]; intros s E; cbn [validation_range] in E; [by ok_inv|]. ok_inv.
  all: match goal with A : tentative_clear_offers_for_validation _ _ _ _ _ _ = Ok _ |- _ => apply tentative_clear_keeps in A end.
  - etransitivity; [|exact (IH _ E)]. done.
  - done.
Qed.
Lemma validation_batches_keeps checker (s s' : validation_state (TR := TR) (D := D) (LG := LG)) batches :
  validation_batches checker s batches = Ok s' -> R (vs_db s).1 (vs_db s').1.
Proof using All.
  revert s. induction batches as [|r batches IH]; intros s E; cbn [validation_batches] in E; [by ok_inv|].
  apply result_bind_Ok in E as (s1 & E1 & E). etransitivity; [|exact (IH _ E)]. by apply validation_range_keeps in E1.
Qed.
Lemma tentative_clearing_keeps m q vs checker stats batches r :
  manager_tentative_clear_offers_for_validation m q vs checker stats batches = Ok r -> R q.1 (vs_db r.1.2).1.
Proof using All.
  unfold manager_tentative_clear_offers_for_validation. intros E. apply result_bind_Ok in E as (s & Es & E).
  apply validation_batches_keeps in Es. by ok_inv.
Qed.
End Clearing.
