(* ===== verification/BlockDecision.v ===== *)
(** * What [validate_transaction_block_] decides

    The verdict is [block_valid] and no negative balance, for every division of the
    block and every interleaving, unless a cancellation of the block names a pair that
    is not listed and its error leaves the validation; and an accepted block has one
    result: accounts, marked and waiting offers and executed supply do not depend on
    the order. *)
From stdpp Require Import base gmap list strings.
From S2P Require Import Prelude Types PriceArith Offers Clearing Asset SeqTracker Accounts AccountLmdb Database DbView SerialManager TxProcessor TxAtomicity BlockAssembly BlockValidator ValidationEffects ValidationProps BlockValidation BlockVerdict BlockMerging.

(** ** The executed supply *)
Definition executed_supply (n : nat) (l : list (nat * Offer)) : Z :=
  sum_by (fun p => if decide (p.1 = n) then FractionalAsset.from_integral (amount p.2) else 0) l.

Lemma put_executed_sum n l z : u128 (put_executed n l z) = u128 (z + executed_supply n l).
Proof.
  induction l as [|[j o] l IH] using rev_ind; [cbn; by rewrite Z.add_0_r|].
  unfold executed_supply. rewrite put_executed_snoc, sum_by_app, sum_by_cons, sum_by_nil. fold (executed_supply n l). cbn [fst snd].
  destruct (decide (j = n)); [|rewrite IH; f_equal; lia]. rewrite FractionalAsset.add_mod. unfold u128 in *.
  rewrite Zmod_mod, <- Zplus_mod_idemp_l, IH, Zplus_mod_idemp_l. f_equal. lia.
Qed.
Lemma add_stats_at s t n : u128 (stat_at (add_stats s t) n) = u128 (stat_at s n + stat_at t n).
Proof.
  unfold stat_at, add_stats. rewrite list_lookup_imap. set (g := s ++ _).
  assert (Hg : default 0 (g !! n) = default 0 (s !! n)).
  { unfold g. destruct (decide (n < length s)%nat); [by rewrite lookup_app_l|].
    rewrite lookup_app_r, (lookup_ge_None_2 s) by lia. destruct (replicate _ _ !! _) eqn:E; [|done]. by apply lookup_replicate in E as [-> _]. }
  rewrite <- Hg. destruct (g !! n) as [x|] eqn:E; cbn [fmap option_fmap option_map].
  - destruct (t !! n) as [y|]; cbn [default from_option]; unfold id; [|by rewrite Z.add_0_r].
    rewrite FractionalAsset.add_mod. unfold u128. by rewrite Zmod_mod.
  - rewrite (lookup_ge_None_2 t); [done|]. apply lookup_ge_None in E. unfold g in E. rewrite length_app, length_replicate in E. lia.
Qed.
Lemma merged_stats_at {A} (f : A -> list Z) l s n :
  u128 (stat_at (foldl (fun s w => add_stats s (f w)) s l) n) = u128 (stat_at s n + sum_by (fun w => stat_at (f w) n) l).
Proof.
  revert s. induction l as [|w l IH]; intros s; [cbn [foldl]; by rewrite sum_by_nil, Z.add_0_r|]. cbn [foldl]. rewrite IH, sum_by_cons.
  unfold u128. rewrite <- Zplus_mod_idemp_l. change (stat_at (add_stats s (f w)) n mod 2 ^ 128) with (u128 (stat_at (add_stats s (f w)) n)).
  rewrite add_stats_at. unfold u128. rewrite Zplus_mod_idemp_l. f_equal. lia.
Qed.
Lemma executed_supply_app n l l' : executed_supply n (l ++ l') = executed_supply n l + executed_supply n l'.
Proof. apply sum_by_app. Qed.

(** ** Valid accounts *)
Section Accounts.
Context {T : Type} `{SequenceTracker T}.
Implicit Types a : UserAccount.t T.
Lemma in_valid_state_spec a :
  UserAccount.in_valid_state a = true <-> forall n, 0 <= RevertableAsset.available (UserAccount.asset_of a n).
Proof.
  unfold UserAccount.in_valid_state. rewrite andb_true_iff, !forallb_forall. unfold RevertableAsset.in_valid_state, UserAccount.asset_of. split.
  - intros [H1' H2'] n. destruct (decide _).
    + destruct (UserAccount.owned_assets a !! n) as [x|] eqn:E; cbn; [|done]. apply Z.leb_le, H1', list_elem_of_In. by eapply list_elem_of_lookup_2.
    + destruct (UserAccount.uncommitted_assets a !! _) as [x|] eqn:E; cbn; [|done]. apply Z.leb_le, H2', list_elem_of_In. by eapply list_elem_of_lookup_2.
  - intros Hn. split; intros x [k Hk]%list_elem_of_In%list_elem_of_lookup; apply Z.leb_le.
    + specialize (Hn k). rewrite decide_True in Hn by (by eapply lookup_lt_Some). by rewrite Hk in Hn.
    + specialize (Hn (length (UserAccount.owned_assets a) + k)%nat). rewrite decide_False in Hn by lia.
      replace (length (UserAccount.owned_assets a) + k - length (UserAccount.owned_assets a))%nat with k in Hn by lia. by rewrite Hk in Hn.
Qed.
End Accounts.

Section Decision.
Context {T : Type} `{SequenceTrackerRefines T}.
Context {CT : Type} `{MerkleTrie AccountCommitment CT}.
Context {L : Type} `{LMDBInstance L}.
Context {LG : Type} `{ModifiedAccounts LG}.
Context {TR : Type} `{OfferTrie TR} {M : Type} `{MainManager TR M} `{!MainManagerLaws TR M} `{!MainManagerMergeLaws TR M} `{BigEndian}.
Variable sig_check : Transaction -> list Z -> PublicKey -> bool.
Variable check_sigs : bool.
Variable checker : OrderbookStateCommitmentChecker.
Abbreviation DB := (MemoryDatabase.t T CT L).
Abbreviation Worker := (BlockValidator.Worker (LG := LG) (TR := TR)).
Implicit Types (db : DB) (m : M) (e : Effect) (ws : list Worker).

(** ** The final check *)
Section Final.
Variables (db0 : DB) (m0 : M).
Hypothesis db0_ok : db_ok db0.
Hypothesis db0_valid : Forall (fun a => UserAccount.in_valid_state a = true) (MemoryDatabase.database db0).
Hypothesis no_new_accounts : MemoryDatabase.uncommitted_db db0 = [].
Abbreviation effects0 := (effects sig_check check_sigs checker db0 m0).
Abbreviation clean0 := (clean sig_check check_sigs checker db0 m0).

Lemma shifted_balance d (a b : UserAccount.t T) n :
  acct_shift d a b -> RevertableAsset.available (UserAccount.asset_of b n) = i64 (RevertableAsset.available (UserAccount.asset_of a n) + d n).
Proof. intros [_ _ _ Hs]. rewrite Hs. cbn. i64_solve. Qed.
Lemma new_balance d id pk (b : UserAccount.t T) n :
  acct_shift d (UserAccount.new id pk) b -> RevertableAsset.available (UserAccount.asset_of b n) = i64 (d n).
Proof. intros Hs. rewrite (shifted_balance _ _ _ _ Hs). unfold UserAccount.asset_of. cbn. by rewrite lookup_nil. Qed.

Lemma moved_by_concat mines p n : moved_by (effects0 (concat mines)) p n = sum_by (fun mine => moved_by (effects0 mine) p n) mines.
Proof.
  unfold moved_by, effects. induction mines as [|x l IH]; [done|]. cbn [concat]. rewrite omap_app, sum_by_app, sum_by_cons. by rewrite IH.
Qed.

Lemma dirty_accounts_elem (ws : list Worker) id : id ∈ dirty_accounts ws <-> Exists (fun w => id ∈ log_accounts (wk_log w)) ws.
Proof.
  unfold dirty_accounts. rewrite elem_of_elements, elem_of_union_list, Exists_exists. split.
  - by intros (s & (w & -> & Hw)%list_elem_of_fmap & Hid); exists w.
  - intros (w & Hw & Hid). exists (log_accounts (wk_log w)). split; [|done]. by apply (list_elem_of_fmap_2 (fun w => log_accounts (wk_log w))).
Qed.

(** The accounts with a changed balance are in the merged log. *)
Lemma changed_logged mines ws j n :
  Forall2 clean0 mines ws -> moved_by (effects0 (concat mines)) (DbPtr j) n <> 0 ->
  exists id, MemoryDatabase.lookup_user db0 id = Some j /\ id ∈ dirty_accounts ws.
Proof.
  intros Hc Hne. setoid_rewrite dirty_accounts_elem. rewrite moved_by_concat in Hne.
  induction Hc as [|mine w mines ws [_ _ _ _ _ Hl] Hc IH]; [done|]. rewrite sum_by_cons in Hne.
  destruct (decide (moved_by (effects0 mine) (DbPtr j) n = 0)) as [E|E].
  - destruct IH as (id & Hid & Hin); [lia|]. exists id. split; [done|]. by apply Exists_cons_tl.
  - destruct (Hl j n E) as (id & Hid & Hin). exists id. split; [done|]. by apply Exists_cons_hd.
Qed.

Lemma final_check l m db mines ws :
  applied sig_check check_sigs checker db0 m0 l m db -> Forall2 clean0 mines ws -> concat mines ≡ₚ l ->
  MemoryDatabase.check_valid_state db (dirty_accounts ws) = true <-> balances_valid sig_check check_sigs checker db0 m0 l.
Proof.
  intros Ha Hc Hp. unfold MemoryDatabase.check_valid_state.
  destruct (ap_uncommitted _ _ _ _ _ _ _ _ Ha) as (ls & ps & Eu & Hls & Hps). rewrite no_new_accounts in Eu. cbn in Eu.
  rewrite andb_true_iff, !forallb_forall, Eu. split.
  - intros [Hdirty Hnew]. constructor.
    + intros i a0 n E0. destruct (ap_account _ _ _ _ _ _ _ _ Ha i a0 E0) as (a & E & Hs & _).
      pose proof (Forall_lookup_1 _ _ _ _ db0_valid E0) as Hv. cbn in Hv. rewrite in_valid_state_spec in Hv. specialize (Hv n).
      pose proof (Forall_lookup_1 _ _ _ _ (proj1 db0_ok) E0) as (Hw & _).
      destruct (decide (moved_by (effects0 l) (DbPtr i) n = 0)) as [Ez|Ez].
      * rewrite Ez, Z.add_0_r, i64_id; [done|]. apply (UserAccount.asset_wf a0 n Hw).
      * assert (Hne : moved_by (effects0 (concat mines)) (DbPtr i) n <> 0).
        { unfold moved_by, effects in *. by rewrite Hp. }
        destruct (changed_logged mines ws i n Hc Hne) as (id & Hid & Hin).
        specialize (Hdirty id (proj1 (list_elem_of_In _ _) Hin)). rewrite (after_lookup _ _ _ _ _ _ _ _ Ha), Hid, E in Hdirty.
        rewrite in_valid_state_spec in Hdirty. specialize (Hdirty n). by rewrite (shifted_balance _ _ _ _ Hs) in Hdirty.
    + intros e id n He Hid. apply list_elem_of_fmap in Hid as ([id' pk] & -> & Hin). cbn [fst].
      assert (Hep : (e, (id', pk)) ∈ ps).
      { rewrite Hps. apply list_elem_of_bind. exists e. split; [|done]. by apply (list_elem_of_fmap_2 (pair e)). }
      apply list_elem_of_lookup in Hep as [k Hk]. destruct (Forall2_lookup_r _ _ _ _ _ Hls Hk) as (a & Ek & Hs & _). cbn [fst snd] in Hs.
      specialize (Hnew a (proj1 (list_elem_of_In _ _) (list_elem_of_lookup_2 _ _ _ Ek))). rewrite in_valid_state_spec in Hnew.
      specialize (Hnew n). by rewrite (new_balance _ _ _ _ _ Hs) in Hnew.
  - intros [B1 B2]. split.
    + intros id _. destruct (MemoryDatabase.lookup_user db id) as [i|]; [|done]. destruct (MemoryDatabase.database db !! i) as [a|] eqn:E; [|done].
      destruct (lookup_lt_is_Some_2 (MemoryDatabase.database db0) i) as [a0 E0].
      { rewrite <- (ap_length _ _ _ _ _ _ _ _ Ha). by eapply lookup_lt_Some. }
      destruct (ap_account _ _ _ _ _ _ _ _ Ha i a0 E0) as (a' & E' & Hs & _). assert (a' = a) as -> by congruence.
      apply in_valid_state_spec. intros n. rewrite (shifted_balance _ _ _ _ Hs). by apply B1.
    + intros a Hin%list_elem_of_In. apply list_elem_of_lookup in Hin as [k Hk].
      destruct (Forall2_lookup_l _ _ _ _ _ Hls Hk) as ([e [id pk]] & Ek & Hs & _). cbn [fst snd] in Hs.
      apply list_elem_of_lookup_2 in Ek. rewrite Hps in Ek. apply list_elem_of_bind in Ek as (e' & (c & [= <- <-] & Hc')%list_elem_of_fmap & He).
      apply in_valid_state_spec. intros n. rewrite (new_balance _ _ _ _ _ Hs). apply B2; [done|].
      by apply (list_elem_of_fmap_2 fst) in Hc'.
Qed.
End Final.

(** ** The whole procedure *)
Definition block_txs (ranges : list (list (list (list SignedTransaction)))) : list SignedTransaction :=
  concat ((fun r => concat (concat r)) <$> ranges).

Record validation_ready m db (ranges : list (list (list (list SignedTransaction)))) : Prop := {
  vr_db : db_ok db;
  vr_manager : manager_ok m;
  vr_checker : checker_ok checker (mm_num_assets m);
  vr_bounds : Forall (tx_bounds (mm_num_assets m)) (block_txs ranges);
  vr_valid : Forall (fun a => UserAccount.in_valid_state a = true) (MemoryDatabase.database db);
  vr_no_accounts : MemoryDatabase.uncommitted_db db = [];
  vr_no_offers : Forall (fun t => ot_map t = ∅) (mm_waiting m)
}.
(** The scheduler lets every worker run to its end. *)
Definition enough_turns (ranges : list (list (list (list SignedTransaction)))) (sched : list nat) : Prop :=
  forall k r, ranges !! k = Some r -> (ranges_steps r <= turns k sched)%nat.

Record block_result (l : list SignedTransaction) m db (main_stats : list Z) m' db' (main_stats' : list Z) : Prop := {
  res_db : db_ok db';
  res_applied : exists m1, applied sig_check check_sigs checker db m l m1 db' /\ mm_books m' = mm_books m1;
  res_waiting_length : length (mm_waiting m') = length (mm_books m);
  res_waiting n t : mm_waiting m' !! n = Some t ->
    ot_map t = put_added n (added_by (effects sig_check check_sigs checker db m l)) ∅;
  res_supply n : u128 (stat_at main_stats' n) =
    u128 (stat_at main_stats n + executed_supply n (executed_by (effects sig_check check_sigs checker db m l)))
}.

Lemma validation_start m db lg ranges : validation_ready m db ranges ->
  block_inv sig_check check_sigs checker db m (block_txs ranges) (mkShared m db) (new_worker lg <$> ranges).
Proof.
  intros [R1 R2 R3 R4 _ _ _].
  assert (Hu : unvalidated <$> (new_worker lg <$> ranges : list Worker) = (fun r => concat (concat r)) <$> ranges).
  { rewrite <- list_fmap_compose. apply list_fmap_ext. done. }
  constructor.
  - by constructor.
  - apply Forall_fmap. unfold block_txs in R4. clear - R4. induction ranges as [|r ranges IH]; [constructor|].
    cbn in R4. apply Forall_app in R4 as [R4 R5]. constructor; [exact R4|by apply IH].
  - apply Forall_fmap, Forall_forall. intros r Hin. apply Forall_forall. intros stx Hstx. unfold block_txs.
    apply list_elem_of_In, in_concat. exists (concat (concat r)).
    split; [|by apply list_elem_of_In]. apply list_elem_of_In. by apply (list_elem_of_fmap_2 (fun r => concat (concat r))).
  - left. exists [], (replicate (length ranges) []). split_and!.
    + by apply applied_start.
    + clear. induction ranges as [|r ranges IH]; [constructor|]. cbn. constructor; [|exact IH].
      constructor; try done. intros n. cbn. rewrite lookup_nil. exact ot_empty_map.
    + clear. by induction ranges.
    + by rewrite Hu.
Qed.

Lemma workers_supply db0 m0 mines ws n :
  Forall2 (clean sig_check check_sigs checker db0 m0) mines ws ->
  u128 (sum_by (fun w => stat_at (wk_supplies w) n) ws) =
  u128 (executed_supply n (executed_by (effects sig_check check_sigs checker db0 m0 (concat mines)))).
Proof.
  intros Hc. induction Hc as [|mine w mines ws [_ _ _ _ Hs _] Hc IH]; [done|]. cbn [concat].
  unfold effects, executed_by in *. rewrite sum_by_cons, omap_app, bind_app, executed_supply_app, Hs.
  assert (Hx : forall l, put_executed n l 0 mod 2 ^ 128 = executed_supply n l mod 2 ^ 128) by (intros l; exact (put_executed_sum n l 0)).
  unfold u128 in *. by rewrite Zplus_mod, IH, Hx, <- Zplus_mod.
Qed.

Lemma added_by_concat db0 m0 mines :
  concat ((fun mine => added_by (effects sig_check check_sigs checker db0 m0 mine)) <$> mines) =
  added_by (effects sig_check check_sigs checker db0 m0 (concat mines)).
Proof.
  induction mines as [|x l IH]; [done|]. cbn [fmap list_fmap concat]. rewrite IH. unfold added_by, effects.
  by rewrite omap_app, bind_app.
Qed.

(** The merge of a block without failures. *)
Lemma clean_merge m db m1 db1 l mines ws :
  manager_ok m -> Forall (fun t => ot_map t = ∅) (mm_waiting m) -> Forall (tx_bounds (mm_num_assets m)) l ->
  applied sig_check check_sigs checker db m l m1 db1 -> Forall2 (clean sig_check check_sigs checker db m) mines ws ->
  concat mines ≡ₚ l ->
  exists m' ws', merge_orderbooks m1 ws (seq 0 (Z.to_nat (mm_num_orderbooks m))) = Ok (m', ws') /\ mm_books m' = mm_books m1 /\
    length (mm_waiting m') = length (mm_books m) /\ Forall2 same_results ws ws' /\
    forall n t, mm_waiting m' !! n = Some t ->
      ot_map t = put_added n (added_by (effects sig_check check_sigs checker db m l)) ∅.
Proof.
  intros [Hn Hlen] Hw Hb Ha Hc Hp. destruct (ap_books _ _ _ _ _ _ _ _ Ha) as (bs & Em & Hbs & _).
  assert (Ew : mm_waiting m1 = mm_waiting m) by (rewrite Em; by apply mm_waiting_set).
  assert (Ek : Z.to_nat (mm_num_orderbooks m) = length (mm_waiting m)).
  { rewrite mm_num_orderbooks_spec, Category.count_orderbooks, mm_waiting_length by lia. lia. }
  assert (Eadd : added_by (effects sig_check check_sigs checker db m (concat mines)) ≡ₚ
    added_by (effects sig_check check_sigs checker db m l)) by (unfold added_by, effects; by rewrite Hp).
  assert (Hnd : NoDup (added_keys (added_by (effects sig_check check_sigs checker db m (concat mines))))).
  { unfold added_keys. rewrite Eadd. apply (block_added_keys sig_check check_sigs checker db m); [apply Ha|done]. }
  destruct (merge_orderbooks_spec (seq 0 (Z.to_nat (mm_num_orderbooks m))) m1
    ((fun mine => added_by (effects sig_check check_sigs checker db m mine)) <$> mines) ws) as (m' & ws' & E & E1 & E2 & E3 & E4).
  - apply NoDup_seq.
  - apply Forall_forall. intros i Hi%elem_of_seq. rewrite Ew. destruct (lookup_lt_is_Some_2 (mm_waiting m) i) as [t Ht]; [lia|].
    exists t. split; [done|]. exact (Forall_lookup_1 _ _ _ _ Hw Ht).
  - intros i _. apply Forall2_fmap_l. eapply Forall2_impl; [exact Hc|]. intros mine w Hcl. apply (cl_new _ _ _ _ _ _ _ Hcl).
  - by rewrite added_by_concat.
  - rewrite added_by_concat in E4. exists m', ws'. split_and!; [done|done|by rewrite E2, Ew, mm_waiting_length|done|].
    intros n t Ht. specialize (E4 n). assert (Hlt : (n < length (mm_waiting m))%nat) by (rewrite <- Ew, <- E2; by eapply lookup_lt_Some).
    rewrite decide_True in E4 by (apply elem_of_seq; lia). destruct E4 as (t' & Ht' & Hmap). assert (t' = t) as -> by congruence.
    rewrite Hmap. by apply put_added_perm.
Qed.

Lemma same_results_dirty ws ws' : Forall2 same_results ws ws' -> dirty_accounts ws' = dirty_accounts ws.
Proof.
  intros Hs. unfold dirty_accounts. do 2 f_equal. induction Hs as [|w w' ws ws' [E _] Hs IH]; [done|]. cbn. by rewrite E, IH.
Qed.
Lemma same_results_supplies ws ws' n :
  Forall2 same_results ws ws' -> sum_by (fun w => stat_at (wk_supplies w) n) ws' = sum_by (fun w => stat_at (wk_supplies w) n) ws.
Proof. induction 1 as [|w w' ws ws' [_ E] Hs IH]; [done|]. by rewrite !sum_by_cons, E, IH. Qed.

(** An effect needs the index of every pair that is cancelled. *)
Lemma effect_no_error db m owner i id op e e' er :
  op_effect checker db m i owner id op e = Some e' -> ~ cancel_error (mm_num_assets m) op er.
Proof. destruct op; cbn [op_effect cancel_error]; try tauto. intros E He. by rewrite He in E. Qed.
Lemma effects_no_error db m i md j ops e e' er :
  ops_effect checker db m i md j ops e = Some e' -> ~ tx_error (mm_num_assets m) ops er.
Proof.
  revert j e. induction ops as [|op ops IH]; intros j e E He; [by apply Exists_nil in He|]. cbn [ops_effect] in E.
  destruct (op_effect _ _ _ _ _ _ _ _) as [e1|] eqn:E1; [|done]. apply Exists_cons in He as [He|He]; [|by eapply IH].
  by eapply effect_no_error.
Qed.
Lemma valid_no_error db m l er : block_valid sig_check check_sigs checker db m l -> ~ txs_error m l er.
Proof.
  intros [B1 _ _ _ _] (stx & Hin & He)%Exists_exists. rewrite Forall_forall in B1. destruct (B1 stx Hin) as [e Ee]. revert Ee.
  unfold tx_effect. destruct (_ || _); [done|]. destruct (MemoryDatabase.lookup_user db _) as [i|]; [|done]. cbn [mbind option_bind].
  destruct (signature_ok _ _ _ _ _) as [[]|]; [|done..]. intros Ee. by eapply effects_no_error.
Qed.
(** There is no error when all cancellations name listed pairs. *)
Definition block_cancels_listed m (ranges : list (list (list (list SignedTransaction)))) : Prop :=
  Forall (fun stx => Forall (cancel_listed (mm_num_assets m)) (operations (transaction stx))) (block_txs ranges).
Lemma listed_no_error m db ranges er : validation_ready m db ranges -> block_cancels_listed m ranges -> ~ txs_error m (block_txs ranges) er.
Proof.
  intros [_ [Hn _] _ R4 _ _ _] Hl (stx & Hin & He)%Exists_exists. revert He. apply list_elem_of_lookup in Hin as [i Hi].
  apply cancels_listed_ok; [done|apply (Forall_lookup_1 _ _ _ _ R4 Hi)|exact (Forall_lookup_1 _ _ _ _ Hl Hi)].
Qed.

Definition decided m db ranges main_stats
    (r : result (M * DB * list LG * list Z * BlockStateUpdateStats * bool)) : Prop :=
  exists m' db' logs main_stats' stats' b, r = Ok (m', db', logs, main_stats', stats', b) /\
    (b = true <-> block_valid sig_check check_sigs checker db m (block_txs ranges) /\
                  balances_valid sig_check check_sigs checker db m (block_txs ranges)) /\
    (b = true -> block_result (block_txs ranges) m db main_stats m' db' main_stats').

Lemma validation_outcome m db lg ranges sched main_stats stats :
  validation_ready m db ranges -> enough_turns ranges sched ->
  let r := validate_transaction_block_ sig_check check_sigs checker m db 0 lg ranges sched main_stats stats in
  decided m db ranges main_stats r \/ exists er, r = Throw er /\ txs_error m (block_txs ranges) er.
Proof.
  intros Hr Hfair r. pose proof (validation_start m db lg ranges Hr) as Hi. destruct Hr as [R1 R2 R3 R4 R5 R6 R7].
  subst r. unfold validate_transaction_block_. cbn [Z.eqb negb].
  destruct (block_run sig_check check_sigs checker db m R1 R2 R3 (block_txs ranges) sched _ _ Hi) as [(sh & ws & E & Hi' & Hlen & Hw)|(er & E & He)];
    rewrite E; cbn [result_bind fst snd]; [left|right; by exists er]. rewrite length_fmap in Hlen.
  assert (Hf : forallb worker_finished ws = true).
  { apply forallb_forall. intros w Hin%list_elem_of_In. apply list_elem_of_lookup in Hin as [k Hk].
    destruct (lookup_lt_is_Some_2 ranges k) as [r Hrk]; [rewrite <- Hlen; by eapply lookup_lt_Some|].
    destruct (Hw k (new_worker lg r)) as (w' & Hw' & Hle); [by rewrite list_lookup_fmap, Hrk|].
    assert (w' = w) as -> by congruence. specialize (Hfair k r Hrk). apply worker_finished_steps.
    change (wk_ranges (new_worker lg r)) with r in Hle. lia. }
  pose proof (finished_verdict sig_check check_sigs checker db m (block_txs ranges) sh ws Hi' Hf) as Hv.
  rewrite Hf. cbn [negb]. destruct (forallb wk_valid ws); cbn [negb].
  2: { do 6 eexists. split; [reflexivity|]. split; [|done]. split; [done|]. by intros [? _]. }
  destruct Hv as (Hv & Ha & [Hs1 _ _] & mines & Hc & Hp).
  destruct (clean_merge m db (sh_main sh) (sh_db sh) (block_txs ranges) mines ws R2 R7 R4 Ha Hc Hp)
    as (m' & ws' & Em & Eb & El & Hsame & Hwait).
  rewrite Em. cbn [result_bind fst snd]. do 6 eexists. split; [reflexivity|].
  rewrite (same_results_dirty _ _ Hsame), (final_check db m R1 R5 R6 _ _ _ _ _ Ha Hc Hp).
  split; [tauto|]. intros _. constructor; [done|by eexists|done|done|].
  intros n. rewrite merged_stats_at, (same_results_supplies _ _ _ Hsame). unfold u128.
  rewrite <- Zplus_mod_idemp_r. pose proof (workers_supply db m mines ws n Hc) as Hsup. unfold u128 in Hsup. rewrite Hsup.
  rewrite Zplus_mod_idemp_r. do 2 f_equal. unfold executed_supply, executed_by, effects. by rewrite Hp.
Qed.

(** ** Only one result *)
Lemma shift_unique d (a b b' : UserAccount.t T) :
  acct_shift d a b -> acct_shift d a b' -> UserAccount.seq_tracker b = UserAccount.seq_tracker b' -> b ≡ b'.
Proof.
  intros [L1 O1 P1 A1] [L2 O2 P2 A2] Ht. apply UserAccount.equiv_intro; congruence.
Qed.
Lemma tracker_after_unique slots j (t0 t t' : T) :
  st_wf t -> st_wf t' -> tracker_after slots j t0 t -> tracker_after slots j t0 t' -> t = t'.
Proof.
  intros W W' [El Em] [El' Em']. apply st_abs_inj; [done|done|]. revert El El' Em Em'.
  destruct (st_abs t) as [l k], (st_abs t') as [l' k']. cbn [Spec.last Spec.mask]. intros -> -> Em Em'. f_equal.
  apply Z.bits_inj'. intros n Hn. by rewrite Em, Em'.
Qed.

(** Two states that hold the same accounts, offers and supplies. *)
Record same_state m1 db1 (stats1 : list Z) m2 db2 (stats2 : list Z) : Prop := {
  same_index : MemoryDatabase.user_id_to_idx_map db1 = MemoryDatabase.user_id_to_idx_map db2;
  same_accounts : Forall2 (≡) (MemoryDatabase.database db1) (MemoryDatabase.database db2);
  same_reserved : MemoryDatabase.reserved_account_ids db1 = MemoryDatabase.reserved_account_ids db2;
  same_created : exists l, MemoryDatabase.uncommitted_db db1 ≡ₚ l /\ Forall2 (≡) l (MemoryDatabase.uncommitted_db db2);
  same_books : Forall2 trie_eq (mm_books m1) (mm_books m2);
  same_waiting : Forall2 (fun t t' => ot_map t = ot_map t') (mm_waiting m1) (mm_waiting m2);
  same_supply n : u128 (stat_at stats1 n) = u128 (stat_at stats2 n)
}.

Lemma created_unique (l1 l2 : list (UserAccount.t T)) ps1 ps2 :
  Forall2 (fun a p => created_account p.1 p.2 a) l1 ps1 -> Forall2 (fun a p => created_account p.1 p.2 a) l2 ps2 ->
  ps1 ≡ₚ ps2 -> exists l, l1 ≡ₚ l /\ Forall2 (≡) l l2.
Proof.
  intros F1 F2 E. destruct (Permutation_Forall2 E (proj1 (Forall2_flip _ _ _) F1)) as (l & El & Fl).
  exists l. split; [done|]. clear - F2 Fl. revert l2 F2. induction Fl as [|p a ps l [Hs Ht] Fl IH]; intros l2 F2; inversion F2 as [|b ? l2' ? [Hs' Ht'] F2']; [constructor|].
  subst. constructor; [|by apply IH]. eapply shift_unique; [exact Hs|exact Hs'|by rewrite Ht, Ht'].
Qed.

Lemma applied_books_unique l m db m1 db1 m2 db2 :
  applied sig_check check_sigs checker db m l m1 db1 -> applied sig_check check_sigs checker db m l m2 db2 ->
  Forall2 trie_eq (mm_books m1) (mm_books m2).
Proof.
  intros A1 A2. destruct (ap_books _ _ _ _ _ _ _ _ A1) as (l1 & -> & E1 & B1), (ap_books _ _ _ _ _ _ _ _ A2) as (l2 & -> & E2 & B2).
  rewrite !mm_books_set by done. apply Forall2_same_length_lookup. split; [congruence|]. intros n t1 t2 Ht1 Ht2.
  destruct (lookup_lt_is_Some_2 (mm_books m) n) as [t0 Ht0]; [rewrite <- E1; by eapply lookup_lt_Some|].
  destruct (B1 n t0 Ht0) as (t1' & Ht1' & P1 & P2 & P3), (B2 n t0 Ht0) as (t2' & Ht2' & Q1 & Q2 & Q3).
  assert (t1' = t1) as -> by congruence. assert (t2' = t2) as -> by congruence. constructor; congruence.
Qed.

Lemma applied_accounts_unique l m db m1 db1 m2 db2 :
  db_ok db1 -> db_ok db2 ->
  applied sig_check check_sigs checker db m l m1 db1 -> applied sig_check check_sigs checker db m l m2 db2 ->
  Forall2 (≡) (MemoryDatabase.database db1) (MemoryDatabase.database db2).
Proof.
  intros [O1 _] [O2 _] A1 A2. pose proof (ap_length _ _ _ _ _ _ _ _ A1) as E1. pose proof (ap_length _ _ _ _ _ _ _ _ A2) as E2.
  apply Forall2_same_length_lookup. split; [congruence|]. intros i a1 a2 H1' H2'.
  destruct (lookup_lt_is_Some_2 (MemoryDatabase.database db) i) as [a0 H0']; [rewrite <- E1; by eapply lookup_lt_Some|].
  destruct (ap_account _ _ _ _ _ _ _ _ A1 i a0 H0') as (b1 & Hb1 & S1 & T1), (ap_account _ _ _ _ _ _ _ _ A2 i a0 H0') as (b2 & Hb2 & S2 & T2).
  assert (b1 = a1) as -> by congruence. assert (b2 = a2) as -> by congruence. eapply shift_unique; [exact S1|exact S2|].
  eapply tracker_after_unique; [| |exact T1|exact T2].
  - apply (Forall_lookup_1 _ _ _ _ O1 H1').
  - apply (Forall_lookup_1 _ _ _ _ O2 H2').
Qed.

Lemma result_unique l l' m db stats m1 db1 stats1 m2 db2 stats2 :
  l ≡ₚ l' -> MemoryDatabase.uncommitted_db db = [] -> NoDup (added_keys (added_by (effects sig_check check_sigs checker db m l))) ->
  block_result l m db stats m1 db1 stats1 -> block_result l' m db stats m2 db2 stats2 -> same_state m1 db1 stats1 m2 db2 stats2.
Proof.
  intros El Hu Hnd [P1 (x1 & A1 & B1) P3 P4 P5] [Q1 (x2 & A2 & B2) Q3 Q4 Q5]. rewrite <- El in A2.
  assert (Ee : effects sig_check check_sigs checker db m l ≡ₚ effects sig_check check_sigs checker db m l') by (unfold effects; by rewrite El).
  constructor.
  - by rewrite (ap_map _ _ _ _ _ _ _ _ A1), (ap_map _ _ _ _ _ _ _ _ A2).
  - by eapply applied_accounts_unique.
  - by rewrite (ap_reserved _ _ _ _ _ _ _ _ A1), (ap_reserved _ _ _ _ _ _ _ _ A2).
  - destruct (ap_uncommitted _ _ _ _ _ _ _ _ A1) as (l1 & ps1 & -> & F1 & E1).
    destruct (ap_uncommitted _ _ _ _ _ _ _ _ A2) as (l2 & ps2 & -> & F2 & E2). rewrite Hu. cbn [app].
    eapply created_unique; [exact F1|exact F2|by rewrite E1, E2].
  - rewrite B1, B2. by eapply applied_books_unique.
  - apply Forall2_same_length_lookup. split; [congruence|]. intros n t t' Ht Ht'. rewrite (P4 n t Ht), (Q4 n t' Ht').
    apply put_added_perm; [|done]. unfold added_by. by rewrite Ee.
  - intros n. rewrite P5, Q5. do 2 f_equal. unfold executed_supply, executed_by. by rewrite Ee.
Qed.

(** ** The theorems *)

(** No price of the header is zero.  Nothing checks it, and the code divides by the
    price of the bought asset; the division of the model is total, so the theorems
    that say that validation returns are about positive prices. *)
Definition prices_positive : Prop := Forall (fun p => 0 < p) (prices checker).

(** C1.  Validation decides the block.  Let the prices be positive.  Whatever the division of the block over the
    workers and however they are interleaved, transaction by transaction, a validation
    that returns, returns [true] exactly when every transaction is valid on the committed
    state, no two reserve the same sequence number, create the same account or cancel
    the same offer, and no balance is negative after the block.  It does return, unless
    it is left with the error of [category_to_idx] for a cancellation of the block,
    which names a pair that is not listed; it always returns when all cancellations name
    listed pairs, and when the transactions are valid. *)
Theorem block_validation_decides m db lg ranges sched main_stats stats :
  validation_ready m db ranges -> prices_positive -> enough_turns ranges sched ->
  let r := validate_transaction_block_ sig_check check_sigs checker m db 0 lg ranges sched main_stats stats in
  let valid := block_valid sig_check check_sigs checker db m (block_txs ranges) in
  ((exists m' db' logs main_stats' stats' b, r = Ok (m', db', logs, main_stats', stats', b) /\
      (b = true <-> valid /\ balances_valid sig_check check_sigs checker db m (block_txs ranges))) \/
   exists er, r = Throw er /\ txs_error m (block_txs ranges) er) /\
  (block_cancels_listed m ranges \/ valid -> forall er, r <> Throw er).
Proof.
  intros Hr _ Hfair r valid. subst r valid.
  destruct (validation_outcome m db lg ranges sched main_stats stats Hr Hfair) as [(m' & db' & lgs & s' & st' & b & E & Hb & _)|(er & E & He)];
    rewrite E.
  - split; [|done]. left. by exists m', db', lgs, s', st', b.
  - split; [right; by exists er|]. intros [Hl|Hv]; [by destruct (listed_no_error m db ranges er Hr Hl)|by destruct (valid_no_error _ _ _ er Hv)].
Qed.

(** C2.  An accepted block is applied exactly: every balance is the old one plus
    what the effects of the transactions move there, the numbers of its
    transactions can no longer be reserved, the new offers wait in their orderbooks,
    the cancelled ones are marked, and the statistics grew by the executed
    supply. *)
Theorem accepted_block_is_applied m db lg ranges sched main_stats stats m' db' logs main_stats' stats' :
  validation_ready m db ranges -> enough_turns ranges sched ->
  validate_transaction_block_ sig_check check_sigs checker m db 0 lg ranges sched main_stats stats =
    Ok (m', db', logs, main_stats', stats', true) ->
  let es := effects sig_check check_sigs checker db m (block_txs ranges) in
  (forall i a, MemoryDatabase.database db !! i = Some a -> exists a', MemoryDatabase.database db' !! i = Some a' /\
     forall n, RevertableAsset.available (UserAccount.asset_of a' n) =
       i64 (RevertableAsset.available (UserAccount.asset_of a n) + moved_by es (DbPtr i) n)) /\
  Forall (fun stx => ~ accepts_number db' (transaction stx)) (block_txs ranges) /\
  (forall n t, mm_waiting m' !! n = Some t -> ot_map t = put_added n (added_by es) ∅) /\
  (forall n t, mm_books m !! n = Some t -> exists t', mm_books m' !! n = Some t' /\ ot_map t' = ot_map t /\
     ot_marked t' = keys_at n (cancelled_by es) ∪ ot_marked t) /\
  (forall n, u128 (stat_at main_stats' n) = u128 (stat_at main_stats n + executed_supply n (executed_by es))).
Proof.
  intros Hr Hfair Erun es.
  destruct (validation_outcome m db lg ranges sched main_stats stats Hr Hfair) as [(m2 & db2 & lgs2 & s2 & st2 & b & E & _ & Hres)|(er & E & _)];
    [|congruence].
  rewrite E in Erun. injection Erun as -> -> -> -> -> ->. destruct (Hres eq_refl) as [R1 (x & Ha & Ex) _ R4 R5].
  split_and!; [| |exact R4| |exact R5].
  - intros i a Hi. destruct (ap_account _ _ _ _ _ _ _ _ Ha i a Hi) as (a' & Ha' & Hs & _). exists a'. split; [done|].
    intros n. apply (shifted_balance _ _ _ _ Hs).
  - apply Forall_forall. intros stx Hin Hacc. pose proof (vr_bounds _ _ _ Hr) as Hb. rewrite Forall_forall in Hb.
    apply (accepts_after sig_check check_sigs checker db m (vr_db _ _ _ Hr) _ _ _ _ Ha R1 (tb_seq _ _ (Hb stx Hin))) in Hacc as [_ Hslot].
    apply Hslot. by apply (list_elem_of_fmap_2 (number_slot db)).
  - intros n t Ht. rewrite Ex. destruct (ap_books _ _ _ _ _ _ _ _ Ha) as (l & -> & El & Hb). rewrite mm_books_set by done.
    destruct (Hb n t Ht) as (t' & Ht' & Q1 & _ & Q3). by exists t'.
Qed.

(** C3.  The order of the transactions is irrelevant.  At positive prices two blocks
    with the same transactions, whose cancellations name listed pairs, get the same verdict, in any
    orders, divisions and interleavings, and if they are accepted, the resulting
    accounts, offers and supplies are the same.  (With a cancellation of another pair,
    the order may decide whether its error comes before a worker has seen another
    failure.) *)
Theorem validation_order_irrelevant m db lg lg' ranges ranges' sched sched' main_stats stats stats' :
  validation_ready m db ranges -> prices_positive -> block_cancels_listed m ranges ->
  enough_turns ranges sched -> enough_turns ranges' sched' -> block_txs ranges ≡ₚ block_txs ranges' ->
  exists m1 db1 lgs1 s1 st1 m2 db2 lgs2 s2 st2 b,
    validate_transaction_block_ sig_check check_sigs checker m db 0 lg ranges sched main_stats stats = Ok (m1, db1, lgs1, s1, st1, b) /\
    validate_transaction_block_ sig_check check_sigs checker m db 0 lg' ranges' sched' main_stats stats' = Ok (m2, db2, lgs2, s2, st2, b) /\
    (b = true -> same_state m1 db1 s1 m2 db2 s2).
Proof.
  intros Hr _ Hl Hfair Hfair' El. assert (Hl' : block_cancels_listed m ranges') by (unfold block_cancels_listed in *; by rewrite <- El).
  assert (Hr' : validation_ready m db ranges').
  { destruct Hr as [R1 R2 R3 R4 R5 R6 R7]. constructor; try done. by rewrite <- El. }
  destruct (validation_outcome m db lg ranges sched main_stats stats Hr Hfair)
    as [(m1 & db1 & lgs1 & s1 & st1 & b1 & E1 & V1 & R1)|(er & _ & He)]; [|by destruct (listed_no_error m db ranges er Hr Hl)].
  destruct (validation_outcome m db lg' ranges' sched' main_stats stats' Hr' Hfair')
    as [(m2 & db2 & lgs2 & s2 & st2 & b2 & E2 & V2 & R2)|(er & _ & He)]; [|by destruct (listed_no_error m db ranges' er Hr' Hl')].
  assert (Eb : b1 = b2).
  { apply eq_bool_prop_intro. by rewrite !Is_true_true, V1, V2, El. }
  subst b2. exists m1, db1, lgs1, s1, st1, m2, db2, lgs2, s2, st2, b1. split_and!; [done|done|]. intros Hb.
  eapply result_unique; [exact El|apply Hr| |by apply R1|by apply R2].
  apply (block_added_keys sig_check check_sigs checker db m); [|apply Hr]. by apply V1.
Qed.
End Decision.
