(* ===== verification/ModLog.v ===== *)
(** * The account modification log (src/modlog/account_modification_log.h, .cc,
      log_entry_fns.h, .cc, typedefs.h)

    While a block is processed every thread logs which accounts it modified, and
    why, in a trie of its own; [merge_in_log_batch] merges them into the main trie.
    The hash of the log goes into the header, and in production the logged
    transactions are the block that is sent out.

    The trie is outside the repository ([RecyclingTrie], and [LogTrie] for what only
    this log uses).  The static configuration is the default one. *)
From stdpp Require Import base gmap list strings sorting.
From S2P Require Import Prelude RecyclingTrie Types Asset SeqTracker Accounts AccountLmdb Database DbView Offers SerialManager BlockValidator.

Definition DETAILED_MOD_LOGGING : bool := true.

Record TxIdentifier := mkTxIdentifier { ti_owner : Z; ti_sequence_number : Z }.
Record AccountModificationTxList := mkTxList {
  log_owner : Z;
  new_transactions_self : list SignedTransaction;
  identifiers_self : list Z;
  identifiers_others : list TxIdentifier
}.
Definition sequence_number_of (stx : SignedTransaction) : Z := sequenceNumber (metadata (transaction stx)).
Definition sender_of (stx : SignedTransaction) : Z := sourceAccount (metadata (transaction stx)).

Class LogTrie (TR : Type) `{RecyclingTrie AccountModificationTxList TR} := {
  lt_size : TR -> Z;
  lt_apply : (AccountModificationTxList -> AccountModificationTxList) -> TR -> TR;
  lt_hash : TR -> list Z;
  lt_size_map t : lt_size t = Z.of_nat (size (rt_map t));
  lt_apply_map f t : rt_map (lt_apply f t) = f <$> rt_map t;
  lt_hash_map t1 t2 : rt_map t1 = rt_map t2 -> lt_hash t1 = lt_hash t2;
  (** keys are account ids, most significant byte first *)
  lt_keys_ascending t : StronglySorted Z.le (rt_keys t)
}.

(** ** The entry of one account *)
Module LogListInsertFn.
Definition new_value (prefix : Z) : AccountModificationTxList := mkTxList prefix [] [] [].
Definition value_insert_self (self_sequence_number : Z) (main_value : AccountModificationTxList) : AccountModificationTxList :=
  mkTxList (log_owner main_value) (new_transactions_self main_value) (identifiers_self main_value ++ [self_sequence_number])
    (identifiers_others main_value).
Definition value_insert_other (other_identifier : TxIdentifier) (main_value : AccountModificationTxList)
    : AccountModificationTxList :=
  mkTxList (log_owner main_value) (new_transactions_self main_value) (identifiers_self main_value)
    (identifiers_others main_value ++ [other_identifier]).
Definition value_insert_tx (self_transaction : SignedTransaction) (main_value : AccountModificationTxList)
    : AccountModificationTxList :=
  mkTxList (log_owner main_value) (new_transactions_self main_value ++ [self_transaction]) (identifiers_self main_value)
    (identifiers_others main_value).
End LogListInsertFn.
Module LogKeyOnlyInsertFn.
Definition new_value := LogListInsertFn.new_value.
Definition value_insert (main_value : AccountModificationTxList) : AccountModificationTxList := main_value.
End LogKeyOnlyInsertFn.

(** [LogMergeFn::value_merge]. *)
Definition value_merge (original_value merge_in_value : AccountModificationTxList) : result AccountModificationTxList :=
  let merged := mkTxList (log_owner original_value)
    (new_transactions_self original_value ++ new_transactions_self merge_in_value)
    (identifiers_self original_value ++ identifiers_self merge_in_value)
    (identifiers_others original_value ++ identifiers_others merge_in_value) in
  if negb (log_owner merged =? log_owner merge_in_value) then Throw "owner mismatch when merging logs!!!" else Ok merged.

(** *** Normalising: sorting, and removing some duplicates *)
Definition tx_identifier_le (a b : TxIdentifier) : Prop :=
  ti_owner a < ti_owner b \/ ti_owner a = ti_owner b /\ ti_sequence_number a <= ti_sequence_number b.
#[global] Instance tx_identifier_le_dec a b : Decision (tx_identifier_le a b).
Proof. unfold tx_identifier_le. apply _. Defined.
Definition self_transaction_le (a b : SignedTransaction) : Prop := sequence_number_of a <= sequence_number_of b.
#[global] Instance self_transaction_le_dec a b : Decision (self_transaction_le a b) := Z_le_dec _ _.

Definition tx_identifier_eq (a b : TxIdentifier) : bool :=
  (ti_owner a =? ti_owner b) && (ti_sequence_number a =? ti_sequence_number b).
Definition transaction_eq (a b : SignedTransaction) : bool := sequence_number_of a =? sequence_number_of b.

(** The loop increments [i] after every comparison, and once more when nothing was
    erased.  It runs at most once per element. *)
Fixpoint dedup_loop {A} (fuel : nat) (comparator : A -> A -> bool) (values : list A) (i : nat) : list A :=
  match fuel with
  | O => values
  | S fuel =>
      match values !! i, values !! (i - 1)%nat with
      | Some a, Some b =>
          if comparator a b then dedup_loop fuel comparator (delete i values) (i + 1)
          else dedup_loop fuel comparator values (i + 2)
      | _, _ => values
      end
  end.
Definition dedup {A} (values : list A) (comparator : A -> A -> bool) : list A :=
  dedup_loop (length values) comparator values 1.

(** [LogNormalizeFn::apply_to_value].  [std::sort] may order transactions with equal
    sequence numbers either way; here it keeps them. *)
Definition apply_to_value (log : AccountModificationTxList) : AccountModificationTxList :=
  mkTxList (log_owner log) (dedup (merge_sort self_transaction_le (new_transactions_self log)) transaction_eq)
    (dedup (merge_sort Z.le (identifiers_self log)) Z.eqb)
    (dedup (merge_sort tx_identifier_le (identifiers_others log)) tx_identifier_eq).

Section Log.
Context {FT : Type} `{LogTrie FT}.

(** ** [SerialAccountModificationLog]: the log of one thread *)
Definition insert (value_insert : AccountModificationTxList -> AccountModificationTxList) (modification_log : FT) (k : Z) : FT :=
  if DETAILED_MOD_LOGGING then rt_insert LogListInsertFn.new_value value_insert modification_log k
  else rt_insert LogKeyOnlyInsertFn.new_value LogKeyOnlyInsertFn.value_insert modification_log k.
#[global] Instance trie_log : SerialAccountModificationLog FT := {
  log_self_modification lg owner sequence_number := insert (LogListInsertFn.value_insert_self sequence_number) lg owner;
  log_other_modification lg tx_owner sequence_number modified_account :=
    insert (LogListInsertFn.value_insert_other (mkTxIdentifier tx_owner sequence_number)) lg modified_account;
  log_new_self_transaction lg tx := insert (LogListInsertFn.value_insert_tx tx) lg (sender_of tx)
}.

Lemma insert_keys f lg k : dom (rt_map (insert f lg k)) = {[k]} ∪ dom (rt_map lg).
Proof. unfold insert, rt_insert. cbn [DETAILED_MOD_LOGGING]. rewrite rt_set_map. apply leibniz_equiv, dom_insert. Qed.
#[global] Program Instance trie_log_accounts : ModifiedAccounts FT := { log_accounts lg := dom (rt_map lg) }.
Next Obligation. intros. apply insert_keys. Qed.
Next Obligation. intros. apply insert_keys. Qed.
Next Obligation. intros. apply insert_keys. Qed.

End Log.

(** ** [AccountModificationLog] *)
Module AccountModificationLog.
Section Main.
Context {FT : Type} `{LogTrie FT}.
Record t := mk {
  (** the tries of the threads *)
  cache : list FT;
  modification_log : FT;
  persistable_block : list AccountModificationTxList
}.
Implicit Types log : t.
Definition new : t := mk [] rt_empty [].
Definition size log : Z := lt_size (modification_log log).
(** Threads log into tries of the cache. *)
Definition with_cache log (serials : list FT) : t := mk (cache log ++ serials) (modification_log log) (persistable_block log).

Definition accumulate_values (tr : FT) : list AccountModificationTxList := omap (rt_get tr) (rt_keys tr).

Definition merge_in_log_batch log : result t :=
  let* tr := batch_merge_in value_merge (cache log) (modification_log log) in Ok (mk [] tr (persistable_block log)).

Definition hash log : t * list Z :=
  let tr := lt_apply apply_to_value (modification_log log) in
  (mk (cache log) tr (accumulate_values tr), lt_hash tr).

Definition detached_clear log : t := mk [] rt_empty [].

(** The block is written by the caller; [persist_block] must be [false]. *)
Definition persist_block log (return_block persist_block : bool) : result (t * option (list AccountModificationTxList)) :=
  let block :=
    if (persist_block || return_block) && (length (persistable_block log) =? 0)%nat && (0 <? size log)
    then accumulate_values (modification_log log) else persistable_block log in
  if persist_block then Throw "dead code path"
  else if return_block then Ok (mk (cache log) (modification_log log) [], Some block)
  else Ok (mk (cache log) (modification_log log) block, None).

(** What [parallel_iterate_over_log] and [parallel_accumulate_keys] visit. *)
Definition keys log : list Z := rt_keys (modification_log log).
End Main.
Arguments t : clear implicits.
End AccountModificationLog.

(** [write_tx_data] of speedex_persistence.cc. *)
Definition write_tx_data (block_in : list AccountModificationTxList) : list SignedTransaction :=
  block_in ≫= new_transactions_self.
