(* ===== verification/ModLogProps.v ===== *)
(** * What the merged modification log says

    Whatever entries the threads logged and however they were divided, the merged
    log holds them by account; its hash and the block made from it do not depend on
    the division, and the block is exactly the logged transactions. *)
From stdpp Require Import base gmap list strings sorting.
From S2P Require Import Prelude RecyclingTrie Types Asset SeqTracker Accounts AccountLmdb Database DbView Offers SerialManager BlockValidator ModLog.
Import AccountModificationLog.

(** ** Removing duplicates *)
Lemma dedup_loop_distinct {A} (eq : A -> A -> bool) fuel (l : list A) i :
  (forall j a b, l !! S j = Some a -> l !! j = Some b -> eq a b = false) -> (0 < i)%nat -> dedup_loop fuel eq l i = l.
Proof.
  intros Hl. revert i. induction fuel as [|fuel IH]; intros i Hi; [done|]. cbn [dedup_loop].
  destruct (l !! i) as [a|] eqn:Ea; [|done]. destruct (l !! (i - 1)%nat) as [b|] eqn:Eb; [|done].
  destruct i as [|i]; [lia|]. replace (S i - 1)%nat with i in Eb by lia. rewrite (Hl i a b Ea Eb). apply IH. lia.
Qed.

(** Sorted lists with distinct keys have no equal neighbours. *)
Lemma dedup_sorted_nodup {A} (f : A -> Z) (eq : A -> A -> bool) l :
  (forall a b, eq a b = true -> f a = f b) -> NoDup (f <$> l) -> dedup l eq = l.
Proof.
  intros Hf Hn. apply dedup_loop_distinct; [|lia]. intros j a b Ha Hb. destruct (eq a b) eqn:E; [|done]. apply Hf in E.
  assert (S j = j); [|lia]. eapply (NoDup_lookup (f <$> l) _ _ (f a)); [done| |].
  - by rewrite list_lookup_fmap, Ha.
  - by rewrite list_lookup_fmap, Hb, E.
Qed.

(** ** The orders of [std::sort] *)
#[local] Instance tx_identifier_le_total : Total tx_identifier_le.
Proof. intros a b. unfold tx_identifier_le. lia. Qed.
#[local] Instance tx_identifier_le_trans : Transitive tx_identifier_le.
Proof. intros a b c. unfold tx_identifier_le. lia. Qed.
#[local] Instance tx_identifier_le_antisymm : AntiSymm (=) tx_identifier_le.
Proof. intros [o1 n1] [o2 n2]. unfold tx_identifier_le. cbn. intros H1 H2. f_equal; lia. Qed.
#[local] Instance self_transaction_le_total : Total self_transaction_le.
Proof. intros a b. unfold self_transaction_le. lia. Qed.
#[local] Instance self_transaction_le_trans : Transitive self_transaction_le.
Proof. intros a b c. unfold self_transaction_le. lia. Qed.
#[local] Instance Zle_total : Total Z.le.
Proof. intros a b. lia. Qed.

Lemma merge_sort_unique {A} (R : relation A) `{!RelDecision R, !Total R, !Transitive R} l1 l2 :
  (forall a b, a ∈ l1 -> b ∈ l2 -> R a b -> R b a -> a = b) -> l1 ≡ₚ l2 -> merge_sort R l1 = merge_sort R l2.
Proof.
  intros Ha Hp. apply (StronglySorted_unique_strong R).
  - intros x y Hx Hy. rewrite merge_sort_Permutation in Hx, Hy. by apply Ha.
  - by apply StronglySorted_merge_sort.
  - by apply StronglySorted_merge_sort.
  - by rewrite !merge_sort_Permutation.
Qed.

(** Entries of one account with the same insertions, in any order. *)
Record same_entry (a b : AccountModificationTxList) : Prop := {
  se_owner : log_owner a = log_owner b;
  se_txs : new_transactions_self a ≡ₚ new_transactions_self b;
  se_self : identifiers_self a ≡ₚ identifiers_self b;
  se_others : identifiers_others a ≡ₚ identifiers_others b
}.

Lemma apply_to_value_unique a b :
  same_entry a b -> NoDup (sequence_number_of <$> new_transactions_self a) -> apply_to_value a = apply_to_value b.
Proof.
  intros [E1 E2 E3 E4] Hn. unfold apply_to_value. f_equal; [done|..]; f_equal.
  - apply (merge_sort_unique self_transaction_le); [|done]. intros x y Hx Hy H1 H2. rewrite <- E2 in Hy.
    apply list_elem_of_lookup in Hx as [i Hi], Hy as [j Hj].
    assert (i = j); [|congruence]. apply (NoDup_lookup _ i j (sequence_number_of x) Hn); [by rewrite list_lookup_fmap, Hi|].
    rewrite list_lookup_fmap, Hj. cbn. f_equal. unfold self_transaction_le in *. lia.
  - apply (merge_sort_unique Z.le); [|done]. intros x y _ _ Hxy Hyx. lia.
  - apply (merge_sort_unique tx_identifier_le); [|done]. intros x y _ _. apply (anti_symm tx_identifier_le).
Qed.

Lemma apply_to_value_txs a :
  NoDup (sequence_number_of <$> new_transactions_self a) ->
  new_transactions_self (apply_to_value a) = merge_sort self_transaction_le (new_transactions_self a).
Proof.
  intros Hn. cbn [apply_to_value new_transactions_self]. apply (dedup_sorted_nodup sequence_number_of).
  - intros x y. apply Z.eqb_eq.
  - by rewrite merge_sort_Permutation.
Qed.

(** ** The entries of a log *)
Inductive LogEntry :=
| SelfModification (owner sequence_number : Z)
| OtherModification (tx_owner sequence_number modified_account : Z)
| NewTransaction (stx : SignedTransaction).
Definition entry_account (e : LogEntry) : Z :=
  match e with
  | SelfModification owner _ => owner
  | OtherModification _ _ account => account
  | NewTransaction stx => sender_of stx
  end.
Definition entry_tx (e : LogEntry) : option SignedTransaction := match e with NewTransaction stx => Some stx | _ => None end.
Definition entry_self (e : LogEntry) : option Z := match e with SelfModification _ n => Some n | _ => None end.
Definition entry_other (e : LogEntry) : option TxIdentifier :=
  match e with OtherModification o n _ => Some (mkTxIdentifier o n) | _ => None end.
Definition log_one {LG} `{SerialAccountModificationLog LG} (lg : LG) (e : LogEntry) : LG :=
  match e with
  | SelfModification owner n => log_self_modification lg owner n
  | OtherModification o n account => log_other_modification lg o n account
  | NewTransaction stx => log_new_self_transaction lg stx
  end.
(** The transactions among the entries. *)
Definition entry_txs (l : list LogEntry) : list SignedTransaction := omap entry_tx l.

(** The value of account [k] after the entries [l]. *)
Definition value_of (k : Z) (l : list LogEntry) : AccountModificationTxList :=
  let mine := filter (fun e => entry_account e = k) l in
  mkTxList k (entry_txs mine) (omap entry_self mine) (omap entry_other mine).
Definition logged (k : Z) (l : list LogEntry) (o : option AccountModificationTxList) : Prop :=
  o = if decide (Exists (fun e => entry_account e = k) l) then Some (value_of k l) else None.

Lemma value_of_app k l1 l2 : value_merge (value_of k l1) (value_of k l2) = Ok (value_of k (l1 ++ l2)).
Proof.
  unfold value_merge, value_of, entry_txs. cbn [log_owner new_transactions_self identifiers_self identifiers_others].
  rewrite Z.eqb_refl. cbn [negb]. by rewrite filter_app, !omap_app.
Qed.
Lemma value_of_none k l : ~ Exists (fun e => entry_account e = k) l -> filter (fun e => entry_account e = k) l = [].
Proof.
  intros Hn. apply not_Exists_Forall in Hn; [|intros ?; apply _]. induction Hn; [done|]. by rewrite filter_cons_False.
Qed.

Lemma logged_both k l1 l2 v1 v2 : logged k l1 (Some v1) -> logged k l2 (Some v2) ->
  exists v, value_merge v1 v2 = Ok v /\ logged k (l1 ++ l2) (Some v).
Proof.
  unfold logged. intros E1 E2. exists (value_of k (l1 ++ l2)).
  destruct (decide (Exists (fun e => entry_account e = k) l1)) as [H1|]; [|done].
  destruct (decide (Exists (fun e => entry_account e = k) l2)) as [H2|]; [|done].
  injection E1 as ->. injection E2 as ->. split; [apply value_of_app|]. by rewrite decide_True by (apply Exists_app; by left).
Qed.
Lemma logged_left k l1 l2 o : logged k l1 o -> logged k l2 None -> logged k (l1 ++ l2) o.
Proof.
  unfold logged. intros -> E2. destruct (decide (Exists (fun e => entry_account e = k) l2)) as [|H2]; [done|].
  destruct (decide (Exists (fun e => entry_account e = k) l1)) as [H1|H1].
  - rewrite decide_True by (apply Exists_app; by left). f_equal. unfold value_of.
    by rewrite filter_app, (value_of_none k l2), app_nil_r.
  - rewrite decide_False; [done|]. by intros [?|?]%Exists_app.
Qed.
Lemma logged_right k l1 l2 o : logged k l1 None -> logged k l2 o -> logged k (l1 ++ l2) o.
Proof.
  unfold logged. intros E1 ->. destruct (decide (Exists (fun e => entry_account e = k) l1)) as [|H1]; [done|].
  destruct (decide (Exists (fun e => entry_account e = k) l2)) as [H2|H2].
  - rewrite decide_True by (apply Exists_app; by right). f_equal. unfold value_of.
    by rewrite filter_app, (value_of_none k l1).
  - rewrite decide_False; [done|]. by intros [?|?]%Exists_app.
Qed.

(** ** Logs *)
Section Logs.
Context {FT : Type} `{LogTrie FT}.
Implicit Types (tr : FT) (l : list LogEntry).

(** The trie holds the entries [l]. *)
Definition holds l tr : Prop := collects logged l tr.

Lemma holds_empty : holds [] rt_empty.
Proof. intros k. unfold logged. rewrite rt_map_empty, lookup_empty, decide_False; [done|]. by intros ?%Exists_nil. Qed.

Lemma value_of_snoc k l e :
  entry_account e = k -> value_of k (l ++ [e]) =
    match e with
    | SelfModification _ n => LogListInsertFn.value_insert_self n (value_of k l)
    | OtherModification o n _ => LogListInsertFn.value_insert_other (mkTxIdentifier o n) (value_of k l)
    | NewTransaction stx => LogListInsertFn.value_insert_tx stx (value_of k l)
    end.
Proof.
  intros He. unfold value_of, entry_txs. rewrite filter_app, filter_cons_True, filter_nil, !omap_app by done.
  by destruct e; cbn; rewrite ?app_nil_r.
Qed.

Lemma holds_insert f l tr k e :
  holds l tr -> entry_account e = k -> (forall l, value_of k (l ++ [e]) = f (value_of k l)) -> holds (l ++ [e]) (insert f tr k).
Proof.
  intros Hl He Hf j. unfold insert, rt_insert. cbn [DETAILED_MOD_LOGGING]. rewrite rt_set_map, rt_get_map. pose proof (Hl j) as Hj.
  destruct (decide (j = k)) as [->|Hne].
  - rewrite lookup_insert_eq. unfold logged in *. rewrite decide_True by (apply Exists_app; right; by apply Exists_cons_hd).
    rewrite Hf, Hj. f_equal. f_equal. destruct (decide _) as [|Hn]; [done|]. cbn. unfold value_of. by rewrite (value_of_none k l).
  - rewrite lookup_insert_ne by done. apply (logged_left j l [e]); [exact Hj|]. unfold logged. rewrite decide_False; [done|].
    intros Hx%Exists_cons. destruct Hx as [Hx|Hx]; [congruence|by apply Exists_nil in Hx].
Qed.

Lemma holds_log_one l tr e : holds l tr -> holds (l ++ [e]) (log_one tr e).
Proof.
  intros Hl. destruct e; cbn [log_one log_self_modification log_other_modification log_new_self_transaction trie_log];
    (apply holds_insert; [done|done|]); intros l'; by rewrite value_of_snoc.
Qed.
(** The log of a thread that made the entries [l]. *)
Lemma holds_log_all l : holds l (foldl log_one rt_empty l).
Proof.
  induction l as [|e l IH] using rev_ind; [apply holds_empty|]. rewrite foldl_app. by apply holds_log_one.
Qed.

Lemma merged_log_holds log l parts :
  holds l (modification_log log) -> Forall2 holds parts (cache log) ->
  exists log', merge_in_log_batch log = Ok log' /\ holds (l ++ concat parts) (modification_log log') /\ cache log' = [] /\
    persistable_block log' = persistable_block log.
Proof.
  intros Hl Hp. unfold merge_in_log_batch.
  destruct (batch_merge_spec value_merge logged logged_both logged_left logged_right parts (cache log) (modification_log log) l Hl Hp)
    as (tr & -> & Htr). cbn [result_bind]. by eexists.
Qed.

(** ** The merged log *)
Lemma holds_lookup l tr k v : holds l tr -> rt_map tr !! k = Some v -> v = value_of k l.
Proof. intros Hl Hk. specialize (Hl k). unfold logged in Hl. rewrite Hk in Hl. case_decide; congruence. Qed.
Lemma holds_some l tr k : holds l tr -> is_Some (rt_map tr !! k) <-> Exists (fun e => entry_account e = k) l.
Proof. intros Hl. rewrite (Hl k). case_decide; split; try done; by intros []. Qed.

Lemma value_of_same_entry k l l' : l ≡ₚ l' -> same_entry (value_of k l) (value_of k l').
Proof. intros Hp. unfold value_of, entry_txs. constructor; cbn; [done|..]; by rewrite Hp. Qed.

Lemma value_of_txs_nodup k l :
  NoDup ((fun stx => (sender_of stx, sequence_number_of stx)) <$> entry_txs l) ->
  NoDup (sequence_number_of <$> new_transactions_self (value_of k l)).
Proof.
  intros Hn. cbn [value_of new_transactions_self]. unfold entry_txs in *.
  induction l as [|e l IH]; [constructor|]. rewrite filter_cons.
  assert (Hl : NoDup ((fun stx => (sender_of stx, sequence_number_of stx)) <$> omap entry_tx l)).
  { destruct e; try done. cbn in Hn. by apply NoDup_cons in Hn as [_ Hn]. }
  case_decide as He; [|by apply IH]. destruct e as [| |stx]; [by apply IH|by apply IH|]. cbn in *.
  apply NoDup_cons in Hn as [Hx _]. apply NoDup_cons. split; [|by apply IH]. intros Hin. apply Hx.
  apply list_elem_of_fmap in Hin as (stx' & E & Hin). apply list_elem_of_fmap. exists stx'.
  apply list_elem_of_omap in Hin as (e' & [Hk Hin]%list_elem_of_filter & Ee). destruct e'; try done. injection Ee as ->. cbn in Hk.
  split; [congruence|]. apply list_elem_of_omap. by exists (NewTransaction stx').
Qed.

Lemma keys_unique tr tr' : dom (rt_map tr) = dom (rt_map tr') -> rt_keys tr = rt_keys tr'.
Proof.
  intros Hd. apply (StronglySorted_unique Z.le); [apply lt_keys_ascending|apply lt_keys_ascending|].
  apply NoDup_Permutation; [apply rt_keys_nodup|apply rt_keys_nodup|]. intros k.
  by rewrite !rt_keys_elem, <- !elem_of_dom, Hd.
Qed.
Lemma accumulate_unique tr tr' : rt_map tr = rt_map tr' -> accumulate_values tr = accumulate_values tr'.
Proof.
  intros E. unfold accumulate_values. rewrite (keys_unique tr tr') by (by rewrite E).
  apply list_omap_ext, Forall_Forall2_diag, Forall_forall. intros k _. by rewrite !rt_get_map, E.
Qed.

(** The trie after [hash] normalised its values. *)
Lemma normalised_unique l l' tr tr' :
  holds l tr -> holds l' tr' -> l ≡ₚ l' ->
  NoDup ((fun stx => (sender_of stx, sequence_number_of stx)) <$> entry_txs l) ->
  rt_map (lt_apply apply_to_value tr) = rt_map (lt_apply apply_to_value tr').
Proof.
  intros Hl Hl' Hp Hn. rewrite !lt_apply_map. apply map_eq. intros k. rewrite !lookup_fmap, (Hl k), (Hl' k).
  rewrite (decide_ext _ (Exists (fun e => entry_account e = k) l')) by (by rewrite Hp).
  case_decide; [|done]. cbn. f_equal. apply apply_to_value_unique; [by apply value_of_same_entry|by apply value_of_txs_nodup].
Qed.

Lemma accumulate_normalised l tr :
  holds l tr ->
  accumulate_values (lt_apply apply_to_value tr) = (fun k => apply_to_value (value_of k l)) <$> rt_keys tr.
Proof.
  intros Hl. unfold accumulate_values. rewrite (keys_unique (lt_apply apply_to_value tr) tr).
  2: { rewrite lt_apply_map. apply dom_fmap_L. }
  assert (Hk : Forall (fun k => is_Some (rt_map tr !! k)) (rt_keys tr)).
  { apply Forall_forall. intros k Hk. by apply rt_keys_elem. }
  induction Hk as [|k ks [v Hv] Hk IH]; [done|]. cbn [omap list_omap fmap list_fmap].
  rewrite rt_get_map, lt_apply_map, lookup_fmap, Hv. cbn. by rewrite (holds_lookup _ _ _ _ Hl Hv), IH.
Qed.

(** ** The block made from the log *)
Definition before (a b : SignedTransaction) : Prop :=
  sender_of a < sender_of b \/ sender_of a = sender_of b /\ sequence_number_of a <= sequence_number_of b.

Lemma bind_one_more {A} (f : Z -> list A) k x (ks : list Z) :
  NoDup ks -> k ∈ ks -> (ks ≫= fun j => if decide (k = j) then x :: f j else f j) ≡ₚ x :: (ks ≫= f).
Proof.
  intros Hn. induction Hn as [|j ks Hj Hn IH]; intros Hk; [by apply elem_of_nil in Hk|]. cbn [mbind list_bind].
  apply elem_of_cons in Hk as [->|Hk].
  - rewrite decide_True by done. cbn [app]. constructor. apply Permutation_app_head.
    clear IH Hn. induction ks as [|i ks IH]; [done|]. cbn [mbind list_bind]. apply not_elem_of_cons in Hj as [Hij Hj].
    rewrite decide_False by done. by rewrite IH.
  - rewrite decide_False by (intros ->; done). rewrite (IH Hk). by rewrite Permutation_middle.
Qed.
Lemma split_by_account l (ks : list Z) :
  NoDup ks -> (forall e, e ∈ l -> entry_account e ∈ ks) ->
  (ks ≫= fun k => entry_txs (filter (fun e => entry_account e = k) l)) ≡ₚ entry_txs l.
Proof.
  intros Hn. induction l as [|e l IH]; intros Hks.
  { clear. by induction ks as [|k ks IH]; [|cbn [mbind list_bind]; rewrite IH]. }
  specialize (IH ltac:(intros; apply Hks; by right)). unfold entry_txs in *. cbn [omap list_omap]. destruct (entry_tx e) as [stx|] eqn:Ee.
  - rewrite <- IH, <- (bind_one_more _ (entry_account e)) by (done || apply Hks; by left). apply Permutation_refl', list_bind_ext; [|done].
    intros k. rewrite filter_cons. case_decide; [|done]. cbn [omap list_omap]. by rewrite Ee.
  - rewrite <- IH. apply Permutation_refl', list_bind_ext; [|done]. intros k. rewrite filter_cons. case_decide; [|done].
    cbn [omap list_omap]. by rewrite Ee.
Qed.

Lemma bind_of_fmap {A B C} (f : B -> list C) (g : A -> B) (l : list A) : (g <$> l) ≫= f = l ≫= fun a => f (g a).
Proof. induction l as [|a l IH]; [done|]. cbn [fmap list_fmap mbind list_bind]. by rewrite IH. Qed.

Lemma value_txs_senders k l : Forall (fun stx => sender_of stx = k) (new_transactions_self (value_of k l)).
Proof.
  apply Forall_forall. intros stx Hin. cbn [value_of new_transactions_self] in Hin. unfold entry_txs in Hin.
  apply list_elem_of_omap in Hin as (e & [Hk _]%list_elem_of_filter & Ee). by destruct e; simplify_eq/=.
Qed.

Lemma block_sorted (f : Z -> list SignedTransaction) (ks : list Z) :
  StronglySorted Z.lt ks -> (forall k, StronglySorted self_transaction_le (f k)) ->
  (forall k, Forall (fun stx => sender_of stx = k) (f k)) -> StronglySorted before (ks ≫= f).
Proof.
  intros Hks Hs Hf. induction Hks as [|k ks Hks IH Hk]; [constructor|]. cbn [mbind list_bind]. apply StronglySorted_app_2; [| |done].
  - intros a b Ha (j & Hb & Hj)%list_elem_of_bind. left. pose proof (Hf k) as Hfk. pose proof (Hf j) as Hfj.
    rewrite Forall_forall in Hfk. rewrite Forall_forall in Hfj. rewrite Forall_forall in Hk. rewrite (Hfk a Ha), (Hfj b Hb). by apply Hk.
  - specialize (Hs k). specialize (Hf k). induction Hs as [|a l Hs IHs Ha]; [constructor|]. inversion_clear Hf as [|? ? Hfa Hfl].
    constructor; [by apply IHs|]. rewrite Forall_forall in Ha. rewrite Forall_forall in Hfl. apply Forall_forall. intros b Hb. right. split; [|by apply Ha].
    rewrite Hfa. symmetry. by apply Hfl.
Qed.
Lemma keys_increasing tr : StronglySorted Z.lt (rt_keys tr).
Proof.
  pose proof (lt_keys_ascending tr) as Hs. pose proof (rt_keys_nodup tr) as Hn. induction Hs as [|k ks Hs IH Hk]; [constructor|].
  apply NoDup_cons in Hn as [Hin Hn]. constructor; [by apply IH|]. rewrite Forall_forall in Hk |- *. intros j Hj.
  assert (k <> j) by (by intros ->). specialize (Hk j Hj). lia.
Qed.

Lemma block_of_log l tr :
  holds l tr -> NoDup ((fun stx => (sender_of stx, sequence_number_of stx)) <$> entry_txs l) ->
  let block := write_tx_data (accumulate_values (lt_apply apply_to_value tr)) in
  block ≡ₚ entry_txs l /\ StronglySorted before block.
Proof.
  intros Hl Hn block.
  assert (Eb : block = rt_keys tr ≫= fun k => merge_sort self_transaction_le (new_transactions_self (value_of k l))).
  { unfold block, write_tx_data. rewrite (accumulate_normalised l tr Hl), bind_of_fmap. apply list_bind_ext; [|done].
    intros k. apply (apply_to_value_txs (value_of k l)). by apply value_of_txs_nodup. }
  rewrite Eb. split.
  - rewrite <- (split_by_account l (rt_keys tr)).
    + clear Eb block. induction (rt_keys tr) as [|k ks IH]; [done|]. cbn [mbind list_bind]. rewrite IH.
      by rewrite merge_sort_Permutation.
    + apply rt_keys_nodup.
    + intros e He. apply rt_keys_elem. apply (holds_some l tr _ Hl). apply Exists_exists. by exists e.
  - apply block_sorted; [apply keys_increasing| |].
    + intros k. apply (StronglySorted_merge_sort self_transaction_le).
    + intros k. rewrite merge_sort_Permutation. apply value_txs_senders.
Qed.

(** ** The theorems *)

(** No sender has two transactions with one sequence number among the entries. *)
Definition distinct_numbers (l : list LogEntry) : Prop :=
  NoDup ((fun stx => (sender_of stx, sequence_number_of stx)) <$> entry_txs l).
(** The threads' tries in an otherwise empty log: thread [i] made the entries
    [parts !! i]. *)
Definition freshly_logged (parts : list (list LogEntry)) (log : AccountModificationLog.t FT) : Prop :=
  log = with_cache new (foldl log_one rt_empty <$> parts).

Lemma fresh_merged parts log : freshly_logged parts log ->
  exists log', merge_in_log_batch log = Ok log' /\ holds (concat parts) (modification_log log') /\ cache log' = [].
Proof.
  intros ->. destruct (merged_log_holds (with_cache new (foldl log_one rt_empty <$> parts)) [] parts) as (log' & E & Hl & Hc & _).
  - apply holds_empty.
  - cbn. apply Forall2_fmap_r, Forall_Forall2_diag, Forall_forall. intros l _. apply holds_log_all.
  - by exists log'.
Qed.

(** C11.  The hash of the log does not depend on the threads.  Two divisions of the
    same entries over any numbers of threads, in any orders, merge without an
    exception and give the same hash and the same block. *)
Theorem log_hash_is_order_independent parts parts' log log' :
  freshly_logged parts log -> freshly_logged parts' log' -> concat parts ≡ₚ concat parts' -> distinct_numbers (concat parts) ->
  exists m m', merge_in_log_batch log = Ok m /\ merge_in_log_batch log' = Ok m' /\
    (hash m).2 = (hash m').2 /\ persistable_block (hash m).1 = persistable_block (hash m').1.
Proof.
  intros Hl Hl' Hp Hn. destruct (fresh_merged parts log Hl) as (m & E & Hm & _), (fresh_merged parts' log' Hl') as (m' & E' & Hm' & _).
  exists m, m'. split; [done|]. split; [done|]. unfold hash. cbn [fst snd persistable_block].
  pose proof (normalised_unique _ _ _ _ Hm Hm' Hp Hn) as Hmap. split; [by apply lt_hash_map|by apply accumulate_unique].
Qed.

(** C10.  The block is what the threads logged: after the merge and the hash,
    [persist_block] hands out entries whose transactions are exactly the logged
    ones, each once, in the order of sender and sequence number. *)
Theorem persisted_block_is_logged parts log :
  freshly_logged parts log -> distinct_numbers (concat parts) ->
  exists m m' block, merge_in_log_batch log = Ok m /\
    persist_block (hash m).1 true false = Ok (m', Some block) /\
    write_tx_data block ≡ₚ entry_txs (concat parts) /\ StronglySorted before (write_tx_data block).
Proof.
  intros Hl Hn. destruct (fresh_merged parts log Hl) as (m & E & Hm & _). destruct (block_of_log _ _ Hm Hn) as [Hp Hs].
  exists m. unfold persist_block. cbn [orb hash fst modification_log persistable_block].
  set (tr := lt_apply apply_to_value (modification_log m)) in *.
  assert (Eb : (if (length (accumulate_values tr) =? 0)%nat && (0 <? size (mk (cache m) tr (accumulate_values tr)))
    then accumulate_values tr else accumulate_values tr) = accumulate_values tr) by by destruct (_ && _).
  cbn [andb]. rewrite Eb. do 2 eexists. split; [done|]. split; [reflexivity|]. by split.
Qed.
End Logs.
