(* ===== verification/Engine.v ===== *)
(** * Creating and validating a block (src/speedex/speedex_operation.cc,
      speedex_management_structures.h, autorollback_validation_structures.h, .cc,
      persist_critical_round_data of speedex_persistence.cc)

    The structures of one node, and the two procedures that turn a block of
    transactions into the next state: production, which computes the header, and
    validation, which runs against a given header and keeps or undoes its changes.

    Prices and the linear program's solution are arguments of production; how a
    parallel loop was divided and scheduled is an argument of both. *)
From stdpp Require Import base gmap list strings sorting.
From S2P Require Import Prelude RecyclingTrie Types PriceArith Asset SeqTracker Accounts AccountLmdb Database Offers Clearing Demand DbView SerialManager Orderbook Manager HeaderMap TxProcessor BlockValidator ModLog.

(** ** Blocks (src/xdr/block.x) *)
Record InternalHashes := mkInternalHashes {
  dbHash : list Z;
  clearingDetails : list SingleOrderbookStateCommitment;
  modificationLogHash : list Z;
  blockMapHash : list Z
}.
Record Block := mkBlock {
  prevBlockHash : list Z;
  block_number : Z;
  prices : list Price;
  feeRate : Z;
  internalHashes : InternalHashes
}.
Record HashedBlock := mkHashedBlock { block : Block; block_hash : list Z }.

(** [hash_xdr] of a block: the hash function is outside the repository. *)
Class BlockHash := hash_block : Block -> list Z.
#[global] Program Instance block_header `{BlockHash} : HeaderBlock Block := {
  blockNumber b := u64 (block_number b);
  hash_xdr := hash_block
}.
Next Obligation. intros. apply u64_range. Qed.

Record ApproximationParameters := mkApprox { tax_rate_target : Z; smooth_mult_target : Z }.

Section Engine.
Context {T : Type} `{SequenceTracker T} {CT : Type} `{MerkleTrie AccountCommitment CT} {L : Type} `{LMDBInstance L}.
Context {TR : Type} `{OfferTrieIndex TR} `{BigEndian} {FT : Type} `{LogTrie FT}.
Context {HT : Type} `{MerkleTrie BlockHeaderHashValue HT} {W : Type} `{HeaderDbi W} `{BlockHash}.
Variable sig_check : Transaction -> list Z -> PublicKey -> bool.
Abbreviation DB := (MemoryDatabase.t T CT L).
Abbreviation Manager := (OrderbookManager (TR := TR)).
Abbreviation Log := (AccountModificationLog.t FT).
Abbreviation HeaderHashMap := (BlockHeaderHashMap.t HT W).

Record SpeedexManagementStructures := mkStructures {
  db : DB;
  (** [db]'s queue of blocks to persist *)
  persistence_thunks : list DBPersistenceThunk;
  orderbook_manager : Manager;
  account_modification_log : Log;
  block_header_hash_map : HeaderHashMap;
  approx_params : ApproximationParameters;
  (** [configs.check_sigs] *)
  check_sigs : bool
}.

Definition set_db (ms : SpeedexManagementStructures) (d : DB) : SpeedexManagementStructures :=
  mkStructures d (persistence_thunks ms) (orderbook_manager ms) (account_modification_log ms) (block_header_hash_map ms)
    (approx_params ms) (check_sigs ms).
Definition set_thunks (ms : SpeedexManagementStructures) (l : list DBPersistenceThunk) : SpeedexManagementStructures :=
  mkStructures (db ms) l (orderbook_manager ms) (account_modification_log ms) (block_header_hash_map ms) (approx_params ms)
    (check_sigs ms).
Definition set_manager (ms : SpeedexManagementStructures) (m : Manager) : SpeedexManagementStructures :=
  mkStructures (db ms) (persistence_thunks ms) m (account_modification_log ms) (block_header_hash_map ms) (approx_params ms)
    (check_sigs ms).
Definition set_log (ms : SpeedexManagementStructures) (lg : Log) : SpeedexManagementStructures :=
  mkStructures (db ms) (persistence_thunks ms) (orderbook_manager ms) lg (block_header_hash_map ms) (approx_params ms)
    (check_sigs ms).
Definition set_header_map (ms : SpeedexManagementStructures) (hm : HeaderHashMap) : SpeedexManagementStructures :=
  mkStructures (db ms) (persistence_thunks ms) (orderbook_manager ms) (account_modification_log ms) hm (approx_params ms)
    (check_sigs ms).

(** The accounts in the log. *)
Definition modified (ms : SpeedexManagementStructures) : list Z := AccountModificationLog.keys (account_modification_log ms).

(** A parallel pass logged into the trie [serial]; [merge_in_log_batch]. *)
Definition merge_logs (ms : SpeedexManagementStructures) (serials : list FT) : result SpeedexManagementStructures :=
  let* lg := AccountModificationLog.merge_in_log_batch
               (AccountModificationLog.with_cache (account_modification_log ms) serials) in
  Ok (set_log ms lg).

(** ** Production *)

(** [detail::speedex_make_state_commitment]. *)
Definition speedex_make_state_commitment (ms : SpeedexManagementStructures) (clearing_details : list SingleOrderbookStateCommitment)
    : result (SpeedexManagementStructures * InternalHashes) :=
  let* q := MemoryDatabase.produce_state_commitment (db ms) (modified ms) in
  let* details := hash (orderbook_manager ms) clearing_details in
  let lg := AccountModificationLog.hash (account_modification_log ms) in
  Ok (set_log (set_db ms q.1) lg.1,
      mkInternalHashes q.2 details lg.2 (BlockHeaderHashMap.hash (block_header_hash_map ms))).

(** [detail::speedex_format_hashed_block]. *)
Definition speedex_format_hashed_block (hashes : InternalHashes) (prev_block : HashedBlock) (price_workspace : list Price)
    (tax_rate : Z) : HashedBlock :=
  let b := mkBlock (block_hash prev_block) (u64 (block_number (block prev_block) + 1)) price_workspace tax_rate hashes in
  mkHashedBlock b (hash_block b).

(** [speedex_block_creation_logic]: [price_workspace] and [lp_results] are what
    tatonnement and the linear program left; [batches] is how the orderbooks were
    divided. *)
Definition speedex_block_creation_logic (ms : SpeedexManagementStructures) (price_workspace : list Price) (lp_results : ClearingParams)
    (prev_block : HashedBlock) (state_update_stats : BlockStateUpdateStats) (batches : list (list nat))
    : result (SpeedexManagementStructures * HashedBlock * BlockStateUpdateStats) :=
  let current_block_number := u64 (block_number (block prev_block) + 1) in
  let* d := MemoryDatabase.commit_new_accounts (db ms) current_block_number in
  let* m := manager_commit_for_production (orderbook_manager ms) current_block_number in
  let* clearing_check := ClearingParams_check_clearing lp_results price_workspace in
  if negb clearing_check then Throw "The prices we computed did not result in clearing!!!"
  else
    let* q := clear_offers_for_production m lp_results price_workspace (d, rt_empty) [] state_update_stats batches in
    let* ms := merge_logs (set_manager (set_db ms (ps_db q.2).1) q.1) [(ps_db q.2).2] in
    if negb (MemoryDatabase.check_valid_state (db ms) (modified ms)) then Throw "DB left in invalid state!!!"
    else
      let* d := MemoryDatabase.commit_values (db ms) (modified ms) in
      let ms := set_db ms d in
      let* achieved_smooth_mult := get_max_feasible_smooth_mult (orderbook_manager ms) lp_results price_workspace in
      let* c := speedex_make_state_commitment ms (ps_details q.2) in
      let new_block := speedex_format_hashed_block c.2 prev_block price_workspace (cp_tax_rate lp_results) in
      let* hm := BlockHeaderHashMap.insert (block_header_hash_map c.1) (block new_block) true in
      Ok (set_header_map c.1 hm, new_block, ps_stats q.2).

(** ** Validation *)

(** The flags of [SpeedexManagementStructuresAutoRollback]: what its destructor
    undoes. *)
Record AutoRollback := mkAutoRollback {
  log_do_rollback : bool;
  db_do_rollback_for_validation : bool;
  db_do_rollback_produce_state_commitment : bool;
  orderbooks_do_rollback_for_validation : bool
}.
(** [AccountModificationLogAutoRollback] starts with its flag set. *)
Definition new_auto_rollback : AutoRollback := mkAutoRollback true false false false.

(** The destructor: members in the reverse order of their declaration. *)
Definition destroy (ar : AutoRollback) (current_block_number : Z) (ms : SpeedexManagementStructures) : result SpeedexManagementStructures :=
  let* ms :=
    if orderbooks_do_rollback_for_validation ar
    then let* m := manager_rollback_validation (orderbook_manager ms) in Ok (set_manager ms m) else Ok ms in
  let* ms :=
    if db_do_rollback_for_validation ar
    then let* d := MemoryDatabase.rollback_new_accounts (db ms) current_block_number in
         Ok (set_db ms (MemoryDatabase.rollback_values d)) else Ok ms in
  let* ms :=
    if db_do_rollback_produce_state_commitment ar
    then let* d := MemoryDatabase.rollback_produce_state_commitment (db ms) (modified ms) in Ok (set_db ms d) else Ok ms in
  Ok (if log_do_rollback ar then set_log ms (AccountModificationLog.detached_clear (account_modification_log ms)) else ms).

(** [finalize_commit]: the log, the database, the orderbooks. *)
Definition finalize_commit (ar : AutoRollback) (ms : SpeedexManagementStructures) : result (SpeedexManagementStructures * AutoRollback) :=
  if negb (db_do_rollback_for_validation ar) || negb (db_do_rollback_produce_state_commitment ar)
  then Throw "committing from invalid state"
  else
    let* d := MemoryDatabase.commit_values (db ms) (modified ms) in
    let* m := manager_finalize_validation (orderbook_manager ms) in
    Ok (set_manager (set_db ms (MemoryDatabase.finalize_produce_state_commitment d)) m,
        mkAutoRollback false false false false).

(** How the transactions of a block and the orderbooks were divided and run. *)
Record Division := mkDivision {
  dv_ranges : list (list (list (list SignedTransaction)));
  dv_sched : list nat;
  dv_batches : list (list nat)
}.

(** [debug_hash_discrepancy] always throws; a different modification log stops it
    earlier, in [diff_with_prev_log]. *)
Definition debug_hash_discrepancy (expected_next_block : HashedBlock) (comparison_next_block : Block) : string :=
  if decide (modificationLogHash (internalHashes comparison_next_block) =
             modificationLogHash (internalHashes (block expected_next_block)))
  then "crash immediately on desync" else "unimpl yet for AccountModificationEntry".

(** The block a validator computes, to be compared with the header. *)
Definition comparison_block (prev_block expected_next_block : HashedBlock) (hashes : InternalHashes) : Block :=
  mkBlock (block_hash prev_block) (u64 (block_number (block prev_block) + 1)) (prices (block expected_next_block))
    (feeRate (block expected_next_block)) hashes.

(** The part of [_speedex_block_validation_logic] in the scope of the rollback
    object: the state it leaves, the flags, and the result. *)
Definition validation_scope (ms : SpeedexManagementStructures) (checker : OrderbookStateCommitmentChecker) (prev_block expected_next_block : HashedBlock)
    (dv : Division) (state_update_stats : BlockStateUpdateStats)
    : result (SpeedexManagementStructures * AutoRollback * bool * BlockStateUpdateStats) :=
  let current_block_number := u64 (block_number (block prev_block) + 1) in
  let* clearing_param_res := check_clearing checker in
  if negb clearing_param_res then Ok (ms, new_auto_rollback, false, state_update_stats)
  else
    let* v := validate_transaction_block_ sig_check (check_sigs ms) checker (orderbook_manager ms) (db ms)
                (AccountModificationLog.size (account_modification_log ms)) rt_empty (dv_ranges dv) (dv_sched dv)
                (make_minimum_size [] (Z.to_nat (get_num_orderbooks (orderbook_manager ms)))) state_update_stats in
    let '(m, d, serials, validation_stats, state_update_stats, res) := v in
    let ms := set_manager (set_db ms d) m in
    if negb res then
      Ok (set_log ms (AccountModificationLog.with_cache (account_modification_log ms) serials), new_auto_rollback, false,
          state_update_stats)
    else
      let* ms := merge_logs ms serials in
      let* d := MemoryDatabase.commit_new_accounts (db ms) current_block_number in
      let* m := commit_for_validation (orderbook_manager ms) current_block_number in
      let* q := manager_tentative_clear_offers_for_validation m (d, rt_empty) validation_stats checker state_update_stats
                  (dv_batches dv) in
      let '(m, vs, clearings_valid) := q in
      let state_update_stats := vs_stats vs in
      let* ms := merge_logs (set_manager (set_db ms (vs_db vs).1) m) [(vs_db vs).2] in
      let cleared := mkAutoRollback true true false true in
      if negb clearings_valid then Ok (ms, cleared, false, state_update_stats)
      else
        let* st := check_stats checker (vs_validation_stats vs) in
        if negb st.2 then Ok (ms, cleared, false, state_update_stats)
        else
          let* q := MemoryDatabase.tentative_produce_state_commitment (db ms) (modified ms) in
          let ms := set_db ms q.1 in
          let* details := hash (orderbook_manager ms) (clearingDetails (internalHashes (block expected_next_block))) in
          let lg := AccountModificationLog.hash (account_modification_log ms) in
          let ms := set_log ms lg.1 in
          let comparison_next_block := comparison_block prev_block expected_next_block
            (mkInternalHashes q.2 details lg.2 (BlockHeaderHashMap.hash (block_header_hash_map ms))) in
          if decide (hash_block comparison_next_block = block_hash expected_next_block) then
            let* f := finalize_commit (mkAutoRollback true true true true) ms in
            Ok (f.1, f.2, true, state_update_stats)
          else Throw (debug_hash_discrepancy expected_next_block comparison_next_block).

(** The checks on the header that come first. *)
Definition header_acceptable (ms : SpeedexManagementStructures) (prev_block expected_next_block : HashedBlock) : bool :=
  let b := block expected_next_block in
  (u64 (block_number (block prev_block) + 1) =? block_number b) &&
  (Z.of_nat (length (prices b)) =? num_assets (orderbook_manager ms)) &&
  (Z.of_nat (length (clearingDetails (internalHashes b))) =? get_num_orderbooks (orderbook_manager ms)) &&
  negb (u32 (feeRate b + 1) <? tax_rate_target (approx_params ms)) &&
  bool_decide (prevBlockHash b = block_hash prev_block).

(** The checker's tax rate is a [uint8_t]. *)
Definition commitment_checker (b : Block) : OrderbookStateCommitmentChecker :=
  mkChecker (clearingDetails (internalHashes b)) (prices b) (u8 (feeRate b)).

Definition _speedex_block_validation_logic (ms : SpeedexManagementStructures) (prev_block expected_next_block : HashedBlock) (dv : Division)
    : result (SpeedexManagementStructures * bool) :=
  if negb (header_acceptable ms prev_block expected_next_block) then Ok (ms, false)
  else
    let* q := validation_scope ms (commitment_checker (block expected_next_block)) prev_block expected_next_block dv zero_stats in
    let '(ms, ar, res, _) := q in
    let* ms := destroy ar (u64 (block_number (block prev_block) + 1)) ms in
    Ok (ms, res).

Definition ensure_sequential_block_numbers (prev_block expected_next_block : HashedBlock) : Block :=
  let b := block expected_next_block in
  mkBlock (prevBlockHash b) (u64 (block_number (block prev_block) + 1)) (prices b) (feeRate b) (internalHashes b).

Definition speedex_block_validation_logic (ms : SpeedexManagementStructures) (prev_block expected_next_block : HashedBlock) (dv : Division)
    : result (SpeedexManagementStructures * Block * bool) :=
  let* q := _speedex_block_validation_logic ms prev_block expected_next_block dv in
  let corrected_block := ensure_sequential_block_numbers prev_block expected_next_block in
  let* hm := BlockHeaderHashMap.insert (block_header_hash_map q.1) corrected_block q.2 in
  Ok (set_header_map q.1 hm, corrected_block, q.2).

(** ** After a block: its changes are queued for the disk *)
Definition persist_critical_round_data (ms : SpeedexManagementStructures) (header : HashedBlock) (get_block write_block : bool)
    : result (SpeedexManagementStructures * option (list SignedTransaction)) :=
  let current_block_number := block_number (block header) in
  let* p := AccountModificationLog.persist_block (account_modification_log ms) get_block write_block in
  let ms := set_log ms p.1 in
  let* thunks := MemoryDatabase.add_persistence_thunk (db ms) current_block_number (modified ms) (persistence_thunks ms) in
  Ok (set_log (set_thunks ms thunks) (AccountModificationLog.detached_clear (account_modification_log ms)),
      write_tx_data <$> p.2).
End Engine.
Arguments SpeedexManagementStructures : clear implicits.
