(* ===== verification/EngineProps.v ===== *)
(** * Blocks that are accepted and blocks that are not

    An accepted header commits to the state the validator ends in; what a rejected
    block leaves behind, and what that does to the next block. *)
From stdpp Require Import base gmap list strings sorting.
From S2P Require Import Prelude RecyclingTrie Types PriceArith Asset SeqTracker Accounts AccountLmdb Database Offers Clearing Demand DbView SerialManager Orderbook Manager HeaderMap TxProcessor TxAtomicity BlockAssembly BlockValidator ValidationEffects ValidationProps BlockValidation CommitmentTrie Frames BlockDecision ModLog ModLogProps Engine.

(** ** Orderbooks *)
Section Books.
Context {TR : Type} `{OfferTrieIndex TR} `{BigEndian}.
Abbreviation Manager := (OrderbookManager (TR := TR)).

(** The commitments [hash] writes only depend on the tries of the offers. *)
Lemma finalized_hash (m m' : Manager) l : manager_finalize_validation m = Ok m' -> hash m' l = hash m l.
Proof.
  unfold manager_finalize_validation, generic_map. intros E. ok_inv. apply result_map_Ok in E0. unfold hash. cbn [set_orderbooks orderbooks].
  rewrite <- (Forall2_length _ _ _ E0). destruct (_ <? _)%nat; [done|]. f_equal. apply imap_ext. intros i c _.
  destruct (orderbooks m !! i) as [b|] eqn:Eb.
  - destruct (Forall2_lookup_l _ _ _ _ _ E0 Eb) as (b' & -> & Ef). f_equal. unfold finalize_validation in Ef. ok_inv. cbn.
    by rewrite ot_clear_rollback_hash.
  - destruct (r !! i) eqn:Er; [|done]. destruct (Forall2_lookup_r _ _ _ _ _ E0 Er) as (b & Hb & _). congruence.
Qed.
End Books.

Section Engine.
Context {T : Type} `{SequenceTrackerRefines T} {CT : Type} `{MerkleTrie AccountCommitment CT} {L : Type} `{LMDBInstance L}.
Context {TR : Type} `{OfferTrieIndex TR} `{BigEndian} {FT : Type} `{LogTrie FT}.
Context {HT : Type} `{MerkleTrie BlockHeaderHashValue HT} {W : Type} `{HeaderDbi W} `{BlockHash}.
Variable sig_check : Transaction -> list Z -> PublicKey -> bool.
Abbreviation DB := (MemoryDatabase.t T CT L).
Abbreviation Structures := (SpeedexManagementStructures T CT L TR FT HT W).
Implicit Types (st : Structures) (dv : Division).

Lemma hashed_log_keys (log : AccountModificationLog.t FT) :
  AccountModificationLog.keys (AccountModificationLog.hash log).1 = AccountModificationLog.keys log.
Proof. apply keys_unique. cbn. by rewrite lt_apply_map, dom_fmap_L. Qed.

(** The state of a node between blocks: the index and the trie fit the accounts, and
    nothing is pending. *)
Record between_blocks st : Prop := {
  bb_wf : MemoryDatabase.wf (db st);
  bb_trackers : trackers_wf (db st);
  bb_current : trie_current (db st);
  bb_pending : MemoryDatabase.uncommitted_db (db st) = [] /\ MemoryDatabase.reserved_account_ids (db st) = ∅
}.

(** What the hash of an accepted header is the hash of. *)
Definition committed_hashes st (details : list SingleOrderbookStateCommitment) : InternalHashes :=
  mkInternalHashes (trie_hash (MemoryDatabase.commitment_trie (db st))) details
    (lt_hash (AccountModificationLog.modification_log (account_modification_log st)))
    (BlockHeaderHashMap.hash (block_header_hash_map st)).

(** [next] was rightly accepted: its transactions are valid on the state [st] before,
    its prices clear the market, and its hash is the one of the state [st'] after. *)
Record accepted st prev next dv st' : Prop := {
  ac_header : header_acceptable st prev next = true;
  ac_clearing : check_clearing (commitment_checker (block next)) = Ok true;
  ac_transactions :
    block_valid sig_check (check_sigs st) (commitment_checker (block next)) (db st) (orderbook_manager st) (block_txs (dv_ranges dv)) /\
    balances_valid sig_check (check_sigs st) (commitment_checker (block next)) (db st) (orderbook_manager st) (block_txs (dv_ranges dv));
  ac_hash : exists details, hash (orderbook_manager st') (clearingDetails (internalHashes (block next))) = Ok details /\
    block_hash next = hash_block (comparison_block prev next (committed_hashes st' details));
  ac_headers : block_header_hash_map st' = block_header_hash_map st
}.

(** What a validation that accepts has computed. *)
Record accepting_run st checker prev next dv st' : Prop := mkAcceptingRun {
  ar_clearing : check_clearing checker = Ok true;
  ar_steps : exists m d serials stats stats1 d1 m1 r st1 d2 hash_db details log d3,
    validate_transaction_block_ sig_check (check_sigs st) checker (orderbook_manager st) (db st)
      (AccountModificationLog.size (account_modification_log st)) rt_empty (dv_ranges dv) (dv_sched dv)
      (make_minimum_size [] (Z.to_nat (get_num_orderbooks (orderbook_manager st)))) zero_stats = Ok (m, d, serials, stats, stats1, true) /\
    MemoryDatabase.commit_new_accounts d (u64 (block_number (block prev) + 1)) = Ok d1 /\
    manager_tentative_clear_offers_for_validation m1 (d1, rt_empty) stats checker stats1 (dv_batches dv) = Ok r /\
    db st1 = (vs_db r.1.2).1 /\ block_header_hash_map st1 = block_header_hash_map st /\
    MemoryDatabase.tentative_produce_state_commitment (db st1) (modified st1) = Ok (d2, hash_db) /\
    hash (orderbook_manager st1) (clearingDetails (internalHashes (block next))) = Ok details /\
    log = AccountModificationLog.hash (account_modification_log st1) /\
    block_hash next = hash_block (comparison_block prev next
      (mkInternalHashes hash_db details log.2 (BlockHeaderHashMap.hash (block_header_hash_map st)))) /\
    MemoryDatabase.commit_values d2 (AccountModificationLog.keys log.1) = Ok d3 /\
    db st' = d3 /\ account_modification_log st' = log.1 /\ block_header_hash_map st' = block_header_hash_map st /\
    manager_finalize_validation (orderbook_manager st1) = Ok (orderbook_manager st')
}.
Lemma scope_accepts st checker prev next dv st' ar sf :
  validation_scope sig_check st checker prev next dv zero_stats = Ok (st', ar, true, sf) ->
  ar = mkAutoRollback false false false false /\ accepting_run st checker prev next dv st'.
Proof.
  unfold validation_scope. intros E. apply result_bind_Ok in E as ([] & Ec & E); [|done]. cbn [negb] in E.
  apply result_bind_Ok in E as ([[[[[m d] serials] stats] stats1] []] & Ev & E); [|done]. cbn [negb] in E.
  apply result_bind_Ok in E as (st0 & E0 & E). apply result_bind_Ok in E as (d1 & E1 & E).
  apply result_bind_Ok in E as (m1 & E2 & E). apply result_bind_Ok in E as ([[m2 vs] cv] & E3 & E).
  apply result_bind_Ok in E as (st1 & E4 & E). destruct cv; [|done]. cbn [negb] in E.
  apply result_bind_Ok in E as ([ss []] & E5 & E); [|done]. cbn [negb snd] in E.
  apply result_bind_Ok in E as ([d2 hd] & E6 & E). apply result_bind_Ok in E as (details & E7 & E).
  destruct (decide _) as [Eh|]; [|done]. apply result_bind_Ok in E as (f & E8 & [= <- <- <-]).
  unfold finalize_commit in E8. cbn [negb db_do_rollback_for_validation db_do_rollback_produce_state_commitment orb] in E8.
  apply result_bind_Ok in E8 as (d3 & E8 & E9). apply result_bind_Ok in E9 as (m3 & E9 & [= <-]). split; [done|]. constructor; [done|].
  unfold merge_logs in E0, E4. apply result_bind_Ok in E0 as (l0 & _ & [= <-]). apply result_bind_Ok in E4 as (l1 & _ & [= <-]).
  exists m, d, serials, stats, stats1, d1, m1, (m2, vs, true), (set_log (set_manager (set_db (set_log (set_manager (set_db st d) m) l0) (vs_db vs).1) m2) l1),
    d2, hd, details, (AccountModificationLog.hash l1), d3. by split_and!.
Qed.

(** The database after the transactions of a valid block, with the accounts they
    created. *)
Record transactions_done st prev next dv (d d1 : DB) : Prop := {
  td_valid : block_valid sig_check (check_sigs st) (commitment_checker (block next)) (db st) (orderbook_manager st) (block_txs (dv_ranges dv));
  td_balances : balances_valid sig_check (check_sigs st) (commitment_checker (block next)) (db st) (orderbook_manager st) (block_txs (dv_ranges dv));
  td_applied : exists m, applied sig_check (check_sigs st) (commitment_checker (block next)) (db st) (orderbook_manager st)
    (block_txs (dv_ranges dv)) m d;
  td_same : same_committed (db st) d;
  td_wf : MemoryDatabase.wf d1;
  td_trackers : trackers_wf d1;
  td_current : trie_current d1;
  td_pending : MemoryDatabase.uncommitted_db d1 = [] /\ MemoryDatabase.reserved_account_ids d1 = ∅;
  td_database : MemoryDatabase.database d1 = MemoryDatabase.database d ++ (UserAccount.commit <$> MemoryDatabase.uncommitted_db d);
  td_thunks : MemoryDatabase.account_creation_thunks d1 = MemoryDatabase.account_creation_thunks (db st) ++
    [mkCreationThunk (u64 (block_number (block prev) + 1)) (Z.of_nat (length (MemoryDatabase.uncommitted_db d)))]
}.
Lemma transactions_committed st prev next dv m d serials stats stats1 d1 :
  between_blocks st ->
  validation_ready (commitment_checker (block next)) (orderbook_manager st) (db st) (dv_ranges dv) ->
  enough_turns (dv_ranges dv) (dv_sched dv) ->
  validate_transaction_block_ sig_check (check_sigs st) (commitment_checker (block next)) (orderbook_manager st) (db st)
    (AccountModificationLog.size (account_modification_log st)) rt_empty (dv_ranges dv) (dv_sched dv)
    (make_minimum_size [] (Z.to_nat (get_num_orderbooks (orderbook_manager st)))) zero_stats = Ok (m, d, serials, stats, stats1, true) ->
  MemoryDatabase.commit_new_accounts d (u64 (block_number (block prev) + 1)) = Ok d1 ->
  transactions_done st prev next dv d d1.
Proof.
  intros [Hwf Htr Hcur [Hu Hr0]] Hr Hfair Ev En.
  assert (Hs : AccountModificationLog.size (account_modification_log st) = 0).
  { unfold validate_transaction_block_ in Ev. by destruct (Z.eqb_spec (AccountModificationLog.size (account_modification_log st)) 0). }
  rewrite Hs in Ev. pose proof (validation_frame _ _ _ _ _ _ _ _ _ _ _ _ Ev) as Hf. cbn in Hf. injection Hf as Htrie _ Hth.
  destruct (validation_outcome sig_check (check_sigs st) (commitment_checker (block next)) _ _ rt_empty (dv_ranges dv) (dv_sched dv)
    (make_minimum_size [] (Z.to_nat (get_num_orderbooks (orderbook_manager st)))) zero_stats Hr Hfair)
    as [(m' & d' & lg' & s' & ss' & b' & Ev' & Hb & Hres)|(er & Ev' & _)]; [|congruence].
  rewrite Ev in Ev'. injection Ev' as <- <- <- <- <- <-. destruct (proj1 Hb eq_refl) as [Hv Hbal].
  destruct (Hres eq_refl) as [Rdb (m2 & Rap & _) _ _ _].
  destruct (applied_committed _ _ _ _ _ _ _ _ (vr_db _ _ _ _ Hr) Hu Rap Rdb Htrie) as (C1 & C2 & C3 & C4 & C5).
  destruct (commit_new_accounts_current _ _ _ (same_committed_wf _ _ C1 Hwf) C3 C4 C5 C2 (same_committed_current _ _ C1 Hcur) En)
    as (D1 & D2 & D3 & D4 & D5).
  destruct (MemoryDatabase.commit_new_accounts_spec _ _ _ (same_committed_wf _ _ C1 Hwf) C3 C4 En) as (_ & E1 & E2 & _).
  constructor; try done; [by eexists|by rewrite E2, Hth].
Qed.

(** C4.  An accepted header commits to the state.  When a validator accepts a block, the
    header's fields are right, its prices clear the market, its transactions are valid
    on the state before, and its hash is the hash of the database trie, the orderbooks,
    the modification log and the header map it ends with; that trie holds the record
    of the committed values of every account, and nothing is left pending. *)
Theorem accepted_block_commits_to_state st prev next dv st' :
  between_blocks st ->
  validation_ready (commitment_checker (block next)) (orderbook_manager st) (db st) (dv_ranges dv) ->
  enough_turns (dv_ranges dv) (dv_sched dv) ->
  _speedex_block_validation_logic sig_check st prev next dv = Ok (st', true) ->
  accepted st prev next dv st' /\ between_blocks st'.
Proof.
  intros Hbb Hr Hfair E. unfold _speedex_block_validation_logic in E.
  destruct (header_acceptable st prev next) eqn:Eh; [|done]. cbn [negb] in E.
  apply result_bind_Ok in E as ([[[st1 ar] res] sf] & E & E'). apply result_bind_Ok in E' as (st2 & Ed & [= -> ->]).
  apply scope_accepts in E as [-> [Ec (m & d & serials & stats & stats1 & d1 & m1 & r & s1 & d2 & hd & details & log & d3 &
    Ev & En & Et & E1 & E2 & Ep & Ei & -> & Eb & Eo & E3 & E4 & E5 & Ef)]]. injection Ed as <-.
  destruct (transactions_committed _ _ _ _ _ _ _ _ _ _ Hbb Hr Hfair Ev En) as [Hv Hbal _ _ D1 D2 D3 [D4 D5] _ _].
  assert (paid_keeps d1 (vs_db r.1.2).1) as (P1 & P2 & P3 & P4 & _).
  { exact (tentative_clearing_keeps (D := DB) (LG := FT) paid_keeps transfer_keeps_committed _ _ _ _ _ _ _ Et). }
  rewrite <- E1 in P1, P2, P3, P4. rewrite hashed_log_keys in Eo.
  destruct (committed_current _ _ _ _ _ (same_committed_wf _ _ P1 D1) (P2 D2) (same_committed_current _ _ P1 D3) (rt_keys_nodup _) Ep Eo)
    as (Q1 & Q2 & Q3 & Q4 & Q5 & Q6).
  split.
  - constructor; [done|done|done| |done]. exists details. rewrite (finalized_hash _ _ _ Ef). split; [done|].
    rewrite Eb. unfold committed_hashes. by rewrite E3, E4, E5, Q4.
  - constructor; rewrite E3; try done. by rewrite Q5, Q6, P3, P4.
Qed.

(** ** A block rejected while it is cleared *)

(** What a validation that rejects a block with valid transactions has computed. *)
Lemma scope_rejects st checker prev next dv st' ar sf m d serials stats stats1 :
  validation_scope sig_check st checker prev next dv zero_stats = Ok (st', ar, false, sf) -> check_clearing checker = Ok true ->
  validate_transaction_block_ sig_check (check_sigs st) checker (orderbook_manager st) (db st)
    (AccountModificationLog.size (account_modification_log st)) rt_empty (dv_ranges dv) (dv_sched dv)
    (make_minimum_size [] (Z.to_nat (get_num_orderbooks (orderbook_manager st)))) zero_stats = Ok (m, d, serials, stats, stats1, true) ->
  ar = mkAutoRollback true true false true /\ exists d1 m1 r,
    MemoryDatabase.commit_new_accounts d (u64 (block_number (block prev) + 1)) = Ok d1 /\
    manager_tentative_clear_offers_for_validation m1 (d1, rt_empty) stats checker stats1 (dv_batches dv) = Ok r /\
    db st' = (vs_db r.1.2).1.
Proof.
  unfold validation_scope. intros E Ec Ev. rewrite Ec in E. cbn [result_bind negb] in E. rewrite Ev in E. cbn [result_bind negb] in E.
  apply result_bind_Ok in E as (st0 & E0 & E). apply result_bind_Ok in E as (d1 & E1 & E).
  apply result_bind_Ok in E as (m1 & E2 & E). apply result_bind_Ok in E as ([[m2 vs] cv] & E3 & E).
  apply result_bind_Ok in E as (st1 & E4 & E).
  unfold merge_logs in E0, E4. apply result_bind_Ok in E0 as (l0 & _ & [= <-]). apply result_bind_Ok in E4 as (l1 & _ & [= <-]).
  destruct cv; cbn [negb] in E; [|injection E as <- <- _; split; [done|]; by exists d1, m1, (m2, vs, false)].
  apply result_bind_Ok in E as ([ss []] & E5 & E); cbn [negb snd] in E; [|injection E as <- <- _; split; [done|]; by exists d1, m1, (m2, vs, true)].
  apply result_bind_Ok in E as ([d2 hd] & E6 & E). apply result_bind_Ok in E as (details & E7 & E).
  destruct (decide _); [|done]. by apply result_bind_Ok in E as (f & _ & E).
Qed.
End Engine.
