(* ===== verification/Vm.v ===== *)
(** * The virtual machine of a node (src/speedex/vm/speedex_vm.h, .cc, speedex_vm_init.cc,
      the phases of src/speedex/speedex_persistence.cc)

    What consensus drives: [propose] makes a block out of the mempool, [exec_block]
    runs a decided block, [log_commitment] learns that a block is final and asks for
    its changes to be written.  Both mutexes make the operations atomic.

    An identifier of a block is the encoding of its header, so the header stands for
    it.  Writing to disk runs in the background: its phases are operations of their own,
    which may come at any later time. *)
From stdpp Require Import base gmap list strings sorting.
From S2P Require Import Prelude RecyclingTrie Types PriceArith Asset SeqTracker Accounts AccountLmdb Database Offers Clearing Demand DbView SerialManager Orderbook Manager Mempool HeaderMap OrderbookLmdb TxProcessor BlockProducer BlockValidator DatabaseReload ModLog Engine.

#[global] Instance commitment_eq_dec : EqDecision SingleOrderbookStateCommitment.
Proof. solve_decision. Defined.
#[global] Instance internal_hashes_eq_dec : EqDecision InternalHashes.
Proof. solve_decision. Defined.
#[global] Instance block_eq_dec : EqDecision Block.
Proof. solve_decision. Defined.
#[global] Instance hashed_block_eq_dec : EqDecision HashedBlock.
Proof. solve_decision. Defined.

Section Vm.
Context {T : Type} `{SequenceTracker T} {CT : Type} `{MerkleTrie AccountCommitment CT} {L : Type} `{LMDBInstance L}.
Context {TR : Type} `{OfferTrieIndex TR} `{BigEndian} {FT : Type} `{LogTrie FT}.
Context {HT : Type} `{MerkleTrie BlockHeaderHashValue HT} {W : Type} `{HeaderDbi W} `{BlockHash} {WO : Type} `{OrderbookDbi WO}.
Variable sig_check : Transaction -> list Z -> PublicKey -> bool.
Variable shorthash : Z -> Z.
Abbreviation Structures := (SpeedexManagementStructures T CT L TR FT HT W).

Record SpeedexVM := mkVM {
  management_structures : Structures;
  mempool : Mempool.t;
  proposal_base_block : HashedBlock;
  last_committed_block : HashedBlock;
  last_persisted_block_number : Z;
  pending_proposed_ids : list HashedBlock
}.
Implicit Types vm : SpeedexVM.
Definition number (b : HashedBlock) : Z := block_number (block b).

Definition set_structures vm (ms : Structures) : SpeedexVM :=
  mkVM ms (mempool vm) (proposal_base_block vm) (last_committed_block vm) (last_persisted_block_number vm) (pending_proposed_ids vm).
Definition set_mempool vm (mp : Mempool.t) : SpeedexVM :=
  mkVM (management_structures vm) mp (proposal_base_block vm) (last_committed_block vm) (last_persisted_block_number vm) (pending_proposed_ids vm).

(** ** Running a decided block *)

(** The mempool is cleaned in the background while the block runs;
    [post_validation_cleanup] waits for that. *)
Definition post_validation_cleanup (mp : Mempool.t) : result Mempool.t :=
  let* mp := Mempool.clean mp in Ok (Mempool.push_mempool_buffer_to_mempool mp).

Definition exec_block vm (blk : HashedBlock) (dv : Division) : result SpeedexVM :=
  if negb (u64 (number (last_committed_block vm) + 1) =? number blk) then Ok vm
  else
    let* q := speedex_block_validation_logic sig_check (management_structures vm) (last_committed_block vm) blk dv in
    let '(ms, corrected_next_block, res) := q in
    let last_committed := mkHashedBlock corrected_next_block (hash_block corrected_next_block) in
    let proposal_base :=
      if number (proposal_base_block vm) <? number last_committed then last_committed else proposal_base_block vm in
    let* ms := if res then let* p := persist_critical_round_data ms blk false false in Ok p.1 else Ok ms in
    let* mp := post_validation_cleanup (mempool vm) in
    Ok (mkVM ms mp proposal_base last_committed (last_persisted_block_number vm) (pending_proposed_ids vm)).

(** ** Proposing *)

(** How the threads of a production were scheduled, and what tatonnement and the linear
    program computed. *)
Record Production := mkProduction {
  pr_ranges : list (list (list nat));
  pr_sched : list nat;
  pr_prices : list Price;
  pr_lp_results : ClearingParams;
  pr_batches : list (list nat)
}.

(** [assemble_block]. *)
Definition assemble_block vm (TARGET_BLOCK_SIZE : Z) (pr : Production) : result (SpeedexVM * BlockStateUpdateStats * Z) :=
  let ms := management_structures vm in
  let mp := Mempool.push_mempool_buffer_to_mempool (mempool vm) in
  let* q := build_block sig_check (check_sigs ms) (orderbook_manager ms) (db ms) (Mempool.mempool mp) TARGET_BLOCK_SIZE
              (AccountModificationLog.size (account_modification_log ms)) rt_empty (pr_ranges pr) (pr_sched pr) zero_stats in
  let '(m, d, logs, chunks, stats, block_size) := q in
  let* ms := merge_logs (set_manager (set_db ms d) m) logs in
  Ok (set_mempool (set_structures vm ms) (Mempool.set_mempool mp chunks), stats, block_size).

Definition propose vm (TARGET_BLOCK_SIZE : Z) (pr : Production) : result (SpeedexVM * (HashedBlock * list SignedTransaction)) :=
  let* q := assemble_block vm TARGET_BLOCK_SIZE pr in
  let '(node, stats, _) := q in
  let* c := speedex_block_creation_logic (management_structures node) (pr_prices pr) (pr_lp_results pr) (proposal_base_block node) stats
              (pr_batches pr) in
  let '(ms, new_block, _) := c in
  let* p := persist_critical_round_data ms new_block true false in
  (** [post_production_cleanup] waits for the cleaning *)
  let* mp := Mempool.clean (mempool node) in
  match p.2 with
  | None => Throw "dereference of a null pointer"
  | Some output_tx_block =>
      Ok (mkVM p.1 mp new_block (last_committed_block node) (last_persisted_block_number node) (pending_proposed_ids node ++ [new_block]),
          (new_block, output_tx_block))
  end.

(** ** Commitment *)
Fixpoint pop_until (id : HashedBlock) (pending : list HashedBlock) : list HashedBlock * bool :=
  match pending with
  | [] => ([], false)
  | front :: pending => if decide (front = id) then (pending, true) else pop_until id pending
  end.

(** The block to persist, if any; [None] for an empty identifier. *)
Definition log_commitment vm (PERSIST_BATCH : Z) (id : option HashedBlock) : SpeedexVM * option Z :=
  match id with
  | None => (vm, None)
  | Some id =>
      let q := pop_until id (pending_proposed_ids vm) in
      let last_committed := if q.2 then id else last_committed_block vm in
      let persist := u64 (last_persisted_block_number vm + PERSIST_BATCH) <=? number last_committed in
      (mkVM (management_structures vm) (mempool vm) (proposal_base_block vm) last_committed
         (if persist then number last_committed else last_persisted_block_number vm) q.1,
       if persist then Some (number last_committed) else None)
  end.

(** ** Writing to disk.  Phase 2 waits for the operating system.  [ws]: the databases of
    the orderbooks. *)
Definition persist_async_phase1 (ms : Structures) (current_block_number : Z) : result Structures :=
  let* q := MemoryDatabase.commit_persistence_thunks shorthash (db ms) (persistence_thunks ms) current_block_number in
  Ok (set_thunks (set_db ms q.1) q.2).
Definition persist_async_phase3 (ms : Structures) (ws : list WO) (current_block_number : Z) : result (Structures * list WO) :=
  let* q := manager_persist_lmdb (orderbook_manager ms) ws current_block_number in
  let* hm := BlockHeaderHashMap.persist_lmdb (block_header_hash_map ms) current_block_number in
  Ok (set_header_map (set_manager ms q.1) hm, q.2).
Definition persist_after_loading (ms : Structures) (ws : list WO) (current_block_number : Z) : result (Structures * list WO) :=
  let* ms := persist_async_phase1 ms current_block_number in persist_async_phase3 ms ws current_block_number.

(** ** Undoing the proposals that were not committed *)
Definition rewind_structs_to_committed_height vm (ws : list WO) : result (SpeedexVM * list WO) :=
  let committed_round_number := number (last_committed_block vm) in
  let ms := management_structures vm in
  let* ms := persist_async_phase1 ms committed_round_number in
  let* r := DatabaseReload.clear_persistence_thunks_and_reload shorthash (db ms) (persistence_thunks ms) committed_round_number in
  let ms := set_thunks (set_db ms r.1) r.2 in
  let* q := manager_persist_lmdb (orderbook_manager ms) ws committed_round_number in
  let* m := manager_rollback_thunks q.1 committed_round_number in
  let ms := set_log (set_manager ms m) (AccountModificationLog.detached_clear (account_modification_log ms)) in
  let* hm := BlockHeaderHashMap.persist_lmdb (block_header_hash_map ms) committed_round_number in
  let* hm := BlockHeaderHashMap.rollback_to_committed_round hm committed_round_number in
  Ok (mkVM (set_header_map ms hm) (mempool vm) (last_committed_block vm) (last_committed_block vm) (last_persisted_block_number vm)
        (pending_proposed_ids vm), q.2).

(** ** Starting *)

(** [init_clean], after the databases were created. *)
Definition init_clean vm (ws : list WO) (genesis : MemoryDatabaseGenesisData) (num_assets : nat) (default_amount : Z)
    : result (SpeedexVM * list WO) :=
  let ms := management_structures vm in
  let* d := DatabaseReload.install_initial_accounts_and_commit (db ms) genesis (DatabaseReload.genesis_account num_assets default_amount) in
  let* d := DatabaseReload.persist_lmdb shorthash d 0 in
  let* q := manager_persist_lmdb (orderbook_manager ms) ws 0 in
  let* hm := BlockHeaderHashMap.persist_lmdb (block_header_hash_map ms) 0 in
  Ok (set_structures vm (set_header_map (set_manager (set_db ms d) q.1) hm), q.2).

(** ** Sequences of decided blocks *)
Fixpoint exec_blocks vm (l : list (HashedBlock * Division)) : result SpeedexVM :=
  match l with [] => Ok vm | (blk, dv) :: l => let* node := exec_block vm blk dv in exec_blocks node l end.
End Vm.
Arguments SpeedexVM : clear implicits.
