(* ===== verification/Rejection.v ===== *)
(** * Blocks that are rejected

    What the rollback of a rejected block restores and what it does not, and what
    becomes of the blocks after it. *)
From stdpp Require Import base gmap list strings sorting.
From S2P Require Import Prelude RecyclingTrie Types PriceArith Asset SeqTracker Accounts AccountLmdb Database Offers Clearing Demand DbView SerialManager Orderbook Manager Mempool HeaderMap TxProcessor TxAtomicity BlockAssembly BlockValidator ValidationEffects ValidationProps BlockValidation CommitmentTrie Frames BlockDecision ModLog ModLogProps Engine EngineProps Vm.

(** ** Committing and rolling back one account *)
Section Accounts.
Context {T : Type} `{SequenceTracker T}.
Implicit Types a : UserAccount.t T.

Lemma asset_of_app a n : UserAccount.asset_of a n = default RevertableAsset.zero ((UserAccount.owned_assets a ++ UserAccount.uncommitted_assets a) !! n).
Proof.
  unfold UserAccount.asset_of. destruct (decide _); [by rewrite lookup_app_l|]. by rewrite lookup_app_r by lia.
Qed.
Lemma commit_asset_of a n : UserAccount.asset_of (UserAccount.commit a) n = (RevertableAsset.commit (UserAccount.asset_of a n)).1.
Proof.
  rewrite !asset_of_app, AccountProps.commit_assets. cbn [UserAccount.commit UserAccount.uncommitted_assets]. rewrite app_nil_r.
  rewrite list_lookup_fmap. by destruct (_ !! n).
Qed.
(** Balances of assets the account did not own are dropped. *)
Lemma rollback_asset_of a n : UserAccount.asset_of (UserAccount.rollback a) n =
  if decide (n < length (UserAccount.owned_assets a))%nat then RevertableAsset.rollback (UserAccount.asset_of a n) else RevertableAsset.zero.
Proof.
  rewrite asset_of_app. cbn. rewrite app_nil_r, list_lookup_fmap. unfold UserAccount.asset_of. case_decide as Hn.
  - by destruct (lookup_lt_is_Some_2 _ _ Hn) as [x ->].
  - by rewrite lookup_ge_None_2 by lia.
Qed.
Lemma unowned_zero a n : UserAccount.uncommitted_assets a = [] -> (length (UserAccount.owned_assets a) <= n)%nat ->
  UserAccount.asset_of a n = RevertableAsset.zero.
Proof. intros E Hn. rewrite asset_of_app, E, app_nil_r. by rewrite lookup_ge_None_2. Qed.
End Accounts.

(** ** A block rejected while it is cleared *)
Section Rejected.
Context {T : Type} `{SequenceTrackerRefines T} {CT : Type} `{MerkleTrie AccountCommitment CT} {L : Type} `{LMDBInstance L}.
Context {TR : Type} `{OfferTrieIndex TR} `{BigEndian} {FT : Type} `{LogTrie FT}.
Context {HT : Type} `{MerkleTrie BlockHeaderHashValue HT} {W : Type} `{HeaderDbi W} `{BlockHash}.
Variable sig_check : Transaction -> list Z -> PublicKey -> bool.
Abbreviation DB := (MemoryDatabase.t T CT L).
Abbreviation account := (UserAccount.t T).
Abbreviation Structures := (SpeedexManagementStructures T CT L TR FT HT W).
Implicit Types (st : Structures) (dv : Division).

(** What the database holds after the rollback: [d1] is the database in which the new
    accounts were committed. *)
Lemma rolled_back_database st st' n th :
  destroy (mkAutoRollback true true false true) n st = Ok st' ->
  MemoryDatabase.account_creation_thunks (db st) = th -> Forall (fun t => Database.current_block_number t <= n) th ->
  MemoryDatabase.user_id_to_idx_map (db st') = MemoryDatabase.user_id_to_idx_map (db st) /\
  MemoryDatabase.database (db st') = UserAccount.rollback <$> MemoryDatabase.database (db st) /\
  MemoryDatabase.account_creation_thunks (db st') = th.
Proof.
  unfold destroy. cbn [orderbooks_do_rollback_for_validation db_do_rollback_for_validation db_do_rollback_produce_state_commitment log_do_rollback].
  intros E <- Hth. apply result_bind_Ok in E as (s1 & E1 & E). apply result_bind_Ok in E1 as (m & _ & [= <-]).
  apply result_bind_Ok in E as (s2 & E2 & [= <-]). apply result_bind_Ok in E2 as (d & Ed & [= <-]).
  unfold MemoryDatabase.rollback_new_accounts, MemoryDatabase.rollback_new_accounts_ in Ed. cbn in Ed.
  rewrite <- (app_nil_r (MemoryDatabase.account_creation_thunks (db st))) in Ed.
  rewrite MemoryDatabase.rollback_loop_keep in Ed by done. cbn in Ed. injection Ed as <-. done.
Qed.

(** The account's balances are what they were before the block. *)
Definition restored (a b : account) : Prop := forall n, (n < length (UserAccount.owned_assets a))%nat ->
  RevertableAsset.available (UserAccount.asset_of b n) = RevertableAsset.committed_available (UserAccount.asset_of a n).

Lemma same_record_restored (a b : account) : same_record a b -> restored a (UserAccount.rollback b).
Proof. intros [_ _ _ El Ec] n Hn. rewrite rollback_asset_of, decide_True by lia. cbn. apply Ec. Qed.
Lemma new_account_kept sh id pk (a b : account) n :
  acct_shift sh (UserAccount.new id pk) a -> same_record (UserAccount.commit a) b ->
  RevertableAsset.available (UserAccount.asset_of (UserAccount.rollback b) n) = i64 (sh n).
Proof.
  intros Hs Hb. rewrite <- (new_balance sh id pk a n Hs). rewrite rollback_asset_of, (sr_length _ _ Hb). case_decide as Hn; cbn.
  - rewrite (sr_committed _ _ Hb), commit_asset_of. done.
  - pose proof (unowned_zero (UserAccount.commit a) n eq_refl ltac:(lia)) as Ez. rewrite commit_asset_of in Ez.
    by injection Ez as _ ->.
Qed.

(** C6.  A block rejected while it is cleared leaves its accounts behind.  When the
    header is acceptable, its prices clear the market, its transactions are valid and
    leave no balance negative, but the validator still answers [false] (the orderbooks
    or the statistics do not match the commitments of the header), then afterwards the
    available balances of every old account are its committed ones from before, and
    every account the block created is still in the database and its index, with the
    balance the block moved to it.  Nothing is said of the orderbooks. *)
Theorem rejected_clearing_keeps_new_accounts st prev next dv st' :
  between_blocks st ->
  validation_ready (commitment_checker (block next)) (orderbook_manager st) (db st) (dv_ranges dv) ->
  enough_turns (dv_ranges dv) (dv_sched dv) ->
  Forall (fun th => Database.current_block_number th <= u64 (block_number (block prev) + 1)) (MemoryDatabase.account_creation_thunks (db st)) ->
  header_acceptable st prev next = true -> check_clearing (commitment_checker (block next)) = Ok true ->
  block_valid sig_check (check_sigs st) (commitment_checker (block next)) (db st) (orderbook_manager st) (block_txs (dv_ranges dv)) ->
  balances_valid sig_check (check_sigs st) (commitment_checker (block next)) (db st) (orderbook_manager st) (block_txs (dv_ranges dv)) ->
  _speedex_block_validation_logic sig_check st prev next dv = Ok (st', false) ->
  (forall i a, MemoryDatabase.database (db st) !! i = Some a -> exists b, MemoryDatabase.database (db st') !! i = Some b /\ restored a b) /\
  (forall e id pk, e ∈ effects sig_check (check_sigs st) (commitment_checker (block next)) (db st) (orderbook_manager st) (block_txs (dv_ranges dv)) ->
     (id, pk) ∈ created e -> exists i b, MemoryDatabase.lookup_user (db st') id = Some i /\ MemoryDatabase.database (db st') !! i = Some b /\
       forall n, RevertableAsset.available (UserAccount.asset_of b n) = i64 (moved_to e (NewPtr id) n)).
Proof.
  intros Hbb Hr Hfair Hth Eh Ec Hv Hbal E. unfold _speedex_block_validation_logic in E. rewrite Eh in E. cbn [negb] in E.
  apply result_bind_Ok in E as ([[[s1 ar] res] sf] & E & E'). apply result_bind_Ok in E' as (s2 & Ed & [= -> ->]).
  assert (Hs : AccountModificationLog.size (account_modification_log st) = 0).
  { unfold validation_scope in E. rewrite Ec in E. cbn [result_bind negb] in E. apply result_bind_Ok in E as (q & Ev & _).
    unfold validate_transaction_block_ in Ev. by destruct (Z.eqb_spec (AccountModificationLog.size (account_modification_log st)) 0). }
  destruct (validation_outcome sig_check (check_sigs st) (commitment_checker (block next)) _ _ rt_empty (dv_ranges dv) (dv_sched dv)
    (make_minimum_size [] (Z.to_nat (get_num_orderbooks (orderbook_manager st)))) zero_stats Hr Hfair)
    as [(m & d & lgs & stats & stats1 & b & Ev & Hb & _)|(er & _ & He)]; [|by destruct (valid_no_error _ _ _ _ _ _ er Hv)].
  rewrite (proj2 Hb) in Ev by done. rewrite <- Hs in Ev.
  destruct (scope_rejects _ _ _ _ _ _ _ _ _ _ _ _ _ _ E Ec Ev) as (-> & d1 & m1 & r & En & Et & E1).
  destruct (transactions_committed _ _ _ _ _ _ _ _ _ _ _ Hbb Hr Hfair Ev En) as [_ _ (m2 & Rap) C1 [Hidx _] _ _ _ Edb Eth].
  assert (paid_keeps d1 (vs_db r.1.2).1) as (P1 & _ & _ & _ & P5).
  { exact (tentative_clearing_keeps (D := DB) (LG := FT) paid_keeps transfer_keeps_committed _ _ _ _ _ _ _ Et). }
  rewrite <- E1 in P1, P5. rewrite Eth in P5.
  destruct (rolled_back_database _ _ _ _ Ed P5) as (Em & Edb' & _).
  { apply Forall_app. split; [done|]. constructor; [|done]. cbn. lia. }
  rewrite Edb'. destruct P1 as [Pm _ Pa]. rewrite Edb in Pa. split.
  - intros i a Ha. destruct (Forall2_lookup_l _ _ _ _ _ (sc_accounts _ _ C1) Ha) as (a1 & Ha1 & S1).
    destruct (Forall2_lookup_l _ _ _ i a1 Pa) as (a2 & Ha2 & S2); [by apply lookup_app_l_Some|].
    exists (UserAccount.rollback a2). rewrite list_lookup_fmap, Ha2. split; [done|]. apply same_record_restored. by transitivity a1.
  - intros e id pk He Hin. destruct (ap_uncommitted _ _ _ _ _ _ _ _ Rap) as (ls & ps & Eu & Hls & Hps).
    rewrite (proj1 (bb_pending _ Hbb)) in Eu. cbn in Eu.
    assert (Hep : (e, (id, pk)) ∈ ps).
    { rewrite Hps. apply list_elem_of_bind. exists e. split; [|done]. by apply (list_elem_of_fmap_2 (pair e)). }
    apply list_elem_of_lookup in Hep as [k Hk]. destruct (Forall2_lookup_r _ _ _ _ _ Hls Hk) as (a & Ek & Hsh & _). cbn [fst snd] in Hsh.
    destruct (Forall2_lookup_l _ _ _ (length (MemoryDatabase.database d) + k)%nat (UserAccount.commit a) Pa) as (b2 & Hb2 & S2).
    { rewrite lookup_app_r by lia. rewrite Eu, list_lookup_fmap. replace (_ + k - _)%nat with k by lia. by rewrite Ek. }
    exists (length (MemoryDatabase.database d) + k)%nat, (UserAccount.rollback b2). split_and!.
    + unfold MemoryDatabase.lookup_user. rewrite Em, Pm. apply Hidx. exists (UserAccount.commit a). split; [|apply (shift_owner _ _ _ Hsh)].
      rewrite Edb, lookup_app_r by lia. rewrite Eu, list_lookup_fmap. replace (_ + k - _)%nat with k by lia. by rewrite Ek.
    + by rewrite list_lookup_fmap, Hb2.
    + intros n. by apply (new_account_kept _ id pk a).
Qed.

(** ** After a rejection *)

(** What [commit_new_accounts] compares the block number with. *)
Definition block_number_blocked (d : DB) (n : Z) : Prop := MemoryDatabase.block_number_ok d n = false.
Lemma block_number_frame (d d' : DB) n : block_frame d' = block_frame d -> MemoryDatabase.block_number_ok d' n = MemoryDatabase.block_number_ok d n.
Proof. intros [= _ El Eth]. unfold MemoryDatabase.block_number_ok. by rewrite El, Eth. Qed.

(** Until the block number is right, no block is accepted and the database keeps its
    rounds. *)
Lemma blocked_validation st prev next dv st' b :
  block_number_blocked (db st) (u64 (block_number (block prev) + 1)) ->
  _speedex_block_validation_logic sig_check st prev next dv = Ok (st', b) -> b = false /\ block_frame (db st') = block_frame (db st).
Proof.
  intros Hn E. unfold _speedex_block_validation_logic in E. destruct (header_acceptable _ _ _); [|by injection E as <- <-].
  cbn [negb] in E. apply result_bind_Ok in E as ([[[s1 ar] res] sf] & E & E'). apply result_bind_Ok in E' as (s2 & Ed & [= -> ->]).
  unfold validation_scope in E. apply result_bind_Ok in E as ([] & _ & E); cbn [negb] in E.
  - apply result_bind_Ok in E as ([[[[[m d] serials] stats] stats1] []] & Ev & E); cbn [negb] in E.
    + apply validation_frame in Ev. cbn in Ev. apply result_bind_Ok in E as (st0 & E0 & E).
      unfold merge_logs in E0. apply result_bind_Ok in E0 as (l0 & _ & [= <-]). apply result_bind_Ok in E as (d1 & E1 & _).
      unfold MemoryDatabase.commit_new_accounts in E1. cbn in E1. rewrite (block_number_frame _ _ _ Ev), Hn in E1. done.
    + apply validation_frame in Ev. cbn in Ev. injection E as <- <- <- _. cbn in Ed. injection Ed as <-. by split.
  - injection E as <- <- <- _. cbn in Ed. injection Ed as <-. by split.
Qed.
Lemma blocked_production st prices lp prev stats batches :
  block_number_blocked (db st) (u64 (block_number (block prev) + 1)) ->
  speedex_block_creation_logic st prices lp prev stats batches = Throw "account creation thunks block number error".
Proof.
  intros Hn. unfold speedex_block_creation_logic, MemoryDatabase.commit_new_accounts. by rewrite Hn.
Qed.

Abbreviation VM := (SpeedexVM T CT L TR FT HT W).
Implicit Types (vm : VM).
(** The round after which the database expects the next block. *)
Definition db_round (d : DB) : Z :=
  match last (MemoryDatabase.account_creation_thunks d) with
  | None => (AccountLMDB.get_min_max_persisted_round_numbers (MemoryDatabase.account_lmdb_instance d)).1
  | Some th => Database.current_block_number th
  end.
Lemma behind_blocked (d : DB) n : 0 <= db_round d < n -> n < 2 ^ 64 - 1 -> block_number_blocked d (u64 (n + 1)).
Proof.
  intros Hd Hn. unfold block_number_blocked, MemoryDatabase.block_number_ok, db_round in *.
  rewrite (u64_id (n + 1)) by (unfold in_u64; lia).
  rewrite (proj2 (Z.eqb_neq (n + 1) 0)), andb_false_l, orb_false_r by lia.
  destruct (last _); rewrite (u64_id (_ + 1)) by (unfold in_u64; lia); rewrite negb_involutive; apply Z.eqb_neq; lia.
Qed.

(** The chain is ahead of the database, with [k] block numbers to go. *)
Record ahead vm (k : Z) : Prop := {
  ah_round : 0 <= db_round (db (management_structures vm));
  ah_committed : db_round (db (management_structures vm)) < number (last_committed_block vm) < 2 ^ 64 - 1 - k;
  ah_proposal : db_round (db (management_structures vm)) < number (proposal_base_block vm) < 2 ^ 64 - 1
}.
Lemma validation_logic_parts st prev next dv st' c b :
  speedex_block_validation_logic sig_check st prev next dv = Ok (st', c, b) ->
  exists s1, _speedex_block_validation_logic sig_check st prev next dv = Ok (s1, b) /\ db st' = db s1 /\
    c = ensure_sequential_block_numbers prev next.
Proof.
  unfold speedex_block_validation_logic. intros E. apply result_bind_Ok in E as ([s1 b1] & E1 & E).
  apply result_bind_Ok in E as (hm & _ & [= <- <- <-]). by exists s1.
Qed.
Lemma ahead_step vm k next dv vm' : 0 <= k -> ahead vm (k + 1) -> exec_block sig_check vm next dv = Ok vm' ->
  ahead vm' k /\ block_frame (db (management_structures vm')) = block_frame (db (management_structures vm)).
Proof.
  intros Hk [A1 A2 A3] E. unfold exec_block in E. destruct (negb _) eqn:En.
  { injection E as <-. split; [|done]. constructor; [done|lia|done]. }
  apply result_bind_Ok in E as ([[ms c] b] & Ev & E). apply validation_logic_parts in Ev as (s1 & Ev & Edb & ->).
  destruct (blocked_validation _ _ _ _ _ _ (behind_blocked (db (management_structures vm)) (number (last_committed_block vm)) ltac:(lia) ltac:(lia)) Ev) as [-> Hf].
  cbn [result_bind] in E. apply result_bind_Ok in E as (mp & _ & [= <-]). rewrite <- Edb in Hf.
  assert (Er : db_round (db ms) = db_round (db (management_structures vm))) by (injection Hf as _ El Eth; unfold db_round; by rewrite El, Eth).
  split; [|done]. unfold number in *. constructor; cbn [management_structures last_committed_block proposal_base_block]; rewrite Er; [done| |].
  - cbn. rewrite u64_id by (unfold in_u64; lia). lia.
  - destruct (_ <? _); [cbn; rewrite u64_id by (unfold in_u64; lia); lia|exact A3].
Qed.
Lemma ahead_blocks l vm k vm' : 0 <= k -> ahead vm (k + Z.of_nat (length l)) -> exec_blocks sig_check vm l = Ok vm' ->
  ahead vm' k /\ block_frame (db (management_structures vm')) = block_frame (db (management_structures vm)).
Proof.
  revert vm. induction l as [|[blk dv] l IH]; intros vm Hk Ha E; cbn [exec_blocks] in E.
  - injection E as <-. cbn in Ha. rewrite Z.add_0_r in Ha. by split.
  - apply result_bind_Ok in E as (vm1 & E1 & E). cbn [length] in Ha.
    replace (k + Z.of_nat (S (length l))) with (k + Z.of_nat (length l) + 1) in Ha by lia.
    destruct (ahead_step vm (k + Z.of_nat (length l)) blk dv vm1 ltac:(lia) Ha E1) as [Ha1 Hf1].
    destruct (IH _ Hk Ha1 E) as [Ha' Hf']. split; [done|]. by rewrite Hf', Hf1.
Qed.

Lemma assembled_frame vm size pr node stats x : assemble_block sig_check vm size pr = Ok (node, stats, x) ->
  block_frame (db (management_structures node)) = block_frame (db (management_structures vm)) /\
  proposal_base_block node = proposal_base_block vm.
Proof.
  unfold assemble_block. intros E. apply result_bind_Ok in E as ([[[[[m d] logs] chunks] st] n] & Eb & E).
  apply production_frame in Eb. apply result_bind_Ok in E as (ms & Em & [= <- _ _]). unfold merge_logs in Em.
  by apply result_bind_Ok in Em as (lg & _ & [= <-]).
Qed.

(** A block nothing is wrong with but perhaps what clearing it would show. *)
Record good_block vm next dv : Prop := {
  gb_header : header_acceptable (management_structures vm) (last_committed_block vm) next = true;
  gb_prices : prices_positive (commitment_checker (block next));
  gb_clearing : check_clearing (commitment_checker (block next)) = Ok true;
  gb_ready : validation_ready (commitment_checker (block next)) (orderbook_manager (management_structures vm))
    (db (management_structures vm)) (dv_ranges dv);
  gb_turns : enough_turns (dv_ranges dv) (dv_sched dv);
  gb_valid : block_valid sig_check (check_sigs (management_structures vm)) (commitment_checker (block next))
    (db (management_structures vm)) (orderbook_manager (management_structures vm)) (block_txs (dv_ranges dv));
  gb_balances : balances_valid sig_check (check_sigs (management_structures vm)) (commitment_checker (block next))
    (db (management_structures vm)) (orderbook_manager (management_structures vm)) (block_txs (dv_ranges dv))
}.
Lemma header_acceptable_number (ms : Structures) prev next : header_acceptable ms prev next = true -> u64 (number prev + 1) = number next.
Proof. unfold header_acceptable. intros E. repeat apply andb_true_iff in E as [E _]. by apply Z.eqb_eq in E. Qed.

(** Such a block is not refused: the program throws. *)
Lemma good_block_throws vm k next dv : 0 <= k -> ahead vm (k + 1) -> good_block vm next dv ->
  exists e, exec_block sig_check vm next dv = Throw e.
Proof.
  intros Hk [A1 A2 A3] [Eh _ Ec Hr Hfair Hv Hbal]. unfold exec_block. rewrite (header_acceptable_number _ _ _ Eh), Z.eqb_refl. cbn [negb].
  assert (He : exists e, validation_scope sig_check (management_structures vm) (commitment_checker (block next))
    (last_committed_block vm) next dv zero_stats = Throw e).
  { unfold validation_scope. rewrite Ec. cbn [result_bind negb]. set (st := management_structures vm) in *.
    set (r := validate_transaction_block_ _ _ _ _ _ _ _ _ _ _ _). destruct r as [[[[[[m d] serials] stats] stats1] b]|e] eqn:Er; [|by exists e].
    assert (Hs : AccountModificationLog.size (account_modification_log st) = 0).
    { subst r. unfold validate_transaction_block_ in Er. by destruct (Z.eqb_spec (AccountModificationLog.size (account_modification_log st)) 0). }
    subst r. pose proof (validation_frame _ _ _ _ _ _ _ _ _ _ _ _ Er) as Hf. cbn in Hf. rewrite Hs in Er.
    destruct (validation_outcome sig_check (check_sigs st) (commitment_checker (block next)) _ _ rt_empty (dv_ranges dv) (dv_sched dv)
      (make_minimum_size [] (Z.to_nat (get_num_orderbooks (orderbook_manager st)))) zero_stats Hr Hfair)
      as [(m' & d' & lg' & s' & ss' & b' & Ev' & Hb & _)|(er & Ev' & _)]; [|congruence].
    rewrite Er in Ev'. injection Ev' as <- <- <- <- <- <-. rewrite (proj2 Hb) by done. cbn [result_bind negb].
    unfold merge_logs. destruct (AccountModificationLog.merge_in_log_batch _) as [l|e]; [|by exists e]. cbn [result_bind].
    eexists. unfold MemoryDatabase.commit_new_accounts. cbn [db set_log set_manager set_db].
    rewrite (block_number_frame _ _ _ Hf), behind_blocked; [reflexivity|split; [exact A1|apply A2]|unfold number in A2; lia]. }
  destruct He as [e He]. exists e. unfold speedex_block_validation_logic, _speedex_block_validation_logic. by rewrite Eh, He.
Qed.

(** C5.  A rejected block stops the chain.  A block with a bad header is skipped, but the
    database, whose last round was the block before, still waits for its number.  From
    then on, as long as no round reaches the disk, whatever blocks are decided: the
    database keeps its rounds, a validation that returns refuses the block, deciding a
    block with an acceptable header, positive prices that clear the market and valid
    transactions throws, and
    so does proposing a block. *)
Theorem rejected_header_stops_the_chain vm next dv mp n :
  number (last_committed_block vm) = n -> db_round (db (management_structures vm)) = n ->
  0 <= number (proposal_base_block vm) <= n -> 0 <= n < 2 ^ 63 ->
  BlockHeaderHashMap.last_committed_block_number (block_header_hash_map (management_structures vm)) = n ->
  number next = n + 1 -> header_acceptable (management_structures vm) (last_committed_block vm) next = false ->
  post_validation_cleanup (mempool vm) = Ok mp ->
  exists vm1, exec_block sig_check vm next dv = Ok vm1 /\ number (last_committed_block vm1) = n + 1 /\
    db (management_structures vm1) = db (management_structures vm) /\
    forall l vm2, Z.of_nat (length l) < 2 ^ 62 -> exec_blocks sig_check vm1 l = Ok vm2 ->
      block_frame (db (management_structures vm2)) = block_frame (db (management_structures vm)) /\
      (forall next2 dv2 ms c b,
         speedex_block_validation_logic sig_check (management_structures vm2) (last_committed_block vm2) next2 dv2 = Ok (ms, c, b) ->
         b = false) /\
      (forall next2 dv2, good_block vm2 next2 dv2 -> exists e, exec_block sig_check vm2 next2 dv2 = Throw e) /\
      forall TARGET_BLOCK_SIZE pr, exists e, propose sig_check vm2 TARGET_BLOCK_SIZE pr = Throw e.
Proof.
  intros El Er Ep Hn Eh Ex Ea Em. unfold exec_block.
  rewrite El, Ex, u64_id, Z.eqb_refl by (unfold in_u64; lia). cbn [negb].
  unfold speedex_block_validation_logic, _speedex_block_validation_logic. rewrite Ea. cbn [negb result_bind fst snd].
  set (c := ensure_sequential_block_numbers _ _). assert (Ec : block_number c = n + 1).
  { cbn. unfold number in El. rewrite El, u64_id by (unfold in_u64; lia). done. }
  unfold BlockHeaderHashMap.insert. cbn [blockNumber block_header]. rewrite Ec, Eh, u64_id, Z.eqb_refl by (unfold in_u64; lia).
  rewrite (proj2 (Z.eqb_neq (n + 1) 0)) by lia. cbn [negb result_bind]. rewrite Em. cbn [result_bind].
  eexists. split; [reflexivity|]. unfold number at 1. cbn [last_committed_block block]. split; [done|]. split; [done|].
  intros l vm2 Hl E.
  match type of E with exec_blocks _ ?v _ = _ => assert (Ha : ahead v (1 + Z.of_nat (length l))) end.
  { constructor; unfold number in *; cbn [management_structures set_header_map db last_committed_block proposal_base_block block];
      rewrite ?Ec, ?Er; [lia|lia|]. destruct (Z.ltb_spec (block_number (block (proposal_base_block vm))) (n + 1)); [|lia]. cbn [block].
    rewrite Ec. lia. }
  destruct (ahead_blocks l _ 1 vm2 ltac:(lia) Ha E) as [Ha2 Hf]. split; [exact Hf|]. split; [|split].
  { intros next2 dv2 ms c' b Ev. apply validation_logic_parts in Ev as (s1 & Ev & _). destruct Ha2 as [A1 A2 A3].
    eapply blocked_validation; [|exact Ev]. apply (behind_blocked _ (number (last_committed_block vm2))); lia. }
  { intros next2 dv2. by apply (good_block_throws vm2 0). }
  intros size pr. destruct Ha2 as [A1 A2 A3]. unfold propose.
  destruct (assemble_block _ _ _ _) as [[[node stats] x]|e] eqn:Ea'; [|by exists e].
  destruct (assembled_frame _ _ _ _ _ _ Ea') as [Hf' Eb]. cbn [result_bind]. rewrite Eb. exists "account creation thunks block number error".
  rewrite blocked_production; [done|]. unfold block_number_blocked. rewrite (block_number_frame _ _ _ Hf').
  apply (behind_blocked _ (number (proposal_base_block vm2))); lia.
Qed.
End Rejected.
