(* ===== verification/Reload.v ===== *)
(** * Replaying blocks from disk (src/speedex/reload_from_hotstuff.cc)

    A block whose outcome is known is replayed on the structures whose database is
    behind it; a block that was rejected only goes into the header map; a block that is
    not known to be decided is validated like any other.

    [speedex_load_persisted_data] would run these over the log of consensus, but throws
    first. *)
From stdpp Require Import base gmap list strings.
From S2P Require Import Prelude RecyclingTrie Types PriceArith Asset SeqTracker Accounts AccountLmdb Database DatabaseReload Offers Clearing Demand DbView SerialManager Orderbook Manager BlockClearing HeaderMap OrderbookLmdb TxProcessor BlockValidator ModLog Engine.

Section Reload.
Context {T : Type} `{SequenceTracker T} {CT : Type} `{MerkleTrie AccountCommitment CT} {L : Type} `{LMDBInstance L}.
Context {TR : Type} `{OfferTrieIndex TR} `{BigEndian} {FT : Type} `{LogTrie FT}.
Context {HT : Type} `{MerkleTrie BlockHeaderHashValue HT} {W : Type} `{HeaderDbi W} `{BlockHash} {WO : Type} `{OrderbookDbi WO}.
Variable sig_check : Transaction -> list Z -> PublicKey -> bool.
Variable shorthash : Z -> Z.
Abbreviation Structures := (SpeedexManagementStructures T CT L TR FT HT W).

(** [replay_trusted_block] on the structures: [ranges] is how the block was divided. *)
Definition replay_block (ms : Structures) (header : HashedBlock) (ranges : list (list SignedTransaction)) : result Structures :=
  let round_number := block_number (block header) in
  let* q := replay_trusted_block (M := LoadLMDBManagerView) sig_check (check_sigs ms) (commitment_checker (block header)) shorthash
              round_number (mkLoadView round_number (orderbook_manager ms)) (db ms) ranges rt_empty in
  Ok (set_log (set_manager (set_db ms q.1.2) (lv_manager q.1.1)) (AccountModificationLog.with_cache (account_modification_log ms) q.2)).

(** [ws]: the databases of the orderbooks; [batches]: how the orderbooks were divided. *)
Definition speedex_replay_trusted_round_success (ms : Structures) (ws : list WO) (header : HashedBlock)
    (ranges : list (list SignedTransaction)) (batches : list (list nat)) : result (Structures * list WO) :=
  let round_number := block_number (block header) in
  let* ms := replay_block ms header ranges in
  let min_db_round := (AccountLMDB.get_min_max_persisted_round_numbers (MemoryDatabase.account_lmdb_instance (db ms))).1 in
  let* d := if min_db_round <? round_number then MemoryDatabase.commit_new_accounts (db ms) round_number else Ok (db ms) in
  let* m := commit_for_loading (orderbook_manager ms) round_number in
  let* q := clear_offers_for_data_loading m (d, rt_empty)
              (make_minimum_size [] (Z.to_nat (get_num_orderbooks m))) (commitment_checker (block header)) round_number batches in
  let* m := finalize_for_loading q.1 round_number in
  let d := (vs_db q.2).1 in
  let* v := BlockHeaderHashMap.insert_for_loading (BlockHeaderHashMap.new_LoadLMDBHeaderMap round_number (block_header_hash_map ms))
              (block header) true in
  let* d := if min_db_round <? round_number
            then DatabaseReload.persist_lmdb shorthash (MemoryDatabase.commit_all_values d) round_number else Ok d in
  let* p := persist_lmdb_for_loading m ws round_number in
  let* hm := if BlockHeaderHashMap.get_persisted_round_number (BlockHeaderHashMap.wrapped v) <? round_number
             then BlockHeaderHashMap.persist_lmdb (BlockHeaderHashMap.wrapped v) round_number else Ok (BlockHeaderHashMap.wrapped v) in
  Ok (set_header_map (set_manager (set_db ms d) p.1) hm, p.2).

Definition speedex_replay_trusted_round_failed (ms : Structures) (prev_block next_block : HashedBlock) : result Structures :=
  let round_number := u64 (block_number (block prev_block) + 1) in
  let correction := ensure_sequential_block_numbers prev_block next_block in
  let* v := BlockHeaderHashMap.insert_for_loading (BlockHeaderHashMap.new_LoadLMDBHeaderMap round_number (block_header_hash_map ms))
              correction false in
  Ok (set_header_map ms (BlockHeaderHashMap.wrapped v)).

Definition try_replay_saved_block (ms : Structures) (prev_block replayed : HashedBlock) (dv : Division) : result (Structures * Block * bool) :=
  let* q := speedex_block_validation_logic sig_check ms prev_block replayed dv in
  let '(ms, corrected_next_block, validation_res) := q in
  if validation_res then
    let* p := persist_critical_round_data ms replayed false false in Ok (p.1, corrected_next_block, true)
  else Ok (ms, corrected_next_block, false).

(** The rounds on disk are read, and nothing else. *)
Definition speedex_load_persisted_data (ms : Structures) : result (Structures * HashedBlock) :=
  Throw "sync db to a consistent snapshot: unimp".

(** ** A block that was accepted cannot be replayed

    [clear_offers_for_data_loading] takes the successful clearing of an orderbook for a
    failure, so a replay that ends met only orderbooks whose clearing failed. *)
Section Loading.
Context {D LG : Type} `{ClearingDB D} `{SerialAccountModificationLog LG}.
Variable checker : OrderbookStateCommitmentChecker.
Variable blk : Z.
Abbreviation State := (validation_state (TR := TR) (D := D) (LG := LG)).
Implicit Types (s : State).

Definition fails_to_clear (b : Orderbook.t (TR := TR)) : Prop :=
  exists (q : D * LG) a c stats cl, tentative_clear_offers_for_validation b q a c checker stats = Ok (cl, false).

(** One orderbook of a range. *)
Lemma loading_step s i r s' : loading_range checker blk s (i :: r) = Ok s' -> vs_failure s' = false ->
  exists b s1, vs_books s !! i = Some b /\ loading_range checker blk s1 r = Ok s' /\
    (s1 = s \/ exists b', vs_books s1 = <[i := b']> (vs_books s)) /\ (persisted_round_number b < blk -> fails_to_clear b).
Proof.
  cbn [loading_range]. intros E Hf. apply result_bind_Ok in E as (b & Eb & E). apply vec_at_nat in Eb. exists b.
  destruct (Z.ltb_spec (persisted_round_number b) blk) as [Hb|Hb].
  - apply result_bind_Ok in E as (a & _ & E). apply result_bind_Ok in E as (c & _ & E). apply result_bind_Ok in E as ([cl res] & Eq & E).
    cbn [fst snd] in E. destruct res.
    + injection E as <-. cbn in Hf. by rewrite orb_true_r in Hf.
    + eexists. split; [done|]. split; [exact E|]. split; [right; by eexists|]. intros _. by exists (vs_db s), a, c, (vs_stats s), cl.
  - exists s. split; [done|]. split; [done|]. split; [by left|lia].
Qed.

Lemma loading_range_clears s r s' : NoDup r -> loading_range checker blk s r = Ok s' -> vs_failure s' = false ->
  (forall i, i ∉ r -> vs_books s' !! i = vs_books s !! i) /\
    (forall i b, i ∈ r -> vs_books s !! i = Some b -> persisted_round_number b < blk -> fails_to_clear b).
Proof.
  intros Hn. revert s. induction Hn as [|i r Hi Hn IH]; intros s E Hf.
  { injection E as <-. split; [done|]. by intros i b ?%elem_of_nil. }
  destruct (loading_step s i r s' E Hf) as (b & s1 & Eb & E1 & Es & Hb). destruct (IH s1 E1 Hf) as [Hout Hin].
  assert (He : forall j, j <> i -> vs_books s1 !! j = vs_books s !! j).
  { intros j Hj. destruct Es as [->|[b' ->]]; [done|]. by apply list_lookup_insert_ne. }
  split.
  - intros j [Hj Hr]%not_elem_of_cons. by rewrite Hout, He.
  - intros j bj [->|Hj]%elem_of_cons Ej Hp; [assert (bj = b) as -> by congruence; by apply Hb|]. apply (Hin j); [done| |done].
    rewrite He; [done|]. by intros ->.
Qed.
Lemma loading_batches_failure s batches s' : loading_batches checker blk s batches = Ok s' -> vs_failure s' = false -> vs_failure s = false.
Proof.
  assert (Hr : forall r t t', loading_range checker blk t r = Ok t' -> vs_failure t' = false -> vs_failure t = false).
  { induction r as [|i r IH]; intros t t' E Hf; cbn [loading_range] in E; [by injection E as ->|].
    apply result_bind_Ok in E as (b & _ & E). case_match; [|by eapply IH].
    apply result_bind_Ok in E as (a & _ & E). apply result_bind_Ok in E as (c & _ & E). apply result_bind_Ok in E as (q & _ & E).
    case_match; [injection E as <-|apply IH in E; [|done]; rename E into Hf'].
    - by apply orb_false_iff in Hf as [? _].
    - by apply orb_false_iff in Hf' as [? _]. }
  revert s. induction batches as [|r batches IH]; intros s E Hf; cbn [loading_batches] in E; [by injection E as ->|].
  apply result_bind_Ok in E as (s1 & E1 & E). eapply Hr; [exact E1|]. by eapply IH.
Qed.
Lemma loading_batches_clear s batches s' : NoDup (concat batches) -> loading_batches checker blk s batches = Ok s' -> vs_failure s' = false ->
  forall i b, i ∈ concat batches -> vs_books s !! i = Some b -> persisted_round_number b < blk -> fails_to_clear b.
Proof.
  revert s. induction batches as [|r batches IH]; intros s Hn E Hf i b Hi Eb Hp; [by apply elem_of_nil in Hi|].
  cbn [loading_batches concat] in *. apply NoDup_app in Hn as (Hn1 & Hd & Hn2). apply result_bind_Ok in E as (s1 & E1 & E).
  destruct (loading_range_clears s r s1 Hn1 E1) as [Hout Hin]; [by eapply loading_batches_failure|].
  destruct (decide (i ∈ r)) as [Hr|Hr]; [by apply (Hin i)|]. apply elem_of_app in Hi as [?|Hi]; [done|].
  apply (IH s1 Hn2 E Hf i); [done| |done]. by rewrite Hout.
Qed.
End Loading.

(** When a trusted round was replayed, every orderbook that did not have it on disk
    failed to clear. *)
Lemma replayed_round_failed_to_clear ms ws header ranges batches r :
  NoDup (concat batches) -> speedex_replay_trusted_round_success ms ws header ranges batches = Ok r ->
  exists ms1 m, replay_block ms header ranges = Ok ms1 /\ commit_for_loading (orderbook_manager ms1) (block_number (block header)) = Ok m /\
    forall i b, i ∈ concat batches -> orderbooks m !! i = Some b -> persisted_round_number b < block_number (block header) ->
      fails_to_clear (D := MemoryDatabase.t T CT L) (LG := FT) (commitment_checker (block header)) b.
Proof.
  intros Hn E. unfold speedex_replay_trusted_round_success in E. apply result_bind_Ok in E as (ms1 & E1 & E).
  apply result_bind_Ok in E as (d & _ & E). apply result_bind_Ok in E as (m & Em & E). apply result_bind_Ok in E as (q & Eq & _).
  exists ms1, m. split; [done|]. split; [done|]. unfold clear_offers_for_data_loading in Eq. apply result_bind_Ok in Eq as (s & Es & Eq).
  destruct (vs_failure s) eqn:Hf; [done|]. intros i b Hi Hb Hp. by eapply loading_batches_clear.
Qed.
End Reload.
