(* ===== verification/NetworkLP.v ===== *)
(** * Linear programs on networks

    What the two simplex solvers of src/simplex share: a tableau whose rows are
    combinations of the rows of a graph's incidence matrix.  A row of such a tableau
    is the tension of a potential on the nodes, and when the basis columns form an
    identity every entry of it is -1, 0 or 1, which is what the representations of the
    rows rely on.

    Rows, columns and nodes are numbers; node 0 is the root, whose potential is zero. *)
From stdpp Require Import base list sorting.
From S2P Require Import Prelude.

(** ** Linear forms *)
Section Forms.
Variable n : nat.
Definition lin (r x : nat -> Z) : Z := sum_by (fun j => r j * x j) (seq 0 n).

Lemma sum_seq_ext (f g : nat -> Z) : (forall j, (j < n)%nat -> f j = g j) -> sum_by f (seq 0 n) = sum_by g (seq 0 n).
Proof. intros Hfg. apply sum_by_ext, Forall_forall. intros j Hj%elem_of_seq. apply Hfg. lia. Qed.
Lemma lin_ext r r' x x' : (forall j, (j < n)%nat -> r j = r' j) -> (forall j, (j < n)%nat -> x j = x' j) -> lin r x = lin r' x'.
Proof. intros Hr Hx. apply sum_seq_ext. intros j Hj. by rewrite Hr, Hx. Qed.
Lemma lin_combine r r' k x : lin (fun j => r j + k * r' j) x = lin r x + k * lin r' x.
Proof.
  unfold lin. induction (seq 0 n) as [|j l IH]; [by rewrite !sum_by_nil; lia|]. rewrite !sum_by_cons, IH. lia.
Qed.
Lemma lin_combine_r r k x y : lin r (fun j => x j + k * y j) = lin r x + k * lin r y.
Proof.
  unfold lin. induction (seq 0 n) as [|j l IH]; [by rewrite !sum_by_nil; lia|]. rewrite !sum_by_cons, IH. lia.
Qed.
Lemma lin_le_0 r x : (forall j, (j < n)%nat -> r j * x j <= 0) -> lin r x <= 0.
Proof.
  intros Hr. apply Z.le_trans with (sum_by (fun _ : nat => 0) (seq 0 n)); [|by rewrite sum_by_zero; [|by apply Forall_true]].
  apply sum_by_le, Forall_forall. intros j Hj%elem_of_seq. apply Hr. lia.
Qed.
End Forms.

(** One point of a sum. *)
Lemma sum_at (f : nat -> Z) m k : (k < m)%nat -> (forall i, (i < m)%nat -> i <> k -> f i = 0) -> sum_by f (seq 0 m) = f k.
Proof.
  intros Hk Hf. rewrite (sum_by_point (fun _ => 0) f (seq 0 m) k).
  - rewrite sum_by_zero by by apply Forall_true. lia.
  - apply NoDup_seq.
  - apply elem_of_seq. lia.
  - intros i Hi%elem_of_seq. apply Hf. lia.
Qed.
Lemma sum_seq_nonzero (f : nat -> Z) m : sum_by f (seq 0 m) <> 0 -> exists i, (i < m)%nat /\ f i <> 0.
Proof.
  intros Hs. destruct (decide (Exists (fun i => f i <> 0) (seq 0 m))) as [(i & Hi%elem_of_seq & Hf)%Exists_exists|Hn].
  - exists i. split; [lia|done].
  - destruct Hs. apply sum_by_zero, Forall_forall. intros i Hi. destruct (decide (f i = 0)) as [|Hf]; [done|].
    destruct Hn. apply Exists_exists. by exists i.
Qed.

(** ** Pivoting *)
Section Pivot.
Variables m n : nat.
Abbreviation Matrix := (nat -> nat -> Z).
Definition solves (A : Matrix) (b : nat -> Z) (x : nat -> Z) : Prop := forall i, (i < m)%nat -> lin n (A i) x = b i.

(** The tableau [A], [b] with the objective row [o], [z], pivoted at row [p], column [c]. *)
Record pivoted (p c : nat) (A : Matrix) (b o : nat -> Z) (z : Z) (A' : Matrix) (b' o' : nat -> Z) (z' : Z) : Prop := {
  pv_pivot_row : forall j, (j < n)%nat -> A' p j = A p j;
  pv_row : forall i j, (i < m)%nat -> i <> p -> (j < n)%nat -> A' i j = A i j - A i c * A p j;
  pv_pivot_value : b' p = b p;
  pv_value : forall i, (i < m)%nat -> i <> p -> b' i = b i - A i c * b p;
  pv_objective : forall j, (j < n)%nat -> o' j = o j - o c * A p j;
  pv_objective_value : z' = z - o c * b p
}.

Section Solutions.
Context (p c : nat) (A : Matrix) (b o : nat -> Z) (z : Z) (A' : Matrix) (b' o' : nat -> Z) (z' : Z).
Hypothesis Hp : (p < m)%nat.
Hypothesis Hpv : pivoted p c A b o z A' b' o' z'.
Lemma pivoted_lin x i : (i < m)%nat -> i <> p -> lin n (A' i) x = lin n (A i) x - A i c * lin n (A p) x.
Proof.
  intros Hi Hne. rewrite (lin_ext n (A' i) (fun j => A i j + (- A i c) * A p j) x x); [rewrite lin_combine; lia| |done].
  intros j Hj. rewrite (pv_row _ _ _ _ _ _ _ _ _ _ Hpv) by done. lia.
Qed.
Lemma pivoted_solves x : solves A' b' x <-> solves A b x.
Proof.
  assert (Ep : lin n (A' p) x = lin n (A p) x) by (apply lin_ext; [apply Hpv|done]).
  split; intros Hs i Hi; pose proof (Hs p Hp) as Es; pose proof (Hs i Hi) as Ei.
  - rewrite Ep, (pv_pivot_value _ _ _ _ _ _ _ _ _ _ Hpv) in Es. destruct (decide (i = p)) as [->|Hne]; [done|].
    rewrite pivoted_lin, (pv_value _ _ _ _ _ _ _ _ _ _ Hpv), Es in Ei by done. lia.
  - destruct (decide (i = p)) as [->|Hne]; [by rewrite Ep, (pv_pivot_value _ _ _ _ _ _ _ _ _ _ Hpv)|].
    rewrite pivoted_lin, (pv_value _ _ _ _ _ _ _ _ _ _ Hpv), Es, Ei by done. lia.
Qed.
Lemma pivoted_kernel x : solves A' (fun _ => 0) x <-> solves A (fun _ => 0) x.
Proof.
  assert (Ep : lin n (A' p) x = lin n (A p) x) by (apply lin_ext; [apply Hpv|done]).
  split; intros Hs i Hi; pose proof (Hs p Hp) as Es; pose proof (Hs i Hi) as Ei; cbn in *.
  - rewrite Ep in Es. destruct (decide (i = p)) as [->|Hne]; [done|]. rewrite pivoted_lin, Es in Ei by done. lia.
  - destruct (decide (i = p)) as [->|Hne]; [by rewrite Ep|]. rewrite pivoted_lin, Es, Ei by done. lia.
Qed.
Lemma pivoted_objective x : lin n o' x = lin n o x - o c * lin n (A p) x.
Proof.
  rewrite (lin_ext n o' (fun j => o j + (- o c) * A p j) x x); [rewrite lin_combine; lia| |done].
  intros j Hj. rewrite (pv_objective _ _ _ _ _ _ _ _ _ _ Hpv) by done. lia.
Qed.
End Solutions.
End Pivot.

(** ** Networks *)
Section Network.
(** The rows, columns and nodes; column [j] is the edge from [tail j] to [head j]. *)
Variables m n nodes : nat.
Variables tail head : nat -> nat.
Abbreviation Matrix := (nat -> nat -> Z).
Definition tension (p : nat -> Z) (j : nat) : Z := p (head j) - p (tail j).
Hypothesis tail_node : forall j, (j < n)%nat -> (tail j < nodes)%nat.
Hypothesis head_node : forall j, (j < n)%nat -> (head j < nodes)%nat.

(** The rows [A] are tensions of the potentials [P], which generate all potentials, and the
    columns [β] are an identity. *)
Record network (A : Matrix) (P : nat -> nat -> Z) (β : nat -> nat) : Prop := {
  nw_root : forall i, (i < m)%nat -> P i 0%nat = 0;
  nw_tension : forall i j, (i < m)%nat -> (j < n)%nat -> A i j = tension (P i) j;
  nw_generates : forall q, q 0%nat = 0 ->
    exists k, forall v, (v < nodes)%nat -> q v = sum_by (fun i => k i * P i v) (seq 0 m);
  nw_column : forall i, (i < m)%nat -> (β i < n)%nat;
  nw_basis : forall i k, (i < m)%nat -> (k < m)%nat -> A i (β k) = if decide (i = k) then 1 else 0
}.

Section Potentials.
Context (A : Matrix) (P : nat -> nat -> Z) (β : nat -> nat).
Hypothesis Hn : network A P β.

(** A potential is the combination of the rows' potentials by its tensions on the basis. *)
Lemma basis_combination q : q 0%nat = 0 ->
  forall v, (v < nodes)%nat -> q v = sum_by (fun i => tension q (β i) * P i v) (seq 0 m).
Proof.
  intros Hq. destruct (nw_generates _ _ _ Hn q Hq) as [k Hk]. intros v Hv. rewrite (Hk v Hv). apply sum_seq_ext.
  intros i Hi. f_equal. pose proof (nw_column _ _ _ Hn i Hi) as Hc. unfold tension.
  rewrite (Hk (head (β i))), (Hk (tail (β i))) by auto. rewrite (sum_by_sub _ _ (fun k' => k k' * A k' (β i))).
  - rewrite (sum_at _ m i Hi); [rewrite (nw_basis _ _ _ Hn) by done; rewrite decide_True by done; lia|].
    intros i' Hi' Hne. rewrite (nw_basis _ _ _ Hn) by done. rewrite decide_False by done. lia.
  - intros i' [_ Hi']%elem_of_seq. rewrite (nw_tension _ _ _ Hn) by (done || lia). unfold tension. lia.
Qed.

(** If [Q] passes the level [t] somewhere, it does so on a basis column. *)
Lemma crossing Q t v : Q 0%nat = 0 -> (v < nodes)%nat -> (t <=? Q v) <> (t <=? 0) ->
  exists k, (k < m)%nat /\ (t <=? Q (head (β k))) <> (t <=? Q (tail (β k))).
Proof.
  intros HQ Hv Hne. set (q v := Z.b2z (t <=? Q v) - Z.b2z (t <=? 0)).
  assert (Hq : q 0%nat = 0) by (unfold q; rewrite HQ; lia).
  destruct (sum_seq_nonzero (fun i => tension q (β i) * P i v) m) as (k & Hk & Ht).
  - rewrite <- basis_combination by done. unfold q. intros E. destruct (t <=? Q v), (t <=? 0); cbn in E; done.
  - exists k. split; [done|]. intros E. apply Ht. unfold tension, q. rewrite E. lia.
Qed.

(** *** The entries *)
Lemma row_potential i : (i < m)%nat ->
  (forall v, (v < nodes)%nat -> P i v = 0 \/ P i v = 1) \/ (forall v, (v < nodes)%nat -> P i v = 0 \/ P i v = -1).
Proof.
  intros Hi. set (h := P i (head (β i))).
  assert (Hbasis : forall k, (k < m)%nat -> P i (head (β k)) - P i (tail (β k)) = if decide (i = k) then 1 else 0).
  { intros k Hk. rewrite <- (nw_basis _ _ _ Hn i k Hi Hk). by rewrite (nw_tension _ _ _ Hn) by (done || by apply (nw_column _ _ _ Hn)). }
  assert (Hlevel : forall t v, (v < nodes)%nat -> (t <=? P i v) <> (t <=? 0) -> t = h).
  { intros t v Hv Hne. destruct (crossing (P i) t v (nw_root _ _ _ Hn i Hi) Hv Hne) as (k & Hk & Hc).
    specialize (Hbasis k Hk). case_decide as Hik; [subst k|by replace (P i (head (β k))) with (P i (tail (β k))) in Hc by lia].
    unfold h. destruct (Z.leb_spec t (P i (head (β i)))), (Z.leb_spec t (P i (tail (β i)))); done || lia. }
  assert (Hv : forall v, (v < nodes)%nat -> P i v = 0 \/ P i v = 1 /\ h = 1 \/ P i v = -1 /\ h = 0).
  { intros v Hv. destruct (Z.lt_trichotomy (P i v) 0) as [Hneg|[?|Hpos]]; [|by left|].
    - pose proof (Hlevel 0 v Hv ltac:(destruct (Z.leb_spec 0 (P i v)); [lia|done])) as E0.
      destruct (decide (P i v = -1)) as [|Hne]; [right; right; lia|].
      pose proof (Hlevel (-1) v Hv ltac:(destruct (Z.leb_spec (-1) (P i v)); [lia|done])). lia.
    - pose proof (Hlevel 1 v Hv ltac:(destruct (Z.leb_spec 1 (P i v)); [done|lia])) as E1.
      destruct (decide (P i v = 1)) as [|Hne]; [right; left; lia|].
      pose proof (Hlevel 2 v Hv ltac:(destruct (Z.leb_spec 2 (P i v)); [done|lia])). lia. }
  destruct (decide (h = 1)) as [Hh|Hh].
  - left. intros v Hlt. destruct (Hv v Hlt) as [?|[[? ?]|[? ?]]]; lia.
  - right. intros v Hlt. destruct (Hv v Hlt) as [?|[[? ?]|[? ?]]]; lia.
Qed.
Lemma entry_range i j : (i < m)%nat -> (j < n)%nat -> -1 <= A i j <= 1.
Proof.
  intros Hi Hj. rewrite (nw_tension _ _ _ Hn) by done. unfold tension.
  destruct (row_potential i Hi) as [H|H]; pose proof (H (head j) (head_node j Hj)); pose proof (H (tail j) (tail_node j Hj)); lia.
Qed.

(** The values of [Q] spread over no more levels than the basis columns cross. *)
Lemma potential_spread Q (levels : list Z) : Q 0%nat = 0 ->
  (forall k t, (k < m)%nat -> (t <=? Q (head (β k))) <> (t <=? Q (tail (β k))) -> t - 1 ∈ levels) ->
  forall v w, (v < nodes)%nat -> (w < nodes)%nat -> Q v - Q w <= Z.of_nat (length levels).
Proof.
  intros HQ Hl v w Hv Hw. destruct (Z.le_gt_cases (Q v - Q w) 0) as [|Hpos]; [lia|].
  set (l := (fun i : nat => Q w + Z.of_nat i) <$> seq 0 (Z.to_nat (Q v - Q w))).
  assert (Hsub : l ⊆+ levels).
  { apply NoDup_submseteq.
    - unfold l. apply NoDup_fmap_2; [|apply NoDup_seq]. intros i i'. lia.
    - intros x (i & -> & Hi%elem_of_seq)%list_elem_of_fmap.
      replace (Q w + Z.of_nat i) with (Q w + Z.of_nat i + 1 - 1) by lia. set (t := Q w + Z.of_nat i + 1).
      destruct (decide ((t <=? Q v) = (t <=? 0))) as [Ev|Ev].
      + destruct (crossing Q t w) as (k & Hk & Hc); [done|done| |by apply (Hl k t)]. rewrite <- Ev.
        destruct (Z.leb_spec t (Q v)), (Z.leb_spec t (Q w)); done || (unfold t in *; lia).
      + destruct (crossing Q t v) as (k & Hk & Hc); [done|done|done|by apply (Hl k t)]. }
  apply submseteq_length in Hsub. unfold l in Hsub. rewrite length_fmap, length_seq in Hsub. lia.
Qed.
End Potentials.

Section Step.
Context (A : Matrix) (b o : nat -> Z) (z : Z) (A' : Matrix) (b' o' : nat -> Z) (z' : Z) (P : nat -> nat -> Z) (β : nat -> nat) (p c : nat).
Hypothesis Hn : network A P β.
Hypothesis Hp : (p < m)%nat.
Hypothesis Hc : (c < n)%nat.
Hypothesis Hone : A p c = 1.
Hypothesis Hpv : pivoted m n p c A b o z A' b' o' z'.

Definition pivot_potential (i v : nat) : Z := if decide (i = p) then P p v else P i v - A i c * P p v.
Definition pivot_basis (i : nat) : nat := if decide (i = p) then c else β i.

Lemma pivoted_network : network A' pivot_potential pivot_basis.
Proof.
  assert (EA : forall i j, (i < m)%nat -> (j < n)%nat -> A' i j = if decide (i = p) then A p j else A i j - A i c * A p j).
  { intros i j Hi Hj. case_decide; [subst; by apply Hpv|by apply Hpv]. }
  constructor.
  - intros i Hi. unfold pivot_potential. rewrite !(nw_root _ _ _ Hn) by done. case_decide; lia.
  - intros i j Hi Hj. rewrite EA by done. unfold tension, pivot_potential. rewrite !(nw_tension _ _ _ Hn) by done. unfold tension.
    case_decide; lia.
  - intros q Hq. destruct (nw_generates _ _ _ Hn q Hq) as [k Hk].
    set (s := sum_by (fun i => k i * A i c) (seq 0 m)).
    exists (fun i => if decide (i = p) then s else k i). intros v Hv. rewrite (Hk v Hv).
    assert (E : forall l, NoDup l -> sum_by (fun i => k i * P i v) l = sum_by (fun i => (if decide (i = p) then 0 else k i) * pivot_potential i v) l
      + (sum_by (fun i => k i * A i c) l) * P p v).
    { induction 1 as [|i l Hi Hl IH]; [by rewrite !sum_by_nil; lia|]. rewrite !sum_by_cons, IH. unfold pivot_potential.
      case_decide; [subst; rewrite Hone|]; lia. }
    rewrite (E (seq 0 m)) by apply NoDup_seq. fold s.
    rewrite (sum_by_point (fun i => (if decide (i = p) then 0 else k i) * pivot_potential i v)
      (fun i => (if decide (i = p) then s else k i) * pivot_potential i v) (seq 0 m) p).
    + unfold pivot_potential. rewrite !decide_True by done. lia.
    + apply NoDup_seq.
    + apply elem_of_seq. lia.
    + intros i _ Hi. by rewrite !decide_False.
  - intros i Hi. unfold pivot_basis. case_decide; [done|by apply (nw_column _ _ _ Hn)].
  - intros i k Hi Hk. unfold pivot_basis. case_decide as Ek; [subst k|].
    + rewrite EA by done. case_decide; [done|]. rewrite Hone. lia.
    + rewrite EA by (done || by apply (nw_column _ _ _ Hn)). rewrite !(nw_basis _ _ _ Hn) by done.
      case_decide as Ei; [subst|]; repeat case_decide; subst; done || lia.
Qed.
End Step.
End Network.

(** ** The simplex method

    Maximise [c0] over the [x >= 0] with [A0 x = b0] that are zero on the columns that are
    not active. *)
Section Simplex.
Variables m n nodes : nat.
Variables tail head : nat -> nat.
Hypothesis tail_node : forall j, (j < n)%nat -> (tail j < nodes)%nat.
Hypothesis head_node : forall j, (j < n)%nat -> (head j < nodes)%nat.
Variables (A0 : nat -> nat -> Z) (b0 c0 : nat -> Z) (act : nat -> bool).
Variable bound : Z.
Abbreviation lin := (lin n).
Abbreviation solves := (solves m n).

Definition nonneg_active (x : nat -> Z) : Prop := (forall j, 0 <= x j) /\ forall j, (j < n)%nat -> act j = false -> x j = 0.
Definition feasible (x : nat -> Z) : Prop := nonneg_active x /\ solves A0 b0 x.
(** A vertex never uses both directions of an edge. *)
Definition one_way (x : nat -> Z) : Prop :=
  forall j j', (j < n)%nat -> (j' < n)%nat -> tail j = head j' -> head j = tail j' -> tail j <> head j -> x j = 0 \/ x j' = 0.
Record bounded_problem : Prop := {
  bp_ray : forall d, nonneg_active d -> solves A0 (fun _ => 0) d -> lin c0 d <= 0;
  bp_vertex : forall x, feasible x -> one_way x -> (forall j, (j < n)%nat -> x j <= bound) /\ - bound <= lin c0 x <= bound
}.

Record tableau (A : nat -> nat -> Z) (b o : nat -> Z) (z : Z) (P : nat -> nat -> Z) (β : nat -> nat) : Prop := {
  tb_network : network m n nodes tail head A P β;
  tb_active : forall i, (i < m)%nat -> act (β i) = true \/ (b i = 0 /\ forall j, (j < n)%nat -> act j = true -> A i j = 0);
  tb_solutions : forall x, solves A b x <-> solves A0 b0 x;
  tb_kernel : forall d, solves A (fun _ => 0) d <-> solves A0 (fun _ => 0) d;
  tb_objective : forall x, solves A0 b0 x -> lin o x - z = lin c0 x;
  tb_objective_kernel : forall d, solves A0 (fun _ => 0) d -> lin o d = lin c0 d;
  tb_nonneg : forall i, (i < m)%nat -> 0 <= b i;
  tb_reduced : forall i, (i < m)%nat -> o (β i) = 0;
  tb_potential : exists Q, Q 0%nat = 0 /\ forall j, (j < n)%nat -> o j = c0 j - tension tail head Q j
}.

(** Values for the basis columns, zero elsewhere. *)
Definition basic (β : nat -> nat) (w : nat -> Z) (j : nat) : Z := sum_by (fun i => if decide (β i = j) then w i else 0) (seq 0 m).
Lemma lin_basic β w r : (forall i, (i < m)%nat -> (β i < n)%nat) -> lin r (basic β w) = sum_by (fun i => w i * r (β i)) (seq 0 m).
Proof.
  intros Hβ. unfold basic. assert (Hl : Forall (fun i => (β i < n)%nat) (seq 0 m)) by (apply Forall_forall; intros i Hi%elem_of_seq; apply Hβ; lia).
  induction Hl as [|i l Hi Hl IH].
  - rewrite sum_by_nil. apply sum_by_zero, Forall_forall. intros j _. rewrite sum_by_nil. lia.
  - rewrite sum_by_cons, <- IH. rewrite (lin_ext n r r _ (fun j => sum_by (fun i => if decide (β i = j) then w i else 0) l + w i * (if decide (β i = j) then 1 else 0))).
    + rewrite lin_combine_r. unfold NetworkLP.lin at 2. rewrite (sum_at _ n (β i)); [rewrite decide_True by done; lia|done|].
      intros j _ Hj. rewrite decide_False by done. lia.
    + done.
    + intros j _. rewrite sum_by_cons. case_decide; lia.
Qed.

Section Tableau.
Context (A : nat -> nat -> Z) (b o : nat -> Z) (z : Z) (P : nat -> nat -> Z) (β : nat -> nat).
Hypothesis Ht : tableau A b o z P β.

Let Hnet := tb_network _ _ _ _ _ _ Ht.
Let Hcol := nw_column _ _ _ _ _ _ _ _ Hnet.
Lemma lin_row w i : (i < m)%nat -> lin (A i) (basic β w) = w i.
Proof.
  intros Hi. rewrite lin_basic by apply Hcol. rewrite (sum_at _ m i Hi).
  - rewrite (nw_basis _ _ _ _ _ _ _ _ Hnet) by done. rewrite decide_True by done. lia.
  - intros k Hk Hne. rewrite (nw_basis _ _ _ _ _ _ _ _ Hnet) by done. rewrite decide_False by done. lia.
Qed.
Lemma basis_injective i k : (i < m)%nat -> (k < m)%nat -> β i = β k -> i = k.
Proof.
  intros Hi Hk E. pose proof (nw_basis _ _ _ _ _ _ _ _ Hnet i k Hi Hk) as H1.
  pose proof (nw_basis _ _ _ _ _ _ _ _ Hnet i i Hi Hi) as H2. rewrite decide_True in H2 by done. rewrite E, H1 in H2. by case_decide.
Qed.
Lemma basic_at w i : (i < m)%nat -> basic β w (β i) = w i.
Proof.
  intros Hi. unfold basic. rewrite (sum_at _ m i Hi); [by rewrite decide_True|]. intros k Hk Hne. rewrite decide_False; [done|].
  intros E. by apply Hne, basis_injective.
Qed.
Lemma basic_off w j : basic β w j <> 0 -> exists i, (i < m)%nat /\ β i = j.
Proof.
  intros Hw. destruct (sum_seq_nonzero _ _ Hw) as (i & Hi & E). exists i. split; [done|]. by case_decide.
Qed.
Lemma basic_nonneg w : (forall i, (i < m)%nat -> 0 <= w i) -> (forall i, (i < m)%nat -> act (β i) = true \/ w i = 0) -> nonneg_active (basic β w).
Proof.
  intros Hw Hact. split.
  - intros j. apply sum_by_nonneg, Forall_forall. intros i Hi%elem_of_seq. case_decide; [apply Hw|]; lia.
  - intros j Hj Ha. apply sum_by_zero, Forall_forall. intros i Hi%elem_of_seq. case_decide as E; [|done].
    rewrite <- E in Ha. destruct (Hact i) as [Ha'|]; [lia|congruence|done].
Qed.

(** *** The basic solution *)
Lemma basic_feasible : feasible (basic β b).
Proof.
  split; [apply basic_nonneg; [apply (tb_nonneg _ _ _ _ _ _ Ht)|intros i Hi; destruct (tb_active _ _ _ _ _ _ Ht i Hi) as [|[? _]]; auto]|].
  apply (tb_solutions _ _ _ _ _ _ Ht). intros i Hi. by apply lin_row.
Qed.
Lemma basic_one_way : one_way (basic β b).
Proof.
  intros j j' Hj Hj' E1 E2 Hne. destruct (decide (basic β b j = 0)) as [|Hb]; [by left|].
  destruct (decide (basic β b j' = 0)) as [|Hb']; [by right|]. apply basic_off in Hb as (i & Hi & <-), Hb' as (k & Hk & <-).
  pose proof (nw_basis _ _ _ _ _ _ _ _ Hnet i i Hi Hi) as H1. rewrite decide_True in H1 by done.
  pose proof (nw_basis _ _ _ _ _ _ _ _ Hnet i k Hi Hk) as H2. rewrite (nw_tension _ _ _ _ _ _ _ _ Hnet) in H1, H2 by done.
  unfold tension in *. rewrite <- E1, <- E2 in H2. case_decide; lia.
Qed.
Lemma basic_objective : lin c0 (basic β b) = - z.
Proof.
  rewrite <- (tb_objective _ _ _ _ _ _ Ht) by apply basic_feasible. rewrite lin_basic by apply Hcol. rewrite sum_by_zero; [lia|].
  apply Forall_forall. intros i Hi%elem_of_seq. rewrite (tb_reduced _ _ _ _ _ _ Ht) by lia. lia.
Qed.
Lemma tableau_bounds : bounded_problem -> (forall i, (i < m)%nat -> 0 <= b i <= bound) /\ - bound <= z <= bound.
Proof.
  intros Hb. destruct (bp_vertex Hb _ basic_feasible basic_one_way) as [H1 H2]. rewrite basic_objective in H2. split; [|lia].
  intros i Hi. split; [by apply (tb_nonneg _ _ _ _ _ _ Ht)|]. rewrite <- (basic_at b i Hi). by apply H1, Hcol.
Qed.

(** The reduced costs, when the basis columns with a cost cross few levels. *)
Lemma objective_range (N : Z) :
  (forall Q, Q 0%nat = 0 -> (forall i, (i < m)%nat -> tension tail head Q (β i) = c0 (β i)) ->
     exists levels, Z.of_nat (length levels) <= N /\
       forall k t, (k < m)%nat -> (t <=? Q (head (β k))) <> (t <=? Q (tail (β k))) -> t - 1 ∈ levels) ->
  forall j, (j < n)%nat -> - N <= o j - c0 j <= N.
Proof.
  intros HN j Hj. destruct (tb_potential _ _ _ _ _ _ Ht) as (Q & HQ & Ho). destruct (HN Q HQ) as (levels & Hl & Hc).
  { intros i Hi. pose proof (Ho (β i) (Hcol i Hi)) as E. rewrite (tb_reduced _ _ _ _ _ _ Ht) in E by done. lia. }
  pose proof (potential_spread m n nodes tail head tail_node head_node A P β Hnet Q levels HQ Hc (head j) (tail j)) as H1.
  pose proof (potential_spread m n nodes tail head tail_node head_node A P β Hnet Q levels HQ Hc (tail j) (head j)) as H2.
  specialize (H1 (head_node j Hj) (tail_node j Hj)). specialize (H2 (tail_node j Hj) (head_node j Hj)).
  rewrite (Ho j Hj). unfold tension. lia.
Qed.

(** *** No column improves *)
Lemma tableau_optimal : (forall j, (j < n)%nat -> act j = true -> o j <= 0) ->
  forall x, feasible x -> lin c0 x <= lin c0 (basic β b).
Proof.
  intros Ho x [[Hx Ha] Hs]. rewrite basic_objective, <- (tb_objective _ _ _ _ _ _ Ht) by done.
  enough (lin o x <= 0) by lia. apply lin_le_0. intros j Hj. destruct (act j) eqn:Ej.
  - pose proof (Ho j Hj Ej). pose proof (Hx j). nia.
  - rewrite (Ha j Hj Ej). lia.
Qed.

(** *** A column improves *)
Lemma pivot_row_exists c : bounded_problem -> (c < n)%nat -> act c = true -> 0 < o c -> exists i, (i < m)%nat /\ 0 < A i c.
Proof.
  intros Hb Hc Ha Ho. destruct (decide (Exists (fun i => 0 < A i c) (seq 0 m))) as [(i & Hi%elem_of_seq & Hi')%Exists_exists|Hno].
  { exists i. split; [lia|done]. }
  assert (Hneg : forall i, (i < m)%nat -> A i c <= 0).
  { intros i Hi. destruct (Z.le_gt_cases (A i c) 0) as [|Hpos]; [done|]. destruct Hno. apply Exists_exists. exists i.
    split; [apply elem_of_seq; lia|lia]. }
  set (e j := if decide (j = c) then 1 else 0). set (w i := - A i c).
  assert (Hlin : forall r, lin r (fun j => basic β w j + 1 * e j) = sum_by (fun i => w i * r (β i)) (seq 0 m) + r c).
  { intros r. rewrite lin_combine_r, lin_basic by apply Hcol. f_equal. unfold e, NetworkLP.lin. rewrite (sum_at _ n c Hc).
    - rewrite decide_True by done. lia.
    - intros j _ Hj. rewrite decide_False by done. lia. }
  exfalso. assert (Hd : nonneg_active (fun j => basic β w j + 1 * e j)).
  { destruct (basic_nonneg w) as [H1 H2]; [intros i Hi; specialize (Hneg i Hi); unfold w; lia| |].
    { intros i Hi. unfold w. destruct (tb_active _ _ _ _ _ _ Ht i Hi) as [|[_ H0]]; [by left|]. rewrite H0 by done. by right. }
    unfold e. split.
    - intros j. specialize (H1 j). case_decide; lia.
    - intros j Hj Ej. rewrite (H2 j Hj Ej). case_decide; [congruence|lia]. }
  assert (Hk : solves A0 (fun _ => 0) (fun j => basic β w j + 1 * e j)).
  { apply (tb_kernel _ _ _ _ _ _ Ht). intros i Hi. rewrite Hlin, <- lin_basic, lin_row by (done || apply Hcol). unfold w. lia. }
  pose proof (bp_ray Hb _ Hd Hk) as Hr. rewrite <- (tb_objective_kernel _ _ _ _ _ _ Ht), Hlin, sum_by_zero in Hr by
    (done || (apply Forall_forall; intros i Hi%elem_of_seq; rewrite (tb_reduced _ _ _ _ _ _ Ht) by lia; lia)). lia.
Qed.

(** The pivot keeps the tableau, when the row passes the ratio test. *)
Lemma tableau_pivot p c A' b' o' z' : (p < m)%nat -> (c < n)%nat -> act c = true -> A p c = 1 ->
  (forall i, (i < m)%nat -> 0 < A i c -> b p <= b i) -> pivoted m n p c A b o z A' b' o' z' ->
  tableau A' b' o' z' (pivot_potential A P p c) (pivot_basis β p c).
Proof.
  intros Hp Hc Ha H1 Hmin Hpv.
  assert (Hr : forall i, (i < m)%nat -> -1 <= A i c <= 1) by (intros i Hi; by apply (entry_range m n nodes tail head tail_node head_node A P β Hnet)).
  constructor.
  - by eapply pivoted_network.
  - intros i Hi. unfold pivot_basis. case_decide as Hne; [by left|]. destruct (tb_active _ _ _ _ _ _ Ht i Hi) as [|[Hb0 H0]]; [by left|].
    right. split; [rewrite (pv_value _ _ _ _ _ _ _ _ _ _ _ _ Hpv), H0 by done; lia|]. intros j Hj Hj'.
    rewrite (pv_row _ _ _ _ _ _ _ _ _ _ _ _ Hpv), (H0 c), (H0 j) by done. lia.
  - intros x. rewrite <- (tb_solutions _ _ _ _ _ _ Ht). by apply (pivoted_solves m n p c A b o z A' b' o' z').
  - intros d. rewrite <- (tb_kernel _ _ _ _ _ _ Ht). by apply (pivoted_kernel m n p c A b o z A' b' o' z').
  - intros x Hx. rewrite <- (tb_objective _ _ _ _ _ _ Ht) by done. rewrite (pivoted_objective m n p c A b o z A' b' o' z' Hp Hpv).
    rewrite (pv_objective_value _ _ _ _ _ _ _ _ _ _ _ _ Hpv). apply (tb_solutions _ _ _ _ _ _ Ht) in Hx. rewrite (Hx p Hp). lia.
  - intros d Hd. rewrite <- (tb_objective_kernel _ _ _ _ _ _ Ht) by done. rewrite (pivoted_objective m n p c A b o z A' b' o' z' Hp Hpv).
    apply (tb_kernel _ _ _ _ _ _ Ht) in Hd. rewrite (Hd p Hp). lia.
  - intros i Hi. pose proof (tb_nonneg _ _ _ _ _ _ Ht p Hp). pose proof (tb_nonneg _ _ _ _ _ _ Ht i Hi).
    destruct (decide (i = p)) as [->|Hne]; [by rewrite (pv_pivot_value _ _ _ _ _ _ _ _ _ _ _ _ Hpv)|].
    rewrite (pv_value _ _ _ _ _ _ _ _ _ _ _ _ Hpv) by done. specialize (Hr i Hi). specialize (Hmin i Hi).
    assert (A i c = -1 \/ A i c = 0 \/ A i c = 1) as [-> | [-> | E]] by lia; [lia..|]. rewrite E in *. specialize (Hmin ltac:(lia)). lia.
  - intros i Hi. unfold pivot_basis. case_decide.
    + rewrite (pv_objective _ _ _ _ _ _ _ _ _ _ _ _ Hpv) by done. rewrite H1. lia.
    + rewrite (pv_objective _ _ _ _ _ _ _ _ _ _ _ _ Hpv) by by apply Hcol.
      rewrite (tb_reduced _ _ _ _ _ _ Ht), (nw_basis _ _ _ _ _ _ _ _ Hnet) by done. rewrite decide_False by done. lia.
  - destruct (tb_potential _ _ _ _ _ _ Ht) as (Q & HQ & Ho). exists (fun v => Q v + o c * P p v). split.
    + rewrite HQ, (nw_root _ _ _ _ _ _ _ _ Hnet) by done. lia.
    + intros j Hj. rewrite (pv_objective _ _ _ _ _ _ _ _ _ _ _ _ Hpv), Ho by done.
      rewrite (nw_tension _ _ _ _ _ _ _ _ Hnet) by done. rewrite (Ho c Hc). unfold tension. lia.
Qed.
End Tableau.

(** Only the rows, the columns and the basis of a tableau are looked at. *)
Lemma tableau_ext A b o z P β A' b' o' β' :
  (forall i j, (i < m)%nat -> (j < n)%nat -> A i j = A' i j) -> (forall i, (i < m)%nat -> b i = b' i) ->
  (forall j, (j < n)%nat -> o j = o' j) -> (forall i, (i < m)%nat -> β i = β' i) ->
  tableau A b o z P β -> tableau A' b' o' z P β'.
Proof.
  intros HA Hb Ho Hβ [[N1 N2 N3 N4 N5] T2 T3 T4 T5 T6 T7 T8 T9].
  assert (Hlin : forall i x, (i < m)%nat -> lin (A' i) x = lin (A i) x).
  { intros i x Hi. apply lin_ext; [|done]. intros j Hj. symmetry. by apply HA. }
  assert (Hlo : forall x, lin o' x = lin o x) by (intros x; apply lin_ext; [|done]; intros j Hj; symmetry; by apply Ho).
  assert (Hsol : forall c c' x, (forall i, (i < m)%nat -> c i = c' i) -> solves A' c' x <-> solves A c x).
  { intros c c' x Hc. split; intros Hs i Hi; specialize (Hs i Hi); specialize (Hlin i x Hi); specialize (Hc i Hi); congruence. }
  constructor; [constructor| | | | | | | |].
  - done.
  - intros i j Hi Hj. rewrite <- HA by done. by apply N2.
  - done.
  - intros i Hi. rewrite <- Hβ by done. by apply N4.
  - intros i k Hi Hk. rewrite <- Hβ, <- HA by (done || by apply N4). by apply N5.
  - intros i Hi. rewrite <- Hβ, <- Hb by done. destruct (T2 i Hi) as [|[Hb0 H0]]; [by left|]. right. split; [done|]. intros j Hj Ha.
    rewrite <- HA by done. by apply H0.
  - intros x. rewrite <- T3. by apply Hsol.
  - intros d. rewrite <- T4. by apply Hsol.
  - intros x Hx. rewrite Hlo. by apply T5.
  - intros d Hd. rewrite Hlo. by apply T6.
  - intros i Hi. rewrite <- Hb by done. by apply T7.
  - intros i Hi. rewrite <- Hβ, <- Ho by (done || by apply N4). by apply T8.
  - destruct T9 as (Q & HQ & HoQ). exists Q. split; [done|]. intros j Hj. rewrite <- Ho by done. by apply HoQ.
Qed.
(** A tableau whose basis has no cost. *)
Lemma tableau_start P β : network m n nodes tail head A0 P β -> (forall i, (i < m)%nat -> act (β i) = true \/ (b0 i = 0 /\ forall j, (j < n)%nat -> act j = true -> A0 i j = 0)) ->
  (forall i, (i < m)%nat -> 0 <= b0 i) -> (forall i, (i < m)%nat -> c0 (β i) = 0) -> tableau A0 b0 c0 0 P β.
Proof.
  intros Hnet Ha Hb Hc. constructor; try done; [lia..|]. exists (fun _ => 0). split; [done|]. intros j Hj. unfold tension. lia.
Qed.

(** A tableau whose basis has the costs [- w]: the rows are added to the objective. *)
Lemma tableau_priced P β w : network m n nodes tail head A0 P β ->
  (forall i, (i < m)%nat -> act (β i) = true \/ (b0 i = 0 /\ forall j, (j < n)%nat -> act j = true -> A0 i j = 0)) ->
  (forall i, (i < m)%nat -> 0 <= b0 i) -> (forall i, (i < m)%nat -> c0 (β i) = - w i) ->
  tableau A0 b0 (fun j => c0 j + sum_by (fun i => w i * A0 i j) (seq 0 m)) (sum_by (fun i => w i * b0 i) (seq 0 m)) P β.
Proof.
  intros Hnet Ha Hb Hc.
  assert (Hlin : forall b x, solves A0 b x -> lin (fun j => c0 j + sum_by (fun i => w i * A0 i j) (seq 0 m)) x = lin c0 x + sum_by (fun i => w i * b i) (seq 0 m)).
  { intros b x Hx. assert (Hl : Forall (fun i => (i < m)%nat) (seq 0 m)) by (apply Forall_forall; intros i Hi%elem_of_seq; lia).
    induction Hl as [|i l Hi Hl IH].
    - rewrite (lin_ext n _ c0 x x); [rewrite sum_by_nil; lia| |done]. intros j _. rewrite sum_by_nil. lia.
    - rewrite (lin_ext n _ (fun j => (c0 j + sum_by (fun i => w i * A0 i j) l) + w i * A0 i j) x x); [|intros j _; rewrite sum_by_cons; lia|done].
      rewrite lin_combine, IH, (Hx i Hi), sum_by_cons. lia. }
  constructor; try done.
  - intros x Hx. rewrite (Hlin _ _ Hx). lia.
  - intros d Hd. rewrite (Hlin _ _ Hd), (sum_by_zero (fun i => w i * 0)); [lia|]. apply Forall_forall. intros i _. lia.
  - intros k Hk. rewrite Hc by done. rewrite (sum_at _ m k Hk).
    + rewrite (nw_basis _ _ _ _ _ _ _ _ Hnet), decide_True by done. lia.
    + intros i Hi Hne. rewrite (nw_basis _ _ _ _ _ _ _ _ Hnet), decide_False by done. lia.
  - exists (fun v => - sum_by (fun i => w i * P i v) (seq 0 m)). split.
    + rewrite sum_by_zero; [done|]. apply Forall_forall. intros i Hi%elem_of_seq. rewrite (nw_root _ _ _ _ _ _ _ _ Hnet) by lia. lia.
    + intros j Hj. unfold tension. enough (sum_by (fun i => w i * A0 i j) (seq 0 m) = sum_by (fun i => w i * P i (head j)) (seq 0 m) - sum_by (fun i => w i * P i (tail j)) (seq 0 m)) by lia.
      symmetry. apply sum_by_sub. intros i Hi%elem_of_seq. rewrite (nw_tension _ _ _ _ _ _ _ _ Hnet) by (done || lia). unfold tension. lia.
Qed.

(** *** Problems whose tableaux fit the types

    Values are [int128_t] and costs are [int8_t]; [spread] bounds the levels that the
    potential of a basis passes. *)
Variable spread : Z.
Record fitting_problem : Prop := {
  fp_bounded : bounded_problem;
  fp_bound : bound < 2 ^ 126;
  fp_levels : forall (β : nat -> nat) (Q : nat -> Z), (forall i, (i < m)%nat -> (β i < n)%nat) -> Q 0%nat = 0 ->
    (forall i, (i < m)%nat -> tension tail head Q (β i) = c0 (β i)) ->
    exists levels, Z.of_nat (length levels) <= spread /\
      forall k t, (k < m)%nat -> (t <=? Q (head (β k))) <> (t <=? Q (tail (β k))) -> t - 1 ∈ levels;
  fp_costs : forall j, (j < n)%nat -> - 2 ^ 7 + spread < c0 j < 2 ^ 7 - spread
}.
Lemma tableau_fits A b o z P β : fitting_problem -> tableau A b o z P β ->
  (forall i j, (i < m)%nat -> (j < n)%nat -> -1 <= A i j <= 1) /\
  (forall i, (i < m)%nat -> 0 <= b i < 2 ^ 126) /\ - 2 ^ 126 < z < 2 ^ 126 /\ (forall j, (j < n)%nat -> - 2 ^ 7 < o j < 2 ^ 7).
Proof.
  intros Hf Ht. pose proof (fp_bound Hf) as Hb. destruct (tableau_bounds _ _ _ _ _ _ Ht (fp_bounded Hf)) as [H1 H2].
  split; [|split; [|split; [lia|]]].
  - intros i j Hi Hj. by apply (entry_range m n nodes tail head tail_node head_node A P β (tb_network _ _ _ _ _ _ Ht)).
  - intros i Hi. specialize (H1 i Hi). lia.
  - intros j Hj. pose proof (fp_costs Hf j Hj) as Hc. enough (- spread <= o j - c0 j <= spread) by lia.
    clear Hc. revert j Hj. apply (objective_range A b o z P β Ht). intros Q HQ Hred. apply (fp_levels Hf); [|done|done].
    apply (nw_column _ _ _ _ _ _ _ _ (tb_network _ _ _ _ _ _ Ht)).
Qed.
(** Pivoting the objective never increases the negated value. *)
Lemma pivoted_improves A b o z P β p c A' b' o' z' : tableau A b o z P β -> (p < m)%nat -> 0 < o c ->
  pivoted m n p c A b o z A' b' o' z' -> z' <= z /\ (0 < b p -> z' < z).
Proof.
  intros Ht Hp Ho Hpv. rewrite (pv_objective_value _ _ _ _ _ _ _ _ _ _ _ _ Hpv). pose proof (tb_nonneg _ _ _ _ _ _ Ht p Hp). nia.
Qed.
End Simplex.
