(* ===== verification/BitRow.v ===== *)
(** * Rows of entries -1, 0 and 1 (src/simplex/bitcompressed_row.h, .cc)

    An entry takes two bits of a word: 00 is 0, 01 is 1 and 10 is -1.  A whole word is
    added or negated at once, and [normalize] then clears the fields that hold 11.  The
    sum is right as long as no field of it leaves that range. *)
From stdpp Require Import base gmap list.
From S2P Require Import Prelude.

Definition SMEAR_CONSTANT : Z := 0x5555555555555555.
Definition normalize (base : Z) : Z :=
  let adjust := Z.lxor (Z.shiftr (Z.land base (u64 (Z.shiftl SMEAR_CONSTANT 1))) 1) (Z.land base SMEAR_CONSTANT) in
  let adjust := Z.lor adjust (u64 (Z.shiftl adjust 1)) in
  Z.land base adjust.
Definition add_bitwise (base value : Z) : Z := normalize (u64 (base + value)).

(** What [operator[]] makes of the field at [offset] of a word. *)
Definition decode_field (word offset : Z) : Z :=
  let idx_val := Z.shiftr (Z.land (u64 (Z.shiftl 3 (2 * offset))) word) (2 * offset) in
  if idx_val =? 0 then 0 else if idx_val =? 1 then 1 else -1.

Module BitcompressedRow.
Record t := mk { num_words : Z; matrix_entries : list Z; row_value : Z }.
Implicit Types r : t.
Definition new (num_cols : Z) : t :=
  let num_words := u16 (if num_cols mod 32 =? 0 then num_cols / 32 else 1 + num_cols / 32) in
  mk num_words (replicate (Z.to_nat num_words) 0) 0.
(** The loop of [operator+=] over [num_words] words of both rows. *)
Fixpoint add_words (data other_data : list Z) : list Z :=
  match data, other_data with
  | d :: data, o :: other_data => add_bitwise d o :: add_words data other_data
  | data, _ => data
  end.
Definition add r (other : t) : t :=
  mk (num_words r) (add_words (matrix_entries r) (matrix_entries other)) (i128 (row_value r + row_value other)).
Definition negate r : t :=
  mk (num_words r) ((fun d => normalize (u64 (Z.lnot d))) <$> matrix_entries r) (i128 (row_value r * -1)).
(** [idx] is a [uint16_t] below the number of columns: the vector is not checked. *)
Definition set_pos (idx : Z) r : t :=
  mk (num_words r) (vec_update (fun w => Z.lor w (Z.shiftl 1 (2 * (idx mod 32)))) (Z.to_nat (idx / 32)) (matrix_entries r)) (row_value r).
Definition set_neg (idx : Z) r : t :=
  mk (num_words r) (vec_update (fun w => Z.lor w (Z.shiftl 1 (2 * (idx mod 32) + 1))) (Z.to_nat (idx / 32)) (matrix_entries r)) (row_value r).
Definition set_value (value : Z) r : t := mk (num_words r) (matrix_entries r) value.
Definition at_ r (idx : Z) : Z :=
  decode_field (default 0 (matrix_entries r !! Z.to_nat (u16 (idx / 32)))) (u16 (idx mod 32)).
End BitcompressedRow.

(** The variant that keeps the words in a hash map. *)
Module SparseRow.
Record t := mk { entries : gmap Z Z; row_value : Z }.
Implicit Types r : t.
Definition new : t := mk ∅ 0.
Definition add r (other : t) : t :=
  mk (merge (fun w o => match o with Some d => Some (add_bitwise (default 0 w) d) | None => w end) (entries r) (entries other))
    (i128 (row_value r + row_value other)).
Definition negate r : t := mk ((fun d => normalize (u64 (Z.lnot d))) <$> entries r) (i128 (row_value r * -1)).
Definition set_pos (idx : Z) r : t :=
  mk (<[idx / 32 := Z.lor (default 0 (entries r !! (idx / 32))) (Z.shiftl 1 (2 * (idx mod 32)))]> (entries r)) (row_value r).
Definition set_neg (idx : Z) r : t :=
  mk (<[idx / 32 := Z.lor (default 0 (entries r !! (idx / 32))) (Z.shiftl 1 (2 * (idx mod 32) + 1))]> (entries r)) (row_value r).
Definition set_value (value : Z) r : t := mk (entries r) value.
Definition at_ r (idx : Z) : Z :=
  match entries r !! u16 (idx / 32) with
  | None => 0
  | Some w => decode_field w (u16 (idx mod 32))
  end.
End SparseRow.

(** ** Words as sequences of fields *)
Definition field (w : Z) (k : nat) : Z := (w / 4 ^ Z.of_nat k) mod 4.
(** The entry a field stands for. *)
Definition trit (f : Z) : Z := if f =? 0 then 0 else if f =? 1 then 1 else -1.
Definition is_word (w : Z) : Prop := 0 <= w < 4 ^ 32.
Definition normal (w : Z) : Prop := is_word w /\ forall k, field w k <> 3.

Lemma field_range w k : 0 <= field w k < 4.
Proof. unfold field. apply Z.mod_pos_bound. lia. Qed.
Lemma field_0 w : field w 0 = w mod 4.
Proof. unfold field. by rewrite Z.div_1_r. Qed.
Lemma field_S w k : field w (S k) = field (w / 4) k.
Proof. unfold field. rewrite Nat2Z.inj_succ, Z.pow_succ_r, Z.div_div by lia. done. Qed.
Lemma field_high w k : is_word w -> (32 <= k)%nat -> field w k = 0.
Proof.
  unfold is_word. intros Hw Hk. unfold field. rewrite Z.div_small; [done|].
  pose proof (Z.pow_le_mono_r 4 32 (Z.of_nat k)). lia.
Qed.

(** Fields that fit are added without a carry. *)
Lemma field_add k w v : (forall i, field w i + field v i < 4) -> field (w + v) k = field w k + field v k.
Proof.
  revert w v. induction k as [|k IH]; intros w v Hf; pose proof (Hf 0%nat) as H0; rewrite !field_0 in *.
  - rewrite Z.add_mod, (Z.mod_small (_ + _)) by (pose proof (Z.mod_pos_bound w 4); pose proof (Z.mod_pos_bound v 4); lia). done.
  - rewrite !field_S. replace ((w + v) / 4) with (w / 4 + v / 4) by (Z.div_mod_to_equations; lia).
    apply IH. intros i. rewrite <- !field_S. apply Hf.
Qed.
Lemma add_word n w v : 0 <= w < 4 ^ Z.of_nat n -> 0 <= v < 4 ^ Z.of_nat n -> (forall i, field w i + field v i < 4) ->
  0 <= w + v < 4 ^ Z.of_nat n.
Proof.
  revert w v. induction n as [|n IH]; intros w v Hw Hv Hf; [change (4 ^ Z.of_nat 0) with 1 in *; lia|].
  rewrite Nat2Z.inj_succ, Z.pow_succ_r in * by lia. pose proof (Hf 0%nat) as H0. rewrite !field_0 in H0.
  assert (0 <= w / 4 + v / 4 < 4 ^ Z.of_nat n).
  { apply IH; [Z.div_mod_to_equations; lia..|]. intros i. rewrite <- !field_S. apply Hf. }
  Z.div_mod_to_equations. lia.
Qed.
Lemma field_complement k w : (k < 32)%nat -> is_word w -> field (4 ^ 32 - 1 - w) k = 3 - field w k.
Proof.
  intros Hk Hw. enough (H : forall n, (k < n)%nat -> forall w, 0 <= w < 4 ^ Z.of_nat n -> field (4 ^ Z.of_nat n - 1 - w) k = 3 - field w k)
    by by apply (H 32%nat).
  clear. induction k as [|k IH]; intros [|n] Hn w Hw; [lia| |lia|].
  - rewrite Nat2Z.inj_succ, Z.pow_succ_r in * by lia. rewrite !field_0. Z.div_mod_to_equations. lia.
  - rewrite !field_S, Nat2Z.inj_succ, Z.pow_succ_r in * by lia.
    replace ((4 * 4 ^ Z.of_nat n - 1 - w) / 4) with (4 ^ Z.of_nat n - 1 - w / 4) by (Z.div_mod_to_equations; lia).
    apply IH; [lia|]. Z.div_mod_to_equations. lia.
Qed.

(** *** Fields and bits *)
Lemma field_bits w k : field w k = 2 * Z.b2z (Z.testbit w (2 * Z.of_nat k + 1)) + Z.b2z (Z.testbit w (2 * Z.of_nat k)).
Proof.
  unfold field. set (n := Z.of_nat k). assert (Hn : 0 <= n) by lia.
  replace (4 ^ n) with (2 ^ (2 * n)) by (rewrite Z.pow_mul_r by lia; done).
  rewrite <- Z.shiftr_div_pow2 by lia.
  replace (2 * n) with (0 + 2 * n) at 3 by lia. replace (2 * n + 1) with (1 + 2 * n) by lia.
  rewrite <- !Z.shiftr_spec by lia. generalize (Z.shiftr w (2 * n)). intros x.
  rewrite !Z.testbit_spec' by lia. change (2 ^ 1) with 2. change (2 ^ 0) with 1. Z.div_mod_to_equations. lia.
Qed.
Lemma smear_bit i : 0 <= i -> Z.testbit SMEAR_CONSTANT i = Z.even i && (i <? 64).
Proof.
  intros Hi. destruct (Z.ltb_spec i 64) as [Hlt|Hge].
  - assert (Hall : forallb (fun i => Bool.eqb (Z.testbit SMEAR_CONSTANT i) (Z.even i)) (Z.of_nat <$> seq 0 64) = true) by by vm_compute.
    rewrite forallb_forall in Hall. rewrite andb_true_r. apply eqb_prop, Hall. apply list_elem_of_In, list_elem_of_fmap.
    exists (Z.to_nat i). split; [lia|apply elem_of_seq; lia].
  - rewrite andb_false_r. apply Z.bits_above_log2; [by vm_compute|]. change (Z.log2 SMEAR_CONSTANT) with 62. lia.
Qed.
Lemma word_bit w i : is_word w -> 64 <= i -> Z.testbit w i = false.
Proof.
  intros [H1 H2] Hi. destruct (decide (w = 0)) as [->|]; [apply Z.bits_0|]. apply Z.bits_above_log2; [done|].
  apply Z.log2_lt_pow2; [lia|]. pose proof (Z.pow_le_mono_r 2 64 i). change (4 ^ 32) with (2 ^ 64) in H2. lia.
Qed.
Lemma u64_bit w i : 0 <= i -> Z.testbit (u64 w) i = (i <? 64) && Z.testbit w i.
Proof.
  intros Hi. unfold u64. destruct (Z.ltb_spec i 64); [by rewrite Z.mod_pow2_bits_low by lia|by rewrite Z.mod_pow2_bits_high by lia].
Qed.
Lemma normalize_word w : is_word w -> is_word (normalize w).
Proof.
  intros Hw. unfold normalize. set (a := Z.lor _ _). split; [apply Z.land_nonneg; left; apply Hw|].
  destruct (decide (Z.land w a = 0)) as [->|Hne]; [done|]. change (4 ^ 32) with (2 ^ 64).
  assert (0 < Z.land w a) by (assert (0 <= Z.land w a) by (apply Z.land_nonneg; left; apply Hw); lia).
  destruct (Z.lt_ge_cases (Z.land w a) (2 ^ 64)) as [|Hge]; [done|]. exfalso.
  pose proof (Z.bit_log2 (Z.land w a) ltac:(lia)) as Hb. rewrite Z.land_spec, word_bit in Hb; [done|done|].
  change 64 with (Z.log2 (2 ^ 64)). by apply Z.log2_le_mono.
Qed.
(** [normalize] clears the fields that hold 3. *)
Lemma field_normalize w k : is_word w -> field (normalize w) k = if field w k =? 3 then 0 else field w k.
Proof.
  intros Hw. destruct (decide (32 <= k)%nat) as [Hk|Hk]; [by rewrite !field_high by (done || by apply normalize_word)|].
  set (i := 2 * Z.of_nat k). assert (Hi : 0 <= i < 63 /\ Z.even i = true).
  { unfold i. rewrite Z.even_mul. split; [lia|done]. } destruct Hi as [Hi He].
  assert (Ho : Z.even (i + 1) = false) by (rewrite Z.add_1_r, Z.even_succ; unfold i; by rewrite Z.odd_mul).
  set (adj := Z.lxor (Z.shiftr (Z.land w (u64 (Z.shiftl SMEAR_CONSTANT 1))) 1) (Z.land w SMEAR_CONSTANT)).
  assert (E0 : Z.testbit adj i = xorb (Z.testbit w (i + 1)) (Z.testbit w i)).
  { unfold adj. rewrite Z.lxor_spec, Z.shiftr_spec, !Z.land_spec, u64_bit, Z.shiftl_spec, !smear_bit by lia.
    replace (i + 1 - 1) with i by lia. rewrite He, !(proj2 (Z.ltb_lt _ _)) by lia. by rewrite !andb_true_r. }
  assert (E1 : Z.testbit adj (i + 1) = false).
  { unfold adj. rewrite Z.lxor_spec, Z.shiftr_spec, !Z.land_spec, u64_bit, Z.shiftl_spec, !smear_bit by lia.
    replace (i + 1 + 1 - 1) with (i + 1) by lia. rewrite Ho. by rewrite !andb_false_r. }
  assert (Em : i = 0 \/ Z.testbit adj (i - 1) = false).
  { destruct (decide (i = 0)) as [|Hne]; [by left|]. right. unfold adj.
    rewrite Z.lxor_spec, Z.shiftr_spec, !Z.land_spec, u64_bit, Z.shiftl_spec, !smear_bit by lia.
    replace (i - 1 + 1 - 1) with (i - 1) by lia. replace (Z.even (i - 1)) with false; [by rewrite !andb_false_r|].
    rewrite Z.sub_1_r, Z.even_pred. unfold i. by rewrite Z.odd_mul. }
  rewrite !field_bits. fold i. unfold normalize. fold adj. rewrite !Z.land_spec, !Z.lor_spec, !u64_bit by lia.
  replace (Z.testbit (Z.shiftl adj 1) i) with false.
  2:{ destruct (decide (i = 0)) as [->|Hne]; [by rewrite Z.shiftl_spec_low by lia|]. rewrite Z.shiftl_spec by lia. by destruct Em as [?| ->]. }
  rewrite Z.shiftl_spec by lia. replace (i + 1 - 1) with i by lia. rewrite E0, E1, !(proj2 (Z.ltb_lt _ _)) by lia.
  by destruct (Z.testbit w (i + 1)), (Z.testbit w i).
Qed.

(** ** Rows *)
Lemma decode_field_spec w (k : nat) : is_word w -> (k < 32)%nat -> decode_field w (Z.of_nat k) = trit (field w k).
Proof.
  intros Hw Hk. unfold decode_field, trit. set (v := Z.shiftr _ _). enough (E : v = field w k) by by rewrite E.
  unfold v, field. apply Z.bits_inj'. intros i Hi. rewrite Z.shiftr_spec, Z.land_spec, u64_bit, Z.shiftl_spec by lia.
  replace (i + 2 * Z.of_nat k - 2 * Z.of_nat k) with i by lia.
  replace (4 ^ Z.of_nat k) with (2 ^ (2 * Z.of_nat k)) by (rewrite Z.pow_mul_r by lia; done). change 4 with (2 ^ 2).
  destruct (decide (i < 2)) as [H2|H2].
  - rewrite Z.mod_pow2_bits_low, Z.div_pow2_bits, (proj2 (Z.ltb_lt _ _)) by lia.
    assert (i = 0 \/ i = 1) as [-> | ->] by lia; done.
  - rewrite Z.mod_pow2_bits_high by lia. rewrite (Z.bits_above_log2 3 i); [by rewrite andb_false_r|lia|]. change (Z.log2 3) with 1. lia.
Qed.
Lemma field_word w k : is_word w -> field w k <> 0 -> (k < 32)%nat.
Proof. intros Hw Hf. destruct (decide (k < 32)%nat) as [|Hk]; [done|]. rewrite field_high in Hf; [done|done|lia]. Qed.

Lemma add_bitwise_normal w v : normal w -> normal v -> (forall k, -1 <= trit (field w k) + trit (field v k) <= 1) ->
  normal (add_bitwise w v) /\ forall k, trit (field (add_bitwise w v) k) = trit (field w k) + trit (field v k).
Proof.
  intros [Hw Hw3] [Hv Hv3] Hf.
  assert (Hsum : forall k, field w k + field v k < 4 /\ (field w k = 1 -> field v k <> 1)).
  { intros k. specialize (Hf k). specialize (Hw3 k). specialize (Hv3 k). pose proof (field_range w k). pose proof (field_range v k).
    unfold trit in Hf. repeat case_match; lia. }
  assert (Hlt : forall k, field w k + field v k < 4) by (intros k; by apply Hsum).
  pose proof (add_word 32 w v Hw Hv Hlt) as Hword.
  assert (Hu : u64 (w + v) = w + v) by (apply u64_id; exact Hword). unfold add_bitwise. rewrite Hu.
  assert (Ef : forall k, field (normalize (w + v)) k = if field w k + field v k =? 3 then 0 else field w k + field v k).
  { intros k. by rewrite field_normalize, field_add. }
  split.
  - split; [by apply normalize_word|]. intros k. rewrite Ef. destruct (Z.eqb_spec (field w k + field v k) 3); lia.
  - intros k. rewrite Ef. specialize (Hsum k). specialize (Hw3 k). specialize (Hv3 k).
    pose proof (field_range w k). pose proof (field_range v k). unfold trit. destruct (Z.eqb_spec (field w k + field v k) 3); cbn.
    + repeat case_match; lia.
    + repeat case_match; lia.
Qed.
Lemma negate_word_normal w : normal w ->
  normal (normalize (u64 (Z.lnot w))) /\ forall k, (k < 32)%nat -> trit (field (normalize (u64 (Z.lnot w))) k) = - trit (field w k).
Proof.
  intros [Hw Hw3]. replace (u64 (Z.lnot w)) with (4 ^ 32 - 1 - w).
  2:{ unfold is_word in Hw. change (4 ^ 32) with (2 ^ 64) in *. unfold Z.lnot, u64. rewrite (Z.mod_unique (Z.pred (- w)) (2 ^ 64) (-1) (2 ^ 64 - 1 - w)); lia. }
  assert (Hc : is_word (4 ^ 32 - 1 - w)) by (unfold is_word in *; lia). split.
  - split; [by apply normalize_word|]. intros k. rewrite field_normalize by done. destruct (Z.eqb_spec (field (4 ^ 32 - 1 - w) k) 3); lia.
  - intros k Hk. rewrite field_normalize, field_complement by done. pose proof (field_range w k). specialize (Hw3 k).
    unfold trit. destruct (Z.eqb_spec (3 - field w k) 3); repeat case_match; lia.
Qed.

Section Rows.
Import BitcompressedRow.
(** Entry [j] of a row. *)
Definition row_entry r (j : nat) : Z := trit (field (default 0 (matrix_entries r !! (j / 32)%nat)) (j mod 32)).
Definition row_wf (words : nat) r : Prop := num_words r = Z.of_nat words /\ length (matrix_entries r) = words /\ Forall normal (matrix_entries r).

Lemma normal_0 : normal 0.
Proof. split; [done|]. intros k. unfold field. by rewrite Z.div_0_l by lia. Qed.
Lemma row_word_normal words r k : row_wf words r -> normal (default 0 (matrix_entries r !! k)).
Proof.
  intros (_ & _ & Hr). destruct (matrix_entries r !! k) as [w|] eqn:E; [by apply (Forall_lookup_1 _ _ _ _ Hr E)|exact normal_0].
Qed.
Lemma mod_32 (j : nat) : (j mod 32 < 32)%nat.
Proof. by apply Nat.mod_upper_bound. Qed.
Lemma at_entry words r (j : nat) : row_wf words r -> Z.of_nat j < 2 ^ 16 -> at_ r (Z.of_nat j) = row_entry r j.
Proof.
  intros Hr Hj. unfold at_, row_entry. change 32 with (Z.of_nat 32). rewrite <- Nat2Z.inj_div, <- Nat2Z.inj_mod.
  assert (Hu : forall i : nat, Z.of_nat i < 2 ^ 16 -> u16 (Z.of_nat i) = Z.of_nat i) by (intros i Hi; unfold u16; rewrite Z.mod_small by lia; done).
  pose proof (mod_32 j). assert (j / 32 <= j)%nat by (apply Nat.Div0.div_le_upper_bound; lia).
  rewrite !Hu, Nat2Z.id by lia. apply decode_field_spec; [|done]. by destruct (row_word_normal words r (j / 32) Hr).
Qed.
Lemma row_entry_out words r j : row_wf words r -> (words * 32 <= j)%nat -> row_entry r j = 0.
Proof.
  intros (_ & Hl & _) Hj. unfold row_entry. rewrite lookup_ge_None_2; [exact eq_refl|]. rewrite Hl.
  apply Nat.div_le_lower_bound; lia.
Qed.
Lemma row_entry_range r j : -1 <= row_entry r j <= 1.
Proof. unfold row_entry, trit. repeat case_match; lia. Qed.

Lemma add_words_lookup data other k : length data = length other ->
  add_words data other !! k = (fun w => add_bitwise w (default 0 (other !! k))) <$> data !! k.
Proof.
  revert other k. induction data as [|d data IH]; intros [|o other] k Hl; try done. destruct k as [|k]; [done|].
  cbn. rewrite IH by (cbn in Hl; lia). done.
Qed.
Lemma length_add_words data other : length (add_words data other) = length data.
Proof. revert other. induction data as [|d data IH]; intros [|o other]; [done..|]. cbn. by rewrite IH. Qed.

(** Adding whole words adds the entries: when every sum of two entries is again -1, 0
    or 1, [operator+=] gives the row of the sums. *)
Lemma row_add_entries words a b : row_wf words a -> row_wf words b ->
  (forall j, -1 <= row_entry a j + row_entry b j <= 1) ->
  row_wf words (add a b) /\ forall j, row_entry (add a b) j = row_entry a j + row_entry b j.
Proof.
  intros Ha Hb Hf. pose proof Ha as (Na & La & Fa). pose proof Hb as (Nb & Lb & Fb).
  assert (Hw : forall k, normal (add_bitwise (default 0 (matrix_entries a !! k)) (default 0 (matrix_entries b !! k))) /\
    forall i, (i < 32)%nat -> trit (field (add_bitwise (default 0 (matrix_entries a !! k)) (default 0 (matrix_entries b !! k))) i) =
      row_entry a (k * 32 + i) + row_entry b (k * 32 + i)).
  { intros k. assert (He : forall r i, (i < 32)%nat -> row_entry r (k * 32 + i) = trit (field (default 0 (matrix_entries r !! k)) i)).
    { intros r i Hi. unfold row_entry. replace ((k * 32 + i) / 32)%nat with k by (rewrite Nat.div_add_l, Nat.div_small by lia; lia).
      replace ((k * 32 + i) mod 32)%nat with i by (rewrite Nat.add_comm, Nat.Div0.mod_add, Nat.mod_small; lia). done. }
    destruct (add_bitwise_normal _ _ (row_word_normal words a k Ha) (row_word_normal words b k Hb)) as [H1 H2].
    - intros i. destruct (decide (i < 32)%nat) as [Hi|Hi]; [rewrite <- !He by done; apply Hf|].
      rewrite !field_high by (lia || by eapply row_word_normal). cbn. lia.
    - split; [done|]. intros i Hi. by rewrite H2, !He. }
  split.
  - split; [done|]. cbn. rewrite length_add_words. split; [done|]. apply Forall_lookup. intros k w Hk.
    rewrite add_words_lookup in Hk by congruence. apply fmap_Some in Hk as (v & Hv & ->). specialize (Hw k). rewrite Hv in Hw. apply Hw.
  - intros j. unfold row_entry at 1. cbn [add matrix_entries]. rewrite add_words_lookup by congruence.
    destruct (Hw (j / 32)%nat) as [_ H2]. specialize (H2 (j mod 32)%nat (mod_32 j)).
    replace (j / 32 * 32 + j mod 32)%nat with j in H2 by (rewrite (Nat.div_mod_eq j 32) at 1; lia). rewrite <- H2.
    destruct (matrix_entries a !! (j / 32)%nat) as [w|] eqn:E; [done|]. cbn [fmap option_fmap option_map default].
    rewrite (lookup_ge_None_2 (matrix_entries b)); [exact eq_refl|]. apply lookup_ge_None in E. congruence.
Qed.
Lemma row_negate_entries words a : row_wf words a ->
  row_wf words (negate a) /\ forall j, row_entry (negate a) j = - row_entry a j.
Proof.
  intros (Na & La & Fa). split.
  - split; [done|]. cbn. rewrite length_fmap. split; [done|]. apply Forall_fmap. eapply Forall_impl; [exact Fa|]. intros w Hw. by apply negate_word_normal.
  - intros j. unfold row_entry. cbn [negate matrix_entries]. rewrite list_lookup_fmap.
    destruct (matrix_entries a !! (j / 32)%nat) as [w|] eqn:E; [|exact eq_refl]. cbn.
    apply negate_word_normal; [by apply (Forall_lookup_1 _ _ _ _ Fa E)|apply mod_32].
Qed.

(** *** Building a row *)
Lemma field_set w (o k : nat) e : e = 0 \/ e = 1 -> is_word w -> (o < 32)%nat -> field w o = 0 ->
  let w' := Z.lor w (Z.shiftl 1 (2 * Z.of_nat o + e)) in is_word w' /\ field w' k = if decide (k = o) then e + 1 else field w k.
Proof.
  intros He Hw Ho H0. cbn zeta.
  assert (Hbit : forall i, 0 <= i -> Z.testbit (Z.lor w (Z.shiftl 1 (2 * Z.of_nat o + e))) i = Z.testbit w i || (i =? 2 * Z.of_nat o + e)).
  { intros i Hi. rewrite Z.lor_spec, Z.shiftl_1_l, Z.pow2_bits_eqb by lia. by rewrite Z.eqb_sym. }
  split.
  - destruct Hw as [H1 H2]. assert (Hp : 0 <= Z.shiftl 1 (2 * Z.of_nat o + e)) by (rewrite Z.shiftl_1_l; lia).
    set (w' := Z.lor _ _) in *. assert (Hn : 0 <= w') by by apply Z.lor_nonneg. split; [done|].
    destruct (Z.lt_ge_cases w' (2 ^ 64)) as [|Hge]; [done|]. exfalso. pose proof (Z.bit_log2 w' ltac:(lia)) as Hb.
    assert (64 <= Z.log2 w') by (change 64 with (Z.log2 (2 ^ 64)); by apply Z.log2_le_mono).
    rewrite Hbit, word_bit in Hb by (done || lia). apply Z.eqb_eq in Hb. lia.
  - pose proof (field_bits w o) as Eo. rewrite H0 in Eo. rewrite !field_bits, !Hbit by lia. case_decide as Hk.
    + subst k. destruct (Z.testbit w (2 * Z.of_nat o + 1)), (Z.testbit w (2 * Z.of_nat o)); cbn in Eo; try lia.
      destruct He as [-> | ->].
      * rewrite Z.add_0_r, Z.eqb_refl, (proj2 (Z.eqb_neq (2 * Z.of_nat o + 1) (2 * Z.of_nat o))) by lia. done.
      * rewrite Z.eqb_refl, (proj2 (Z.eqb_neq (2 * Z.of_nat o) (2 * Z.of_nat o + 1))) by lia. done.
    + rewrite (proj2 (Z.eqb_neq (2 * Z.of_nat k + 1) _)), (proj2 (Z.eqb_neq (2 * Z.of_nat k) _)) by lia. by rewrite !orb_false_r.
Qed.
Lemma update_entries words r (idx : nat) e : e = 0 \/ e = 1 -> row_wf words r -> (idx < words * 32)%nat -> row_entry r idx = 0 ->
  let f w := Z.lor w (Z.shiftl 1 (2 * (Z.of_nat idx mod 32) + e)) in
  let r' := mk (num_words r) (vec_update f (Z.to_nat (Z.of_nat idx / 32)) (matrix_entries r)) (row_value r) in
  row_wf words r' /\ forall j, row_entry r' j = if decide (j = idx) then 1 - 2 * e else row_entry r j.
Proof.
  intros He Hr Hidx H0. cbn zeta. pose proof Hr as (Nr & Lr & Fr).
  change 32 with (Z.of_nat 32). rewrite <- Nat2Z.inj_div, <- Nat2Z.inj_mod, Nat2Z.id.
  assert (Hq : (idx / 32 < words)%nat) by (apply Nat.Div0.div_lt_upper_bound; lia).
  destruct (lookup_lt_is_Some_2 (matrix_entries r) (idx / 32)%nat) as [w Hw]; [lia|].
  pose proof (Forall_lookup_1 _ _ _ _ Fr Hw) as [Hww Hw3].
  assert (Hf0 : field w (idx mod 32) = 0).
  { unfold row_entry, trit in H0. rewrite Hw in H0. change (default 0 (Some w)) with w in H0.
    destruct (Z.eqb_spec (field w (idx mod 32)) 0); [done|]. by destruct (field w (idx mod 32) =? 1). }
  assert (Hset : forall k, is_word (Z.lor w (Z.shiftl 1 (2 * Z.of_nat (idx mod 32) + e))) /\
    field (Z.lor w (Z.shiftl 1 (2 * Z.of_nat (idx mod 32) + e))) k = if decide (k = idx mod 32)%nat then e + 1 else field w k).
  { intros k. apply field_set; [done|done|apply mod_32|done]. }
  unfold vec_update. split.
  - split; [done|]. cbn [matrix_entries]. rewrite length_alter. split; [done|]. apply Forall_lookup. intros k v Hv.
    rewrite list_lookup_alter in Hv. case_decide as Hk.
    + subst k. rewrite Hw in Hv. apply Some_inj in Hv as <-. split; [apply (Hset 0%nat)|]. intros k. cbn beta. rewrite (proj2 (Hset k)).
      case_decide; [lia|apply Hw3].
    + by apply (Forall_lookup_1 _ _ _ _ Fr Hv).
  - intros j. unfold row_entry. cbn [matrix_entries]. rewrite list_lookup_alter. case_decide as Hk.
    + rewrite <- Hk, Hw. cbn [fmap option_fmap option_map default from_option id]. cbn beta. rewrite (proj2 (Hset _)). case_decide as Hm.
      * rewrite decide_True; [destruct He as [-> | ->]; done|]. rewrite (Nat.div_mod_eq j 32), (Nat.div_mod_eq idx 32). lia.
      * rewrite decide_False; [done|]. intros ->. done.
    + rewrite decide_False; [done|]. intros ->. done.
Qed.
Lemma set_pos_entries words r (idx : nat) : row_wf words r -> (idx < words * 32)%nat -> row_entry r idx = 0 ->
  row_wf words (set_pos (Z.of_nat idx) r) /\ forall j, row_entry (set_pos (Z.of_nat idx) r) j = if decide (j = idx) then 1 else row_entry r j.
Proof.
  intros Hr Hi H0. destruct (update_entries words r idx 0 (or_introl eq_refl) Hr Hi H0) as [H1 H2]. rewrite Z.add_0_r in H1, H2. by split.
Qed.
Lemma set_neg_entries words r (idx : nat) : row_wf words r -> (idx < words * 32)%nat -> row_entry r idx = 0 ->
  row_wf words (set_neg (Z.of_nat idx) r) /\ forall j, row_entry (set_neg (Z.of_nat idx) r) j = if decide (j = idx) then -1 else row_entry r j.
Proof. intros Hr Hi H0. by destruct (update_entries words r idx 1 (or_intror eq_refl) Hr Hi H0). Qed.
Lemma set_value_entries words r v : row_wf words r -> row_wf words (set_value v r) /\ forall j, row_entry (set_value v r) j = row_entry r j.
Proof. by intros Hr. Qed.
Definition words_for (n : nat) : nat := if (n mod 32 =? 0)%nat then (n / 32)%nat else (1 + n / 32)%nat.
Lemma words_enough n : (n <= words_for n * 32)%nat.
Proof.
  unfold words_for. pose proof (Nat.div_mod_eq n 32). pose proof (mod_32 n). destruct (Nat.eqb_spec (n mod 32) 0); lia.
Qed.
Lemma new_entries n : Z.of_nat n < 2 ^ 16 -> row_wf (words_for n) (new (Z.of_nat n)) /\ forall j, row_entry (new (Z.of_nat n)) j = 0.
Proof.
  intros Hn. assert (E : num_words (new (Z.of_nat n)) = Z.of_nat (words_for n)).
  { pose proof (Nat2Z.inj_div n 32 : Z.of_nat (n / 32) = Z.of_nat n / 32) as Ed.
    pose proof (Nat2Z.inj_mod n 32 : Z.of_nat (n mod 32) = Z.of_nat n mod 32) as Em.
    unfold new, words_for. cbn [num_words]. rewrite <- Em, <- Ed.
    destruct (Nat.eqb_spec (n mod 32) 0) as [E|E], (Z.eqb_spec (Z.of_nat (n mod 32)) 0) as [E'|E']; try lia;
      unfold u16; rewrite Z.mod_small by (rewrite Ed; Z.div_mod_to_equations; lia); lia. }
  split.
  - split; [done|]. unfold new in E |- *. cbn [num_words matrix_entries] in E |- *. rewrite E, Nat2Z.id, length_replicate.
    split; [done|]. apply Forall_replicate, normal_0.
  - intros j. unfold row_entry. cbn [new matrix_entries]. destruct (replicate _ _ !! _) as [w|] eqn:Ew; [|exact eq_refl].
    apply lookup_replicate in Ew as [-> _]. cbn. unfold field. by rewrite Z.div_0_l by lia.
Qed.
End Rows.

(** ** Both representations against a row of numbers *)
Lemma field_inj w v : is_word w -> is_word v -> (forall k, field w k = field v k) -> w = v.
Proof.
  intros Hw Hv Hf. apply Z.bits_inj'. intros i Hi. specialize (Hf (Z.to_nat (i / 2))). rewrite !field_bits, !Z2Nat.id in Hf by (Z.div_mod_to_equations; lia).
  destruct (Z.testbit w (2 * (i / 2) + 1)) eqn:A1, (Z.testbit w (2 * (i / 2))) eqn:A2, (Z.testbit v (2 * (i / 2) + 1)) eqn:B1, (Z.testbit v (2 * (i / 2))) eqn:B2; cbn in Hf; try lia;
    (assert (i = 2 * (i / 2) \/ i = 2 * (i / 2) + 1) as [-> | ->] by (Z.div_mod_to_equations; lia)); congruence.
Qed.
Lemma add_bitwise_0 w : normal w -> add_bitwise w 0 = w.
Proof.
  intros [Hw Hn]. assert (Ew : u64 (w + 0) = w) by (unfold u64; rewrite Z.add_0_r; apply Z.mod_small; exact Hw).
  unfold add_bitwise. rewrite Ew. apply field_inj; [by apply normalize_word|done|]. intros k. rewrite field_normalize by done.
  destruct (Z.eqb_spec (field w k) 3) as [E|]; [by destruct (Hn k)|done].
Qed.

(** What can be done with a row, and what it means. *)
Inductive row_expr : Type :=
  | RowNew
  | RowSetPos (idx : nat) (e : row_expr)
  | RowSetNeg (idx : nat) (e : row_expr)
  | RowSetValue (value : Z) (e : row_expr)
  | RowNegate (e : row_expr)
  | RowAdd (e other : row_expr).
Fixpoint bit_row (num_cols : nat) (e : row_expr) : BitcompressedRow.t :=
  match e with
  | RowNew => BitcompressedRow.new (Z.of_nat num_cols)
  | RowSetPos idx e => BitcompressedRow.set_pos (Z.of_nat idx) (bit_row num_cols e)
  | RowSetNeg idx e => BitcompressedRow.set_neg (Z.of_nat idx) (bit_row num_cols e)
  | RowSetValue v e => BitcompressedRow.set_value v (bit_row num_cols e)
  | RowNegate e => BitcompressedRow.negate (bit_row num_cols e)
  | RowAdd e other => BitcompressedRow.add (bit_row num_cols e) (bit_row num_cols other)
  end.
Fixpoint sparse_row (e : row_expr) : SparseRow.t :=
  match e with
  | RowNew => SparseRow.new
  | RowSetPos idx e => SparseRow.set_pos (Z.of_nat idx) (sparse_row e)
  | RowSetNeg idx e => SparseRow.set_neg (Z.of_nat idx) (sparse_row e)
  | RowSetValue v e => SparseRow.set_value v (sparse_row e)
  | RowNegate e => SparseRow.negate (sparse_row e)
  | RowAdd e other => SparseRow.add (sparse_row e) (sparse_row other)
  end.
Fixpoint row_number (e : row_expr) (j : nat) : Z :=
  match e with
  | RowNew => 0
  | RowSetPos idx e => if decide (j = idx) then 1 else row_number e j
  | RowSetNeg idx e => if decide (j = idx) then -1 else row_number e j
  | RowSetValue _ e => row_number e j
  | RowNegate e => - row_number e j
  | RowAdd e other => row_number e j + row_number other j
  end.
Fixpoint row_total (e : row_expr) : Z :=
  match e with
  | RowNew => 0
  | RowSetPos _ e | RowSetNeg _ e => row_total e
  | RowSetValue v _ => v
  | RowNegate e => i128 (row_total e * -1)
  | RowAdd e other => i128 (row_total e + row_total other)
  end.
(** Entries are set where there is none, and no sum leaves -1, 0 and 1. *)
Fixpoint row_expr_ok (num_cols : nat) (e : row_expr) : Prop :=
  match e with
  | RowNew => True
  | RowSetPos idx e | RowSetNeg idx e => row_expr_ok num_cols e /\ (idx < num_cols)%nat /\ row_number e idx = 0
  | RowSetValue _ e | RowNegate e => row_expr_ok num_cols e
  | RowAdd e other => row_expr_ok num_cols e /\ row_expr_ok num_cols other /\ forall j, -1 <= row_number e j + row_number other j <= 1
  end.
Section Meaning.
Variable num_cols : nat.
Hypothesis cols_u16 : Z.of_nat num_cols < 2 ^ 16.
Lemma bit_row_numbers e : row_expr_ok num_cols e ->
  row_wf (words_for num_cols) (bit_row num_cols e) /\ (forall j, row_entry (bit_row num_cols e) j = row_number e j) /\
  BitcompressedRow.row_value (bit_row num_cols e) = row_total e.
Proof.
  pose proof (words_enough num_cols) as Hw. induction e as [|idx e IH|idx e IH|v e IH|e IH|e IH o IHo]; cbn [row_expr_ok bit_row row_number row_total].
  - intros _. destruct (new_entries num_cols cols_u16). by split.
  - intros (He & Hi & H0). destruct (IH He) as (W & R & V). destruct (set_pos_entries _ _ idx W ltac:(lia) ltac:(by rewrite R)) as [W' R'].
    split; [done|]. split; [|done]. intros j. rewrite R'. by case_decide.
  - intros (He & Hi & H0). destruct (IH He) as (W & R & V). destruct (set_neg_entries _ _ idx W ltac:(lia) ltac:(by rewrite R)) as [W' R'].
    split; [done|]. split; [|done]. intros j. rewrite R'. by case_decide.
  - intros He. by destruct (IH He) as (W & R & V).
  - intros He. destruct (IH He) as (W & R & V). destruct (row_negate_entries _ _ W) as [W' R']. split; [done|]. split; [intros j; by rewrite R', R|]. cbn. by rewrite V.
  - intros (He & Ho & Hs). destruct (IH He) as (W & R & V), (IHo Ho) as (Wo & Ro & Vo). destruct (row_add_entries _ _ _ W Wo) as [W' R']; [intros j; by rewrite R, Ro|].
    split; [done|]. split; [intros j; by rewrite R', R, Ro|]. cbn. by rewrite V, Vo.
Qed.
Definition same_words (b : BitcompressedRow.t) (s : SparseRow.t) : Prop :=
  forall k : nat, default 0 (SparseRow.entries s !! Z.of_nat k) = default 0 (BitcompressedRow.matrix_entries b !! k).
Lemma set_same_words (f : Z -> Z) b s (idx : nat) : row_wf (words_for num_cols) b -> same_words b s -> (idx < num_cols)%nat ->
  forall k : nat, default 0 (<[Z.of_nat idx / 32 := f (default 0 (SparseRow.entries s !! (Z.of_nat idx / 32)))]> (SparseRow.entries s) !! Z.of_nat k) =
    default 0 (vec_update f (Z.to_nat (Z.of_nat idx / 32)) (BitcompressedRow.matrix_entries b) !! k).
Proof.
  intros (_ & Lb & _) Hs Hi k. pose proof (words_enough num_cols). change 32 with (Z.of_nat 32). rewrite <- Nat2Z.inj_div, Nat2Z.id.
  assert (Hlt : (idx / 32 < length (BitcompressedRow.matrix_entries b))%nat) by (rewrite Lb; apply Nat.Div0.div_lt_upper_bound; lia).
  unfold vec_update. rewrite lookup_insert, list_lookup_alter. destruct (decide (idx / 32 = k)%nat) as [E|Hne].
  - rewrite E in *. rewrite decide_True by done. destruct (lookup_lt_is_Some_2 _ _ Hlt) as [w Hw]. rewrite Hw. cbn. by rewrite Hs, Hw.
  - rewrite decide_False by lia. apply Hs.
Qed.
Lemma sparse_row_words e : row_expr_ok num_cols e -> same_words (bit_row num_cols e) (sparse_row e) /\ SparseRow.row_value (sparse_row e) = row_total e.
Proof.
  induction e as [|idx e IH|idx e IH|v e IH|e IH|e IH o IHo]; cbn [row_expr_ok bit_row sparse_row row_total].
  - intros _. split; [|done]. intros k. cbn. destruct (replicate _ _ !! k) as [w|] eqn:E; [by apply lookup_replicate in E as [-> _]|done].
  - intros (He & Hi & _). destruct (IH He) as [Hs V]. split; [|done]. intros k. apply (set_same_words (fun w => Z.lor w (Z.shiftl 1 (2 * (Z.of_nat idx mod 32))))); [by apply bit_row_numbers|done|done].
  - intros (He & Hi & _). destruct (IH He) as [Hs V]. split; [|done]. intros k. apply (set_same_words (fun w => Z.lor w (Z.shiftl 1 (2 * (Z.of_nat idx mod 32) + 1)))); [by apply bit_row_numbers|done|done].
  - intros He. by destruct (IH He) as [Hs V].
  - intros He. destruct (IH He) as [Hs V]. split; [|cbn; by rewrite V]. intros k. specialize (Hs k). cbn. rewrite lookup_fmap, list_lookup_fmap.
    assert (E0 : normalize (u64 (Z.lnot 0)) = 0) by by vm_compute.
    destruct (SparseRow.entries (sparse_row e) !! Z.of_nat k), (BitcompressedRow.matrix_entries (bit_row num_cols e) !! k); cbn in *; subst; done.
  - intros (He & Ho & _). destruct (IH He) as [Hs V], (IHo Ho) as [Hs' V']. split; [|cbn; by rewrite V, V']. intros k. specialize (Hs k). specialize (Hs' k).
    pose proof (bit_row_numbers e He) as (W & _). pose proof (bit_row_numbers o Ho) as (Wo & _).
    pose proof (row_word_normal _ _ k W) as Hn. cbn. rewrite lookup_merge, add_words_lookup by (destruct W as (_ & -> & _), Wo as (_ & -> & _); done).
    assert (E0 : add_bitwise 0 0 = 0) by by vm_compute.
    destruct (BitcompressedRow.matrix_entries (bit_row num_cols e) !! k) as [w|] eqn:Ew.
    + cbn in Hn, Hs. change (default 0 ((fun w => add_bitwise w (default 0 (BitcompressedRow.matrix_entries (bit_row num_cols o) !! k))) <$> Some w))
        with (add_bitwise w (default 0 (BitcompressedRow.matrix_entries (bit_row num_cols o) !! k))). rewrite <- Hs'.
      destruct (SparseRow.entries (sparse_row o) !! Z.of_nat k) as [v|]; destruct (SparseRow.entries (sparse_row e) !! Z.of_nat k) as [w'|];
        cbn [default from_option id] in Hs |- *; subst; [done|done|by rewrite add_bitwise_0..].
    + assert (Eo : BitcompressedRow.matrix_entries (bit_row num_cols o) !! k = None).
      { apply lookup_ge_None. apply lookup_ge_None in Ew. destruct W as (_ & Lw & _), Wo as (_ & Lo & _). congruence. }
      rewrite Eo in Hs'. cbn in Hs, Hs'.
      destruct (SparseRow.entries (sparse_row o) !! Z.of_nat k) as [v|]; destruct (SparseRow.entries (sparse_row e) !! Z.of_nat k) as [w'|]; cbn in *; subst; done.
Qed.
End Meaning.

(** C27.  Whatever is done with a row (entries set where there is none, negations, sums that stay
    within -1, 0 and 1), the packed words and the words in the hash map read back, at every
    column, the number that arithmetic on the entries gives, and the same value. *)
Theorem rows_compute_numbers (num_cols : nat) (e : row_expr) (Hn : Z.of_nat num_cols < 2 ^ 16) (He : row_expr_ok num_cols e) :
  (forall j, (j < num_cols)%nat -> BitcompressedRow.at_ (bit_row num_cols e) (Z.of_nat j) = row_number e j /\ SparseRow.at_ (sparse_row e) (Z.of_nat j) = row_number e j) /\
  BitcompressedRow.row_value (bit_row num_cols e) = row_total e /\ SparseRow.row_value (sparse_row e) = row_total e.
Proof.
  destruct (bit_row_numbers num_cols Hn e He) as (W & R & V), (sparse_row_words num_cols Hn e He) as [Hs V']. split; [|done]. intros j Hj.
  assert (Eb : BitcompressedRow.at_ (bit_row num_cols e) (Z.of_nat j) = row_number e j) by (by rewrite (at_entry _ _ j W), R by lia). split; [done|].
  rewrite <- Eb. unfold SparseRow.at_, BitcompressedRow.at_. assert (Eu : u16 (Z.of_nat j / 32) = Z.of_nat (j / 32)).
  { rewrite Nat2Z.inj_div. unfold u16. apply Z.mod_small. Z.div_mod_to_equations. lia. }
  rewrite Eu, Nat2Z.id, <- (Hs (j / 32)%nat). destruct (SparseRow.entries (sparse_row e) !! Z.of_nat (j / 32)); [done|].
  cbn. unfold decode_field. by rewrite Z.land_0_r, Z.shiftr_0_l.
Qed.
Lemma rows_compute_numbers_witness : let e := RowAdd (RowNegate (RowSetPos 40 (RowSetNeg 3 RowNew))) (RowSetNeg 3 (RowSetValue 7 (RowSetPos 40 RowNew))) in
  row_expr_ok 50 e /\ BitcompressedRow.at_ (bit_row 50 e) 3 = 0 /\ SparseRow.row_value (sparse_row e) = 7.
Proof.
  assert (He : row_expr_ok 50 (RowAdd (RowNegate (RowSetPos 40 (RowSetNeg 3 RowNew))) (RowSetNeg 3 (RowSetValue 7 (RowSetPos 40 RowNew))))).
  { cbn. repeat split; try lia; repeat case_decide; lia. }
  destruct (rows_compute_numbers 50 _ ltac:(lia) He) as (Hj & _ & Hv). split; [exact He|]. split; [apply (Hj 3%nat); lia|exact Hv].
Defined.
