(* ===== verification/ObjectiveRow.v ===== *)
(** * The objective row (src/simplex/objective_row.h)

    Reduced costs in eight bits, the value of the objective, and the columns whose cost
    became positive since they were last looked at. *)
From stdpp Require Import base list.
From S2P Require Import Prelude.

Definition i8 (z : Z) : Z := (z + 2 ^ 7) mod 2 ^ 8 - 2 ^ 7.
Lemma i8_id z : - 2 ^ 7 <= z < 2 ^ 7 -> i8 z = z.
Proof. intros Hz. unfold i8. rewrite Z.mod_small by lia. lia. Qed.
Lemma i128_sub a b : - 2 ^ 127 <= a - b < 2 ^ 127 -> i128 (a - i128 b) = a - b.
Proof. intros Hz. unfold i128. Z.div_mod_to_equations. lia. Qed.

Module ObjectiveRow.
(** [nz_hints] has the back of the vector first. *)
Record t := mk { matrix_entries : list Z; nz_hints : list Z; row_value : Z }.
Implicit Types r : t.
Definition new (num_cols : Z) : t := mk (replicate (Z.to_nat num_cols) 0) [] 0.
Definition at_ r (idx : Z) : Z := default 0 (matrix_entries r !! Z.to_nat idx).

(** [subtract], with the constraint row's [operator[]] and value. *)
Definition subtract (row : Z -> Z) (value : Z) (pivot_col : Z) r : t :=
  let coeff := at_ r pivot_col in
  mk (imap (fun i e => i8 (e - coeff * row (Z.of_nat i))) (matrix_entries r)) (nz_hints r)
    (i128 (row_value r - i128 (coeff * value))).

(** [subtract_sparse]: one column of the row's lists. *)
Definition subtract_at (coeff : Z) r (p : Z) : t :=
  let entries := vec_update (fun e => i8 (e - coeff)) (Z.to_nat p) (matrix_entries r) in
  let e := default 0 (entries !! Z.to_nat p) in
  mk entries (if (0 <? e) && (e <=? - coeff) then p :: nz_hints r else nz_hints r) (row_value r).
Definition add_at (coeff : Z) r (p : Z) : t :=
  let entries := vec_update (fun e => i8 (e + coeff)) (Z.to_nat p) (matrix_entries r) in
  let e := default 0 (entries !! Z.to_nat p) in
  mk entries (if (0 <? e) && (e <=? coeff) then p :: nz_hints r else nz_hints r) (row_value r).
Definition subtract_sparse (pos neg : list Z) (value : Z) (is_negated : bool) (pivot_col : Z) r : t :=
  let coeff := at_ r pivot_col in
  let r := mk (matrix_entries r) (nz_hints r) (i128 (row_value r - i128 (coeff * value))) in
  let coeff := if is_negated then i8 (coeff * -1) else coeff in
  foldl (add_at coeff) (foldl (subtract_at coeff) r pos) neg.

Definition delta_value (delta : Z) r : t := mk (matrix_entries r) (nz_hints r) (i128 (row_value r + delta)).
Definition set_value (val : Z) r : t := mk (matrix_entries r) (nz_hints r) val.
Definition set_idx (idx value : Z) r : t :=
  mk (vec_update (fun _ => value) (Z.to_nat idx) (matrix_entries r)) (if 0 <? value then u16 idx :: nz_hints r else nz_hints r) (row_value r).

Fixpoint next_pos (entries : list Z) (hints : list Z) : option Z * list Z :=
  match hints with
  | [] => (None, [])
  | val :: hints => if 0 <? default 0 (entries !! Z.to_nat val) then (Some val, hints) else next_pos entries hints
  end.
Definition get_next_pos r : option Z * t :=
  let '(val, hints) := next_pos (matrix_entries r) (nz_hints r) in (val, mk (matrix_entries r) hints (row_value r)).
End ObjectiveRow.
Import ObjectiveRow.

(** The cost of column [j]. *)
Definition cost (r : t) (j : nat) : Z := default 0 (matrix_entries r !! j).
Lemma at_cost r j : at_ r (Z.of_nat j) = cost r j.
Proof. unfold at_. by rewrite Nat2Z.id. Qed.
Lemma cost_new n j : cost (new n) j = 0.
Proof. unfold cost. cbn. destruct (_ !! j) eqn:E; [|done]. by apply lookup_replicate in E as [-> _]. Qed.

Lemma cost_subtract row value c r j : (j < length (matrix_entries r))%nat ->
  - 2 ^ 7 <= cost r j - cost r c * row (Z.of_nat j) < 2 ^ 7 ->
  cost (subtract row value (Z.of_nat c) r) j = cost r j - cost r c * row (Z.of_nat j).
Proof.
  intros Hj Hr. unfold cost at 1. cbn [subtract matrix_entries]. rewrite list_lookup_imap, at_cost.
  destruct (lookup_lt_is_Some_2 (matrix_entries r) j Hj) as [e He]. rewrite He. cbn.
  assert (Ee : cost r j = e) by (unfold cost; by rewrite He). rewrite Ee in *. by apply i8_id.
Qed.
Lemma length_subtract row value c r : length (matrix_entries (subtract row value c r)) = length (matrix_entries r).
Proof. cbn. by rewrite length_imap. Qed.
Lemma cost_set_idx idx value r j : (j < length (matrix_entries r))%nat ->
  cost (set_idx (Z.of_nat idx) value r) j = if decide (j = idx) then value else cost r j.
Proof.
  intros Hj. unfold cost, set_idx, vec_update. cbn [matrix_entries]. rewrite Nat2Z.id, list_lookup_alter.
  destruct (lookup_lt_is_Some_2 (matrix_entries r) j Hj) as [e He]. destruct (decide (idx = j)) as [->|Hne].
  - by rewrite He, decide_True.
  - by rewrite decide_False by congruence.
Qed.
Lemma length_set_idx idx value r : length (matrix_entries (set_idx idx value r)) = length (matrix_entries r).
Proof. unfold set_idx, vec_update. cbn. by rewrite length_alter. Qed.

(** ** The hints *)
Definition cost_at (r : t) (j : Z) : Z := at_ r j.
Lemma add_at_subtract k r p : add_at k r p = subtract_at (- k) r p.
Proof.
  unfold add_at, subtract_at. rewrite Z.opp_involutive.
  assert (E : vec_update (fun e => i8 (e + k)) (Z.to_nat p) (matrix_entries r) = vec_update (fun e => i8 (e - - k)) (Z.to_nat p) (matrix_entries r)).
  { apply list_eq. intros i. unfold vec_update. rewrite !list_lookup_alter. case_decide; [|done]. destruct (matrix_entries r !! Z.to_nat p) as [z|]; [|reflexivity].
    change (Some (i8 (z + k)) = Some (i8 (z - - k))). do 2 f_equal. lia. }
  by rewrite E.
Qed.
Lemma foldl_add_at k l : forall r, foldl (add_at k) r l = foldl (subtract_at (- k)) r l.
Proof. induction l as [|p l IH]; intros r; [done|]. cbn. by rewrite add_at_subtract. Qed.
Definition in_row (n : nat) (j : Z) : Prop := 0 <= j < Z.of_nat n.
Record subtracted (n : nat) (k : Z) (l : list Z) (r r' : t) : Prop := {
  sb_length : length (matrix_entries r') = n;
  sb_value : row_value r' = row_value r;
  sb_cost : forall j, in_row n j -> at_ r' j = if decide (j ∈ l) then at_ r j - k else at_ r j;
  sb_hints : forall j, j ∈ nz_hints r -> j ∈ nz_hints r';
  sb_new : forall j, j ∈ l -> 0 < at_ r' j -> at_ r j <= 0 -> j ∈ nz_hints r';
  sb_range : Forall (in_row n) (nz_hints r) -> Forall (in_row n) (nz_hints r')
}.
Lemma subtract_at_spec n k r p : length (matrix_entries r) = n -> in_row n p -> - 2 ^ 7 <= at_ r p - k < 2 ^ 7 -> subtracted n k [p] r (subtract_at k r p).
Proof.
  intros Hl [Hp0 Hp] Hr. set (r' := subtract_at k r p).
  assert (Hc : forall j, in_row n j -> at_ r' j = if decide (j ∈ [p]) then at_ r j - k else at_ r j).
  { intros j [Hj0 Hj]. unfold r', subtract_at, at_, vec_update. cbn [matrix_entries]. rewrite list_lookup_alter.
    destruct (decide (j = p)) as [->|Hne].
    - rewrite (decide_True (P := Z.to_nat p = Z.to_nat p)), decide_True by (done || by left). unfold at_ in Hr.
      destruct (lookup_lt_is_Some_2 (matrix_entries r) (Z.to_nat p)) as [e He]; [lia|]. rewrite He in *. cbn in *. by apply i8_id.
    - rewrite decide_False by lia. by rewrite (decide_False (P := j ∈ [p])) by (by rewrite list_elem_of_singleton). }
  constructor; [| |exact Hc|..].
  - unfold r', subtract_at, vec_update. cbn [matrix_entries]. by rewrite length_alter.
  - done.
  - intros j Hj. unfold r', subtract_at. cbn [nz_hints]. destruct (_ && _); [by right|done].
  - intros j ->%list_elem_of_singleton Hpos Hle. rewrite Hc, decide_True in Hpos by (done || by left).
    assert (E : default 0 (vec_update (fun e => i8 (e - k)) (Z.to_nat p) (matrix_entries r) !! Z.to_nat p) = at_ r p - k).
    { change (at_ r' p = at_ r p - k). rewrite Hc, decide_True by (done || by left). done. }
    unfold r', subtract_at. cbn zeta. rewrite E. cbn [nz_hints]. rewrite (proj2 (Z.ltb_lt _ _)), (proj2 (Z.leb_le _ _)) by lia. by left.
  - intros Hh. unfold r', subtract_at. cbn [nz_hints]. destruct (_ && _); [by constructor|done].
Qed.
Lemma foldl_subtract_spec n k l : forall r, length (matrix_entries r) = n -> NoDup l -> Forall (in_row n) l ->
  (forall j, j ∈ l -> - 2 ^ 7 <= at_ r j - k < 2 ^ 7) -> subtracted n k l r (foldl (subtract_at k) r l).
Proof.
  induction l as [|p l IH]; intros r Hl Hnd Hin Hr; cbn [foldl].
  { constructor; try done; by intros j ?%elem_of_nil. }
  apply NoDup_cons in Hnd as [Hn Hnd]. apply Forall_cons in Hin as [Hp Hin].
  destruct (subtract_at_spec n k r p Hl Hp) as [S1 S2 S3 S4 S5 S6]; [apply Hr; by left|].
  assert (Hkeep : forall j, j ∈ l -> at_ (subtract_at k r p) j = at_ r j).
  { intros j Hj. rewrite Forall_forall in Hin. rewrite S3 by by apply Hin. rewrite decide_False; [done|]. rewrite list_elem_of_singleton. by intros ->. }
  destruct (IH (subtract_at k r p) S1 Hnd Hin) as [R1 R2 R3 R4 R5 R6].
  { intros j Hj. rewrite Hkeep by done. apply Hr. by right. }
  assert (Hp' : at_ (foldl (subtract_at k) (subtract_at k r p) l) p = at_ r p - k).
  { rewrite R3, decide_False, S3, decide_True by (done || by left). done. }
  constructor; [done|congruence| | | |].
  - intros j Hj. destruct (decide (j = p)) as [->|Hne]; [by rewrite Hp', decide_True by by left|]. rewrite R3, S3 by done.
    rewrite (decide_False (P := j ∈ [p])) by by rewrite list_elem_of_singleton. apply decide_ext. rewrite elem_of_cons. tauto.
  - intros j Hj. by apply R4, S4.
  - intros j [->|Hj]%elem_of_cons Hpos Hle.
    + apply R4, S5; [by left| |done]. rewrite S3, decide_True by (done || by left). by rewrite <- Hp'.
    + apply R5; [done|done|]. by rewrite Hkeep.
  - intros Hh. by apply R6, S6.
Qed.

(** The signed entries that [subtract_sparse] subtracts. *)
Definition sparse_entry (is_negated : bool) (pos neg : list Z) (j : Z) : Z :=
  (if is_negated then -1 else 1) * (if decide (j ∈ pos) then 1 else if decide (j ∈ neg) then -1 else 0).
Lemma subtract_sparse_spec n pos neg value b c r : length (matrix_entries r) = n -> NoDup pos -> NoDup neg -> (forall j, j ∈ pos -> j ∉ neg) ->
  Forall (in_row n) pos -> Forall (in_row n) neg -> - 2 ^ 7 < at_ r c < 2 ^ 7 ->
  (forall j, in_row n j -> - 2 ^ 7 <= at_ r j - at_ r c * sparse_entry b pos neg j < 2 ^ 7) ->
  let r' := subtract_sparse pos neg value b c r in
  length (matrix_entries r') = n /\ row_value r' = i128 (row_value r - i128 (at_ r c * value)) /\
  (forall j, in_row n j -> at_ r' j = at_ r j - at_ r c * sparse_entry b pos neg j) /\
  (forall j, j ∈ nz_hints r -> j ∈ nz_hints r') /\ (forall j, in_row n j -> 0 < at_ r' j -> 0 < at_ r j \/ j ∈ nz_hints r') /\
  (Forall (in_row n) (nz_hints r) -> Forall (in_row n) (nz_hints r')).
Proof.
  intros Hl Hnp Hnn Hd Hp Hn Hc Hr. cbn zeta. unfold subtract_sparse. set (coeff := at_ r c) in *.
  set (r0 := mk (matrix_entries r) (nz_hints r) (i128 (row_value r - i128 (coeff * value)))).
  set (k := if b then i8 (coeff * -1) else coeff). assert (Ek : k = coeff * (if b then -1 else 1)) by (unfold k; destruct b; [rewrite i8_id by lia|]; lia).
  assert (Hent : forall j, coeff * sparse_entry b pos neg j = if decide (j ∈ pos) then k else if decide (j ∈ neg) then - k else 0).
  { intros j. unfold sparse_entry. rewrite Ek. repeat case_decide; destruct b; lia. }
  rewrite Forall_forall in Hp. rewrite Forall_forall in Hn.
  destruct (foldl_subtract_spec n k pos r0 Hl Hnp) as [R1 R2 R3 R4 R5 R6]; [by apply Forall_forall| |].
  { intros j Hj. specialize (Hr j (Hp j Hj)). rewrite Hent, decide_True in Hr by done. exact Hr. }
  set (r1 := foldl (subtract_at k) r0 pos) in *.
  rewrite foldl_add_at. assert (Hk1 : forall j, in_row n j -> at_ r1 j = if decide (j ∈ pos) then at_ r j - k else at_ r j) by exact R3.
  destruct (foldl_subtract_spec n (- k) neg r1 R1 Hnn) as [S1 S2 S3 S4 S5 S6]; [by apply Forall_forall| |].
  { intros j Hj. rewrite Hk1, decide_False by (by apply Hn || by intros Hj'; apply (Hd j)). specialize (Hr j (Hn j Hj)).
    rewrite Hent, decide_False, decide_True in Hr by (done || by intros Hj'; apply (Hd j)). exact Hr. }
  set (r2 := foldl (subtract_at (- k)) r1 neg) in *.
  assert (Hcost : forall j, in_row n j -> at_ r2 j = at_ r j - coeff * sparse_entry b pos neg j).
  { intros j Hj. rewrite S3, Hk1, Hent by done. destruct (decide (j ∈ pos)) as [Hjp|Hjp].
    - rewrite decide_False by by apply Hd. done.
    - destruct (decide (j ∈ neg)); lia. }
  split; [done|]. split; [by rewrite S2, R2|]. split; [done|]. split; [intros j Hj; by apply S4, R4|]. split; [|intros Hh; by apply S6, R6].
  intros j Hj Hpos. destruct (Z.lt_ge_cases 0 (at_ r j)) as [|Hle]; [by left|]. right. destruct (decide (j ∈ pos)) as [Hjp|Hjp].
  - apply S4, R5; [done| |done]. rewrite S3, decide_False in Hpos by (done || by apply Hd). done.
  - destruct (decide (j ∈ neg)) as [Hjn|Hjn].
    + apply S5; [done|done|]. rewrite Hk1, decide_False by done. done.
    + rewrite Hcost, Hent, !decide_False in Hpos by done. lia.
Qed.

Lemma next_pos_spec entries hints :
  match next_pos entries hints with
  | (Some v, hints') => v ∈ hints /\ 0 < default 0 (entries !! Z.to_nat v) /\ (length hints' < length hints)%nat /\
      forall x, x ∈ hints -> x ∈ hints' \/ x = v \/ default 0 (entries !! Z.to_nat x) <= 0
  | (None, hints') => hints' = [] /\ forall x, x ∈ hints -> default 0 (entries !! Z.to_nat x) <= 0
  end /\ forall x, x ∈ (next_pos entries hints).2 -> x ∈ hints.
Proof.
  induction hints as [|h hints [IH1 IH2]]; cbn [next_pos]; [split; [split; [done|]; by intros x ?%elem_of_nil|done]|].
  destruct (Z.ltb_spec 0 (default 0 (entries !! Z.to_nat h))) as [Hpos|Hle].
  - split; [|intros x Hx; by right]. split; [by left|]. split; [done|]. split; [cbn; lia|]. intros x [->|Hx]%elem_of_cons; auto.
  - destruct (next_pos entries hints) as [[v|] hints'].
    + destruct IH1 as (H1 & H2 & H3 & H4). split; [|intros x Hx; right; by apply IH2]. split; [by right|]. split; [done|]. split; [cbn; lia|].
      intros x [->|Hx]%elem_of_cons; [by right; right|by apply H4].
    + destruct IH1 as [-> H]. split; [|intros x Hx; right; by apply IH2]. split; [done|]. intros x [->|Hx]%elem_of_cons; [done|by apply H].
Qed.
