(* ===== verification/Simplex.v ===== *)
(** * The dense simplex solver (src/simplex/simplex.h, simplex.cc)

    [TUSimplex] keeps a tableau of [BitcompressedRow]s and pivots on the first active
    column with a positive cost.  While the tableau stays one of a network
    (NetworkLP.v) no entry, value or cost leaves its type. *)
From stdpp Require Import base list strings.
From S2P Require Import Prelude NetworkLP BitRow ObjectiveRow.

Module TUSimplex.
Record t := mk {
  num_cols : Z;
  objective_row : ObjectiveRow.t;
  constraint_rows : list BitcompressedRow.t;
  active_cols : list bool;
  active_basis : list Z
}.
Implicit Types s : t.
Definition new (num_cols : Z) : t :=
  mk num_cols (ObjectiveRow.new num_cols) [] (replicate (Z.to_nat num_cols) false) [].

(** The first column from [i] on, of [k] columns. *)
Fixpoint pivot_column_from (k : nat) (i : Z) s : option Z :=
  match k with
  | O => None
  | S k =>
      if default false (active_cols s !! Z.to_nat i) && (0 <? ObjectiveRow.at_ (objective_row s) i)
      then Some (u16 i) else pivot_column_from k (i + 1) s
  end.
Definition get_next_pivot_column s : option Z := pivot_column_from (Z.to_nat (num_cols s)) 0 s.

(** The loop over the rows: the best row so far, and its value. *)
Fixpoint pivot_row_from (i : nat) (rows : list BitcompressedRow.t) (pivot_col : Z) (row_out : option nat) (value : Z) : option nat :=
  match rows with
  | [] => row_out
  | row :: rows =>
      let constraint_value := BitcompressedRow.row_value row in
      if (0 <? BitcompressedRow.at_ row pivot_col) && (match row_out with None => true | Some _ => constraint_value <? value end)
      then pivot_row_from (S i) rows pivot_col (Some i) constraint_value
      else pivot_row_from (S i) rows pivot_col row_out value
  end.
Definition get_next_pivot_row (pivot_col : Z) s : result Z :=
  match pivot_row_from 0 (constraint_rows s) pivot_col None 0 with
  | Some row_out => Ok (u16 (Z.of_nat row_out))
  | None => Throw "failed to find pivot row"
  end.

(** One row of the pivot's loop. *)
Definition eliminate (pivot_constraint : BitcompressedRow.t) (pivot_col : Z) (constraint : BitcompressedRow.t) : BitcompressedRow.t :=
  let row_coeff := BitcompressedRow.at_ constraint pivot_col in
  if row_coeff <? 0 then BitcompressedRow.add constraint pivot_constraint
  else if 0 <? row_coeff then BitcompressedRow.negate (BitcompressedRow.add (BitcompressedRow.negate constraint) pivot_constraint)
  else constraint.
Definition do_pivot s : result (bool * t) :=
  match get_next_pivot_column s with
  | None => Ok (false, s)
  | Some pivot_col =>
      let* pivot_row := get_next_pivot_row pivot_col s in
      let p := Z.to_nat pivot_row in
      let pivot_constraint := default (BitcompressedRow.new 0) (constraint_rows s !! p) in
      let pivot_constraint := if BitcompressedRow.at_ pivot_constraint pivot_col <? 0 then BitcompressedRow.negate pivot_constraint else pivot_constraint in
      let rows := vec_update (fun _ => pivot_constraint) p (constraint_rows s) in
      let rows := imap (fun i row => if decide (i = p) then row else eliminate pivot_constraint pivot_col row) rows in
      let objective := ObjectiveRow.subtract (BitcompressedRow.at_ pivot_constraint) (BitcompressedRow.row_value pivot_constraint) pivot_col (objective_row s) in
      Ok (true, mk (num_cols s) objective rows (active_cols s) (vec_update (fun _ => pivot_col) p (active_basis s)))
  end.

(** [run_simplex], for at most [fuel] pivots; [None] when more are needed. *)
Fixpoint run_simplex (fuel : nat) s : option (result t) :=
  match do_pivot s with
  | Throw why => Some (Throw why)
  | Ok (false, s) => Some (Ok s)
  | Ok (true, s) => match fuel with O => None | S fuel => run_simplex fuel s end
  end.
End TUSimplex.
Import TUSimplex.

Implicit Types s : TUSimplex.t.
(** The tableau a solver holds. *)
Definition row_at s (i : nat) : BitcompressedRow.t := default (BitcompressedRow.new 0) (constraint_rows s !! i).
Definition entry s (i j : nat) : Z := row_entry (row_at s i) j.
Definition value s (i : nat) : Z := BitcompressedRow.row_value (row_at s i).
Definition basis s (i : nat) : nat := Z.to_nat (default 0 (active_basis s !! i)).
Definition objective s : nat -> Z := cost (objective_row s).
Definition objective_value s : Z := ObjectiveRow.row_value (objective_row s).
Definition active s (j : nat) : bool := default false (active_cols s !! j).

Lemma pivot_column_from_spec k i s : Z.of_nat (i + k) <= 2 ^ 16 ->
  match pivot_column_from k (Z.of_nat i) s with
  | Some c => exists j, c = Z.of_nat j /\ (i <= j < i + k)%nat /\ active s j = true /\ 0 < objective s j
  | None => forall j, (i <= j < i + k)%nat -> active s j = true -> objective s j <= 0
  end.
Proof.
  revert i. induction k as [|k IH]; intros i Hi; cbn [pivot_column_from]; [intros j Hj; lia|].
  rewrite Nat2Z.id, at_cost. fold (active s i) (objective s i). destruct (active s i && _) eqn:E.
  - apply andb_true_iff in E as [Ea Eo]. exists i. unfold u16. rewrite Z.mod_small by lia.
    split; [done|]. split; [lia|]. split; [done|lia].
  - replace (Z.of_nat i + 1) with (Z.of_nat (S i)) by lia. specialize (IH (S i) ltac:(lia)).
    destruct (pivot_column_from k (Z.of_nat (S i)) s) as [c|].
    + destruct IH as (j & -> & Hj & Hr). exists j. split; [done|]. split; [lia|done].
    + intros j Hj Ha. destruct (decide (j = i)) as [->|Hne]; [|apply IH; [lia|done]].
      rewrite Ha in E. cbn in E. lia.
Qed.

Lemma pivot_row_from_spec c rows i out v :
  let entries r := BitcompressedRow.at_ r c in
  match pivot_row_from i rows c out v with
  | Some p => (out = Some p /\ forall k r, rows !! k = Some r -> 0 < entries r -> v <= BitcompressedRow.row_value r) \/
      exists k r, p = (i + k)%nat /\ rows !! k = Some r /\ 0 < entries r /\ (out <> None -> BitcompressedRow.row_value r < v) /\
        forall k' r', rows !! k' = Some r' -> 0 < entries r' -> BitcompressedRow.row_value r <= BitcompressedRow.row_value r'
  | None => out = None /\ forall k r, rows !! k = Some r -> entries r <= 0
  end.
Proof.
  cbn zeta. revert i out v. induction rows as [|row rows IH]; intros i out v; cbn [pivot_row_from].
  { destruct out as [p|]; [left|]; (split; [done|]); intros k r Hk; by rewrite lookup_nil in Hk. }
  set (e := BitcompressedRow.at_ row c). set (w := BitcompressedRow.row_value row). destruct ((0 <? e) && _) eqn:E.
  - apply andb_true_iff in E as [He Hv]. assert (Hout : out <> None -> w < v) by (intros Ho; destruct out; [lia|done]).
    specialize (IH (S i) (Some i) w). destruct (pivot_row_from (S i) rows c (Some i) w) as [p|]; [|by destruct IH].
    destruct IH as [[[= <-] Hmin]|(k & r & -> & Hk & Hr & Hlt & Hmin)]; right.
    + exists 0%nat, row. repeat split; [lia|lia|done|]. intros [|k'] r' Hk' Hr'; [injection Hk' as <-; done|]. by apply (Hmin k').
    + exists (S k), r. split; [lia|]. repeat split; [done|done| |].
      * intros Ho. specialize (Hlt ltac:(done)). specialize (Hout Ho). lia.
      * intros [|k'] r' Hk' Hr'; [injection Hk' as <-|by apply (Hmin k')]. specialize (Hlt ltac:(done)). fold w. lia.
  - specialize (IH (S i) out v). destruct (pivot_row_from (S i) rows c out v) as [p|].
    + destruct IH as [[-> Hmin]|(k & r & -> & Hk & Hr & Hlt & Hmin)]; [left|right].
      * split; [done|]. intros [|k] r Hk Hr; [injection Hk as <-; fold e in Hr; fold w; lia|by apply (Hmin k)].
      * exists (S k), r. split; [lia|]. repeat split; [done|done|done|].
        intros [|k'] r' Hk' Hr'; [injection Hk' as <-|by apply (Hmin k')]. fold e in Hr'. fold w.
        destruct out; [specialize (Hlt ltac:(done)); lia|]. rewrite (proj2 (Z.ltb_lt 0 e)) in E by lia. done.
    + destruct IH as [-> Hno]. split; [done|]. intros [|k] r Hk; [injection Hk as <-; fold e|by apply (Hno k)]. lia.
Qed.

(** ** One pivot *)
Section Refine.
Variables m n nodes : nat.
Variables tail head : nat -> nat.
Hypothesis tail_node : forall j, (j < n)%nat -> (tail j < nodes)%nat.
Hypothesis head_node : forall j, (j < n)%nat -> (head j < nodes)%nat.
Variables (A0 : nat -> nat -> Z) (b0 c0 : nat -> Z) (act : nat -> bool).
Variables bound spread : Z.
Hypothesis rows_u16 : Z.of_nat m <= 2 ^ 16.
Hypothesis cols_u16 : Z.of_nat n < 2 ^ 16.
Hypothesis fits : fitting_problem m n tail head A0 b0 c0 act bound spread.
Abbreviation tableau := (tableau m n nodes tail head A0 b0 c0 act).
Abbreviation pivoted := (pivoted m n).

(** The solver's state is a tableau of the problem. *)
Definition good_row (r : BitcompressedRow.t) : Prop := row_wf (words_for n) r /\ forall j, (n <= j)%nat -> row_entry r j = 0.
Record holds s : Prop := {
  hd_cols : num_cols s = Z.of_nat n;
  hd_rows : length (constraint_rows s) = m;
  hd_row : forall i, (i < m)%nat -> good_row (row_at s i);
  hd_active : forall j, (j < n)%nat -> active s j = act j;
  hd_basis : length (active_basis s) = m;
  hd_basis_nonneg : Forall (fun c => 0 <= c) (active_basis s);
  hd_costs : length (ObjectiveRow.matrix_entries (objective_row s)) = n;
  hd_tableau : exists P, tableau (entry s) (value s) (objective s) (objective_value s) P (basis s)
}.

Lemma row_at_Some s i r : constraint_rows s !! i = Some r -> row_at s i = r.
Proof. unfold row_at. by intros ->. Qed.
Lemma row_lookup s i : (i < length (constraint_rows s))%nat -> constraint_rows s !! i = Some (row_at s i).
Proof. intros [r Hr]%lookup_lt_is_Some_2. by rewrite (row_at_Some _ _ _ Hr). Qed.
Lemma good_at r j : good_row r -> (j < n)%nat -> BitcompressedRow.at_ r (Z.of_nat j) = row_entry r j.
Proof. intros [Hr _] Hj. apply (at_entry (words_for n)); [done|lia]. Qed.

Lemma eliminate_spec q r c : good_row q -> good_row r -> (c < n)%nat ->
  (forall j, (j < n)%nat -> -1 <= row_entry r j - row_entry r c * row_entry q j <= 1) ->
  0 <= BitcompressedRow.row_value q < 2 ^ 126 -> 0 <= BitcompressedRow.row_value r < 2 ^ 126 ->
  let r' := eliminate q (Z.of_nat c) r in
  good_row r' /\ (forall j, row_entry r' j = row_entry r j - row_entry r c * row_entry q j) /\
  BitcompressedRow.row_value r' = BitcompressedRow.row_value r - row_entry r c * BitcompressedRow.row_value q.
Proof.
  intros Hq Hr Hc Hrange Hvq Hvr. cbn zeta.
  assert (Hall : forall j, -1 <= row_entry r j - row_entry r c * row_entry q j <= 1).
  { intros j. destruct (decide (j < n)%nat) as [Hj|Hj]; [by apply Hrange|]. destruct Hq as [_ Hq], Hr as [_ Hr]. rewrite Hq, Hr by lia. lia. }
  assert (Hpad : forall r', row_wf (words_for n) r' -> (forall j, row_entry r' j = row_entry r j - row_entry r c * row_entry q j) -> good_row r').
  { intros r' Hw He. split; [done|]. intros j Hj. rewrite He. destruct Hq as [_ Hq], Hr as [_ Hr]. rewrite Hq, Hr by lia. lia. }
  unfold eliminate. rewrite good_at by done. pose proof (row_entry_range r c) as Hrc.
  destruct Hq as [Hqw _], Hr as [Hrw _].
  assert (row_entry r c = -1 \/ row_entry r c = 0 \/ row_entry r c = 1) as [E|[E|E]] by lia; rewrite E in *;
    [change (-1 <? 0) with true|change (0 <? 0) with false|change (1 <? 0) with false; change (0 <? 1) with true]; cbv iota.
  - destruct (row_add_entries _ r q Hrw Hqw) as [H1 H2]; [intros j; specialize (Hall j); lia|].
    assert (He : forall j, row_entry (BitcompressedRow.add r q) j = row_entry r j - -1 * row_entry q j) by (intros j; rewrite H2; lia).
    split; [by apply Hpad|]. split; [exact He|]. cbn [BitcompressedRow.add BitcompressedRow.row_value]. rewrite i128_id by lia. lia.
  - split; [apply Hpad; [done|intros j; lia]|]. split; [intros j; lia|lia].
  - destruct (row_negate_entries _ r Hrw) as [N1 N2].
    destruct (row_add_entries _ _ q N1 Hqw) as [H1 H2]; [intros j; rewrite N2; specialize (Hall j); lia|].
    destruct (row_negate_entries _ _ H1) as [M1 M2].
    assert (He : forall j, row_entry (BitcompressedRow.negate (BitcompressedRow.add (BitcompressedRow.negate r) q)) j = row_entry r j - 1 * row_entry q j).
    { intros j. rewrite M2, H2, N2. lia. }
    split; [by apply Hpad|]. split; [exact He|]. cbn [BitcompressedRow.add BitcompressedRow.negate BitcompressedRow.row_value].
    rewrite (i128_id (BitcompressedRow.row_value r * -1)), (i128_id (_ + _)), i128_id by lia. lia.
Qed.

Lemma get_next_pivot_row_spec s c : holds s -> (c < n)%nat -> (exists i, (i < m)%nat /\ 0 < entry s i c) ->
  exists p, get_next_pivot_row (Z.of_nat c) s = Ok (Z.of_nat p) /\ (p < m)%nat /\ 0 < entry s p c /\
    forall i, (i < m)%nat -> 0 < entry s i c -> value s p <= value s i.
Proof.
  intros Hs Hc (i & Hi & Hpos). unfold get_next_pivot_row.
  pose proof (pivot_row_from_spec (Z.of_nat c) (constraint_rows s) 0 None 0) as Hsp. cbn zeta in Hsp.
  assert (Hrow : forall k r, constraint_rows s !! k = Some r -> (k < m)%nat /\ BitcompressedRow.at_ r (Z.of_nat c) = entry s k c /\ BitcompressedRow.row_value r = value s k).
  { intros k r Hk. pose proof (lookup_lt_Some _ _ _ Hk) as Hlt. rewrite (hd_rows _ Hs) in Hlt. split; [done|].
    unfold entry, value. rewrite <- (row_at_Some _ _ _ Hk). split; [|done]. apply good_at; [by apply (hd_row _ Hs)|done]. }
  assert (Hlook : forall k, (k < m)%nat -> constraint_rows s !! k = Some (row_at s k)) by (intros k Hk; apply row_lookup; by rewrite (hd_rows _ Hs)).
  destruct (pivot_row_from 0 (constraint_rows s) (Z.of_nat c) None 0) as [p|].
  - destruct Hsp as [[? _]|(k & r & -> & Hk & Hr & _ & Hmin)]; [done|]. destruct (Hrow k r Hk) as (Hlt & Ee & Ev).
    exists k. cbn. unfold u16. rewrite Z.mod_small by lia. split; [done|]. split; [done|]. rewrite <- Ee. split; [done|].
    intros i' Hi' Hpos'. rewrite <- Ev. destruct (Hrow i' _ (Hlook i' Hi')) as (_ & Ee' & Ev'). rewrite <- Ev'. apply (Hmin i'); [by apply Hlook|].
    by rewrite Ee'.
  - destruct Hsp as [_ Hno]. specialize (Hno i _ (Hlook i Hi)). destruct (Hrow i _ (Hlook i Hi)) as (_ & Ee & _). rewrite Ee in Hno. lia.
Qed.

(** [do_pivot] with the pivot row at hand. *)
Definition pivot_on (p c : nat) s : TUSimplex.t :=
  let pivot_constraint := row_at s p in
  mk (num_cols s)
    (ObjectiveRow.subtract (BitcompressedRow.at_ pivot_constraint) (BitcompressedRow.row_value pivot_constraint) (Z.of_nat c) (objective_row s))
    (imap (fun i row => if decide (i = p) then row else eliminate pivot_constraint (Z.of_nat c) row) (constraint_rows s))
    (active_cols s) (vec_update (fun _ => Z.of_nat c) p (active_basis s)).

Lemma pivot_on_row s p c i : holds s -> (i < m)%nat ->
  row_at (pivot_on p c s) i = if decide (i = p) then row_at s i else eliminate (row_at s p) (Z.of_nat c) (row_at s i).
Proof.
  intros Hs Hi. unfold row_at at 1, pivot_on. cbn [constraint_rows]. rewrite list_lookup_imap, row_lookup by by rewrite (hd_rows _ Hs). done.
Qed.
Lemma pivot_on_basis s p c i : holds s -> (i < m)%nat -> basis (pivot_on p c s) i = pivot_basis (basis s) p c i.
Proof.
  intros Hs Hi. unfold basis, pivot_on, pivot_basis, vec_update. cbn [active_basis].
  destruct (lookup_lt_is_Some_2 (active_basis s) i) as [x Hx]; [by rewrite (hd_basis _ Hs)|].
  rewrite list_lookup_alter. destruct (decide (p = i)) as [->|Hne].
  - rewrite Hx, decide_True by done. cbn. by rewrite Nat2Z.id.
  - by rewrite decide_False by congruence.
Qed.

(** The pivot is exact: every new entry, value and cost is the one of the pivoted tableau. *)
Lemma pivot_on_pivoted s p c : holds s -> (p < m)%nat -> (c < n)%nat -> act c = true -> 0 < entry s p c ->
  (forall i, (i < m)%nat -> 0 < entry s i c -> value s p <= value s i) ->
  pivoted p c (entry s) (value s) (objective s) (objective_value s)
    (entry (pivot_on p c s)) (value (pivot_on p c s)) (objective (pivot_on p c s)) (objective_value (pivot_on p c s)) /\
  forall i, (i < m)%nat -> good_row (row_at (pivot_on p c s) i).
Proof.
  intros Hs Hp Hc Ha Hpos Hmin. destruct (hd_tableau _ Hs) as [P Ht].
  assert (H1 : entry s p c = 1) by (pose proof (row_entry_range (row_at s p) c); unfold entry in *; lia).
  set (A' i j := if decide (i = p) then entry s p j else entry s i j - entry s i c * entry s p j).
  set (b' i := if decide (i = p) then value s p else value s i - entry s i c * value s p).
  assert (Hpv : pivoted p c (entry s) (value s) (objective s) (objective_value s) A' b'
    (fun j => objective s j - objective s c * entry s p j) (objective_value s - objective s c * value s p)).
  { constructor; unfold A', b'; intros; first [done|by rewrite decide_True|by rewrite decide_False]. }
  pose proof (tableau_pivot m n nodes tail head tail_node head_node A0 b0 c0 act _ _ _ _ P _ Ht p c A' b' _ _ Hp Hc Ha H1 Hmin Hpv) as Ht'.
  destruct (tableau_fits m n nodes tail head tail_node head_node A0 b0 c0 act bound spread _ _ _ _ _ _ fits Ht) as (_ & Rb & _ & _).
  destruct (tableau_fits m n nodes tail head tail_node head_node A0 b0 c0 act bound spread _ _ _ _ _ _ fits Ht') as (RA & Rb' & Rz' & Ro').
  assert (Hel : forall i, (i < m)%nat -> i <> p -> let r' := row_at (pivot_on p c s) i in
    good_row r' /\ (forall j, row_entry r' j = entry s i j - entry s i c * entry s p j) /\
    BitcompressedRow.row_value r' = value s i - entry s i c * value s p).
  { intros i Hi Hne. cbn zeta. rewrite pivot_on_row, decide_False by done.
    apply eliminate_spec; [by apply (hd_row _ Hs)|by apply (hd_row _ Hs)|done| |by apply Rb|by apply Rb].
    intros j Hj. specialize (RA i j Hi Hj). unfold A' in RA. by rewrite decide_False in RA. }
  split; [constructor|].
  - intros j Hj. unfold entry at 1. by rewrite pivot_on_row, decide_True.
  - intros i j Hi Hne Hj. by apply Hel.
  - unfold value at 1. by rewrite pivot_on_row, decide_True.
  - intros i Hi Hne. by apply Hel.
  - intros j Hj. specialize (Ro' j Hj). unfold objective, pivot_on. cbn [objective_row]. rewrite cost_subtract;
      rewrite ?good_at by (done || by apply (hd_row _ Hs)); [done|by rewrite (hd_costs _ Hs)|].
    unfold objective, entry in Ro'. lia.
  - unfold objective_value, pivot_on. cbn [objective_row ObjectiveRow.subtract ObjectiveRow.row_value]. rewrite at_cost. apply i128_sub.
    change (- 2 ^ 127 <= objective_value s - objective s c * value s p < 2 ^ 127). lia.
  - intros i Hi. destruct (decide (i = p)) as [->|Hne]; [|by apply Hel]. rewrite pivot_on_row, decide_True by done. by apply (hd_row _ Hs).
Qed.

Lemma pivot_on_holds s p c : holds s -> (p < m)%nat -> (c < n)%nat -> act c = true -> 0 < entry s p c ->
  (forall i, (i < m)%nat -> 0 < entry s i c -> value s p <= value s i) -> holds (pivot_on p c s).
Proof.
  intros Hs Hp Hc Ha Hpos Hmin. destruct (pivot_on_pivoted s p c Hs Hp Hc Ha Hpos Hmin) as [Hpv Hg]. constructor.
  - apply Hs.
  - cbn. rewrite length_imap. apply Hs.
  - exact Hg.
  - apply Hs.
  - unfold pivot_on, vec_update. cbn [active_basis]. rewrite length_alter. apply Hs.
  - unfold pivot_on, vec_update. cbn [active_basis]. apply Forall_alter; [apply Hs|]. intros c' _ _. lia.
  - unfold pivot_on. cbn [objective_row]. rewrite length_subtract. apply Hs.
  - destruct (hd_tableau _ Hs) as [P Ht]. exists (pivot_potential (entry s) P p c).
    apply (tableau_ext m n nodes tail head A0 b0 c0 act _ _ _ _ _ (pivot_basis (basis s) p c) _ _ _ _ ltac:(done) ltac:(done) ltac:(done)).
    + intros i Hi. by rewrite pivot_on_basis.
    + assert (H1 : entry s p c = 1) by (pose proof (row_entry_range (row_at s p) c); unfold entry in *; lia).
      by eapply (tableau_pivot m n nodes tail head tail_node head_node A0 b0 c0 act).
Qed.

(** [do_pivot] does not throw; it stops with no active column of positive cost, or makes a
    pivot that keeps the tableau and does not lower the objective. *)
Lemma do_pivot_spec s : holds s ->
  (do_pivot s = Ok (false, s) /\ forall j, (j < n)%nat -> act j = true -> objective s j <= 0) \/
  exists s', do_pivot s = Ok (true, s') /\ holds s' /\ objective_value s' <= objective_value s.
Proof.
  intros Hs. pose proof (pivot_column_from_spec n 0 s ltac:(lia)) as Hcol. unfold do_pivot, get_next_pivot_column.
  rewrite (hd_cols _ Hs), Nat2Z.id. change (Z.of_nat 0) with 0 in Hcol. destruct (pivot_column_from n 0 s) as [c'|].
  - destruct Hcol as (c & -> & Hc & Ha & Ho). rewrite (hd_active _ Hs) in Ha by lia. destruct (hd_tableau _ Hs) as [P Ht].
    destruct (get_next_pivot_row_spec s c Hs ltac:(lia)) as (p & Er & Hp & Hpos & Hmin).
    { apply (pivot_row_exists m n nodes tail head A0 b0 c0 act bound _ _ _ _ P _ Ht); [apply fits|lia|done|done]. }
    right. exists (pivot_on p c s). split; [|split].
    + rewrite Er. cbn [result_bind]. rewrite Nat2Z.id. fold (row_at s p).
      rewrite (good_at (row_at s p) c) by (lia || by apply (hd_row _ Hs)). fold (entry s p c).
      rewrite (proj2 (Z.ltb_ge (entry s p c) 0)) by lia.
      replace (vec_update (fun _ => row_at s p) p (constraint_rows s)) with (constraint_rows s); [unfold pivot_on; by rewrite (hd_cols _ Hs)|].
      symmetry. apply list_eq. intros i. unfold vec_update. rewrite list_lookup_alter. case_decide as E; [|done]. subst i.
      by rewrite row_lookup by by rewrite (hd_rows _ Hs).
    + apply pivot_on_holds; done || lia.
    + destruct (pivot_on_pivoted s p c Hs Hp ltac:(lia) Ha Hpos Hmin) as [Hpv _].
      destruct (pivoted_improves m n nodes tail head A0 b0 c0 act _ _ _ _ P _ p c _ _ _ _ Ht Hp Ho Hpv) as [Hle _]. exact Hle.
  - left. split; [done|]. intros j Hj Ha. apply Hcol; [lia|by rewrite (hd_active _ Hs)].
Qed.
End Refine.
