(* ===== verification/MarketNetwork.v ===== *)
(** * The network of the market's linear programs

    Both solvers have one row per asset and one per orderbook that takes part, and columns
    [y] (amount traded) and [e] (amount left) per orderbook and [s] (and [t]) per asset:
    the rows of the incidence matrix of a graph with a node per asset, a node per taking
    part orderbook between its two assets, and a root.  [sell] and [buy] are the assets of
    an orderbook index, [books] the orderbooks that take part. *)
From stdpp Require Import base list.
From S2P Require Import Prelude Types Offers NetworkLP.
Import Category.

Section Market.
Variables na K : nat.
Variables sell buy : nat -> nat.
Variable books : list nat.
Let m := (na + length books)%nat.

(** The column ranges start at 0, [K], [2 * K] and [2 * K + na]. *)
Definition coefficient (i j : nat) : Z :=
  if decide (i < na)%nat then
    if decide (j < K)%nat then (if decide (buy j = i) then 1 else 0) - (if decide (sell j = i) then 1 else 0)
    else if decide (j < 2 * K)%nat then 0
    else if decide (j < 2 * K + na)%nat then if decide (j = 2 * K + i)%nat then 1 else 0
    else if decide (j = 2 * K + na + i)%nat then -1 else 0
  else match books !! (i - na)%nat with
    | Some idx => if decide (j = idx \/ j = K + idx)%nat then 1 else 0
    | None => 0
    end.

Definition book_row (idx : nat) : option nat := (fun p => na + fst p)%nat <$> list_find (fun b => idx = b) books.
Definition tail (j : nat) : nat :=
  if decide (j < K)%nat then S (sell j)
  else if decide (j < 2 * K)%nat then match book_row (j - K) with Some _ => S (buy (j - K)) | None => 0 end
  else if decide (j < 2 * K + na)%nat then 0%nat else S (j - (2 * K + na)).
Definition head (j : nat) : nat :=
  if decide (j < K)%nat then match book_row j with Some i => S i | None => S (buy j) end
  else if decide (j < 2 * K)%nat then match book_row (j - K) with Some i => S i | None => 0%nat end
  else if decide (j < 2 * K + na)%nat then S (j - 2 * K) else 0%nat.
Definition potential (i v : nat) : Z :=
  match v with
  | O => 0
  | S u =>
      if decide (u = i) then 1
      else if decide (i < na /\ na <= u)%nat then
        match books !! (u - na)%nat with Some idx => if decide (buy idx = i) then 1 else 0 | None => 0 end
      else 0
  end.

Hypothesis sell_asset : forall j, (j < K)%nat -> (sell j < na)%nat.
Hypothesis buy_asset : forall j, (j < K)%nat -> (buy j < na)%nat.
Hypothesis sell_buy : forall j, (j < K)%nat -> sell j <> buy j.
Hypothesis books_NoDup : NoDup books.
Hypothesis books_range : Forall (fun idx => (idx < K)%nat) books.

Lemma book_row_Some idx i : book_row idx = Some i <-> (na <= i)%nat /\ books !! (i - na)%nat = Some idx.
Proof.
  unfold book_row. rewrite fmap_Some. split.
  - intros ([k b] & (Hk & <- & _)%list_find_Some & ->). cbn. split; [lia|]. by replace (na + k - na)%nat with k by lia.
  - intros [Hi Hb]. exists ((i - na)%nat, idx). split; [|cbn; lia]. apply list_find_Some. split; [done|]. split; [done|].
    intros k b Hk Hlt ->. pose proof (NoDup_lookup _ _ _ _ books_NoDup Hk Hb). lia.
Qed.
Lemma book_row_None idx i : book_row idx = None -> books !! i <> Some idx.
Proof.
  intros Hn Hi. enough (book_row idx = Some (na + i)%nat) by congruence. apply book_row_Some. split; [lia|].
  by replace (na + i - na)%nat with i by lia.
Qed.
Lemma book_range k idx : books !! k = Some idx -> (idx < K)%nat.
Proof. intros Hk. by apply (Forall_lookup_1 _ _ _ _ books_range Hk). Qed.
Lemma book_row_range idx i : book_row idx = Some i -> (na <= i < m)%nat.
Proof. intros [Hi Hb]%book_row_Some. apply lookup_lt_Some in Hb. unfold m. lia. Qed.

Lemma tail_node j : (j < 2 * K + 2 * na)%nat -> (tail j < S m)%nat.
Proof.
  intros Hj. unfold tail, m. repeat case_decide; [pose proof (sell_asset j); lia| |lia..].
  case_match; [|lia]. pose proof (buy_asset (j - K)). lia.
Qed.
Lemma head_node j : (j < 2 * K + 2 * na)%nat -> (head j < S m)%nat.
Proof.
  intros Hj. unfold head. repeat case_decide; try case_match eqn:E; try (apply book_row_range in E); unfold m; try lia.
  pose proof (buy_asset j). lia.
Qed.

(** Every row is the tension of its potential. *)
Lemma potential_asset i v : (v < na)%nat -> potential i (S v) = if decide (v = i) then 1 else 0.
Proof. intros Hv. unfold potential. repeat case_decide; done || lia. Qed.
Lemma potential_book i idx k : book_row idx = Some k ->
  potential i (S k) = if decide (k = i) then 1 else if decide (i < na /\ buy idx = i)%nat then 1 else 0.
Proof.
  intros [Hk Hb]%book_row_Some. unfold potential. rewrite Hb. repeat case_decide; done || lia.
Qed.
Lemma coefficient_tension i j : (i < m)%nat -> (j < 2 * K + 2 * na)%nat -> coefficient i j = tension tail head (potential i) j.
Proof.
  intros Hi Hj. unfold tension, tail, head, coefficient.
  destruct (decide (j < K)%nat) as [HK|HK].
  { pose proof (sell_asset j HK). pose proof (buy_asset j HK). pose proof (sell_buy j HK). rewrite (potential_asset i (sell j)) by done.
    destruct (book_row j) as [k|] eqn:Ek.
    - rewrite (potential_book i j k Ek). pose proof (book_row_range j k Ek). apply book_row_Some in Ek as [Hk Hb].
      destruct (decide (i < na)%nat) as [Hia|Hia]; [repeat case_decide; lia|].
      destruct (decide (k = i)) as [->|Hki].
      + rewrite Hb, (decide_True (P := j = j \/ _)) by by left. rewrite decide_False by lia. lia.
      + rewrite (decide_False (P := sell j = i)), (decide_False (P := (i < na)%nat /\ _)) by lia. destruct (books !! (i - na)%nat) as [idx|] eqn:Eb; [|done].
        rewrite decide_False; [done|]. pose proof (book_range _ _ Eb). intros [->|?]; [|lia].
        pose proof (NoDup_lookup _ _ _ _ books_NoDup Hb Eb). lia.
    - rewrite potential_asset by done. destruct (decide (i < na)%nat) as [Hia|Hia]; [repeat case_decide; lia|].
      rewrite (decide_False (P := buy j = i)), (decide_False (P := sell j = i)) by lia.
      destruct (books !! (i - na)%nat) as [idx|] eqn:Eb; [|done]. rewrite decide_False; [done|].
      pose proof (book_range _ _ Eb). intros [->|?]; [|lia]. by apply (book_row_None _ _ Ek) in Eb. }
  destruct (decide (j < 2 * K)%nat) as [H2K|H2K].
  { pose proof (buy_asset (j - K)%nat ltac:(lia)) as Hbuy. destruct (book_row (j - K)) as [k|] eqn:Ek.
    - rewrite (potential_book i _ k Ek), potential_asset by done. pose proof (book_row_range _ k Ek). apply book_row_Some in Ek as [Hk Hb].
      destruct (decide (i < na)%nat) as [Hia|Hia]; [repeat case_decide; lia|].
      rewrite (decide_False (P := (i < na)%nat /\ _)), (decide_False (P := buy (j - K)%nat = i)) by lia. destruct (decide (k = i)) as [->|Hki].
      + rewrite Hb, decide_True by lia. lia.
      + destruct (books !! (i - na)%nat) as [idx|] eqn:Eb; [|done]. rewrite decide_False; [done|]. pose proof (book_range _ _ Eb).
        intros [?|E]; [lia|]. replace idx with (j - K)%nat in Eb by lia. pose proof (NoDup_lookup _ _ _ _ books_NoDup Hb Eb). lia.
    - cbn. destruct (decide (i < na)%nat) as [Hia|Hia]; [lia|]. destruct (books !! (i - na)%nat) as [idx|] eqn:Eb; [|done].
      rewrite decide_False; [done|]. pose proof (book_range _ _ Eb). intros [?|E]; [lia|]. replace idx with (j - K)%nat in Eb by lia.
      by apply (book_row_None _ _ Ek) in Eb. }
  assert (Hrow : (na <= i)%nat -> match books !! (i - na)%nat with Some idx => if decide (j = idx \/ j = K + idx)%nat then 1 else 0 | None => 0 end = 0).
  { intros _. destruct (books !! (i - na)%nat) as [idx|] eqn:Eb; [|done]. pose proof (book_range _ _ Eb). rewrite decide_False by lia. done. }
  destruct (decide (j < 2 * K + na)%nat) as [Hs|Hs].
  - rewrite potential_asset by lia. cbn [potential]. destruct (decide (i < na)%nat) as [Hia|Hia]; [repeat case_decide; lia|].
    rewrite Hrow by lia. rewrite decide_False by lia. lia.
  - rewrite potential_asset by lia. cbn [potential]. destruct (decide (i < na)%nat) as [Hia|Hia]; [repeat case_decide; lia|].
    rewrite Hrow by lia. rewrite decide_False by lia. lia.
Qed.

(** ** The first tableau

    The basis is [e] on the rows of the orderbooks and, on the row of an asset, [s], or [t]
    when the row has been negated. *)
Variable negated : nat -> bool.
Definition sign (i : nat) : Z := if decide (i < na)%nat then if negated i then -1 else 1 else 1.
Definition start_entry (i j : nat) : Z := sign i * coefficient i j.
Definition start_potential (i v : nat) : Z := sign i * potential i v.
Definition start_basis (i : nat) : nat :=
  if decide (i < na)%nat then if negated i then (2 * K + na + i)%nat else (2 * K + i)%nat else (K + default 0 (books !! (i - na)))%nat.

Lemma sign_square i : sign i * sign i = 1.
Proof. unfold sign. by repeat case_match. Qed.
Lemma start_network n : (2 * K + na <= n <= 2 * K + 2 * na)%nat ->
  (forall i, (i < na)%nat -> negated i = true -> n = (2 * K + 2 * na)%nat) ->
  network m n (S m) tail head start_entry start_potential start_basis.
Proof.
  intros Hn Hneg. constructor.
  - intros i Hi. unfold start_potential. cbn. lia.
  - intros i j Hi Hj. unfold start_entry, tension, start_potential. rewrite coefficient_tension by lia. unfold tension. lia.
  - intros q Hq.
    exists (fun i => sign i * (q (S i) - if decide (na <= i)%nat then match books !! (i - na)%nat with Some idx => q (S (buy idx)) | None => 0 end else 0)).
    intros [|u] Hu.
    { rewrite Hq. symmetry. apply sum_by_zero, Forall_forall. intros i _. unfold start_potential. cbn. lia. }
    assert (Hsp : forall i k, sign i * k * start_potential i (S u) = k * potential i (S u)).
    { intros i k. unfold start_potential. replace (sign i * k * (sign i * potential i (S u))) with (sign i * sign i * (k * potential i (S u))) by lia.
      rewrite sign_square. lia. }
    erewrite sum_by_ext by (apply Forall_forall; intros i _; apply Hsp).
    destruct (decide (u < na)%nat) as [Hua|Hua].
    + rewrite (sum_at _ m u) by (try lia; intros i Hi Hne; rewrite potential_asset, (decide_False (P := u = i)) by (done || congruence); lia).
      rewrite potential_asset, (decide_True (P := u = u)), decide_False by (done || lia). lia.
    + destruct (lookup_lt_is_Some_2 books (u - na)) as [idx Hidx]; [unfold m in Hu; lia|].
      assert (Hrow : book_row idx = Some u) by (apply book_row_Some; split; [lia|done]).
      pose proof (buy_asset idx (book_range _ _ Hidx)) as Hba.
      rewrite (sum_by_point (fun i => if decide (i = buy idx) then q (S (buy idx)) else 0) _ (seq 0 m) u).
      * rewrite (sum_at _ m (buy idx)) by (try (unfold m; lia); intros i Hi Hne; by rewrite decide_False).
        rewrite decide_True by done. rewrite (potential_book _ idx u Hrow). rewrite Hidx. rewrite !decide_True, decide_False by (done || lia). lia.
      * apply NoDup_seq.
      * apply elem_of_seq. lia.
      * intros i _ Hiu. rewrite (potential_book _ idx u Hrow), (decide_False (P := u = i)) by congruence.
        destruct (decide (i < na)%nat) as [Hi|Hi]; [rewrite (decide_False (P := (na <= i)%nat)) by lia|repeat case_decide; lia].
        repeat case_decide; subst; lia.
  - intros i Hi. unfold start_basis. destruct (decide (i < na)%nat) as [Hia|Hia].
    + destruct (negated i) eqn:E; [rewrite (Hneg i Hia E)|]; lia.
    + destruct (lookup_lt_is_Some_2 books (i - na)) as [idx Hidx]; [unfold m in Hi; lia|]. rewrite Hidx. cbn. pose proof (book_range _ _ Hidx). lia.
  - intros i k Hi Hk. unfold start_entry, start_basis, coefficient, sign. destruct (decide (k < na)%nat) as [Hka|Hka].
    + assert (Hb : match books !! (i - na)%nat with Some idx => (idx < K)%nat | None => True end).
      { destruct (books !! (i - na)%nat) as [idx|] eqn:E; [by apply (book_range _ _ E)|done]. }
      destruct (decide (i = k)) as [->|Hik].
      * rewrite (decide_True (P := (k < na)%nat)) by done. destruct (negated k); repeat case_decide; lia.
      * destruct (decide (i < na)%nat); [destruct (negated i), (negated k); repeat case_decide; lia|].
        destruct (books !! (i - na)%nat); [destruct (negated k); rewrite decide_False by lia|]; lia.
    + destruct (lookup_lt_is_Some_2 books (k - na)) as [idx Hidx]; [unfold m in Hk; lia|]. rewrite Hidx. cbn [default from_option id].
      pose proof (book_range _ _ Hidx). destruct (decide (i < na)%nat) as [Hia|Hia]; [destruct (negated i); repeat case_decide; lia|].
      destruct (lookup_lt_is_Some_2 books (i - na)) as [idx' Hidx']; [unfold m in Hi; lia|]. rewrite Hidx'. pose proof (book_range _ _ Hidx').
      destruct (decide (i = k)) as [->|Hik]; [rewrite decide_True; [lia|right; congruence]|]. rewrite decide_False; [lia|].
      intros [?|E]; [lia|]. replace idx' with idx in Hidx' by lia. pose proof (NoDup_lookup _ _ _ _ books_NoDup Hidx Hidx'). lia.
Qed.

(** ** Trades

    [limit] is the most an orderbook may trade, [rhs] what an asset's row asks for. *)
Variable limit rhs : nat -> Z.
Hypothesis limit_nonneg : forall j, 0 <= limit j.
Hypothesis limit_books : forall j, j ∉ books -> limit j = 0.

Definition sold (y : nat -> Z) (a : nat) : Z := sum_by (fun j => if decide (sell j = a) then y j else 0) (seq 0 K).
Definition bought (y : nat -> Z) (a : nat) : Z := sum_by (fun j => if decide (buy j = a) then y j else 0) (seq 0 K).
Definition within (y : nat -> Z) : Prop := forall j, (j < K)%nat -> 0 <= y j <= limit j.
Definition excess (y : nat -> Z) (a : nat) : Z := bought y a - sold y a - rhs a.
Definition balanced (y : nat -> Z) : Prop := forall a, (a < na)%nat -> excess y a <= 0.
Definition total : Z := sum_by limit (seq 0 K).

Definition touched (a : nat) : bool := existsb (fun idx => bool_decide (sell idx = a) || bool_decide (buy idx = a)) books.
Definition market_active (j : nat) : bool :=
  if decide (j < K)%nat then bool_decide (j ∈ books)
  else if decide (j < 2 * K)%nat then bool_decide ((j - K)%nat ∈ books)
  else if decide (j < 2 * K + na)%nat then touched (j - 2 * K) else touched (j - (2 * K + na)).
Definition start_value (i : nat) : Z := sign i * (if decide (i < na)%nat then rhs i else limit (default 0%nat (books !! (i - na)%nat))).

(** The columns [t] are there ([nt = na]) or not ([nt = 0]). *)
Variable nt : nat.
Hypothesis nt_cases : nt = 0%nat \/ nt = na.
Abbreviation n := (2 * K + na + nt)%nat.

Lemma sum_seq_app (f : nat -> Z) a b : sum_by f (seq 0 (a + b)) = sum_by f (seq 0 a) + sum_by (fun i => f (a + i)%nat) (seq 0 b).
Proof. rewrite seq_app, sum_by_app. f_equal. cbn. pose proof (fmap_add_seq a 0 b) as E. rewrite Nat.add_0_r in E. by rewrite <- E, sum_by_fmap. Qed.
Lemma sum_seq_zero (f : nat -> Z) a : (forall i, (i < a)%nat -> f i = 0) -> sum_by f (seq 0 a) = 0.
Proof. intros Hf. apply sum_by_zero, Forall_forall. intros i Hi%elem_of_seq. apply Hf. lia. Qed.

Lemma lin_asset x i : (i < na)%nat ->
  lin n (coefficient i) x = bought x i - sold x i + x (2 * K + i)%nat - (if decide (nt = 0)%nat then 0 else x (2 * K + na + i)%nat).
Proof.
  intros Hi. unfold lin. replace (2 * K + na + nt)%nat with (K + (K + (na + nt)))%nat by lia. rewrite !sum_seq_app.
  rewrite (sum_seq_zero (fun j => coefficient i (K + j) * _)) by
    (intros j Hj; unfold coefficient; rewrite decide_True, decide_False, decide_True by lia; lia).
  rewrite (sum_at (fun j => coefficient i (K + (K + j)) * _) na i Hi) by
    (intros j Hj Hne; unfold coefficient; rewrite decide_True, decide_False, decide_False, decide_True, decide_False by lia; lia).
  assert (Et : sum_by (fun j => coefficient i (K + (K + (na + j))) * x (K + (K + (na + j)))%nat) (seq 0 nt) =
    - (if decide (nt = 0)%nat then 0 else x (2 * K + na + i)%nat)).
  { destruct (decide (nt = 0)%nat) as [->|Hnt]; [done|]. assert (nt = na) as -> by lia.
    rewrite (sum_at _ na i Hi) by (intros j Hj Hne; unfold coefficient; rewrite decide_True, !decide_False by lia; lia).
    unfold coefficient. rewrite decide_True, !decide_False, decide_True by lia. replace (K + (K + (na + i)))%nat with (2 * K + na + i)%nat by lia. lia. }
  rewrite Et. unfold coefficient at 2. rewrite decide_True, !decide_False, !decide_True by lia.
  replace (K + (K + i))%nat with (2 * K + i)%nat by lia.
  enough (sum_by (fun j => coefficient i j * x j) (seq 0 K) = bought x i - sold x i) by lia.
  symmetry. apply sum_by_sub. intros j [_ Hj]%elem_of_seq. unfold coefficient.
  rewrite (decide_True (P := (i < na)%nat)), (decide_True (P := (j < K)%nat)) by lia. repeat case_decide; lia.
Qed.
Lemma lin_book x k idx : books !! k = Some idx -> lin n (coefficient (na + k)) x = x idx + x (K + idx)%nat.
Proof.
  intros Hk. pose proof (book_range _ _ Hk) as Hidx. unfold lin. replace (2 * K + na + nt)%nat with (K + (K + (na + nt)))%nat by lia.
  assert (Hc : forall j, coefficient (na + k) j = if decide (j = idx \/ j = K + idx)%nat then 1 else 0).
  { intros j. unfold coefficient. rewrite decide_False by lia. replace (na + k - na)%nat with k by lia. by rewrite Hk. }
  rewrite (sum_seq_app _ K (K + (na + nt))), (sum_seq_app _ K (na + nt)).
  rewrite (sum_at (fun j => coefficient (na + k) j * _) K idx Hidx) by (intros j Hj Hne; rewrite Hc, decide_False by lia; lia).
  rewrite (sum_at (fun j => coefficient (na + k) (K + j) * _) K idx Hidx) by (intros j Hj Hne; rewrite Hc, decide_False by lia; lia).
  rewrite sum_seq_zero by (intros j Hj; rewrite Hc, decide_False by lia; lia). rewrite !Hc, !decide_True by lia. lia.
Qed.

Definition solution_of (x : nat -> Z) : Prop :=
  (forall a, (a < na)%nat -> bought x a - sold x a + x (2 * K + a)%nat - (if decide (nt = 0)%nat then 0 else x (2 * K + na + a)%nat) = rhs a) /\
  forall idx, idx ∈ books -> x idx + x (K + idx)%nat = limit idx.
Lemma solves_start x : solves m n start_entry start_value x <-> solution_of x.
Proof.
  assert (Hlin : forall i, lin n (start_entry i) x = sign i * lin n (coefficient i) x).
  { intros i. unfold lin, start_entry. rewrite <- sum_by_scale. apply sum_by_ext, Forall_forall. intros j _. lia. }
  assert (Hs : forall i a b, sign i * a = sign i * b <-> a = b).
  { intros i a b. unfold sign. repeat case_match; lia. }
  unfold solves. split.
  - intros Hx. split.
    + intros a Ha. specialize (Hx a ltac:(unfold m; lia)). rewrite Hlin in Hx. unfold start_value in Hx. rewrite Hs, decide_True, lin_asset in Hx by done. done.
    + intros idx [k Hk]%list_elem_of_lookup. pose proof (lookup_lt_Some _ _ _ Hk). specialize (Hx (na + k)%nat ltac:(unfold m; lia)).
      rewrite Hlin in Hx. unfold start_value in Hx. rewrite Hs, decide_False in Hx by lia. replace (na + k - na)%nat with k in Hx by lia.
      by rewrite (lin_book x k idx Hk), Hk in Hx.
  - intros [Ha Hb] i Hi. rewrite Hlin. unfold start_value. rewrite Hs. destruct (decide (i < na)%nat) as [Hia|Hia]; [rewrite lin_asset by done; by apply Ha|].
    destruct (lookup_lt_is_Some_2 books (i - na)) as [idx Hidx]; [unfold m in Hi; lia|]. rewrite Hidx.
    pose proof (lin_book x _ idx Hidx) as El. replace (na + (i - na))%nat with i in El by lia. rewrite El. apply Hb. by apply list_elem_of_lookup_2 in Hidx.
Qed.

(** *** Trades and solutions *)
Abbreviation feasible := (feasible m n start_entry start_value market_active).
Lemma limit_book idx : 0 < limit idx -> idx ∈ books.
Proof. intros Hl. destruct (decide (idx ∈ books)) as [|Hn]; [done|]. rewrite limit_books in Hl by done. lia. Qed.
Lemma feasible_book x idx : (idx < K)%nat -> feasible x -> 0 <= x idx /\ 0 <= x (K + idx)%nat /\ x idx + x (K + idx)%nat = limit idx.
Proof.
  intros Hidx [[Hnn Hact] [_ Hb]%solves_start]. pose proof (Hnn idx). pose proof (Hnn (K + idx)%nat). do 2 (split; [done|]).
  destruct (decide (idx ∈ books)) as [|Hno]; [by apply Hb|]. rewrite limit_books by done.
  rewrite (Hact idx), (Hact (K + idx)%nat); try lia.
  - unfold market_active. rewrite decide_False, decide_True by lia. replace (K + idx - K)%nat with idx by lia. by apply bool_decide_eq_false.
  - unfold market_active. rewrite decide_True by lia. by apply bool_decide_eq_false.
Qed.
Lemma feasible_within x : feasible x -> within x.
Proof. intros Hx j Hj. pose proof (feasible_book x j Hj Hx). lia. Qed.
Lemma feasible_excess x a : (a < na)%nat -> feasible x ->
  excess x a = (if decide (nt = 0)%nat then 0 else x (2 * K + na + a)%nat) - x (2 * K + a)%nat.
Proof. intros Ha [_ [Hs _]%solves_start]. specialize (Hs a Ha). unfold excess. lia. Qed.

(** A trade with the slack it leaves. *)
Definition extend (y : nat -> Z) (j : nat) : Z :=
  if decide (j < K)%nat then y j
  else if decide (j < 2 * K)%nat then limit (j - K)%nat - y (j - K)%nat
  else if decide (j < 2 * K + na)%nat then Z.max 0 (- excess y (j - 2 * K)) else Z.max 0 (excess y (j - (2 * K + na))).
Lemma sold_ext y y' a : (forall j, (j < K)%nat -> y j = y' j) -> sold y a = sold y' a.
Proof. intros Hy. apply sum_seq_ext. intros j Hj. by rewrite Hy. Qed.
Lemma bought_ext y y' a : (forall j, (j < K)%nat -> y j = y' j) -> bought y a = bought y' a.
Proof. intros Hy. apply sum_seq_ext. intros j Hj. by rewrite Hy. Qed.
Lemma untouched_excess y a : within y -> touched a = false -> bought y a = 0 /\ sold y a = 0.
Proof.
  intros Hy Ht. assert (Hz : forall j, (j < K)%nat -> buy j = a \/ sell j = a -> y j = 0).
  { intros j Hj Ha. specialize (Hy j Hj). destruct (decide (j ∈ books)) as [Hb|Hb]; [|rewrite limit_books in Hy by done; lia].
    enough (touched a = true) by congruence. apply existsb_exists. exists j. split; [by apply list_elem_of_In|].
    destruct Ha as [-> | ->]; rewrite (bool_decide_eq_true_2 (a = a)) by done; [by rewrite orb_true_r|done]. }
  split; apply sum_seq_zero; intros j Hj; case_decide; [apply Hz|done|apply Hz|done]; auto.
Qed.
Lemma extend_feasible y : within y -> (forall a, touched a = false -> rhs a = 0) -> (nt = 0%nat -> balanced y) -> feasible (extend y).
Proof.
  intros Hy Hrhs Hbal.
  assert (Ee : forall a, excess (extend y) a = excess y a).
  { intros a. assert (E : forall j, (j < K)%nat -> extend y j = y j) by (intros j Hj; unfold extend; by rewrite decide_True).
    unfold excess. by rewrite (bought_ext _ _ a E), (sold_ext _ _ a E). }
  split; [split|apply solves_start; split].
  - intros j. unfold extend. destruct (decide (j < K)%nat) as [Hj|Hj]; [by apply Hy|].
    destruct (decide (j < 2 * K)%nat); [pose proof (Hy (j - K)%nat ltac:(lia)); lia|]. case_decide; lia.
  - intros j _. unfold market_active, extend. destruct (decide (j < K)%nat) as [Hj|Hj].
    { intros Hb%bool_decide_eq_false. specialize (Hy j Hj). rewrite limit_books in Hy by done. lia. }
    destruct (decide (j < 2 * K)%nat) as [Hj2|Hj2].
    { intros Hb%bool_decide_eq_false. specialize (Hy (j - K)%nat ltac:(lia)). rewrite limit_books in * by done. lia. }
    assert (Ht : forall a, touched a = false -> excess y a = 0).
    { intros a Ha. destruct (untouched_excess y a Hy Ha) as [E1 E2]. unfold excess. rewrite E1, E2, Hrhs by done. lia. }
    case_decide; intros E; rewrite Ht by done; lia.
  - intros a Ha. specialize (Ee a). unfold excess in Ee at 1. enough (extend y (2 * K + a)%nat - (if decide (nt = 0)%nat then 0 else extend y (2 * K + na + a)%nat) = - excess y a) by lia.
    unfold extend. rewrite (decide_False (P := (2 * K + a < K)%nat)), (decide_False (P := (2 * K + a < 2 * K)%nat)), (decide_True (P := (2 * K + a < 2 * K + na)%nat)) by lia.
    replace (2 * K + a - 2 * K)%nat with a by lia. destruct (decide (nt = 0)%nat) as [Hnt|Hnt]; [specialize (Hbal Hnt a Ha); lia|].
    rewrite !decide_False by lia. replace (2 * K + na + a - (2 * K + na))%nat with a by lia. lia.
  - intros idx Hb. assert (Hidx : (idx < K)%nat) by (apply list_elem_of_lookup in Hb as [k Hk]; by apply (book_range k)).
    unfold extend. rewrite decide_True, decide_False, decide_True by lia. replace (K + idx - K)%nat with idx by lia. lia.
Qed.

(** *** Bounds *)
Lemma limit_total j : (j < K)%nat -> limit j <= total.
Proof. intros Hj. apply sum_by_elem_le; [apply Forall_forall; intros; apply limit_nonneg|apply elem_of_seq; lia]. Qed.
Lemma part_total y (part : nat -> bool) : within y -> 0 <= sum_by (fun j => if part j then y j else 0) (seq 0 K) <= total.
Proof.
  intros Hy. split.
  - apply sum_by_nonneg, Forall_forall. intros j [_ Hj]%elem_of_seq. specialize (Hy j Hj). case_match; lia.
  - apply sum_by_le, Forall_forall. intros j [_ Hj]%elem_of_seq. specialize (Hy j Hj). case_match; lia.
Qed.
Lemma sold_bounds y a : within y -> 0 <= sold y a <= total.
Proof.
  intros Hy. unfold sold. rewrite (sum_seq_ext K _ (fun j => if bool_decide (sell j = a) then y j else 0)); [by apply part_total|].
  intros j _. by repeat case_match; case_bool_decide.
Qed.
Lemma bought_bounds y a : within y -> 0 <= bought y a <= total.
Proof.
  intros Hy. unfold bought. rewrite (sum_seq_ext K _ (fun j => if bool_decide (buy j = a) then y j else 0)); [by apply part_total|].
  intros j _. by repeat case_match; case_bool_decide.
Qed.
Lemma total_nonneg : 0 <= total.
Proof. apply sum_by_nonneg, Forall_forall. intros; apply limit_nonneg. Qed.

(** *** The rows of the first tableau *)
Lemma touched_book idx : idx ∈ books -> touched (buy idx) = true /\ touched (sell idx) = true.
Proof.
  intros Hb. split; apply existsb_exists; exists idx; (split; [by apply list_elem_of_In|]).
  - by rewrite (bool_decide_eq_true_2 (buy idx = buy idx)), orb_true_r.
  - by rewrite (bool_decide_eq_true_2 (sell idx = sell idx)).
Qed.
Lemma start_active i : (i < m)%nat -> (forall a, touched a = false -> rhs a = 0) ->
  market_active (start_basis i) = true \/ (start_value i = 0 /\ forall j, (j < n)%nat -> market_active j = true -> start_entry i j = 0).
Proof.
  intros Hi Hrhs. unfold start_basis. destruct (decide (i < na)%nat) as [Hia|Hia].
  - destruct (touched i) eqn:Et.
    { left. unfold market_active. rewrite !decide_False by (destruct (negated i); lia). destruct (negated i).
      - rewrite decide_False by lia. by replace (2 * K + na + i - (2 * K + na))%nat with i by lia.
      - rewrite decide_True by lia. by replace (2 * K + i - 2 * K)%nat with i by lia. }
    right. unfold start_value, start_entry. rewrite decide_True, Hrhs by done. split; [lia|]. intros j Hj Ha.
    enough (coefficient i j = 0) by lia. unfold coefficient, market_active in *. rewrite (decide_True (P := (i < na)%nat)) by done.
    destruct (decide (j < K)%nat).
    + apply bool_decide_eq_true, touched_book in Ha as [H1 H2]. rewrite !decide_False; [done|intros <-; congruence..].
    + destruct (decide (j < 2 * K)%nat); [done|]. destruct (decide (j < 2 * K + na)%nat).
      * rewrite decide_False; [done|]. intros ->. replace (2 * K + i - 2 * K)%nat with i in Ha by lia. congruence.
      * rewrite decide_False; [done|]. intros ->. replace (2 * K + na + i - (2 * K + na))%nat with i in Ha by lia. congruence.
  - left. destruct (lookup_lt_is_Some_2 books (i - na)) as [idx Hidx]; [unfold m in Hi; lia|]. rewrite Hidx. cbn [default from_option id].
    pose proof (book_range _ _ Hidx). unfold market_active. rewrite decide_False, decide_True by lia. replace (K + idx - K)%nat with idx by lia.
    apply bool_decide_eq_true_2. by apply list_elem_of_lookup_2 in Hidx.
Qed.

(** ** The largest volume

    No [t], nothing asked of the assets, and a cost of one for the amounts traded. *)
Section Volume.
Hypothesis no_t : nt = 0%nat.
Hypothesis no_rhs : forall a, rhs a = 0.
Hypothesis not_negated : forall i, negated i = false.
Definition traded_cost (j : nat) : Z := if decide (j ∈ books) then 1 else 0.
Definition volume (y : nat -> Z) : Z := sum_by y (seq 0 K).

Lemma lin_traded x : lin n traded_cost x = sum_by (fun j => if decide (j ∈ books) then x j else 0) (seq 0 K).
Proof.
  unfold lin. replace (2 * K + na + nt)%nat with (K + (K + na + nt))%nat by lia. rewrite sum_seq_app.
  rewrite (sum_seq_zero (fun i => traded_cost (K + i) * _)).
  - rewrite Z.add_0_r. apply sum_seq_ext. intros j Hj. unfold traded_cost. case_decide; lia.
  - intros j Hj. unfold traded_cost. rewrite decide_False; [lia|]. intros [k Hk]%list_elem_of_lookup. pose proof (book_range _ _ Hk). lia.
Qed.
Lemma feasible_volume x : feasible x -> lin n traded_cost x = volume x.
Proof.
  intros Hx. rewrite lin_traded. apply sum_seq_ext. intros j Hj. case_decide as Hb; [done|].
  pose proof (feasible_within x Hx j Hj) as Hw. rewrite limit_books in Hw by done. lia.
Qed.
Lemma feasible_balanced x : feasible x -> balanced x.
Proof.
  intros Hx a Ha. rewrite (feasible_excess x a Ha Hx). rewrite decide_True by done. pose proof Hx as [[Hnn _] _]. specialize (Hnn (2 * K + a)%nat). lia.
Qed.
Lemma volume_total y : within y -> 0 <= volume y <= total.
Proof.
  intros Hy. split.
  - apply sum_by_nonneg, Forall_forall. intros j [_ Hj]%elem_of_seq. specialize (Hy j Hj). lia.
  - apply sum_by_le, Forall_forall. intros j [_ Hj]%elem_of_seq. specialize (Hy j Hj). lia.
Qed.

Lemma volume_bounded : bounded_problem m n tail head start_entry start_value traded_cost market_active total.
Proof.
  constructor.
  - intros d Hd Hk. rewrite lin_traded. enough (sum_by (fun j => if decide (j ∈ books) then d j else 0) (seq 0 K) = 0) by lia.
    apply sum_seq_zero. intros j _. case_decide as Hb; [|done]. apply list_elem_of_lookup in Hb as [k Hb].
    pose proof (lookup_lt_Some _ _ _ Hb) as Hlt. specialize (Hk (na + k)%nat ltac:(unfold m; lia)). cbn beta in Hk.
    assert (El : lin n (start_entry (na + k)) d = sign (na + k) * lin n (coefficient (na + k)) d).
    { unfold lin, start_entry. rewrite <- sum_by_scale. apply sum_by_ext, Forall_forall. intros i _. lia. }
    rewrite El, (lin_book d k j Hb) in Hk. unfold sign in Hk. rewrite decide_False in Hk by lia.
    destruct Hd as [Hd _]. pose proof (Hd j). pose proof (Hd (K + j)%nat). lia.
  - intros x Hx _. pose proof (feasible_within x Hx) as Hw. rewrite feasible_volume by done. pose proof (volume_total x Hw). pose proof total_nonneg.
    split; [|lia]. intros j Hj. destruct (decide (j < K)%nat) as [HK|HK]; [pose proof (Hw j HK); pose proof (limit_total j HK); lia|].
    destruct (decide (j < 2 * K)%nat) as [H2K|H2K].
    + pose proof (feasible_book x (j - K) ltac:(lia) Hx) as Hb. replace (K + (j - K))%nat with j in Hb by lia. pose proof (limit_total (j - K) ltac:(lia)). lia.
    + pose proof (feasible_excess x (j - 2 * K) ltac:(lia) Hx) as He. rewrite decide_True in He by done. replace (2 * K + (j - 2 * K))%nat with j in He by lia.
      pose proof (sold_bounds x (j - 2 * K) Hw). pose proof (bought_bounds x (j - 2 * K) Hw). unfold excess in He. rewrite no_rhs in He. lia.
Qed.
Lemma volume_fits : total < 2 ^ 126 -> (na <= 126)%nat ->
  fitting_problem m n tail head start_entry start_value traded_cost market_active total (Z.of_nat na).
Proof.
  intros Ht Hna. constructor; [apply volume_bounded|done| |].
  - intros β Q Hβ HQ Hc. exists ((fun a => Q (S a)) <$> seq 0 na). rewrite length_fmap, length_seq. split; [done|]. intros k t Hk Ht'.
    specialize (Hc k Hk). unfold tension, traded_cost in Hc. case_decide as Hb; [|by replace (Q (head (β k))) with (Q (tail (β k))) in Ht' by lia].
    assert (HK : (β k < K)%nat) by (apply list_elem_of_lookup in Hb as [i Hb]; by apply (book_range i)).
    apply list_elem_of_fmap. exists (sell (β k)). split; [|apply elem_of_seq; pose proof (sell_asset _ HK); lia].
    assert (Et : tail (β k) = S (sell (β k))) by (unfold tail; by rewrite decide_True). rewrite <- Et.
    destruct (Z.leb_spec t (Q (head (β k)))), (Z.leb_spec t (Q (tail (β k)))); done || lia.
  - intros j Hj. unfold traded_cost. case_decide; lia.
Qed.
Lemma volume_start : tableau m n (S m) tail head start_entry start_value traded_cost market_active
  start_entry start_value traded_cost 0 start_potential start_basis.
Proof.
  apply tableau_start.
  - apply start_network; [lia|]. intros i _ Hi. by rewrite not_negated in Hi.
  - intros i Hi. by apply start_active.
  - intros i Hi. unfold start_value, sign. rewrite not_negated, no_rhs. repeat case_decide; rewrite ?Z.mul_1_l; done || apply limit_nonneg.
  - intros i Hi. unfold traded_cost, start_basis. rewrite not_negated. rewrite decide_False; [done|]. intros [k Hk]%list_elem_of_lookup.
    pose proof (book_range _ _ Hk). case_decide; lia.
Qed.
End Volume.

(** ** Feasibility

    Every orderbook trades at least [lower]; a [t] is what an asset is bought too much, at a
    cost of one. *)
Section Feasibility.
Hypothesis has_t : nt = na.
Hypothesis some_asset : (0 < na)%nat.
Variable lower : nat -> Z.
Hypothesis lower_nonneg : forall j, 0 <= lower j.
Hypothesis rhs_lower : forall a, rhs a = sold lower a - bought lower a.
Hypothesis lower_books : forall j, j ∉ books -> lower j = 0.
Hypothesis negated_rhs : forall a, (a < na)%nat -> negated a = (rhs a <? 0).
Definition shortage_cost (j : nat) : Z := if decide (2 * K + na <= j)%nat then -1 else 0.
Definition capacity : Z := sum_by (fun j => limit j + lower j) (seq 0 K).
(** The amounts traded, the lower bounds included. *)
Definition above (y : nat -> Z) (j : nat) : Z := y j + lower j.

Lemma excess_above y a : excess y a = bought (above y) a - sold (above y) a.
Proof.
  unfold excess. rewrite rhs_lower. assert (H : forall part : nat -> nat, sum_by (fun j => if decide (part j = a) then above y j else 0) (seq 0 K) =
    sum_by (fun j => if decide (part j = a) then y j else 0) (seq 0 K) + sum_by (fun j => if decide (part j = a) then lower j else 0) (seq 0 K)).
  { intros part. induction (seq 0 K) as [|j l IH]; [done|]. rewrite !sum_by_cons, IH. unfold above. case_decide; lia. }
  pose proof (H buy). pose proof (H sell). unfold bought, sold in *. lia.
Qed.
Lemma untouched_rhs a : touched a = false -> rhs a = 0.
Proof.
  intros Ht. rewrite rhs_lower. assert (Hz : forall j, (j < K)%nat -> buy j = a \/ sell j = a -> lower j = 0).
  { intros j Hj Ha. apply lower_books. intros Hb. apply touched_book in Hb. destruct Ha as [<- | <-]; intuition congruence. }
  unfold sold, bought. rewrite !sum_seq_zero; [done|intros j Hj; case_decide; [apply Hz; auto|done]..].
Qed.
Lemma above_bounds y (part : nat -> nat) a : within y -> 0 <= sum_by (fun j => if decide (part j = a) then above y j else 0) (seq 0 K) <= capacity.
Proof.
  intros Hy. split.
  - apply sum_by_nonneg, Forall_forall. intros j [_ Hj]%elem_of_seq. specialize (Hy j Hj). pose proof (lower_nonneg j). unfold above. case_decide; lia.
  - apply sum_by_le, Forall_forall. intros j [_ Hj]%elem_of_seq. specialize (Hy j Hj). pose proof (lower_nonneg j). unfold above. case_decide; lia.
Qed.
Lemma total_bought y : sum_by (bought y) (seq 0 na) = sum_by y (seq 0 K).
Proof.
  unfold bought. assert (Hl : Forall (fun j => (j < K)%nat) (seq 0 K)) by (apply Forall_forall; intros j Hj%elem_of_seq; lia).
  induction Hl as [|j l Hj Hl IH]; [by apply sum_by_zero, Forall_forall|]. rewrite sum_by_cons, <- IH.
  rewrite (sum_by_ext _ (fun a => sum_by (fun j => if decide (buy j = a) then y j else 0) l + (if decide (buy j = a) then y j else 0))) by
    (apply Forall_forall; intros a _; rewrite sum_by_cons; lia).
  assert (Hs : forall f g : nat -> Z, sum_by (fun a => f a + g a) (seq 0 na) = sum_by f (seq 0 na) + sum_by g (seq 0 na)).
  { intros f g. clear. induction (seq 0 na) as [|a l' IH']; [done|]. rewrite !sum_by_cons, IH'. lia. }
  rewrite Hs, (sum_at (fun a => if decide (buy j = a) then y j else 0) na (buy j)); [rewrite decide_True by done; lia|by apply buy_asset|].
  intros a _ Hne. by rewrite decide_False by congruence.
Qed.
Lemma lin_shortage x : lin n shortage_cost x = - sum_by (fun a => x (2 * K + na + a)%nat) (seq 0 na).
Proof.
  unfold lin. rewrite has_t, (sum_seq_app _ (2 * K + na) na), sum_seq_zero.
  - rewrite (sum_seq_ext na _ (fun a => -1 * x (2 * K + na + a)%nat)); [rewrite sum_by_scale; lia|]. intros a Ha. unfold shortage_cost.
    rewrite decide_True by lia. done.
  - intros j Hj. unfold shortage_cost. rewrite decide_False by lia. done.
Qed.
Lemma one_way_slack x a : (a < na)%nat -> one_way n tail head x -> x (2 * K + a)%nat = 0 \/ x (2 * K + na + a)%nat = 0.
Proof.
  intros Ha Hx. assert (Ts : tail (2 * K + a) = 0%nat) by (unfold tail; repeat case_decide; done || lia).
  assert (Hs : head (2 * K + a) = S a) by (unfold head; repeat case_decide; lia).
  assert (Tt : tail (2 * K + na + a) = S a) by (unfold tail; repeat case_decide; lia).
  assert (Ht : head (2 * K + na + a) = 0%nat) by (unfold head; repeat case_decide; done || lia).
  apply Hx; [lia|lia|congruence|congruence|rewrite Ts, Hs; lia].
Qed.
Lemma vertex_slack x a : (a < na)%nat -> feasible x -> one_way n tail head x ->
  0 <= x (2 * K + a)%nat <= capacity /\ 0 <= x (2 * K + na + a)%nat <= bought (above x) a.
Proof.
  intros Ha Hx Hone. pose proof (feasible_excess x a Ha Hx) as He. rewrite decide_False, excess_above in He by lia.
  pose proof (feasible_within x Hx) as Hw. pose proof (above_bounds x sell a Hw) as Bs. pose proof (above_bounds x buy a Hw) as Bb.
  fold (sold (above x) a) in Bs. fold (bought (above x) a) in Bb. pose proof Hx as [[Hnn _] _].
  pose proof (Hnn (2 * K + a)%nat). pose proof (Hnn (2 * K + na + a)%nat). destruct (one_way_slack x a Ha Hone); lia.
Qed.
Lemma feasibility_bounded : bounded_problem m n tail head start_entry start_value shortage_cost market_active capacity.
Proof.
  constructor.
  - intros d [Hd _] _. rewrite lin_shortage. enough (0 <= sum_by (fun a => d (2 * K + na + a)%nat) (seq 0 na)) by lia. apply sum_by_nonneg, Forall_forall. intros a _. apply Hd.
  - intros x Hx Hone. pose proof (feasible_within x Hx) as Hw. pose proof (fun a Ha => vertex_slack x a Ha Hx Hone) as Hslack. split.
    + intros j Hj. assert (Hlim : forall k, (k < K)%nat -> limit k <= capacity).
      { intros k Hk. transitivity (limit k + lower k); [pose proof (lower_nonneg k); lia|]. apply (sum_by_elem_le (fun j => limit j + lower j) _ k); [|apply elem_of_seq; lia].
        apply Forall_forall. intros i _. pose proof (limit_nonneg i). pose proof (lower_nonneg i). lia. }
      destruct (decide (j < K)%nat) as [HK|HK]; [pose proof (Hw j HK); pose proof (Hlim j HK); lia|].
      destruct (decide (j < 2 * K)%nat) as [H2K|H2K].
      { pose proof (feasible_book x (j - K) ltac:(lia) Hx) as Hb. replace (K + (j - K))%nat with j in Hb by lia. pose proof (Hlim (j - K)%nat ltac:(lia)). lia. }
      destruct (decide (j < 2 * K + na)%nat) as [Hs|Hs].
      * pose proof (proj1 (Hslack (j - 2 * K)%nat ltac:(lia))) as Hb. replace (2 * K + (j - 2 * K))%nat with j in Hb by lia. lia.
      * pose proof (proj2 (Hslack (j - (2 * K + na))%nat ltac:(lia))) as Hb. replace (2 * K + na + (j - (2 * K + na)))%nat with j in Hb by lia.
        pose proof (above_bounds x buy (j - (2 * K + na)) Hw) as Bb. fold (bought (above x) (j - (2 * K + na))) in Bb. lia.
    + rewrite lin_shortage. enough (0 <= sum_by (fun a => x (2 * K + na + a)%nat) (seq 0 na) <= capacity) by lia. split.
      * apply sum_by_nonneg, Forall_forall. intros a [_ Ha]%elem_of_seq. by apply Hslack.
      * transitivity (sum_by (bought (above x)) (seq 0 na)).
        { apply sum_by_le, Forall_forall. intros a [_ Ha]%elem_of_seq. by apply Hslack. }
        rewrite total_bought. apply sum_by_le, Forall_forall. intros j [_ Hj]%elem_of_seq. specialize (Hw j Hj). unfold above. lia.
Qed.
Lemma feasibility_fits : capacity < 2 ^ 126 -> fitting_problem m n tail head start_entry start_value shortage_cost market_active capacity 1.
Proof.
  intros Hcap. constructor; [apply feasibility_bounded|done| |].
  - intros β Q Hβ HQ Hc. exists [0]. split; [done|]. intros k t Hk Ht. apply list_elem_of_singleton. specialize (Hc k Hk). unfold tension, shortage_cost in Hc.
    case_decide as Hj; [|by replace (Q (head (β k))) with (Q (tail (β k))) in Ht by lia].
    assert (Eh : head (β k) = 0%nat) by (unfold head; repeat case_decide; done || lia). rewrite Eh, HQ in *.
    destruct (Z.leb_spec t 0), (Z.leb_spec t (Q (tail (β k)))); done || lia.
  - intros j Hj. unfold shortage_cost. case_decide; lia.
Qed.

(** The first tableau: the rows of the assets bought too much are negated and priced. *)
Definition start_weight (i : nat) : Z := if decide (i < na)%nat then if negated i then 1 else 0 else 0.
Lemma feasibility_start : tableau m n (S m) tail head start_entry start_value shortage_cost market_active
  start_entry start_value (fun j => shortage_cost j + sum_by (fun i => start_weight i * start_entry i j) (seq 0 m))
  (sum_by (fun i => start_weight i * start_value i) (seq 0 m)) start_potential start_basis.
Proof.
  apply tableau_priced.
  - apply start_network; [lia|]. intros; lia.
  - intros i Hi. apply start_active; [done|apply untouched_rhs].
  - intros i Hi. unfold start_value, sign. case_decide as Hia; [|rewrite Z.mul_1_l; apply limit_nonneg].
    rewrite negated_rhs by done. destruct (Z.ltb_spec (rhs i) 0); lia.
  - intros i Hi. unfold shortage_cost, start_basis, start_weight. destruct (decide (i < na)%nat) as [Hia|Hia].
    + destruct (negated i); [rewrite decide_True by lia; done|rewrite decide_False by lia; done].
    + destruct (lookup_lt_is_Some_2 books (i - na)) as [idx Hidx]; [unfold m in Hi; lia|]. rewrite Hidx. cbn. pose proof (book_range _ _ Hidx).
      rewrite decide_False by lia. done.
Qed.

(** The value of the objective is zero at the optimum when the trade is possible. *)
Lemma shortage_nonpos x : feasible x -> lin n shortage_cost x <= 0.
Proof.
  intros [[Hx _] _]. rewrite lin_shortage. enough (0 <= sum_by (fun a => x (2 * K + na + a)%nat) (seq 0 na)) by lia. apply sum_by_nonneg, Forall_forall. intros a _. apply Hx.
Qed.
Lemma no_shortage_balanced x : feasible x -> lin n shortage_cost x = 0 -> balanced x.
Proof.
  intros Hx Hz a Ha. rewrite (feasible_excess x a Ha Hx), decide_False by lia. rewrite lin_shortage in Hz. pose proof Hx as [[Hnn _] _].
  pose proof (sum_by_elem_le (fun a => x (2 * K + na + a)%nat) (seq 0 na) a) as Hle. cbn beta in Hle.
  assert (x (2 * K + na + a)%nat <= 0) by (rewrite <- (Z.opp_involutive (sum_by _ _)), Hz in Hle; apply Hle; [apply Forall_forall; intros; apply Hnn|apply elem_of_seq; lia]).
  pose proof (Hnn (2 * K + a)%nat). lia.
Qed.
Lemma balanced_no_shortage y : within y -> balanced y -> feasible (extend y) /\ lin n shortage_cost (extend y) = 0.
Proof.
  intros Hw Hb. split; [by apply extend_feasible; [done|apply untouched_rhs|]|]. rewrite lin_shortage. rewrite sum_seq_zero; [done|]. intros a Ha.
  unfold extend. rewrite !decide_False by lia. replace (2 * K + na + a - (2 * K + na))%nat with a by lia. specialize (Hb a Ha). lia.
Qed.
End Feasibility.
End Market.

(** ** The orderbooks of [n] assets *)
Section Columns.
Variable n : Z.
Hypothesis n_range : 2 <= n <= MAX_INT_ASSETS.
Definition assets : nat := Z.to_nat n.
Definition orderbooks : nat := Z.to_nat (n * (n - 1)).
Definition sell_of (j : nat) : nat := Z.to_nat (sellAsset (category_from_idx (Z.of_nat j) n)).
Definition buy_of (j : nat) : nat := Z.to_nat (buyAsset (category_from_idx (Z.of_nat j) n)).

Lemma orderbook_category j : (j < orderbooks)%nat ->
  category_from_idx (Z.of_nat j) n = mkOfferCategory (Z.of_nat (sell_of j)) (Z.of_nat (buy_of j)) SELL /\
  category_to_idx (mkOfferCategory (Z.of_nat (sell_of j)) (Z.of_nat (buy_of j)) SELL) n = Ok (Z.of_nat j) /\
  (sell_of j < assets)%nat /\ (buy_of j < assets)%nat /\ sell_of j <> buy_of j.
Proof.
  unfold orderbooks, assets. intros Hj. destruct (category_of_idx n (Z.of_nat j) n_range ltac:(lia)) as ([Hs Hb] & Hv & Hi).
  apply validate_category_spec in Hv as (Hne & Hsn & Hbn & Hty).
  assert (E : category_from_idx (Z.of_nat j) n = mkOfferCategory (Z.of_nat (sell_of j)) (Z.of_nat (buy_of j)) SELL).
  { unfold sell_of, buy_of. destruct (category_from_idx (Z.of_nat j) n) as [s b t]. cbn in *. by rewrite !Z2Nat.id, Hty by done. }
  split; [done|]. rewrite <- E. split; [done|]. unfold sell_of, buy_of. lia.
Qed.
Lemma category_column s b : (s < assets)%nat -> (b < assets)%nat -> s <> b ->
  exists j, (j < orderbooks)%nat /\ category_to_idx (mkOfferCategory (Z.of_nat s) (Z.of_nat b) SELL) n = Ok (Z.of_nat j) /\
    sell_of j = s /\ buy_of j = b.
Proof.
  unfold assets, orderbooks. intros Hs Hb Hne.
  destruct (valid_category_idx n (mkOfferCategory (Z.of_nat s) (Z.of_nat b) SELL)) as (i & Hi & Hr & Hc); [done|split; cbn; lia| |].
  { apply validate_category_spec. cbn. repeat split; lia. }
  exists (Z.to_nat i). rewrite Z2Nat.id by lia. split; [lia|]. split; [done|]. unfold sell_of, buy_of. rewrite Z2Nat.id, Hc by lia. cbn. lia.
Qed.
Lemma column_unique j j' : (j < orderbooks)%nat -> (j' < orderbooks)%nat -> sell_of j = sell_of j' -> buy_of j = buy_of j' -> j = j'.
Proof.
  intros Hj Hj' Es Eb. destruct (orderbook_category j Hj) as (_ & E & _), (orderbook_category j' Hj') as (_ & E' & _).
  rewrite Es, Eb, E' in E. injection E. lia.
Qed.
Lemma orderbooks_count : get_num_orderbooks_by_asset_count n = Z.of_nat orderbooks.
Proof. rewrite count_orderbooks by (unfold MAX_INT_ASSETS in *; lia). unfold orderbooks. nia. Qed.
End Columns.
