(* ===== verification/TaxFree.v ===== *)
(** * Maximising the traded volume (src/simplex/simplex.h, simplex.cc)

    [TaxFreeSimplex]: given how much each orderbook may trade at most, trade as much as
    possible while no asset is bought more than it is sold. *)
From stdpp Require Import base list strings sets sorting relations.
From S2P Require Import Prelude Types Offers NetworkLP MarketNetwork BitRow ObjectiveRow Simplex.
Import Category.

Module TaxFreeSimplex.
Record t := mk {
  base : TUSimplex.t;
  num_assets : Z;
  num_orderbooks : Z;
  start_orderbook_slack_vars : Z;
  start_asset_slack_vars : Z;
  solution : list Z
}.
Implicit Types x : t.
Definition with_base (b : TUSimplex.t) x : t :=
  mk b (num_assets x) (num_orderbooks x) (start_orderbook_slack_vars x) (start_asset_slack_vars x) (solution x).
Definition with_solution (sol : list Z) x : t :=
  mk (base x) (num_assets x) (num_orderbooks x) (start_orderbook_slack_vars x) (start_asset_slack_vars x) sol.
Definition sell_category (sell buy : Z) : OfferCategory := mkOfferCategory sell buy SELL.

(** The loop over [buy] of [add_asset_constraint]; the columns are [uint16_t]. *)
Fixpoint asset_row (num_assets sell : Z) (buys : list Z) (row : BitcompressedRow.t) : result BitcompressedRow.t :=
  match buys with
  | [] => Ok row
  | buy :: buys =>
      if buy =? sell then asset_row num_assets sell buys row else
        let* sell_buy_idx := category_to_idx (sell_category sell buy) num_assets in
        let* buy_sell_idx := category_to_idx (sell_category buy sell) num_assets in
        asset_row num_assets sell buys (BitcompressedRow.set_pos (u16 buy_sell_idx) (BitcompressedRow.set_neg (u16 sell_buy_idx) row))
  end.
Definition add_asset_constraint (sell : Z) x : result t :=
  let s := base x in
  let row := BitcompressedRow.set_pos (u16 (start_asset_slack_vars x + sell)) (BitcompressedRow.new (TUSimplex.num_cols s)) in
  let* row := asset_row (num_assets x) sell (seqZ 0 (num_assets x)) row in
  Ok (with_base (TUSimplex.mk (TUSimplex.num_cols s) (TUSimplex.objective_row s) (TUSimplex.constraint_rows s ++ [row])
    (TUSimplex.active_cols s) (TUSimplex.active_basis s ++ [u16 (start_asset_slack_vars x + sell)])) x).
Fixpoint add_asset_constraints (sells : list Z) x : result t :=
  match sells with
  | [] => Ok x
  | sell :: sells => let* next := add_asset_constraint sell x in add_asset_constraints sells next
  end.
(** The constructor; the number of columns is a [uint16_t]. *)
Definition new (num_assets : Z) : result t :=
  let num_orderbooks := get_num_orderbooks_by_asset_count num_assets in
  add_asset_constraints (seqZ 0 num_assets)
    (mk (TUSimplex.new (u16 (u32 (num_orderbooks * 2) + num_assets))) num_assets num_orderbooks num_orderbooks (num_orderbooks + num_orderbooks) []).

Definition activate (col : Z) (active_cols : list bool) : list bool := vec_update (fun _ => true) (Z.to_nat col) active_cols.
Definition add_orderbook_constraint (value : Z) (category : OfferCategory) x : result t :=
  let s := base x in
  let row := BitcompressedRow.set_value value (BitcompressedRow.new (TUSimplex.num_cols s)) in
  let* idx := category_to_idx category (num_assets x) in
  let slack := start_orderbook_slack_vars x + idx in
  let row := BitcompressedRow.set_pos (u16 slack) (BitcompressedRow.set_pos (u16 idx) row) in
  let active_cols := activate slack (activate idx (TUSimplex.active_cols s)) in
  let active_cols := activate (start_asset_slack_vars x + buyAsset category) (activate (start_asset_slack_vars x + sellAsset category) active_cols) in
  Ok (with_base (TUSimplex.mk (TUSimplex.num_cols s) (ObjectiveRow.set_idx idx 1 (TUSimplex.objective_row s)) (TUSimplex.constraint_rows s ++ [row])
    active_cols (TUSimplex.active_basis s ++ [u16 slack])) x).

(** ** [construct_solution] *)
Definition offercmp (a b : OfferCategory) : bool :=
  if sellAsset a =? sellAsset b then buyAsset a <? buyAsset b else sellAsset a <? sellAsset b.
Fixpoint set_insert (c : OfferCategory) (l : list OfferCategory) : list OfferCategory :=
  match l with
  | [] => [c]
  | d :: l' => if offercmp c d then c :: l else if offercmp d c then d :: set_insert c l' else l
  end.
(** [unsolved_var_map]: a [std::map] from assets to sets, in the order of the assets. *)
Fixpoint map_insert (asset : Z) (c : OfferCategory) (m : list (Z * list OfferCategory)) : list (Z * list OfferCategory) :=
  match m with
  | [] => [(asset, [c])]
  | (a, l) :: m' =>
      if asset <? a then (asset, [c]) :: m
      else if a <? asset then (a, l) :: map_insert asset c m' else (a, set_insert c l) :: m'
  end.
Definition solution_at (solution : list Z) (idx : Z) : Z := default 0 (solution !! Z.to_nat idx).

(** A sum over the assets other than [asset] and [other]. *)
Fixpoint flow (num_assets asset other : Z) (category : Z -> OfferCategory) (sign : Z) (solution : list Z) (assets : list Z) (inflow : Z) : result Z :=
  match assets with
  | [] => Ok inflow
  | a :: assets =>
      if negb (a =? asset) && negb (a =? other) then
        let* idx := category_to_idx (category a) num_assets in
        flow num_assets asset other category sign solution assets (i128 (inflow + sign * solution_at solution idx))
      else flow num_assets asset other category sign solution assets inflow
  end.
(** One pass over the map: what is left of it, the solution, and whether there was progress. *)
Fixpoint peel_pass (num_assets : Z) (m : list (Z * list OfferCategory)) (solution : list Z) : result (list (Z * list OfferCategory) * list Z * bool) :=
  match m with
  | [] => Ok ([], solution, false)
  | (asset, [category]) :: m =>
      let* inflow := flow num_assets asset (sellAsset category) (fun a => sell_category a asset) 1 solution (seqZ 0 num_assets) 0 in
      let* inflow := flow num_assets asset (buyAsset category) (fun a => sell_category asset a) (-1) solution (seqZ 0 num_assets) inflow in
      let* solved_idx := category_to_idx category num_assets in
      let* (m, solution, _) := peel_pass num_assets m (vec_update (fun _ => inflow) (Z.to_nat solved_idx) solution) in
      Ok (m, solution, true)
  | entry :: m =>
      let* (m, solution, made_progress) := peel_pass num_assets m solution in
      Ok (entry :: m, solution, made_progress)
  end.
(** Every pass with progress shortens the map: [fuel] is its length. *)
Fixpoint peel (fuel : nat) (num_assets : Z) (m : list (Z * list OfferCategory)) (solution : list Z) : result (list Z) :=
  match m, fuel with
  | [], _ => Ok solution
  | _, O => Ok solution
  | _, S fuel =>
      let* (m, solution, made_progress) := peel_pass num_assets m solution in
      if made_progress : bool then peel fuel num_assets m solution else Throw "stuck"
  end.

(** The columns of the basis, one row at a time. *)
Fixpoint basis_solution (num_orderbooks : Z) (rows : list BitcompressedRow.t) (active_basis : list Z) (solution : list Z) (solved : list bool) : list Z * list bool :=
  match active_basis with
  | [] => (solution, solved)
  | col :: active_basis =>
      let '(row, rows) := match rows with [] => (BitcompressedRow.new 0, []) | row :: rows => (row, rows) end in
      if col <? num_orderbooks
      then basis_solution num_orderbooks rows active_basis (vec_update (fun _ => BitcompressedRow.row_value row) (Z.to_nat col) solution)
        (vec_update (fun _ => true) (Z.to_nat col) solved)
      else basis_solution num_orderbooks rows active_basis solution solved
  end.
Definition unsolved_vars (num_assets : Z) (cols : list Z) (solved : list bool) : list (Z * list OfferCategory) :=
  foldl (fun m col => if default false (solved !! Z.to_nat col) then m else
    let category := category_from_idx col num_assets in
    map_insert (buyAsset category) category (map_insert (sellAsset category) category m)) [] cols.
Definition construct_solution x : result t :=
  let s := base x in
  let solved := (fun col => negb (default false (TUSimplex.active_cols s !! Z.to_nat col))) <$> seqZ 0 (num_orderbooks x) in
  let '(solution, solved) := basis_solution (num_orderbooks x) (TUSimplex.constraint_rows s) (TUSimplex.active_basis s)
    (replicate (Z.to_nat (num_orderbooks x)) 0) solved in
  let m := unsolved_vars (num_assets x) (seqZ 0 (num_orderbooks x)) solved in
  let* solution := peel (length m) (num_assets x) m solution in
  Ok (with_solution solution x).

(** [solve], for at most [fuel] pivots. *)
Definition solve (fuel : nat) x : option (result t) :=
  (fun r => let* b := r in construct_solution (with_base b x)) <$> TUSimplex.run_simplex fuel (base x).
Definition get_solution (category : OfferCategory) x : result Z :=
  let* idx := category_to_idx category (num_assets x) in Ok (solution_at (solution x) idx).
End TaxFreeSimplex.
Import TaxFreeSimplex.

(** A solver with its constraints. *)
Fixpoint add_constraints (l : list (OfferCategory * Z)) (x : TaxFreeSimplex.t) : result TaxFreeSimplex.t :=
  match l with
  | [] => Ok x
  | (category, value) :: l => let* x := add_orderbook_constraint value category x in add_constraints l x
  end.
Definition build (num_assets : Z) (l : list (OfferCategory * Z)) : result TaxFreeSimplex.t :=
  let* x := new num_assets in add_constraints l x.

(** What each orderbook may trade, zero when nothing was asked for. *)
Fixpoint limit_of (l : list (nat * Z)) (j : nat) : Z :=
  match l with
  | [] => 0
  | (idx, v) :: l => if decide (idx = j) then v else limit_of l j
  end.
Lemma limit_of_out l j : j ∉ l.*1 -> limit_of l j = 0.
Proof.
  induction l as [|[idx v] l IH]; [done|]. cbn. intros [Hne Hn]%not_elem_of_cons. rewrite decide_False by congruence. by apply IH.
Qed.
Lemma limit_of_lookup l k j v : NoDup l.*1 -> l !! k = Some (j, v) -> limit_of l j = v.
Proof.
  revert k. induction l as [|[idx w] l IH]; intros k Hnd Hk; [done|]. cbn in Hnd. apply NoDup_cons in Hnd as [Hn Hnd].
  destruct k as [|k]; cbn in *; [injection Hk as <- <-; by rewrite decide_True|]. rewrite decide_False; [by apply (IH k)|].
  intros ->. apply Hn, list_elem_of_fmap. exists (j, v). split; [done|by apply list_elem_of_lookup_2 in Hk].
Qed.
Lemma limit_of_nonneg l j : Forall (fun p => 0 <= snd p) l -> 0 <= limit_of l j.
Proof. induction 1 as [|[idx v] l Hv Hl IH]; cbn; [done|]. by case_decide. Qed.
Lemma limit_of_total l k : NoDup l.*1 -> Forall (fun p => (fst p < k)%nat) l -> sum_by (limit_of l) (seq 0 k) = sum_by snd l.
Proof.
  intros Hnd Hr. induction Hr as [|[idx v] l Hi Hl IH]; [by apply sum_by_zero, Forall_true|]. cbn in Hnd, Hi. apply NoDup_cons in Hnd as [Hn Hnd].
  rewrite sum_by_cons, <- IH by done. rewrite (sum_by_point (limit_of l) (limit_of ((idx, v) :: l)) (seq 0 k) idx).
  - cbn. rewrite decide_True by done. rewrite (limit_of_out l idx) by done. lia.
  - apply NoDup_seq.
  - apply elem_of_seq. lia.
  - intros j _ Hj. cbn. by rewrite decide_False by congruence.
Qed.

(** ** Building the tableau *)
Section Build.
Variable n : Z.
Hypothesis n_range : 2 <= n <= 126.
Let na := assets n.
Let K := orderbooks n.
Abbreviation N := (2 * K + na + 0)%nat.
Abbreviation sell := (sell_of n).
Abbreviation buy := (buy_of n).
Let big : 2 <= n <= MAX_INT_ASSETS.
Proof. unfold MAX_INT_ASSETS. lia. Qed.
Lemma asset_count : Z.of_nat na = n.
Proof. unfold na, assets. lia. Qed.
Lemma columns_u16 : Z.of_nat N < 2 ^ 16.
Proof. unfold K, na, orderbooks, assets. nia. Qed.
Lemma column_u16 j : (j < N)%nat -> u16 (Z.of_nat j) = Z.of_nat j.
Proof. intros Hj. pose proof columns_u16. unfold u16. rewrite Z.mod_small by lia. done. Qed.
Lemma column_word j : (j < N)%nat -> (j < words_for N * 32)%nat.
Proof. pose proof (words_enough N). lia. Qed.
Lemma assets_seqZ k : seqZ 0 (Z.of_nat k) = Z.of_nat <$> seq 0 k.
Proof. unfold seqZ. rewrite Nat2Z.id. apply list_fmap_ext. intros i x _. lia. Qed.

(** *** The rows of the assets *)
Section AssetRow.
Variable a : nat.
Hypothesis a_asset : (a < na)%nat.
Definition asset_entry (b j : nat) : Z :=
  if decide (j < K)%nat then
    if decide (buy j = a /\ (sell j < b)%nat) then 1 else if decide (sell j = a /\ (buy j < b)%nat) then -1 else 0
  else if decide (j = 2 * K + a)%nat then 1 else 0.
Lemma asset_row_spec k : forall b row, (b + k = na)%nat -> row_wf (words_for N) row -> (forall j, row_entry row j = asset_entry b j) ->
  exists row', asset_row n (Z.of_nat a) (Z.of_nat <$> seq b k) row = Ok row' /\ row_wf (words_for N) row' /\
    (forall j, row_entry row' j = asset_entry na j) /\ BitcompressedRow.row_value row' = BitcompressedRow.row_value row.
Proof.
  induction k as [|k IH]; intros b row Hb Hw He; cbn [seq fmap list_fmap asset_row].
  { assert (b = na) as -> by lia. by exists row. }
  assert (Hsame : b = a -> forall j, asset_entry (S b) j = asset_entry b j).
  { intros -> j. unfold asset_entry. destruct (decide (j < K)%nat) as [Hj|]; [|done].
    destruct (orderbook_category n big j Hj) as (_ & _ & _ & _ & Hne). repeat case_decide; done || lia. }
  destruct (Z.eqb_spec (Z.of_nat b) (Z.of_nat a)) as [E|E].
  { apply IH; [lia|done|]. intros j. by rewrite Hsame by lia. }
  destruct (category_column n big a b) as (j1 & Hj1 & E1 & Es1 & Eb1); [done|unfold na in *; lia|lia|].
  destruct (category_column n big b a) as (j2 & Hj2 & E2 & Es2 & Eb2); [unfold na in *; lia|done|lia|].
  unfold sell_category. rewrite E1, E2. cbn [result_bind]. rewrite !column_u16 by (unfold K; lia).
  assert (Hz1 : row_entry row j1 = 0).
  { rewrite He. unfold asset_entry. rewrite Es1, Eb1, decide_True by done. rewrite !decide_False by lia. done. }
  destruct (set_neg_entries _ row j1 Hw (column_word j1 ltac:(unfold K; lia)) Hz1) as [W1 R1].
  assert (Hz2 : row_entry (BitcompressedRow.set_neg (Z.of_nat j1) row) j2 = 0).
  { rewrite R1, He. unfold asset_entry. rewrite Es2, Eb2, decide_False by congruence. rewrite decide_True by done.
    rewrite !decide_False by lia. done. }
  destruct (set_pos_entries _ _ j2 W1 (column_word j2 ltac:(unfold K; lia)) Hz2) as [W2 R2].
  destruct (IH (S b) _ ltac:(lia) W2) as (row' & Er & Hrest).
  { intros j. rewrite R2, R1, He. destruct (decide (j = j2)) as [->|N2].
    { unfold asset_entry. rewrite Es2, Eb2, !decide_True by (done || lia). done. }
    destruct (decide (j = j1)) as [->|N1].
    { unfold asset_entry. rewrite Es1, Eb1, decide_True by done. rewrite decide_False by lia. rewrite decide_True by lia. done. }
    unfold asset_entry. destruct (decide (j < K)%nat) as [Hj|]; [|done].
    assert (D1 : ~ (sell j = a /\ buy j = b)) by (intros [? ?]; apply N1, (column_unique n big); done || congruence).
    assert (D2 : ~ (sell j = b /\ buy j = a)) by (intros [? ?]; apply N2, (column_unique n big); done || congruence).
    repeat case_decide; done || lia. }
  exists row'. rewrite Er. exact (conj eq_refl Hrest).
Qed.
Lemma asset_entry_coefficient books j : (j < N)%nat -> asset_entry na j = coefficient na K sell buy books a j.
Proof.
  intros Hj. unfold asset_entry, coefficient. rewrite (decide_True (P := (a < na)%nat)) by done.
  destruct (decide (j < K)%nat) as [HK|HK].
  - destruct (orderbook_category n big j HK) as (_ & _ & Hs & Hb & Hne). fold na in Hs, Hb. repeat case_decide; lia.
  - rewrite (decide_True (P := (j < 2 * K + na)%nat)) by lia. repeat case_decide; lia.
Qed.
End AssetRow.

(** A row for the tableau. *)
Definition row_is books (i : nat) (r : BitcompressedRow.t) (v : Z) : Prop :=
  good_row N r /\ (forall j, (j < N)%nat -> row_entry r j = coefficient na K sell buy books i j) /\ BitcompressedRow.row_value r = v.
Lemma add_asset_spec (a : nat) x : (a < na)%nat -> num_assets x = n -> start_asset_slack_vars x = Z.of_nat (2 * K) ->
  TUSimplex.num_cols (base x) = Z.of_nat N ->
  exists row, (forall books, row_is books a row 0) /\
    add_asset_constraint (Z.of_nat a) x = Ok (with_base (TUSimplex.mk (Z.of_nat N) (TUSimplex.objective_row (base x)) (TUSimplex.constraint_rows (base x) ++ [row])
      (TUSimplex.active_cols (base x)) (TUSimplex.active_basis (base x) ++ [Z.of_nat (2 * K + a)])) x).
Proof.
  intros Ha En Es Ec. unfold add_asset_constraint. rewrite En, Es, Ec. rewrite <- Nat2Z.inj_add, column_u16 by lia.
  destruct (new_entries N columns_u16) as [W0 R0].
  destruct (set_pos_entries _ _ (2 * K + a) W0 (column_word (2 * K + a) ltac:(lia)) (R0 _)) as [W1 R1].
  replace (seqZ 0 n) with (Z.of_nat <$> seq 0 na) by by rewrite <- assets_seqZ, asset_count.
  destruct (asset_row_spec a Ha na 0 _ eq_refl W1) as (row & Er & Wr & Rr & Vr).
  { intros j. rewrite R1, R0. unfold asset_entry. repeat case_decide; lia. }
  exists row. rewrite Er. split; [|done]. intros books. split; [split; [done|]|split].
  - intros j Hj. rewrite Rr. unfold asset_entry. rewrite !decide_False by lia. done.
  - intros j Hj. rewrite Rr. by apply asset_entry_coefficient.
  - rewrite Vr. done.
Qed.
Lemma add_assets_spec k : forall a x, (a + k = na)%nat -> num_assets x = n -> start_asset_slack_vars x = Z.of_nat (2 * K) ->
  TUSimplex.num_cols (base x) = Z.of_nat N ->
  exists rows, length rows = k /\ (forall i r, rows !! i = Some r -> forall books, row_is books (a + i) r 0) /\
    add_asset_constraints (Z.of_nat <$> seq a k) x = Ok (with_base (TUSimplex.mk (Z.of_nat N) (TUSimplex.objective_row (base x)) (TUSimplex.constraint_rows (base x) ++ rows)
      (TUSimplex.active_cols (base x)) (TUSimplex.active_basis (base x) ++ ((fun i => Z.of_nat (2 * K + i)) <$> seq a k))) x).
Proof.
  induction k as [|k IH]; intros a x Ha En Es Ec; cbn [seq fmap list_fmap add_asset_constraints].
  - exists []. split; [done|]. split; [intros i r Hi; by rewrite lookup_nil in Hi|]. rewrite !app_nil_r, <- Ec. by destruct x as [[] ?????].
  - destruct (add_asset_spec a x ltac:(lia) En Es Ec) as (row & Hrow & Er). rewrite Er. cbn [result_bind].
    match goal with |- context [add_asset_constraints _ ?y] => destruct (IH (S a) y ltac:(lia) En Es eq_refl) as (rows & Hl & Hrows & E') end.
    exists (row :: rows). split; [cbn; lia|]. split.
    + intros [|i] r Hi books; [injection Hi as <-; rewrite Nat.add_0_r; apply Hrow|]. replace (a + S i)%nat with (S a + i)%nat by lia. by apply (Hrows i).
    + etransitivity; [exact E'|]. cbn. by rewrite <- !app_assoc.
Qed.

(** *** The solver with the constraints [l] *)
Record built (l : list (nat * Z)) x : Prop := {
  bl_assets : num_assets x = n;
  bl_orderbooks : num_orderbooks x = Z.of_nat K;
  bl_books : start_orderbook_slack_vars x = Z.of_nat K;
  bl_slacks : start_asset_slack_vars x = Z.of_nat (2 * K);
  bl_cols : TUSimplex.num_cols (base x) = Z.of_nat N;
  bl_rows : length (TUSimplex.constraint_rows (base x)) = (na + length l)%nat;
  bl_row : forall i, (i < na + length l)%nat -> row_is l.*1 i (row_at (base x) i) (if decide (i < na)%nat then 0 else default 0 (l.*2 !! (i - na)%nat));
  bl_active_length : length (TUSimplex.active_cols (base x)) = N;
  bl_active : forall j, (j < N)%nat -> active (base x) j = market_active na K sell buy l.*1 j;
  bl_basis_length : length (TUSimplex.active_basis (base x)) = (na + length l)%nat;
  bl_basis_nonneg : Forall (fun c => 0 <= c) (TUSimplex.active_basis (base x));
  bl_basis : forall i, (i < na + length l)%nat -> basis (base x) i = start_basis na K l.*1 (fun _ => false) i;
  bl_costs_length : length (ObjectiveRow.matrix_entries (TUSimplex.objective_row (base x))) = N;
  bl_costs : forall j, (j < N)%nat -> objective (base x) j = if decide (j ∈ l.*1) then 1 else 0;
  bl_value : objective_value (base x) = 0
}.
Lemma new_built : exists x, new n = Ok x /\ built [] x.
Proof.
  pose proof (orderbooks_count n big) as EK. fold K in EK. unfold new. rewrite EK.
  assert (Ec : u16 (u32 (Z.of_nat K * 2) + n) = Z.of_nat N).
  { pose proof columns_u16. rewrite <- asset_count. unfold u16, u32. rewrite (Z.mod_small (_ * 2)), Z.mod_small by lia. lia. }
  rewrite Ec. replace (seqZ 0 n) with (Z.of_nat <$> seq 0 na) by by rewrite <- assets_seqZ, asset_count.
  match goal with |- context [add_asset_constraints _ ?y] => destruct (add_assets_spec na 0 y eq_refl eq_refl ltac:(cbn; lia) eq_refl) as (rows & Hl & Hrows & E') end.
  eexists. split; [exact E'|]. cbn [base with_base TUSimplex.constraint_rows TUSimplex.new app] in *. clear E'. constructor; cbn [num_assets num_orderbooks with_base base
    TUSimplex.num_cols TUSimplex.constraint_rows TUSimplex.active_cols TUSimplex.active_basis start_orderbook_slack_vars start_asset_slack_vars length fmap list_fmap app TUSimplex.new]; rewrite ?Nat.add_0_r; try done.
  - lia.
  - intros i Hi. rewrite decide_True by done. unfold row_at. cbn [base with_base TUSimplex.constraint_rows app TUSimplex.new].
    destruct (lookup_lt_is_Some_2 rows i) as [r Hr]; [lia|]. rewrite Hr. by apply (Hrows i r Hr).
  - rewrite length_replicate. lia.
  - intros j Hj. unfold active. cbn [base with_base TUSimplex.active_cols TUSimplex.new]. rewrite lookup_replicate_2 by lia.
    cbn. unfold market_active, touched. symmetry. repeat case_decide; try done; apply bool_decide_eq_false_2, not_elem_of_nil.
  - by rewrite length_fmap, length_seq.
  - apply Forall_fmap, Forall_true. intros i. cbn. lia.
  - intros i Hi. unfold basis, start_basis. cbn [base with_base TUSimplex.active_basis TUSimplex.new app]. rewrite list_lookup_fmap, lookup_seq_lt by done.
    cbn. rewrite decide_True by done. lia.
  - cbn. rewrite length_replicate. lia.
  - intros j Hj. unfold objective. cbn [base with_base TUSimplex.objective_row TUSimplex.new]. by rewrite cost_new.
Qed.

Lemma activate_lookup col l j : (j < length l)%nat ->
  default false (activate (Z.of_nat col) l !! j) = bool_decide (j = col) || default false (l !! j).
Proof.
  intros Hj. unfold activate, vec_update. rewrite Nat2Z.id, list_lookup_alter. destruct (lookup_lt_is_Some_2 l j Hj) as [b Hb].
  destruct (decide (col = j)) as [->|Hne]; [by rewrite Hb, bool_decide_eq_true_2|]. by rewrite bool_decide_eq_false_2 by congruence.
Qed.
Lemma length_activate col l : length (activate col l) = length l.
Proof. unfold activate, vec_update. by rewrite length_alter. Qed.

Lemma book_row_is (l : list (nat * Z)) idx v : (idx < K)%nat ->
  row_is (l.*1 ++ [idx]) (na + length l) (BitcompressedRow.set_pos (Z.of_nat (K + idx)) (BitcompressedRow.set_pos (Z.of_nat idx)
    (BitcompressedRow.set_value v (BitcompressedRow.new (Z.of_nat N))))) v.
Proof.
  intros Hi. destruct (new_entries N columns_u16) as [W0 R0]. destruct (set_value_entries _ _ v W0) as [W1 R1].
  destruct (set_pos_entries _ _ idx W1 (column_word idx ltac:(lia)) ltac:(by rewrite R1, R0)) as [W2 R2].
  destruct (set_pos_entries _ _ (K + idx) W2 (column_word (K + idx) ltac:(lia))) as [W3 R3].
  { rewrite R2, decide_False, R1, R0 by lia. done. }
  split; [split; [done|]|split; [|done]].
  - intros j Hj. rewrite R3, R2, R1, R0. rewrite !decide_False by lia. done.
  - intros j Hj. rewrite R3, R2, R1, R0. unfold coefficient. rewrite (decide_False (P := (na + length l < na)%nat)) by lia.
    replace (na + length l - na)%nat with (length l.*1) by (rewrite length_fmap; lia). rewrite list_lookup_middle by done.
    repeat case_decide; done || lia.
Qed.
Lemma add_book_built l x idx v : built l x -> (idx < K)%nat -> idx ∉ l.*1 ->
  exists x', add_orderbook_constraint v (category_from_idx (Z.of_nat idx) n) x = Ok x' /\ built (l ++ [(idx, v)]) x'.
Proof.
  intros [X1 X1' X2 X3 X4 X5 X6 X7 X8 X9 X9' X10 X11 X12 X13] Hi Hn. destruct (orderbook_category n big idx Hi) as (Ec & Ei & Hs & Hb & _).
  fold na in Hs, Hb. unfold add_orderbook_constraint. rewrite Ec, X1, Ei, X2, X3, X4. cbn [result_bind sellAsset buyAsset].
  rewrite <- !Nat2Z.inj_add, !column_u16 by lia. eexists. split; [done|].
  constructor; rewrite ?fmap_app, ?length_app; cbn [with_base num_assets num_orderbooks base start_orderbook_slack_vars start_asset_slack_vars
    TUSimplex.num_cols TUSimplex.constraint_rows TUSimplex.active_cols TUSimplex.active_basis TUSimplex.objective_row length fmap list_fmap fst snd];
    rewrite ?length_app; cbn [length]; try (done || lia).
  - intros i Hlt. unfold row_at. cbn [with_base base TUSimplex.constraint_rows]. destruct (decide (i < na + length l)%nat) as [Hil|Hil].
    + rewrite lookup_app_l by lia. destruct (X6 i Hil) as (H1 & H2 & H3). unfold row_at in *. split; [done|]. split.
      * intros j Hj. rewrite H2 by done. unfold coefficient. destruct (decide (i < na)%nat); [done|].
        by rewrite lookup_app_l by (rewrite length_fmap; lia).
      * rewrite H3. destruct (decide (i < na)%nat); [done|]. by rewrite lookup_app_l by (rewrite length_fmap; lia).
    + assert (i = na + length l)%nat as -> by lia. rewrite (list_lookup_middle _ [] _) by done. rewrite decide_False by lia.
      replace (na + length l - na)%nat with (length l.*2) by (rewrite length_fmap; lia). rewrite list_lookup_middle by done.
      cbn [default from_option id]. by apply book_row_is.
  - by rewrite !length_activate.
  - intros j Hj. unfold active. cbn [with_base base TUSimplex.active_cols]. rewrite !activate_lookup by (rewrite ?length_activate; lia).
    fold (active (base x) j). rewrite X8 by done. unfold market_active, touched. rewrite !existsb_app. cbn [existsb]. rewrite !orb_false_r.
    assert (Hel : forall k, bool_decide (k ∈ l.*1 ++ [idx]) = bool_decide (k = idx) || bool_decide (k ∈ l.*1)).
    { intros k. destruct (decide (k = idx)) as [->|Hk]; [rewrite (bool_decide_eq_true_2 (idx = idx)) by done; apply bool_decide_eq_true_2, elem_of_app; right; by left|].
      rewrite (bool_decide_eq_false_2 (k = idx)) by done. apply bool_decide_ext. rewrite elem_of_app, list_elem_of_singleton. tauto. }
    rewrite !Hel. destruct (decide (j < K)%nat); [|destruct (decide (j < 2 * K)%nat); [|rewrite !(decide_True (P := (j < 2 * K + na)%nat)) by lia]].
    + rewrite (bool_decide_eq_false_2 (j = _ + buy idx)%nat), (bool_decide_eq_false_2 (j = _ + sell idx)%nat), (bool_decide_eq_false_2 (j = (K + idx)%nat)) by lia. done.
    + rewrite (bool_decide_eq_false_2 (j = _ + buy idx)%nat), (bool_decide_eq_false_2 (j = _ + sell idx)%nat), (bool_decide_eq_false_2 (j = idx)) by lia.
      cbn [orb]. f_equal. apply bool_decide_ext. lia.
    + rewrite (bool_decide_eq_false_2 (j = idx)), (bool_decide_eq_false_2 (j = (K + idx)%nat)) by lia. cbn [orb].
      rewrite (bool_decide_ext (j = _ + buy idx)%nat (buy idx = (j - 2 * K)%nat)), (bool_decide_ext (j = _ + sell idx)%nat (sell idx = (j - 2 * K)%nat)) by lia.
      destruct (existsb _ _), (bool_decide (sell idx = _)), (bool_decide (buy idx = _)); done.
  - apply Forall_app. split; [done|]. apply Forall_singleton. lia.
  - intros i Hlt. unfold basis. cbn [with_base base TUSimplex.active_basis]. unfold start_basis. destruct (decide (i < na + length l)%nat) as [Hil|Hil].
    + rewrite lookup_app_l by lia. fold (basis (base x) i). rewrite X10 by done. unfold start_basis. destruct (decide (i < na)%nat); [done|].
      by rewrite lookup_app_l by (rewrite length_fmap; lia).
    + assert (i = na + length l)%nat as -> by lia. rewrite (list_lookup_middle _ [] _) by done. rewrite decide_False by lia.
      replace (na + length l - na)%nat with (length l.*1) by (rewrite length_fmap; lia). rewrite list_lookup_middle by done. cbn. lia.
  - by rewrite length_set_idx.
  - intros j Hj. unfold objective. cbn [with_base base TUSimplex.objective_row]. rewrite cost_set_idx by lia. fold (objective (base x) j). rewrite X12 by done.
    destruct (decide (j = idx)) as [->|Hne]; [symmetry; apply decide_True, elem_of_app; right; by left|].
    apply decide_ext. rewrite elem_of_app, list_elem_of_singleton. tauto.
Qed.

Lemma add_constraints_built l : forall l0 x, built l0 x -> NoDup (l0 ++ l).*1 -> Forall (fun p => (fst p < K)%nat) l ->
  exists x', add_constraints ((fun p => (category_from_idx (Z.of_nat (fst p)) n, snd p)) <$> l) x = Ok x' /\ built (l0 ++ l) x'.
Proof.
  induction l as [|[idx v] l IH]; intros l0 x Hx Hnd Hr; [exists x; by rewrite app_nil_r|].
  apply Forall_cons in Hr as [Hi Hr]. cbn [fmap list_fmap add_constraints fst snd] in *.
  assert (Hn : idx ∉ l0.*1).
  { rewrite fmap_app in Hnd. apply NoDup_app in Hnd as (_ & Hd & _). intros Hin. apply (Hd idx Hin). by left. }
  destruct (add_book_built l0 x idx v Hx Hi Hn) as (x1 & E1 & H1). rewrite E1. cbn [result_bind].
  destruct (IH (l0 ++ [(idx, v)]) x1 H1) as (x' & E & H'); [by rewrite <- app_assoc|done|]. exists x'. split; [done|]. by rewrite <- app_assoc in H'.
Qed.

(** *** Solving *)
Section Solve.
Variable l : list (nat * Z).
Hypothesis l_NoDup : NoDup l.*1.
Hypothesis l_range : Forall (fun p => (fst p < K)%nat) l.
Hypothesis l_nonneg : Forall (fun p => 0 <= snd p) l.
Hypothesis l_sum : sum_by snd l < 2 ^ 126.
Let books := l.*1.
Let rhs (_ : nat) := 0.
Let negated (_ : nat) := false.
Let sell_asset : forall j, (j < K)%nat -> (sell j < na)%nat.
Proof. intros j Hj. by apply (orderbook_category n big j Hj). Qed.
Let buy_asset : forall j, (j < K)%nat -> (buy j < na)%nat.
Proof. intros j Hj. by apply (orderbook_category n big j Hj). Qed.
Let sell_buy : forall j, (j < K)%nat -> sell j <> buy j.
Proof. intros j Hj. by apply (orderbook_category n big j Hj). Qed.
Let books_range : Forall (fun idx => (idx < K)%nat) books.
Proof. unfold books. by apply Forall_fmap. Qed.
Let limit_nonneg : forall j, 0 <= limit_of l j.
Proof. intros j. by apply limit_of_nonneg. Qed.
Let limit_books : forall j, j ∉ books -> limit_of l j = 0.
Proof. intros j. apply limit_of_out. Qed.
Let nt_cases : 0%nat = 0%nat \/ 0%nat = na.
Proof. by left. Qed.
Abbreviation m := (na + length books)%nat.
Abbreviation A0 := (start_entry na K sell buy books negated).
Abbreviation b0 := (start_value na books negated (limit_of l) rhs).
Abbreviation c0 := (traded_cost books).
Abbreviation act := (market_active na K sell buy books).
Abbreviation edge_tail := (tail na K sell buy books).
Abbreviation edge_head := (head na K buy books).
Definition solver_invariant (s : TUSimplex.t) : Prop := holds m N (S m) edge_tail edge_head A0 b0 c0 act s.
Let tails : forall j, (j < N)%nat -> (edge_tail j < S m)%nat.
Proof. intros j Hj. apply (tail_node na K sell buy books sell_asset buy_asset). lia. Qed.
Let heads : forall j, (j < N)%nat -> (edge_head j < S m)%nat.
Proof. intros j Hj. apply (head_node na K buy books buy_asset l_NoDup). lia. Qed.
Let fits : fitting_problem m N edge_tail edge_head A0 b0 c0 act (total K (limit_of l)) (Z.of_nat na).
Proof.
  apply (volume_fits na K sell buy books sell_asset books_range negated (limit_of l) rhs limit_nonneg limit_books 0 nt_cases eq_refl (fun _ => eq_refl)).
  - unfold total. by rewrite limit_of_total.
  - unfold na, assets. lia.
Qed.
Let rows_u16 : Z.of_nat m <= 2 ^ 16.
Proof.
  enough (length books <= K)%nat by (unfold K, na, orderbooks, assets in *; nia). rewrite <- (length_seq K 0).
  apply submseteq_length, NoDup_submseteq; [done|]. intros j Hj. apply elem_of_seq. rewrite Forall_forall in books_range. pose proof (books_range j Hj). lia.
Qed.

Lemma built_holds x : built l x -> solver_invariant (base x).
Proof.
  intros Hx. assert (El : length l = length books) by (unfold books; by rewrite length_fmap). constructor.
  - apply Hx.
  - rewrite <- El. apply Hx.
  - intros i Hi. rewrite <- El in Hi. by destruct (bl_row _ _ Hx i Hi).
  - apply Hx.
  - rewrite <- El. apply Hx.
  - apply Hx.
  - apply Hx.
  - exists (start_potential na buy books negated).
    replace (objective_value (base x)) with 0 by (symmetry; apply Hx).
    eapply (tableau_ext m N (S m) edge_tail edge_head A0 b0 c0 act);
      [| | | |apply (volume_start na K sell buy books sell_asset buy_asset sell_buy l_NoDup books_range negated (limit_of l) rhs limit_nonneg 0 nt_cases eq_refl); done].
    + intros i j Hi Hj. rewrite <- El in Hi. destruct (bl_row _ _ Hx i Hi) as (_ & He & _). unfold entry. rewrite He by done.
      unfold start_entry, sign, negated. fold books. destruct (decide (i < na)%nat); by rewrite Z.mul_1_l.
    + intros i Hi. rewrite <- El in Hi. destruct (bl_row _ _ Hx i Hi) as (_ & _ & Hv). unfold value. rewrite Hv.
      unfold start_value, sign, negated, rhs. case_decide as Hia; [lia|]. destruct (lookup_lt_is_Some_2 l (i - na)) as [[idx v] Hk]; [lia|].
      unfold books. rewrite !list_lookup_fmap, Hk. cbn. rewrite (limit_of_lookup l (i - na) idx v l_NoDup Hk). lia.
    + intros j Hj. symmetry. by apply Hx.
    + intros i Hi. rewrite <- El in Hi. symmetry. by apply Hx.
Qed.

(** What a tableau of the problem says: its basic solution is a trade, and it is a largest
    one when the solver stops there. *)
Abbreviation trade := (fun y => within K (limit_of l) y /\ balanced na K sell buy rhs y).
Lemma holds_trade s : solver_invariant s ->
  let y := basic m (basis s) (value s) in trade y /\ objective_value s = - volume K y.
Proof.
  intros Hs. destruct (hd_tableau _ _ _ _ _ _ _ _ _ _ Hs) as [P Ht]. cbn zeta.
  pose proof (basic_feasible _ _ _ _ _ _ _ _ _ _ _ _ _ _ _ Ht) as Hf. split; [split|].
  - by apply (feasible_within na K sell buy books books_range negated (limit_of l) rhs limit_books 0 nt_cases).
  - by apply (feasible_balanced na K sell buy books books_range negated (limit_of l) rhs 0 nt_cases eq_refl).
  - rewrite <- (feasible_volume na K sell buy books books_range negated (limit_of l) rhs limit_books 0 nt_cases eq_refl) by done.
    pose proof (basic_objective _ _ _ _ _ _ _ _ _ _ _ _ _ _ _ Ht) as E. lia.
Qed.
Lemma holds_do_pivot s : solver_invariant s ->
  let y s := basic m (basis s) (value s) in
  (TUSimplex.do_pivot s = Ok (false, s) /\ forall y', trade y' -> volume K y' <= volume K (y s)) \/
  exists s', TUSimplex.do_pivot s = Ok (true, s') /\ solver_invariant s' /\ volume K (y s) <= volume K (y s').
Proof.
  intros Hs. cbn zeta. destruct (do_pivot_spec m N (S m) edge_tail edge_head tails heads A0 b0 c0 act _ _ rows_u16 columns_u16 fits s Hs) as [[E Ho]|(s' & E & Hs' & Hle)].
  - left. split; [done|]. intros y' [Hw Hb]. destruct (hd_tableau _ _ _ _ _ _ _ _ _ _ Hs) as [P Ht].
    pose proof (extend_feasible na K sell buy books books_range negated (limit_of l) rhs limit_books 0 nt_cases y' Hw (fun _ _ => eq_refl) (fun _ => Hb)) as He.
    pose proof (tableau_optimal _ _ _ _ _ _ _ _ _ _ _ _ _ _ _ Ht Ho _ He) as Hopt.
    rewrite !(feasible_volume na K sell buy books books_range negated (limit_of l) rhs limit_books 0 nt_cases eq_refl) in Hopt by
      (done || by apply (basic_feasible _ _ _ _ _ _ _ _ _ _ _ _ _ _ _ Ht)).
    replace (volume K y') with (volume K (extend na K sell buy (limit_of l) rhs y')); [done|].
    apply sum_seq_ext. intros j Hj. unfold extend. by rewrite decide_True.
  - right. exists s'. split; [done|]. split; [done|].
    pose proof (proj2 (holds_trade s Hs)) as E1. pose proof (proj2 (holds_trade s' Hs')) as E2. cbn zeta in E1, E2. lia.
Qed.
End Solve.
End Build.

(** ** The solver on a market *)
Definition traded s : nat -> Z := basic (length (TUSimplex.constraint_rows s)) (basis s) (value s).
Lemma invariant_traded n l s : solver_invariant n l s -> traded s = basic (assets n + length l.*1) (basis s) (value s).
Proof. intros Hs. unfold traded. by rewrite (hd_rows _ _ _ _ _ _ _ _ _ _ Hs). Qed.
Definition pivots (s s' : TUSimplex.t) : Prop := TUSimplex.do_pivot s = Ok (true, s').
(** The constraints on orderbooks given by index. *)
Definition constraints (n : Z) (l : list (nat * Z)) : list (OfferCategory * Z) :=
  (fun p => (category_from_idx (Z.of_nat (fst p)) n, snd p)) <$> l.
Record valid_books (n : Z) (l : list (nat * Z)) : Prop := {
  vb_assets : 2 <= n <= 126;
  vb_NoDup : NoDup l.*1;
  vb_range : Forall (fun p => (fst p < orderbooks n)%nat) l;
  vb_nonneg : Forall (fun p => 0 <= snd p) l;
  vb_sum : sum_by snd l < 2 ^ 126
}.
(** No orderbook trades more than its limit, and no asset is bought more than it is sold. *)
Definition is_trade (n : Z) (l : list (nat * Z)) (y : nat -> Z) : Prop :=
  within (orderbooks n) (limit_of l) y /\ balanced (assets n) (orderbooks n) (sell_of n) (buy_of n) (fun _ => 0) y.

(** Building succeeds, and pivoting keeps the invariant. *)
Lemma solver_reaches n l : valid_books n l ->
  exists x, build n (constraints n l) = Ok x /\ num_assets x = n /\ num_orderbooks x = Z.of_nat (orderbooks n) /\
    forall s, rtc pivots (base x) s -> solver_invariant n l s.
Proof.
  intros [Hn Hnd Hr Hnn Hsum]. unfold build, constraints. destruct (new_built n Hn) as (x0 & -> & H0). cbn [result_bind].
  destruct (add_constraints_built n Hn l [] x0 H0 Hnd Hr) as (x & E & Hx). exists x. split; [done|].
  split; [apply Hx|]. split; [apply Hx|]. intros s Hs. pose proof (built_holds n Hn l Hnd Hr Hnn x Hx) as Hh. clear E Hx.
  remember (base x) as s0 eqn:E0. clear E0. induction Hs as [s|s s1 s2 Hs1 Hs2 IH]; [done|]. apply IH.
  destruct (holds_do_pivot n Hn l Hnd Hr Hnn Hsum s Hh) as [[E _]|(s' & E & Hs' & _)]; unfold pivots in Hs1; congruence.
Qed.
Lemma solver_step n l s : valid_books n l -> solver_invariant n l s ->
  is_trade n l (traded s) /\ objective_value s = - volume (orderbooks n) (traded s) /\
  ((TUSimplex.do_pivot s = Ok (false, s) /\ forall y, is_trade n l y -> volume (orderbooks n) y <= volume (orderbooks n) (traded s)) \/
   exists s', TUSimplex.do_pivot s = Ok (true, s') /\ volume (orderbooks n) (traded s) <= volume (orderbooks n) (traded s')).
Proof.
  intros [Hn Hnd Hr Hnn Hsum] Hinv. rewrite (invariant_traded n l s Hinv).
  destruct (holds_trade n Hn l Hnd Hr s Hinv) as [Ht Ev]. split; [exact Ht|]. split; [exact Ev|].
  destruct (holds_do_pivot n Hn l Hnd Hr Hnn Hsum s Hinv) as [[E1 Ho]|(s' & E1 & Hs' & Hle)]; [left; by split|right].
  exists s'. split; [done|]. by rewrite (invariant_traded n l s' Hs').
Qed.

(** C24.  [TaxFreeSimplex] on up to 126 assets, whatever orderbooks are added (each once, the
    limits adding up to less than 2^126): the constructor and the additions succeed, and
    after any number of pivots the amounts in the basis are a trade whose volume is the
    (negated) objective value.  There [do_pivot] never throws: it stops, and then no trade
    has a larger volume, or pivots to amounts of no smaller volume.  In particular no value,
    entry or cost has overflowed. *)
Theorem tax_free_solver_correct (n : Z) (l : list (nat * Z)) (Hl : valid_books n l) :
  exists x, build n (constraints n l) = Ok x /\ forall s, rtc pivots (base x) s ->
    is_trade n l (traded s) /\ objective_value s = - volume (orderbooks n) (traded s) /\
    ((TUSimplex.do_pivot s = Ok (false, s) /\ forall y, is_trade n l y -> volume (orderbooks n) y <= volume (orderbooks n) (traded s)) \/
     exists s', TUSimplex.do_pivot s = Ok (true, s') /\ volume (orderbooks n) (traded s) <= volume (orderbooks n) (traded s')).
Proof.
  destruct (solver_reaches n l Hl) as (x & E & _ & _ & Hx). exists x. split; [done|]. intros s Hs. by apply solver_step, Hx.
Qed.
Lemma tax_free_solver_correct_witness : let l := [(0%nat, 100); (2%nat, 70); (3%nat, 10)] in
  valid_books 3 l /\ exists x, build 3 (constraints 3 l) = Ok x /\ is_trade 3 l (traded (base x)).
Proof.
  assert (Hl : valid_books 3 [(0%nat, 100); (2%nat, 70); (3%nat, 10)]).
  { constructor; [lia| |repeat constructor|repeat constructor; cbn; lia|by vm_compute].
    apply (bool_decide_unpack _). by vm_compute. }
  split; [exact Hl|]. destruct (tax_free_solver_correct 3 _ Hl) as (x & E & Hx). exists x. split; [exact E|]. apply Hx. apply rtc_refl.
Defined.
