(* ===== verification/TaxFreeSolution.v ===== *)
(** * Reading the solution of the volume problem (src/simplex/simplex.cc)

    [construct_solution] takes the amounts of the basis columns, and determines the other
    active columns by flow conservation, one asset after the other; [get_solution] reads
    the result. *)
From stdpp Require Import base list strings sets relations.
From S2P Require Import Prelude Types Offers NetworkLP MarketNetwork BitRow ObjectiveRow Simplex TaxFree.
Import Category TaxFreeSimplex.

(** ** The columns of the basis *)
Lemma update_lookup {A} (v : A) k j (l : list A) : vec_update (fun _ => v) k l !! j = if decide (j = k) then (fun _ => v) <$> l !! j else l !! j.
Proof. unfold vec_update. rewrite list_lookup_alter. destruct (decide (k = j)) as [->|Hne]; [by rewrite decide_True|by rewrite decide_False by congruence]. Qed.
Lemma length_update {A} (f : A -> A) k (l : list A) : length (vec_update f k l) = length l.
Proof. unfold vec_update. by rewrite length_alter. Qed.

Lemma basis_solution_spec (K : nat) bas : forall rows sol solved, length rows = length bas -> Forall (fun c => 0 <= c) bas ->
  length sol = K -> length solved = K -> forall j, (j < K)%nat ->
  let r := basis_solution (Z.of_nat K) rows bas sol solved in
  length r.1 = K /\ length r.2 = K /\
  (Z.of_nat j ∉ bas -> r.1 !! j = sol !! j /\ r.2 !! j = solved !! j) /\
  (forall i, bas !! i = Some (Z.of_nat j) -> (forall i', bas !! i' = Some (Z.of_nat j) -> i' = i) ->
     r.1 !! j = BitcompressedRow.row_value <$> rows !! i /\ r.2 !! j = Some true).
Proof.
  induction bas as [|c bas IH]; intros [|row rows] sol solved Hl Hc Hsol Hsolved j Hj; try done.
  apply Forall_cons in Hc as [Hc0 Hc]. injection Hl as Hl. cbn zeta. cbn [basis_solution].
  set (sol1 := vec_update (fun _ => BitcompressedRow.row_value row) (Z.to_nat c) sol).
  set (solved1 := vec_update (fun _ => true) (Z.to_nat c) solved).
  assert (Hrest : forall sol' solved', length sol' = K -> length solved' = K ->
    let r := basis_solution (Z.of_nat K) rows bas sol' solved' in
    (Z.of_nat j <> c -> sol' !! j = sol !! j /\ solved' !! j = solved !! j) ->
    (Z.of_nat j = c -> sol' !! j = Some (BitcompressedRow.row_value row) /\ solved' !! j = Some true) ->
    length r.1 = K /\ length r.2 = K /\ (Z.of_nat j ∉ c :: bas -> r.1 !! j = sol !! j /\ r.2 !! j = solved !! j) /\
    (forall i, (c :: bas) !! i = Some (Z.of_nat j) -> (forall i', (c :: bas) !! i' = Some (Z.of_nat j) -> i' = i) ->
       r.1 !! j = BitcompressedRow.row_value <$> (row :: rows) !! i /\ r.2 !! j = Some true)).
  { intros sol' solved' L1 L2. cbn zeta. intros Hother Hsame. destruct (IH rows sol' solved' Hl Hc L1 L2 j Hj) as (R1 & R2 & R3 & R4).
    split; [done|]. split; [done|]. split.
    - intros [Hne Hn]%not_elem_of_cons. destruct (R3 Hn) as [-> ->]. by apply Hother.
    - intros [|i] Hi Hu.
      + injection Hi as ->. destruct R3 as [-> ->]; [|by apply Hsame]. intros [i' Hi']%list_elem_of_lookup. by specialize (Hu (S i') Hi').
      + apply R4; [done|]. intros i' Hi'. specialize (Hu (S i') Hi'). lia. }
  destruct (Z.ltb_spec c (Z.of_nat K)) as [Hlt|Hge].
  - apply Hrest.
    + unfold sol1. by rewrite length_update.
    + unfold solved1. by rewrite length_update.
    + intros Hne. unfold sol1, solved1. rewrite !update_lookup, !decide_False by lia. done.
    + intros Ej. unfold sol1, solved1. rewrite !update_lookup, !decide_True by lia.
      destruct (lookup_lt_is_Some_2 sol j) as [a ->]; [lia|]. destruct (lookup_lt_is_Some_2 solved j) as [b ->]; [lia|]. done.
  - apply Hrest; [done|done|done|lia].
Qed.

(** ** Peeling

    The map shortens with every pass that makes progress, so its length is fuel enough. *)
Lemma peel_pass_length num_assets m : forall solution m' solution' p,
  peel_pass num_assets m solution = Ok (m', solution', p) -> (length m' <= length m)%nat /\ (p = true -> (length m' < length m)%nat).
Proof.
  induction m as [|[asset l] m IH]; intros sol m' sol' p E; cbn [peel_pass] in E.
  - injection E as <- <- <-. done.
  - assert (Hkeep : (let* (m1, sol1, p1) := peel_pass num_assets m sol in Ok ((asset, l) :: m1, sol1, p1)) = Ok (m', sol', p) ->
      (length m' <= S (length m))%nat /\ (p = true -> (length m' < S (length m))%nat)).
    { intros (((m1 & sol1) & p1) & E1 & [= <- <- <-])%result_bind_Ok. apply IH in E1 as [H1 H2]. cbn. split; [lia|]. intros Hp. specialize (H2 Hp). lia. }
    destruct l as [|c [|d l]]; [by apply Hkeep| |by apply Hkeep].
    apply result_bind_Ok in E as (inflow & _ & E). apply result_bind_Ok in E as (inflow' & _ & E). apply result_bind_Ok in E as (idx & _ & E).
    apply result_bind_Ok in E as (((m1 & sol1) & p1) & E1 & [= <- <- <-]). apply IH in E1 as [H1 _]. cbn. split; [lia|]. lia.
Qed.
Lemma peel_fuel num_assets fuel : forall fuel' m solution, (length m <= fuel)%nat -> (length m <= fuel')%nat ->
  peel fuel num_assets m solution = peel fuel' num_assets m solution.
Proof.
  induction fuel as [|fuel IH]; intros [|fuel'] [|e m] sol Hf Hf'; cbn in Hf, Hf'; try done || lia. cbn [peel].
  destruct (peel_pass num_assets (e :: m) sol) as [[[m' sol'] []]|w] eqn:E; [|done|done]. cbn [result_bind].
  apply peel_pass_length in E as [_ Hlt]. specialize (Hlt eq_refl). cbn in Hlt. apply IH; lia.
Qed.

(** ** Every active orderbook in the basis *)
Lemma unsolved_none n cols solved : (forall j, j ∈ cols -> default false (solved !! Z.to_nat j) = true) -> unsolved_vars n cols solved = [].
Proof.
  unfold unsolved_vars. induction cols as [|c cols IH]; intros Hs; [done|]. cbn [foldl]. rewrite (Hs c) by by left.
  apply IH. intros j Hj. apply Hs. by right.
Qed.
Section Solution.
Variable n : Z.
Variable l : list (nat * Z).
Hypothesis l_valid : valid_books n l.
Abbreviation K := (orderbooks n).
Implicit Types s : TUSimplex.t.

Lemma invariant_basis s j : solver_invariant n l s -> (j < K)%nat ->
  (Z.of_nat j ∉ TUSimplex.active_basis s -> traded s j = 0) /\
  forall i, TUSimplex.active_basis s !! i = Some (Z.of_nat j) ->
    (forall i', TUSimplex.active_basis s !! i' = Some (Z.of_nat j) -> i' = i) /\ traded s j = value s i /\ (i < length (TUSimplex.constraint_rows s))%nat.
Proof.
  intros Hs Hj. rewrite (invariant_traded n l s Hs). destruct (hd_tableau _ _ _ _ _ _ _ _ _ _ Hs) as [P Ht].
  pose proof (hd_basis _ _ _ _ _ _ _ _ _ _ Hs) as Hlen. pose proof (hd_basis_nonneg _ _ _ _ _ _ _ _ _ _ Hs) as Hnn.
  assert (Hb : forall i, TUSimplex.active_basis s !! i = Some (Z.of_nat j) <-> (i < assets n + length l.*1)%nat /\ basis s i = j).
  { intros i. unfold basis. rewrite <- Hlen. split.
    - intros Hi. split; [by apply lookup_lt_Some in Hi|]. rewrite Hi. cbn. lia.
    - intros [Hi E]. destruct (lookup_lt_is_Some_2 (TUSimplex.active_basis s) i Hi) as [c Hc]. rewrite Hc in *. cbn in E.
      rewrite Forall_lookup in Hnn. specialize (Hnn i c Hc). cbn in Hnn. f_equal. lia. }
  split.
  - intros Hn. destruct (decide (basic (assets n + length l.*1) (basis s) (value s) j = 0)) as [|Hne]; [done|].
    apply basic_off in Hne as (i & Hi & E). destruct Hn. apply (list_elem_of_lookup_2 _ i), Hb. done.
  - intros i Hi. pose proof (proj1 (Hb i) Hi) as [Hlt E]. split; [|split].
    + intros i' Hi'. apply Hb in Hi' as [Hlt' E']. by apply (basis_injective _ _ _ _ _ _ _ _ _ _ _ _ _ _ _ Ht); [..|congruence].
    + rewrite <- E. by apply (basic_at _ _ _ _ _ _ _ _ _ _ _ _ _ _ _ Ht).
    + by rewrite (hd_rows _ _ _ _ _ _ _ _ _ _ Hs).
Qed.

Lemma construct_solution_basic x s : solver_invariant n l s -> num_assets x = n -> num_orderbooks x = Z.of_nat K ->
  (forall j, (j < K)%nat -> active s j = true -> Z.of_nat j ∈ TUSimplex.active_basis s) ->
  exists x', construct_solution (with_base s x) = Ok x' /\ forall j, (j < K)%nat -> solution_at (solution x') (Z.of_nat j) = traded s j.
Proof.
  intros Hs En Ek Hall. unfold construct_solution. cbn [with_base base num_assets num_orderbooks]. rewrite En, Ek, Nat2Z.id.
  set (solved := (fun col => negb (default false (TUSimplex.active_cols s !! Z.to_nat col))) <$> seqZ 0 (Z.of_nat K)).
  assert (Ls : length solved = K) by (unfold solved; by rewrite length_fmap, length_seqZ, Nat2Z.id).
  assert (Lb : length (TUSimplex.constraint_rows s) = length (TUSimplex.active_basis s)).
  { by rewrite (hd_rows _ _ _ _ _ _ _ _ _ _ Hs), (hd_basis _ _ _ _ _ _ _ _ _ _ Hs). }
  pose proof (basis_solution_spec K (TUSimplex.active_basis s) _ (replicate K 0) solved Lb (hd_basis_nonneg _ _ _ _ _ _ _ _ _ _ Hs)
    (length_replicate K 0) Ls) as Hspec.
  destruct (basis_solution (Z.of_nat K) (TUSimplex.constraint_rows s) (TUSimplex.active_basis s) (replicate K 0) solved) as [sol solved'] eqn:E.
  cbn zeta in Hspec. cbn [fst snd] in Hspec.
  assert (Hj : forall j, (j < K)%nat -> solved' !! j = Some true /\ sol !! j = Some (traded s j)).
  { intros j Hj. destruct (Hspec j Hj) as (_ & _ & Hout & Hin). destruct (invariant_basis s j Hs Hj) as [Tout Tin].
    destruct (decide (Z.of_nat j ∈ TUSimplex.active_basis s)) as [[i Hi]%list_elem_of_lookup|Hn].
    - destruct (Tin i Hi) as (Hu & Et & Hlt). destruct (Hin i Hi Hu) as [-> ->]. split; [done|]. by rewrite row_lookup, Et by done.
    - destruct (Hout Hn) as [-> ->]. rewrite (Tout Hn), lookup_replicate_2 by done. split; [|done]. unfold solved.
      rewrite list_lookup_fmap, lookup_seqZ_lt by lia. cbn [fmap option_fmap option_map]. rewrite Z.add_0_l, Nat2Z.id. fold (active s j).
      destruct (active s j) eqn:Ea; [|done]. by destruct Hn; apply Hall. }
  rewrite unsolved_none.
  - cbn [peel length result_bind]. eexists. split; [done|]. intros j Hlt. cbn [with_solution solution]. unfold solution_at. rewrite Nat2Z.id.
    by destruct (Hj j Hlt) as [_ ->].
  - intros j Hin%elem_of_seqZ. destruct (Hj (Z.to_nat j)) as [-> _]; [lia|done].
Qed.
End Solution.

(** ** The whole call *)
Lemma run_simplex_pivots fuel : forall s s', TUSimplex.run_simplex fuel s = Some (Ok s') ->
  rtc pivots s s' /\ TUSimplex.do_pivot s' = Ok (false, s').
Proof.
  induction fuel as [|fuel IH]; intros s s' E; cbn [TUSimplex.run_simplex] in E.
  all: assert (Hf : forall s1, TUSimplex.do_pivot s = Ok (false, s1) -> s1 = s)
    by (intros s1 Es; unfold TUSimplex.do_pivot in Es; destruct (TUSimplex.get_next_pivot_column s); [by apply result_bind_Ok in Es as (? & _ & ?)|by injection Es]).
  all: destruct (TUSimplex.do_pivot s) as [[[] s1]|w] eqn:Es; try done.
  - injection E as <-. rewrite (Hf s1) in * by done. split; [apply rtc_refl|done].
  - apply IH in E as [Hr Hd]. split; [|done]. by apply (rtc_l _ s s1).
  - injection E as <-. rewrite (Hf s1) in * by done. split; [apply rtc_refl|done].
Qed.

(** C26.  When the solver stops with every active orderbook in the basis, [solve] succeeds and
    [get_solution] reads a trade of the largest volume. *)
Theorem solve_optimal (n : Z) (l : list (nat * Z)) (fuel : nat) (Hl : valid_books n l) x s
  (Hb : build n (constraints n l) = Ok x) (Hr : TUSimplex.run_simplex fuel (base x) = Some (Ok s))
  (Ha : forall j, (j < orderbooks n)%nat -> active s j = true -> Z.of_nat j ∈ TUSimplex.active_basis s) :
  exists x' y, solve fuel x = Some (Ok x') /\ is_trade n l y /\
    (forall y', is_trade n l y' -> volume (orderbooks n) y' <= volume (orderbooks n) y) /\
    forall j, (j < orderbooks n)%nat -> get_solution (category_from_idx (Z.of_nat j) n) x' = Ok (y j).
Proof.
  destruct (solver_reaches n l Hl) as (x0 & E & En & Ek & Hinv). rewrite Hb in E. injection E as <-.
  apply run_simplex_pivots in Hr as Hp. destruct Hp as [Hp Hd]. destruct (solver_step n l s Hl (Hinv s Hp)) as (Ht & _ & [[_ Ho]|(s' & E & _)]); [|congruence].
  destruct (construct_solution_basic n l x s (Hinv s Hp) En Ek Ha) as (x' & Ec & Hs). exists x', (traded s).
  unfold solve. rewrite Hr. cbn [fmap option_fmap option_map result_bind]. rewrite Ec. split; [done|]. split; [done|]. split; [done|].
  intros j Hj. unfold get_solution. replace (num_assets x') with n.
  - destruct (orderbook_category n ltac:(destruct Hl; unfold MAX_INT_ASSETS; lia) j Hj) as (-> & -> & _). cbn [result_bind]. by rewrite Hs.
  - unfold construct_solution in Ec. destruct (basis_solution _ _ _ _ _). apply result_bind_Ok in Ec as (sol & _ & [= <-]). by rewrite <- En.
Qed.
Definition example_books : list (nat * Z) := [(0%nat, 100); (3%nat, 100); (4%nat, 300)].
Lemma solve_optimal_witness : exists x x' y, build 3 (constraints 3 example_books) = Ok x /\ solve 9 x = Some (Ok x') /\ is_trade 3 example_books y /\
  (forall y', is_trade 3 example_books y' -> volume (orderbooks 3) y' <= volume (orderbooks 3) y) /\
  get_solution (sell_category 0 1) x' = Ok (y 0%nat).
Proof.
  assert (Hl : valid_books 3 example_books).
  { constructor; [lia| |repeat constructor|repeat constructor; cbn; lia|by vm_compute]. apply (bool_decide_unpack _). by vm_compute. }
  assert (Hc : match build 3 (constraints 3 example_books) with
    | Ok x => match TUSimplex.run_simplex 9 (base x) with
        | Some (Ok s) => forallb (fun j => implb (active s j) (bool_decide (Z.of_nat j ∈ TUSimplex.active_basis s))) (seq 0 6)
        | _ => false
        end
    | _ => false
    end = true) by by vm_compute.
  destruct (build 3 (constraints 3 example_books)) as [x|] eqn:Hb; [|done].
  destruct (TUSimplex.run_simplex 9 (base x)) as [[s|]|] eqn:Hr; [|done..].
  assert (EK : orderbooks 3 = 6%nat) by by vm_compute.
  destruct (solve_optimal 3 example_books 9 Hl x s Hb Hr) as (x' & y & H1 & H2 & H3 & H4).
  - intros j Hj Ha. rewrite forallb_forall in Hc. specialize (Hc j). rewrite Ha in Hc. cbn [implb] in Hc.
    apply bool_decide_eq_true in Hc; [done|]. apply in_seq. lia.
  - exists x, x', y. split; [done|]. split; [done|]. split; [done|]. split; [done|]. apply (H4 0%nat). lia.
Defined.

(** [construct_solution] takes an asset out of the map without the solved orderbook's other
    end, so three orderbooks selling for the same asset leave it with three unsolved entries
    and no progress: a problem whose only trade is zero ends in an exception. *)
Example construct_solution_stuck :
  let l := [(0%nat, 1); (7%nat, 1); (10%nat, 1)] in
  constraints 4 l = [(sell_category 0 1, 1); (sell_category 2 1, 1); (sell_category 3 1, 1)] /\
  (fun r => let* _ := r in Ok tt) <$> (match build 4 (constraints 4 l) with Ok x => solve 20 x | Throw w => Some (Throw w) end) = Some (Throw "stuck").
Proof. split; by vm_compute. Qed.
