(* ===== verification/SparseTableau.v ===== *)
(** * The sparse tableau (src/simplex/sparse.h, sparse.cc)

    Every nonzero entry is kept twice, in a list of its row and in a list of its column;
    a row has a flag that negates it.  A pivot walks the pivot row once, and moves one
    iterator per touched row and per column along. *)
From stdpp Require Import base list strings sorting.
From S2P Require Import Prelude ObjectiveRow.

(** ** Lists and iterators

    A [buffered_forward_list] is the list of its values, and a [buffered_forward_list_iter] on it the values passed, the last one first, and the
    values from the iterator on. *)
Record list_iter := mkIter { passed : list Z; rest : list Z }.
Definition list_begin (l : list Z) : list_iter := mkIter [] l.
Definition list_close (it : list_iter) : list Z := rev_append (passed it) (rest it).

Fixpoint insert_from (passed rest : list Z) (idx : Z) : list_iter :=
  match rest with
  | [] => mkIter passed [idx]
  | x :: rest' => if idx <? x then mkIter passed (idx :: rest) else insert_from (x :: passed) rest' idx
  end.
Definition insert_to_iterator (it : list_iter) (idx : Z) : list_iter := insert_from (passed it) (rest it) idx.
Fixpoint erase_from (passed rest : list Z) (value : Z) : bool * list_iter :=
  match rest with
  | [] => (false, mkIter passed [])
  | x :: rest' =>
      if x =? value then (true, mkIter passed rest')
      else if value <? x then (false, mkIter passed rest) else erase_from (x :: passed) rest' value
  end.
Definition try_erase_from_iterator (it : list_iter) (value : Z) : bool * list_iter := erase_from (passed it) (rest it) value.
(** The same loop as [insert_to_iterator]'s, on the whole list; the value becomes a [uint16_t]. *)
Definition insert_to_list (l : list Z) (idx : Z) : list Z := list_close (insert_to_iterator (list_begin l) (u16 idx)).

(** ** Columns *)
Module SignedTUColumn.
Record t := mk { pos : list Z; neg : list Z }.
Definition new : t := mk [] [].
Definition negated (negations : list bool) (row : Z) : bool := default false (negations !! Z.to_nat row).
Definition insert_pos (negations : list bool) (row : Z) (c : t) : t :=
  if negated negations row then mk (pos c) (insert_to_list (neg c) row) else mk (insert_to_list (pos c) row) (neg c).
Definition insert_neg (negations : list bool) (row : Z) (c : t) : t :=
  if negated negations row then mk (insert_to_list (pos c) row) (neg c) else mk (pos c) (insert_to_list (neg c) row).
Definition set_single_pos (negations : list bool) (row : Z) : t := if negated negations row then mk [] [row] else mk [row] [].
Definition set (negations : list bool) (row value : Z) (c : t) : t :=
  if 0 <? value then insert_pos negations row c else if value <? 0 then insert_neg negations row c else c.
Definition at_ (negations : list bool) (row : Z) (c : t) : Z :=
  if decide (row ∈ pos c) then if negated negations row then -1 else 1
  else if decide (row ∈ neg c) then if negated negations row then 1 else -1 else 0.

(** [SignedTUColumn::iterator] *)
Record iterator := mkIterator { pos_it : list_iter; neg_it : list_iter }.
Definition begin (c : t) : iterator := mkIterator (list_begin (pos c)) (list_begin (neg c)).
Definition close (it : iterator) : t := mk (list_close (pos_it it)) (list_close (neg_it it)).
Definition it_insert_pos (negations : list bool) (row : Z) (it : iterator) : iterator :=
  if negated negations row then mkIterator (pos_it it) (insert_to_iterator (neg_it it) row)
  else mkIterator (insert_to_iterator (pos_it it) row) (neg_it it).
Definition it_insert_neg (negations : list bool) (row : Z) (it : iterator) : iterator :=
  if negated negations row then mkIterator (insert_to_iterator (pos_it it) row) (neg_it it)
  else mkIterator (pos_it it) (insert_to_iterator (neg_it it) row).
Definition erase_pos (row : Z) (it : iterator) : result iterator :=
  match try_erase_from_iterator (pos_it it) row with
  | (true, p) => Ok (mkIterator p (neg_it it))
  | (false, _) => Throw "desync"
  end.
Definition erase_neg (row : Z) (it : iterator) : result iterator :=
  match try_erase_from_iterator (neg_it it) row with
  | (true, p) => Ok (mkIterator (pos_it it) p)
  | (false, _) => Throw "desync"
  end.
Definition it_remove_pos (negations : list bool) (row : Z) (it : iterator) : result iterator :=
  if negated negations row then erase_neg row it else erase_pos row it.
Definition it_remove_neg (negations : list bool) (row : Z) (it : iterator) : result iterator :=
  if negated negations row then erase_pos row it else erase_neg row it.
End SignedTUColumn.
Import SignedTUColumn(negated).

(** ** Rows *)
Module SignedTURow.
(** A row's [negation_idx] is its index; its flag is kept in the tableau. *)
Record t := mk { pos : list Z; neg : list Z; value : Z }.
Definition new : t := mk [] [] 0.
Definition get_value (is_negated : bool) (r : t) : Z := if is_negated then i128 (- value r) else value r.
Definition set_value (is_negated : bool) (new_value : Z) (r : t) : t := mk (pos r) (neg r) (if is_negated then i128 (- new_value) else new_value).
Definition set (is_negated : bool) (idx value_ : Z) (r : t) : t :=
  if ((0 <? value_) && negb is_negated) || ((value_ <? 0) && is_negated)
  then mk (insert_to_list (pos r) idx) (neg r) (value r) else mk (pos r) (insert_to_list (neg r) idx) (value r).
Definition at_ (is_negated : bool) (col : Z) (r : t) : Z :=
  if decide (col ∈ pos r) then if is_negated then -1 else 1
  else if decide (col ∈ neg r) then if is_negated then 1 else -1 else 0.

(** [SignedTURow::iterator] *)
Record iterator := mkIterator { pos_it : list_iter; neg_it : list_iter; it_negated : bool; row_idx : Z }.
Definition begin_insert (is_negated : bool) (idx : Z) (r : t) : iterator := mkIterator (list_begin (pos r)) (list_begin (neg r)) is_negated idx.
Definition with_pos (p : list_iter) (it : iterator) : iterator := mkIterator p (neg_it it) (it_negated it) (row_idx it).
Definition with_neg (p : list_iter) (it : iterator) : iterator := mkIterator (pos_it it) p (it_negated it) (row_idx it).
Definition insert_pos (idx : Z) (it : iterator) : iterator :=
  if it_negated it then with_neg (insert_to_iterator (neg_it it) idx) it else with_pos (insert_to_iterator (pos_it it) idx) it.
Definition insert_neg (idx : Z) (it : iterator) : iterator :=
  if it_negated it then with_pos (insert_to_iterator (pos_it it) idx) it else with_neg (insert_to_iterator (neg_it it) idx) it.
Definition erase_from_pos (idx : Z) (it : iterator) : bool * iterator :=
  let '(res, p) := try_erase_from_iterator (pos_it it) idx in (res, with_pos p it).
Definition erase_from_neg (idx : Z) (it : iterator) : bool * iterator :=
  let '(res, p) := try_erase_from_iterator (neg_it it) idx in (res, with_neg p it).
Definition try_erase_pos (idx : Z) (it : iterator) : bool * iterator := if it_negated it then erase_from_neg idx it else erase_from_pos idx it.
Definition try_erase_neg (idx : Z) (it : iterator) : bool * iterator := if it_negated it then erase_from_pos idx it else erase_from_neg idx it.

(** The row's iterator, and the iterator of the column. *)
Definition guarded_insert_pos (negations : list bool) (idx : Z) (it : iterator) (mod_col : SignedTUColumn.iterator) : result (iterator * SignedTUColumn.iterator) :=
  let '(erased, it) := try_erase_neg idx it in
  if erased : bool then let* mod_col := SignedTUColumn.it_remove_neg negations (row_idx it) mod_col in Ok (it, mod_col)
  else Ok (insert_pos idx it, SignedTUColumn.it_insert_pos negations (row_idx it) mod_col).
Definition guarded_insert_neg (negations : list bool) (idx : Z) (it : iterator) (mod_col : SignedTUColumn.iterator) : result (iterator * SignedTUColumn.iterator) :=
  let '(erased, it) := try_erase_pos idx it in
  if erased : bool then let* mod_col := SignedTUColumn.it_remove_pos negations (row_idx it) mod_col in Ok (it, mod_col)
  else Ok (insert_neg idx it, SignedTUColumn.it_insert_neg negations (row_idx it) mod_col).
End SignedTURow.

(** Indices with a sign, in the order of the indices. *)
Definition before (a b : Z * Z) : Prop := fst a <= fst b.
#[export] Instance before_dec a b : Decision (before a b).
Proof. unfold before. apply _. Defined.
#[export] Instance before_total : Total before.
Proof. intros a b. unfold before. lia. Qed.

(** ** The tableau *)
Module SparseTableau.
Record t := mk { negations : list bool; rows : list SignedTURow.t; cols : list SignedTUColumn.t }.
Implicit Types s : t.
Definition new (num_cols : Z) : t := mk [] [] (replicate (Z.to_nat num_cols) SignedTUColumn.new).
Definition add_row s : t := mk (negations s ++ [false]) (rows s ++ [SignedTURow.new]) (cols s).
Definition row s (i : Z) : SignedTURow.t := default SignedTURow.new (rows s !! Z.to_nat i).
Definition col s (j : Z) : SignedTUColumn.t := default SignedTUColumn.new (cols s !! Z.to_nat j).
Definition is_negated s (i : Z) : bool := negated (negations s) i.
Definition negate (i : Z) s : t := mk (vec_update negb (Z.to_nat i) (negations s)) (rows s) (cols s).
Definition update_row (f : SignedTURow.t -> SignedTURow.t) (i : Z) s : t := mk (negations s) (vec_update f (Z.to_nat i) (rows s)) (cols s).
Definition update_col (f : SignedTUColumn.t -> SignedTUColumn.t) (j : Z) s : t := mk (negations s) (rows s) (vec_update f (Z.to_nat j) (cols s)).
(** The value of row [i], with its sign. *)
Definition get_value (i : Z) s : Z := SignedTURow.get_value (is_negated s i) (row s i).
Definition set_value (i new_value : Z) s : t := update_row (SignedTURow.set_value (is_negated s i) new_value) i s.
Definition set (i j value : Z) s : t :=
  update_col (SignedTUColumn.set (negations s) i value) j (update_row (SignedTURow.set (is_negated s i) j value) i s).
Definition get (i j : Z) s : result Z :=
  let row_val := SignedTURow.at_ (is_negated s i) j (row s i) in
  let col_val := SignedTUColumn.at_ (negations s) i (col s j) in
  if row_val =? col_val then Ok row_val else Throw "mismatch!".

(** [get_pivot_row]: the two loops over the lists of the column. *)
Fixpoint best_row (want_negated : bool) (l : list Z) s (row_out : option Z) (value : Z) : option Z * Z :=
  match l with
  | [] => (row_out, value)
  | i :: l =>
      let constraint_value := get_value i s in
      if Bool.eqb (is_negated s i) want_negated && (match row_out with None => true | Some _ => constraint_value <? value end)
      then best_row want_negated l s (Some i) constraint_value else best_row want_negated l s row_out value
  end.
Definition get_pivot_row (j : Z) s : result Z :=
  let '(row_out, value) := best_row false (SignedTUColumn.pos (col s j)) s None 0 in
  match best_row true (SignedTUColumn.neg (col s j)) s row_out value with
  | (Some i, _) => Ok i
  | (None, _) => Throw "failed to find pivot row"
  end.

(** *** [do_pivot]

    The nonzeros of the pivot column in the order of the rows, with the list they are in. *)
Definition column_entries (c : SignedTUColumn.t) : list (Z * Z) :=
  list_merge before ((fun i => (i, -1)) <$> SignedTUColumn.neg c) ((fun i => (i, 1)) <$> SignedTUColumn.pos c).
(** [add_pos_it] and [add_neg_it]: the touched rows, the negated ones among them, and the iterators. *)
Fixpoint touch (pivot_row : Z) (l : list (Z * Z)) s : t * list Z * list Z * list SignedTURow.iterator :=
  match l with
  | [] => (s, [], [], [])
  | (i, sign) :: l =>
      if i =? pivot_row then touch pivot_row l s else
        let flip := Bool.eqb (is_negated s i) (sign <? 0) in
        let s := if flip then negate i s else s in
        let it := SignedTURow.begin_insert (is_negated s i) i (row s i) in
        let '(s, touched, negated_rows, its) := touch pivot_row l s in
        (s, i :: touched, if flip then i :: negated_rows else negated_rows, it :: its)
  end.
(** [advance]: the columns of the pivot row in order, with their signs. *)
Definition row_entries (is_negated : bool) (r : SignedTURow.t) : list (Z * Z) :=
  (fun '(j, out) => (j, if is_negated then - out else out)) <$>
  list_merge before ((fun j => (j, 1)) <$> SignedTURow.pos r) ((fun j => (j, -1)) <$> SignedTURow.neg r).
(** The loop over the rows' iterators, for one column. *)
Fixpoint bump_rows (negations : list bool) (j coeff : Z) (its : list SignedTURow.iterator) (mod_col : SignedTUColumn.iterator) :
  result (list SignedTURow.iterator * SignedTUColumn.iterator) :=
  match its with
  | [] => Ok ([], mod_col)
  | it :: its =>
      let* (it, mod_col) :=
        (if 0 <? coeff then SignedTURow.guarded_insert_pos negations j it mod_col else SignedTURow.guarded_insert_neg negations j it mod_col) in
      let* (its, mod_col) := bump_rows negations j coeff its mod_col in
      Ok (it :: its, mod_col)
  end.
(** The loop over the columns of the pivot row. *)
Fixpoint bump_cols (entries : list (Z * Z)) (its : list SignedTURow.iterator) s : result (list SignedTURow.iterator * t) :=
  match entries with
  | [] => Ok (its, s)
  | (j, coeff) :: entries =>
      let* (its, mod_col) := bump_rows (negations s) j coeff its (SignedTUColumn.begin (col s j)) in
      bump_cols entries its (update_col (fun _ => SignedTUColumn.close mod_col) j s)
  end.
(** What the iterators have made of their rows. *)
Definition store_row s (it : SignedTURow.iterator) : t :=
  update_row (fun r => SignedTURow.mk (list_close (SignedTURow.pos_it it)) (list_close (SignedTURow.neg_it it)) (SignedTURow.value r)) (SignedTURow.row_idx it) s.
Definition do_pivot (pivot_row pivot_col : Z) s : result t :=
  let '(s, touched_rows, negated_rows, its) := touch pivot_row (column_entries (col s pivot_col)) s in
  let* (its, s) := bump_cols (row_entries (is_negated s pivot_row) (row s pivot_row)) its s in
  let s := foldl store_row s its in
  let s := update_col (fun _ => SignedTUColumn.set_single_pos (negations s) pivot_row) pivot_col s in
  let s := foldl (fun s i => set_value i (i128 (get_value i s + get_value pivot_row s)) s) s touched_rows in
  Ok (foldl (fun s i => negate i s) s negated_rows).

(** [integrity_check]: both copies agree, and the lists increase. *)
Fixpoint check_incr_list (val : option Z) (l : list Z) : bool :=
  match l with
  | [] => true
  | v :: l => match val with Some w => w <? v | None => true end && check_incr_list (Some v) l
  end.
Definition integrity_check s : bool :=
  let all_cols := seqZ 0 (Z.of_nat (length (cols s))) in
  forallb (fun i => forallb (fun j => is_ok (get i j s)) all_cols &&
    check_incr_list None (SignedTURow.pos (row s i)) && check_incr_list None (SignedTURow.neg (row s i))) (seqZ 0 (Z.of_nat (length (rows s)))) &&
  forallb (fun j => check_incr_list None (SignedTUColumn.pos (col s j)) && check_incr_list None (SignedTUColumn.neg (col s j))) all_cols.
End SparseTableau.
