(* ===== verification/SparsePivot.v ===== *)
(** * The sparse pivot

    [SparseTableau.do_pivot] keeps both copies of every entry in step, never reports
    "desync", and gives the rows of the pivoted tableau. *)
From stdpp Require Import base list strings sorting.
From S2P Require Import Prelude ObjectiveRow SparseTableau.
Import SparseTableau SignedTUColumn(negated).
Abbreviation row_idx := SignedTURow.row_idx.

(** ** Increasing lists *)
Abbreviation increasing := (StronglySorted Z.lt).
Lemma increasing_app l1 l2 : increasing (l1 ++ l2) <-> increasing l1 /\ increasing l2 /\ forall x y, x ∈ l1 -> y ∈ l2 -> x < y.
Proof.
  induction l1 as [|a l1 IH]; cbn.
  - split; [intros H; split; [constructor|split; [done|]]; intros x y Hx; by apply elem_of_nil in Hx|by intros (_ & ? & _)].
  - split.
    + intros [Hl Ha]%StronglySorted_inv. apply IH in Hl as (H1 & H2 & H3). apply Forall_app in Ha as [Ha1 Ha2]. rewrite Forall_forall in Ha2.
      split; [by constructor|]. split; [done|]. intros x y [->|Hx]%elem_of_cons Hy; [by apply Ha2|by apply H3].
    + intros (H1 & H2 & H3). apply StronglySorted_inv in H1 as [H1 Ha]. constructor.
      * apply IH. split; [done|]. split; [done|]. intros x y Hx Hy. apply H3; [by right|done].
      * apply Forall_app. split; [done|]. apply Forall_forall. intros y Hy. apply H3; [by left|done].
Qed.
Lemma close_app p r : list_close (mkIter p r) = rev p ++ r.
Proof. apply rev_append_rev. Qed.
Lemma elem_of_rev_Z (x : Z) l : x ∈ rev l <-> x ∈ l.
Proof. by rewrite !list_elem_of_In, <- in_rev. Qed.

Definition list_ok (k : Z) (it : list_iter) : Prop := increasing (list_close it) /\ Forall (fun x => x < k) (passed it).
Lemma list_ok_weaken k k' it : k <= k' -> list_ok k it -> list_ok k' it.
Proof. intros Hk [H1 H2]. split; [done|]. eapply Forall_impl; [exact H2|]. cbn. lia. Qed.
Lemma list_ok_begin k l : increasing l -> list_ok k (list_begin l).
Proof. intros Hl. split; [exact Hl|constructor]. Qed.

Lemma list_insert_spec k it idx : list_ok k it -> k <= idx -> idx ∉ list_close it ->
  list_ok (idx + 1) (insert_to_iterator it idx) /\ forall x, x ∈ list_close (insert_to_iterator it idx) <-> x = idx \/ x ∈ list_close it.
Proof.
  destruct it as [p r]. unfold insert_to_iterator. cbn [passed rest]. intros Hok Hk Hn. apply (list_ok_weaken k idx _ Hk) in Hok. clear k Hk.
  revert p Hok Hn. induction r as [|y r IH]; intros p [Hinc Hp] Hn; cbn [insert_from]; rewrite ?close_app in *; cbn [passed] in Hp.
  - rewrite app_nil_r in Hinc, Hn. split; [split|].
    + rewrite close_app. apply increasing_app. split; [done|]. split; [repeat constructor|]. intros x y Hx ->%list_elem_of_singleton.
      rewrite elem_of_rev_Z in Hx. by rewrite Forall_forall in Hp; apply Hp.
    + cbn. eapply Forall_impl; [exact Hp|]. cbn. lia.
    + intros x. rewrite ?close_app, app_nil_r, elem_of_app, list_elem_of_singleton. tauto.
  - pose proof Hinc as Hinc'. apply increasing_app in Hinc' as (H1 & H2 & H3). apply StronglySorted_inv in H2 as [H2 Hy]. destruct (Z.ltb_spec idx y) as [Hlt|Hge].
    + split; [split|].
      * rewrite close_app. apply increasing_app. split; [done|]. split.
        -- constructor; [by constructor|]. constructor; [done|]. eapply Forall_impl; [exact Hy|]. cbn. lia.
        -- intros x z Hx Hz. rewrite elem_of_rev_Z in Hx. rewrite Forall_forall in Hp. specialize (Hp x Hx). apply elem_of_cons in Hz as [->|Hz]; [done|].
           enough (y <= z) by lia. apply elem_of_cons in Hz as [->|Hz]; [lia|]. rewrite Forall_forall in Hy. specialize (Hy z Hz). lia.
      * cbn. eapply Forall_impl; [exact Hp|]. cbn. lia.
      * intros x. rewrite ?close_app, !elem_of_app, !elem_of_cons. tauto.
    + assert (Hne : y <> idx) by (intros ->; apply Hn, elem_of_app; right; by left).
      assert (E : rev (y :: p) ++ r = rev p ++ y :: r) by (cbn; by rewrite <- app_assoc).
      destruct (IH (y :: p)) as [R1 R2].
      * split; [by rewrite close_app, E|]. cbn. constructor; [lia|done].
      * by rewrite close_app, E.
      * split; [done|]. intros x. by rewrite R2, close_app, E.
Qed.
Lemma erase_spec k it v : list_ok k it -> k <= v ->
  let '(b, it') := try_erase_from_iterator it v in
  list_ok v it' /\ (b = true <-> v ∈ list_close it) /\ forall x, x ∈ list_close it' <-> x ∈ list_close it /\ x <> v.
Proof.
  destruct it as [p r]. unfold try_erase_from_iterator. cbn [passed rest]. intros Hok Hk. apply (list_ok_weaken k v _ Hk) in Hok. clear k Hk.
  assert (Hpv : forall p, Forall (fun x => x < v) p -> v ∉ rev p).
  { intros q Hq Hin. rewrite elem_of_rev_Z in Hin. rewrite Forall_forall in Hq. specialize (Hq v Hin). lia. }
  revert p Hok. induction r as [|y r IH]; intros p [Hinc Hp]; cbn [erase_from]; rewrite ?close_app in *; cbn [passed] in Hp.
  - rewrite app_nil_r in *. split; [split; [by rewrite close_app, app_nil_r|done]|]. split; [split; [done|by intros ?%Hpv]|].
    intros x. rewrite ?close_app, ?app_nil_r. split; [|tauto]. intros Hx. split; [done|]. intros ->. by apply (Hpv p).
  - pose proof Hinc as Hinc'. apply increasing_app in Hinc' as (H1 & H2 & H3). apply StronglySorted_inv in H2 as [H2 Hy]. rewrite Forall_forall in Hy.
    destruct (Z.eqb_spec y v) as [->|Hne]; [|destruct (Z.ltb_spec v y) as [Hlt|Hge]].
    + split; [split; [|done]|].
      * rewrite close_app. apply increasing_app. split; [done|]. split; [done|]. intros x z Hx Hz. apply H3; [done|by right].
      * split; [split; [intros _; apply elem_of_app; right; by left|done]|]. intros x. rewrite ?close_app, !elem_of_app, elem_of_cons. split.
        -- intros [Hx|Hx]; [split; [tauto|]; intros ->; by apply (Hpv p)|]. split; [tauto|]. specialize (Hy x Hx). lia.
        -- tauto.
    + assert (Hnv : v ∉ rev p ++ y :: r).
      { intros [Hin|[->|Hin]%elem_of_cons]%elem_of_app; [by apply (Hpv p)|done|]. specialize (Hy v Hin). lia. }
      split; [split; [by rewrite close_app|done]|]. split; [split; [done|done]|]. intros x. rewrite ?close_app. split; [|tauto].
      intros Hx. split; [done|]. by intros ->.
    + assert (E : rev (y :: p) ++ r = rev p ++ y :: r) by (cbn; by rewrite <- app_assoc).
      specialize (IH (y :: p)). rewrite close_app, E in IH. apply IH. split; [by rewrite close_app, E|]. cbn. constructor; [lia|done].
Qed.

(** ** Pairs of lists for the entries 1 and -1 *)
Record signed (k : Z) (p q : list_iter) (f : Z -> Z) : Prop := {
  sg_pos : list_ok k p;
  sg_neg : list_ok k q;
  sg_in_pos : forall x, x ∈ list_close p <-> f x = 1;
  sg_in_neg : forall x, x ∈ list_close q <-> f x = -1;
  sg_range : forall x, -1 <= f x <= 1
}.
Definition bump (f : Z -> Z) (x d : Z) (y : Z) : Z := if decide (y = x) then f y + d else f y.
Definition unit (d : Z) : Prop := d = 1 \/ d = -1.
Lemma signed_ext k p q f g : (forall x, f x = g x) -> signed k p q f -> signed k p q g.
Proof. intros Hfg [H1 H2 H3 H4 H5]. constructor; [done|done|intros x; by rewrite <- Hfg..]. Qed.
Lemma signed_weaken k k' p q f : k <= k' -> signed k p q f -> signed k' p q f.
Proof. intros Hk [H1 H2 H3 H4 H5]. constructor; [by apply (list_ok_weaken k)|by apply (list_ok_weaken k)|done..]. Qed.
Lemma signed_swap k p q f : signed k p q f -> signed k q p (fun x => - f x).
Proof. intros [H1 H2 H3 H4 H5]. constructor; [done|done|intros x; rewrite H4; lia|intros x; rewrite H3; lia|intros x; specialize (H5 x); lia]. Qed.

Lemma signed_erase k p q f x : signed k p q f -> k <= x ->
  let '(b, q') := try_erase_from_iterator q x in
  (b = true /\ f x = -1 /\ signed (x + 1) p q' (bump f x 1)) \/ (b = false /\ f x <> -1 /\ signed x p q' f).
Proof.
  intros [H1 H2 H3 H4 H5] Hk. pose proof (erase_spec k q x H2 Hk) as Hsp. destruct (try_erase_from_iterator q x) as [b q'].
  destruct Hsp as (R1 & R2 & R3). destruct b.
  - left. assert (Ef : f x = -1) by by apply H4, R2. split; [done|]. split; [done|]. constructor.
    + apply (list_ok_weaken k); [lia|done].
    + apply (list_ok_weaken x); [lia|done].
    + intros y. unfold bump. rewrite H3. case_decide as Ey; [subst; lia|done].
    + intros y. unfold bump. rewrite R3, H4. case_decide as Ey; [subst; lia|tauto].
    + intros y. specialize (H5 y). unfold bump. case_decide as Ey; [subst; lia|done].
  - right. assert (Hne : f x <> -1) by (intros E; apply H4 in E; by apply R2 in E). split; [done|]. split; [done|]. constructor.
    + apply (list_ok_weaken k); [lia|done].
    + done.
    + done.
    + intros y. rewrite R3, H4. split; [tauto|]. intros E. split; [done|]. intros ->. done.
    + done.
Qed.
Lemma signed_insert k p q f x : signed k p q f -> k <= x -> f x = 0 -> signed (x + 1) (insert_to_iterator p x) q (bump f x 1).
Proof.
  intros [H1 H2 H3 H4 H5] Hk E. destruct (list_insert_spec k p x H1 Hk) as [R1 R2]; [rewrite H3; lia|]. constructor.
  - done.
  - apply (list_ok_weaken k); [lia|done].
  - intros y. unfold bump. rewrite R2, H3. case_decide as Ey; [subst; lia|]. tauto.
  - intros y. unfold bump. rewrite H4. case_decide as Ey; [subst; lia|done].
  - intros y. specialize (H5 y). unfold bump. case_decide as Ey; [subst; lia|done].
Qed.
Lemma bump_opp f x d y : - bump (fun z => - f z) x (- d) y = bump f x d y.
Proof. unfold bump. case_decide; lia. Qed.

(** One entry moves up: erased from the list of -1, or inserted into the list of 1. *)
Definition raise (p q : list_iter) (x : Z) : bool * (list_iter * list_iter) :=
  match try_erase_from_iterator q x with
  | (true, q) => (true, (p, q))
  | (false, q) => (false, (insert_to_iterator p x, q))
  end.
Lemma signed_raise k p q f x : signed k p q f -> k <= x -> -1 <= f x + 1 <= 1 ->
  let '(b, (p', q')) := raise p q x in signed (x + 1) p' q' (bump f x 1) /\ (if b then f x = -1 else f x = 0).
Proof.
  intros Hs Hk Hr. pose proof (signed_erase k p q f x Hs Hk) as He. unfold raise. destruct (try_erase_from_iterator q x) as [b q'].
  destruct He as [(-> & E & Hs')|(-> & E & Hs')]; [done|]. assert (Ez : f x = 0) by (pose proof (sg_range _ _ _ _ Hs x); lia). split; [|done]. apply (signed_insert x); [done|lia|done].
Qed.
Lemma signed_lower k p q f x : signed k p q f -> k <= x -> -1 <= f x + -1 <= 1 ->
  let '(b, (q', p')) := raise q p x in signed (x + 1) p' q' (bump f x (-1)) /\ (if b then f x = 1 else f x = 0).
Proof.
  intros Hs Hk Hr. pose proof (signed_raise k q p (fun y => - f y) x (signed_swap _ _ _ _ Hs) Hk ltac:(lia)) as H.
  destruct (raise q p x) as [b [q' p']]. destruct H as [H1 H2]. split; [|destruct b; lia].
  apply signed_swap in H1. eapply signed_ext; [|exact H1]. intros y. cbn. change (bump (fun y => - f y) x 1) with (bump (fun y => - f y) x (- -1)). apply bump_opp.
Qed.

(** ** Iterators of a row and of a column *)
Section Iterators.
Variable negs : list bool.
Definition row_ok (k : Z) (it : SignedTURow.iterator) (f : Z -> Z) : Prop :=
  signed k (SignedTURow.pos_it it) (SignedTURow.neg_it it) f /\ SignedTURow.it_negated it = negated negs (SignedTURow.row_idx it).
Definition col_ok (k : Z) (mc : SignedTUColumn.iterator) (g : Z -> Z) : Prop := signed k (SignedTUColumn.pos_it mc) (SignedTUColumn.neg_it mc) g.
(** What [coeff] adds to the stored entries of row [i]. *)
Definition stored_sign (i : Z) : Z := if negated negs i then -1 else 1.

Lemma col_raise k mc g i : col_ok k mc g -> k <= i -> g i = 0 ->
  col_ok (i + 1) (SignedTUColumn.mkIterator (insert_to_iterator (SignedTUColumn.pos_it mc) i) (SignedTUColumn.neg_it mc)) (bump g i 1).
Proof. intros Hs Hk E. by apply (signed_insert k). Qed.
Lemma col_lower k mc g i : col_ok k mc g -> k <= i -> g i = 0 ->
  col_ok (i + 1) (SignedTUColumn.mkIterator (SignedTUColumn.pos_it mc) (insert_to_iterator (SignedTUColumn.neg_it mc) i)) (bump g i (-1)).
Proof.
  intros Hs Hk E. pose proof (signed_insert k _ _ _ i (signed_swap _ _ _ _ Hs) Hk ltac:(cbn; lia)) as H. apply signed_swap in H.
  eapply signed_ext; [|exact H]. intros y. change (bump (fun y => - g y) i 1) with (bump (fun y => - g y) i (- -1)). apply bump_opp.
Qed.
Lemma col_erase_neg k mc g i : col_ok k mc g -> k <= i -> g i = -1 ->
  exists mc', SignedTUColumn.erase_neg i mc = Ok mc' /\ col_ok (i + 1) mc' (bump g i 1).
Proof.
  intros Hs Hk E. unfold SignedTUColumn.erase_neg. pose proof (signed_erase k _ _ _ i Hs Hk) as He.
  destruct (try_erase_from_iterator (SignedTUColumn.neg_it mc) i) as [b q]. destruct He as [(-> & _ & Hs')|(_ & Hne & _)]; [|done]. by eexists.
Qed.
Lemma col_erase_pos k mc g i : col_ok k mc g -> k <= i -> g i = 1 ->
  exists mc', SignedTUColumn.erase_pos i mc = Ok mc' /\ col_ok (i + 1) mc' (bump g i (-1)).
Proof.
  intros Hs Hk E. unfold SignedTUColumn.erase_pos. pose proof (signed_erase k _ _ _ i (signed_swap _ _ _ _ Hs) Hk) as He.
  destruct (try_erase_from_iterator (SignedTUColumn.pos_it mc) i) as [b p]. destruct He as [(-> & _ & Hs')|(_ & Hne & _)]; [|lia].
  eexists. split; [done|]. apply signed_swap in Hs'. eapply signed_ext; [|exact Hs']. intros y.
  change (bump (fun y => - g y) i 1) with (bump (fun y => - g y) i (- -1)). apply bump_opp.
Qed.

Definition guarded_insert (coeff j : Z) (it : SignedTURow.iterator) (mod_col : SignedTUColumn.iterator) :=
  if 0 <? coeff then SignedTURow.guarded_insert_pos negs j it mod_col else SignedTURow.guarded_insert_neg negs j it mod_col.
Lemma guarded_insert_spec c k j k' it mc f g : unit c -> row_ok k it f -> k <= j -> col_ok k' mc g -> k' <= SignedTURow.row_idx it ->
  f j = g (SignedTURow.row_idx it) -> let d := stored_sign (SignedTURow.row_idx it) * c in -1 <= f j + d <= 1 ->
  exists it' mc', guarded_insert c j it mc = Ok (it', mc') /\ row_ok (j + 1) it' (bump f j d) /\
    col_ok (SignedTURow.row_idx it + 1) mc' (bump g (SignedTURow.row_idx it) d) /\ SignedTURow.row_idx it' = SignedTURow.row_idx it.
Proof.
  destruct it as [p q ng i]. unfold row_ok, guarded_insert, stored_sign. cbn [SignedTURow.row_idx SignedTURow.it_negated SignedTURow.pos_it SignedTURow.neg_it].
  intros Hc [Hs En] Hk Hcol Hk' Efg. cbn zeta. intros Hr.
  assert (Hup : -1 <= f j + 1 <= 1 -> exists b p' q' mc', raise p q j = (b, (p', q')) /\ signed (j + 1) p' q' (bump f j 1) /\
    (if b then SignedTUColumn.erase_neg i mc else Ok (SignedTUColumn.mkIterator (insert_to_iterator (SignedTUColumn.pos_it mc) i) (SignedTUColumn.neg_it mc))) = Ok mc' /\
    col_ok (i + 1) mc' (bump g i 1)).
  { intros Hr'. pose proof (signed_raise k p q f j Hs Hk Hr') as H. destruct (raise p q j) as [b [p' q']]. destruct H as [H Hb]. exists b, p', q'.
    destruct b; rewrite Efg in Hb.
    - destruct (col_erase_neg k' mc g i Hcol Hk' Hb) as (mc' & E1 & E2). by exists mc'.
    - eexists. split; [done|]. split; [done|]. split; [done|]. by apply (col_raise k'). }
  assert (Hdown : -1 <= f j + -1 <= 1 -> exists b p' q' mc', raise q p j = (b, (q', p')) /\ signed (j + 1) p' q' (bump f j (-1)) /\
    (if b then SignedTUColumn.erase_pos i mc else Ok (SignedTUColumn.mkIterator (SignedTUColumn.pos_it mc) (insert_to_iterator (SignedTUColumn.neg_it mc) i))) = Ok mc' /\
    col_ok (i + 1) mc' (bump g i (-1))).
  { intros Hr'. pose proof (signed_lower k p q f j Hs Hk Hr') as H. destruct (raise q p j) as [b [q' p']]. destruct H as [H Hb]. exists b, p', q'.
    destruct b; rewrite Efg in Hb.
    - destruct (col_erase_pos k' mc g i Hcol Hk' Hb) as (mc' & E1 & E2). by exists mc'.
    - eexists. split; [done|]. split; [done|]. split; [done|]. by apply (col_lower k'). }
  destruct Hc as [-> | ->]; [change (0 <? 1) with true|change (0 <? -1) with false]; cbv iota; destruct (negated negs i) eqn:Eneg; subst ng;
    cbn [Z.mul Pos.mul Z.opp] in *;
    [destruct (Hdown Hr) as (b & p' & q' & mc' & Eb & Hs' & Emc & Hcol')|destruct (Hup Hr) as (b & p' & q' & mc' & Eb & Hs' & Emc & Hcol')|
     destruct (Hup Hr) as (b & p' & q' & mc' & Eb & Hs' & Emc & Hcol')|destruct (Hdown Hr) as (b & p' & q' & mc' & Eb & Hs' & Emc & Hcol')];
    unfold raise in Eb;
    unfold SignedTURow.guarded_insert_pos, SignedTURow.guarded_insert_neg, SignedTURow.try_erase_pos, SignedTURow.try_erase_neg,
      SignedTURow.erase_from_pos, SignedTURow.erase_from_neg, SignedTURow.insert_pos, SignedTURow.insert_neg, SignedTUColumn.it_remove_pos, SignedTUColumn.it_remove_neg,
      SignedTUColumn.it_insert_pos, SignedTUColumn.it_insert_neg, SignedTURow.with_pos, SignedTURow.with_neg;
    cbn [SignedTURow.row_idx SignedTURow.it_negated SignedTURow.pos_it SignedTURow.neg_it];
    destruct (try_erase_from_iterator _ j) as [[] r]; injection Eb as <- <- <-;
    cbn [SignedTURow.row_idx SignedTURow.it_negated SignedTURow.pos_it SignedTURow.neg_it]; rewrite Eneg; rewrite ?Emc; cbn [result_bind];
    first [injection Emc as <-|idtac]; (do 2 eexists; split; [reflexivity|]); repeat (split; [done|]); done.
Qed.

(** ** One column, and all columns of the pivot row *)
Definition raised (rows : list Z) (c : Z) (g : Z -> Z) (i : Z) : Z := if decide (i ∈ rows) then g i + stored_sign i * c else g i.
Lemma bump_rows_spec c k j (M : Z -> Z -> Z) its : unit c -> k <= j -> forall k' mc g,
  increasing (row_idx <$> its) -> Forall (fun it => k' <= row_idx it) its -> col_ok k' mc g ->
  Forall (fun it => row_ok k it (M (row_idx it)) /\ M (row_idx it) j = g (row_idx it) /\ -1 <= M (row_idx it) j + stored_sign (row_idx it) * c <= 1) its ->
  exists its' k'' mc', bump_rows negs j c its mc = Ok (its', mc') /\ row_idx <$> its' = row_idx <$> its /\
    Forall (fun it => row_ok (j + 1) it (bump (M (row_idx it)) j (stored_sign (row_idx it) * c))) its' /\
    col_ok k'' mc' (raised (row_idx <$> its) c g).
Proof.
  intros Hc Hk. induction its as [|it its IH]; intros k' mc g Hinc Hk' Hcol Hits; cbn [bump_rows fmap list_fmap] in *.
  { exists [], k', mc. split; [done|]. split; [done|]. split; [constructor|]. eapply signed_ext; [|exact Hcol]. intros i. unfold raised.
    rewrite decide_False; [done|]. apply not_elem_of_nil. }
  apply StronglySorted_inv in Hinc as [Hinc Hlt]. apply Forall_cons in Hk' as [Hk0 Hk'], Hits as [(Hrow & Efg & Hr) Hits].
  destruct (guarded_insert_spec c k j k' it mc _ g Hc Hrow Hk Hcol Hk0 Efg Hr) as (it1 & mc1 & E1 & R1 & C1 & I1).
  unfold guarded_insert in E1. rewrite E1. cbn [result_bind]. rewrite Forall_forall in Hlt.
  destruct (IH (row_idx it + 1) mc1 (bump g (row_idx it) (stored_sign (row_idx it) * c))) as (its' & k'' & mc' & E & EI & HR & HC).
  - done.
  - apply Forall_forall. intros it' Hit'. specialize (Hlt (row_idx it')). enough (row_idx it < row_idx it') by lia. apply Hlt, list_elem_of_fmap. by exists it'.
  - exact C1.
  - apply Forall_forall. intros it' Hit'. rewrite Forall_forall in Hits. destruct (Hits it' Hit') as (A1 & A2 & A3). split; [done|]. split; [|done].
    unfold bump. rewrite decide_False; [done|]. specialize (Hlt (row_idx it')). enough (row_idx it < row_idx it') by lia. apply Hlt, list_elem_of_fmap. by exists it'.
  - rewrite E. cbn [result_bind]. exists (it1 :: its'), k'', mc'. split; [done|]. split; [cbn; by rewrite EI, I1|]. split; [constructor; [by rewrite I1|done]|].
    eapply signed_ext; [|exact HC]. intros i. unfold raised, bump. destruct (decide (i = row_idx it)) as [->|Hne].
    + rewrite (decide_False (P := row_idx it ∈ row_idx <$> its)), decide_True; [done|by left|]. intros Hin. specialize (Hlt _ Hin). lia.
    + apply decide_ext. rewrite elem_of_cons. tauto.
Qed.

Fixpoint coeff_of (entries : list (Z * Z)) (j : Z) : Z :=
  match entries with
  | [] => 0
  | (j', c) :: entries => if decide (j = j') then c else coeff_of entries j
  end.
Lemma coeff_of_out entries j : j ∉ entries.*1 -> coeff_of entries j = 0.
Proof. induction entries as [|[j' c] entries IH]; cbn; [done|]. intros [H1 H2]%not_elem_of_cons. rewrite decide_False by done. by apply IH. Qed.
Definition col_rep (c : SignedTUColumn.t) (g : Z -> Z) : Prop := signed 0 (list_begin (SignedTUColumn.pos c)) (list_begin (SignedTUColumn.neg c)) g.
Lemma signed_close k p q f : signed k p q f -> signed 0 (list_begin (list_close p)) (list_begin (list_close q)) f.
Proof. intros [[H1 _] [H2 _] H3 H4 H5]. constructor; [by apply list_ok_begin|by apply list_ok_begin|done..]. Qed.

Lemma bump_cols_spec entries : forall k (M : Z -> Z -> Z) its s, negations s = negs -> increasing entries.*1 ->
  Forall (fun e => unit (snd e) /\ k <= fst e /\ 0 <= fst e < Z.of_nat (length (cols s)) /\ col_rep (col s (fst e)) (fun i => M i (fst e))) entries ->
  increasing (row_idx <$> its) -> Forall (fun it => 0 <= row_idx it) its -> Forall (fun it => row_ok k it (M (row_idx it))) its ->
  (forall i e, i ∈ row_idx <$> its -> e ∈ entries -> -1 <= M i (fst e) + stored_sign i * snd e <= 1) ->
  let M' i j := raised (row_idx <$> its) (coeff_of entries j) (fun i => M i j) i in
  exists its' s' k', bump_cols entries its s = Ok (its', s') /\ negations s' = negs /\ rows s' = rows s /\ length (cols s') = length (cols s) /\
    row_idx <$> its' = row_idx <$> its /\ Forall (fun it => row_ok k' it (M' (row_idx it))) its' /\
    forall j, 0 <= j -> (j ∈ entries.*1 -> col_rep (col s' j) (fun i => M' i j)) /\ (j ∉ entries.*1 -> col s' j = col s j).
Proof.
  induction entries as [|[j c] entries IH]; intros k M its s En Hinc Hent Hrows Hpos Hits Hrange; cbn zeta; cbn [bump_cols coeff_of].
  { exists its, s, k. do 5 (split; [done|]). split; [|intros j Hj; split; [by intros ?%elem_of_nil|done]]. eapply Forall_impl; [exact Hits|]. intros it [H1 H2]. split; [|done].
    eapply signed_ext; [|exact H1]. intros x. unfold raised. case_decide; lia. }
  cbn [fmap list_fmap] in Hinc. apply StronglySorted_inv in Hinc as [Hinc Hlt]. rewrite Forall_forall in Hlt. apply Forall_cons in Hent as [(Hc & Hk & Hj & Hcol) Hent]. cbn [fst snd] in *.
  rewrite Forall_forall in Hent. rewrite Forall_forall in Hits.
  destruct (bump_rows_spec c k j M its Hc Hk 0 (SignedTUColumn.begin (col s j)) (fun i => M i j) Hrows Hpos Hcol) as (its1 & k1 & mc & E1 & EI1 & R1 & C1).
  { apply Forall_forall. intros it Hit. split; [by apply Hits|]. split; [done|]. apply (Hrange _ (j, c)); [|by left]. apply list_elem_of_fmap. by exists it. }
  rewrite En, E1. cbn [result_bind]. set (M1 i j' := if decide (j' = j) then raised (row_idx <$> its) c (fun i => M i j) i else M i j').
  set (s1 := update_col (fun _ => SignedTUColumn.close mc) j s).
  assert (Hs1 : forall j', 0 <= j' -> j' <> j -> col s1 j' = col s j').
  { intros j' Hj' Hne. unfold s1, col, update_col, vec_update. cbn [cols]. rewrite list_lookup_alter. rewrite decide_False by lia. done. }
  assert (Hs1j : col s1 j = SignedTUColumn.close mc).
  { unfold s1, col, update_col, vec_update. cbn [cols]. rewrite list_lookup_alter, decide_True by done.
    destruct (lookup_lt_is_Some_2 (cols s) (Z.to_nat j)) as [x ->]; [lia|done]. }
  assert (Hl1 : length (cols s1) = length (cols s)) by (unfold s1, update_col, vec_update; cbn [cols]; by rewrite length_alter).
  assert (Hother : forall e, e ∈ entries -> j < fst e) by (intros e He; apply Hlt, list_elem_of_fmap; by exists e).
  destruct (IH (j + 1) M1 its1 s1) as (its' & s' & k' & E & En' & Er' & El' & EI' & R' & C').
  - done.
  - done.
  - apply Forall_forall. intros e He. destruct (Hent e He) as (A1 & A2 & A3 & A4). specialize (Hother e He). rewrite Hl1. split; [done|]. split; [lia|]. split; [done|].
    rewrite Hs1 by lia. eapply signed_ext; [|exact A4]. intros i. unfold M1. by rewrite decide_False by lia.
  - by rewrite EI1.
  - assert (Hpos' : Forall (fun i => 0 <= i) (row_idx <$> its1)) by (rewrite EI1; apply Forall_fmap; exact Hpos).
    rewrite Forall_fmap in Hpos'. exact Hpos'.
  - apply Forall_forall. intros it Hit. rewrite Forall_forall in R1. destruct (R1 it Hit) as [A1 A2]. split; [|done]. eapply signed_ext; [|exact A1]. intros x.
    unfold bump, M1, raised. case_decide as Ex; [|done]. rewrite decide_True; [by subst|]. rewrite <- EI1. apply list_elem_of_fmap. by exists it.
  - intros i e Hi He. rewrite EI1 in Hi. unfold M1. rewrite decide_False by (specialize (Hother e He); lia). apply Hrange; [done|by right].
  - rewrite EI1 in *. exists its', s', k'. split; [exact E|]. split; [done|]. split; [by rewrite Er'|]. split; [by rewrite El', Hl1|]. split; [done|]. split.
    + eapply Forall_impl; [exact R'|]. intros it [A1 A2]. split; [|done]. eapply signed_ext; [|exact A1]. intros x. unfold raised, M1.
      destruct (decide (x = j)) as [->|Hx]; [|done]. rewrite coeff_of_out by (intros Hin; specialize (Hlt j Hin); lia). unfold raised. repeat case_decide; lia.
    + intros j' Hj'. destruct (C' j' Hj') as [C1' C2']. destruct (decide (j' = j)) as [->|Hne].
      * split; [|intros Hn; destruct Hn; by left]. intros _. assert (Hn : j ∉ entries.*1) by (intros Hin; specialize (Hlt j Hin); lia).
        rewrite (C2' Hn), Hs1j. exact (signed_close _ _ _ _ C1).
      * split.
        -- intros [?|Hin]%elem_of_cons; [done|]. eapply signed_ext; [|by apply C1']. intros i. unfold raised, M1. by rewrite (decide_False (P := j' = j)).
        -- intros [_ Hn]%not_elem_of_cons. by rewrite (C2' Hn), Hs1.
Qed.
End Iterators.

(** ** Merged lists *)
Lemma before_increasing (l : list (Z * Z)) : Sorted before l -> NoDup l.*1 -> increasing l.*1.
Proof.
  intros Hs. assert (Hss : StronglySorted before l).
  { apply Sorted_StronglySorted; [|done]. intros a b c. unfold before. lia. }
  clear Hs. induction Hss as [|a l Hs IH Ha]; intros Hnd; [constructor|]. cbn in *. apply NoDup_cons in Hnd as [Hn Hnd]. constructor; [by apply IH|].
  apply Forall_forall. intros x Hx. assert (Hne : x <> a.1) by (by intros ->). apply list_elem_of_fmap in Hx as (b & -> & Hb). rewrite Forall_forall in Ha. specialize (Ha b Hb).
  unfold before in Ha. lia.
Qed.
Lemma increasing_NoDup l : increasing l -> NoDup l.
Proof.
  induction 1 as [|a l Hl IH Ha]; [constructor|]. constructor; [|done]. intros Hin. rewrite Forall_forall in Ha. specialize (Ha a Hin). lia.
Qed.
Lemma tagged_sorted (t : Z) l : increasing l -> Sorted before ((fun x => (x, t)) <$> l).
Proof.
  intros Hl. apply StronglySorted_Sorted. induction Hl as [|a l Hl IH Ha]; cbn; [constructor|]. constructor; [done|]. apply Forall_fmap. eapply Forall_impl; [exact Ha|].
  intros x Hx. unfold before. cbn. lia.
Qed.
Lemma tagged_fst (t : Z) (l : list Z) : ((fun x => (x, t)) <$> l).*1 = l.
Proof. induction l as [|a l IH]; [done|]. cbn. by rewrite IH. Qed.
(** The two lists of a representation, merged in either order. *)
Lemma merged_spec p q f a b : col_rep (SignedTUColumn.mk p q) f ->
  let l := list_merge before ((fun x => (x, a)) <$> p) ((fun x => (x, b)) <$> q) in
  increasing l.*1 /\ forall x t, (x, t) ∈ l <-> (f x = 1 /\ t = a) \/ (f x = -1 /\ t = b).
Proof.
  intros [[P _] [Q _] H3 H4 H5]. cbn zeta. change (increasing p) in P. change (increasing q) in Q. change (forall x, x ∈ p <-> f x = 1) in H3. change (forall x, x ∈ q <-> f x = -1) in H4.
  pose proof (merge_Permutation before ((fun x => (x, a)) <$> p) ((fun x => (x, b)) <$> q)) as Hp. split.
  - apply before_increasing; [apply Sorted_list_merge; [apply _|by apply tagged_sorted|by apply tagged_sorted]|].
    rewrite Hp, fmap_app, !tagged_fst. apply NoDup_app. split; [by apply increasing_NoDup|]. split; [|by apply increasing_NoDup].
    intros x Hx Hx'. apply H3 in Hx. apply H4 in Hx'. lia.
  - intros x t. rewrite Hp, elem_of_app, !list_elem_of_fmap. split.
    + intros [(y & [= -> ->] & Hy)|(y & [= -> ->] & Hy)]; [left; split; [by apply H3|done]|right; split; [by apply H4|done]].
    + intros [[Hx ->]|[Hx ->]]; [left|right]; exists x; (split; [done|]); [by apply H3|by apply H4].
Qed.
Lemma coeff_of_in entries j c : NoDup entries.*1 -> (j, c) ∈ entries -> coeff_of entries j = c.
Proof.
  induction entries as [|[j' c'] entries IH]; intros Hnd Hin; [by apply elem_of_nil in Hin|]. cbn in *. apply NoDup_cons in Hnd as [Hn Hnd].
  apply elem_of_cons in Hin as [[= -> ->]|Hin]; [by rewrite decide_True|]. rewrite decide_False; [by apply IH|].
  intros ->. apply Hn, list_elem_of_fmap. by exists (j', c).
Qed.
Lemma column_entries_spec c g : col_rep c g ->
  increasing (column_entries c).*1 /\ forall i t, (i, t) ∈ column_entries c <-> (t = 1 \/ t = -1) /\ g i = t.
Proof.
  intros Hc. destruct c as [p q]. apply signed_swap in Hc. destruct (merged_spec q p _ (-1) 1 Hc) as [H1 H2]. split; [exact H1|].
  intros i t. unfold column_entries. rewrite H2. lia.
Qed.
Lemma row_entries_spec (b : bool) r (f : Z -> Z) : signed 0 (list_begin (SignedTURow.pos r)) (list_begin (SignedTURow.neg r)) f ->
  let e := (fun j => if b then - f j else f j) in
  increasing (row_entries b r).*1 /\ (forall j t, (j, t) ∈ row_entries b r <-> (t = 1 \/ t = -1) /\ e j = t) /\ forall j, coeff_of (row_entries b r) j = e j.
Proof.
  intros Hf. cbn zeta. unfold row_entries. set (l := list_merge before ((fun j => (j, 1)) <$> SignedTURow.pos r) ((fun j => (j, -1)) <$> SignedTURow.neg r)). destruct (merged_spec _ _ _ 1 (-1) Hf) as [H1 H2]. fold l in H1, H2.
  set (F := fun e : Z * Z => let '(j, out) := e in (j, if b then - out else out)). change (row_entries b r) with (F <$> l).
  assert (E1 : (F <$> l).*1 = l.*1).
  { rewrite <- list_fmap_compose. apply list_fmap_ext. by intros i [j t] _. }
  assert (E2 : forall j t, (j, t) ∈ F <$> l <-> (t = 1 \/ t = -1) /\ (if b then - f j else f j) = t).
  { intros j t. rewrite list_elem_of_fmap. split.
    - intros ([j' t'] & [= -> ->] & Hin). apply H2 in Hin. destruct b; lia.
    - intros [Ht E]. exists (j, if b then - t else t). split; [unfold F; destruct b; f_equal; lia|]. apply H2. destruct b; lia. }
  split; [by rewrite E1|]. split; [exact E2|]. intros j. destruct (decide ((if b then - f j else f j) = 0)) as [Ez|Hnz].
  - rewrite Ez. apply coeff_of_out. intros ([j' t] & -> & Hin)%list_elem_of_fmap. apply E2 in Hin as [Ht E]. cbn in *. lia.
  - apply coeff_of_in; [rewrite E1; by apply increasing_NoDup|]. apply E2. split; [|done]. pose proof (sg_range _ _ _ _ Hf j). destruct b; lia.
Qed.

(** ** The touched rows *)
Lemma is_negated_negate s i j : 0 <= i < Z.of_nat (length (negations s)) -> 0 <= j -> is_negated (negate i s) j = xorb (bool_decide (j = i)) (is_negated s j).
Proof.
  intros Hi Hj. unfold is_negated, negated, negate, vec_update. cbn [negations]. rewrite list_lookup_alter.
  destruct (decide (j = i)) as [->|Hne].
  - rewrite decide_True, bool_decide_eq_true_2 by done. destruct (lookup_lt_is_Some_2 (negations s) (Z.to_nat i)) as [b ->]; [lia|]. by destruct b.
  - rewrite decide_False, bool_decide_eq_false_2 by lia. by destruct (default false _).
Qed.
Lemma touch_spec p l : forall s, increasing l.*1 -> Forall (fun e => 0 <= fst e < Z.of_nat (length (negations s))) l ->
  let '(s', touched, flipped, its) := touch p l s in
  rows s' = rows s /\ cols s' = cols s /\ length (negations s') = length (negations s) /\
  (forall i, i ∈ touched <-> i ∈ l.*1 /\ i <> p) /\ increasing touched /\ row_idx <$> its = touched /\
  (forall i, 0 <= i -> is_negated s' i = if decide (i ∈ touched) then negb (coeff_of l i <? 0) else is_negated s i) /\
  Forall (fun it => SignedTURow.pos_it it = list_begin (SignedTURow.pos (row s (row_idx it))) /\
    SignedTURow.neg_it it = list_begin (SignedTURow.neg (row s (row_idx it))) /\ SignedTURow.it_negated it = is_negated s' (row_idx it)) its /\
  NoDup flipped /\ (forall i, i ∈ flipped <-> i ∈ touched /\ is_negated s' i <> is_negated s i).
Proof.
  induction l as [|[i c] l IH]; intros s Hinc Hl; cbn [touch].
  { repeat (split; [done|]). split; [intros i; split; [by intros ?%elem_of_nil|by intros [?%elem_of_nil _]]|]. split; [constructor|]. split; [done|].
    split; [intros i _; by rewrite decide_False by apply not_elem_of_nil|]. split; [constructor|]. split; [constructor|].
    intros i. split; [by intros ?%elem_of_nil|by intros [?%elem_of_nil _]]. }
  cbn [fmap list_fmap] in Hinc. apply StronglySorted_inv in Hinc as [Hinc Hlt]. apply Forall_cons in Hl as [Hi Hl]. cbn [fst] in *. rewrite Forall_forall in Hlt.
  destruct (Z.eqb_spec i p) as [->|Hne].
  { specialize (IH s Hinc Hl). destruct (touch p l s) as [[[s' touched] flipped] its].
    destruct IH as (R1 & R2 & R3 & R4 & R5 & R6 & R7 & R8 & R9 & R10). repeat (split; [done|]). split.
    { intros j. rewrite R4. cbn. rewrite elem_of_cons. tauto. }
    repeat (split; [done|]). split; [|done]. intros j Hj. rewrite R7 by done. case_decide as Hin; [|done]. cbn [coeff_of].
    rewrite decide_False; [done|]. apply R4 in Hin. tauto. }
  set (flip := Bool.eqb (is_negated s i) (c <? 0)). set (s1 := if flip then negate i s else s).
  assert (Hs1 : rows s1 = rows s /\ cols s1 = cols s /\ length (negations s1) = length (negations s)).
  { unfold s1. destruct flip; [|done]. unfold negate, vec_update. cbn. by rewrite length_alter. }
  destruct Hs1 as (S1 & S2 & S3).
  assert (Hneg : forall j, 0 <= j -> is_negated s1 j = if decide (j = i) then negb (c <? 0) else is_negated s j).
  { intros j Hj. unfold s1, flip. destruct (decide (j = i)) as [->|Hji].
    - destruct (is_negated s i) eqn:E1, (c <? 0) eqn:E2; cbn; rewrite ?is_negated_negate, ?bool_decide_eq_true_2, ?E1 by done; done.
    - destruct (Bool.eqb _ _); [|done]. rewrite is_negated_negate, bool_decide_eq_false_2 by (done || lia). by destruct (is_negated s j). }
  specialize (IH s1 Hinc). rewrite S3 in IH. specialize (IH Hl). destruct (touch p l s1) as [[[s' touched] flipped] its].
  destruct IH as (R1 & R2 & R3 & R4 & R5 & R6 & R7 & R8 & R9 & R10). rewrite S1 in R1. rewrite S2 in R2.
  assert (Hit : i ∉ touched) by (intros Hin; apply R4 in Hin as [Hin _]; specialize (Hlt i Hin); lia).
  assert (Hi' : is_negated s' i = negb (c <? 0)) by (rewrite R7, decide_False, Hneg, decide_True by (done || lia); done).
  split; [done|]. split; [done|]. split; [done|]. split; [|split; [|split; [|split; [|split; [|split]]]]].
  - intros j. cbn. rewrite !elem_of_cons, R4. split; [intros [->|?]; tauto|tauto].
  - constructor; [done|]. apply Forall_forall. intros x Hx. apply R4 in Hx as [Hx _]. by apply Hlt.
  - cbn. by rewrite R6.
  - intros j Hj. rewrite R7 by done. cbn [coeff_of]. destruct (decide (j = i)) as [->|Hji].
    + rewrite decide_False, decide_True, Hneg, decide_True by (done || by left). done.
    + rewrite Hneg by done. rewrite !(decide_False (P := j = i)) by done. apply decide_ext. rewrite elem_of_cons. tauto.
  - constructor; [split; [|split]|].
    + cbn. unfold row. by rewrite S1.
    + cbn. unfold row. by rewrite S1.
    + cbn. by rewrite Hi', Hneg, decide_True by (done || lia).
    + eapply Forall_impl; [exact R8|]. intros it (A1 & A2 & A3). unfold row in *. rewrite <- S1. done.
  - unfold flip. destruct (Bool.eqb _ _); [|done]. constructor; [|done]. rewrite R10. tauto.
  - intros j. unfold flip. assert (Eflip : Bool.eqb (is_negated s i) (c <? 0) = true <-> is_negated s' i <> is_negated s i).
    { rewrite Hi'. by destruct (is_negated s i), (c <? 0). }
    assert (Hrec : j ∈ flipped <-> j ∈ touched /\ is_negated s' j <> is_negated s j).
    { rewrite R10. split; intros [Hj Hd]; (split; [done|]).
      - rewrite Hneg, decide_False in Hd; [done|by intros ->|]. apply R4 in Hj as [(e & -> & He)%list_elem_of_fmap _]. rewrite Forall_forall in Hl. by apply Hl.
      - rewrite Hneg, decide_False; [done|by intros ->|]. apply R4 in Hj as [(e & -> & He)%list_elem_of_fmap _]. rewrite Forall_forall in Hl. by apply Hl. }
    destruct (Bool.eqb _ _).
    + rewrite !elem_of_cons, Hrec. split; [intros [->|[? ?]]; [split; [by left|by apply Eflip]|tauto]|intros [[->|?] ?]; tauto].
    + rewrite elem_of_cons, Hrec. split; [tauto|]. intros [[->|?] Hd]; [|tauto]. by apply Eflip in Hd.
Qed.

(** ** Storing the rows *)
Lemma row_update_row s f i j : 0 <= i < Z.of_nat (length (rows s)) -> 0 <= j ->
  row (update_row f i s) j = if decide (j = i) then f (row s i) else row s j.
Proof.
  intros Hi Hj. unfold row, update_row, vec_update. cbn [rows]. rewrite list_lookup_alter. destruct (decide (j = i)) as [->|Hne].
  - rewrite decide_True by done. by destruct (lookup_lt_is_Some_2 (rows s) (Z.to_nat i)) as [r ->]; [lia|].
  - by rewrite decide_False by lia.
Qed.
Lemma length_update_row s f i : length (rows (update_row f i s)) = length (rows s).
Proof. unfold update_row, vec_update. cbn. by rewrite length_alter. Qed.
Lemma store_rows_spec its : forall s, NoDup (row_idx <$> its) -> Forall (fun it => 0 <= row_idx it < Z.of_nat (length (rows s))) its ->
  let s' := foldl store_row s its in
  negations s' = negations s /\ cols s' = cols s /\ length (rows s') = length (rows s) /\
  forall i, 0 <= i -> (i ∉ row_idx <$> its -> row s' i = row s i) /\
    forall it, it ∈ its -> row_idx it = i ->
      row s' i = SignedTURow.mk (list_close (SignedTURow.pos_it it)) (list_close (SignedTURow.neg_it it)) (SignedTURow.value (row s i)).
Proof.
  induction its as [|it its IH]; intros s Hnd Hr; cbn zeta; cbn [foldl].
  { do 3 (split; [done|]). intros i Hi. split; [done|]. by intros it ?%elem_of_nil. }
  cbn [fmap list_fmap] in Hnd. apply NoDup_cons in Hnd as [Hn Hnd]. apply Forall_cons in Hr as [Hi Hr].
  destruct (IH (store_row s it) Hnd) as (R1 & R2 & R3 & R4); [unfold store_row; by rewrite length_update_row|].
  split; [done|]. split; [done|]. split; [rewrite R3; unfold store_row; by rewrite length_update_row|]. intros i Hi0. destruct (R4 i Hi0) as [R5 R6].
  assert (E : row (store_row s it) i = if decide (i = row_idx it) then SignedTURow.mk (list_close (SignedTURow.pos_it it)) (list_close (SignedTURow.neg_it it))
    (SignedTURow.value (row s (row_idx it))) else row s i) by (unfold store_row; by rewrite row_update_row).
  split.
  - cbn. intros [Hne Hn']%not_elem_of_cons. rewrite R5, E, decide_False by done. done.
  - intros it' [->|Hin]%elem_of_cons Ei.
    + subst i. rewrite R5, E, decide_True by done. done.
    + rewrite (R6 it') by done. f_equal. rewrite E. rewrite decide_False; [done|]. intros ->. apply Hn. rewrite <- Ei. apply list_elem_of_fmap. by exists it'.
Qed.
Definition same_lists (s s' : t) : Prop :=
  negations s' = negations s /\ cols s' = cols s /\ length (rows s') = length (rows s) /\
  forall i, 0 <= i -> SignedTURow.pos (row s' i) = SignedTURow.pos (row s i) /\ SignedTURow.neg (row s' i) = SignedTURow.neg (row s i).
Lemma add_values_spec p touched : forall s, NoDup touched -> p ∉ touched -> 0 <= p -> Forall (fun i => 0 <= i < Z.of_nat (length (rows s))) touched ->
  let s' := foldl (fun s i => set_value i (i128 (get_value i s + get_value p s)) s) s touched in
  same_lists s s' /\ forall i, 0 <= i -> SignedTURow.value (row s' i) = if decide (i ∈ touched)
    then (let v := i128 (get_value i s + get_value p s) in if is_negated s i then i128 (- v) else v) else SignedTURow.value (row s i).
Proof.
  induction touched as [|i touched IH]; intros s Hnd Hp Hp0 Hr; cbn zeta; cbn [foldl].
  { split; [done|]. intros i _. rewrite decide_False; [done|]. apply not_elem_of_nil. }
  apply NoDup_cons in Hnd as [Hn Hnd]. apply not_elem_of_cons in Hp as [Hpi Hp]. apply Forall_cons in Hr as [Hi Hr].
  set (s1 := set_value i (i128 (get_value i s + get_value p s)) s).
  assert (E : forall j, 0 <= j -> row s1 j = if decide (j = i) then SignedTURow.set_value (is_negated s i) (i128 (get_value i s + get_value p s)) (row s i) else row s j).
  { intros j Hj. unfold s1, set_value. by apply row_update_row. }
  assert (El : length (rows s1) = length (rows s)) by (unfold s1, set_value; by rewrite length_update_row).
  destruct (IH s1 Hnd Hp Hp0) as [(R1 & R2 & R3 & R4) R5]; [by rewrite El|]. split.
  - split; [done|]. split; [done|]. split; [congruence|]. intros j Hj. destruct (R4 j Hj) as [-> ->]. rewrite E by done. by case_decide as Ej; [subst|].
  - intros j Hj. rewrite R5 by done. assert (Ev : forall k, 0 <= k -> k <> i -> get_value k s1 = get_value k s).
    { intros k Hk Hne. unfold get_value. rewrite E, decide_False by done. done. }
    destruct (decide (j = i)) as [->|Hne].
    + rewrite decide_False, (decide_True (P := i ∈ i :: touched)), E, decide_True by (done || by left). cbn. by destruct (is_negated s i).
    + rewrite (Ev p), E, (decide_False (P := j = i)) by done. destruct (decide (j ∈ touched)).
      * rewrite (decide_True (P := j ∈ i :: touched)) by by right. by rewrite (Ev j).
      * rewrite decide_False; [done|]. by intros [?|?]%elem_of_cons.
Qed.
Lemma negate_all_spec l : forall s, NoDup l -> Forall (fun i => 0 <= i < Z.of_nat (length (negations s))) l ->
  let s' := foldl (fun s i => negate i s) s l in
  rows s' = rows s /\ cols s' = cols s /\ length (negations s') = length (negations s) /\
  forall i, 0 <= i -> is_negated s' i = xorb (bool_decide (i ∈ l)) (is_negated s i).
Proof.
  induction l as [|j l IH]; intros s Hnd Hr; cbn zeta; cbn [foldl].
  { do 3 (split; [done|]). intros i _. rewrite bool_decide_eq_false_2; [by destruct (is_negated s i)|]. apply not_elem_of_nil. }
  apply NoDup_cons in Hnd as [Hn Hnd]. apply Forall_cons in Hr as [Hj Hr].
  assert (El : length (negations (negate j s)) = length (negations s)) by (unfold negate, vec_update; cbn; by rewrite length_alter).
  destruct (IH (negate j s) Hnd) as (R1 & R2 & R3 & R4); [by rewrite El|]. split; [done|]. split; [done|]. split; [congruence|].
  intros i Hi. rewrite R4, is_negated_negate by done. destruct (decide (i = j)) as [->|Hne].
  - rewrite (bool_decide_eq_false_2 (j ∈ l)), (bool_decide_eq_true_2 (j = j)), (bool_decide_eq_true_2 (j ∈ j :: l)) by (done || by left). by destruct (is_negated s j).
  - rewrite (bool_decide_eq_false_2 (i = j)) by done. rewrite (bool_decide_ext (i ∈ j :: l) (i ∈ l)); [by destruct (bool_decide _), (is_negated s i)|].
    rewrite elem_of_cons. tauto.
Qed.

(** ** The pivot *)
Record wf (m n : nat) (M : Z -> Z -> Z) (s : t) : Prop := {
  wf_negations : length (negations s) = m;
  wf_rows : length (rows s) = m;
  wf_cols : length (cols s) = n;
  wf_row : forall i, 0 <= i < Z.of_nat m -> signed 0 (list_begin (SignedTURow.pos (row s i))) (list_begin (SignedTURow.neg (row s i))) (M i);
  wf_col : forall j, 0 <= j < Z.of_nat n -> col_rep (col s j) (fun i => M i j);
  wf_out : forall i j, M i j <> 0 -> 0 <= i < Z.of_nat m /\ 0 <= j < Z.of_nat n;
  wf_value : forall i, 0 <= i < Z.of_nat m -> - 2 ^ 127 <= SignedTURow.value (row s i) < 2 ^ 127
}.
(** The entries with the signs of their rows. *)
Definition effective (s : t) (M : Z -> Z -> Z) (i j : Z) : Z := stored_sign (negations s) i * M i j.

Section Pivot.
Context (m n : nat) (M : Z -> Z -> Z) (s : t) (p c : Z).
Hypothesis Hwf : wf m n M s.
Hypothesis Hp : 0 <= p < Z.of_nat m.
Hypothesis Hc : 0 <= c < Z.of_nat n.
Abbreviation e := (effective s M).
Hypothesis Hone : e p c = 1.
Hypothesis Hrange : forall i j, 0 <= i < Z.of_nat m -> i <> p -> -1 <= e i j - e i c * e p j <= 1.
Hypothesis Hvalue : forall i, 0 <= i < Z.of_nat m -> - 2 ^ 126 < get_value i s < 2 ^ 126.

Lemma sign_unit i : stored_sign (negations s) i = 1 \/ stored_sign (negations s) i = -1.
Proof. unfold stored_sign. destruct (negated _ _); auto. Qed.
Lemma stored_range i j : 0 <= i < Z.of_nat m -> -1 <= M i j <= 1.
Proof. intros Hi. apply (sg_range _ _ _ _ (wf_row _ _ _ _ Hwf i Hi)). Qed.
Lemma col_entries : increasing (column_entries (col s c)).*1 /\ forall i t, (i, t) ∈ column_entries (col s c) <-> (t = 1 \/ t = -1) /\ M i c = t.
Proof. apply (column_entries_spec _ (fun i => M i c)), (wf_col _ _ _ _ Hwf c Hc). Qed.
Lemma col_range : Forall (fun e => 0 <= fst e < Z.of_nat (length (negations s))) (column_entries (col s c)).
Proof.
  apply Forall_forall. intros [i t] Hin. apply col_entries in Hin as [Ht Ei]. rewrite (wf_negations _ _ _ _ Hwf).
  by apply (wf_out _ _ _ _ Hwf i c); lia.
Qed.

(** The state after the first loop. *)
Definition pivot_matrix (touched : list Z) (negs : list bool) (i j : Z) : Z := raised negs touched (e p j) (fun i => M i j) i.
Lemma touched_sign (s1 : t) (touched : list Z) i :
  (forall i, i ∈ touched <-> i ∈ (column_entries (col s c)).*1 /\ i <> p) ->
  (forall i, 0 <= i -> is_negated s1 i = if decide (i ∈ touched) then negb (coeff_of (column_entries (col s c)) i <? 0) else is_negated s i) ->
  (i ∈ touched -> 0 <= i < Z.of_nat m /\ i <> p /\ stored_sign (negations s1) i = - M i c /\ (M i c = 1 \/ M i c = -1)) /\
  (0 <= i < Z.of_nat m -> i ∉ touched -> i <> p -> M i c = 0).
Proof.
  intros Ht Hn. destruct col_entries as [Hinc Hin]. split.
  - intros Hi. apply Ht in Hi as Hi'. destruct Hi' as [([i' t] & -> & He)%list_elem_of_fmap Hip]. cbn [fst] in *. apply Hin in He as He'. destruct He' as [Hu Ei].
    assert (Hir : 0 <= i' < Z.of_nat m) by (apply (wf_out _ _ _ _ Hwf i' c); lia). split; [done|]. split; [done|]. split; [|lia].
    unfold stored_sign. change (negated (negations s1) i') with (is_negated s1 i'). rewrite Hn, decide_True by (done || lia).
    rewrite (coeff_of_in _ i' t) by (done || by apply increasing_NoDup). destruct (Z.ltb_spec t 0); cbn; lia.
  - intros Hi Hnt Hip. destruct (decide (M i c = 0)) as [|Hne]; [done|]. destruct Hnt. apply Ht. split; [|done].
    apply list_elem_of_fmap. exists (i, M i c). split; [done|]. apply Hin. pose proof (stored_range i c Hi). lia.
Qed.
Lemma pivot_matrix_effective (touched : list Z) (s1 : t) i j :
  (i ∈ touched -> 0 <= i < Z.of_nat m /\ i <> p /\ stored_sign (negations s1) i = - M i c /\ (M i c = 1 \/ M i c = -1)) ->
  (0 <= i < Z.of_nat m -> i ∉ touched -> i <> p -> M i c = 0) -> 0 <= i < Z.of_nat m ->
  effective s (pivot_matrix touched (negations s1)) i j = if decide (i = p) then e p j else e i j - e i c * e p j.
Proof.
  intros Ht Hnt Hi. unfold pivot_matrix, raised, effective. destruct (decide (i ∈ touched)) as [Hin|Hin].
  - destruct (Ht Hin) as (_ & Hip & Es & Hu). rewrite decide_False by done. rewrite Es. nia.
  - destruct (decide (i = p)) as [->|Hip]; [done|]. rewrite (Hnt Hi Hin Hip). lia.
Qed.

Lemma pivot_values (touched : list Z) (s1 s2 : t) i : SignedTURow.value (row s2 p) = SignedTURow.value (row s p) -> SignedTURow.value (row s2 i) = SignedTURow.value (row s i) -> negations s2 = negations s1 ->
  (i ∈ touched -> 0 <= i < Z.of_nat m /\ i <> p /\ stored_sign (negations s1) i = - M i c /\ (M i c = 1 \/ M i c = -1)) ->
  is_negated s1 p = is_negated s p -> i ∈ touched ->
  let v := i128 (get_value i s2 + get_value p s2) in let w := if is_negated s2 i then i128 (- v) else v in
  - 2 ^ 127 <= w < 2 ^ 127 /\ (if is_negated s i then i128 (- w) else w) = get_value i s - e i c * get_value p s.
Proof.
  intros Hvalp Hvali En Ht Enp Hin. destruct (Ht Hin) as (Hi & Hip & Es & Hu). cbn zeta.
  pose proof (Hvalue i Hi) as Hvi. pose proof (Hvalue p Hp) as Hvp. pose proof (wf_value _ _ _ _ Hwf i Hi) as Hri. pose proof (wf_value _ _ _ _ Hwf p Hp) as Hrp.
  assert (Evp : get_value p s2 = get_value p s).
  { unfold get_value, SignedTURow.get_value. rewrite Hvalp. unfold is_negated in *. by rewrite En, Enp. }
  assert (Ei : get_value i s2 = stored_sign (negations s) i * stored_sign (negations s1) i * get_value i s).
  { unfold get_value, SignedTURow.get_value, stored_sign in *. rewrite Hvali. unfold is_negated in *. rewrite En.
    set (raw := SignedTURow.value (row s i)) in *. destruct (negated (negations s1) i), (negated (negations s) i).
    - lia.
    - rewrite (i128_id (- raw)) by lia. lia.
    - assert (E : i128 (- raw) = - raw) by (apply i128_id; destruct (decide (raw = - 2 ^ 127)) as [E|E]; [rewrite E in Hvi; destruct Hvi as [Hvi _]; by vm_compute in Hvi|lia]). rewrite E in *. lia.
    - lia. }
  assert (Eu : stored_sign (negations s) i * stored_sign (negations s1) i = - e i c) by (rewrite Es; unfold effective; lia).
  rewrite Evp, Ei, Eu. unfold is_negated in *. rewrite En. unfold effective in *. unfold stored_sign in *.
  destruct Hu as [Hu|Hu]; rewrite Hu in *; destruct (negated (negations s1) i), (negated (negations s) i); try lia;
    rewrite (i128_id (_ + _)) by lia; rewrite ?i128_id by lia; lia.
Qed.

Lemma pivot_row_entries s1 : rows s1 = rows s -> is_negated s1 p = is_negated s p ->
  increasing (row_entries (is_negated s1 p) (row s1 p)).*1 /\
  (forall j t, (j, t) ∈ row_entries (is_negated s1 p) (row s1 p) <-> (t = 1 \/ t = -1) /\ e p j = t) /\
  forall j, coeff_of (row_entries (is_negated s1 p) (row s1 p)) j = e p j.
Proof.
  intros Er En. rewrite En. replace (row s1 p) with (row s p) by (unfold row; by rewrite Er).
  destruct (row_entries_spec (is_negated s p) (row s p) (M p) (wf_row _ _ _ _ Hwf p Hp)) as (R1 & R2 & R3).
  assert (E : forall j, (if is_negated s p then - M p j else M p j) = e p j).
  { intros j. unfold effective, stored_sign. change (negated (negations s) p) with (is_negated s p). destruct (is_negated s p); lia. }
  split; [done|]. split; [|intros j; by rewrite R3, E]. intros j t. by rewrite R2, E.
Qed.

(** *** After the first loop *)
Section Touched.
Context (s1 : t) (touched flipped : list Z) (its : list SignedTURow.iterator).
Hypothesis Htouch : touch p (column_entries (col s c)) s = (s1, touched, flipped, its).
Abbreviation M' := (pivot_matrix touched (negations s1)).
Abbreviation entries := (row_entries (is_negated s1 p) (row s1 p)).

Lemma touched_facts : rows s1 = rows s /\ cols s1 = cols s /\ length (negations s1) = length (negations s) /\
  (forall i, i ∈ touched <-> i ∈ (column_entries (col s c)).*1 /\ i <> p) /\ increasing touched /\ row_idx <$> its = touched /\
  (forall i, 0 <= i -> is_negated s1 i = if decide (i ∈ touched) then negb (coeff_of (column_entries (col s c)) i <? 0) else is_negated s i) /\
  Forall (fun it => SignedTURow.pos_it it = list_begin (SignedTURow.pos (row s (row_idx it))) /\
    SignedTURow.neg_it it = list_begin (SignedTURow.neg (row s (row_idx it))) /\ SignedTURow.it_negated it = is_negated s1 (row_idx it)) its /\
  NoDup flipped /\ (forall i, i ∈ flipped <-> i ∈ touched /\ is_negated s1 i <> is_negated s i).
Proof. pose proof (touch_spec p (column_entries (col s c)) s (proj1 col_entries) col_range) as Ht. by rewrite Htouch in Ht. Qed.
Lemma touched_row i : i ∈ touched -> 0 <= i < Z.of_nat m /\ i <> p /\ stored_sign (negations s1) i = - M i c /\ (M i c = 1 \/ M i c = -1).
Proof. destruct touched_facts as (_ & _ & _ & T4 & _ & _ & T7 & _). apply (touched_sign s1 touched i T4 T7). Qed.
Lemma untouched_row i : 0 <= i < Z.of_nat m -> i ∉ touched -> i <> p -> M i c = 0.
Proof. destruct touched_facts as (_ & _ & _ & T4 & _ & _ & T7 & _). apply (touched_sign s1 touched i T4 T7). Qed.
Lemma pivot_untouched : p ∉ touched.
Proof. intros Hin. apply touched_row in Hin. tauto. Qed.
Lemma pivot_flag : is_negated s1 p = is_negated s p.
Proof. destruct touched_facts as (_ & _ & _ & _ & _ & _ & T7 & _). rewrite T7 by lia. rewrite decide_False; [done|apply pivot_untouched]. Qed.
Lemma pivot_entries : increasing entries.*1 /\ (forall j t, (j, t) ∈ entries <-> (t = 1 \/ t = -1) /\ e p j = t) /\ forall j, coeff_of entries j = e p j.
Proof. apply pivot_row_entries; [apply touched_facts|apply pivot_flag]. Qed.
Lemma new_effective i j : 0 <= i < Z.of_nat m -> effective s M' i j = if decide (i = p) then e p j else e i j - e i c * e p j.
Proof. intros Hi. apply pivot_matrix_effective; [apply touched_row|apply untouched_row|done]. Qed.
Lemma new_range i j : 0 <= i < Z.of_nat m -> -1 <= M' i j <= 1.
Proof.
  intros Hi. assert (He : -1 <= effective s M' i j <= 1).
  { rewrite new_effective by done. destruct (decide (i = p)) as [->|Hip]; [|by apply Hrange].
    unfold effective. pose proof (stored_range p j Hp). destruct (sign_unit p) as [-> | ->]; lia. }
  unfold effective in He. destruct (sign_unit i) as [E|E]; rewrite E in He; lia.
Qed.
Lemma entry_column j t : (j, t) ∈ entries -> 0 <= j < Z.of_nat n.
Proof.
  intros Hin. apply pivot_entries in Hin as [Ht Ej]. apply (wf_out _ _ _ _ Hwf p j). unfold effective in Ej. intros E0. rewrite E0 in Ej. lia.
Qed.
Lemma touched_range : Forall (fun it => 0 <= row_idx it < Z.of_nat m) its.
Proof.
  destruct touched_facts as (_ & _ & _ & _ & _ & T6 & _). apply Forall_forall. intros it Hit. apply touched_row. rewrite <- T6. apply list_elem_of_fmap. by exists it.
Qed.
Lemma raised_matrix i j : raised (negations s1) touched (coeff_of entries j) (fun i => M i j) i = M' i j.
Proof. unfold pivot_matrix. by rewrite (proj2 (proj2 pivot_entries)). Qed.

(** The second loop. *)
Lemma bump_cols_pivot : exists its' s2 k', bump_cols entries its s1 = Ok (its', s2) /\ negations s2 = negations s1 /\ rows s2 = rows s /\ length (cols s2) = n /\
  row_idx <$> its' = touched /\ Forall (fun it => row_ok (negations s1) k' it (M' (row_idx it))) its' /\
  forall j, 0 <= j < Z.of_nat n -> col_rep (col s2 j) (fun i => M' i j).
Proof.
  destruct touched_facts as (T1 & T2 & T3 & T4 & T5 & T6 & T7 & T8 & T9 & T10). destruct pivot_entries as (E1 & E2 & E3).
  pose proof touched_range as Htr. rewrite Forall_forall in T8. rewrite Forall_forall in Htr.
  destruct (bump_cols_spec (negations s1) entries 0 M its s1 eq_refl E1) as (its' & s2 & k & B1 & B2 & B3 & B4 & B5 & B6 & B7).
  - apply Forall_forall. intros [j t] Hin. cbn [fst snd]. pose proof (entry_column j t Hin) as Hj. apply E2 in Hin as [Ht Ej].
    split; [done|]. split; [lia|]. rewrite T2, (wf_cols _ _ _ _ Hwf). split; [done|]. unfold col. rewrite T2. by apply (wf_col _ _ _ _ Hwf).
  - by rewrite T6.
  - apply Forall_forall. intros it Hit. by apply Htr.
  - apply Forall_forall. intros it Hit. destruct (T8 it Hit) as (Epos & Eneg & Ei). unfold row_ok. rewrite Epos, Eneg. split; [|exact Ei].
    by apply (wf_row _ _ _ _ Hwf), Htr.
  - intros i [j t] Hi Hin. cbn [fst snd]. apply E2 in Hin as [_ Ej]. rewrite T6 in Hi. pose proof (new_range i j (proj1 (touched_row i Hi))) as HM.
    unfold pivot_matrix, raised in HM. rewrite decide_True in HM by done. by rewrite <- Ej.
  - rewrite T6 in *. exists its', s2, k. split; [done|]. split; [done|]. split; [congruence|]. split; [rewrite B4, T2; apply Hwf|]. split; [done|]. split.
    + eapply Forall_impl; [exact B6|]. intros it [A1 A2]. split; [|done]. eapply signed_ext; [|exact A1]. intros j. apply raised_matrix.
    + intros j Hj. destruct (B7 j ltac:(lia)) as [B8 B9]. destruct (decide (j ∈ entries.*1)) as [Hin|Hno].
      * eapply signed_ext; [|by apply B8]. intros i. apply raised_matrix.
      * rewrite (B9 Hno). replace (col s1 j) with (col s j) by (unfold col; by rewrite T2). eapply signed_ext; [|by apply (wf_col _ _ _ _ Hwf)].
        intros i. rewrite <- raised_matrix, coeff_of_out by done. unfold raised. case_decide; lia.
Qed.
(** The pivot column has a single entry left. *)
Lemma pivot_column i : M' i c = if decide (i = p) then stored_sign (negations s) p else 0.
Proof.
  destruct (decide (0 <= i < Z.of_nat m)) as [Hi|Hi].
  - pose proof (new_effective i c Hi) as Heff. rewrite Hone in Heff. unfold effective in Heff. case_decide as Hip; [subst|].
    + pose proof Hone as H1. unfold effective in H1. destruct (sign_unit p) as [E|E]; rewrite E in *; lia.
    + destruct (sign_unit i) as [E|E]; rewrite E in *; lia.
  - rewrite decide_False by (intros ->; done). unfold pivot_matrix, raised. rewrite decide_False by (intros Hin; apply touched_row in Hin; tauto).
    destruct (decide (M i c = 0)) as [|Hnz]; [done|]. by destruct (wf_out _ _ _ _ Hwf i c Hnz).
Qed.
Lemma single_column : col_rep (SignedTUColumn.set_single_pos (negations s1) p) (fun i => M' i c).
Proof.
  assert (Hsg : increasing [p]) by (repeat constructor). assert (Hnil : increasing []) by constructor.
  unfold SignedTUColumn.set_single_pos. change (negated (negations s1) p) with (is_negated s1 p). rewrite pivot_flag.
  eapply signed_ext; [intros i; symmetry; apply pivot_column|]. unfold stored_sign. change (negated (negations s) p) with (is_negated s p).
  destruct (is_negated s p); (constructor; [by apply list_ok_begin|by apply list_ok_begin|..]; intros x; cbn;
    rewrite ?list_elem_of_singleton; case_decide; split; intros; try (lia || done); by (exfalso; eapply not_elem_of_nil)).
Qed.

(** *** After the second loop *)
Section Stored.
Context (its' : list SignedTURow.iterator) (s2 : t) (k' : Z).
Hypothesis B2 : negations s2 = negations s1.
Hypothesis B3 : rows s2 = rows s.
Hypothesis B4 : length (cols s2) = n.
Hypothesis B5 : row_idx <$> its' = touched.
Hypothesis B6 : Forall (fun it => row_ok (negations s1) k' it (M' (row_idx it))) its'.
Hypothesis B7 : forall j, 0 <= j < Z.of_nat n -> col_rep (col s2 j) (fun i => M' i j).
Let s3 := foldl store_row s2 its'.
Let s4 := update_col (fun _ => SignedTUColumn.set_single_pos (negations s3) p) c s3.
Let s5 := foldl (fun s i => set_value i (i128 (get_value i s + get_value p s)) s) s4 touched.
Let s6 := foldl (fun s i => negate i s) s5 flipped.

Lemma stored_rows : negations s3 = negations s1 /\ cols s3 = cols s2 /\ length (rows s3) = m /\
  forall i, 0 <= i < Z.of_nat m -> SignedTURow.value (row s3 i) = SignedTURow.value (row s i) /\
    signed 0 (list_begin (SignedTURow.pos (row s3 i))) (list_begin (SignedTURow.neg (row s3 i))) (M' i).
Proof.
  destruct touched_facts as (T1 & T2 & T3 & T4 & T5 & T6 & T7 & T8 & T9 & T10).
  destruct (store_rows_spec its' s2) as (S1 & S2 & S3 & S4).
  { rewrite B5. by apply increasing_NoDup. }
  { apply Forall_forall. intros it Hit. rewrite B3, (wf_rows _ _ _ _ Hwf). apply touched_row. rewrite <- B5. apply list_elem_of_fmap. by exists it. }
  fold s3 in S1, S2, S3, S4. split; [congruence|]. split; [done|]. split; [rewrite S3, B3; apply Hwf|]. intros i Hi. destruct (S4 i ltac:(lia)) as [Ho Hin].
  assert (E : row s2 i = row s i) by (unfold row; by rewrite B3).
  destruct (decide (i ∈ row_idx <$> its')) as [(it & -> & Hit)%list_elem_of_fmap|Hno].
  - rewrite (Hin it) by done. cbn [SignedTURow.pos SignedTURow.neg SignedTURow.value]. rewrite E. split; [done|]. rewrite Forall_forall in B6.
    destruct (B6 it Hit) as [Hs _]. exact (signed_close _ _ _ _ Hs).
  - rewrite Ho, E by done. split; [done|]. eapply signed_ext; [|by apply (wf_row _ _ _ _ Hwf)]. intros j. unfold pivot_matrix, raised. rewrite B5 in Hno. by rewrite decide_False.
Qed.
Lemma stored_values : same_lists s4 s5 /\ forall i, 0 <= i -> SignedTURow.value (row s5 i) = if decide (i ∈ touched)
    then (let v := i128 (get_value i s4 + get_value p s4) in if is_negated s4 i then i128 (- v) else v) else SignedTURow.value (row s4 i).
Proof.
  destruct touched_facts as (T1 & T2 & T3 & T4 & T5 & T6 & T7 & T8 & T9 & T10). apply add_values_spec; [by apply increasing_NoDup|apply pivot_untouched|lia|].
  apply Forall_forall. intros i Hi. change (rows s4) with (rows s3). rewrite (proj1 (proj2 (proj2 stored_rows))). by apply touched_row.
Qed.
Lemma stored_flags : negations s5 = negations s1 /\ rows s6 = rows s5 /\ cols s6 = cols s5 /\ length (negations s6) = m /\
  forall i, 0 <= i -> is_negated s6 i = is_negated s i.
Proof.
  destruct touched_facts as (T1 & T2 & T3 & T4 & T5 & T6 & T7 & T8 & T9 & T10). destruct stored_rows as (S1 & _). destruct stored_values as [(A1 & _) _].
  assert (Nneg : negations s5 = negations s1) by (rewrite A1; exact S1).
  destruct (negate_all_spec flipped s5 T9) as (N1 & N2 & N3 & N4).
  { apply Forall_forall. intros i Hi. rewrite Nneg, T3, (wf_negations _ _ _ _ Hwf). apply T10 in Hi as [Hi _]. by apply touched_row. }
  split; [done|]. split; [done|]. split; [done|]. split; [unfold s6; rewrite N3, Nneg, T3; apply Hwf|].
  intros i Hi. unfold s6. rewrite N4 by done. unfold is_negated at 1. rewrite Nneg. change (negated (negations s1) i) with (is_negated s1 i).
  destruct (decide (i ∈ flipped)) as [Hin|Hin].
  - rewrite bool_decide_eq_true_2 by done. apply T10 in Hin as [_ Hne]. by destruct (is_negated s1 i), (is_negated s i).
  - rewrite bool_decide_eq_false_2 by done. destruct (decide (is_negated s1 i = is_negated s i)) as [->|Hne]; [by destruct (is_negated s i)|].
    destruct (decide (i ∈ touched)) as [Ht|Ht]; [destruct Hin; by apply T10|]. rewrite T7, decide_False in Hne by done. done.
Qed.
Lemma stored_value i : 0 <= i < Z.of_nat m -> - 2 ^ 127 <= SignedTURow.value (row s6 i) < 2 ^ 127 /\
  get_value i s6 = if decide (i = p) then get_value p s else get_value i s - e i c * get_value p s.
Proof.
  intros Hi. destruct stored_rows as (S1 & _ & _ & S4). destruct stored_values as [(A1 & _) A5]. destruct stored_flags as (N0 & N1 & _ & _ & N4).
  assert (Hrow : forall i, 0 <= i < Z.of_nat m -> SignedTURow.value (row s4 i) = SignedTURow.value (row s i)) by (intros j Hj; by apply S4).
  unfold get_value at 1. rewrite N4 by lia. unfold row. rewrite N1. change (default SignedTURow.new (rows s5 !! Z.to_nat i)) with (row s5 i).
  unfold SignedTURow.get_value. rewrite A5 by lia. destruct (decide (i ∈ touched)) as [Ht|Ht].
  - assert (Hip : i <> p) by (intros ->; by apply pivot_untouched). rewrite (decide_False (P := i = p)) by done.
    apply (pivot_values touched s1 s4 i); [apply Hrow; lia|by apply Hrow|exact S1|apply touched_row|apply pivot_flag|done].
  - rewrite Hrow by lia. split; [by apply (wf_value _ _ _ _ Hwf)|]. unfold get_value, SignedTURow.get_value. destruct (decide (i = p)) as [->|Hip]; [done|].
    unfold effective. rewrite (untouched_row i Hi Ht Hip). lia.
Qed.
Lemma stored_wf : wf m n M' s6.
Proof.
  destruct stored_rows as (S1 & S2 & S3 & S4). destruct stored_values as [(A1 & A2 & A3 & A4) _]. destruct stored_flags as (N0 & N1 & N2 & N3 & _). constructor.
  - exact N3.
  - rewrite N1, A3. exact S3.
  - rewrite N2, A2. unfold s4, update_col, vec_update. cbn [cols]. by rewrite length_alter, S2.
  - intros i Hi. unfold row. rewrite N1. change (default SignedTURow.new (rows s5 !! Z.to_nat i)) with (row s5 i). destruct (A4 i ltac:(lia)) as [-> ->].
    change (row s4 i) with (row s3 i). by apply S4.
  - intros j Hj. assert (Ecol : col s6 j = if decide (j = c) then SignedTUColumn.set_single_pos (negations s1) p else col s2 j).
    { unfold col. rewrite N2, A2. unfold s4, update_col, vec_update. cbn [cols]. rewrite S1, list_lookup_alter, S2. destruct (decide (j = c)) as [->|Hne].
      - rewrite decide_True by done. by destruct (lookup_lt_is_Some_2 (cols s2) (Z.to_nat c)) as [x ->]; [lia|].
      - by rewrite decide_False by lia. }
    rewrite Ecol. destruct (decide (j = c)) as [->|Hne]; [apply single_column|by apply B7].
  - intros i j Hne. unfold pivot_matrix, raised in Hne. destruct (decide (i ∈ touched)) as [Hin|Hno]; [|by apply (wf_out _ _ _ _ Hwf)].
    split; [by apply touched_row|]. destruct (decide (M i j = 0)) as [Hz|Hnz]; [|by apply (wf_out _ _ _ _ Hwf i j)].
    apply (wf_out _ _ _ _ Hwf p j). unfold effective in Hne. intros E0. rewrite Hz, E0 in Hne. lia.
  - intros i Hi. by apply stored_value.
Qed.
End Stored.
End Touched.

(** [do_pivot] does not throw, leaves the flags as they were, and gives the eliminated rows. *)
Lemma do_pivot_wf : exists s' M', do_pivot p c s = Ok s' /\ wf m n M' s' /\ (forall i, 0 <= i -> is_negated s' i = is_negated s i) /\
  (forall i j, 0 <= i < Z.of_nat m -> effective s M' i j = if decide (i = p) then e p j else e i j - e i c * e p j) /\
  forall i, 0 <= i < Z.of_nat m -> get_value i s' = if decide (i = p) then get_value p s else get_value i s - e i c * get_value p s.
Proof.
  unfold do_pivot. destruct (touch p (column_entries (col s c)) s) as [[[s1 touched] flipped] its] eqn:Ht.
  destruct (bump_cols_pivot s1 touched flipped its Ht) as (its' & s2 & k' & B1 & B2 & B3 & B4 & B5 & B6 & B7). rewrite B1. cbn [result_bind].
  eexists _, (pivot_matrix touched (negations s1)). split; [done|].
  split; [by apply (stored_wf s1 touched flipped its Ht its' s2 k')|]. split; [by apply (stored_flags s1 touched flipped its Ht its' s2 k')|].
  split; [intros i j Hi; by apply (new_effective s1 touched flipped its Ht)|]. intros i Hi. by apply (stored_value s1 touched flipped its Ht its' s2 k').
Qed.
End Pivot.
