(* ===== verification/SparseBuild.v ===== *)
(** * Filling the sparse tableau

    The operations that set a tableau up, [add_row], [set], [set_value] and [negate], keep
    both copies of the entries in step. *)
From stdpp Require Import base list strings sorting.
From S2P Require Import Prelude ObjectiveRow SparseTableau SparsePivot.
Import SparseTableau SignedTUColumn(negated).

Lemma u16_id z : 0 <= z < 2 ^ 16 -> u16 z = z.
Proof. intros Hz. unfold u16. by apply Z.mod_small. Qed.
Lemma col_update_col f j s j' : 0 <= j < Z.of_nat (length (cols s)) -> 0 <= j' -> col (update_col f j s) j' = if decide (j' = j) then f (col s j) else col s j'.
Proof.
  intros Hj Hj'. unfold col, update_col, vec_update. cbn [cols]. rewrite list_lookup_alter. destruct (decide (j' = j)) as [->|Hne].
  - rewrite decide_True by done. by destruct (lookup_lt_is_Some_2 (cols s) (Z.to_nat j)) as [x ->]; [lia|].
  - by rewrite decide_False by lia.
Qed.

(** A matrix with one more entry. *)
Definition fill (M : Z -> Z -> Z) (i j v : Z) (i' j' : Z) : Z := if decide (i' = i /\ j' = j) then v else M i' j'.
Lemma insert_signed (b : bool) pos neg f x : 0 <= x < 2 ^ 16 -> f x = 0 -> signed 0 (list_begin pos) (list_begin neg) f ->
  signed 0 (list_begin (if b then insert_to_list pos x else pos)) (list_begin (if b then neg else insert_to_list neg x)) (bump f x (if b then 1 else -1)).
Proof.
  intros Hx Ef Hs. unfold insert_to_list. rewrite u16_id by done. destruct b.
  - apply (signed_close (x + 1) _ (list_begin neg)). by apply (signed_insert 0); [|lia|].
  - pose proof (signed_insert 0 _ _ _ x (signed_swap _ _ _ _ Hs) ltac:(lia) ltac:(cbn; lia)) as H. apply signed_swap in H.
    apply (signed_close (x + 1) (list_begin pos)). eapply signed_ext; [|exact H]. intros y.
    change (bump (fun y => - f y) x 1) with (bump (fun y => - f y) x (- -1)). apply bump_opp.
Qed.

Section Operations.
Context (m n : nat) (M : Z -> Z -> Z) (s : t).
Hypothesis Hwf : wf m n M s.

Lemma set_wf i j v : 0 <= i < Z.of_nat m -> 0 <= j < Z.of_nat n -> i < 2 ^ 16 -> j < 2 ^ 16 -> M i j = 0 -> unit v -> is_negated s i = false ->
  wf m n (fill M i j v) (set i j v s) /\ negations (set i j v s) = negations s /\ forall i', 0 <= i' -> get_value i' (set i j v s) = get_value i' s.
Proof.
  intros Hi Hj Hi16 Hj16 E0 Hv Hneg. assert (Hli : 0 <= i < Z.of_nat (length (rows s))) by by rewrite (wf_rows _ _ _ _ Hwf).
  assert (Hlj : 0 <= j < Z.of_nat (length (cols s))) by by rewrite (wf_cols _ _ _ _ Hwf).
  assert (Erow : forall i', 0 <= i' -> row (set i j v s) i' = if decide (i' = i) then SignedTURow.set false j v (row s i) else row s i').
  { intros i' Hi'. unfold set. rewrite Hneg. change (row (update_col ?f ?k ?u) i') with (row u i'). by apply row_update_row. }
  assert (Ecol : forall j', 0 <= j' -> col (set i j v s) j' = if decide (j' = j) then SignedTUColumn.set (negations s) i v (col s j) else col s j').
  { intros j' Hj'. unfold set. by rewrite col_update_col. }
  assert (Hval : forall r, SignedTURow.value (SignedTURow.set false j v r) = SignedTURow.value r) by (intros r; unfold SignedTURow.set; by destruct (_ || _)).
  split; [|split; [done|]].
  - constructor.
    + apply Hwf.
    + unfold set, update_col, update_row, vec_update. cbn. rewrite length_alter. apply Hwf.
    + unfold set, update_col, update_row, vec_update. cbn. rewrite length_alter. apply Hwf.
    + intros i' Hi'. rewrite Erow by lia. pose proof (wf_row _ _ _ _ Hwf i' Hi') as Hs. destruct (decide (i' = i)) as [->|Hne].
      * pose proof (insert_signed (0 <? v) _ _ _ j ltac:(lia) E0 Hs) as Hin. eapply signed_ext; [|destruct Hv as [-> | ->]; exact Hin].
        intros x. unfold bump, fill. destruct (decide (x = j)) as [->|Hx]; [rewrite decide_True by done; destruct Hv as [-> | ->]; cbn; lia|by rewrite decide_False by tauto].
      * eapply signed_ext; [|exact Hs]. intros x. unfold fill. by rewrite decide_False by tauto.
    + intros j' Hj'. rewrite Ecol by lia. pose proof (wf_col _ _ _ _ Hwf j' Hj') as Hs. destruct (decide (j' = j)) as [->|Hne].
      * pose proof (insert_signed (0 <? v) _ _ _ i ltac:(lia) E0 Hs) as Hin.
        unfold SignedTUColumn.set, SignedTUColumn.insert_pos, SignedTUColumn.insert_neg. change (negated (negations s) i) with (is_negated s i). rewrite Hneg.
        eapply signed_ext; [|destruct Hv as [-> | ->]; exact Hin].
        intros x. unfold bump, fill. destruct (decide (x = i)) as [->|Hx]; [rewrite decide_True by done; destruct Hv as [-> | ->]; cbn; lia|by rewrite decide_False by tauto].
      * eapply signed_ext; [|exact Hs]. intros x. unfold fill. by rewrite decide_False by tauto.
    + intros i' j'. unfold fill. case_decide as E; [intros _; by destruct E as [-> ->]|apply Hwf].
    + intros i' Hi'. rewrite Erow by lia. case_decide as E; [rewrite Hval|]; by apply Hwf; subst.
  - intros i' Hi'. unfold get_value, SignedTURow.get_value. change (is_negated (set i j v s) i') with (is_negated s i').
    rewrite Erow by done. case_decide as E; [by rewrite Hval, E|done].
Qed.

Lemma add_row_wf : wf (S m) n M (add_row s) /\ (forall i, 0 <= i -> is_negated (add_row s) i = is_negated s i) /\
  forall i, 0 <= i -> get_value i (add_row s) = if decide (i = Z.of_nat m) then 0 else get_value i s.
Proof.
  assert (Hneg : forall i, 0 <= i -> is_negated (add_row s) i = is_negated s i).
  { intros i Hi. unfold is_negated, negated, add_row. cbn [negations]. destruct (decide (Z.to_nat i < m)%nat) as [Hlt|Hge].
    - rewrite lookup_app_l; [done|]. by rewrite (wf_negations _ _ _ _ Hwf).
    - rewrite (lookup_ge_None_2 (negations s)) by (rewrite (wf_negations _ _ _ _ Hwf); lia).
      rewrite lookup_app_r by (rewrite (wf_negations _ _ _ _ Hwf); lia). by destruct (_ - _)%nat as [|[]]. }
  assert (Erow : forall i, 0 <= i -> row (add_row s) i = if decide (i = Z.of_nat m) then SignedTURow.new else row s i).
  { intros i Hi. unfold row, add_row. cbn [rows]. destruct (decide (Z.to_nat i < m)%nat) as [Hlt|Hge].
    - rewrite lookup_app_l by by rewrite (wf_rows _ _ _ _ Hwf). by rewrite decide_False by lia.
    - rewrite (lookup_ge_None_2 (rows s)) by (rewrite (wf_rows _ _ _ _ Hwf); lia). rewrite lookup_app_r by (rewrite (wf_rows _ _ _ _ Hwf); lia).
      case_decide; by destruct (_ - _)%nat as [|[]]. }
  assert (Hout : forall j, M (Z.of_nat m) j = 0).
  { intros j. destruct (decide (M (Z.of_nat m) j = 0)) as [|Hne]; [done|]. apply (wf_out _ _ _ _ Hwf) in Hne. lia. }
  split; [|split; [done|]].
  - constructor.
    + unfold add_row. cbn. rewrite length_app, (wf_negations _ _ _ _ Hwf). cbn. lia.
    + unfold add_row. cbn. rewrite length_app, (wf_rows _ _ _ _ Hwf). cbn. lia.
    + apply Hwf.
    + intros i Hi. rewrite Erow by lia. destruct (decide (i = Z.of_nat m)) as [->|Hne]; [|apply (wf_row _ _ _ _ Hwf); lia].
      assert (Hnil : increasing []) by constructor.
      constructor; [by apply list_ok_begin|by apply list_ok_begin|..]; intros x; rewrite Hout; [| |lia];
        (split; [intros Hx; by apply elem_of_nil in Hx|done]).
    + apply Hwf.
    + intros i j Hne. apply (wf_out _ _ _ _ Hwf) in Hne. lia.
    + intros i Hi. rewrite Erow by lia. case_decide; [cbn; lia|apply Hwf; lia].
  - intros i Hi. unfold get_value. rewrite Erow, Hneg by done. case_decide; [by destruct (is_negated s i)|done].
Qed.

Lemma set_value_wf i v : 0 <= i < Z.of_nat m -> - 2 ^ 127 <= v < 2 ^ 127 -> is_negated s i = false ->
  wf m n M (set_value i v s) /\ negations (set_value i v s) = negations s /\
  forall i', 0 <= i' -> get_value i' (set_value i v s) = if decide (i' = i) then v else get_value i' s.
Proof.
  intros Hi Hv Hneg. assert (Hli : 0 <= i < Z.of_nat (length (rows s))) by by rewrite (wf_rows _ _ _ _ Hwf).
  assert (Erow : forall i', 0 <= i' -> row (set_value i v s) i' = if decide (i' = i) then SignedTURow.set_value false v (row s i) else row s i').
  { intros i' Hi'. unfold set_value. rewrite Hneg. by apply row_update_row. }
  split; [|split; [done|]].
  - constructor; [apply Hwf| |apply Hwf| |apply Hwf|apply Hwf|].
    + unfold set_value, update_row, vec_update. cbn. rewrite length_alter. apply Hwf.
    + intros i' Hi'. rewrite Erow by lia. case_decide as E; [subst; cbn|]; by apply (wf_row _ _ _ _ Hwf).
    + intros i' Hi'. rewrite Erow by lia. case_decide as E; [cbn; lia|by apply Hwf].
  - intros i' Hi'. unfold get_value. change (is_negated (set_value i v s) i') with (is_negated s i'). rewrite Erow by done.
    case_decide as E; [by rewrite E, Hneg|done].
Qed.

Lemma negate_wf i : 0 <= i < Z.of_nat m -> wf m n M (negate i s) /\
  (forall i', 0 <= i' -> is_negated (negate i s) i' = xorb (bool_decide (i' = i)) (is_negated s i')) /\
  rows (negate i s) = rows s.
Proof.
  intros Hi. assert (Hl : Forall (fun k => 0 <= k < Z.of_nat (length (negations s))) [i]) by (apply Forall_singleton; by rewrite (wf_negations _ _ _ _ Hwf)).
  destruct (negate_all_spec [i] s (NoDup_singleton i) Hl) as (H1 & H2 & H3 & H4). cbn [foldl] in *. split; [|split; [|done]].
  - constructor; [rewrite H3; apply Hwf|rewrite H1; apply Hwf|rewrite H2; apply Hwf| | |apply Hwf|].
    + intros i' Hi'. unfold row. rewrite H1. by apply (wf_row _ _ _ _ Hwf).
    + intros j Hj. unfold col. rewrite H2. by apply (wf_col _ _ _ _ Hwf).
    + intros i' Hi'. unfold row. rewrite H1. by apply (wf_value _ _ _ _ Hwf).
  - intros i' Hi'. rewrite H4 by done. f_equal. apply bool_decide_ext. by rewrite list_elem_of_singleton.
Qed.
End Operations.

Lemma new_wf n : wf 0 n (fun _ _ => 0) (new (Z.of_nat n)).
Proof.
  constructor; cbn; try done; try lia.
  - by rewrite Nat2Z.id, length_replicate.
  - intros j Hj. unfold col. cbn. rewrite lookup_replicate_2 by lia. cbn. assert (Hnil : increasing []) by constructor.
    constructor; [by apply list_ok_begin|by apply list_ok_begin|..]; intros x; [| |lia]; (split; [intros Hx; by apply elem_of_nil in Hx|done]).
Qed.
