(* ===== verification/SparseSimplex.v ===== *)
(** * The sparse simplex solver (src/simplex/simplex.h, simplex.cc)

    [SparseTUSimplex] pivots like the dense solver, on the sparse tableau, and takes the
    next column from the hints of the objective row. *)
From stdpp Require Import base list strings sorting relations.
From S2P Require Import Prelude NetworkLP ObjectiveRow SparseTableau SparsePivot.
Import SignedTUColumn(negated).

Module SparseTUSimplex.
Record t := mk {
  num_cols : Z;
  tableau : SparseTableau.t;
  objective_row : ObjectiveRow.t;
  active_cols : list bool;
  active_basis : list Z
}.
Implicit Types s : t.
(** The number of columns is a [uint16_t]. *)
Definition new (num_cols : Z) : t :=
  let num_cols := u16 num_cols in
  mk num_cols (SparseTableau.new num_cols) (ObjectiveRow.new num_cols) (replicate (Z.to_nat num_cols) false) [].
Definition with_tableau (tb : SparseTableau.t) s : t := mk (num_cols s) tb (objective_row s) (active_cols s) (active_basis s).
Definition with_objective (r : ObjectiveRow.t) s : t := mk (num_cols s) (tableau s) r (active_cols s) (active_basis s).

(** Every turn of the loop takes a hint away: [fuel] is their number. *)
Fixpoint pivot_column_loop (fuel : nat) (active_cols : list bool) (r : ObjectiveRow.t) : option Z * ObjectiveRow.t :=
  match ObjectiveRow.get_next_pos r with
  | (None, r) => (None, r)
  | (Some res, r) =>
      if default false (active_cols !! Z.to_nat res) then (Some res, r)
      else match fuel with O => (None, r) | S fuel => pivot_column_loop fuel active_cols r end
  end.
Definition get_next_pivot_column s : option Z * t :=
  let '(res, r) := pivot_column_loop (length (ObjectiveRow.nz_hints (objective_row s))) (active_cols s) (objective_row s) in (res, with_objective r s).
Definition get_next_pivot_row (pivot_col : Z) s : result Z := SparseTableau.get_pivot_row pivot_col (tableau s).
Definition do_pivot s : result (bool * t) :=
  match get_next_pivot_column s with
  | (None, s) => Ok (false, s)
  | (Some pivot_col, s) =>
      let* pivot_row := get_next_pivot_row pivot_col s in
      let* tb := SparseTableau.do_pivot pivot_row pivot_col (tableau s) in
      let pivot_constraint := SparseTableau.row tb pivot_row in
      let objective := ObjectiveRow.subtract_sparse (SignedTURow.pos pivot_constraint) (SignedTURow.neg pivot_constraint)
        (SparseTableau.get_value pivot_row tb) (SparseTableau.is_negated tb pivot_row) pivot_col (objective_row s) in
      Ok (true, mk (num_cols s) tb objective (active_cols s) (vec_update (fun _ => pivot_col) (Z.to_nat pivot_row) (active_basis s)))
  end.
Definition set_entry (row_idx col_idx value : Z) s : t := with_tableau (SparseTableau.set row_idx col_idx value (tableau s)) s.
Definition add_new_constraint_row s : t := with_tableau (SparseTableau.add_row (tableau s)) s.
(** [run_simplex], for at most [fuel] pivots; [None] when more are needed. *)
Fixpoint run_simplex (fuel : nat) s : option (result t) :=
  match do_pivot s with
  | Throw why => Some (Throw why)
  | Ok (false, s) => Some (Ok s)
  | Ok (true, s) => match fuel with O => None | S fuel => run_simplex fuel s end
  end.
End SparseTUSimplex.
Import SparseTUSimplex.

(** ** Choosing the row *)
Section PivotRow.
Variable tb : SparseTableau.t.
Definition best_of (C : Z -> Prop) (out : option Z) (v : Z) : Prop :=
  match out with
  | Some i => C i /\ v = SparseTableau.get_value i tb /\ forall k, C k -> v <= SparseTableau.get_value k tb
  | None => forall k, ~ C k
  end.
Lemma best_row_spec want l : forall (C : Z -> Prop) out v, best_of C out v ->
  let '(out', v') := SparseTableau.best_row want l tb out v in
  best_of (fun k => C k \/ k ∈ l /\ SparseTableau.is_negated tb k = want) out' v'.
Proof.
  assert (Hext : forall C D out v, (forall k, C k <-> D k) -> best_of C out v -> best_of D out v).
  { intros C D [i|] v HCD; cbn; [intros (H1 & H2 & H3); split; [by apply HCD|]; split; [done|]; intros k Hk; by apply H3, HCD|].
    intros H k Hk. by apply (H k), HCD. }
  induction l as [|i l IH]; intros C out v Hb; cbn [SparseTableau.best_row].
  { eapply Hext; [|exact Hb]. intros k. rewrite elem_of_nil. tauto. }
  destruct (Bool.eqb (SparseTableau.is_negated tb i) want) eqn:Ew; cbn [andb].
  - apply eqb_prop in Ew. set (D := fun k => C k \/ k = i).
    assert (Hb' : let take := match out with None => true | Some _ => SparseTableau.get_value i tb <? v end in
      best_of D (if take then Some i else out) (if take then SparseTableau.get_value i tb else v)).
    { cbn zeta. unfold D. destruct out as [o|]; [destruct (Z.ltb_spec (SparseTableau.get_value i tb) v)|].
      - split; [by right|]. split; [done|]. intros k [Hk| ->]; [|done]. destruct Hb as (_ & _ & H3). specialize (H3 k Hk). lia.
      - destruct Hb as (H1 & H2 & H3). split; [by left|]. split; [done|]. intros k [Hk| ->]; [by apply H3|done].
      - split; [by right|]. split; [done|]. intros k [Hk| ->]; [by destruct (Hb k)|done]. }
    cbn zeta in Hb'. set (take := match out with None => true | Some _ => _ end) in *.
    assert (E : (if take then SparseTableau.best_row want l tb (Some i) (SparseTableau.get_value i tb) else SparseTableau.best_row want l tb out v) =
      SparseTableau.best_row want l tb (if take then Some i else out) (if take then SparseTableau.get_value i tb else v)) by by destruct take.
    rewrite E. specialize (IH D _ _ Hb'). destruct (SparseTableau.best_row _ _ _ _ _) as [out' v']. eapply Hext; [|exact IH].
    intros k. unfold D. rewrite elem_of_cons. split; [intros [[?| ->]|?]; auto; tauto|intros [?|[[->|?] ?]]; tauto].
  - specialize (IH C out v Hb). destruct (SparseTableau.best_row _ _ _ _ _) as [out' v']. eapply Hext; [|exact IH]. intros k. rewrite elem_of_cons.
    split; [tauto|]. intros [?|[[->|?] E]]; [by left| |by right]. rewrite E, Bool.eqb_reflx in Ew. done.
Qed.
Lemma get_pivot_row_spec m n M j : wf m n M tb -> 0 <= j < Z.of_nat n -> (exists i, 0 <= i < Z.of_nat m /\ 0 < effective tb M i j) ->
  exists p, SparseTableau.get_pivot_row j tb = Ok p /\ 0 <= p < Z.of_nat m /\ 0 < effective tb M p j /\
    forall i, 0 <= i < Z.of_nat m -> 0 < effective tb M i j -> SparseTableau.get_value p tb <= SparseTableau.get_value i tb.
Proof.
  intros Hwf Hj (i0 & Hi0 & Hpos0). unfold SparseTableau.get_pivot_row.
  pose proof (best_row_spec false (SignedTUColumn.pos (SparseTableau.col tb j)) (fun _ => False) None 0 (fun _ H => H)) as H1.
  destruct (SparseTableau.best_row false _ tb None 0) as [out1 v1].
  pose proof (best_row_spec true (SignedTUColumn.neg (SparseTableau.col tb j)) _ out1 v1 H1) as H2.
  destruct (SparseTableau.best_row true _ tb out1 v1) as [out2 v2].
  assert (Hcol : forall k, ((False \/ k ∈ SignedTUColumn.pos (SparseTableau.col tb j) /\ SparseTableau.is_negated tb k = false) \/
    k ∈ SignedTUColumn.neg (SparseTableau.col tb j) /\ SparseTableau.is_negated tb k = true) <-> 0 <= k < Z.of_nat m /\ 0 < effective tb M k j).
  { intros k. pose proof (wf_col _ _ _ _ Hwf j Hj) as Hc. pose proof (sg_in_pos _ _ _ _ Hc k : k ∈ SignedTUColumn.pos (SparseTableau.col tb j) <-> _) as Hp.
    pose proof (sg_in_neg _ _ _ _ Hc k : k ∈ SignedTUColumn.neg (SparseTableau.col tb j) <-> _) as Hn. pose proof (sg_range _ _ _ _ Hc k) as Hr. cbn beta in Hr.
    rewrite Hp, Hn. unfold effective, stored_sign. change (negated (SparseTableau.negations tb) k) with (SparseTableau.is_negated tb k).
    pose proof (wf_out _ _ _ _ Hwf k j) as Hout. destruct (SparseTableau.is_negated tb k); (split; [intros [[[]|[Hk Hk']]|[Hk Hk']]; try done; split; [apply Hout; lia|lia]|]); intros [Hk Hk'];
      [right|left; right]; (split; [lia|done]). }
  destruct out2 as [p|].
  - destruct H2 as (Hp & -> & Hmin). exists p. split; [done|]. apply Hcol in Hp as Hp'. split; [apply Hp'|]. split; [apply Hp'|].
    intros i Hi Hpos. apply Hmin. apply Hcol. done.
  - destruct (H2 i0). apply Hcol. done.
Qed.
End PivotRow.

(** ** Choosing the column *)
Lemma pivot_column_loop_spec active fuel : forall r, (length (ObjectiveRow.nz_hints r) <= fuel)%nat ->
  let '(res, r') := pivot_column_loop fuel active r in
  ObjectiveRow.matrix_entries r' = ObjectiveRow.matrix_entries r /\ ObjectiveRow.row_value r' = ObjectiveRow.row_value r /\
  (forall x, x ∈ ObjectiveRow.nz_hints r' -> x ∈ ObjectiveRow.nz_hints r) /\
  (forall x, x ∈ ObjectiveRow.nz_hints r -> default false (active !! Z.to_nat x) = true -> 0 < ObjectiveRow.at_ r x -> x ∈ ObjectiveRow.nz_hints r' \/ res = Some x) /\
  match res with
  | Some c => c ∈ ObjectiveRow.nz_hints r /\ default false (active !! Z.to_nat c) = true /\ 0 < ObjectiveRow.at_ r c
  | None => ObjectiveRow.nz_hints r' = []
  end.
Proof.
  induction fuel as [|fuel IH]; intros r Hf; cbn [pivot_column_loop]; unfold ObjectiveRow.get_next_pos;
    pose proof (next_pos_spec (ObjectiveRow.matrix_entries r) (ObjectiveRow.nz_hints r)) as [Hsp Hsub];
    destruct (ObjectiveRow.next_pos _ _) as [[c|] hints]; cbn [snd] in Hsub.
  - destruct Hsp as (_ & _ & Hlt & _). lia.
  - destruct Hsp as [-> Hle]. cbn. split; [done|]. split; [done|]. split; [done|]. split; [|done]. intros x Hx _ Hpos. specialize (Hle x Hx). unfold ObjectiveRow.at_ in Hpos. lia.
  - destruct Hsp as (Hc & Hpos & Hlt & Hsplit). destruct (default false (active !! Z.to_nat c)) eqn:Ea.
    + cbn. split; [done|]. split; [done|]. split; [done|]. split; [|done]. intros x Hx Hax Hpx.
      destruct (Hsplit x Hx) as [?|[->|Hle]]; [by left|by right|]. unfold ObjectiveRow.at_ in Hpx. lia.
    + specialize (IH (ObjectiveRow.mk (ObjectiveRow.matrix_entries r) hints (ObjectiveRow.row_value r)) ltac:(cbn; lia)).
      destruct (pivot_column_loop fuel active _) as [res r']. destruct IH as (I1 & I2 & I3 & I4 & I5). cbn [ObjectiveRow.matrix_entries ObjectiveRow.nz_hints ObjectiveRow.row_value] in *.
      split; [done|]. split; [done|]. split; [intros x Hx; by apply Hsub, I3|]. split.
      * intros x Hx Hax Hpx. destruct (Hsplit x Hx) as [Hx'|[->|Hle]]; [by apply I4|congruence|]. unfold ObjectiveRow.at_ in Hpx. lia.
      * destruct res as [c'|]; [|done]. destruct I5 as (A1 & A2 & A3). split; [by apply Hsub|done].
  - destruct Hsp as [-> Hle]. cbn. split; [done|]. split; [done|]. split; [done|]. split; [|done]. intros x Hx _ Hpos. specialize (Hle x Hx). unfold ObjectiveRow.at_ in Hpos. lia.
Qed.

(** ** The solver's tableau *)
Implicit Types s : SparseTUSimplex.t.
Definition entry s (i j : nat) : Z :=
  SignedTURow.at_ (SparseTableau.is_negated (tableau s) (Z.of_nat i)) (Z.of_nat j) (SparseTableau.row (tableau s) (Z.of_nat i)).
Definition value s (i : nat) : Z := SparseTableau.get_value (Z.of_nat i) (tableau s).
Definition basis s (i : nat) : nat := Z.to_nat (default 0 (active_basis s !! i)).
Definition objective s (j : nat) : Z := ObjectiveRow.at_ (objective_row s) (Z.of_nat j).
Definition objective_value s : Z := ObjectiveRow.row_value (objective_row s).
Definition active s (j : nat) : bool := default false (active_cols s !! j).

Lemma row_entry_effective m n M tb i j : wf m n M tb -> 0 <= i < Z.of_nat m ->
  SignedTURow.at_ (SparseTableau.is_negated tb i) j (SparseTableau.row tb i) = effective tb M i j.
Proof.
  intros Hwf Hi. pose proof (wf_row _ _ _ _ Hwf i Hi) as Hs. unfold SignedTURow.at_, effective, stored_sign.
  change (negated (SparseTableau.negations tb) i) with (SparseTableau.is_negated tb i).
  pose proof (sg_in_pos _ _ _ _ Hs j : j ∈ SignedTURow.pos (SparseTableau.row tb i) <-> _) as Hp.
  pose proof (sg_in_neg _ _ _ _ Hs j : j ∈ SignedTURow.neg (SparseTableau.row tb i) <-> _) as Hn. pose proof (sg_range _ _ _ _ Hs j).
  destruct (SparseTableau.is_negated tb i); destruct (decide (j ∈ SignedTURow.pos _)) as [H1|H1]; [apply Hp in H1; lia| |apply Hp in H1; lia|];
    destruct (decide (j ∈ SignedTURow.neg _)) as [H2|H2]; try (apply Hn in H2; lia); rewrite Hp in H1; rewrite Hn in H2; lia.
Qed.
Lemma sparse_entry_at b r j : sparse_entry b (SignedTURow.pos r) (SignedTURow.neg r) j = SignedTURow.at_ b j r.
Proof. unfold sparse_entry, SignedTURow.at_. repeat case_decide; by destruct b. Qed.

(** The debugging check never fails on a tableau in step. *)
Lemma increasing_checked l : increasing l -> forall w, match w with Some w => Forall (fun x => w < x) l | None => True end -> SparseTableau.check_incr_list w l = true.
Proof.
  induction 1 as [|x l Hl IH Hx]; intros w Hw; cbn; [done|]. apply andb_true_intro. split; [|by apply IH].
  destruct w as [w|]; [|done]. apply Forall_cons in Hw as [Hw _]. by apply Z.ltb_lt.
Qed.
Lemma column_entry_effective m n M tb i j : wf m n M tb -> 0 <= j < Z.of_nat n ->
  SignedTUColumn.at_ (SparseTableau.negations tb) i (SparseTableau.col tb j) = effective tb M i j.
Proof.
  intros Hwf Hj. pose proof (wf_col _ _ _ _ Hwf j Hj) as Hs. unfold SignedTUColumn.at_, effective, stored_sign.
  pose proof (sg_in_pos _ _ _ _ Hs i : i ∈ SignedTUColumn.pos (SparseTableau.col tb j) <-> _) as Hp.
  pose proof (sg_in_neg _ _ _ _ Hs i : i ∈ SignedTUColumn.neg (SparseTableau.col tb j) <-> _) as Hn. pose proof (sg_range _ _ _ _ Hs i) as Hr. cbn beta in Hp, Hn, Hr.
  destruct (negated _ i); destruct (decide (i ∈ SignedTUColumn.pos _)) as [H1|H1]; [apply Hp in H1; lia| |apply Hp in H1; lia|];
    destruct (decide (i ∈ SignedTUColumn.neg _)) as [H2|H2]; try (apply Hn in H2; lia); rewrite Hp in H1; rewrite Hn in H2; lia.
Qed.
Lemma wf_integrity m n M tb : wf m n M tb -> SparseTableau.integrity_check tb = true.
Proof.
  intros Hwf. unfold SparseTableau.integrity_check. rewrite (wf_rows _ _ _ _ Hwf), (wf_cols _ _ _ _ Hwf).
  assert (Hinc : forall p q f, signed 0 (list_begin p) (list_begin q) f -> SparseTableau.check_incr_list None p = true /\ SparseTableau.check_incr_list None q = true).
  { intros p q f Hs. split; apply increasing_checked; [apply Hs|done|apply Hs|done]. }
  apply andb_true_intro. split; apply forallb_forall.
  - intros i Hi%list_elem_of_In%elem_of_seqZ. destruct (Hinc _ _ _ (wf_row _ _ _ _ Hwf i ltac:(lia))) as [-> ->]. rewrite !andb_true_r.
    apply forallb_forall. intros j Hj%list_elem_of_In%elem_of_seqZ. unfold SparseTableau.get.
    by rewrite (row_entry_effective m n M), (column_entry_effective m n M), Z.eqb_refl by (done || lia).
  - intros j Hj%list_elem_of_In%elem_of_seqZ. by destruct (Hinc _ _ _ (wf_col _ _ _ _ Hwf j ltac:(lia))) as [-> ->].
Qed.

(** ** One pivot *)
Section SparseRefine.
Variables m n nodes : nat.
Variables tail head : nat -> nat.
Hypothesis tail_node : forall j, (j < n)%nat -> (tail j < nodes)%nat.
Hypothesis head_node : forall j, (j < n)%nat -> (head j < nodes)%nat.
Variables (A0 : nat -> nat -> Z) (b0 c0 : nat -> Z) (act : nat -> bool).
Variables bound spread : Z.
Hypothesis spread_pos : 0 < spread.
Hypothesis fits : fitting_problem m n tail head A0 b0 c0 act bound spread.
Abbreviation lp_tableau := (NetworkLP.tableau m n nodes tail head A0 b0 c0 act).
Abbreviation pivoted := (NetworkLP.pivoted m n).

Record sparse_holds s : Prop := {
  sd_wf : exists M, wf m n M (tableau s);
  sd_active : forall j, (j < n)%nat -> active s j = act j;
  sd_basis : length (active_basis s) = m;
  sd_costs : length (ObjectiveRow.matrix_entries (objective_row s)) = n;
  sd_hints_range : Forall (in_row n) (ObjectiveRow.nz_hints (objective_row s));
  sd_hints : forall j, (j < n)%nat -> act j = true -> 0 < objective s j -> Z.of_nat j ∈ ObjectiveRow.nz_hints (objective_row s);
  sd_tableau : exists P, lp_tableau (entry s) (value s) (objective s) (objective_value s) P (basis s)
}.
(** The state after a pivot. *)
Definition pivot_on (p c : Z) (tb : SparseTableau.t) s : SparseTUSimplex.t :=
  SparseTUSimplex.mk (num_cols s) tb
    (ObjectiveRow.subtract_sparse (SignedTURow.pos (SparseTableau.row tb p)) (SignedTURow.neg (SparseTableau.row tb p))
      (SparseTableau.get_value p tb) (SparseTableau.is_negated tb p) c (objective_row s))
    (active_cols s) (vec_update (fun _ => c) (Z.to_nat p) (active_basis s)).

Section Pivoting.
Context (s : SparseTUSimplex.t) (p c : nat).
Hypothesis wf_s : exists M, wf m n M (tableau s).
Hypothesis active_s : forall j, (j < n)%nat -> active s j = act j.
Hypothesis basis_s : length (active_basis s) = m.
Hypothesis costs_s : length (ObjectiveRow.matrix_entries (objective_row s)) = n.
Hypothesis range_s : Forall (in_row n) (ObjectiveRow.nz_hints (objective_row s)).
(** Every active column of positive cost is still hinted at, except the pivot column. *)
Hypothesis hints_s : forall j, (j < n)%nat -> act j = true -> 0 < objective s j -> Z.of_nat j ∈ ObjectiveRow.nz_hints (objective_row s) \/ j = c.
Hypothesis tableau_s : exists P, lp_tableau (entry s) (value s) (objective s) (objective_value s) P (basis s).
Hypothesis p_row : (p < m)%nat.
Hypothesis c_col : (c < n)%nat.
Hypothesis c_active : act c = true.
Hypothesis entry_pos : 0 < entry s p c.
Hypothesis p_min : forall i, (i < m)%nat -> 0 < entry s i c -> value s p <= value s i.

Let A' (i j : nat) := if decide (i = p) then entry s p j else entry s i j - entry s i c * entry s p j.
Let b' (i : nat) := if decide (i = p) then value s p else value s i - entry s i c * value s p.
Let o' (j : nat) := objective s j - objective s c * entry s p j.
Let z' := objective_value s - objective s c * value s p.
Lemma exact_pivoted : pivoted p c (entry s) (value s) (objective s) (objective_value s) A' b' o' z'.
Proof. constructor; unfold A', b'; intros; first [done|by rewrite decide_True|by rewrite decide_False]. Qed.
Lemma entry_one : entry s p c = 1.
Proof.
  destruct wf_s as [M Hwf]. pose proof entry_pos as H. unfold entry in *. rewrite (row_entry_effective m n M) in H |- * by (done || lia). unfold effective, stored_sign in *.
  pose proof (sg_range _ _ _ _ (wf_row _ _ _ _ Hwf (Z.of_nat p) ltac:(lia)) (Z.of_nat c)). destruct (negated _ _); lia.
Qed.
Lemma exact_tableau : exists P, lp_tableau A' b' o' z' P (pivot_basis (basis s) p c).
Proof. destruct tableau_s as [P Ht]. exists (pivot_potential (entry s) P p c). eapply tableau_pivot; eauto using exact_pivoted, entry_one. Qed.
Lemma before_fits : (forall i, (i < m)%nat -> 0 <= value s i < 2 ^ 126) /\ (forall j, (j < n)%nat -> - 2 ^ 7 < objective s j < 2 ^ 7).
Proof.
  destruct tableau_s as [P Ht]. by destruct (tableau_fits m n nodes tail head tail_node head_node A0 b0 c0 act bound spread _ _ _ _ _ _ fits Ht) as (_ & H1 & _ & H2).
Qed.

Lemma sparse_do_pivot : exists tb M', SparseTableau.do_pivot (Z.of_nat p) (Z.of_nat c) (tableau s) = Ok tb /\ wf m n M' tb /\
  (forall i j, (i < m)%nat -> SignedTURow.at_ (SparseTableau.is_negated tb (Z.of_nat i)) (Z.of_nat j) (SparseTableau.row tb (Z.of_nat i)) = A' i j) /\
  forall i, (i < m)%nat -> SparseTableau.get_value (Z.of_nat i) tb = b' i.
Proof.
  destruct wf_s as [M Hwf]. destruct before_fits as [Hb _].
  assert (He : forall i j, (i < m)%nat -> effective (tableau s) M (Z.of_nat i) (Z.of_nat j) = entry s i j).
  { intros i j Hi. unfold entry. symmetry. apply (row_entry_effective m n); [done|lia]. }
  destruct (do_pivot_wf m n M (tableau s) (Z.of_nat p) (Z.of_nat c) Hwf) as (tb & M' & E & Hwf' & Hneg & Heff & Hval); [lia|lia|rewrite He by done; apply entry_one| | |].
  - intros i j Hi Hne. destruct (decide (0 <= j < Z.of_nat n)) as [Hj|Hj].
    + destruct exact_tableau as [P Ht]. destruct (tableau_fits m n nodes tail head tail_node head_node A0 b0 c0 act bound spread _ _ _ _ _ _ fits Ht) as (HA & _).
      specialize (HA (Z.to_nat i) (Z.to_nat j) ltac:(lia) ltac:(lia)). unfold A' in HA. rewrite decide_False in HA by lia. rewrite <- !He in HA by lia.
      by rewrite !Z2Nat.id in HA by lia.
    + assert (Hz : forall i, M i j = 0) by (intros i'; destruct (decide (M i' j = 0)) as [|Hnz]; [done|]; by destruct (wf_out _ _ _ _ Hwf i' j Hnz)).
      unfold effective. rewrite !Hz. lia.
  - intros i Hi. specialize (Hb (Z.to_nat i) ltac:(lia)). unfold value in Hb. rewrite Z2Nat.id in Hb by lia. lia.
  - exists tb, M'. split; [done|]. split; [done|]. split.
    + intros i j Hi. rewrite (row_entry_effective m n M' tb) by (done || lia). unfold effective, stored_sign.
      change (negated (SparseTableau.negations tb) (Z.of_nat i)) with (SparseTableau.is_negated tb (Z.of_nat i)). rewrite Hneg by lia.
      change (effective (tableau s) M' (Z.of_nat i) (Z.of_nat j) = A' i j). rewrite Heff by lia. unfold A'. rewrite !He by done.
      destruct (decide (i = p)) as [->|Hne]; [by rewrite decide_True|by rewrite decide_False by lia].
    + intros i Hi. rewrite Hval by lia. rewrite He by done. unfold b', value. destruct (decide (i = p)) as [->|Hne]; [by rewrite decide_True|by rewrite decide_False by lia].
Qed.

Section Next.
Context (tb : SparseTableau.t) (M' : Z -> Z -> Z).
Hypothesis wf_tb : wf m n M' tb.
Hypothesis entry_tb : forall i j, (i < m)%nat ->
  SignedTURow.at_ (SparseTableau.is_negated tb (Z.of_nat i)) (Z.of_nat j) (SparseTableau.row tb (Z.of_nat i)) = A' i j.
Hypothesis value_tb : forall i, (i < m)%nat -> SparseTableau.get_value (Z.of_nat i) tb = b' i.
Abbreviation s' := (pivot_on (Z.of_nat p) (Z.of_nat c) tb s).
Abbreviation r := (objective_row s).
Abbreviation r' := (objective_row s').

Lemma next_costs : length (ObjectiveRow.matrix_entries r') = n /\ ObjectiveRow.row_value r' = z' /\ (forall j, (j < n)%nat -> objective s' j = o' j) /\
  (forall x, x ∈ ObjectiveRow.nz_hints r -> x ∈ ObjectiveRow.nz_hints r') /\
  (forall j, (j < n)%nat -> 0 < objective s' j -> 0 < objective s j \/ Z.of_nat j ∈ ObjectiveRow.nz_hints r') /\ Forall (in_row n) (ObjectiveRow.nz_hints r').
Proof.
  pose proof (wf_row _ _ _ _ wf_tb (Z.of_nat p) ltac:(lia)) as Hrow.
  assert (Hin : forall j, M' (Z.of_nat p) j <> 0 -> in_row n j) by (intros j Hne; by apply (wf_out _ _ _ _ wf_tb (Z.of_nat p))).
  pose proof (sg_in_pos _ _ _ _ Hrow : forall x, x ∈ SignedTURow.pos (SparseTableau.row tb (Z.of_nat p)) <-> _) as Hpos.
  pose proof (sg_in_neg _ _ _ _ Hrow : forall x, x ∈ SignedTURow.neg (SparseTableau.row tb (Z.of_nat p)) <-> _) as Hneg.
  pose proof (increasing_NoDup _ (proj1 (sg_pos _ _ _ _ Hrow)) : NoDup (SignedTURow.pos (SparseTableau.row tb (Z.of_nat p)))) as Np.
  pose proof (increasing_NoDup _ (proj1 (sg_neg _ _ _ _ Hrow)) : NoDup (SignedTURow.neg (SparseTableau.row tb (Z.of_nat p)))) as Nn.
  assert (Hent : forall j, sparse_entry (SparseTableau.is_negated tb (Z.of_nat p)) (SignedTURow.pos (SparseTableau.row tb (Z.of_nat p))) (SignedTURow.neg (SparseTableau.row tb (Z.of_nat p))) (Z.of_nat j) = entry s p j).
  { intros j. rewrite sparse_entry_at, entry_tb by done. unfold A'. by rewrite decide_True. }
  assert (Hval : SparseTableau.get_value (Z.of_nat p) tb = value s p) by (rewrite value_tb by done; unfold b'; by rewrite decide_True).
  destruct exact_tableau as [P Ht]. destruct (tableau_fits m n nodes tail head tail_node head_node A0 b0 c0 act bound spread _ _ _ _ _ _ fits Ht) as (_ & _ & Hz & Ho).
  destruct before_fits as [_ Hc].
  destruct (subtract_sparse_spec n _ _ (SparseTableau.get_value (Z.of_nat p) tb) (SparseTableau.is_negated tb (Z.of_nat p)) (Z.of_nat c) r costs_s Np Nn) as (R1 & R2 & R3 & R4 & R5 & R6).
  - intros j Hj Hj'. apply Hpos in Hj. apply Hneg in Hj'. lia.
  - apply Forall_forall. intros j Hj. apply Hin. apply Hpos in Hj. lia.
  - apply Forall_forall. intros j Hj. apply Hin. apply Hneg in Hj. lia.
  - by apply Hc.
  - intros j [Hj0 Hj]. replace j with (Z.of_nat (Z.to_nat j)) by lia. rewrite Hent. specialize (Ho (Z.to_nat j) ltac:(lia)). unfold o', objective in Ho. lia.
  - split; [exact R1|]. split; [unfold s'; cbn [objective_row pivot_on]; rewrite R2, Hval; apply i128_sub; unfold z', objective_value, objective in *; lia|].
    split; [|split; [exact R4|split; [|by apply R6]]].
    + intros j Hj. unfold objective. cbn [objective_row pivot_on]. rewrite R3 by (split; lia). by rewrite Hent.
    + intros j Hj Hpos'. apply R5; [split; lia|done].
Qed.
Lemma next_basis i : (i < m)%nat -> basis s' i = pivot_basis (basis s) p c i.
Proof.
  intros Hi. unfold basis, pivot_on, pivot_basis, vec_update. cbn [active_basis]. rewrite Nat2Z.id.
  destruct (lookup_lt_is_Some_2 (active_basis s) i) as [x Hx]; [lia|]. rewrite list_lookup_alter. destruct (decide (p = i)) as [->|Hne].
  - rewrite Hx, decide_True by done. cbn. by rewrite Nat2Z.id.
  - by rewrite decide_False by congruence.
Qed.
Lemma next_holds : sparse_holds s'.
Proof.
  destruct next_costs as (R1 & R2 & R3 & R4 & R5 & R6). constructor.
  - by exists M'.
  - exact active_s.
  - unfold pivot_on, vec_update. cbn [active_basis]. by rewrite length_alter.
  - exact R1.
  - exact R6.
  - intros j Hj Ha Hpos. destruct (R5 j Hj Hpos) as [Hp|]; [|done]. destruct (hints_s j Hj Ha Hp) as [Hh| ->]; [by apply R4|].
    exfalso. rewrite R3 in Hpos by done. unfold o' in Hpos. rewrite entry_one in Hpos. lia.
  - destruct exact_tableau as [P Ht]. exists P. unfold objective_value. rewrite R2.
    eapply (tableau_ext m n nodes tail head A0 b0 c0 act); [| | | |exact Ht].
    + intros i j Hi Hj. symmetry. by apply entry_tb.
    + intros i Hi. symmetry. by apply value_tb.
    + intros j Hj. symmetry. by apply R3.
    + intros i Hi. symmetry. by apply next_basis.
Qed.
Lemma next_value : 0 < objective s c -> objective_value s' <= objective_value s.
Proof.
  intros Ho. destruct next_costs as (_ & R2 & _). unfold objective_value at 1. rewrite R2. unfold z'. destruct before_fits as [Hb _]. specialize (Hb p p_row). nia.
Qed.
End Next.
End Pivoting.

(** [do_pivot] does not throw ("failed to find pivot row", "desync"); it stops with no
    active column of positive cost, or makes a pivot that keeps the tableau and does not
    lower the objective. *)
Lemma sparse_do_pivot_spec s : sparse_holds s ->
  (exists s', do_pivot s = Ok (false, s') /\ sparse_holds s' /\ objective_value s' = objective_value s /\ forall j, (j < n)%nat -> act j = true -> objective s' j <= 0) \/
  exists s', do_pivot s = Ok (true, s') /\ sparse_holds s' /\ objective_value s' <= objective_value s.
Proof.
  intros [H1 H2 H3 H4 H5 H6 H7]. unfold do_pivot, get_next_pivot_column.
  pose proof (pivot_column_loop_spec (active_cols s) _ (objective_row s) (le_n _)) as Hl.
  destruct (pivot_column_loop _ (active_cols s) (objective_row s)) as [res r1]. destruct Hl as (L1 & L2 & L3 & L4 & L5). set (s1 := with_objective r1 s).
  assert (Eo : objective s1 = objective s) by (unfold objective, s1, ObjectiveRow.at_; cbn; by rewrite L1).
  assert (Ev : objective_value s1 = objective_value s) by exact L2.
  assert (C1 : length (ObjectiveRow.matrix_entries (objective_row s1)) = n) by (unfold s1; cbn [objective_row with_objective]; by rewrite L1).
  assert (R1 : Forall (in_row n) (ObjectiveRow.nz_hints (objective_row s1))).
  { apply Forall_forall. intros x Hx. rewrite Forall_forall in H5. by apply H5, L3. }
  assert (T1 : exists P, lp_tableau (entry s1) (value s1) (objective s1) (objective_value s1) P (basis s1)) by (rewrite Eo, Ev; exact H7).
  assert (Hh : forall j, (j < n)%nat -> act j = true -> 0 < objective s1 j -> Z.of_nat j ∈ ObjectiveRow.nz_hints (objective_row s1) \/ res = Some (Z.of_nat j)).
  { intros j Hj Ha Hpos. rewrite Eo in Hpos. apply L4; [by apply H6| |done]. rewrite Nat2Z.id. fold (active s j). by rewrite H2. }
  destruct res as [c'|].
  - destruct L5 as (Hc1 & Hc2 & Hc3). rewrite Forall_forall in H5. destruct (H5 c' Hc1) as [Hc0 Hcn]. set (c := Z.to_nat c'). replace c' with (Z.of_nat c) in * by lia. rewrite Nat2Z.id in Hc2.
    assert (Hact : act c = true) by (rewrite <- H2 by lia; exact Hc2). assert (Hpos : 0 < objective s1 c) by (rewrite Eo; exact Hc3).
    destruct H1 as [M Hwf]. destruct T1 as [P Ht].
    assert (He : forall i j, (i < m)%nat -> entry s1 i j = effective (tableau s1) M (Z.of_nat i) (Z.of_nat j)) by (intros i j Hi; apply (row_entry_effective m n); [done|lia]).
    destruct (get_pivot_row_spec (tableau s1) m n M (Z.of_nat c) Hwf ltac:(lia)) as (p' & Er & Hp' & Hep & Hmin).
    { destruct (pivot_row_exists m n nodes tail head A0 b0 c0 act bound _ _ _ _ P _ Ht c (fp_bounded _ _ _ _ _ _ _ _ _ _ fits) ltac:(lia) Hact Hpos) as (i & Hi & Hei).
      exists (Z.of_nat i). split; [lia|]. by rewrite <- He. }
    set (p := Z.to_nat p'). replace p' with (Z.of_nat p) in * by lia. assert (Hp : (p < m)%nat) by lia. rewrite <- He in Hep by done.
    assert (Hmin' : forall i, (i < m)%nat -> 0 < entry s1 i c -> value s1 p <= value s1 i) by (intros i Hi Hei; apply Hmin; [lia|by rewrite <- He]).
    assert (Hc : (c < n)%nat) by lia. assert (Hwf1 : exists M, wf m n M (tableau s1)) by by exists M. assert (Ht1 : exists P, lp_tableau (entry s1) (value s1) (objective s1) (objective_value s1) P (basis s1)) by by exists P.
    destruct (sparse_do_pivot s1 p c Hwf1 H3 C1 Ht1 Hp Hc Hact Hep Hmin') as (tb & M' & E & Hwf' & Hent & Hval).
    right. exists (pivot_on (Z.of_nat p) (Z.of_nat c) tb s1). unfold get_next_pivot_row. fold s1. rewrite Er. cbn [result_bind]. rewrite E. cbn [result_bind]. split; [done|].
    assert (Hh' : forall j, (j < n)%nat -> act j = true -> 0 < objective s1 j -> Z.of_nat j ∈ ObjectiveRow.nz_hints (objective_row s1) \/ j = c).
    { intros j Hj Ha Hpj. destruct (Hh j Hj Ha Hpj) as [|E']; [by left|right]. injection E'. lia. }
    split; [by apply (next_holds s1 p c Hwf1 H2 H3 C1 R1 Hh' Ht1 Hp Hc Hact Hep Hmin' tb M' Hwf' Hent Hval)|].
    rewrite <- Ev. by apply (next_value s1 p c Hwf1 H3 C1 R1 Ht1 Hp Hc Hact Hep Hmin' tb M' Hwf' Hent Hval).
  - left. exists s1. split; [done|].
    assert (Hno : forall j, (j < n)%nat -> act j = true -> objective s1 j <= 0).
    { intros j Hj Ha. destruct (Z.le_gt_cases (objective s1 j) 0) as [|Hpos]; [done|]. destruct (Hh j Hj Ha ltac:(lia)) as [Hin|]; [|done].
      unfold s1 in Hin. cbn [objective_row with_objective] in Hin. rewrite L5 in Hin. by apply elem_of_nil in Hin. }
    split; [|split; [exact Ev|exact Hno]]. constructor; [exact H1|exact H2|exact H3|exact C1|exact R1| |exact T1].
    intros j Hj Ha Hpos. specialize (Hno j Hj Ha). lia.
Qed.
End SparseRefine.
