(* ===== verification/Feasibility.v ===== *)
(** * The feasibility solver (src/simplex/solver.h, solver.cc)

    [SimplexLPSolver] asks whether every orderbook can trade between its two bounds, with no
    asset bought more than it is sold: a column [t] for every asset takes what is bought too
    much, and the largest value of [- t] is zero when it can be done without. *)
From stdpp Require Import base list strings sorting relations.
From S2P Require Import Prelude Types Offers NetworkLP ObjectiveRow SparseTableau SparsePivot SparseBuild SparseSimplex MarketNetwork TaxFree.
Import Category TaxFreeSimplex(sell_category) SignedTUColumn(negated).

Module SimplexLPSolver.
Record t := mk {
  base : SparseTUSimplex.t;
  num_assets : Z;
  num_orderbooks : Z;
  start_orderbook_slack_vars : Z;
  start_asset_slack_vars : Z;
  start_feasibility_slack_vars : Z
}.
Definition with_base (b : SparseTUSimplex.t) x : t :=
  mk b (num_assets x) (num_orderbooks x) (start_orderbook_slack_vars x) (start_asset_slack_vars x) (start_feasibility_slack_vars x).
Definition with_basis (l : list Z) (s : SparseTUSimplex.t) : SparseTUSimplex.t :=
  SparseTUSimplex.mk (SparseTUSimplex.num_cols s) (SparseTUSimplex.tableau s) (SparseTUSimplex.objective_row s) (SparseTUSimplex.active_cols s) l.
Definition with_active (l : list bool) (s : SparseTUSimplex.t) : SparseTUSimplex.t :=
  SparseTUSimplex.mk (SparseTUSimplex.num_cols s) (SparseTUSimplex.tableau s) (SparseTUSimplex.objective_row s) l (SparseTUSimplex.active_basis s).

Definition get_slack_var_idx (asset : Z) x : Z := u16 (start_asset_slack_vars x + asset).
Definition get_feasibility_var_idx (asset : Z) x : Z := u16 (start_feasibility_slack_vars x + asset).

Definition set_feasibility_objective_coeffs x : t :=
  with_base (SparseTUSimplex.with_objective
    (foldl (fun r asset => ObjectiveRow.set_idx (get_feasibility_var_idx asset x) (-1) r) (SparseTUSimplex.objective_row (base x)) (seqZ 0 (num_assets x)))
    (base x)) x.

(** The loop of [add_asset_constraint] over the assets [buys]. *)
Fixpoint asset_entries (num_assets sell : Z) (buys : list Z) (s : SparseTUSimplex.t) : result SparseTUSimplex.t :=
  match buys with
  | [] => Ok s
  | buy :: buys =>
      if negb (buy =? sell) then
        let* sell_buy_idx := category_to_idx (sell_category sell buy) num_assets in
        let* buy_sell_idx := category_to_idx (sell_category buy sell) num_assets in
        asset_entries num_assets sell buys (SparseTUSimplex.set_entry sell buy_sell_idx 1 (SparseTUSimplex.set_entry sell sell_buy_idx (-1) s))
      else asset_entries num_assets sell buys s
  end.
Definition add_asset_constraint (sell : Z) x : result t :=
  let s := SparseTUSimplex.add_new_constraint_row (base x) in
  let s := SparseTUSimplex.set_entry sell (get_slack_var_idx sell x) 1 s in
  let s := SparseTUSimplex.set_entry sell (get_feasibility_var_idx sell x) (-1) s in
  let s := with_basis (SparseTUSimplex.active_basis s ++ [get_slack_var_idx sell x]) s in
  let* s := asset_entries (num_assets x) sell (seqZ 0 (num_assets x)) s in
  Ok (with_base s x).
Fixpoint add_asset_constraints (assets : list Z) x : result t :=
  match assets with
  | [] => Ok x
  | a :: assets => let* x := add_asset_constraint a x in add_asset_constraints assets x
  end.
(** The constructor. *)
Definition new (num_assets : Z) : result t :=
  let num_orderbooks := get_num_orderbooks_by_asset_count num_assets in
  let start_asset_slack_vars := num_orderbooks + num_orderbooks in
  add_asset_constraints (seqZ 0 num_assets)
    (mk (SparseTUSimplex.new (2 * num_orderbooks + 2 * num_assets)) num_assets num_orderbooks num_orderbooks start_asset_slack_vars (start_asset_slack_vars + num_assets)).

Definition adjust_asset_constraint (asset amount : Z) x : t :=
  let s := base x in
  let tb := SparseTableau.set_value asset (i128 (SparseTableau.get_value asset (SparseTUSimplex.tableau s) + amount)) (SparseTUSimplex.tableau s) in
  let idx := if SparseTableau.get_value asset tb <? 0 then get_feasibility_var_idx asset x else get_slack_var_idx asset x in
  with_base (with_basis (vec_update (fun _ => idx) (Z.to_nat asset) (SparseTUSimplex.active_basis s)) (SparseTUSimplex.with_tableau tb s)) x.
Definition set_asset_constraint_slacks_active (asset : Z) x : t :=
  with_base (with_active (TaxFreeSimplex.activate (get_feasibility_var_idx asset x)
    (TaxFreeSimplex.activate (get_slack_var_idx asset x) (SparseTUSimplex.active_cols (base x)))) (base x)) x.
Definition add_orderbook_constraint (lower_bound upper_bound : Z) (category : OfferCategory) x : result t :=
  if upper_bound <? lower_bound then Throw "invalid bounds"
  else if lower_bound =? upper_bound then Ok x
  else
    let s := SparseTUSimplex.add_new_constraint_row (base x) in
    let row_idx := Z.of_nat (length (SparseTableau.rows (SparseTUSimplex.tableau s))) - 1 in
    let s := SparseTUSimplex.with_tableau (SparseTableau.set_value row_idx (i128 (upper_bound - lower_bound)) (SparseTUSimplex.tableau s)) s in
    let* idx := category_to_idx category (num_assets x) in
    let s := SparseTUSimplex.set_entry row_idx idx 1 s in
    let s := with_active (TaxFreeSimplex.activate idx (SparseTUSimplex.active_cols s)) s in
    let slack := start_orderbook_slack_vars x + idx in
    let s := SparseTUSimplex.set_entry row_idx slack 1 s in
    let s := with_active (TaxFreeSimplex.activate slack (SparseTUSimplex.active_cols s)) s in
    let s := with_basis (SparseTUSimplex.active_basis s ++ [u16 slack]) s in
    let x := set_asset_constraint_slacks_active (sellAsset category) (with_base s x) in
    let x := set_asset_constraint_slacks_active (buyAsset category) x in
    let x := adjust_asset_constraint (buyAsset category) (i128 (- lower_bound)) x in
    Ok (adjust_asset_constraint (sellAsset category) lower_bound x).

(** One turn of the loop of [normalize_asset_constraints]. *)
Definition normalize_asset_constraint x (asset : Z) : t :=
  let s := base x in
  let feasibility_idx := get_feasibility_var_idx asset x in
  if default 0 (SparseTUSimplex.active_basis s !! Z.to_nat asset) =? feasibility_idx then
    let tb := SparseTableau.negate asset (SparseTUSimplex.tableau s) in
    let r := SparseTableau.row tb asset in
    with_base (SparseTUSimplex.with_objective
      (ObjectiveRow.subtract_sparse (SignedTURow.pos r) (SignedTURow.neg r) (SparseTableau.get_value asset tb) (SparseTableau.is_negated tb asset)
        feasibility_idx (SparseTUSimplex.objective_row s))
      (SparseTUSimplex.with_tableau tb s)) x
  else x.
Definition normalize_asset_constraints x : t := foldl normalize_asset_constraint x (seqZ 0 (num_assets x)).

(** [check_feasibility], for at most [fuel] pivots. *)
Definition prepare x : t := normalize_asset_constraints (set_feasibility_objective_coeffs x).
Definition check_feasibility (fuel : nat) x : option (result (bool * t)) :=
  let x := prepare x in
  (fun r => let* s := r in Ok (ObjectiveRow.row_value (SparseTUSimplex.objective_row s) =? 0, with_base s x)) <$> SparseTUSimplex.run_simplex fuel (base x).
End SimplexLPSolver.
Import SimplexLPSolver.

(** A solver with the bounds of its orderbooks. *)
Fixpoint add_bounds (l : list (OfferCategory * (Z * Z))) x : result SimplexLPSolver.t :=
  match l with
  | [] => Ok x
  | (category, (lower, upper)) :: l => let* x := add_orderbook_constraint lower upper category x in add_bounds l x
  end.
Definition build (num_assets : Z) (l : list (OfferCategory * (Z * Z))) : result SimplexLPSolver.t :=
  let* x := new num_assets in add_bounds l x.

(** ** What the additions build *)
Section Build.
Variable n : Z.
Hypothesis n_range : 2 <= n <= 181.
Let na := assets n.
Let K := orderbooks n.
Abbreviation N := (2 * K + na + na)%nat.
Abbreviation sell := (sell_of n).
Abbreviation buy := (buy_of n).
Let big : 2 <= n <= MAX_INT_ASSETS.
Proof. unfold MAX_INT_ASSETS. lia. Qed.
Lemma market_assets : Z.of_nat na = n.
Proof. unfold na, assets. lia. Qed.
Lemma market_columns : Z.of_nat N < 2 ^ 16.
Proof. unfold K, na, orderbooks, assets. nia. Qed.
Lemma market_column j : (j < N)%nat -> u16 (Z.of_nat j) = Z.of_nat j.
Proof. intros Hj. pose proof market_columns. apply u16_id. lia. Qed.

(** A tableau with no negated row, the entries [A] and the values [v]. *)
Record plain (m : nat) (A : nat -> nat -> Z) (v : nat -> Z) (tb : SparseTableau.t) : Prop := {
  pl_wf : exists M, wf m N M tb /\ forall i j, (i < m)%nat -> (j < N)%nat -> M (Z.of_nat i) (Z.of_nat j) = A i j;
  pl_flags : forall i, 0 <= i -> SparseTableau.is_negated tb i = false;
  pl_values : forall i, (i < m)%nat -> SparseTableau.get_value (Z.of_nat i) tb = v i
}.
Lemma plain_ext m A v A' v' tb : (forall i j, (i < m)%nat -> (j < N)%nat -> A i j = A' i j) -> (forall i, (i < m)%nat -> v i = v' i) ->
  plain m A v tb -> plain m A' v' tb.
Proof.
  intros HA Hv [(M & Hwf & HM) Hf Hval]. constructor; [|done|intros i Hi; by rewrite <- Hv, <- Hval].
  exists M. split; [done|]. intros i j Hi Hj. by rewrite <- HA, <- HM.
Qed.
Lemma plain_add_row m A v tb : plain m A v tb ->
  plain (S m) (fun i j => if decide (i = m) then 0 else A i j) (fun i => if decide (i = m) then 0 else v i) (SparseTableau.add_row tb).
Proof.
  intros [(M & Hwf & HM) Hf Hval]. destruct (add_row_wf m N M tb Hwf) as (H1 & H2 & H3). constructor.
  - exists M. split; [done|]. intros i j Hi Hj. destruct (decide (i = m)) as [->|Hne]; [|apply HM; lia].
    destruct (decide (M (Z.of_nat m) (Z.of_nat j) = 0)) as [|Hnz]; [done|]. apply (wf_out _ _ _ _ Hwf) in Hnz. lia.
  - intros i Hi. rewrite H2 by done. by apply Hf.
  - intros i Hi. rewrite H3 by lia. destruct (decide (i = m)) as [->|Hne]; [by rewrite decide_True|]. rewrite decide_False by lia. apply Hval. lia.
Qed.
Lemma plain_set m A v tb i j e : plain m A v tb -> (i < m)%nat -> (j < N)%nat -> Z.of_nat m <= 2 ^ 16 -> A i j = 0 -> unit e ->
  plain m (fun i' j' => if decide (i' = i /\ j' = j) then e else A i' j') v (SparseTableau.set (Z.of_nat i) (Z.of_nat j) e tb).
Proof.
  intros [(M & Hwf & HM) Hf Hval] Hi Hj Hm E0 He. pose proof market_columns.
  destruct (set_wf m N M tb Hwf (Z.of_nat i) (Z.of_nat j) e) as (H1 & H2 & H3); [lia..|by rewrite HM|done|by apply Hf; lia|]. constructor.
  - eexists. split; [exact H1|]. intros i' j' Hi' Hj'. unfold fill. destruct (decide (i' = i /\ j' = j)) as [[-> ->]|Hne]; [by rewrite decide_True|].
    rewrite decide_False by lia. by apply HM.
  - intros i' Hi'. unfold SparseTableau.is_negated. rewrite H2. by apply Hf.
  - intros i' Hi'. rewrite H3 by lia. by apply Hval.
Qed.
Lemma plain_set_value m A v tb i w : plain m A v tb -> (i < m)%nat -> - 2 ^ 127 <= w < 2 ^ 127 ->
  plain m A (fun i' => if decide (i' = i) then w else v i') (SparseTableau.set_value (Z.of_nat i) w tb).
Proof.
  intros [(M & Hwf & HM) Hf Hval] Hi Hw. destruct (set_value_wf m N M tb Hwf (Z.of_nat i) w) as (H1 & H2 & H3); [lia|done|apply Hf; lia|]. constructor.
  - by exists M.
  - intros i' Hi'. unfold SparseTableau.is_negated. rewrite H2. by apply Hf.
  - intros i' Hi'. rewrite H3 by lia. destruct (decide (i' = i)) as [->|Hne]; [by rewrite decide_True|]. rewrite decide_False by lia. by apply Hval.
Qed.

(** *** The rows of the assets *)
Section AssetRow.
Variable a : nat.
Hypothesis a_asset : (a < na)%nat.
(** The assets before [a] have their rows, and [a] its entries with the assets before [b]. *)
Definition filled (b i j : nat) : Z :=
  if decide (i < a)%nat then coefficient na K sell buy [] i j
  else if decide (j < K)%nat then
    if decide (buy j = a /\ (sell j < b)%nat) then 1 else if decide (sell j = a /\ (buy j < b)%nat) then -1 else 0
  else if decide (j = 2 * K + a)%nat then 1 else if decide (j = 2 * K + na + a)%nat then -1 else 0.
Lemma filled_all i j : (i < S a)%nat -> (j < N)%nat -> filled na i j = coefficient na K sell buy [] i j.
Proof.
  intros Hi Hj. unfold filled. destruct (decide (i < a)%nat) as [|Hia]; [done|]. assert (i = a) as -> by lia. unfold coefficient. rewrite (decide_True (P := (a < na)%nat)) by done.
  destruct (decide (j < K)%nat) as [HK|HK].
  - destruct (orderbook_category n big j HK) as (_ & _ & Hs & Hb & Hne). fold na in Hs, Hb. repeat case_decide; lia.
  - repeat case_decide; lia.
Qed.
Lemma asset_loop_spec k : forall b s v, (b + k = na)%nat -> plain (S a) (filled b) v (SparseTUSimplex.tableau s) ->
  exists tb, asset_entries n (Z.of_nat a) (Z.of_nat <$> seq b k) s = Ok (SparseTUSimplex.with_tableau tb s) /\ plain (S a) (filled na) v tb.
Proof.
  induction k as [|k IH]; intros b s v Hb Hp; cbn [seq fmap list_fmap asset_entries].
  { assert (b = na) as -> by lia. exists (SparseTUSimplex.tableau s). by destruct s. }
  destruct (Z.eqb_spec (Z.of_nat b) (Z.of_nat a)) as [E|E]; cbn [negb].
  { apply (IH (S b)); [lia|]. eapply plain_ext; [|done|exact Hp]. intros i j Hi Hj. unfold filled. destruct (decide (i < a)%nat); [done|].
    destruct (decide (j < K)%nat) as [HK|]; [|done]. destruct (orderbook_category n big j HK) as (_ & _ & _ & _ & Hne). repeat case_decide; done || lia. }
  assert (Hm : Z.of_nat (S a) <= 2 ^ 16) by (unfold na, assets in *; lia).
  destruct (category_column n big a b) as (j1 & Hj1 & E1 & Es1 & Eb1); [done|unfold na in *; lia|lia|].
  destruct (category_column n big b a) as (j2 & Hj2 & E2 & Es2 & Eb2); [unfold na in *; lia|done|lia|].
  unfold sell_category. rewrite E1, E2. cbn [result_bind].
  assert (Z1 : filled b a j1 = 0).
  { unfold filled. rewrite decide_False by lia. rewrite decide_True by done. rewrite Es1, Eb1. repeat case_decide; done || lia. }
  assert (Z2 : (if decide (a = a /\ j2 = j1) then -1 else filled b a j2) = 0).
  { rewrite decide_False by (intros [_ ->]; lia). unfold filled. rewrite decide_False by lia. rewrite decide_True by done. rewrite Es2, Eb2. repeat case_decide; done || lia. }
  pose proof (plain_set (S a) _ _ _ a j1 (-1) Hp ltac:(lia) ltac:(unfold K; lia) Hm Z1 ltac:(by right)) as P1.
  pose proof (plain_set (S a) _ _ _ a j2 1 P1 ltac:(lia) ltac:(unfold K; lia) Hm Z2 ltac:(by left)) as P2.
  destruct (IH (S b) (SparseTUSimplex.set_entry (Z.of_nat a) (Z.of_nat j2) 1 (SparseTUSimplex.set_entry (Z.of_nat a) (Z.of_nat j1) (-1) s)) v ltac:(lia)) as (tb & Er & Hrest).
  { eapply plain_ext; [|done|exact P2].
    intros i j Hi Hj. cbn beta. unfold filled. destruct (decide (i < a)%nat) as [Hia|Hia]; [by rewrite !decide_False by lia|]. assert (i = a) as -> by lia.
    destruct (decide (a = a /\ j = j2)) as [[_ ->]|N2]; [rewrite Es2, Eb2, !decide_True by (done || lia); done|].
    destruct (decide (a = a /\ j = j1)) as [[_ ->]|N1]; [rewrite Es1, Eb1, decide_True by done; rewrite decide_False by lia; by rewrite decide_True by lia|].
    destruct (decide (j < K)%nat) as [HK|]; [|done].
    assert (D1 : ~ (sell j = a /\ buy j = b)) by (intros [? ?]; apply N1; split; [done|]; apply (column_unique n big); done || congruence).
    assert (D2 : ~ (sell j = b /\ buy j = a)) by (intros [? ?]; apply N2; split; [done|]; apply (column_unique n big); done || congruence).
    repeat case_decide; done || lia. }
  exists tb. rewrite Er. exact (conj eq_refl Hrest).
Qed.
End AssetRow.
Record config x : Prop := {
  cf_assets : num_assets x = n;
  cf_orderbooks : num_orderbooks x = Z.of_nat K;
  cf_books : start_orderbook_slack_vars x = Z.of_nat K;
  cf_slacks : start_asset_slack_vars x = Z.of_nat (2 * K);
  cf_shortages : start_feasibility_slack_vars x = Z.of_nat (2 * K + na)
}.
Lemma slack_idx x a : config x -> (a < na)%nat -> get_slack_var_idx (Z.of_nat a) x = Z.of_nat (2 * K + a) /\
  get_feasibility_var_idx (Z.of_nat a) x = Z.of_nat (2 * K + na + a).
Proof.
  intros Hx Ha. unfold get_slack_var_idx, get_feasibility_var_idx. rewrite (cf_slacks _ Hx), (cf_shortages _ Hx), <- !Nat2Z.inj_add.
  by rewrite !market_column by lia.
Qed.
Lemma asset_seqZ : seqZ 0 n = Z.of_nat <$> seq 0 na.
Proof. rewrite <- market_assets. unfold seqZ. rewrite Nat2Z.id. apply list_fmap_ext. intros i x _. lia. Qed.
Abbreviation tableau_of x := (SparseTUSimplex.tableau (base x)).
Abbreviation basis_of x := (SparseTUSimplex.active_basis (base x)).
Lemma add_asset_plain a x : config x -> (a < na)%nat -> plain a (coefficient na K sell buy []) (fun _ => 0) (tableau_of x) ->
  exists tb, add_asset_constraint (Z.of_nat a) x = Ok (with_base (with_basis (basis_of x ++ [Z.of_nat (2 * K + a)]) (SparseTUSimplex.with_tableau tb (base x))) x) /\
    plain (S a) (coefficient na K sell buy []) (fun _ => 0) tb.
Proof.
  intros Hx Ha Hp. unfold add_asset_constraint. destruct (slack_idx x a Hx Ha) as [-> ->]. rewrite (cf_assets _ Hx), asset_seqZ.
  assert (Hm : Z.of_nat (S a) <= 2 ^ 16) by (unfold na, assets in *; lia).
  pose proof (plain_add_row _ _ _ _ Hp) as P0.
  pose proof (plain_set (S a) _ _ _ a (2 * K + a) 1 P0 ltac:(lia) ltac:(lia) Hm ltac:(cbn beta; by rewrite decide_True) ltac:(by left)) as P1.
  pose proof (plain_set (S a) _ _ _ a (2 * K + na + a) (-1) P1 ltac:(lia) ltac:(lia) Hm ltac:(cbn beta; rewrite decide_False by lia; by rewrite decide_True) ltac:(by right)) as P2.
  set (s := with_basis _ _). destruct (asset_loop_spec a Ha na 0 s (fun _ => 0) eq_refl) as (tb & E & Hrest).
  { eapply plain_ext; [| |exact P2].
    - intros i j Hi Hj. cbn beta. unfold filled. destruct (decide (i < a)%nat) as [Hia|Hia]; [by rewrite !decide_False by lia|]. assert (i = a) as -> by lia.
      repeat case_decide; done || lia.
    - intros i Hi. cbn beta. by case_decide. }
  rewrite E. cbn [result_bind]. exists tb. split; [done|]. eapply plain_ext; [intros i j Hi Hj; by apply filled_all|done|exact Hrest].
Qed.
Lemma add_assets_plain k : forall a x, config x -> (a + k = na)%nat -> plain a (coefficient na K sell buy []) (fun _ => 0) (tableau_of x) ->
  exists tb, add_asset_constraints (Z.of_nat <$> seq a k) x =
      Ok (with_base (with_basis (basis_of x ++ ((fun i => Z.of_nat (2 * K + i)) <$> seq a k)) (SparseTUSimplex.with_tableau tb (base x))) x) /\
    plain na (coefficient na K sell buy []) (fun _ => 0) tb.
Proof.
  induction k as [|k IH]; intros a x Hx Ha Hp; cbn [seq fmap list_fmap add_asset_constraints].
  - assert (a = na) as -> by lia. exists (tableau_of x). split; [|done]. rewrite app_nil_r. by destruct x as [[] ?????].
  - destruct (add_asset_plain a x Hx ltac:(lia) Hp) as (tb1 & E1 & P1). rewrite E1. cbn [result_bind].
    match goal with |- context [add_asset_constraints _ ?y] => destruct (IH (S a) y) as (tb & E & P); [by destruct Hx|lia|exact P1|] end.
    exists tb. split; [|exact P]. etransitivity; [exact E|]. cbn. by rewrite <- !app_assoc.
Qed.

(** *** The orderbooks *)
Abbreviation bounds_list := (list (nat * (Z * Z))).
(** What the row of asset [a] asks for, and the values of all rows. *)
Definition asked (l : bounds_list) (a : nat) : Z :=
  sum_by (fun p => (if decide (sell (fst p) = a) then fst (snd p) else 0) - (if decide (buy (fst p) = a) then fst (snd p) else 0)) l.
Definition row_values (l : bounds_list) (i : nat) : Z :=
  if decide (i < na)%nat then asked l i else default 0 ((fun p => snd (snd p) - fst (snd p)) <$> l !! (i - na)%nat).
Definition bounds_ok (l : bounds_list) : Prop := Forall (fun p => 0 <= fst (snd p) <= snd (snd p)) l /\ sum_by (fun p => snd (snd p)) l < 2 ^ 126.
Lemma asked_app l p a : asked (l ++ [p]) a = asked l a + ((if decide (sell (fst p) = a) then fst (snd p) else 0) - (if decide (buy (fst p) = a) then fst (snd p) else 0)).
Proof. unfold asked. rewrite sum_by_app, sum_by_cons, sum_by_nil. lia. Qed.
Lemma asked_bound l a : bounds_ok l -> - 2 ^ 126 < asked l a < 2 ^ 126.
Proof.
  intros [Hl Hs]. enough (- sum_by (fun p => snd (snd p)) l <= asked l a <= sum_by (fun p => snd (snd p)) l) by lia. clear Hs. unfold asked.
  induction Hl as [|p l Hp Hl IH]; [by rewrite !sum_by_nil|]. rewrite !sum_by_cons. repeat case_decide; lia.
Qed.
Record built (l : bounds_list) x : Prop := {
  bt_config : config x;
  bt_tableau : plain (na + length l) (coefficient na K sell buy l.*1) (row_values l) (tableau_of x);
  bt_active_length : length (SparseTUSimplex.active_cols (base x)) = N;
  bt_active : forall j, (j < N)%nat -> active (base x) j = market_active na K sell buy l.*1 j;
  bt_basis_length : length (basis_of x) = (na + length l)%nat;
  bt_basis : forall i, (i < na + length l)%nat -> basis_of x !! i = Some (Z.of_nat (start_basis na K l.*1 (fun a => asked l a <? 0) i));
  bt_objective : SparseTUSimplex.objective_row (base x) = ObjectiveRow.new (Z.of_nat N)
}.
Lemma new_bounds : exists x, new n = Ok x /\ built [] x.
Proof.
  pose proof (orderbooks_count n big) as EK. fold K in EK. unfold new. rewrite EK, asset_seqZ. set (x0 := mk _ _ _ _ _ _).
  assert (Hx0 : config x0) by (constructor; cbn -[Z.mul]; pose proof market_assets; lia).
  assert (Ec : u16 (2 * Z.of_nat K + 2 * n) = Z.of_nat N) by (rewrite <- market_assets; pose proof market_columns; rewrite u16_id; lia).
  assert (Eb : base x0 = SparseTUSimplex.mk (Z.of_nat N) (SparseTableau.new (Z.of_nat N)) (ObjectiveRow.new (Z.of_nat N)) (replicate N false) []).
  { unfold x0, SparseTUSimplex.new. cbn [base]. cbn zeta. by rewrite Ec, Nat2Z.id. }
  destruct (add_assets_plain na 0 x0 Hx0 eq_refl) as (tb & E & P).
  { rewrite Eb. cbn [SparseTUSimplex.tableau]. constructor; [|done|intros; lia]. exists (fun _ _ => 0). split; [apply new_wf|intros; lia]. }
  eexists. split; [exact E|]. rewrite Eb in *. constructor; cbn [base with_base with_basis SparseTUSimplex.with_tableau SparseTUSimplex.tableau SparseTUSimplex.active_cols
    SparseTUSimplex.active_basis SparseTUSimplex.objective_row length fmap list_fmap app]; rewrite ?Nat.add_0_r.
  - by destruct Hx0.
  - eapply plain_ext; [done| |exact P]. intros i Hi. unfold row_values. by rewrite decide_True.
  - apply length_replicate.
  - intros j Hj. unfold active. cbn. rewrite lookup_replicate_2 by lia. cbn. unfold market_active, touched. symmetry.
    repeat case_decide; try done; apply bool_decide_eq_false_2, not_elem_of_nil.
  - by rewrite length_fmap, length_seq.
  - intros i Hi. rewrite list_lookup_fmap, lookup_seq_lt by done. cbn. unfold start_basis. by rewrite decide_True.
  - done.
Qed.

Lemma vec_update_lookup {A} (f : A -> A) k (l : list A) i : vec_update f k l !! i = if decide (i = k) then f <$> l !! k else l !! i.
Proof. unfold vec_update. rewrite list_lookup_alter. repeat case_decide; by subst. Qed.
Lemma adjust_plain a d x m A v : config x -> plain m A v (tableau_of x) -> (a < na)%nat -> (a < m)%nat -> - 2 ^ 127 <= v a + d < 2 ^ 127 ->
  exists tb, adjust_asset_constraint (Z.of_nat a) d x =
      with_base (with_basis (vec_update (fun _ => Z.of_nat (if v a + d <? 0 then 2 * K + na + a else 2 * K + a)) a (basis_of x)) (SparseTUSimplex.with_tableau tb (base x))) x /\
    plain m A (fun i => if decide (i = a) then v a + d else v i) tb.
Proof.
  intros Hx Hp Ha Ham Hr. unfold adjust_asset_constraint. destruct (slack_idx x a Hx Ha) as [-> ->].
  rewrite (pl_values _ _ _ _ Hp a Ham), i128_id by done. pose proof (plain_set_value _ _ _ _ a _ Hp Ham Hr) as P1.
  rewrite (pl_values _ _ _ _ P1 a Ham). cbn beta. rewrite decide_True by done. rewrite Nat2Z.id.
  eexists. split; [|exact P1]. by destruct (v a + d <? 0).
Qed.
Lemma market_active_app books idx j : (idx < K)%nat -> (j < N)%nat ->
  market_active na K sell buy (books ++ [idx]) j = bool_decide (j = idx) || bool_decide (j = K + idx)%nat ||
    bool_decide (j = 2 * K + sell idx)%nat || bool_decide (j = 2 * K + na + sell idx)%nat ||
    bool_decide (j = 2 * K + buy idx)%nat || bool_decide (j = 2 * K + na + buy idx)%nat || market_active na K sell buy books j.
Proof.
  intros Hi Hj. destruct (orderbook_category n big idx Hi) as (_ & _ & Hs & Hb & _). fold na in Hs, Hb.
  assert (Hel : forall k, bool_decide (k ∈ books ++ [idx]) = bool_decide (k = idx) || bool_decide (k ∈ books)).
  { intros k. rewrite <- bool_decide_or. apply bool_decide_ext. rewrite elem_of_app, list_elem_of_singleton. tauto. }
  assert (Ht : forall a, touched sell buy (books ++ [idx]) a = bool_decide (sell idx = a) || bool_decide (buy idx = a) || touched sell buy books a).
  { intros a. unfold touched. rewrite existsb_app. cbn [existsb]. rewrite orb_false_r. apply orb_comm. }
  unfold market_active. rewrite !Hel, !Ht.
  destruct (decide (j < K)%nat); [|destruct (decide (j < 2 * K)%nat); [|destruct (decide (j < 2 * K + na)%nat)]].
  - rewrite (bool_decide_eq_false_2 (j = _ + buy idx)%nat), (bool_decide_eq_false_2 (j = _ + sell idx)%nat), (bool_decide_eq_false_2 (j = (K + idx)%nat)),
      (bool_decide_eq_false_2 (j = 2 * K + na + buy idx)%nat), (bool_decide_eq_false_2 (j = 2 * K + na + sell idx)%nat) by lia. by rewrite !orb_false_r.
  - rewrite (bool_decide_eq_false_2 (j = 2 * K + buy idx)%nat), (bool_decide_eq_false_2 (j = 2 * K + sell idx)%nat), (bool_decide_eq_false_2 (j = idx)),
      (bool_decide_eq_false_2 (j = 2 * K + na + buy idx)%nat), (bool_decide_eq_false_2 (j = 2 * K + na + sell idx)%nat) by lia. rewrite !orb_false_r. cbn [orb].
    f_equal. apply bool_decide_ext. lia.
  - rewrite (bool_decide_eq_false_2 (j = idx)), (bool_decide_eq_false_2 (j = (K + idx)%nat)), (bool_decide_eq_false_2 (j = 2 * K + na + buy idx)%nat),
      (bool_decide_eq_false_2 (j = 2 * K + na + sell idx)%nat) by lia. cbn [orb]. rewrite !orb_false_r. do 2 f_equal; apply bool_decide_ext; lia.
  - rewrite (bool_decide_eq_false_2 (j = idx)), (bool_decide_eq_false_2 (j = (K + idx)%nat)), (bool_decide_eq_false_2 (j = 2 * K + buy idx)%nat),
      (bool_decide_eq_false_2 (j = 2 * K + sell idx)%nat) by lia. cbn [orb]. rewrite !orb_false_r. do 2 f_equal; apply bool_decide_ext; lia.
Qed.

Section AddBook.
Context (l : bounds_list) (x : SimplexLPSolver.t) (idx : nat) (lower upper : Z).
Hypothesis built_l : built l x.
Hypothesis idx_book : (idx < K)%nat.
Hypothesis strict : lower < upper.
Hypothesis l_short : (length l < K)%nat.
Abbreviation l' := (l ++ [(idx, (lower, upper))]).
Hypothesis l'_ok : bounds_ok l'.
Abbreviation m := (na + length l)%nat.
Let sell_buy : (sell idx < na)%nat /\ (buy idx < na)%nat /\ sell idx <> buy idx.
Proof. by apply (orderbook_category n big idx idx_book). Qed.
Let rows_16 : Z.of_nat (S m) <= 2 ^ 16.
Proof. pose proof market_columns. lia. Qed.
Lemma range_new : 0 <= lower /\ upper < 2 ^ 126.
Proof.
  destruct l'_ok as [Hl Hs]. apply Forall_app in Hl as [Hl Hi]. apply Forall_cons in Hi as [Hi _]. cbn [fst snd] in Hi. split; [lia|].
  rewrite sum_by_app, sum_by_cons, sum_by_nil in Hs. cbn in Hs. enough (0 <= sum_by (fun p => snd (snd p)) l) by lia.
  apply sum_by_nonneg. eapply Forall_impl; [exact Hl|]. cbn. lia.
Qed.
(** The tableau with the new row, before the assets are adjusted. *)
Definition book_tableau : SparseTableau.t :=
  SparseTableau.set (Z.of_nat m) (Z.of_nat (K + idx)) 1 (SparseTableau.set (Z.of_nat m) (Z.of_nat idx) 1
    (SparseTableau.set_value (Z.of_nat m) (upper - lower) (SparseTableau.add_row (tableau_of x)))).
Lemma book_plain : plain (S m) (coefficient na K sell buy l'.*1) (fun i => if decide (i = m) then upper - lower else row_values l i) book_tableau.
Proof.
  pose proof range_new. pose proof (plain_add_row _ _ _ _ (bt_tableau _ _ built_l)) as P0.
  pose proof (plain_set_value _ _ _ _ m (upper - lower) P0 ltac:(lia) ltac:(lia)) as P1.
  pose proof (plain_set _ _ _ _ m idx 1 P1 ltac:(lia) ltac:(lia) rows_16 ltac:(cbn beta; by rewrite decide_True) ltac:(by left)) as P2.
  assert (Z2 : (if decide (m = m /\ (K + idx)%nat = idx) then 1 else if decide (m = m) then 0 else coefficient na K sell buy l.*1 m (K + idx)) = 0).
  { rewrite decide_False by lia. by rewrite decide_True. }
  pose proof (plain_set _ _ _ _ m (K + idx) 1 P2 ltac:(lia) ltac:(lia) rows_16 Z2 ltac:(by left)) as P3.
  eapply plain_ext; [| |exact P3]; intros i; cbn beta; [intros j|]; intros Hi; [intros Hj|by repeat case_decide].
  unfold coefficient. rewrite fmap_app. cbn [fmap list_fmap fst]. destruct (decide (i = m)) as [->|Hne].
  - rewrite (decide_False (P := (m < na)%nat)) by lia. replace (m - na)%nat with (length l.*1) by (rewrite length_fmap; lia). rewrite list_lookup_middle by done.
    repeat case_decide; done || lia.
  - rewrite !(decide_False (P := i = m /\ _)) by tauto. destruct (decide (i < na)%nat); [done|]. by rewrite lookup_app_l by (rewrite length_fmap; lia).
Qed.
Lemma row_values_app i : (i < S m)%nat -> row_values l' i =
  if decide (i = m) then upper - lower else if decide (i = sell idx) then row_values l (sell idx) + lower else if decide (i = buy idx) then row_values l (buy idx) - lower else row_values l i.
Proof.
  intros Hi. pose proof sell_buy. unfold row_values. destruct (decide (i < na)%nat) as [Ha|Ha].
  - rewrite (decide_False (P := i = m)) by lia. rewrite asked_app. cbn [fst snd]. rewrite !(decide_True (P := (sell idx < na)%nat)), !(decide_True (P := (buy idx < na)%nat)) by tauto.
    repeat case_decide; subst; lia.
  - destruct (decide (i = m)) as [->|Hne]; [replace (m - na)%nat with (length l) by lia; by rewrite list_lookup_middle|].
    rewrite (decide_False (P := i = sell idx)), (decide_False (P := i = buy idx)) by lia. by rewrite lookup_app_l by lia.
Qed.
Lemma add_bounds_book : exists x', add_orderbook_constraint lower upper (category_from_idx (Z.of_nat idx) n) x = Ok x' /\ built l' x'.
Proof.
  destruct built_l as [X1 X2 X3 X4 X5 X6 X7]. destruct (orderbook_category n big idx idx_book) as (Ec & Ei & Hs & Hb & Hne). fold na in Hs, Hb.
  pose proof range_new as Hr. destruct (pl_wf _ _ _ _ X2) as (M & Hwf & _).
  unfold add_orderbook_constraint. rewrite Ec, (cf_assets _ X1), Ei, (cf_books _ X1).
  rewrite (proj2 (Z.ltb_ge _ _)), (proj2 (Z.eqb_neq _ _)), (i128_id (upper - lower)), (i128_id (- lower)) by lia. cbn [result_bind sellAsset buyAsset].
  replace (Z.of_nat (length (SparseTableau.rows (SparseTUSimplex.tableau (SparseTUSimplex.add_new_constraint_row (base x))))) - 1) with (Z.of_nat m)
    by (cbn; rewrite length_app, (wf_rows _ _ _ _ Hwf); cbn; lia).
  rewrite <- !Nat2Z.inj_add, !market_column by lia. set (x1 := set_asset_constraint_slacks_active (Z.of_nat (buy idx)) _).
  assert (C1 : config x1) by (constructor; apply X1).
  assert (T1 : tableau_of x1 = book_tableau) by done.
  assert (B1 : basis_of x1 = basis_of x ++ [Z.of_nat (K + idx)]) by done.
  destruct (slack_idx x (sell idx) X1 Hs) as [Es1 Es2]. destruct (slack_idx x (buy idx) X1 Hb) as [Eb1 Eb2].
  assert (A1 : SparseTUSimplex.active_cols (base x1) = TaxFreeSimplex.activate (Z.of_nat (2 * K + na + buy idx)) (TaxFreeSimplex.activate (Z.of_nat (2 * K + buy idx))
    (TaxFreeSimplex.activate (Z.of_nat (2 * K + na + sell idx)) (TaxFreeSimplex.activate (Z.of_nat (2 * K + sell idx))
    (TaxFreeSimplex.activate (Z.of_nat (K + idx)) (TaxFreeSimplex.activate (Z.of_nat idx) (SparseTUSimplex.active_cols (base x)))))))).
  { rewrite <- Es1, <- Es2, <- Eb1, <- Eb2. done. }
  assert (O1 : SparseTUSimplex.objective_row (base x1) = SparseTUSimplex.objective_row (base x)) by done. clearbody x1.
  pose proof book_plain as P1. rewrite <- T1 in P1. pose proof (asked_bound _ (buy idx) l'_ok) as Rb. pose proof (asked_bound _ (sell idx) l'_ok) as Rs.
  rewrite asked_app in Rb, Rs. cbn [fst snd] in Rb, Rs. rewrite (decide_False (P := sell idx = buy idx)), decide_True in Rb by done.
  rewrite (decide_False (P := buy idx = sell idx)), decide_True in Rs by done.
  assert (Va : forall a, (a < na)%nat -> (if decide (a = m) then upper - lower else row_values l a) = asked l a).
  { intros a Ha. rewrite decide_False by lia. unfold row_values. by rewrite decide_True. }
  destruct (adjust_plain (buy idx) (- lower) x1 _ _ _ C1 P1 Hb ltac:(lia) ltac:(cbn beta; rewrite Va by done; lia)) as (tb2 & -> & P2). set (x2 := with_base _ _).
  assert (C2 : config x2) by (constructor; apply C1). cbn beta in P2. rewrite Va in P2 by done.
  destruct (adjust_plain (sell idx) lower x2 _ _ _ C2 P2 Hs ltac:(lia) ltac:(cbn beta; rewrite decide_False, Va by done; lia)) as (tb3 & -> & P3).
  cbn beta in P3. rewrite (decide_False (P := sell idx = buy idx)), Va in P3 by done.
  assert (E2 : basis_of x2 = vec_update (fun _ => Z.of_nat (if asked l (buy idx) + - lower <? 0 then 2 * K + na + buy idx else 2 * K + buy idx)) (buy idx) (basis_of x ++ [Z.of_nat (K + idx)])).
  { unfold x2. cbn [base with_base with_basis SparseTUSimplex.active_basis SparseTUSimplex.with_tableau]. by rewrite Va, B1. }
  eexists. split; [done|]. constructor; cbn [base with_base with_basis SparseTUSimplex.with_tableau SparseTUSimplex.tableau SparseTUSimplex.active_cols
    SparseTUSimplex.active_basis SparseTUSimplex.objective_row]; rewrite ?length_app; cbn [length]; replace (na + (length l + 1))%nat with (S m) by lia.
  - constructor; apply C2.
  - eapply plain_ext; [done| |exact P3]. intros i Hi. rewrite row_values_app by done. unfold row_values. rewrite (decide_True (P := (sell idx < na)%nat)), (decide_True (P := (buy idx < na)%nat)) by done.
    destruct (decide (i = m)) as [->|]; [rewrite !decide_False by lia; done|]. repeat case_decide; done || lia.
  - change (SparseTUSimplex.active_cols (base x2)) with (SparseTUSimplex.active_cols (base x1)). rewrite A1, !length_activate. exact X3.
  - intros j Hj. unfold active. cbn [base with_base with_basis SparseTUSimplex.with_tableau SparseTUSimplex.active_cols].
    change (SparseTUSimplex.active_cols (base x2)) with (SparseTUSimplex.active_cols (base x1)). rewrite A1, !activate_lookup by (rewrite ?length_activate; lia).
    fold (active (base x) j). rewrite X4 by done. rewrite fmap_app. cbn [fmap list_fmap fst]. rewrite market_active_app by done.
    destruct (bool_decide (j = idx)), (bool_decide (j = (K + idx)%nat)), (bool_decide (j = (2 * K + sell idx)%nat)), (bool_decide (j = (2 * K + na + sell idx)%nat)),
      (bool_decide (j = (2 * K + buy idx)%nat)), (bool_decide (j = (2 * K + na + buy idx)%nat)); done.
  - unfold vec_update. rewrite length_alter, E2. unfold vec_update. rewrite length_alter, length_app, X5. cbn. lia.
  - intros i Hi. rewrite vec_update_lookup, E2, !vec_update_lookup, (decide_False (P := sell idx = buy idx)) by done.
    assert (Hold : forall k, (k < m)%nat -> (basis_of x ++ [Z.of_nat (K + idx)]) !! k = Some (Z.of_nat (start_basis na K l.*1 (fun a => asked l a <? 0) k))).
    { intros k Hk. rewrite lookup_app_l by lia. by apply X6. }
    rewrite !(Hold (sell idx)), !(Hold (buy idx)) by lia. rewrite !(decide_False (P := sell idx = buy idx)), !Va by done. cbn [fmap option_fmap option_map].
    unfold start_basis. rewrite asked_app, fmap_app. cbn [fst snd fmap list_fmap]. destruct (decide (i = sell idx)) as [->|N1].
    { rewrite (decide_True (P := (sell idx < na)%nat)), (decide_True (P := sell idx = sell idx)), (decide_False (P := buy idx = sell idx)) by done. by rewrite Z.sub_0_r. }
    destruct (decide (i = buy idx)) as [->|N2].
    { rewrite (decide_True (P := (buy idx < na)%nat)), (decide_False (P := sell idx = buy idx)), (decide_True (P := buy idx = buy idx)) by done.
      by replace (asked l (buy idx) + (0 - lower)) with (asked l (buy idx) + - lower) by lia. }
    destruct (decide (i < na)%nat) as [Ha|Ha].
    { rewrite Hold by lia. unfold start_basis. rewrite decide_True, (decide_False (P := sell idx = i)), (decide_False (P := buy idx = i)) by (done || lia). by rewrite Z.sub_0_r, Z.add_0_r. }
    destruct (decide (i = m)) as [->|N3].
    { rewrite lookup_app_r, X5, Nat.sub_diag by lia. replace (m - na)%nat with (length l.*1) by (rewrite length_fmap; lia). by rewrite list_lookup_middle. }
    rewrite Hold by lia. unfold start_basis. rewrite decide_False by lia. by rewrite lookup_app_l by (rewrite length_fmap; lia).
  - change (SparseTUSimplex.objective_row (base x2)) with (SparseTUSimplex.objective_row (base x1)). by rewrite O1.
Qed.
End AddBook.

(** Bounds that are equal add nothing. *)
Definition strictly (l : bounds_list) : bounds_list := filter (fun p => fst (snd p) < snd (snd p)) l.
Definition constraints_of (l : bounds_list) : list (OfferCategory * (Z * Z)) := (fun p => (category_from_idx (Z.of_nat (fst p)) n, snd p)) <$> l.
Lemma bounds_ok_prefix l1 l2 : bounds_ok (l1 ++ l2) -> bounds_ok l1.
Proof.
  intros [Hl Hs]. apply Forall_app in Hl as [H1 H2]. split; [done|]. rewrite sum_by_app in Hs. enough (0 <= sum_by (fun p => snd (snd p)) l2) by lia.
  apply sum_by_nonneg. eapply Forall_impl; [exact H2|]. cbn. lia.
Qed.
Lemma books_short (l : list nat) : NoDup l -> Forall (fun j => (j < K)%nat) l -> (length l <= K)%nat.
Proof.
  intros Hnd Hl. rewrite <- (length_seq K 0). apply submseteq_length, NoDup_submseteq; [done|]. intros j Hj. apply elem_of_seq. rewrite Forall_forall in Hl. specialize (Hl j Hj). lia.
Qed.
Lemma add_bounds_built l : forall l0 x, built l0 x -> let kept := l0 ++ strictly l in
  NoDup kept.*1 -> Forall (fun p => (fst p < K)%nat) kept -> bounds_ok kept -> Forall (fun p => fst (snd p) <= snd (snd p)) l ->
  exists x', add_bounds (constraints_of l) x = Ok x' /\ built kept x'.
Proof.
  induction l as [|[idx [lower upper]] l IH]; intros l0 x Hx; cbn zeta; intros Hnd Hr Hok Hle; [exists x; by rewrite app_nil_r|].
  apply Forall_cons in Hle as [Hlu Hle]. cbn [fst snd] in Hlu. cbn [constraints_of fmap list_fmap add_bounds fst snd]. unfold strictly in *. rewrite filter_cons in *. cbn [fst snd] in *.
  destruct (decide (lower < upper)) as [Hlt|Hge].
  - assert (Eapp : l0 ++ (idx, (lower, upper)) :: filter (fun p => p.2.1 < p.2.2) l = (l0 ++ [(idx, (lower, upper))]) ++ filter (fun p => p.2.1 < p.2.2) l)
      by by rewrite <- app_assoc.
    rewrite Eapp in *. destruct (add_bounds_book l0 x idx lower upper Hx) as (x1 & E1 & H1).
    + apply Forall_app in Hr as [Hr _]. apply Forall_app in Hr as [_ Hr]. by apply Forall_cons in Hr as [Hr _].
    + done.
    + rewrite fmap_app in Hnd. apply NoDup_app in Hnd as (Hnd & _ & _). apply Forall_app in Hr as [Hr _].
      pose proof (books_short _ Hnd ltac:(by apply Forall_fmap)) as Hs. rewrite length_fmap, length_app in Hs. cbn in Hs. lia.
    + by apply bounds_ok_prefix in Hok.
    + rewrite E1. cbn [result_bind]. by apply IH.
  - assert (lower = upper) as -> by lia. unfold add_orderbook_constraint. rewrite Z.ltb_irrefl, Z.eqb_refl. cbn [result_bind]. by apply IH.
Qed.

(** *** The tableau of [check_feasibility] *)
Section Prepared.
Variable l : bounds_list.
Hypothesis l_NoDup : NoDup l.*1.
Hypothesis l_range : Forall (fun p => (fst p < K)%nat) l.
Hypothesis l_ok : bounds_ok l.
Let books := l.*1.
Let negated_asset (a : nat) : bool := asked l a <? 0.
Definition limits : nat -> Z := limit_of ((fun p => (fst p, snd (snd p) - fst (snd p))) <$> l).
Definition lowers : nat -> Z := limit_of ((fun p => (fst p, fst (snd p))) <$> l).
Let sell_asset : forall j, (j < K)%nat -> (sell j < na)%nat.
Proof. intros j Hj. by apply (orderbook_category n big j Hj). Qed.
Let buy_asset : forall j, (j < K)%nat -> (buy j < na)%nat.
Proof. intros j Hj. by apply (orderbook_category n big j Hj). Qed.
Let sell_buy : forall j, (j < K)%nat -> sell j <> buy j.
Proof. intros j Hj. by apply (orderbook_category n big j Hj). Qed.
Let books_range : Forall (fun idx => (idx < K)%nat) books.
Proof. unfold books. by apply Forall_fmap. Qed.
Lemma tagged_fsts (f : nat * (Z * Z) -> Z) : ((fun p => (fst p, f p)) <$> l).*1 = books.
Proof. unfold books. by rewrite <- list_fmap_compose. Qed.
Lemma limits_nonneg j : 0 <= limits j.
Proof. apply limit_of_nonneg, Forall_fmap. eapply Forall_impl; [apply l_ok|]. cbn. lia. Qed.
Lemma lowers_nonneg j : 0 <= lowers j.
Proof. apply limit_of_nonneg, Forall_fmap. eapply Forall_impl; [apply l_ok|]. cbn. lia. Qed.
Lemma limits_books j : j ∉ books -> limits j = 0.
Proof. intros Hj. apply limit_of_out. by rewrite tagged_fsts. Qed.
Lemma lowers_books j : j ∉ books -> lowers j = 0.
Proof. intros Hj. apply limit_of_out. by rewrite tagged_fsts. Qed.
Lemma limits_lookup k idx lower upper : l !! k = Some (idx, (lower, upper)) -> limits idx = upper - lower /\ lowers idx = lower.
Proof.
  intros Hk. split; apply (limit_of_lookup _ k); rewrite ?tagged_fsts; try done; by rewrite list_lookup_fmap, Hk.
Qed.
Lemma limit_of_sum (part : nat -> nat) a (l' : list (nat * Z)) : NoDup l'.*1 -> Forall (fun p => (fst p < K)%nat) l' ->
  sum_by (fun j => if decide (part j = a) then limit_of l' j else 0) (seq 0 K) = sum_by (fun p => if decide (part (fst p) = a) then snd p else 0) l'.
Proof.
  intros Hnd Hr. induction Hr as [|[idx v] l' Hi Hl IH]; [apply sum_by_zero, Forall_forall; intros j _; by case_decide|].
  cbn in Hnd, Hi. apply NoDup_cons in Hnd as [Hn Hnd]. rewrite sum_by_cons, <- IH by done.
  rewrite (sum_by_point (fun j => if decide (part j = a) then limit_of l' j else 0) _ (seq 0 K) idx).
  - cbn. rewrite (decide_True (P := idx = idx)) by done. rewrite (limit_of_out l' idx) by done. case_decide; lia.
  - apply NoDup_seq.
  - apply elem_of_seq. lia.
  - intros j _ Hj. cbn. by rewrite (decide_False (P := idx = j)) by congruence.
Qed.
Lemma asked_lowers a : asked l a = sold K sell lowers a - bought K buy lowers a.
Proof.
  assert (E : forall part : nat -> nat, sum_by (fun j => if decide (part j = a) then lowers j else 0) (seq 0 K) = sum_by (fun p => if decide (part (fst p) = a) then fst (snd p) else 0) l).
  { intros part. unfold lowers. rewrite limit_of_sum; [by rewrite sum_by_fmap|by rewrite tagged_fsts|]. by apply Forall_fmap. }
  unfold sold, bought. rewrite (E sell), (E buy). unfold asked. clear. induction l as [|p l' IH]; [done|]. rewrite !sum_by_cons. lia.
Qed.
Abbreviation m := (na + length books)%nat.
Abbreviation A0 := (start_entry na K sell buy books negated_asset).
Abbreviation b0 := (start_value na books negated_asset limits (asked l)).
Abbreviation c0 := (shortage_cost na K).
Abbreviation act := (market_active na K sell buy books).
Abbreviation edge_tail := (tail na K sell buy books).
Abbreviation edge_head := (head na K buy books).
Abbreviation weight := (start_weight na negated_asset).
Lemma values_start i : (i < m)%nat -> b0 i = sign na negated_asset i * row_values l i.
Proof.
  intros Hi. unfold start_value, row_values. f_equal. destruct (decide (i < na)%nat) as [|Ha]; [done|].
  destruct (lookup_lt_is_Some_2 l (i - na)) as [[idx [lower upper]] Hk]; [unfold books in Hi; rewrite length_fmap in Hi; lia|].
  unfold books. rewrite list_lookup_fmap, Hk. cbn. by destruct (limits_lookup _ _ _ _ Hk).
Qed.

(** The prices of the first [k] assets. *)
Definition price_of (k j : nat) : Z := sum_by (fun i => weight i * A0 i j) (seq 0 k).
Definition price_value (k : nat) : Z := sum_by (fun i => weight i * b0 i) (seq 0 k).
Lemma one_point k (v : nat) : 0 <= sum_by (fun i => if decide (i = v) then 1 else 0) (seq 0 k) <= 1.
Proof.
  destruct (decide (v < k)%nat) as [Hv|Hv].
  - rewrite (sum_at _ k v Hv); [by rewrite decide_True|]. intros i _ Hne. by rewrite decide_False.
  - rewrite sum_by_zero; [lia|]. apply Forall_forall. intros i Hi%elem_of_seq. rewrite decide_False; [done|lia].
Qed.
Lemma price_bound k j : (k <= na)%nat -> -2 <= price_of k j <= 2.
Proof.
  intros Hk. assert (Hf : exists v w, forall i, (i < na)%nat -> Z.abs (coefficient na K sell buy books i j) <= (if decide (i = v) then 1 else 0) + (if decide (i = w) then 1 else 0)).
  { destruct (decide (j < K)%nat); [exists (sell j), (buy j)|exists (j - 2 * K)%nat, (j - (2 * K + na))%nat]; intros i Hi; unfold coefficient; rewrite (decide_True (P := (i < na)%nat)) by done;
      repeat case_decide; lia. }
  destruct Hf as (v & w & Hvw). unfold price_of.
  assert (Hs : - (sum_by (fun i => if decide (i = v) then 1 else 0) (seq 0 k) + sum_by (fun i => if decide (i = w) then 1 else 0) (seq 0 k)) <=
    sum_by (fun i => weight i * A0 i j) (seq 0 k) <= sum_by (fun i => if decide (i = v) then 1 else 0) (seq 0 k) + sum_by (fun i => if decide (i = w) then 1 else 0) (seq 0 k)); [|pose proof (one_point k v); pose proof (one_point k w); lia].
  assert (Hl : Forall (fun i => (i < na)%nat) (seq 0 k)) by (apply Forall_forall; intros i Hi%elem_of_seq; lia).
  induction Hl as [|i ks Hi Hl IH]; [done|]. rewrite !sum_by_cons. specialize (Hvw i Hi).
  assert (Hw : Z.abs (weight i * A0 i j) <= Z.abs (coefficient na K sell buy books i j)).
  { unfold start_weight, start_entry, sign. rewrite !(decide_True (P := (i < na)%nat)) by done. destruct (negated_asset i); lia. }
  cbv beta in *. lia.
Qed.

Lemma uppers_sum : capacity K limits lowers = sum_by (fun p => snd (snd p)) l.
Proof.
  assert (E : forall f : nat * (Z * Z) -> Z, sum_by (limit_of ((fun p => (fst p, f p)) <$> l)) (seq 0 K) = sum_by f l).
  { intros f. rewrite limit_of_total; [by rewrite sum_by_fmap|by rewrite tagged_fsts|by apply Forall_fmap]. }
  pose proof (E (fun p => snd (snd p) - fst (snd p))) as E1. pose proof (E (fun p => fst (snd p))) as E2. cbn beta in E1, E2. fold limits in E1. fold lowers in E2.
  pose proof (sum_by_sub (fun j => limits j + lowers j) lowers limits (seq 0 K) ltac:(intros j _; cbv beta; lia)) as H1.
  pose proof (sum_by_sub (fun p : nat * (Z * Z) => snd (snd p)) (fun p => fst (snd p)) (fun p => snd (snd p) - fst (snd p)) l ltac:(done)) as H2.
  unfold capacity. lia.
Qed.
Lemma price_value_bound k : (k <= na)%nat -> 0 <= price_value k < 2 ^ 126.
Proof.
  intros Hk. assert (Hw : forall i, (i < na)%nat -> 0 <= weight i * b0 i <= bought K buy lowers i).
  { intros i Hi. rewrite values_start by lia. unfold start_weight, sign, row_values. rewrite !(decide_True (P := (i < na)%nat)) by done.
    assert (Hs : 0 <= sold K sell lowers i) by (apply sum_by_nonneg, Forall_forall; intros j _; pose proof (lowers_nonneg j); by case_decide).
    assert (Hb : 0 <= bought K buy lowers i) by (apply sum_by_nonneg, Forall_forall; intros j _; pose proof (lowers_nonneg j); by case_decide).
    pose proof (asked_lowers i) as Ea. unfold negated_asset. destruct (Z.ltb_spec (asked l i) 0); lia. }
  split; [apply sum_by_nonneg, Forall_forall; intros i Hi%elem_of_seq; apply Hw; lia|].
  apply Z.le_lt_trans with (sum_by (bought K buy lowers) (seq 0 k)); [apply sum_by_le, Forall_forall; intros i Hi%elem_of_seq; apply Hw; lia|].
  apply Z.le_lt_trans with (sum_by (bought K buy lowers) (seq 0 na)).
  - replace na with (k + (na - k))%nat by lia. rewrite seq_app, sum_by_app. enough (0 <= sum_by (bought K buy lowers) (seq (0 + k) (na - k))) by lia.
    apply sum_by_nonneg, Forall_forall. intros i Hi%elem_of_seq. transitivity (weight i * b0 i); apply Hw; lia.
  - rewrite (total_bought na K buy books buy_asset na) by (auto; unfold na, assets; lia). apply Z.le_lt_trans with (capacity K limits lowers).
    + apply sum_by_le, Forall_forall. intros j _. pose proof (limits_nonneg j). lia.
    + rewrite uppers_sum. apply l_ok.
Qed.

Lemma shortage_costs x k : config x -> (k <= na)%nat ->
  let r := foldl (fun r asset => ObjectiveRow.set_idx (get_feasibility_var_idx asset x) (-1) r) (ObjectiveRow.new (Z.of_nat N)) (Z.of_nat <$> seq 0 k) in
  length (ObjectiveRow.matrix_entries r) = N /\ ObjectiveRow.nz_hints r = [] /\ ObjectiveRow.row_value r = 0 /\
  forall j, (j < N)%nat -> ObjectiveRow.at_ r (Z.of_nat j) = if decide (2 * K + na <= j < 2 * K + na + k)%nat then -1 else 0.
Proof.
  intros Hx. induction k as [|k IH]; intros Hk; cbn zeta.
  { cbn [seq fmap list_fmap foldl]. split; [cbn; rewrite length_replicate; lia|]. do 2 (split; [done|]). intros j Hj. rewrite at_cost, cost_new. by rewrite decide_False by lia. }
  rewrite seq_S, fmap_app, foldl_app. cbn [fmap list_fmap foldl]. rewrite Nat.add_0_l. specialize (IH ltac:(lia)). cbn zeta in IH. set (r := foldl _ _ _) in *.
  destruct IH as (R1 & R2 & R3 & R4). rewrite (proj2 (slack_idx x k Hx ltac:(lia))). split; [by rewrite length_set_idx|]. split; [exact R2|]. split; [exact R3|].
  intros j Hj. rewrite at_cost, cost_set_idx by (rewrite R1; lia). rewrite <- at_cost, R4 by done. repeat case_decide; done || lia.
Qed.

(** The first [k] assets have been looked at. *)
Record priced (k : nat) x : Prop := {
  pc_config : config x;
  pc_wf : exists M, wf m N M (tableau_of x) /\ forall i j, (i < m)%nat -> (j < N)%nat -> M (Z.of_nat i) (Z.of_nat j) = coefficient na K sell buy books i j;
  pc_flags : forall i, (i < m)%nat -> SparseTableau.is_negated (tableau_of x) (Z.of_nat i) = if decide (i < k)%nat then negated_asset i else false;
  pc_values : forall i, (i < m)%nat -> SparseTableau.get_value (Z.of_nat i) (tableau_of x) = if decide (i < k)%nat then b0 i else row_values l i;
  pc_costs_length : length (ObjectiveRow.matrix_entries (SparseTUSimplex.objective_row (base x))) = N;
  pc_costs : forall j, (j < N)%nat -> objective (base x) j = c0 j + price_of k j;
  pc_value : objective_value (base x) = price_value k;
  pc_range : Forall (in_row N) (ObjectiveRow.nz_hints (SparseTUSimplex.objective_row (base x)));
  pc_hints : forall j, (j < N)%nat -> 0 < objective (base x) j -> Z.of_nat j ∈ ObjectiveRow.nz_hints (SparseTUSimplex.objective_row (base x));
  pc_active : forall j, (j < N)%nat -> active (base x) j = act j;
  pc_basis_length : length (basis_of x) = m;
  pc_basis : forall i, (i < m)%nat -> basis_of x !! i = Some (Z.of_nat (start_basis na K books negated_asset i))
}.
Lemma objective_coeffs_priced x : built l x -> priced 0 (set_feasibility_objective_coeffs x).
Proof.
  intros [X1 X2 X3 X4 X5 X6 X7]. assert (El : length l = length books) by (unfold books; by rewrite length_fmap). rewrite El in *.
  destruct (shortage_costs x na X1 (le_n _)) as (R1 & R2 & R3 & R4). unfold set_feasibility_objective_coeffs. rewrite X7, (cf_assets _ X1), asset_seqZ.
  set (r := foldl _ _ _) in *. destruct (pl_wf _ _ _ _ X2) as (M & Hwf & HM).
  constructor; cbn [base with_base SparseTUSimplex.with_objective SparseTUSimplex.tableau SparseTUSimplex.objective_row SparseTUSimplex.active_basis]; try done.
  - constructor; apply X1.
  - by exists M.
  - intros i Hi. rewrite decide_False by lia. apply (pl_flags _ _ _ _ X2). lia.
  - intros i Hi. rewrite decide_False by lia. by apply (pl_values _ _ _ _ X2).
  - intros j Hj. unfold objective. cbn [base with_base SparseTUSimplex.with_objective SparseTUSimplex.objective_row]. rewrite R4 by done. unfold price_of, shortage_cost.
    cbn [seq]. rewrite sum_by_nil. repeat case_decide; done || lia.
  - rewrite R2. constructor.
  - intros j Hj. unfold objective. cbn [base with_base SparseTUSimplex.with_objective SparseTUSimplex.objective_row]. rewrite R4 by done. case_decide; lia.
Qed.
Lemma normalize_priced k x : (k < na)%nat -> priced k x -> priced (S k) (normalize_asset_constraint x (Z.of_nat k)).
Proof.
  intros Hk Hx. pose proof Hx as [X1 (M & Hwf & HM) X3 X4 X5 X6 X7 X8 X9 X10 X11 X12].
  unfold normalize_asset_constraint. rewrite (proj2 (slack_idx x k X1 Hk)), Nat2Z.id, (X12 k) by lia. cbn [default from_option id].
  assert (Eb : (Z.of_nat (start_basis na K books negated_asset k) =? Z.of_nat (2 * K + na + k)) = negated_asset k).
  { unfold start_basis. rewrite decide_True by done. destruct (negated_asset k); [apply Z.eqb_eq; done|apply Z.eqb_neq; lia]. }
  rewrite Eb. assert (Ew : weight k = if negated_asset k then 1 else 0) by (unfold start_weight; by rewrite decide_True).
  assert (Ep : forall j, price_of (S k) j = price_of k j + weight k * A0 k j).
  { intros j. unfold price_of. rewrite seq_S, sum_by_app, sum_by_cons, sum_by_nil. cbn. lia. }
  assert (Ev : price_value (S k) = price_value k + weight k * b0 k).
  { unfold price_value. rewrite seq_S, sum_by_app, sum_by_cons, sum_by_nil. cbn. lia. }
  assert (Eval : row_values l k = asked l k) by (unfold row_values; by rewrite decide_True).
  pose proof (asked_bound _ k l_ok) as Hask. destruct (negated_asset k) eqn:En.
  - destruct (negate_wf m N M (tableau_of x) Hwf (Z.of_nat k) ltac:(lia)) as (W1 & W2 & W3). set (tb := SparseTableau.negate _ _) in *.
    assert (Hflag : forall i, (i < m)%nat -> SparseTableau.is_negated tb (Z.of_nat i) = if decide (i < S k)%nat then negated_asset i else false).
    { intros i Hi. rewrite W2, X3 by lia. destruct (decide (i = k)) as [->|Hne].
      - rewrite bool_decide_eq_true_2, decide_False, decide_True by (done || lia). by rewrite En.
      - rewrite bool_decide_eq_false_2 by lia. cbn. repeat case_decide; done || lia. }
    assert (Hb0 : b0 k = - asked l k).
    { rewrite values_start, Eval by lia. unfold sign. rewrite decide_True, En by done. lia. }
    assert (Hval : forall i, (i < m)%nat -> SparseTableau.get_value (Z.of_nat i) tb = if decide (i < S k)%nat then b0 i else row_values l i).
    { intros i Hi. unfold SparseTableau.get_value, SparseTableau.row. rewrite W3. change (default SignedTURow.new (SparseTableau.rows (tableau_of x) !! Z.to_nat (Z.of_nat i)))
        with (SparseTableau.row (tableau_of x) (Z.of_nat i)). specialize (X4 i Hi). unfold SparseTableau.get_value in X4. destruct (decide (i = k)) as [->|Hne].
      - rewrite Hflag, X3 in * by lia. rewrite (decide_False (P := (k < k)%nat)) in X4 by lia. rewrite !(decide_True (P := (k < S k)%nat)), En by lia.
        rewrite (decide_False (P := (k < k)%nat)) in X4 by lia. cbn in X4. cbn. rewrite X4, Eval, Hb0. apply i128_id. lia.
      - rewrite W2, bool_decide_eq_false_2 by lia. cbn [xorb]. rewrite (decide_ext (i < S k)%nat (i < k)%nat) by lia.
        destruct (SparseTableau.is_negated (tableau_of x) (Z.of_nat i)); exact X4. }
    assert (Hrow : forall j, sparse_entry (SparseTableau.is_negated tb (Z.of_nat k)) (SignedTURow.pos (SparseTableau.row tb (Z.of_nat k))) (SignedTURow.neg (SparseTableau.row tb (Z.of_nat k))) j =
      - M (Z.of_nat k) j).
    { intros j. rewrite sparse_entry_at, (row_entry_effective m N M) by (done || lia). unfold effective, stored_sign. change (negated (SparseTableau.negations tb) (Z.of_nat k)) with (SparseTableau.is_negated tb (Z.of_nat k)).
      rewrite Hflag, decide_True, En by lia. lia. }
    assert (HA0 : forall j, (j < N)%nat -> A0 k j = - M (Z.of_nat k) (Z.of_nat j)).
    { intros j Hj. rewrite HM by (done || lia). unfold start_entry, sign. rewrite decide_True, En by done. lia. }
    assert (Hcoeff : ObjectiveRow.at_ (SparseTUSimplex.objective_row (base x)) (Z.of_nat (2 * K + na + k)) = -1).
    { specialize (X6 (2 * K + na + k)%nat ltac:(lia)). unfold objective in X6. rewrite X6. unfold shortage_cost. rewrite decide_True by lia.
      enough (price_of k (2 * K + na + k) = 0) by lia. unfold price_of. apply sum_by_zero, Forall_forall. intros i Hi%elem_of_seq. unfold start_entry, coefficient.
      rewrite (decide_True (P := (i < na)%nat)) by lia. rewrite !decide_False by lia. lia. }
    pose proof (wf_row _ _ _ _ W1 (Z.of_nat k) ltac:(lia)) as Hs.
    pose proof (sg_in_pos _ _ _ _ Hs : forall y, y ∈ SignedTURow.pos (SparseTableau.row tb (Z.of_nat k)) <-> _) as Hpos.
    pose proof (sg_in_neg _ _ _ _ Hs : forall y, y ∈ SignedTURow.neg (SparseTableau.row tb (Z.of_nat k)) <-> _) as Hneg.
    assert (Hin : forall j, M (Z.of_nat k) j <> 0 -> in_row N j) by (intros j Hne; by apply (wf_out _ _ _ _ W1 (Z.of_nat k))).
    assert (Hprice : forall j, (j < N)%nat -> objective (base x) j + A0 k j = c0 j + price_of (S k) j) by (intros j Hj; rewrite X6, Ep, Ew by done; lia).
    destruct (subtract_sparse_spec N (SignedTURow.pos (SparseTableau.row tb (Z.of_nat k))) (SignedTURow.neg (SparseTableau.row tb (Z.of_nat k)))
      (SparseTableau.get_value (Z.of_nat k) tb) (SparseTableau.is_negated tb (Z.of_nat k)) (Z.of_nat (2 * K + na + k)) (SparseTUSimplex.objective_row (base x)) X5
      (increasing_NoDup _ (proj1 (sg_pos _ _ _ _ Hs))) (increasing_NoDup _ (proj1 (sg_neg _ _ _ _ Hs)))) as (R1 & R2 & R3 & R4 & R5 & R6).
    + intros j Hj Hj'. apply Hpos in Hj. apply Hneg in Hj'. lia.
    + apply Forall_forall. intros j Hj. apply Hin. apply Hpos in Hj. lia.
    + apply Forall_forall. intros j Hj. apply Hin. apply Hneg in Hj. lia.
    + rewrite Hcoeff. lia.
    + intros j [Hj0 Hj]. rewrite Hcoeff, Hrow. replace j with (Z.of_nat (Z.to_nat j)) by lia. rewrite <- HA0 by lia. change (ObjectiveRow.at_ (SparseTUSimplex.objective_row (base x)) (Z.of_nat (Z.to_nat j)))
        with (objective (base x) (Z.to_nat j)). pose proof (price_bound (S k) (Z.to_nat j) ltac:(lia)). specialize (Hprice (Z.to_nat j) ltac:(lia)). unfold shortage_cost in Hprice. case_decide; lia.
    + rewrite Hcoeff in R2, R3.
      assert (Ecost : forall j, (j < N)%nat -> ObjectiveRow.at_ (ObjectiveRow.subtract_sparse (SignedTURow.pos (SparseTableau.row tb (Z.of_nat k))) (SignedTURow.neg (SparseTableau.row tb (Z.of_nat k)))
        (SparseTableau.get_value (Z.of_nat k) tb) (SparseTableau.is_negated tb (Z.of_nat k)) (Z.of_nat (2 * K + na + k)) (SparseTUSimplex.objective_row (base x))) (Z.of_nat j) = c0 j + price_of (S k) j).
      { intros j Hj. rewrite R3, Hrow, <- HA0 by (done || split; lia). rewrite <- Hprice by done. unfold objective. lia. }
      constructor; cbn [base with_base SparseTUSimplex.with_objective SparseTUSimplex.with_tableau SparseTUSimplex.tableau SparseTUSimplex.objective_row SparseTUSimplex.active_basis]; try done.
      * constructor; apply X1.
      * by exists M.
      * unfold objective_value. cbn [base with_base SparseTUSimplex.with_objective SparseTUSimplex.objective_row]. rewrite R2, Ev, <- X7. unfold objective_value.
        rewrite Hval, decide_True, Ew by lia. pose proof (price_value_bound k ltac:(lia)) as B1. pose proof (price_value_bound (S k) ltac:(lia)) as B2. rewrite Ev, Ew in B2.
        unfold objective_value in X7. rewrite <- X7 in *. rewrite i128_sub by lia. lia.
      * by apply R6.
      * intros j Hj Hp. unfold objective in Hp. cbn [base with_base SparseTUSimplex.with_objective SparseTUSimplex.objective_row] in Hp.
        destruct (R5 (Z.of_nat j)) as [Hold|]; [split; lia|done| |done]. apply R4, X9; done.
  - assert (Hp : forall j, price_of (S k) j = price_of k j) by (intros j; rewrite Ep, Ew; lia).
    constructor; try done.
    + by exists M.
    + intros i Hi. rewrite X3 by done. destruct (decide (i = k)) as [->|Hne]; [|by rewrite (decide_ext (i < S k)%nat (i < k)%nat) by lia].
      rewrite decide_False, decide_True by lia. by rewrite En.
    + intros i Hi. rewrite X4 by done. destruct (decide (i = k)) as [->|Hne]; [|by rewrite (decide_ext (i < S k)%nat (i < k)%nat) by lia].
      rewrite decide_False, decide_True by lia. rewrite values_start by done. unfold sign. rewrite decide_True, En by done. lia.
    + intros j Hj. rewrite X6, Hp by done. done.
    + rewrite X7, Ev, Ew. lia.
Qed.

Lemma prepared_priced x : built l x -> priced na (prepare x).
Proof.
  intros Hx. pose proof (objective_coeffs_priced x Hx) as H0. unfold prepare, normalize_asset_constraints. rewrite (cf_assets _ (pc_config _ _ H0)), asset_seqZ.
  set (x0 := set_feasibility_objective_coeffs x) in *. clearbody x0. assert (Hk : forall k, (k <= na)%nat -> priced k (foldl normalize_asset_constraint x0 (Z.of_nat <$> seq 0 k))); [|by apply Hk].
  induction k as [|k IH]; intros Hk; [exact H0|]. rewrite seq_S, fmap_app, foldl_app. cbn [fmap list_fmap foldl]. rewrite Nat.add_0_l. apply normalize_priced; [lia|]. apply IH. lia.
Qed.
Let tails : forall j, (j < N)%nat -> (edge_tail j < S m)%nat.
Proof. intros j Hj. apply (tail_node na K sell buy books sell_asset buy_asset). lia. Qed.
Let heads : forall j, (j < N)%nat -> (edge_head j < S m)%nat.
Proof. intros j Hj. apply (head_node na K buy books buy_asset l_NoDup). lia. Qed.
Let nt_cases : na = 0%nat \/ na = na.
Proof. by right. Qed.
Let some_asset : (0 < na)%nat.
Proof. unfold na, assets. lia. Qed.
Let fits : fitting_problem m N edge_tail edge_head A0 b0 c0 act (capacity K limits lowers) 1.
Proof.
  apply (feasibility_fits na K sell buy books buy_asset books_range negated_asset limits (asked l) limits_nonneg limits_books na nt_cases eq_refl some_asset lowers lowers_nonneg asked_lowers).
  rewrite uppers_sum. apply l_ok.
Qed.
Definition feasibility_invariant (s : SparseTUSimplex.t) : Prop := sparse_holds m N (S m) edge_tail edge_head A0 b0 c0 act s.
Lemma prepared_holds x : built l x -> feasibility_invariant (base (prepare x)).
Proof.
  intros Hx. destruct (prepared_priced x Hx) as [X1 (M & Hwf & HM) X3 X4 X5 X6 X7 X8 X9 X10 X11 X12]. constructor; [by exists M|done|done|done|done|by intros j Hj _; apply X9|].
  exists (start_potential na buy books negated_asset).
  eapply (tableau_ext m N (S m) edge_tail edge_head A0 b0 c0 act);
    [| | | |rewrite X7; unfold price_value; replace (sum_by (fun i => weight i * b0 i) (seq 0 na)) with (sum_by (fun i => weight i * b0 i) (seq 0 m));
      [apply (feasibility_start na K sell buy books sell_asset buy_asset sell_buy l_NoDup books_range negated_asset limits (asked l) limits_nonneg na nt_cases eq_refl some_asset
        lowers asked_lowers lowers_books); done|]].
  - intros i j Hi Hj. unfold entry. rewrite (row_entry_effective m N M) by (done || lia). unfold effective, stored_sign.
    change (negated (SparseTableau.negations (tableau_of (prepare x))) (Z.of_nat i)) with (SparseTableau.is_negated (tableau_of (prepare x)) (Z.of_nat i)).
    rewrite X3, HM by done. unfold start_entry, sign. repeat case_match; lia.
  - intros i Hi. unfold value. rewrite X4 by done. case_decide as Ha; [done|]. rewrite values_start by done. unfold sign. rewrite decide_False by lia. lia.
  - intros j Hj. rewrite X6 by done. unfold price_of. rewrite seq_app, sum_by_app, (sum_by_zero _ (seq _ (length books))); [lia|].
    apply Forall_forall. intros i Hi%elem_of_seq. unfold start_weight. rewrite decide_False by lia. lia.
  - intros i Hi. unfold basis. rewrite X12 by done. cbn. lia.
  - rewrite seq_app, sum_by_app, (sum_by_zero _ (seq _ (length books))); [lia|].
    apply Forall_forall. intros i Hi%elem_of_seq. unfold start_weight. rewrite decide_False by lia. lia.
Qed.

(** What the objective value says. *)
Abbreviation allowed := (fun y => (forall j, (j < K)%nat -> lowers j <= y j <= lowers j + limits j) /\ forall a, (a < na)%nat -> bought K buy y a <= sold K sell y a).
Lemma invariant_nonneg s : feasibility_invariant s -> 0 <= objective_value s.
Proof.
  intros Hs. destruct (sd_tableau _ _ _ _ _ _ _ _ _ _ Hs) as [P Ht]. pose proof (basic_feasible _ _ _ _ _ _ _ _ _ _ _ _ _ _ _ Ht) as Hf.
  pose proof (shortage_nonpos na K sell buy books negated_asset limits (asked l) na nt_cases eq_refl some_asset _ Hf). pose proof (basic_objective _ _ _ _ _ _ _ _ _ _ _ _ _ _ _ Ht). lia.
Qed.
Lemma stopped_feasible s : feasibility_invariant s -> (forall j, (j < N)%nat -> act j = true -> objective s j <= 0) ->
  objective_value s = 0 <-> exists y, allowed y.
Proof.
  intros Hs Ho. destruct (sd_tableau _ _ _ _ _ _ _ _ _ _ Hs) as [P Ht]. pose proof (basic_feasible _ _ _ _ _ _ _ _ _ _ _ _ _ _ _ Ht) as Hf.
  pose proof (basic_objective _ _ _ _ _ _ _ _ _ _ _ _ _ _ _ Ht) as Ez. set (x := basic m (basis s) (value s)) in *.
  pose proof (excess_above na K sell buy books (asked l) na nt_cases eq_refl some_asset lowers asked_lowers) as Hex. split.
  - intros E0. exists (above lowers x). split.
    + intros j Hj. pose proof (feasible_within na K sell buy books books_range negated_asset limits (asked l) limits_books na nt_cases x Hf j Hj). unfold above. lia.
    + intros a Ha. pose proof (no_shortage_balanced na K sell buy books books_range negated_asset limits (asked l) na nt_cases eq_refl some_asset x Hf ltac:(lia) a Ha) as Hb.
      rewrite Hex in Hb. lia.
  - intros (y & Hy & Hb). set (y0 j := y j - lowers j).
    assert (Ey : forall part : nat -> nat, forall a, sum_by (fun j => if decide (part j = a) then above lowers y0 j else 0) (seq 0 K) = sum_by (fun j => if decide (part j = a) then y j else 0) (seq 0 K)).
    { intros part a. apply sum_seq_ext. intros j _. unfold above, y0. case_decide; lia. }
    destruct (balanced_no_shortage na K sell buy books books_range negated_asset limits (asked l) limits_books na nt_cases eq_refl some_asset lowers asked_lowers lowers_books y0) as [Hf' Hz].
    + intros j Hj. specialize (Hy j Hj). unfold y0. lia.
    + intros a Ha. rewrite Hex. unfold bought, sold. rewrite !Ey. specialize (Hb a Ha). unfold bought, sold in Hb. lia.
    + pose proof (tableau_optimal _ _ _ _ _ _ _ _ _ _ _ _ _ _ _ Ht Ho _ Hf') as Hopt.
      pose proof (shortage_nonpos na K sell buy books negated_asset limits (asked l) na nt_cases eq_refl some_asset x Hf). fold x in Hopt. lia.
Qed.
Lemma invariant_pivot s : feasibility_invariant s ->
  SparseTableau.integrity_check (SparseTUSimplex.tableau s) = true /\
  ((exists s', SparseTUSimplex.do_pivot s = Ok (false, s') /\ objective_value s' = objective_value s /\ (objective_value s = 0 <-> exists y, allowed y)) \/
   exists s', SparseTUSimplex.do_pivot s = Ok (true, s') /\ feasibility_invariant s' /\ 0 <= objective_value s' <= objective_value s).
Proof.
  intros Hs. split; [destruct (sd_wf _ _ _ _ _ _ _ _ _ _ Hs) as [M Hwf]; by apply (wf_integrity m N M)|].
  destruct (sparse_do_pivot_spec m N (S m) edge_tail edge_head tails heads A0 b0 c0 act _ _ fits s Hs) as [(s' & E & Hs' & Ev & Ho)|(s' & E & Hs' & Hle)].
  - left. exists s'. split; [done|]. split; [done|]. rewrite <- Ev. by apply stopped_feasible.
  - right. exists s'. split; [done|]. split; [done|]. split; [by apply invariant_nonneg|done].
Qed.
End Prepared.
End Build.

(** ** What the solver answers *)
Abbreviation bounds_list := (list (nat * (Z * Z))).
(** The bounds of an orderbook, zero when nothing was added for it. *)
Fixpoint bounds_of (l : bounds_list) (j : nat) : Z * Z :=
  match l with
  | [] => (0, 0)
  | (idx, b) :: l => if decide (idx = j) then b else bounds_of l j
  end.
(** Every orderbook trades between its bounds, and no asset is bought more than it is sold. *)
Definition allocation (n : Z) (l : bounds_list) (y : nat -> Z) : Prop :=
  (forall j, (j < orderbooks n)%nat -> fst (bounds_of l j) <= y j <= snd (bounds_of l j)) /\
  forall a, (a < assets n)%nat -> bought (orderbooks n) (buy_of n) y a <= sold (orderbooks n) (sell_of n) y a.
Record valid_bounds (n : Z) (l : bounds_list) : Prop := {
  vo_assets : 2 <= n <= 181;
  vo_NoDup : NoDup l.*1;
  vo_range : Forall (fun p => (fst p < orderbooks n)%nat) l;
  vo_ok : bounds_ok l
}.
Lemma strictly_ok l : bounds_ok l -> bounds_ok (strictly l).
Proof.
  intros [Hl Hs]. split; [apply Forall_forall; intros p [_ Hp]%list_elem_of_filter; rewrite Forall_forall in Hl; by apply Hl|].
  eapply Z.le_lt_trans; [|exact Hs]. clear Hs. induction Hl as [|p l Hp Hl IH]; [done|]. unfold strictly in *. rewrite filter_cons. case_decide; rewrite ?sum_by_cons; lia.
Qed.
Lemma strictly_valid n l : valid_bounds n l -> valid_bounds n (strictly l).
Proof.
  intros [H1 H2 H3 H4]. constructor; [done| | |by apply strictly_ok].
  - apply (sublist_NoDup _ l.*1); [done|]. apply fmap_sublist, sublist_filter.
  - apply Forall_forall. intros p [_ Hp]%list_elem_of_filter. rewrite Forall_forall in H3. by apply H3.
Qed.
Lemma bounds_of_limits l j : lowers l j = fst (bounds_of l j) /\ lowers l j + limits l j = snd (bounds_of l j).
Proof.
  unfold lowers, limits. induction l as [|[idx [lo up]] l IH]; [done|]. cbn. case_decide; [cbn; lia|exact IH].
Qed.
Lemma allocation_allowed n l y : allocation n l y <->
  (forall j, (j < orderbooks n)%nat -> lowers l j <= y j <= lowers l j + limits l j) /\ forall a, (a < assets n)%nat -> bought (orderbooks n) (buy_of n) y a <= sold (orderbooks n) (sell_of n) y a.
Proof.
  unfold allocation. enough ((forall j, (j < orderbooks n)%nat -> fst (bounds_of l j) <= y j <= snd (bounds_of l j)) <->
    forall j, (j < orderbooks n)%nat -> lowers l j <= y j <= lowers l j + limits l j) by tauto.
  split; intros H j Hj; specialize (H j Hj); destruct (bounds_of_limits l j) as [E1 E2]; [rewrite E2, E1|rewrite E2, E1 in H]; done.
Qed.

(** A pivot of the sparse solver. *)
Definition pivots (s s' : SparseTUSimplex.t) : Prop := SparseTUSimplex.do_pivot s = Ok (true, s').
Lemma build_bounds n l : valid_bounds n l -> exists x, build n (constraints_of n l) = Ok x /\ feasibility_invariant n (strictly l) (base (prepare x)).
Proof.
  intros Hl. pose proof (strictly_valid n l Hl) as [H1 H2 H3 H4]. unfold build. destruct (new_bounds n H1) as (x0 & -> & H0). cbn [result_bind].
  destruct (add_bounds_built n H1 l [] x0 H0) as (x & E & Hx); cbn [app]; try done.
  { eapply Forall_impl; [apply (vo_ok _ _ Hl)|]. cbn. lia. }
  exists x. split; [exact E|]. by apply prepared_holds.
Qed.
Lemma bounds_step n l s : valid_bounds n l -> feasibility_invariant n (strictly l) s ->
  SparseTableau.integrity_check (SparseTUSimplex.tableau s) = true /\
  ((exists s', SparseTUSimplex.do_pivot s = Ok (false, s') /\ objective_value s' = objective_value s /\ (objective_value s = 0 <-> exists y, allocation n (strictly l) y)) \/
   exists s', SparseTUSimplex.do_pivot s = Ok (true, s') /\ feasibility_invariant n (strictly l) s' /\ 0 <= objective_value s' <= objective_value s).
Proof.
  intros Hl Hs. pose proof (strictly_valid n l Hl) as [H1 H2 H3 H4]. destruct (invariant_pivot n H1 _ H2 H3 H4 s Hs) as [Hi Hp]. split; [done|].
  destruct Hp as [(s' & E & Ev & Hz)|Hp]; [left|by right]. exists s'. split; [done|]. split; [done|]. rewrite Hz.
  split; intros (y & Hy); exists y; by apply allocation_allowed.
Qed.
Lemma run_answers n l : valid_bounds n l -> forall fuel s, feasibility_invariant n (strictly l) s ->
  SparseTUSimplex.run_simplex fuel s = None \/
  exists s', SparseTUSimplex.run_simplex fuel s = Some (Ok s') /\ (objective_value s' = 0 <-> exists y, allocation n (strictly l) y).
Proof.
  intros Hl. induction fuel as [|fuel IH]; intros s Hs; cbn [SparseTUSimplex.run_simplex];
    destruct (bounds_step n l s Hl Hs) as [_ [(s' & -> & Ev & Hz)|(s' & -> & Hs' & _)]]; [right|by left|right|by apply IH]; exists s'; (split; [done|]); by rewrite Ev.
Qed.

(** C23.  [SimplexLPSolver] on up to 181 assets, whatever bounds are added (each orderbook once,
    the upper bounds adding up to less than 2^126): the constructor and the additions
    succeed, and after the normalisation and any number of pivots the rows and the columns
    of the sparse tableau agree ([integrity_check]).  There [do_pivot] never throws
    ("failed to find pivot row", "desync"): it pivots, and the objective value stays
    nonnegative and does not grow, or it stops, and then the value is zero exactly when the
    orderbooks with distinct bounds can trade between them without an asset being bought
    more than it is sold. *)
Theorem feasibility_solver_correct (n : Z) (l : bounds_list) (Hl : valid_bounds n l) :
  exists x, build n (constraints_of n l) = Ok x /\ forall s, rtc pivots (base (prepare x)) s ->
    SparseTableau.integrity_check (SparseTUSimplex.tableau s) = true /\
    ((exists s', SparseTUSimplex.do_pivot s = Ok (false, s') /\ objective_value s' = objective_value s /\
        (objective_value s = 0 <-> exists y, allocation n (strictly l) y)) \/
     exists s', SparseTUSimplex.do_pivot s = Ok (true, s') /\ 0 <= objective_value s' <= objective_value s).
Proof.
  destruct (build_bounds n l Hl) as (x & E & Hx). exists x. split; [done|]. intros s Hs.
  assert (Hinv : feasibility_invariant n (strictly l) s).
  { remember (base (prepare x)) as s0 eqn:E0. clear E0. induction Hs as [s|s s1 s2 Hs1 Hs2 IH]; [done|]. apply IH.
    destruct (bounds_step n l s Hl Hx) as [_ [(s' & E' & _)|(s' & E' & Hs' & _)]]; unfold pivots in Hs1; congruence. }
  destruct (bounds_step n l s Hl Hinv) as [Hi [Hstop|(s' & E' & _ & Hv)]]; (split; [done|]); [by left|right]. by exists s'.
Qed.
Lemma feasibility_solver_correct_witness : let l := [(0%nat, (4, 5)); (2%nat, (1, 5)); (3%nat, (7, 7))] in
  valid_bounds 3 l /\ exists x, build 3 (constraints_of 3 l) = Ok x /\ SparseTableau.integrity_check (SparseTUSimplex.tableau (base (prepare x))) = true.
Proof.
  assert (Hl : valid_bounds 3 [(0%nat, (4, 5)); (2%nat, (1, 5)); (3%nat, (7, 7))]).
  { constructor; [lia| |repeat constructor|split; [repeat constructor; cbn; lia|by vm_compute]].
    apply (bool_decide_unpack _). by vm_compute. }
  split; [exact Hl|]. destruct (feasibility_solver_correct 3 _ Hl) as (x & E & Hx). exists x. split; [exact E|]. apply Hx. apply rtc_refl.
Defined.

(** C25.  [check_feasibility]: unless it needs more than [fuel] pivots, it returns, without an
    exception, whether the orderbooks with distinct bounds can trade between them.  Bounds
    that are equal are left out of the question. *)
Theorem check_feasibility_answers (n : Z) (l : bounds_list) (fuel : nat) (Hl : valid_bounds n l) :
  exists x, build n (constraints_of n l) = Ok x /\
    (check_feasibility fuel x = None \/
     exists b x', check_feasibility fuel x = Some (Ok (b, x')) /\ (b = true <-> exists y, allocation n (strictly l) y)).
Proof.
  destruct (build_bounds n l Hl) as (x & E & Hx). exists x. split; [done|]. unfold check_feasibility.
  destruct (run_answers n l Hl fuel _ Hx) as [->|(s' & -> & Hz)]; [by left|right]. do 2 eexists. split; [done|].
  rewrite Z.eqb_eq. exact Hz.
Qed.
Lemma check_feasibility_answers_witness : let l := [(0%nat, (4, 5)); (2%nat, (1, 3))] in
  valid_bounds 3 l /\ exists x, build 3 (constraints_of 3 l) = Ok x /\ ~ exists y, allocation 3 (strictly l) y.
Proof.
  assert (Hl : valid_bounds 3 [(0%nat, (4, 5)); (2%nat, (1, 3))]).
  { constructor; [lia| |repeat constructor|split; [repeat constructor; cbn; lia|by vm_compute]].
    apply (bool_decide_unpack _). by vm_compute. }
  split; [exact Hl|]. destruct (check_feasibility_answers 3 _ 20 Hl) as (x & E & Hx). exists x. split; [exact E|].
  assert (Hr : exists x', check_feasibility 20 x = Some (Ok (false, x'))).
  { vm_compute in E. injection E as <-. eexists. vm_compute. reflexivity. }
  destruct Hr as [x' Hr]. rewrite Hr in Hx. destruct Hx as [Hx|(b & x2 & Hb & Hy)]; [discriminate|]. injection Hb as <- <-. rewrite <- Hy. discriminate.
Defined.
