(* ===== verification/SerialAuction.v ===== *)
(** * The serial double auction (src/cda/serial_ob.h, .cc)

    [SerialOrderbook]: the offers of one side of a two-asset market, executed
    one incoming order at a time.  [try_execute] walks the offers in key order
    (best price first) and pays their owners through a buffered database view.
    The trie is another instance of the trie library, with deletion marks only:
    [DeletableTrie] states what the code relies on.  The reference
    [match_book] says which offers an order takes, and
    [AuctionProps.try_execute_matches] that the code does that. *)
From stdpp Require Import base gmap list strings sorting.
From S2P Require Import Prelude Types PriceArith Offers Asset SeqTracker Accounts AccountLmdb Database DbView.

Abbreviation key := (list Z) (only parsing).

(** ** The trie of a serial orderbook *)
Class DeletableTrie (BT : Type) := {
  dt_map : BT -> gmap key Offer;
  dt_marked : BT -> gset key;
  dt_empty : BT;
  dt_insert : BT -> key -> Offer -> BT;
  dt_perform_deletion : BT -> key -> BT * option Offer;
  dt_mark_for_deletion : BT -> key -> BT;
  dt_perform_marked_deletions : BT -> BT;
  (** what an iterator from [begin()] visits *)
  dt_entries : BT -> list (key * Offer);

  dt_empty_map : dt_map dt_empty = ∅;
  dt_empty_marked : dt_marked dt_empty = ∅;
  dt_insert_map t k o : dt_map (dt_insert t k o) = <[k := o]> (dt_map t);
  dt_insert_marked t k o : k ∉ dt_marked t -> dt_marked (dt_insert t k o) = dt_marked t;
  dt_delete_map t k : dt_map (dt_perform_deletion t k).1 = delete k (dt_map t);
  dt_delete_marked t k : dt_marked (dt_perform_deletion t k).1 = dt_marked t ∖ {[k]};
  dt_delete_result t k : (dt_perform_deletion t k).2 = dt_map t !! k;
  dt_mark_map t k : dt_map (dt_mark_for_deletion t k) = dt_map t;
  dt_mark_marked t k : k ∈ dom (dt_map t) -> dt_marked (dt_mark_for_deletion t k) = {[k]} ∪ dt_marked t;
  dt_deletions_map t : dt_map (dt_perform_marked_deletions t) = filter (fun p => p.1 ∉ dt_marked t) (dt_map t);
  dt_deletions_marked t : dt_marked (dt_perform_marked_deletions t) = ∅;
  dt_entries_map t : dt_entries t ≡ₚ map_to_list (dt_map t);
  dt_entries_sorted t : StronglySorted key_le (dt_entries t)
}.

(** A trie that is its map and its marks. *)
Module SerialMap.
Record t := mk { offers : gmap key Offer; marks : gset key }.
Definition marked (tr : t) : gset key := marks tr ∩ dom (offers tr).

#[global] Program Instance trie : DeletableTrie t := {
  dt_map := offers;
  dt_marked := marked;
  dt_empty := mk ∅ ∅;
  dt_insert tr k o := mk (<[k := o]> (offers tr)) (marked tr);
  dt_perform_deletion tr k := (mk (delete k (offers tr)) (marks tr), offers tr !! k);
  dt_mark_for_deletion tr k := mk (offers tr) ({[k]} ∪ marks tr);
  dt_perform_marked_deletions tr := mk (filter (fun p => p.1 ∉ marked tr) (offers tr)) ∅;
  dt_entries tr := merge_sort key_le (map_to_list (offers tr))
}.
Next Obligation. done. Qed.
Next Obligation. done. Qed.
Next Obligation. done. Qed.
Next Obligation. intros tr k o _. unfold marked. simpl. rewrite dom_insert_L. set_solver. Qed.
Next Obligation. done. Qed.
Next Obligation. intros tr k. unfold marked. simpl. rewrite dom_delete_L. set_solver. Qed.
Next Obligation. done. Qed.
Next Obligation. done. Qed.
Next Obligation. intros tr k Hk. unfold marked. simpl in *. set_solver. Qed.
Next Obligation. done. Qed.
Next Obligation. intros tr. unfold marked. simpl. set_solver. Qed.
Next Obligation. intros tr. apply merge_sort_Permutation. Qed.
Next Obligation. intros tr. apply StronglySorted_merge_sort; apply _. Qed.
End SerialMap.

(** ** The orderbook *)
Section SerialOrderbook.
Context {T : Type} `{SequenceTracker T}.
Context {CT : Type} `{MerkleTrie AccountCommitment CT}.
Context {L : Type} `{LMDBInstance L}.
Context {BT : Type} `{DeletableTrie BT} `{BigEndian}.

Abbreviation DB := (MemoryDatabase.t T CT L).
Abbreviation View := (BufferedMemoryDatabaseView (T := T)).

Definition add_offer (ob : BT) (offer : Offer) : BT := dt_insert ob (Key.offer_key offer) offer.

Definition cancel_offer (ob : BT) (mp account seqno : Z) : BT * bool :=
  let p := dt_perform_deletion ob (Key.generate_orderbook_trie_key mp account seqno) in
  (p.1, bool_decide (is_Some p.2)).

(** The variables of [try_execute] that its loop assigns. *)
Record Execution := mkExecution {
  remaining_sell : Z;
  bought_amount : Z;
  final_offer : Offer;
  ex_ob : BT;
  ex_db : DB;
  ex_view : View
}.

(** The loop body for an offer within the price limit. *)
Definition execute_against (k : key) (offer : Offer) (x : Execution) : result Execution :=
  let max_sell_consumed := u128 (minPrice offer * amount offer) in
  let remaining_sell_consumed := u128 (Z.shiftl (remaining_sell x) Price.PRICE_RADIX) in
  let realized_sell_consumed := Z.min max_sell_consumed remaining_sell_consumed in
  if minPrice offer =? 0 then Throw "division by zero" else
  let amount_offer_consumed := u64 (realized_sell_consumed / minPrice offer) in
  let amount_remaining_sell_consumed := Price.round_up_price_times_amount realized_sell_consumed in
  if remaining_sell x <? amount_remaining_sell_consumed then Throw "sell amount mismatch" else
  let remaining := u64 (remaining_sell x - amount_remaining_sell_consumed) in
  let bought := u64 (bought_amount x + amount_offer_consumed) in
  match dv_lookup_user (ex_db x) (ex_view x) (owner offer) with
  | None => Throw "wtf"
  | Some user =>
      let* q := dv_transfer_available (ex_db x) (ex_view x) user (buyAsset (category offer))
                  (i64 amount_remaining_sell_consumed) in
      let '(db, view, _) := q in
      if amount_offer_consumed =? amount offer then
        Ok (mkExecution remaining bought (final_offer x) (dt_mark_for_deletion (ex_ob x) k) db view)
      else if amount offer <? amount_offer_consumed then Throw "invalid offer consume"
      else if negb (remaining =? 0) then Throw "invalid partial exec"
      else Ok (mkExecution remaining bought (set_amount offer (u64 (amount offer - amount_offer_consumed)))
                 (ex_ob x) db view)
  end.

(** Marking for deletion does not change what the iterator visits. *)
Fixpoint execute_loop (max_price : Price) (l : list (key * Offer)) (x : Execution) : result Execution :=
  match l with
  | [] => Ok x
  | (k, offer) :: l =>
      if remaining_sell x =? 0 then Ok x
      else if minPrice offer <=? max_price then
        let* x := execute_against k offer x in execute_loop max_price l x
      else Ok x
  end.

(** The orderbook, the returned pair (sold, bought), the database and the view. *)
Definition try_execute (ob : BT) (max_price sell_amount : Z) (db : DB) (view : View)
    : result (BT * (Z * Z) * DB * View) :=
  let* x := execute_loop max_price (dt_entries ob) (mkExecution sell_amount 0 default_Offer ob db view) in
  let ob := if negb (amount (final_offer x) =? 0)
            then dt_insert (ex_ob x) (Key.offer_key (final_offer x)) (final_offer x) else ex_ob x in
  Ok (dt_perform_marked_deletions ob, (u64 (sell_amount - remaining_sell x), bought_amount x), ex_db x, ex_view x).
End SerialOrderbook.
Arguments mkExecution {T CT L BT}.
Arguments Execution : clear implicits.
Arguments remaining_sell {T CT L BT}.
Arguments bought_amount {T CT L BT}.
Arguments final_offer {T CT L BT}.
Arguments ex_ob {T CT L BT}.
Arguments ex_db {T CT L BT}.
Arguments ex_view {T CT L BT}.

(** ** The reference: which offers an order takes *)

(** One trade: the resting offer, what it gives and what its owner is paid. *)
Record fill := mkFill { f_offer : Offer; f_given : Z; f_paid : Z }.

(** An order selling [r] units with price limit [max] against offers in key
    order: each offer within the limit is taken in full while its price allows,
    the last one in part; owners are paid the price of their offer, rounded up.
    The trades, and the offers that are left. *)
Fixpoint match_book (max r : Z) (l : list (key * Offer)) : list fill * list (key * Offer) :=
  match l with
  | [] => ([], [])
  | (k, o) :: l' =>
      if (r =? 0) || (max <? minPrice o) then ([], l)
      else if minPrice o * amount o <=? r * 2 ^ 24 then
        let paid := ceil_div (minPrice o * amount o) (2 ^ 24) in
        let '(fs, rest) := match_book max (r - paid) l' in (mkFill o (amount o) paid :: fs, rest)
      else
        let given := r * 2 ^ 24 / minPrice o in
        ([mkFill o given r], (k, set_amount o (amount o - given)) :: l')
  end.

Definition sold (fs : list fill) : Z := sum_by f_paid fs.
Definition bought (fs : list fill) : Z := sum_by f_given fs.

(** An offer a serial orderbook may hold. *)
Definition offer_wf (o : Offer) : Prop :=
  Price.valid (minPrice o) /\ 0 < amount o < 2 ^ 63 /\ in_u64 (owner o) /\ in_u64 (offerId o).

(** The owner is paid at least the price of the offer, and less than one unit
    or one price step more. *)
Definition fair (max : Z) (f : fill) : Prop :=
  minPrice (f_offer f) <= max /\ 0 <= f_given f <= amount (f_offer f) /\ 0 < f_paid f /\
  minPrice (f_offer f) * f_given f <= 2 ^ 24 * f_paid f
    < minPrice (f_offer f) * f_given f + Z.max (2 ^ 24) (minPrice (f_offer f)).

(** ** Facts about the reference *)
Section Reference.
Context (max : Z).
Implicit Types (l : list (key * Offer)) (fs : list fill).

(** The two ways an offer is taken. *)
Lemma full_fill_fair o : offer_wf o -> minPrice o <= max ->
  fair max (mkFill o (amount o) (ceil_div (minPrice o * amount o) (2 ^ 24))).
Proof.
  intros (Hp & Ha & _) Hm. unfold Price.valid in Hp.
  pose proof (ceil_div_spec (minPrice o * amount o) (2 ^ 24) ltac:(lia)) as Hc.
  assert (1 <= minPrice o * amount o) by nia.
  split; [done|]. cbn [f_offer f_given f_paid]. split; [lia|].
  pose proof (Z.le_max_l (2 ^ 24) (minPrice o)). split; lia.
Qed.

Lemma part_fill_fair o r : offer_wf o -> minPrice o <= max -> 0 < r -> r * 2 ^ 24 < minPrice o * amount o ->
  fair max (mkFill o (r * 2 ^ 24 / minPrice o) r) /\ 0 <= r * 2 ^ 24 / minPrice o < amount o.
Proof.
  intros (Hp & Ha & _) Hm Hr Hlt. unfold Price.valid in Hp.
  pose proof (Z.div_mod (r * 2 ^ 24) (minPrice o) ltac:(lia)).
  pose proof (Z.mod_pos_bound (r * 2 ^ 24) (minPrice o) ltac:(lia)).
  assert (0 <= r * 2 ^ 24 / minPrice o) by (apply Z.div_pos; lia).
  assert (r * 2 ^ 24 / minPrice o < amount o) by (apply Z.div_lt_upper_bound; lia).
  pose proof (Z.le_max_r (2 ^ 24) (minPrice o)).
  split; [|lia]. split; [done|]. cbn [f_offer f_given f_paid]. split; [lia|]. split; lia.
Qed.

(** What a taken offer costs is within what was left to sell. *)
Lemma full_fill_affordable o r : offer_wf o -> minPrice o * amount o <= r * 2 ^ 24 ->
  0 < ceil_div (minPrice o * amount o) (2 ^ 24) <= r.
Proof.
  intros (Hp & Ha & _) Hle. unfold Price.valid in Hp.
  pose proof (ceil_div_spec (minPrice o * amount o) (2 ^ 24) ltac:(lia)). nia.
Qed.

Lemma match_book_fills l r :
  Forall (fun p => offer_wf p.2) l -> 0 <= r ->
  Forall (fair max) (match_book max r l).1 /\ 0 <= sold (match_book max r l).1 <= r.
Proof.
  unfold sold. revert r. induction l as [|[k o] l IH]; intros r Hl Hr; [cbn [match_book fst]; by rewrite sum_by_nil|].
  apply Forall_cons in Hl as [Ho Hl]. cbn [match_book]. simpl in Ho.
  destruct (Z.eqb_spec r 0); cbn [orb]; [cbn [fst]; rewrite sum_by_nil; split; [constructor|lia]|].
  destruct (Z.ltb_spec max (minPrice o)); [cbn [fst]; rewrite sum_by_nil; split; [constructor|lia]|].
  destruct (Z.leb_spec (minPrice o * amount o) (r * 2 ^ 24)) as [Hle|Hlt]; cbv zeta.
  - pose proof (full_fill_affordable o r Ho Hle). set (paid := ceil_div _ _) in *.
    destruct (IH (r - paid) Hl ltac:(lia)) as [I1 I2].
    destruct (match_book max (r - paid) l) as [fs rest]. cbn [fst] in *.
    rewrite sum_by_cons. cbn [f_paid]. split; [|lia]. constructor; [|done]. by apply full_fill_fair.
  - cbn [fst]. rewrite sum_by_cons, sum_by_nil. cbn [f_paid]. split; [|lia].
    constructor; [|constructor]. apply part_fill_fair; [done..|lia|lia].
Qed.

(** What leaves the book is what the order is given. *)
Lemma match_book_given l r :
  offers_endow (match_book max r l).2 + bought (match_book max r l).1 = offers_endow l.
Proof.
  unfold offers_endow, bought. revert r. induction l as [|[k o] l IH]; intros r; [done|].
  cbn [match_book]. destruct (_ || _); [cbn [fst snd]; rewrite sum_by_nil; lia|].
  destruct (_ <=? _); cbv zeta.
  - specialize (IH (r - ceil_div (minPrice o * amount o) (2 ^ 24))).
    destruct (match_book max _ l) as [fs rest]. cbn [fst snd] in *. rewrite !sum_by_cons. cbn [f_given snd]. lia.
  - cbn [fst snd]. rewrite !sum_by_cons, sum_by_nil. cbn [f_given snd set_amount amount]. lia.
Qed.

(** What is left is made of offers that were there, one perhaps smaller. *)
Definition from_book l (p : key * Offer) : Prop :=
  exists o, (p.1, o) ∈ l /\ 0 < amount p.2 <= amount o /\ p.2 = set_amount o (amount p.2).

Lemma set_amount_id o : set_amount o (amount o) = o.
Proof. by destruct o. Qed.

Lemma from_book_self l p : 0 < amount p.2 -> p ∈ l -> from_book l p.
Proof. intros Ha Hp. exists p.2. destruct p as [k o]. cbn [fst snd] in *. rewrite set_amount_id. split; [done|]. split; [lia|done]. Qed.

Lemma match_book_rest l r :
  Forall (fun p => offer_wf p.2) l -> 0 <= r -> Forall (from_book l) (match_book max r l).2.
Proof.
  assert (Hself : forall l, Forall (fun p => offer_wf p.2) l -> Forall (from_book l) l).
  { intros l' Hl. apply Forall_forall. intros p Hp. apply from_book_self; [|done].
    rewrite Forall_forall in Hl. apply (Hl p Hp). }
  assert (Htail : forall x l l', Forall (from_book l) l' -> Forall (from_book (x :: l)) l').
  { intros x l1 l2 Hl. eapply Forall_impl; [exact Hl|]. intros p (o & Ho & Hr). exists o. split; [by right|done]. }
  revert r. induction l as [|[k o] l IH]; intros r Hl Hr; [constructor|].
  cbn [match_book]. destruct (Z.eqb_spec r 0); cbn [orb]; [by apply Hself|].
  destruct (Z.ltb_spec max (minPrice o)); [by apply Hself|].
  apply Forall_cons in Hl as [Ho Hl]. simpl in Ho.
  destruct (Z.leb_spec (minPrice o * amount o) (r * 2 ^ 24)) as [Hle|Hlt]; cbv zeta.
  - pose proof (full_fill_affordable o r Ho Hle).
    specialize (IH (r - ceil_div (minPrice o * amount o) (2 ^ 24)) Hl ltac:(lia)).
    destruct (match_book max _ l) as [fs rest]. by apply Htail.
  - cbn [snd]. destruct (part_fill_fair o r) as [_ Hg]; [done..|lia|lia|].
    constructor; [|by apply Htail, Hself]. exists o. cbn [fst snd set_amount amount].
    split; [by left|]. split; [lia|done].
Qed.

Lemma match_book_offers l r : Forall (fun f => exists k, (k, f_offer f) ∈ l) (match_book max r l).1.
Proof.
  revert r. induction l as [|[k o] l IH]; intros r; [constructor|]. cbn [match_book].
  destruct (_ || _); [constructor|]. destruct (_ <=? _); cbv zeta.
  - specialize (IH (r - ceil_div (minPrice o * amount o) (2 ^ 24))).
    destruct (match_book max _ l) as [fs rest]. cbn [fst] in *. constructor; [exists k; by left|].
    eapply Forall_impl; [exact IH|]. intros f (k' & Hf). exists k'. by right.
  - constructor; [exists k; by left|constructor].
Qed.

(** An order that is not sold out leaves no offer within its limit. *)
Lemma match_book_exhausts l r :
  Forall (fun p => offer_wf p.2) l -> StronglySorted (fun p q => minPrice p.2 <= minPrice q.2) l ->
  0 <= r -> sold (match_book max r l).1 < r -> Forall (fun p => max < minPrice p.2) (match_book max r l).2.
Proof.
  unfold sold. revert r. induction l as [|[k o] l IH]; intros r Hl Hs Hr; [constructor|].
  apply Forall_cons in Hl as [Ho Hl]. simpl in Ho. apply StronglySorted_inv in Hs as [Hs Hle'].
  cbn [match_book]. destruct (Z.eqb_spec r 0); cbn [orb]; [cbn [fst]; rewrite sum_by_nil; lia|].
  destruct (Z.ltb_spec max (minPrice o)).
  { intros _. cbn [snd]. constructor; [done|]. eapply Forall_impl; [exact Hle'|]. intros p Hp. simpl in *. lia. }
  destruct (Z.leb_spec (minPrice o * amount o) (r * 2 ^ 24)) as [Hle|Hlt]; cbv zeta.
  - pose proof (full_fill_affordable o r Ho Hle).
    specialize (IH (r - ceil_div (minPrice o * amount o) (2 ^ 24)) Hl Hs ltac:(lia)).
    destruct (match_book max _ l) as [fs rest]. cbn [fst snd] in *. rewrite sum_by_cons. cbn [f_paid].
    intros Hsold. apply IH. lia.
  - cbn [fst snd]. rewrite sum_by_cons, sum_by_nil. cbn [f_paid]. lia.
Qed.

(** The keys and their order are kept. *)
Lemma match_book_keys l r : (match_book max r l).2.*1 `suffix_of` l.*1.
Proof.
  revert r. induction l as [|[k o] l IH]; intros r; [done|]. cbn [match_book].
  destruct (_ || _); [done|]. destruct (_ <=? _); cbv zeta.
  - specialize (IH (r - ceil_div (minPrice o * amount o) (2 ^ 24))).
    destruct (match_book max _ l) as [fs rest]. cbn [snd] in *. rewrite fmap_cons. by apply suffix_cons_r.
  - done.
Qed.
End Reference.

(** ** The code does what the reference says *)
Section Refinement.
Context {T : Type} `{SequenceTracker T}.
Context {CT : Type} `{MerkleTrie AccountCommitment CT}.
Context {L : Type} `{LMDBInstance L}.
Context {BT : Type} `{DeletableTrie BT} `{BigEndian}.

Abbreviation DB := (MemoryDatabase.t T CT L).
Abbreviation View := (BufferedMemoryDatabaseView (T := T)).
Implicit Types (db : DB) (v : View) (ob : BT) (fs : list fill).

(** What a payment does to a view: it adds to the buffer of the account. *)
Definition buffer_at v (i : nat) (k : Z) : Z := at_asset (available_buffer (get_existing_account v i)) k.
Definition credit_to v (i : nat) (k x : Z) : View :=
  mkBuffered (creation v) (<[i := buffered (get_existing_account v i) k (buffer_at v i k + x)]> (accounts v)).

Lemma transfer_is_credit db v i k x :
  0 <= buffer_at v i k + x < 2 ^ 63 ->
  dv_transfer_available db v (DbPtr i) k x = Ok (db, credit_to v i k x, SUCCESS).
Proof.
  intros Hx. cbn [dv_transfer_available buffered_view]. unfold buffered_transfer_available, buffered_op.
  unfold account_transfer_available. fold (buffer_at v i k). rewrite i64_id by (unfold in_i64; lia).
  destruct (Z.ltb_spec (buffer_at v i k + x) 0); [lia|]. done.
Qed.

Lemma buffer_credit v i k x j k' :
  buffer_at (credit_to v i k x) j k' = buffer_at v j k' + (if decide (i = j /\ k = k') then x else 0).
Proof.
  unfold buffer_at at 1, credit_to. rewrite get_existing_insert. destruct (decide (i = j)) as [->|].
  - unfold buffered. cbn [available_buffer]. unfold at_asset at 1. destruct (decide (k = k')) as [->|].
    + rewrite lookup_insert_eq, decide_True by done. done.
    + rewrite lookup_insert_ne by done. rewrite decide_False by tauto. fold (at_asset (available_buffer (get_existing_account v j)) k').
      unfold buffer_at. lia.
  - rewrite decide_False by tauto. unfold buffer_at. lia.
Qed.

Definition owner_slot db (o : Offer) : nat := default 0%nat (MemoryDatabase.lookup_user db (owner o)).
Definition pay_owner db v (f : fill) : View :=
  credit_to v (owner_slot db (f_offer f)) (buyAsset (category (f_offer f))) (f_paid f).
Definition pay_owners db v fs : View := foldl (pay_owner db) v fs.

(** The payments fit: what is in the buffers and what is left to sell. *)
Definition room v (k r : Z) : Prop :=
  exists B, B + r < 2 ^ 63 /\ forall i, 0 <= buffer_at v i k <= B.

Lemma room_pay db v k r f :
  room v k r -> buyAsset (category (f_offer f)) = k -> 0 <= f_paid f -> room (pay_owner db v f) k (r - f_paid f).
Proof.
  intros (B & HB & Hv) Hk Hf. exists (B + f_paid f). split; [lia|]. intros i.
  unfold pay_owner. rewrite buffer_credit. specialize (Hv i). destruct (decide _); lia.
Qed.

(** One iteration is one step of the reference. *)
Lemma execute_against_spec k o (x : Execution T CT L BT) (i : nat) (max r : Z) v (s : Z) :
  offer_wf o -> minPrice o <= max -> 0 < r < 2 ^ 63 -> remaining_sell x = r -> ex_view x = v ->
  buyAsset (category o) = s -> MemoryDatabase.lookup_user (ex_db x) (owner o) = Some i ->
  room v s r -> 0 <= bought_amount x -> bought_amount x + amount o < 2 ^ 64 ->
  execute_against k o x = Ok
    (if minPrice o * amount o <=? r * 2 ^ 24 then
       let paid := ceil_div (minPrice o * amount o) (2 ^ 24) in
       mkExecution (r - paid) (bought_amount x + amount o) (final_offer x) (dt_mark_for_deletion (ex_ob x) k) (ex_db x)
         (pay_owner (ex_db x) v (mkFill o (amount o) paid))
     else
       let given := r * 2 ^ 24 / minPrice o in
       mkExecution 0 (bought_amount x + given) (set_amount o (amount o - given)) (ex_ob x) (ex_db x)
         (pay_owner (ex_db x) v (mkFill o given r))).
Proof.
  intros Ho Hm Hr Er Ev Es El (B & HB & Hv) Hb0 Hb. pose proof Ho as (Hp & Ha & _ & _).
  unfold Price.valid in Hp. rewrite Price.MAX_PRICE_val in Hp.
  assert (Hpa : 0 < minPrice o * amount o < 2 ^ 111) by nia.
  unfold execute_against. rewrite Er, Ev. rewrite shiftl_mul by (unfold Price.PRICE_RADIX; lia).
  change (2 ^ Price.PRICE_RADIX) with (2 ^ 24).
  rewrite (u128_id (minPrice o * amount o)), (u128_id (r * 2 ^ 24)) by (unfold in_u128; lia).
  cbv zeta. rewrite (proj2 (Z.eqb_neq (minPrice o) 0)) by lia.
  assert (Hlk : dv_lookup_user (ex_db x) v (owner o) = Some (DbPtr i)).
  { cbn [dv_lookup_user buffered_view]. unfold creation_lookup_user. by rewrite El. }
  specialize (Hv i).
  assert (Hslot : owner_slot (ex_db x) o = i) by (unfold owner_slot; by rewrite El).
  destruct (Z.leb_spec (minPrice o * amount o) (r * 2 ^ 24)) as [Hle|Hlt].
  - rewrite Z.min_l by lia. pose proof (full_fill_affordable o r Ho Hle) as Hpaid.
    rewrite Z.mul_comm, Z.div_mul, Z.mul_comm by lia.
    rewrite Price.round_up_price_times_amount_spec by lia. set (paid := ceil_div _ _) in *.
    rewrite (u64_id (amount o)) by (unfold in_u64; lia).
    destruct (Z.ltb_spec r paid); [lia|]. rewrite Hlk, Es, (i64_id paid) by (unfold in_i64; lia).
    rewrite transfer_is_credit by lia. cbn [result_bind]. rewrite Z.eqb_refl.
    rewrite (u64_id (r - paid)), (u64_id (bought_amount x + amount o)) by (unfold in_u64; lia).
    unfold pay_owner. cbn [f_offer f_paid]. by rewrite Hslot, Es.
  - rewrite Z.min_r by lia. destruct (part_fill_fair max o r) as [_ Hg]; [done..|lia|lia|].
    set (given := r * 2 ^ 24 / minPrice o) in *.
    rewrite Price.round_up_price_times_amount_spec by lia.
    replace (ceil_div (r * 2 ^ 24) (2 ^ 24)) with r.
    2: { unfold ceil_div. rewrite Z.div_mul, Z.mod_mul by lia. simpl. lia. }
    rewrite (u64_id given) by (unfold in_u64; lia).
    rewrite Z.ltb_irrefl, Hlk, Es, (i64_id r) by (unfold in_i64; lia).
    rewrite transfer_is_credit by lia. cbn [result_bind].
    rewrite (proj2 (Z.eqb_neq given (amount o))) by lia.
    destruct (Z.ltb_spec (amount o) given); [lia|].
    rewrite Z.sub_diag. change (u64 0) with 0. cbn [Z.eqb negb].
    rewrite (u64_id (bought_amount x + given)), (u64_id (amount o - given)) by (unfold in_u64; lia).
    unfold pay_owner. cbn [f_offer f_paid]. by rewrite Hslot, Es.
Qed.

(** What the loop leaves behind: the offers before [rest] are marked, and the
    offer taken in part, if any, is remembered. *)
Definition loop_left (l rest : list (key * Offer)) (x x' : Execution T CT L BT) : Prop :=
  dt_map (ex_ob x') = dt_map (ex_ob x) /\
  exists pre, dt_marked (ex_ob x') = list_to_set pre.*1 ∪ dt_marked (ex_ob x) /\
    ((l = pre ++ rest /\ final_offer x' = final_offer x) \/
     exists k o a post, l = pre ++ (k, o) :: post /\ rest = (k, set_amount o a) :: post /\
       final_offer x' = set_amount o a /\ 0 < a).

(** The owners of the offers of a book have accounts. *)
Definition book_of db (s : Z) (l : list (key * Offer)) : Prop :=
  Forall (fun p => offer_wf p.2 /\ buyAsset (category p.2) = s /\
    is_Some (MemoryDatabase.lookup_user db (owner p.2))) l.

Lemma loop_left_stop l x : loop_left l l x x.
Proof.
  split; [done|]. exists []. split; [by rewrite fmap_nil, list_to_set_nil, union_empty_l_L|]. by left.
Qed.

Lemma execute_loop_sold max l (x : Execution T CT L BT) : remaining_sell x = 0 -> execute_loop max l x = Ok x.
Proof. intros Hr. destruct l as [|[k o] l]; [done|]. cbn [execute_loop]. by rewrite Hr. Qed.

Lemma book_endow_nonneg db s l : book_of db s l -> 0 <= offers_endow l.
Proof.
  intros Hl. apply sum_by_nonneg. eapply Forall_impl; [exact Hl|]. intros p ((_ & Ha & _) & _). simpl. lia.
Qed.

Lemma execute_loop_spec max s l (x : Execution T CT L BT) :
  book_of (ex_db x) s l -> 0 <= remaining_sell x < 2 ^ 63 -> room (ex_view x) s (remaining_sell x) ->
  0 <= bought_amount x -> bought_amount x + offers_endow l < 2 ^ 64 ->
  Forall (fun k => k ∈ dom (dt_map (ex_ob x))) l.*1 ->
  let fs := (match_book max (remaining_sell x) l).1 in
  exists x', execute_loop max l x = Ok x' /\
    remaining_sell x' = remaining_sell x - sold fs /\ bought_amount x' = bought_amount x + bought fs /\
    ex_db x' = ex_db x /\ ex_view x' = pay_owners (ex_db x) (ex_view x) fs /\
    loop_left l (match_book max (remaining_sell x) l).2 x x'.
Proof.
  unfold sold, bought.
  assert (Hstop : forall l x, exists x', Ok x = Ok x' /\
    remaining_sell x' = remaining_sell x - sum_by f_paid [] /\ bought_amount x' = bought_amount x + sum_by f_given [] /\
    ex_db x' = ex_db x /\ ex_view x' = pay_owners (ex_db x) (ex_view x) [] /\ loop_left l l x x').
  { intros l1 x1. exists x1. rewrite !sum_by_nil, Z.sub_0_r, Z.add_0_r. do 5 (split; [done|]). apply loop_left_stop. }
  revert x. induction l as [|[k o] l IH]; intros x Hl Hr Hroom Hb0 Hb Hdom; [apply Hstop|].
  cbn [match_book execute_loop]. destruct (Z.eqb_spec (remaining_sell x) 0) as [E0|Hr0]; cbn [orb]; [apply Hstop|].
  rewrite (Z.leb_antisym max). destruct (Z.ltb_spec max (minPrice o)); cbn [negb]; [apply Hstop|].
  pose proof (book_endow_nonneg _ _ _ Hl) as _. apply Forall_cons in Hl as [(Ho & Es & i & El) Hl]. cbn [snd] in Ho, Es, El.
  rewrite fmap_cons in Hdom. apply Forall_cons in Hdom as [Hk Hdom]. simpl in Hk.
  pose proof (book_endow_nonneg _ _ _ Hl) as Hend. unfold offers_endow in Hb. rewrite sum_by_cons in Hb.
  fold (offers_endow l) in Hb. cbn [snd] in Hb. pose proof Ho as (_ & Ha & _).
  rewrite (execute_against_spec k o x i max (remaining_sell x) (ex_view x) s) by (done || lia). cbn [result_bind].
  destruct (Z.leb_spec (minPrice o * amount o) (remaining_sell x * 2 ^ 24)) as [Hle|Hlt]; cbv zeta.
  - pose proof (full_fill_affordable o _ Ho Hle) as Hpaid. set (paid := ceil_div _ _) in *.
    match goal with |- context [execute_loop max l ?y] => set (x1 := y) end.
    destruct (IH x1) as (x' & E & I1 & I2 & I3 & I4 & I5 & pre & I6 & I7); clear IH;
      unfold x1; cbn [ex_db ex_view remaining_sell bought_amount ex_ob final_offer]; try done; try lia.
    { apply (room_pay (ex_db x) (ex_view x) s (remaining_sell x)); cbn [f_offer f_paid]; done || lia. }
    { eapply Forall_impl; [exact Hdom|]. intros k' Hk'. simpl. by rewrite dt_mark_map. }
    unfold x1 in *. cbn [ex_db ex_view remaining_sell bought_amount ex_ob final_offer] in *.
    destruct (match_book max (remaining_sell x - paid) l) as [fs rest]. cbn [fst snd] in *.
    exists x'. rewrite !sum_by_cons. cbn [f_paid f_given].
    split; [done|]. split; [lia|]. split; [lia|]. split; [done|]. split; [done|].
    split; [by rewrite I5, dt_mark_map|]. exists ((k, o) :: pre). split.
    { rewrite I6, dt_mark_marked, fmap_cons, list_to_set_cons by done. set_solver. }
    destruct I7 as [[-> ->]|(k' & o' & a & post & -> & -> & -> & Hpos)]; [by left|right].
    by exists k', o', a, post.
  - destruct (part_fill_fair max o (remaining_sell x)) as [_ Hg]; [done..|lia|lia|].
    set (given := remaining_sell x * 2 ^ 24 / minPrice o) in *.
    rewrite execute_loop_sold by done. eexists. split; [reflexivity|].
    cbn [ex_db ex_view remaining_sell bought_amount ex_ob final_offer fst snd].
    rewrite !sum_by_cons, !sum_by_nil. cbn [f_paid f_given].
    split; [lia|]. split; [lia|]. split; [done|]. split; [done|]. split; [done|].
    exists []. cbn [ex_ob]. split; [by rewrite fmap_nil, list_to_set_nil, union_empty_l_L|]. right.
    exists k, o, (amount o - given), l. split_and!; [done..|lia].
Qed.

(** Marked offers go, the offer taken in part is written back: what remains
    is the rest of the reference. *)
Lemma serial_entries_eq ob l :
  StronglySorted key_le l -> NoDup l.*1 -> dt_map ob = list_to_map l -> dt_entries ob = l.
Proof.
  intros Hs Hn Hm. apply (StronglySorted_unique_strong key_le).
  - intros [k1 o1] [k2 o2] H1' H2' L1 L2. pose proof (key_le_antisym _ _ L1 L2) as E. simpl in E. subst k2.
    rewrite dt_entries_map in H1'. apply elem_of_map_to_list in H1'. rewrite Hm in H1'.
    apply elem_of_list_to_map in H2'; [|done]. by assert (o1 = o2) as -> by congruence.
  - apply dt_entries_sorted.
  - done.
  - rewrite dt_entries_map, Hm. by apply map_to_list_to_map.
Qed.

Lemma serial_entries_nodup ob : NoDup (dt_entries ob).*1.
Proof. rewrite dt_entries_map. apply NoDup_fst_map_to_list. Qed.
Lemma entries_to_map ob : dt_map ob = list_to_map (dt_entries ob).
Proof.
  rewrite <- (list_to_map_to_list (dt_map ob)). apply list_to_map_proper; [apply NoDup_fst_map_to_list|].
  symmetry. apply dt_entries_map.
Qed.

Lemma filter_pre (pre post : list (key * Offer)) :
  NoDup (pre ++ post).*1 ->
  filter (fun p => p.1 ∉ (list_to_set pre.*1 : gset key)) (list_to_map (pre ++ post) : gmap key Offer) = list_to_map post.
Proof.
  rewrite fmap_app. intros Hn. apply NoDup_app in Hn as (Hn1 & Hd & Hn2). apply map_eq. intros k. apply option_eq. intros o.
  rewrite map_lookup_filter_Some. cbn [fst]. rewrite not_elem_of_list_to_set, list_to_map_app, lookup_union_Some_raw. split.
  - intros [[E|[_ E]] Hk]; [|done]. apply elem_of_list_to_map_2 in E. destruct Hk. apply (list_elem_of_fmap_2' _ _ (k, o)); done.
  - intros E. assert (Hk : k ∉ pre.*1).
    { intros Hk. apply (Hd k Hk). apply elem_of_list_to_map_2 in E. apply (list_elem_of_fmap_2' _ _ (k, o)); done. }
    split; [right|done]. split; [by apply not_elem_of_list_to_map_1|done].
Qed.

(** A book between two orders: no marks, every offer under its key. *)
Record serial_book db (s : Z) ob : Prop := {
  sb_marked : dt_marked ob = ∅;
  sb_book : book_of db s (dt_entries ob);
  sb_keys : Forall (fun p => p.1 = Key.offer_key p.2) (dt_entries ob)
}.

Lemma final_map ob l rest (x : Execution T CT L BT) :
  dt_entries ob = l -> dt_marked ob = ∅ -> Forall (fun p => p.1 = Key.offer_key p.2) l ->
  loop_left l rest (mkExecution (remaining_sell x) 0 default_Offer ob (ex_db x) (ex_view x)) x ->
  let ob' := dt_perform_marked_deletions (if negb (amount (final_offer x) =? 0)
               then dt_insert (ex_ob x) (Key.offer_key (final_offer x)) (final_offer x) else ex_ob x) in
  dt_map ob' = list_to_map rest /\ dt_marked ob' = ∅.
Proof.
  intros El Hm Hk (Em & pre & Ep & Hcase). cbn [ex_ob final_offer] in *.
  pose proof (serial_entries_nodup ob) as Hn. pose proof (entries_to_map ob) as Hl. rewrite El in *.
  rewrite Hm, union_empty_r_L in Ep.
  destruct Hcase as [[-> E]|(k & o & a & post & -> & -> & E & Ha)]; rewrite E; cbn zeta;
    (split; [|apply dt_deletions_marked]); rewrite dt_deletions_map.
  - cbn [default_Offer amount Z.eqb negb]. rewrite Ep, Em, Hl. by apply filter_pre.
  - cbn [set_amount amount]. rewrite (proj2 (Z.eqb_neq a 0)) by lia. cbn [negb].
    assert (Eo : Key.offer_key (set_amount o a) = k).
    { rewrite Forall_forall in Hk. symmetry. apply (Hk (k, o)). apply elem_of_app. right. by left. }
    fold (set_amount o a). rewrite Eo, dt_insert_map.
    rewrite fmap_app, fmap_cons in Hn. cbn [fst] in Hn.
    assert (Hkp : k ∉ pre.*1).
    { intros Hin. apply NoDup_app in Hn as (_ & Hd & _). apply (Hd k Hin). by left. }
    rewrite dt_insert_marked by (rewrite Ep; by rewrite not_elem_of_list_to_set). rewrite Ep, Em, Hl.
    rewrite <- (filter_pre pre ((k, set_amount o a) :: post)) by (rewrite fmap_app, fmap_cons; exact Hn). f_equal.
    rewrite !list_to_map_app, !list_to_map_cons. rewrite <- insert_union_r by (by apply not_elem_of_list_to_map_1).
    rewrite <- insert_union_r by (by apply not_elem_of_list_to_map_1). by rewrite insert_insert_eq.
Qed.

Lemma suffix_sorted (l l' : list (key * Offer)) :
  l'.*1 `suffix_of` l.*1 -> StronglySorted key_le l -> NoDup l.*1 -> StronglySorted key_le l' /\ NoDup l'.*1.
Proof.
  intros [ks E] Hs Hn. split.
  - assert (Hs' : StronglySorted (fun a b => memcmp a b <> Gt) l.*1).
    { clear -Hs. induction Hs as [|p l Hs IH Hp]; [constructor|]. rewrite fmap_cons. constructor; [done|].
      rewrite Forall_fmap. exact Hp. }
    rewrite E in Hs'. apply StronglySorted_app_1_r in Hs'. clear -Hs'.
    remember l'.*1 as ks eqn:Ek. revert l' Ek. induction Hs' as [|k ks Hs IH Hk]; intros [|p l'] Ek; try done; [constructor|].
    rewrite fmap_cons in Ek. injection Ek as -> ->. constructor; [by apply IH|]. by rewrite Forall_fmap in Hk.
  - rewrite E in Hn. by apply NoDup_app in Hn as (_ & _ & ?).
Qed.

Lemma try_execute_spec ob max r db v s :
  serial_book db s ob -> 0 <= r < 2 ^ 63 -> room v s r -> offers_endow (dt_entries ob) < 2 ^ 64 ->
  let fs := (match_book max r (dt_entries ob)).1 in
  exists ob', try_execute ob max r db v = Ok (ob', (sold fs, bought fs), db, pay_owners db v fs) /\
    dt_entries ob' = (match_book max r (dt_entries ob)).2 /\ dt_marked ob' = ∅.
Proof.
  intros [Hm Hb Hk] Hr Hroom Hend fs. unfold try_execute.
  assert (Hwf : Forall (fun p => offer_wf p.2) (dt_entries ob)) by (eapply Forall_impl; [exact Hb|]; by intros p []).
  destruct (match_book_fills max (dt_entries ob) r Hwf ltac:(lia)) as [_ Hsold]. fold fs in Hsold.
  destruct (execute_loop_spec max s (dt_entries ob) (mkExecution r 0 default_Offer ob db v))
    as (x & E & I1 & I2 & I3 & I4 & I5); cbn [ex_db ex_view remaining_sell bought_amount ex_ob final_offer] in *;
    try done; try lia.
  { rewrite Forall_fmap. apply Forall_forall. intros [k o] Hin. rewrite dt_entries_map in Hin.
    apply elem_of_map_to_list in Hin. by eapply elem_of_dom_2. }
  rewrite E. cbn [result_bind].
  destruct (final_map ob (dt_entries ob) (match_book max r (dt_entries ob)).2 x) as [Hmap Hmk]; try done.
  eexists. split; [|split; [|exact Hmk]].
  - rewrite I1, I2, I3, I4. fold fs. rewrite (u64_id (r - _)) by (unfold in_u64; lia). do 5 f_equal; lia.
  - destruct (suffix_sorted (dt_entries ob) (match_book max r (dt_entries ob)).2) as [S1 S2].
    + apply match_book_keys.
    + apply dt_entries_sorted.
    + apply serial_entries_nodup.
    + by apply serial_entries_eq.
Qed.

(** The key order is an order of prices. *)
Lemma keyed_price_sorted (l : list (key * Offer)) :
  Forall (fun p => offer_wf p.2) l -> Forall (fun p => p.1 = Key.offer_key p.2) l ->
  StronglySorted key_le l -> StronglySorted (fun p q => minPrice p.2 <= minPrice q.2) l.
Proof.
  intros Hw Hk Hs. induction Hs as [|p l Hs IH Hp]; [constructor|].
  apply Forall_cons in Hw as [Hwp Hw], Hk as [Hkp Hk]. constructor; [by apply IH|].
  apply Forall_forall. intros q Hq. rewrite Forall_forall in Hp, Hw, Hk.
  specialize (Hp q Hq). specialize (Hw q Hq). specialize (Hk q Hq).
  unfold key_le in Hp. rewrite Hkp, Hk in Hp.
  destruct Hwp as (P1 & _ & P2 & P3), Hw as (Q1 & _ & Q2 & Q3). unfold Price.valid in *. unfold Key.offer_key in Hp.
  rewrite (proj1 (OfferProps.orderbook_key_order (minPrice p.2) (owner p.2) (offerId p.2)
    (minPrice q.2) (owner q.2) (offerId q.2) ltac:(lia) P2 P3 ltac:(lia) Q2 Q3)) in Hp.
  destruct (Z.compare_spec (minPrice p.2) (minPrice q.2)); [lia|lia|done].
Qed.
End Refinement.

(** ** Properties *)
Module AuctionProps.
Section Props.
Context {T : Type} `{SequenceTracker T}.
Context {CT : Type} `{MerkleTrie AccountCommitment CT}.
Context {L : Type} `{LMDBInstance L}.
Context {BT : Type} `{DeletableTrie BT} `{BigEndian}.

(** C29: [try_execute] throws nothing and does what the reference says: the
    offers are taken in the order of their keys, in full while the order can
    pay for them and the last one in part; the offers that remain are exactly
    the rest; each owner is paid at least its price, by less than one unit or
    price step too much, in the buffer of the view; the order never sells more
    than it has, gets exactly what left the book, and when it is not sold out
    no offer within its limit remains. *)
Theorem try_execute_matches (ob : BT) (max r : Z) (db : MemoryDatabase.t T CT L)
    (v : BufferedMemoryDatabaseView (T := T)) (s : Z)
    (Hob : serial_book db s ob) (Hr : 0 <= r < 2 ^ 63) (Hroom : room v s r)
    (Hsupply : offers_endow (dt_entries ob) < 2 ^ 64) :
  let fs := (match_book max r (dt_entries ob)).1 in
  exists ob', try_execute ob max r db v = Ok (ob', (sold fs, bought fs), db, pay_owners db v fs) /\
    dt_entries ob' = (match_book max r (dt_entries ob)).2 /\ dt_marked ob' = ∅ /\
    Forall (fair max) fs /\ sold fs <= r /\
    offers_endow (dt_entries ob') + bought fs = offers_endow (dt_entries ob) /\
    (sold fs < r -> Forall (fun p => max < minPrice p.2) (dt_entries ob')).
Proof.
  intros fs. destruct (try_execute_spec ob max r db v s Hob Hr Hroom Hsupply) as (ob' & E & Ee & Em).
  destruct Hob as [_ Hb Hk].
  assert (Hwf : Forall (fun p => offer_wf p.2) (dt_entries ob)) by (eapply Forall_impl; [exact Hb|]; by intros p []).
  destruct (match_book_fills max (dt_entries ob) r Hwf ltac:(lia)) as [Hf Hs].
  fold fs in Hf, Hs. exists ob'. rewrite Ee. do 4 (split; [done|]). split; [lia|]. split; [apply match_book_given|].
  apply match_book_exhausts; [done| |lia]. by apply keyed_price_sorted; [| |apply dt_entries_sorted].
Qed.
End Props.
End AuctionProps.
