(* ===== verification/SerialExperiment.v ===== *)
(** * The two-sided serial market (src/cda/serial_ob_experiment.h, .cc)

    [exec_one_offer] takes an offer: it reserves the sequence number, moves the
    amount from the account, trades against the offers of the other side
    (SerialAuction.v), pays the taker, rests what is left and commits the view.
    The invariant [market_ok] and the theorem that every run keeps it. *)
From stdpp Require Import base gmap list strings.
From S2P Require Import Prelude Types PriceArith Offers Asset SeqTracker Accounts AccountLmdb Database DbView TxAtomicity SerialAuction.

Definition a_to_b_cat : OfferCategory := mkOfferCategory 0 1 SELL.
Definition b_to_a_cat : OfferCategory := mkOfferCategory 1 0 SELL.

(** [offer.offerId & 0xFFFF'FFFF'FFFF'FF00] *)
Definition sequence_of (offer : Offer) : Z := Z.land (offerId offer) 0xFFFFFFFFFFFFFF00.

Section SerialOrderbookExperiment.
Context {T : Type} `{SequenceTracker T}.
Context {CT : Type} `{MerkleTrie AccountCommitment CT}.
Context {L : Type} `{LMDBInstance L}.
Context {BT : Type} `{DeletableTrie BT} `{BigEndian}.

Abbreviation DB := (MemoryDatabase.t T CT L).
Abbreviation View := (BufferedMemoryDatabaseView (T := T)).

(** [a_to_b] is what an offer selling the first asset trades against, so it
    holds offers of the category [b_to_a_cat]. *)
Record SerialOrderbookExperiment := mkExperiment {
  a_to_b : BT;
  b_to_a : BT;
  exp_db : DB
}.

(** The two branches of [exec_one_offer] are this with the books and the
    category exchanged: the book traded against, the book of the remainder. *)
Definition trade (ob other : BT) (cat : OfferCategory) (offer : Offer) (max_price : Price) (user : ptr)
    (db : DB) (view : View) : result (BT * BT * DB * View) :=
  let* r := try_execute ob max_price (amount offer) db view in
  let '(ob, (a_sold, b_recv), db, view) := r in
  if amount offer <? a_sold then Throw "invalid" else
  let* q := dv_transfer_available db view user (buyAsset cat) (i64 b_recv) in
  let '(db, view, _) := q in
  let to_add := set_amount offer (u64 (amount offer - a_sold)) in
  Ok (ob, if 0 <? amount to_add then add_offer other to_add else other, db, view).

Definition exec_one_offer (st : SerialOrderbookExperiment) (offer : Offer) : result SerialOrderbookExperiment :=
  if minPrice offer =? 0 then Throw "division by zero" else
  let max_price := u64 (u128 (Z.shiftl 1 (2 * Price.PRICE_RADIX)) / minPrice offer) in
  let view := empty_buffered in
  match dv_lookup_user (exp_db st) view (owner offer) with
  | None => Throw "wtf"
  | Some user =>
      let* q := dv_reserve_sequence_number (exp_db st) view user (sequence_of offer) in
      let '(db, view, res) := q in
      if decide (res <> SUCCESS) then Throw "should not happen in experiments" else
      let* q := dv_escrow db view user (sellAsset (category offer)) (i64 (amount offer)) in
      let '(db, view, res) := q in
      if decide (res <> SUCCESS) then
        let* db := buffered_unwind db view in Ok (mkExperiment (a_to_b st) (b_to_a st) db)
      else if decide (category offer = a_to_b_cat) then
        let* r := trade (a_to_b st) (b_to_a st) a_to_b_cat offer max_price user db view in
        let '(ob, other, db, view) := r in Ok (mkExperiment ob other (dv_commit db view))
      else
        let* r := trade (b_to_a st) (a_to_b st) b_to_a_cat offer max_price user db view in
        let '(ob, other, db, view) := r in Ok (mkExperiment other ob (dv_commit db view))
  end.

Fixpoint exec_offers (st : SerialOrderbookExperiment) (offers : list Offer) : result SerialOrderbookExperiment :=
  match offers with
  | [] => Ok st
  | offer :: offers => let* st := exec_one_offer st offer in exec_offers st offers
  end.
End SerialOrderbookExperiment.
Arguments mkExperiment {T CT L BT}.
Arguments SerialOrderbookExperiment : clear implicits.
Arguments a_to_b {T CT L BT}.
Arguments b_to_a {T CT L BT}.
Arguments exp_db {T CT L BT}.

(** ** Views *)
Section Market.
Context {T : Type} `{SequenceTrackerRefines T}.
Context {CT : Type} `{MerkleTrie AccountCommitment CT}.
Context {L : Type} `{LMDBInstance L}.
Context {BT : Type} `{DeletableTrie BT} `{BigEndian}.

Abbreviation DB := (MemoryDatabase.t T CT L).
Abbreviation View := (BufferedMemoryDatabaseView (T := T)).
Abbreviation State := (SerialOrderbookExperiment T CT L BT).
Implicit Types (db : DB) (v : View) (ob : BT) (st : State).

(** What a view adds to all the accounts of a database. *)
Definition net_total db v (n : nat) : Z :=
  sum_by (fun i => net_at v i n) (seq 0 (length (MemoryDatabase.database db))).

Lemma net_credit v i k x j n :
  net_at (credit_to v i k x) j n = net_at v j n + (if decide (i = j /\ Z.to_nat k = n) then x else 0).
Proof.
  unfold net_at, side_at, credit_to. rewrite get_existing_insert. destruct (decide (i = j)) as [->|].
  - unfold side, buf, buffered. cbn [available_buffer available_side_effects]. rewrite asset_sum_insert.
    unfold buffer_at. destruct (decide (Z.to_nat k = n)).
    + rewrite decide_True by done. lia.
    + rewrite decide_False by tauto. lia.
  - rewrite decide_False by tauto. lia.
Qed.

Lemma net_total_credit db v i k x n :
  (i < length (MemoryDatabase.database db))%nat ->
  net_total db (credit_to v i k x) n = net_total db v n + (if decide (Z.to_nat k = n) then x else 0).
Proof.
  intros Hi. unfold net_total.
  rewrite (sum_by_point (fun j => net_at v j n) (fun j => net_at (credit_to v i k x) j n) _ i).
  - rewrite net_credit. destruct (decide (Z.to_nat k = n)).
    + rewrite decide_True by done. lia.
    + rewrite decide_False by tauto. lia.
  - apply NoDup_seq.
  - apply elem_of_seq. lia.
  - intros j _ Hne. rewrite net_credit, decide_False by naive_solver. lia.
Qed.

Lemma credit_inv db0 db v i k x :
  db_ok db0 -> view_inv db0 db v -> (i < length (MemoryDatabase.database db0))%nat ->
  0 <= buffer_at v i k + x < 2 ^ 63 -> view_inv db0 db (credit_to v i k x).
Proof.
  intros Hok Hv Hi Hx. destruct (buffered_transfer_spec db0 db v (DbPtr i) k x Hok Hv Hi) as (db' & v' & s & E & Hv' & _).
  pose proof (transfer_is_credit db v i k x Hx) as E'. cbn [dv_transfer_available buffered_view] in E'.
  rewrite E' in E. by injection E as <- <- <-.
Qed.

(** Committing a view whose balances stay in range is exact. *)
Lemma commit_exact db0 db v n :
  db_ok db0 -> view_inv db0 db v ->
  (forall i a, MemoryDatabase.database db0 !! i = Some a -> 0 <= asset_units n a + net_at v i n) ->
  sum_by (asset_units n) (MemoryDatabase.database db0) + net_total db0 v n < 2 ^ 63 ->
  sum_by (asset_units n) (MemoryDatabase.database (buffered_commit db v)) =
    sum_by (asset_units n) (MemoryDatabase.database db0) + net_total db0 v n /\
  Forall (fun a => 0 <= asset_units n a) (MemoryDatabase.database (buffered_commit db v)).
Proof.
  intros Hok Hv Hpos Hsum. destruct (buffered_commit_spec db0 db v Hok Hv) as [_ Cl Ca _].
  set (db' := buffered_commit db v) in *. set (xs := MemoryDatabase.database db0) in *.
  set (g i := match xs !! i with Some a => asset_units n a + net_at v i n | None => 0 end).
  assert (Hg : sum_by g (seq 0 (length xs)) = sum_by (asset_units n) xs + net_total db0 v n).
  { unfold net_total. fold xs. rewrite (sum_by_lookup (asset_units n) xs).
    rewrite <- (sum_by_sub g (fun i => match xs !! i with Some a => asset_units n a | None => 0 end) (fun i => net_at v i n)); [lia|].
    intros i Hi%elem_of_seq. unfold g. destruct (lookup_lt_is_Some_2 xs i) as [a ->]; [lia|]. lia. }
  assert (Hgpos : Forall (fun i => 0 <= g i) (seq 0 (length xs))).
  { apply Forall_forall. intros i _. unfold g. destruct (xs !! i) eqn:E; [by apply Hpos|lia]. }
  assert (Hunits : forall i a', MemoryDatabase.database db' !! i = Some a' -> asset_units n a' = g i /\ 0 <= g i).
  { intros i a' Ha'. assert (Hi : (i < length xs)%nat) by (rewrite <- Cl; by eapply lookup_lt_Some).
    destruct (lookup_lt_is_Some_2 xs i Hi) as [a0 E0]. destruct (Ca i a0 E0) as (a & Ea & Hs & _).
    assert (a = a') as -> by congruence. unfold asset_units at 1. rewrite (shift_asset _ _ _ Hs).
    assert (Hin : i ∈ seq 0 (length xs)) by (apply elem_of_seq; lia).
    pose proof (sum_by_elem_le g _ i Hgpos Hin) as Hle. rewrite Hg in Hle.
    assert (0 <= g i) by (rewrite Forall_forall in Hgpos; by apply Hgpos).
    assert (Egi : g i = asset_units n a0 + net_at v i n) by (unfold g; by rewrite E0).
    split; [|done]. rewrite Egi in *. cbn [RevertableAsset.transfer_available RevertableAsset.available].
    apply i64_id. unfold in_i64, asset_units in *. lia. }
  split.
  - rewrite <- Hg, (sum_by_lookup (asset_units n) (MemoryDatabase.database db')), Cl.
    apply sum_by_ext, Forall_forall. intros i Hi%elem_of_seq.
    destruct (lookup_lt_is_Some_2 (MemoryDatabase.database db') i) as [a' E']; [rewrite Cl; lia|].
    rewrite E'. by apply Hunits.
  - apply Forall_lookup. intros i a' Ha'. destruct (Hunits i a' Ha') as [-> ?]. done.
Qed.

(** ** The escrow of the taker *)
Lemma escrow_exact db0 db v i k x a0 :
  db_ok db0 -> view_inv db0 db v -> accounts v = ∅ -> MemoryDatabase.database db0 !! i = Some a0 -> 0 < x < 2 ^ 63 ->
  exists db' v' s, dv_escrow db v (DbPtr i) k x = Ok (db', v', s) /\ view_inv db0 db' v' /\
    creation v' = creation v /\
    (s = SUCCESS -> accounts v' = {[ i := withdrawn empty_account_view k (- x) ]} /\ x <= UserAccount.balance a0 k).
Proof.
  intros Hok Hv Hacc Ha0 Hx. assert (Hi : (i < length (MemoryDatabase.database db0))%nat) by (by eapply lookup_lt_Some).
  destruct (buffered_escrow_spec db0 db v (DbPtr i) k x Hok Hv Hi ltac:(unfold in_i64; lia)) as (db' & v' & s & E & Hv' & _).
  exists db', v', s. cbn [dv_escrow buffered_view]. split; [done|]. split; [done|]. clear Hv'.
  destruct (vi_account _ _ _ Hv i a0 Ha0) as (a & Ha & Hs & _).
  destruct (Forall_lookup_1 _ _ _ _ (proj1 Hok) Ha0) as (Hwf0 & _).
  assert (Hbal : UserAccount.balance a k = UserAccount.balance a0 k).
  { unfold UserAccount.balance. rewrite (shift_asset _ _ _ Hs), transfer_none; [done|by apply UserAccount.asset_wf|].
    unfold side_at, get_existing_account. by rewrite Hacc, lookup_empty. }
  assert (Hg : get_existing_account v i = empty_account_view).
  { unfold get_existing_account. by rewrite Hacc, lookup_empty. }
  unfold buffered_escrow, buffered_op in E. rewrite Hg in E. unfold account_conditional_escrow in E.
  destruct (Z.ltb_spec x 0); [lia|]. change (at_asset (available_buffer empty_account_view) k) with 0 in E.
  rewrite Z.sub_0_l, (i64_id (- x)) in E by (unfold in_i64; lia).
  destruct (Z.ltb_spec (- x) 0); [|lia]. rewrite Z.opp_involutive, (i64_id x) in E by (unfold in_i64; lia).
  unfold MemoryDatabase.conditional_escrow in E. rewrite (on_account_ok _ _ _ _ Ha) in E. cbn [result_bind fst snd] in E.
  pose proof (UserAccount.conditional_escrow_spec a k x (shift_wf _ _ _ Hwf0 Hs) ltac:(unfold in_i64; lia)) as Sp.
  destruct (UserAccount.conditional_escrow a k x) as [a' r]. cbn [fst snd] in E. rewrite Hacc in E.
  destruct (decide (x <> INT64_MIN /\ _)) as [[_ Hd]|]; destruct Sp as [-> _]; cbn [negb result_bind fst snd] in E;
    injection E as <- <- <-; (split; [done|]); [|done].
  intros _. split; [done|]. rewrite Hbal in Hd. lia.
Qed.

Lemma withdrawn_net (c : AccountCreationView (T := T)) (i : nat) k x j n : 0 < x < 2 ^ 63 ->
  net_at (mkBuffered c {[ i := withdrawn empty_account_view k (- x) ]}) j n =
    if decide (i = j /\ Z.to_nat k = n) then - x else 0.
Proof.
  intros Hx. unfold net_at, side_at, get_existing_account. cbn [accounts]. destruct (decide (i = j)) as [->|Hne].
  - rewrite lookup_singleton_eq. cbn [from_option id]. unfold side, buf, withdrawn. cbn [available_side_effects available_buffer].
    rewrite !asset_sum_insert. cbn [empty_account_view available_side_effects available_buffer].
    change (asset_sum ∅ n) with 0. change (at_asset ∅ k) with 0. rewrite i64_id by (unfold in_i64; lia).
    destruct (decide (Z.to_nat k = n)).
    + rewrite decide_True by done. cbn. lia.
    + rewrite decide_False by tauto. cbn. lia.
  - rewrite lookup_singleton_ne by done. rewrite decide_False by tauto. done.
Qed.

Lemma withdrawn_buffer (c : AccountCreationView (T := T)) (i : nat) k x j k' :
  buffer_at (mkBuffered c {[ i := withdrawn empty_account_view k x ]}) j k' = 0.
Proof.
  unfold buffer_at, get_existing_account. cbn [accounts]. destruct (decide (i = j)) as [->|Hne].
  - rewrite lookup_singleton_eq. cbn [from_option id]. unfold withdrawn. cbn [available_buffer]. unfold at_asset.
    destruct (decide (k = k')) as [->|]; [by rewrite lookup_insert_eq|by rewrite lookup_insert_ne].
  - by rewrite lookup_singleton_ne.
Qed.

Lemma withdrawn_total db (c : AccountCreationView (T := T)) (i : nat) k x n :
  0 < x < 2 ^ 63 -> (i < length (MemoryDatabase.database db))%nat ->
  net_total db (mkBuffered c {[ i := withdrawn empty_account_view k (- x) ]}) n =
    if decide (Z.to_nat k = n) then - x else 0.
Proof.
  intros Hx Hi. unfold net_total. rewrite (sum_by_point (fun _ => 0) _ _ i).
  - rewrite sum_by_zero by (by apply Forall_forall). rewrite withdrawn_net by done. destruct (decide (Z.to_nat k = n)).
    + rewrite decide_True by done. lia.
    + rewrite decide_False by tauto. lia.
  - apply NoDup_seq.
  - apply elem_of_seq. lia.
  - intros j _ Hne. rewrite withdrawn_net, decide_False by naive_solver. done.
Qed.

(** ** Paying the owners *)
Section Payments.
Context (db0 db : DB) (s : Z) (Hok : db_ok db0).

Definition payable (f : fill) : Prop :=
  buyAsset (category (f_offer f)) = s /\ 0 <= f_paid f /\
  is_Some (MemoryDatabase.lookup_user db0 (owner (f_offer f))).

Lemma owner_slot_valid (f : fill) : payable f -> (owner_slot db0 (f_offer f) < length (MemoryDatabase.database db0))%nat.
Proof.
  intros (_ & _ & i & El). unfold owner_slot. rewrite El. simpl.
  destruct (lookup_user_account _ _ _ Hok El) as (a & Ha). by eapply lookup_lt_Some.
Qed.

Lemma sold_nonneg (fs : list fill) : Forall payable fs -> 0 <= sold fs.
Proof. intros Hf. apply sum_by_nonneg. eapply Forall_impl; [exact Hf|]. by intros f (_ & ? & _). Qed.

(** The view stays related to the database, every payment is in a buffer, and
    only the paid asset moves, upwards. *)
Record paid_view v v' (fs : list fill) : Prop := {
  pv_inv : view_inv db0 db v';
  pv_creation : creation v' = creation v;
  pv_buffer i k : k <> s -> buffer_at v' i k = buffer_at v i k;
  pv_net i n : net_at v i n <= net_at v' i n;
  pv_total n : net_total db0 v' n = net_total db0 v n + (if decide (Z.to_nat s = n) then sold fs else 0)
}.

Lemma pay_owners_spec (fs : list fill) v :
  view_inv db0 db v -> Forall payable fs -> room v s (sold fs) -> paid_view v (pay_owners db0 v fs) fs.
Proof.
  unfold sold. revert v. induction fs as [|f fs IH]; intros v Hv Hf Hroom.
  { constructor; try done. intros n. unfold sold. rewrite sum_by_nil. destruct (decide _); cbn [pay_owners foldl]; lia. }
  apply Forall_cons in Hf as [Hpf Hf]. pose proof (owner_slot_valid f Hpf) as Hi.
  pose proof Hpf as (Es & Hp & _). rewrite sum_by_cons in *. pose proof (sold_nonneg fs Hf) as Hs. unfold sold in Hs.
  pose proof Hroom as (B & HB & Hb).
  assert (Hv1 : view_inv db0 db (pay_owner db0 v f)).
  { apply credit_inv; [done..|]. rewrite Es. specialize (Hb (owner_slot db0 (f_offer f))). lia. }
  assert (Hroom1 : room (pay_owner db0 v f) s (sum_by f_paid fs)).
  { pose proof (room_pay db0 v s _ f Hroom Es Hp) as R. by replace (sum_by f_paid fs) with (f_paid f + sum_by f_paid fs - f_paid f) by lia. }
  destruct (IH _ Hv1 Hf Hroom1) as [P1 P2 P3 P4 P5]. cbn [pay_owners foldl]. fold (pay_owners db0 (pay_owner db0 v f) fs).
  unfold pay_owner in *. rewrite Es in *. constructor.
  - done.
  - by rewrite P2.
  - intros i k Hk. rewrite P3, buffer_credit, decide_False by naive_solver. lia.
  - intros i n. specialize (P4 i n). rewrite net_credit in P4. destruct (decide _); lia.
  - intros n. rewrite P5, net_total_credit by done. unfold sold. rewrite sum_by_cons. destruct (decide _); lia.
Qed.
End Payments.

(** ** One trade *)
Lemma same_lookup db0 db v id : view_inv db0 db v -> MemoryDatabase.lookup_user db id = MemoryDatabase.lookup_user db0 id.
Proof. intros Hv. unfold MemoryDatabase.lookup_user. by rewrite (sf_map _ _ (vi_frame _ _ _ Hv)). Qed.

Lemma same_payments db0 db v v1 fs : view_inv db0 db v -> pay_owners db v1 fs = pay_owners db0 v1 fs.
Proof.
  intros Hv. unfold pay_owners. revert v1. induction fs as [|f fs IH]; intros v1; [done|]. cbn [foldl]. rewrite IH.
  unfold pay_owner, owner_slot. by rewrite (same_lookup db0 db v _ Hv).
Qed.

Lemma same_book db0 db v s ob : view_inv db0 db v -> serial_book db0 s ob -> serial_book db s ob.
Proof.
  intros Hv [S1 S2 S3]. constructor; [done| |done]. eapply Forall_impl; [exact S2|].
  intros p (? & ? & ?). by rewrite (same_lookup db0 db v _ Hv).
Qed.

Lemma fills_payable db0 s ob max r :
  serial_book db0 s ob -> 0 <= r -> Forall (payable db0 s) (match_book max r (dt_entries ob)).1.
Proof.
  intros [_ Hb _] Hr. assert (Hwf : Forall (fun p => offer_wf p.2) (dt_entries ob)).
  { eapply Forall_impl; [exact Hb|]. by intros p []. }
  destruct (match_book_fills max (dt_entries ob) r Hwf Hr) as [Hf _].
  pose proof (match_book_offers max (dt_entries ob) r) as Ho. unfold book_of in Hb. rewrite Forall_forall in Hf, Ho. rewrite Forall_forall in Hb. apply Forall_forall.
  intros f Hin. destruct (Ho f Hin) as (k & Hk). destruct (Hb _ Hk) as (_ & Es & El).
  destruct (Hf f Hin) as (_ & _ & ? & _). split; [done|]. split; [lia|done].
Qed.

(** What a trade of [offer] on a book ends with. *)
Record traded db0 v v' (cat : OfferCategory) (fs : list fill) : Prop := {
  td_net j n : net_at v j n <= net_at v' j n;
  td_total n : net_total db0 v' n = net_total db0 v n + (if decide (Z.to_nat (sellAsset cat) = n) then sold fs else 0)
    + (if decide (Z.to_nat (buyAsset cat) = n) then bought fs else 0);
  td_creation : creation v' = creation v
}.

Definition rest_offer (other : BT) (offer : Offer) (fs : list fill) : BT :=
  if sold fs <? amount offer then add_offer other (set_amount offer (amount offer - sold fs)) else other.

Lemma trade_spec db0 db v ob other cat offer max i :
  db_ok db0 -> view_inv db0 db v -> (forall j k, buffer_at v j k = 0) ->
  (i < length (MemoryDatabase.database db0))%nat -> offer_wf offer -> sellAsset cat <> buyAsset cat ->
  serial_book db0 (sellAsset cat) ob -> offers_endow (dt_entries ob) < 2 ^ 63 ->
  let m := match_book max (amount offer) (dt_entries ob) in
  exists ob' v', trade ob other cat offer max (DbPtr i) db v = Ok (ob', rest_offer other offer m.1, db, v') /\
    dt_entries ob' = m.2 /\ dt_marked ob' = ∅ /\ view_inv db0 db v' /\ traded db0 v v' cat m.1.
Proof.
  intros Hok Hv Hb0 Hi (Hp & Ha & _) Hcat Hob Hend m.
  pose proof Hob as [_ Hbk _]. pose proof (book_endow_nonneg _ _ _ Hbk) as Hend0.
  assert (Hroom : forall r, r < 2 ^ 63 -> room v (sellAsset cat) r).
  { intros r Hr. exists 0. split; [lia|]. intros j. rewrite Hb0. lia. }
  assert (Hwf : Forall (fun p => offer_wf p.2) (dt_entries ob)) by (eapply Forall_impl; [exact Hbk|]; by intros p []).
  destruct (match_book_fills max (dt_entries ob) (amount offer) Hwf ltac:(lia)) as [Hfair Hsold]. fold m in Hfair, Hsold.
  destruct (try_execute_spec ob max (amount offer) db v (sellAsset cat) (same_book _ _ _ _ _ Hv Hob) ltac:(lia)
    (Hroom (amount offer) ltac:(lia)) ltac:(lia)) as (ob' & E & Ee & Em). fold m in E, Ee.
  rewrite (same_payments db0 db v _ _ Hv) in E.
  destruct (pay_owners_spec db0 db (sellAsset cat) Hok m.1 v Hv (fills_payable db0 (sellAsset cat) ob max (amount offer) Hob ltac:(lia)) (Hroom (sold m.1) ltac:(lia)))
    as [P1 P2 P3 P4 P5].
  assert (Hbought : 0 <= bought m.1 < 2 ^ 63).
  { pose proof (match_book_given max (dt_entries ob) (amount offer)) as Hg. fold m in Hg.
    assert (0 <= offers_endow m.2).
    { apply sum_by_nonneg. eapply Forall_impl; [apply (match_book_rest max (dt_entries ob) (amount offer)); [done|lia]|].
      intros p (o & _ & ? & _). lia. }
    split; [|lia]. apply sum_by_nonneg. eapply Forall_impl; [exact Hfair|]. intros f (_ & ? & _). lia. }
  set (v1 := pay_owners db0 v m.1) in *. set (v2 := credit_to v1 i (buyAsset cat) (bought m.1)).
  assert (Hbuf : 0 <= buffer_at v1 i (buyAsset cat) + bought m.1 < 2 ^ 63) by (rewrite P3, Hb0 by done; lia).
  exists ob', v2. split.
  { unfold trade. rewrite E. cbn [result_bind]. destruct (Z.ltb_spec (amount offer) (sold m.1)); [lia|].
    rewrite (i64_id (bought m.1)) by (unfold in_i64; lia). rewrite transfer_is_credit by done. cbn [result_bind].
    cbn [set_amount amount]. rewrite u64_id by (unfold in_u64; lia). unfold rest_offer.
    replace (0 <? amount offer - sold m.1) with (sold m.1 <? amount offer); [done|].
    destruct (Z.ltb_spec (sold m.1) (amount offer)), (Z.ltb_spec 0 (amount offer - sold m.1)); lia || done. }
  split; [done|]. split; [done|]. split; [by apply credit_inv|]. constructor.
  - intros j n. unfold v2. rewrite net_credit. specialize (P4 j n). destruct (decide _); lia.
  - intros n. unfold v2. rewrite net_total_credit, P5 by done. done.
  - done.
Qed.

(** ** Sequence numbers *)

(** The account of [id] would refuse the number [n]. *)
Definition number_taken db (id n : Z) : Prop :=
  exists i a, MemoryDatabase.lookup_user db id = Some i /\ MemoryDatabase.database db !! i = Some a /\
    (st_reserve_sequence_number (UserAccount.seq_tracker a) n).2 <> SUCCESS.

Lemma sequence_of_range o : in_u64 (offerId o) -> in_u64 (sequence_of o).
Proof.
  intros Ho. unfold sequence_of. split; [apply Z.land_nonneg; right; lia|].
  assert (E : Z.land (offerId o) 0xFFFFFFFFFFFFFF00 = Z.land (Z.land (offerId o) 0xFFFFFFFFFFFFFF00) (2 ^ 64 - 1)).
  { rewrite <- Z.land_assoc. by f_equal. }
  rewrite E, land_ones_mod by lia. apply Z.mod_pos_bound. lia.
Qed.

(** A refused number stays refused when another is reserved. *)
Lemma tracker_keeps (t : T) n n' :
  st_wf t -> in_u64 n -> in_u64 n' -> in_u64 (Spec.last (st_abs t)) ->
  (st_reserve_sequence_number t n).2 <> SUCCESS ->
  (st_reserve_sequence_number (st_reserve_sequence_number t n').1 n).2 <> SUCCESS.
Proof.
  intros Hw Hn Hn' Hl Hs. destruct (st_reserve_refines t n Hw Hn Hl) as [_ E].
  destruct (st_reserve_refines t n' Hw Hn' Hl) as [Hw' E'].
  set (t' := (st_reserve_sequence_number t n').1) in *. apply (f_equal fst) in E'. cbn [fst] in E'.
  assert (El : Spec.last (st_abs t') = Spec.last (st_abs t)) by (rewrite E'; apply spec_reserve_last).
  destruct (st_reserve_refines t' n Hw' Hn) as [_ E2]; [by rewrite El|].
  apply (f_equal snd) in E, E2. cbn [snd] in E, E2. rewrite E in Hs. rewrite E2. clear E E2.
  unfold Spec.reserve in *. rewrite El. destruct (n <=? _); [done|].
  set (off := Spec.offset n (Spec.last (st_abs t))) in *. destruct (st_gap <=? off); [done|].
  destruct (Z.testbit (Spec.mask (st_abs t)) off) eqn:Eb; [|done].
  assert (Eb' : Z.testbit (Spec.mask (st_abs t')) off = true).
  { rewrite E'. destruct (n' <=? _); [done|]. destruct (st_gap <=? _); [done|].
    destruct (Z.testbit _ (Spec.offset n' _)); [done|]. cbn [fst Spec.mask]. by rewrite Z.lor_spec, Eb. }
  by rewrite Eb'.
Qed.

(** The accounts after an offer: still well formed, and no number became free. *)
Record db_next db0 db' : Prop := {
  dn_ok : db_ok db';
  dn_map : MemoryDatabase.user_id_to_idx_map db' = MemoryDatabase.user_id_to_idx_map db0;
  dn_taken id n : in_u64 n -> number_taken db0 id n -> number_taken db' id n
}.

Lemma commit_next db0 db v i n :
  db_ok db0 -> view_inv db0 db v -> reservations (creation v) = [(DbPtr i, n)] ->
  (i < length (MemoryDatabase.database db0))%nat ->
  db_next db0 (buffered_commit db v) /\
  (forall id, MemoryDatabase.lookup_user db0 id = Some i -> ~ number_taken db0 id n /\ number_taken (buffered_commit db v) id n).
Proof.
  intros Hok Hv Hr Hi. destruct (buffered_commit_spec db0 db v Hok Hv) as [Cm Cl Ca _].
  set (db' := buffered_commit db v) in *.
  assert (Hacct : forall j a0, MemoryDatabase.database db0 !! j = Some a0 ->
    exists a, MemoryDatabase.database db' !! j = Some a /\ account_ok a /\ UserAccount.owner a = UserAccount.owner a0 /\
      forall m, in_u64 m -> (st_reserve_sequence_number (UserAccount.seq_tracker a0) m).2 <> SUCCESS ->
        (st_reserve_sequence_number (UserAccount.seq_tracker a) m).2 <> SUCCESS).
  { intros j a0 Ha0. destruct (Ca j a0 Ha0) as (a & Ha & Hs & Ht). rewrite Hr in Ht. cbn [tracker_ok] in Ht.
    destruct (Forall_lookup_1 _ _ _ _ (proj1 Hok) Ha0) as (Hwf & Hw & Hl).
    exists a. split; [done|]. pose proof (shift_wf _ _ _ Hwf Hs) as Hwf'. pose proof (shift_owner _ _ _ Hs) as Hown.
    unfold account_ok. destruct (decide (DbPtr i = DbPtr j)); [|by rewrite Ht].
    destruct Ht as (Hn & Et & _). rewrite Et. destruct (st_reserve_refines _ n Hw Hn Hl) as [Hw' E].
    apply (f_equal fst) in E. cbn [fst] in E. rewrite E, spec_reserve_last.
    split; [done|]. split; [done|]. intros m Hm. by apply tracker_keeps. }
  split; [constructor|].
  - split.
    + apply Forall_lookup. intros j a Ha. destruct (lookup_lt_is_Some_2 (MemoryDatabase.database db0) j) as [a0 Ha0].
      { rewrite <- Cl. by eapply lookup_lt_Some. }
      destruct (Hacct j a0 Ha0) as (b & Hb & ? & _). by assert (b = a) as <- by congruence.
    + intros id j. rewrite Cm, (proj2 Hok id j). split.
      * intros (a0 & Ha0 & <-). destruct (Hacct j a0 Ha0) as (a & Ha & _ & ? & _). by exists a.
      * intros (a & Ha & <-). destruct (lookup_lt_is_Some_2 (MemoryDatabase.database db0) j) as [a0 Ha0].
        { rewrite <- Cl. by eapply lookup_lt_Some. }
        destruct (Hacct j a0 Ha0) as (b & Hb & _ & ? & _). exists a0. split; [done|]. congruence.
  - done.
  - intros id m Hm (j & a0 & Hj & Ha0 & Href). destruct (Hacct j a0 Ha0) as (a & Ha & _ & _ & Hk).
    exists j, a. unfold MemoryDatabase.lookup_user in *. rewrite Cm. split; [done|]. split; [done|]. by apply Hk.
  - intros id Hid. destruct (lookup_lt_is_Some_2 _ _ Hi) as [a0 Ha0]. destruct (Ca i a0 Ha0) as (a & Ha & _ & Ht).
    rewrite Hr in Ht. cbn [tracker_ok] in Ht. rewrite decide_True in Ht by done. destruct Ht as (Hn & Et & Hst).
    destruct (Forall_lookup_1 _ _ _ _ (proj1 Hok) Ha0) as (_ & Hw & Hl). split.
    + intros (j & b & Hj & Hb & Href). by assert (b = a0) as -> by congruence.
    + exists i, a. unfold MemoryDatabase.lookup_user in *. rewrite Cm. split; [done|]. split; [done|].
      rewrite Et. by rewrite tracker_reserve_twice.
Qed.

Lemma equiv_next db0 db' : db_ok db0 -> db_equiv db0 db' ->
  db_next db0 db' /\ forall n, sum_by (asset_units n) (MemoryDatabase.database db') = sum_by (asset_units n) (MemoryDatabase.database db0) /\
    (Forall (fun a => 0 <= asset_units n a) (MemoryDatabase.database db0) -> Forall (fun a => 0 <= asset_units n a) (MemoryDatabase.database db')).
Proof.
  intros Hok [E1 _ E2 _ _ _ _]. split; [constructor; [split| |]|].
  - apply Forall_lookup. intros j a Ha. destruct (Forall2_lookup_r _ _ _ _ _ E2 Ha) as (a0 & Ha0 & Ea).
    destruct (Forall_lookup_1 _ _ _ _ (proj1 Hok) Ha0) as (Hwf & Hw & Hl). unfold account_ok.
    rewrite <- (UserAccount.equiv_tracker _ _ Ea). split; [|done]. rewrite UserAccount.wf_asset_of in Hwf |- *.
    intros n. by rewrite <- (UserAccount.equiv_asset_of _ _ _ Ea).
  - intros id j. rewrite <- E1, (proj2 Hok id j). split; intros (a & Ha & <-).
    + destruct (Forall2_lookup_l _ _ _ _ _ E2 Ha) as (b & Hb & Ea). exists b. split; [done|]. by rewrite (UserAccount.equiv_owner _ _ Ea).
    + destruct (Forall2_lookup_r _ _ _ _ _ E2 Ha) as (b & Hb & Ea). exists b. split; [done|]. by rewrite (UserAccount.equiv_owner _ _ Ea).
  - by symmetry.
  - intros id n _ (j & a & Hj & Ha & Href). destruct (Forall2_lookup_l _ _ _ _ _ E2 Ha) as (b & Hb & Ea).
    exists j, b. unfold MemoryDatabase.lookup_user in *. rewrite <- E1. split; [done|]. split; [done|].
    by rewrite <- (UserAccount.equiv_tracker _ _ Ea).
  - intros n. assert (Hu : Forall2 (fun a b => asset_units n a = asset_units n b) (MemoryDatabase.database db0) (MemoryDatabase.database db')).
    { eapply Forall2_impl; [exact E2|]. intros a b Eab. unfold asset_units. by rewrite (UserAccount.equiv_asset_of _ _ _ Eab). }
    clear -Hu. induction Hu as [|a b l l' Eab Hu [IH1 IH2]]; [done|]. rewrite !sum_by_cons, IH1, Eab. split; [done|].
    rewrite !Forall_cons, Eab. tauto.
Qed.

(** ** The invariant of the market *)
Definition resting_ok db (cat : OfferCategory) (p : key * Offer) : Prop :=
  p.1 = Key.offer_key p.2 /\ offer_wf p.2 /\ category p.2 = cat /\ number_taken db (owner p.2) (sequence_of p.2).

Record side_ok db (cat : OfferCategory) ob : Prop := {
  so_marked : dt_marked ob = ∅;
  so_entries : Forall (resting_ok db cat) (dt_entries ob)
}.

(** No offer of one side would trade with an offer of the other. *)
Definition uncrossed (l l' : list (key * Offer)) : Prop :=
  forall p q, p ∈ l -> q ∈ l' -> 2 ^ 48 < minPrice p.2 * minPrice q.2.

(** The units of asset [n] on accounts and in resting offers. *)
Definition selling (n : nat) (l : list (key * Offer)) : Z :=
  sum_by (fun p => if decide (Z.to_nat (sellAsset (category p.2)) = n) then amount p.2 else 0) l.
Definition units st (n : nat) : Z :=
  sum_by (asset_units n) (MemoryDatabase.database (exp_db st)) +
  (selling n (dt_entries (a_to_b st)) + selling n (dt_entries (b_to_a st))).

Record market_ok st : Prop := {
  mk_db : db_ok (exp_db st);
  mk_balances n : (n < 2)%nat -> Forall (fun a => 0 <= asset_units n a) (MemoryDatabase.database (exp_db st));
  mk_a : side_ok (exp_db st) b_to_a_cat (a_to_b st);
  mk_b : side_ok (exp_db st) a_to_b_cat (b_to_a st);
  mk_uncrossed : uncrossed (dt_entries (a_to_b st)) (dt_entries (b_to_a st));
  mk_supply n : (n < 2)%nat -> units st n < 2 ^ 63
}.

(** An offer the experiment may be given. *)
Definition placeable st (o : Offer) : Prop :=
  offer_wf o /\ (category o = a_to_b_cat \/ category o = b_to_a_cat) /\
  is_Some (MemoryDatabase.lookup_user (exp_db st) (owner o)).

Lemma side_book db cat ob : side_ok db cat ob -> serial_book db (buyAsset cat) ob.
Proof.
  intros [Hm He]. constructor; [done| |]; (eapply Forall_impl; [exact He|]).
  - intros p (_ & Hw & <- & i & a & El & _). split; [done|]. split; [done|]. by rewrite El.
  - by intros p (? & _).
Qed.

Lemma side_next db db' cat ob : db_next db db' -> side_ok db cat ob -> side_ok db' cat ob.
Proof.
  intros Hn [Hm He]. constructor; [done|]. eapply Forall_impl; [exact He|]. intros p (Hk & Hw & Hc & Ht).
  split; [done|]. split; [done|]. split; [done|]. apply (dn_taken _ _ Hn); [|done]. apply sequence_of_range, Hw.
Qed.

Lemma side_selling db cat ob n : side_ok db cat ob ->
  selling n (dt_entries ob) = if decide (Z.to_nat (sellAsset cat) = n) then offers_endow (dt_entries ob) else 0.
Proof.
  intros [_ He]. unfold selling, offers_endow. destruct (decide (Z.to_nat (sellAsset cat) = n)) as [E|E].
  - apply sum_by_ext. eapply Forall_impl; [exact He|]. intros p (_ & _ & -> & _). by rewrite decide_True.
  - apply sum_by_zero. eapply Forall_impl; [exact He|]. intros p (_ & _ & -> & _). by rewrite decide_False.
Qed.

(** What is left of a book. *)
Lemma side_rest db cat ob ob' max r :
  side_ok db cat ob -> 0 <= r -> dt_entries ob' = (match_book max r (dt_entries ob)).2 -> dt_marked ob' = ∅ ->
  side_ok db cat ob' /\ forall p, p ∈ dt_entries ob' -> exists q, q ∈ dt_entries ob /\ minPrice q.2 = minPrice p.2.
Proof.
  intros [Hm He] Hr Ee Hm'. assert (Hwf : Forall (fun p => offer_wf p.2) (dt_entries ob)).
  { eapply Forall_impl; [exact He|]. by intros p (_ & ? & _). }
  pose proof (match_book_rest max (dt_entries ob) r Hwf Hr) as Hrest. rewrite <- Ee in Hrest.
  rewrite Forall_forall in Hrest. rewrite Forall_forall in He. split; [constructor; [done|]|].
  - apply Forall_forall. intros p Hp. destruct (Hrest p Hp) as (o & Ho & Ha & E).
    destruct (He _ Ho) as (Hk & (W1 & W2 & W3) & Hc & Ht). cbn [fst snd] in *. unfold resting_ok. rewrite E.
    split; [by rewrite Hk|]. split; [split; [done|split; [cbn [set_amount amount]; lia|done]]|done].
  - intros p Hp. destruct (Hrest p Hp) as (o & Ho & _ & E). exists (p.1, o). split; [done|]. by rewrite E.
Qed.

(** Resting an offer under a new key. *)
Lemma add_offer_entries ob o : dt_map ob !! Key.offer_key o = None ->
  dt_entries (add_offer ob o) ≡ₚ (Key.offer_key o, o) :: dt_entries ob.
Proof. intros Hk. unfold add_offer. by rewrite !dt_entries_map, dt_insert_map, map_to_list_insert. Qed.

Lemma fresh_key db cat ob o :
  side_ok db cat ob -> offer_wf o -> ~ number_taken db (owner o) (sequence_of o) -> dt_map ob !! Key.offer_key o = None.
Proof.
  intros [_ He] (Hp & _ & Ho & Hi) Hn. destruct (dt_map ob !! Key.offer_key o) as [o'|] eqn:E; [|done].
  assert (Hin : (Key.offer_key o, o') ∈ dt_entries ob) by (rewrite dt_entries_map; by apply elem_of_map_to_list).
  rewrite Forall_forall in He. destruct (He _ Hin) as (Hk & (Hp' & _ & Ho' & Hi') & _ & Ht). cbn [fst snd] in *.
  unfold Price.valid in *. unfold Key.offer_key in Hk. apply Key.key_inj in Hk as (_ & E1 & E2); try done; try lia.
  destruct Hn. unfold sequence_of in *. by rewrite E1, E2.
Qed.

Lemma side_add db db' cat ob o :
  side_ok db cat ob -> db_next db db' -> offer_wf o -> category o = cat ->
  ~ number_taken db (owner o) (sequence_of o) -> number_taken db' (owner o) (sequence_of o) ->
  side_ok db' cat (add_offer ob o) /\ dt_entries (add_offer ob o) ≡ₚ (Key.offer_key o, o) :: dt_entries ob.
Proof.
  intros Hs Hn Hw Hc Hnot Ht. pose proof (fresh_key db cat ob o Hs Hw Hnot) as Hk.
  pose proof (add_offer_entries ob o Hk) as Ep. split; [|done]. destruct (side_next _ _ _ _ Hn Hs) as [Hm He]. constructor.
  - unfold add_offer. rewrite dt_insert_marked; [done|]. rewrite Hm. apply not_elem_of_empty.
  - rewrite Ep. constructor; [|done]. split; [done|]. split; [done|]. by split.
Qed.

(** ** One offer *)

(** A price above the limit of an offer does not cross its price. *)
Lemma above_limit p m : 1 <= p -> 2 ^ 48 / p < m -> 2 ^ 48 < m * p.
Proof. intros Hp Hm. pose proof (Z.mul_succ_div_gt (2 ^ 48) p ltac:(lia)). nia. Qed.

Lemma limit_of p : Price.valid p -> u64 (u128 (Z.shiftl 1 (2 * Price.PRICE_RADIX)) / p) = 2 ^ 48 / p.
Proof.
  unfold Price.valid. intros Hp. change (u128 (Z.shiftl 1 (2 * Price.PRICE_RADIX))) with (2 ^ 48).
  apply u64_id. split; [apply Z.div_pos; lia|]. apply Z.div_lt_upper_bound; lia.
Qed.

(** The offers of the two sides after a trade: nothing crosses, whether the
    order was sold out or its remainder rests. *)
Lemma uncrossed_rest (la lb la' lb' : list (key * Offer)) :
  uncrossed la lb -> (forall p, p ∈ la' -> exists q, q ∈ la /\ minPrice q.2 = minPrice p.2) ->
  (forall q, q ∈ lb' -> q ∈ lb \/ forall p, p ∈ la' -> 2 ^ 48 < minPrice p.2 * minPrice q.2) -> uncrossed la' lb'.
Proof.
  intros Hu Ha Hb p q Hp Hq. destruct (Hb q Hq) as [Hq'|Hall]; [|by apply Hall].
  destruct (Ha p Hp) as (p' & Hp' & <-). by apply Hu.
Qed.

Section Branch.
Context (db0 db : DB) (v : View) (ob other : BT) (s b : Z) (offer : Offer) (i : nat).
Let cat := mkOfferCategory s b SELL.
Let rev := mkOfferCategory b s SELL.
Let m := match_book (2 ^ 48 / minPrice offer) (amount offer) (dt_entries ob).
Context (Hok : db_ok db0) (Hob : side_ok db0 rev ob) (Hother : side_ok db0 cat other).
Context (Hsb : 0 <= s /\ 0 <= b /\ s <> b) (Hoffer : offer_wf offer) (Hcat : category offer = cat).
Context (Hi : MemoryDatabase.lookup_user db0 (owner offer) = Some i).

Lemma rest_offer_side db' :
  db_next db0 db' -> uncrossed (dt_entries ob) (dt_entries other) ->
  ~ number_taken db0 (owner offer) (sequence_of offer) -> number_taken db' (owner offer) (sequence_of offer) ->
  side_ok db' cat (rest_offer other offer m.1) /\
  offers_endow (dt_entries (rest_offer other offer m.1)) = offers_endow (dt_entries other) + (amount offer - sold m.1) /\
  forall ob', dt_entries ob' = m.2 -> dt_marked ob' = ∅ ->
    side_ok db' rev ob' /\ uncrossed (dt_entries ob') (dt_entries (rest_offer other offer m.1)).
Proof.
  intros Hn Hu Hnot Ht. pose proof Hoffer as (Hp & Ha & Hrest). unfold Price.valid in Hp.
  pose proof (side_book _ _ _ Hob) as [_ Hbk Hks].
  assert (Hwf : Forall (fun p => offer_wf p.2) (dt_entries ob)) by (eapply Forall_impl; [exact Hbk|]; by intros p []).
  destruct (match_book_fills (2 ^ 48 / minPrice offer) (dt_entries ob) (amount offer) Hwf ltac:(lia)) as [_ Hs].
  fold m in Hs. unfold rest_offer. destruct (Z.ltb_spec (sold m.1) (amount offer)) as [Hlt|Hge].
  - set (o' := set_amount offer (amount offer - sold m.1)).
    destruct (side_add db0 db' cat other o') as [S1 S2]; try done.
    { split; [done|]. split; [unfold o'; cbn [set_amount amount]; lia|done]. }
    split; [done|]. split.
    { unfold offers_endow. rewrite S2, sum_by_cons. unfold o'. cbn [snd set_amount amount]. lia. }
    intros ob' Ee Em. destruct (side_rest db0 rev ob ob' (2 ^ 48 / minPrice offer) (amount offer) Hob ltac:(lia) Ee Em) as [R1 R2].
    split; [by eapply side_next|]. apply (uncrossed_rest _ _ _ _ Hu R2). intros q Hq. rewrite S2 in Hq.
    apply elem_of_cons in Hq as [->|Hq]; [right|by left]. intros p Hpin. unfold o'. cbn [snd set_amount minPrice].
    apply above_limit; [lia|].
    pose proof (match_book_exhausts (2 ^ 48 / minPrice offer) (dt_entries ob) (amount offer) Hwf
      (keyed_price_sorted _ Hwf Hks (dt_entries_sorted ob)) ltac:(lia) Hlt) as Hex.
    fold m in Hex. rewrite <- Ee, Forall_forall in Hex. by apply Hex.
  - split; [by eapply side_next|]. split; [lia|]. intros ob' Ee Em.
    destruct (side_rest db0 rev ob ob' (2 ^ 48 / minPrice offer) (amount offer) Hob ltac:(lia) Ee Em) as [R1 R2].
    split; [by eapply side_next|]. apply (uncrossed_rest _ _ _ _ Hu R2). intros q Hq. by left.
Qed.

Context (Hv : view_inv db0 db v) (c : AccountCreationView (T := T)).
Context (Ev : v = mkBuffered c {[ i := withdrawn empty_account_view s (- amount offer) ]}).
Context (Hres : reservations c = [(DbPtr i, sequence_of offer)]).

Lemma branch_spec a0 :
  uncrossed (dt_entries ob) (dt_entries other) -> MemoryDatabase.database db0 !! i = Some a0 ->
  amount offer <= UserAccount.balance a0 s ->
  (forall n, n = Z.to_nat s \/ n = Z.to_nat b -> Forall (fun a => 0 <= asset_units n a) (MemoryDatabase.database db0) /\
    sum_by (asset_units n) (MemoryDatabase.database db0) + (selling n (dt_entries ob) + selling n (dt_entries other)) < 2 ^ 63) ->
  exists ob' other' db1 v', trade ob other cat offer (2 ^ 48 / minPrice offer) (DbPtr i) db v = Ok (ob', other', db1, v') /\
    let db' := buffered_commit db1 v' in
    db_next db0 db' /\ side_ok db' rev ob' /\ side_ok db' cat other' /\ uncrossed (dt_entries ob') (dt_entries other') /\
    forall n, n = Z.to_nat s \/ n = Z.to_nat b -> Forall (fun a => 0 <= asset_units n a) (MemoryDatabase.database db') /\
      sum_by (asset_units n) (MemoryDatabase.database db') + (selling n (dt_entries ob') + selling n (dt_entries other')) =
      sum_by (asset_units n) (MemoryDatabase.database db0) + (selling n (dt_entries ob) + selling n (dt_entries other)).
Proof.
  intros Hu Ha0 Hbal Hunits. destruct Hsb as (Hs0 & Hb0 & Hne). pose proof Hoffer as (_ & Hamt & _).
  assert (Hlen : (i < length (MemoryDatabase.database db0))%nat) by (by eapply lookup_lt_Some).
  assert (Hend : 0 <= offers_endow (dt_entries ob) /\ 0 <= offers_endow (dt_entries other)).
  { split; [destruct (side_book _ _ _ Hob) as [_ Hbk _]|destruct (side_book _ _ _ Hother) as [_ Hbk _]];
      by eapply book_endow_nonneg. }
  assert (Hsell : forall n, selling n (dt_entries ob) + selling n (dt_entries other) =
    (if decide (Z.to_nat b = n) then offers_endow (dt_entries ob) else 0) +
    (if decide (Z.to_nat s = n) then offers_endow (dt_entries other) else 0)).
  { intros n. by rewrite (side_selling _ _ _ n Hob), (side_selling _ _ _ n Hother). }
  destruct (Hunits (Z.to_nat b)) as [Hpos_b Hsup_b]; [by right|]. rewrite Hsell, decide_True in Hsup_b by done.
  assert (Hsb_nat : Z.to_nat s <> Z.to_nat b) by lia. rewrite decide_False in Hsup_b by done.
  pose proof (sum_by_nonneg _ _ Hpos_b) as Hsum_b.
  destruct (trade_spec db0 db v ob other cat offer (2 ^ 48 / minPrice offer) i Hok Hv) as (ob' & v' & E & Ee & Em & Hv' & [Tn Tt Tc]);
    try done; try lia.
  { intros j k. rewrite Ev. apply withdrawn_buffer. }
  { by apply (side_book db0 rev ob). }
  fold m in E, Ee, Tt. cbn [cat sellAsset buyAsset] in Tt.
  exists ob', (rest_offer other offer m.1), db, v'. split; [done|]. cbv zeta. set (db' := buffered_commit db v').
  assert (Hres' : reservations (creation v') = [(DbPtr i, sequence_of offer)]) by (rewrite Tc, Ev; done).
  destruct (commit_next db0 db v' i _ Hok Hv' Hres' Hlen) as [Hnext Htaken]. fold db' in Hnext, Htaken.
  destruct (Htaken _ Hi) as [Hnot Htk].
  destruct (rest_offer_side db' Hnext Hu Hnot Htk) as (R1 & R2 & R3). destruct (R3 ob' Ee Em) as [R4 R5].
  split; [done|]. split; [done|]. split; [done|]. split; [done|].
  pose proof (match_book_given (2 ^ 48 / minPrice offer) (dt_entries ob) (amount offer)) as Hgiven. fold m in Hgiven.
  rewrite <- Ee in Hgiven.
  assert (Hend' : 0 <= offers_endow (dt_entries ob')).
  { destruct (side_book _ _ _ R4) as [_ Hbk _]. by eapply book_endow_nonneg. }
  assert (Hsold : 0 <= sold m.1 <= amount offer).
  { apply match_book_fills; [|lia]. destruct (side_book _ _ _ Hob) as [_ Hbk _].
    eapply Forall_impl; [exact Hbk|]. by intros p []. }
  intros n Hn. destruct (Hunits n Hn) as [Hpos Hsup]. rewrite Hsell in Hsup.
  assert (Htot : net_total db0 v' n = (if decide (Z.to_nat b = n) then bought m.1 else 0) -
    (if decide (Z.to_nat s = n) then amount offer - sold m.1 else 0)).
  { rewrite Tt, Ev, withdrawn_total by done. destruct (decide (Z.to_nat s = n)), (decide (Z.to_nat b = n)); lia. }
  destruct (commit_exact db0 db v' n Hok Hv') as [C1 C2].
  - intros j a Ha. specialize (Tn j n). rewrite Ev, withdrawn_net in Tn by done.
    pose proof (Forall_lookup_1 _ _ _ _ Hpos Ha) as Hge. simpl in Hge. destruct (decide (i = j /\ Z.to_nat s = n)) as [[<- <-]|]; [|lia].
    assert (a = a0) as -> by congruence. unfold UserAccount.balance in Hbal. unfold asset_units in *. lia.
  - rewrite Htot. destruct (decide (Z.to_nat s = n)), (decide (Z.to_nat b = n)); lia.
  - fold db' in C1, C2. split; [done|]. rewrite C1, Htot, Hsell, (side_selling _ _ _ n R4), (side_selling _ _ _ n R1), R2.
    cbn [cat rev sellAsset]. destruct (decide (Z.to_nat s = n)), (decide (Z.to_nat b = n)); lia.
Qed.
End Branch.

Definition refused : string := "should not happen in experiments".

(** One offer keeps the market, or its number was taken. *)
Definition offer_outcome st (o : Offer) (res : result State) : Prop :=
  match res with
  | Ok st' => market_ok st' /\ (forall n, (n < 2)%nat -> units st' n = units st n) /\
      MemoryDatabase.user_id_to_idx_map (exp_db st') = MemoryDatabase.user_id_to_idx_map (exp_db st) /\
      ~ number_taken (exp_db st) (owner o) (sequence_of o)
  | Throw e => e = refused /\ number_taken (exp_db st) (owner o) (sequence_of o)
  end.

(** The beginning of [exec_one_offer], up to the escrow. *)
Lemma reserve_begin db i a0 n :
  db_ok db -> MemoryDatabase.database db !! i = Some a0 -> in_u64 n ->
  exists db1 v1 s, dv_reserve_sequence_number db (empty_buffered (T := T)) (DbPtr i) n = Ok (db1, v1, s) /\
    view_inv db db1 v1 /\ accounts v1 = ∅ /\
    (s = SUCCESS -> reservations (creation v1) = [(DbPtr i, n)]) /\
    (s <> SUCCESS -> (st_reserve_sequence_number (UserAccount.seq_tracker a0) n).2 <> SUCCESS) /\
    (s = SUCCESS -> (st_reserve_sequence_number (UserAccount.seq_tracker a0) n).2 = SUCCESS).
Proof.
  intros Hok Ha Hn. assert (Hi : (i < length (MemoryDatabase.database db))%nat) by (by eapply lookup_lt_Some).
  destruct (reserve_spec db db empty_buffered i n Hok (view_inv_empty _ Hok) Hi Hn eq_refl) as (db1 & c & s & E & Hv & _ & _ & Hr).
  cbn [dv_reserve_sequence_number buffered_view]. rewrite E. cbn [result_bind fst snd].
  do 3 eexists. split; [reflexivity|]. cbn zeta in Hv, Hr. split; [done|]. split; [done|].
  unfold creation_reserve_sequence_number, on_ptr in E. rewrite (on_account_ok _ _ _ _ Ha) in E. cbn [result_bind fst snd] in E.
  unfold UserAccount.reserve_sequence_number in E.
  destruct (st_reserve_sequence_number (UserAccount.seq_tracker a0) n) as [t r]. cbn [fst snd] in E |- *.
  assert (r = s) as -> by (destruct (decide (r = SUCCESS)); by injection E as _ _ <-).
  split; [|done]. intros ->. rewrite Hr. by rewrite decide_True.
Qed.

Lemma market_next st db' :
  market_ok st -> db_next (exp_db st) db' ->
  (forall n, sum_by (asset_units n) (MemoryDatabase.database db') = sum_by (asset_units n) (MemoryDatabase.database (exp_db st)) /\
    (Forall (fun a => 0 <= asset_units n a) (MemoryDatabase.database (exp_db st)) ->
     Forall (fun a => 0 <= asset_units n a) (MemoryDatabase.database db'))) ->
  market_ok (mkExperiment (a_to_b st) (b_to_a st) db').
Proof.
  intros [M1 M2 M3 M4 M5 M6] Hn Hs. constructor; cbn [a_to_b b_to_a exp_db].
  - apply Hn.
  - intros n Hlt. by apply Hs, M2.
  - by eapply side_next.
  - by eapply side_next.
  - done.
  - intros n Hlt. specialize (M6 n Hlt). unfold units in *. cbn [a_to_b b_to_a exp_db]. by rewrite (proj1 (Hs n)).
Qed.

Lemma exec_one_offer_spec st o : market_ok st -> placeable st o -> offer_outcome st o (exec_one_offer st o).
Proof.
  intros Hm (Hw & Hc & i & El). pose proof Hm as [M1 M2 M3 M4 M5 M6]. set (db0 := exp_db st) in *.
  pose proof Hw as (Hp & Ha & _ & Hid). unfold exec_one_offer. fold db0.
  rewrite (proj2 (Z.eqb_neq (minPrice o) 0)) by (unfold Price.valid in Hp; lia). rewrite (limit_of _ Hp). cbv zeta.
  cbn [dv_lookup_user buffered_view]. unfold creation_lookup_user. rewrite El.
  destruct (lookup_user_account _ _ _ M1 El) as (a0 & Ha0).
  destruct (reserve_begin db0 i a0 _ M1 Ha0 (sequence_of_range o Hid)) as (db1 & v1 & s1 & E1 & Hv1 & Hacc & Hr1 & Hr2 & Hr3).
  rewrite E1. cbn [result_bind]. destruct (decide (s1 <> SUCCESS)) as [Hs1|Hs1].
  { split; [done|]. exists i, a0. split; [done|]. split; [done|]. by apply Hr2. }
  apply dec_stable in Hs1. specialize (Hr1 Hs1). specialize (Hr3 Hs1).
  assert (Hnot : ~ number_taken db0 (owner o) (sequence_of o)).
  { intros (j & b & Hj & Hb & Href). by simplify_eq. }
  rewrite (i64_id (amount o)) by (unfold in_i64; lia).
  destruct (escrow_exact db0 db1 v1 i (sellAsset (category o)) (amount o) a0 M1 Hv1 Hacc Ha0 Ha)
    as (db2 & v2 & s2 & E2 & Hv2 & Hc2 & Hs2). rewrite E2. cbn [result_bind].
  destruct (decide (s2 <> SUCCESS)) as [Hne|He].
  { destruct (buffered_unwind_spec db0 db2 v2 M1 Hv2) as (db3 & -> & He). cbn [result_bind].
    destruct (equiv_next db0 db3 M1 He) as [Hn Hs]. split; [by apply market_next|]. split; [|split; [apply Hn|done]].
    intros n _. unfold units. cbn [a_to_b b_to_a exp_db]. by rewrite (proj1 (Hs n)). }
  apply dec_stable in He. destruct (Hs2 He) as [Hac2 Hbal].
  assert (Ev2 : v2 = mkBuffered (creation v2) {[ i := withdrawn empty_account_view (sellAsset (category o)) (- amount o) ]}).
  { destruct v2 as [c2 w2]. cbn [accounts creation] in *. by rewrite Hac2. }
  rewrite <- Hc2 in Hr1.
  destruct Hc as [Hc|Hc]; rewrite Hc in *; cbn [sellAsset a_to_b_cat b_to_a_cat] in *.
  - rewrite decide_True by done.
    destruct (branch_spec db0 db2 v2 (a_to_b st) (b_to_a st) 0 1 o i M1 M3 M4 ltac:(lia) Hw Hc El Hv2 _ Ev2 Hr1 a0 M5 Ha0 Hbal)
      as (ob' & other' & db3 & v3 & E & Hn & S1 & S2 & Hu & Hb).
    { intros n Hn. split; [apply M2; lia|]. apply M6. lia. }
    change (mkOfferCategory 0 1 SELL) with a_to_b_cat in E. rewrite E. cbn [result_bind].
    assert (Hun : forall n, (n < 2)%nat -> units (mkExperiment ob' other' (buffered_commit db3 v3)) n = units st n).
    { intros n Hlt. apply Hb. lia. }
    split; [|split; [done|split; [apply Hn|done]]]. constructor; cbn [a_to_b b_to_a exp_db]; try done; [apply Hn| |].
    + intros n Hlt. apply Hb. lia.
    + intros n Hlt. specialize (M6 n Hlt). rewrite <- (Hun n Hlt) in M6. exact M6.
  - rewrite decide_False by done.
    destruct (branch_spec db0 db2 v2 (b_to_a st) (a_to_b st) 1 0 o i M1 M4 M3 ltac:(lia) Hw Hc El Hv2 _ Ev2 Hr1 a0)
      as (ob' & other' & db3 & v3 & E & Hn & S1 & S2 & Hu & Hb); try done.
    { intros p q Hp' Hq. rewrite Z.mul_comm. by apply M5. }
    { intros n Hn. split; [apply M2; lia|]. rewrite (Z.add_comm (selling _ _)). apply M6. lia. }
    change (mkOfferCategory 1 0 SELL) with b_to_a_cat in E. rewrite E. cbn [result_bind].
    assert (Hun : forall n, (n < 2)%nat -> units (mkExperiment other' ob' (buffered_commit db3 v3)) n = units st n).
    { intros n Hlt. unfold units. rewrite (Z.add_comm (selling n (dt_entries (a_to_b _)))), (Z.add_comm (selling n (dt_entries (a_to_b st)))).
      apply Hb. lia. }
    split; [|split; [done|split; [apply Hn|done]]]. constructor; cbn [a_to_b b_to_a exp_db]; try done; [apply Hn| | |].
    + intros n Hlt. apply Hb. lia.
    + intros p q Hp' Hq. rewrite Z.mul_comm. by apply Hu.
    + intros n Hlt. specialize (M6 n Hlt). rewrite <- (Hun n Hlt) in M6. exact M6.
Qed.
End Market.

(** ** Properties *)
Module ExperimentProps.
Section Props.
Context {T : Type} `{SequenceTrackerRefines T}.
Context {CT : Type} `{MerkleTrie AccountCommitment CT}.
Context {L : Type} `{LMDBInstance L}.
Context {BT : Type} `{DeletableTrie BT} `{BigEndian}.

(** C28: the serial market is safe.  From a well formed market, any sequence of
    offers with valid prices and amounts by existing accounts is executed
    without an exception, except that the run stops at an offer whose sequence
    number its account refuses.  Afterwards no balance is negative, no offer of
    one side crosses one of the other, every resting offer is under its key and
    its number stays taken, and the units of both assets, on accounts and in
    resting offers, are exactly what they were. *)
Theorem exec_offers_keeps_market (st : SerialOrderbookExperiment T CT L BT) (offers : list Offer)
    (Hst : market_ok st) (Hoffers : Forall (placeable st) offers) :
  match exec_offers st offers with
  | Ok st' => market_ok st' /\ forall n, (n < 2)%nat -> units st' n = units st n
  | Throw e => e = refused /\ exists pre o post st1, offers = pre ++ o :: post /\ exec_offers st pre = Ok st1 /\
      market_ok st1 /\ number_taken (exp_db st1) (owner o) (sequence_of o)
  end.
Proof.
  revert st Hst Hoffers. induction offers as [|o offers IH]; intros st Hst Hoffers; [done|].
  apply Forall_cons in Hoffers as [Ho Hoffers]. cbn [exec_offers].
  pose proof (exec_one_offer_spec st o Hst Ho) as Hstep. destruct (exec_one_offer st o) as [st1|e] eqn:E; cbn [result_bind].
  - destruct Hstep as (Hst1 & Hun & Hmap & _).
    assert (Hoffers1 : Forall (placeable st1) offers).
    { eapply Forall_impl; [exact Hoffers|]. intros o' (? & ? & ?). split; [done|]. split; [done|].
      unfold MemoryDatabase.lookup_user in *. by rewrite Hmap. }
    specialize (IH st1 Hst1 Hoffers1). destruct (exec_offers st1 offers) as [st'|e'].
    + destruct IH as [IH1 IH2]. split; [done|]. intros n Hn. by rewrite IH2, Hun.
    + destruct IH as (-> & pre & o' & post & st2 & -> & E2 & Ht). split; [done|].
      exists (o :: pre), o', post, st2. split; [done|]. split; [|done]. cbn [exec_offers]. by rewrite E.
  - destruct Hstep as [-> Ht]. split; [done|]. by exists [], o, offers, st.
Qed.
End Props.

(** Two accounts with 100 units of one asset each. *)
Definition trader (owner a b : Z) : UserAccount.t UInt64SequenceTracker.t :=
  UserAccount.mk [RevertableAsset.mk a a; RevertableAsset.mk b b] [] (UInt64SequenceTracker.mk 256 0) owner [].
Definition traders_db : DatabaseProps.example_t :=
  MemoryDatabase.mk (<[7 := 0%nat]> {[8 := 1%nat]}) ∅ [trader 7 100 0; trader 8 0 100] [] ∅ AccountLMDBProps.example_db [].
Definition opening : SerialOrderbookExperiment _ _ _ SerialMap.t := mkExperiment dt_empty dt_empty traders_db.

(** Account 7 sells 10 units for two of the other asset each, account 8 buys
    them and leaves 5 units of its offer. *)
Definition sell_offer : Offer := mkOffer a_to_b_cat 768 7 10 (2 ^ 25).
Definition buy_offer : Offer := mkOffer b_to_a_cat 768 8 25 (2 ^ 23).

Lemma sell_offer_wf : offer_wf sell_offer.
Proof. unfold offer_wf, Price.valid, in_u64. rewrite Price.MAX_PRICE_val. cbn. lia. Qed.
Lemma buy_offer_wf : offer_wf buy_offer.
Proof. unfold offer_wf, Price.valid, in_u64. rewrite Price.MAX_PRICE_val. cbn. lia. Qed.

Lemma traders_ok : db_ok traders_db.
Proof.
  split.
  - repeat constructor; vm_compute; try discriminate; try reflexivity.
  - intros id i. cbn [traders_db MemoryDatabase.user_id_to_idx_map MemoryDatabase.database].
    rewrite lookup_insert_Some, lookup_singleton_Some. destruct i as [|[|i]]; naive_solver.
Qed.

Lemma opening_ok : market_ok opening.
Proof.
  constructor.
  - exact traders_ok.
  - intros [|[|n]] Hn; [| |lia]; repeat constructor; vm_compute; discriminate.
  - split; [reflexivity|constructor].
  - split; [reflexivity|constructor].
  - intros p q Hp. by apply elem_of_nil in Hp.
  - intros [|[|n]] Hn; [| |lia]; vm_compute; reflexivity.
Qed.

Lemma exec_offers_keeps_market_witness :
  exists st', exec_offers opening [sell_offer; buy_offer] = Ok st' /\ market_ok st' /\ units st' 1 = 100 /\
    (fun p => amount p.2) <$> dt_entries (a_to_b st') = [5] /\ dt_entries (b_to_a st') = [].
Proof.
  pose proof (exec_offers_keeps_market opening [sell_offer; buy_offer] opening_ok) as Hm.
  destruct (exec_offers opening [sell_offer; buy_offer]) as [st'|e] eqn:E; [|vm_compute in E; discriminate].
  destruct Hm as [Hok Hun].
  { apply Forall_cons; split; [|apply Forall_cons; split; [|constructor]].
    - split; [exact sell_offer_wf|]. split; [by left|]. by exists 0%nat.
    - split; [exact buy_offer_wf|]. split; [by right|]. by exists 1%nat. }
  exists st'. split; [reflexivity|]. split; [exact Hok|]. split; [rewrite Hun by lia; vm_compute; reflexivity|].
  vm_compute in E. injection E as <-. split; vm_compute; reflexivity.
Defined.

(** The book in which the first offer rests. *)
Definition resting_book : SerialMap.t := add_offer dt_empty sell_offer.

Lemma try_execute_matches_witness :
  exists ob' v', try_execute resting_book (2 ^ 25) 25 traders_db empty_buffered = Ok (ob', (20, 10), traders_db, v') /\
    dt_entries ob' = [].
Proof.
  destruct (AuctionProps.try_execute_matches resting_book (2 ^ 25) 25 traders_db empty_buffered 1)
    as (ob' & E & Ee & _).
  - assert (El : dt_entries resting_book = [(Key.offer_key sell_offer, sell_offer)]) by (vm_compute; reflexivity).
    constructor; [vm_compute; reflexivity| |]; rewrite El; (constructor; [|constructor]); [|reflexivity].
    split; [exact sell_offer_wf|]. split; [reflexivity|]. by exists 0%nat.
  - lia.
  - exists 0. split; [lia|]. intros i. by vm_compute.
  - vm_compute. reflexivity.
  - exists ob', (pay_owners traders_db empty_buffered (match_book (2 ^ 25) 25 (dt_entries resting_book)).1).
    split; [exact E|]. rewrite Ee. vm_compute. reflexivity.
Defined.
End ExperimentProps.
