(* ===== verification/TxExamples.v ===== *)
(** * Concrete transactions

    The theorems about [process_transaction] on the example database: one
    account that owns 90 units of the native asset, two assets, no offers. *)
From stdpp Require Import base gmap list strings sorting.
From S2P Require Import Prelude Types PriceArith Asset SeqTracker Accounts AccountLmdb Database Offers Clearing Demand DbView SerialManager Orderbook OrderbookProps Manager TxProcessor TxAtomicity.
Import OrderbookProps.

Definition no_signature (tx : Transaction) (sig : list Z) (pk : PublicKey) : bool := true.
Definition empty_market : OrderbookManager (TR := MapTrie.t) :=
  mkManager [mk example_category ot_empty ot_empty [] 0 []; mk (mkOfferCategory 1 0 SELL) ot_empty ot_empty [] 0 []] 2 0 2.
Definition empty_buffer : BaseSerialManager (TR := MapTrie.t) (M := OrderbookManager (TR := MapTrie.t)) :=
  mkSerial empty_market [].
Definition no_log : list (Z * Z * Z) := [].

(** Prints 50 units of asset 1 and offers 40 units of asset 0 for it. *)
Definition trade_ops : list Operation :=
  [MONEY_PRINTER (mkMoneyPrinterOp 1 50);
   CREATE_SELL_OFFER (mkCreateSellOfferOp example_category 40 Price.PRICE_ONE)].
Definition trade (more : list Operation) : SignedTransaction :=
  mkSignedTransaction (mkTransaction (mkTransactionMetadata 7 768) (trade_ops ++ more) 1000) [].
(** As much again as the account owned. *)
Definition too_much : Operation := PAYMENT (mkPaymentOp 7 0 90).

Definition run (stx : SignedTransaction) (db : DatabaseProps.example_t) :=
  process_transaction no_signature false empty_buffer db stx zero_stats no_log.

Lemma trade_ready more :
  Forall (op_ok 2) more -> (length more <= 1)%nat ->
  tx_ready empty_buffer DatabaseProps.example_db (transaction (trade more)).
Proof.
  intros Hm Hl. constructor.
  - split; [|apply DatabaseProps.example_wf]. repeat constructor; vm_compute; try discriminate; try reflexivity.
  - split; [vm_compute; split; discriminate|reflexivity].
  - vm_compute. split; [discriminate|reflexivity].
  - vm_compute. split; [discriminate|reflexivity].
  - unfold MAX_OPS_PER_TX. cbn [trade transaction operations]. rewrite length_app. cbn [trade_ops length]. lia.
  - cbn [trade transaction operations]. apply Forall_app. split; [|exact Hm].
    repeat constructor; vm_compute; try discriminate; try reflexivity.
  - intros i _ n p Hp. destruct n; reflexivity.
Qed.


(** The cancellation of an offer in a pair that is not listed is not a failure of the
    transaction: its error leaves the processor. *)
Definition unlisted : Operation := CANCEL_SELL_OFFER (mkCancelSellOfferOp (mkOfferCategory 0 5 SELL) 5 1).
Lemma unlisted_cancel_throws :
  tx_ready empty_buffer DatabaseProps.example_db (transaction (trade [unlisted])) /\
  run (trade [unlisted]) DatabaseProps.example_db = Throw "invalid asset number".
Proof.
  split; [|vm_compute; reflexivity]. apply trade_ready; [|reflexivity].
  constructor; [|constructor]. split; [by split|]. intros [E _]. discriminate.
Qed.

Lemma successful_transaction_conserves_assets_witness :
  exists s' db' stats' lg', run (trade []) DatabaseProps.example_db = Ok (s', db', stats', lg', SUCCESS) /\
    i64 (all_units empty_buffer DatabaseProps.example_db 0 + net_printed (transaction (trade [])) 0) = 70 /\
    i64 (all_units s' db' 0) = 70.
Proof.
  destruct (run (trade []) DatabaseProps.example_db) as [[[[[s' db'] stats'] lg'] st]|] eqn:E;
    [|vm_compute in E; discriminate].
  assert (st = SUCCESS) as -> by (vm_compute in E; injection E as <- <- <- <- <-; reflexivity).
  assert (Hv : i64 (all_units empty_buffer DatabaseProps.example_db 0 + net_printed (transaction (trade [])) 0) = 70)
    by (vm_compute; reflexivity).
  exists s', db', stats', lg'. split; [reflexivity|]. split; [exact Hv|]. rewrite <- Hv.
  apply (successful_transaction_conserves_assets no_signature false empty_buffer DatabaseProps.example_db (trade [])
    zero_stats no_log s' db' stats' lg' 0); [|lia|exact E].
  apply trade_ready; [constructor|]. cbn. lia.
Defined.

Lemma sequence_number_is_accepted_once_witness :
  exists s' db' stats' lg' s3 db3 stats3 lg3 st,
    run (trade []) DatabaseProps.example_db = Ok (s', db', stats', lg', SUCCESS) /\
    run (mkSignedTransaction (mkTransaction (mkTransactionMetadata 7 768) [] 1000) []) db' = Ok (s3, db3, stats3, lg3, st) /\
    st <> SUCCESS.
Proof.
  destruct (run (trade []) DatabaseProps.example_db) as [[[[[s' db'] stats'] lg'] st]|] eqn:E;
    [|vm_compute in E; discriminate].
  assert (st = SUCCESS) as -> by (vm_compute in E; injection E as <- <- <- <- <-; reflexivity).
  set (again := mkSignedTransaction (mkTransaction (mkTransactionMetadata 7 768) [] 1000) []).
  destruct (run again db') as [[[[[s3 db3] stats3] lg3] st]|] eqn:E2;
    [|exfalso; vm_compute in E; injection E as <- <- <- <-; vm_compute in E2; discriminate].
  exists s', db', stats', lg', s3, db3, stats3, lg3, st. split; [reflexivity|]. split; [exact E2|].
  apply (sequence_number_is_accepted_once no_signature false empty_buffer DatabaseProps.example_db (trade [])
    zero_stats no_log s' db' stats' lg' empty_buffer again zero_stats no_log s3 db3 stats3 lg3 st); [|exact E|reflexivity|exact E2].
  apply trade_ready; [constructor|]. cbn. lia.
Defined.
