(* ===== verification/BlockExamples.v ===== *)
(** * Concrete blocks

    The theorems of BlockAssembly.v on a block of the example database, and an
    interleaving of two threads that exceeds the block size limit. *)
From stdpp Require Import base gmap list strings.
From S2P Require Import Prelude Types PriceArith Asset SeqTracker Accounts AccountLmdb Database Offers Clearing Demand DbView SerialManager Orderbook OrderbookProps Manager Mempool TxProcessor TxAtomicity BlockProducer BlockAssembly TxExamples.

(** A transaction without operations. *)
Definition idle (seq : Z) : SignedTransaction := mkSignedTransaction (mkTransaction (mkTransactionMetadata 7 seq) [] 1000) [].
Definition three_chunks : list Chunk :=
  [MempoolChunk.of_txs [trade []; idle 1024]; MempoolChunk.of_txs [idle 1280]; MempoolChunk.of_txs [idle 768]].
(** The first thread has the first two chunks. *)
Definition two_ranges : list (list (list nat)) := [[[0%nat; 1%nat]]; [[2%nat]]].
Definition start (max_block_size : Z) : State (M := OrderbookManager (TR := MapTrie.t)) (TR := MapTrie.t) :=
  block_start empty_market DatabaseProps.example_db three_chunks max_block_size no_log two_ranges.
Definition schedule (sched : list nat) (max_block_size : Z) := run_schedule no_signature false sched (start max_block_size).

Definition in_turns : list nat := concat (replicate 18 [0%nat; 1%nat]).
Definition one_by_one : list nat := replicate 18 0%nat ++ replicate 18 1%nat.

Lemma three_chunks_ready : block_ready empty_market DatabaseProps.example_db three_chunks two_ranges.
Proof.
  constructor.
  - split; [|apply DatabaseProps.example_wf]. repeat constructor; vm_compute; try discriminate; try reflexivity.
  - split; [vm_compute; split; discriminate|reflexivity].
  - repeat constructor; vm_compute; try discriminate; try reflexivity.
  - repeat constructor; vm_compute; lia.
Qed.

Lemma three_chunks_listed : cancels_listed (mm_num_assets empty_market) three_chunks.
Proof. repeat constructor. Qed.


Lemma block_assembly_terminates_witness :
  exists sh ths, schedule in_turns 10 = Ok (sh, ths) /\ forallb finished ths = true.
Proof.
  destruct (block_assembly_terminates no_signature false empty_market DatabaseProps.example_db three_chunks 10 no_log
    two_ranges in_turns three_chunks_ready three_chunks_listed) as (sh & ths & E & _ & Hf).
  - intros [|[|k]] r Hr; vm_compute in Hr; [| |discriminate]; injection Hr as <-; vm_compute; lia.
  - exists sh, ths. split; [exact E|exact Hf].
Defined.

Lemma block_size_is_limited_witness :
  exists st, schedule one_by_one 1 = Ok st /\ total_block_size st.1 <= 1.
Proof.
  destruct (schedule one_by_one 1) as [st|] eqn:E; [|vm_compute in E; discriminate].
  exists st. split; [reflexivity|].
  apply (block_size_is_limited no_signature false empty_market DatabaseProps.example_db three_chunks 1 no_log
    two_ranges one_by_one st three_chunks_ready); [lia| | |exact E].
  - repeat constructor.
  - vm_compute. reflexivity.
Defined.

(** When two threads reserve space at the same time, the block can exceed
    its limit: the thread that finds no space left returns more than it took.
    With room for one transaction, this interleaving of two threads accepts two. *)
Lemma concurrent_reservations_exceed_limit :
  exists sched sh ths, schedule sched 1 = Ok (sh, ths) /\ forallb finished ths = true /\ total_block_size sh = 2.
Proof.
  exists ([0; 1; 1; 0]%nat ++ replicate 20 0%nat).
  destruct (schedule _ 1) as [[sh ths]|] eqn:E; [|vm_compute in E; discriminate]. exists sh, ths.
  assert (Hv : match schedule ([0; 1; 1; 0]%nat ++ replicate 20 0%nat) 1 with
    | Ok (sh, ths) => forallb finished ths = true /\ total_block_size sh = 2 | Throw _ => False end)
    by (vm_compute; split; reflexivity).
  rewrite E in Hv. split; [reflexivity|exact Hv].
Qed.
