(* ===== verification/ValidationExamples.v ===== *)
(** * A concrete block, validated

    The theorems of BlockDecision.v on a block of the example database, validated by
    two workers and, in another order, by one. *)
From stdpp Require Import base gmap list strings.
From S2P Require Import Prelude Types PriceArith Asset SeqTracker Accounts AccountLmdb Database Offers Clearing Demand DbView SerialManager Orderbook OrderbookProps Manager Mempool TxProcessor TxAtomicity BlockProducer BlockAssembly BlockValidator ValidationEffects ValidationProps BlockValidation BlockVerdict BlockMerging BlockDecision TxExamples BlockExamples.
Import OrderbookProps.

Definition nothing_executes : SingleOrderbookStateCommitment :=
  mkCommitment [] (write_u128_big_endian 0) zero_key 0 (write_u128_big_endian 0).
Definition example_header : OrderbookStateCommitmentChecker :=
  mkChecker [nothing_executes; nothing_executes] [Price.PRICE_ONE; Price.PRICE_ONE] 0.

(** A block of three transactions for two workers. *)
Definition divided : list (list (list (list SignedTransaction))) := [[list_items [trade []; idle 1024]]; [list_items [idle 1280]]].
Definition at_once : list (list (list (list SignedTransaction))) := [[[[idle 1280; idle 1024; trade []]]]].
Definition both_workers : list nat := concat (replicate 10 [0%nat; 1%nat]).

Definition validate (ranges : list (list (list (list SignedTransaction)))) (sched : list nat) :=
  validate_transaction_block_ no_signature false example_header empty_market DatabaseProps.example_db 0 no_log ranges sched []
    zero_stats.

Lemma example_ready ranges :
  Forall (tx_bounds 2) (block_txs ranges) -> validation_ready example_header empty_market DatabaseProps.example_db ranges.
Proof.
  intros Hb. constructor.
  - split; [|apply DatabaseProps.example_wf]. repeat constructor; vm_compute; try discriminate; try reflexivity.
  - split; [vm_compute; split; discriminate|reflexivity].
  - by constructor.
  - exact Hb.
  - repeat constructor.
  - reflexivity.
  - repeat constructor.
Qed.
Lemma divided_bounds : Forall (tx_bounds 2) (block_txs divided).
Proof. repeat constructor; vm_compute; try discriminate; try reflexivity. Qed.
Lemma example_prices_positive : prices_positive example_header.
Proof. repeat constructor. Qed.
Lemma divided_listed : block_cancels_listed empty_market divided.
Proof. repeat constructor. Qed.
Lemma divided_turns : enough_turns divided both_workers.
Proof. intros [|[|k]] r Hr; vm_compute in Hr; [| |discriminate]; injection Hr as <-; vm_compute; lia. Qed.

Lemma divided_accepted : match validate divided both_workers with Ok (_, _, _, _, _, b) => b = true | Throw _ => False end.
Proof. vm_compute. reflexivity. Qed.

Lemma block_validation_decides_witness :
  validation_ready example_header empty_market DatabaseProps.example_db divided /\ enough_turns divided both_workers /\
  exists m db lgs s st, validate divided both_workers = Ok (m, db, lgs, s, st, true) /\
    block_valid no_signature false example_header DatabaseProps.example_db empty_market (block_txs divided).
Proof.
  split; [apply example_ready, divided_bounds|]. split; [apply divided_turns|].
  destruct (block_validation_decides no_signature false example_header empty_market DatabaseProps.example_db no_log
    divided both_workers [] zero_stats (example_ready _ divided_bounds) example_prices_positive divided_turns)
    as [[(m & db & lgs & s & st & b & E & Hb)|(e & E & _)] Hl]; [|by destruct (Hl (or_introl divided_listed) e E)].
  pose proof divided_accepted as Hv.
  unfold validate in Hv. rewrite E in Hv. subst b. exists m, db, lgs, s, st. split; [exact E|]. by apply Hb.
Defined.

Lemma accepted_block_is_applied_witness :
  exists m db lgs s st, validate divided both_workers = Ok (m, db, lgs, s, st, true) /\
    Forall (fun stx => ~ accepts_number db (transaction stx)) (block_txs divided).
Proof.
  pose proof divided_accepted as Hv. revert Hv. unfold validate.
  destruct (validate_transaction_block_ _ _ _ _ _ _ _ _ _ _ _) as [[[[[[m db] lgs] s] st] b]|] eqn:E; intros Hv; [subst b|destruct Hv].
  destruct (accepted_block_is_applied no_signature false example_header empty_market DatabaseProps.example_db no_log
    divided both_workers [] zero_stats m db lgs s st (example_ready _ divided_bounds) divided_turns E) as (_ & Hn & _).
  exists m, db, lgs, s, st. split; [reflexivity|exact Hn].
Defined.

Lemma validation_order_irrelevant_witness :
  exists m1 db1 lgs1 s1 st1 m2 db2 lgs2 s2 st2,
    validate divided both_workers = Ok (m1, db1, lgs1, s1, st1, true) /\
    validate at_once (replicate 10 0%nat) = Ok (m2, db2, lgs2, s2, st2, true) /\ same_state m1 db1 s1 m2 db2 s2.
Proof.
  destruct (validation_order_irrelevant no_signature false example_header empty_market DatabaseProps.example_db no_log no_log
    divided at_once both_workers (replicate 10 0%nat) [] zero_stats zero_stats (example_ready _ divided_bounds) example_prices_positive divided_listed divided_turns)
    as (m1 & db1 & lgs1 & s1 & st1 & m2 & db2 & lgs2 & s2 & st2 & b & E1 & E2 & Hs).
  - intros [|k] r Hr; vm_compute in Hr; [|discriminate]. injection Hr as <-. vm_compute. lia.
  - change (block_txs divided) with ([trade []; idle 1024] ++ [idle 1280]).
    change (block_txs at_once) with ([idle 1280] ++ [idle 1024; trade []]).
    rewrite Permutation_app_comm. apply Permutation_app_head, Permutation_swap.
  - pose proof divided_accepted as Hv. unfold validate in Hv. rewrite E1 in Hv. subst b. exists m1, db1, lgs1, s1, st1, m2, db2, lgs2, s2, st2.
    split; [exact E1|]. split; [exact E2|]. by apply Hs.
Defined.
