(* ===== verification/EngineExamples.v ===== *)
(** * Concrete blocks, decided by a node

    The theorems of ModLogProps.v, EngineProps.v, Rejection.v and DatabaseReload.v on the
    example database, with two assets and no offers. *)
From stdpp Require Import base gmap list strings sorting.
From S2P Require Import Prelude RecyclingTrie Types PriceArith Asset SeqTracker Accounts AccountLmdb Database Offers Clearing Demand DbView SerialManager Orderbook OrderbookProps Manager Mempool HeaderMap TxProcessor TxAtomicity BlockProducer BlockAssembly BlockValidator ValidationEffects ValidationProps BlockValidation CommitmentTrie DatabaseReload Frames BlockDecision ModLog ModLogProps Engine EngineProps Vm Rejection TxExamples BlockExamples ValidationExamples.
Import OrderbookProps HeaderMapProps.

(** A log whose hash lists what was logged. *)
Definition entry_code (v : AccountModificationTxList) : list Z :=
  identifiers_self v ++ ((fun i => ti_owner i + ti_sequence_number i) <$> identifiers_others v) ++
  (sequence_number_of <$> new_transactions_self v).
#[global] Program Instance map_log : LogTrie (gmap Z AccountModificationTxList) := {
  lt_size t := Z.of_nat (size t);
  lt_apply f t := f <$> t;
  lt_hash t := merge_sort Z.le (map_to_list t).*1 ++ concat ((fun p => entry_code p.2) <$> map_to_list t)
}.
Next Obligation. done. Qed.
Next Obligation. done. Qed.
Next Obligation. intros t1 t2 E. cbn in E. by subst. Qed.
Next Obligation. intros t. apply (StronglySorted_merge_sort Z.le). Qed.

Abbreviation logs := (gmap Z AccountModificationTxList).
Definition two_threads : list (list LogEntry) := [[NewTransaction (idle 1024); SelfModification 7 3]; [NewTransaction (idle 768)]].
Definition one_thread : list (list LogEntry) := [[NewTransaction (idle 768); SelfModification 7 3; NewTransaction (idle 1024)]].
Definition logged_by (parts : list (list LogEntry)) : AccountModificationLog.t logs :=
  AccountModificationLog.with_cache AccountModificationLog.new (foldl log_one rt_empty <$> parts).

Lemma log_hash_is_order_independent_witness :
  exists m m', AccountModificationLog.merge_in_log_batch (logged_by two_threads) = Ok m /\
    AccountModificationLog.merge_in_log_batch (logged_by one_thread) = Ok m' /\
    (AccountModificationLog.hash m).2 = (AccountModificationLog.hash m').2.
Proof.
  destruct (log_hash_is_order_independent two_threads one_thread (logged_by two_threads) (logged_by one_thread))
    as (m & m' & E & E' & Eh & _); [done|done| | |].
  - cbn. rewrite Permutation_swap. symmetry. etransitivity; [apply Permutation_swap|]. apply perm_skip, Permutation_swap.
  - repeat constructor; set_solver.
  - by exists m, m'.
Defined.

Lemma persisted_block_is_logged_witness :
  exists m m' block, AccountModificationLog.merge_in_log_batch (logged_by two_threads) = Ok m /\
    AccountModificationLog.persist_block (AccountModificationLog.hash m).1 true false = Ok (m', Some block) /\
    write_tx_data block ≡ₚ [idle 1024; idle 768].
Proof.
  destruct (persisted_block_is_logged two_threads (logged_by two_threads)) as (m & m' & block & E & E' & Hp & _); [done| |].
  - repeat constructor; set_solver.
  - by exists m, m', block.
Defined.

(** ** A block that creates an account *)

(** A hash that keeps everything. *)
#[global] Instance example_hash : BlockHash := fun b =>
  prevBlockHash b ++ [block_number b] ++ prices b ++ [feeRate b] ++ dbHash (internalHashes b) ++
  concat (rootHash <$> clearingDetails (internalHashes b)) ++ modificationLogHash (internalHashes b) ++ blockMapHash (internalHashes b).

Abbreviation Node := (SpeedexManagementStructures UInt64SequenceTracker.t (gmap Z AccountCommitment) ((Z -> option AccountCommitment) * Z)
  MapTrie.t logs (gmap Z BlockHeaderHashValue) (gmap (list Z) BlockHeaderHashValue * Z)).
Definition example_node : Node :=
  mkStructures DatabaseProps.example_db [] empty_market AccountModificationLog.new example_map (mkApprox 0 0) false.
Definition genesis_block : HashedBlock := mkHashedBlock (mkBlock [] 0 [] 0 (mkInternalHashes [] [] [] [])) [0].
Definition proposed (details : list SingleOrderbookStateCommitment) (hash : list Z) : HashedBlock :=
  mkHashedBlock (mkBlock [0] 1 [Price.PRICE_ONE; Price.PRICE_ONE] 0 (mkInternalHashes [] details [] [])) hash.

(** Account 7 prints 100 units, pays a fee of 20 and gives 100 to the new account 8. *)
Definition creates : SignedTransaction :=
  mkSignedTransaction (mkTransaction (mkTransactionMetadata 7 768)
    [MONEY_PRINTER (mkMoneyPrinterOp 0 100); CREATE_ACCOUNT (mkCreateAccountOp 100 8 [])] 1000) [].
Definition one_worker : Division := mkDivision [[[[creates]]]] (replicate 5 0%nat) [[0%nat; 1%nat]].
Definition decide_block (header : HashedBlock) :=
  _speedex_block_validation_logic no_signature example_node genesis_block header one_worker.

Definition all_executes : SingleOrderbookStateCommitment :=
  mkCommitment [] (write_u128_big_endian 0) zero_key 1 (write_u128_big_endian 0).
Definition good_header : HashedBlock := proposed [all_executes; all_executes] [0; 1; 16777216; 16777216; 0; 775; 8; 7; 8; 768; 776].
(** The threshold keys are null and are said not to be. *)
Definition bad_commitments : HashedBlock := proposed [nothing_executes; nothing_executes] [].

Lemma example_between : between_blocks example_node.
Proof.
  constructor; [apply DatabaseProps.example_wf| | |by split].
  - repeat constructor; vm_compute; try discriminate; try reflexivity.
  - intros id [|i] a Hi Ha _; [|discriminate]. injection Ha as <-.
    cbn in Hi |- *. apply lookup_singleton_Some in Hi as [<- _]. apply lookup_singleton_eq.
Qed.
Lemma one_worker_ready details hash :
  validation_ready (commitment_checker (block (proposed [details; details] hash))) (orderbook_manager example_node) (db example_node)
    (dv_ranges one_worker).
Proof.
  constructor.
  - split; [|apply DatabaseProps.example_wf]. repeat constructor; vm_compute; try discriminate; try reflexivity.
  - split; [vm_compute; split; discriminate|reflexivity].
  - by constructor.
  - repeat constructor; vm_compute; try discriminate; try reflexivity.
  - repeat constructor.
  - reflexivity.
  - repeat constructor.
Qed.
Lemma one_worker_turns : enough_turns (dv_ranges one_worker) (dv_sched one_worker).
Proof. intros [|k] r Hr; vm_compute in Hr; [|discriminate]. injection Hr as <-. vm_compute. lia. Qed.

Lemma good_header_accepted : match decide_block good_header with Ok (_, b) => b = true | Throw _ => False end.
Proof. vm_compute. reflexivity. Qed.
Lemma bad_commitments_rejected : match decide_block bad_commitments with Ok (_, b) => b = false | Throw _ => False end.
Proof. vm_compute. reflexivity. Qed.

Lemma accepted_block_commits_to_state_witness :
  exists st', decide_block good_header = Ok (st', true) /\ between_blocks st'.
Proof.
  pose proof good_header_accepted as Hv. revert Hv. unfold decide_block.
  destruct (_speedex_block_validation_logic _ _ _ _ _) as [[st' b]|] eqn:E; intros Hv; [subst b|destruct Hv].
  destruct (accepted_block_commits_to_state no_signature example_node genesis_block good_header one_worker st' example_between
    (one_worker_ready _ _) one_worker_turns E) as [_ Hb]. exists st'. by split.
Defined.

Definition bad_checker : OrderbookStateCommitmentChecker := commitment_checker (block bad_commitments).
Definition creates_accepted (checker : OrderbookStateCommitmentChecker) : Prop :=
  match validate_transaction_block_ no_signature false checker empty_market DatabaseProps.example_db 0
    (rt_empty : logs) (dv_ranges one_worker) (dv_sched one_worker) [] zero_stats with Ok (_, _, _, _, _, b) => b = true | Throw _ => False end.
Lemma creates_block_valid details (checker := commitment_checker (block (proposed [details; details] []))) :
  creates_accepted checker ->
  block_valid no_signature false checker DatabaseProps.example_db empty_market (block_txs (dv_ranges one_worker)) /\
  balances_valid no_signature false checker DatabaseProps.example_db empty_market (block_txs (dv_ranges one_worker)).
Proof.
  unfold creates_accepted. intros Hv.
  destruct (validation_outcome no_signature false checker empty_market DatabaseProps.example_db (rt_empty : logs)
    (dv_ranges one_worker) (dv_sched one_worker) [] zero_stats (one_worker_ready details []) one_worker_turns)
    as [(m & d & lgs & s & st & b & E & Hb & _)|(e & E & _)].
  - rewrite E in Hv. subst b. by apply Hb.
  - rewrite E in Hv. destruct Hv.
Qed.
Lemma creates_valid : creates_accepted bad_checker /\ creates_accepted (commitment_checker (block good_header)).
Proof. split; vm_compute; reflexivity. Qed.
Lemma bad_acceptable : header_acceptable example_node genesis_block bad_commitments = true.
Proof. vm_compute. reflexivity. Qed.
Lemma bad_clears : check_clearing bad_checker = Ok true.
Proof. vm_compute. reflexivity. Qed.
Lemma creates_effect : exists e, e ∈ effects no_signature false bad_checker DatabaseProps.example_db empty_market (block_txs (dv_ranges one_worker)) /\
  (8, []) ∈ created e /\ moved_to e (NewPtr 8) 0 = 100.
Proof. eexists. split; [by left|]. split; [by left|]. vm_compute. reflexivity. Qed.

(** Account 7 has its 100 units back, and account 8 has 100 more. *)
Lemma rejected_clearing_keeps_new_accounts_witness :
  exists st' a b i, decide_block bad_commitments = Ok (st', false) /\
    MemoryDatabase.database (db st') !! 0%nat = Some a /\ RevertableAsset.available (UserAccount.asset_of a 0) = 100 /\
    MemoryDatabase.lookup_user (db st') 8 = Some i /\ MemoryDatabase.database (db st') !! i = Some b /\
    RevertableAsset.available (UserAccount.asset_of b 0) = 100.
Proof.
  pose proof bad_commitments_rejected as Hv. revert Hv. unfold decide_block.
  destruct (_speedex_block_validation_logic _ _ _ _ _) as [[st' b]|] eqn:E; intros Hv; [subst b|destruct Hv].
  destruct (creates_block_valid nothing_executes (proj1 creates_valid)) as [H1 H2]. destruct creates_effect as (e & He & Hc & Hm).
  pose proof (rejected_clearing_keeps_new_accounts no_signature example_node genesis_block bad_commitments one_worker st' example_between) as Hr.
  specialize (Hr (one_worker_ready _ _) one_worker_turns (Forall_nil_2 _) bad_acceptable bad_clears). specialize (Hr H1 H2 E).
  destruct Hr as [Hold Hnew].
  destruct (Hold 0%nat _ eq_refl) as (a & Ea & Ra). destruct (Hnew e 8 [] He Hc) as (i & b & Ei & Eb & Rb).
  exists st', a, b, i. split; [reflexivity|]. split; [exact Ea|]. split; [rewrite (Ra 0%nat) by (cbn; lia); reflexivity|].
  split; [exact Ei|]. split; [exact Eb|]. rewrite (Rb 0%nat), Hm. reflexivity.
Defined.

(** ** A node that skips a block *)
Definition example_vm : SpeedexVM UInt64SequenceTracker.t (gmap Z AccountCommitment) ((Z -> option AccountCommitment) * Z)
    MapTrie.t logs (gmap Z BlockHeaderHashValue) (gmap (list Z) BlockHeaderHashValue * Z) :=
  mkVM example_node (Mempool.new 1000 100000) genesis_block genesis_block 0 [].
(** It does not point to the block before it. *)
Definition wrong_parent : HashedBlock :=
  mkHashedBlock (mkBlock [1] 1 [Price.PRICE_ONE; Price.PRICE_ONE] 0 (mkInternalHashes [] [all_executes; all_executes] [] [])) [].

(** The block that would follow it, with the transaction of the accepted block. *)
Definition next_block : HashedBlock :=
  mkHashedBlock (mkBlock [1; 1; Price.PRICE_ONE; Price.PRICE_ONE; 0] 2 [Price.PRICE_ONE; Price.PRICE_ONE] 0
    (mkInternalHashes [] [all_executes; all_executes] [] [])) [].
Lemma next_block_good vm1 :
  exec_block no_signature example_vm wrong_parent one_worker = Ok vm1 -> good_block no_signature vm1 next_block one_worker.
Proof.
  intros E. assert (Hms : exists hm, management_structures vm1 = set_header_map example_node hm /\ number (last_committed_block vm1) = 1 /\
    block_hash (last_committed_block vm1) = prevBlockHash (block next_block)).
  { vm_compute in E. injection E as <-. eexists. split; [reflexivity|]. by split. }
  destruct Hms as (hm & Em & En & Ep). destruct (creates_block_valid all_executes (proj2 creates_valid)) as [H1 H2].
  constructor; rewrite ?Em.
  - unfold header_acceptable. unfold number in En. by rewrite En, Ep.
  - repeat constructor.
  - vm_compute. reflexivity.
  - exact (one_worker_ready all_executes []).
  - apply one_worker_turns.
  - exact H1.
  - exact H2.
Qed.

Lemma rejected_header_stops_the_chain_witness :
  exists vm1, exec_block no_signature example_vm wrong_parent one_worker = Ok vm1 /\
    (exists e, exec_block no_signature vm1 next_block one_worker = Throw e) /\
    forall header vm2, exec_blocks no_signature vm1 [(header, one_worker)] = Ok vm2 ->
      forall TARGET_BLOCK_SIZE pr, exists e, propose no_signature vm2 TARGET_BLOCK_SIZE pr = Throw e.
Proof.
  destruct (rejected_header_stops_the_chain no_signature example_vm wrong_parent one_worker (Mempool.new 1000 100000) 0)
    as (vm1 & E & _ & _ & Hl).
  - reflexivity.
  - vm_compute. reflexivity.
  - vm_compute. by split.
  - by split.
  - reflexivity.
  - reflexivity.
  - vm_compute. reflexivity.
  - vm_compute. reflexivity.
  - exists vm1. split; [exact E|]. split.
    + apply (Hl [] vm1); [reflexivity|reflexivity|]. by apply next_block_good.
    + intros header vm2 E2. apply (Hl [(header, one_worker)] vm2); [reflexivity|exact E2].
Defined.

(** ** Restarting and going back *)
Definition nothing_loaded : DatabaseProps.example_t := MemoryDatabase.mk ∅ ∅ [] [] ∅ AccountLMDBProps.example_db [].
Lemma restart_restores_state_witness :
  exists d', DatabaseReload.load_lmdb_contents_to_memory nothing_loaded [[]; [(7, DatabaseProps.record 7)]] = Ok d' /\
    trie_hash (MemoryDatabase.commitment_trie d') = trie_hash (MemoryDatabase.commitment_trie DatabaseProps.example_db).
Proof.
  destruct (ReloadProps.restart_restores_state DatabaseProps.example_db nothing_loaded [[]; [(7, DatabaseProps.record 7)]])
    as (d' & E & _ & _ & _ & _ & Eh); [apply DatabaseProps.example_wf|apply example_between| | |reflexivity|by exists d'].
  - repeat constructor; vm_compute; try discriminate; try reflexivity; lia.
  - by split.
Defined.

(** Block 1 took 40 units from account 7; the disk is still at block 0. *)
Definition after_block : DatabaseProps.example_t :=
  MemoryDatabase.mk {[ 7 := 0%nat ]} ∅ [UserAccount.mk [RevertableAsset.mk 60 60] [] (UInt64SequenceTracker.mk 512 0) 7 []] []
    {[ 7 := mkAccountCommitment 7 [mkAssetCommitment 0 60] 512 [] ]}
    (AccountLMDB.create_db (replicate 16 ((fun k => if k =? 7 then Some (DatabaseProps.record 7) else None), 0))) [mkCreationThunk 1 0].
Definition block_1 : list AccountLmdb.DBPersistenceThunk := [AccountLmdb.mkThunk [mkThunkKVPair 7 (Some (mkAccountCommitment 7 [mkAssetCommitment 0 60] 512 []))] 1].
Lemma after_block_wf : MemoryDatabase.wf after_block.
Proof.
  constructor.
  - intros id i. cbn. rewrite lookup_singleton. destruct i as [|i].
    + case_decide as E; [subst|]; (split; [|intros (a & [= <-] & Ea)]); try done. intros _. by eexists.
    + case_decide as E; (split; [done|]); by intros (a & ? & _).
  - intros id. cbn. rewrite !lookup_singleton. case_decide; split; intros [? ?]; eauto; done.
Qed.
Lemma rewound_trie_is_stale :
  exists d' a, DatabaseReload.clear_persistence_thunks_and_reload (fun a => a * 0x1000_0000) after_block block_1 0 = Ok (d', []) /\
    MemoryDatabase.database d' !! 0%nat = Some a /\ RevertableAsset.available (UserAccount.asset_of a 0) = 100 /\ ~ trie_current d'.
Proof.
  destruct (DatabaseReload.clear_persistence_thunks_and_reload (fun a => a * 0x1000_0000) after_block block_1 0) as [[d' ths]|] eqn:E;
    [|vm_compute in E; discriminate].
  assert (Hd : MemoryDatabase.user_id_to_idx_map d' !! 7 = Some 0%nat /\ ths = []).
  { vm_compute in E. injection E as <- <-. by split. }
  destruct Hd as [Hd ->].
  destruct (ReloadProps.rewind_leaves_trie_stale (fun a => a * 0x1000_0000) after_block block_1 0 d' [] 7 0%nat (DatabaseProps.record 7)
    (UserAccount.mk [RevertableAsset.mk 100 100] [] (UInt64SequenceTracker.mk 256 0) 7 [])) as (Ha & _ & Hs).
  - apply after_block_wf.
  - exact E.
  - exact Hd.
  - repeat constructor.
  - vm_compute. reflexivity.
  - vm_compute. reflexivity.
  - eexists d', _. split; [reflexivity|]. split; [exact Ha|]. split; [reflexivity|]. apply Hs; [vm_compute; lia|].
    vm_compute. discriminate.
Defined.
